(* ===== verification/_CoqProject ===== *)
-Q . S2P
Prelude.v
GoNet.v
Identity.v
AddrText.v
Canonical.v
Text.v
Json.v
JsonFacts.v
Vocabulary.v
Store.v
Session.v
Replay.v
Signature.v
SignatureFacts.v
Admission.v
AdmissionFacts.v
AdmissionPromise.v
Growth.v
GrowthFacts.v
GrowthGuard.v
Repository.v
Paging.v
Lifecycle.v
Discovery.v
Reachability.v
Candidates.v
Pruning.v
Invariant.v
Contract.v
Refinement.v
System.v
Guarantees.v
CandidateContract.v
CandidateFacts.v
ReachabilityFacts.v
PruningFacts.v
Health.v
Telemetry.v
Profile.v
Requests.v
Handler.v
HandlerFacts.v
HandlerAnswers.v
ProfileNormal.v
Csv.v
RequestFacts.v
Directory.v
Evidence.v
DirectoryFacts.v
DirectoryPages.v
DirectoryScan.v
DirectoryWalk.v
ProfileFacts.v
ProfileReplace.v
HandlerGuarantees.v
HandlerRefinement.v
HandlerExamples.v
DirectoryExamples.v
Retention.v
RetentionPurge.v
RetentionFacts.v
RetentionRun.v
Writes.v
Readable.v
Network.v
DialFacts.v
Resolver.v
ResolverFacts.v
KeyCache.v
KeyCacheFacts.v
Reads.v
ReadsFacts.v
WebText.v
PublicCursor.v
PublicApi.v
PublicApiFacts.v
PublicListingFacts.v
Export.v
