(* ===== verification/Prelude.v ===== *)
(** * Activity-Relay Directory: root of the verification development

    A directory of public ActivityPub relays in Go.  Relays register, send heartbeats
    and leave with signed requests; operators list relays of their own; the directory
    probes actors and inboxes, prunes and purges what is inactive, and publishes
    listings over HTTP.  Everything it knows is in one SQLite database of which one
    process is the writer.

    ** Parts and how they interact

    A signed request passes the source limiter, is decoded strictly, its key is
    resolved from the relay's actor document through the key cache and the guarded
    dialer, its signature is verified and its nonce reserved, it passes the actor
    limiter, and it runs one lifecycle transaction, then a profile and a telemetry
    write.  Every transaction is admitted by the growth guard.  Maintenance runs page
    through due relays and write what they observe; the public handlers read pages of
    the directory and seal the continuation in a cursor.  Components meet at
    interfaces: [RelayIdentity] (Identity) between the URL code and the stores, the
    prober and repository records of the runs, [ProfileReader] (Directory) between the
    listing and profiles, [SignatureLibraries] (Signature) between verification and the
    libraries it calls, and the promises of Contract between transactions and
    their callers.

    ** Files

    Shared: this file (byte strings, lists, order, [result], tactics and hint
    databases); GoNet, Text, Json, JsonFacts and WebText (what the program uses of the
    Go library, as code, with its round trips); Vocabulary (errors, closed
    vocabularies and token grammars of [internal/storage] and [internal/protocol/v1]).

    Identities: Identity, AddrText, Canonical ([internal/protocol/v1/identity.go]).

    Tables and transactions: Store (the migrations' tables, CHECK constraints and
    triggers; statements, commit and rollback under failing drivers), Session (the
    same for repositories with tables of their own), Repository and Paging (what the
    methods of [internal/storage/sqlite] share).

    Repositories of [internal/storage/sqlite], each with the limits and validation of
    [internal/storage]: Lifecycle (relay.go, moderation.go, enrollment.go), Discovery
    (discovery.go), Reachability (reachability.go and [internal/reachability]),
    Pruning (pruning.go and [internal/pruning]), Candidates (discovery_candidate.go and
    [internal/candidatemaintenance]), Retention (retention.go and
    [internal/retention]), Health (health.go, public_listing.go), Telemetry
    (telemetry.go), Profile with ProfileNormal (profile.go), Replay (replay.go, with
    the in-memory store of the protocol; it holds its own facts), Directory
    (directory_projection.go), Reads (moderation_read.go, directory_summary.go),
    Growth (growth.go).

    Their specifications: Invariant (what a valid database is), Contract (what each
    operation promises of the whole database), Refinement (the transactions keep the
    promises), System (the twelve operations under one name, failures included),
    Guarantees; CandidateContract and CandidateFacts; ReachabilityFacts; PruningFacts;
    ProfileFacts and ProfileReplace; RetentionPurge, RetentionFacts and RetentionRun;
    Evidence, DirectoryFacts, DirectoryPages, DirectoryScan, DirectoryWalk and
    DirectoryExamples; ReadsFacts; GrowthFacts and GrowthGuard.  Writes puts all
    tables side by side and closes over every write of every repository, purges
    included: [store_ok] holds of each store so reached, and Readable shows that it
    satisfies the hypothesis of the theorems on the public listings.

    Requests: Signature and SignatureFacts ([internal/protocol/v1/rfc9421.go],
    content_digest.go, replay.go), Admission, AdmissionFacts and AdmissionPromise
    ([internal/admission]), Requests and RequestFacts ([internal/protocol/v1], v2 and
    v3), Handler, HandlerFacts, HandlerAnswers, HandlerGuarantees, HandlerRefinement
    and HandlerExamples ([internal/httpapi/lifecycle.go]).

    Outgoing: Network and DialFacts, Resolver and ResolverFacts, KeyCache and
    KeyCacheFacts ([internal/actorresolver]).

    Public: PublicCursor, PublicApi, PublicApiFacts and PublicListingFacts
    ([internal/httpapi/public_listing.go] and directory_projection.go), Csv
    ([internal/profilecsv/csv.go]), Export ([internal/directoryexport/export.go] and
    [internal/httpapi/directory_export.go]).

    A file named Facts may also hold the concrete examples of its part.

    ** State and operations

    A Go struct is a record, a table a [gmap] from its key to a row record with its
    CHECK constraints as a boolean function, an append-only log a list.  A method is a
    function from its arguments, the outcomes of its driver calls and the state to a
    [result] and the next state, statement by statement; errors are values of
    [error].  An integer column is a [Z] with the int64 bounds the code tests; times
    are nanosecond readings with [unix_of].  Shared objects are explicit: permits are
    indices into the limiter's list, cache entries are named by their list element,
    and handlers, growth-guard threads and cache calls are steps of systems that
    interleave them.

    ** What the theorems show

    - Repository: each of the twelve operations and both candidate methods refine an
      independent promise under any faults; every reachable store is valid; relays
      move along one state machine; each accepted operation appends the one event its
      answer calls for; profile replacement and purge batches have an exact effect.
    - Listings and runs: every paged read (probes, candidates, pruning, retention,
      audit trail, public directory, health listing) shows every row once and in
      order; runs terminate within their bound with counts that add up.
    - Requests: every request is answered; a success means a verified signature, the
      promised transition and balanced permits; nothing else writes; bodies round
      trip; no signature is accepted twice; the limiter equals ideal token buckets.
    - Guard: a write is admitted exactly below the budgets, with hysteresis, and the
      persisted alert row stays valid and readable under any interleaving.
    - Resolver: a key is resolved exactly under the stated conditions, from public
      addresses only; cached keys are fresh and the cache is a bounded LRU list.
    - Public HTTP: cursors are canonical and authentic; a client that follows them
      reads the complete listing; downloads are complete or refused; the CSV exchange
      round trips and contains no formula.

    ** Bounds and fuel

    Runs use the code's own budgets plus one: [run_fuel] and [candidate_fuel] are 97
    for 96 attempts, [prune_fuel] and [retention_fuel] 1001 for 1000; the page loops of
    the directory use [tier_fuel] 5 for four tiers.  The JSON parser has twice the
    input length plus one and JsonFacts shows it needs no more.  A record of the CSV
    reader has the bytes of the remaining lines plus one.  A handler answers within
    seven steps.  Decimal printing has the twenty digits of an int64.  An export reads
    at most 256 pages, as in the code: enough for 12,799 public actors and always
    refused above 25,600, and in between dependent on how the tiers fill the pages.

    ** Choices and limits

    - A read request sees one snapshot of the database.
    - A failed commit is a rollback.  Counters the code keeps in int64 without a test
      (retention totals, failure counts, a time plus a constant delay) are unbounded.
    - The theorems on complete HTTP listings are about an unchanged database, requests
      within the five minutes a cursor lives, a free place in the semaphore and actors
      whose cursor fits its limit; [listing_blocked] shows that a longer actor makes
      the page fail, and the handlers' other answers are modelled as well.

    Code outside the repository is a parameter: the structured-field parser, SHA-256,
    RSA and [http.ParseTime] ([SignatureLibraries]), media types, PEM and X.509
    ([ActorFormats]), HMAC ([PublicHashes]), DNS and TCP ([DialWorld]), the HTTP client
    ([ClientWorld]), SQLite's page counts, file sizes and mail delivery (inputs of
    Growth).  Their laws are hypotheses, and the witnesses instantiate them.

    Not modelled: operator commands and process assembly (flag parsing, printing and
    wiring around the modelled repositories), configuration, the HTML site, database
    opening and migration bookkeeping, and the import rows of the discovery
    command. *)
From Stdlib Require Export ZArith Lia.
From stdpp Require Export base gmap strings list sorting fin_maps numbers.
#[global] Set Warnings "-notation-overridden".

#[export] Set Default Goal Selector "!".
Declare Scope go_scope.
Delimit Scope go_scope with go.
Global Open Scope Z_scope.
Global Open Scope go_scope.

(** ** Values the Go code computes with *)

(** Equality of Go strings (byte sequences) as the [==] operator decides it. *)
Notation "a ≟ b" := (String.eqb a b) (at level 70, no associativity) : go_scope.

(** A Go call that returns [(T, error)] returns exactly one of the two. *)
Inductive result (E A : Type) : Type :=
| Ok (value : A)
| Err (error : E).
Arguments Ok {E A} value.
Arguments Err {E A} error.

Definition is_ok {E A} (r : result E A) : bool :=
  match r with Ok _ => true | Err _ => false end.

(** [int64] arithmetic wraps around modulo 2^64. *)
Definition int64_modulus : Z := 18446744073709551616.
Definition int64_min : Z := -9223372036854775808.
Definition int64_max : Z := 9223372036854775807.
Definition int64_wrap (z : Z) : Z :=
  (z - int64_min) mod int64_modulus + int64_min.
Definition int64_add (a b : Z) : Z := int64_wrap (a + b).
Definition int64_sub (a b : Z) : Z := int64_wrap (a - b).
Definition int64_mul (a b : Z) : Z := int64_wrap (a * b).
Definition is_int64 (z : Z) : bool := (int64_min <=? z) && (z <=? int64_max).

(** [time.Duration] counts nanoseconds; [time.Time] is modelled by the
    nanoseconds since the Unix epoch, and [t.UTC().Unix()] floors to seconds. *)
Definition nanosecond : Z := 1.
Definition second : Z := 1000000000 * nanosecond.
Definition minute : Z := 60 * second.
Definition hour : Z := 60 * minute.
Definition unix_of (t : Z) : Z := t / second.
(** [time.Unix(sec, 0)] *)
Definition time_of_unix (s : Z) : Z := s * second.
(** [int64(d / time.Second)] *)
Definition seconds_of (d : Z) : Z := Z.quot d second.

(** ** Strict total orders with a boolean test *)

Class KeyOrder (K : Type) := {
  key_ltb : K → K → bool;
  key_ltb_irrefl : ∀ a, key_ltb a a = false;
  key_ltb_trans : ∀ a b c, key_ltb a b = true → key_ltb b c = true → key_ltb a c = true;
  key_ltb_total : ∀ a b, key_ltb a b = false → key_ltb b a = false → a = b;
}.
Arguments key_ltb {K _} a b : simpl never.

Definition key_leb {K} `{KeyOrder K} (a b : K) : bool := negb (key_ltb b a).

(** The byte-wise order of Go strings, which is also SQLite's BINARY collation. *)
Definition string_ltb (a b : string) : bool :=
  match String.compare a b with Lt => true | _ => false end.

(** ** Keyset pages: [WHERE key > after ORDER BY key LIMIT n] *)

Section Keyset.
Context {A K : Type} `{KeyOrder K} (key : A → K).

Definition order_by (rows : list A) : list A :=
  merge_sort (λ a b, Is_true (key_leb (key a) (key b))) rows.

Definition rows_after (after : K) (rows : list A) : list A :=
  List.filter (λ r, key_ltb after (key r)) rows.

Definition strictly_sorted (rows : list A) : Prop :=
  StronglySorted (λ a b, key_ltb (key a) (key b) = true) rows.
End Keyset.

Section Pages.
Context {A K : Type} `{KeyOrder K} (key : A → K).

(** One page of at most [limit] rows strictly after [after]; the loop over the
    [LIMIT limit+1] rows keeps the first [limit] and, when a further row was
    read, returns the key of the last kept row as continuation. *)
Definition keyset_page (after : K) (limit : nat) (rows : list A) : list A * option K :=
  let fetched := take (S limit) (rows_after key after (order_by key rows)) in
  let kept := take limit fetched in
  if (limit <? length fetched)%nat then (kept, key <$> list.last kept) else (kept, None).

(** A reader that follows the continuations. *)
Fixpoint keyset_walk (fuel : nat) (after : K) (limit : nat) (rows : list A) : list A :=
  match fuel with
  | O => []
  | S fuel' =>
      let '(kept, next) := keyset_page after limit rows in
      match next with
      | None => kept
      | Some k => kept ++ keyset_walk fuel' k limit rows
      end
  end.
End Pages.

(** ** Tactics *)

(** Case analysis on a string or [Z] comparison, keeping the proposition. *)
Ltac case_str :=
  match goal with
  | |- context [String.eqb ?a ?b] => destruct (String.eqb_spec a b)
  | H : context [String.eqb ?a ?b] |- _ => destruct (String.eqb_spec a b)
  end.

(** Evaluate comparisons of closed strings. *)
Ltac str_consts :=
  repeat match goal with
  | H : context [String.eqb ?a ?b] |- _ =>
      let v := eval vm_compute in (String.eqb a b) in
      match v with true => idtac | false => idtac end; change (String.eqb a b) with v in H
  | |- context [String.eqb ?a ?b] =>
      let v := eval vm_compute in (String.eqb a b) in
      match v with true => idtac | false => idtac end; change (String.eqb a b) with v
  end.

(** Turn every boolean comparison of the context into a proposition. *)
Ltac bool_facts :=
  repeat match goal with
  | H : (_ && _)%bool = true |- _ => apply andb_true_iff in H as [? ?]
  | H : (_ || _)%bool = false |- _ => apply orb_false_iff in H as [? ?]
  | H : negb _ = true |- _ => apply negb_true_iff in H
  | H : negb _ = false |- _ => apply negb_false_iff in H
  | H : String.eqb _ _ = true |- _ => apply String.eqb_eq in H
  | H : String.eqb _ _ = false |- _ => apply String.eqb_neq in H
  | H : Z.leb _ _ = true |- _ => apply Z.leb_le in H
  | H : Z.leb _ _ = false |- _ => apply Z.leb_gt in H
  | H : Z.ltb _ _ = true |- _ => apply Z.ltb_lt in H
  | H : Z.ltb _ _ = false |- _ => apply Z.ltb_ge in H
  | H : Z.eqb _ _ = true |- _ => apply Z.eqb_eq in H
  | H : Z.eqb _ _ = false |- _ => apply Z.eqb_neq in H
  end.

(** Close a goal that is a conjunction of boolean comparisons of integers. *)
Ltac bool_lia :=
  repeat match goal with
  | |- (_ && _)%bool = true => apply andb_true_iff; split
  | |- negb _ = true => apply negb_true_iff
  | |- negb _ = false => apply negb_false_iff
  | |- Z.leb _ _ = true => apply Z.leb_le
  | |- Z.leb _ _ = false => apply Z.leb_gt
  | |- Z.ltb _ _ = true => apply Z.ltb_lt
  | |- Z.ltb _ _ = false => apply Z.ltb_ge
  | |- Z.eqb _ _ = true => apply Z.eqb_eq
  | |- Z.eqb _ _ = false => apply Z.eqb_neq
  end; try lia.

(** ** Integers *)

Create HintDb go.
Create Rewrite HintDb go.

Lemma int64_wrap_id z : int64_min ≤ z ≤ int64_max → int64_wrap z = z.
Proof.
  unfold int64_wrap, int64_min, int64_max, int64_modulus. intros Hz.
  rewrite Z.mod_small; lia.
Qed.

Lemma int64_wrap_range z : int64_min ≤ int64_wrap z ≤ int64_max.
Proof.
  unfold int64_wrap, int64_min, int64_max, int64_modulus.
  pose proof (Z.mod_pos_bound (z - -9223372036854775808) 18446744073709551616). lia.
Qed.

Lemma int64_mul_small x y : int64_min ≤ x * y ≤ int64_max → int64_mul x y = x * y.
Proof. apply int64_wrap_id. Qed.
Lemma int64_add_small x y : int64_min ≤ x + y ≤ int64_max → int64_add x y = x + y.
Proof. apply int64_wrap_id. Qed.
Lemma int64_sub_small x y : int64_min ≤ x - y ≤ int64_max → int64_sub x y = x - y.
Proof. apply int64_wrap_id. Qed.

(** Subtracting a nonnegative duration from a nonnegative time cannot wrap. *)
Lemma int64_sub_nonneg a b :
  0 ≤ a ≤ int64_max → 0 ≤ b ≤ int64_max → int64_sub a b = a - b.
Proof.
  intros Ha Hb. apply int64_wrap_id.
  unfold int64_min, int64_max in *. lia.
Qed.

Lemma unix_of_time_of_unix s : unix_of (time_of_unix s) = s.
Proof. apply Z.div_mul. discriminate. Qed.

Lemma unix_of_mono a b : a ≤ b → unix_of a ≤ unix_of b.
Proof. intros. apply Z.div_le_mono; [done|assumption]. Qed.

#[export] Hint Rewrite unix_of_time_of_unix : go.

(** ** Orders *)

Section OrderLaws.
Context {K : Type} `{KeyOrder K}.

Lemma key_ltb_asym a b : key_ltb a b = true → key_ltb b a = false.
Proof.
  intros Hab. destruct (key_ltb b a) eqn:Hba; [|done].
  by rewrite <- (key_ltb_irrefl a), (key_ltb_trans a b a Hab Hba).
Qed.

Lemma key_leb_cases a b : key_leb a b = true → a = b ∨ key_ltb a b = true.
Proof.
  unfold key_leb. intros Hba%negb_true_iff.
  destruct (key_ltb a b) eqn:Hab; [by right|left; by apply key_ltb_total].
Qed.

Lemma key_leb_ltb_trans a b c :
  key_leb a b = true → key_ltb b c = true → key_ltb a c = true.
Proof. intros [->|Hab]%key_leb_cases Hbc; [done|by eapply key_ltb_trans]. Qed.

Lemma key_leb_refl a : key_leb a a = true.
Proof. unfold key_leb. by rewrite key_ltb_irrefl. Qed.

Lemma key_leb_total a b : key_leb a b = true ∨ key_leb b a = true.
Proof.
  unfold key_leb. destruct (key_ltb b a) eqn:Hba; [right|by left].
  by rewrite (key_ltb_asym _ _ Hba).
Qed.
End OrderLaws.

Lemma string_compare_lt_trans a b c :
  String.compare a b = Lt → String.compare b c = Lt → String.compare a c = Lt.
Proof.
  revert b c. induction a as [|x a IH]; intros [|y b] [|z c]; simpl; try done.
  unfold Ascii.compare.
  destruct (N.compare_spec (Ascii.N_of_ascii x) (Ascii.N_of_ascii y)) as [Hxy|Hxy|Hxy],
    (N.compare_spec (Ascii.N_of_ascii y) (Ascii.N_of_ascii z)) as [Hyz|Hyz|Hyz];
    intros Hab Hbc; try done.
  - rewrite Hxy, Hyz, N.compare_refl. by eapply IH.
  - by rewrite Hxy, (proj2 (N.compare_lt_iff _ _) Hyz).
  - by rewrite <- Hyz, (proj2 (N.compare_lt_iff _ _) Hxy).
  - by rewrite (proj2 (N.compare_lt_iff _ _) (N.lt_trans _ _ _ Hxy Hyz)).
Qed.

#[export] Program Instance string_order : KeyOrder string := {| key_ltb := string_ltb |}.
Next Obligation.
  intros a. unfold string_ltb.
  pose proof (String.compare_antisym a a) as Hanti.
  by destruct (String.compare a a).
Qed.
Next Obligation.
  unfold string_ltb. intros a b c.
  destruct (String.compare a b) eqn:Hab, (String.compare b c) eqn:Hbc; try done.
  by rewrite (string_compare_lt_trans a b c).
Qed.
Next Obligation.
  unfold string_ltb. intros a b. rewrite (String.compare_antisym b a).
  destruct (String.compare a b) eqn:Hab; simpl; try done.
  intros _ _. by apply String.compare_eq_iff.
Qed.

#[export] Program Instance Z_order : KeyOrder Z := {| key_ltb := Z.ltb |}.
Next Obligation. intros. lia. Qed.
Next Obligation. intros. lia. Qed.
Next Obligation. intros. lia. Qed.

(** SQL row values [(x, y) < (x', y')] compare lexicographically. *)
#[export] Program Instance pair_order {K L} `{KeyOrder K, KeyOrder L} : KeyOrder (K * L) :=
  {| key_ltb p q := key_ltb p.1 q.1 || (negb (key_ltb q.1 p.1) && key_ltb p.2 q.2) |}.
Next Obligation. intros K L ? ? [a b]; simpl. by rewrite !key_ltb_irrefl. Qed.
Next Obligation.
  intros K L ? ? [a1 a2] [b1 b2] [c1 c2]; simpl.
  intros [Hab|[Hab1 Hab2]%andb_true_iff]%orb_true_iff
         [Hbc|[Hbc1 Hbc2]%andb_true_iff]%orb_true_iff.
  - by rewrite (key_ltb_trans a1 b1 c1).
  - destruct (key_leb_cases b1 c1 Hbc1) as [->|Hbc]; [by rewrite Hab|].
    by rewrite (key_ltb_trans a1 b1 c1).
  - by rewrite (key_leb_ltb_trans a1 b1 c1).
  - destruct (key_leb_cases a1 b1 Hab1) as [->|Hab].
    + by rewrite Hbc1, (key_ltb_trans a2 b2 c2), orb_true_r.
    + destruct (key_leb_cases b1 c1 Hbc1) as [<-|?]; [by rewrite Hab|].
      by rewrite (key_ltb_trans a1 b1 c1).
Qed.
Next Obligation.
  intros K L ? ? [a1 a2] [b1 b2]; simpl.
  destruct (key_ltb a1 b1) eqn:Hab; [done|].
  destruct (key_ltb b1 a1) eqn:Hba; [done|]. simpl. intros Hab2 Hba2.
  f_equal; by apply key_ltb_total.
Qed.

(** ** Keyset pages *)

Lemma filter_all_true {A} (f : A → bool) l : (∀ x, In x l → f x = true) → List.filter f l = l.
Proof.
  induction l as [|x l IH]; intros Hall; simpl; [done|].
  rewrite (Hall x (or_introl eq_refl)), IH; [done|]. intros y Hy. apply Hall. by right.
Qed.

Lemma filter_all_false {A} (f : A → bool) l : (∀ x, In x l → f x = false) → List.filter f l = [].
Proof.
  induction l as [|x l IH]; intros Hall; simpl; [done|].
  rewrite (Hall x (or_introl eq_refl)). apply IH. intros y Hy. apply Hall. by right.
Qed.

Lemma filter_filter_subsumed {A} (f g : A → bool) l :
  (∀ x, f x = true → g x = true) → List.filter f (List.filter g l) = List.filter f l.
Proof.
  intros Hsub. induction l as [|x l IH]; simpl; [done|].
  destruct (g x) eqn:Hg; simpl; rewrite IH; [done|].
  destruct (f x) eqn:Hf; [|done]. by rewrite (Hsub x Hf) in Hg.
Qed.

Lemma last_some_app {A} (l : list A) x : list.last l = Some x → ∃ l', l = l' ++ [x].
Proof.
  induction l as [|y l _] using rev_ind; [done|]. rewrite last_snoc. intros [= ->]. by exists l.
Qed.

Lemma last_cons_some {A} (x : A) l : is_Some (list.last (x :: l)).
Proof. apply last_is_Some. done. Qed.

Lemma StronglySorted_app_parts {A} (R : A → A → Prop) l1 l2 :
  StronglySorted R (l1 ++ l2) →
  StronglySorted R l1 ∧ StronglySorted R l2 ∧ ∀ x y, In x l1 → In y l2 → R x y.
Proof.
  induction l1 as [|a l1 IH]; simpl; intros Hs.
  - split; [constructor|split; [done|intros ? ? []]].
  - inversion Hs as [|? ? Htl Hfa]; subst. apply IH in Htl as (H1 & H2 & H12).
    rewrite Forall_app in Hfa. destruct Hfa as [Hfa1 Hfa2].
    split; [by constructor|split; [done|]].
    intros x y [->|Hx] Hy; [|by apply H12].
    rewrite Forall_forall in Hfa2. by apply Hfa2.
Qed.

Section KeysetLaws.
Context {A K : Type} `{KeyOrder K} (key : A → K).

Lemma order_by_perm rows : order_by key rows ≡ₚ rows.
Proof. apply merge_sort_Permutation. Qed.

Lemma order_by_in rows r : In r (order_by key rows) ↔ In r rows.
Proof.
  rewrite <- !list_elem_of_In. by rewrite (order_by_perm rows).
Qed.

Lemma order_by_sorted rows :
  NoDup (key <$> rows) → strictly_sorted key (order_by key rows).
Proof.
  intros Hnd. rewrite <- (order_by_perm rows) in Hnd.
  assert (Hs : StronglySorted (λ a b, Is_true (key_leb (key a) (key b))) (order_by key rows)).
  { apply StronglySorted_merge_sort.
    - intros a b c. rewrite !Is_true_true. unfold key_leb. rewrite !negb_true_iff.
      intros Hab Hbc. destruct (key_ltb (key c) (key a)) eqn:Hca; [|done].
      destruct (key_leb_cases (key a) (key b)) as [He|Hlt]; [by unfold key_leb; rewrite Hab|..].
      + by rewrite He, Hbc in Hca.
      + by rewrite <- Hbc, (key_ltb_trans (key c) (key a) (key b)).
    - intros a b. rewrite !Is_true_true. apply key_leb_total. }
  revert Hs Hnd. generalize (order_by key rows) as l.
  induction l as [|a l IH]; simpl; intros Hs Hnd; [constructor|].
  inversion Hs as [|? ? Hs' Hfa]; subst. apply list.NoDup_cons in Hnd as [Hni Hnd].
  constructor; [by apply IH|].
  rewrite Forall_forall in Hfa |- *. intros b Hb.
  specialize (Hfa b Hb). rewrite Is_true_true in Hfa.
  destruct (key_leb_cases _ _ Hfa) as [He|Hlt]; [|done].
  destruct Hni. rewrite He. by apply list_elem_of_fmap_2, list_elem_of_In.
Qed.

Lemma rows_after_sorted after rows :
  strictly_sorted key rows → strictly_sorted key (rows_after key after rows).
Proof.
  unfold strictly_sorted, rows_after.
  induction 1 as [|a l Hs IH Hfa]; simpl; [constructor|].
  destruct (key_ltb after (key a)); [|done]. constructor; [done|].
  rewrite Forall_forall in Hfa |- *. intros b Hb. apply Hfa.
  by apply filter_In in Hb as [Hb _].
Qed.

(** Reading after the last kept row yields exactly the rows not yet read. *)
Lemma rows_after_continue rows after kept x rest :
  strictly_sorted key rows →
  rows_after key after rows = (kept ++ [x]) ++ rest →
  rows_after key (key x) rows = rest.
Proof.
  intros Hs Heq.
  pose proof (rows_after_sorted after rows Hs) as Hs'. rewrite Heq in Hs'.
  assert (Hx : key_ltb after (key x) = true).
  { assert (Hin : In x (rows_after key after rows)).
    { rewrite Heq. apply in_or_app. left. apply in_or_app. right. by left. }
    by apply filter_In in Hin as [_ ?]. }
  unfold rows_after.
  rewrite <- (filter_filter_subsumed _ (λ r, key_ltb after (key r))).
  2:{ intros r Hr. by apply (key_ltb_trans after (key x)). }
  fold (rows_after key after rows). rewrite Heq, List.filter_app.
  apply StronglySorted_app_parts in Hs' as (Hs1 & _ & H12).
  rewrite filter_all_false, filter_all_true; [done|..].
  - intros y Hy. apply H12; [|done]. apply in_or_app. right. by left.
  - intros y Hy. apply in_app_or in Hy as [Hy|[->|[]]]; [|apply key_ltb_irrefl].
    apply StronglySorted_app_parts in Hs1 as (_ & _ & H11).
    apply key_ltb_asym, H11; [done|by left].
Qed.

Lemma keyset_page_kept after limit rows :
  (keyset_page key after limit rows).1 = take limit (rows_after key after (order_by key rows)).
Proof.
  unfold keyset_page. rewrite take_take. rewrite Nat.min_l; [|lia]. by case_match.
Qed.

Lemma keyset_page_length after limit rows :
  (length (keyset_page key after limit rows).1 <= limit)%nat.
Proof. rewrite keyset_page_kept, length_take. lia. Qed.

Lemma keyset_page_in after limit rows r :
  In r (keyset_page key after limit rows).1 → In r rows ∧ key_ltb after (key r) = true.
Proof.
  rewrite keyset_page_kept. intros Hr.
  assert (Hr' : In r (rows_after key after (order_by key rows))).
  { rewrite <- (take_drop limit (rows_after _ _ _)). apply in_or_app. by left. }
  unfold rows_after in Hr'. rewrite filter_In, order_by_in in Hr'. done.
Qed.

Lemma keyset_page_sorted after limit rows :
  NoDup (key <$> rows) → strictly_sorted key (keyset_page key after limit rows).1.
Proof.
  intros Hnd. rewrite keyset_page_kept.
  pose proof (rows_after_sorted after _ (order_by_sorted rows Hnd)) as Hs.
  rewrite <- (take_drop limit (rows_after _ _ _)) in Hs.
  by apply StronglySorted_app_parts in Hs as (? & _ & _).
Qed.

(** The continuation of a page is present exactly when rows remain unread. *)
Lemma keyset_page_next after limit rows :
  (0 < limit)%nat →
  match (keyset_page key after limit rows).2 with
  | None => (keyset_page key after limit rows).1 = rows_after key after (order_by key rows)
  | Some k => ∃ kept x rest,
      (keyset_page key after limit rows).1 = kept ++ [x] ∧ k = key x ∧ rest ≠ [] ∧
      rows_after key after (order_by key rows) = (kept ++ [x]) ++ rest
  end.
Proof.
  intros Hlim. pose proof (keyset_page_kept after limit rows) as Hk. revert Hk.
  unfold keyset_page. set (l := rows_after key after (order_by key rows)).
  rewrite length_take, take_take, (Nat.min_l limit (S limit)) by lia.
  destruct (Nat.ltb_spec limit (S limit `min` length l)); simpl; intros _.
  2:{ apply take_ge. lia. }
  destruct (list.last (take limit l)) as [x|] eqn:Hlast; simpl.
  - destruct (last_some_app _ _ Hlast) as [kept Hkept].
    exists kept, x, (drop limit l). repeat split; [done| |].
    + intros Hd. apply (f_equal length) in Hd. rewrite length_drop in Hd. simpl in Hd. lia.
    + by rewrite <- Hkept, take_drop.
  - apply last_None in Hlast. apply (f_equal length) in Hlast.
    rewrite length_take in Hlast. simpl in Hlast. lia.
Qed.

(** Following the continuations reads every row after the start exactly once,
    in key order. *)
Lemma keyset_walk_complete fuel after limit rows :
  (0 < limit)%nat → NoDup (key <$> rows) →
  (length (rows_after key after (order_by key rows)) < fuel)%nat →
  keyset_walk key fuel after limit rows = rows_after key after (order_by key rows).
Proof.
  intros Hlim Hnd. revert after.
  induction fuel as [|fuel IH]; intros after Hfuel; [lia|]. simpl.
  pose proof (keyset_page_next after limit rows Hlim) as Hnext.
  destruct (keyset_page key after limit rows) as [kept [k|]]; simpl in Hnext; [|done].
  destruct Hnext as (kept' & x & rest & -> & -> & Hrest & Heq).
  assert (Hcont := rows_after_continue _ _ _ _ _ (order_by_sorted rows Hnd) Heq).
  rewrite IH, Hcont; [by rewrite Heq|].
  rewrite Heq in Hfuel. rewrite Hcont. rewrite !length_app in Hfuel. simpl in Hfuel. lia.
Qed.
End KeysetLaws.

(** ** Sorted lists *)

(** Filtering before or after sorting by a strict key is the same. *)
Lemma StronglySorted_unique {A K} `{KeyOrder K} (key : A → K) (l1 l2 : list A) :
  strictly_sorted key l1 → strictly_sorted key l2 → l1 ≡ₚ l2 → l1 = l2.
Proof.
  unfold strictly_sorted. revert l2. induction l1 as [|x l1 IH]; intros l2 Hs1 Hs2 Hp.
  - by apply Permutation_nil_l in Hp.
  - destruct l2 as [|y l2]; [by symmetry in Hp; apply Permutation_nil_l in Hp|].
    inversion Hs1 as [|? ? Hs1' Hf1]; inversion Hs2 as [|? ? Hs2' Hf2]; subst.
    rewrite Forall_forall in Hf1, Hf2.
    assert (Hxy : x = y).
    { assert (Hx : In x (y :: l2)) by (apply (Permutation_in _ Hp); by left).
      assert (Hy : In y (x :: l1)) by (apply (Permutation_in _ (symmetry Hp)); by left).
      destruct Hx as [->|Hx]; [done|]. destruct Hy as [->|Hy]; [done|].
      pose proof (key_ltb_asym _ _ (Hf1 _ Hy)). pose proof (Hf2 _ Hx). congruence. }
    subst. f_equal. apply IH; [done|done|]. by apply Permutation_cons_inv in Hp.
Qed.

Lemma filter_perm {A} (f : A → bool) l1 l2 : l1 ≡ₚ l2 → List.filter f l1 ≡ₚ List.filter f l2.
Proof.
  induction 1; simpl; [done|by destruct (f x); [constructor|]| |by etrans].
  destruct (f x), (f y); try done. constructor.
Qed.

Lemma StronglySorted_filter {A} (R : A → A → Prop) (p : A → bool) l : StronglySorted R l → StronglySorted R (List.filter p l).
Proof.
  induction 1 as [|x l Hs IH Hf]; simpl; [constructor|]. destruct (p x); [|done]. constructor; [done|].
  rewrite Forall_forall in *. intros y [Hy _]%filter_In. auto.
Qed.
Lemma StronglySorted_snoc {A} (R : A → A → Prop) l x : StronglySorted R l → (∀ y, In y l → R y x) → StronglySorted R (l ++ [x]).
Proof.
  induction 1 as [|y l Hs IH Hf]; intros Hx; simpl; [repeat constructor|]. constructor; [apply IH; intros z Hz; apply Hx; by right|].
  apply Forall_forall. rewrite Forall_forall in Hf. intros z [Hz|[->|[]]]%in_app_iff; [auto|apply Hx; by left].
Qed.

Lemma order_by_filter {A K} `{KeyOrder K} (key : A → K) (f : A → bool) rows :
  NoDup (key <$> rows) → order_by key (List.filter f rows) = List.filter f (order_by key rows).
Proof.
  intros Hnd. apply (StronglySorted_unique key).
  - apply order_by_sorted. clear -Hnd. induction rows as [|x rows IH]; simpl; [constructor|].
    apply list.NoDup_cons in Hnd as [Hx Hnd]. destruct (f x); [|by apply IH].
    simpl. apply list.NoDup_cons. split; [|by apply IH].
    intros Hin. apply Hx. apply list_elem_of_fmap in Hin as (y&->&Hy). apply list_elem_of_fmap_2.
    rewrite list_elem_of_In in Hy |- *. by apply filter_In in Hy as [? _].
  - apply StronglySorted_filter, order_by_sorted, Hnd.
  - by rewrite order_by_perm, (filter_perm f _ _ (order_by_perm key rows)).
Qed.

Lemma filter_same {A} (f g : A → bool) rows :
  (∀ x, In x rows → f x = g x) → List.filter f rows = List.filter g rows.
Proof.
  intros Hfg. induction rows as [|x rows IH]; simpl; [done|]. rewrite (Hfg x (or_introl eq_refl)), IH; [done|].
  intros y Hy. apply Hfg. by right.
Qed.

Lemma strictly_sorted_NoDup {A K} `{KeyOrder K} (key : A → K) l : strictly_sorted key l → NoDup l.
Proof.
  unfold strictly_sorted. induction 1 as [|x l Hs IH Hf]; constructor; [|done].
  rewrite list_elem_of_In. intros Hx. rewrite Forall_forall in Hf. specialize (Hf x Hx). by rewrite key_ltb_irrefl in Hf.
Qed.
(** Two sorted lists with the same elements are equal. *)
Lemma strictly_sorted_same {A K} `{KeyOrder K} (key : A → K) (l1 l2 : list A) :
  strictly_sorted key l1 → strictly_sorted key l2 → (∀ x, In x l1 ↔ In x l2) → l1 = l2.
Proof.
  intros Hs1 Hs2 Hin. apply (StronglySorted_unique key); [done|done|].
  apply NoDup_Permutation; [by eapply strictly_sorted_NoDup..|]. intros x. by rewrite !list_elem_of_In.
Qed.

Lemma find_first {A K} `{KeyOrder K} (key : A → K) (P : A → bool) rows x : strictly_sorted key rows → List.find P rows = Some x →
  In x rows ∧ P x = true ∧ ∀ y, In y rows → P y = true → y = x ∨ key_ltb (key x) (key y) = true.
Proof.
  unfold strictly_sorted. induction 1 as [|r rows Hs IH Hr]; [done|]. cbn [List.find]. destruct (P r) eqn:E.
  - intros [= ->]. split_and!; [by left|done|]. intros y [->|Hy] _; [by left|right]. rewrite List.Forall_forall in Hr. by apply Hr.
  - intros Hf. destruct (IH Hf) as (Hin&HP&Hmin). split_and!; [by right|done|]. intros y [->|Hy] Py; [congruence|by apply Hmin].
Qed.

Lemma pair_lt_same {K L} `{KeyOrder K, KeyOrder L} (k : K) (x y : L) : key_ltb (k, x) (k, y) = key_ltb x y.
Proof. unfold key_ltb at 1. simpl. by rewrite key_ltb_irrefl. Qed.

Lemma filter_filter_on {A} (f g : A → bool) l :
  (∀ x, In x l → f x = true → g x = true) → List.filter f (List.filter g l) = List.filter f l.
Proof.
  induction l as [|x l IH]; intros Hsub; [done|]. cbn [List.filter]. destruct (g x) eqn:Hg; cbn [List.filter]; rewrite IH.
  - done.
  - intros y Hy. apply Hsub. by right.
  - destruct (f x) eqn:Hf; [|done]. by rewrite (Hsub x (or_introl eq_refl) Hf) in Hg.
  - intros y Hy. apply Hsub. by right.
Qed.
