(* ===== verification/GoNet.v ===== *)
(** * GoNet: the parts of Go's [strings], [net/url] and [net/netip] the program calls

    Go strings are byte sequences; the parsers below work on [list ascii].
    Only what [internal/protocol/v1/identity.go] can observe is kept of a parsed
    URL: scheme, opaque part, presence of user information, host, path, query.
    An authority with user information is kept as such without decoding it, and
    an IPv6 zone is refused where the caller refuses every host with a ['%']. *)
From S2P Require Import Prelude.
From Stdlib Require Import Ascii.
Local Open Scope Z_scope.
Local Open Scope go_scope.
Local Open Scope list_scope.

Abbreviation bytes := (list ascii).
Definition byte (c : ascii) : Z := Z.of_N (N_of_ascii c).
Definition b (s : string) : bytes := String.list_ascii_of_string s.
Definition str (l : bytes) : string := String.string_of_list_ascii l.
Definition char_eqb (c d : ascii) : bool := Ascii.eqb c d.
Notation "c ≡c d" := (char_eqb c d) (at level 70, no associativity) : go_scope.

Definition in_range (c lo hi : ascii) : bool := (byte lo <=? byte c) && (byte c <=? byte hi).
Definition is_lower (c : ascii) : bool := in_range c "a" "z".
Definition is_upper (c : ascii) : bool := in_range c "A" "Z".
Definition is_digit (c : ascii) : bool := in_range c "0" "9".
Definition is_alnum (c : ascii) : bool := is_lower c || is_upper c || is_digit c.
Definition mem (c : ascii) (s : string) : bool := existsb (char_eqb c) (b s).

(** ** strings *)

Fixpoint bytes_eqb (x y : bytes) : bool :=
  match x, y with
  | [], [] => true
  | c :: x', d :: y' => (c ≡c d) && bytes_eqb x' y'
  | _, _ => false
  end.

Fixpoint has_prefix (s prefix : bytes) : bool :=
  match prefix, s with
  | [], _ => true
  | p :: prefix', c :: s' => (p ≡c c) && has_prefix s' prefix'
  | _, [] => false
  end.
Definition has_suffix (s suffix : bytes) : bool := has_prefix (rev s) (rev suffix).
Definition contains_byte (s : bytes) (c : ascii) : bool := existsb (char_eqb c) s.

(** [strings.Contains(s, sub)] *)
Fixpoint contains (s sub : bytes) : bool :=
  has_prefix s sub || match s with [] => false | _ :: s' => contains s' sub end.

(** [strings.Cut(s, sep)] for a one-byte separator: before, after, found. *)
Fixpoint cut (s : bytes) (sep : ascii) : bytes * bytes * bool :=
  match s with
  | [] => ([], [], false)
  | c :: s' =>
      if c ≡c sep then ([], s', true)
      else let '(before, after, found) := cut s' sep in (c :: before, after, found)
  end.

(** [i := strings.LastIndex(s, sep)]: [s[:i]] and [s[i+1:]] when [i >= 0]. *)
Definition cut_last (s : bytes) (sep : ascii) : option (bytes * bytes) :=
  let '(after_rev, before_rev, found) := cut (rev s) sep in
  if found then Some (rev before_rev, rev after_rev) else None.

(** [strings.Split(s, sep)] for a one-byte separator. *)
Fixpoint split_on (s : bytes) (sep : ascii) : list bytes :=
  match s with
  | [] => [[]]
  | c :: s' =>
      match split_on s' sep with
      | [] => [[c]]
      | first :: others => if c ≡c sep then [] :: first :: others else (c :: first) :: others
      end
  end.

Definition lower_byte (c : ascii) : ascii :=
  if is_upper c then ascii_of_N (N_of_ascii c + 32) else c.

(** [strings.ToLower]: the two non-ASCII runes whose lower case is ASCII are
    U+212A (k) and U+0130 (i); every other non-ASCII rune stays non-ASCII, and
    its bytes are left alone here because the caller refuses them. *)
Fixpoint to_lower (s : bytes) : bytes :=
  match s with
  | "226"%char :: (("132"%char :: ("170"%char :: s3)) as s1) => "k"%char :: to_lower s3
  | "196"%char :: ("176"%char :: s2) => "i"%char :: to_lower s2
  | c :: s' => lower_byte c :: to_lower s'
  | [] => []
  end.

(** [unicode.IsSpace] of the last or first rune, as the byte patterns of its
    UTF-8 encoding. *)
Definition ascii_space (c : ascii) : bool :=
  mem c " " || ((9 <=? byte c) && (byte c <=? 13)).
Definition space_pair (c d : ascii) : bool :=
  (byte c =? 0xC2) && ((byte d =? 0x85) || (byte d =? 0xA0)).
Definition space_triple (c d e : ascii) : bool :=
  ((byte c =? 0xE1) && (byte d =? 0x9A) && (byte e =? 0x80)) ||
  ((byte c =? 0xE2) && (byte d =? 0x80) &&
     (((0x80 <=? byte e) && (byte e <=? 0x8A)) || (byte e =? 0xA8) || (byte e =? 0xA9) || (byte e =? 0xAF))) ||
  ((byte c =? 0xE2) && (byte d =? 0x81) && (byte e =? 0x9F)) ||
  ((byte c =? 0xE3) && (byte d =? 0x80) && (byte e =? 0x80)).
Definition starts_with_space (s : bytes) : bool :=
  match s with
  | c :: d :: e :: _ => ascii_space c || space_pair c d || space_triple c d e
  | [c; d] => ascii_space c || space_pair c d
  | [c] => ascii_space c
  | [] => false
  end.
Definition ends_with_space (s : bytes) : bool :=
  match rev s with
  | e :: d :: c :: _ => ascii_space e || space_pair d e || space_triple c d e
  | [e; d] => ascii_space e || space_pair d e
  | [e] => ascii_space e
  | [] => false
  end.
(** [strings.TrimSpace(s) != s] *)
Definition surrounded_by_space (s : bytes) : bool := starts_with_space s || ends_with_space s.

(** ** net/url *)

Inductive encoding := encodePath | encodeHost.

Definition hex_value (c : ascii) : option Z :=
  if is_digit c then Some (byte c - byte "0")
  else if in_range c "a" "f" then Some (byte c - byte "a" + 10)
  else if in_range c "A" "F" then Some (byte c - byte "A" + 10)
  else None.
Definition is_hex (c : ascii) : bool := match hex_value c with Some _ => true | None => false end.
Definition byte_of (z : Z) : ascii := ascii_of_N (Z.to_N z).
Definition upper_hex (z : Z) : ascii :=
  if z <? 10 then byte_of (byte "0" + z) else byte_of (byte "A" + (z - 10)).
Definition percent_encode (c : ascii) : bytes :=
  ["%"%char; upper_hex (Z.shiftr (byte c) 4); upper_hex (Z.land (byte c) 15)].

Definition should_escape (c : ascii) (mode : encoding) : bool :=
  if is_alnum c then false
  else if match mode with
          | encodeHost => mem c "!$&'()*+,;=:[]<>" || (byte c =? 34)
          | encodePath => false
          end then false
  else if mem c "-_.~" then false
  else if mem c "$&+,/:;=?@" then
    match mode with encodePath => c ≡c "?" | encodeHost => true end
  else true.

Definition escape_path (s : bytes) : bytes :=
  flat_map (λ c, if should_escape c encodePath then percent_encode c else [c]) s.

Fixpoint unescape (s : bytes) (mode : encoding) : option bytes :=
  match s with
  | [] => Some []
  | c :: s1 =>
      if c ≡c "%" then
        match s1 with
        | h :: l :: s3 =>
            match hex_value h, hex_value l with
            | Some hi, Some lo =>
                let refused :=
                  match mode with
                  | encodeHost => (hi <? 8) && negb ((h ≡c "2") && (l ≡c "5"))
                  | encodePath => false
                  end in
                if refused then None
                else rest ← unescape s3 mode; Some (byte_of (Z.lor (Z.shiftl hi 4) lo) :: rest)
            | _, _ => None
            end
        | _ => None
        end
      else
        let refused :=
          match mode with
          | encodeHost => (byte c <? 128) && should_escape c mode
          | encodePath => false
          end in
        if refused then None else rest ← unescape s1 mode; Some (c :: rest)
  end.

(** [validEncoded(s, encodePath)] *)
Definition valid_encoded_path (s : bytes) : bool :=
  forallb (λ c, mem c "!$&'()*+,;=:@[]%" || negb (should_escape c encodePath)) s.

Record URL := {
  Scheme : bytes; Opaque : bytes; HasUser : bool; Host : bytes;
  Path : bytes; RawPath : bytes; ForceQuery : bool; RawQuery : bytes }.

(** [(u *URL) EscapedPath()] *)
Definition EscapedPath (u : URL) : bytes :=
  if negb (bytes_eqb (RawPath u) []) && valid_encoded_path (RawPath u) &&
     match unescape (RawPath u) encodePath with Some p => bytes_eqb p (Path u) | None => false end
  then RawPath u
  else if bytes_eqb (Path u) (b "*") then b "%2A" else escape_path (Path u).

Definition valid_optional_port (port : bytes) : bool :=
  match port with
  | [] => true
  | c :: digits => (c ≡c ":") && forallb is_digit digits
  end.

(** [splitHostPort], behind [Hostname()] and [Port()] *)
Definition split_host_port (host_port : bytes) : bytes * bytes :=
  let '(host, port) :=
    match cut_last host_port ":" with
    | Some (before, after) =>
        if valid_optional_port (":"%char :: after) then (before, after) else (host_port, [])
    | None => (host_port, [])
    end in
  match host with
  | open :: inner =>
      if (open ≡c "[") && has_suffix host (b "]") && (2 <=? Z.of_nat (length host))
      then (take (length inner - 1) inner, port) else (host, port)
  | [] => (host, port)
  end.
Definition Hostname (u : URL) : bytes := fst (split_host_port (Host u)).
Definition Port (u : URL) : bytes := snd (split_host_port (Host u)).

(** ** net/netip *)

Inductive Addr :=
| V4 (a b c d : Z)
| V6 (groups : list Z).

Definition digit_value (c : ascii) : Z := byte c - byte "0".

(** One octet: decimal digits, no leading zero, at most 255. *)
Definition parse_octet (s : bytes) : option Z :=
  match s with
  | [] => None
  | c :: rest =>
      if forallb is_digit s && (match rest with [] => true | _ => negb (c ≡c "0") end)
         && (Z.of_nat (length s) <=? 3)
      then let v := fold_left (λ acc d, acc * 10 + digit_value d) s 0 in
           if v <=? 255 then Some v else None
      else None
  end.

Definition parse_ipv4 (s : bytes) : option Addr :=
  match split_on s "." with
  | [p; q; r; t] =>
      a ← parse_octet p; b ← parse_octet q; c ← parse_octet r; d ← parse_octet t;
      Some (V4 a b c d)
  | _ => None
  end.

(** The hexadecimal field at the head of [s]: value, number of digits, rest. *)
Fixpoint hex_field (s : bytes) (acc : Z) (off : nat) : Z * nat * bytes :=
  match s with
  | c :: s' =>
      match hex_value c with
      | Some v => hex_field s' (acc * 16 + v) (S off)
      | None => (acc, off, s)
      end
  | [] => (acc, off, [])
  end.

(** The field loop of [parseIPv6]: groups read so far (16 bits each), position
    of the ellipsis among them. Each round reads one field, so nine rounds
    suffice for eight groups. *)
Fixpoint ipv6_fields (fuel : nat) (s : bytes) (groups : list Z) (ellipsis : option nat)
  : option (list Z * option nat * bytes) :=
  match fuel with
  | O => None
  | S fuel' =>
      if (8 <=? Z.of_nat (length groups)) then Some (groups, ellipsis, s)
      else
        let '(acc, off, rest) := hex_field s 0 0 in
        if (off =? 0)%nat || (4 <? off)%nat then None
        else
          match rest with
          | c :: rest' =>
              if c ≡c "." then
                if (match ellipsis with None => negb (length groups =? 6)%nat | Some _ => false end)
                   || (6 <? length groups)%nat then None
                else
                  match parse_ipv4 s with
                  | Some (V4 a b' c' d) => Some (groups ++ [a * 256 + b'; c' * 256 + d], ellipsis, [])
                  | _ => None
                  end
              else
                let groups' := groups ++ [acc] in
                if negb (c ≡c ":") then None
                else
                  match rest' with
                  | [] => None
                  | d :: rest'' =>
                      if d ≡c ":" then
                        match ellipsis with
                        | Some _ => None
                        | None =>
                            match rest'' with
                            | [] => Some (groups', Some (length groups'), [])
                            | _ => ipv6_fields fuel' rest'' groups' (Some (length groups'))
                            end
                        end
                      else ipv6_fields fuel' rest' groups' ellipsis
                  end
          | [] => Some (groups ++ [acc], ellipsis, [])
          end
  end.

Definition parse_ipv6 (s : bytes) : option Addr :=
  let '(ellipsis, body) :=
    if has_prefix s (b "::") then (Some O, drop 2 s) else (None, s) in
  let fields :=
    match ellipsis, body with
    | Some _, [] => Some ([], Some O, [])
    | _, _ => ipv6_fields 9 body [] ellipsis
    end in
  match fields with
  | Some (groups, ell, []) =>
      if (length groups <? 8)%nat then
        match ell with
        | None => None
        | Some at_ =>
            Some (V6 (take at_ groups ++ replicate (8 - length groups) 0 ++ drop at_ groups))
        end
      else match ell with Some _ => None | None => Some (V6 groups) end
  | _ => None
  end.

(** [netip.ParseAddr]: the first ['.'] or [':'] selects the family. *)
Definition ParseAddr (s : bytes) : option Addr :=
  match find (λ c, (c ≡c ".") || (c ≡c ":") || (c ≡c "%")) s with
  | Some c => if c ≡c "." then parse_ipv4 s else if c ≡c ":" then parse_ipv6 s else None
  | None => None
  end.

Definition decimal_digit (z : Z) : ascii := byte_of (byte "0" + z).
Definition print_octet (v : Z) : bytes :=
  if v <? 10 then [decimal_digit v]
  else if v <? 100 then [decimal_digit (v / 10); decimal_digit (v mod 10)]
  else [decimal_digit (v / 100); decimal_digit (v / 10 mod 10); decimal_digit (v mod 10)].
Definition print_ipv4 (a b' c d : Z) : bytes :=
  print_octet a ++ b "." ++ print_octet b' ++ b "." ++ print_octet c ++ b "." ++ print_octet d.

Definition lower_hex (z : Z) : ascii :=
  if z <? 10 then byte_of (byte "0" + z) else byte_of (byte "a" + (z - 10)).
(** [appendHex]: no leading zeros. *)
Definition print_group (v : Z) : bytes :=
  (if 4096 <=? v then [lower_hex (Z.shiftr v 12)] else []) ++
  (if 256 <=? v then [lower_hex (Z.land (Z.shiftr v 8) 15)] else []) ++
  (if 16 <=? v then [lower_hex (Z.land (Z.shiftr v 4) 15)] else []) ++
  [lower_hex (Z.land v 15)].

(** Length of the run of zero groups starting at the head. *)
Fixpoint zero_run (groups : list Z) : nat :=
  match groups with
  | g :: rest => if g =? 0 then S (zero_run rest) else O
  | [] => O
  end.
(** The first longest run of at least two zero groups: start and length. *)
Fixpoint longest_zero_run (groups : list Z) (start : nat) (best : option (nat * nat))
  : option (nat * nat) :=
  match groups with
  | [] => best
  | _ :: rest =>
      let l := zero_run groups in
      let best' :=
        if (2 <=? l)%nat && (match best with Some (_, m) => m <? l | None => true end)%nat
        then Some (start, l) else best in
      longest_zero_run rest (S start) best'
  end.
Fixpoint join_colon (parts : list bytes) : bytes :=
  match parts with
  | [] => []
  | [p] => p
  | p :: rest => p ++ b ":" ++ join_colon rest
  end.
Definition print_ipv6 (groups : list Z) : bytes :=
  match longest_zero_run groups 0 None with
  | Some (start, l) =>
      join_colon (map print_group (take start groups)) ++ b "::" ++
      join_colon (map print_group (drop (start + l) groups))
  | None => join_colon (map print_group groups)
  end.

(** [(a Addr) String()] *)
Definition AddrString (a : Addr) : bytes :=
  match a with
  | V4 a b' c d => print_ipv4 a b' c d
  | V6 [0; 0; 0; 0; 0; 65535; h; l] =>
      b "::ffff:" ++ print_ipv4 (h / 256) (h mod 256) (l / 256) (l mod 256)
  | V6 groups => print_ipv6 groups
  end.

(** ** url.Parse *)

(** [parseHost] of an https authority without user information: a bracketed
    host must be an IPv6 address, and any other host holds at most one colon. *)
Definition parse_host (host : bytes) : option bytes :=
  match host with
  | c :: inner =>
      if c ≡c "[" then
        match cut_last host "]" with
        | None => None
        | Some (before, colon_port) =>
            if negb (valid_optional_port colon_port) then None
            else
              inner_host ← unescape (tail before) encodeHost;
              port ← unescape colon_port encodeHost;
              match ParseAddr inner_host with
              | Some (V6 _) => Some (b "[" ++ inner_host ++ b "]" ++ port)
              | _ => None
              end
        end
      else
        if contains_byte host "[" then None
        else
          let '(_, after, found) := cut host ":" in
          if found && negb (forallb is_digit after) then None
          else unescape host encodeHost
  | [] => Some []
  end.

Definition is_ctl (c : ascii) : bool := (byte c <? 32) || (byte c =? 127).

(** [getScheme]: [None] is an error, [Some ([], s)] no scheme. *)
Fixpoint get_scheme (s : bytes) (first : bool) : option (bytes * bytes * bool) :=
  match s with
  | [] => Some ([], [], false)
  | c :: s' =>
      if is_lower c || is_upper c || (negb first && (is_digit c || mem c "+-.")) then
        match get_scheme s' false with
        | Some (scheme, rest, found) => Some (c :: scheme, rest, found)
        | None => None
        end
      else if c ≡c ":" then if first then None else Some ([], s', true)
      else Some ([], [], false)
  end.

Definition set_path (u : URL) (p : bytes) : option URL :=
  path ← unescape p encodePath;
  Some {| Scheme := Scheme u; Opaque := Opaque u; HasUser := HasUser u; Host := Host u;
          Path := path;
          RawPath := if bytes_eqb p (escape_path path) then [] else p;
          ForceQuery := ForceQuery u; RawQuery := RawQuery u |}.

(** [url.Parse]; a URL without scheme is returned with scheme [[]] only, since
    the caller refuses it whatever its other components are. *)
Definition Parse (raw : bytes) : option URL :=
  let '(u, _, _) := cut raw "#" in
  if existsb is_ctl u then None
  else
    match get_scheme u true with
    | None => None
    | Some (_, _, false) =>
        Some {| Scheme := []; Opaque := []; HasUser := false; Host := []; Path := [];
                RawPath := []; ForceQuery := false; RawQuery := [] |}
    | Some (scheme, rest, true) =>
        let force := has_suffix rest (b "?") &&
                     (length (List.filter (λ c, c ≡c "?") rest) =? 1)%nat in
        let '(rest, query, _) :=
          if force then (take (length rest - 1) rest, [], true) else cut rest "?" in
        let base := {| Scheme := map lower_byte scheme; Opaque := []; HasUser := false; Host := [];
                       Path := []; RawPath := []; ForceQuery := force; RawQuery := query |} in
        if negb (has_prefix rest (b "/")) then
          Some {| Scheme := Scheme base; Opaque := rest; HasUser := false; Host := []; Path := [];
                  RawPath := []; ForceQuery := force; RawQuery := query |}
        else if has_prefix rest (b "//") then
          let body := drop 2 rest in
          let '(authority, path, found) := cut body "/" in
          let path := if found then "/"%char :: path else [] in
          match cut_last authority "@" with
          | Some (_, host) =>
              h ← parse_host host;
              set_path {| Scheme := Scheme base; Opaque := []; HasUser := true; Host := h; Path := [];
                          RawPath := []; ForceQuery := force; RawQuery := query |} path
          | None =>
              h ← parse_host authority;
              set_path {| Scheme := Scheme base; Opaque := []; HasUser := false; Host := h; Path := [];
                          RawPath := []; ForceQuery := force; RawQuery := query |} path
          end
        else set_path base rest
    end.
