(* ===== verification/Identity.v ===== *)
(** * Identity: canonical relay URLs ([internal/protocol/v1/identity.go])

    [NormalizeRelayActorURL], [NormalizePublicBaseURL] and
    [NormalizeRelayIdentity] with every check of the source.  A refused URL is
    [None]: all refusals wrap [ErrInvalidRelayURL] and no caller looks at the
    reason.  [RelayIdentity] is the interface the stores and handlers are
    verified against; [go_identity] is its implementation. *)
From S2P Require Import Prelude GoNet.
From Stdlib Require Import Ascii.
Local Open Scope Z_scope.
Local Open Scope go_scope.
Local Open Scope list_scope.

Inductive relayURLKind := actorURL | publicBaseURLKind.

Record normalizedRelayURL := { value : bytes; origin : bytes }.

Definition unreserved (character : ascii) : bool :=
  is_lower character || is_upper character || is_digit character || mem character "-._~".

Definition validDNSLabel (label : bytes) : bool :=
  match label with
  | [] => false
  | c :: _ =>
      negb (63 <? Z.of_nat (length label)) && negb (c ≡c "-") &&
      negb (match list.last label with Some d => d ≡c "-" | None => false end) &&
      forallb (λ c, is_lower c || is_digit c || (c ≡c "-")) label
  end.

Definition numericHost (host : bytes) : bool :=
  match host with
  | [] => false
  | _ => forallb (λ c, is_digit c || (c ≡c ".")) host
  end.

Definition normalizeHost (host : bytes) : option bytes :=
  match ParseAddr host with
  | Some (V6 groups) => Some (b "[" ++ AddrString (V6 groups) ++ b "]")
  | Some (V4 p q r t) => Some (AddrString (V4 p q r t))
  | None =>
      if numericHost host then None
      else if 253 <? Z.of_nat (length host) then None
      else
        let labels := split_on host "." in
        if (length labels <? 2)%nat then None
        else if negb (forallb validDNSLabel labels) then None
        else if match list.last labels with Some l => numericHost l | None => false end then None
        else Some host
  end.

(** [strconv.ParseUint(port, 10, 16)] of a string of decimal digits. *)
Definition parse_port (port : bytes) : option Z :=
  let v := fold_left (λ acc d, acc * 10 + digit_value d) port 0 in
  if v <? 65536 then Some v else None.

(** [strconv.FormatUint(v, 10)] *)
Fixpoint format_uint (fuel : nat) (v : Z) (acc : bytes) : bytes :=
  match fuel with
  | O => acc
  | S fuel' =>
      let acc' := decimal_digit (v mod 10) :: acc in
      if v <? 10 then acc' else format_uint fuel' (v / 10) acc'
  end.

Definition normalizeAuthority (parsed : URL) : option bytes :=
  let host := Hostname parsed in
  if contains_byte host "%" then None
  else
    let host := to_lower host in
    let host := if has_suffix host (b ".") then take (length host - 1) host else host in
    if bytes_eqb host [] || has_suffix host (b ".") then None
    else
      normalized_host ← normalizeHost host;
      if has_suffix (Host parsed) (b ":") then None
      else
        match Port parsed with
        | [] => Some normalized_host
        | port =>
            port_number ← parse_port port;
            if port_number =? 0 then None
            else if negb (port_number =? 443) then
              Some (normalized_host ++ b ":" ++ format_uint 5 port_number [])
            else Some normalized_host
        end.

(** The percent-decoding loop of [normalizeActorPath]. *)
Fixpoint normalize_escapes (escaped : bytes) : option bytes :=
  match escaped with
  | [] => Some []
  | character :: rest =>
      if negb (character ≡c "%") then
        if (character ≡c "\") || (byte character <? 0x20) || (byte character =? 0x7f) then None
        else out ← normalize_escapes rest; Some (character :: out)
      else
        match rest with
        | h :: l :: rest' =>
            high ← hex_value h; low ← hex_value l;
            let value := byte_of (Z.lor (Z.shiftl high 4) low) in
            if (value ≡c "%") || (value ≡c "/") || (value ≡c "\") ||
               (byte value <? 0x20) || (byte value =? 0x7f) then None
            else
              out ← normalize_escapes rest';
              Some ((if unreserved value then [value] else percent_encode value) ++ out)
        | _ => None
        end
  end.

(** [utf8.ValidString], one rune at a time; also the check that no decoded rune
    is a control character ([unicode.IsControl]: U+0000-1F, U+007F-9F). *)
Definition continuation (c : ascii) : bool := (0x80 <=? byte c) && (byte c <=? 0xBF).
Fixpoint valid_utf8_no_control (s : bytes) : bool :=
  match s with
  | [] => true
  | c0 :: s1 =>
      if byte c0 <? 0x80 then
        (0x20 <=? byte c0) && negb (byte c0 =? 0x7f) && valid_utf8_no_control s1
      else
        match s1 with
        | c1 :: s2 =>
            if (0xC2 <=? byte c0) && (byte c0 <=? 0xDF) then
              continuation c1 && negb ((byte c0 =? 0xC2) && (byte c1 <=? 0x9F)) &&
              valid_utf8_no_control s2
            else
              match s2 with
              | c2 :: s3 =>
                  if (0xE0 <=? byte c0) && (byte c0 <=? 0xEF) then
                    continuation c1 && continuation c2 &&
                    negb ((byte c0 =? 0xE0) && (byte c1 <? 0xA0)) &&
                    negb ((byte c0 =? 0xED) && (0x9F <? byte c1)) &&
                    valid_utf8_no_control s3
                  else
                    match s3 with
                    | c3 :: s4 =>
                        (0xF0 <=? byte c0) && (byte c0 <=? 0xF4) &&
                        continuation c1 && continuation c2 && continuation c3 &&
                        negb ((byte c0 =? 0xF0) && (byte c1 <? 0x90)) &&
                        negb ((byte c0 =? 0xF4) && (0x8F <? byte c1)) &&
                        valid_utf8_no_control s4
                    | [] => false
                    end
              | [] => false
              end
        | [] => false
        end
  end.

Definition dot_segment (segment : bytes) : bool :=
  bytes_eqb segment (b ".") || bytes_eqb segment (b "..").

Definition normalizeActorPath (escaped : bytes) : option bytes :=
  match escaped with
  | [] => Some (b "/")
  | c :: _ =>
      if negb (c ≡c "/") then None
      else
        path ← normalize_escapes escaped;
        decoded ← unescape path encodePath;
        if negb (valid_utf8_no_control decoded) then None
        else if contains path (b "//") then None
        else if existsb dot_segment (split_on path "/") then None
        else Some path
  end.

Definition normalizeRelayURL (raw : bytes) (kind : relayURLKind) : option normalizedRelayURL :=
  if bytes_eqb raw [] || surrounded_by_space raw then None
  else
    parsed ← Parse raw;
    if negb (bytes_eqb (Opaque parsed) []) || negb (bytes_eqb (Scheme parsed) (b "https")) then None
    else if HasUser parsed then None
    else if bytes_eqb (Host parsed) [] || bytes_eqb (Hostname parsed) [] then None
    else if negb (bytes_eqb (RawQuery parsed) []) || ForceQuery parsed then None
    else if contains_byte raw "#" then None
    else
      authority ← normalizeAuthority parsed;
      let origin := b "https://" ++ authority in
      match kind with
      | publicBaseURLKind =>
          let path := EscapedPath parsed in
          if negb (bytes_eqb path []) && negb (bytes_eqb path (b "/")) then None
          else Some {| value := origin; origin := origin |}
      | actorURL =>
          path ← normalizeActorPath (EscapedPath parsed);
          Some {| value := origin ++ path; origin := origin |}
      end.

Definition NormalizeRelayActorURL (raw : string) : option string :=
  normalized ← normalizeRelayURL (b raw) actorURL; Some (str (value normalized)).

Definition NormalizePublicBaseURL (raw : string) : option string :=
  normalized ← normalizeRelayURL (b raw) publicBaseURLKind; Some (str (value normalized)).

(** The pair [RelayIdentity{RelayActor, PublicBaseURL}]. *)
Definition NormalizeRelayIdentity (relayActor publicBaseURL : string) : option (string * string) :=
  actor ← normalizeRelayURL (b relayActor) actorURL;
  base ← normalizeRelayURL (b publicBaseURL) publicBaseURLKind;
  if bytes_eqb (origin actor) (origin base)
  then Some (str (value actor), str (value base)) else None.

(** ** The interface other components rely on *)

Class RelayIdentity := {
  norm_actor : string → option string;
  norm_identity : string → string → option (string * string);
  (** the actor part of a bound identity is the canonical actor URL *)
  norm_identity_actor a u a' u' : norm_identity a u = Some (a', u') → norm_actor a = Some a';
  (** an actor URL determines the public base URL it can be bound to *)
  norm_identity_base a u1 u2 p1 p2 :
    norm_identity a u1 = Some p1 → norm_identity a u2 = Some p2 → p1.2 = p2.2;
  norm_actor_nonempty a : norm_actor a ≠ Some "";
}.

Section Canonical.
Context `{RelayIdentity}.

(** [actor, err := NormalizeRelayActorURL(a); err == nil && actor == a] *)
Definition canonical_actor (a : string) : bool :=
  match norm_actor a with Some a' => a' ≟ a | None => false end.

(** the same test for [NormalizeRelayIdentity] *)
Definition canonical_identity (a u : string) : bool :=
  match norm_identity a u with
  | Some (a', u') => (a' ≟ a) && (u' ≟ u)
  | None => false
  end.
End Canonical.

(** ** Bytes *)

Lemma str_b s : str (b s) = s.
Proof. apply String.string_of_list_ascii_of_string. Qed.

Lemma b_str l : b (str l) = l.
Proof. apply String.list_ascii_of_string_of_list_ascii. Qed.

Lemma char_eqb_eq c d : (c ≡c d) = true ↔ c = d.
Proof. apply Ascii.eqb_eq. Qed.

Lemma bytes_eqb_eq x y : bytes_eqb x y = true ↔ x = y.
Proof.
  revert y. induction x as [|c x IH]; intros [|d y]; simpl; try (split; congruence).
  rewrite andb_true_iff, char_eqb_eq, IH. split; [intros [-> ->]; done|by intros [= -> ->]].
Qed.

(** Facts about one byte hold by computing all 256 cases. *)
Ltac each_byte := intros [[] [] [] [] [] [] [] []]; vm_compute; done.

Lemma percent_encode_decode c :
  hex_value (upper_hex (Z.shiftr (byte c) 4)) = Some (Z.shiftr (byte c) 4) ∧
  hex_value (upper_hex (Z.land (byte c) 15)) = Some (Z.land (byte c) 15) ∧
  byte_of (Z.lor (Z.shiftl (Z.shiftr (byte c) 4) 4) (Z.land (byte c) 15)) = c.
Proof. revert c. each_byte. Qed.

Lemma unreserved_plain c :
  unreserved c = true → (c ≡c "%") = false.
Proof. revert c. each_byte. Qed.

(** ** Canonical actor paths *)

Arguments percent_encode c : simpl never.

(** A byte that may stand alone in a normalized path. *)
Definition forbidden_path_byte (c : ascii) : bool :=
  (c ≡c "\") || (byte c <? 0x20) || (byte c =? 0x7f).

(** A byte that is written as an escape: reserved, and not a path delimiter. *)
Definition escaped_byte (c : ascii) : bool :=
  negb ((c ≡c "%") || (c ≡c "/") || forbidden_path_byte c) && negb (unreserved c).

(** The normal form: plain bytes, and upper-case escapes of reserved bytes. *)
Inductive normal_path : bytes → Prop :=
| normal_nil : normal_path []
| normal_plain c q :
    (c ≡c "%") = false → forbidden_path_byte c = false → normal_path q → normal_path (c :: q)
| normal_escape c q : escaped_byte c = true → normal_path q → normal_path (percent_encode c ++ q).

Lemma normalize_escapes_cons_plain c out :
  (c ≡c "%") = false → forbidden_path_byte c = false →
  normalize_escapes (c :: out) = (rest ← normalize_escapes out; Some (c :: rest)).
Proof. unfold forbidden_path_byte. intros Hc Hf. simpl. by rewrite Hc, Hf. Qed.

Lemma normalize_escapes_cons_escape c out :
  (c ≡c "%") || (c ≡c "/") || forbidden_path_byte c = false → unreserved c = false →
  normalize_escapes (percent_encode c ++ out) =
  (rest ← normalize_escapes out; Some (percent_encode c ++ rest)).
Proof.
  intros Hc Hu. destruct (percent_encode_decode c) as (Hh & Hl & Hv).
  unfold percent_encode, forbidden_path_byte in *.
  rewrite !orb_false_iff in Hc. destruct Hc as [[H1 H2] [[H3 H4] H5]].
  simpl. rewrite Hh. simpl. rewrite Hl. simpl.
  by rewrite Hv, H1, H2, H3, H4, H5, Hu.
Qed.

Lemma normalize_escapes_fixed q : normal_path q → normalize_escapes q = Some q.
Proof.
  induction 1 as [|c q Hc Hf _ IH|c q He _ IH]; [done|..].
  - rewrite normalize_escapes_cons_plain by done. by rewrite IH.
  - apply andb_true_iff in He as [He Hu]. apply negb_true_iff in He, Hu.
    rewrite normalize_escapes_cons_escape by done. by rewrite IH.
Qed.

Lemma normalize_escapes_normal p q : normalize_escapes p = Some q → normal_path q.
Proof.
  revert q. induction p as [[|c p] IH] using (induction_ltof1 _ (@length ascii));
    unfold ltof in IH; simpl; intros q Hq; [simplify_eq; constructor|].
  destruct (c ≡c "%") eqn:Hc; simpl in Hq.
  - destruct p as [|h [|l p]]; try done.
    destruct (hex_value h) as [hi|]; simpl in Hq; [|done].
    destruct (hex_value l) as [lo|]; simpl in Hq; [|done].
    set (v := byte_of (Z.lor (Z.shiftl hi 4) lo)) in *.
    match type of Hq with (if ?x then _ else _) = _ => destruct x eqn:Hv; [done|] end.
    destruct (normalize_escapes p) as [out|] eqn:Hout; simpl in Hq; [|done].
    assert (Hrec : normal_path out) by (apply (IH p); [simpl; lia|done]).
    assert (Hbad : (v ≡c "%") || (v ≡c "/") || forbidden_path_byte v = false).
    { unfold forbidden_path_byte. rewrite !orb_assoc. exact Hv. }
    destruct (unreserved v) eqn:Hun; injection Hq as <-.
    + apply orb_false_iff in Hbad as [_ Hbad].
      by constructor; [apply unreserved_plain|..].
    + apply (normal_escape v out); [|done]. unfold escaped_byte. by rewrite Hbad, Hun.
  - match type of Hq with (if ?x then _ else _) = _ => destruct x eqn:Hf; [done|] end.
    destruct (normalize_escapes p) as [out|] eqn:Hout; simpl in Hq; [|done].
    injection Hq as <-. constructor; [done|done|]. apply (IH p); [simpl; lia|done].
Qed.

Lemma normalize_escapes_slash p q :
  normalize_escapes ("/"%char :: p) = Some q → ∃ q', q = "/"%char :: q'.
Proof.
  simpl. destruct (normalize_escapes p); simpl; [|done]. intros [= <-]. eauto.
Qed.

Lemma normalizeActorPath_inv p q :
  normalizeActorPath p = Some q →
  q = b "/" ∨
  (normal_path q ∧ ∃ q', q = "/"%char :: q' ∧
   contains q (b "//") = false ∧ existsb dot_segment (split_on q "/") = false ∧
   ∃ d, unescape q encodePath = Some d ∧ valid_utf8_no_control d = true).
Proof.
  unfold normalizeActorPath. destruct p as [|c p]; [intros [= <-]; by left|].
  destruct (c ≡c "/") eqn:Hc; cbn [negb]; [|done]. apply char_eqb_eq in Hc as ->.
  destruct (normalize_escapes ("/"%char :: p)) as [path|] eqn:Hpath; cbn; [|done].
  pose proof (normalize_escapes_slash _ _ Hpath) as [q' ->].
  pose proof (normalize_escapes_normal _ _ Hpath) as Hnormal. clear Hpath.
  destruct (unescape _ _) as [d|] eqn:Hd; cbn [mbind option_bind]; [|done].
  intros Hq. right.
  repeat match type of Hq with (if ?x then _ else _) = _ => destruct x eqn:?; [done|] end.
  injection Hq as <-. bool_facts. eauto 12.
Qed.

Lemma normal_path_slash : normal_path (b "/").
Proof. constructor; [done|done|constructor]. Qed.

Lemma normalizeActorPath_refixed q q' d :
  normal_path q → q = "/"%char :: q' → unescape q encodePath = Some d →
  valid_utf8_no_control d = true → contains q (b "//") = false →
  existsb dot_segment (split_on q "/") = false → normalizeActorPath q = Some q.
Proof.
  intros Hn -> Hd Hv Hc Hs. unfold normalizeActorPath.
  change (negb ("/"%char ≡c "/"%char)) with false. cbv iota.
  rewrite (normalize_escapes_fixed _ Hn). cbn [mbind option_bind].
  by rewrite Hd; cbn [mbind option_bind]; rewrite Hv, Hc, Hs.
Qed.

(** The result of [normalizeRelayURL] is its origin, followed for an actor by an
    absolute path. *)
Lemma normalizeRelayURL_shape raw kind n :
  normalizeRelayURL raw kind = Some n →
  ∃ authority, origin n = b "https://" ++ authority ∧
  match kind with
  | publicBaseURLKind => value n = origin n
  | actorURL => ∃ p path, normalizeActorPath p = Some path ∧ value n = origin n ++ path
  end.
Proof.
  unfold normalizeRelayURL. intros Hn.
  destruct (_ || _); [done|].
  destruct (Parse raw) as [parsed|]; cbn [mbind option_bind] in Hn; [|done].
  repeat match type of Hn with
  | (if ?x then None else _) = _ => destruct x eqn:?; [done|]
  end.
  destruct (normalizeAuthority parsed) as [authority|]; cbn [mbind option_bind] in Hn; [|done].
  exists authority. destruct kind.
  - destruct (normalizeActorPath (EscapedPath parsed)) as [path|] eqn:Hpath;
      cbn [mbind option_bind] in Hn; [|done].
    injection Hn as <-. eauto.
  - match type of Hn with (if ?x then _ else _) = _ => destruct x; [done|] end.
    by injection Hn as <-.
Qed.

Lemma str_app x y : str (x ++ y) = (str x +:+ str y).
Proof. unfold str. induction x as [|c x IH]; [done|]. simpl. by rewrite IH. Qed.

Lemma NormalizeRelayIdentity_inv a u a' u' :
  NormalizeRelayIdentity a u = Some (a', u') →
  ∃ na nb, normalizeRelayURL (b a) actorURL = Some na ∧
           normalizeRelayURL (b u) publicBaseURLKind = Some nb ∧
           a' = str (value na) ∧ u' = str (origin na) ∧ value nb = origin na.
Proof.
  unfold NormalizeRelayIdentity.
  destruct (normalizeRelayURL (b a) actorURL) as [na|] eqn:Ha; simpl; [|done].
  destruct (normalizeRelayURL (b u) publicBaseURLKind) as [nb|] eqn:Hb; simpl; [|done].
  destruct (bytes_eqb _ _) eqn:Ho; [|done]. apply bytes_eqb_eq in Ho. intros [= <- <-].
  destruct (normalizeRelayURL_shape _ _ _ Hb) as (? & _ & Hvalue).
  exists na, nb. repeat split; congruence.
Qed.

#[export] Program Instance go_identity : RelayIdentity := {|
  norm_actor := NormalizeRelayActorURL;
  norm_identity := NormalizeRelayIdentity
|}.
Next Obligation.
  intros a u a' u' (na & nb & Ha & _ & -> & _)%NormalizeRelayIdentity_inv.
  unfold NormalizeRelayActorURL. by rewrite Ha.
Qed.
Next Obligation.
  intros a u1 u2 [a1 b1] [a2 b2] H1 H2. simpl.
  apply NormalizeRelayIdentity_inv in H1 as (n1 & ? & Ha1 & _ & _ & -> & _).
  apply NormalizeRelayIdentity_inv in H2 as (n2 & ? & Ha2 & _ & _ & -> & _).
  congruence.
Qed.
Next Obligation.
  intros a. unfold NormalizeRelayActorURL.
  destruct (normalizeRelayURL (b a) actorURL) as [n|] eqn:Ha; simpl; [|done].
  destruct (normalizeRelayURL_shape _ _ _ Ha) as (auth & Ho & p & path & _ & Hv).
  rewrite Hv, Ho. done.
Qed.

(** ** Properties *)

(** Canonical actor paths: what [normalizeActorPath] returns is accepted again
    unchanged, escapes only reserved bytes and in upper case, is absolute, and has
    no empty and no dot segment. *)
Theorem normalizeActorPath_canonical p q :
  normalizeActorPath p = Some q →
  normalizeActorPath q = Some q ∧ normal_path q ∧ contains q (b "//") = false ∧
  existsb dot_segment (split_on q "/") = false ∧ ∃ q', q = "/"%char :: q'.
Proof.
  intros [->|(Hn & q' & -> & Hc & Hs & d & Hd & Hv)]%normalizeActorPath_inv.
  - by repeat split; eauto using normal_path_slash.
  - repeat split; try done; [|by eauto]. by eapply normalizeActorPath_refixed.
Qed.

(** A bound identity is one origin: the canonical actor URL is the canonical
    public base URL followed by a canonical absolute path. *)
Theorem NormalizeRelayIdentity_same_origin a u a' u' :
  NormalizeRelayIdentity a u = Some (a', u') →
  ∃ authority p path, u' = "https://" +:+ str authority ∧ a' = u' +:+ str path ∧
    normalizeActorPath p = Some path ∧ NormalizePublicBaseURL u = Some u' ∧
    NormalizeRelayActorURL a = Some a'.
Proof.
  intros (na & nb & Ha & Hb & -> & -> & Ho)%NormalizeRelayIdentity_inv.
  destruct (normalizeRelayURL_shape _ _ _ Ha) as (auth & Horigin & p & path & Hpath & Hv).
  exists auth, p, path. unfold NormalizePublicBaseURL, NormalizeRelayActorURL.
  rewrite Ha, Hb. simpl. rewrite Hv, Ho. rewrite Horigin at 1.
  rewrite !str_app. repeat split; done.
Qed.

(** ** Evaluation on the repository's own vectors *)

Example actor_url_vectors :
  map NormalizeRelayActorURL
    ["HTTPS://Relay.Example.:443/%61ctor"; "https://relay.example:8443/actor";
     "https://[2001:0db8::1]:8443/actor"; "https://192.0.2.1/actor";
     "https://relay.example/%e2%98%83%3a"; "https://relay.example"]%string =
  [Some "https://relay.example/actor"; Some "https://relay.example:8443/actor";
   Some "https://[2001:db8::1]:8443/actor"; Some "https://192.0.2.1/actor";
   Some "https://relay.example/%E2%98%83%3A"; Some "https://relay.example/"]%string.
Proof. vm_compute. reflexivity. Qed.

Example refused_url_vectors :
  forallb (λ raw, match NormalizeRelayActorURL raw with None => true | Some _ => false end)
    [""; " https://relay.example/actor"; "http://relay.example/actor";
     "https://user@relay.example/actor"; "https://relay.example/actor?view=full";
     "https://relay.example/actor?"; "https://relay.example/actor#key";
     "https://relay.example/actor#"; "https://relay.example:0/actor";
     "https://relay.example:/actor"; "https://relay.example:bad/actor"; "https://relay/actor";
     "https://relay_example/actor"; "https://rélais.example/actor"; "https://127.0.0.01/actor";
     "https://relay.123/actor"; "https://relay.example//actor"; "https://relay.example/./actor";
     "https://relay.example/%2e%2e/actor"; "https://relay.example/a%2fb";
     "https://relay.example/a%5cb"; "https://relay.example/a%25b"; "https://relay.example/%C0%AF";
     "https://relay.example/%FF"; "https://relay.example/%C2%85"; "https://relay.example/a\b";
     "https://[fe80::1%25eth0]/actor"]%string = true.
Proof. vm_compute. reflexivity. Qed.

Lemma normalizeActorPath_canonical_witness :
  normalizeActorPath (b "/%61ctor%3a") = Some (b "/actor%3A") ∧
  normalizeActorPath (b "/actor%3A") = Some (b "/actor%3A").
Proof.
  assert (Hp : normalizeActorPath (b "/%61ctor%3a") = Some (b "/actor%3A"))
    by (vm_compute; reflexivity).
  split; [exact Hp|]. exact (proj1 (normalizeActorPath_canonical _ _ Hp)).
Defined.

Lemma NormalizeRelayIdentity_same_origin_witness :
  NormalizeRelayIdentity "https://Relay.Example.:443/%61ctor" "https://relay.example/" =
    Some ("https://relay.example/actor", "https://relay.example") ∧
  NormalizePublicBaseURL "https://relay.example/" = Some "https://relay.example".
Proof.
  assert (Hp : NormalizeRelayIdentity "https://Relay.Example.:443/%61ctor" "https://relay.example/"
    = Some ("https://relay.example/actor", "https://relay.example")) by (vm_compute; reflexivity).
  split; [exact Hp|].
  destruct (NormalizeRelayIdentity_same_origin _ _ _ _ Hp) as (? & ? & ? & _ & _ & _ & Hb & _).
  exact Hb.
Defined.
