(* ===== verification/AddrText.v ===== *)
(** * AddrText: hosts, ports and addresses in the form the parsers read back

    Facts about [GoNet] and [Identity] used by [Canonical]: cutting at a byte, the
    bytes a printed authority consists of, ports, and that the text printed for an
    IPv4 or IPv6 address is parsed to that address again. *)
From S2P Require Import Prelude GoNet Identity.
From Stdlib Require Import Ascii.
Local Open Scope Z_scope.
Local Open Scope go_scope.
Local Open Scope list_scope.

(** ** Cutting at a byte *)

Definition free_of (c : ascii) (s : bytes) : Prop := ∀ d, In d s → (d ≡c c) = false.

Lemma free_of_app c x y : free_of c x → free_of c y → free_of c (x ++ y).
Proof. intros Hx Hy d [Hd|Hd]%in_app_or; auto. Qed.
Lemma free_of_rev c x : free_of c x → free_of c (rev x).
Proof. intros Hx d Hd%in_rev. auto. Qed.

Lemma cut_free s c : free_of c s → cut s c = (s, [], false).
Proof.
  induction s as [|d s IH]; intros Hf; [done|]. simpl. rewrite (Hf d) by (by left).
  rewrite IH; [done|]. intros e He. apply Hf. by right.
Qed.
Lemma cut_at x y c : free_of c x → cut (x ++ c :: y) c = (x, y, true).
Proof.
  induction x as [|d x IH]; intros Hf; simpl.
  - by rewrite (proj2 (char_eqb_eq c c) eq_refl).
  - rewrite (Hf d) by (by left). rewrite IH; [done|]. intros e He. apply Hf. by right.
Qed.
Lemma cut_last_free s c : free_of c s → cut_last s c = None.
Proof. intros Hf. unfold cut_last. by rewrite cut_free by (by apply free_of_rev). Qed.
Lemma cut_last_at x y c : free_of c y → cut_last (x ++ c :: y) c = Some (x, y).
Proof.
  intros Hf. unfold cut_last. rewrite rev_app_distr. simpl. rewrite <- app_assoc. simpl.
  rewrite cut_at by (by apply free_of_rev). by rewrite !rev_involutive.
Qed.
Lemma contains_byte_free s c : free_of c s → contains_byte s c = false.
Proof.
  intros Hf. unfold contains_byte. apply not_true_iff_false. intros (d&Hd&Hc)%existsb_exists.
  apply char_eqb_eq in Hc. subst d. specialize (Hf _ Hd). by rewrite (proj2 (char_eqb_eq c c) eq_refl) in Hf.
Qed.
Lemma has_prefix_nil s : has_prefix s [] = true.
Proof. by destruct s. Qed.
Lemma has_suffix_last x c : has_suffix (x ++ [c]) [c] = true.
Proof.
  unfold has_suffix. rewrite rev_app_distr. simpl. by rewrite (proj2 (char_eqb_eq c c) eq_refl), has_prefix_nil.
Qed.
Lemma has_suffix_free s c : free_of c s → has_suffix s [c] = false.
Proof.
  intros Hf. unfold has_suffix. destruct (rev s) as [|d r] eqn:E; [done|]. simpl.
  assert (Hd : In d s) by (apply in_rev; rewrite E; by left).
  destruct (c ≡c d) eqn:Hc; [|done]. apply char_eqb_eq in Hc as ->.
  specialize (Hf d Hd). by rewrite (proj2 (char_eqb_eq d d) eq_refl) in Hf.
Qed.

(** ** The bytes of a canonical authority and path *)

Definition host_char (c : ascii) : bool := is_lower c || is_digit c || mem c "-.:[]".
Definition path_char (c : ascii) : bool := mem c "!$&'()*+,;=:@[]%" || negb (should_escape c encodePath).
Definition all_in (p : ascii → bool) (s : bytes) : Prop := ∀ c, In c s → p c = true.

Lemma all_in_app p x y : all_in p x → all_in p y → all_in p (x ++ y).
Proof. intros Hx Hy c [Hc|Hc]%in_app_or; auto. Qed.
Lemma all_in_cons p c x : p c = true → all_in p x → all_in p (c :: x).
Proof. intros Hc Hx d [<-|Hd]; auto. Qed.
Lemma all_in_nil p : all_in p [].
Proof. by intros c []. Qed.
Lemma all_in_inv p c x : all_in p (c :: x) → p c = true ∧ all_in p x.
Proof. intros Hx. split; [apply Hx; by left|]. intros d Hd. apply Hx. by right. Qed.
Lemma all_in_forallb p s : forallb p s = true → all_in p s.
Proof. rewrite forallb_forall. done. Qed.
#[local] Hint Resolve all_in_app all_in_cons all_in_nil : core.

Lemma host_char_facts c : host_char c = true →
  (c ≡c "%") = false ∧ (c ≡c "#") = false ∧ (c ≡c "?") = false ∧ (c ≡c "/") = false ∧ (c ≡c "@") = false ∧
  is_ctl c = false ∧ lower_byte c = c ∧ (byte c <? 128) && should_escape c encodeHost = false ∧ (byte c <? 128) = true.
Proof. revert c. each_byte. Qed.
Lemma path_char_facts c : path_char c = true →
  (c ≡c "#") = false ∧ (c ≡c "?") = false ∧ is_ctl c = false ∧ ascii_space c = false ∧ (byte c <? 128) = true.
Proof. revert c. each_byte. Qed.

Lemma all_host_free s c : all_in host_char s → (∀ d, host_char d = true → (d ≡c c) = false) → free_of c s.
Proof. intros Hs Hc d Hd. auto. Qed.

Lemma unescape_host s : all_in host_char s → unescape s encodeHost = Some s.
Proof.
  induction s as [|c s IH]; intros Hs; [done|]. apply all_in_inv in Hs as [Hc Hs].
  destruct (host_char_facts c Hc) as (H1&_&_&_&_&_&_&H2&_). simpl. rewrite H1.
  rewrite IH by done. by rewrite H2.
Qed.
Lemma to_lower_host s : all_in host_char s → to_lower s = s.
Proof.
  induction s as [|c s IH]; intros Hs; [done|]. apply all_in_inv in Hs as [Hc Hs].
  specialize (IH Hs). revert Hc. destruct c as [[] [] [] [] [] [] [] []]; intros Hc; try discriminate Hc; cbn; by rewrite IH.
Qed.

(** ** Ports *)

Lemma digit_byte z : 0 ≤ z ≤ 9 → digit_value (decimal_digit z) = z ∧ is_digit (decimal_digit z) = true.
Proof.
  intros Hz. assert (z = 0 ∨ z = 1 ∨ z = 2 ∨ z = 3 ∨ z = 4 ∨ z = 5 ∨ z = 6 ∨ z = 7 ∨ z = 8 ∨ z = 9) as Hcases by lia.
  by repeat destruct Hcases as [->|Hcases]; [..|subst z].
Qed.
Definition read_digits (s : bytes) (v : Z) : Z := fold_left (λ acc d, acc * 10 + digit_value d) s v.

Lemma format_uint_read fuel v acc : 0 ≤ v < 10 ^ Z.of_nat fuel → read_digits (format_uint fuel v acc) 0 = read_digits acc v.
Proof.
  revert v acc. induction fuel as [|fuel IH]; intros v acc Hv; [simpl in Hv; by assert (v = 0) as -> by lia|].
  cbn [format_uint]. destruct (digit_byte (v mod 10)) as [Hd _]; [pose proof (Z.mod_pos_bound v 10); lia|].
  destruct (Z.ltb_spec v 10).
  - unfold read_digits. simpl. rewrite Hd, Z.mod_small by lia. f_equal.
  - rewrite IH by (rewrite Nat2Z.inj_succ, Z.pow_succ_r in Hv by lia; split; [apply Z.div_pos; lia|apply Z.div_lt_upper_bound; lia]).
    unfold read_digits. simpl. rewrite Hd. f_equal. pose proof (Z.div_mod v 10). lia.
Qed.
Lemma format_uint_digits fuel v acc : 0 ≤ v → forallb is_digit acc = true → forallb is_digit (format_uint fuel v acc) = true.
Proof.
  revert v acc. induction fuel as [|fuel IH]; intros v acc Hv Ha; [done|]. cbn [format_uint].
  destruct (digit_byte (v mod 10)) as [_ Hd]; [pose proof (Z.mod_pos_bound v 10); lia|].
  destruct (v <? 10); [by simpl; rewrite Hd|]. apply IH; [apply Z.div_pos; lia|]. simpl. by rewrite Hd.
Qed.
Lemma format_uint_nonempty fuel v acc : (0 < fuel)%nat → format_uint fuel v acc ≠ [].
Proof.
  revert v acc. induction fuel as [|fuel IH]; intros v acc Hf; [lia|]. cbn [format_uint].
  destruct (v <? 10); [done|]. destruct fuel as [|fuel]; [done|]. apply IH. lia.
Qed.
Lemma digit_host c : is_digit c = true → host_char c = true ∧ (c ≡c ":") = false ∧ (c ≡c "]") = false ∧ (c ≡c ".") = false.
Proof. revert c. each_byte. Qed.
Lemma digits_host s : forallb is_digit s = true → all_in host_char s ∧ free_of ":" s ∧ free_of "]" s ∧ free_of "." s.
Proof. rewrite forallb_forall. intros Hs. split_and!; intros c Hc; by apply digit_host, Hs. Qed.

(** ** IPv4 text *)

Ltac div_lia := Z.to_euclidean_division_equations; lia.

Lemma is_digit_value c : is_digit c = true → 0 ≤ digit_value c ≤ 9 ∧ decimal_digit (digit_value c) = c.
Proof.
  intros Hc. assert (0 ≤ digit_value c ≤ 9); [|split; [done|]].
  - unfold is_digit, in_range, digit_value in *. change (byte "0") with 48 in *. change (byte "9") with 57 in *. bool_facts. lia.
  - revert c Hc H. each_byte.
Qed.
Lemma zero_digit c : is_digit c = true → digit_value c = 0 → (c ≡c "0") = true.
Proof. revert c. each_byte. Qed.

(** A decimal octet without leading zeros is the print of its value. *)
Lemma parse_octet_print s v : parse_octet s = Some v → print_octet v = s ∧ 0 ≤ v ≤ 255.
Proof.
  unfold parse_octet. destruct s as [|c s]; [done|].
  destruct (_ && _ && _) eqn:E; [|done]. apply andb_true_iff in E as [[Hd Hz]%andb_true_iff Hl].
  destruct (Z.leb_spec (fold_left (λ acc d, acc * 10 + digit_value d) (c :: s) 0) 255) as [Hv|]; [|done].
  intros [= <-]. simpl in Hd. apply andb_true_iff in Hd as [Hc Hd].
  destruct (is_digit_value c Hc) as [Bc Ec].
  destruct s as [|d s]; [simpl in *; unfold print_octet; rewrite (proj2 (Z.ltb_lt _ 10)) by lia; split; [by f_equal|lia]|].
  assert (Hcz : digit_value c ≠ 0) by (intros H0; rewrite (zero_digit c Hc H0) in Hz; done).
  simpl in Hd. apply andb_true_iff in Hd as [Hd He]. destruct (is_digit_value d Hd) as [Bd Ed].
  destruct s as [|e s].
  - simpl in *. change (0 * 10 + digit_value c) with (digit_value c) in *. unfold print_octet. rewrite (proj2 (Z.ltb_ge _ 10)), (proj2 (Z.ltb_lt _ 100)) by lia.
    split; [|lia]. replace ((digit_value c * 10 + digit_value d) / 10) with (digit_value c) by div_lia.
    replace ((digit_value c * 10 + digit_value d) mod 10) with (digit_value d) by div_lia. by rewrite Ec, Ed.
  - simpl in He. apply andb_true_iff in He as [He Hf]. destruct (is_digit_value e He) as [Be Ee].
    destruct s as [|f s]; [|simpl in Hl; apply Z.leb_le in Hl; lia].
    simpl in *. change (0 * 10 + digit_value c) with (digit_value c) in *.
    unfold print_octet. rewrite (proj2 (Z.ltb_ge _ 10)), (proj2 (Z.ltb_ge _ 100)) by lia.
    set (n := (digit_value c * 10 + digit_value d) * 10 + digit_value e) in *.
    split; [|unfold n in *; lia]. replace (n / 100) with (digit_value c) by (unfold n; div_lia).
    replace (n / 10 mod 10) with (digit_value d) by (unfold n; div_lia).
    replace (n mod 10) with (digit_value e) by (unfold n; div_lia). by rewrite Ec, Ed, Ee.
Qed.

Fixpoint join_with (c : ascii) (parts : list bytes) : bytes :=
  match parts with [] => [] | [p] => p | p :: rest => p ++ c :: join_with c rest end.
Lemma join_split s c : join_with c (split_on s c) = s ∧ split_on s c ≠ [].
Proof.
  induction s as [|d s [IH Hne]]; [done|]. simpl. destruct (split_on s c) as [|p rest]; [done|].
  destruct (d ≡c c) eqn:Hd; (split; [|done]).
  - apply char_eqb_eq in Hd as ->. simpl. f_equal. exact IH.
  - rewrite <- IH. by destruct rest.
Qed.

Lemma parse_ipv4_print s x : parse_ipv4 s = Some x → ∃ a b' c d, x = V4 a b' c d ∧ print_ipv4 a b' c d = s ∧
  0 ≤ a ≤ 255 ∧ 0 ≤ b' ≤ 255 ∧ 0 ≤ c ≤ 255 ∧ 0 ≤ d ≤ 255.
Proof.
  unfold parse_ipv4. pose proof (join_split s ".") as [Hj _].
  destruct (split_on s ".") as [|p [|q [|r [|t [|]]]]]; try done.
  destruct (parse_octet p) as [a|] eqn:Ha; simpl; [|done]. destruct (parse_octet q) as [b'|] eqn:Hb; simpl; [|done].
  destruct (parse_octet r) as [c|] eqn:Hc; simpl; [|done]. destruct (parse_octet t) as [d|] eqn:Hd; simpl; [|done].
  intros [= <-]. apply parse_octet_print in Ha as [<- ?], Hb as [<- ?], Hc as [<- ?], Hd as [<- ?].
  exists a, b', c, d. split_and!; try lia; [done|]. rewrite <- Hj. done.
Qed.

Lemma parse_octet_of_print v : 0 ≤ v ≤ 255 → parse_octet (print_octet v) = Some v.
Proof.
  intros Hv. assert (Hall : forallb (λ n, match parse_octet (print_octet (Z.of_nat n)) with Some w => w =? Z.of_nat n | None => false end)
    (seq 0 256) = true) by (vm_compute; reflexivity).
  rewrite forallb_forall in Hall. specialize (Hall (Z.to_nat v)). rewrite Z2Nat.id in Hall by lia.
  destruct (parse_octet (print_octet v)) as [w|]; [|by ospecialize (Hall _); [apply in_seq; lia|]].
  f_equal. apply Z.eqb_eq, Hall, in_seq. lia.
Qed.
Lemma print_octet_digits v : 0 ≤ v ≤ 255 → forallb is_digit (print_octet v) = true ∧ print_octet v ≠ [] ∧ (length (print_octet v) <= 3)%nat.
Proof.
  intros Hv. assert (Hall : forallb (λ n, forallb is_digit (print_octet (Z.of_nat n))) (seq 0 256) = true) by (vm_compute; reflexivity).
  rewrite forallb_forall in Hall. specialize (Hall (Z.to_nat v)). rewrite Z2Nat.id in Hall by lia.
  split; [apply Hall, in_seq; lia|]. unfold print_octet. repeat case_match; (split; [done|simpl; lia]).
Qed.

(** ** IPv6 text *)

Definition group_ok (g : Z) : Prop := 0 ≤ g < 65536.
Definition hex_text (c : ascii) : bool := is_digit c || in_range c "a" "f".

Lemma lower_hex_value z : 0 ≤ z ≤ 15 → hex_value (lower_hex z) = Some z ∧ hex_text (lower_hex z) = true.
Proof.
  intros Hz. assert (Hall : forallb (λ n, match hex_value (lower_hex (Z.of_nat n)) with Some w => w =? Z.of_nat n | None => false end &&
    hex_text (lower_hex (Z.of_nat n))) (seq 0 16) = true) by (vm_compute; reflexivity).
  rewrite forallb_forall in Hall. specialize (Hall (Z.to_nat z)). rewrite Z2Nat.id in Hall by lia.
  ospecialize (Hall _); [apply in_seq; lia|]. apply andb_true_iff in Hall as [Hh Ht].
  destruct (hex_value (lower_hex z)); [|done]. apply Z.eqb_eq in Hh as ->. done.
Qed.

(** The digits [print_group] writes, as a list of nibbles. *)
Definition nibbles (v : Z) : list Z :=
  (if 4096 <=? v then [v / 4096] else []) ++ (if 256 <=? v then [v / 256 mod 16] else []) ++
  (if 16 <=? v then [v / 16 mod 16] else []) ++ [v mod 16].
Lemma print_group_nibbles v : group_ok v → print_group v = map lower_hex (nibbles v).
Proof.
  intros Hv. unfold print_group, nibbles. rewrite !map_app. rewrite !Z.shiftr_div_pow2 by lia.
  change 15 with (Z.ones 4). rewrite !Z.land_ones by lia. change (2 ^ 12) with 4096. change (2 ^ 8) with 256. change (2 ^ 4) with 16.
  by repeat case_match.
Qed.
Lemma nibbles_ok v : group_ok v → Forall (λ z, 0 ≤ z ≤ 15) (nibbles v) ∧ fold_left (λ acc z, acc * 16 + z) (nibbles v) 0 = v ∧
  (1 <= length (nibbles v) <= 4)%nat.
Proof.
  unfold group_ok, nibbles. intros Hv.
  destruct (Z.leb_spec 4096 v), (Z.leb_spec 256 v), (Z.leb_spec 16 v); simpl; try lia; (split; [|split; [|lia]]);
    repeat constructor; div_lia.
Qed.

(** What may follow a hexadecimal field. *)
Definition field_end (rest : bytes) : Prop := match rest with [] => True | c :: _ => hex_value c = None end.

Lemma hex_field_nibbles zs rest acc off : Forall (λ z, 0 ≤ z ≤ 15) zs → field_end rest →
  hex_field (map lower_hex zs ++ rest) acc off = (fold_left (λ acc z, acc * 16 + z) zs acc, (off + length zs)%nat, rest).
Proof.
  intros Hz Hr. revert acc off. induction Hz as [|z zs Hz _ IH]; intros acc off; simpl.
  - rewrite Nat.add_0_r. destruct rest as [|c rest]; [done|]. simpl in *. by rewrite Hr.
  - destruct (lower_hex_value z Hz) as [-> _]. rewrite IH. f_equal. f_equal. lia.
Qed.
Lemma hex_field_group v rest : group_ok v → field_end rest →
  ∃ n, hex_field (print_group v ++ rest) 0 0 = (v, n, rest) ∧ (n =? 0)%nat || (4 <? n)%nat = false.
Proof.
  intros Hv Hr. rewrite print_group_nibbles by done. destruct (nibbles_ok v Hv) as (Hz&Hf&Hl).
  rewrite hex_field_nibbles, Hf by done. eexists. split; [done|]. simpl.
  destruct (Nat.eqb_spec (length (nibbles v)) 0); [lia|]. destruct (Nat.ltb_spec 4 (length (nibbles v))); [lia|done].
Qed.

Definition print_groups (gs : list Z) : bytes := join_colon (map print_group gs).
Lemma print_groups_cons g g2 gs : print_groups (g :: g2 :: gs) = print_group g ++ ":"%char :: print_groups (g2 :: gs).
Proof. done. Qed.
Lemma print_group_head g : group_ok g → ∃ c t, print_group g = c :: t ∧ (c ≡c ":") = false.
Proof.
  intros Hg. rewrite print_group_nibbles by done. destruct (nibbles_ok g Hg) as (Hz&_&Hl).
  destruct (nibbles g) as [|z zs]; [simpl in Hl; lia|]. inversion Hz as [|? ? Hz1 _]; subst.
  exists (lower_hex z), (map lower_hex zs). split; [done|]. destruct (lower_hex_value z Hz1) as [_ Ht].
  revert Ht. generalize (lower_hex z). each_byte.
Qed.
Lemma print_groups_head g gs : group_ok g → ∃ c t, print_groups (g :: gs) = c :: t ∧ (c ≡c ":") = false.
Proof.
  intros Hg. destruct (print_group_head g Hg) as (c&t&Hc&Hn). destruct gs as [|g2 gs].
  - by exists c, t.
  - rewrite print_groups_cons, Hc. by eexists c, _.
Qed.

(** One round of the field loop over a printed group and what follows it. *)
Lemma fields_last fuel g acc ell : group_ok g → (length acc < 8)%nat →
  ipv6_fields (S fuel) (print_group g) acc ell = Some (acc ++ [g], ell, []).
Proof.
  intros Hg Hacc. cbn [ipv6_fields]. rewrite (proj2 (Z.leb_gt 8 _)) by lia.
  rewrite <- (app_nil_r (print_group g)). destruct (hex_field_group g [] Hg I) as (n&->&->). done.
Qed.
Lemma fields_colon fuel g rest acc ell : group_ok g → (length acc < 8)%nat →
  match rest with c :: _ => (c ≡c ":") = false | [] => False end →
  ipv6_fields (S fuel) (print_group g ++ ":"%char :: rest) acc ell = ipv6_fields fuel rest (acc ++ [g]) ell.
Proof.
  intros Hg Hacc Hr. cbn [ipv6_fields]. rewrite (proj2 (Z.leb_gt 8 _)) by lia.
  destruct (hex_field_group g (":"%char :: rest) Hg eq_refl) as (n&->&->). destruct rest as [|c rest]; [done|].
  change (":"%char ≡c ".") with false. change (negb (":"%char ≡c ":")) with false. cbv iota. by rewrite Hr.
Qed.
Lemma fields_gap fuel g rest acc : group_ok g → (length acc < 8)%nat →
  ipv6_fields (S fuel) (print_group g ++ ":"%char :: ":"%char :: rest) acc None =
  match rest with
  | [] => Some (acc ++ [g], Some (length (acc ++ [g])), [])
  | _ => ipv6_fields fuel rest (acc ++ [g]) (Some (length (acc ++ [g])))
  end.
Proof.
  intros Hg Hacc. cbn [ipv6_fields]. rewrite (proj2 (Z.leb_gt 8 _)) by lia.
  destruct (hex_field_group g (":"%char :: ":"%char :: rest) Hg eq_refl) as (n&->&->). by destruct rest.
Qed.

Lemma fields_groups gs : ∀ fuel acc ell, gs ≠ [] → Forall group_ok gs → (length acc + length gs <= 8)%nat → (length gs <= fuel)%nat →
  ipv6_fields fuel (print_groups gs) acc ell = Some (acc ++ gs, ell, []).
Proof.
  induction gs as [|g [|g2 gs] IH]; intros fuel acc ell Hne Hok Hl Hf; [done| |]; inversion Hok as [|? ? Hg Hok']; subst;
    (destruct fuel as [|fuel]; [simpl in Hf; lia|]).
  - apply fields_last; [done|simpl in Hl; lia].
  - rewrite print_groups_cons, fields_colon; [|done|simpl in Hl; lia|].
    + rewrite IH; [by rewrite <- app_assoc|done|done|rewrite length_app; simpl in *; lia|simpl in *; lia].
    + inversion Hok' as [|? ? Hg2 _]; subst. by destruct (print_groups_head g2 gs Hg2) as (c&t&->&Hc).
Qed.
Lemma fields_groups_gap gs gs2 : ∀ fuel acc, gs ≠ [] → Forall group_ok gs → Forall group_ok gs2 →
  (length acc + length gs + length gs2 <= 8)%nat → (length gs + length gs2 <= fuel)%nat →
  ipv6_fields fuel (print_groups gs ++ b "::" ++ print_groups gs2) acc None =
  Some (acc ++ gs ++ gs2, Some (length (acc ++ gs)), []).
Proof.
  induction gs as [|g [|g2 gs] IH]; intros fuel acc Hne Hok Hok2 Hl Hf; [done| |]; inversion Hok as [|? ? Hg Hok']; subst;
    (destruct fuel as [|fuel]; [simpl in Hf; lia|]).
  - change (print_groups [g] ++ b "::" ++ ?t) with (print_group g ++ ":"%char :: ":"%char :: t).
    rewrite fields_gap; [|done|simpl in Hl; lia]. destruct gs2 as [|h gs2]; [done|].
    inversion Hok2 as [|? ? Hh _]; subst. destruct (print_groups_head h gs2 Hh) as (c&t&Hc&_). rewrite Hc, <- Hc.
    rewrite fields_groups; [by rewrite <- app_assoc|done|done|rewrite length_app; simpl in *; lia|simpl in *; lia].
  - rewrite print_groups_cons, <- app_assoc. cbn [app]. rewrite fields_colon; [|done|simpl in Hl; lia|].
    + rewrite IH; [by rewrite <- !app_assoc|done|done|done|rewrite length_app; simpl in *; lia|simpl in *; lia].
    + inversion Hok' as [|? ? Hg2 _]; subst. by destruct (print_groups_head g2 gs Hg2) as (c&t&->&Hc).
Qed.

Lemma zero_run_spec gs : take (zero_run gs) gs = replicate (zero_run gs) 0 ∧ (zero_run gs <= length gs)%nat.
Proof.
  induction gs as [|g gs [IH Hl]]; [done|]. simpl. destruct (Z.eqb_spec g 0) as [->|]; [|simpl; split; [done|lia]].
  simpl. rewrite IH. split; [done|lia].
Qed.
(** The chosen run is a run of at least two zero groups. *)
Definition run_ok (all : list Z) (best : option (nat * nat)) : Prop :=
  match best with
  | Some (start, l) => (2 <= l)%nat ∧ (start + l <= length all)%nat ∧ take l (drop start all) = replicate l 0
  | None => True
  end.
Lemma longest_zero_run_ok all : ∀ gs start best, gs = drop start all → (start + length gs = length all)%nat → run_ok all best →
  run_ok all (longest_zero_run gs start best).
Proof.
  induction gs as [|g gs IH]; intros start best Hgs Hl Hb; [done|]. cbn [longest_zero_run]. cbv zeta. apply IH.
  - rewrite <- drop_drop, Nat.add_comm in Hgs || idtac. by rewrite <- Nat.add_1_r, <- drop_drop, <- Hgs.
  - simpl in Hl. lia.
  - destruct (_ && _) eqn:E; [|done]. apply andb_true_iff in E as [H2 _]. apply Nat.leb_le in H2.
    destruct (zero_run_spec (g :: gs)) as [Hz Hle]. unfold run_ok. rewrite <- Hgs. split_and!; [done|lia|done].
Qed.

Definition is_4in6 (gs : list Z) : bool :=
  match gs with
  | [a; b0; c; d; e; f; _; _] => (a =? 0) && (b0 =? 0) && (c =? 0) && (d =? 0) && (e =? 0) && (f =? 65535)
  | _ => false
  end.
Lemma AddrString_v6 gs : is_4in6 gs = false → AddrString (V6 gs) = print_ipv6 gs.
Proof.
  intros Hn. destruct gs as [|a gs]; [done|]. destruct a; try done. destruct gs as [|a gs]; [done|]. destruct a; try done.
  destruct gs as [|a gs]; [done|]. destruct a; try done. destruct gs as [|a gs]; [done|]. destruct a; try done.
  destruct gs as [|a gs]; [done|]. destruct a; try done. destruct gs as [|f [|g [|h [|]]]]; [done| | | |];
    (destruct f as [|f|f]; [done| |done]); do 15 (destruct f as [f|f|]; [|done|done]); destruct f; try done.
Qed.

Lemma no_gap_prefix g gs rest : group_ok g → has_prefix (print_groups (g :: gs) ++ rest) (b "::") = false.
Proof.
  intros Hg. destruct (print_groups_head g gs Hg) as (c&t&->&Hc). change (b "::") with [":"%char; ":"%char].
  cbn [app has_prefix]. destruct (":"%char ≡c c) eqn:E; [|done]. by apply char_eqb_eq in E as <-.
Qed.

Lemma print_ipv6_parse gs : length gs = 8%nat → Forall group_ok gs → parse_ipv6 (print_ipv6 gs) = Some (V6 gs).
Proof.
  intros Hl Hok. unfold print_ipv6.
  pose proof (longest_zero_run_ok gs gs 0 None eq_refl ltac:(done) I) as Hrun.
  destruct (longest_zero_run gs 0 None) as [[start l]|].
  - destruct Hrun as (H2&Hsl&Hz). set (gs1 := take start gs). set (gs2 := drop (start + l) gs).
    assert (Hok1 : Forall group_ok gs1) by (by apply Forall_take).
    assert (Hok2 : Forall group_ok gs2) by (by apply Forall_drop).
    assert (Hl1 : length gs1 = start) by (unfold gs1; rewrite length_take; lia).
    assert (Hl2 : length gs2 = (8 - start - l)%nat) by (unfold gs2; rewrite length_drop; lia).
    assert (Hall : gs = gs1 ++ replicate l 0 ++ gs2).
    { rewrite <- Hz. unfold gs1, gs2. rewrite <- drop_drop, take_drop, take_drop. done. }
    change (join_colon (map print_group gs1)) with (print_groups gs1). change (join_colon (map print_group gs2)) with (print_groups gs2).
    assert (Hfinal : (if (length (gs1 ++ gs2) <? 8)%nat
                      then Some (V6 (take start (gs1 ++ gs2) ++ replicate (8 - length (gs1 ++ gs2)) 0 ++ drop start (gs1 ++ gs2)))
                      else None) = Some (V6 gs)).
    { rewrite length_app, Hl1, Hl2, (proj2 (Nat.ltb_lt _ _)) by lia.
      assert (take start (gs1 ++ gs2) = gs1) as -> by (rewrite take_app_le by lia; apply take_ge; lia).
      assert (drop start (gs1 ++ gs2) = gs2) as -> by (rewrite drop_app_ge by lia; by rewrite Hl1, Nat.sub_diag).
      do 2 f_equal. rewrite Hall at 1. do 3 f_equal. lia. }
    clearbody gs1 gs2.
    unfold parse_ipv6. destruct gs1 as [|g gs1'] eqn:Eg1.
    + cbn [app print_groups map join_colon]. change (has_prefix (b "::" ++ print_groups gs2) (b "::")) with (has_prefix (print_groups gs2) []).
      rewrite has_prefix_nil. change (drop 2 (b "::" ++ print_groups gs2)) with (print_groups gs2). simpl in Hl1. subst start.
      destruct gs2 as [|h gs2'] eqn:Eg2; [simpl in Hfinal |- *; exact Hfinal|].
      inversion Hok2 as [|? ? Hh _]; subst. destruct (print_groups_head h gs2' Hh) as (c&t&Hc&_). rewrite Hc, <- Hc.
      rewrite fields_groups; [|done|done|simpl in *; lia|simpl in *; lia]. cbn [app]. simpl app in Hfinal.
      destruct (_ <? 8)%nat; [exact Hfinal|done].
    + inversion Hok1 as [|? ? Hg _]; subst. rewrite no_gap_prefix by done.
      rewrite fields_groups_gap; [|done|done|done|simpl in *; lia|simpl in *; lia]. cbn [app]. simpl app in Hfinal.
      destruct (_ <? 8)%nat; [exact Hfinal|done].
  - destruct gs as [|g gs]; [done|]. inversion Hok as [|? ? Hg _]; subst.
    change (join_colon (map print_group (g :: gs))) with (print_groups (g :: gs)). unfold parse_ipv6.
    rewrite <- (app_nil_r (print_groups (g :: gs))), no_gap_prefix, app_nil_r by done.
    rewrite fields_groups; [|done|done|simpl in *; lia|simpl in *; lia]. cbn [app]. by rewrite Hl.
Qed.

Lemma split_on_free s c : free_of c s → split_on s c = [s].
Proof.
  induction s as [|d s IH]; intros Hf; [done|]. simpl. rewrite IH by (intros e He; apply Hf; by right).
  by rewrite (Hf d) by (by left).
Qed.
Lemma split_on_at x y c : free_of c x → split_on (x ++ c :: y) c = x :: split_on y c.
Proof.
  induction x as [|d x IH]; intros Hf; simpl.
  - pose proof (join_split y c) as [_ Hne]. destruct (split_on y c); [done|].
    by rewrite (proj2 (char_eqb_eq c c) eq_refl).
  - rewrite IH by (intros e He; apply Hf; by right). by rewrite (Hf d) by (by left).
Qed.
Lemma octet_free v : 0 ≤ v ≤ 255 → free_of "." (print_octet v).
Proof. intros Hv. by apply digits_host, print_octet_digits. Qed.
Lemma parse_print_ipv4 a b' c d : 0 ≤ a ≤ 255 → 0 ≤ b' ≤ 255 → 0 ≤ c ≤ 255 → 0 ≤ d ≤ 255 →
  parse_ipv4 (print_ipv4 a b' c d) = Some (V4 a b' c d).
Proof.
  intros Ha Hb Hc Hd. unfold parse_ipv4, print_ipv4. change (b ".") with ["."%char]. cbn [app].
  rewrite !split_on_at, split_on_free by (by apply octet_free). by rewrite !parse_octet_of_print by done.
Qed.

Lemma hex_field_digits s rest acc off : forallb is_digit s = true → field_end rest →
  ∃ a, hex_field (s ++ rest) acc off = (a, (off + length s)%nat, rest).
Proof.
  intros Hs Hr. revert acc off Hs. induction s as [|c s IH]; intros acc off Hs; simpl.
  - exists acc. rewrite Nat.add_0_r. destruct rest as [|c rest]; [done|]. simpl in Hr |- *. by rewrite Hr.
  - simpl in Hs. apply andb_true_iff in Hs as [Hc Hs]. unfold hex_value. rewrite Hc.
    destruct (IH (acc * 16 + (byte c - byte "0")) (S off) Hs) as [a ->]. exists a. f_equal. f_equal. lia.
Qed.

Lemma parse_4in6 h l : group_ok h → group_ok l →
  parse_ipv6 (AddrString (V6 [0; 0; 0; 0; 0; 65535; h; l])) = Some (V6 [0; 0; 0; 0; 0; 65535; h; l]).
Proof.
  unfold group_ok. intros Hh Hl. set (v4 := print_ipv4 (h / 256) (h mod 256) (l / 256) (l mod 256)).
  change (AddrString _) with (b "::" ++ print_group 65535 ++ ":"%char :: v4). unfold parse_ipv6.
  change (has_prefix (b "::" ++ ?t) (b "::")) with (has_prefix t []). rewrite has_prefix_nil.
  change (drop 2 (b "::" ++ ?t)) with t.
  assert (Hdigits : ∃ c t, v4 = c :: t ∧ is_digit c = true).
  { unfold v4, print_ipv4. destruct (print_octet_digits (h / 256)) as (Hd&Hn&_); [div_lia|].
    destruct (print_octet (h / 256)) as [|c t]; [done|]. simpl in Hd. apply andb_true_iff in Hd as [Hd _]. by eexists c, _. }
  destruct Hdigits as (c&t&Hc&Hcd). assert (Hcolon : (c ≡c ":") = false) by (revert Hcd; clear; revert c; each_byte).
  assert (Hbody : ipv6_fields 9 (print_group 65535 ++ ":"%char :: v4) [] (Some 0%nat) = Some ([65535; h; l], Some 0%nat, [])).
  { rewrite fields_colon; [|unfold group_ok; lia|simpl; lia|by rewrite Hc]. cbn [ipv6_fields app length].
    change (8 <=? Z.of_nat 1) with false. cbv iota.
    assert (Hfield : ∃ a, hex_field v4 0 0 = (a, length (print_octet (h / 256)), "."%char :: (print_octet (h mod 256) ++ b "." ++ print_octet (l / 256) ++ b "." ++ print_octet (l mod 256)))).
    { unfold v4, print_ipv4. change (b "." ++ ?t) with ("."%char :: t).
      destruct (hex_field_digits (print_octet (h / 256)) ("."%char :: print_octet (h mod 256) ++ "."%char :: print_octet (l / 256) ++ "."%char :: print_octet (l mod 256)) 0 0) as [a Ha];
        [apply print_octet_digits; div_lia|done|]. by exists a. }
    destruct Hfield as [a ->]. destruct (print_octet_digits (h / 256)) as (_&Hn&Hlen); [div_lia|].
    assert ((length (print_octet (h / 256)) =? 0)%nat || (4 <? length (print_octet (h / 256)))%nat = false) as ->.
    { destruct (print_octet (h / 256)); [done|]. destruct (Nat.ltb_spec 4 (length (a0 :: l0))); [lia|done]. }
    change ("."%char ≡c ".") with true. cbv iota. cbn [orb]. change (6 <? 1)%nat with false. cbv iota.
    unfold v4. rewrite parse_print_ipv4 by div_lia. cbn [app].
    replace (h / 256 * 256 + h mod 256) with h by div_lia. by replace (l / 256 * 256 + l mod 256) with l by div_lia. }
  rewrite Hc in Hbody |- *.
  destruct (print_group 65535 ++ ":"%char :: c :: t) as [|c2 t2] eqn:E; [by destruct (print_group 65535)|]. by rewrite Hbody.
Qed.


(** ** Printed addresses parse back *)

Lemma AddrString_parse gs : length gs = 8%nat → Forall group_ok gs → parse_ipv6 (AddrString (V6 gs)) = Some (V6 gs).
Proof.
  intros Hl Hok. destruct (is_4in6 gs) eqn:E; [|rewrite AddrString_v6 by done; by apply print_ipv6_parse].
  destruct gs as [|a [|b0 [|c [|d [|e [|f [|g [|h [|]]]]]]]]]; try done. simpl in E. bool_facts. subst.
  do 6 (apply Forall_cons_1 in Hok as [_ Hok]). apply Forall_cons_1 in Hok as [Hg Hok]. apply Forall_cons_1 in Hok as [Hh _].
  by apply parse_4in6.
Qed.

(** Printed IPv6 addresses consist of host bytes and begin with a field and a colon. *)
Definition v6_shape (s : bytes) : Prop := all_in host_char s ∧ free_of "]" s ∧ ∃ x y, s = x ++ ":"%char :: y ∧ all_in hex_text x.
Lemma hex_text_facts c : hex_text c = true → host_char c = true ∧ (c ≡c "]") = false ∧
  ((c ≡c ".") || (c ≡c ":") || (c ≡c "%")) = false.
Proof. revert c. each_byte. Qed.

Lemma print_group_text g : group_ok g → all_in hex_text (print_group g).
Proof.
  intros Hg. rewrite print_group_nibbles by done. destruct (nibbles_ok g Hg) as (Hz&_&_). rewrite Forall_forall in Hz.
  intros c (z&<-&Hin)%in_map_iff. apply lower_hex_value, Hz. done.
Qed.
Lemma all_in_weaken p q s : (∀ c, p c = true → q c = true) → all_in p s → all_in q s.
Proof. intros Hpq Hs c Hc. auto. Qed.
Lemma hex_text_host s : all_in hex_text s → all_in host_char s ∧ free_of "]" s.
Proof. intros Hs. split; intros c Hc; by apply hex_text_facts, Hs. Qed.
Lemma free_of_cons c d s : (d ≡c c) = false → free_of c s → free_of c (d :: s).
Proof. intros Hd Hs e [<-|He]; auto. Qed.

Lemma print_groups_text gs : Forall group_ok gs → all_in host_char (print_groups gs) ∧ free_of "]" (print_groups gs).
Proof.
  induction gs as [|g [|g2 gs] IH]; intros Hok; [by split; intros ? []|..]; apply Forall_cons_1 in Hok as [Hg Hok].
  - apply hex_text_host. by apply print_group_text.
  - destruct (hex_text_host _ (print_group_text g Hg)) as [H1 H2]. destruct (IH Hok) as [H3 H4].
    rewrite print_groups_cons. split; [by apply all_in_app; [|apply all_in_cons]|by apply free_of_app; [|apply free_of_cons]].
Qed.
Lemma print_groups_shape g gs rest : group_ok g → gs ≠ [] ∨ (∃ t, rest = ":"%char :: t) →
  ∃ x y, print_groups (g :: gs) ++ rest = x ++ ":"%char :: y ∧ all_in hex_text x.
Proof.
  intros Hg Hor. exists (print_group g). destruct gs as [|g2 gs].
  - destruct Hor as [|[t ->]]; [done|]. exists t. split; [done|by apply print_group_text].
  - exists (print_groups (g2 :: gs) ++ rest). rewrite print_groups_cons, <- app_assoc. split; [done|by apply print_group_text].
Qed.

Lemma print_ipv6_shape gs : length gs = 8%nat → Forall group_ok gs → v6_shape (print_ipv6 gs).
Proof.
  intros Hl Hok. unfold print_ipv6, v6_shape. destruct (longest_zero_run gs 0 None) as [[start l]|].
  - change (join_colon (map print_group ?t)) with (print_groups t).
    destruct (print_groups_text (take start gs)) as [H1 H2]; [by apply Forall_take|].
    destruct (print_groups_text (drop (start + l) gs)) as [H3 H4]; [by apply Forall_drop|].
    split; [|split].
    + apply all_in_app; [done|]. apply all_in_app; [apply all_in_forallb; reflexivity|done].
    + apply free_of_app; [done|]. change (b "::") with [":"%char; ":"%char]. apply free_of_cons; [done|by apply free_of_cons].
    + destruct (take start gs) as [|g gs'] eqn:E; [by eexists [], _|].
      apply print_groups_shape; [|right; by eexists]. assert (Hg : Forall group_ok (take start gs)) by (by apply Forall_take).
      rewrite E in Hg. by apply Forall_cons_1 in Hg as [? _].
  - change (join_colon (map print_group ?t)) with (print_groups t). destruct (print_groups_text gs Hok) as [H1 H2].
    split; [done|split; [done|]]. destruct gs as [|g [|g2 gs]]; [done|done|]. rewrite <- (app_nil_r (print_groups _)).
    apply print_groups_shape; [by apply Forall_cons_1 in Hok as [? _]|by left].
Qed.

Lemma print_ipv4_text a b' c d : 0 ≤ a ≤ 255 → 0 ≤ b' ≤ 255 → 0 ≤ c ≤ 255 → 0 ≤ d ≤ 255 →
  all_in host_char (print_ipv4 a b' c d) ∧ free_of ":" (print_ipv4 a b' c d) ∧ free_of "]" (print_ipv4 a b' c d).
Proof.
  intros Ha Hb Hc Hd. unfold print_ipv4. change (b ".") with ["."%char].
  destruct (digits_host _ (proj1 (print_octet_digits a Ha))) as (?&?&?&_), (digits_host _ (proj1 (print_octet_digits b' Hb))) as (?&?&?&_),
    (digits_host _ (proj1 (print_octet_digits c Hc))) as (?&?&?&_), (digits_host _ (proj1 (print_octet_digits d Hd))) as (?&?&?&_).
  split_and!; repeat (apply all_in_app || apply free_of_app || apply all_in_cons || apply free_of_cons); done || apply all_in_nil || by intros ? [].
Qed.

Lemma AddrString_shape gs : length gs = 8%nat → Forall group_ok gs → v6_shape (AddrString (V6 gs)).
Proof.
  intros Hl Hok. destruct (is_4in6 gs) eqn:E; [|rewrite AddrString_v6 by done; by apply print_ipv6_shape].
  destruct gs as [|a [|b0 [|c [|d [|e [|f [|g [|h [|]]]]]]]]]; try done. simpl in E. bool_facts. subst.
  do 6 (apply Forall_cons_1 in Hok as [_ Hok]). apply Forall_cons_1 in Hok as [Hg Hok]. apply Forall_cons_1 in Hok as [Hh _].
  unfold group_ok in *. change (AddrString _) with (b "::ffff:" ++ print_ipv4 (g / 256) (g mod 256) (h / 256) (h mod 256)).
  destruct (print_ipv4_text (g / 256) (g mod 256) (h / 256) (h mod 256)) as (H1&_&H2); [div_lia..|].
  split; [|split; [|by eexists [], _]].
  - apply all_in_app; [apply all_in_forallb; reflexivity|done].
  - apply free_of_app; [|done]. change (free_of "]" [":"%char; ":"%char; "f"%char; "f"%char; "f"%char; "f"%char; ":"%char]).
    repeat apply free_of_cons; try done. by intros ? [].
Qed.

Lemma ParseAddr_v6 s : v6_shape s → ParseAddr s = parse_ipv6 s.
Proof.
  intros (_&_&x&y&->&Hx). unfold ParseAddr.
  assert (Hfind : List.find (λ c, (c ≡c ".") || (c ≡c ":") || (c ≡c "%")) (x ++ ":"%char :: y) = Some ":"%char).
  { induction x as [|c x IH]; [done|]. apply all_in_inv in Hx as [Hc Hx]. simpl.
    destruct (hex_text_facts c Hc) as (_&_&->). by apply IH. }
  by rewrite Hfind.
Qed.

(** ** Parsed addresses are in range *)

Lemma hex_value_range c v : hex_value c = Some v → 0 ≤ v < 16.
Proof. revert c v. intros [[] [] [] [] [] [] [] []] v; vm_compute; intros [= <-]; split; congruence. Qed.
Lemma hex_field_range s : ∀ acc off a n rest, hex_field s acc off = (a, n, rest) → 0 ≤ acc < 16 ^ Z.of_nat off →
  0 ≤ a < 16 ^ Z.of_nat n.
Proof.
  induction s as [|c s IH]; intros acc off a n rest Hf Hacc; simpl in Hf; [by injection Hf as <- <- _|].
  destruct (hex_value c) as [v|] eqn:Hv; [|by injection Hf as <- <- _]. apply hex_value_range in Hv.
  eapply IH; [done|]. rewrite Nat2Z.inj_succ, Z.pow_succ_r by lia. lia.
Qed.
Lemma parse_ipv4_v4 s x : parse_ipv4 s = Some x → ∃ a b' c d, x = V4 a b' c d ∧
  0 ≤ a ≤ 255 ∧ 0 ≤ b' ≤ 255 ∧ 0 ≤ c ≤ 255 ∧ 0 ≤ d ≤ 255.
Proof. intros (a&b'&c&d&?&_&?&?&?&?)%parse_ipv4_print. by exists a, b', c, d. Qed.

Lemma groups_snoc gs g : Forall group_ok gs → group_ok g → Forall group_ok (gs ++ [g]).
Proof. intros Hgs Hg. apply Forall_app. split; [done|]. by constructor. Qed.

Lemma ipv6_fields_range fuel : ∀ s gs ell gs' ell' rest, ipv6_fields fuel s gs ell = Some (gs', ell', rest) →
  Forall group_ok gs → (length gs <= 8)%nat → Forall group_ok gs' ∧ (length gs' <= 8)%nat.
Proof.
  induction fuel as [|fuel IH]; intros s gs ell gs' ell' rest Hf Hok Hl; [done|]. cbn [ipv6_fields] in Hf.
  destruct (Z.leb_spec 8 (Z.of_nat (length gs))) as [|Hlt]; [by injection Hf as <- _ _|].
  destruct (hex_field s 0 0) as [[a n] r] eqn:Hfield. apply hex_field_range in Hfield; [|simpl; lia].
  destruct (_ || _) eqn:Hn; [done|]. apply orb_false_iff in Hn as [_ Hn]. apply Nat.ltb_ge in Hn.
  assert (Ha : group_ok a).
  { unfold group_ok. destruct n as [|[|[|[|[|n]]]]]; [..|lia]; cbn in Hfield; lia. }
  assert (Hl' : (length (gs ++ [a]) <= 8)%nat) by (rewrite length_app; simpl; lia).
  pose proof (groups_snoc gs a Hok Ha) as Hok'.
  destruct r as [|c r]; [injection Hf as <- _ _; done|]. destruct (c ≡c ".").
  - destruct (_ || _) eqn:H6; [done|]. apply orb_false_iff in H6 as [_ H6]. apply Nat.ltb_ge in H6.
    destruct (parse_ipv4 s) as [x|] eqn:H4; [|done]. apply parse_ipv4_v4 in H4 as (p&q&u&w&->&?&?&?&?).
    injection Hf as <- _ _. rewrite length_app. simpl. split; [|lia]. apply Forall_app. split; [done|].
    unfold group_ok. repeat constructor; lia.
  - destruct (negb _); [done|]. destruct r as [|d r]; [done|]. destruct (d ≡c ":"); [|by eapply IH].
    destruct ell; [done|]. destruct r; [by injection Hf as <- _ _|by eapply IH].
Qed.

Lemma parse_ipv6_range s gs : parse_ipv6 s = Some (V6 gs) → length gs = 8%nat ∧ Forall group_ok gs.
Proof.
  unfold parse_ipv6. destruct (if has_prefix s (b "::") then _ else _) as [ell body].
  intros Hp. match type of Hp with match ?f with _ => _ end = _ => destruct f as [[[fields ell'] rest]|] eqn:Hf; [|done] end.
  assert (Forall group_ok fields ∧ (length fields <= 8)%nat) as [Hok Hl].
  { destruct ell; [destruct body; [injection Hf as <- _ _; split; [constructor|simpl; lia]|]|];
      (eapply ipv6_fields_range; [exact Hf|constructor|simpl; lia]). }
  destruct rest; [|done]. destruct (Nat.ltb_spec (length fields) 8).
  - destruct ell' as [at_|]; [|done]. injection Hp as <-. split.
    + rewrite !length_app, length_take, length_replicate, length_drop. lia.
    + rewrite !Forall_app. split_and!; [by apply Forall_take| |by apply Forall_drop].
      apply Forall_replicate. unfold group_ok. lia.
  - destruct ell'; [done|]. injection Hp as <-. split; [lia|done].
Qed.

Lemma parse_ipv6_v6 s x : parse_ipv6 s = Some x → ∃ gs, x = V6 gs.
Proof.
  unfold parse_ipv6. destruct (if has_prefix s (b "::") then _ else _) as [ell body]. intros Hp.
  repeat match type of Hp with context [match ?f with _ => _ end] => destruct f; try done end; injection Hp as <-; eauto.
Qed.
Lemma ParseAddr_inv s x : ParseAddr s = Some x →
  match x with
  | V4 p q r t => parse_ipv4 s = Some x ∧ print_ipv4 p q r t = s ∧ 0 ≤ p ≤ 255 ∧ 0 ≤ q ≤ 255 ∧ 0 ≤ r ≤ 255 ∧ 0 ≤ t ≤ 255
  | V6 gs => parse_ipv6 s = Some x ∧ length gs = 8%nat ∧ Forall group_ok gs
  end.
Proof.
  unfold ParseAddr. destruct (List.find _ s) as [c|]; [|done]. destruct (c ≡c ".").
  - intros Hp. pose proof (parse_ipv4_print s x Hp) as (p&q&r&t&->&?&?&?&?&?). done.
  - destruct (c ≡c ":"); [|done]. intros Hp. destruct (parse_ipv6_v6 s x Hp) as [gs ->].
    split; [done|]. by apply (parse_ipv6_range s).
Qed.
