(* ===== verification/Canonical.v ===== *)
(** * Canonical: normalized relay URLs are fixed points

    What [NormalizeRelayActorURL] and [NormalizeRelayIdentity] return is accepted
    again unchanged: host, port and path are printed in the one form the parser
    reads back, IPv6 addresses included.  The repository compares retained
    identities with their own normalization, so this is what makes them usable. *)
From S2P Require Import Prelude GoNet Identity AddrText.
From Stdlib Require Import Ascii.
Local Open Scope Z_scope.
Local Open Scope go_scope.
Local Open Scope list_scope.
#[local] Hint Resolve all_in_app all_in_cons all_in_nil : core.

(** ** Paths *)

Lemma percent_encode_path c : all_in path_char (percent_encode c).
Proof. apply all_in_forallb. revert c. each_byte. Qed.
Lemma unreserved_path c : unreserved c = true → path_char c = true.
Proof. revert c. each_byte. Qed.
Lemma unescaped_path c : should_escape c encodePath = false → path_char c = true.
Proof. unfold path_char. intros ->. by rewrite orb_true_r. Qed.

Lemma escape_path_chars s : all_in path_char (escape_path s).
Proof.
  induction s as [|c s IH]; [done|]. unfold escape_path in *. simpl. apply all_in_app; [|done].
  destruct (should_escape c encodePath) eqn:Hc; [apply percent_encode_path|].
  apply all_in_cons; [by apply unescaped_path|done].
Qed.
Lemma EscapedPath_chars u : all_in path_char (EscapedPath u).
Proof.
  unfold EscapedPath. destruct (_ && _ && _) eqn:E.
  - apply andb_true_iff in E as [[_ E]%andb_true_iff _]. by apply all_in_forallb.
  - destruct (bytes_eqb (Path u) (b "*")); [apply all_in_forallb; reflexivity|apply escape_path_chars].
Qed.
Lemma normalize_escapes_chars p q : all_in path_char p → normalize_escapes p = Some q → all_in path_char q.
Proof.
  revert q. induction p as [[|c p] IH] using (induction_ltof1 _ (@length ascii));
    unfold ltof in IH; intros q Hp Hq; [by injection Hq as <-|].
  apply all_in_inv in Hp as [Hc Hp]. simpl in Hq. destruct (c ≡c "%") eqn:Hpc; cbn [negb] in Hq.
  - destruct p as [|h [|l p]]; try done. apply all_in_inv in Hp as [_ Hp]. apply all_in_inv in Hp as [_ Hp].
    destruct (hex_value h) as [hi|]; simpl in Hq; [|done]. destruct (hex_value l) as [lo|]; simpl in Hq; [|done].
    match type of Hq with (if ?x then _ else _) = _ => destruct x; [done|] end.
    destruct (normalize_escapes p) as [out|] eqn:Hout; simpl in Hq; [|done]. injection Hq as <-.
    apply all_in_app; [|apply (IH p); [simpl; lia|done|done]].
    destruct (unreserved _) eqn:Hu; [apply all_in_cons; [by apply unreserved_path|done]|apply percent_encode_path].
  - match type of Hq with (if ?x then _ else _) = _ => destruct x; [done|] end.
    destruct (normalize_escapes p) as [out|] eqn:Hout; simpl in Hq; [|done]. injection Hq as <-.
    apply all_in_cons; [done|]. apply (IH p); [simpl; lia|done|done].
Qed.

(** A canonical path: what [normalizeActorPath] makes of an escaped path. *)
Definition canonical_path (path : bytes) : Prop :=
  normalizeActorPath path = Some path ∧ all_in path_char path ∧ (∃ p, path = "/"%char :: p) ∧
  ∃ d, unescape path encodePath = Some d.

Lemma normalizeActorPath_makes p path : all_in path_char p → normalizeActorPath p = Some path → canonical_path path.
Proof.
  intros Hp Hn. pose proof (normalizeActorPath_inv p path Hn) as [->|(Hnorm&q&Hq&Hdbl&Hdot&d&Hd&Hv)].
  { split_and!; [done|apply all_in_forallb; reflexivity|by eexists|by eexists]. }
  split_and!; [by eapply normalizeActorPath_refixed| |by eexists|by eexists].
  unfold normalizeActorPath in Hn. destruct p as [|c p]; [injection Hn as <-; apply all_in_forallb; reflexivity|].
  destruct (negb (c ≡c "/")); [done|].
  destruct (normalize_escapes (c :: p)) as [q2|] eqn:Hq2; cbn [mbind option_bind] in Hn; [|done].
  destruct (unescape q2 encodePath); cbn [mbind option_bind] in Hn; [|done].
  repeat match type of Hn with (if ?x then _ else _) = _ => destruct x; [done|] end. injection Hn as <-.
  by apply (normalize_escapes_chars (c :: p)).
Qed.

(** ** Hosts *)

Lemma has_suffix_app x y c : y ≠ [] → has_suffix (x ++ y) [c] = has_suffix y [c].
Proof.
  intros Hy. unfold has_suffix. rewrite rev_app_distr. destruct (rev y) as [|d r] eqn:E; [|simpl; by rewrite !has_prefix_nil].
  destruct y; [done|]. apply (f_equal (@rev _)) in E. by rewrite rev_involutive in E.
Qed.
Lemma has_suffix_one d c : has_suffix [d] [c] = (c ≡c d).
Proof. unfold has_suffix. simpl. destruct (c ≡c d); done. Qed.
Lemma cut_last_before_end x c e : (e ≡c c) = false →
  cut_last (x ++ [e]) c = None ∨ ∃ y z, cut_last (x ++ [e]) c = Some (y, z ++ [e]).
Proof.
  intros He. unfold cut_last. rewrite rev_app_distr. simpl. rewrite He. destruct (cut (rev x) c) as [[p q] found].
  destruct found; [right|by left]. exists (rev q), (rev p). simpl. done.
Qed.
Lemma label_char c : is_lower c || is_digit c || (c ≡c "-") = true →
  host_char c = true ∧ (c ≡c ":") = false ∧ (c ≡c "]") = false ∧ (c ≡c "[") = false.
Proof. revert c. each_byte. Qed.

(** A host between brackets, or one without colons and brackets; in both cases
    what [normalizeHost] makes of the bare host is the host itself. *)
Inductive canonical_host : bytes → bytes → Prop :=
| canonical_bare h : all_in host_char h → free_of ":" h → free_of "[" h → canonical_host h h
| canonical_ipv6 h : all_in host_char h → free_of "]" h → ParseAddr h ≠ None → (∀ p q r t, ParseAddr h ≠ Some (V4 p q r t)) →
    canonical_host h (b "[" ++ h ++ b "]").

Lemma domain_bytes labels : forallb validDNSLabel labels = true →
  all_in host_char (join_with "." labels) ∧ free_of ":" (join_with "." labels) ∧ free_of "[" (join_with "." labels).
Proof.
  assert (Hlabel : ∀ l, validDNSLabel l = true → all_in host_char l ∧ free_of ":" l ∧ free_of "[" l).
  { intros [|c l] Hl; [done|]. unfold validDNSLabel in Hl. apply andb_true_iff in Hl as [_ Hl].
    rewrite forallb_forall in Hl. split_and!; intros d Hd; by apply label_char, Hl. }
  induction labels as [|l [|l2 labels] IH]; intros Hall; cbn [forallb join_with] in *.
  - split_and!; by intros ? [].
  - apply andb_true_iff in Hall as [Hl _]. by apply Hlabel.
  - apply andb_true_iff in Hall as [Hl Hall]. destruct (Hlabel l Hl) as (?&?&?), (IH Hall) as (?&?&?).
    split_and!; [by apply all_in_app; [|apply all_in_cons]|by apply free_of_app; [|apply free_of_cons]..].
Qed.
Lemma print_ipv4_bare p q r t : 0 ≤ p ≤ 255 → 0 ≤ q ≤ 255 → 0 ≤ r ≤ 255 → 0 ≤ t ≤ 255 → free_of "[" (print_ipv4 p q r t).
Proof.
  intros Hp Hq Hr Ht. assert (Hoct : ∀ v, 0 ≤ v ≤ 255 → free_of "[" (print_octet v)).
  { intros v Hv c Hc. destruct (print_octet_digits v Hv) as [Hd _]. rewrite forallb_forall in Hd. specialize (Hd c Hc). 
    revert Hd. clear. revert c. each_byte. }
  unfold print_ipv4. change (b ".") with ["."%char]. do 3 (apply free_of_app; [by auto|apply free_of_cons; [done|]]). auto.
Qed.

Lemma print_group_last g : group_ok g → ∃ x e, print_group g = x ++ [e] ∧ (e ≡c ".") = false.
Proof.
  intros Hg. unfold print_group. rewrite !app_assoc. eexists _, _. split; [done|].
  change 15 with (Z.ones 4). rewrite Z.land_ones by lia. change (2 ^ 4) with 16.
  destruct (lower_hex_value (g mod 16)) as [_ Ht]; [div_lia|]. revert Ht. generalize (lower_hex (g mod 16)). each_byte.
Qed.
Lemma print_groups_last gs : gs ≠ [] → Forall group_ok gs → ∃ x e, print_groups gs = x ++ [e] ∧ (e ≡c ".") = false.
Proof.
  induction gs as [|g [|g2 gs] IH]; intros Hne Hok; [done|..]; apply Forall_cons_1 in Hok as [Hg Hok].
  - by apply print_group_last.
  - destruct (IH ltac:(done) Hok) as (x&e&Hx&He). rewrite print_groups_cons, Hx. exists (print_group g ++ ":"%char :: x), e.
    split; [|done]. by rewrite <- app_assoc.
Qed.
Lemma AddrString_last gs : length gs = 8%nat → Forall group_ok gs → has_suffix (AddrString (V6 gs)) (b ".") = false.
Proof.
  intros Hl Hok. change (b ".") with ["."%char].
  assert (Hend : ∀ x e, (e ≡c ".") = false → has_suffix (x ++ [e]) ["."%char] = false).
  { intros x e He. rewrite has_suffix_app, has_suffix_one by done. apply not_true_iff_false. intros Hc%char_eqb_eq. by subst e. }
  destruct (is_4in6 gs) eqn:E.
  - destruct gs as [|a [|b0 [|c [|d [|e [|f [|g [|h [|]]]]]]]]]; try done. simpl in E. bool_facts. subst.
    do 6 (apply Forall_cons_1 in Hok as [_ Hok]). apply Forall_cons_1 in Hok as [Hg Hok]. apply Forall_cons_1 in Hok as [Hh _].
    unfold group_ok in *. change (AddrString _) with (b "::ffff:" ++ print_ipv4 (g / 256) (g mod 256) (h / 256) (h mod 256)).
    unfold print_ipv4. rewrite !app_assoc.
    destruct (print_octet_digits (h mod 256)) as (Hd&Hn&_); [div_lia|]. rewrite has_suffix_app by done.
    apply has_suffix_free. by apply digits_host.
  - rewrite AddrString_v6 by done. unfold print_ipv6. destruct (longest_zero_run gs 0 None) as [[start l]|].
    + change (join_colon (map print_group ?t)) with (print_groups t).
      destruct (drop (start + l) gs) as [|g gs2] eqn:Ed.
      * cbn [print_groups map join_colon]. rewrite app_nil_r, has_suffix_app by done. done.
      * destruct (print_groups_last (g :: gs2)) as (x&e&->&He); [done|rewrite <- Ed; by apply Forall_drop|].
        rewrite !app_assoc. by apply Hend.
    + destruct (print_groups_last gs) as (x&e&Hx&He); [by destruct gs|done|]. unfold print_groups in Hx. rewrite Hx. by apply Hend.
Qed.

Lemma normalizeHost_canonical host h : normalizeHost host = Some h → has_suffix host (b ".") = false →
  ∃ bare, canonical_host bare h ∧ normalizeHost bare = Some h ∧ bare ≠ [] ∧ has_suffix bare (b ".") = false.
Proof.
  intros Hn Hdot. pose proof Hn as Hn0. unfold normalizeHost in Hn. destruct (ParseAddr host) as [[p q r t|gs]|] eqn:Hp.
  - injection Hn as <-. apply ParseAddr_inv in Hp as (_&Heq&?&?&?&?). simpl in *. rewrite Heq in Hn0. exists host.
    destruct (print_ipv4_text p q r t) as (P1&P2&_); [done..|]. pose proof (print_ipv4_bare p q r t) as P3.
    rewrite Heq in *. split_and!; auto; [by constructor; auto|]. intros ->. done.
  - injection Hn as <-. apply ParseAddr_inv in Hp as (_&Hl&Hok). exists (AddrString (V6 gs)).
    pose proof (AddrString_shape gs Hl Hok) as Hshape.
    assert (Hagain : ParseAddr (AddrString (V6 gs)) = Some (V6 gs)) by (rewrite ParseAddr_v6 by done; by apply AddrString_parse).
    pose proof Hshape as (H1&H2&x&y&Hxy&_).
    split_and!; [constructor; try done; [by rewrite Hagain|intros ????; by rewrite Hagain]| |by rewrite Hxy; destruct x|by apply AddrString_last].
    unfold normalizeHost. by rewrite Hagain.
  - repeat match type of Hn with (if ?x then None else _) = _ => destruct x eqn:?; [done|] end.
    injection Hn as <-. exists host. destruct (join_split host ".") as [Hj _]. bool_facts.
    destruct (domain_bytes (split_on host ".")) as (D1&D2&D3); [done|].
    rewrite Hj in *. split_and!; [by constructor|done| |done]. intros ->. done.
Qed.

(** ** Authorities *)

(** The port part of a canonical authority: absent, or a decimal port other than
    the default one. *)
Definition port_part (n : option Z) : bytes :=
  match n with Some p => ":"%char :: format_uint 5 p [] | None => [] end.
Definition port_ok (n : option Z) : Prop := match n with Some p => 0 < p < 65536 ∧ p ≠ 443 | None => True end.
Definition port_digits (n : option Z) : bytes := match n with Some p => format_uint 5 p [] | None => [] end.

Lemma port_digits_ok n : port_ok n → forallb is_digit (port_digits n) = true.
Proof. destruct n as [p|]; [|done]. intros [Hp _]. apply format_uint_digits; [lia|done]. Qed.
Lemma parse_port_digits p : 0 < p < 65536 → parse_port (format_uint 5 p []) = Some p.
Proof.
  intros Hp. unfold parse_port. pose proof (format_uint_read 5 p []) as Hr. unfold read_digits in Hr.
  rewrite Hr by (change (10 ^ Z.of_nat 5) with 100000; lia). simpl. by rewrite (proj2 (Z.ltb_lt _ _)) by lia.
Qed.
Lemma port_part_host n : port_ok n → all_in host_char (port_part n) ∧ free_of "]" (port_part n).
Proof.
  intros Hn. pose proof (port_digits_ok n Hn) as Hd. destruct n as [p|]; [|by split; intros ? []]. simpl in *.
  destruct (digits_host _ Hd) as (?&_&?&_). split; [by apply all_in_cons|by apply free_of_cons].
Qed.

(** An authority in normal form, as it is printed. *)
Inductive canonical_authority : bytes → Prop :=
| canonical_authority_of bare h n : canonical_host bare h → port_ok n → normalizeHost bare = Some h →
    bare ≠ [] → has_suffix bare (b ".") = false → canonical_authority (h ++ port_part n).

Lemma digits_value s : forallb is_digit s = true → ∀ acc, 0 ≤ acc → 0 ≤ fold_left (λ acc d, acc * 10 + digit_value d) s acc.
Proof.
  induction s as [|c s IH]; intros Hs acc Hacc; [done|]. simpl in *. apply andb_true_iff in Hs as [Hc Hs].
  destruct (is_digit_value c Hc) as [? _]. apply IH; [done|lia].
Qed.
Lemma Port_digits parsed : forallb is_digit (Port parsed) = true.
Proof.
  unfold Port, split_host_port. destruct (cut_last (Host parsed) ":") as [[x y]|].
  - destruct (valid_optional_port (":"%char :: y)) eqn:E.
    + cbn in E. destruct x as [|c x]; [done|]. by destruct (_ && _ && _).
    + destruct (Host parsed) as [|? ?]; [done|]. by destruct (_ && _ && _).
  - destruct (Host parsed) as [|? ?]; [done|]. by destruct (_ && _ && _).
Qed.

Lemma normalizeAuthority_canonical parsed authority : normalizeAuthority parsed = Some authority → canonical_authority authority.
Proof.
  unfold normalizeAuthority. intros Hn. destruct (contains_byte _ _); [done|].
  set (host := if has_suffix (to_lower (Hostname parsed)) (b ".") then _ else _) in Hn.
  destruct (bytes_eqb host [] || has_suffix host (b ".")) eqn:He; [done|]. apply orb_false_iff in He as [_ He].
  destruct (normalizeHost host) as [h|] eqn:Hh; cbn [mbind option_bind] in Hn; [|done].
  destruct (normalizeHost_canonical host h Hh He) as (bare&Hc&Hfix&Hne&Hdot).
  destruct (has_suffix (Host parsed) (b ":")); [done|].
  assert (Hplain : canonical_authority h) by (rewrite <- (app_nil_r h); by apply (canonical_authority_of bare h None)).
  pose proof (Port_digits parsed) as Hd. destruct (Port parsed) as [|c port]; [by injection Hn as <-|].
  unfold parse_port in Hn. pose proof (digits_value _ Hd 0) as Hpos. set (v := fold_left _ _ _) in *.
  destruct (Z.ltb_spec v 65536); cbn [mbind option_bind] in Hn; [|done].
  destruct (Z.eqb_spec v 0); [done|]. destruct (Z.eqb_spec v 443) as [|H443]; cbn [negb] in Hn; injection Hn as <-; [done|].
  apply (canonical_authority_of bare h (Some v)); try done. simpl. lia.
Qed.

(** ** The parser on a canonical authority *)

Lemma canonical_host_chars bare h : canonical_host bare h → all_in host_char h ∧ all_in host_char bare ∧ h ≠ [] ∨ h = [].
Proof.
  intros [h' H1 _ _|h' H1 _ _ _].
  - destruct h' as [|c h']; [by right|]. by left.
  - left. split_and!; [|done|done]. change (b "[") with ["["%char]. change (b "]") with ["]"%char].
    apply all_in_app; [by apply all_in_forallb|]. apply all_in_app; [done|by apply all_in_forallb].
Qed.

Lemma parse_host_canonical bare h n : canonical_host bare h → port_ok n → parse_host (h ++ port_part n) = Some (h ++ port_part n).
Proof.
  intros Hh Hn. destruct (port_part_host n Hn) as [Hp1 Hp2]. destruct Hh as [h H1 H2 H3|h H1 H2 H3 H4].
  - destruct (h ++ port_part n) as [|c t] eqn:E; [done|]. cbn [parse_host]. rewrite <- E.
    assert (Hall : all_in host_char (h ++ port_part n)) by auto.
    assert (Hopen : free_of "[" (h ++ port_part n)).
    { apply free_of_app; [done|]. pose proof (port_digits_ok n Hn) as Hd. destruct n as [p|]; [|by intros ? []].
      apply free_of_cons; [done|]. rewrite forallb_forall in Hd. intros d Hd'. specialize (Hd d Hd'). revert Hd. clear. revert d. each_byte. }
    rewrite (Hopen c) by (rewrite E; by left). rewrite contains_byte_free by done. rewrite unescape_host by done.
    destruct (cut (h ++ port_part n) ":") as [[x y] found] eqn:Ec.
    assert (Hy : found = true → forallb is_digit y = true).
    { intros ->. destruct n as [p|]; cbn [port_part] in Ec.
      - rewrite cut_at in Ec by done. injection Ec as <- <-. exact (port_digits_ok (Some p) Hn).
      - rewrite app_nil_r, cut_free in Ec by done. by injection Ec. }
    destruct found; [|done]. by rewrite Hy.
  - change (b "[" ++ h ++ b "]") with ("["%char :: (h ++ ["]"%char])). cbn [app parse_host]. change ("["%char ≡c "[") with true. cbv iota.
    rewrite <- app_assoc. change ("["%char :: (h ++ ["]"%char] ++ port_part n)) with (("["%char :: h) ++ "]"%char :: port_part n).
    rewrite cut_last_at by done. assert (valid_optional_port (port_part n) = true) as ->.
    { destruct n as [p|]; [|done]. exact (port_digits_ok (Some p) Hn). }
    cbn [negb tail]. rewrite !unescape_host by done. cbn [mbind option_bind].
    destruct (ParseAddr h) as [[p q r t|gs]|]; [by destruct (H4 p q r t)|done|done].
Qed.

Lemma split_canonical bare h n : canonical_host bare h → port_ok n → bare ≠ [] →
  split_host_port (h ++ port_part n) = (bare, port_digits n).
Proof.
  intros Hh Hn Hne. pose proof (port_digits_ok n Hn) as Hd. unfold split_host_port.
  assert (Hfirst : (match cut_last (h ++ port_part n) ":" with
    | Some (before, after) => if valid_optional_port (":"%char :: after) then (before, after) else (h ++ port_part n, [])
    | None => (h ++ port_part n, []) end) = (h, port_digits n)).
  { destruct n as [p|]; cbn [port_part port_digits] in *.
    - rewrite cut_last_at by (by apply digits_host). unfold valid_optional_port. by rewrite Hd.
    - rewrite app_nil_r. destruct Hh as [h H1 H2 H3|h H1 H2 H3 H4]; [by rewrite cut_last_free|].
      rewrite app_assoc. change (b "]") with ["]"%char].
      destruct (cut_last_before_end (b "[" ++ h) ":" "]" eq_refl) as [->|(y&z&->)]; [done|].
      unfold valid_optional_port. rewrite forallb_app. cbn. by rewrite andb_false_r. }
  rewrite Hfirst. destruct Hh as [h H1 H2 H3|h H1 H2 H3 H4].
  - destruct h as [|c h]; [done|]. rewrite (H3 c) by (by left). done.
  - cbn [app b String.list_ascii_of_string]. change ("["%char ≡c "[") with true. 
    change ("["%char :: (h ++ ["]"%char])) with (("["%char :: h) ++ ["]"%char]). rewrite has_suffix_last.
    rewrite (proj2 (Z.leb_le 2 _)) by (rewrite length_app; simpl; lia). cbn [andb]. f_equal.
    rewrite length_app. simpl. rewrite Nat.add_sub. by rewrite take_app_length.
Qed.

Lemma normalizeAuthority_fixed parsed authority : canonical_authority authority → Host parsed = authority →
  normalizeAuthority parsed = Some authority.
Proof.
  intros [bare h n Hh Hn Hfix Hne Hdot] Hhost. unfold normalizeAuthority, Hostname, Port. rewrite Hhost.
  rewrite (split_canonical bare h n Hh Hn Hne). cbn [fst snd].
  assert (Hbare : all_in host_char bare) by (by destruct Hh).
  rewrite contains_byte_free by (apply all_host_free; [done|]; intros d Hd; by apply host_char_facts).
  rewrite to_lower_host by done. rewrite Hdot. rewrite Hdot. 
  assert (bytes_eqb bare [] = false) as -> by (by destruct bare). cbn [orb]. rewrite Hfix. cbn [mbind option_bind].
  assert (has_suffix (h ++ port_part n) (b ":") = false) as ->.
  { change (b ":") with [":"%char]. destruct n as [p|]; cbn [port_part].
    - rewrite has_suffix_app by done. change (":"%char :: format_uint 5 p []) with ([":"%char] ++ format_uint 5 p []).
      rewrite has_suffix_app by (apply format_uint_nonempty; lia). apply has_suffix_free. apply digits_host, (port_digits_ok (Some p)). done.
    - rewrite app_nil_r. destruct Hh as [h H1 H2 H3|h H1 H2 H3 H4]; [by apply has_suffix_free|].
      rewrite app_assoc, has_suffix_app by done. done. }
  destruct n as [p|]; cbn [port_digits port_part]; [|by rewrite app_nil_r].
  destruct Hn as [Hp H443]. destruct (format_uint 5 p []) as [|c t] eqn:E; [by apply format_uint_nonempty in E; [|lia]|].
  rewrite <- E, parse_port_digits by done. cbn [mbind option_bind]. rewrite (proj2 (Z.eqb_neq p 0)), (proj2 (Z.eqb_neq p 443)) by lia. done.
Qed.

(** ** The parser on a canonical URL *)

Lemma canonical_authority_chars authority : canonical_authority authority → all_in host_char authority ∧ authority ≠ [].
Proof.
  intros [bare h n Hh Hn Hfix Hne Hdot]. destruct (port_part_host n Hn) as [Hp _].
  assert (all_in host_char h ∧ h ≠ []) as [Ha Hb].
  { destruct Hh as [h H1 _ _|h H1 _ _ _]; [done|]. split; [|done]. change (b "[") with ["["%char]. change (b "]") with ["]"%char].
    apply all_in_app; [by apply all_in_forallb|]. apply all_in_app; [done|by apply all_in_forallb]. }
  split; [auto|]. by destruct h.
Qed.

Definition url_char (c : ascii) : bool := host_char c || path_char c.
Lemma url_char_facts c : url_char c = true → (c ≡c "#") = false ∧ (c ≡c "?") = false ∧ is_ctl c = false ∧ (c ≡c "/") || negb (c ≡c "/") = true ∧
  ascii_space c = false ∧ (byte c <? 128) = true.
Proof. revert c. each_byte. Qed.
Lemma url_free c s : all_in url_char s → (∀ d, url_char d = true → (d ≡c c) = false) → free_of c s.
Proof. intros Hs Hc d Hd. auto. Qed.

Lemma no_space_triple c d e : (byte c <? 128) = true → space_triple c d e = false.
Proof.
  unfold space_triple. rewrite Z.ltb_lt. intros Hc. rewrite !(proj2 (Z.eqb_neq (byte c) _)) by lia. done.
Qed.
Lemma no_space_pair c d : (byte c <? 128) = true → space_pair c d = false.
Proof. unfold space_pair. rewrite Z.ltb_lt. intros Hc. by rewrite (proj2 (Z.eqb_neq (byte c) _)) by lia. Qed.
Lemma plain_not_surrounded s : (∀ c, In c s → ascii_space c = false ∧ (byte c <? 128) = true) → surrounded_by_space s = false.
Proof.
  intros Hs. unfold surrounded_by_space. apply orb_false_iff. split.
  - unfold starts_with_space. destruct s as [|c [|d [|e s]]]; [done|..];
      (destruct (Hs c ltac:(by left)) as (->&Hc); try rewrite no_space_pair by done; try rewrite no_space_triple by done; done).
  - assert (Hr : ∀ c, In c (rev s) → ascii_space c = false ∧ (byte c <? 128) = true) by (intros c Hc; apply Hs; by apply in_rev).
    unfold ends_with_space. destruct (rev s) as [|e [|d [|c r]]]; [done|..];
      destruct (Hr e ltac:(by left)) as (->&He); [done|..];
      destruct (Hr d ltac:(right; by left)) as (_&Hd); rewrite no_space_pair by done; [done|].
    destruct (Hr c ltac:(right; right; by left)) as (_&Hc). by rewrite no_space_triple by done.
Qed.
Lemma url_not_surrounded s : all_in url_char s → surrounded_by_space s = false.
Proof. intros Hs. apply plain_not_surrounded. intros c Hc. by destruct (url_char_facts c (Hs c Hc)) as (_&_&_&_&?&?). Qed.

(** A canonical path, or none. *)
Definition path_ok (path : bytes) : Prop := path = [] ∨ canonical_path path.

Lemma unescape_slash p d : unescape ("/"%char :: p) encodePath = Some d → ∃ d', d = "/"%char :: d'.
Proof. simpl. destruct (unescape p encodePath); simpl; [|done]. intros [= <-]. eauto. Qed.

Lemma set_path_fixed u path : path_ok path →
  ∃ d, set_path u path = Some {| Scheme := Scheme u; Opaque := Opaque u; HasUser := HasUser u; Host := Host u; Path := d;
         RawPath := if bytes_eqb path (escape_path d) then [] else path; ForceQuery := ForceQuery u; RawQuery := RawQuery u |} ∧
  ∀ v, Path v = d → RawPath v = (if bytes_eqb path (escape_path d) then [] else path) → EscapedPath v = path.
Proof.
  intros [->|(_&Hchars&(p&Hp)&d&Hd)].
  - exists []. split; [done|]. intros v Hv1 Hv2. unfold EscapedPath. by rewrite Hv1, Hv2.
  - exists d. unfold set_path. rewrite Hd. split; [done|]. intros v Hv1 Hv2. unfold EscapedPath. rewrite Hv1, Hv2.
    destruct (bytes_eqb path (escape_path d)) eqn:E.
    + apply bytes_eqb_eq in E. cbn [bytes_eqb negb andb]. pose proof Hd as Hd2.
      rewrite Hp in Hd2. apply unescape_slash in Hd2 as [d' Hd']. by rewrite E, Hd'.
    + assert (bytes_eqb path [] = false) as -> by (by subst path). cbn [negb andb].
      assert (valid_encoded_path path = true) as -> by (apply forallb_forall; exact Hchars).
      rewrite Hd. by rewrite (proj2 (bytes_eqb_eq d d) eq_refl).
Qed.

Lemma url_chars authority path : canonical_authority authority → path_ok path → all_in url_char (b "https://" ++ authority ++ path).
Proof.
  intros Hauth Hpath. destruct (canonical_authority_chars authority Hauth) as [Hchars _].
  assert (Hpc : all_in path_char path) by (destruct Hpath as [->|(_&?&_)]; [by intros ? []|done]).
  apply all_in_app; [by apply all_in_forallb|]. apply all_in_app; intros c Hc; unfold url_char.
  - by rewrite (Hchars c Hc).
  - by rewrite (Hpc c Hc), orb_true_r.
Qed.

Lemma Parse_canonical authority path : canonical_authority authority → path_ok path →
  ∃ u, Parse (b "https://" ++ authority ++ path) = Some u ∧ Scheme u = b "https" ∧ Opaque u = [] ∧ HasUser u = false ∧
    Host u = authority ∧ EscapedPath u = path ∧ ForceQuery u = false ∧ RawQuery u = [].
Proof.
  intros Hauth Hpath. destruct (canonical_authority_chars authority Hauth) as [Hchars Hne].
  pose proof (url_chars authority path Hauth Hpath) as Hall.
  assert (Htail : all_in url_char (b "//" ++ authority ++ path)) by (intros c Hc; apply Hall; do 6 right; exact Hc).
  unfold Parse. rewrite cut_free by (apply url_free; [done|]; intros d Hd; by apply url_char_facts).
  assert (existsb is_ctl (b "https://" ++ authority ++ path) = false) as ->.
  { apply not_true_iff_false. intros (c&Hc&Hctl)%existsb_exists. destruct (url_char_facts c (Hall c Hc)) as (_&_&Hn&_). congruence. }
  assert (get_scheme (b "https://" ++ authority ++ path) true = Some (b "https", b "//" ++ authority ++ path, true)) as -> by done.
  assert (Hq : free_of "?" (b "//" ++ authority ++ path)) by (apply url_free; [done|]; intros d Hd; by apply url_char_facts).
  change (b "?") with ["?"%char]. rewrite has_suffix_free by done. rewrite cut_free by done. cbn [andb].
  change (negb (has_prefix (b "//" ++ authority ++ path) (b "/"))) with false. cbv iota.
  change (has_prefix (b "//" ++ authority ++ path) (b "//")) with (has_prefix (authority ++ path) []). rewrite has_prefix_nil.
  change (drop 2 (b "//" ++ authority ++ path)) with (authority ++ path).
  assert (Hslash : free_of "/" authority) by (apply all_host_free; [done|]; intros d Hd; by apply host_char_facts).
  assert (Hcut : ∃ a p found, cut (authority ++ path) "/" = (a, p, found) ∧ a = authority ∧ (if found then "/"%char :: p else []) = path).
  { destruct Hpath as [->|(_&_&(p&->)&_)].
    - rewrite app_nil_r, cut_free by done. by eexists _, _, _.
    - rewrite cut_at by done. by eexists _, _, _. }
  destruct Hcut as (a&p&found&->&->&->).
  rewrite cut_last_free by (apply all_host_free; [done|]; intros d Hd; by apply host_char_facts).
  assert (parse_host authority = Some authority) as -> by (destruct Hauth as [bare h n Hh Hn _ _ _]; by apply (parse_host_canonical bare)).
  cbn [mbind option_bind].
  match goal with |- context [set_path ?u path] => destruct (set_path_fixed u path Hpath) as (d&->&Hd) end.
  eexists. split; [done|]. cbn. split_and!; try done. by apply Hd.
Qed.

Definition canonical_url (kind : relayURLKind) (n : normalizedRelayURL) : Prop :=
  ∃ authority path, canonical_authority authority ∧ origin n = b "https://" ++ authority ∧ value n = origin n ++ path ∧
    match kind with publicBaseURLKind => path = [] | actorURL => canonical_path path end.

Lemma normalizeRelayURL_canonical raw kind n : normalizeRelayURL raw kind = Some n → canonical_url kind n.
Proof.
  unfold normalizeRelayURL. intros Hn. destruct (_ || _); [done|].
  destruct (Parse raw) as [parsed|]; cbn [mbind option_bind] in Hn; [|done].
  repeat match type of Hn with (if ?x then None else _) = _ => destruct x eqn:?; [done|] end.
  destruct (normalizeAuthority parsed) as [authority|] eqn:Ha; cbn [mbind option_bind] in Hn; [|done].
  apply normalizeAuthority_canonical in Ha. destruct kind.
  - destruct (normalizeActorPath (EscapedPath parsed)) as [path|] eqn:Hpath; cbn [mbind option_bind] in Hn; [|done].
    injection Hn as <-. exists authority, path. split_and!; [done|done|done|].
    by apply (normalizeActorPath_makes (EscapedPath parsed)); [apply EscapedPath_chars|].
  - match type of Hn with (if ?x then _ else _) = _ => destruct x; [done|] end. injection Hn as <-.
    exists authority, []. split_and!; [done|done|by rewrite app_nil_r|done].
Qed.

Lemma normalizeRelayURL_fixed kind n : canonical_url kind n → normalizeRelayURL (value n) kind = Some n.
Proof.
  destruct n as [v o]. intros (authority&path&Hauth&Ho&Hv&Hkind). cbn [value origin] in *. subst o v.
  destruct (canonical_authority_chars authority Hauth) as [Hchars Hne].
  assert (Hpath : path_ok path) by (destruct kind; [by right|by left]).
  rewrite <- app_assoc.
  pose proof (url_chars authority path Hauth Hpath) as Hall.
  unfold normalizeRelayURL. rewrite url_not_surrounded by done.
  change (bytes_eqb (b "https://" ++ authority ++ path) [] || false) with false. cbv iota.
  destruct (Parse_canonical authority path Hauth Hpath) as (u&->&Hs&Hop&Hu&Hh&He&Hf&Hr). cbn [mbind option_bind].
  rewrite Hs, Hop, Hu, Hf, Hr. change (negb (bytes_eqb [] []) || negb (bytes_eqb (b "https") (b "https"))) with false. cbv iota.
  pose proof (normalizeAuthority_fixed u authority Hauth Hh) as Hfix.
  assert (Hhost : bytes_eqb (Host u) [] || bytes_eqb (Hostname u) [] = false).
  { unfold Hostname. rewrite Hh. destruct Hauth as [bare h n Hc Hn _ Hb _]. rewrite (split_canonical bare h n Hc Hn Hb). simpl.
    apply orb_false_iff. split; [by destruct (h ++ port_part n)|by destruct bare]. }
  rewrite Hhost. cbv iota. change (negb (bytes_eqb [] []) || false) with false. cbv iota.
  rewrite contains_byte_free by (apply url_free; [done|]; intros d Hd; by apply url_char_facts).
  rewrite Hfix, He. cbn [mbind option_bind]. destruct kind.
  - destruct Hkind as (->&_). cbn [mbind option_bind]. by rewrite app_assoc.
  - subst path. change (negb (bytes_eqb [] []) && _) with false. cbv iota. by rewrite app_nil_r.
Qed.

(** ** The interface to the components that store URLs *)

(** What a store of canonical URLs relies on besides [RelayIdentity]. *)
Class CanonicalURLs `{RelayIdentity} := {
  norm_actor_stable a a' : norm_actor a = Some a' → norm_actor a' = Some a';
  norm_identity_stable a u a' u' : norm_identity a u = Some (a', u') → norm_identity a' u' = Some (a', u');
  norm_actor_https a a' : norm_actor a = Some a' → has_prefix (b a') (b "https://") = true;
  norm_actor_chars a a' : norm_actor a = Some a' → all_in url_char (b a') }.

Lemma has_prefix_app x y : has_prefix (x ++ y) x = true.
Proof. induction x as [|c x IH]; [apply has_prefix_nil|]. simpl. by rewrite (proj2 (char_eqb_eq c c) eq_refl). Qed.

Lemma actor_stable a a' : NormalizeRelayActorURL a = Some a' → NormalizeRelayActorURL a' = Some a'.
Proof.
  unfold NormalizeRelayActorURL. destruct (normalizeRelayURL (b a) actorURL) as [n|] eqn:E; cbn [mbind option_bind]; [|done].
  intros [= <-]. apply normalizeRelayURL_canonical, normalizeRelayURL_fixed in E. by rewrite b_str, E.
Qed.
Lemma identity_stable a u a' u' : NormalizeRelayIdentity a u = Some (a', u') → NormalizeRelayIdentity a' u' = Some (a', u').
Proof.
  intros (na&nb&Ha&Hb&->&->&Ho)%NormalizeRelayIdentity_inv. unfold NormalizeRelayIdentity.
  pose proof (normalizeRelayURL_shape _ _ _ Hb) as (?&_&Hvo).
  apply normalizeRelayURL_canonical, normalizeRelayURL_fixed in Ha, Hb. rewrite !b_str, <- Ho, Ha, Hb. cbn [mbind option_bind].
  assert (bytes_eqb (origin na) (origin nb) = true) as -> by (apply bytes_eqb_eq; congruence). done.
Qed.

Lemma actor_url a a' : NormalizeRelayActorURL a = Some a' →
  ∃ authority path, canonical_authority authority ∧ path_ok path ∧ a' = str (b "https://" ++ authority ++ path).
Proof.
  unfold NormalizeRelayActorURL. destruct (normalizeRelayURL (b a) actorURL) as [n|] eqn:E; cbn [mbind option_bind]; [|done].
  intros [= <-]. apply normalizeRelayURL_canonical in E as (authority&path&Hauth&Ho&Hv&Hpath).
  exists authority, path. rewrite Hv, Ho, <- app_assoc. split_and!; [done|by right|done].
Qed.

#[export] Program Instance go_canonical : @CanonicalURLs go_identity.
Next Obligation. apply actor_stable. Qed.
Next Obligation. apply identity_stable. Qed.
Next Obligation.
  intros a a' (authority&path&_&_&->)%actor_url. rewrite b_str. apply has_prefix_app.
Qed.
Next Obligation.
  intros a a' (authority&path&Hauth&Hpath&->)%actor_url. rewrite b_str. by apply url_chars.
Qed.

(** ** Properties *)

(** C17: Normalizing a relay identity is idempotent: what [NormalizeRelayActorURL],
    [NormalizePublicBaseURL] or [NormalizeRelayIdentity] returns is accepted again
    and returned unchanged, whatever its host (a domain name, an IPv4 or an IPv6
    address), its port and its path. *)
Theorem NormalizeRelayIdentity_idempotent a u a' u' :
  NormalizeRelayIdentity a u = Some (a', u') →
  NormalizeRelayIdentity a' u' = Some (a', u') ∧ NormalizeRelayActorURL a' = Some a' ∧ NormalizePublicBaseURL u' = Some u'.
Proof.
  intros Hn. pose proof (identity_stable a u a' u' Hn) as Hstable. split; [done|].
  apply NormalizeRelayIdentity_inv in Hstable as (na&nb&Ha&Hb&Ea&Eu&Ho). unfold NormalizeRelayActorURL, NormalizePublicBaseURL.
  rewrite Ha, Hb. cbn [mbind option_bind]. split; congruence.
Qed.

Lemma NormalizeRelayIdentity_idempotent_witness :
  NormalizeRelayIdentity "HTTPS://[2001:0DB8:0:0::192.0.2.1]:08443/%61ctor" "https://[2001:db8::c000:201]:8443/" =
    Some ("https://[2001:db8::c000:201]:8443/actor", "https://[2001:db8::c000:201]:8443") ∧
  NormalizeRelayActorURL "https://[2001:db8::c000:201]:8443/actor" = Some "https://[2001:db8::c000:201]:8443/actor".
Proof.
  assert (Hn : NormalizeRelayIdentity "HTTPS://[2001:0DB8:0:0::192.0.2.1]:08443/%61ctor" "https://[2001:db8::c000:201]:8443/" =
    Some ("https://[2001:db8::c000:201]:8443/actor", "https://[2001:db8::c000:201]:8443")) by (vm_compute; reflexivity).
  split; [exact Hn|]. exact (proj1 (proj2 (NormalizeRelayIdentity_idempotent _ _ _ _ Hn))).
Defined.
