(* ===== verification/Text.v ===== *)
(** * Text: the parts of strings, unicode/utf8, encoding/json and net/mail used

    [strings.TrimSpace], [utf8.ValidString], [json.Marshal] and [json.Unmarshal] of
    strings and string lists, and the addresses [mail.ParseAddress] returns
    unchanged.  Strings are byte sequences as in [GoNet]. *)
From S2P Require Import Prelude GoNet.
From Stdlib Require Import Ascii.
Local Open Scope string_scope.
Local Open Scope Z_scope.
Local Open Scope go_scope.
Local Open Scope list_scope.

(** ** strings.TrimSpace *)

Fixpoint trim_left (s : bytes) : bytes :=
  match s with
  | [] => []
  | c :: s1 =>
      if ascii_space c then trim_left s1
      else match s1 with
           | d :: s2 =>
               if space_pair c d then trim_left s2
               else match s2 with
                    | e :: s3 => if space_triple c d e then trim_left s3 else s
                    | [] => s
                    end
           | [] => s
           end
  end.
(** The same from the end, on the reversed bytes. *)
Fixpoint trim_end (s : bytes) : bytes :=
  match s with
  | [] => []
  | e :: s1 =>
      if ascii_space e then trim_end s1
      else match s1 with
           | d :: s2 =>
               if space_pair d e then trim_end s2
               else match s2 with
                    | c :: s3 => if space_triple c d e then trim_end s3 else s
                    | [] => s
                    end
           | [] => s
           end
  end.
Definition trim_space (s : bytes) : bytes := rev (trim_end (rev (trim_left s))).

(** ** utf8.ValidString *)

Definition tail_byte (c : ascii) : bool := (0x80 <=? byte c) && (byte c <=? 0xBF).
Fixpoint valid_utf8 (s : bytes) : bool :=
  match s with
  | [] => true
  | c0 :: s1 =>
      if byte c0 <? 0x80 then valid_utf8 s1
      else
        match s1 with
        | c1 :: s2 =>
            if (0xC2 <=? byte c0) && (byte c0 <=? 0xDF) then tail_byte c1 && valid_utf8 s2
            else
              match s2 with
              | c2 :: s3 =>
                  if (0xE0 <=? byte c0) && (byte c0 <=? 0xEF) then
                    tail_byte c1 && tail_byte c2 && negb ((byte c0 =? 0xE0) && (byte c1 <? 0xA0)) &&
                    negb ((byte c0 =? 0xED) && (0x9F <? byte c1)) && valid_utf8 s3
                  else
                    match s3 with
                    | c3 :: s4 =>
                        (0xF0 <=? byte c0) && (byte c0 <=? 0xF4) && tail_byte c1 && tail_byte c2 && tail_byte c3 &&
                        negb ((byte c0 =? 0xF0) && (byte c1 <? 0x90)) &&
                        negb ((byte c0 =? 0xF4) && (0x8F <? byte c1)) && valid_utf8 s4
                    | [] => false
                    end
              | [] => false
              end
        | [] => false
        end
  end.

(** ** encoding/json *)

(** [json.Marshal] escapes HTML characters, quotes, backslashes, control bytes and
    U+2028, U+2029; other bytes of valid UTF-8 are copied. *)
Definition quote : ascii := byte_of 0x22.
Definition backslash : ascii := byte_of 0x5C.
Definition json_escape (c : ascii) : bytes :=
  if (byte c =? 0x22) || (byte c =? 0x5C) then [backslash; c]
  else if byte c =? 8 then [backslash; "b"%char] else if byte c =? 12 then [backslash; "f"%char]
  else if byte c =? 10 then [backslash; "n"%char] else if byte c =? 13 then [backslash; "r"%char]
  else if byte c =? 9 then [backslash; "t"%char]
  else if (byte c <? 32) || (byte c =? 0x3C) || (byte c =? 0x3E) || (byte c =? 0x26)
  then backslash :: b "u00" ++ [lower_hex (byte c / 16); lower_hex (byte c mod 16)]
  else [c].
Fixpoint json_encode (s : bytes) : bytes :=
  match s with
  | [] => []
  | c :: s1 =>
      match s1 with
      | d :: (e :: s3) as s2 =>
          if (byte c =? 0xE2) && (byte d =? 0x80) && ((byte e =? 0xA8) || (byte e =? 0xA9))
          then (backslash :: b (if byte e =? 0xA8 then "u2028" else "u2029")) ++ json_encode s3
          else json_escape c ++ json_encode s1
      | _ => json_escape c ++ json_encode s1
      end
  end.
Definition json_string (s : bytes) : bytes := quote :: json_encode s ++ [quote].
Fixpoint json_items (values : list bytes) : bytes :=
  match values with
  | [] => []
  | [v] => json_string v
  | v :: rest => json_string v ++ ","%char :: json_items rest
  end.
Definition json_list (values : list bytes) : bytes := "["%char :: json_items values ++ ["]"%char].

(** UTF-8 of a code point that is no surrogate. *)
Definition utf8_encode (r : Z) : bytes :=
  if r <? 0x80 then [byte_of r]
  else if r <? 0x800 then [byte_of (0xC0 + r / 64); byte_of (0x80 + r mod 64)]
  else if r <? 0x10000 then [byte_of (0xE0 + r / 4096); byte_of (0x80 + r / 64 mod 64); byte_of (0x80 + r mod 64)]
  else [byte_of (0xF0 + r / 262144); byte_of (0x80 + r / 4096 mod 64); byte_of (0x80 + r / 64 mod 64); byte_of (0x80 + r mod 64)].
Definition hex4 (a b c d : ascii) : option Z :=
  w ← hex_value a; x ← hex_value b; y ← hex_value c; z ← hex_value d;
  Some (((w * 16 + x) * 16 + y) * 16 + z).
Definition is_surrogate (r : Z) : bool := (0xD800 <=? r) && (r <? 0xE000).
Definition unescape_byte (c : ascii) : option ascii :=
  if (c ≡c quote) || (c ≡c backslash) || (c ≡c "/") then Some c
  else if c ≡c "b" then Some (byte_of 8) else if c ≡c "f" then Some (byte_of 12)
  else if c ≡c "n" then Some (byte_of 10) else if c ≡c "r" then Some (byte_of 13)
  else if c ≡c "t" then Some (byte_of 9) else None.

Definition prepend (p : bytes) (r : option (bytes * bytes)) : option (bytes * bytes) :=
  match r with Some (v, rest) => Some (p ++ v, rest) | None => None end.
(** A string literal after its opening quote: its value and what follows it. An
    unpaired surrogate decodes to U+FFFD. *)
Fixpoint json_body (s : bytes) : option (bytes * bytes) :=
  match s with
  | [] => None
  | c :: s1 =>
      if c ≡c quote then Some ([], s1)
      else if c ≡c backslash then
        match s1 with
        | [] => None
        | k :: s2 =>
            if k ≡c "u" then
              match s2 with
              | h1 :: h2 :: h3 :: h4 :: s6 =>
                  match hex4 h1 h2 h3 h4 with
                  | None => None
                  | Some r =>
                      if is_surrogate r then
                        match s6 with
                        | e1 :: e2 :: g1 :: g2 :: g3 :: g4 :: s12 =>
                            match (if (e1 ≡c backslash) && (e2 ≡c "u") then hex4 g1 g2 g3 g4 else None) with
                            | Some r2 =>
                                if (r <? 0xDC00) && (0xDC00 <=? r2) && (r2 <? 0xE000)
                                then prepend (utf8_encode ((r - 0xD800) * 1024 + (r2 - 0xDC00) + 0x10000)) (json_body s12)
                                else prepend (utf8_encode 0xFFFD) (json_body s6)
                            | None => prepend (utf8_encode 0xFFFD) (json_body s6)
                            end
                        | _ => prepend (utf8_encode 0xFFFD) (json_body s6)
                        end
                      else prepend (utf8_encode r) (json_body s6)
                  end
              | _ => None
              end
            else match unescape_byte k with Some e => prepend [e] (json_body s2) | None => None end
        end
      else if byte c <? 0x20 then None
      else prepend [c] (json_body s1)
  end.

Definition json_space (c : ascii) : bool := (byte c =? 0x20) || (byte c =? 9) || (byte c =? 10) || (byte c =? 13).
Fixpoint skip_space (s : bytes) : bytes :=
  match s with c :: s' => if json_space c then skip_space s' else s | [] => [] end.
(** A value that decodes into a Go string; [null] leaves it empty. *)
Definition json_value (s : bytes) : option (bytes * bytes) :=
  match skip_space s with
  | c :: rest =>
      if c ≡c quote then json_body rest
      else if has_prefix (c :: rest) (b "null") then Some ([], drop 4 (c :: rest)) else None
  | [] => None
  end.
(** [json.Unmarshal(data, &value)] for [var value string] *)
Definition unmarshal_string (s : bytes) : option bytes :=
  match json_value s with
  | Some (v, rest) => match skip_space rest with [] => Some v | _ => None end
  | None => None
  end.
(** The items of an array after its bracket; each round reads one item. *)
Fixpoint json_array (fuel : nat) (s : bytes) : option (list bytes * bytes) :=
  match fuel with
  | O => None
  | S fuel =>
      match json_value s with
      | None => None
      | Some (v, rest) =>
          match skip_space rest with
          | c :: rest =>
              if c ≡c "]" then Some ([v], rest)
              else if c ≡c "," then
                match json_array fuel rest with Some (vs, rest) => Some (v :: vs, rest) | None => None end
              else None
          | [] => None
          end
      end
  end.
(** [json.Unmarshal(data, &values)] for [var values []string]; the empty array and
    [null] both give an empty slice. *)
Definition unmarshal_strings (s : bytes) : option (list bytes) :=
  match skip_space s with
  | c :: rest =>
      if c ≡c "[" then
        match (match skip_space rest with
               | d :: rest' => if d ≡c "]" then Some ([], rest') else json_array (length s) rest
               | [] => None
               end) with
        | Some (vs, rest) => match skip_space rest with [] => Some vs | _ => None end
        | None => None
        end
      else if has_prefix (c :: rest) (b "null") then
        match skip_space (drop 4 (c :: rest)) with [] => Some [] | _ => None end
      else None
  | [] => None
  end.

(** ** net/mail *)

(** [isAtext(r, true)] on bytes; bytes above 0x7F belong to multi-byte runes. *)
Definition atext (c : ascii) : bool :=
  negb (mem c "()<>[]:;@,") && negb (c ≡c quote) && negb (c ≡c backslash) &&
  (((0x21 <=? byte c) && (byte c <=? 0x7E)) || (0x80 <=? byte c)).
Fixpoint double_dot (s : bytes) : bool :=
  match s with
  | c :: (d :: _) as s' => ((c ≡c ".") && (d ≡c ".")) || double_dot s'
  | _ => false
  end.
Definition dot_atom (s : bytes) : bool :=
  match s with
  | [] => false
  | c :: _ => forallb atext s && negb (c ≡c ".") && negb (has_suffix s (b ".")) && negb (double_dot s)
  end.
Definition dtext (c : ascii) : bool :=
  negb (mem c "[]") && negb (c ≡c backslash) && (((0x21 <=? byte c) && (byte c <=? 0x7E)) || (0x80 <=? byte c)).
(** A domain literal holds an IP address. *)
Definition domain_literal (s : bytes) : bool :=
  match s with
  | c :: rest =>
      (c ≡c "[") && has_suffix rest (b "]") &&
      let inner := removelast rest in forallb dtext inner && match ParseAddr inner with Some _ => true | None => false end
  | [] => false
  end.
(** [mail.ParseAddress(value)] succeeds with [Address == value], for a value of
    valid UTF-8 without quotes and angle brackets: it is one addr-spec. *)
Definition plain_address (value : bytes) : bool :=
  match cut value "@" with
  | (local, domain, true) => dot_atom local && (dot_atom domain || domain_literal domain)
  | _ => false
  end.

(** ** Facts *)

(** Induction that may skip up to three elements. *)
Lemma list_ind3 {A} (P : list A → Prop) :
  P [] → (∀ c s, (∀ s', suffix s' s → P s') → P (c :: s)) → ∀ s, P s.
Proof.
  intros Hn Hc s. assert (∀ s', suffix s' s → P s') as Hall; [|by apply Hall].
  induction s as [|c s IH]; intros s' Hs.
  - destruct Hs as [[|x k] Heq]; [by simpl in Heq; subst|done].
  - destruct Hs as [[|x k] Heq]; simpl in Heq; [subst; by apply Hc|]. injection Heq as -> ->. apply IH. by exists k.
Qed.
Definition ends_reversed (s : bytes) : bool :=
  match s with
  | e :: d :: c :: _ => ascii_space e || space_pair d e || space_triple c d e
  | [e; d] => ascii_space e || space_pair d e
  | [e] => ascii_space e
  | [] => false
  end.

Lemma trim_left_spec s : starts_with_space (trim_left s) = false ∧ suffix (trim_left s) s.
Proof.
  induction s as [|c s IH] using list_ind3; [done|]. cbn [trim_left].
  destruct (ascii_space c) eqn:Hc; [destruct (IH s) as [? Hs]; [done|]; split; [done|by apply suffix_cons_r]|].
  destruct s as [|d s]; [by simpl; rewrite Hc|]. destruct (space_pair c d) eqn:Hd.
  { destruct (IH s) as [? Hs]; [by apply suffix_cons_r|]. split; [done|by do 2 apply suffix_cons_r]. }
  destruct s as [|e s]; [by simpl; rewrite Hc, Hd|]. destruct (space_triple c d e) eqn:He; [|by simpl; rewrite Hc, Hd, He].
  destruct (IH s) as [? Hs]; [by do 2 apply suffix_cons_r|]. split; [done|by do 3 apply suffix_cons_r].
Qed.
Lemma trim_end_spec s : ends_reversed (trim_end s) = false ∧ suffix (trim_end s) s.
Proof.
  induction s as [|c s IH] using list_ind3; [done|]. cbn [trim_end].
  destruct (ascii_space c) eqn:Hc; [destruct (IH s) as [? Hs]; [done|]; split; [done|by apply suffix_cons_r]|].
  destruct s as [|d s]; [by simpl; rewrite Hc|]. destruct (space_pair d c) eqn:Hd.
  { destruct (IH s) as [? Hs]; [by apply suffix_cons_r|]. split; [done|by do 2 apply suffix_cons_r]. }
  destruct s as [|e s]; [by simpl; rewrite Hc, Hd|]. destruct (space_triple e d c) eqn:He; [|by simpl; rewrite Hc, Hd, He].
  destruct (IH s) as [? Hs]; [by do 2 apply suffix_cons_r|]. split; [done|by do 3 apply suffix_cons_r].
Qed.
Lemma trim_left_fixed s : starts_with_space s = false → trim_left s = s.
Proof. destruct s as [|c [|d [|e s]]]; simpl; [done|..]; repeat (destruct (ascii_space _) || destruct (space_pair _ _) || destruct (space_triple _ _ _)); done. Qed.
Lemma trim_end_fixed s : ends_reversed s = false → trim_end s = s.
Proof. destruct s as [|c [|d [|e s]]]; simpl; [done|..]; repeat (destruct (ascii_space _) || destruct (space_pair _ _) || destruct (space_triple _ _ _)); done. Qed.

Lemma starts_with_space_prefix s t : starts_with_space s = true → starts_with_space (s ++ t) = true.
Proof.
  destruct s as [|c [|d [|e s]]]; simpl; [done|..].
  - intros Hc. destruct t as [|d [|e t]]; simpl; by rewrite Hc.
  - intros H. destruct t as [|e t]; simpl; [done|]. by rewrite H.
  - done.
Qed.

(** Trimming twice trims once. *)
Lemma trim_space_idempotent s : trim_space (trim_space s) = trim_space s.
Proof.
  unfold trim_space. destruct (trim_left_spec s) as [Hl _]. set (t := trim_left s) in *.
  destruct (trim_end_spec (rev t)) as [He [k Hk]]. set (u := trim_end (rev t)) in *.
  assert (Ht : t = rev u ++ rev k) by (by rewrite <- rev_app_distr, <- Hk, rev_involutive).
  rewrite (trim_left_fixed (rev u)).
  - rewrite rev_involutive. by rewrite (trim_end_fixed u).
  - apply not_true_iff_false. intros Hs%(starts_with_space_prefix _ (rev k)). rewrite <- Ht in Hs. congruence.
Qed.

(** Escaping a byte and reading it back, whatever follows. *)
Lemma json_body_escape c tail : json_body (json_escape c ++ tail) = prepend [c] (json_body tail).
Proof. destruct c as [[] [] [] [] [] [] [] []]; reflexivity. Qed.

Lemma byte_of_byte c : byte_of (byte c) = c.
Proof. unfold byte_of, byte. by rewrite N2Z.id, ascii_N_embedding. Qed.
Lemma byte_eq c z : byte c = z → c = byte_of z.
Proof. intros <-. symmetry. apply byte_of_byte. Qed.

Lemma json_body_encode s rest : json_body (json_encode s ++ quote :: rest) = Some (s, rest).
Proof.
  induction s as [|c s IH] using list_ind3; [done|].
  assert (Hone : json_body (json_escape c ++ json_encode s ++ quote :: rest) = Some (c :: s, rest)).
  { rewrite json_body_escape, (IH s) by done. done. }
  cbn [json_encode]. destruct s as [|d [|e s]]; [by rewrite <- app_assoc|by rewrite <- app_assoc|].
  destruct (_ && _ : bool) eqn:Hls; [|by rewrite <- app_assoc].
  apply andb_true_iff in Hls as [[Hc%Z.eqb_eq%byte_eq Hd%Z.eqb_eq%byte_eq]%andb_true_iff He].
  assert (Hs : json_body (json_encode s ++ quote :: rest) = Some (s, rest)) by (apply IH; by do 2 apply suffix_cons_r).
  apply orb_true_iff in He as [He|He]; apply Z.eqb_eq, byte_eq in He; subst c d e; rewrite <- app_assoc.
  - change (json_body (_ ++ ?t)) with (prepend (utf8_encode 0x2028) (json_body t)). by rewrite Hs.
  - change (json_body (_ ++ ?t)) with (prepend (utf8_encode 0x2029) (json_body t)). by rewrite Hs.
Qed.

Lemma json_value_string s rest : json_value (json_string s ++ rest) = Some (s, rest).
Proof. unfold json_string. cbn [app]. rewrite <- app_assoc. exact (json_body_encode s rest). Qed.

(** Reading a marshalled string gives the string back. *)
Lemma unmarshal_json_string s : unmarshal_string (json_string s) = Some s.
Proof. unfold unmarshal_string. rewrite <- (app_nil_r (json_string s)). by rewrite json_value_string. Qed.

Lemma json_array_items values rest : values ≠ [] → ∀ fuel, (length values <= fuel)%nat →
  json_array fuel (json_items values ++ "]"%char :: rest) = Some (values, rest).
Proof.
  induction values as [|v values IH]; intros Hne fuel Hf; [done|]. destruct fuel as [|fuel]; [simpl in Hf; lia|].
  destruct values as [|w values].
  - cbn [json_items json_array]. by rewrite json_value_string.
  - change (json_items (v :: w :: values)) with (json_string v ++ ","%char :: json_items (w :: values)).
    rewrite <- app_assoc. cbn [json_array app]. rewrite json_value_string. simpl skip_space. cbv beta iota.
    simpl char_eqb. cbv iota. rewrite IH; [done|done|simpl in *; lia].
Qed.

Lemma json_items_length values : (length values <= length (json_items values))%nat.
Proof.
  induction values as [|v [|w values] IH]; [done|simpl; lia|].
  change (json_items (v :: w :: values)) with (json_string v ++ ","%char :: json_items (w :: values)).
  rewrite length_app. simpl in *. lia.
Qed.

Lemma unmarshal_json_list values : values ≠ [] → unmarshal_strings (json_list values) = Some values.
Proof.
  intros Hne. unfold unmarshal_strings, json_list. set (n := length ("["%char :: json_items values ++ ["]"%char])).
  assert (Hn : (length values <= n)%nat) by (unfold n; simpl; rewrite length_app; pose proof (json_items_length values); lia).
  clearbody n. destruct values as [|v values]; [done|]. 
  cbn [skip_space]. change (json_space "["%char) with false. cbv iota. change ("["%char ≡c "["%char) with true. cbv iota.
  assert (Hfirst : ∃ t, json_items (v :: values) ++ ["]"%char] = quote :: t).
  { destruct values as [|w values]; by eexists. }
  destruct Hfirst as [t Ht]. pose proof (json_array_items (v :: values) [] Hne n Hn) as Harr. rewrite Ht in Harr |- *.
  cbn [skip_space]. change (json_space quote) with false. cbv iota. change (quote ≡c "]"%char) with false. cbv iota.
  by rewrite Harr.
Qed.
