(* ===== verification/Json.v ===== *)
(** * Json: what the request decoders use of encoding/json

    [json.Decoder] over one bounded body: the grammar the scanner accepts with its
    nesting limit, the unquoting of strings, and the decoding of a parsed value
    into Go strings, integers, pointers, string slices and structs, for a decoder
    that disallows unknown fields.  A decoding error of any kind is [None]: every
    caller maps them all to one error, and the value decoded so far is dropped. *)
From S2P Require Import Prelude GoNet Text.
From Stdlib Require Import Ascii.
Local Open Scope string_scope.
Local Open Scope Z_scope.
Local Open Scope go_scope.
Local Open Scope list_scope.

(** ** Unquoting *)

(** U+FFFD, written for every byte that starts no well-formed rune. *)
Definition rune_error : bytes := utf8_encode 0xFFFD.
Definition two_byte_rune (c0 c1 : ascii) : bool := (0xC2 <=? byte c0) && (byte c0 <=? 0xDF) && tail_byte c1.
Definition three_byte_rune (c0 c1 c2 : ascii) : bool :=
  (0xE0 <=? byte c0) && (byte c0 <=? 0xEF) && tail_byte c1 && tail_byte c2 &&
  negb ((byte c0 =? 0xE0) && (byte c1 <? 0xA0)) && negb ((byte c0 =? 0xED) && (0x9F <? byte c1)).
Definition four_byte_rune (c0 c1 c2 c3 : ascii) : bool :=
  (0xF0 <=? byte c0) && (byte c0 <=? 0xF4) && tail_byte c1 && tail_byte c2 && tail_byte c3 &&
  negb ((byte c0 =? 0xF0) && (byte c1 <? 0x90)) && negb ((byte c0 =? 0xF4) && (0x8F <? byte c1)).
Fixpoint to_valid_utf8 (s : bytes) : bytes :=
  match s with
  | [] => []
  | c0 :: s1 =>
      if byte c0 <? 0x80 then c0 :: to_valid_utf8 s1
      else
        match s1 with
        | [] => rune_error ++ to_valid_utf8 s1
        | c1 :: s2 =>
            if two_byte_rune c0 c1 then c0 :: c1 :: to_valid_utf8 s2
            else
              match s2 with
              | [] => rune_error ++ to_valid_utf8 s1
              | c2 :: s3 =>
                  if three_byte_rune c0 c1 c2 then c0 :: c1 :: c2 :: to_valid_utf8 s3
                  else
                    match s3 with
                    | [] => rune_error ++ to_valid_utf8 s1
                    | c3 :: s4 =>
                        if four_byte_rune c0 c1 c2 c3 then c0 :: c1 :: c2 :: c3 :: to_valid_utf8 s4
                        else rune_error ++ to_valid_utf8 s1
                    end
              end
        end
  end.
(** A string literal after its opening quote.  An escape yields whole runes, so
    its bytes never complete a rune begun by raw bytes: repairing the unescaped
    bytes is what [unquoteBytes] does rune by rune. *)
Definition scan_string (s : bytes) : option (bytes * bytes) :=
  match json_body s with Some (v, rest) => Some (to_valid_utf8 v, rest) | None => None end.

(** ** Numbers *)

Fixpoint span_digits (s : bytes) : bytes * bytes :=
  match s with
  | c :: s' => if is_digit c then let '(digits, rest) := span_digits s' in (c :: digits, rest) else ([], s)
  | [] => ([], [])
  end.
Definition scan_sign (s : bytes) : bytes * bytes :=
  match s with c :: s' => if c ≡c "-" then ([c], s') else ([], s) | [] => ([], []) end.
(** One zero, or digits that start with no zero. *)
Definition scan_integer (s : bytes) : option (bytes * bytes) :=
  match s with
  | c :: s' => if c ≡c "0" then Some ([c], s') else if is_digit c then Some (span_digits s) else None
  | [] => None
  end.
Definition scan_fraction (s : bytes) : option (bytes * bytes) :=
  match s with
  | c :: s' =>
      if c ≡c "." then match span_digits s' with ([], _) => None | (digits, rest) => Some (c :: digits, rest) end
      else Some ([], s)
  | [] => Some ([], [])
  end.
Definition scan_exponent (s : bytes) : option (bytes * bytes) :=
  match s with
  | c :: s' =>
      if mem c "eE" then
        let '(sign, digits) := match s' with d :: s'' => if mem d "+-" then ([d], s'') else ([], s') | [] => ([], []) end in
        match span_digits digits with ([], _) => None | (digits, rest) => Some (c :: sign ++ digits, rest) end
      else Some ([], s)
  | [] => Some ([], [])
  end.
Definition scan_number (s : bytes) : option (bytes * bytes) :=
  let '(sign, s) := scan_sign s in
  '(integer, s) ← scan_integer s;
  '(fraction, s) ← scan_fraction s;
  '(exponent, s) ← scan_exponent s;
  Some (sign ++ integer ++ fraction ++ exponent, s).

(** ** Values *)

#[local] Set Warnings "-register-all".
Inductive json :=
| JNull | JBool (v : bool) | JNumber (literal : bytes) | JString (v : bytes)
| JArray (items : list json) | JObject (members : list (bytes * json)).

Definition maxNestingDepth : Z := 10000.

(** The next byte that is no white space, and what follows it. *)
Definition next_byte (s : bytes) : option (ascii * bytes) :=
  match skip_space s with c :: rest => Some (c, rest) | [] => None end.
Definition scan_literal (s : bytes) : option (json * bytes) :=
  if has_prefix s (b "null") then Some (JNull, drop 4 s)
  else if has_prefix s (b "true") then Some (JBool true, drop 4 s)
  else if has_prefix s (b "false") then Some (JBool false, drop 5 s)
  else '(literal, rest) ← scan_number s; Some (JNumber literal, rest).

(** Each round of the three functions costs one unit of fuel; [depth] counts the
    arrays and objects around the value. *)
Fixpoint parse_value (fuel : nat) (depth : Z) (s : bytes) : option (json * bytes) :=
  match fuel with
  | O => None
  | S fuel =>
      '(c, rest) ← next_byte s;
      if c ≡c quote then '(v, rest) ← scan_string rest; Some (JString v, rest)
      else if c ≡c "{" then
        if maxNestingDepth <=? depth then None
        else
          '(d, after) ← next_byte rest;
          if d ≡c "}" then Some (JObject [], after)
          else '(members, rest) ← parse_members fuel (depth + 1) rest; Some (JObject members, rest)
      else if c ≡c "[" then
        if maxNestingDepth <=? depth then None
        else
          '(d, after) ← next_byte rest;
          if d ≡c "]" then Some (JArray [], after)
          else '(items, rest) ← parse_items fuel (depth + 1) rest; Some (JArray items, rest)
      else scan_literal (c :: rest)
  end
with parse_members (fuel : nat) (depth : Z) (s : bytes) : option (list (bytes * json) * bytes) :=
  match fuel with
  | O => None
  | S fuel =>
      '(c, rest) ← next_byte s;
      if negb (c ≡c quote) then None
      else
        '(name, rest) ← scan_string rest;
        '(colon, rest) ← next_byte rest;
        if negb (colon ≡c ":") then None
        else
          '(v, rest) ← parse_value fuel depth rest;
          '(d, rest) ← next_byte rest;
          if d ≡c "}" then Some ([(name, v)], rest)
          else if d ≡c "," then '(members, rest) ← parse_members fuel depth rest; Some ((name, v) :: members, rest)
          else None
  end
with parse_items (fuel : nat) (depth : Z) (s : bytes) : option (list json * bytes) :=
  match fuel with
  | O => None
  | S fuel =>
      '(v, rest) ← parse_value fuel depth s;
      '(d, rest) ← next_byte rest;
      if d ≡c "]" then Some ([v], rest)
      else if d ≡c "," then '(items, rest) ← parse_items fuel depth rest; Some (v :: items, rest)
      else None
  end.
Definition parse_fuel (s : bytes) : nat := 2 * length s + 1.
(** [decoder.Decode] of the first value and [io.EOF] from the next call. *)
Definition parse_document (s : bytes) : option json :=
  '(v, rest) ← parse_value (parse_fuel s) 0 s;
  match skip_space rest with [] => Some v | _ => None end.

(** ** Decoding into Go values *)

Definition Decoder (A : Type) : Type := json → A → option A.

Definition into_string : Decoder string := λ j old,
  match j with JNull => Some old | JString v => Some (str v) | _ => None end.

Fixpoint decimal_value (acc : Z) (digits : bytes) : option Z :=
  match digits with
  | [] => Some acc
  | c :: rest => if is_digit c then decimal_value (acc * 10 + (byte c - byte "0")) rest else None
  end.
(** [strconv.ParseInt(literal, 10, 64)] of a number the scanner accepted *)
Definition parse_int64 (literal : bytes) : option Z :=
  let '(sign, digits) := scan_sign literal in
  v ← decimal_value 0 digits;
  let v := match sign with [] => v | _ => - v end in
  if (int64_min <=? v) && (v <=? int64_max) then Some v else None.
Definition into_int : Decoder Z := λ j old,
  match j with JNull => Some old | JNumber literal => parse_int64 literal | _ => None end.

(** A pointer: null clears it, anything else decodes into what it points to,
    allocated when nil. *)
Definition into_pointer {A} (zero : A) (decode : Decoder A) : Decoder (option A) := λ j old,
  match j with JNull => Some None | _ => v ← decode j (default zero old); Some (Some v) end.

(** A string slice: its length and the elements its array holds; an array decodes
    element by element over what the array already holds. *)
Record go_slice := GoSlice { slice_array : list string; slice_length : nat }.
Definition nil_slice : go_slice := GoSlice [] 0.
Definition slice_values (s : go_slice) : list string := take (slice_length s) (slice_array s).
Fixpoint into_elements (items : list json) (array : list string) : option (list string) :=
  match items with
  | [] => Some array
  | j :: items =>
      v ← into_string j (default "" (head array));
      rest ← into_elements items (tail array);
      Some (v :: rest)
  end.
Definition into_strings : Decoder go_slice := λ j old,
  match j with
  | JNull => Some nil_slice
  | JArray [] => Some nil_slice
  | JArray items => array ← into_elements items (slice_array old); Some (GoSlice array (length items))
  | _ => None
  end.

(** Field names match by [foldName]: ASCII letters in upper case, U+017F as S and
    U+212A as K; no other rune folds to ASCII, and the names here are ASCII. *)
Definition upper_byte (c : ascii) : ascii := if is_lower c then ascii_of_N (N_of_ascii c - 32) else c.
Fixpoint fold_name (s : bytes) : bytes :=
  match s with
  | [] => []
  | c :: s1 =>
      match s1 with
      | d :: s2 =>
          if (byte c =? 0xC5) && (byte d =? 0xBF) then "S"%char :: fold_name s2
          else
            match s2 with
            | e :: s3 =>
                if (byte c =? 0xE2) && (byte d =? 0x84) && (byte e =? 0xAA) then "K"%char :: fold_name s3
                else upper_byte c :: fold_name s1
            | [] => upper_byte c :: fold_name s1
            end
      | [] => [upper_byte c]
      end
  end.
Definition field (R : Type) : Type := string * (json → R → option R).
Definition field_named {R} (name : bytes) (f : field R) : bool := bytes_eqb (fold_name (b f.1)) (fold_name name).
Fixpoint into_members {R} (fields : list (field R)) (members : list (bytes * json)) (r : R) : option R :=
  match members with
  | [] => Some r
  | (name, v) :: members =>
      f ← find (field_named name) fields;
      r ← f.2 v r;
      into_members fields members r
  end.
(** A struct: null leaves it, an unknown field is an error. *)
Definition into_struct {R} (fields : list (field R)) : Decoder R := λ j r,
  match j with JNull => Some r | JObject members => into_members fields members r | _ => None end.
