(* ===== verification/JsonFacts.v ===== *)
(** * JsonFacts: the parser needs no more fuel than it is given, and reads back what is printed *)
From S2P Require Import Prelude GoNet Identity AddrText Canonical Text Json.
From Stdlib Require Import Ascii.
Local Open Scope string_scope.
Local Open Scope Z_scope.
Local Open Scope go_scope.
Local Open Scope list_scope.

(** ** Every scanner consumes what it reads *)

Definition shorter {A} (s : bytes) (r : option (A * bytes)) : Prop := ∀ v rest, r = Some (v, rest) → (length rest < length s)%nat.
Definition no_longer {A} (s : bytes) (r : option (A * bytes)) : Prop := ∀ v rest, r = Some (v, rest) → (length rest ≤ length s)%nat.

Lemma skip_space_length s : (length (skip_space s) ≤ length s)%nat.
Proof. induction s as [|c s IH]; simpl; [done|]. destruct (json_space c); simpl; lia. Qed.
Lemma next_byte_shorter s : shorter s (next_byte s).
Proof.
  intros c rest. unfold next_byte. pose proof (skip_space_length s) as H. destruct (skip_space s) as [|d s']; [done|].
  intros [= -> ->]. simpl in H. lia.
Qed.
Lemma prepend_shorter p s k t : shorter s t → (length s ≤ length k)%nat → shorter k (prepend p t).
Proof. intros Ht Hk v rest. destruct t as [[w r]|]; simpl; [|done]. intros [= <- <-]. specialize (Ht _ _ eq_refl). lia. Qed.
Ltac suffix_tail := solve [repeat first [reflexivity | apply suffix_cons_r | apply suffix_nil]].
Lemma json_body_shorter s : shorter s (json_body s).
Proof.
  induction s as [|c s IH] using list_ind3; [done|].
  assert (Hrec : ∀ (p t k : bytes), suffix t s → (length t ≤ length k)%nat → shorter k (prepend p (json_body t)))
    by (intros p t k Ht Hk; by apply (prepend_shorter _ t); [apply IH|]).
  assert (Hlen : ∀ t, suffix t s → (length t ≤ length (c :: s))%nat) by (intros t [k ->]; simpl; rewrite length_app; lia).
  cbn [json_body]. destruct (c ≡c quote); [intros v rest [= _ <-]; simpl; lia|].
  destruct (c ≡c backslash).
  - destruct s as [|k s2]; [done|]. destruct (k ≡c "u").
    + do 4 (destruct s2 as [|? s2]; [done|]). destruct (hex4 _ _ _ _) as [r|]; [|done].
      destruct (is_surrogate r); [|apply Hrec; [|apply Hlen]; suffix_tail].
      do 6 (destruct s2 as [|? s2]; [apply Hrec; [|apply Hlen]; suffix_tail|]).
      repeat match goal with |- shorter _ (match ?x with _ => _ end) => destruct x end;
        (apply Hrec; [|apply Hlen]; suffix_tail).
    + destruct (unescape_byte k); [|done]. apply Hrec; [|apply Hlen]; suffix_tail.
  - destruct (byte c <? 0x20); [done|]. by apply Hrec; [|apply Hlen].
Qed.
Lemma scan_string_shorter s : shorter s (scan_string s).
Proof.
  intros v rest. unfold scan_string. destruct (json_body s) as [[w r]|] eqn:E; [|done]. intros [= _ <-]. by apply json_body_shorter in E.
Qed.
Lemma span_digits_length s : (length (span_digits s).1 + length (span_digits s).2 = length s)%nat.
Proof. induction s as [|c s IH]; [done|]. cbn [span_digits]. destruct (is_digit c); [|done]. destruct (span_digits s). simpl in *. lia. Qed.
Lemma scan_sign_length s : (length (scan_sign s).2 ≤ length s)%nat.
Proof. destruct s as [|c s]; simpl; [done|]. destruct (c ≡c "-"); simpl; lia. Qed.
Lemma scan_integer_shorter s : shorter s (scan_integer s).
Proof.
  intros v rest. destruct s as [|c s]; [done|]. unfold scan_integer. destruct (c ≡c "0"); [intros [= _ <-]; simpl; lia|].
  destruct (is_digit c) eqn:Hc; [|done]. intros [= H]. simpl in H. rewrite Hc in H. pose proof (span_digits_length s) as Hl.
  destruct (span_digits s) as [d r]. injection H as <- <-. simpl in *. lia.
Qed.
Lemma scan_fraction_length s : no_longer s (scan_fraction s).
Proof.
  intros v rest. destruct s as [|c s]; simpl; [by intros [= _ <-]|]. destruct (c ≡c "."); [|by intros [= _ <-]].
  pose proof (span_digits_length s). destruct (span_digits s) as [[|d ds] r]; [done|]. intros [= _ <-]. simpl in *. lia.
Qed.
Lemma scan_exponent_length s : no_longer s (scan_exponent s).
Proof.
  intros v rest. destruct s as [|c s]; simpl; [by intros [= _ <-]|]. destruct (mem c "eE"); [|by intros [= _ <-]].
  set (p := match s with d :: s'' => if mem d "+-" then ([d], s'') else ([], s) | [] => ([], []) end).
  assert (Hp : (length p.2 ≤ length s)%nat) by (unfold p; destruct s as [|d s]; simpl; [done|]; destruct (mem d "+-"); simpl; lia).
  destruct p as [sign digits]. simpl in Hp. pose proof (span_digits_length digits).
  destruct (span_digits digits) as [[|d ds] r]; [done|]. intros [= _ <-]. simpl in *. lia.
Qed.
Lemma scan_number_shorter s : shorter s (scan_number s).
Proof.
  intros v rest. unfold scan_number. pose proof (scan_sign_length s). destruct (scan_sign s) as [sign s1]. simpl in *.
  destruct (scan_integer s1) as [[i s2]|] eqn:E1; simpl; [|done]. apply scan_integer_shorter in E1.
  destruct (scan_fraction s2) as [[f s3]|] eqn:E2; simpl; [|done]. apply scan_fraction_length in E2.
  destruct (scan_exponent s3) as [[e s4]|] eqn:E3; simpl; [|done]. apply scan_exponent_length in E3. intros [= _ <-]. lia.
Qed.
Lemma has_prefix_length s p : has_prefix s p = true → (length p ≤ length s)%nat.
Proof.
  revert s. induction p as [|c p IH]; intros s H; [simpl; lia|]. destruct s as [|d s]; [done|].
  simpl in *. apply andb_true_iff in H as [_ H]. specialize (IH _ H). lia.
Qed.
Lemma scan_literal_shorter s : shorter s (scan_literal s).
Proof.
  intros v rest. unfold scan_literal.
  destruct (has_prefix s (b "null")) eqn:E1; [apply has_prefix_length in E1; intros [= _ <-]; rewrite length_skipn; simpl in *; lia|].
  destruct (has_prefix s (b "true")) eqn:E2; [apply has_prefix_length in E2; intros [= _ <-]; rewrite length_skipn; simpl in *; lia|].
  destruct (has_prefix s (b "false")) eqn:E3; [apply has_prefix_length in E3; intros [= _ <-]; rewrite length_skipn; simpl in *; lia|].
  destruct (scan_number s) as [[l r]|] eqn:E; simpl; [|done]. intros [= _ <-]. by apply scan_number_shorter in E.
Qed.

(** ** Fuel *)

(** The next scanner call of the goal, and what it consumed. *)
Ltac scan_step :=
  lazymatch goal with
  | |- context [mbind _ (next_byte ?s)] => let E := fresh "E" in let c := fresh "c" in let r := fresh "rest" in destruct (next_byte s) as [[c r]|] eqn:E; [apply next_byte_shorter in E|]; simpl
  | |- context [mbind _ (scan_string ?s)] => let E := fresh "E" in let c := fresh "c" in let r := fresh "rest" in destruct (scan_string s) as [[c r]|] eqn:E; [apply scan_string_shorter in E|]; simpl
  end.

(** One level of the three functions, for any fuel. *)
Lemma parse_value_S fuel depth s : parse_value (S fuel) depth s =
  ('(c, rest) ← next_byte s;
   if c ≡c quote then '(v, rest) ← scan_string rest; Some (JString v, rest)
   else if c ≡c "{" then
     if maxNestingDepth <=? depth then None
     else '(d, after) ← next_byte rest;
          if d ≡c "}" then Some (JObject [], after) else '(members, rest) ← parse_members fuel (depth + 1) rest; Some (JObject members, rest)
   else if c ≡c "[" then
     if maxNestingDepth <=? depth then None
     else '(d, after) ← next_byte rest;
          if d ≡c "]" then Some (JArray [], after) else '(items, rest) ← parse_items fuel (depth + 1) rest; Some (JArray items, rest)
   else scan_literal (c :: rest)).
Proof. done. Qed.
Lemma parse_members_S fuel depth s : parse_members (S fuel) depth s =
  ('(c, rest) ← next_byte s;
   if negb (c ≡c quote) then None
   else
     '(name, rest) ← scan_string rest;
     '(colon, rest) ← next_byte rest;
     if negb (colon ≡c ":") then None
     else
       '(v, rest) ← parse_value fuel depth rest;
       '(d, rest) ← next_byte rest;
       if d ≡c "}" then Some ([(name, v)], rest)
       else if d ≡c "," then '(members, rest) ← parse_members fuel depth rest; Some ((name, v) :: members, rest)
       else None).
Proof. done. Qed.
Lemma parse_items_S fuel depth s : parse_items (S fuel) depth s =
  ('(v, rest) ← parse_value fuel depth s;
   '(d, rest) ← next_byte rest;
   if d ≡c "]" then Some ([v], rest)
   else if d ≡c "," then '(items, rest) ← parse_items fuel depth rest; Some (v :: items, rest)
   else None).
Proof. done. Qed.

#[local] Arguments parse_value : simpl never.
#[local] Arguments parse_members : simpl never.
#[local] Arguments parse_items : simpl never.
Lemma parse_shorter fuel : ∀ depth s,
  shorter s (parse_value fuel depth s) ∧ shorter s (parse_members fuel depth s) ∧ shorter s (parse_items fuel depth s).
Proof.
  induction fuel as [|fuel IH]; intros depth s; [done|].
  rewrite parse_value_S, parse_members_S, parse_items_S.
  assert (Hv : ∀ d t, shorter t (parse_value fuel d t)) by (intros d t; apply IH).
  assert (Hm : ∀ d t, shorter t (parse_members fuel d t)) by (intros d t; apply IH).
  assert (Hi : ∀ d t, shorter t (parse_items fuel d t)) by (intros d t; apply IH).
  split_and!; intros v rest.
  - scan_step; [|done]. destruct (_ ≡c quote).
    { scan_step; [|done]. intros [= _ <-]. lia. }
    destruct (_ ≡c "{").
    { destruct (maxNestingDepth <=? depth); [done|]. scan_step; [|done]. destruct (_ ≡c "}"); [intros [= _ <-]; lia|].
      destruct (parse_members _ _ _) as [[ms r]|] eqn:Er; simpl; [|done]. apply Hm in Er. intros [= _ <-]. lia. }
    destruct (_ ≡c "[").
    { destruct (maxNestingDepth <=? depth); [done|]. scan_step; [|done]. destruct (_ ≡c "]"); [intros [= _ <-]; lia|].
      destruct (parse_items _ _ _) as [[ms r]|] eqn:Er; simpl; [|done]. apply Hi in Er. intros [= _ <-]. lia. }
    intros H%scan_literal_shorter. simpl in H. lia.
  - scan_step; [|done]. destruct (negb _); [done|]. scan_step; [|done]. scan_step; [|done]. destruct (negb _); [done|].
    destruct (parse_value _ _ _) as [[x r]|] eqn:Er; simpl; [|done]. apply Hv in Er. scan_step; [|done].
    destruct (_ ≡c "}"); [intros [= _ <-]; lia|]. destruct (_ ≡c ","); [|done].
    destruct (parse_members _ _ _) as [[ms r']|] eqn:Er'; simpl; [|done]. apply Hm in Er'. intros [= _ <-]. lia.
  - destruct (parse_value _ _ _) as [[x r]|] eqn:Er; simpl; [|done]. apply Hv in Er. scan_step; [|done].
    destruct (_ ≡c "]"); [intros [= _ <-]; lia|]. destruct (_ ≡c ","); [|done].
    destruct (parse_items _ _ _) as [[ms r']|] eqn:Er'; simpl; [|done]. apply Hi in Er'. intros [= _ <-]. lia.
Qed.
Lemma parse_value_shorter fuel depth s : shorter s (parse_value fuel depth s).
Proof. apply parse_shorter. Qed.

(** Two amounts of fuel, both enough for the bytes left, give the same answer. *)
Lemma parse_agree n : ∀ s, (length s ≤ n)%nat → ∀ f f' depth,
  ((2 * length s + 1 ≤ f)%nat → (2 * length s + 1 ≤ f')%nat → parse_value f depth s = parse_value f' depth s) ∧
  ((2 * length s + 2 ≤ f)%nat → (2 * length s + 2 ≤ f')%nat →
     parse_members f depth s = parse_members f' depth s ∧ parse_items f depth s = parse_items f' depth s).
Proof.
  induction n as [n IH] using lt_wf_ind. intros s Hs.
  assert (Hrec : ∀ t, (length t < length s)%nat → ∀ f f' depth,
    ((2 * length t + 1 ≤ f)%nat → (2 * length t + 1 ≤ f')%nat → parse_value f depth t = parse_value f' depth t) ∧
    ((2 * length t + 2 ≤ f)%nat → (2 * length t + 2 ≤ f')%nat →
       parse_members f depth t = parse_members f' depth t ∧ parse_items f depth t = parse_items f' depth t)).
  { intros t Ht. apply (IH (length t)); lia. }
  assert (Hv : ∀ f f' depth, (2 * length s + 1 ≤ f)%nat → (2 * length s + 1 ≤ f')%nat → parse_value f depth s = parse_value f' depth s).
  { intros [|f] [|f'] depth Hf Hf'; [lia..|]. rewrite !parse_value_S. scan_step; [|done].
    destruct (_ ≡c quote); [done|]. destruct (_ ≡c "{").
    { destruct (maxNestingDepth <=? depth); [done|]. scan_step; [|done]. destruct (_ ≡c "}"); [done|].
      destruct (Hrec rest) with (f := f) (f' := f') (depth := depth + 1) as [_ [-> _]]; [lia..|done]. }
    destruct (_ ≡c "["); [|done]. destruct (maxNestingDepth <=? depth); [done|]. scan_step; [|done]. destruct (_ ≡c "]"); [done|].
    destruct (Hrec rest) with (f := f) (f' := f') (depth := depth + 1) as [_ [_ ->]]; [lia..|done]. }
  intros f f' depth. split; [apply Hv|]. intros Hf Hf'. destruct f as [|f], f' as [|f']; [lia..|]. split.
  - rewrite !parse_members_S. scan_step; [|done]. destruct (negb _); [done|]. scan_step; [|done]. scan_step; [|done].
    destruct (negb _); [done|]. rewrite (proj1 (Hrec rest1 ltac:(lia) f f' depth)) by lia.
    destruct (parse_value _ _ _) as [[x r]|] eqn:Er; simpl; [|done]. apply parse_value_shorter in Er. scan_step; [|done].
    destruct (_ ≡c "}"); [done|]. destruct (_ ≡c ","); [|done].
    destruct (Hrec rest2) with (f := f) (f' := f') (depth := depth) as [_ [-> _]]; [lia..|done].
  - rewrite !parse_items_S, (Hv f f' depth) by lia.
    destruct (parse_value _ _ _) as [[x r]|] eqn:Er; simpl; [|done]. apply parse_value_shorter in Er. scan_step; [|done].
    destruct (_ ≡c "]"); [done|]. destruct (_ ≡c ","); [|done].
    destruct (Hrec rest) with (f := f) (f' := f') (depth := depth) as [_ [_ ->]]; [lia..|done].
Qed.
(** The fuel of [parse_document] is enough: no larger one changes its answer. *)
Lemma parse_fuel_enough fuel depth s : (parse_fuel s ≤ fuel)%nat → parse_value fuel depth s = parse_value (parse_fuel s) depth s.
Proof. intros Hf. unfold parse_fuel in *. destruct (parse_agree (length s) s) with (f := fuel) (f' := parse_fuel s) (depth := depth) as [H _]; [done|]. unfold parse_fuel in *. apply H; lia. Qed.

Lemma parse_monotone fuel : ∀ depth s,
  (∀ x, parse_value fuel depth s = Some x → parse_value (S fuel) depth s = Some x) ∧
  (∀ x, parse_members fuel depth s = Some x → parse_members (S fuel) depth s = Some x) ∧
  (∀ x, parse_items fuel depth s = Some x → parse_items (S fuel) depth s = Some x).
Proof.
  induction fuel as [|fuel IH]; intros depth s; [done|].
  assert (Hv : ∀ d t x, parse_value fuel d t = Some x → parse_value (S fuel) d t = Some x) by (intros d t; apply IH).
  assert (Hm : ∀ d t x, parse_members fuel d t = Some x → parse_members (S fuel) d t = Some x) by (intros d t; apply IH).
  assert (Hi : ∀ d t x, parse_items fuel d t = Some x → parse_items (S fuel) d t = Some x) by (intros d t; apply IH).
  split_and!; intros x; [rewrite (parse_value_S fuel), (parse_value_S (S fuel))|rewrite (parse_members_S fuel), (parse_members_S (S fuel))
                        |rewrite (parse_items_S fuel), (parse_items_S (S fuel))].
  - scan_step; [|done]. destruct (_ ≡c quote); [done|]. destruct (_ ≡c "{").
    { destruct (maxNestingDepth <=? depth); [done|]. scan_step; [|done]. destruct (_ ≡c "}"); [done|].
      destruct (parse_members fuel _ _) as [y|] eqn:Er; [|done]. by rewrite (Hm _ _ _ Er). }
    destruct (_ ≡c "["); [|done]. destruct (maxNestingDepth <=? depth); [done|]. scan_step; [|done]. destruct (_ ≡c "]"); [done|].
    destruct (parse_items fuel _ _) as [y|] eqn:Er; [|done]. by rewrite (Hi _ _ _ Er).
  - scan_step; [|done]. destruct (negb _); [done|]. scan_step; [|done]. scan_step; [|done]. destruct (negb _); [done|].
    destruct (parse_value fuel _ _) as [[y r]|] eqn:Er; [|done]. rewrite (Hv _ _ _ Er). simpl. scan_step; [|done].
    destruct (_ ≡c "}"); [done|]. destruct (_ ≡c ","); [|done].
    destruct (parse_members fuel _ _) as [z|] eqn:Er'; [|done]. by rewrite (Hm _ _ _ Er').
  - destruct (parse_value fuel _ _) as [[y r]|] eqn:Er; [|done]. rewrite (Hv _ _ _ Er). simpl. scan_step; [|done].
    destruct (_ ≡c "]"); [done|]. destruct (_ ≡c ","); [|done].
    destruct (parse_items fuel _ _) as [z|] eqn:Er'; [|done]. by rewrite (Hi _ _ _ Er').
Qed.

(** ** Printing *)

(** What [json.Marshal] writes for a value: literals, strings as [json_string]
    writes them, and items and members separated by commas. *)
Fixpoint comma_separated (parts : list bytes) : bytes :=
  match parts with [] => [] | [p] => p | p :: rest => p ++ ","%char :: comma_separated rest end.
Fixpoint json_print (j : json) : bytes :=
  match j with
  | JNull => b "null"
  | JBool v => b (if v then "true" else "false")
  | JNumber literal => literal
  | JString v => json_string v
  | JArray items => "["%char :: comma_separated (map json_print items) ++ ["]"%char]
  | JObject members => "{"%char :: comma_separated (map (λ m, json_string m.1 ++ ":"%char :: json_print m.2) members) ++ ["}"%char]
  end.
(** The values a Go program can hold: valid numbers and strings of valid UTF-8. *)
Fixpoint printable (j : json) : bool :=
  match j with
  | JNumber literal => match scan_number literal with Some (l, []) => bytes_eqb l literal | _ => false end
  | JString v => valid_utf8 v
  | JArray items => forallb printable items
  | JObject members => forallb (λ m, valid_utf8 m.1 && printable m.2) members
  | _ => true
  end.
Fixpoint json_depth (j : json) : Z :=
  match j with
  | JArray items => 1 + fold_right (λ i d, Z.max (json_depth i) d) 0 items
  | JObject members => 1 + fold_right (λ m d, Z.max (json_depth m.2) d) 0 members
  | _ => 0
  end.

Definition json_induction (P : json → Prop) (Hnull : P JNull) (Hbool : ∀ v, P (JBool v)) (Hnumber : ∀ l, P (JNumber l))
    (Hstring : ∀ v, P (JString v)) (Harray : ∀ items, Forall P items → P (JArray items))
    (Hobject : ∀ members, Forall (λ m, P m.2) members → P (JObject members)) : ∀ j, P j :=
  fix F (j : json) : P j :=
    match j with
    | JNull => Hnull
    | JBool v => Hbool v
    | JNumber l => Hnumber l
    | JString v => Hstring v
    | JArray items => Harray items ((fix G (l : list json) : Forall P l :=
        match l with [] => @List.Forall_nil _ _ | x :: l => @List.Forall_cons _ P x l (F x) (G l) end) items)
    | JObject members => Hobject members ((fix G (l : list (bytes * json)) : Forall (λ m, P m.2) l :=
        match l with [] => @List.Forall_nil _ _ | m :: l => @List.Forall_cons _ (λ m, P m.2) m l (F m.2) (G l) end) members)
    end.

(** What may follow a value: nothing, or a byte that continues no number. *)
Definition delimited (rest : bytes) : Prop := match rest with [] => True | c :: _ => mem c ",]}" = true end.
Lemma delimited_cases c : mem c ",]}" = true → c = ","%char ∨ c = "]"%char ∨ c = "}"%char.
Proof. unfold mem. simpl. unfold char_eqb. rewrite !orb_true_iff, !Ascii.eqb_eq. intros [?|[?|[?|?]]]; auto; done. Qed.

Lemma to_valid_utf8_valid s : valid_utf8 s = true → to_valid_utf8 s = s.
Proof.
  induction s as [|c0 s IH] using list_ind3; [done|]. cbn [valid_utf8 to_valid_utf8].
  destruct (byte c0 <? 0x80); [intros H; f_equal; by apply IH|].
  destruct s as [|c1 s]; [done|]. unfold two_byte_rune.
  destruct ((0xC2 <=? byte c0) && (byte c0 <=? 0xDF)); simpl.
  { intros [-> H]%andb_true_iff. do 2 f_equal. apply IH; [suffix_tail|done]. }
  destruct s as [|c2 s]; [done|]. unfold three_byte_rune.
  destruct ((0xE0 <=? byte c0) && (byte c0 <=? 0xEF)); simpl.
  { intros H. rewrite !andb_true_iff in H. destruct H as ((((-> & ->) & ->) & ->) & H). simpl. do 3 f_equal. apply IH; [suffix_tail|done]. }
  destruct s as [|c3 s]; [done|]. unfold four_byte_rune. intros H. rewrite !andb_true_iff in H.
  destruct H as (((((((-> & ->) & ->) & ->) & ->) & ->) & ->) & H). simpl. do 4 f_equal. apply IH; [suffix_tail|done].
Qed.
Lemma scan_string_print v rest : valid_utf8 v = true → scan_string (json_encode v ++ quote :: rest) = Some (v, rest).
Proof. intros Hv. unfold scan_string. by rewrite json_body_encode, to_valid_utf8_valid. Qed.

(** Numbers, whatever delimiter follows. *)
Lemma delimited_digit rest : delimited rest → match rest with c :: _ => is_digit c = false | [] => True end.
Proof. destruct rest as [|c rest]; [done|]. by intros [ ->|[ ->| ->]]%delimited_cases. Qed.
Lemma span_digits_app s rest : delimited rest → span_digits (s ++ rest) = ((span_digits s).1, (span_digits s).2 ++ rest).
Proof.
  intros Hd%delimited_digit. induction s as [|c s IH].
  - destruct rest as [|c rest]; [done|]. simpl. by rewrite Hd.
  - simpl. destruct (is_digit c); [|done]. rewrite IH. by destruct (span_digits s).
Qed.
Lemma scan_integer_app s v r rest : delimited rest → scan_integer s = Some (v, r) → scan_integer (s ++ rest) = Some (v, r ++ rest).
Proof.
  intros Hd. destruct s as [|c s]; [done|]. unfold scan_integer. simpl app. cbv iota.
  destruct (c ≡c "0"); [by intros [= <- <-]|]. destruct (is_digit c) eqn:Hc; [|done].
  intros [= H]. change (c :: s ++ rest) with ((c :: s) ++ rest). rewrite span_digits_app by done.
  change (span_digits (c :: s) = (v, r)) in H. by rewrite H.
Qed.
Lemma scan_fraction_app s v r rest : delimited rest → scan_fraction s = Some (v, r) → scan_fraction (s ++ rest) = Some (v, r ++ rest).
Proof.
  intros Hd. destruct s as [|c s].
  - intros [= <- <-]. destruct rest as [|c rest]; [done|]. by apply delimited_cases in Hd as [ ->|[ ->| ->]].
  - simpl. destruct (c ≡c "."); [|by intros [= <- <-]]. rewrite span_digits_app by done.
    destruct (span_digits s) as [[|d ds] r']; [done|]. by intros [= <- <-].
Qed.
Lemma scan_exponent_app s v r rest : delimited rest → scan_exponent s = Some (v, r) → scan_exponent (s ++ rest) = Some (v, r ++ rest).
Proof.
  intros Hd. destruct s as [|c s].
  - intros [= <- <-]. destruct rest as [|c rest]; [done|]. by apply delimited_cases in Hd as [ ->|[ ->| ->]].
  - simpl. destruct (mem c "eE"); [|by intros [= <- <-]]. destruct s as [|d s]; [done|]. simpl app. cbn iota.
    destruct (mem d "+-"); [|change (d :: s ++ rest) with ((d :: s) ++ rest)]; rewrite span_digits_app by done.
    + destruct (span_digits s) as [[|e es] r']; [done|]. by intros [= <- <-].
    + destruct (span_digits (d :: s)) as [[|e es] r'] eqn:E; rewrite ?E; [done|]. cbn [fst snd]. by intros [= <- <-].
Qed.
Lemma scan_number_app s v r rest : delimited rest → scan_number s = Some (v, r) → scan_number (s ++ rest) = Some (v, r ++ rest).
Proof.
  intros Hd. destruct s as [|c s]; [done|]. unfold scan_number.
  assert (Hs : scan_sign ((c :: s) ++ rest) = ((scan_sign (c :: s)).1, (scan_sign (c :: s)).2 ++ rest)) by (simpl; by destruct (c ≡c "-")).
  rewrite Hs. destruct (scan_sign (c :: s)) as [sign s1]. cbn [fst snd].
  destruct (scan_integer s1) as [[i s2]|] eqn:E1; [|done]. rewrite (scan_integer_app _ _ _ _ Hd E1). simpl.
  destruct (scan_fraction s2) as [[f s3]|] eqn:E2; [|done]. rewrite (scan_fraction_app _ _ _ _ Hd E2). simpl.
  destruct (scan_exponent s3) as [[e s4]|] eqn:E3; [|done]. rewrite (scan_exponent_app _ _ _ _ Hd E3). simpl. by intros [= <- <-].
Qed.
(** A number starts with a digit or a minus sign. *)
Lemma scan_number_head s v r : scan_number s = Some (v, r) → ∃ c t, s = c :: t ∧ (is_digit c || (c ≡c "-")) = true.
Proof.
  destruct s as [|c t]; [done|]. intros H. exists c, t. split; [done|]. unfold scan_number, scan_sign in H.
  destruct (c ≡c "-") eqn:Hc; [by rewrite orb_true_r|]. rewrite orb_false_r. unfold scan_integer in H. simpl in H.
  destruct (c ≡c "0") eqn:H0; [|by destruct (is_digit c)]. apply Ascii.eqb_eq in H0 as ->. done.
Qed.
Lemma number_head_plain c t : (is_digit c || (c ≡c "-")) = true →
  next_byte (c :: t) = Some (c, t) ∧ (c ≡c quote) = false ∧ (c ≡c "{") = false ∧ (c ≡c "[") = false ∧
  scan_literal (c :: t) = ('(literal, rest) ← scan_number (c :: t); Some (JNumber literal, rest)).
Proof. by destruct c as [[] [] [] [] [] [] [] []]. Qed.
Lemma scan_literal_number s l rest : scan_number s = Some (l, []) → delimited rest → ∀ fuel depth,
  parse_value (S fuel) depth (s ++ rest) = Some (JNumber l, rest).
Proof.
  intros Hn Hd fuel depth. destruct (scan_number_head _ _ _ Hn) as (c & t & -> & Hc).
  pose proof (scan_number_app _ _ _ _ Hd Hn) as Ha. simpl in Ha. rewrite parse_value_S. simpl app.
  destruct (number_head_plain c (t ++ rest) Hc) as (-> & H1 & H2 & H3 & H4). simpl. by rewrite H1, H2, H3, H4, Ha.
Qed.

(** ** Reading back what was printed *)

Section Print.
(** Some amount of fuel reads the value back. *)
Definition reads_value (depth : Z) (j : json) : Prop :=
  ∀ rest, delimited rest → ∃ fuel, parse_value fuel depth (json_print j ++ rest) = Some (j, rest).

Lemma parse_value_more depth s x f f' : parse_value f depth s = Some x → (f ≤ f')%nat → parse_value f' depth s = Some x.
Proof. intros Hf. induction 1; [done|]. by apply parse_monotone. Qed.
Lemma parse_members_more depth s x f f' : parse_members f depth s = Some x → (f ≤ f')%nat → parse_members f' depth s = Some x.
Proof. intros Hf. induction 1; [done|]. by apply parse_monotone. Qed.
Lemma parse_items_more depth s x f f' : parse_items f depth s = Some x → (f ≤ f')%nat → parse_items f' depth s = Some x.
Proof. intros Hf. induction 1; [done|]. by apply parse_monotone. Qed.

Lemma next_byte_plain c t : json_space c = false → next_byte (c :: t) = Some (c, t).
Proof. intros Hc. unfold next_byte. cbn [skip_space]. by rewrite Hc. Qed.
Lemma reads_items depth items rest : items ≠ [] → Forall (reads_value depth) items →
  ∃ fuel, parse_items fuel depth (comma_separated (map json_print items) ++ "]"%char :: rest) = Some (items, rest).
Proof.
  intros Hne Hall. induction Hall as [|j items Hj Hall IH]; [done|]. destruct items as [|k items].
  - destruct (Hj ("]"%char :: rest)) as [f Hf]; [done|]. exists (S f). rewrite parse_items_S. simpl. by rewrite Hf.
  - destruct IH as [f Hf]; [done|]. change (comma_separated (map json_print (j :: k :: items))) with
      (json_print j ++ ","%char :: comma_separated (map json_print (k :: items))). rewrite <- app_assoc. cbn [app].
    destruct (Hj (","%char :: comma_separated (map json_print (k :: items)) ++ "]"%char :: rest)) as [g Hg]; [done|].
    exists (S (f + g)). rewrite parse_items_S.
    rewrite (parse_value_more _ _ _ _ (f + g) Hg) by lia. cbn [mbind option_bind]. rewrite next_byte_plain by done.
    cbn [mbind option_bind]. change (","%char ≡c "]"%char) with false. change (","%char ≡c ","%char) with true. cbv iota. by rewrite (parse_items_more _ _ _ _ (f + g) Hf) by lia.
Qed.

Definition print_member (m : bytes * json) : bytes := json_string m.1 ++ ":"%char :: json_print m.2.
Lemma parse_member_print fuel depth m rest : valid_utf8 m.1 = true → delimited rest →
  parse_value fuel depth (json_print m.2 ++ rest) = Some (m.2, rest) →
  parse_members (S fuel) depth (print_member m ++ rest) =
    ('(d, rest) ← next_byte rest;
     if d ≡c "}" then Some ([m], rest)
     else if d ≡c "," then '(members, rest) ← parse_members fuel depth rest; Some (m :: members, rest)
     else None).
Proof.
  intros Hm Hd Hf. rewrite parse_members_S. unfold print_member, json_string. cbn [app]. rewrite <- !app_assoc. cbn [app].
  rewrite next_byte_plain by done. cbn [mbind option_bind]. change (quote ≡c quote) with true. cbn [negb].
  rewrite scan_string_print by done. cbn [mbind option_bind]. rewrite next_byte_plain by done. cbn [mbind option_bind].
  change (":"%char ≡c ":"%char) with true. cbn [negb]. rewrite Hf. by destruct m.
Qed.
Lemma reads_members depth members rest : members ≠ [] → Forall (λ m, valid_utf8 m.1 = true ∧ reads_value depth m.2) members →
  ∃ fuel, parse_members fuel depth (comma_separated (map print_member members) ++ "}"%char :: rest) = Some (members, rest).
Proof.
  intros Hne Hall. induction Hall as [|m members [Hm Hj] Hall IH]; [done|]. destruct members as [|k members].
  - destruct (Hj ("}"%char :: rest)) as [f Hf]; [done|]. exists (S f). cbn [map comma_separated]. by rewrite parse_member_print.
  - destruct IH as [f Hf]; [done|]. change (comma_separated (map print_member (m :: k :: members))) with
      (print_member m ++ ","%char :: comma_separated (map print_member (k :: members))). rewrite <- app_assoc. cbn [app].
    destruct (Hj (","%char :: comma_separated (map print_member (k :: members)) ++ "}"%char :: rest)) as [g Hg]; [done|].
    exists (S (f + g)). rewrite parse_member_print; [|done|done|apply (parse_value_more _ _ _ _ _ Hg); lia].
    rewrite next_byte_plain by done. cbn [mbind option_bind].
    change (","%char ≡c "}"%char) with false. change (","%char ≡c ","%char) with true. cbv iota. by rewrite (parse_members_more _ _ _ _ (f + g) Hf) by lia.
Qed.

Lemma print_head j : printable j = true → ∃ c t, json_print j = c :: t ∧ json_space c = false ∧ (c ≡c "]") = false.
Proof.
  destruct j as [|[]|l|v|items|members]; intros Hp; try (by do 2 eexists). cbn [printable json_print] in *.
  destruct (scan_number l) as [[l' []]|] eqn:E; [|done..]. destruct (scan_number_head _ _ _ E) as (c & t & -> & Hc).
  exists c, t. split; [done|]. by destruct c as [[] [] [] [] [] [] [] []].
Qed.
Lemma reads_literal j rest : (j = JNull ∨ ∃ v, j = JBool v) → scan_literal (json_print j ++ rest) = Some (j, rest).
Proof. unfold scan_literal. intros [->|[[] ->]]; cbn [json_print]; by rewrite has_prefix_app. Qed.

Lemma fold_max_nonneg {A} (f : A → Z) l : 0 ≤ fold_right (λ i d, Z.max (f i) d) 0 l.
Proof. induction l; simpl; lia. Qed.
Lemma fold_max_le {A} (f : A → Z) l n x : fold_right (λ i d, Z.max (f i) d) 0 l ≤ n → x ∈ l → f x ≤ n.
Proof. intros Hl Hx. induction Hx; simpl in Hl; [lia|]. apply IHHx. lia. Qed.
(** The bytes between the brackets of a list that is not empty. *)
Lemma comma_head {A} (f : A → bytes) x l c t rest : f x = c :: t → ∃ t', comma_separated (map f (x :: l)) ++ rest = c :: t'.
Proof. intros Hx. destruct l as [|y l]; cbn [map comma_separated]; rewrite Hx; by eexists. Qed.

Lemma open_bracket fuel depth items rest : items ≠ [] → forallb printable items = true → depth < maxNestingDepth →
  parse_items fuel (depth + 1) (comma_separated (map json_print items) ++ "]"%char :: rest) = Some (items, rest) →
  parse_value (S fuel) depth ("["%char :: comma_separated (map json_print items) ++ "]"%char :: rest) = Some (JArray items, rest).
Proof.
  intros Hne Hp Hd Hf. rewrite parse_value_S, next_byte_plain by done. cbn [mbind option_bind].
  change ("["%char ≡c quote) with false. change ("["%char ≡c "{"%char) with false. change ("["%char ≡c "["%char) with true. cbv iota.
  rewrite (proj2 (Z.leb_gt _ _) Hd). destruct items as [|i items]; [done|]. cbn [forallb] in Hp. apply andb_true_iff in Hp as [Hi _].
  destruct (print_head i Hi) as (c & t & Hc & Hs & Hb).
  destruct (comma_head json_print i items c t ("]"%char :: rest) Hc) as [t' Ht]. rewrite Ht in Hf |- *.
  rewrite next_byte_plain by done. cbn [mbind option_bind]. rewrite Hb. by rewrite Hf.
Qed.
Lemma open_brace fuel depth members rest : members ≠ [] → depth < maxNestingDepth →
  parse_members fuel (depth + 1) (comma_separated (map print_member members) ++ "}"%char :: rest) = Some (members, rest) →
  parse_value (S fuel) depth ("{"%char :: comma_separated (map print_member members) ++ "}"%char :: rest) = Some (JObject members, rest).
Proof.
  intros Hne Hd Hf. rewrite parse_value_S, next_byte_plain by done. cbn [mbind option_bind].
  change ("{"%char ≡c quote) with false. change ("{"%char ≡c "{"%char) with true. cbv iota.
  rewrite (proj2 (Z.leb_gt _ _) Hd). destruct members as [|m members]; [done|].
  destruct (comma_head print_member m members quote (json_encode m.1 ++ [quote] ++ ":"%char :: json_print m.2) ("}"%char :: rest)) as [t' Ht].
  { unfold print_member, json_string. cbn [app]. by rewrite <- app_assoc. }
  rewrite Ht in Hf |- *. rewrite next_byte_plain by done. cbn [mbind option_bind]. change (quote ≡c "}"%char) with false. cbv iota. by rewrite Hf.
Qed.

Lemma reads_back j : ∀ depth, printable j = true → 0 ≤ depth → depth + json_depth j ≤ maxNestingDepth → reads_value depth j.
Proof.
  induction j as [|v|l|v|items IH|members IH] using json_induction; intros depth Hp H0 Hdep rest Hrest.
  - exists 1%nat. rewrite parse_value_S. apply (reads_literal JNull). by left.
  - exists 1%nat. rewrite parse_value_S. destruct v; [apply (reads_literal (JBool true))|apply (reads_literal (JBool false))]; right; by eexists.
  - cbn [printable] in Hp. destruct (scan_number l) as [[l' []]|] eqn:E; [|done..]. apply bytes_eqb_eq in Hp as ->.
    exists 1%nat. by apply scan_literal_number.
  - exists 1%nat. rewrite parse_value_S. cbn [json_print]. unfold json_string. cbn [app]. rewrite <- app_assoc. cbn [app].
    rewrite next_byte_plain by done. cbn [mbind option_bind]. change (quote ≡c quote) with true. cbv iota. by rewrite scan_string_print.
  - cbn [printable json_depth json_print] in *. pose proof (fold_max_nonneg json_depth items). cbn [app]. rewrite <- app_assoc.
    destruct (decide (items = [])) as [->|Hne]; [exists 1%nat; rewrite parse_value_S; cbn; by rewrite (proj2 (Z.leb_gt _ _)) by lia|].
    destruct (reads_items (depth + 1) items rest Hne) as [f Hf].
    { rewrite List.Forall_forall in IH |- *. intros i Hi. rewrite forallb_forall in Hp. apply IH; [done|by apply Hp|lia|].
      assert (json_depth i ≤ maxNestingDepth - depth - 1); [|lia]. apply (fold_max_le _ items); [lia|by apply list_elem_of_In]. }
    exists (S f). apply open_bracket; [done|done|lia|done].
  - cbn [printable json_depth json_print] in *. pose proof (fold_max_nonneg (λ m : bytes * json, json_depth m.2) members).
    change (λ m : bytes * json, json_string m.1 ++ ":"%char :: json_print m.2) with print_member. cbn [app]. rewrite <- app_assoc.
    destruct (decide (members = [])) as [->|Hne]; [exists 1%nat; rewrite parse_value_S; cbn; by rewrite (proj2 (Z.leb_gt _ _)) by lia|].
    destruct (reads_members (depth + 1) members rest Hne) as [f Hf].
    { rewrite List.Forall_forall in IH |- *. intros m Hm. rewrite forallb_forall in Hp. destruct (andb_prop _ _ (Hp m Hm)) as [Hm1 Hm2].
      split; [done|]. apply IH; [done|done|lia|]. assert (json_depth m.2 ≤ maxNestingDepth - depth - 1); [|lia].
      apply (fold_max_le (λ m, json_depth m.2) members); [lia|by apply list_elem_of_In]. }
    exists (S f). apply open_brace; [done|lia|done].
Qed.
End Print.

(** Every printable value within the nesting limit is read back from its bytes. *)
Lemma parse_print j : printable j = true → json_depth j ≤ maxNestingDepth → parse_document (json_print j) = Some j.
Proof.
  intros Hp Hd. destruct (reads_back j 0 Hp) with (rest := @nil ascii) as [f Hf]; [lia|lia|done|]. rewrite app_nil_r in Hf.
  unfold parse_document. rewrite <- (parse_fuel_enough (f + parse_fuel (json_print j))) by lia.
  rewrite (parse_value_more _ _ _ _ (f + parse_fuel (json_print j)) Hf) by lia. done.
Qed.
