(* ===== verification/Vocabulary.v ===== *)
(** * Vocabulary: errors, closed vocabularies, private tokens and policy constants

    The sentinel errors of [internal/storage], [internal/pruning] and
    [internal/reachability]; the version 1 protocol vocabulary
    ([internal/protocol/v1/vocabulary.go]); the state and outcome strings and the
    operator/reason/label grammars of [internal/storage].  Go's string types stay
    strings, as the columns they are scanned from can hold anything. *)
From S2P Require Import Prelude.
From Stdlib Require Import Ascii.
Local Open Scope string_scope.
Local Open Scope Z_scope.
Local Open Scope go_scope.

(** ** Errors *)

Inductive error :=
| ErrRepositoryConfiguration | ErrTransitionInput | ErrTransitionTime | ErrRelayAbsent
| ErrRelaySuspended | ErrEnrollmentClosed
| ErrWriteAdmissionHard | ErrWriteAdmissionDenied
| ErrHealthReadInput | ErrHealthTime | ErrAdministrativeReadInput
| ErrPruningReadInput
| ErrReachabilityReadInput | ErrReachabilityWriteInput
| ErrRetentionReadInput | ErrRetentionWriteInput
| ErrDirectoryProjectionInput | ErrDirectoryProjectionData
| ErrDiscoveryReadInput | ErrObservationAbsent | ErrObservationInput | ErrObservationTime
| ErrObservationConflict | ErrTelemetryInput
| ErrProfileInput | ErrProfileAbsent | ErrProfileTime
| ErrReplayStore | ErrReplayStoreFull
| ErrDiscoveryCandidateInput | ErrDiscoveryCandidateTime
| ErrDiscoveryCandidateMaintenanceRead | ErrDiscoveryCandidateMaintenanceWrite
| ErrGrowthConfiguration | ErrGrowthSample
| ErrRunnerConfiguration      (* ErrConfiguration of a maintenance runner *)
| ErrContext                  (* ctx.Err() *)
| ErrBackend                  (* an error of the database driver *)
| ErrConstraint               (* a CHECK, key or trigger of the schema aborted a statement *)
| ErrInvalidState             (* errors.New("invalid ...") on retained state *)
| ErrStorageFailure (action : string) (cause : error).

(** [storageFailure(action, err)] *)
Definition storageFailure (action : string) (cause : error) : error :=
  ErrStorageFailure action cause.

(** ** Protocol version 1 *)

Definition Version : Z := 1.

Definition OperationRegister := "register".
Definition OperationHeartbeat := "heartbeat".
Definition OperationUnregister := "unregister".
Definition Operation_Valid (operation : string) : bool :=
  (operation ≟ OperationRegister) || (operation ≟ OperationHeartbeat) ||
  (operation ≟ OperationUnregister).

Definition HealthHealthy := "healthy".
Definition HealthStale := "stale".
Definition HealthDead := "dead".
Definition HealthPrune := "prune".
Definition HealthState_Valid (state : string) : bool :=
  (state ≟ HealthHealthy) || (state ≟ HealthStale) || (state ≟ HealthDead) || (state ≟ HealthPrune).

Definition OutcomeCreated := "created".
Definition OutcomeUpdated := "updated".
Definition OutcomeUnchanged := "unchanged".
Definition OutcomeRecorded := "recorded".
Definition OutcomeRemoved := "removed".
Definition OutcomeAbsent := "absent".
Definition Outcome_ValidFor (outcome operation : string) : bool :=
  if operation ≟ OperationRegister then
    (outcome ≟ OutcomeCreated) || (outcome ≟ OutcomeUpdated) || (outcome ≟ OutcomeUnchanged)
  else if operation ≟ OperationHeartbeat then outcome ≟ OutcomeRecorded
  else if operation ≟ OperationUnregister then (outcome ≟ OutcomeRemoved) || (outcome ≟ OutcomeAbsent)
  else false.

(** ** Stored states *)

Definition lifecycleRegistered := "registered".
Definition lifecycleUnregistered := "unregistered".
Definition lifecyclePruned := "pruned".
Definition RelayLifecycleState_Valid (state : string) : bool :=
  (state ≟ lifecycleRegistered) || (state ≟ lifecycleUnregistered) || (state ≟ lifecyclePruned).

Definition administrativeActive := "active".
Definition administrativeSuspended := "suspended".
Definition RelayAdministrativeState_Valid (state : string) : bool :=
  (state ≟ administrativeActive) || (state ≟ administrativeSuspended).

Definition eventRegisterCreated := "register_created".
Definition eventRegisterUpdated := "register_updated".
Definition eventRegisterUnchanged := "register_unchanged".
Definition eventHeartbeatRecorded := "heartbeat_recorded".
Definition eventUnregisterRemoved := "unregister_removed".
Definition eventUnregisterAbsent := "unregister_absent".
Definition eventRelayPruned := "relay_pruned".

Definition moderationSuspendApplied := "suspend_applied".
Definition moderationSuspendUnchanged := "suspend_unchanged".
Definition moderationRestoreApplied := "restore_applied".
Definition moderationRestoreUnchanged := "restore_unchanged".

Definition enrollmentOpened := "enrollment_opened".
Definition enrollmentOpenUnchanged := "enrollment_open_unchanged".
Definition enrollmentClosed := "enrollment_closed".
Definition enrollmentClosedUnchanged := "enrollment_closed_unchanged".

Definition EnrollmentOpened := "opened".
Definition EnrollmentAlreadyOpen := "already_open".
Definition EnrollmentClosed := "closed".
Definition EnrollmentAlreadyClosed := "already_closed".

Definition ModerationSuspended := "suspended".
Definition ModerationAlreadySuspended := "already_suspended".
Definition ModerationRestored := "restored".
Definition ModerationAlreadyActive := "already_active".

Definition PruneApplied := "pruned".
Definition PruneAlreadyPruned := "already_pruned".
Definition PruneNotEligible := "not_eligible".
Definition PruneOutcome_Valid (outcome : string) : bool :=
  (outcome ≟ PruneApplied) || (outcome ≟ PruneAlreadyPruned) || (outcome ≟ PruneNotEligible).

Definition discoveryActive := "active".
Definition discoveryRemoved := "removed".
Definition DiscoveryState_Valid (state : string) : bool :=
  (state ≟ discoveryActive) || (state ≟ discoveryRemoved).
Definition discoveryAdded := "discovery_added".
Definition discoveryUpdated := "discovery_updated".
Definition discoveryUnchanged := "discovery_unchanged".
Definition discoveryRemovedOK := "discovery_removed".
Definition discoveryAbsent := "discovery_absent".
Definition DiscoveryAdded := "added".
Definition DiscoveryUpdated := "updated".
Definition DiscoveryUnchanged := "unchanged".
Definition DiscoveryRemovedOK := "removed".
Definition DiscoveryAbsent := "absent".
Definition DiscoverySourceKind_Valid (kind : string) : bool := (kind ≟ "manual") || (kind ≟ "file").

Definition ReachabilityUnknown := "unknown".
Definition ReachabilityReachable := "reachable".
Definition ReachabilityUnreachable := "unreachable".
Definition ReachabilityState_Valid (state : string) : bool :=
  (state ≟ ReachabilityUnknown) || (state ≟ ReachabilityReachable) || (state ≟ ReachabilityUnreachable).
Definition InboxNotChecked := "not_checked".
Definition InboxResponsive := "responsive".
Definition InboxMethodRejected := "method_rejected".
Definition InboxUnreachable := "unreachable".
Definition InboxProbeState_Valid (state : string) : bool :=
  (state ≟ InboxNotChecked) || (state ≟ InboxResponsive) || (state ≟ InboxMethodRejected) ||
  (state ≟ InboxUnreachable).
Definition ReachabilityWriteApplied := "applied".
Definition ReachabilityWriteSkipped := "skipped".

(** ** Policy constants *)

Definition HealthyThrough : Z := 36 * hour.
Definition StaleBefore : Z := 7 * 24 * hour.
Definition DeadBefore : Z := 30 * 24 * hour.
Definition ReachabilityFreshness : Z := 6 * hour.
Definition ReachabilityUnreachableRetry : Z := 7 * 24 * hour.
Definition ReachabilityFailureRetryMinimum : Z := hour.
Definition DirectoryGraveyardAfter : Z := 30 * 24 * hour.
Definition MaximumReachabilityFailureStreak : Z := 4.
Definition MaximumHealthProjectionPage : Z := 100.
Definition MaximumPruneCandidatePage : Z := 100.
Definition MaximumSoftPruneAttemptsPerRun : Z := 1000.
Definition MaximumReachabilityCandidatePage : Z := 24.
Definition MaximumReachabilityAttemptsPerRun : Z := 96.
Definition maximumRelayActorBytes : Z := 4096.
Definition maximumPublicBaseBytes : Z := 2048.
Definition MaximumOperatorIDBytes : Z := 128.
Definition MaximumModerationReasonCodeBytes : Z := 64.
Definition MaximumDiscoverySourceLabelBytes : Z := 128.

(** ** Token grammars *)

Definition len (s : string) : Z := Z.of_nat (String.length s).
Definition char_between (c lo hi : ascii) : bool :=
  (N_of_ascii lo <=? N_of_ascii c)%N && (N_of_ascii c <=? N_of_ascii hi)%N.
Definition token_alnum (c : ascii) : bool :=
  char_between c "A" "Z" || char_between c "a" "z" || char_between c "0" "9".
Definition token_punct (c : ascii) : bool :=
  existsb (Ascii.eqb c) ["@"; "."; "_"; ":"; "+"; "-"]%char.

(** The loop over [value[index]] with the character test of that index. *)
Fixpoint token_loop (accept : bool → ascii → bool) (first : bool) (value : string) : bool :=
  match value with
  | EmptyString => true
  | String character rest => accept first character && token_loop accept false rest
  end.

Definition ValidOperatorID (value : string) : bool :=
  if (len value =? 0) || (MaximumOperatorIDBytes <? len value) then false
  else token_loop (λ first c, token_alnum c || (negb first && token_punct c)) true value.

Definition ValidDiscoverySourceLabel (value : string) : bool :=
  if value ≟ "" then true
  else if MaximumDiscoverySourceLabelBytes <? len value then false
  else token_loop (λ first c, token_alnum c || (negb first && token_punct c)) true value.

Definition ValidModerationReasonCode (value : string) : bool :=
  if (len value =? 0) || (MaximumModerationReasonCodeBytes <? len value) then false
  else token_loop (λ first c,
         if first then char_between c "a" "z"
         else char_between c "a" "z" || char_between c "0" "9" ||
              existsb (Ascii.eqb c) ["_"; "-"]%char) true value.
