(* ===== verification/Store.v ===== *)
(** * Store: the SQLite database of the directory and its transactions

    The tables of [internal/storage/sqlite/migrations] that the repositories of
    this development read and write, their CHECK constraints, keys and triggers,
    and the transaction discipline of [relay.go]: write admission, begin,
    statements that may fail, commit, and rollback of everything not committed.

    A database call may fail at any point; the outcomes of the successive calls
    of one transaction are a list of booleans ([true]: the driver reports an
    error), and past its end every call succeeds. *)
From S2P Require Import Prelude Vocabulary.
From Stdlib Require Import Ascii.
Local Open Scope string_scope.
Local Open Scope Z_scope.
Local Open Scope go_scope.
Local Open Scope list_scope.

(** ** Rows *)

Record relay_row := RelayRow {
  public_base_url : string;
  lifecycle_state : string;
  administrative_state : string;
  first_registered_at_unix : Z;
  updated_at_unix : Z;
  last_seen_at_unix : Z;
  last_heartbeat_at_unix : option Z;
  unregistered_at_unix : option Z;
  pruned_at_unix : option Z;
  suspended_at_unix : option Z }.

Record relay_event := RelayEvent {
  event_id : Z; event_actor : string; event_kind : string; event_recorded : Z }.

Record moderation_event := ModerationEvent {
  moderation_event_id : Z; moderation_actor : string; moderation_action : string;
  moderator_id : string; moderation_reason : string; moderation_recorded : Z }.

Record policy_row := PolicyRow { enrollment_open : Z; policy_updated : Z }.

Record enrollment_event := EnrollmentEvent {
  enrollment_action : string; enrollment_operator : string; enrollment_recorded : Z }.

Record discovery_row := DiscoveryRow {
  discovery_base : string; discovery_state : string; first_discovered : Z;
  discovery_updated : Z; discovery_removed_at : option Z }.

Record discovery_event := DiscoveryEvent {
  discovery_event_id : Z; discovery_actor : string; discovery_action : string;
  discovery_operator : string; discovery_reason : string; discovery_source_kind : string;
  discovery_source_label : option string; discovery_recorded : Z }.

Record observation_row := ObservationRow {
  actor_state : string; actor_last_checked : option Z; actor_last_success : option Z;
  inbox_url : option string; inbox_declared : option Z; inbox_probe_state : string;
  inbox_last_checked : option Z; rfc9421_verified : option Z;
  observation_updated : Z; revision : Z }.

Record diagnostic := Diagnostic { diag_stage : string; diag_code : string; diag_http_status : Z }.

Record diagnostic_row := DiagnosticRow {
  actor_diagnostic : diagnostic; inbox_diagnostic : diagnostic;
  next_check_at : Z; diagnostic_updated : Z; actor_failure_streak : Z }.

Record replay_row := ReplayRow { replay_reserved_at : Z; replay_expires_at : Z }.

Record db := DB {
  relays : gmap string relay_row;
  relay_events : list relay_event;
  relay_event_seq : Z;
  moderation_events : list moderation_event;
  moderation_event_seq : Z;
  policy : option policy_row;
  enrollment_events : list enrollment_event;
  discoveries : gmap string discovery_row;
  discovery_events : list discovery_event;
  discovery_event_seq : Z;
  observations : gmap string observation_row;
  diagnostics : gmap string diagnostic_row;
  replay_reservations : gmap string replay_row }.

(** The database the migrations create. *)
Definition initial_db : db := {|
  relays := ∅; relay_events := []; relay_event_seq := 0;
  moderation_events := []; moderation_event_seq := 0;
  policy := Some (PolicyRow 0 0); enrollment_events := [];
  discoveries := ∅; discovery_events := []; discovery_event_seq := 0;
  observations := ∅; diagnostics := ∅; replay_reservations := ∅ |}.

Definition set_relays (m : gmap string relay_row) (d : db) : db :=
  {| relays := m; relay_events := relay_events d; relay_event_seq := relay_event_seq d;
     moderation_events := moderation_events d; moderation_event_seq := moderation_event_seq d;
     policy := policy d; enrollment_events := enrollment_events d;
     discoveries := discoveries d; discovery_events := discovery_events d;
     discovery_event_seq := discovery_event_seq d; observations := observations d;
     diagnostics := diagnostics d; replay_reservations := replay_reservations d |}.
Definition set_relay_events (l : list relay_event) (seq : Z) (d : db) : db :=
  {| relays := relays d; relay_events := l; relay_event_seq := seq;
     moderation_events := moderation_events d; moderation_event_seq := moderation_event_seq d;
     policy := policy d; enrollment_events := enrollment_events d;
     discoveries := discoveries d; discovery_events := discovery_events d;
     discovery_event_seq := discovery_event_seq d; observations := observations d;
     diagnostics := diagnostics d; replay_reservations := replay_reservations d |}.
Definition set_moderation_events (l : list moderation_event) (seq : Z) (d : db) : db :=
  {| relays := relays d; relay_events := relay_events d; relay_event_seq := relay_event_seq d;
     moderation_events := l; moderation_event_seq := seq;
     policy := policy d; enrollment_events := enrollment_events d;
     discoveries := discoveries d; discovery_events := discovery_events d;
     discovery_event_seq := discovery_event_seq d; observations := observations d;
     diagnostics := diagnostics d; replay_reservations := replay_reservations d |}.
Definition set_policy (p : option policy_row) (d : db) : db :=
  {| relays := relays d; relay_events := relay_events d; relay_event_seq := relay_event_seq d;
     moderation_events := moderation_events d; moderation_event_seq := moderation_event_seq d;
     policy := p; enrollment_events := enrollment_events d;
     discoveries := discoveries d; discovery_events := discovery_events d;
     discovery_event_seq := discovery_event_seq d; observations := observations d;
     diagnostics := diagnostics d; replay_reservations := replay_reservations d |}.
Definition set_enrollment_events (l : list enrollment_event) (d : db) : db :=
  {| relays := relays d; relay_events := relay_events d; relay_event_seq := relay_event_seq d;
     moderation_events := moderation_events d; moderation_event_seq := moderation_event_seq d;
     policy := policy d; enrollment_events := l;
     discoveries := discoveries d; discovery_events := discovery_events d;
     discovery_event_seq := discovery_event_seq d; observations := observations d;
     diagnostics := diagnostics d; replay_reservations := replay_reservations d |}.
Definition set_discoveries (m : gmap string discovery_row) (d : db) : db :=
  {| relays := relays d; relay_events := relay_events d; relay_event_seq := relay_event_seq d;
     moderation_events := moderation_events d; moderation_event_seq := moderation_event_seq d;
     policy := policy d; enrollment_events := enrollment_events d;
     discoveries := m; discovery_events := discovery_events d;
     discovery_event_seq := discovery_event_seq d; observations := observations d;
     diagnostics := diagnostics d; replay_reservations := replay_reservations d |}.
Definition set_discovery_events (l : list discovery_event) (seq : Z) (d : db) : db :=
  {| relays := relays d; relay_events := relay_events d; relay_event_seq := relay_event_seq d;
     moderation_events := moderation_events d; moderation_event_seq := moderation_event_seq d;
     policy := policy d; enrollment_events := enrollment_events d;
     discoveries := discoveries d; discovery_events := l;
     discovery_event_seq := seq; observations := observations d;
     diagnostics := diagnostics d; replay_reservations := replay_reservations d |}.
Definition set_observations (m : gmap string observation_row) (d : db) : db :=
  {| relays := relays d; relay_events := relay_events d; relay_event_seq := relay_event_seq d;
     moderation_events := moderation_events d; moderation_event_seq := moderation_event_seq d;
     policy := policy d; enrollment_events := enrollment_events d;
     discoveries := discoveries d; discovery_events := discovery_events d;
     discovery_event_seq := discovery_event_seq d; observations := m;
     diagnostics := diagnostics d; replay_reservations := replay_reservations d |}.
Definition set_diagnostics (m : gmap string diagnostic_row) (d : db) : db :=
  {| relays := relays d; relay_events := relay_events d; relay_event_seq := relay_event_seq d;
     moderation_events := moderation_events d; moderation_event_seq := moderation_event_seq d;
     policy := policy d; enrollment_events := enrollment_events d;
     discoveries := discoveries d; discovery_events := discovery_events d;
     discovery_event_seq := discovery_event_seq d; observations := observations d;
     diagnostics := m; replay_reservations := replay_reservations d |}.
Definition set_replay (m : gmap string replay_row) (d : db) : db :=
  {| relays := relays d; relay_events := relay_events d; relay_event_seq := relay_event_seq d;
     moderation_events := moderation_events d; moderation_event_seq := moderation_event_seq d;
     policy := policy d; enrollment_events := enrollment_events d;
     discoveries := discoveries d; discovery_events := discovery_events d;
     discovery_event_seq := discovery_event_seq d; observations := observations d;
     diagnostics := diagnostics d; replay_reservations := m |}.

(** ** CHECK constraints *)

Definition blob_length_between (lo hi : Z) (s : string) : bool := (lo <=? len s) && (len s <=? hi).
(** [x IS NULL OR p(x)] *)
Definition null_or {A} (p : A → bool) (x : option A) : bool :=
  match x with Some v => p v | None => true end.
Definition is_null {A} (x : option A) : bool := match x with Some _ => false | None => true end.
Definition not_null {A} (x : option A) : bool := negb (is_null x).

(** Table [relays] after migration 5. *)
Definition relay_check (actor : string) (r : relay_row) : bool :=
  blob_length_between 1 4096 actor && blob_length_between 1 2048 (public_base_url r) &&
  RelayLifecycleState_Valid (lifecycle_state r) &&
  RelayAdministrativeState_Valid (administrative_state r) &&
  (0 <=? first_registered_at_unix r) &&
  (first_registered_at_unix r <=? updated_at_unix r) &&
  (first_registered_at_unix r <=? last_seen_at_unix r) &&
  null_or (λ v, first_registered_at_unix r <=? v) (last_heartbeat_at_unix r) &&
  null_or (λ v, first_registered_at_unix r <=? v) (unregistered_at_unix r) &&
  null_or (λ v, first_registered_at_unix r <=? v) (pruned_at_unix r) &&
  null_or (λ v, first_registered_at_unix r <=? v) (suspended_at_unix r) &&
  (((lifecycle_state r ≟ lifecycleRegistered) &&
      is_null (unregistered_at_unix r) && is_null (pruned_at_unix r)) ||
   ((lifecycle_state r ≟ lifecycleUnregistered) &&
      not_null (unregistered_at_unix r) && is_null (pruned_at_unix r)) ||
   ((lifecycle_state r ≟ lifecyclePruned) &&
      is_null (unregistered_at_unix r) && not_null (pruned_at_unix r))) &&
  (((administrative_state r ≟ administrativeActive) && is_null (suspended_at_unix r)) ||
   ((administrative_state r ≟ administrativeSuspended) && not_null (suspended_at_unix r))) &&
  null_or (λ v, v <=? updated_at_unix r) (last_heartbeat_at_unix r) &&
  null_or (λ v, v <=? last_seen_at_unix r) (last_heartbeat_at_unix r) &&
  null_or (λ v, v <=? updated_at_unix r) (unregistered_at_unix r) &&
  null_or (λ v, v <=? updated_at_unix r) (pruned_at_unix r) &&
  null_or (λ v, last_seen_at_unix r <=? v) (pruned_at_unix r) &&
  null_or (λ v, v <=? updated_at_unix r) (suspended_at_unix r).

Definition relay_event_kinds : list string :=
  [eventRegisterCreated; eventRegisterUpdated; eventRegisterUnchanged; eventHeartbeatRecorded;
   eventUnregisterRemoved; eventUnregisterAbsent; eventRelayPruned].
Definition one_of (values : list string) (v : string) : bool := existsb (String.eqb v) values.

Definition relay_event_check (e : relay_event) : bool :=
  blob_length_between 1 4096 (event_actor e) && one_of relay_event_kinds (event_kind e) &&
  (0 <=? event_recorded e).

(** [substr(x,1,1) GLOB '[first]' AND x NOT GLOB '*[^all]*'] *)
Fixpoint all_chars (accept : Ascii.ascii → bool) (s : string) : bool :=
  match s with EmptyString => true | String c s' => accept c && all_chars accept s' end.
Definition first_char (accept : Ascii.ascii → bool) (s : string) : bool :=
  match s with EmptyString => false | String c _ => accept c end.
Definition operator_check (s : string) : bool :=
  blob_length_between 1 128 s && first_char token_alnum s &&
  all_chars (λ c, token_alnum c || token_punct c) s.
Definition reason_check (s : string) : bool :=
  blob_length_between 1 64 s && first_char (λ c, char_between c "a" "z") s &&
  all_chars (λ c, char_between c "a" "z" || char_between c "0" "9" ||
                  existsb (Ascii.eqb c) ["_"; "-"]%char) s.

Definition moderation_event_check (e : moderation_event) : bool :=
  blob_length_between 1 4096 (moderation_actor e) &&
  one_of [moderationSuspendApplied; moderationSuspendUnchanged; moderationRestoreApplied;
          moderationRestoreUnchanged] (moderation_action e) &&
  operator_check (moderator_id e) && reason_check (moderation_reason e) &&
  (0 <=? moderation_recorded e).

Definition policy_check (p : policy_row) : bool :=
  ((enrollment_open p =? 0) || (enrollment_open p =? 1)) && (0 <=? policy_updated p).

Definition enrollment_event_check (e : enrollment_event) : bool :=
  one_of [enrollmentOpened; enrollmentOpenUnchanged; enrollmentClosed; enrollmentClosedUnchanged]
    (enrollment_action e) && operator_check (enrollment_operator e) && (0 <=? enrollment_recorded e).

Definition discovery_check (actor : string) (r : discovery_row) : bool :=
  blob_length_between 1 4096 actor && blob_length_between 1 2048 (discovery_base r) &&
  DiscoveryState_Valid (discovery_state r) && (0 <=? first_discovered r) &&
  (first_discovered r <=? discovery_updated r) &&
  null_or (λ v, first_discovered r <=? v) (discovery_removed_at r) &&
  (((discovery_state r ≟ discoveryActive) && is_null (discovery_removed_at r)) ||
   ((discovery_state r ≟ discoveryRemoved) && not_null (discovery_removed_at r))) &&
  null_or (λ v, v <=? discovery_updated r) (discovery_removed_at r).

Definition discovery_event_check (e : discovery_event) : bool :=
  blob_length_between 1 4096 (discovery_actor e) &&
  one_of [discoveryAdded; discoveryUpdated; discoveryUnchanged; discoveryRemovedOK; discoveryAbsent]
    (discovery_action e) &&
  operator_check (discovery_operator e) && reason_check (discovery_reason e) &&
  DiscoverySourceKind_Valid (discovery_source_kind e) &&
  null_or operator_check (discovery_source_label e) && (0 <=? discovery_recorded e).

(** Table [relay_observations] of migration 8. *)
Definition observation_check (actor : string) (r : observation_row) : bool :=
  blob_length_between 1 4096 actor && ReachabilityState_Valid (actor_state r) &&
  null_or (Z.leb 0) (actor_last_checked r) && null_or (Z.leb 0) (actor_last_success r) &&
  null_or (blob_length_between 1 4096) (inbox_url r) && null_or (Z.leb 0) (inbox_declared r) &&
  InboxProbeState_Valid (inbox_probe_state r) && null_or (Z.leb 0) (inbox_last_checked r) &&
  null_or (Z.leb 0) (rfc9421_verified r) && (0 <=? observation_updated r) && (1 <=? revision r) &&
  (((actor_state r ≟ ReachabilityUnknown) && is_null (actor_last_checked r) &&
      is_null (actor_last_success r)) ||
   ((actor_state r ≟ ReachabilityReachable) &&
      match actor_last_checked r, actor_last_success r with
      | Some c, Some s => s =? c
      | _, _ => false
      end) ||
   ((actor_state r ≟ ReachabilityUnreachable) &&
      match actor_last_checked r with
      | Some c => null_or (λ s, s <=? c) (actor_last_success r)
      | None => false
      end)) &&
  Bool.eqb (is_null (inbox_url r)) (is_null (inbox_declared r)) &&
  (((inbox_probe_state r ≟ InboxNotChecked) && is_null (inbox_last_checked r)) ||
   (negb (inbox_probe_state r ≟ InboxNotChecked) && not_null (inbox_last_checked r))) &&
  null_or (λ v, v <=? observation_updated r) (actor_last_checked r) &&
  null_or (λ v, v <=? observation_updated r) (actor_last_success r) &&
  null_or (λ v, v <=? observation_updated r) (inbox_declared r) &&
  null_or (λ v, v <=? observation_updated r) (inbox_last_checked r) &&
  null_or (λ v, v <=? observation_updated r) (rfc9421_verified r).

Definition diagnostic_check (r : diagnostic_row) : bool :=
  (len (diag_stage (actor_diagnostic r)) <=? 16) && (len (diag_code (actor_diagnostic r)) <=? 32) &&
  (0 <=? diag_http_status (actor_diagnostic r)) && (diag_http_status (actor_diagnostic r) <=? 599) &&
  (len (diag_stage (inbox_diagnostic r)) <=? 16) && (len (diag_code (inbox_diagnostic r)) <=? 32) &&
  (0 <=? diag_http_status (inbox_diagnostic r)) && (diag_http_status (inbox_diagnostic r) <=? 599) &&
  (0 <=? next_check_at r) && (0 <=? diagnostic_updated r) &&
  (diagnostic_updated r <=? next_check_at r) &&
  (0 <=? actor_failure_streak r) && (actor_failure_streak r <=? 4).

Definition replay_check (key : string) (r : replay_row) : bool :=
  (len key =? 32) && (0 <=? replay_reserved_at r) && (replay_reserved_at r <? replay_expires_at r).

(** ** Transactions *)

Record txstate := TX { durable : db; working : db; faults : list bool }.
Definition Tx (A : Type) : Type := txstate → result error A * txstate.

#[global] Instance tx_ret : MRet Tx := λ A a st, (Ok a, st).
#[global] Instance tx_bind : MBind Tx := λ A B k m st,
  match m st with
  | (Ok a, st') => k a st'
  | (Err e, st') => (Err e, st')
  end.
Definition tx_fail {A} (e : error) : Tx A := λ st, (Err e, st).
(** [if err != nil { return storageFailure(action, err) }] *)
Definition wrapped {A} (action : string) (m : Tx A) : Tx A := λ st,
  match m st with
  | (Ok a, st') => (Ok a, st')
  | (Err e, st') => (Err (storageFailure action e), st')
  end.

(** One call of the database driver. *)
Definition driver : Tx unit := λ st,
  match faults st with
  | true :: fs => (Err ErrBackend, TX (durable st) (working st) fs)
  | false :: fs => (Ok tt, TX (durable st) (working st) fs)
  | [] => (Ok tt, st)
  end.
Definition get_working : Tx db := λ st, (Ok (working st), st).
Definition query {A} (f : db → A) : Tx A := driver ;; d ← get_working; mret (f d).
(** A statement either changes the working state or is aborted by the schema. *)
Definition apply_statement {A} (statement : db → option (db * A)) : Tx A := λ st,
  match statement (working st) with
  | Some (w, a) => (Ok a, TX (durable st) w (faults st))
  | None => (Err ErrConstraint, st)
  end.
Definition exec {A} (statement : db → option (db * A)) : Tx A :=
  driver ;; apply_statement statement.
Definition publish : Tx unit := λ st, (Ok tt, TX (working st) (working st) (faults st)).
Definition commit : Tx unit := driver ;; publish.

(** What a repository call finds around it: whether receiver, handle, admission
    gate and context are set; the answer of [writeAdmission.AcquireWrite]; and
    the driver outcomes. *)
Record call := Call { configured : bool; admission : option error; outcomes : list bool }.
Definition plain_call : call := Call true None [].

(** [repository.begin(ctx)] followed by [body], with the deferred rollback. *)
Definition in_transaction {A} (c : call) (body : Tx A) (d : db) : result error A * db :=
  if negb (configured c) then (Err ErrRepositoryConfiguration, d)
  else
    match admission c with
    | Some e => (Err (storageFailure "admit transition" e), d)
    | None =>
        let '(r, st) := (wrapped "begin transition" driver ;; body) (TX d d (outcomes c)) in
        (r, durable st)
    end.

(** ** Statements *)

Definition insert_relay (actor : string) (r : relay_row) (d : db) : option (db * Z) :=
  match relays d !! actor with
  | Some _ => None
  | None => if relay_check actor r then Some (set_relays (<[actor := r]> (relays d)) d, 1) else None
  end.

(** [UPDATE relays SET ... WHERE relay_actor = ? AND guard] *)
Definition update_relay (actor : string) (guard : relay_row → bool) (f : relay_row → relay_row)
    (d : db) : option (db * Z) :=
  match relays d !! actor with
  | Some r =>
      if guard r then
        if relay_check actor (f r) then Some (set_relays (<[actor := f r]> (relays d)) d, 1) else None
      else Some (d, 0)
  | None => Some (d, 0)
  end.

Definition insert_relay_event (actor kind : string) (recorded : Z) (d : db) : option (db * unit) :=
  let e := RelayEvent (relay_event_seq d + 1) actor kind recorded in
  if relay_event_check e
  then Some (set_relay_events (relay_events d ++ [e]) (relay_event_seq d + 1) d, tt) else None.

Definition insert_moderation_event (actor action moderator reason : string) (recorded : Z) (d : db)
    : option (db * unit) :=
  let e := ModerationEvent (moderation_event_seq d + 1) actor action moderator reason recorded in
  if moderation_event_check e
  then Some (set_moderation_events (moderation_events d ++ [e]) (moderation_event_seq d + 1) d, tt)
  else None.

Definition update_policy (f : policy_row → policy_row) (d : db) : option (db * Z) :=
  match policy d with
  | Some p => if policy_check (f p) then Some (set_policy (Some (f p)) d, 1) else None
  | None => Some (d, 0)
  end.

Definition insert_enrollment_event (action operator : string) (recorded : Z) (d : db)
    : option (db * unit) :=
  let e := EnrollmentEvent action operator recorded in
  if enrollment_event_check e then Some (set_enrollment_events (enrollment_events d ++ [e]) d, tt)
  else None.

Definition insert_discovery (actor : string) (r : discovery_row) (d : db) : option (db * Z) :=
  match discoveries d !! actor with
  | Some _ => None
  | None =>
      if discovery_check actor r then Some (set_discoveries (<[actor := r]> (discoveries d)) d, 1)
      else None
  end.
Definition update_discovery (actor : string) (f : discovery_row → discovery_row) (d : db)
    : option (db * Z) :=
  match discoveries d !! actor with
  | Some r =>
      if discovery_check actor (f r)
      then Some (set_discoveries (<[actor := f r]> (discoveries d)) d, 1) else None
  | None => Some (d, 0)
  end.
Definition insert_discovery_event (actor action operator reason kind : string)
    (label : option string) (recorded : Z) (d : db) : option (db * unit) :=
  let e := DiscoveryEvent (discovery_event_seq d + 1) actor action operator reason kind label recorded in
  if discovery_event_check e
  then Some (set_discovery_events (discovery_events d ++ [e]) (discovery_event_seq d + 1) d, tt)
  else None.

(** A relay actor some lifecycle or discovery row retains. *)
Definition retained_identity (actor : string) (d : db) : bool :=
  not_null (relays d !! actor) || not_null (discoveries d !! actor).

(** [INSERT ... ON CONFLICT(relay_actor) DO NOTHING]; the BEFORE INSERT trigger
    [relay_observations_identity_guard_insert] requires a retained identity. *)
Definition insert_observation (actor : string) (r : observation_row) (d : db) : option (db * Z) :=
  if negb (retained_identity actor d) then None
  else if negb (observation_check actor r) then None
  else
    match observations d !! actor with
    | Some _ => Some (d, 0)
    | None => Some (set_observations (<[actor := r]> (observations d)) d, 1)
    end.
Definition update_observation (actor : string) (f : observation_row → observation_row) (d : db)
    : option (db * Z) :=
  match observations d !! actor with
  | Some r =>
      if observation_check actor (f r)
      then Some (set_observations (<[actor := f r]> (observations d)) d, 1) else None
  | None => Some (d, 0)
  end.

(** [INSERT ... ON CONFLICT(relay_actor) DO UPDATE SET ...]; the foreign key
    requires an observation row. *)
Definition upsert_diagnostic (actor : string) (new : diagnostic_row)
    (merge : diagnostic_row → diagnostic_row) (d : db) : option (db * Z) :=
  if negb (not_null (observations d !! actor)) || negb (diagnostic_check new) then None
  else
    let row := match diagnostics d !! actor with Some old => merge old | None => new end in
    if diagnostic_check row
    then Some (set_diagnostics (<[actor := row]> (diagnostics d)) d, 1) else None.

(** [SELECT MAX(recorded_at_unix) ...]: NULL over no row. *)
Definition max_of (l : list Z) : option Z :=
  match l with
  | [] => None
  | x :: rest => Some (fold_left Z.max rest x)
  end.
Definition latest_relay_event (actor : string) (d : db) : option Z :=
  max_of (map event_recorded (List.filter (λ e, event_actor e ≟ actor) (relay_events d))).
Definition latest_moderation_event (actor : string) (d : db) : option Z :=
  max_of (map moderation_recorded (List.filter (λ e, moderation_actor e ≟ actor) (moderation_events d))).
Definition latest_enrollment_event (d : db) : option Z :=
  max_of (map enrollment_recorded (enrollment_events d)).
Definition latest_discovery_event (actor : string) (d : db) : option Z :=
  max_of (map discovery_recorded (List.filter (λ e, discovery_actor e ≟ actor) (discovery_events d))).

(** ** Reasoning about transactions

    [TxBody m]: driver faults make [m] either behave exactly as without faults
    or fail with a storage error; in both cases nothing durable changes.
    [TxFinal m] is the same for a program that may end in a commit. *)
Definition storage_error (e : error) : bool :=
  match e with ErrBackend | ErrStorageFailure _ _ => true | _ => false end.

Record TxFinal {A} (m : Tx A) : Prop := {
  final_faults : ∀ d w fs,
    ((m (TX d w fs)).1 = (m (TX d w [])).1 ∧
     durable (m (TX d w fs)).2 = durable (m (TX d w [])).2 ∧
     working (m (TX d w fs)).2 = working (m (TX d w [])).2) ∨
    (∃ e, (m (TX d w fs)).1 = Err e ∧ storage_error e = true ∧ durable (m (TX d w fs)).2 = d);
  final_free : ∀ d w, faults (m (TX d w [])).2 = [];
  final_error : ∀ d w e, (m (TX d w [])).1 = Err e → durable (m (TX d w [])).2 = d }.
Record TxBody {A} (m : Tx A) : Prop := {
  body_final : TxFinal m;
  body_durable : ∀ d w, durable (m (TX d w [])).2 = d }.

Lemma body_ret {A} (a : A) : TxBody (mret a).
Proof. split; [split|]; intros; simpl; eauto; done. Qed.
Lemma body_fail {A} e : TxBody (@tx_fail A e).
Proof. split; [split|]; intros; simpl; eauto. Qed.
Lemma body_driver : TxBody driver.
Proof.
  split; [split|]; intros; simpl; eauto. destruct fs as [|[] fs]; simpl; eauto.
Qed.
Lemma body_get : TxBody get_working.
Proof. split; [split|]; intros; simpl; eauto. Qed.
Lemma body_statement {A} (s : db → option (db * A)) : TxBody (apply_statement s).
Proof.
  split; [split|]; intros *; unfold apply_statement; simpl; destruct (s w) as [[??]|]; simpl; eauto.
Qed.

Lemma final_bind {A B} (m : Tx A) (k : A → Tx B) :
  TxBody m → (∀ a, TxFinal (k a)) → TxFinal (m ≫= k).
Proof.
  intros Hm Hk. destruct (body_final m Hm) as [Hf Hn He].
  assert (Hd := body_durable m Hm). unfold mbind, tx_bind. split.
  - intros d w fs. specialize (Hf d w fs). specialize (Hn d w). specialize (Hd d w).
    destruct (m (TX d w fs)) as [r [d1 w1 fs1]], (m (TX d w [])) as [r0 [d0 w0 fs0]]; simpl in *; subst.
    destruct Hf as [(-> & -> & ->)|(e & -> & Hs & ->)]; [|by right; exists e].
    destruct r0 as [a|e]; simpl; [|eauto]. apply Hk.
  - intros d w. specialize (Hn d w). specialize (Hd d w).
    destruct (m (TX d w [])) as [[a|e] [d0 w0 fs0]]; simpl in *; subst; [apply Hk|done].
  - intros d w e. specialize (Hn d w). specialize (Hd d w).
    destruct (m (TX d w [])) as [[a|e'] [d0 w0 fs0]]; simpl in *; subst; [apply Hk|done].
Qed.

Lemma body_bind {A B} (m : Tx A) (k : A → Tx B) :
  TxBody m → (∀ a, TxBody (k a)) → TxBody (m ≫= k).
Proof.
  intros Hm Hk. split; [apply final_bind; [done|intros a; apply Hk]|].
  intros d w. unfold mbind, tx_bind. assert (Hd := body_durable m Hm d w).
  assert (Hn := final_free m (body_final m Hm) d w).
  destruct (m (TX d w [])) as [[a|e] [d0 w0 fs0]]; simpl in *; subst; [apply Hk|done].
Qed.

Lemma final_wrapped {A} action (m : Tx A) : TxFinal m → TxFinal (wrapped action m).
Proof.
  intros [Hf Hn He]. unfold wrapped. split.
  - intros d w fs. specialize (Hf d w fs).
    destruct (m (TX d w fs)) as [[a|e] st], (m (TX d w [])) as [[a0|e0] st0]; simpl in *; subst;
      destruct Hf as [(Heq & ? & ?)|(e' & Heq & ? & ?)]; try (injection Heq as ->); eauto; done.
  - intros d w. specialize (Hn d w). by destruct (m (TX d w [])) as [[a|e] st].
  - intros d w e. specialize (He d w). destruct (m (TX d w [])) as [[a|e'] st]; simpl in *; eauto.
Qed.
Lemma body_wrapped {A} action (m : Tx A) : TxBody m → TxBody (wrapped action m).
Proof.
  intros Hm. split; [apply final_wrapped, Hm|].
  intros d w. unfold wrapped. pose proof (body_durable m Hm d w) as Hd.
  by destruct (m (TX d w [])) as [[a|e] st].
Qed.

Lemma body_query {A} (f : db → A) : TxBody (query f).
Proof. apply body_bind; [apply body_driver|]. intros. apply body_bind; [apply body_get|intros; apply body_ret]. Qed.
Lemma body_exec {A} (s : db → option (db * A)) : TxBody (exec s).
Proof. apply body_bind; [apply body_driver|intros; apply body_statement]. Qed.
Lemma final_commit : TxFinal commit.
Proof.
  apply final_bind; [apply body_driver|]. intros _. split; intros; simpl; eauto. done.
Qed.
(** [if err := transaction.Commit(); ... ; return outcome, nil] *)
Lemma final_commit_ret {A} action (a : A) : TxFinal (wrapped action commit ;; mret a).
Proof.
  destruct (final_wrapped action commit final_commit) as [Hf Hn He]. unfold mbind, tx_bind.
  split; [intros d w fs|done|done]. specialize (Hf d w fs).
  destruct (wrapped action commit (TX d w fs)) as [[[]|e] st]; simpl in *.
  { destruct Hf as [(_ & ? & ?)|(e & [=] & _)]. by left. }
  destruct Hf as [(Heq & _)|Hf]; [done|]. right. destruct Hf as (e' & [= ->] & ?). by exists e'.
Qed.

(** Decompose a transaction program into its calls. *)
Ltac tx_calls :=
  repeat (intros;
    lazymatch goal with
    | |- TxFinal (wrapped _ commit ;; mret _) => apply final_commit_ret
    | |- TxFinal (wrapped _ commit) => apply final_wrapped, final_commit
    | |- TxFinal (_ ≫= _) => apply final_bind
    | |- TxFinal (match ?x with _ => _ end) => destruct x
    | |- TxFinal (let '(_, _) := ?x in _) => destruct x
    | |- TxFinal _ => apply body_final
    | |- TxBody (_ ≫= _) => apply body_bind
    | |- TxBody (mret _) => apply body_ret
    | |- TxBody (tx_fail _) => apply body_fail
    | |- TxBody driver => apply body_driver
    | |- TxBody (query _) => apply body_query
    | |- TxBody (exec _) => apply body_exec
    | |- TxBody (wrapped _ _) => apply body_wrapped
    | |- TxBody (match ?x with _ => _ end) => destruct x
    | |- TxBody _ => progress eauto with tx_body
    end).
Create HintDb tx_body.

(** [settles run]: whatever the admission gate and the driver do, the call is
    refused by the configuration or a storage error, changing nothing, or does
    exactly what it does undisturbed; and an undisturbed error changes nothing. *)
Definition disturbed (e : error) : bool :=
  match e with ErrRepositoryConfiguration => true | _ => storage_error e end.
Record settles {A} (run : call → db → result error A * db) : Prop := {
  settles_call : ∀ c d, run c d = run plain_call d ∨ (∃ e, run c d = (Err e, d) ∧ disturbed e = true);
  settles_error : ∀ d e d', run plain_call d = (Err e, d') → d' = d }.

Lemma in_transaction_error {A} (body : Tx A) d e d' :
  TxFinal body → in_transaction plain_call body d = (Err e, d') → d' = d.
Proof.
  intros Hb. unfold in_transaction; simpl.
  assert (Hw : TxFinal (wrapped "begin transition" driver ;; body)).
  { apply final_bind; [apply body_wrapped, body_driver|done]. }
  pose proof (final_error _ Hw d d) as He.
  destruct ((wrapped "begin transition" driver ;; body) (TX d d [])) as [r st].
  intros [= -> <-]. by apply (He e).
Qed.

Lemma in_transaction_settles {A} (body : Tx A) : TxFinal body → settles (λ c d, in_transaction c body d).
Proof.
  intros Hb. split; [intros c d|intros d e d'; by apply in_transaction_error].
  unfold in_transaction at 1 3.
  destruct (configured c); simpl; [|right; by eexists].
  destruct (admission c) as [e|]; [right; by eexists|].
  assert (Hw : TxFinal (wrapped "begin transition" driver ;; body)).
  { apply final_bind; [apply body_wrapped, body_driver|done]. }
  destruct (final_faults _ Hw d d (outcomes c)) as [(Hr & Hd & _)|(e & Hr & He & Hd)].
  - left. unfold in_transaction; simpl.
    destruct ((wrapped "begin transition" driver ;; body) (TX d d (outcomes c))) as [r [d1 w1 f1]].
    simpl in Hr, Hd. rewrite Hr, Hd.
    by destruct ((wrapped "begin transition" driver ;; body) (TX d d [])) as [r' st].
  - right. exists e. destruct ((wrapped "begin transition" driver ;; body) (TX d d (outcomes c))) as [r st].
    simpl in Hr, Hd. rewrite Hr, Hd. split; [done|]. destruct e; done.
Qed.

Lemma in_transaction_plain {A} (body : Tx A) d :
  in_transaction plain_call body d =
  let '(r, st) := body (TX d d []) in (r, durable st).
Proof. done. Qed.

Lemma settles_refused {A} (r : result error A) : settles (λ _ d, (r, d)).
Proof. split; [by left|by intros ??? [= _ <-]]. Qed.

Ltac settle :=
  repeat lazymatch goal with
  | |- settles (λ c d, in_transaction c _ d) => apply in_transaction_settles
  | |- settles (λ c d, match ?x with _ => _ end) => destruct x
  | |- settles _ => apply settles_refused
  end.

(** Undisturbed calls, one rewriting step each. *)
Lemma bind_run {A B} (m : Tx A) (k : A → Tx B) st :
  (m ≫= k) st = match m st with (Ok a, st') => k a st' | (Err e, st') => (Err e, st') end.
Proof. done. Qed.
Lemma wrapped_run {A} action (m : Tx A) st :
  wrapped action m st =
  match m st with (Ok a, st') => (Ok a, st') | (Err e, st') => (Err (storageFailure action e), st') end.
Proof. done. Qed.
Lemma driver_run d w : driver (TX d w []) = (Ok tt, TX d w []).
Proof. done. Qed.
Lemma query_run {A} (f : db → A) d w : query f (TX d w []) = (Ok (f w), TX d w []).
Proof. done. Qed.
Lemma exec_run {A} (statement : db → option (db * A)) d w :
  exec statement (TX d w []) =
  match statement w with
  | Some (w', a) => (Ok a, TX d w' [])
  | None => (Err ErrConstraint, TX d w [])
  end.
Proof. done. Qed.
Lemma commit_run d w : commit (TX d w []) = (Ok tt, TX w w []).
Proof. done. Qed.
Lemma ret_run {A} (a : A) st : (mret a : Tx A) st = (Ok a, st).
Proof. done. Qed.

(** ** Maxima *)

Lemma fold_max_ge l x : x ≤ fold_left Z.max l x.
Proof.
  revert x. induction l as [|y l IH]; intros x; simpl; [lia|].
  specialize (IH (Z.max x y)). lia.
Qed.

Lemma fold_max_ge_in l x y : In y l → y ≤ fold_left Z.max l x.
Proof.
  revert x. induction l as [|z l IH]; intros x; simpl; [done|].
  intros [->|Hy]; [|by apply IH].
  pose proof (fold_max_ge l (Z.max x y)). lia.
Qed.

Lemma fold_max_app l x y : fold_left Z.max (l ++ [y]) x = Z.max (fold_left Z.max l x) y.
Proof. by rewrite fold_left_app. Qed.

Lemma max_of_in l y : In y l → ∃ m, max_of l = Some m ∧ y ≤ m.
Proof.
  destruct l as [|x l]; [done|]. intros [->|Hy]; simpl; eexists; split; try done.
  - apply fold_max_ge.
  - by apply fold_max_ge_in.
Qed.

Lemma max_of_some l m : max_of l = Some m → In m l.
Proof.
  destruct l as [|x l]; [done|]. intros [= <-]. revert x. induction l as [|y l IH]; intros x; simpl; [by left|].
  destruct (Z.max_spec x y) as [[_ ->]|[_ ->]].
  - right. apply IH.
  - destruct (IH x) as [Heq|Hin]; [by left|by right; right].
Qed.
Lemma max_of_app l y :
  max_of (l ++ [y]) = Some (match max_of l with Some m => Z.max m y | None => y end).
Proof. destruct l as [|x l]; simpl; [done|]. by rewrite fold_max_app. Qed.
