(* ===== verification/Session.v ===== *)
(** * Session: database sessions over any state

    The repository methods that touch tables beyond the relay tables of [Store]
    run over a state [S] of their own.  A session sees the working state and the
    outcomes of the driver calls; the enclosing [transact] keeps the durable state
    aside, so that only a commit publishes. *)
From S2P Require Import Prelude Vocabulary Store.
Local Open Scope string_scope.
Local Open Scope Z_scope.
Local Open Scope go_scope.
Local Open Scope list_scope.

Definition Session (S A : Type) : Type := S * list bool → result error A * (S * list bool).

#[global] Instance session_ret {S} : MRet (Session S) := λ A a st, (Ok a, st).
#[global] Instance session_bind {S} : MBind (Session S) := λ A B k m st,
  match m st with (Ok a, st') => k a st' | (Err e, st') => (Err e, st') end.
Definition fail {S A} (e : error) : Session S A := λ st, (Err e, st).
(** [if !ok { return err }] *)
Definition ensure {S} (ok : bool) (e : error) : Session S unit := if ok then mret tt else fail e.
Definition lift {S A} (r : result error A) : Session S A := λ st, (r, st).
(** [if err != nil { return storageFailure(action, err) }] *)
Definition failing {S A} (action : string) (m : Session S A) : Session S A := λ st,
  match m st with (Ok a, st') => (Ok a, st') | (Err e, st') => (Err (storageFailure action e), st') end.
(** One call of the database driver. *)
Definition call_driver {S} : Session S unit := λ st,
  match st.2 with
  | true :: fs => (Err ErrBackend, (st.1, fs))
  | false :: fs => (Ok tt, (st.1, fs))
  | [] => (Ok tt, st)
  end.
Definition read_state {S A} (f : S → A) : Session S A := λ st, (Ok (f st.1), st).
Definition select {S A} (f : S → A) : Session S A := call_driver ;; read_state f.
(** A statement either changes the state or is aborted by the schema. *)
Definition run_statement {S A} (statement : S → option (S * A)) : Session S A := λ st,
  match statement st.1 with
  | Some (s, a) => (Ok a, (s, st.2))
  | None => (Err ErrConstraint, st)
  end.
Definition execute {S A} (statement : S → option (S * A)) : Session S A := call_driver ;; run_statement statement.

(** Write admission, [BeginTx], the body, [transaction.Commit()], and the deferred
    rollback of every other return. *)
Definition transact_as {S A} (unconfigured : error) (admitAction beginAction : string)
    (c : call) (commitAction : string) (body : Session S A) (s : S) : result error A * S :=
  if negb (configured c) then (Err unconfigured, s)
  else
    match admission c with
    | Some e => (Err (storageFailure admitAction e), s)
    | None =>
        match (failing beginAction call_driver ;; a ← body; failing commitAction call_driver ;; mret a)
                (s, outcomes c) with
        | (Ok a, (s', _)) => (Ok a, s')
        | (Err e, _) => (Err e, s)
        end
    end.
(** [repository.begin(ctx)] of relay.go *)
Definition transact {S A} : call → string → Session S A → S → result error A * S :=
  transact_as ErrRepositoryConfiguration "admit transition" "begin transition".
(** A read outside any transaction. *)
Definition read_session {S A} (c : call) (body : Session S A) (s : S) : result error A :=
  if negb (configured c) then Err ErrRepositoryConfiguration else fst (body (s, outcomes c)).

(** Whatever fails around a transaction, an error leaves the durable state. *)
Lemma transact_as_error {S A} u a b c commitAction (body : Session S A) s e s' :
  transact_as u a b c commitAction body s = (Err e, s') → s' = s.
Proof.
  unfold transact_as. destruct (negb (configured c)); [by intros [= _ <-]|]. destruct (admission c); [by intros [= _ <-]|].
  match goal with |- match ?m with _ => _ end = _ → _ => destruct m as [[x|e'] [w fs]] end; by intros [=].
Qed.
Lemma transact_error {S A} c commitAction (body : Session S A) s e s' :
  transact c commitAction body s = (Err e, s') → s' = s.
Proof. apply transact_as_error. Qed.

(** ** Undisturbed sessions *)

Lemma sbind_run {S A B} (m : Session S A) (k : A → Session S B) st :
  (m ≫= k) st = match m st with (Ok a, st') => k a st' | (Err e, st') => (Err e, st') end.
Proof. done. Qed.
Lemma sret_run {S A} (a : A) (st : S * list bool) : (mret a : Session S A) st = (Ok a, st).
Proof. done. Qed.
Lemma failing_run {S A} action (m : Session S A) st :
  failing action m st = match m st with (Ok a, st') => (Ok a, st') | (Err e, st') => (Err (storageFailure action e), st') end.
Proof. done. Qed.
Lemma call_driver_run {S} (s : S) : call_driver (s, []) = (Ok tt, (s, [])).
Proof. done. Qed.
Lemma select_run {S A} (f : S → A) s : select f (s, []) = (Ok (f s), (s, [])).
Proof. done. Qed.
Lemma execute_run {S A} (statement : S → option (S * A)) s :
  execute statement (s, []) = match statement s with Some (s', a) => (Ok a, (s', [])) | None => (Err ErrConstraint, (s, [])) end.
Proof. done. Qed.
Lemma ensure_run {S} ok e (st : S * list bool) : ensure ok e st = if ok then (Ok tt, st) else (Err e, st).
Proof. by destruct ok. Qed.
Lemma lift_run {S A} (r : result error A) (st : S * list bool) : lift r st = (r, st).
Proof. done. Qed.

Ltac session_run :=
  repeat (first [rewrite sbind_run | rewrite failing_run | rewrite select_run | rewrite execute_run
                | rewrite sret_run | rewrite call_driver_run | rewrite ensure_run | rewrite lift_run
                | progress cbn [negb]]; cbn beta iota).

Lemma transact_as_plain {S A} u a b commitAction (body : Session S A) s :
  transact_as u a b plain_call commitAction body s =
  match body (s, []) with
  | (Ok a, (s', [])) => (Ok a, s')
  | (Ok a, (s', true :: _)) => (Err (storageFailure commitAction ErrBackend), s)
  | (Ok a, (s', false :: _)) => (Ok a, s')
  | (Err e, _) => (Err e, s)
  end.
Proof.
  unfold transact_as, plain_call. cbn [configured admission outcomes negb]. session_run.
  destruct (body (s, [])) as [[x|e] [s' [|[] fs]]]; done.
Qed.
Lemma transact_plain {S A} commitAction (body : Session S A) s :
  transact plain_call commitAction body s =
  match body (s, []) with
  | (Ok a, (s', [])) => (Ok a, s')
  | (Ok a, (s', true :: _)) => (Err (storageFailure commitAction ErrBackend), s)
  | (Ok a, (s', false :: _)) => (Ok a, s')
  | (Err e, _) => (Err e, s)
  end.
Proof. apply transact_as_plain. Qed.

(** ** Disturbed sessions *)

(** A session that succeeds under some driver outcomes does what it does undisturbed. *)
Definition steady {S A} (m : Session S A) : Prop :=
  ∀ s fs a s' fs', m (s, fs) = (Ok a, (s', fs')) → m (s, []) = (Ok a, (s', [])).

Create HintDb steady.
Section Steady.
Context {S : Type}.

Lemma steady_ret {A} (a : A) : steady (mret a : Session S A).
Proof. intros s fs a' s' fs' [= <- <- _]. done. Qed.
Lemma steady_fail {A} e : steady (fail e : Session S A).
Proof. intros s fs a s' fs' [=]. Qed.
Lemma steady_bind {A B} (m : Session S A) (k : A → Session S B) : steady m → (∀ a, steady (k a)) → steady (m ≫= k).
Proof.
  intros Hm Hk s fs b s' fs' Hr. rewrite sbind_run in Hr. destruct (m (s, fs)) as [[a|e] [s1 fs1]] eqn:E; [|done].
  rewrite sbind_run, (Hm _ _ _ _ _ E). by apply (Hk a s1 fs1 b s' fs').
Qed.
Lemma steady_failing {A} action (m : Session S A) : steady m → steady (failing action m).
Proof.
  intros Hm s fs a s' fs' Hr. unfold failing in *. destruct (m (s, fs)) as [[a1|e] [s1 fs1]] eqn:E; [|done].
  injection Hr as <- <- <-. by rewrite (Hm _ _ _ _ _ E).
Qed.
Lemma steady_driver : steady (call_driver : Session S unit).
Proof. intros s [|[] fs] [] s' fs' Hr; cbn in Hr; [|done|]; by injection Hr as <- _. Qed.
Lemma steady_read {A} (f : S → A) : steady (read_state f).
Proof. intros s fs a s' fs' [= <- <- _]. done. Qed.
Lemma steady_select {A} (f : S → A) : steady (select f).
Proof. apply steady_bind; [apply steady_driver|intros _; apply steady_read]. Qed.
Lemma steady_statement {A} (st : S → option (S * A)) : steady (run_statement st).
Proof. intros s fs a s' fs'. unfold run_statement. cbn [fst snd]. destruct (st s) as [[s1 a1]|]; [|done]. by intros [= <- <- _]. Qed.
Lemma steady_execute {A} (st : S → option (S * A)) : steady (execute st).
Proof. apply steady_bind; [apply steady_driver|intros _; apply steady_statement]. Qed.
Lemma steady_ensure ok e : steady (ensure ok e : Session S unit).
Proof. destruct ok; [apply steady_ret|apply steady_fail]. Qed.
Lemma steady_lift {A} (r : result error A) : steady (lift r : Session S A).
Proof. destruct r; [apply steady_ret|apply steady_fail]. Qed.
End Steady.
#[export] Hint Resolve steady_ret steady_fail steady_failing steady_driver steady_read steady_select steady_execute steady_ensure steady_lift : steady.

Ltac steady :=
  repeat (intros;
    lazymatch goal with
    | |- steady (_ ≫= _) => apply steady_bind
    | |- steady (failing _ _) => apply steady_failing
    | |- steady (match ?x with _ => _ end) => destruct x
    | |- steady _ => solve [eauto with steady]
    end).

(** So a transaction that commits has done what it does undisturbed. *)
Lemma transact_as_ok {S A} u ad be c commitAction (body : Session S A) s a s' : steady body →
  transact_as u ad be c commitAction body s = (Ok a, s') → body (s, []) = (Ok a, (s', [])).
Proof.
  intros Hb. unfold transact_as. destruct (negb (configured c)); [done|]. destruct (admission c); [done|].
  set (m := failing be call_driver ;; a ← body; failing commitAction call_driver ;; mret a).
  assert (Hm : steady m) by (unfold m; steady).
  destruct (m (s, outcomes c)) as [[a1|e] [s1 fs1]] eqn:E; intros [= <- <-].
  apply Hm in E. unfold m in E. rewrite sbind_run, failing_run, call_driver_run, sbind_run in E. cbn beta iota in E.
  destruct (body (s, [])) as [[a2|e2] [s2 fs2]] eqn:Eb; [|done].
  destruct fs2 as [|f fs2]; [by injection E as -> ->|]. pose proof (Hb _ _ _ _ _ Eb) as Hn. congruence.
Qed.
Lemma transact_ok {S A} c commitAction (body : Session S A) s a s' : steady body →
  transact c commitAction body s = (Ok a, s') → body (s, []) = (Ok a, (s', [])).
Proof. apply transact_as_ok. Qed.
