(* ===== verification/Replay.v ===== *)
(** * Replay: the reservation of signature nonces

    [internal/protocol/v1/replay.go] and [internal/storage/sqlite/replay.go]: the
    durable store over the table [replay_reservations], its bounded cleanup, and the
    bounded process-local reference store.  [replayStoreFailure(action, err)] is
    written [storageFailure action err]; the bare [ErrRFC9421ReplayStore] is
    [ErrReplayStore]. *)
From S2P Require Import Prelude GoNet Vocabulary Store Session.
Local Open Scope string_scope.
Local Open Scope Z_scope.
Local Open Scope go_scope.
Local Open Scope list_scope.

Definition RFC9421ReplayTTL : Z := 10 * minute.
Definition defaultRFC9421ReplayCapacity : Z := 10000.
Definition defaultRFC9421ReplayCleanupBatch : Z := 256.
Definition maximumRFC9421ReplayCleanupBatch : Z := 4096.
(** [time.Unix(t.UTC().Unix(), 0)] *)
Definition whole_second (t : Z) : Z := time_of_unix (unix_of t).

(** ** The table *)

(** An opaque 32-byte key to its reservation; [replay_row] and [replay_check] are of [Store]. *)
Abbreviation replay_table := (gmap string replay_row).
Definition expired_row (now : Z) (row : string * replay_row) : bool := replay_expires_at row.2 <=? now.
Definition replay_order (row : string * replay_row) : Z * string := (replay_expires_at row.2, row.1).

(** [DELETE ... WHERE replay_key = ? AND expires_at_unix <= ?] *)
Definition delete_expired_key (key : string) (now : Z) (s : replay_table) : option (replay_table * unit) :=
  match s !! key with
  | Some row => Some (if replay_expires_at row <=? now then delete key s else s, tt)
  | None => Some (s, tt)
  end.
(** [DELETE ... WHERE replay_key IN (SELECT ... ORDER BY expires_at_unix, replay_key LIMIT ?)] *)
Definition delete_expired (now maximum : Z) (s : replay_table) : option (replay_table * Z) :=
  let rows := take (Z.to_nat maximum) (order_by replay_order (List.filter (expired_row now) (map_to_list s))) in
  Some (fold_right (λ row s, delete row.1 s) s rows, Z.of_nat (length rows)).
(** [INSERT ... ON CONFLICT(replay_key) DO NOTHING] *)
Definition insert_reservation (key : string) (reserved expires : Z) (s : replay_table) : option (replay_table * Z) :=
  let row := ReplayRow reserved expires in
  if negb (replay_check key row) then None
  else match s !! key with Some _ => Some (s, 0) | None => Some (<[key := row]> s, 1) end.

(** ** The SQLite store *)

Definition cleanupExpiredRFC9421Replay (now maximum : Z) : Session replay_table Z :=
  deleted ← failing "delete expired replay reservations" (execute (delete_expired now maximum));
  failing "count expired replay reservations" call_driver ;;
  ensure ((0 <=? deleted) && (deleted <=? maximum)) (storageFailure "count expired replay reservations" ErrInvalidState) ;;
  mret deleted.

(** [store.validate]: the current second and the expiry, in seconds. *)
Definition replay_validate (c : call) (canceled : bool) (cleanupBatch clock expiresAt : Z) : result error (Z * Z) :=
  if negb (configured c) || (cleanupBatch <=? 0) || (maximumRFC9421ReplayCleanupBatch <? cleanupBatch) then Err ErrReplayStore
  else if canceled then Err (storageFailure "cancel replay reservation" ErrContext)
  else
    let now := whole_second clock in
    let expires := whole_second expiresAt in
    if (unix_of now <? 0) || negb (now <? expires) || (now + RFC9421ReplayTTL <? expires) then Err ErrReplayStore
    else Ok (unix_of now, unix_of expires).

Definition reserve_tx (cleanupBatch : Z) (key : string) (now expires : Z) : Session replay_table bool :=
  failing "remove expired replay key" (execute (delete_expired_key key now)) ;;
  cleanupExpiredRFC9421Replay now cleanupBatch ;;
  rows ← failing "write replay reservation" (execute (insert_reservation key now expires));
  failing "classify replay reservation" call_driver ;;
  ensure ((rows =? 0) || (rows =? 1)) (storageFailure "classify replay reservation" ErrInvalidState) ;;
  mret (rows =? 1).

Definition ReserveRFC9421Replay (c : call) (canceled : bool) (cleanupBatch clock : Z) (key : string) (expiresAt : Z) (s : replay_table)
    : result error bool * replay_table :=
  match replay_validate c canceled cleanupBatch clock expiresAt with
  | Err e => (Err e, s)
  | Ok (now, expires) =>
      transact_as ErrReplayStore "" "begin reservation" c "commit replay reservation" (reserve_tx cleanupBatch key now expires) s
  end.

Definition CleanupExpiredRFC9421Replay (c : call) (canceled : bool) (clock maximum : Z) (s : replay_table) : result error Z * replay_table :=
  if negb (configured c) || (maximum <=? 0) || (maximumRFC9421ReplayCleanupBatch <? maximum) then (Err ErrReplayStore, s)
  else if canceled then (Err (storageFailure "cancel replay cleanup" ErrContext), s)
  else
    let now := unix_of (whole_second clock) in
    if now <? 0 then (Err ErrReplayStore, s)
    else transact_as ErrReplayStore "" "begin replay cleanup" c "commit replay cleanup" (cleanupExpiredRFC9421Replay now maximum) s.

(** ** The reference store *)

Record memory_store := MemoryStore { memory_entries : gmap string Z; memory_capacity : Z }.
Definition newMemoryRFC9421ReplayStore (capacity : Z) : result error memory_store :=
  let capacity := if capacity =? 0 then defaultRFC9421ReplayCapacity else capacity in
  if capacity <? 0 then Err ErrReplayStore else Ok (MemoryStore ∅ capacity).

(** The tail of the locked call: evict what expired if full, then insert. *)
Definition memory_insert (now expires : Z) (key : string) (capacity : Z) (entries : gmap string Z) : result error bool * memory_store :=
  let entries := if capacity <=? Z.of_nat (size entries) then filter (λ e : string * Z, now < e.2) entries else entries in
  if capacity <=? Z.of_nat (size entries) then (Err ErrReplayStoreFull, MemoryStore entries capacity)
  else (Ok true, MemoryStore (<[key := expires]> entries) capacity).
(** One locked call; [canceled] is the context before and after the lock. *)
Definition MemoryReserve (canceled : bool) (clock : Z) (key : string) (expiresAt : Z) (s : memory_store) : result error bool * memory_store :=
  if (memory_capacity s <=? 0) || canceled then (Err ErrReplayStore, s)
  else
    let expires := whole_second expiresAt in
    let now := whole_second clock in
    if negb (now <? expires) then (Err ErrReplayStore, s)
    else
      match memory_entries s !! key with
      | Some existing =>
          if now <? existing then (Ok false, s)
          else memory_insert now expires key (memory_capacity s) (delete key (memory_entries s))
      | None => memory_insert now expires key (memory_capacity s) (memory_entries s)
      end.

(** * No reserved nonce is accepted again before it expires Both stores answer as the history of accepted reservations says, whatever cleanups and failing calls come between. *)

(** ** The statements *)

(** What cleaning at [now] may do: expired rows may go, nothing else changes. *)
Definition cleaned (now : Z) (s s' : replay_table) : Prop :=
  ∀ key, s' !! key = s !! key ∨ s' !! key = None ∧ ∃ row, s !! key = Some row ∧ replay_expires_at row ≤ now.
Lemma cleaned_refl now s : cleaned now s s.
Proof. by left. Qed.
Lemma cleaned_trans now s1 s2 s3 : cleaned now s1 s2 → cleaned now s2 s3 → cleaned now s1 s3.
Proof.
  intros H1 H2 key. destruct (H2 key) as [->|[-> (row&Hr&He)]]; [apply H1|right]. split; [done|].
  destruct (H1 key) as [<-|[Hn _]]; [eauto|congruence].
Qed.
Lemma cleaned_live now s s' key row : cleaned now s s' → s !! key = Some row → now < replay_expires_at row → s' !! key = Some row.
Proof. intros Hc Hr Hl. destruct (Hc key) as [->|[_ (row'&Hr'&He)]]; [done|]. assert (row' = row) as -> by congruence. lia. Qed.
Lemma cleaned_kept now s s' key row : cleaned now s s' → s' !! key = Some row → s !! key = Some row.
Proof. intros Hc Hr. destruct (Hc key) as [<-|[Hn _]]; congruence. Qed.

Lemma delete_expired_key_run key now s : ∃ s', delete_expired_key key now s = Some (s', tt) ∧ cleaned now s s' ∧
  (∀ row, s' !! key = Some row → now < replay_expires_at row).
Proof.
  unfold delete_expired_key. destruct (s !! key) as [row|] eqn:Hr.
  - destruct (Z.leb_spec (replay_expires_at row) now) as [He|He]; (eexists; split; [done|]).
    + split; [|by intros row'; rewrite lookup_delete_eq]. intros key'. destruct (decide (key' = key)) as [->|Hne]; [right|left; by apply lookup_delete_ne].
      rewrite lookup_delete_eq. eauto.
    + split; [apply cleaned_refl|]. intros row' Hr'. assert (row' = row) as -> by congruence. done.
  - exists s. split; [done|]. split; [apply cleaned_refl|]. intros row. by rewrite Hr.
Qed.
Lemma fold_delete_cleaned now rows s : (∀ row, In row rows → s !! row.1 = Some row.2 ∧ replay_expires_at row.2 ≤ now) →
  cleaned now s (fold_right (λ row s, delete row.1 s) s rows).
Proof.
  intros Hrows key. induction rows as [|row rows IH]; [by left|]. simpl. destruct (decide (key = row.1)) as [->|Hne].
  - right. split; [apply lookup_delete_eq|]. exists row.2. apply Hrows. by left.
  - rewrite lookup_delete_ne by done. apply IH. intros r Hr. apply Hrows. by right.
Qed.
Lemma delete_expired_run now maximum s : 0 < maximum → ∃ s' n, delete_expired now maximum s = Some (s', n) ∧ cleaned now s s' ∧ 0 ≤ n ≤ maximum.
Proof.
  intros Hm. unfold delete_expired. do 2 eexists. split; [done|]. split; [|rewrite length_take; lia].
  apply fold_delete_cleaned. intros [key row] Hr. apply list_elem_of_In, subseteq_take, list_elem_of_In, order_by_in, filter_In in Hr as [Hr He].
  split; [by apply elem_of_map_to_list, list_elem_of_In|]. by apply Z.leb_le.
Qed.

(** ** One reservation *)

Lemma cleanup_run now maximum s : 0 < maximum → ∃ s' n,
  cleanupExpiredRFC9421Replay now maximum (s, []) = (Ok n, (s', [])) ∧ cleaned now s s' ∧ 0 ≤ n ≤ maximum.
Proof.
  intros Hm. destruct (delete_expired_run now maximum s Hm) as (s'&n&Hd&Hc&Hn). exists s', n. split; [|done].
  unfold cleanupExpiredRFC9421Replay. session_run. rewrite Hd. session_run.
  by rewrite (proj2 (Z.leb_le _ _) (proj1 Hn)), (proj2 (Z.leb_le _ _) (proj2 Hn)).
Qed.
Lemma reserve_run cleanupBatch key now expires s : 0 < cleanupBatch → len key = 32 → 0 ≤ now < expires →
  ∃ s1, cleaned now s s1 ∧
    match s1 !! key with
    | Some row => now < replay_expires_at row ∧ reserve_tx cleanupBatch key now expires (s, []) = (Ok false, (s1, []))
    | None => reserve_tx cleanupBatch key now expires (s, []) = (Ok true, (<[key := ReplayRow now expires]> s1, []))
    end.
Proof.
  intros Hb Hk He. destruct (delete_expired_key_run key now s) as (s0&Hd&Hc0&Hlive).
  destruct (cleanup_run now cleanupBatch s0 Hb) as (s1&n&Hrun&Hc1&_). exists s1. split; [by apply (cleaned_trans now s s0)|].
  unfold reserve_tx. session_run. rewrite Hd. session_run. rewrite Hrun. session_run. unfold insert_reservation, replay_check.
  rewrite Hk. cbn [replay_reserved_at replay_expires_at]. rewrite (proj2 (Z.leb_le 0 now)), (proj2 (Z.ltb_lt now expires)) by lia. cbn [andb negb Z.eqb Pos.eqb].
  destruct (s1 !! key) as [row|] eqn:Hr; [|done]. split; [|done]. apply Hlive. by apply (cleaned_kept now s0 s1).
Qed.
Lemma steady_cleanup now maximum : steady (cleanupExpiredRFC9421Replay now maximum).
Proof. unfold cleanupExpiredRFC9421Replay. steady. Qed.
Lemma steady_reserve cleanupBatch key now expires : steady (reserve_tx cleanupBatch key now expires).
Proof. unfold reserve_tx. pose proof (steady_cleanup now cleanupBatch). steady. Qed.

Lemma replay_validated c canceled batch clock expiresAt now expires : replay_validate c canceled batch clock expiresAt = Ok (now, expires) →
  now = unix_of clock ∧ expires = unix_of expiresAt ∧ 0 ≤ now < expires ∧ expires ≤ now + 600 ∧ 0 < batch.
Proof.
  unfold replay_validate, whole_second. destruct (_ || _ || _) eqn:Hc; [done|]. destruct canceled; [done|]. cbv zeta.
  rewrite !unix_of_time_of_unix. bool_facts. destruct (_ || _ || _) eqn:He; [done|]. intros [= <- <-]. bool_facts.
  unfold time_of_unix, RFC9421ReplayTTL, minute, second, nanosecond in *. lia.
Qed.

(** ** The history of the table *)

(** The accepted reservations, newest first, of a table served by calls with any
    driver outcomes at times that do not go back, from a given state on. *)
Inductive served (last0 : Z) (h0 : list (string * Z)) (s0 : replay_table) : Z → list (string * Z) → replay_table → Prop :=
| served_start : served last0 h0 s0 last0 h0 s0
| served_reserve last h s c canceled batch clock key expiresAt out s' :
    served last0 h0 s0 last h s → last ≤ unix_of clock →
    ReserveRFC9421Replay c canceled batch clock key expiresAt s = (out, s') →
    served last0 h0 s0 (unix_of clock) (match out with Ok true => (key, unix_of expiresAt) :: h | _ => h end) s'
| served_cleanup last h s c canceled clock maximum out s' :
    served last0 h0 s0 last h s → last ≤ unix_of clock →
    CleanupExpiredRFC9421Replay c canceled clock maximum s = (out, s') → served last0 h0 s0 (unix_of clock) h s'.
Definition reservations : Z → list (string * Z) → replay_table → Prop := served 0 [] ∅.

(** [key] was accepted with an expiry after [now]. *)
Definition unexpired (now : Z) (key : string) (h : list (string * Z)) : bool := existsb (λ r, (r.1 ≟ key) && (now <? r.2)) h.
Lemma unexpired_true now key h : unexpired now key h = true ↔ ∃ e, In (key, e) h ∧ now < e.
Proof.
  unfold unexpired. rewrite existsb_exists. split.
  - intros ([k e]&Hin&[Hk%String.eqb_eq He%Z.ltb_lt]%andb_true_iff). simpl in *. subst k. eauto.
  - intros (e&Hin&He). exists (key, e). split; [done|]. simpl. by rewrite String.eqb_refl, (proj2 (Z.ltb_lt _ _) He).
Qed.

Record history_ok (last : Z) (h : list (string * Z)) (s : replay_table) : Prop := {
  history_kept : ∀ key e, In (key, e) h → last < e → ∃ row, s !! key = Some row ∧ replay_expires_at row = e;
  history_only : ∀ key row, s !! key = Some row → In (key, replay_expires_at row) h }.

Lemma history_cleaned last now h s s' : last ≤ now → history_ok last h s → cleaned now s s' → history_ok now h s'.
Proof.
  intros Hl [Hk Ho] Hc. split.
  - intros key e Hin He. destruct (Hk key e Hin) as (row&Hr&<-); [lia|]. exists row. split; [by apply (cleaned_live now s)|done].
  - intros key row Hr. apply Ho. by apply (cleaned_kept now s s').
Qed.
Lemma history_same last now h s : last ≤ now → history_ok last h s → history_ok now h s.
Proof. intros Hl Hh. apply (history_cleaned last now h s s Hl Hh), cleaned_refl. Qed.

Lemma reserve_refused c canceled batch clock key expiresAt s out s' e :
  ReserveRFC9421Replay c canceled batch clock key expiresAt s = (out, s') → out = Err e → s' = s.
Proof.
  unfold ReserveRFC9421Replay. intros Hr ->. destruct (replay_validate _ _ _ _ _) as [[now expires]|e']; [|by injection Hr].
  by apply transact_as_error in Hr.
Qed.

Lemma long_key_refused batch key now expires s : 0 < batch → len key ≠ 32 →
  ∃ st, reserve_tx batch key now expires (s, []) = (Err (storageFailure "write replay reservation" ErrConstraint), st).
Proof.
  intros Hb Hk. destruct (delete_expired_key_run key now s) as (s0&Hd&_). destruct (cleanup_run now batch s0 Hb) as (s1&n&Hrun&_).
  eexists. unfold reserve_tx. session_run. rewrite Hd. session_run. rewrite Hrun. session_run. unfold insert_reservation, replay_check.
  rewrite (proj2 (Z.eqb_neq _ _) Hk). done.
Qed.

(** What an accepted or refused reservation found and left. *)
Lemma reserve_ok last h c canceled batch clock key expiresAt s fresh s' : history_ok last h s → last ≤ unix_of clock →
  ReserveRFC9421Replay c canceled batch clock key expiresAt s = (Ok fresh, s') →
  fresh = negb (unexpired (unix_of clock) key h) ∧ history_ok (unix_of clock) (if fresh then (key, unix_of expiresAt) :: h else h) s'.
Proof.
  intros Hh Hl Hr. unfold ReserveRFC9421Replay in Hr. destruct (replay_validate _ _ _ _ _) as [[now expires]|e] eqn:Hv; [|done].
  apply replay_validated in Hv as (->&->&Hne&_&Hb). apply transact_as_ok in Hr; [|apply steady_reserve]. set (now := unix_of clock) in *.
  destruct (Z.eq_dec (len key) 32) as [Hk|Hk]; [|destruct (long_key_refused batch key now (unix_of expiresAt) s Hb Hk) as [st Hst]; congruence].
  destruct (reserve_run batch key now (unix_of expiresAt) s Hb Hk Hne) as (s1&Hc&Hcase).
  pose proof (history_cleaned last now h s s1 Hl Hh Hc) as Hh1. destruct Hh1 as [Hkept Honly]. destruct (s1 !! key) as [row|] eqn:Hrow.
  - destruct Hcase as [Hlive Hrun]. rewrite Hrun in Hr. injection Hr as <- <-. split; [|by split]. symmetry. apply negb_false_iff, unexpired_true.
    exists (replay_expires_at row). auto.
  - rewrite Hcase in Hr. injection Hr as <- <-. split.
    + symmetry. apply negb_true_iff, not_true_is_false. intros (e&Hin&He)%unexpired_true. destruct (Hkept key e Hin He) as (row&Hr&_). congruence.
    + split.
      * intros k e [[= <- <-]|Hin] He; [rewrite lookup_insert_eq; by eexists|]. destruct (Hkept k e Hin He) as (row&Hr&Hre).
        exists row. rewrite lookup_insert_ne by congruence. done.
      * intros k row Hr. destruct (decide (k = key)) as [->|Hne'].
        -- rewrite lookup_insert_eq in Hr. injection Hr as <-. by left.
        -- rewrite lookup_insert_ne in Hr by done. right. by apply Honly.
Qed.
Lemma cleanup_ok last h c canceled clock maximum s out s' : history_ok last h s → last ≤ unix_of clock →
  CleanupExpiredRFC9421Replay c canceled clock maximum s = (out, s') → history_ok (unix_of clock) h s'.
Proof.
  intros Hh Hl Hr. assert (Hsame := history_same last (unix_of clock) h s Hl Hh). unfold CleanupExpiredRFC9421Replay, whole_second in Hr.
  rewrite unix_of_time_of_unix in Hr. destruct (_ || _ || _) eqn:Hin in Hr; [by injection Hr as _ <-|]. destruct canceled; [by injection Hr as _ <-|].
  cbv zeta in Hr. destruct (unix_of clock <? 0); [by injection Hr as _ <-|]. destruct out as [n|e].
  - apply transact_as_ok in Hr; [|apply steady_cleanup]. bool_facts. destruct (cleanup_run (unix_of clock) maximum s) as (s1&n1&Hrun&Hc&_); [lia|].
    rewrite Hrun in Hr. injection Hr as _ <-. by apply (history_cleaned last _ h s).
  - by apply transact_as_error in Hr as ->.
Qed.
Lemma served_ok last0 h0 s0 last h s : history_ok last0 h0 s0 → served last0 h0 s0 last h s → history_ok last h s.
Proof.
  intros H0. induction 1 as [|last h s c canceled batch clock key expiresAt out s' _ IH Hl Hr|last h s c canceled clock maximum out s' _ IH Hl Hr].
  - done.
  - destruct out as [fresh|e].
    + destruct (reserve_ok _ _ _ _ _ _ _ _ _ _ _ IH Hl Hr) as [_ Hh]. by destruct fresh.
    + rewrite (reserve_refused _ _ _ _ _ _ _ _ _ e Hr eq_refl). by apply (history_same last).
  - by apply (cleanup_ok last h c canceled clock maximum s out).
Qed.
Lemma reservations_ok last h s : reservations last h s → history_ok last h s.
Proof. apply served_ok. split; [done|]. intros key row. by rewrite lookup_empty. Qed.
Lemma served_keeps last0 h0 s0 last h s r : served last0 h0 s0 last h s → In r h0 → In r h.
Proof.
  induction 1 as [|? ? ? ? ? ? ? ? ? out ? _ IH|]; intros Hin; [done| |by auto]. destruct out as [[]|]; [right| |]; auto.
Qed.

(** Whatever calls, failures and cleanups came before at times that do not go
    back, an answered reservation is accepted exactly when no earlier accepted
    reservation of the same key is unexpired; and an undisturbed call with a valid
    expiry is answered. *)
Theorem reservation_fresh last h s c canceled batch clock key expiresAt out s' :
  reservations last h s → last ≤ unix_of clock →
  ReserveRFC9421Replay c canceled batch clock key expiresAt s = (out, s') →
  (∀ fresh, out = Ok fresh → fresh = negb (unexpired (unix_of clock) key h)) ∧
  (c = plain_call → len key = 32 → is_ok (replay_validate c canceled batch clock expiresAt) = true → is_ok out = true).
Proof.
  intros Hh%reservations_ok Hl Hr. split.
  - intros fresh ->. by apply (reserve_ok last h c canceled batch clock key expiresAt s fresh s').
  - intros -> Hk Hv. unfold ReserveRFC9421Replay in Hr. destruct (replay_validate _ _ _ _ _) as [[now expires]|e] eqn:Hval; [|done].
    apply replay_validated in Hval as (_&_&Hne&_&Hb). destruct (reserve_run batch key now expires s Hb Hk Hne) as (s1&_&Hcase).
    rewrite transact_as_plain in Hr. destruct (s1 !! key); [destruct Hcase as [_ Hcase]|]; rewrite Hcase in Hr; by injection Hr as <- _.
Qed.

(** ** The reference store *)

(** The two stores hold the same unexpired reservations. *)
Record agree (now : Z) (m : gmap string Z) (s : replay_table) : Prop := {
  agree_live : ∀ key e, now < e → (∃ row, s !! key = Some row ∧ replay_expires_at row = e) ↔ m !! key = Some (time_of_unix e);
  agree_whole : ∀ key t, m !! key = Some t → t = time_of_unix (unix_of t) }.

Lemma agree_later now now' m s s' : now ≤ now' → agree now m s → cleaned now' s s' → agree now' m s'.
Proof.
  intros Hn [Hl Hw] Hc. split; [|done]. intros key e He. rewrite <- Hl by lia. split; intros (row&Hr&<-); exists row; split; try done.
  - by apply (cleaned_kept now' s s').
  - by apply (cleaned_live now' s s').
Qed.
Lemma agree_evict now m m' s : agree now m s → (∀ key, m' !! key = m !! key ∨ m' !! key = None ∧ ∀ t, m !! key = Some t → t ≤ time_of_unix now) → agree now m' s.
Proof.
  intros [Hl Hw] Hm. split.
  - intros key e He. rewrite Hl by done. destruct (Hm key) as [->|[-> Hold]]; [done|]. split; [|done]. intros Ht.
    specialize (Hold _ Ht). unfold time_of_unix, second, nanosecond in *. lia.
  - intros key t Ht. destruct (Hm key) as [He|[He _]]; rewrite He in Ht; [by apply (Hw key)|done].
Qed.
Lemma agree_insert now expires key m s reserved : now < expires → agree now m s → (∀ row, s !! key = Some row → replay_expires_at row ≤ now) →
  agree now (<[key := time_of_unix expires]> m) (<[key := ReplayRow reserved expires]> s).
Proof.
  intros Hne [Hl Hw] Hk. split.
  - intros k e He. destruct (decide (k = key)) as [->|Hn]; [|rewrite !lookup_insert_ne by done; by apply Hl].
    rewrite !lookup_insert_eq. split; [intros (row&[= <-]&<-); done|]. intros [= Heq]. eexists. split; [done|]. simpl.
    unfold time_of_unix, second, nanosecond in *. lia.
  - intros k t Ht. destruct (decide (k = key)) as [->|Hn]; [|rewrite lookup_insert_ne in Ht by done; by apply (Hw k)].
    rewrite lookup_insert_eq in Ht. injection Ht as <-. by rewrite unix_of_time_of_unix.
Qed.

Lemma time_of_unix_ltb x y : (time_of_unix x <? time_of_unix y) = (x <? y).
Proof. apply eq_true_iff_eq. rewrite !Z.ltb_lt. unfold time_of_unix, second, nanosecond. lia. Qed.

Lemma memory_insert_agree n e key capacity entries s1 out m' : n < e → agree n entries s1 → s1 !! key = None →
  memory_insert (time_of_unix n) (time_of_unix e) key capacity entries = (out, m') →
  match out with Err e => e = ErrReplayStoreFull | Ok fresh => fresh = true ∧ agree n (memory_entries m') (<[key := ReplayRow n e]> s1) end.
Proof.
  intros Hne Hent Hrows. unfold memory_insert. set (kept := if capacity <=? Z.of_nat (size entries) then _ else entries).
  assert (Hk : agree n kept s1).
  { unfold kept. destruct (capacity <=? Z.of_nat (size entries)); [|done]. apply (agree_evict n entries); [done|]. intros k.
    destruct (entries !! k) as [t|] eqn:Ht.
    - destruct (decide (time_of_unix n < t)) as [Hlive|Hdead]; [left; by apply map_lookup_filter_Some|right].
      split; [|intros t' [= <-]; lia]. apply map_lookup_filter_None. right. intros t' Ht'. simpl. by assert (t' = t) as -> by congruence.
    - left. apply map_lookup_filter_None. by left. }
  destruct (capacity <=? Z.of_nat (size kept)); intros [= <- <-]; [done|]. split; [done|]. apply agree_insert; [done|done|].
  intros row. by rewrite Hrows.
Qed.

(** The durable store answers as the bounded reference store: from stores that
    hold the same unexpired reservations, a valid request at a later time gets the
    same answer from both, and they hold the same reservations again; only the
    reference store may instead report that it is full. *)
Theorem stores_agree now m s batch clock key expiresAt out m' :
  agree now (memory_entries m) s → 0 < memory_capacity m → now ≤ unix_of clock → len key = 32 →
  is_ok (replay_validate plain_call false batch clock expiresAt) = true →
  MemoryReserve false clock key expiresAt m = (out, m') →
  match out with
  | Err e => e = ErrReplayStoreFull
  | Ok fresh => ∃ s', ReserveRFC9421Replay plain_call false batch clock key expiresAt s = (Ok fresh, s') ∧
                  agree (unix_of clock) (memory_entries m') s'
  end.
Proof.
  intros Ha Hcap Hn Hk Hv Hm. unfold ReserveRFC9421Replay. destruct (replay_validate _ _ _ _ _) as [[now' expires]|] eqn:Hval; [|done].
  apply replay_validated in Hval as (->&->&Hne&_&Hb). set (n := unix_of clock) in *. set (e := unix_of expiresAt) in *.
  destruct (reserve_run batch key n e s Hb Hk Hne) as (s1&Hc&Hcase). rewrite transact_as_plain.
  pose proof (agree_later now n (memory_entries m) s s1 Hn Ha Hc) as Ha1.
  unfold MemoryReserve in Hm. rewrite (proj2 (Z.leb_gt _ 0) Hcap) in Hm. cbn [orb] in Hm. unfold whole_second in Hm. fold n e in Hm.
  rewrite time_of_unix_ltb, (proj2 (Z.ltb_lt n e)) in Hm by lia. cbn [negb] in Hm.
  destruct (s1 !! key) as [row|] eqn:Hrow.
  - destruct Hcase as [Hlive Hrun]. assert (Hme : memory_entries m !! key = Some (time_of_unix (replay_expires_at row))) by (apply Ha1; eauto).
    rewrite Hme, time_of_unix_ltb, (proj2 (Z.ltb_lt _ _) Hlive) in Hm. injection Hm as <- <-. exists s1. by rewrite Hrun.
  - assert (Hins : match out with Err e => e = ErrReplayStoreFull | Ok fresh => fresh = true ∧ agree n (memory_entries m') (<[key := ReplayRow n e]> s1) end).
    { destruct (memory_entries m !! key) as [t|] eqn:Ht; [|by eapply memory_insert_agree; [| | |exact Hm]; [lia|..]].
      pose proof (agree_whole _ _ _ Ha1 _ _ Ht) as Hw. rewrite Hw, time_of_unix_ltb in Hm. rewrite Hw in Ht.
      destruct (Z.ltb_spec n (unix_of t)) as [Hlive|Hdead].
      { apply Ha1 in Ht as (row&Hr&_); [congruence|done]. }
      eapply memory_insert_agree; [| | |exact Hm]; [lia| |done]. apply (agree_evict n (memory_entries m)); [done|]. intros k.
      destruct (decide (k = key)) as [->|Hne']; [right|left; by apply lookup_delete_ne]. rewrite lookup_delete_eq. split; [done|].
      intros t' Ht'. rewrite Ht in Ht'. injection Ht' as <-. unfold time_of_unix, second, nanosecond. lia. }
    destruct out as [fresh|err]; [|done]. destruct Hins as [-> Hag]. eexists. by rewrite Hcase.
Qed.
