(* ===== verification/Signature.v ===== *)
(** * Signature: verification of RFC 9421 signed operations

    [internal/protocol/v1/rfc9421.go], [content_digest.go] and the reserving
    verification of [replay.go].  The structured-field parser, the signature
    parameter reader and the RSA verifier are third-party packages, SHA-256 and
    [http.ParseTime] are taken as they are: the operations of [SignatureLibraries]. *)
From S2P Require Import Prelude GoNet Identity Text Vocabulary Store Session Replay.
From Stdlib Require Import Ascii.
Local Open Scope string_scope.
Local Open Scope Z_scope.
Local Open Scope go_scope.
Local Open Scope list_scope.

Definition RFC9421SignatureTag := "activity-relay-directory-v1".
Definition RFC9421MaximumAge : Z := 5 * minute.
Definition RFC9421FutureSkew : Z := 30 * second.
Definition RFC9421MaximumLifetime : Z := 5 * minute.
Definition maxRFC9421KeyIDBytes : Z := 2048.
Definition maxRFC9421NonceBytes : Z := 256.
Definition maxRFC9421SignatureBytes : Z := 1024.
Definition maxRFC9421Components : Z := 32.
Definition minimumRFC9421RSAKeyBits : Z := 2048.

Inductive auth_error :=
| ErrRFC9421Configuration | ErrRFC9421Malformed | ErrRFC9421Policy | ErrRFC9421Time | ErrRFC9421Digest | ErrRFC9421Key
| ErrRFC9421Crypto | ErrRFC9421ActorBinding | ErrRFC9421Replay | ErrRFC9421ReplayStore.

Definition rfc9421POSTComponents : list string :=
  ["@method"; "@authority"; "@target-uri"; "content-digest"; "content-type"; "date"].

(** ** What the verifier is given *)

(** A [*url.URL] of a request: the URL, the user information as [String] prints
    it, and the fragment. *)
Record request_url := RequestURL { url_target : URL; url_user : bytes; url_fragment : bytes }.
(** An [*http.Request]; the header is keyed by lower-case field names. *)
Record http_request := HttpRequest {
  request_method : string; request_URL : option request_url; request_host : string; request_header : option (gmap string (list string)) }.
Definition header_values (request : http_request) (name : string) : list string :=
  match request_header request with Some h => default [] (h !! str (map lower_byte (b name))) | None => [] end.

(** [rsa.PublicKey] with its modulus; [RFC9421ResolvedKey]. *)
Record public_key := PublicKey { modulus : option Z; exponent : Z }.
Definition bit_len (n : Z) : Z := if n =? 0 then 0 else Z.log2 (Z.abs n) + 1.
Record resolved_key := ResolvedKey { key_KeyID : string; key_Owner : string; key_ActorID : string; key_PublicKey : option public_key }.

(** Bare items, inner lists and members of a structured-field dictionary. *)
Inductive bare_item := BareString (s : string) | BareBytes (l : bytes) | BareOther.
Record sf_item := SfItem { item_value : bare_item; item_params : option (list (string * bare_item)) }.
Record inner_list := InnerList { inner_items : list sf_item; inner_params : option (list (string * bare_item)) }.
Inductive sf_member := MemberList (l : inner_list) | MemberItem (i : sf_item).
Record sig_params := SigParams {
  params_KeyID : string; params_Tag : string; params_Alg : string; params_Created : Z; params_Expires : Z;
  params_Covered : list string; params_Nonce : string }.
(** The zero [time.Time], year 1. *)
Definition zero_time : Z := time_of_unix (-62135596800).

Class SignatureLibraries := {
  RSASSA_PKCS1_1_5_SHA256 : string;
  dictionary : Type;
  UnmarshalDictionary : list string → option dictionary;
  dictionary_Names : dictionary → list string;
  dictionary_Get : dictionary → string → option sf_member;
  MarshalInnerList : inner_list → option string;
  UnmarshalInnerList : inner_list → option sig_params;
  rsa_Verify : public_key → string → bytes → bool;
  sha256 : bytes → bytes;
  http_ParseTime : string → option Z }.

Section Verification.
Context `{RelayIdentity} `{SignatureLibraries}.

(** The algorithm name of the RSA package *)
Definition RFC9421SignatureAlgorithm : string := RSASSA_PKCS1_1_5_SHA256.

Record verification := Verification {
  ver_KeyID : string; ver_KeyOwner : string; ver_KeyActor : string; ver_Nonce : string; ver_Created : Z; ver_Expires : Z;
  ver_Covered : list string; ver_Algorithm : string }.

(** [DeriveRFC9421ReplayKey] *)
Definition DeriveRFC9421ReplayKey (keyID nonce : string) : string := str (sha256 (b keyID ++ [ascii_of_N 0] ++ b nonce)).

(** ** content_digest.go *)

Inductive digest_error := ErrContentDigestMissing | ErrContentDigestMalformed | ErrContentDigestSHA256Missing | ErrContentDigestSHA256Invalid | ErrContentDigestMismatch.
Definition VerifyRFC9530ContentDigestSHA256 (values : list string) (body : bytes) : option digest_error :=
  match values with
  | [] => Some ErrContentDigestMissing
  | _ =>
      match UnmarshalDictionary values with
      | None => Some ErrContentDigestMalformed
      | Some d =>
          match dictionary_Get d "sha-256" with
          | None => Some ErrContentDigestSHA256Missing
          | Some (MemberItem i) =>
              match item_value i with
              | BareBytes presented =>
                  if negb (Z.of_nat (length presented) =? 32) then Some ErrContentDigestSHA256Invalid
                  else if negb (bytes_eqb presented (sha256 body)) then Some ErrContentDigestMismatch else None
              | _ => Some ErrContentDigestSHA256Invalid
              end
          | Some (MemberList _) => Some ErrContentDigestSHA256Invalid
          end
      end
  end.

(** ** The signature message *)

Record parsed_message := ParsedMessage { message_params : sig_params; message_signatureParams : string; message_signature : bytes }.
Definition allowedParameters : list string := ["alg"; "created"; "expires"; "keyid"; "nonce"; "tag"].
Definition plain_component (i : sf_item) : bool :=
  match item_value i, item_params i with BareString _, Some [] => true | _, _ => false end.

Definition parseRFC9421Message (request : http_request) : result auth_error parsed_message :=
  let inputs := header_values request "Signature-Input" in
  let signatures := header_values request "Signature" in
  if (length inputs =? 0)%nat || (length signatures =? 0)%nat then Err ErrRFC9421Malformed
  else
    match UnmarshalDictionary inputs, UnmarshalDictionary signatures with
    | Some inputs, Some signatures =>
        match dictionary_Names inputs, dictionary_Names signatures with
        | [name], [name'] =>
            if negb (name ≟ name') || (64 <? len name) then Err ErrRFC9421Policy
            else
              match dictionary_Get inputs name with
              | Some (MemberList inner) =>
                  if (length (inner_items inner) =? 0)%nat || (maxRFC9421Components <? Z.of_nat (length (inner_items inner))) then Err ErrRFC9421Malformed
                  else if negb (forallb plain_component (inner_items inner)) then Err ErrRFC9421Malformed
                  else
                    match inner_params inner with
                    | None => Err ErrRFC9421Malformed
                    | Some params =>
                        if negb (forallb (λ p, one_of allowedParameters p.1) params) then Err ErrRFC9421Policy
                        else
                          match UnmarshalInnerList inner, MarshalInnerList inner with
                          | Some params, Some signatureParams =>
                              match dictionary_Get signatures name' with
                              | Some (MemberItem i) =>
                                  match item_params i, item_value i with
                                  | Some [], BareBytes signature =>
                                      if (length signature =? 0)%nat || (maxRFC9421SignatureBytes <? Z.of_nat (length signature)) then Err ErrRFC9421Malformed
                                      else Ok (ParsedMessage params signatureParams signature)
                                  | _, _ => Err ErrRFC9421Malformed
                                  end
                              | _ => Err ErrRFC9421Malformed
                              end
                          | _, _ => Err ErrRFC9421Malformed
                          end
                    end
              | _ => Err ErrRFC9421Malformed
              end
        | _, _ => Err ErrRFC9421Policy
        end
    | _, _ => Err ErrRFC9421Malformed
    end.

Definition component_char (c : ascii) : bool := is_lower c || is_digit c || mem c "!#$%&'*+-.^_`|~".
Definition validRFC9421ComponentName (component : string) : bool :=
  one_of ["@method"; "@authority"; "@scheme"; "@target-uri"] component ||
  match b component with
  | [] => false
  | c :: _ => negb (c ≡c "@") && forallb component_char (b component)
  end.
(** The loop over the covered components, with the names seen. *)
Fixpoint components_ok (seen components : list string) : bool :=
  match components with
  | [] => true
  | component :: rest => validRFC9421ComponentName component && negb (one_of seen component) && components_ok (component :: seen) rest
  end.

Definition validateRFC9421Parameters (params : sig_params) (now : Z) (expectedTag : string) : option auth_error :=
  if (expectedTag ≟ "") || negb (params_Tag params ≟ expectedTag) || negb (params_Alg params ≟ RFC9421SignatureAlgorithm) then Some ErrRFC9421Policy
  else if (params_KeyID params ≟ "") || surrounded_by_space (b (params_KeyID params)) || (maxRFC9421KeyIDBytes <? len (params_KeyID params)) then Some ErrRFC9421Policy
  else if (params_Nonce params ≟ "") || (maxRFC9421NonceBytes <? len (params_Nonce params)) then Some ErrRFC9421Policy
  else if (params_Created params =? zero_time) || (params_Expires params =? zero_time) then Some ErrRFC9421Time
  else if (params_Created params <? now - RFC9421MaximumAge) || (now + RFC9421FutureSkew <? params_Created params) then Some ErrRFC9421Time
  else if negb (params_Created params <? params_Expires params) || negb (now <? params_Expires params) ||
          (params_Created params + RFC9421MaximumLifetime <? params_Expires params) then Some ErrRFC9421Time
  else if negb (components_ok [] (params_Covered params)) then Some ErrRFC9421Policy
  else if negb (forallb (one_of (params_Covered params)) rfc9421POSTComponents) then Some ErrRFC9421Policy
  else None.

Definition validateRFC9421Request (request : http_request) (authority : string) (now : Z) : option auth_error :=
  match request_URL request with
  | None => Some ErrRFC9421Policy
  | Some url =>
      let url_host := str (Host (url_target url)) in
      let wireAuthority := if request_host request ≟ "" then url_host else request_host request in
      if negb (request_method request ≟ "POST") || negb (wireAuthority ≟ authority) ||
         (negb (url_host ≟ "") && negb (url_host ≟ authority)) ||
         (negb (str (Scheme (url_target url)) ≟ "") && negb (str (Scheme (url_target url)) ≟ "https")) ||
         negb (bytes_eqb (url_fragment url) []) then Some ErrRFC9421Policy
      else
        match header_values request "Content-Type" with
        | [value] =>
            if negb (value ≟ "application/json") then Some ErrRFC9421Policy
            else
              match header_values request "Date" with
              | [value] =>
                  match http_ParseTime value with
                  | None => Some ErrRFC9421Time
                  | Some date => if (date <? now - RFC9421MaximumAge) || (now + RFC9421FutureSkew <? date) then Some ErrRFC9421Time else None
                  end
              | _ => Some ErrRFC9421Time
              end
        | _ => Some ErrRFC9421Policy
        end
  end.

(** ** The signing string *)

(** [copiedURL.String()] with scheme https and the verifier's authority *)
Definition escape_host (s : bytes) : bytes := flat_map (λ c, if should_escape c encodeHost then percent_encode c else [c]) s.
Definition target_uri (url : request_url) (authority : string) : string :=
  let u := url_target url in
  let u := if bytes_eqb (Path u) []
           then {| Scheme := Scheme u; Opaque := Opaque u; HasUser := HasUser u; Host := Host u; Path := b "/"; RawPath := RawPath u;
                   ForceQuery := ForceQuery u; RawQuery := RawQuery u |} else u in
  let path := EscapedPath u in
  let rest :=
    if negb (bytes_eqb (Opaque u) []) then Opaque u
    else b "//" ++ url_user url ++ escape_host (b authority) ++
         (match path with c :: _ => if c ≡c "/" then [] else b "/" | [] => [] end) ++ path in
  let query := if ForceQuery u || negb (bytes_eqb (RawQuery u) []) then b "?" ++ RawQuery u else [] in
  str (b "https:" ++ rest ++ query).

Definition line_break (c : ascii) : bool := (byte c =? 13) || (byte c =? 10).
Definition newline : ascii := byte_of 10.
Fixpoint join_values (values : list bytes) : bytes :=
  match values with
  | [] => []
  | [v] => v
  | v :: rest => v ++ b ", " ++ join_values rest
  end.
Definition rfc9421ComponentValue (request : http_request) (url : request_url) (authority component : string) : option bytes :=
  if component ≟ "@method" then Some (b (request_method request))
  else if component ≟ "@authority" then Some (b authority)
  else if component ≟ "@scheme" then Some (b "https")
  else if component ≟ "@target-uri" then Some (b (target_uri url authority))
  else
    let values := header_values request component in
    if (length values =? 0)%nat || existsb (λ v, existsb line_break (b v)) values then None
    else Some (join_values (map (λ v, trim_space (b v)) values)).

Definition component_line (component : string) (value : bytes) : bytes :=
  [quote] ++ b component ++ [quote] ++ b ": " ++ value ++ [newline].
Fixpoint signing_lines (request : http_request) (url : request_url) (authority : string) (components : list string) : option bytes :=
  match components with
  | [] => Some []
  | component :: rest =>
      value ← rfc9421ComponentValue request url authority component;
      lines ← signing_lines request url authority rest;
      Some (component_line component value ++ lines)
  end.
Definition params_line (signatureParams : string) : bytes := [quote] ++ b "@signature-params" ++ [quote] ++ b ": " ++ b signatureParams.
Definition canonicalRFC9421SigningString (request : http_request) (authority : string) (components : list string) (signatureParams : string)
    : option string :=
  match request_URL request with
  | None => None
  | Some url =>
      if signatureParams ≟ "" then None
      else lines ← signing_lines request url authority components; Some (str (lines ++ params_line signatureParams))
  end.

(** ** The key and the actor *)

Definition validateRFC9421ResolvedKey (resolved : resolved_key) (keyID : string) : result auth_error (string * string) :=
  if negb (key_KeyID resolved ≟ keyID) ||
     match key_PublicKey resolved with
     | Some k => match modulus k with Some n => bit_len n <? minimumRFC9421RSAKeyBits | None => true end
     | None => true
     end then Err ErrRFC9421Key
  else if negb (canonical_actor (key_Owner resolved)) then Err ErrRFC9421Key
  else if negb (canonical_actor (key_ActorID resolved)) || negb (key_ActorID resolved ≟ key_Owner resolved) then Err ErrRFC9421Key
  else Ok (key_Owner resolved, key_ActorID resolved).
Definition BindRelayActor (v : verification) (relayActor : string) : bool :=
  canonical_actor relayActor && (relayActor ≟ ver_KeyOwner v) && (relayActor ≟ ver_KeyActor v).

(** ** The verifier *)

(** [NewRFC9421Verifier]: the authority of a canonical public base URL *)
Definition NewRFC9421Verifier (authority : string) : result auth_error string :=
  if (authority ≟ "") || surrounded_by_space (b authority) then Err ErrRFC9421Configuration
  else
    match NormalizePublicBaseURL (String.append "https://" authority) with
    | None => Err ErrRFC9421Configuration
    | Some base =>
        let trimmed := if has_prefix (b base) (b "https://") then drop 8 (b base) else b base in
        if bytes_eqb trimmed (b authority) then Ok authority else Err ErrRFC9421Configuration
    end.

(** [resolve] is the key resolver's answer for the request; [clock] what
    [verifier.now()] returns. *)
Definition VerifyPOSTWithTag (authority : string) (clock : Z) (resolve : string → option resolved_key)
    (request : http_request) (body : bytes) (expectedTag : string) : result auth_error verification :=
  if is_null (request_header request) then Err ErrRFC9421Policy
  else
    let now := whole_second clock in
    match validateRFC9421Request request authority now with
    | Some e => Err e
    | None =>
        match parseRFC9421Message request with
        | Err e => Err e
        | Ok message =>
            let params := message_params message in
            match validateRFC9421Parameters params now expectedTag with
            | Some e => Err e
            | None =>
                match VerifyRFC9530ContentDigestSHA256 (header_values request "Content-Digest") body with
                | Some _ => Err ErrRFC9421Digest
                | None =>
                    match resolve (params_KeyID params) with
                    | None => Err ErrRFC9421Key
                    | Some resolved =>
                        match validateRFC9421ResolvedKey resolved (params_KeyID params), key_PublicKey resolved with
                        | Ok (owner, actor), Some key =>
                            match canonicalRFC9421SigningString request authority (params_Covered params) (message_signatureParams message) with
                            | None => Err ErrRFC9421Policy
                            | Some signingString =>
                                if rsa_Verify key signingString (message_signature message) then
                                  Ok (Verification (params_KeyID params) owner actor (params_Nonce params) (params_Created params)
                                        (params_Expires params) (params_Covered params) (params_Alg params))
                                else Err ErrRFC9421Crypto
                            end
                        | Err e, _ => Err e
                        | _, None => Err ErrRFC9421Key
                        end
                    end
                end
            end
        end
    end.

(** [VerifyPOSTAndReserveWithTag] over a replay store with state [W]; the clock is
    read again for the expiry of the reservation. *)
Definition VerifyPOSTAndReserveWithTag {W} (store : string → Z → W → result error bool * W)
    (authority : string) (clock reserveClock : Z) (resolve : string → option resolved_key)
    (request : http_request) (body : bytes) (relayActor expectedTag : string) (w : W) : result auth_error verification * W :=
  match VerifyPOSTWithTag authority clock resolve request body expectedTag with
  | Err e => (Err e, w)
  | Ok v =>
      if negb (BindRelayActor v relayActor) then (Err ErrRFC9421ActorBinding, w)
      else
        let expiresAt := whole_second reserveClock + RFC9421ReplayTTL in
        match store (DeriveRFC9421ReplayKey (ver_KeyID v) (ver_Nonce v)) expiresAt w with
        | (Err _, w) => (Err ErrRFC9421ReplayStore, w)
        | (Ok false, w) => (Err ErrRFC9421Replay, w)
        | (Ok true, w) => (Ok v, w)
        end
  end.
Definition VerifyPOSTAndReserve {W} (store : string → Z → W → result error bool * W) (authority : string) (clock reserveClock : Z)
    (resolve : string → option resolved_key) (request : http_request) (body : bytes) (relayActor : string) (w : W) :=
  VerifyPOSTAndReserveWithTag store authority clock reserveClock resolve request body relayActor RFC9421SignatureTag w.
End Verification.
