(* ===== verification/SignatureFacts.v ===== *)
(** * SignatureFacts: what an accepted signed request establishes

    Soundness of the verification, what the signature binds, and that no signature
    is accepted twice. *)
From S2P Require Import Prelude GoNet Identity Text Vocabulary Store Session Replay Signature.
From Stdlib Require Import Ascii.
Local Open Scope string_scope.
Local Open Scope Z_scope.
Local Open Scope go_scope.
Local Open Scope list_scope.

Section Facts.
Context `{RelayIdentity} `{SignatureLibraries}.

(** ** Soundness *)

(** The times a signature is accepted at. *)
Definition timely (params_created params_expires now : Z) : Prop :=
  now - RFC9421MaximumAge ≤ params_created ≤ now + RFC9421FutureSkew ∧ params_created < params_expires ∧ now < params_expires ≤ params_created + RFC9421MaximumLifetime.

Lemma one_of_in l c : one_of l c = true ↔ In c l.
Proof. unfold one_of. rewrite existsb_exists. split; [by intros (x&Hx&->%String.eqb_eq)|intros Hc; exists c; by rewrite String.eqb_refl]. Qed.
Lemma components_ok_sound seen l : components_ok seen l = true →
  NoDup l ∧ (∀ c, In c l → validRFC9421ComponentName c = true ∧ ¬ In c seen).
Proof.
  revert seen. induction l as [|c l IH]; intros seen; simpl; [split; [constructor|done]|].
  intros [[Hv Hs]%andb_true_iff Hl]%andb_true_iff. apply IH in Hl as [Hnd Hall]. apply negb_true_iff in Hs. split.
  - constructor; [|done]. rewrite list_elem_of_In. intros Hc. destruct (Hall c Hc) as [_ Hni]. apply Hni. by left.
  - intros x [<-|Hx]; [split; [done|intros Hc%one_of_in; congruence]|]. destruct (Hall x Hx) as [? Hni]. split; [done|]. intros Hc. apply Hni. by right.
Qed.
Record params_sound (params : sig_params) (now : Z) (tag : string) : Prop := {
  sound_tag : params_Tag params = tag;
  sound_alg : params_Alg params = RFC9421SignatureAlgorithm;
  sound_keyid : params_KeyID params ≠ "" ∧ len (params_KeyID params) ≤ maxRFC9421KeyIDBytes;
  sound_nonce : params_Nonce params ≠ "" ∧ len (params_Nonce params) ≤ maxRFC9421NonceBytes;
  sound_times : timely (params_Created params) (params_Expires params) now;
  sound_components : NoDup (params_Covered params) ∧ (∀ component, In component rfc9421POSTComponents → In component (params_Covered params)) }.
Lemma parameters_sound params now tag : validateRFC9421Parameters params now tag = None → params_sound params now tag.
Proof.
  unfold validateRFC9421Parameters. repeat (match goal with |- (if ?x then _ else _) = _ → _ => destruct x eqn:?; [done|] end). intros _. bool_facts.
  destruct (components_ok_sound [] (params_Covered params)) as [Hnd _]; [done|]. split; try done.
  split; [done|]. intros c Hc. apply one_of_in. by apply (proj1 (forallb_forall _ _) Heqb6).
Qed.

Record request_sound (request : http_request) (authority : string) (now : Z) (url : request_url) : Prop := {
  sound_url : request_URL request = Some url;
  sound_method : request_method request = "POST";
  sound_scheme : Scheme (url_target url) = [] ∨ Scheme (url_target url) = b "https";
  sound_host : (request_host request = authority ∨ request_host request = "") ∧ (Host (url_target url) = [] ∨ Host (url_target url) = b authority);
  sound_fragment : url_fragment url = [];
  sound_type : header_values request "Content-Type" = ["application/json"];
  sound_date : ∃ text date, header_values request "Date" = [text] ∧ http_ParseTime text = Some date ∧
                 now - RFC9421MaximumAge ≤ date ≤ now + RFC9421FutureSkew }.
Lemma str_eqb_bytes l s : (str l ≟ s) = true → l = b s.
Proof. intros <-%String.eqb_eq. by rewrite b_str. Qed.
Lemma request_checked request authority now : validateRFC9421Request request authority now = None → ∃ url, request_sound request authority now url.
Proof.
  unfold validateRFC9421Request. destruct (request_URL request) as [url|] eqn:Hu; [|done]. cbv zeta.
  destruct (_ || _ || _ || _ || _) eqn:E; [done|]. repeat apply orb_false_iff in E as [E ?]. 
  destruct (header_values request "Content-Type") as [|ct []] eqn:Hct; [done| |done]. destruct (negb (ct ≟ _)) eqn:Ect; [done|].
  destruct (header_values request "Date") as [|text []] eqn:Hd; [done| |done]. destruct (http_ParseTime text) as [date|] eqn:Hp; [|done].
  destruct (_ || _) eqn:Ed; [done|]. intros _. exists url. bool_facts. subst ct.
  split; try done.
  - apply andb_false_iff in H2 as [H2|H2]; apply negb_false_iff in H2; [left|right]; by apply str_eqb_bytes in H2.
  - split; [destruct (String.eqb_spec (request_host request) "") as [He|He]; [by right|by left]|].
    apply andb_false_iff in H3 as [H3|H3]; apply negb_false_iff in H3; [left|right]; by apply str_eqb_bytes in H3.
  - by apply bytes_eqb_eq.
  - exists text, date. done.
Qed.

Record key_sound (resolved : resolved_key) (keyID relayActor : string) (key : public_key) : Prop := {
  sound_key_id : key_KeyID resolved = keyID;
  sound_key : key_PublicKey resolved = Some key;
  sound_bits : ∃ n, modulus key = Some n ∧ minimumRFC9421RSAKeyBits ≤ bit_len n;
  sound_owner : key_Owner resolved = relayActor ∧ key_ActorID resolved = relayActor;
  sound_actor : canonical_actor relayActor = true }.
Definition digest_sound (request : http_request) (body : bytes) : Prop :=
  ∃ d i, UnmarshalDictionary (header_values request "Content-Digest") = Some d ∧ dictionary_Get d "sha-256" = Some (MemberItem i) ∧
    item_value i = BareBytes (sha256 body).
Lemma digest_checked request body : VerifyRFC9530ContentDigestSHA256 (header_values request "Content-Digest") body = None → digest_sound request body.
Proof.
  unfold VerifyRFC9530ContentDigestSHA256, digest_sound. destruct (header_values request "Content-Digest") as [|v vs]; [done|].
  destruct (UnmarshalDictionary (v :: vs)) as [d|]; [|done]. destruct (dictionary_Get d "sha-256") as [[l|i]|] eqn:Hg; [done| |done].
  destruct (item_value i) as [|presented|] eqn:Hv; [done| |done]. destruct (negb (_ =? 32)); [done|].
  destruct (bytes_eqb presented (sha256 body)) eqn:He; [|done]. apply bytes_eqb_eq in He as ->. intros _. by exists d, i.
Qed.

(** What a verification establishes about the request. *)
Record established (authority : string) (now : Z) (resolve : string → option resolved_key) (request : http_request) (body : bytes)
    (tag relayActor : string) (v : verification) : Prop := {
  established_request : ∃ url, request_sound request authority now url;
  established_digest : digest_sound request body;
  established_signature : ∃ message resolved key text,
    parseRFC9421Message request = Ok message ∧ params_sound (message_params message) now tag ∧
    resolve (params_KeyID (message_params message)) = Some resolved ∧ key_sound resolved (params_KeyID (message_params message)) relayActor key ∧
    canonicalRFC9421SigningString request authority (params_Covered (message_params message)) (message_signatureParams message) = Some text ∧
    rsa_Verify key text (message_signature message) = true ∧
    v = Verification (params_KeyID (message_params message)) relayActor relayActor (params_Nonce (message_params message))
          (params_Created (message_params message)) (params_Expires (message_params message)) (params_Covered (message_params message)) RFC9421SignatureAlgorithm }.

Lemma verify_sound authority clock resolve request body tag relayActor v :
  VerifyPOSTWithTag authority clock resolve request body tag = Ok v → BindRelayActor v relayActor = true →
  established authority (whole_second clock) resolve request body tag relayActor v.
Proof.
  unfold VerifyPOSTWithTag. destruct (is_null _); [done|]. destruct (validateRFC9421Request _ _ _) eqn:Hreq; [done|].
  apply request_checked in Hreq. destruct (parseRFC9421Message request) as [message|] eqn:Hmsg; [|done].
  destruct (validateRFC9421Parameters _ _ _) eqn:Hpar; [done|]. apply parameters_sound in Hpar.
  destruct (VerifyRFC9530ContentDigestSHA256 _ _) eqn:Hdig; [done|]. apply digest_checked in Hdig.
  destruct (resolve _) as [resolved|] eqn:Hres; [|done]. destruct (validateRFC9421ResolvedKey _ _) as [[owner actor]|e] eqn:Hkey;
    destruct (key_PublicKey resolved) as [key|] eqn:Hpk; try done. 
  destruct (canonicalRFC9421SigningString _ _ _ _) as [text|] eqn:Htext; [|done]. destruct (rsa_Verify _ _ _) eqn:Hrsa; [|done].
  intros [= <-] Hbind. unfold BindRelayActor in Hbind. cbn [ver_KeyOwner ver_KeyActor] in Hbind. bool_facts. subst owner actor.
  split; [done|done|]. exists message, resolved, key, text. split_and!; try done.
  - unfold validateRFC9421ResolvedKey in Hkey. rewrite Hpk in Hkey. destruct (_ || _) eqn:E in Hkey; [done|].
    destruct (negb (canonical_actor (key_Owner resolved))) eqn:E1; [done|]. destruct (_ || _) eqn:E2 in Hkey; [done|]. injection Hkey as Ho Ha.
    bool_facts. split; [done|done| |done|done]. destruct (modulus key) as [n|]; [|done]. exists n. split; [done|by bool_facts].
  - f_equal. apply Hpar.
Qed.

Lemma reserve_established {W} (store : string → Z → W → result error bool * W) authority clock reserveClock resolve request body
    relayActor tag w v w' :
  VerifyPOSTAndReserveWithTag store authority clock reserveClock resolve request body relayActor tag w = (Ok v, w') →
  established authority (whole_second clock) resolve request body tag relayActor v ∧
  store (DeriveRFC9421ReplayKey (ver_KeyID v) (ver_Nonce v)) (whole_second reserveClock + 10 * minute) w = (Ok true, w').
Proof.
  unfold VerifyPOSTAndReserveWithTag. destruct (VerifyPOSTWithTag _ _ _ _ _ _) as [v0|e] eqn:Hv; [|done].
  destruct (BindRelayActor v0 relayActor) eqn:Hb; [|done]. cbn [negb].
  destruct (store _ _ w) as [[[]|e] w1] eqn:Hs; [|done|done]. intros [= <- <-]. split; [by apply verify_sound|done].
Qed.

(** C24: A request that is accepted was verified: it is a POST with a JSON body to the
    directory's authority, dated and signed within the allowed times, its digest is
    the SHA-256 of the body, its signature covers the six required components under
    the expected tag and verifies with an RSA key of at least 2048 bits whose
    resolved owner and actor are both the canonical relay actor of the operation,
    and its nonce was reserved for ten minutes. *)
Theorem accepted_request_verified {W} (store : string → Z → W → result error bool * W) authority clock reserveClock resolve request body
    relayActor tag w v w' :
  VerifyPOSTAndReserveWithTag store authority clock reserveClock resolve request body relayActor tag w = (Ok v, w') →
  established authority (whole_second clock) resolve request body tag relayActor v ∧
  store (DeriveRFC9421ReplayKey (ver_KeyID v) (ver_Nonce v)) (whole_second reserveClock + 10 * minute) w = (Ok true, w').
Proof. apply reserve_established. Qed.

(** ** One acceptance for one signature *)

Definition sqlite_store (c : call) (canceled : bool) (batch clock : Z) : string → Z → replay_table → result error bool * replay_table :=
  ReserveRFC9421Replay c canceled batch clock.

(** Two verifications of one signature. *)
Definition same_signature (v v' : verification) : Prop :=
  ver_KeyID v' = ver_KeyID v ∧ ver_Nonce v' = ver_Nonce v ∧ ver_Created v' = ver_Created v ∧ ver_Expires v' = ver_Expires v.

(** C23: No signature is accepted twice. Whatever the store serves between, at times
    that do not go back, a later request with the signer, nonce and times of an
    accepted one is refused, as long as its reservation follows its own
    verification within 270 seconds. *)
Theorem signature_accepted_once authority resolve resolve' request request' body body' actor actor' tag tag'
    c1 canceled1 batch1 store1 clock1 reserve1 c2 canceled2 batch2 store2 clock2 reserve2 last h s v s1 last2 h2 s2 out s3 :
  reservations last h s → last ≤ unix_of store1 → clock1 ≤ reserve1 →
  VerifyPOSTAndReserveWithTag (sqlite_store c1 canceled1 batch1 store1) authority clock1 reserve1 resolve request body actor tag s = (Ok v, s1) →
  served (unix_of store1) ((DeriveRFC9421ReplayKey (ver_KeyID v) (ver_Nonce v), unix_of reserve1 + 600) :: h) s1 last2 h2 s2 →
  last2 ≤ unix_of store2 ≤ unix_of clock2 + 270 →
  VerifyPOSTAndReserveWithTag (sqlite_store c2 canceled2 batch2 store2) authority clock2 reserve2 resolve' request' body' actor' tag' s2 = (out, s3) →
  ∀ v', out = Ok v' → ¬ same_signature v v'.
Proof.
  intros Hh Hl1 Hmono Hv1 Hserved [Hl2 Hdelay] Hv2 v' -> (Hkey&Hnonce&Hcreated&Hexpires). apply unix_of_mono in Hmono.
  apply reserve_established in Hv1 as [[_ _ (m1&_&_&_&_&Hp1&_&_&_&_&Heq1)] Hs1].
  apply reserve_established in Hv2 as [[_ _ (m2&_&_&_&_&Hp2&_&_&_&_&Heq2)] Hs2].
  pose proof (sound_times _ _ _ Hp1) as (Hc1&_&He1). pose proof (sound_times _ _ _ Hp2) as (_&_&He2).
  assert (Hexp : params_Expires (message_params m2) = params_Expires (message_params m1)) by (rewrite Heq1, Heq2 in Hexpires; exact Hexpires).
  assert (Hr : unix_of (whole_second reserve1 + 10 * minute) = unix_of reserve1 + 600).
  { unfold whole_second, unix_of, time_of_unix. change (10 * minute) with (600 * second). by rewrite <- Z.mul_add_distr_r, Z.div_mul. }
  rewrite <- Hkey, <- Hnonce in Hserved. apply reservations_ok in Hh.
  destruct (reserve_ok last h _ _ _ _ _ _ _ _ _ Hh Hl1 Hs1) as [_ Hh1]. rewrite Hr, <- Hkey, <- Hnonce in Hh1.
  pose proof (served_ok _ _ _ _ _ _ Hh1 Hserved) as Hh2.
  destruct (reserve_ok last2 h2 _ _ _ _ _ _ _ _ _ Hh2 Hl2 Hs2) as [Hfresh _]. symmetry in Hfresh. apply negb_true_iff, not_true_iff_false in Hfresh.
  apply Hfresh, unexpired_true. exists (unix_of reserve1 + 600). split; [apply (served_keeps _ _ _ _ _ _ _ Hserved); by left|].
  unfold whole_second, time_of_unix, RFC9421MaximumAge, RFC9421FutureSkew, RFC9421MaximumLifetime, minute, second, nanosecond in *. lia.
Qed.

(** ** What the signature binds *)

Definition breakless (l : bytes) : bool := negb (existsb line_break l).
Lemma line_app_inj (v1 v2 r1 r2 : bytes) : breakless v1 = true → breakless v2 = true → v1 ++ newline :: r1 = v2 ++ newline :: r2 → v1 = v2 ∧ r1 = r2.
Proof.
  unfold breakless. revert v2. induction v1 as [|c v1 IH]; intros [|d v2] H1 H2 Heq; simpl in *.
  - by injection Heq.
  - injection Heq as <- _. done.
  - injection Heq as -> _. done.
  - injection Heq as <- Heq. apply negb_true_iff in H1, H2. apply orb_false_iff in H1 as [_ H1], H2 as [_ H2].
    destruct (IH v2) as [-> ->]; [by apply negb_true_iff..|done|done].
Qed.
Lemma component_line_inj component v1 v2 r1 r2 : breakless v1 = true → breakless v2 = true →
  component_line component v1 ++ r1 = component_line component v2 ++ r2 → v1 = v2 ∧ r1 = r2.
Proof.
  intros H1 H2. unfold component_line. rewrite <- !app_assoc. intros Heq. do 4 apply app_inv_head in Heq. by apply line_app_inj.
Qed.

Lemma breakless_in l : breakless l = true ↔ ∀ c, In c l → line_break c = false.
Proof.
  unfold breakless. rewrite negb_true_iff. split.
  - intros Hl c Hc. apply not_true_is_false. intros Hb. enough (existsb line_break l = true) by congruence. apply existsb_exists. eauto.
  - intros Hl. apply not_true_is_false. intros (c&Hc&Hb)%existsb_exists. by rewrite Hl in Hb.
Qed.
Lemma trim_in c s : In c (trim_space s) → In c s.
Proof.
  unfold trim_space. rewrite <- in_rev. intros Hc. destruct (trim_end_spec (rev (trim_left s))) as [_ [k Hk]].
  assert (Hr : In c (rev (trim_left s))) by (rewrite Hk; apply in_or_app; by right). apply in_rev in Hr.
  destruct (trim_left_spec s) as [_ [k' Hk']]. rewrite Hk'. apply in_or_app. by right.
Qed.
Lemma join_breakless values : (∀ v, In v values → breakless v = true) → breakless (join_values values) = true.
Proof.
  intros Hv. induction values as [|v rest IH]; [done|]. assert (H1 : breakless v = true) by (apply Hv; by left).
  assert (H2 : breakless (join_values rest) = true) by (apply IH; intros x Hx; apply Hv; by right).
  rewrite breakless_in in H1, H2 |- *. destruct rest as [|v' rest]; [done|]. intros c Hc. change (join_values (v :: v' :: rest)) with (v ++ b ", " ++ join_values (v' :: rest)) in Hc.
  apply in_app_or in Hc as [Hc|Hc]; [by apply H1|]. apply in_app_or in Hc as [Hc|Hc]; [|by apply H2]. by destruct Hc as [<-|[<-|[]]].
Qed.

(** A covered value is the verifier's own, or has no line break. *)
Definition no_breaks (request : http_request) (url : request_url) (authority : string) : Prop :=
  breakless (b (request_method request)) = true ∧ breakless (b (target_uri url authority)) = true.
Lemma component_value_breakless request url authority component value : no_breaks request url authority →
  rfc9421ComponentValue request url authority component = Some value →
  value = b authority ∧ component = "@authority" ∨ value = b "https" ∧ component = "@scheme" ∨ breakless value = true.
Proof.
  intros [Hm Ht]. unfold rfc9421ComponentValue. destruct (component ≟ "@method"); [intros [= <-]; auto|].
  destruct (String.eqb_spec component "@authority") as [->|_]; [intros [= <-]; auto|].
  destruct (String.eqb_spec component "@scheme") as [->|_]; [intros [= <-]; auto|].
  destruct (component ≟ "@target-uri"); [intros [= <-]; auto|]. destruct (_ || _) eqn:E; [done|]. intros [= <-]. do 2 right.
  apply orb_false_iff in E as [_ E]. apply join_breakless. intros v (x&<-&Hx)%in_map_iff. apply breakless_in. intros c Hc%trim_in.
  apply not_true_is_false. intros Hb. enough (true = false) by done. rewrite <- E. symmetry. apply existsb_exists. exists x. split; [done|].
  apply existsb_exists. eauto.
Qed.

Lemma signing_lines_inj request request' url url' authority components lines lines' r r' :
  no_breaks request url authority → no_breaks request' url' authority →
  signing_lines request url authority components = Some lines → signing_lines request' url' authority components = Some lines' →
  lines ++ r = lines' ++ r' →
  ∀ component, In component components →
    rfc9421ComponentValue request url authority component = rfc9421ComponentValue request' url' authority component.
Proof.
  intros Hb Hb'. revert lines lines'. induction components as [|c components IH]; intros lines lines'; [done|]. cbn [signing_lines].
  destruct (rfc9421ComponentValue request url authority c) as [v|] eqn:Hv; [|done]. destruct (signing_lines request url authority components) as [l|]; [|done].
  destruct (rfc9421ComponentValue request' url' authority c) as [v'|] eqn:Hv'; [|done]. destruct (signing_lines request' url' authority components) as [l'|]; [|done].
  cbn [mbind option_bind]. intros Hl1 Hl2 Heq. 
  assert (lines = component_line c v ++ l) as -> by congruence. assert (lines' = component_line c v' ++ l') as -> by congruence. rewrite <- !app_assoc in Heq. assert (Hsame : v = v' ∧ l ++ r = l' ++ r').
  { destruct (component_value_breakless _ _ _ _ _ Hb Hv) as [[-> Hc]|[[-> Hc]|H1]].
    - assert (v' = b authority) as -> by (rewrite Hc in Hv'; by injection Hv'). split; [done|by apply app_inv_head in Heq].
    - assert (v' = b "https") as -> by (rewrite Hc in Hv'; by injection Hv'). split; [done|by apply app_inv_head in Heq].
    - destruct (component_value_breakless _ _ _ _ _ Hb' Hv') as [[-> Hc]|[[-> Hc]|H2]]; [| |by apply (component_line_inj c)].
      + assert (v = b authority) as -> by (rewrite Hc in Hv; by injection Hv). split; [done|by apply app_inv_head in Heq].
      + assert (v = b "https") as -> by (rewrite Hc in Hv; by injection Hv). split; [done|by apply app_inv_head in Heq]. }
  destruct Hsame as [-> Hrest]. intros x [<-|Hx]; [congruence|]. by apply (IH l l').
Qed.

(** The signing string binds what it covers: two requests whose methods and
    target URIs hold no line break and that give one signing string for one list of
    components have the same value of every component in it: method, target URI,
    digest, content type and date of an accepted request cannot be changed under
    its signature. *)
Theorem signature_binds_components request request' authority components signatureParams url url' text :
  request_URL request = Some url → request_URL request' = Some url' →
  no_breaks request url authority → no_breaks request' url' authority →
  canonicalRFC9421SigningString request authority components signatureParams = Some text →
  canonicalRFC9421SigningString request' authority components signatureParams = Some text →
  ∀ component, In component components →
    rfc9421ComponentValue request url authority component = rfc9421ComponentValue request' url' authority component.
Proof.
  unfold canonicalRFC9421SigningString. intros -> -> Hb Hb'. destruct (signatureParams ≟ ""); [done|].
  destruct (signing_lines request url authority components) as [l|] eqn:Hl; [|done].
  destruct (signing_lines request' url' authority components) as [l'|] eqn:Hl'; [|done]. cbn [mbind option_bind]. intros Ht Ht'.
  assert (Heq : l ++ params_line signatureParams = l' ++ params_line signatureParams).
  { rewrite <- (b_str (l ++ _)), <- (b_str (l' ++ _)). congruence. }
  by apply (signing_lines_inj request request' url url' authority components l l' (params_line signatureParams) (params_line signatureParams)).
Qed.
End Facts.

(** * A signed request and its replay Libraries that parse one fixed message, a relay that signs with them, and the theorems of the replay stores and of the verification at that message. *)

Definition signer := "https://relay.example/actor".
Definition signer_key := "https://relay.example/actor#main-key".
Definition signed_params : list (string * bare_item) := [("keyid", BareString signer_key); ("nonce", BareString "n1")].
Definition covered_item (name : string) : sf_item := SfItem (BareString name) (Some []).
#[export] Instance sample_libraries : SignatureLibraries := {|
  RSASSA_PKCS1_1_5_SHA256 := "rsa";
  dictionary := string;
  UnmarshalDictionary values := head values;
  dictionary_Names d := ["sig"];
  dictionary_Get d name :=
    if d ≟ "input" then Some (MemberList (InnerList (map covered_item rfc9421POSTComponents) (Some signed_params)))
    else if d ≟ "signature" then Some (MemberItem (SfItem (BareBytes (b "ok")) (Some [])))
    else Some (MemberItem (SfItem (BareBytes (repeat (ascii_of_N 7) 32)) (Some [])));
  MarshalInnerList _ := Some "params";
  UnmarshalInnerList _ := Some (SigParams signer_key "activity-relay-directory-v1" "rsa" (time_of_unix 1000) (time_of_unix 1200) rfc9421POSTComponents "n1");
  rsa_Verify _ _ signature := bytes_eqb signature (b "ok");
  sha256 _ := repeat (ascii_of_N 7) 32;
  http_ParseTime _ := Some (time_of_unix 1000) |}.

Definition sample_url : request_url :=
  RequestURL {| Scheme := []; Opaque := []; HasUser := false; Host := []; Path := b "/v1/relays/heartbeat"; RawPath := [];
                ForceQuery := false; RawQuery := [] |} [] [].
Definition sample_request : http_request :=
  HttpRequest "POST" (Some sample_url) "directory.example"
    (Some (list_to_map [("signature-input", ["input"]); ("signature", ["signature"]); ("content-digest", ["digest"]);
                        ("content-type", ["application/json"]); ("date", ["now"])])).
Definition sample_resolver (keyID : string) : option resolved_key :=
  Some (ResolvedKey keyID signer signer (Some (PublicKey (Some (2 ^ 2047)) 65537))).
Definition verify_at (clock : Z) (s : replay_table) : result auth_error verification * replay_table :=
  VerifyPOSTAndReserve (sqlite_store plain_call false 256 (time_of_unix clock)) "directory.example" (time_of_unix clock) (time_of_unix clock)
    sample_resolver sample_request [] signer s.
Definition sample_verification : verification :=
  Verification signer_key signer signer "n1" (time_of_unix 1000) (time_of_unix 1200) rfc9421POSTComponents "rsa".

Lemma first_accepted : verify_at 1010 ∅ = (Ok sample_verification, (verify_at 1010 ∅).2).
Proof. vm_compute. reflexivity. Qed.

Lemma accepted_request_verified_witness :
  established "directory.example" (time_of_unix 1010) sample_resolver sample_request [] "activity-relay-directory-v1" signer sample_verification.
Proof.
  destruct (accepted_request_verified (sqlite_store plain_call false 256 (time_of_unix 1010)) "directory.example" (time_of_unix 1010) (time_of_unix 1010)
    sample_resolver sample_request [] signer RFC9421SignatureTag ∅ sample_verification (verify_at 1010 ∅).2 first_accepted) as [He _].
  exact He.
Defined.

Lemma signature_accepted_once_witness :
  verify_at 1100 (verify_at 1010 ∅).2 = (Err ErrRFC9421Replay, (verify_at 1010 ∅).2) ∧
  ∀ v', (Err ErrRFC9421Replay : result auth_error verification) = Ok v' → ¬ same_signature sample_verification v'.
Proof.
  assert (Hr : verify_at 1100 (verify_at 1010 ∅).2 = (Err ErrRFC9421Replay, (verify_at 1010 ∅).2)) by (vm_compute; reflexivity).
  split; [exact Hr|].
  assert (Hl : 0 ≤ unix_of (time_of_unix 1010)) by (vm_compute; discriminate).
  assert (Hm : time_of_unix 1010 ≤ time_of_unix 1010) by (vm_compute; discriminate).
  assert (Hd : unix_of (time_of_unix 1010) ≤ unix_of (time_of_unix 1100) ≤ unix_of (time_of_unix 1100) + 270) by (vm_compute; split; discriminate).
  exact (signature_accepted_once "directory.example" sample_resolver sample_resolver sample_request sample_request [] [] signer signer
    RFC9421SignatureTag RFC9421SignatureTag plain_call false 256 (time_of_unix 1010) (time_of_unix 1010) (time_of_unix 1010)
    plain_call false 256 (time_of_unix 1100) (time_of_unix 1100) (time_of_unix 1100) 0 [] ∅ sample_verification (verify_at 1010 ∅).2
    _ _ _ _ _ (served_start 0 [] ∅) Hl Hm first_accepted (served_start _ _ _) Hd Hr).
Defined.

(** The same request with a header the signature does not cover. *)
Definition forwarded_request : http_request :=
  HttpRequest "POST" (Some sample_url) "directory.example"
    (Some (list_to_map [("x-forwarded-for", ["192.0.2.1"]); ("signature-input", ["input"]); ("signature", ["signature"]);
                        ("content-digest", ["digest"]); ("content-type", ["application/json"]); ("date", ["now"])])).

Lemma signature_binds_components_witness :
  rfc9421ComponentValue sample_request sample_url "directory.example" "content-digest" =
  rfc9421ComponentValue forwarded_request sample_url "directory.example" "content-digest".
Proof.
  assert (Hb : no_breaks sample_request sample_url "directory.example") by (vm_compute; split; reflexivity).
  assert (Hb' : no_breaks forwarded_request sample_url "directory.example") by (vm_compute; split; reflexivity).
  destruct (canonicalRFC9421SigningString sample_request "directory.example" rfc9421POSTComponents "params") as [text|] eqn:Ht;
    [|vm_compute in Ht; discriminate Ht].
  assert (Ht' : canonicalRFC9421SigningString forwarded_request "directory.example" rfc9421POSTComponents "params" = Some text)
    by (rewrite <- Ht; vm_compute; reflexivity).
  assert (Hin : In "content-digest" rfc9421POSTComponents) by (right; right; right; left; reflexivity).
  exact (signature_binds_components sample_request forwarded_request "directory.example" rfc9421POSTComponents "params" sample_url sample_url text
    eq_refl eq_refl Hb Hb' Ht Ht' "content-digest" Hin).
Defined.

Definition sample_key : string := str (repeat (ascii_of_N 7) 32).
Lemma reservation_fresh_witness :
  ∃ s', ReserveRFC9421Replay plain_call false 256 (time_of_unix 1000) sample_key (time_of_unix 1600) ∅ = (Ok true, s') ∧
    true = negb (unexpired 1000 sample_key []).
Proof.
  destruct (ReserveRFC9421Replay plain_call false 256 (time_of_unix 1000) sample_key (time_of_unix 1600) ∅) as [out s'] eqn:Hr.
  assert (Ho : out = Ok true) by (change out with (out, s').1; rewrite <- Hr; vm_compute; reflexivity).
  assert (Hl : 0 ≤ unix_of (time_of_unix 1000)) by (vm_compute; discriminate).
  exists s'. split; [rewrite Ho; reflexivity|].
  exact (proj1 (reservation_fresh 0 [] ∅ plain_call false 256 (time_of_unix 1000) sample_key (time_of_unix 1600) out s' (served_start 0 [] ∅) Hl Hr) true Ho).
Defined.
Lemma stores_agree_witness :
  ∃ m' s', MemoryReserve false (time_of_unix 1000) sample_key (time_of_unix 1600) (MemoryStore ∅ 2) = (Ok true, m') ∧
    ReserveRFC9421Replay plain_call false 256 (time_of_unix 1000) sample_key (time_of_unix 1600) ∅ = (Ok true, s') ∧
    agree 1000 (memory_entries m') s'.
Proof.
  destruct (MemoryReserve false (time_of_unix 1000) sample_key (time_of_unix 1600) (MemoryStore ∅ 2)) as [out m'] eqn:Hm.
  assert (Ho : out = Ok true) by (change out with (out, m').1; rewrite <- Hm; vm_compute; reflexivity).
  assert (Ha : agree 1000 (memory_entries (MemoryStore ∅ 2)) ∅).
  { split; [|intros key t; simpl; rewrite lookup_empty; discriminate]. intros key e _. simpl. rewrite !lookup_empty.
    split; [intros (row&Hr&_); discriminate Hr|discriminate]. }
  assert (Hv : is_ok (replay_validate plain_call false 256 (time_of_unix 1000) (time_of_unix 1600)) = true) by (vm_compute; reflexivity).
  assert (Hl : 1000 ≤ unix_of (time_of_unix 1000)) by (vm_compute; discriminate).
  pose proof (stores_agree 1000 (MemoryStore ∅ 2) ∅ 256 (time_of_unix 1000) sample_key (time_of_unix 1600) out m' Ha eq_refl Hl eq_refl Hv Hm) as Hs.
  rewrite Ho in Hs. destruct Hs as (s'&Hr&Hag). exists m', s'. split; [rewrite Ho; reflexivity|]. split; [exact Hr|exact Hag].
Defined.
