(* ===== verification/Admission.v ===== *)
(** * Admission: source identity and the request limiter

    [internal/admission/source.go] and [limiter.go].  An exported method of the
    limiter holds its mutex for everything it does to the shared state, so a call
    is one step; a permit is a shared object, modelled by its index in the list of
    permits granted so far. *)
From S2P Require Import Prelude GoNet Identity AddrText Text Vocabulary.
From Stdlib Require Import Ascii.
Local Open Scope string_scope.
Local Open Scope Z_scope.
Local Open Scope go_scope.
Local Open Scope list_scope.

(** ** Addresses: what [source.go] uses of net and net/netip *)

Definition addr_bits (a : Addr) : Z := match a with V4 _ _ _ _ => 32 | V6 _ => 128 end.
Definition addr_value (a : Addr) : Z :=
  match a with
  | V4 a b' c d => ((a * 256 + b') * 256 + c) * 256 + d
  | V6 groups => fold_left (λ acc g, acc * 65536 + g) groups 0
  end.
(** [addr.Unmap()] *)
Definition Unmap (a : Addr) : Addr :=
  match a with
  | V6 ([_; _; _; _; _; _; h; l] as groups) =>
      if is_4in6 groups then V4 (h / 256) (h mod 256) (l / 256) (l mod 256) else a
  | _ => a
  end.
Definition Is4In6 (a : Addr) : bool := match a with V6 groups => is_4in6 groups | _ => false end.
Definition IsUnspecified (a : Addr) : bool := addr_value a =? 0.
Definition IsMulticast (a : Addr) : bool :=
  match a with V4 a _ _ _ => Z.land a 240 =? 224 | V6 (g :: _) => Z.shiftr g 8 =? 255 | V6 [] => false end.
(** The address part of [netip.ParseAddr]: an IPv6 address may carry a zone, which
    every caller below strips with [WithZone("")]. *)
Definition ParseAddr_unzoned (s : bytes) : option Addr :=
  match find (λ c, (c ≡c ".") || (c ≡c ":") || (c ≡c "%")) s with
  | Some c =>
      if c ≡c "." then parse_ipv4 s
      else if c ≡c ":" then
        match cut s "%" with
        | (_, _, false) => parse_ipv6 s
        | (_, [], true) => None
        | (before, _, true) => parse_ipv6 before
        end
      else None
  | None => None
  end.
(** The host of [net.SplitHostPort] *)
Definition SplitHostPort_host (s : bytes) : option bytes :=
  match cut_last s ":" with
  | None => None
  | Some (before, port) =>
      match s with
      | c :: inner =>
          if c ≡c "[" then
            match cut inner "]" with
            | (_, _, false) => None
            | (host, rest, true) =>
                (* the bracket closes right before the last colon, and no bracket follows *)
                if bytes_eqb rest (":"%char :: port) && negb (contains_byte host "[") && negb (contains_byte rest "[") && negb (contains_byte rest "]")
                then Some host else None
            end
          else if contains_byte before ":" || contains_byte s "[" || contains_byte s "]" then None else Some before
      | [] => None
      end
  end.

(** A valid [netip.Prefix]: its bits are in the range of its address. *)
Record Prefix := PrefixFrom { prefix_addr : Addr; prefix_bits : Z }.
Definition prefix_IsValid (p : Prefix) : bool := (0 <=? prefix_bits p) && (prefix_bits p <=? addr_bits (prefix_addr p)).
Definition host_size (p : Prefix) : Z := 2 ^ (addr_bits (prefix_addr p) - prefix_bits p).
Definition prefix_Contains (p : Prefix) (a : Addr) : bool :=
  prefix_IsValid p && (addr_bits (prefix_addr p) =? addr_bits a) && (addr_value (prefix_addr p) / host_size p =? addr_value a / host_size p).
(** [prefix.Masked()]: the address with its host bits cleared. *)
Definition addr_of_value (a : Addr) (v : Z) : Addr :=
  match a with
  | V4 _ _ _ _ => V4 (v / 2 ^ 24 mod 256) (v / 2 ^ 16 mod 256) (v / 2 ^ 8 mod 256) (v mod 256)
  | V6 _ => V6 (map (λ i, v / 2 ^ i mod 65536) [112; 96; 80; 64; 48; 32; 16; 0])
  end.
Definition Masked (p : Prefix) : Prefix :=
  PrefixFrom (addr_of_value (prefix_addr p) (addr_value (prefix_addr p) / host_size p * host_size p)) (prefix_bits p).

(** ** source.go *)

Definition validSourceAddress (a : Addr) : bool := negb (IsUnspecified a) && negb (IsMulticast a).

#[export] Instance Addr_eq_dec : EqDecision Addr.
Proof. solve_decision. Defined.
#[export] Instance Prefix_eq_dec : EqDecision Prefix.
Proof. solve_decision. Defined.

Definition normalize_prefix (p : Prefix) : option Prefix :=
  if negb (prefix_IsValid p) then None
  else if Is4In6 (prefix_addr p) then
    if prefix_bits p <? 96 then None else Some (PrefixFrom (Unmap (prefix_addr p)) (prefix_bits p - 96))
  else Some p.
Fixpoint normalize_prefixes (trustedProxies normalized : list Prefix) : option (list Prefix) :=
  match trustedProxies with
  | [] => Some normalized
  | p :: rest =>
      p ← normalize_prefix p;
      let p := Masked p in
      if negb (validSourceAddress (prefix_addr p)) then None
      else normalize_prefixes rest (if decide (p ∈ normalized) then normalized else normalized ++ [p])
  end.
Definition NewSourceResolver (trustedProxies : list Prefix) : option (list Prefix) := normalize_prefixes trustedProxies [].

Definition parseRemoteAddress (remoteAddress : string) : option Addr :=
  host ← SplitHostPort_host (b remoteAddress);
  address ← ParseAddr_unzoned host;
  let address := Unmap address in
  if validSourceAddress address then Some address else None.
Definition trusts (resolver : list Prefix) (address : Addr) : bool := existsb (λ p, prefix_Contains p address) resolver.
(** [resolver.Source(request)]: the remote address and the X-Real-IP values of the request. *)
Definition Source_of (resolver : list Prefix) (remoteAddr : string) (realIP : list string) : option Addr :=
  peer ← parseRemoteAddress remoteAddr;
  if negb (trusts resolver peer) then Some peer
  else
    match realIP with
    | [value] =>
        if contains_byte (b value) "," then None
        else
          client ← ParseAddr_unzoned (trim_space (b value));
          let client := Unmap client in
          if validSourceAddress client then Some client else None
    | _ => None
    end.

(** ** limiter.go: configuration *)

Definition maximumEntries : Z := 1000000.
Definition maximumBurst : Z := 100000.
Definition maximumConcurrent : Z := 100000.
Definition maximumCleanupLimit : Z := 4096.
Definition maximumInterval : Z := 24 * hour.
Definition maximumIdleTTL : Z := 30 * 24 * hour.
Definition maximumRetryAfter : Z := 5 * minute.

Record Rate := RateOf { Burst : Z; RefillInterval : Z }.
Record limiter_config := LimiterConfig {
  SourceRate : Rate; ActorRate : Rate; MaxSources : Z; MaxActors : Z; MaxConcurrent : Z;
  IdleTTL : Z; CleanupLimit : Z; OverloadRetryAfter : Z }.

Definition validRate (r : Rate) : bool :=
  (1 <=? Burst r) && (Burst r <=? maximumBurst) && (0 <? RefillInterval r) && (RefillInterval r <=? maximumInterval).
Definition minimumFullRefill (r : Rate) : Z :=
  if negb (validRate r) || (Z.quot maximumIdleTTL (RefillInterval r) <? Burst r) then maximumIdleTTL + 1
  else Burst r * RefillInterval r.
Definition validateConfig (c : limiter_config) : bool :=
  negb (negb (validRate (SourceRate c)) || negb (validRate (ActorRate c)) ||
    (MaxSources c <? 1) || (maximumEntries <? MaxSources c) ||
    (MaxActors c <? 1) || (maximumEntries <? MaxActors c) ||
    (MaxConcurrent c <? 1) || (maximumConcurrent <? MaxConcurrent c) ||
    (CleanupLimit c <? 1) || (maximumCleanupLimit <? CleanupLimit c) ||
    (IdleTTL c <? minimumFullRefill (SourceRate c)) || (IdleTTL c <? minimumFullRefill (ActorRate c)) ||
    (maximumIdleTTL <? IdleTTL c) || (OverloadRetryAfter c <=? 0) || (maximumRetryAfter <? OverloadRetryAfter c)).

Inductive Decision :=
| DecisionAllowed | DecisionSourceRateLimited | DecisionActorRateLimited | DecisionConcurrencyLimited
| DecisionCapacityLimited | DecisionCanceled | DecisionInvalid.
#[export] Instance Decision_eq_dec : EqDecision Decision.
Proof. solve_decision. Defined.
Record Result := ResultOf { result_Decision : Decision; result_RetryAfter : Z }.
Definition without_retry (d : Decision) : Result := ResultOf d 0.
Definition Allowed (r : Result) : bool := bool_decide (result_Decision r = DecisionAllowed).

Definition itoa (n : Z) : bytes := if n <? 10 then [decimal_digit n] else [decimal_digit (n / 10); decimal_digit (n mod 10)].
(** Operation names are shorter than 100 bytes. *)
Definition bucketKey (operation identity : string) : string :=
  str (itoa (Z.of_nat (String.length operation)) ++ b ":" ++ b operation ++ b identity).

(** ** limiter.go: one pool of token buckets *)

(** [t.Sub(u)] saturates. *)
Definition time_Sub (t u : Z) : Z := Z.max int64_min (Z.min int64_max (t - u)).

Record bucket := Bucket { tokens : Z; lastRefill : Z; lastSeen : Z }.
(** [order] lists the keys of the buckets its elements point to, the least recently
    seen first. *)
Record bucketPool := BucketPool { entries : gmap string bucket; order : list string; pool_maximum : Z }.
Definition newBucketPool (maximum : Z) : bucketPool := BucketPool ∅ [] maximum.

Definition refill (now : Z) (r : Rate) (e : bucket) : bucket :=
  if negb (lastRefill e <? now) || (Burst r <=? tokens e) then
    if (Burst r <=? tokens e) && (lastRefill e <? now) then Bucket (tokens e) now (lastSeen e) else e
  else
    let steps := Z.quot (time_Sub now (lastRefill e)) (RefillInterval r) in
    if steps <? 1 then e
    else if Burst r - tokens e <=? steps then Bucket (Burst r) now (lastSeen e)
    else Bucket (tokens e + steps) (lastRefill e + steps * RefillInterval r) (lastSeen e).

Definition retryAfter (now interval : Z) (e : bucket) : Z :=
  if negb (lastRefill e <? now) then interval
  else
    let remaining := interval - time_Sub now (lastRefill e) in
    if (remaining <=? 0) || (interval <? remaining) then interval else remaining.

Definition monotonicMaximum (left right : Z) : Z := if left <? right then right else left.

Fixpoint cleanup (now idleTTL : Z) (limit : nat) (pool : bucketPool) : bucketPool :=
  match limit, order pool with
  | S limit, oldest :: rest =>
      match entries pool !! oldest with
      | Some entry =>
          if (now <? lastSeen entry) || (time_Sub now (lastSeen entry) <? idleTTL) then pool
          else cleanup now idleTTL limit (BucketPool (delete oldest (entries pool)) rest (pool_maximum pool))
      | None => pool
      end
  | _, _ => pool
  end.

Definition move_to_back (key : string) (order : list string) : list string :=
  List.filter (λ k, negb (k ≟ key)) order ++ [key].
(** The bucket of the key, refilled, moved to the back and marked as seen. *)
Definition seen_bucket (now : Z) (r : Rate) (e : bucket) : bucket :=
  let e := refill now r e in Bucket (tokens e) (lastRefill e) (monotonicMaximum (lastSeen e) now).
Definition take_token (key : string) (now : Z) (r : Rate) (limited : Decision) (e : bucket) (pool : bucketPool) : Result * bucketPool :=
  if tokens e <? 1 then (ResultOf limited (retryAfter now (RefillInterval r) e), pool)
  else (without_retry DecisionAllowed,
        BucketPool (<[key := Bucket (tokens e - 1) (lastRefill e) (lastSeen e)]> (entries pool)) (order pool) (pool_maximum pool)).

Definition pool_admit (key : string) (now : Z) (r : Rate) (idleTTL cleanupLimit : Z) (limited : Decision) (overloadRetryAfter : Z)
    (pool : bucketPool) : Result * bucketPool :=
  let pool := cleanup now idleTTL (Z.to_nat cleanupLimit) pool in
  match entries pool !! key with
  | None =>
      if pool_maximum pool <=? Z.of_nat (size (entries pool)) then (ResultOf DecisionCapacityLimited overloadRetryAfter, pool)
      else
        let e := Bucket (Burst r) now now in
        take_token key now r limited e (BucketPool (<[key := e]> (entries pool)) (order pool ++ [key]) (pool_maximum pool))
  | Some e =>
      let e := seen_bucket now r e in
      take_token key now r limited e (BucketPool (<[key := e]> (entries pool)) (move_to_back key (order pool)) (pool_maximum pool))
  end.

(** ** limiter.go: the limiter and its permits *)

Record Permit := PermitOf { permit_operation : string; active : bool; actorChecked : bool }.
(** [permits]: the permits the limiter has handed out, oldest first. *)
Record Limiter := LimiterOf {
  config : limiter_config; sources : bucketPool; actors : bucketPool; inFlight : Z; lastNow : Z; permits : list Permit }.
(** [lastNow] starts as the zero time. *)
Definition zero_clock : Z := time_of_unix (-62135596800).
Definition newLimiter (c : limiter_config) : option Limiter :=
  if validateConfig c then Some (LimiterOf c (newBucketPool (MaxSources c)) (newBucketPool (MaxActors c)) 0 zero_clock []) else None.

(** The context of a call: none, or whether it is found canceled before and after
    the mutex is taken. *)
Abbreviation context := (option (bool * bool)).
Definition currentTimeLocked (clock : Z) (l : Limiter) : Z := if clock <? lastNow l then lastNow l else clock.

(** A permit is returned as its index in [permits]. *)
Definition AdmitSource (ctx : context) (clock : Z) (operation : string) (source : option Addr) (l : Limiter)
    : option nat * Result * Limiter :=
  match ctx with
  | None => (None, without_retry DecisionInvalid, l)
  | Some (canceled, canceled_locked) =>
      if negb (Operation_Valid operation) then (None, without_retry DecisionInvalid, l)
      else if canceled then (None, without_retry DecisionCanceled, l)
      else
        match source with
        | None => (None, without_retry DecisionInvalid, l)
        | Some source =>
            let source := Unmap source in
            if negb (validSourceAddress source) then (None, without_retry DecisionInvalid, l)
            else if canceled_locked then (None, without_retry DecisionCanceled, l)
            else
              let c := config l in
              if MaxConcurrent c <=? inFlight l then (None, ResultOf DecisionConcurrencyLimited (OverloadRetryAfter c), l)
              else
                let now := currentTimeLocked clock l in
                let '(result, pool) := pool_admit (bucketKey operation (str (AddrString source))) now (SourceRate c) (IdleTTL c) (CleanupLimit c)
                  DecisionSourceRateLimited (OverloadRetryAfter c) (sources l) in
                if negb (Allowed result) then (None, result, LimiterOf c pool (actors l) (inFlight l) now (permits l))
                else (Some (length (permits l)), result,
                      LimiterOf c pool (actors l) (inFlight l + 1) now (permits l ++ [PermitOf operation true false]))
        end
  end.

Definition AdmitActor (permit : nat) (ctx : context) (clock : Z) (operation actor : string) (l : Limiter) : Result * Limiter :=
  match permits l !! permit, ctx with
  | Some p, Some (canceled, canceled_locked) =>
      if negb (Operation_Valid operation) then (without_retry DecisionInvalid, l)
      else if canceled then (without_retry DecisionCanceled, l)
      else if negb (canonical_actor actor) then (without_retry DecisionInvalid, l)
      else if negb (active p) || negb (permit_operation p ≟ operation) || actorChecked p then (without_retry DecisionInvalid, l)
      else if canceled_locked then (without_retry DecisionCanceled, l)
      else
        let c := config l in
        let now := currentTimeLocked clock l in
        let '(result, pool) := pool_admit (bucketKey operation actor) now (ActorRate c) (IdleTTL c) (CleanupLimit c)
          DecisionActorRateLimited (OverloadRetryAfter c) (actors l) in
        (result, LimiterOf c (sources l) pool (inFlight l) now (<[permit := PermitOf (permit_operation p) (active p) true]> (permits l)))
  | _, _ => (without_retry DecisionInvalid, l)
  end.

Definition Release (permit : nat) (l : Limiter) : Limiter :=
  match permits l !! permit with
  | Some p =>
      if active p then
        LimiterOf (config l) (sources l) (actors l) (if 0 <? inFlight l then inFlight l - 1 else inFlight l) (lastNow l)
          (<[permit := PermitOf (permit_operation p) false (actorChecked p)]> (permits l))
      else l
  | None => l
  end.

(** A call on one limiter, with the clock it reads, and what it returns. *)
Inductive admission_call :=
| CallSource (ctx : context) (clock : Z) (operation : string) (source : option Addr)
| CallActor (permit : nat) (ctx : context) (clock : Z) (operation actor : string)
| CallRelease (permit : nat).
Inductive admission_response := SourceAnswer (permit : option nat) (r : Result) | ActorAnswer (r : Result) | Released.
Definition answer (call : admission_call) (l : Limiter) : admission_response * Limiter :=
  match call with
  | CallSource ctx clock operation source => let '(p, r, l) := AdmitSource ctx clock operation source l in (SourceAnswer p r, l)
  | CallActor p ctx clock operation actor => let '(r, l) := AdmitActor p ctx clock operation actor l in (ActorAnswer r, l)
  | CallRelease p => (Released, Release p l)
  end.
Fixpoint answers (calls : list admission_call) (l : Limiter) : list admission_response * Limiter :=
  match calls with
  | [] => ([], l)
  | call :: rest => let '(a, l) := answer call l in let '(rest, l) := answers rest l in (a :: rest, l)
  end.
