(* ===== verification/AdmissionFacts.v ===== *)
(** * AdmissionFacts: a pool of the limiter is a set of ideal token buckets

    An unbounded account per key, never evicted, against which the pools of
    [Admission] are proved: the least-recently-seen eviction, the whole tokens and
    the kept fractions of an interval change no decision. *)
From S2P Require Import Prelude GoNet Identity AddrText Text Vocabulary Admission.
From Stdlib Require Import Ascii.
Local Open Scope string_scope.
Local Open Scope Z_scope.
Local Open Scope go_scope.
Local Open Scope list_scope.

(** ** Ideal token buckets *)

(** What a key had left, in nanoseconds of refill, when it was last seen. *)
Record account := Account { credit : Z; seen : Z }.
Abbreviation accounts := (gmap string account).

Section Accounts.
Context (r : Rate) (idleTTL maximum : Z).
Definition full : Z := Burst r * RefillInterval r.
Definition credit_at (now : Z) (a : option account) : Z :=
  match a with None => full | Some a => Z.min full (credit a + (now - seen a)) end.
(** The keys that asked, successfully or not, within the last [idleTTL]. *)
Definition recent (now : Z) (st : accounts) : accounts := filter (λ ka, now - seen ka.2 < idleTTL) st.
Definition crowded (key : string) (now : Z) (st : accounts) : bool :=
  match recent now st !! key with None => maximum <=? Z.of_nat (size (recent now st)) | Some _ => false end.
Definition promised_admit (key : string) (now : Z) (limited : Decision) (overloadRetryAfter : Z) (st : accounts) : Result * accounts :=
  if crowded key now st then (ResultOf DecisionCapacityLimited overloadRetryAfter, st)
  else
    let c := credit_at now (st !! key) in
    if RefillInterval r <=? c then (without_retry DecisionAllowed, <[key := Account (c - RefillInterval r) now]> st)
    else (ResultOf limited (RefillInterval r - c), <[key := Account c now]> st).

(** ** The bucket arithmetic *)

Definition bucket_credit (t : Z) (e : bucket) : Z := Z.min full (tokens e * RefillInterval r + (t - lastRefill e)).
Definition bucket_ok (last : Z) (e : bucket) : Prop := 0 ≤ tokens e ≤ Burst r ∧ lastRefill e ≤ lastSeen e ≤ last.
Context (Hr : validRate r = true) (Hidle : full ≤ idleTTL ≤ maximumIdleTTL).

Lemma rate_bounds : 1 ≤ Burst r ≤ 100000 ∧ 0 < RefillInterval r.
Proof. unfold validRate, maximumBurst in Hr. bool_facts. split; [split|]; bool_lia. Qed.
Lemma idle_int64 : idleTTL < int64_max.
Proof. assert (maximumIdleTTL < int64_max) by (vm_compute; done). lia. Qed.
Lemma time_Sub_lt t u d : d < int64_max → u ≤ t → time_Sub t u < d ↔ t - u < d.
Proof. unfold time_Sub, int64_min, int64_max. lia. Qed.

Lemma refill_spec now e : bucket_ok now e → let e' := refill now r e in
  lastSeen e' = lastSeen e ∧ 0 ≤ tokens e' ≤ Burst r ∧ lastRefill e' ≤ now ∧
  tokens e' * RefillInterval r + (now - lastRefill e') = bucket_credit now e ∧
  (tokens e' = 0 → now - lastRefill e' < RefillInterval r).
Proof.
  pose proof rate_bounds as [HB HT]. pose proof idle_int64 as Hi. intros [Ht Hs]. unfold refill, bucket_credit, full in *.
  set (T := RefillInterval r) in *. destruct (Z.ltb_spec (lastRefill e) now) as [Hlt|Hge]; simpl.
  2:{ assert (lastRefill e = now) as Heq by lia. rewrite andb_false_r. destruct (Burst r <=? tokens e); rewrite Heq; repeat split; try lia; nia. }
  destruct (Z.leb_spec (Burst r) (tokens e)) as [Hfull|Hpart]; simpl.
  { assert (tokens e = Burst r) as -> by lia. repeat split; try lia. }
  set (el := time_Sub now (lastRefill e)).
  assert (Hel : 0 < el ≤ now - lastRefill e ∧ (el < int64_max → el = now - lastRefill e)) by (unfold el, time_Sub, int64_min, int64_max in *; lia).
  assert (Hq : Z.quot el T = el / T) by (apply Z.quot_div_nonneg; lia).
  rewrite Hq. pose proof (Z.mul_div_le el T HT) as Hd1. pose proof (Z.mul_succ_div_gt el T HT) as Hd2.
  set (q := el / T) in *. destruct (Z.ltb_spec q 1) as [Hq1|Hq1].
  { assert (el = now - lastRefill e) by (assert (T ≤ Burst r * T) by nia; lia). repeat split; try lia; nia. }
  destruct (Z.leb_spec (Burst r - tokens e) q) as [Hav|Hav]; simpl.
  { assert (Burst r * T ≤ tokens e * T + el) by nia. repeat split; lia. }
  assert (el = now - lastRefill e) by (assert (q * T < Burst r * T) by nia; assert (el < Burst r * T) by nia; lia).
  repeat split; try lia; nia.
Qed.

Lemma bucket_credit_later e now t : now ≤ t → bucket_ok now e → bucket_credit t e = Z.min full (bucket_credit now e + (t - now)).
Proof. intros Hn [Ht Hs]. unfold bucket_credit. lia. Qed.
Lemma idle_bucket_full e t : bucket_ok t e → idleTTL ≤ t - lastSeen e → bucket_credit t e = full.
Proof. pose proof rate_bounds. intros [Ht Hs] Hl. unfold bucket_credit. assert (0 ≤ tokens e * RefillInterval r) by nia. lia. Qed.
Lemma bucket_ok_later e last now : last ≤ now → bucket_ok last e → bucket_ok now e.
Proof. intros Hn [Ht Hs]. split; [done|lia]. Qed.

(** ** The pool *)

Definition older (es : gmap string bucket) (k1 k2 : string) : Prop :=
  ∀ e1 e2, es !! k1 = Some e1 → es !! k2 = Some e2 → lastSeen e1 ≤ lastSeen e2.
Record pool_ok (last : Z) (pool : bucketPool) : Prop := {
  pool_nodup : NoDup (order pool);
  pool_listed : ∀ key, key ∈ order pool ↔ is_Some (entries pool !! key);
  pool_by_age : StronglySorted (older (entries pool)) (order pool);
  pool_buckets : ∀ key e, entries pool !! key = Some e → bucket_ok last e;
  pool_bounded : Z.of_nat (size (entries pool)) ≤ maximum;
  pool_max : pool_maximum pool = maximum }.

Lemma pool_ok_later last now pool : last ≤ now → pool_ok last pool → pool_ok now pool.
Proof. intros Hn [? ? ? Hb ? ?]. split; try done. intros key e He. exact (bucket_ok_later e last now Hn (Hb key e He)). Qed.

Lemma older_mono es es' (keys : list string) : (∀ k, k ∈ keys → es' !! k = es !! k) → StronglySorted (older es) keys → StronglySorted (older es') keys.
Proof.
  intros Hsame. induction 1 as [|k keys Hs IH Hf]; constructor.
  - apply IH. intros k' Hk'. apply Hsame. by right.
  - rewrite Forall_forall in *. intros k' Hk' e1 e2. assert (k' ∈ keys) as Hin by (apply list_elem_of_In; done).
    rewrite (Hsame k), (Hsame k') by (constructor; done). exact (Hf k' Hk' e1 e2).
Qed.

(** The next of a pool without its oldest bucket. *)
Definition without_oldest (key : string) (rest : list string) (pool : bucketPool) : bucketPool :=
  BucketPool (delete key (entries pool)) rest (pool_maximum pool).
Lemma pool_ok_drop last key rest pool : order pool = key :: rest → pool_ok last pool → pool_ok last (without_oldest key rest pool).
Proof.
  intros Ho [Hnd Hl Hs Hb Hsz Hm]. rewrite Ho in *. apply list.NoDup_cons in Hnd as [Hni Hnd]. apply StronglySorted_inv in Hs as [Hs _].
  unfold without_oldest. split; cbn [entries order pool_maximum]; try done.
  - intros k. rewrite lookup_delete_is_Some, <- Hl, elem_of_cons. split.
    + intros Hk. split; [|by right]. intros ->. done.
    + intros [Hne [->|Hk]]; done.
  - apply (older_mono (entries pool)); [|done]. intros k Hk. apply lookup_delete_ne. intros ->. done.
  - intros k e He. rewrite lookup_delete_Some in He. exact (Hb k e (proj2 He)).
  - assert (is_Some (entries pool !! key)) as [e He] by (apply Hl; left).
    pose proof (map_size_delete_Some (M:=gmap string) key (entries pool) (mk_is_Some _ _ He)). lia.
Qed.

(** What an evicted bucket was. *)
Definition expired (now : Z) (pool pool' : bucketPool) (key : string) : Prop :=
  entries pool' !! key = None ∧ ∃ e, entries pool !! key = Some e ∧ idleTTL ≤ now - lastSeen e.

Lemma cleanup_spec now limit : ∀ pool, pool_ok now pool → let pool' := cleanup now idleTTL limit pool in
  pool_ok now pool' ∧ ∀ key, entries pool' !! key = entries pool !! key ∨ expired now pool pool' key.
Proof.
  induction limit as [|limit IH]; intros pool Hok; simpl; [split; [done|by left]|].
  destruct (order pool) as [|oldest rest] eqn:Ho; [split; [done|by left]|].
  destruct (entries pool !! oldest) as [e|] eqn:He; [|split; [done|by left]].
  destruct (_ || _) eqn:Hold; [split; [done|by left]|]. apply orb_false_iff in Hold as [Hl Hi%Z.ltb_ge].
  pose proof (pool_buckets _ _ Hok _ _ He) as [_ Hseen]. pose proof idle_int64 as Hint.
  assert (idleTTL ≤ now - lastSeen e) as Hexp by (pose proof (time_Sub_lt now (lastSeen e) idleTTL Hint); lia).
  fold (without_oldest oldest rest pool). destruct (IH _ (pool_ok_drop now oldest rest pool Ho Hok)) as [Hok' Hkeys]. split; [done|]. intros key.
  assert (Hdel : entries (without_oldest oldest rest pool) !! oldest = None) by apply lookup_delete_eq.
  destruct (decide (key = oldest)) as [->|Hne].
  - right. split; [|by exists e]. destruct (Hkeys oldest) as [Hk|[Hk _]]; [rewrite Hk; exact Hdel|exact Hk].
  - assert (Hsame : entries (without_oldest oldest rest pool) !! key = entries pool !! key) by (apply lookup_delete_ne; congruence).
    specialize (Hkeys key). unfold expired in *. rewrite Hsame in Hkeys. exact Hkeys.
Qed.

Lemma cleanup_size now limit : ∀ pool, (size (entries (cleanup now idleTTL limit pool)) ≤ size (entries pool))%nat.
Proof.
  induction limit as [|limit IH]; intros pool; simpl; [done|]. destruct (order pool) as [|oldest rest]; [done|].
  destruct (entries pool !! oldest) as [e|] eqn:He; [|done]. destruct (_ || _); [done|].
  etransitivity; [apply IH|]. cbn [entries]. rewrite map_size_delete, He. lia.
Qed.

(** A cleanup frees room, unless every bucket was seen within [idleTTL]. *)
Lemma cleanup_room now limit pool : pool_ok now pool → (0 < limit)%nat →
  let pool' := cleanup now idleTTL limit pool in
  (pool' = pool ∧ ∀ key e, entries pool !! key = Some e → now - lastSeen e < idleTTL) ∨
  (size (entries pool') < size (entries pool))%nat.
Proof.
  intros Hok Hl. destruct limit as [|limit]; [lia|]. simpl. pose proof idle_int64 as Hint.
  destruct (order pool) as [|oldest rest] eqn:Ho.
  { left. split; [done|]. intros key e He. pose proof (pool_listed _ _ Hok key) as Hk. rewrite Ho, He in Hk.
    exfalso. apply (not_elem_of_nil key). apply Hk. by exists e. }
  destruct (proj1 (pool_listed _ _ Hok oldest) ltac:(rewrite Ho; left)) as [e He]. rewrite He.
  destruct (_ || _) eqn:Hold.
  - left. split; [done|]. pose proof (pool_buckets _ _ Hok _ _ He) as [_ Hseen].
    assert (now - lastSeen e < idleTTL) as Hrec.
    { apply orb_true_iff in Hold as [Hc|Hc]; [lia|]. apply Z.ltb_lt in Hc. apply time_Sub_lt in Hc; [done|done|lia]. }
    intros key e' He'. pose proof (pool_by_age _ _ Hok) as Hs. rewrite Ho in Hs. apply StronglySorted_inv in Hs as [_ Hf].
    assert (key ∈ order pool) as Hin by (apply (pool_listed _ _ Hok); by exists e'). rewrite Ho, elem_of_cons in Hin.
    destruct Hin as [->|Hin]; [congruence|]. rewrite Forall_forall in Hf. apply list_elem_of_In in Hin. pose proof (Hf key Hin e e' He He'). lia.
  - right. eapply Nat.le_lt_trans; [apply cleanup_size|]. cbn [entries].
    pose proof (map_size_delete_Some (M:=gmap string) oldest (entries pool) (mk_is_Some _ _ He)).
    pose proof (map_size_ne_0_lookup_2 (M:=gmap string) (entries pool) oldest (mk_is_Some _ _ He)). lia.
Qed.

(** ** The pool keeps the accounts *)

Record keeps (last : Z) (pool : bucketPool) (st : accounts) : Prop := {
  keeps_ok : pool_ok last pool;
  keeps_entries : ∀ key e, entries pool !! key = Some e → ∃ a, st !! key = Some a ∧ seen a = lastSeen e ∧
    ∀ t, last ≤ t → bucket_credit t e = credit_at t (Some a);
  keeps_gone : ∀ key a, st !! key = Some a → entries pool !! key = None →
    ∀ t, last ≤ t → idleTTL ≤ t - seen a ∧ credit_at t (Some a) = full }.

Lemma keeps_later last now pool st : last ≤ now → keeps last pool st → keeps now pool st.
Proof.
  intros Hn [Hok He Hg]. split.
  - by apply (pool_ok_later last).
  - intros key e Hk. destruct (He key e Hk) as (a&Ha&Hs&Hc). exists a. split_and!; [done|done|]. intros t Ht. apply Hc. lia.
  - intros key a Ha Hk t Ht. apply (Hg key a Ha Hk). lia.
Qed.

Lemma keeps_cleanup now limit pool st : keeps now pool st → keeps now (cleanup now idleTTL limit pool) st.
Proof.
  intros [Hok He Hg]. destruct (cleanup_spec now limit pool Hok) as [Hok' Hkeys]. split; [done| |].
  - intros key e Hk. destruct (Hkeys key) as [Hs|[Hs _]]; [|congruence]. apply He. congruence.
  - intros key a Ha Hk t Ht. destruct (Hkeys key) as [Hs|[_ (e&Hke&Hi)]]; [apply (Hg key); [done|congruence|done]|].
    destruct (He key e Hke) as (a'&Ha'&Hseen&Hc). assert (a' = a) as -> by congruence. rewrite <- Hc by done. split; [lia|].
    apply idle_bucket_full; [|lia]. apply (bucket_ok_later e now); [done|]. exact (pool_buckets _ _ Hok _ _ Hke).
Qed.

Lemma recent_lookup now st key a : recent now st !! key = Some a ↔ st !! key = Some a ∧ now - seen a < idleTTL.
Proof. unfold recent. rewrite map_lookup_filter_Some. done. Qed.
Lemma recent_kept now pool st : keeps now pool st → dom (recent now st) ⊆ dom (entries pool).
Proof.
  intros Hk key. rewrite !elem_of_dom. intros [a [Ha Hr']%recent_lookup].
  destruct (entries pool !! key) as [e|] eqn:He; [done|]. destruct (keeps_gone _ _ _ Hk key a Ha He now) as [Hi _]; [done|lia].
Qed.
Lemma dom_sizes {A B} (m : gmap string A) (m' : gmap string B) : dom m ⊆ dom m' → (size m ≤ size m')%nat.
Proof. intros Hd%subseteq_size. by rewrite !size_dom in Hd. Qed.

(** Capacity is refused exactly to a new key of a crowded pool. *)
Lemma crowded_capacity now limit key pool st : keeps now pool st → (0 < limit)%nat →
  let pool' := cleanup now idleTTL limit pool in
  crowded key now st = true ↔ entries pool' !! key = None ∧ maximum ≤ Z.of_nat (size (entries pool')).
Proof.
  intros Hk Hl pool'. pose proof (keeps_cleanup now limit pool st Hk) as Hk'. pose proof (recent_kept now pool' st Hk') as Hsub.
  pose proof (dom_sizes _ _ Hsub) as Hsz. pose proof (pool_bounded _ _ (keeps_ok _ _ _ Hk')) as Hb. fold pool' in Hk', Hb. unfold crowded. split.
  - destruct (recent now st !! key) as [a|] eqn:Ha; [done|]. intros Hm%Z.leb_le. split; [|lia].
    assert (dom (recent now st) = dom (entries pool')) as Hd by (apply set_subseteq_size_eq; [done|rewrite !size_dom; lia]).
    apply not_elem_of_dom. rewrite <- Hd. by apply not_elem_of_dom.
  - intros [Hnone Hm]. destruct (cleanup_room now limit pool (keeps_ok _ _ _ Hk) Hl) as [[Heq Hall]|Hlt].
    2:{ fold pool' in Hlt. pose proof (pool_bounded _ _ (keeps_ok _ _ _ Hk)). lia. }
    fold pool' in Heq. destruct (recent now st !! key) as [a|] eqn:Ha.
    + apply elem_of_dom_2, Hsub, elem_of_dom in Ha as [e He]. congruence.
    + apply Z.leb_le. enough (dom (entries pool') ⊆ dom (recent now st)) as Hd by (apply dom_sizes in Hd; lia).
      intros k. rewrite !elem_of_dom, Heq. intros [e He]. destruct (keeps_entries _ _ _ Hk k e He) as (a&Hka&Hs&_).
      exists a. apply recent_lookup. split; [done|]. pose proof (Hall k e He). lia.
Qed.

Lemma retryAfter_spec now e : lastRefill e ≤ now → now - lastRefill e < RefillInterval r →
  retryAfter now (RefillInterval r) e = RefillInterval r - (now - lastRefill e).
Proof.
  pose proof rate_bounds as [_ HT]. intros Hl Hlt. unfold retryAfter. destruct (Z.ltb_spec (lastRefill e) now); simpl; [|lia].
  assert (RefillInterval r ≤ 86400000000000) as HTmax by (unfold validRate in Hr; bool_facts; unfold maximumInterval, hour, minute, second, nanosecond in *; bool_lia).
  assert (time_Sub now (lastRefill e) = now - lastRefill e) as -> by (unfold time_Sub, int64_min, int64_max; lia).
  destruct (Z.leb_spec (RefillInterval r - (now - lastRefill e)) 0); simpl; [lia|].
  destruct (Z.ltb_spec (RefillInterval r) (RefillInterval r - (now - lastRefill e))); lia.
Qed.

(** A token taken from an up-to-date bucket, against the account. *)
Definition settled (now c : Z) (e : bucket) : Prop :=
  lastSeen e = now ∧ lastRefill e ≤ now ∧ 0 ≤ tokens e ≤ Burst r ∧ tokens e * RefillInterval r + (now - lastRefill e) = c ∧ c ≤ full ∧
  (tokens e = 0 → now - lastRefill e < RefillInterval r).
Lemma settled_ok now c e : settled now c e → bucket_ok now e.
Proof. intros (Hs&Hl&Ht&_). split; [done|lia]. Qed.
Lemma settled_credit now c e t : settled now c e → now ≤ t → bucket_credit t e = credit_at t (Some (Account c now)).
Proof. intros (Hs&Hl&Ht&Hc&_) Hn. unfold bucket_credit. cbn [credit_at credit seen]. lia. Qed.
Lemma settled_take now c e : settled now c e →
  (tokens e <? 1) = negb (RefillInterval r <=? c) ∧
  (tokens e < 1 → retryAfter now (RefillInterval r) e = RefillInterval r - c) ∧
  (1 ≤ tokens e → bucket_ok now (Bucket (tokens e - 1) (lastRefill e) (lastSeen e)) ∧
     ∀ t, now ≤ t → bucket_credit t (Bucket (tokens e - 1) (lastRefill e) (lastSeen e)) = credit_at t (Some (Account (c - RefillInterval r) now))).
Proof.
  pose proof rate_bounds as [_ HT]. intros (Hs&Hl&Ht&Hc&Hf&Hz). split_and!.
  - destruct (Z.ltb_spec (tokens e) 1), (Z.leb_spec (RefillInterval r) c); try done; exfalso; [assert (tokens e = 0) by lia; lia|nia].
  - intros H0. assert (tokens e = 0) as H0' by lia. rewrite retryAfter_spec by auto. lia.
  - intros H1. split; [split; cbn; lia|]. intros t Htt. unfold bucket_credit. cbn [credit_at credit seen tokens lastRefill]. lia.
Qed.

Lemma move_to_back_new key keys : key ∉ keys → move_to_back key keys = keys ++ [key].
Proof.
  unfold move_to_back. intros Hn. f_equal. induction keys as [|k keys IH]; simpl; [done|]. apply not_elem_of_cons in Hn as [Hne Hn].
  destruct (String.eqb_spec k key); simpl; [congruence|]. by rewrite IH.
Qed.
Lemma move_to_back_elem key keys k : k ∈ move_to_back key keys ↔ k = key ∨ k ∈ keys.
Proof.
  unfold move_to_back. rewrite elem_of_app, list_elem_of_singleton, !list_elem_of_In, filter_In.
  destruct (String.eqb_spec k key) as [->|Hne]; simpl; [by split; [left|right]|].
  split; [intros [[Hk _]|Hk]; [by right|done]|intros [Hk|Hk]; [done|by left]].
Qed.

(** The bucket of a key seen now. *)
Definition put (key : string) (e : bucket) (pool : bucketPool) : bucketPool :=
  BucketPool (<[key := e]> (entries pool)) (move_to_back key (order pool)) (pool_maximum pool).
Lemma put_ok now key e pool : pool_ok now pool → bucket_ok now e → lastSeen e = now →
  is_Some (entries pool !! key) ∨ Z.of_nat (size (entries pool)) < maximum → pool_ok now (put key e pool).
Proof.
  intros [Hnd Hl Hs Hb Hsz Hm] He Hseen Hroom. unfold put. split; cbn [entries order pool_maximum]; try done.
  - unfold move_to_back. apply list.NoDup_app. split_and!; [|intros k; rewrite list_elem_of_In, filter_In, list_elem_of_singleton|apply NoDup_singleton].
    + apply NoDup_ListNoDup, List.NoDup_filter, NoDup_ListNoDup. done.
    + intros [_ Hk] ->. rewrite String.eqb_refl in Hk. done.
  - intros k. rewrite move_to_back_elem, lookup_insert_is_Some, Hl. split; [intros [->|Hk]; [by left|]|intros [Hk|[_ Hk]]; [by left|by right]].
    destruct (decide (key = k)); [by left|by right].
  - unfold move_to_back. apply StronglySorted_snoc.
    + apply (older_mono (entries pool)); [|by apply StronglySorted_filter]. intros k. rewrite list_elem_of_In, filter_In.
      intros [_ Hk]. apply lookup_insert_ne. intros ->. rewrite String.eqb_refl in Hk. done.
    + intros k [_ Hk]%filter_In e1 e2. rewrite lookup_insert_eq. intros He1 [= <-]. rewrite lookup_insert_ne in He1.
      2:{ intros ->. rewrite String.eqb_refl in Hk. done. }
      pose proof (Hb k e1 He1) as [_ Hle]. lia.
  - intros k e'. rewrite lookup_insert_Some. intros [[_ <-]|[_ Hk]]; [done|by apply (Hb k)].
  - destruct (entries pool !! key) as [e0|] eqn:Hk.
    + rewrite (map_size_insert_Some (M:=gmap string)) by done. done.
    + rewrite (map_size_insert_None (M:=gmap string)) by done. destruct Hroom as [[? [=]]|?]. lia.
Qed.

Lemma keeps_put now key e c pool st : keeps now pool st → bucket_ok now e → lastSeen e = now →
  (∀ t, now ≤ t → bucket_credit t e = credit_at t (Some (Account c now))) →
  is_Some (entries pool !! key) ∨ Z.of_nat (size (entries pool)) < maximum →
  keeps now (put key e pool) (<[key := Account c now]> st).
Proof.
  intros [Hok Hke Hg] He Hseen Hc Hroom. split; [by apply put_ok|..]; unfold put; cbn [entries].
  - intros k e'. rewrite lookup_insert_Some. intros [[<- <-]|[Hne Hk]].
    + exists (Account c now). rewrite lookup_insert_eq. split_and!; [done|done|exact Hc].
    + rewrite lookup_insert_ne by done. by apply Hke.
  - intros k a. rewrite lookup_insert_Some, lookup_insert_None. intros [[<- <-]|[Hne Ha]] [Hk Hne']; [done|]. exact (Hg k a Ha Hk).
Qed.

Lemma put_put key e e' pool : put key e' (put key e pool) = put key e' pool.
Proof.
  unfold put. cbn [entries order pool_maximum]. rewrite insert_insert_eq. f_equal. unfold move_to_back. f_equal.
  rewrite List.filter_app. simpl. rewrite String.eqb_refl, app_nil_r. apply filter_filter_on. by intros.
Qed.

Lemma take_token_keeps now key limited e c pool st : keeps now pool st → settled now c e →
  is_Some (entries pool !! key) ∨ Z.of_nat (size (entries pool)) < maximum →
  let '(answer, pool') := take_token key now r limited e (put key e pool) in
  keeps now pool' (if RefillInterval r <=? c then <[key := Account (c - RefillInterval r) now]> st else <[key := Account c now]> st) ∧
  answer = (if RefillInterval r <=? c then without_retry DecisionAllowed else ResultOf limited (RefillInterval r - c)).
Proof.
  intros Hk Hs Hroom. destruct (settled_take now c e Hs) as (Ht&Hret&Htake). unfold take_token. rewrite Ht.
  destruct (RefillInterval r <=? c); simpl.
  - destruct Htake as [Hok Hc]; [destruct (Z.ltb_spec (tokens e) 1); [done|lia]|]. split; [|done].
    pose proof (keeps_put now key _ _ pool st Hk Hok (proj1 Hs) Hc Hroom) as Hp. unfold put in *. cbn [entries order pool_maximum] in *.
    rewrite insert_insert_eq. exact Hp.
  - rewrite Hret by (destruct (Z.ltb_spec (tokens e) 1); [done|lia]). split; [|done].
    apply keeps_put; [done|by eapply settled_ok|apply Hs|by intros; apply settled_credit|done].
Qed.

(** One call on a pool answers what the accounts promise. *)
Lemma admit_keeps last now key limit limited overload pool st : keeps last pool st → last ≤ now → 0 < limit →
  let '(answer, pool') := pool_admit key now r idleTTL limit limited overload pool in
  let '(promised, st') := promised_admit key now limited overload st in
  answer = promised ∧ keeps now pool' st'.
Proof.
  intros Hk0 Hn Hl. apply (keeps_later last now) in Hk0; [|done]. unfold pool_admit, promised_admit.
  pose proof (crowded_capacity now (Z.to_nat limit) key pool st Hk0 ltac:(lia)) as Hcap.
  apply (keeps_cleanup now (Z.to_nat limit)) in Hk0 as Hk. set (p := cleanup _ _ _ pool) in *.
  pose proof (keeps_ok _ _ _ Hk) as Hok. rewrite (pool_max _ _ Hok) in *. destruct (entries p !! key) as [e|] eqn:He.
  - destruct (crowded key now st); [destruct (proj1 Hcap eq_refl); congruence|].
    destruct (keeps_entries _ _ _ Hk key e He) as (a&Ha&Hseen&Hc). rewrite Ha.
    pose proof (refill_spec now e (pool_buckets _ _ Hok _ _ He)) as (Hsn&Ht&Hlr&Hcr&Hz).
    pose proof (pool_buckets _ _ Hok _ _ He) as [_ Hage].
    assert (Hset : settled now (credit_at now (Some a)) (seen_bucket now r e)).
    { unfold settled, seen_bucket. cbn [tokens lastRefill lastSeen]. unfold monotonicMaximum. rewrite Hsn, <- Hc by done.
      split_and!; [destruct (Z.ltb_spec (lastSeen e) now); lia|lia|lia|lia|done|unfold bucket_credit; lia|done]. }
    pose proof (take_token_keeps now key limited _ _ p st Hk Hset (or_introl (mk_is_Some _ _ He))) as Htk.
    unfold put in Htk. rewrite (pool_max _ _ Hok) in Htk. cbn zeta. destruct (take_token _ _ _ _ _ _) as [an p'].
    destruct Htk as [Hkp ->]. destruct (_ <=? _); done.
  - destruct (Z.leb_spec maximum (Z.of_nat (size (entries p)))) as [Hfull|Hroom].
    { rewrite (proj2 Hcap) by done. done. }
    destruct (crowded key now st); [destruct (proj1 Hcap eq_refl); lia|]. cbn zeta.
    assert (Hcr : credit_at now (st !! key) = full).
    { destruct (st !! key) as [a|] eqn:Ha; [|done]. apply (keeps_gone _ _ _ Hk key a Ha He now). done. }
    assert (Hset : settled now (credit_at now (st !! key)) (Bucket (Burst r) now now)).
    { pose proof rate_bounds as [HB _]. rewrite Hcr. unfold settled, full. cbn. split_and!; lia. }
    assert (Hni : key ∉ order p) by (rewrite (pool_listed _ _ Hok), He; by intros [? [=]]).
    pose proof (take_token_keeps now key limited _ _ p st Hk Hset (or_intror Hroom)) as Htk. unfold put in Htk.
    rewrite (pool_max _ _ Hok), (move_to_back_new _ _ Hni) in Htk. destruct (take_token _ _ _ _ _ _) as [an p'].
    destruct Htk as [Hkp ->]. destruct (_ <=? _); done.
Qed.

Lemma keeps_new last : 0 ≤ maximum → keeps last (newBucketPool maximum) ∅.
Proof.
  intros Hm. split; [split|..]; unfold newBucketPool; cbn; try done.
  - constructor.
  - intros key. rewrite lookup_empty. split; [by intros ?%elem_of_nil|by intros [? [=]]].
  - constructor.
Qed.
End Accounts.
