(* ===== verification/AdmissionPromise.v ===== *)
(** * AdmissionPromise: what the limiter guarantees

    The limiter against its promise (a counter of active permits and ideal token
    buckets), and from it the rate, the concurrency and the memory bounds and the
    exactness of Retry-After. *)
From S2P Require Import Prelude GoNet Identity AddrText Text Vocabulary Admission AdmissionFacts.
From Stdlib Require Import Ascii.
Local Open Scope string_scope.
Local Open Scope Z_scope.
Local Open Scope go_scope.
Local Open Scope list_scope.

(** ** The limiter's promise *)

Record promise := Promise { source_accounts : accounts; actor_accounts : accounts; promise_clock : Z; granted : list Permit }.
Definition in_use (permits : list Permit) : Z := Z.of_nat (length (List.filter active permits)).

(** The first reason to refuse a call before any budget is looked at. *)
Definition source_refusal (ctx : context) (operation : string) (source : option Addr) : Decision + Addr :=
  match ctx, source with
  | Some (canceled, canceled_locked), Some source =>
      if negb (Operation_Valid operation) then inl DecisionInvalid
      else if canceled then inl DecisionCanceled
      else if negb (validSourceAddress (Unmap source)) then inl DecisionInvalid
      else if canceled_locked then inl DecisionCanceled else inr (Unmap source)
  | Some (canceled, _), None => inl (if Operation_Valid operation && canceled then DecisionCanceled else DecisionInvalid)
  | None, _ => inl DecisionInvalid
  end.
Definition actor_refusal (p : option Permit) (ctx : context) (operation actor : string) : option Decision :=
  match p, ctx with
  | Some p, Some (canceled, canceled_locked) =>
      if negb (Operation_Valid operation) then Some DecisionInvalid
      else if canceled then Some DecisionCanceled
      else if canonical_actor actor && active p && (permit_operation p ≟ operation) && negb (actorChecked p)
      then if canceled_locked then Some DecisionCanceled else None
      else Some DecisionInvalid
  | _, _ => Some DecisionInvalid
  end.

Definition promised_source (c : limiter_config) (ctx : context) (clock : Z) (operation : string) (source : option Addr) (p : promise)
    : option nat * Result * promise :=
  match source_refusal ctx operation source with
  | inl d => (None, without_retry d, p)
  | inr address =>
      if MaxConcurrent c <=? in_use (granted p) then (None, ResultOf DecisionConcurrencyLimited (OverloadRetryAfter c), p)
      else
        let now := Z.max (promise_clock p) clock in
        let '(result, st) := promised_admit (SourceRate c) (IdleTTL c) (MaxSources c) (bucketKey operation (str (AddrString address)))
          now DecisionSourceRateLimited (OverloadRetryAfter c) (source_accounts p) in
        if Allowed result
        then (Some (length (granted p)), result, Promise st (actor_accounts p) now (granted p ++ [PermitOf operation true false]))
        else (None, result, Promise st (actor_accounts p) now (granted p))
  end.
Definition promised_actor (c : limiter_config) (permit : nat) (ctx : context) (clock : Z) (operation actor : string) (p : promise)
    : Result * promise :=
  match actor_refusal (granted p !! permit) ctx operation actor with
  | Some d => (without_retry d, p)
  | None =>
      let now := Z.max (promise_clock p) clock in
      let '(result, st) := promised_admit (ActorRate c) (IdleTTL c) (MaxActors c) (bucketKey operation actor)
        now DecisionActorRateLimited (OverloadRetryAfter c) (actor_accounts p) in
      (result, Promise (source_accounts p) st now (<[permit := PermitOf operation true true]> (granted p)))
  end.
(** A released permit is no longer active. *)
Definition promised_release (permit : nat) (p : promise) : promise :=
  Promise (source_accounts p) (actor_accounts p) (promise_clock p)
    (alter (λ q, PermitOf (permit_operation q) false (actorChecked q)) permit (granted p)).
Definition promised_answer (c : limiter_config) (call : admission_call) (p : promise) : admission_response * promise :=
  match call with
  | CallSource ctx clock operation source => let '(q, r, p) := promised_source c ctx clock operation source p in (SourceAnswer q r, p)
  | CallActor q ctx clock operation actor => let '(r, p) := promised_actor c q ctx clock operation actor p in (ActorAnswer r, p)
  | CallRelease q => (Released, promised_release q p)
  end.
Fixpoint promised_answers (c : limiter_config) (calls : list admission_call) (p : promise) : list admission_response * promise :=
  match calls with
  | [] => ([], p)
  | call :: rest => let '(a, p) := promised_answer c call p in let '(rest, p) := promised_answers c rest p in (a :: rest, p)
  end.
Definition promise_start : promise := Promise ∅ ∅ zero_clock [].

(** ** The limiter keeps it *)

Lemma alter_as_insert {A} (f : A → A) (l : list A) i : alter f i l = match l !! i with Some x => <[i := f x]> l | None => l end.
Proof.
  revert i. induction l as [|y l IH]; intros [|i]; try done. simpl. specialize (IH i).
  change (list_alter f i l) with (alter f i l). unfold alter in IH |- *. rewrite IH. by destruct (l !! i).
Qed.

Section Limiting.
Context (c : limiter_config) (Hc : validateConfig c = true).

Lemma minimumFullRefill_full r idle : validRate r = true → minimumFullRefill r ≤ idle → idle ≤ maximumIdleTTL → full r ≤ idle ≤ maximumIdleTTL.
Proof. unfold minimumFullRefill, full. intros ->. simpl. destruct (_ <? _); lia. Qed.
Lemma config_facts : validRate (SourceRate c) = true ∧ validRate (ActorRate c) = true ∧
  full (SourceRate c) ≤ IdleTTL c ≤ maximumIdleTTL ∧ full (ActorRate c) ≤ IdleTTL c ≤ maximumIdleTTL ∧
  0 < CleanupLimit c ∧ 0 < MaxSources c ∧ 0 < MaxActors c ∧ 0 < MaxConcurrent c.
Proof.
  unfold validateConfig in Hc. bool_facts.
  split_and!; try done; try (apply minimumFullRefill_full; [done|lia|lia]); try lia; apply minimumFullRefill_full; done || lia.
Qed.

Record honours (l : Limiter) (p : promise) : Prop := {
  honours_config : config l = c;
  honours_sources : keeps (SourceRate c) (IdleTTL c) (MaxSources c) (lastNow l) (sources l) (source_accounts p);
  honours_actors : keeps (ActorRate c) (IdleTTL c) (MaxActors c) (lastNow l) (actors l) (actor_accounts p);
  honours_clock : lastNow l = promise_clock p;
  honours_permits : permits l = granted p;
  honours_inFlight : inFlight l = in_use (granted p);
  honours_limit : in_use (granted p) ≤ MaxConcurrent c }.

Lemma in_use_app x y : in_use (x ++ y) = in_use x + in_use y.
Proof. unfold in_use. rewrite List.filter_app, length_app. lia. Qed.
Lemma in_use_cons q l : in_use (q :: l) = in_use [q] + in_use l.
Proof. exact (in_use_app [q] l). Qed.
Lemma in_use_one op act ch : in_use [PermitOf op act ch] = if act then 1 else 0.
Proof. by destruct act. Qed.
Lemma in_use_insert permits i q q' : permits !! i = Some q → in_use (<[i := q']> permits) = in_use permits + in_use [q'] - in_use [q].
Proof.
  intros Hi. assert (i < length permits)%nat as Hlt by (apply lookup_lt_is_Some; by exists q).
  rewrite <- (take_drop_middle permits i q Hi) at 2. rewrite insert_take_drop by done.
  rewrite !in_use_app, (in_use_cons q'), (in_use_cons q). lia.
Qed.
Lemma currentTimeLocked_max clock l : currentTimeLocked clock l = Z.max (lastNow l) clock.
Proof. unfold currentTimeLocked. destruct (Z.ltb_spec clock (lastNow l)); lia. Qed.

Lemma AdmitSource_honours ctx clock operation source l p : honours l p →
  let '(q, r, l') := AdmitSource ctx clock operation source l in
  let '(q', r', p') := promised_source c ctx clock operation source p in
  q = q' ∧ r = r' ∧ honours l' p'.
Proof.
  intros [Hcf Hs Ha Hcl Hp Hi Hlim]. pose proof config_facts as (HrS&HrA&HfS&HfA&Hlc&_). unfold AdmitSource, promised_source, source_refusal.
  destruct ctx as [[canceled locked]|]; [|done]. destruct (Operation_Valid operation); simpl; [|destruct source; done].
  destruct canceled; [destruct source; done|]. destruct source as [a|]; [|done].
  destruct (validSourceAddress (Unmap a)); simpl; [|done]. destruct locked; [done|]. rewrite Hi, Hcf.
  destruct (Z.leb_spec (MaxConcurrent c) (in_use (granted p))) as [Hfull|Hroom]; [done|].
  rewrite currentTimeLocked_max, Hcl in *. set (now := Z.max (promise_clock p) clock).
  pose proof (admit_keeps _ _ _ HrS HfS (promise_clock p) now (bucketKey operation (str (AddrString (Unmap a)))) (CleanupLimit c)
    DecisionSourceRateLimited (OverloadRetryAfter c) (sources l) (source_accounts p) Hs ltac:(lia) Hlc) as Hk.
  destruct (pool_admit _ _ _ _ _ _ _ _) as [r pool]. destruct (promised_admit _ _ _ _ _ _ _ _) as [r' st]. destruct Hk as [-> Hk].
  destruct (Allowed r'); simpl; rewrite ?Hp; (split_and!; [done|done|]); split; simpl; try done;
    try (eapply keeps_later; [|exact Ha]; lia); rewrite ?in_use_app, ?in_use_one; lia.
Qed.

Lemma AdmitActor_honours q ctx clock operation actor l p : honours l p →
  let '(r, l') := AdmitActor q ctx clock operation actor l in
  let '(r', p') := promised_actor c q ctx clock operation actor p in
  r = r' ∧ honours l' p'.
Proof.
  intros [Hcf Hs Ha Hcl Hp Hi Hlim]. pose proof config_facts as (HrS&HrA&HfS&HfA&Hlc&_). unfold AdmitActor, promised_actor, actor_refusal.
  rewrite Hp. destruct (granted p !! q) as [[op act ch]|] eqn:Hq; [|done]. destruct ctx as [[canceled locked]|]; [|done].
  destruct (Operation_Valid operation); simpl; [|done]. destruct canceled; [done|]. destruct (canonical_actor actor); simpl; [|done].
  destruct act; simpl; [|done]. destruct (String.eqb_spec op operation) as [->|]; simpl; [|done]. destruct ch; simpl; [done|].
  destruct locked; [done|]. rewrite Hcf, currentTimeLocked_max, Hcl in *. set (now := Z.max (promise_clock p) clock).
  pose proof (admit_keeps _ _ _ HrA HfA (promise_clock p) now (bucketKey operation actor) (CleanupLimit c)
    DecisionActorRateLimited (OverloadRetryAfter c) (actors l) (actor_accounts p) Ha ltac:(lia) Hlc) as Hk.
  destruct (pool_admit _ _ _ _ _ _ _ _) as [r pool]. destruct (promised_admit _ _ _ _ _ _ _ _) as [r' st]. destruct Hk as [-> Hk].
  split; [done|]. split; simpl; try done.
  - eapply keeps_later; [|exact Hs]; lia.
  - rewrite (in_use_insert _ _ _ _ Hq), !in_use_one. lia.
  - rewrite (in_use_insert _ _ _ _ Hq), !in_use_one. lia.
Qed.

Lemma Release_honours q l p : honours l p → honours (Release q l) (promised_release q p).
Proof.
  intros [Hcf Hs Ha Hcl Hp Hi Hlim]. unfold Release, promised_release. rewrite Hp, alter_as_insert.
  destruct (granted p !! q) as [[op act ch]|] eqn:Hq.
  - cbn [permit_operation actorChecked]. destruct act; cbn [active].
    + assert (Hn : in_use (<[q := PermitOf op false ch]> (granted p)) = in_use (granted p) - 1) by (rewrite (in_use_insert _ _ _ _ Hq), !in_use_one; lia).
      assert (0 ≤ in_use (<[q := PermitOf op false ch]> (granted p))) by (unfold in_use; lia).
      split; simpl; try done; [|lia]. destruct (Z.ltb_spec 0 (inFlight l)); lia.
    + rewrite list_insert_id by done. split; done.
  - split; done.
Qed.

Lemma answer_honours call l p : honours l p →
  (answer call l).1 = (promised_answer c call p).1 ∧ honours (answer call l).2 (promised_answer c call p).2.
Proof.
  intros Hh. destruct call as [ctx clock op src|q ctx clock op actor|q]; simpl.
  - pose proof (AdmitSource_honours ctx clock op src l p Hh) as Hk. destruct (AdmitSource _ _ _ _ _) as [[? ?] ?].
    destruct (promised_source _ _ _ _ _ _) as [[? ?] ?]. destruct Hk as (->&->&Hk). done.
  - pose proof (AdmitActor_honours q ctx clock op actor l p Hh) as Hk. destruct (AdmitActor _ _ _ _ _ _) as [? ?].
    destruct (promised_actor _ _ _ _ _ _ _) as [? ?]. destruct Hk as (->&Hk). done.
  - split; [done|by apply Release_honours].
Qed.
Lemma answers_honour calls : ∀ l p, honours l p →
  (answers calls l).1 = (promised_answers c calls p).1 ∧ honours (answers calls l).2 (promised_answers c calls p).2.
Proof.
  induction calls as [|call calls IH]; intros l p Hh; simpl; [done|]. destruct (answer_honours call l p Hh) as [Ha Hh'].
  destruct (answer call l) as [a l']. destruct (promised_answer c call p) as [a' p']. simpl in *. subst a'.
  destruct (IH l' p' Hh') as [Hr Hh'']. destruct (answers calls l') as [r l'']. destruct (promised_answers c calls p') as [r' p''].
  simpl in *. by subst.
Qed.
Lemma new_honours : ∃ l, newLimiter c = Some l ∧ honours l promise_start.
Proof.
  unfold newLimiter. rewrite Hc. eexists. split; [done|]. pose proof config_facts as (_&_&_&_&_&?&?&?).
  split; simpl; try done; try (apply keeps_new; lia). change (in_use []) with 0. lia.
Qed.
End Limiting.

(** ** What the limiter guarantees *)

(** C25: The limiter implements its promise: fed any sequence of source admissions,
    actor admissions and releases, with any clock readings, it answers exactly as a
    counter of active permits and two families of ideal token buckets that are never
    evicted would, capacity being refused exactly to a key that did not ask within
    the idle time while [MaxSources] ([MaxActors]) other keys did. *)
Theorem limiter_meets_promise c calls : validateConfig c = true →
  ∃ l, newLimiter c = Some l ∧ (answers calls l).1 = (promised_answers c calls promise_start).1.
Proof.
  intros Hc. destruct (new_honours c Hc) as (l&Hl&Hh). exists l. split; [done|]. by apply answers_honour.
Qed.

(** A limiter after some calls. *)
Definition limiter_after (c : limiter_config) (calls : list admission_call) (l : Limiter) : Prop :=
  ∃ l0, newLimiter c = Some l0 ∧ l = (answers calls l0).2.
Lemma limiter_after_honours c calls l : limiter_after c calls l →
  validateConfig c = true ∧ honours c l (promised_answers c calls promise_start).2.
Proof.
  intros (l0&Hl&->). assert (validateConfig c = true) as Hc by (unfold newLimiter in Hl; by destruct (validateConfig c)).
  split; [done|]. destruct (new_honours c Hc) as (l1&Hl1&Hh). assert (l1 = l0) as -> by congruence. by apply answers_honour.
Qed.

(** The memory and the concurrency of the limiter are bounded: after any calls at
    most [MaxSources] and [MaxActors] buckets are kept, each listed once in its
    eviction order, and the in-flight count is the number of permits handed out and
    not yet released, at most [MaxConcurrent]. *)
Theorem limiter_bounded c calls l : limiter_after c calls l →
  inFlight l = in_use (permits l) ∧ 0 ≤ inFlight l ≤ MaxConcurrent c ∧
  Z.of_nat (size (entries (sources l))) ≤ MaxSources c ∧ Z.of_nat (size (entries (actors l))) ≤ MaxActors c ∧
  (∀ pool, pool = sources l ∨ pool = actors l → NoDup (order pool) ∧ list_to_set (order pool) = dom (entries pool)).
Proof.
  intros [Hc [Hcf Hs Ha Hcl Hp Hi Hlim]]%limiter_after_honours. rewrite Hp. pose proof (keeps_ok _ _ _ _ _ _ Hs) as Hso.
  pose proof (keeps_ok _ _ _ _ _ _ Ha) as Hao.
  split_and!; [done|rewrite Hi; unfold in_use; lia|lia|exact (pool_bounded _ _ _ _ Hso)|exact (pool_bounded _ _ _ _ Hao)|].
  assert (Hpool : ∀ r m last pool, pool_ok r m last pool → NoDup (order pool) ∧ list_to_set (order pool) = dom (entries pool)).
  { intros r m last pool [Hnd Hl _ _ _ _]. split; [done|]. apply set_eq. intros k. rewrite elem_of_list_to_set, elem_of_dom. apply Hl. }
  intros pool [->| ->]; eapply Hpool; done.
Qed.

(** The bucket a call draws from, the clock it reads, and whether it is let through. *)
Inductive stage := SourceStage | ActorStage.
Definition stage_rate (s : stage) (c : limiter_config) : Rate := match s with SourceStage => SourceRate c | ActorStage => ActorRate c end.
Definition draws (s : stage) (key : string) (call : admission_call) : bool :=
  match s, call with
  | SourceStage, CallSource _ _ operation (Some source) => bucketKey operation (str (AddrString (Unmap source))) ≟ key
  | ActorStage, CallActor _ _ _ operation actor => bucketKey operation actor ≟ key
  | _, _ => false
  end.
Definition let_through (a : admission_response) : bool :=
  match a with SourceAnswer _ r => Allowed r | ActorAnswer r => Allowed r | Released => false end.
Definition clock_within (t0 t1 : Z) (call : admission_call) : Prop :=
  match call with CallSource _ clock _ _ => t0 ≤ clock ≤ t1 | CallActor _ _ clock _ _ => t0 ≤ clock ≤ t1 | CallRelease _ => True end.
Definition grants (s : stage) (key : string) (calls : list admission_call) (answers : list admission_response) : Z :=
  Z.of_nat (length (List.filter (λ ca, draws s key ca.1 && let_through ca.2) (zip calls answers))).

(** *** The credit of one key over a sequence of calls *)

Section Rate.
Context (c : limiter_config) (Hc : validateConfig c = true) (s : stage) (key : string) (t0 : Z).
Let r := stage_rate s c.
Definition stage_accounts (p : promise) : accounts := match s with SourceStage => source_accounts p | ActorStage => actor_accounts p end.
Definition reading (p : promise) : Z := Z.max t0 (promise_clock p).
Definition key_credit (p : promise) : Z := credit_at r (reading p) (stage_accounts p !! key).
(** No account is in debt, nor ahead of the clock. *)
Definition solvent (p : promise) : Prop := ∀ a, stage_accounts p !! key = Some a → 0 ≤ credit a ∧ seen a ≤ promise_clock p.

Lemma credit_at_range t a : 0 ≤ full r → 0 ≤ credit a → seen a ≤ t → 0 ≤ credit_at r t (Some a) ≤ full r.
Proof. unfold credit_at. lia. Qed.
Lemma credit_at_later t t' a : t ≤ t' → credit_at r t' a ≤ credit_at r t a + (t' - t).
Proof. destruct a; unfold credit_at; lia. Qed.
Lemma stage_full : 0 < RefillInterval r ∧ 0 ≤ full r.
Proof.
  pose proof (config_facts c Hc) as (HS&HA&_). assert (Hr : validRate r = true) by (subst r; by destruct s).
  pose proof (rate_bounds r Hr). unfold full. nia.
Qed.

(** One admission on the accounts of the key's stage. *)
Lemma promised_admit_credit idle m k clock limited overload p p' result : solvent p → t0 ≤ clock →
  promised_admit r idle m k (Z.max (promise_clock p) clock) limited overload (stage_accounts p) = (result, stage_accounts p') →
  promise_clock p' = Z.max (promise_clock p) clock → limited ≠ DecisionAllowed →
  solvent p' ∧ (if (k ≟ key) && Allowed result then RefillInterval r else 0) + key_credit p' ≤ key_credit p + (reading p' - reading p).
Proof.
  intros Hsol Ht Hadm Hcl Hlim. pose proof stage_full as [HT Hfull]. set (now := Z.max (promise_clock p) clock) in *.
  assert (Hrd : reading p' = now) by (unfold reading; lia). assert (Hle : reading p ≤ now) by (unfold reading; lia).
  unfold key_credit. rewrite Hrd. unfold promised_admit in Hadm.
  assert (Hother : ∀ a, stage_accounts p !! key = Some a → 0 ≤ credit a ∧ seen a ≤ now) by (intros a Ha; destruct (Hsol a Ha); lia).
  pose proof (credit_at_later (reading p) now (stage_accounts p !! key) Hle) as Hlater.
  destruct (crowded _ _ _ _ _) eqn:Hcr.
  { injection Hadm as <- Hst. unfold solvent. rewrite <- Hst, Hcl. split; [done|]. rewrite andb_false_r. lia. }
  assert (Hc0 : 0 ≤ credit_at r now (stage_accounts p !! k) ∨ k ≠ key).
  { destruct (decide (k = key)) as [->|]; [left|by right]. destruct (stage_accounts p !! key) as [a|] eqn:Ha; [|simpl; lia].
    destruct (Hother a eq_refl). apply credit_at_range; lia. }
  set (ck := credit_at r now (stage_accounts p !! k)) in *. assert (Hck : ck ≤ full r) by (unfold ck, credit_at; destruct (_ !! k); lia).
  destruct (Z.leb_spec (RefillInterval r) ck) as [Hok|Hno]; injection Hadm as <- Hst; unfold solvent; rewrite <- Hst, Hcl.
  - replace (Allowed _) with true by done. rewrite andb_true_r. destruct (String.eqb_spec k key) as [->|Hne].
    + split; [intros a; rewrite lookup_insert_eq; intros [= <-]; cbn; lia|]. rewrite lookup_insert_eq.
      replace (credit_at r now (Some (Account (ck - RefillInterval r) now))) with (ck - RefillInterval r) by (cbn; lia). fold ck in Hlater. lia.
    + rewrite lookup_insert_ne by done. split; [done|lia].
  - replace (Allowed _) with false by (unfold Allowed; cbn; by rewrite bool_decide_false).
    rewrite andb_false_r. destruct (decide (k = key)) as [->|Hne].
    + split; [intros a; rewrite lookup_insert_eq; intros [= <-]; cbn; destruct Hc0; [lia|done]|]. rewrite lookup_insert_eq.
      replace (credit_at r now (Some (Account ck now))) with ck by (cbn; lia). fold ck in Hlater. lia.
    + rewrite lookup_insert_ne by done. split; [done|lia].
Qed.

Lemma quiet_credit p p' : solvent p → stage_accounts p' = stage_accounts p → promise_clock p ≤ promise_clock p' →
  solvent p' ∧ key_credit p' ≤ key_credit p + (reading p' - reading p).
Proof.
  intros Hsol Hsame Hcl. unfold solvent, key_credit. rewrite Hsame. split; [intros a Ha; destruct (Hsol a Ha); lia|].
  apply credit_at_later. unfold reading. lia.
Qed.
Definition cost (call : admission_call) (a : admission_response) : Z :=
  if draws s key call && let_through a then RefillInterval r else 0.
Lemma source_refusal_cases ctx operation source :
  (∃ d, source_refusal ctx operation source = inl d ∧ Allowed (without_retry d) = false) ∨
  ∃ a, source = Some a ∧ source_refusal ctx operation source = inr (Unmap a).
Proof.
  unfold source_refusal. destruct ctx as [[[] []]|], source as [a|], (Operation_Valid operation); simpl; eauto 6;
    destruct (validSourceAddress (Unmap a)); simpl; eauto 6.
Qed.
Lemma actor_refusal_cases q ctx operation actor d : actor_refusal q ctx operation actor = Some d → Allowed (without_retry d) = false.
Proof.
  unfold actor_refusal. destruct q as [[op act ch]|], ctx as [[[] []]|], (Operation_Valid operation); simpl; intros Hd; try (by injection Hd as <-);
    destruct (_ && _); by simplify_eq.
Qed.

Lemma on_stage : (s = SourceStage ∧ r = SourceRate c ∧ ∀ p, stage_accounts p = source_accounts p) ∨
  (s = ActorStage ∧ r = ActorRate c ∧ ∀ p, stage_accounts p = actor_accounts p).
Proof. unfold stage_accounts, r. destruct s; [left|right]; done. Qed.

Lemma promised_answer_credit call p t1 : solvent p → clock_within t0 t1 call →
  let '(a, p') := promised_answer c call p in
  solvent p' ∧ cost call a + key_credit p' ≤ key_credit p + (reading p' - reading p).
Proof.
  intros Hsol Ht. unfold cost. destruct call as [ctx clock op src|q ctx clock op actor|q]; simpl in Ht |- *.
  - unfold promised_source. destruct (source_refusal_cases ctx op src) as [(d&->&Hd)|(a&->&->)].
    { cbn [let_through]. rewrite Hd, andb_false_r. split; [done|lia]. }
    destruct (_ <=? _); [cbn; rewrite andb_false_r; split; [done|lia]|]. destruct (promised_admit _ _ _ _ _ _ _ _) as [res st] eqn:Hadm.
    assert (Hgo : ∀ g, let p' := Promise st (actor_accounts p) (Z.max (promise_clock p) clock) g in
      solvent p' ∧ (if draws s key (CallSource ctx clock op (Some a)) && Allowed res then RefillInterval r else 0) + key_credit p' ≤ key_credit p + (reading p' - reading p)).
    { intros g p'. destruct on_stage as [(Hs&Hr&Hacc)|(Hs&Hr&Hacc)]; rewrite Hs; cbn [draws].
      - rewrite <- Hr, <- Hacc in Hadm. change st with (source_accounts p') in Hadm. rewrite <- Hacc in Hadm.
        eapply promised_admit_credit; [done|apply Ht|exact Hadm|done|done].
      - destruct (quiet_credit p p' Hsol) as [? ?]; [by rewrite !Hacc|unfold p'; cbn [promise_clock]; lia|]. split; [done|cbn [andb]; clearbody p'; lia]. }
    destruct (Allowed res) eqn:Hres; cbn [let_through]; rewrite Hres; apply Hgo.
  - unfold promised_actor. destruct (actor_refusal _ _ _ _) as [d|] eqn:Hd.
    { cbn [let_through]. rewrite (actor_refusal_cases _ _ _ _ _ Hd), andb_false_r. split; [done|lia]. }
    destruct (promised_admit _ _ _ _ _ _ _ _) as [res st] eqn:Hadm. cbn [let_through]. set (p' := Promise _ _ _ _).
    destruct on_stage as [(Hs&Hr&Hacc)|(Hs&Hr&Hacc)]; rewrite Hs; cbn [draws].
    + destruct (quiet_credit p p' Hsol) as [? ?]; [by rewrite !Hacc|unfold p'; cbn [promise_clock]; lia|]. split; [done|cbn [andb]; clearbody p'; lia].
    + rewrite <- Hr, <- Hacc in Hadm. change st with (actor_accounts p') in Hadm. rewrite <- Hacc in Hadm.
      eapply promised_admit_credit; [done|apply Ht|exact Hadm|done|done].
  - rewrite andb_false_r. apply (quiet_credit p); [done| |simpl; lia]. destruct on_stage as [(_&_&Hacc)|(_&_&Hacc)]; by rewrite !Hacc.
Qed.

Lemma promised_answers_credit calls t1 : ∀ p, solvent p → Forall (clock_within t0 t1) calls →
  let '(as_, p') := promised_answers c calls p in
  solvent p' ∧ grants s key calls as_ * RefillInterval r + key_credit p' ≤ key_credit p + (reading p' - reading p).
Proof.
  induction calls as [|call calls IH]; intros p Hsol Ht; simpl; [split; [done|change (grants s key [] []) with 0; lia]|].
  apply Forall_cons_1 in Ht as [Ht Hts]. pose proof (promised_answer_credit call p t1 Hsol Ht) as Hstep.
  destruct (promised_answer c call p) as [a p1]. destruct Hstep as [Hsol1 Hstep]. specialize (IH p1 Hsol1 Hts).
  destruct (promised_answers c calls p1) as [as_ p2]. destruct IH as [Hsol2 Hrest]. split; [done|].
  unfold cost in Hstep. unfold grants in *. cbn [zip zip_with List.filter fst snd]. destruct (_ && _); cbn [length]; lia.
Qed.
Lemma promised_clock calls t1 : ∀ p, promise_clock p ≤ t1 → Forall (clock_within t0 t1) calls →
  promise_clock (promised_answers c calls p).2 ≤ t1.
Proof.
  induction calls as [|call calls IH]; intros p Hp Ht; simpl; [done|]. apply Forall_cons_1 in Ht as [Ht Hts].
  assert (Hp1 : promise_clock (promised_answer c call p).2 ≤ t1).
  { destruct call as [ctx clock op src|q ctx clock op actor|q]; simpl in Ht |- *; [| |done].
    - unfold promised_source. destruct (source_refusal _ _ _); [done|]. destruct (_ <=? _); [done|].
      destruct (promised_admit _ _ _ _ _ _ _ _). destruct (Allowed _); simpl; lia.
    - unfold promised_actor. destruct (actor_refusal _ _ _ _); [done|]. destruct (promised_admit _ _ _ _ _ _ _ _). simpl. lia. }
  destruct (promised_answer c call p) as [a p1]. specialize (IH p1 Hp1 Hts). destruct (promised_answers c calls p1). done.
Qed.
End Rate.

Lemma promised_answers_app c calls calls' p :
  promised_answers c (calls ++ calls') p =
  let '(a, p1) := promised_answers c calls p in let '(a', p2) := promised_answers c calls' p1 in (a ++ a', p2).
Proof.
  revert p. induction calls as [|call calls IH]; intros p; simpl; [by destruct (promised_answers c calls' p)|].
  destruct (promised_answer c call p) as [a p1]. rewrite IH. destruct (promised_answers c calls p1) as [as_ p2].
  by destruct (promised_answers c calls' p2).
Qed.

Lemma start_solvent c calls s key t1 : validateConfig c = true → Forall (clock_within zero_clock t1) calls →
  solvent s key (promised_answers c calls promise_start).2.
Proof.
  intros Hc Ht. assert (Hs0 : solvent s key promise_start) by (intros a; destruct s; unfold stage_accounts; cbn; rewrite lookup_empty; done).
  pose proof (promised_answers_credit c Hc s key zero_clock calls t1 promise_start Hs0 Ht) as Hk.
  destruct (promised_answers c calls promise_start). apply Hk.
Qed.
(** The operation and identity of a call are in its bucket key, and two calls share a
    bucket only when they agree on both. *)
Lemma bucketKey_injective op op' identity identity' : Operation_Valid op = true → Operation_Valid op' = true →
  bucketKey op identity = bucketKey op' identity' → op = op' ∧ identity = identity'.
Proof.
  assert (Hall : ∀ o, Operation_Valid o = true → o = OperationRegister ∨ o = OperationHeartbeat ∨ o = OperationUnregister).
  { intros o. unfold Operation_Valid. intros [[Ho|Ho]%orb_true_iff|Ho]%orb_true_iff; apply String.eqb_eq in Ho; auto. }
  intros [->|[->| ->]]%Hall [->|[->| ->]]%Hall; unfold bucketKey; intros Hk; apply (f_equal b) in Hk; rewrite !b_str in Hk;
    first [discriminate Hk|split; [done|]; rewrite !app_assoc in Hk; apply app_inv_head in Hk;
      rewrite <- (str_b identity), <- (str_b identity'); by f_equal].
Qed.

(** C26: The rate of every bucket is bounded, whatever the order of the calls, the
    evictions and the clock: in a window of clock readings [t0]..[t1] at most
    [Burst + (t1 - t0) / RefillInterval] source admissions are granted to one operation
    and source address, and as many actor admissions to one operation and actor. *)
Theorem admission_rate_bounded c before l calls s key t0 t1 :
  limiter_after c before l → Forall (clock_within zero_clock t1) before → zero_clock ≤ t0 ≤ t1 → Forall (clock_within t0 t1) calls →
  grants s key calls (answers calls l).1 ≤ Burst (stage_rate s c) + (t1 - t0) / RefillInterval (stage_rate s c).
Proof.
  intros [Hc Hh]%limiter_after_honours Hb Ht Hcalls. destruct (answers_honour c Hc calls _ _ Hh) as [Hans _]. rewrite Hans.
  pose proof (start_solvent c before s key t1 Hc Hb) as Hsol. pose proof (promised_clock c zero_clock before t1 promise_start ltac:(simpl; lia) Hb) as Hcl.
  set (p := (promised_answers c before promise_start).2) in *.
  pose proof (promised_answers_credit c Hc s key t0 calls t1 p Hsol Hcalls) as Hk. pose proof (promised_clock c t0 calls t1 p Hcl Hcalls) as Hcl'.
  destruct (promised_answers c calls p) as [as_ p'] eqn:Hrun. destruct Hk as [Hsol' Hk]. simpl in Hcl' |- *.
  pose proof (stage_full c Hc s) as [HT Hfull]. unfold full in Hfull.
  assert (Hend : 0 ≤ key_credit c s key t0 p').
  { unfold key_credit. destruct (stage_accounts s p' !! key) as [a|] eqn:Ha; [|simpl; unfold full; lia].
    destruct (Hsol' a Ha). unfold credit_at, reading, full. lia. }
  assert (Hstart : key_credit c s key t0 p ≤ full (stage_rate s c)) by (unfold key_credit, credit_at; destruct (_ !! key); lia).
  unfold reading, full in *. set (T := RefillInterval (stage_rate s c)) in *. set (N := grants s key calls as_) in *.
  assert (HN : (N - Burst (stage_rate s c)) * T ≤ t1 - t0) by lia.
  pose proof (Z.div_le_lower_bound (t1 - t0) T (N - Burst (stage_rate s c)) HT ltac:(lia)). lia.
Qed.

(** ** The source of a request *)

Lemma Unmap_not_4in6 a : Is4In6 (Unmap a) = false.
Proof.
  destruct a as [|gs]; [done|]. unfold Unmap, Is4In6.
  destruct gs as [|? [|? [|? [|? [|? [|? [|? [|? [|]]]]]]]]]; try done. destruct (is_4in6 _) eqn:H4; [done|exact H4].
Qed.
(** Forwarded identity comes only from trusted proxies: what a request from any
    other peer carries in X-Real-IP changes nothing; a resolved source is always a
    valid client address, never an IPv4-mapped one. *)
Theorem source_not_spoofed resolver remoteAddr realIP peer : parseRemoteAddress remoteAddr = Some peer → trusts resolver peer = false →
  Source_of resolver remoteAddr realIP = Some peer.
Proof. unfold Source_of. intros -> Ht. cbn. by rewrite Ht. Qed.
Theorem source_valid resolver remoteAddr realIP a : Source_of resolver remoteAddr realIP = Some a → validSourceAddress a = true ∧ Is4In6 a = false.
Proof.
  assert (Hpeer : ∀ peer, parseRemoteAddress remoteAddr = Some peer → validSourceAddress peer = true ∧ Is4In6 peer = false).
  { unfold parseRemoteAddress. intros peer. destruct (SplitHostPort_host _); [|done]. cbn. destruct (ParseAddr_unzoned _) as [x|]; [|done]. cbn.
    destruct (validSourceAddress (Unmap x)) eqn:Hv; [|done]. intros [= <-]. split; [done|apply Unmap_not_4in6]. }
  unfold Source_of. destruct (parseRemoteAddress remoteAddr) as [peer|]; [|done]. cbn.
  destruct (trusts resolver peer); cbn; [|intros [= <-]; by apply Hpeer]. destruct realIP as [|v [|]]; try done.
  destruct (contains_byte _ _); [done|]. destruct (ParseAddr_unzoned _) as [x|]; [|done]. cbn.
  destruct (validSourceAddress (Unmap x)) eqn:Hv; [|done]. intros [= <-]. split; [done|apply Unmap_not_4in6].
Qed.

(** ** Retry-After *)

Lemma keeps_seen r idle m last pool st key a : 0 ≤ idle → keeps r idle m last pool st → st !! key = Some a → seen a ≤ last.
Proof.
  intros Hidle Hk Ha. destruct (entries pool !! key) as [e|] eqn:He.
  - destruct (keeps_entries _ _ _ _ _ _ Hk key e He) as (a'&Ha'&Hs&_). assert (a' = a) as -> by congruence.
    destruct (pool_buckets _ _ _ _ (keeps_ok _ _ _ _ _ _ Hk) key e He). lia.
  - destruct (keeps_gone _ _ _ _ _ _ Hk key a Ha He last); lia.
Qed.

(** The Retry-After of a rate-limited call is exact: whatever other calls have been
    answered before it, the same call made earlier than the delay is limited again,
    with what is left of the delay, and made at the delay or later it is admitted. *)
Theorem retry_after_exact r idleTTL maximum cleanupLimit limited overload last pool st key now delay pool' t :
  validRate r = true → full r ≤ idleTTL ≤ maximumIdleTTL → 0 < cleanupLimit → 0 < maximum →
  limited ≠ DecisionAllowed → limited ≠ DecisionCapacityLimited →
  keeps r idleTTL maximum last pool st → last ≤ now ≤ t →
  pool_admit key now r idleTTL cleanupLimit limited overload pool = (ResultOf limited delay, pool') →
  0 < delay ≤ RefillInterval r ∧
  (pool_admit key t r idleTTL cleanupLimit limited overload pool').1 =
    if t <? now + delay then ResultOf limited (now + delay - t) else without_retry DecisionAllowed.
Proof.
  intros Hr Hidle Hlim Hmax Hna Hnc Hk Ht Hadm. pose proof (rate_bounds r Hr) as [HB HT].
  pose proof (admit_keeps r idleTTL maximum Hr Hidle last now key cleanupLimit limited overload pool st Hk ltac:(lia) Hlim) as Hstep.
  rewrite Hadm in Hstep. unfold promised_admit in Hstep. destruct (crowded _ _ _ _ _); [by destruct Hstep as [[= ->] _]|].
  set (c := credit_at r now (st !! key)) in *. destruct (Z.leb_spec (RefillInterval r) c) as [_|Hc]; [by destruct Hstep as [[= ->] _]|].
  destruct Hstep as [[= ->] Hk']. set (st' := <[key := Account c now]> st) in *.
  assert (Hfull : RefillInterval r ≤ full r) by (unfold full; nia).
  assert (0 ≤ idleTTL) as Hid by (clear - Hidle Hfull HT; lia).
  assert (Hc0 : 0 ≤ c).
  { unfold c. destruct (st !! key) as [a|] eqn:Ha; [|simpl; lia]. unfold c in *.
    pose proof (keeps_seen _ _ _ _ _ _ _ _ Hid Hk Ha). destruct (entries pool !! key) as [e|] eqn:He.
    - destruct (keeps_entries _ _ _ _ _ _ Hk key e He) as (a'&Ha'&Hs&Hcr). assert (a' = a) as -> by congruence.
      destruct (pool_buckets _ _ _ _ (keeps_ok _ _ _ _ _ _ Hk) key e He) as [Htok Hage]. rewrite <- Hcr by lia.
      unfold bucket_credit. assert (0 ≤ tokens e * RefillInterval r) by nia. lia.
    - destruct (keeps_gone _ _ _ _ _ _ Hk key a Ha He now) as [_ ->]; lia. }
  split; [lia|].
  pose proof (admit_keeps r idleTTL maximum Hr Hidle now t key cleanupLimit limited overload pool' st' Hk' ltac:(lia) Hlim) as Hnext.
  destruct (pool_admit key t _ _ _ _ _ _) as [res pool'']. unfold promised_admit in Hnext.
  assert (Hcr : crowded idleTTL maximum key t st' = false).
  { unfold crowded. destruct (recent idleTTL t st' !! key) as [a|] eqn:Ha; [done|]. apply Z.leb_gt.
    enough (recent idleTTL t st' = ∅) as -> by (change (0 < maximum); lia). apply map_empty. intros k.
    destruct (recent idleTTL t st' !! k) as [a|] eqn:Hrk; [|done]. exfalso. apply recent_lookup in Hrk as [Hrk Hage].
    pose proof (keeps_seen _ _ _ _ _ _ _ _ Hid Hk' Hrk) as Hseen.
    assert (recent idleTTL t st' !! key = Some (Account c now)) by (apply recent_lookup; unfold st'; rewrite lookup_insert_eq; split; [done|cbn; lia]).
    congruence. }
  assert (Hkey : st' !! key = Some (Account c now)) by apply lookup_insert_eq.
  rewrite Hcr, Hkey in Hnext. cbn [credit_at credit seen] in Hnext.
  destruct (Z.ltb_spec t (now + (RefillInterval r - c))) as [Hb|Ha];
    destruct (Z.leb_spec (RefillInterval r) (Z.min (full r) (c + (t - now)))); destruct Hnext as [-> _];
    try (exfalso; lia); simpl; [f_equal; lia|done].
Qed.

(** ** Examples *)

Definition sample_config : limiter_config :=
  LimiterConfig (RateOf 2 second) (RateOf 1 (10 * second)) 2 2 2 (10 * second) 16 second.
Definition client (n : Z) : option Addr := Some (V4 192 0 2 n).
Definition ask (seconds n : Z) : admission_call := CallSource (Some (false, false)) (time_of_unix seconds) OperationHeartbeat (client n).
Definition sample_key : string := bucketKey OperationHeartbeat "192.0.2.1".
(** Two clients, a burst that is refused, and a permit given back. *)
Definition sample_calls : list admission_call := [ask 100 1; CallRelease 0; ask 100 1; CallRelease 1; ask 100 1; ask 101 1; CallRelease 2].
Definition sample_limiter : Limiter := LimiterOf sample_config (newBucketPool 2) (newBucketPool 2) 0 zero_clock [].

Example sample_answers : (answers sample_calls sample_limiter).1 =
  [SourceAnswer (Some 0%nat) (without_retry DecisionAllowed); Released; SourceAnswer (Some 1%nat) (without_retry DecisionAllowed); Released;
   SourceAnswer None (ResultOf DecisionSourceRateLimited second); SourceAnswer (Some 2%nat) (without_retry DecisionAllowed); Released].
Proof. vm_compute. reflexivity. Qed.

Lemma limiter_meets_promise_witness : ∃ l, newLimiter sample_config = Some l ∧
  (answers sample_calls l).1 = (promised_answers sample_config sample_calls promise_start).1.
Proof. assert (Hc : validateConfig sample_config = true) by (vm_compute; reflexivity). exact (limiter_meets_promise sample_config sample_calls Hc). Defined.
Lemma sample_after calls : limiter_after sample_config calls (answers calls sample_limiter).2.
Proof. exists sample_limiter. split; [vm_compute|]; reflexivity. Defined.
Lemma limiter_bounded_witness : inFlight (answers [ask 100 1; ask 100 2] sample_limiter).2 = 2.
Proof.
  destruct (limiter_bounded sample_config [ask 100 1; ask 100 2] _ (sample_after _)) as (Hi&_). rewrite Hi. vm_compute. reflexivity.
Defined.
Lemma admission_rate_bounded_witness :
  grants SourceStage sample_key sample_calls (answers sample_calls sample_limiter).1 = 3 ∧
  grants SourceStage sample_key sample_calls (answers sample_calls sample_limiter).1 ≤ 2 + (time_of_unix 101 - time_of_unix 100) / second.
Proof.
  split; [vm_compute; reflexivity|].
  assert (Ht : zero_clock ≤ time_of_unix 100 ≤ time_of_unix 101) by (vm_compute; split; discriminate).
  assert (Hin : Forall (clock_within (time_of_unix 100) (time_of_unix 101)) sample_calls).
  { repeat constructor; vm_compute; discriminate. }
  exact (admission_rate_bounded sample_config [] sample_limiter sample_calls SourceStage sample_key (time_of_unix 100) (time_of_unix 101)
    (sample_after []) (Forall_nil_2 _) Ht Hin).
Defined.
Lemma retry_after_exact_witness :
  (pool_admit sample_key (time_of_unix 101) (RateOf 1 second) (10 * second) 16 DecisionSourceRateLimited second
     (pool_admit sample_key (time_of_unix 100) (RateOf 1 second) (10 * second) 16 DecisionSourceRateLimited second
       (pool_admit sample_key (time_of_unix 100) (RateOf 1 second) (10 * second) 16 DecisionSourceRateLimited second (newBucketPool 2)).2).2).1 =
  without_retry DecisionAllowed.
Proof.
  set (r := RateOf 1 second).
  assert (Hr : validRate r = true) by (vm_compute; reflexivity).
  assert (Hi : full r ≤ 10 * second ≤ maximumIdleTTL) by (vm_compute; split; discriminate).
  assert (H0 : 0 < 16) by lia. assert (H2 : 0 < 2) by lia. assert (H02 : 0 ≤ 2) by lia.
  assert (Ht : time_of_unix 100 ≤ time_of_unix 100) by lia.
  assert (Htt : time_of_unix 100 ≤ time_of_unix 100 ≤ time_of_unix 101) by (vm_compute; split; discriminate).
  pose proof (admit_keeps r (10 * second) 2 Hr Hi (time_of_unix 100) (time_of_unix 100) sample_key 16 DecisionSourceRateLimited second
    (newBucketPool 2) ∅ (keeps_new r (10 * second) 2 (time_of_unix 100) H02) Ht H0) as Hk.
  destruct (pool_admit sample_key (time_of_unix 100) r (10 * second) 16 DecisionSourceRateLimited second (newBucketPool 2)) as [a1 pool] eqn:Ha.
  destruct (promised_admit r (10 * second) 2 sample_key (time_of_unix 100) DecisionSourceRateLimited second ∅) as [a2 st] eqn:Hp.
  assert (Hpool : pool = (a1, pool).2) by reflexivity. rewrite <- Ha in Hpool. simpl.
  destruct (pool_admit sample_key (time_of_unix 100) r (10 * second) 16 DecisionSourceRateLimited second pool) as [a3 pool'] eqn:Hb.
  assert (H3 : a3 = ResultOf DecisionSourceRateLimited second) by (change a3 with (a3, pool').1; rewrite <- Hb, Hpool; vm_compute; reflexivity).
  rewrite H3 in Hb.
  destruct (retry_after_exact r (10 * second) 2 16 DecisionSourceRateLimited second (time_of_unix 100) pool st sample_key (time_of_unix 100) second
    pool' (time_of_unix 101) Hr Hi H0 H2 ltac:(discriminate) ltac:(discriminate) (proj2 Hk) Htt Hb) as [_ Hlater].
  exact Hlater.
Defined.
