(* ===== verification/Growth.v ===== *)
(** * Growth: the database growth guard

    [internal/storage/growth.go] and [internal/storage/sqlite/growth.go].  What SQLite
    and the file system report is an input of each sample; the singleton row of
    [storage_growth_state] is state.  The guard's mutex is held from an admitted write
    to the release of its lease, and its mail goroutine gives it up while it sends, so
    the guard is a step function over a world with those two threads of control. *)
From S2P Require Import Prelude GoNet Vocabulary Store.
From stdpp Require Import pretty.
From Stdlib Require Import Ascii.
Local Open Scope string_scope.
Local Open Scope Z_scope.
Local Open Scope go_scope.
Local Open Scope list_scope.

(** ** storage/growth.go *)

Definition DefaultDatabaseMaxBytes : Z := 2 ^ 30.
Definition MaximumDatabaseMaxBytes : Z := 2 ^ 40.
Definition DatabaseCriticalPercent : Z := 90.
Definition DatabaseHardPercent : Z := 100.
Definition DatabaseGrowthReminderInterval : Z := 24 * hour.
Definition DatabaseGrowthRecoveryHysteresisPercent : Z := 5.
Definition MaximumDatabaseGrowthHeadroomBytes : Z := 2 ^ 27.

Definition DatabaseGrowthNormal := "normal".
Definition DatabaseGrowthWarning := "warning".
Definition DatabaseGrowthCritical := "critical".
Definition DatabaseGrowthHard := "hard".
Definition GrowthState_Valid (s : string) : bool :=
  (s ≟ DatabaseGrowthNormal) || (s ≟ DatabaseGrowthWarning) || (s ≟ DatabaseGrowthCritical) || (s ≟ DatabaseGrowthHard).

Definition DatabaseGrowthAlertWarning := "warning".
Definition DatabaseGrowthAlertCritical := "critical".
Definition DatabaseGrowthAlertHard := "hard-limit".
Definition DatabaseGrowthAlertRecovered := "recovered".
Definition DatabaseGrowthAlertTest := "test".
Definition GrowthAlertKind_Valid (k : string) : bool :=
  (k ≟ DatabaseGrowthAlertWarning) || (k ≟ DatabaseGrowthAlertCritical) || (k ≟ DatabaseGrowthAlertHard) ||
  (k ≟ DatabaseGrowthAlertRecovered) || (k ≟ DatabaseGrowthAlertTest).

Record growth_sample := GrowthSample {
  ObservedUnix : Z; State : string; PressurePercent : Z; PageSize : Z; PageCount : Z; UsedPages : Z; ReusablePages : Z;
  MaxPageCount : Z; UsedLogicalBytes : Z; AllocatedLogicalBytes : Z; MainPageLimitBytes : Z; PhysicalMainBytes : Z;
  WALBytes : Z; SHMBytes : Z; PhysicalFamilyBytes : Z; GrowthBytes : Z; GrowthKnown : bool; MaxBytes : Z;
  WarningPercent : Z; RetentionDays : Z; WriteAllowed : bool }.
(** [DatabaseGrowthSample{}], with its observation time and family size. *)
Definition bare_sample (observed family : Z) : growth_sample :=
  GrowthSample observed "" 0 0 0 0 0 0 0 0 0 0 0 0 family 0 false 0 0 0 false.
Definition observed_at (now : Z) (s : growth_sample) : growth_sample :=
  GrowthSample now (State s) (PressurePercent s) (PageSize s) (PageCount s) (UsedPages s) (ReusablePages s) (MaxPageCount s)
    (UsedLogicalBytes s) (AllocatedLogicalBytes s) (MainPageLimitBytes s) (PhysicalMainBytes s) (WALBytes s) (SHMBytes s)
    (PhysicalFamilyBytes s) (GrowthBytes s) (GrowthKnown s) (MaxBytes s) (WarningPercent s) (RetentionDays s) (WriteAllowed s).

(** ** Checked and rounded int64 arithmetic *)

Definition checkedMultiply (x y : Z) : option Z :=
  if (x <? 0) || (y <? 0) || (negb (x =? 0) && (Z.quot int64_max x <? y)) then None else Some (int64_mul x y).
Fixpoint checkedAdd_from (total : Z) (values : list Z) : option Z :=
  match values with
  | [] => Some total
  | v :: rest => if (v <? 0) || (int64_sub int64_max v <? total) then None else checkedAdd_from (int64_add total v) rest
  end.
Definition checkedAdd (values : list Z) : option Z := checkedAdd_from 0 values.
Definition roundUp (value unit : Z) : Z :=
  if (value <=? 0) || (unit <=? 0) then 0
  else
    let remainder := Z.rem value unit in
    if remainder =? 0 then value
    else if int64_sub int64_max (unit - remainder) <? value then 0 else int64_add value (unit - remainder).

Definition maximumGrowthPercentReport : Z := 999.
Definition atLeastPercent (value maximum percent : Z) : bool :=
  if (maximum <=? 0) || (value <? 0) || (percent <=? 0) then false
  else if maximum <=? value then true
  else Z.quot (int64_add (int64_mul maximum percent) 99) 100 <=? value.
Definition boundedPercent (value maximum : Z) : Z :=
  if (maximum <=? 0) || (value <=? 0) then 0
  else if Z.quot (int64_mul maximum maximumGrowthPercentReport) 100 <=? value then maximumGrowthPercentReport
  else Z.quot (int64_mul value 100) maximum.

(** ** Classification *)

Definition classifyGrowthState (usedLogical mainLimit physicalFamily maxBytes warningPercent : Z) : string :=
  if atLeastPercent usedLogical mainLimit DatabaseHardPercent || atLeastPercent physicalFamily maxBytes DatabaseHardPercent then DatabaseGrowthHard
  else if atLeastPercent usedLogical mainLimit DatabaseCriticalPercent || atLeastPercent physicalFamily maxBytes DatabaseCriticalPercent then DatabaseGrowthCritical
  else if atLeastPercent usedLogical mainLimit warningPercent || atLeastPercent physicalFamily maxBytes warningPercent then DatabaseGrowthWarning
  else DatabaseGrowthNormal.
Definition growthRank (s : string) : Z :=
  if s ≟ DatabaseGrowthNormal then 0 else if s ≟ DatabaseGrowthWarning then 1
  else if s ≟ DatabaseGrowthCritical then 2 else if s ≟ DatabaseGrowthHard then 3 else -1.
Definition applyGrowthHysteresis (base : string) (pressure : Z) (previous : string) (warning : Z) : string :=
  if negb (GrowthState_Valid previous) then base
  else if growthRank previous <=? growthRank base then base
  else if previous ≟ DatabaseGrowthHard then
    if DatabaseHardPercent - DatabaseGrowthRecoveryHysteresisPercent <=? pressure then DatabaseGrowthHard else base
  else if previous ≟ DatabaseGrowthCritical then
    if DatabaseCriticalPercent - DatabaseGrowthRecoveryHysteresisPercent <=? pressure then DatabaseGrowthCritical else base
  else if previous ≟ DatabaseGrowthWarning then
    if warning - DatabaseGrowthRecoveryHysteresisPercent <=? pressure then DatabaseGrowthWarning else base
  else base.

(** ** Samples *)

(** The answers of the pragmas of one connection and of [os.Lstat]. *)
Record pragmas := Pragmas {
  page_size : option Z; page_count : option Z; freelist_count : option Z; max_page_count : option Z; cache_spill : option Z }.
Inductive file_info := FileMissing | FileUnreadable | FileIrregular | RegularFile (size : Z).
Record readings := Readings { connection : pragmas; main_file : file_info; wal_file : file_info; shm_file : file_info }.

Definition secureSidecarSize (info : file_info) (required : bool) : option Z :=
  match info with
  | FileMissing => if required then None else Some 0
  | RegularFile size => if size <? 0 then None else Some size
  | FileUnreadable | FileIrregular => None
  end.
(** A pragma that fails, or whose value is out of bounds, fails with the class [e]. *)
Definition pragma_value (answer : option Z) (valid : Z → bool) (e : error) : result error Z :=
  match answer with Some v => if valid v then Ok v else Err e | None => Err e end.

(** [databaseGrowthPageLimits]: desired pages, effective pages, main-file limit. *)
Definition databaseGrowthPageLimits (p : pragmas) (maxBytes : Z) : result error (Z * Z * Z) :=
  if (maxBytes <=? 0) || (MaximumDatabaseMaxBytes <? maxBytes) then Err ErrGrowthConfiguration
  else
    match pragma_value (page_size p) (Z.ltb 0) ErrGrowthConfiguration, pragma_value (page_count p) (Z.leb 0) ErrGrowthConfiguration with
    | Ok pageSize, Ok pageCount =>
        let headroom := Z.min (Z.quot maxBytes 8) MaximumDatabaseGrowthHeadroomBytes in
        let headroom := roundUp (Z.max headroom (int64_mul pageSize 4)) pageSize in
        if (headroom <=? 0) || (maxBytes <=? headroom) then Err ErrGrowthConfiguration
        else
          let desiredPages := Z.quot (maxBytes - headroom) pageSize in
          if desiredPages <=? 0 then Err ErrGrowthConfiguration
          else Ok (desiredPages, Z.max desiredPages pageCount, int64_mul desiredPages pageSize)
    | Err e, _ => Err e
    | _, Err e => Err e
    end.

(** [ConfigureDatabaseGrowthLimit]: [effective] is what the max_page_count pragma answers. *)
Definition ConfigureDatabaseGrowthLimit (p : pragmas) (effective : option Z) (maxBytes : Z) : result error (Z * Z) :=
  match databaseGrowthPageLimits p maxBytes with
  | Err e => Err e
  | Ok (desiredPages, expectedEffective, mainLimit) =>
      match effective with
      | None => Err ErrGrowthConfiguration
      | Some effective =>
          if (effective <=? 0) || negb (effective =? expectedEffective) then Err ErrGrowthConfiguration else Ok (desiredPages, mainLimit)
      end
  end.
Definition verifyDatabaseGrowthConnectionPolicy (p : pragmas) (maxBytes desiredPages mainLimit : Z) (cacheSpillEnabled : bool) : option error :=
  match databaseGrowthPageLimits p maxBytes with
  | Err e => Some e
  | Ok (computedDesired, expectedEffective, computedMainLimit) =>
      if negb (computedDesired =? desiredPages) || negb (computedMainLimit =? mainLimit) then Some ErrGrowthConfiguration
      else
        match max_page_count p, cache_spill p with
        | Some effective, Some spill =>
            if negb (effective =? expectedEffective) || Bool.eqb cacheSpillEnabled (spill =? 0) then Some ErrGrowthConfiguration else None
        | _, _ => Some ErrGrowthConfiguration
        end
  end.

Section Sampling.
Context (path : string) (maxBytes warningPercent retentionDays desiredMaxPageCount mainPageLimitBytes : Z).

Definition sample_input_ok : bool :=
  negb ((path ≟ "") || (maxBytes <=? 0) || (warningPercent <=? 0) || (DatabaseCriticalPercent <=? warningPercent) ||
        (desiredMaxPageCount <=? 0) || (mainPageLimitBytes <=? 0)).

(** The four pragmas and the three file sizes, in the order they are read. *)
Definition read_sizes (r : readings) : option (Z * Z * Z * Z * (Z * Z * Z)) :=
  let p := connection r in
  match page_size p, page_count p, freelist_count p, max_page_count p with
  | Some pageSize, Some pageCount, Some freelist, Some maxPages =>
      if (pageSize <=? 0) || (pageCount <? 0) || (freelist <? 0) || (pageCount <? freelist) || (maxPages <=? 0) then None
      else
        match secureSidecarSize (main_file r) true, secureSidecarSize (wal_file r) false, secureSidecarSize (shm_file r) false with
        | Some main, Some wal, Some shm => Some (pageSize, pageCount, freelist, maxPages, (main, wal, shm))
        | _, _, _ => None
        end
  | _, _, _, _ => None
  end.

Definition sampleDatabaseGrowth (r : readings) (previous : option growth_sample) (previousState : string) : result error growth_sample :=
  if negb sample_input_ok then Err ErrGrowthConfiguration
  else
    match read_sizes r with
    | None => Err ErrGrowthSample
    | Some (pageSize, pageCount, freelist, effectiveMaxPages, (main, wal, shm)) =>
        let usedPages := pageCount - freelist in
        match checkedMultiply usedPages pageSize, checkedMultiply pageCount pageSize, checkedAdd [main; wal; shm] with
        | Some usedBytes, Some allocatedBytes, Some family =>
            let pressure := Z.max (boundedPercent usedBytes mainPageLimitBytes) (boundedPercent family maxBytes) in
            let baseState := classifyGrowthState usedBytes mainPageLimitBytes family maxBytes warningPercent in
            let state := applyGrowthHysteresis baseState pressure previousState warningPercent in
            let '(growth, known) := match previous with Some p => (int64_sub family (PhysicalFamilyBytes p), true) | None => (0, false) end in
            Ok (GrowthSample 0 state pressure pageSize pageCount usedPages freelist effectiveMaxPages usedBytes allocatedBytes
                  mainPageLimitBytes main wal shm family growth known maxBytes warningPercent retentionDays (negb (state ≟ DatabaseGrowthHard)))
        | _, _, _ => Err ErrGrowthSample
        end
    end.
End Sampling.

Definition CheckMigrationGrowthAdmission (path : string) (r : readings) (maxBytes warningPercent desiredMaxPageCount mainPageLimitBytes : Z) : option error :=
  match sampleDatabaseGrowth path maxBytes warningPercent 0 desiredMaxPageCount mainPageLimitBytes r None DatabaseGrowthNormal with
  | Err e => Some e
  | Ok s => if State s ≟ DatabaseGrowthHard then Some ErrWriteAdmissionHard else None
  end.

(** ** The singleton row *)

Record growth_row := GrowthRow {
  growth_State : string; SampledUnix : Z; PhysicalBytes : Z; TransitionUnix : Z;
  LastEmailKind : option string; LastEmailUnix : option Z;
  PendingKind : option string; PendingSinceUnix : option Z; RetryAfterUnix : option Z; RetryAttempt : Z }.
(** The row the migration inserts. *)
Definition initial_growth_row : growth_row := GrowthRow DatabaseGrowthNormal 0 0 0 None None None None None 0.

(** The CHECK constraints of [storage_growth_state]. *)
Definition mail_kind (k : string) : bool :=
  (k ≟ "warning") || (k ≟ "critical") || (k ≟ "hard-limit") || (k ≟ "recovered").
Definition null_or {A} (p : A → bool) (v : option A) : bool := match v with None => true | Some x => p x end.
Definition growth_check (s : growth_row) : bool :=
  GrowthState_Valid (growth_State s) && (0 <=? SampledUnix s) && (0 <=? PhysicalBytes s) && (0 <=? TransitionUnix s) &&
  null_or mail_kind (LastEmailKind s) && null_or (Z.leb 0) (LastEmailUnix s) && null_or mail_kind (PendingKind s) &&
  null_or (Z.leb 0) (PendingSinceUnix s) && null_or (Z.leb 0) (RetryAfterUnix s) && (0 <=? RetryAttempt s) && (RetryAttempt s <=? 3) &&
  Bool.eqb (is_null (LastEmailKind s)) (is_null (LastEmailUnix s)) &&
  (is_null (PendingKind s) && is_null (PendingSinceUnix s) && is_null (RetryAfterUnix s) && (RetryAttempt s =? 0) ||
   negb (is_null (PendingKind s)) && negb (is_null (PendingSinceUnix s)) && negb (is_null (RetryAfterUnix s))).

Definition readGrowthPersistentState (answered : bool) (row : growth_row) : result error growth_row :=
  if negb answered then Err ErrGrowthSample
  else if negb (GrowthState_Valid (growth_State row)) || (SampledUnix row <? 0) || (PhysicalBytes row <? 0) ||
          (TransitionUnix row <? 0) || (RetryAttempt row <? 0) || (3 <? RetryAttempt row) then Err ErrGrowthSample
  else Ok row.
(** The update runs outside any transaction: once it is executed the row is changed,
    even when the affected row count cannot be read. *)
Record write_outcome := WriteOutcome { executes : bool; counts : bool }.
Definition writeGrowthPersistentState (o : write_outcome) (state row : growth_row) : option error * growth_row :=
  if negb (GrowthState_Valid (growth_State state)) || (SampledUnix state <? 0) || (PhysicalBytes state <? 0) ||
     (TransitionUnix state <? 0) || (RetryAttempt state <? 0) || (3 <? RetryAttempt state) then (Some ErrGrowthConfiguration, row)
  else if negb (executes o) || negb (growth_check state) then (Some ErrGrowthSample, row)
  else (if counts o then None else Some ErrGrowthSample, state).

Definition alertKindForState (s : string) : string :=
  if s ≟ DatabaseGrowthWarning then DatabaseGrowthAlertWarning
  else if s ≟ DatabaseGrowthCritical then DatabaseGrowthAlertCritical
  else if s ≟ DatabaseGrowthHard then DatabaseGrowthAlertHard else DatabaseGrowthAlertRecovered.
Definition alertKindForTransition (oldState newState : string) : string :=
  if (newState ≟ DatabaseGrowthNormal) && negb (oldState ≟ DatabaseGrowthNormal) then DatabaseGrowthAlertRecovered
  else alertKindForState newState.
Definition clearPending (s : growth_row) : growth_row :=
  GrowthRow (growth_State s) (SampledUnix s) (PhysicalBytes s) (TransitionUnix s) (LastEmailKind s) (LastEmailUnix s) None None None 0.
(** A notification scheduled now. *)
Definition schedule_alert (kind : string) (now : Z) (s : growth_row) : growth_row :=
  GrowthRow (growth_State s) (SampledUnix s) (PhysicalBytes s) (TransitionUnix s) (LastEmailKind s) (LastEmailUnix s)
    (Some kind) (Some now) (Some now) 0.
Definition enter_state (state : string) (now : Z) (s : growth_row) : growth_row :=
  GrowthRow state (SampledUnix s) (PhysicalBytes s) now (LastEmailKind s) (LastEmailUnix s)
    (PendingKind s) (PendingSinceUnix s) (RetryAfterUnix s) (RetryAttempt s).
Definition sampled (now family : Z) (s : growth_row) : growth_row :=
  GrowthRow (growth_State s) now family (TransitionUnix s) (LastEmailKind s) (LastEmailUnix s)
    (PendingKind s) (PendingSinceUnix s) (RetryAfterUnix s) (RetryAttempt s).
Definition mailed (kind : string) (now : Z) (s : growth_row) : growth_row :=
  clearPending (GrowthRow (growth_State s) (SampledUnix s) (PhysicalBytes s) (TransitionUnix s) (Some kind) (Some now)
    (PendingKind s) (PendingSinceUnix s) (RetryAfterUnix s) (RetryAttempt s)).
Definition retry_later (after attempt : Z) (s : growth_row) : growth_row :=
  GrowthRow (growth_State s) (SampledUnix s) (PhysicalBytes s) (TransitionUnix s) (LastEmailKind s) (LastEmailUnix s)
    (PendingKind s) (PendingSinceUnix s) (Some after) attempt.
Definition retryDelayAfterFailure (previousAttempt : Z) : Z :=
  if previousAttempt =? 0 then 5 * minute else if previousAttempt =? 1 then 15 * minute
  else if previousAttempt =? 2 then 60 * minute else 24 * hour.

(** ** The guard *)

Record DatabaseGrowthOptions := GrowthOptions {
  opt_Path : string; opt_MaxBytes : Z; opt_WarningPercent : Z; opt_RetentionDays : Z; opt_EmailEnabled : bool; opt_Mailer : bool;
  opt_SampleInterval : Z; opt_ReminderInterval : Z }.
Record DatabaseGrowthGuard := GrowthGuard {
  guard_path : string; guard_maxBytes : Z; guard_warning : Z; guard_retentionDays : Z; guard_emailEnabled : bool;
  guard_interval : Z; guard_reminder : Z; guard_mainPageLimitBytes : Z; guard_desiredMaxPageCount : Z;
  guard_last : growth_sample; guard_loaded : growth_row; guard_sampleHealthy : bool; guard_wake : bool }.
Definition with_sample (last : growth_sample) (loaded : growth_row) (healthy : bool) (g : DatabaseGrowthGuard) : DatabaseGrowthGuard :=
  GrowthGuard (guard_path g) (guard_maxBytes g) (guard_warning g) (guard_retentionDays g) (guard_emailEnabled g)
    (guard_interval g) (guard_reminder g) (guard_mainPageLimitBytes g) (guard_desiredMaxPageCount g) last loaded healthy (guard_wake g).
Definition with_wake (wake : bool) (g : DatabaseGrowthGuard) : DatabaseGrowthGuard :=
  GrowthGuard (guard_path g) (guard_maxBytes g) (guard_warning g) (guard_retentionDays g) (guard_emailEnabled g)
    (guard_interval g) (guard_reminder g) (guard_mainPageLimitBytes g) (guard_desiredMaxPageCount g)
    (guard_last g) (guard_loaded g) (guard_sampleHealthy g) wake.
(** [signalNotification]: the channel holds one token. *)
Definition signalNotification (g : DatabaseGrowthGuard) : DatabaseGrowthGuard := with_wake true g.

(** What one sample meets: the clock, the readings, the outcome of the update. *)
Record sampling := SamplingOf { sampling_clock : Z; sampling_readings : readings; sampling_write : write_outcome }.
Definition now_of (clock : Z) : Z := unix_of clock.

Definition previous_sample (now : Z) (g : DatabaseGrowthGuard) : option growth_sample :=
  if negb (ObservedUnix (guard_last g) =? 0) then Some (guard_last g)
  else if negb (SampledUnix (guard_loaded g) =? 0) then Some (bare_sample now (PhysicalBytes (guard_loaded g)))
  else None.
Definition guard_sample (r : readings) (previous : option growth_sample) (g : DatabaseGrowthGuard) : result error growth_sample :=
  sampleDatabaseGrowth (guard_path g) (guard_maxBytes g) (guard_warning g) (guard_retentionDays g) (guard_desiredMaxPageCount g)
    (guard_mainPageLimitBytes g) r previous (growth_State (guard_loaded g)).
Definition unhealthy (g : DatabaseGrowthGuard) : DatabaseGrowthGuard := with_sample (guard_last g) (guard_loaded g) false g.

(** The alert bookkeeping of [sampleLocked]: a transition, the alert of a state that
    was never mailed, a reminder. *)
Definition note_transition (emailEnabled : bool) (state : string) (now : Z) (s : growth_row) : growth_row * bool :=
  if state ≟ growth_State s then (s, false)
  else
    let kind := alertKindForTransition (growth_State s) state in
    let s := enter_state state now s in
    (if emailEnabled then schedule_alert kind now s else clearPending s, true).
Definition note_unmailed (emailEnabled : bool) (state : string) (now : Z) (s : growth_row) : growth_row * bool :=
  if emailEnabled && negb (state ≟ DatabaseGrowthNormal) && is_null (PendingKind s) &&
     match LastEmailKind s with None => true | Some k => negb (k ≟ alertKindForState state) end
  then (schedule_alert (alertKindForState state) now s, true) else (s, false).
Definition note_reminder (emailEnabled : bool) (reminder : Z) (state : string) (now : Z) (s : growth_row) : growth_row * bool :=
  if emailEnabled && negb (state ≟ DatabaseGrowthNormal) && is_null (PendingKind s) &&
     match LastEmailUnix s with None => false | Some t => seconds_of reminder <=? int64_sub now t end
  then (schedule_alert (alertKindForState state) now s, true) else (s, false).

Definition sampleLocked (io : sampling) (persistPeriodic : bool) (g : DatabaseGrowthGuard) (row : growth_row)
    : result error (growth_sample * bool) * (DatabaseGrowthGuard * growth_row) :=
  let now := now_of (sampling_clock io) in
  if now <? 0 then (Err ErrGrowthSample, (unhealthy g, row))
  else
    match guard_sample (sampling_readings io) (previous_sample now g) g with
    | Err e => (Err e, (unhealthy g, row))
    | Ok s =>
        let s := observed_at now s in
        let '(loaded, transitioned) := note_transition (guard_emailEnabled g) (State s) now (guard_loaded g) in
        let '(loaded, unmailed) := note_unmailed (guard_emailEnabled g) (State s) now loaded in
        let '(loaded, reminded) := note_reminder (guard_emailEnabled g) (guard_reminder g) (State s) now loaded in
        let loaded := sampled now (PhysicalFamilyBytes s) loaded in
        if transitioned || persistPeriodic || (transitioned || unmailed || reminded) then
          match writeGrowthPersistentState (sampling_write io) loaded row with
          | (Some e, row) => (Err e, (with_sample s loaded false g, row))
          | (None, row) => (Ok (s, transitioned), (with_sample s loaded true g, row))
          end
        else (Ok (s, transitioned), (with_sample s loaded true g, row))
    end.

(** [NewDatabaseGrowthGuard]; the defaults of the two intervals are those of the constants. *)
Definition DatabaseGrowthSampleInterval : Z := 5 * minute.
Definition new_guard (o : DatabaseGrowthOptions) (desiredPages mainLimit interval reminder : Z) (loaded : growth_row) : DatabaseGrowthGuard :=
  GrowthGuard (opt_Path o) (opt_MaxBytes o) (opt_WarningPercent o) (opt_RetentionDays o) (opt_EmailEnabled o)
    interval reminder mainLimit desiredPages (bare_sample 0 0) loaded false false.
(** [limits] and [policy] are what the pragmas answer to its two checks. *)
Definition NewDatabaseGrowthGuard (o : DatabaseGrowthOptions) (limits policy : pragmas) (answered : bool) (io : sampling) (row : growth_row)
    : result error DatabaseGrowthGuard * growth_row :=
  if (opt_Path o ≟ "") || (opt_MaxBytes o <=? 0) || (MaximumDatabaseMaxBytes <? opt_MaxBytes o) || (opt_WarningPercent o <=? 0) ||
     (DatabaseCriticalPercent <=? opt_WarningPercent o) || (opt_RetentionDays o <? 0) then (Err ErrGrowthConfiguration, row)
  else
    let interval := if opt_SampleInterval o =? 0 then DatabaseGrowthSampleInterval else opt_SampleInterval o in
    let reminder := if opt_ReminderInterval o =? 0 then DatabaseGrowthReminderInterval else opt_ReminderInterval o in
    if (interval <=? 0) || (reminder <=? 0) || negb (Bool.eqb (opt_EmailEnabled o) (opt_Mailer o)) then (Err ErrGrowthConfiguration, row)
    else
      match databaseGrowthPageLimits limits (opt_MaxBytes o) with
      | Err e => (Err e, row)
      | Ok (desiredPages, _, mainLimit) =>
          match verifyDatabaseGrowthConnectionPolicy policy (opt_MaxBytes o) desiredPages mainLimit false with
          | Some e => (Err e, row)
          | None =>
              match readGrowthPersistentState answered row with
              | Err e => (Err e, row)
              | Ok loaded =>
                  match sampleLocked io true (new_guard o desiredPages mainLimit interval reminder loaded) row with
                  | (Err e, (_, row)) => (Err e, row)
                  | (Ok _, (g, row)) => (Ok (signalNotification g), row)
                  end
              end
          end
      end.

(** ** The alert mail *)

Definition growthMailerSubjectPrefix := "Activity-Relay-Directory storage".
Definition maximumGrowthAlertBody : Z := 16 * 1024.
Definition nl : string := String (ascii_of_N 10) EmptyString.
Definition number_line (name : string) (z : Z) : string := name +:+ ": " +:+ pretty z +:+ nl.
Definition RenderGrowthAlert (kind : string) (s : growth_sample) : string * string :=
  let body :=
    "Activity-Relay-Directory storage state: " +:+ kind +:+ nl +:+ nl +:+
    number_line "sampled_at_unix" (ObservedUnix s) +:+ number_line "pressure_percent" (PressurePercent s) +:+
    number_line "used_logical_pages" (UsedPages s) +:+ number_line "allocated_logical_pages" (PageCount s) +:+
    number_line "reusable_pages" (ReusablePages s) +:+ number_line "page_size_bytes" (PageSize s) +:+
    number_line "used_logical_bytes" (UsedLogicalBytes s) +:+ number_line "allocated_logical_bytes" (AllocatedLogicalBytes s) +:+
    number_line "main_page_limit_bytes" (MainPageLimitBytes s) +:+ number_line "physical_main_bytes" (PhysicalMainBytes s) +:+
    number_line "wal_bytes" (WALBytes s) +:+ number_line "shm_bytes" (SHMBytes s) +:+
    number_line "physical_database_family_bytes" (PhysicalFamilyBytes s) +:+
    "growth_since_previous_sample_bytes: " +:+ (if GrowthKnown s then pretty (GrowthBytes s) else "unknown") +:+ nl +:+
    number_line "configured_max_bytes" (MaxBytes s) +:+ number_line "inactive_retention_days" (RetentionDays s) +:+
    "write_admission: " +:+ (if WriteAllowed s then "allowed" else "blocked") +:+ nl +:+ nl +:+
    "Remediation checklist:" +:+ nl +:+
    "1. Check host filesystem free space and filesystem monitoring." +:+ nl +:+
    "2. Preserve a fresh verified backup before any destructive retention action." +:+ nl +:+
    "3. Review inactive-retention policy and candidate dry-run before approaching the hard limit." +:+ nl +:+
    "4. If logical pages were already freed, schedule explicit offline checkpoint/VACUUM maintenance with adequate free space." +:+ nl +:+
    "5. Increase DIRECTORY_DATABASE_MAX_BYTES only after reviewing host capacity and the reserved WAL/migration headroom." +:+ nl in
  (growthMailerSubjectPrefix +:+ " " +:+ kind, String.substring 0 (Z.to_nat maximumGrowthAlertBody) body).

Record delivery := Delivery { mail_kind_sent : string; pending_since : Z; mail_subject : string; mail_body : string }.

(** *** processPending: the mutex is given up while the mail is sent *)

(** Its first critical section: what is to be sent. *)
Definition begin_delivery (canceled : bool) (clock : Z) (g : DatabaseGrowthGuard) : option delivery :=
  if negb (guard_emailEnabled g) || canceled then None
  else
    let now := now_of clock in
    match PendingKind (guard_loaded g), RetryAfterUnix (guard_loaded g) with
    | Some kind, Some after =>
        if (now <? 0) || (now <? after) then None
        else
          let '(subject, body) := RenderGrowthAlert kind (guard_last g) in
          Some (Delivery kind (default 0 (PendingSinceUnix (guard_loaded g))) subject body)
    | _, _ => None
    end.
(** Its second critical section: what the outcome of the delivery changes, unless a
    newer notification superseded it. *)
Definition still_pending (d : delivery) (s : growth_row) : bool :=
  match PendingKind s, PendingSinceUnix s with Some k, Some since => (k ≟ mail_kind_sent d) && (since =? pending_since d) | _, _ => false end.
Definition persist_loaded (o : write_outcome) (loaded : growth_row) (g : DatabaseGrowthGuard) (row : growth_row) : DatabaseGrowthGuard * growth_row :=
  match writeGrowthPersistentState o loaded row with
  | (Some _, row) => (with_sample (guard_last g) loaded false g, row)
  | (None, row) => (with_sample (guard_last g) loaded (guard_sampleHealthy g) g, row)
  end.
Definition finish_delivery (d : delivery) (sent : bool) (clock : Z) (o : write_outcome) (g : DatabaseGrowthGuard) (row : growth_row)
    : DatabaseGrowthGuard * growth_row :=
  let s := guard_loaded g in
  if negb (still_pending d s) then (g, row)
  else
    let now := now_of clock in
    if now <? 0 then (g, row)
    else if sent then persist_loaded o (mailed (mail_kind_sent d) now s) g row
    else
      let previousAttempt := RetryAttempt s in
      let attempt := Z.min (previousAttempt + 1) 3 in
      persist_loaded o (retry_later (int64_add now (seconds_of (retryDelayAfterFailure previousAttempt))) attempt s) g row.

(** ** The calls, one critical section at a time *)

(** [AcquireWrite] once it holds the mutex; on success it keeps it. *)
Definition AcquireWrite (io : sampling) (g : DatabaseGrowthGuard) (row : growth_row) : result error unit * (DatabaseGrowthGuard * growth_row) :=
  match sampleLocked io false g row with
  | (Err e, w) => (Err e, w)
  | (Ok (s, transitioned), (g, row)) =>
      let g := if transitioned : bool then signalNotification g else g in
      (if State s ≟ DatabaseGrowthHard then Err ErrWriteAdmissionHard else Ok tt, (g, row))
  end.
Definition Ready (g : DatabaseGrowthGuard) : option error :=
  if negb (guard_sampleHealthy g) then Some ErrGrowthSample
  else if State (guard_last g) ≟ DatabaseGrowthHard then Some ErrWriteAdmissionHard else None.
Definition SampleReadOnly (r : readings) (g : DatabaseGrowthGuard) : result error growth_sample := guard_sample r (Some (guard_last g)) g.
(** [tick] up to the unlock: a canceled context or a failed sample ends it there,
    otherwise [processPending] follows. The passive checkpoint only changes what the
    sample reads. *)
Definition tick (canceled : bool) (io : sampling) (g : DatabaseGrowthGuard) (row : growth_row) : bool * (DatabaseGrowthGuard * growth_row) :=
  if canceled then (false, (g, row))
  else
    match sampleLocked io true g row with
    | (Err _, w) => (false, w)
    | (Ok (_, transitioned), (g, row)) => (true, (if transitioned : bool then signalNotification g else g, row))
    end.

Definition InspectDatabaseGrowth (limits : pragmas) (answered : bool) (path : string) (r : readings) (maxBytes warningPercent retentionDays : Z)
    (row : growth_row) : result error growth_sample :=
  match databaseGrowthPageLimits limits maxBytes with
  | Err e => Err e
  | Ok (desired, effective, mainLimit) =>
      match readGrowthPersistentState answered row with
      | Err e => Err e
      | Ok persisted =>
          let previous := if SampledUnix persisted =? 0 then None else Some (bare_sample (SampledUnix persisted) (PhysicalBytes persisted)) in
          match sampleDatabaseGrowth path maxBytes warningPercent retentionDays desired mainLimit r previous (growth_State persisted) with
          | Err e => Err e
          | Ok s =>
              Ok (GrowthSample (ObservedUnix s) (State s) (PressurePercent s) (PageSize s) (PageCount s) (UsedPages s) (ReusablePages s)
                    effective (UsedLogicalBytes s) (AllocatedLogicalBytes s) (MainPageLimitBytes s) (PhysicalMainBytes s) (WALBytes s)
                    (SHMBytes s) (PhysicalFamilyBytes s) (GrowthBytes s) (GrowthKnown s) (MaxBytes s) (WarningPercent s) (RetentionDays s) (WriteAllowed s))
          end
      end
  end.
Definition RedactedGrowthError (e : error) : string :=
  match e with
  | ErrWriteAdmissionHard => "database growth hard limit reached"
  | ErrGrowthConfiguration => "database growth configuration is invalid"
  | _ => "database growth check failed"
  end.

(** ** The guard among its callers *)

(** Where the mail goroutine of [Run] is. *)
Inductive mailer_at := Waiting | Deciding | Sending (d : delivery).
(** [leases]: the admitted writes, and whether each was released; the mutex is held
    while one was not. *)
Record growth_world := GrowthWorld { world_guard : DatabaseGrowthGuard; world_row : growth_row; leases : list bool; mailer : mailer_at }.
Definition held (w : growth_world) : bool := existsb negb (leases w).

Inductive growth_event :=
| WriteCall (io : sampling)                                    (* AcquireWrite, once the mutex is free *)
| ReleaseCall (lease : nat)                                    (* a lease is released once *)
| TickCall (canceled : bool) (io : sampling)                   (* the ticker of Run *)
| WakeCall                                                     (* the wake channel of Run *)
| BeginCall (canceled : bool) (clock : Z)                      (* processPending before the delivery *)
| FinishCall (sent : bool) (clock : Z) (o : write_outcome).    (* and after it *)
Inductive growth_answer := WriteAdmitted (lease : nat) | WriteRefused (e : error) | Mailed (d : delivery) | Silent.

(** [None]: the step cannot be taken, its thread waits for the mutex or is elsewhere. *)
Definition growth_step (w : growth_world) (ev : growth_event) : option (growth_answer * growth_world) :=
  let '(GrowthWorld g row ls at_) := w in
  match ev with
  | ReleaseCall lease =>
      match ls !! lease with
      | Some false => Some (Silent, GrowthWorld g row (<[lease := true]> ls) at_)
      | _ => Some (Silent, w)
      end
  | WakeCall =>
      match at_, guard_wake g with
      | Waiting, true => Some (Silent, GrowthWorld (with_wake false g) row ls Deciding)
      | _, _ => None
      end
  | WriteCall io =>
      if held w then None
      else
        match AcquireWrite io g row with
        | (Ok _, (g, row)) => Some (WriteAdmitted (length ls), GrowthWorld g row (ls ++ [false]) at_)
        | (Err e, (g, row)) => Some (WriteRefused e, GrowthWorld g row ls at_)
        end
  | TickCall canceled io =>
      match at_ with
      | Waiting =>
          if held w then None
          else let '(continues, (g, row)) := tick canceled io g row in
               Some (Silent, GrowthWorld g row ls (if continues : bool then Deciding else Waiting))
      | _ => None
      end
  | BeginCall canceled clock =>
      match at_ with
      | Deciding =>
          if held w && guard_emailEnabled g && negb canceled then None
          else Some (Silent, GrowthWorld g row ls (match begin_delivery canceled clock g with Some d => Sending d | None => Waiting end))
      | _ => None
      end
  | FinishCall sent clock o =>
      match at_ with
      | Sending d =>
          if held w then None
          else let '(g, row) := finish_delivery d sent clock o g row in
               Some (if sent then Mailed d else Silent, GrowthWorld g row ls Waiting)
      | _ => None
      end
  end.
(** Events in the order they happen; one that cannot happen is not in the trace. *)
Fixpoint growth_run (w : growth_world) (evs : list growth_event) : option (list growth_answer * growth_world) :=
  match evs with
  | [] => Some ([], w)
  | ev :: rest =>
      '(a, w) ← growth_step w ev;
      '(answers, w) ← growth_run w rest;
      Some (a :: answers, w)
  end.
(** [Run] first looks for a pending notification. *)
Definition growth_start (g : DatabaseGrowthGuard) (row : growth_row) : growth_world := GrowthWorld g row [] Deciding.
