(* ===== verification/GrowthFacts.v ===== *)
(** * GrowthFacts: samples, states and the singleton row

    The page limits, the exactness of the percentage tests in int64 arithmetic, the
    state of a sample as a function of exact pressure and of the previous state, and
    the validity of the persisted row. *)
From S2P Require Import Prelude GoNet Vocabulary Store Growth.
From stdpp Require Import pretty.
From Stdlib Require Import Ascii.
Local Open Scope string_scope.
Local Open Scope Z_scope.
Local Open Scope go_scope.
Local Open Scope list_scope.

Lemma database_bytes : MaximumDatabaseMaxBytes = 1099511627776.
Proof. reflexivity. Qed.
Ltac int64_lia := unfold int64_min, int64_max in *; lia.

(** ** Arithmetic *)

Lemma quot_le_iff x y n : 0 ≤ x → 0 < y → Z.quot x y ≤ n ↔ x < y * (n + 1).
Proof. intros Hx Hy. rewrite Z.quot_div_nonneg by lia. split; intros H; [pose proof (Z.mul_succ_div_gt x y Hy); nia|]. enough (x / y < n + 1) by lia. apply Z.div_lt_upper_bound; lia. Qed.
Lemma le_quot_iff x y n : 0 ≤ x → 0 < y → n ≤ Z.quot x y ↔ y * n ≤ x.
Proof. intros Hx Hy. rewrite Z.quot_div_nonneg by lia. split; intros H; [pose proof (Z.mul_div_le x y Hy); nia|apply Z.div_le_lower_bound; lia]. Qed.

Lemma checkedMultiply_exact x y z : x ≤ int64_max → checkedMultiply x y = Some z → z = x * y ∧ 0 ≤ z ≤ int64_max.
Proof.
  unfold checkedMultiply. intros Hx. destruct (Z.ltb_spec x 0), (Z.ltb_spec y 0); try done. simpl.
  destruct (Z.eqb_spec x 0) as [->|Hx0]; simpl; [intros [= <-]; vm_compute; split; [done|split; discriminate]|].
  destruct (Z.ltb_spec (Z.quot int64_max x) y) as [|Hq]; [done|]. intros [= <-].
  apply le_quot_iff in Hq; [|int64_lia|lia]. assert (0 ≤ x * y) by nia. rewrite (int64_mul_small x y) by int64_lia. lia.
Qed.
Lemma checkedAdd_exact values : ∀ total z, Forall (λ v, v ≤ int64_max) values → 0 ≤ total ≤ int64_max → checkedAdd_from total values = Some z →
  z = total + fold_right Z.add 0 values ∧ 0 ≤ z ≤ int64_max.
Proof.
  induction values as [|v values IH]; intros total z Hm Ht; simpl; [intros [= <-]; lia|]. apply Forall_cons_1 in Hm as [Hv' Hm].
  destruct (Z.ltb_spec v 0) as [|Hv]; [done|]. simpl. destruct (Z.ltb_spec (int64_sub int64_max v) total) as [|Hs]; [done|].
  rewrite int64_sub_small in Hs by int64_lia. rewrite int64_add_small by int64_lia. intros (->&Hz)%IH; [lia|done|lia].
Qed.

Lemma roundUp_spec value unit : 0 < value ≤ int64_max → 0 < unit ≤ int64_max → roundUp value unit = 0 ∨ ∃ k, roundUp value unit = k * unit ∧ value ≤ k * unit < value + unit.
Proof.
  intros Hv Hu. unfold roundUp. destruct (Z.leb_spec value 0); [lia|]. destruct (Z.leb_spec unit 0); [lia|]. simpl.
  rewrite Z.rem_mod_nonneg by lia. pose proof (Z.div_mod value unit ltac:(lia)) as Hd. pose proof (Z.mod_pos_bound value unit ltac:(lia)) as Hr.
  destruct (Z.eqb_spec (value mod unit) 0) as [Hz|Hz]; [right; exists (value / unit); lia|].
  destruct (Z.ltb_spec (int64_sub int64_max (unit - value mod unit)) value) as [|Hs]; [by left|right]. exists (value / unit + 1).
  rewrite int64_sub_small in Hs by int64_lia. rewrite int64_add_small by int64_lia. lia.
Qed.

(** [100 * value >= percent * maximum] *)
Definition over (value maximum percent : Z) : bool := (percent <=? 0) || (maximum * percent <=? value * 100).
Lemma atLeastPercent_exact value maximum percent : 0 ≤ value → 0 < maximum ≤ MaximumDatabaseMaxBytes → 0 < percent ≤ 100 →
  atLeastPercent value maximum percent = over value maximum percent.
Proof.
  intros Hv Hm Hp. unfold atLeastPercent, over. destruct (Z.leb_spec maximum 0), (Z.ltb_spec value 0), (Z.leb_spec percent 0); try lia. simpl.
  assert (0 ≤ maximum * percent ≤ 109951162777600) as Hmp by (rewrite database_bytes in Hm; nia).
  destruct (Z.leb_spec maximum value) as [Hge|Hlt]; [symmetry; apply Z.leb_le; nia|].
  rewrite (int64_mul_small maximum percent) by int64_lia. rewrite (int64_add_small _ 99) by int64_lia. apply Bool.eq_iff_eq_true. rewrite !Z.leb_le, quot_le_iff by lia. lia.
Qed.
Lemma boundedPercent_exact value maximum percent : 0 ≤ value → 0 < maximum ≤ MaximumDatabaseMaxBytes → percent ≤ 100 →
  (percent <=? boundedPercent value maximum) = over value maximum percent.
Proof.
  intros Hv Hm Hp. unfold boundedPercent, over, maximumGrowthPercentReport. destruct (Z.leb_spec maximum 0); [lia|].
  assert (0 ≤ maximum * 999 ≤ 1098412116148224) as Hmp by (rewrite database_bytes in Hm; nia). simpl.
  destruct (Z.leb_spec value 0) as [|Hpos].
  { assert (value = 0) as -> by lia. destruct (Z.leb_spec percent 0); simpl; [done|]. symmetry. apply Z.leb_gt. nia. }
  rewrite (int64_mul_small maximum 999) by int64_lia. destruct (Z.leb_spec (Z.quot (maximum * 999) 100) value) as [Hbig|Hsmall].
  { apply quot_le_iff in Hbig; [|lia..]. destruct (Z.leb_spec percent 999); [|lia]. destruct (Z.leb_spec percent 0); simpl; [done|].
    symmetry. apply Z.leb_le. nia. }
  assert (Hvm : value * 100 < maximum * 999) by (pose proof (le_quot_iff (maximum * 999) 100 (value + 1) ltac:(lia) ltac:(lia)); lia).
  rewrite (int64_mul_small value 100) by int64_lia. apply Bool.eq_iff_eq_true. rewrite orb_true_iff, !Z.leb_le, le_quot_iff by lia.
  split; [by right|]. intros [Hn|Hn]; [nia|done].
Qed.

(** ** Page limits *)

(** What the driver can scan into an int64. *)
Definition scanned (v : option Z) : Prop := ∀ z, v = Some z → int64_min ≤ z ≤ int64_max.
Definition pragmas_int64 (p : pragmas) : Prop := scanned (page_size p) ∧ scanned (page_count p) ∧ scanned (freelist_count p) ∧ scanned (max_page_count p).
Definition file_int64 (i : file_info) : Prop := match i with RegularFile n => n ≤ int64_max | _ => True end.
Definition readings_int64 (r : readings) : Prop :=
  pragmas_int64 (connection r) ∧ file_int64 (main_file r) ∧ file_int64 (wal_file r) ∧ file_int64 (shm_file r).

Lemma databaseGrowthPageLimits_spec p maxBytes desired effective mainLimit : pragmas_int64 p →
  databaseGrowthPageLimits p maxBytes = Ok (desired, effective, mainLimit) →
  ∃ pageSize pageCount, page_size p = Some pageSize ∧ page_count p = Some pageCount ∧ 0 < pageSize ∧ 0 ≤ pageCount ∧
    0 < desired ∧ effective = Z.max desired pageCount ∧ mainLimit = desired * pageSize ∧
    maxBytes ≤ 1099511627776 ∧ mainLimit ≤ maxBytes - Z.max (4 * pageSize) (Z.min (maxBytes / 8) MaximumDatabaseGrowthHeadroomBytes) ∧
    maxBytes - mainLimit < Z.max (4 * pageSize) (Z.min (maxBytes / 8) MaximumDatabaseGrowthHeadroomBytes) + 2 * pageSize.
Proof.
  intros (Hps&Hpc&_). unfold databaseGrowthPageLimits. destruct (Z.leb_spec maxBytes 0) as [|Hpos]; [done|].
  destruct (Z.ltb_spec MaximumDatabaseMaxBytes maxBytes) as [|Hmax]; [done|]. change MaximumDatabaseMaxBytes with 1099511627776 in *. simpl.
  destruct (page_size p) as [pageSize|]; [|done]. destruct (page_count p) as [pageCount|]; [|by (simpl; destruct (0 <? pageSize))].
  specialize (Hps _ eq_refl). specialize (Hpc _ eq_refl). simpl. destruct (Z.ltb_spec 0 pageSize) as [Hs|]; [|done]. destruct (Z.leb_spec 0 pageCount) as [Hn|]; [|done].
  change MaximumDatabaseGrowthHeadroomBytes with 134217728. rewrite (Z.quot_div_nonneg maxBytes 8) by lia.
  set (h := Z.min (maxBytes / 8) 134217728). assert (Hh : 0 ≤ h ≤ 134217728) by (subst h; pose proof (Z.div_pos maxBytes 8); lia).
  set (h' := Z.max h (int64_mul pageSize 4)). pose proof (int64_wrap_range (pageSize * 4)) as Hw. fold (int64_mul pageSize 4) in Hw.
  assert (Hh' : h' ≤ int64_max) by (unfold h', int64_max in *; lia).
  destruct (Z.le_gt_cases h' 0) as [Hh0|Hh0].
  { assert (Hz : roundUp h' pageSize = 0) by (unfold roundUp; destruct (Z.leb_spec h' 0); [done|lia]). rewrite Hz. done. }
  destruct (roundUp_spec h' pageSize (conj Hh0 Hh') (conj Hs (proj2 Hps))) as [->|(k&Hk&Hr)]; [done|]. rewrite Hk.
  destruct (Z.leb_spec (k * pageSize) 0) as [|_]; [done|]. destruct (Z.leb_spec maxBytes (k * pageSize)) as [|Hlt]; [done|]. simpl.
  assert (Hdef : h' = Z.max h (int64_mul pageSize 4)) by reflexivity. clearbody h'. assert (1 ≤ k) by (clear -Hr Hh0 Hs; nia). assert (Hsmall : pageSize < 1099511627776) by (clear -Hlt Hmax Hs H; nia). assert (Hmul : int64_mul pageSize 4 = 4 * pageSize) by (unfold int64_mul; rewrite int64_wrap_id by int64_lia; lia).
  rewrite Z.quot_div_nonneg by lia. pose proof (Z.mul_div_le (maxBytes - k * pageSize) pageSize ltac:(lia)) as Hd1.
  pose proof (Z.mul_succ_div_gt (maxBytes - k * pageSize) pageSize ltac:(lia)) as Hd2.
  set (d := (maxBytes - k * pageSize) / pageSize) in *. destruct (Z.leb_spec d 0) as [|Hd]; [done|]. intros [= <- <- <-].
  exists pageSize, pageCount. rewrite (int64_mul_small d pageSize) by int64_lia. rewrite Hmul in Hdef. clear Hw Hmul. clearbody d. unfold h in *.
  split_and!; try done; nia.
Qed.

(** ** The state of a sample *)

(** The level at which a state is entered, and at which it is left again. *)
Definition entered (warning : Z) (state : string) : Z :=
  if state ≟ DatabaseGrowthHard then 100 else if state ≟ DatabaseGrowthCritical then 90 else warning.
Definition holds (warning : Z) (previous state : string) (at_least : Z → bool) : bool :=
  at_least (entered warning state) || (previous ≟ state) && at_least (entered warning state - 5).
(** The most severe state whose level is reached, or which is not left yet. *)
Definition promised_state (warning : Z) (previous : string) (at_least : Z → bool) : string :=
  if holds warning previous DatabaseGrowthHard at_least then DatabaseGrowthHard
  else if holds warning previous DatabaseGrowthCritical at_least then DatabaseGrowthCritical
  else if holds warning previous DatabaseGrowthWarning at_least then DatabaseGrowthWarning else DatabaseGrowthNormal.
Definition sample_over (s : growth_sample) (percent : Z) : bool :=
  over (UsedLogicalBytes s) (MainPageLimitBytes s) percent || over (PhysicalFamilyBytes s) (MaxBytes s) percent.

Lemma over_mono v m p q : 0 < m → p ≤ q → over v m q = true → over v m p = true.
Proof. unfold over. intros Hm Hpq [Hq|Hq]%orb_true_iff; apply orb_true_iff; [left; lia|right; nia]. Qed.
Lemma GrowthState_Valid_cases s : GrowthState_Valid s = true →
  s = DatabaseGrowthNormal ∨ s = DatabaseGrowthWarning ∨ s = DatabaseGrowthCritical ∨ s = DatabaseGrowthHard.
Proof. unfold GrowthState_Valid. intros [[[H|H]%orb_true_iff|H]%orb_true_iff|H]%orb_true_iff; apply String.eqb_eq in H; auto. Qed.

(** The classification with hysteresis is the promised state, for any pressure test
    that is monotone and agrees with the reported pressure. *)
Lemma hysteresis_promised (at_least : Z → bool) pressure warning previous base : 0 < warning < 90 → GrowthState_Valid previous = true →
  (∀ p q, p ≤ q → at_least q = true → at_least p = true) → (∀ p, p ≤ 100 → (p <=? pressure) = at_least p) →
  base = (if at_least 100 then DatabaseGrowthHard else if at_least 90 then DatabaseGrowthCritical
          else if at_least warning then DatabaseGrowthWarning else DatabaseGrowthNormal) →
  applyGrowthHysteresis base pressure previous warning = promised_state warning previous at_least.
Proof.
  intros Hw Hv Hmono Hp ->. pose proof (Hmono 95 100 ltac:(lia)). pose proof (Hmono 90 95 ltac:(lia)). pose proof (Hmono 85 90 ltac:(lia)).
  pose proof (Hmono warning 90 ltac:(lia)). pose proof (Hmono (warning - 5) warning ltac:(lia)).
  unfold applyGrowthHysteresis, promised_state, holds. rewrite Hv. unfold DatabaseHardPercent, DatabaseCriticalPercent, DatabaseGrowthRecoveryHysteresisPercent.
  rewrite !Hp by lia. cbn [negb].
  apply GrowthState_Valid_cases in Hv as [->|[->|[->| ->]]];
    destruct (at_least 100) eqn:E1, (at_least 95) eqn:E2, (at_least 90) eqn:E3, (at_least 85) eqn:E4, (at_least warning) eqn:E5, (at_least (warning - 5)) eqn:E6;
    try (exfalso; intuition congruence); unfold entered; cbn; rewrite ?E1, ?E2, ?E3, ?E4, ?E5, ?E6; reflexivity.
Qed.

Lemma read_sizes_int64 r pageSize pageCount freelist maxPages main wal shm : readings_int64 r →
  read_sizes r = Some (pageSize, pageCount, freelist, maxPages, (main, wal, shm)) →
  0 < pageSize ≤ int64_max ∧ 0 ≤ freelist ≤ pageCount ∧ pageCount ≤ int64_max ∧
  0 ≤ main ≤ int64_max ∧ 0 ≤ wal ≤ int64_max ∧ 0 ≤ shm ≤ int64_max.
Proof.
  intros ((Hps&Hpc&Hfl&Hmp)&Hm&Hw&Hsh). unfold read_sizes.
  assert (Hfile : ∀ i req n, file_int64 i → secureSidecarSize i req = Some n → 0 ≤ n ≤ int64_max).
  { intros i req n Hi. destruct i as [| | |size]; simpl in *; [destruct req; [done|]; intros [= <-]; int64_lia|done|done|].
    destruct (Z.ltb_spec size 0); [done|]. intros [= <-]. lia. }
  destruct (page_size _) as [ps|]; [|done]. destruct (page_count _) as [pc|]; [|done]. destruct (freelist_count _) as [fl|]; [|done].
  destruct (max_page_count _) as [mp|]; [|done]. specialize (Hps _ eq_refl). specialize (Hpc _ eq_refl).
  destruct (_ || _) eqn:Hb; [done|]. bool_facts.
  destruct (secureSidecarSize (main_file r) true) as [ms|] eqn:E1; [|done]. destruct (secureSidecarSize (wal_file r) false) as [ws|] eqn:E2; [|done].
  destruct (secureSidecarSize (shm_file r) false) as [ss|] eqn:E3; [|done]. intros [= <- <- <- <- <- <- <-].
  apply Hfile in E1, E2, E3; try done. lia.
Qed.

(** A successful sample. *)
Record sample_facts (maxBytes warning mainLimit : Z) (previousState : string) (s : growth_sample) : Prop := {
  sample_used : 0 ≤ UsedLogicalBytes s;
  sample_family : 0 ≤ PhysicalFamilyBytes s;
  sample_limits : MainPageLimitBytes s = mainLimit ∧ MaxBytes s = maxBytes;
  sample_state : State s = promised_state warning previousState (sample_over s) }.

Lemma sampleDatabaseGrowth_exact path maxBytes warning retentionDays desired mainLimit r previous previousState s :
  0 < maxBytes ≤ MaximumDatabaseMaxBytes → 0 < mainLimit ≤ MaximumDatabaseMaxBytes → GrowthState_Valid previousState = true → readings_int64 r →
  sampleDatabaseGrowth path maxBytes warning retentionDays desired mainLimit r previous previousState = Ok s →
  UsedLogicalBytes s = (PageCount s - ReusablePages s) * PageSize s ∧ PhysicalFamilyBytes s = PhysicalMainBytes s + WALBytes s + SHMBytes s ∧
  Some (PageSize s) = page_size (connection r) ∧ Some (PageCount s) = page_count (connection r) ∧
  Some (ReusablePages s) = freelist_count (connection r) ∧
  WriteAllowed s = negb (State s ≟ DatabaseGrowthHard) ∧ sample_facts maxBytes warning mainLimit previousState s.
Proof.
  intros Hmax Hlimit Hprev Hr. unfold sampleDatabaseGrowth. destruct (sample_input_ok _ _ _ _ _) eqn:Hin; [|done]. cbn [negb].
  assert (Hw : 0 < warning < 90) by (unfold sample_input_ok, DatabaseCriticalPercent in Hin; bool_facts; lia). clear Hin.
  destruct (read_sizes r) as [[[[[pageSize pageCount] freelist] maxPages] [[main wal] shm]]|] eqn:Hread; [|done].
  assert (Hreported : Some pageSize = page_size (connection r) ∧ Some pageCount = page_count (connection r) ∧ Some freelist = freelist_count (connection r)).
  { unfold read_sizes in Hread. repeat case_match; simplify_eq; done. }
  destruct (read_sizes_int64 _ _ _ _ _ _ _ _ Hr Hread) as (Hps&Hfl&Hpc&Hmain&Hwal&Hshm).
  destruct (checkedMultiply (pageCount - freelist) pageSize) as [used|] eqn:Hu; [|done].
  destruct (checkedMultiply pageCount pageSize) as [allocated|]; [|done].
  destruct (checkedAdd [main; wal; shm]) as [family|] eqn:Hf; [|done].
  apply checkedMultiply_exact in Hu as [Hu Hu']; [|lia].
  apply checkedAdd_exact in Hf as [Hf Hf']; [|repeat constructor; lia|int64_lia]. simpl in Hf.
  set (at_least p := over used mainLimit p || over family maxBytes p).
  assert (Hstate : applyGrowthHysteresis (classifyGrowthState used mainLimit family maxBytes warning)
      (Z.max (boundedPercent used mainLimit) (boundedPercent family maxBytes)) previousState warning = promised_state warning previousState at_least).
  { apply hysteresis_promised; [done|done| | |].
    - unfold at_least. intros p q Hpq [Hq|Hq]%orb_true_iff; apply orb_true_iff; [left|right]; eapply over_mono; try done; lia.
    - intros p Hp. unfold at_least. rewrite <- !boundedPercent_exact by lia. apply Bool.eq_iff_eq_true. rewrite orb_true_iff, !Z.leb_le. lia.
    - unfold classifyGrowthState, DatabaseHardPercent, DatabaseCriticalPercent, at_least. rewrite !atLeastPercent_exact by lia. done. }
  destruct previous as [p|]; intros [= <-]; cbn [UsedLogicalBytes PageCount ReusablePages PageSize PhysicalFamilyBytes PhysicalMainBytes WALBytes SHMBytes WriteAllowed State];
    (split_and!; [lia|lia|by destruct Hreported as (?&?&?)..|done|]); split; cbn; try done; lia.
Qed.
(** The state of a sample is exact: no rounding of percentages, no overflow and no
    wrap of an int64 changes it. The sample's used and family bytes are the true
    products and sums of what SQLite and the file system report, and its state is the
    most severe one whose level, 100, 90 or the warning percentage of either budget, is
    reached, or which was the state before and is at most five points below its level. *)
Theorem growth_state_exact path maxBytes warning retentionDays desired mainLimit r previous previousState s :
  0 < maxBytes ≤ MaximumDatabaseMaxBytes → 0 < mainLimit ≤ MaximumDatabaseMaxBytes → GrowthState_Valid previousState = true → readings_int64 r →
  sampleDatabaseGrowth path maxBytes warning retentionDays desired mainLimit r previous previousState = Ok s →
  UsedLogicalBytes s = (PageCount s - ReusablePages s) * PageSize s ∧ PhysicalFamilyBytes s = PhysicalMainBytes s + WALBytes s + SHMBytes s ∧
  Some (PageSize s) = page_size (connection r) ∧ Some (PageCount s) = page_count (connection r) ∧
  Some (ReusablePages s) = freelist_count (connection r) ∧
  WriteAllowed s = negb (State s ≟ DatabaseGrowthHard) ∧ sample_facts maxBytes warning mainLimit previousState s.
Proof. apply sampleDatabaseGrowth_exact. Qed.

(** A sample that is not hard leaves room below both budgets, five points of it
    when the state was hard. *)
Lemma writable_room maxBytes warning mainLimit previousState s : 0 < maxBytes → 0 < mainLimit → sample_facts maxBytes warning mainLimit previousState s →
  State s ≠ DatabaseGrowthHard →
  UsedLogicalBytes s < mainLimit ∧ PhysicalFamilyBytes s < maxBytes ∧
  (previousState = DatabaseGrowthHard → UsedLogicalBytes s * 100 < mainLimit * 95 ∧ PhysicalFamilyBytes s * 100 < maxBytes * 95).
Proof.
  intros Hmax Hlim [Hu Hf [Hl Hm] Hs] Hne.
  assert (Hh : holds warning previousState DatabaseGrowthHard (sample_over s) = false).
  { destruct (holds _ _ DatabaseGrowthHard _) eqn:Hh; [|done]. destruct Hne. rewrite Hs. unfold promised_state. by rewrite Hh. }
  unfold holds in Hh. apply orb_false_iff in Hh as [H100 H95]. change (entered warning DatabaseGrowthHard) with 100 in *.
  unfold sample_over, over in *. rewrite Hl, Hm in *. simpl in *. apply orb_false_iff in H100 as [?%Z.leb_gt ?%Z.leb_gt].
  split_and!; [lia|lia|]. intros ->. change (DatabaseGrowthHard ≟ DatabaseGrowthHard) with true in H95. simpl in H95.
  apply orb_false_iff in H95 as [?%Z.leb_gt ?%Z.leb_gt]. lia.
Qed.
Lemma hard_reason maxBytes warning mainLimit previousState s : sample_facts maxBytes warning mainLimit previousState s → State s = DatabaseGrowthHard →
  mainLimit ≤ UsedLogicalBytes s ∨ maxBytes ≤ PhysicalFamilyBytes s ∨
  previousState = DatabaseGrowthHard ∧ (mainLimit * 95 ≤ UsedLogicalBytes s * 100 ∨ maxBytes * 95 ≤ PhysicalFamilyBytes s * 100).
Proof.
  intros [Hu Hf [Hl Hm] Hs]. rewrite Hs. unfold promised_state. destruct (holds warning previousState DatabaseGrowthHard _) eqn:Hh.
  - intros _. unfold holds in Hh. change (entered warning DatabaseGrowthHard) with 100 in Hh. unfold sample_over, over in Hh. rewrite Hl, Hm in Hh. simpl in Hh.
    apply orb_true_iff in Hh as [[H%Z.leb_le|H%Z.leb_le]%orb_true_iff|[Hp%String.eqb_eq [H%Z.leb_le|H%Z.leb_le]%orb_true_iff]%andb_true_iff]; [left; lia|right; left; lia|..];
      right; right; (split; [done|lia]).
  - intros Hhard. repeat (destruct (holds _ _ _ _); [done|]). done.
Qed.

(** A warning level of five points or less is never left: the finding below. *)
Lemma low_warning_is_permanent maxBytes warning mainLimit s : warning ≤ 5 → sample_facts maxBytes warning mainLimit DatabaseGrowthWarning s →
  State s ≠ DatabaseGrowthNormal.
Proof.
  intros Hw [Hu Hf [Hl Hm] Hs]. rewrite Hs. unfold promised_state.
  assert (Hh : holds warning DatabaseGrowthWarning DatabaseGrowthWarning (sample_over s) = true).
  { unfold holds. change (DatabaseGrowthWarning ≟ DatabaseGrowthWarning) with true. change (entered warning DatabaseGrowthWarning) with warning.
    apply orb_true_iff. right. unfold sample_over, over. destruct (Z.leb_spec (warning - 5) 0); [done|lia]. }
  rewrite Hh. destruct (holds _ _ DatabaseGrowthHard (sample_over s)); [discriminate|].
  destruct (holds _ _ DatabaseGrowthCritical (sample_over s)); discriminate.
Qed.
