(* ===== verification/GrowthGuard.v ===== *)
(** * GrowthGuard: what the growth guard guarantees

    The invariant of the guard and of its singleton row over every interleaving of
    admitted writes, samples and deliveries; the writes it admits; the spacing of the
    alerts it mails. *)
From S2P Require Import Prelude GoNet Vocabulary Store Growth GrowthFacts.
From Stdlib Require Import Ascii.
Local Open Scope string_scope.
Local Open Scope Z_scope.
Local Open Scope go_scope.
Local Open Scope list_scope.

(** ** Valid rows *)

(** A row the table accepts, whose pending alert is that of its state. *)
Record row_ok (s : growth_row) : Prop := {
  row_check : growth_check s = true;
  row_kind : ∀ k, PendingKind s = Some k → k = alertKindForState (growth_State s) }.

Ltac row_fields :=
  unfold mailed, growth_check, schedule_alert, clearPending, enter_state, sampled, retry_later in *;
  cbn [growth_State SampledUnix PhysicalBytes TransitionUnix LastEmailKind LastEmailUnix PendingKind PendingSinceUnix RetryAfterUnix RetryAttempt
       null_or is_null Bool.eqb andb orb negb] in *.

Ltac row_close := repeat (apply andb_true_iff; split); first [done|assumption|lia].

Lemma initial_row_ok : row_ok initial_growth_row.
Proof. split; [reflexivity|discriminate]. Qed.
Lemma row_bounds s : row_ok s → GrowthState_Valid (growth_State s) = true ∧ 0 ≤ SampledUnix s ∧ 0 ≤ PhysicalBytes s ∧ 0 ≤ TransitionUnix s ∧ 0 ≤ RetryAttempt s ≤ 3.
Proof. intros [Hc _]. unfold growth_check in Hc. bool_facts. split_and!; try done; lia. Qed.
Lemma row_readable s : row_ok s → readGrowthPersistentState true s = Ok s.
Proof.
  intros (Hv&?&?&?&?)%row_bounds. unfold readGrowthPersistentState. rewrite Hv. cbn.
  destruct (Z.ltb_spec (SampledUnix s) 0), (Z.ltb_spec (PhysicalBytes s) 0), (Z.ltb_spec (TransitionUnix s) 0), (Z.ltb_spec (RetryAttempt s) 0), (Z.ltb_spec 3 (RetryAttempt s)); try lia. done.
Qed.
(** A valid row is written whenever the statement is executed. *)
Lemma write_row_ok o state row : row_ok state →
  writeGrowthPersistentState o state row =
    if executes o then (if counts o then None else Some ErrGrowthSample, state) else (Some ErrGrowthSample, row).
Proof.
  intros Hok. pose proof (row_readable state Hok) as Hr. unfold readGrowthPersistentState in Hr. unfold writeGrowthPersistentState. cbn [negb] in Hr.
  destruct (_ || _); [done|]. rewrite (row_check _ Hok), orb_false_r. by destruct (executes o).
Qed.

Lemma mail_kind_of_state st : mail_kind (alertKindForState st) = true.
Proof. unfold alertKindForState. repeat (case_match; [done|]). done. Qed.
Lemma transition_kind old new : alertKindForTransition old new = alertKindForState new.
Proof. unfold alertKindForTransition. destruct (String.eqb_spec new DatabaseGrowthNormal) as [->|]; [|done]. by destruct (_ ≟ _). Qed.

Lemma clearPending_ok s : row_ok s → row_ok (clearPending s).
Proof. intros [Hc _]. split; [|done]. row_fields. bool_facts. row_close. Qed.
Lemma schedule_ok now s : row_ok s → 0 ≤ now → row_ok (schedule_alert (alertKindForState (growth_State s)) now s).
Proof.
  intros [Hc _] Hn. split; [|by intros k [= <-]]. pose proof (mail_kind_of_state (growth_State s)) as Hm. row_fields. bool_facts.
  row_close.
Qed.
Lemma enter_clear_ok state now s : row_ok s → GrowthState_Valid state = true → 0 ≤ now → row_ok (clearPending (enter_state state now s)).
Proof. intros [Hc _] Hv Hn. split; [|done]. row_fields. bool_facts. row_close. Qed.
Lemma enter_schedule_ok state now s : row_ok s → GrowthState_Valid state = true → 0 ≤ now →
  row_ok (schedule_alert (alertKindForState state) now (enter_state state now s)).
Proof.
  intros Hok Hv Hn. pose proof (schedule_ok now _ (enter_clear_ok state now s Hok Hv Hn) Hn) as H. exact H.
Qed.
Lemma sampled_ok now family s : row_ok s → 0 ≤ now → 0 ≤ family → row_ok (sampled now family s).
Proof.
  intros [Hc Hk] Hn Hf. split; [|exact Hk]. row_fields. bool_facts. row_close.
Qed.
Lemma mailed_ok now s : row_ok s → 0 ≤ now → row_ok (mailed (alertKindForState (growth_State s)) now s).
Proof.
  intros [Hc _] Hn. split; [|done]. pose proof (mail_kind_of_state (growth_State s)) as Hm. row_fields. bool_facts.
  row_close.
Qed.
Lemma retry_ok after attempt s : row_ok s → PendingKind s ≠ None → 0 ≤ after → 0 ≤ attempt ≤ 3 → row_ok (retry_later after attempt s).
Proof.
  intros [Hc Hk] Hp Ha Hat. split; [|exact Hk]. destruct (PendingKind s) eqn:Hpk; [|done]. row_fields. rewrite Hpk in *. cbn in *.
  destruct (PendingSinceUnix s); cbn in *; bool_facts; [|discriminate || (rewrite ?andb_false_r in *; discriminate)].
  row_close.
Qed.
Lemma pending_complete s k : row_ok s → PendingKind s = Some k → ∃ since after, PendingSinceUnix s = Some since ∧ RetryAfterUnix s = Some after.
Proof.
  intros [Hc _] Hk. unfold growth_check in Hc. rewrite Hk in Hc. cbn [is_null negb andb orb] in Hc. apply andb_true_iff in Hc as [_ Hc].
  destruct (PendingSinceUnix s), (RetryAfterUnix s); cbn in Hc; try discriminate. eauto.
Qed.

(** ** The guard's invariant *)

Record guard_ok (g : DatabaseGrowthGuard) : Prop := {
  guard_max : 0 < guard_maxBytes g ≤ MaximumDatabaseMaxBytes;
  guard_limit : 0 < guard_mainPageLimitBytes g < guard_maxBytes g;
  guard_row : row_ok (guard_loaded g);
  guard_current : guard_sampleHealthy g = true → State (guard_last g) = growth_State (guard_loaded g) }.

Lemma promised_state_valid w p at_least : GrowthState_Valid (promised_state w p at_least) = true.
Proof. unfold promised_state. repeat (destruct (holds _ _ _ _); [done|]). done. Qed.

Lemma note_transition_ok e state now s : row_ok s → GrowthState_Valid state = true → 0 ≤ now →
  row_ok (note_transition e state now s).1 ∧ growth_State (note_transition e state now s).1 = state.
Proof.
  intros Hok Hv Hn. unfold note_transition. destruct (String.eqb_spec state (growth_State s)) as [->|]; [done|]. rewrite transition_kind.
  destruct e; (split; [|done]); [by apply enter_schedule_ok|by apply enter_clear_ok].
Qed.
Lemma note_unmailed_ok e state now s : row_ok s → growth_State s = state → 0 ≤ now →
  row_ok (note_unmailed e state now s).1 ∧ growth_State (note_unmailed e state now s).1 = state.
Proof. intros Hok <- Hn. unfold note_unmailed. destruct (_ && _); (split; [|done]); [by apply schedule_ok|done]. Qed.
Lemma note_reminder_ok e reminder state now s : row_ok s → growth_State s = state → 0 ≤ now →
  row_ok (note_reminder e reminder state now s).1 ∧ growth_State (note_reminder e reminder state now s).1 = state.
Proof. intros Hok <- Hn. unfold note_reminder. destruct (_ && _); (split; [|done]); [by apply schedule_ok|done]. Qed.

(** The loaded row after a successful sample. *)
Definition noted (g : DatabaseGrowthGuard) (state : string) (now : Z) : growth_row :=
  let s := (note_transition (guard_emailEnabled g) state now (guard_loaded g)).1 in
  let s := (note_unmailed (guard_emailEnabled g) state now s).1 in
  (note_reminder (guard_emailEnabled g) (guard_reminder g) state now s).1.
Lemma noted_ok g state now : row_ok (guard_loaded g) → GrowthState_Valid state = true → 0 ≤ now → row_ok (noted g state now) ∧ growth_State (noted g state now) = state.
Proof.
  intros Hok Hv Hn. unfold noted.
  destruct (note_transition_ok (guard_emailEnabled g) state now _ Hok Hv Hn) as [H1 E1].
  destruct (note_unmailed_ok (guard_emailEnabled g) state now _ H1 E1 Hn) as [H2 E2].
  exact (note_reminder_ok (guard_emailEnabled g) (guard_reminder g) state now _ H2 E2 Hn).
Qed.

(** What a sample under the mutex leaves. *)
Definition sampled_guard (io : sampling) (s : growth_sample) (healthy : bool) (g : DatabaseGrowthGuard) : DatabaseGrowthGuard :=
  let now := now_of (sampling_clock io) in
  with_sample s (sampled now (PhysicalFamilyBytes s) (noted g (State s) now)) healthy g.
Inductive sample_outcome (io : sampling) (g : DatabaseGrowthGuard) (row : growth_row) :
    result error (growth_sample * bool) → DatabaseGrowthGuard → growth_row → Prop :=
| SampleFailed e : e ≠ ErrWriteAdmissionHard → sample_outcome io g row (Err e) (unhealthy g) row
| SampleTaken s (healthy : bool) out row' : 0 ≤ now_of (sampling_clock io) →
    sample_facts (guard_maxBytes g) (guard_warning g) (guard_mainPageLimitBytes g) (growth_State (guard_loaded g)) s →
    out = (if healthy then Ok (s, negb (State s ≟ growth_State (guard_loaded g))) else Err ErrGrowthSample) →
    row' = row ∨ row' = guard_loaded (sampled_guard io s healthy g) →
    sample_outcome io g row out (sampled_guard io s healthy g) row'.

Lemma sampleLocked_outcome io periodic g row : guard_ok g → readings_int64 (sampling_readings io) →
  let '(out, (g', row')) := sampleLocked io periodic g row in sample_outcome io g row out g' row'.
Proof.
  intros [Hmax Hlim Hrow _] Hr. unfold sampleLocked. set (now := now_of (sampling_clock io)).
  destruct (Z.ltb_spec now 0) as [|Hn]; [by constructor|]. destruct (guard_sample _ _ g) as [s0|e] eqn:Hs.
  2:{ constructor. intros ->. unfold guard_sample, sampleDatabaseGrowth in Hs. repeat case_match; discriminate. }
  pose proof (row_bounds _ Hrow) as [Hv _].
  assert (Hlim' : 0 < guard_mainPageLimitBytes g ≤ MaximumDatabaseMaxBytes) by lia.
  destruct (sampleDatabaseGrowth_exact _ _ _ _ _ _ _ _ _ _ Hmax Hlim' Hv Hr Hs) as (_&_&_&_&_&_&Hf0).
  assert (Hf : sample_facts (guard_maxBytes g) (guard_warning g) (guard_mainPageLimitBytes g) (growth_State (guard_loaded g)) (observed_at now s0))
    by (destruct Hf0; split; done). set (s := observed_at now s0) in *.
  assert (Hstate : GrowthState_Valid (State s) = true) by (rewrite (sample_state _ _ _ _ _ Hf); apply promised_state_valid).
  destruct (noted_ok g (State s) now Hrow Hstate Hn) as [Hnoted _].
  pose proof (sampled_ok now (PhysicalFamilyBytes s) _ Hnoted Hn (sample_family _ _ _ _ _ Hf)) as Hloaded. unfold noted in Hloaded.
  assert (Htr : (note_transition (guard_emailEnabled g) (State s) now (guard_loaded g)).2 = negb (State s ≟ growth_State (guard_loaded g)))
    by (unfold note_transition; by destruct (_ ≟ _)).
  pose proof (SampleTaken io g row s) as Htaken. unfold sampled_guard, noted in Htaken. fold now in Htaken.
  destruct (note_transition _ _ _ _) as [l1 tr]. simpl in Htr, Hloaded, Htaken. rewrite Htr in *.
  destruct (note_unmailed _ _ _ _) as [l2 un]. simpl in Hloaded, Htaken. destruct (note_reminder _ _ _ _ _) as [l3 re]. simpl in Hloaded, Htaken.
  destruct (_ || _); [|apply (Htaken true); try done; by left].
  rewrite write_row_ok by done. destruct (executes _); [|apply (Htaken false); try done; by left].
  destruct (counts _); [apply (Htaken true)|apply (Htaken false)]; try done; by right.
Qed.

Lemma sampled_guard_ok io s healthy g : guard_ok g → 0 ≤ now_of (sampling_clock io) →
  sample_facts (guard_maxBytes g) (guard_warning g) (guard_mainPageLimitBytes g) (growth_State (guard_loaded g)) s →
  guard_ok (sampled_guard io s healthy g) ∧ growth_State (guard_loaded (sampled_guard io s healthy g)) = State s.
Proof.
  intros [Hmax Hlim Hrow _] Hn Hf.
  assert (Hstate : GrowthState_Valid (State s) = true) by (rewrite (sample_state _ _ _ _ _ Hf); apply promised_state_valid).
  destruct (noted_ok g (State s) (now_of (sampling_clock io)) Hrow Hstate Hn) as [Hnoted Hns].
  split; [|exact Hns]. split; [done|done| |by intros _; simpl; rewrite Hns].
  apply sampled_ok; [done|done|by eapply sample_family].
Qed.
Lemma unhealthy_ok g : guard_ok g → guard_ok (unhealthy g).
Proof. by intros [? ? ? ?]. Qed.
Lemma signal_ok g : guard_ok g → guard_ok (signalNotification g).
Proof. by intros [? ? ? ?]. Qed.
Lemma wake_ok b g : guard_ok g → guard_ok (with_wake b g).
Proof. by intros [? ? ? ?]. Qed.

(** The guard and the row stay valid through a sample. *)
Lemma sample_outcome_ok io g row out g' row' : guard_ok g → row_ok row → sample_outcome io g row out g' row' → guard_ok g' ∧ row_ok row'.
Proof.
  intros Hg Hrow [e|s healthy out' row'' Hn Hf _ Hr]; [split; [by apply unhealthy_ok|done]|].
  destruct (sampled_guard_ok io s healthy g Hg Hn Hf) as [Hg' _]. split; [done|]. destruct Hr as [->| ->]; [done|by apply guard_row].
Qed.

Lemma persist_loaded_ok o loaded g row : guard_ok g → row_ok row → row_ok loaded → growth_State loaded = growth_State (guard_loaded g) →
  guard_ok (persist_loaded o loaded g row).1 ∧ row_ok (persist_loaded o loaded g row).2 ∧
  guard_loaded (persist_loaded o loaded g row).1 = loaded ∧ guard_emailEnabled (persist_loaded o loaded g row).1 = guard_emailEnabled g ∧
  guard_reminder (persist_loaded o loaded g row).1 = guard_reminder g.
Proof.
  intros [Hm Hl Hr Hc] Hrow Hok Hst. unfold persist_loaded. rewrite write_row_ok by done.
  destruct (executes o), (counts o); (split_and!; [split|..]; try done); simpl; rewrite Hst; done.
Qed.

(** ** Every interleaving *)

Definition unreleased (ls : list bool) : list bool := List.filter negb ls.
Record world_ok (w : growth_world) : Prop := {
  world_guard_ok : guard_ok (world_guard w);
  world_row_ok : row_ok (world_row w);
  world_leases : (length (unreleased (leases w)) ≤ 1)%nat }.
(** Readings are int64, and the clock is before the year 70 billion. *)
Definition event_ok (ev : growth_event) : Prop :=
  match ev with
  | WriteCall io => readings_int64 (sampling_readings io)
  | TickCall _ io => readings_int64 (sampling_readings io)
  | FinishCall _ clock _ => now_of clock ≤ 2 ^ 61
  | _ => True
  end.
(** The settings that no step changes. *)
Definition same_settings (g g' : DatabaseGrowthGuard) : Prop :=
  guard_maxBytes g' = guard_maxBytes g ∧ guard_mainPageLimitBytes g' = guard_mainPageLimitBytes g ∧ guard_warning g' = guard_warning g ∧
  guard_reminder g' = guard_reminder g ∧ guard_emailEnabled g' = guard_emailEnabled g.

Lemma held_leases ls : existsb negb ls = false ↔ unreleased ls = [].
Proof.
  unfold unreleased. induction ls as [|b ls IH]; simpl; [done|]. destruct b; simpl; [exact IH|]. split; discriminate.
Qed.
Lemma unreleased_app ls b : unreleased (ls ++ [b]) = unreleased ls ++ unreleased [b].
Proof. apply List.filter_app. Qed.
Lemma release_shrinks ls i : ls !! i = Some false → (S (length (unreleased (<[i := true]> ls))) = length (unreleased ls))%nat.
Proof.
  unfold unreleased. revert i. induction ls as [|b ls IH]; intros [|i]; simpl; [done..| |].
  - by intros [= ->].
  - intros Hi. specialize (IH i Hi). destruct b; simpl; lia.
Qed.
Lemma sample_outcome_settings io g row out g' row' : sample_outcome io g row out g' row' → same_settings g g'.
Proof. by intros [e He|s healthy out' row'' Hn Hf Ho Hr]. Qed.

Lemma AcquireWrite_outcome io g row : guard_ok g → readings_int64 (sampling_readings io) → row_ok row →
  let '(out, (g', row')) := AcquireWrite io g row in
  guard_ok g' ∧ row_ok row' ∧ same_settings g g' ∧
  match out with
  | Ok _ => ∃ s, sample_facts (guard_maxBytes g) (guard_warning g) (guard_mainPageLimitBytes g) (growth_State (guard_loaded g)) s ∧
      State s ≠ DatabaseGrowthHard ∧ guard_last g' = s
  | Err ErrWriteAdmissionHard =>
      ∃ s, sample_facts (guard_maxBytes g) (guard_warning g) (guard_mainPageLimitBytes g) (growth_State (guard_loaded g)) s ∧ State s = DatabaseGrowthHard ∧ guard_last g' = s
  | Err _ => guard_sampleHealthy g' = false
  end.
Proof.
  intros Hg Hr Hrow. unfold AcquireWrite. pose proof (sampleLocked_outcome io false g row Hg Hr) as Hs.
  destruct (sampleLocked io false g row) as [out [g' row']]. destruct (sample_outcome_ok _ _ _ _ _ _ Hg Hrow Hs) as [Hg' Hrow'].
  pose proof (sample_outcome_settings _ _ _ _ _ _ Hs) as Hset. destruct Hs as [e He|s healthy out row'' Hn Hf -> Hr'].
  - split_and!; try done. by destruct e.
  - destruct healthy; [|by split_and!].
    assert (Hsig : ∀ b : bool, guard_ok (if b then signalNotification (sampled_guard io s true g) else sampled_guard io s true g))
      by (intros []; [by apply signal_ok|done]).
    assert (Hsets : ∀ b : bool, same_settings g (if b then signalNotification (sampled_guard io s true g) else sampled_guard io s true g)) by (by intros []).
    assert (Hlast : ∀ b : bool, guard_last (if b then signalNotification (sampled_guard io s true g) else sampled_guard io s true g) = s) by (by intros []).
    split; [apply Hsig|]. split; [done|]. split; [apply Hsets|].
    destruct (String.eqb_spec (State s) DatabaseGrowthHard) as [Hh|Hh]; exists s; (split; [done|split; [done|apply Hlast]]).
Qed.

Lemma tick_outcome canceled io g row : guard_ok g → readings_int64 (sampling_readings io) → row_ok row →
  guard_ok (tick canceled io g row).2.1 ∧ row_ok (tick canceled io g row).2.2 ∧ same_settings g (tick canceled io g row).2.1.
Proof.
  intros Hg Hr Hrow. unfold tick. destruct canceled; [done|]. pose proof (sampleLocked_outcome io true g row Hg Hr) as Hs.
  destruct (sampleLocked io true g row) as [out [g' row']]. destruct (sample_outcome_ok _ _ _ _ _ _ Hg Hrow Hs) as [Hg' Hrow'].
  pose proof (sample_outcome_settings _ _ _ _ _ _ Hs) as Hset. destruct out as [[s [|]]|e]; simpl; (split_and!; [|done|exact Hset]); [by apply signal_ok|done|done].
Qed.

Lemma still_pending_facts d s : row_ok s → still_pending d s = true →
  mail_kind_sent d = alertKindForState (growth_State s) ∧ PendingKind s = Some (mail_kind_sent d) ∧ PendingSinceUnix s = Some (pending_since d).
Proof.
  intros Hok. unfold still_pending. destruct (PendingKind s) as [k|] eqn:Hk; [|done]. destruct (PendingSinceUnix s) as [t|] eqn:Ht; [|done].
  intros [->%String.eqb_eq ->%Z.eqb_eq]%andb_true_iff. split_and!; [by apply row_kind|done|done].
Qed.
Lemma retry_delay_bounds n : 300 ≤ seconds_of (retryDelayAfterFailure n) ≤ 86400.
Proof. unfold retryDelayAfterFailure. repeat case_match; vm_compute; split; discriminate. Qed.

(** The loaded row after a delivery. *)
Definition delivered (d : delivery) (sent : bool) (now : Z) (s : growth_row) : growth_row :=
  if still_pending d s && (0 <=? now) then
    if sent then mailed (mail_kind_sent d) now s
    else retry_later (int64_add now (seconds_of (retryDelayAfterFailure (RetryAttempt s)))) (Z.min (RetryAttempt s + 1) 3) s
  else s.
Lemma finish_outcome d sent clock o g row : guard_ok g → row_ok row → now_of clock ≤ 2 ^ 61 →
  let w := finish_delivery d sent clock o g row in
  guard_ok w.1 ∧ row_ok w.2 ∧ same_settings g w.1 ∧ guard_loaded w.1 = delivered d sent (now_of clock) (guard_loaded g).
Proof.
  intros Hg Hrow Hclock. pose proof (guard_row _ Hg) as Hl. unfold finish_delivery, delivered. set (now := now_of clock) in *.
  destruct (still_pending d (guard_loaded g)) eqn:Hp; [|done]. cbn [negb andb]. destruct (Z.ltb_spec now 0) as [|Hn], (Z.leb_spec 0 now); try lia; [done|].
  destruct (still_pending_facts _ _ Hl Hp) as (Hk&Hpk&_). pose proof (row_bounds _ Hl) as (_&_&_&_&Hat). pose proof (retry_delay_bounds (RetryAttempt (guard_loaded g))) as Hdel.
  assert (Hset : ∀ l, same_settings g (persist_loaded o l g row).1)
    by (intros l; unfold persist_loaded; destruct (writeGrowthPersistentState o l row) as [[e|] r]; done).
  destruct sent; cbv zeta.
  - assert (Hm : row_ok (mailed (mail_kind_sent d) now (guard_loaded g))) by (rewrite Hk; by apply mailed_ok).
    destruct (persist_loaded_ok o _ g row Hg Hrow Hm eq_refl) as (?&?&?&_). split_and!; first [done|apply Hset].
  - assert (Hadd : int64_add now (seconds_of (retryDelayAfterFailure (RetryAttempt (guard_loaded g)))) = now + seconds_of (retryDelayAfterFailure (RetryAttempt (guard_loaded g)))).
    { apply int64_wrap_id. unfold int64_min, int64_max. change (2 ^ 61) with 2305843009213693952 in Hclock. lia. }
    rewrite Hadd. assert (Hm : row_ok (retry_later (now + seconds_of (retryDelayAfterFailure (RetryAttempt (guard_loaded g)))) (Z.min (RetryAttempt (guard_loaded g) + 1) 3) (guard_loaded g)))
      by (apply retry_ok; [done|congruence|lia|lia]).
    destruct (persist_loaded_ok o _ g row Hg Hrow Hm eq_refl) as (?&?&?&_). split_and!; first [done|apply Hset].
Qed.

Lemma growth_step_ok w ev a w' : world_ok w → event_ok ev → growth_step w ev = Some (a, w') →
  world_ok w' ∧ same_settings (world_guard w) (world_guard w').
Proof.
  intros [Hg Hrow Hle] Hev. destruct w as [g row ls at_]. simpl in Hg, Hrow, Hle.
  destruct ev as [io|i|canceled io| |canceled clock|sent clock o]; simpl; unfold held; cbn [leases].
  - destruct (existsb negb ls) eqn:Hh; [done|]. apply held_leases in Hh. pose proof (AcquireWrite_outcome io g row Hg Hev Hrow) as Ho.
    destruct (AcquireWrite io g row) as [[u|e] [g' row']]; destruct Ho as (Hg'&Hrow'&Hset&_); intros [= _ <-]; (split; [split; cbn [world_guard world_row leases]; try done|done]).
    rewrite unreleased_app, Hh. simpl. lia.
  - destruct (ls !! i) as [[|]|] eqn:Hi; intros [= _ <-]; (split; [split; cbn [world_guard world_row leases]|done]); try done. pose proof (release_shrinks ls i Hi). lia.
  - destruct at_; [|done..]. destruct (existsb negb ls); [done|]. pose proof (tick_outcome canceled io g row Hg Hev Hrow) as Ho.
    destruct (tick canceled io g row) as [go [g' row']]. destruct Ho as (Hg'&Hrow'&Hset). intros [= _ <-]. by split.
  - destruct at_; [|done..]. destruct (guard_wake g); [|done]. intros [= _ <-]. split; [split; cbn [world_guard world_row leases]; try done; by apply wake_ok|done].
  - destruct at_; [done| |done]. destruct (_ && _); [done|]. intros [= _ <-]. by split.
  - destruct at_ as [| |d]; [done..|]. destruct (existsb negb ls); [done|]. pose proof (finish_outcome d sent clock o g row Hg Hrow Hev) as Ho.
    destruct (finish_delivery d sent clock o g row) as [g' row']. destruct Ho as (Hg'&Hrow'&Hset&_). intros [= _ <-]. by split.
Qed.
Lemma growth_run_ok evs : ∀ w as_ w', world_ok w → Forall event_ok evs → growth_run w evs = Some (as_, w') →
  world_ok w' ∧ same_settings (world_guard w) (world_guard w').
Proof.
  induction evs as [|ev evs IH]; intros w as_ w' Hw Hev; cbn; [by intros [= _ <-]|]. apply Forall_cons_1 in Hev as [Hev Hevs].
  destruct (growth_step w ev) as [[a w1]|] eqn:Hs; [|done]. cbn. destruct (growth_run w1 evs) as [[as1 w2]|] eqn:Hr; [|done]. intros [= _ <-].
  destruct (growth_step_ok _ _ _ _ Hw Hev Hs) as [Hw1 H1]. destruct (IH _ _ _ Hw1 Hevs Hr) as [Hw2 H2]. split; [done|].
  unfold same_settings in *. intuition congruence.
Qed.

(** A guard just constructed over a valid row, and the worlds it can come to. *)
Definition constructed (g : DatabaseGrowthGuard) (row : growth_row) : Prop :=
  ∃ o limits policy answered io row0, row_ok row0 ∧ pragmas_int64 limits ∧ readings_int64 (sampling_readings io) ∧
    NewDatabaseGrowthGuard o limits policy answered io row0 = (Ok g, row).
Definition growth_reached (w : growth_world) : Prop :=
  ∃ g row evs answers, constructed g row ∧ Forall event_ok evs ∧ growth_run (growth_start g row) evs = Some (answers, w).

Lemma constructed_ok g row : constructed g row → guard_ok g ∧ row_ok row.
Proof.
  intros (o&limits&policy&answered&io&row0&Hrow&Hp&Hr&Hnew). unfold NewDatabaseGrowthGuard in Hnew. destruct (_ || _) eqn:Hb; [done|]. bool_facts.
  cbv zeta in Hnew. destruct (_ || _); [done|]. destruct (databaseGrowthPageLimits limits (opt_MaxBytes o)) as [[[desired effective] mainLimit]|] eqn:Hl; [|done].
  destruct (verifyDatabaseGrowthConnectionPolicy _ _ _ _ _); [done|].
  destruct answered; [|done]. rewrite row_readable in Hnew by done.
  destruct (databaseGrowthPageLimits_spec _ _ _ _ _ Hp Hl) as (ps&pc&_&_&Hps&_&Hd&_&Hm&Hmax&Hroom&_).
  set (g0 := new_guard _ _ _ _ _ _) in Hnew.
  assert (Hg0 : guard_ok g0).
  { split; simpl; [change MaximumDatabaseMaxBytes with 1099511627776; lia|split; [nia|lia]|done|done]. }
  pose proof (sampleLocked_outcome io true g0 row0 Hg0 Hr) as Hs. destruct (sampleLocked io true g0 row0) as [[[s tr]|e] [g1 row1]]; [|done].
  destruct (sample_outcome_ok _ _ _ _ _ _ Hg0 Hrow Hs) as [Hg1 Hrow1]. injection Hnew as <- <-. split; [by apply signal_ok|done].
Qed.
Lemma growth_reached_ok w : growth_reached w → world_ok w.
Proof.
  intros (g&row&evs&answers&Hc&Hev&Hrun). apply constructed_ok in Hc as [Hg Hrow].
  eapply (growth_run_ok evs (growth_start g row)); [split; simpl; [done|done|lia]|done|exact Hrun].
Qed.

(** C27: Write admission is exact. In any state the guard can come to, through any
    writes, samples and deliveries, a write is admitted only while no other admitted
    write is unreleased, and only on a fresh sample whose used pages and whose file
    family are both below their budgets, by five percent of them when the state was
    hard; it is refused as hard only when one of those budgets is reached or not left
    by that margin, and for any other reason only with the guard reporting unhealthy. *)
Theorem write_admission_exact w io a w' : growth_reached w → readings_int64 (sampling_readings io) → growth_step w (WriteCall io) = Some (a, w') →
  let g := world_guard w in let s := guard_last (world_guard w') in
  let was_hard := growth_State (guard_loaded g) = DatabaseGrowthHard in
  unreleased (leases w) = [] ∧
  match a with
  | WriteAdmitted lease =>
      leases w' = leases w ++ [false] ∧ lease = length (leases w) ∧
      UsedLogicalBytes s < guard_mainPageLimitBytes g ∧ PhysicalFamilyBytes s < guard_maxBytes g ∧
      (was_hard → UsedLogicalBytes s * 100 < guard_mainPageLimitBytes g * 95 ∧ PhysicalFamilyBytes s * 100 < guard_maxBytes g * 95)
  | WriteRefused ErrWriteAdmissionHard =>
      guard_mainPageLimitBytes g ≤ UsedLogicalBytes s ∨ guard_maxBytes g ≤ PhysicalFamilyBytes s ∨
      was_hard ∧ (guard_mainPageLimitBytes g * 95 ≤ UsedLogicalBytes s * 100 ∨ guard_maxBytes g * 95 ≤ PhysicalFamilyBytes s * 100)
  | WriteRefused _ => Ready (world_guard w') = Some ErrGrowthSample
  | _ => False
  end.
Proof.
  intros [Hg Hrow _]%growth_reached_ok Hr. destruct w as [g row ls at_]. cbn [world_guard world_row leases growth_step] in *. unfold held. cbn [leases].
  destruct (existsb negb ls) eqn:Hh; [done|]. apply held_leases in Hh. pose proof (AcquireWrite_outcome io g row Hg Hr Hrow) as Ho.
  pose proof (guard_max _ Hg) as [Hmax _]. pose proof (guard_limit _ Hg) as [Hlim _].
  destruct (AcquireWrite io g row) as [[u|e] [g' row']]; destruct Ho as (_&_&_&Ho); intros [= <- <-]; (split; [done|]); cbn [world_guard leases].
  - destruct Ho as (s&Hf&Hne&->). destruct (writable_room _ _ _ _ _ Hmax Hlim Hf Hne) as (?&?&?). done.
  - assert (Hunhealthy : guard_sampleHealthy g' = false → Ready g' = Some ErrGrowthSample) by (unfold Ready; by intros ->).
    destruct e; try (by apply Hunhealthy). destruct Ho as (s&Hf&Hhard&->). exact (hard_reason _ _ _ _ _ Hf Hhard).
Qed.

(** C28: The persisted row stays valid: through any interleaving the table accepts the
    guard's state (no persistence fails on a constraint), a restarted guard reads it
    back, and a pending alert is always the alert of the current state; when the
    guard reports ready, the state it acts on is the one it last sampled. *)
Theorem growth_row_valid w : growth_reached w →
  (∀ s o, s = world_row w ∨ s = guard_loaded (world_guard w) →
     readGrowthPersistentState true s = Ok s ∧ (executes o = true → ∀ row, (writeGrowthPersistentState o s row).2 = s) ∧
     ∀ k, PendingKind s = Some k → k = alertKindForState (growth_State s) ∧ ∃ since after, PendingSinceUnix s = Some since ∧ RetryAfterUnix s = Some after) ∧
  (Ready (world_guard w) = None → State (guard_last (world_guard w)) = growth_State (guard_loaded (world_guard w)) ∧
     growth_State (guard_loaded (world_guard w)) ≠ DatabaseGrowthHard).
Proof.
  intros [Hg Hrow _]%growth_reached_ok. split.
  - intros s o Hs. assert (Hok : row_ok s) by (destruct Hs as [->| ->]; [done|by apply guard_row]). split_and!; [by apply row_readable| |].
    + intros He row. by rewrite write_row_ok, He by done.
    + intros k Hk. split; [by apply row_kind|by eapply pending_complete].
  - unfold Ready. destruct (guard_sampleHealthy _) eqn:Hh; [|done]. cbn [negb]. pose proof (guard_current _ Hg Hh) as Hc. rewrite Hc.
    destruct (String.eqb_spec (growth_State (guard_loaded (world_guard w))) DatabaseGrowthHard); done.
Qed.

(** ** The spacing of alerts *)

(** A run during which the state does not change and the clock does not go back. *)
Definition event_clock (ev : growth_event) : option Z :=
  match ev with
  | WriteCall io => Some (now_of (sampling_clock io)) | TickCall _ io => Some (now_of (sampling_clock io))
  | BeginCall _ clock => Some (now_of clock) | FinishCall _ clock _ => Some (now_of clock)
  | ReleaseCall _ => None | WakeCall => None
  end.
Definition later (now : Z) (ev : growth_event) : Z := default now (event_clock ev).
Inductive steady_run (st : string) : Z → growth_world → Z → growth_world → Prop :=
| steady_refl now w : growth_State (guard_loaded (world_guard w)) = st → steady_run st now w now w
| steady_event now w ev a w1 now' w' : growth_State (guard_loaded (world_guard w)) = st → event_ok ev → now ≤ later now ev ≤ 2 ^ 61 →
    growth_step w ev = Some (a, w1) → steady_run st (later now ev) w1 now' w' → steady_run st now w now' w'.

(** Since a delivery at [t1]. *)
Record spaced (st : string) (reminder t1 now : Z) (w : growth_world) : Prop := {
  spaced_ok : world_ok w;
  spaced_state : growth_State (guard_loaded (world_guard w)) = st;
  spaced_reminder : guard_reminder (world_guard w) = reminder;
  spaced_last : LastEmailKind (guard_loaded (world_guard w)) = Some (alertKindForState st) ∧
    ∃ u, LastEmailUnix (guard_loaded (world_guard w)) = Some u ∧ 0 ≤ t1 ≤ u ∧ u ≤ now;
  spaced_pending : ∀ since, PendingSinceUnix (guard_loaded (world_guard w)) = Some since → t1 + seconds_of reminder ≤ since ≤ now }.

Lemma noted_spaced g t1 now now' : row_ok (guard_loaded g) → now ≤ now' ≤ 2 ^ 61 →
  LastEmailKind (guard_loaded g) = Some (alertKindForState (growth_State (guard_loaded g))) →
  (∃ u, LastEmailUnix (guard_loaded g) = Some u ∧ 0 ≤ t1 ≤ u ∧ u ≤ now) →
  (∀ since, PendingSinceUnix (guard_loaded g) = Some since → t1 + seconds_of (guard_reminder g) ≤ since ≤ now) →
  let s := noted g (growth_State (guard_loaded g)) now' in
  LastEmailKind s = LastEmailKind (guard_loaded g) ∧ LastEmailUnix s = LastEmailUnix (guard_loaded g) ∧
  ∀ since, PendingSinceUnix s = Some since → t1 + seconds_of (guard_reminder g) ≤ since ≤ now'.
Proof.
  intros Hok Hn Hk (u&Hu&Ht&Hun) Hp. unfold noted, note_transition. rewrite String.eqb_refl. cbn [fst]. unfold note_unmailed. rewrite Hk, String.eqb_refl, andb_false_r.
  cbn [fst]. unfold note_reminder. rewrite Hu. destruct (_ && (_ <=? _)) eqn:Hr.
  - apply andb_true_iff in Hr as [_ Hr%Z.leb_le]. cbn [fst]. split_and!; [done|done|]. intros since [= <-].
    change (2 ^ 61) with 2305843009213693952 in Hn. rewrite int64_sub_small in Hr by int64_lia. lia.
  - cbn [fst]. split_and!; [done|done|]. intros since Hs. specialize (Hp since Hs). lia.
Qed.

Lemma sample_spaced io g row out g' row' st t1 now : guard_ok g → sample_outcome io g row out g' row' → growth_State (guard_loaded g) = st →
  growth_State (guard_loaded g') = st → now ≤ now_of (sampling_clock io) ≤ 2 ^ 61 →
  LastEmailKind (guard_loaded g) = Some (alertKindForState st) → (∃ u, LastEmailUnix (guard_loaded g) = Some u ∧ 0 ≤ t1 ≤ u ∧ u ≤ now) →
  (∀ since, PendingSinceUnix (guard_loaded g) = Some since → t1 + seconds_of (guard_reminder g) ≤ since ≤ now) →
  LastEmailKind (guard_loaded g') = Some (alertKindForState st) ∧
  (∃ u, LastEmailUnix (guard_loaded g') = Some u ∧ 0 ≤ t1 ≤ u ∧ u ≤ now_of (sampling_clock io)) ∧
  ∀ since, PendingSinceUnix (guard_loaded g') = Some since → t1 + seconds_of (guard_reminder g) ≤ since ≤ now_of (sampling_clock io).
Proof.
  intros Hg Ho Hst Hst' Hn Hk Hu Hp. destruct Ho as [e He|s healthy out' row'' Hnow Hf _ _].
  - split_and!; [done| |intros since Hs; specialize (Hp since Hs); lia]. destruct Hu as (u&Hu&?&?). exists u. split; [exact Hu|lia].
  - destruct (sampled_guard_ok io s healthy g Hg Hnow Hf) as [_ Hs]. rewrite Hst' in Hs.
    unfold sampled_guard in *. cbn [with_sample guard_loaded] in *. rewrite <- Hs, <- Hst in *.
    destruct (noted_spaced g t1 now (now_of (sampling_clock io)) (guard_row _ Hg) Hn Hk Hu Hp) as (Hk'&Hu'&Hp').
    change (LastEmailKind (sampled ?n ?f ?x)) with (LastEmailKind x). change (LastEmailUnix (sampled ?n ?f ?x)) with (LastEmailUnix x).
    change (PendingSinceUnix (sampled ?n ?f ?x)) with (PendingSinceUnix x). rewrite Hk', Hu'. split_and!; [done| |exact Hp'].
    destruct Hu as (u&Hu&?&?). exists u. split; [exact Hu|lia].
Qed.

Lemma delivered_spaced d sent s t1 now now' reminder : row_ok s → 0 ≤ now → now ≤ now' →
  LastEmailKind s = Some (alertKindForState (growth_State s)) → (∃ u, LastEmailUnix s = Some u ∧ 0 ≤ t1 ≤ u ∧ u ≤ now) →
  (∀ since, PendingSinceUnix s = Some since → t1 + reminder ≤ since ≤ now) →
  let s' := delivered d sent now' s in
  growth_State s' = growth_State s ∧ LastEmailKind s' = Some (alertKindForState (growth_State s)) ∧ (∃ u, LastEmailUnix s' = Some u ∧ 0 ≤ t1 ≤ u ∧ u ≤ now') ∧
  ∀ since, PendingSinceUnix s' = Some since → t1 + reminder ≤ since ≤ now'.
Proof.
  intros Hok Hn Hn' Hk (u&Hu&Ht&Hun) Hp. unfold delivered. destruct (still_pending d s && _) eqn:Hd.
  - apply andb_true_iff in Hd as [Hd _]. destruct (still_pending_facts _ _ Hok Hd) as (Hkind&_&_). destruct sent; cbn.
    + rewrite Hkind. split_and!; try done. exists now'. split; [done|lia].
    + split_and!; try done; [exists u; split; [done|lia]|]. intros since Hs. specialize (Hp since Hs). lia.
  - split_and!; try done; [exists u; split; [done|lia]|]. intros since Hs. specialize (Hp since Hs). lia.
Qed.

Lemma steady_spaced st reminder t1 now w now' w' : steady_run st now w now' w' → 0 ≤ now → spaced st reminder t1 now w → spaced st reminder t1 now' w' ∧ now ≤ now'.
Proof.
  induction 1 as [now w Hst|now w ev a w1 now' w' Hst Hev Hclk Hstep Hrun IH]; intros Hn Hsp; [split; [done|lia]|].
  assert (Hst1 : growth_State (guard_loaded (world_guard w1)) = st) by (by inversion Hrun).
  enough (Hsp1 : spaced st reminder t1 (later now ev) w1) by (destruct (IH ltac:(lia) Hsp1); split; [done|lia]).
  destruct Hsp as [Hw _ Hrem [Hk Hu] Hp]. destruct (growth_step_ok _ _ _ _ Hw Hev Hstep) as [Hw1 (_&_&_&Hrem1&_)].
  assert (Hkeep : (LastEmailKind (guard_loaded (world_guard w1)) = Some (alertKindForState st) ∧
      (∃ u, LastEmailUnix (guard_loaded (world_guard w1)) = Some u ∧ 0 ≤ t1 ≤ u ∧ u ≤ later now ev) ∧
      ∀ since, PendingSinceUnix (guard_loaded (world_guard w1)) = Some since → t1 + seconds_of reminder ≤ since ≤ later now ev)).
  2:{ destruct Hkeep as (?&?&?). split; try done. congruence. }
  assert (Hsame : guard_loaded (world_guard w1) = guard_loaded (world_guard w) → LastEmailKind (guard_loaded (world_guard w1)) = Some (alertKindForState st) ∧
      (∃ u, LastEmailUnix (guard_loaded (world_guard w1)) = Some u ∧ 0 ≤ t1 ≤ u ∧ u ≤ later now ev) ∧
      ∀ since, PendingSinceUnix (guard_loaded (world_guard w1)) = Some since → t1 + seconds_of reminder ≤ since ≤ later now ev).
  { intros ->. split_and!; [done|destruct Hu as (u&Hu&?&?); exists u; split; [done|lia]|]. intros since Hs. specialize (Hp since Hs). lia. }
  pose proof (world_guard_ok _ Hw) as Hg. pose proof (world_row_ok _ Hw) as Hrow. destruct w as [g row ls at_]. cbn [world_guard world_row] in *. rewrite <- Hrem in *.
  destruct ev as [io|i|canceled io| |canceled clock|sent clock o]; unfold later in *; cbn [event_clock default growth_step held leases] in *; unfold held in Hstep; cbn [leases] in Hstep.
  - destruct (existsb negb ls); [done|]. pose proof (sampleLocked_outcome io false g row Hg Hev) as Ho. unfold AcquireWrite in Hstep.
    destruct (sampleLocked io false g row) as [out [g1 row1]]. destruct out as [[s tr]|e]; [destruct tr, (State s ≟ DatabaseGrowthHard)|];
      injection Hstep as <- <-; exact (sample_spaced _ _ _ _ _ _ st t1 now Hg Ho Hst Hst1 Hclk Hk Hu Hp).
  - destruct (ls !! i) as [[|]|]; injection Hstep as <- <-; by apply Hsame.
  - destruct at_; [|done..]. destruct (existsb negb ls); [done|]. pose proof (sampleLocked_outcome io true g row Hg Hev) as Ho. unfold tick in Hstep.
    destruct canceled; [injection Hstep as <- <-; by apply Hsame|].
    destruct (sampleLocked io true g row) as [out [g1 row1]]. destruct out as [[s tr]|e]; [destruct tr|];
      injection Hstep as <- <-; exact (sample_spaced _ _ _ _ _ _ st t1 now Hg Ho Hst Hst1 Hclk Hk Hu Hp).
  - destruct at_; [|done..]. destruct (guard_wake g); [|done]. injection Hstep as <- <-. by apply Hsame.
  - destruct at_; [done| |done]. destruct (_ && _); [done|]. injection Hstep as <- <-. by apply Hsame.
  - destruct at_ as [| |d]; [done..|]. destruct (existsb negb ls); [done|]. pose proof (finish_outcome d sent clock o g row Hg Hrow Hev) as (_&_&_&Hl).
    destruct (finish_delivery d sent clock o g row) as [g1 row1]. injection Hstep as <- <-. cbn [world_guard fst] in *. rewrite Hl in *.
    rewrite <- Hst in *. exact (proj2 (delivered_spaced d sent (guard_loaded g) t1 now _ _ (guard_row _ Hg) Hn (proj1 Hclk) Hk Hu Hp)).
Qed.

(** Alerts do not storm. After a delivery that was recorded, while the state stays
    the same and the clock does not go back, whatever writes, samples, failures and
    deliveries happen, every alert that is about to be recorded again was scheduled at
    least a reminder interval after it. *)
Theorem alerts_spaced w d clock o a w1 st now w2 d' : growth_reached w → mailer w = Sending d →
  still_pending d (guard_loaded (world_guard w)) = true → 0 ≤ now_of clock ≤ 2 ^ 61 → growth_step w (FinishCall true clock o) = Some (a, w1) →
  steady_run st (now_of clock) w1 now w2 → mailer w2 = Sending d' → still_pending d' (guard_loaded (world_guard w2)) = true →
  now_of clock + seconds_of (guard_reminder (world_guard w)) ≤ pending_since d' ≤ now.
Proof.
  intros Hw%growth_reached_ok Hat Hp Hclk Hstep Hrun Hat' Hp'. assert (Hev : event_ok (FinishCall true clock o)) by apply Hclk.
  destruct (growth_step_ok _ _ _ _ Hw Hev Hstep) as [Hw1 (_&_&_&Hrem&_)]. pose proof (world_guard_ok _ Hw) as Hg. pose proof (guard_row _ Hg) as Hok.
  destruct (still_pending_facts _ _ Hok Hp) as (Hk&_). assert (Hst1 : growth_State (guard_loaded (world_guard w1)) = st) by (by inversion Hrun).
  assert (Hl : guard_loaded (world_guard w1) = mailed (mail_kind_sent d) (now_of clock) (guard_loaded (world_guard w))).
  { destruct w as [g row ls at_]. simpl in Hat. subst at_. cbn [growth_step held leases] in Hstep. unfold held in Hstep. cbn [leases] in Hstep.
    destruct (existsb negb ls); [done|]. pose proof (finish_outcome d true clock o g row Hg (world_row_ok _ Hw) (proj2 Hclk)) as (_&_&_&Hl).
    destruct (finish_delivery d true clock o g row) as [g1 row1]. injection Hstep as <- <-. cbn [world_guard fst] in *. rewrite Hl. unfold delivered.
    rewrite Hp. destruct (Z.leb_spec 0 (now_of clock)); [done|lia]. }
  assert (Hsp : spaced st (guard_reminder (world_guard w)) (now_of clock) (now_of clock) w1).
  { split; [done|done|done| |]; rewrite Hl; cbn; [|done]. rewrite Hk. rewrite Hl in Hst1. cbn in Hst1. rewrite Hst1. split; [done|].
    exists (now_of clock). split; [done|lia]. }
  destruct (steady_spaced _ _ _ _ _ _ _ Hrun (proj1 Hclk) Hsp) as [[Hw2 _ _ _ Hpend] Hle].
  destruct (still_pending_facts _ _ (guard_row _ (world_guard_ok _ Hw2)) Hp') as (_&_&Hs). exact (Hpend _ Hs).
Qed.

(** * A guard under its callers The theorems of [GrowthFacts] and [GrowthGuard] at one database: a write admitted, a warning mailed and its reminder a day later. *)

(** ** Examples: a database of 4 KiB pages under a budget of 100 MiB *)

Definition sample_pragmas (pages free : Z) : pragmas := Pragmas (Some 4096) (Some pages) (Some free) (Some 22400) (Some 0).
Definition sample_readings (pages free wal : Z) : readings :=
  Readings (sample_pragmas pages free) (RegularFile (pages * 4096)) (RegularFile wal) FileMissing.
Definition io_at (seconds pages : Z) : sampling := SamplingOf (time_of_unix seconds) (sample_readings pages 0 0) (WriteOutcome true true).
Definition sample_options : DatabaseGrowthOptions := GrowthOptions "/var/lib/directory.db" 104857600 75 0 true true 0 0.
Definition sample_guard (pages : Z) : result error DatabaseGrowthGuard * growth_row :=
  NewDatabaseGrowthGuard sample_options (sample_pragmas pages 0) (sample_pragmas pages 0) true (io_at 1000 pages) initial_growth_row.
Definition sample_world (pages : Z) : growth_world :=
  match sample_guard pages with
  | (Ok g, row) => growth_start g row
  | (Err _, row) => growth_start (new_guard sample_options 1 1 1 1 row) row
  end.

Lemma sample_constructed pages : 0 ≤ pages ≤ 22400 → is_ok (sample_guard pages).1 = true → growth_reached (sample_world pages).
Proof.
  intros Hp Hok. unfold sample_world. destruct (sample_guard pages) as [[g|e] row] eqn:Hg; [|done].
  exists g, row, [], []. split_and!; [|constructor|done].
  exists sample_options, (sample_pragmas pages 0), (sample_pragmas pages 0), true, (io_at 1000 pages), initial_growth_row.
  assert (Hpr : pragmas_int64 (sample_pragmas pages 0)) by (split_and!; intros z [= <-]; int64_lia).
  split_and!; [apply initial_row_ok|done|split_and!; [done|simpl; int64_lia|simpl; int64_lia|exact I]|exact Hg].
Qed.
Definition after (evs : list growth_event) (w : growth_world) : growth_world :=
  match growth_run w evs with Some (_, w) => w | None => w end.
Lemma reached_after evs w answers w' : growth_reached w → Forall event_ok evs → growth_run w evs = Some (answers, w') → growth_reached w'.
Proof.
  intros (g&row&evs0&answers0&Hc&Hev0&Hrun0) Hev Hrun. exists g, row, (evs0 ++ evs), (answers0 ++ answers). split_and!; [done|by apply Forall_app|].
  revert answers0 Hrun0. generalize (growth_start g row) as w0. clear Hev0. induction evs0 as [|ev evs0 IH]; intros w0 answers0; cbn; [by intros [= <- ->]|].
  destruct (growth_step w0 ev) as [[a w1]|]; [|done]. cbn. destruct (growth_run w1 evs0) as [[as1 w2]|] eqn:Hr; [|done]. intros [= <- ->].
  cbn. by rewrite (IH w1 as1 Hr).
Qed.
Lemma sample_int64 pages free wal : 0 ≤ pages ≤ 1000000 → 0 ≤ free ≤ 1000000 → 0 ≤ wal ≤ 1000000 → readings_int64 (sample_readings pages free wal).
Proof. intros Hp Hf Hw. split_and!; [split_and!; intros z [= <-]; int64_lia|simpl; int64_lia..|exact I]. Qed.

Lemma growth_state_exact_witness :
  promised_state 75 DatabaseGrowthHard (λ p, (p <=? 0) || (91750400 * p <=? 87000000 * 100) || (p <=? 0) || (104857600 * p <=? 87040000 * 100)) = DatabaseGrowthCritical ∧
  ∃ s, sampleDatabaseGrowth "db" 104857600 75 0 22400 91750400 (sample_readings 21250 0 0) None DatabaseGrowthHard = Ok s ∧
    UsedLogicalBytes s = 21250 * 4096 ∧ State s = DatabaseGrowthCritical.
Proof.
  split; [vm_compute; reflexivity|].
  destruct (sampleDatabaseGrowth "db" 104857600 75 0 22400 91750400 (sample_readings 21250 0 0) None DatabaseGrowthHard) as [s|e] eqn:Hs; [|vm_compute in Hs; discriminate Hs].
  assert (H1 : 0 < 104857600 ≤ MaximumDatabaseMaxBytes) by (vm_compute; split; [reflexivity|discriminate]).
  assert (H2 : 0 < 91750400 ≤ MaximumDatabaseMaxBytes) by (vm_compute; split; [reflexivity|discriminate]).
  assert (Hr : readings_int64 (sample_readings 21250 0 0)) by (apply sample_int64; lia).
  destruct (growth_state_exact "db" 104857600 75 0 22400 91750400 (sample_readings 21250 0 0) None DatabaseGrowthHard s H1 H2 eq_refl Hr Hs) as (Hu&Hf&Hps&Hpc&Hfl&_&[_ _ [Hl Hm] Hst]).
  exists s. split; [reflexivity|]. injection Hps as Hps. injection Hpc as Hpc. injection Hfl as Hfl. rewrite Hps, Hpc, Hfl in Hu. split; [exact Hu|].
  assert (Ho : Ok s = (Ok s : result error growth_sample)) by reflexivity. rewrite <- Hs in Ho at 1. vm_compute in Ho. injection Ho as <-. reflexivity.
Defined.

Lemma write_admission_exact_witness :
  ∃ a w', growth_step (sample_world 1000) (WriteCall (io_at 1010 1000)) = Some (a, w') ∧ a = WriteAdmitted 0 ∧ leases w' = [false].
Proof.
  destruct (growth_step (sample_world 1000) (WriteCall (io_at 1010 1000))) as [[a w']|] eqn:Hs; [|vm_compute in Hs; discriminate Hs].
  assert (Ha : a = WriteAdmitted 0) by (vm_compute in Hs; injection Hs as <- _; reflexivity).
  assert (Hok : is_ok (sample_guard 1000).1 = true) by (vm_compute; reflexivity).
  assert (Hw : growth_reached (sample_world 1000)) by (apply sample_constructed; [lia|exact Hok]).
  assert (Hr : readings_int64 (sampling_readings (io_at 1010 1000))) by (apply sample_int64; lia).
  pose proof (write_admission_exact (sample_world 1000) (io_at 1010 1000) a w' Hw Hr Hs) as H. rewrite Ha in H.
  exists a, w'. split; [reflexivity|]. split; [exact Ha|]. destruct H as (_&Hl&_). rewrite Hl. vm_compute. reflexivity.
Defined.

Lemma growth_row_valid_witness :
  let w := after [WriteCall (io_at 1010 20000); ReleaseCall 0] (sample_world 1000) in
  growth_State (world_row w) = DatabaseGrowthWarning ∧ readGrowthPersistentState true (world_row w) = Ok (world_row w).
Proof.
  set (evs := [WriteCall (io_at 1010 20000); ReleaseCall 0]).
  assert (Hok : is_ok (sample_guard 1000).1 = true) by (vm_compute; reflexivity).
  assert (Hw : growth_reached (sample_world 1000)) by (apply sample_constructed; [lia|exact Hok]).
  assert (Hev : Forall event_ok evs) by (constructor; [apply sample_int64; lia|constructor; [exact I|constructor]]).
  destruct (growth_run (sample_world 1000) evs) as [[answers w]|] eqn:Hrun; [|vm_compute in Hrun; discriminate Hrun].
  assert (Haf : after evs (sample_world 1000) = w) by (unfold after; rewrite Hrun; reflexivity).
  cbv zeta. split; [vm_compute; reflexivity|]. rewrite Haf.
  exact (proj1 (proj1 (growth_row_valid w (reached_after evs _ answers w Hw Hev Hrun)) (world_row w) (WriteOutcome true true) (or_introl eq_refl))).
Defined.

(** A warning is mailed at 1020 and a reminder one day later. *)
Definition first_alert : list growth_event := [WriteCall (io_at 1010 20000); ReleaseCall 0; BeginCall false (time_of_unix 1020)].
Definition sent_at (seconds : Z) : growth_event := FinishCall true (time_of_unix seconds) (WriteOutcome true true).
Definition next_day : list growth_event := [TickCall false (io_at 87420 20000); BeginCall false (time_of_unix 87421)].
Ltac steady ev := eapply (steady_event _ _ _ ev); [vm_compute; reflexivity|first [exact I|apply sample_int64; lia]|vm_compute; split; discriminate|vm_compute; reflexivity|].
Lemma alerts_spaced_witness :
  let w := after first_alert (sample_world 1000) in
  ∃ d d', mailer w = Sending d ∧ mailer (after next_day (after [sent_at 1020] w)) = Sending d' ∧ 1020 + 86400 ≤ pending_since d'.
Proof.
  set (w := after first_alert (sample_world 1000)). cbv zeta.
  assert (Hok : is_ok (sample_guard 1000).1 = true) by (vm_compute; reflexivity).
  assert (Hw0 : growth_reached (sample_world 1000)) by (apply sample_constructed; [lia|exact Hok]).
  assert (Hev : Forall event_ok first_alert) by (constructor; [apply sample_int64; lia|repeat constructor]).
  destruct (growth_run (sample_world 1000) first_alert) as [[answers w1]|] eqn:Hrun; [|vm_compute in Hrun; discriminate Hrun].
  assert (Haf : w = w1) by (unfold w, after; rewrite Hrun; reflexivity).
  assert (Hw : growth_reached w) by (rewrite Haf; exact (reached_after first_alert _ answers w1 Hw0 Hev Hrun)). clear Haf Hrun Hw0 Hev.
  destruct (mailer w) as [| |d] eqn:Hd; [vm_compute in Hd; discriminate Hd..|].
  assert (Hp : still_pending d (guard_loaded (world_guard w)) = true) by (vm_compute in Hd; injection Hd as <-; vm_compute; reflexivity).
  destruct (growth_step w (sent_at 1020)) as [[a w2]|] eqn:Hs; [|vm_compute in Hs; discriminate Hs].
  assert (Haf : after [sent_at 1020] w = w2) by (unfold after; cbn [growth_run mbind option_bind]; rewrite Hs; reflexivity). rewrite Haf.
  set (w3 := after next_day w2). destruct (mailer w3) as [| |d'] eqn:Hd'; [vm_compute in Hs; injection Hs as _ <-; vm_compute in Hd'; discriminate Hd'..|].
  exists d, d'. split; [reflexivity|]. split; [reflexivity|].
  assert (Hclk : 0 ≤ now_of (time_of_unix 1020) ≤ 2 ^ 61) by (vm_compute; split; discriminate).
  assert (Hp' : still_pending d' (guard_loaded (world_guard w3)) = true).
  { unfold w3 in *. vm_compute in Hs. injection Hs as _ <-. vm_compute in Hd'. injection Hd' as <-. vm_compute. reflexivity. }
  assert (Hrun : steady_run DatabaseGrowthWarning (now_of (time_of_unix 1020)) w2 87421 w3).
  { clear - Hs. unfold w3. vm_compute in Hs. injection Hs as _ <-. steady (TickCall false (io_at 87420 20000)).
    steady (BeginCall false (time_of_unix 87421)). vm_compute. apply steady_refl. reflexivity. }
  pose proof (alerts_spaced w d (time_of_unix 1020) (WriteOutcome true true) a w2 DatabaseGrowthWarning 87421 w3 d' Hw Hd Hp Hclk Hs Hrun Hd' Hp') as [Hge _].
  assert (Hrem : now_of (time_of_unix 1020) + seconds_of (guard_reminder (world_guard w)) = 1020 + 86400) by (vm_compute; reflexivity).
  rewrite Hrem in Hge. exact Hge.
Defined.
