(* ===== verification/Repository.v ===== *)
(** * Repository: what the SQLite repository methods share

    Intent validation, acceptance times, the row readers [selectRelay] and
    [selectObservation], the monotonic-time guard, event insertion and the RFC
    9421 evidence of [internal/storage/sqlite/relay.go] and [discovery.go]. *)
From S2P Require Import Prelude Identity Vocabulary Store.
Local Open Scope string_scope.
Local Open Scope Z_scope.
Local Open Scope go_scope.
Local Open Scope list_scope.

(** [if !ok { return err }] *)
Definition check (ok : bool) (e : error) : Tx unit := if ok then mret tt else tx_fail e.

(** [transitionUnix(acceptedAt)] *)
Definition transitionUnix (acceptedAt : Z) : result error Z :=
  let acceptedUnix := unix_of acceptedAt in
  if acceptedUnix <? 0 then Err ErrTransitionTime else Ok acceptedUnix.

(** [observationUnix(observedAt)] *)
Definition observationUnix (observedAt : Z) : result error Z :=
  let value := unix_of observedAt in
  if value <? 0 then Err ErrObservationTime else Ok value.

Definition maxInt64 (left right : Z) : Z := if right <? left then left else right.

(** [SELECT public_base_url, lifecycle_state, ... FROM relays WHERE relay_actor = ?] *)
Record relayRecord := {
  publicBaseURL : string; lifecycleState : string; administrativeState : string;
  updatedAtUnix : Z; lastSeenAtUnix : Z }.
Definition record_of (r : relay_row) : relayRecord := {|
  publicBaseURL := public_base_url r; lifecycleState := lifecycle_state r;
  administrativeState := administrative_state r; updatedAtUnix := updated_at_unix r;
  lastSeenAtUnix := last_seen_at_unix r |}.
Definition selectRelay (relayActor : string) : Tx (option relayRecord) :=
  query (λ d, record_of <$> relays d !! relayActor).

Definition selectObservation (actor : string) : Tx (option observation_row) :=
  query (λ d, observations d !! actor).

Definition latest_of (latest : Z) (read : option Z) : Z :=
  match read with
  | Some v => if latest <? v then v else latest
  | None => latest
  end.
Definition relay_latest (relay : option relayRecord) : Z :=
  match relay with
  | Some r => if updatedAtUnix r <? lastSeenAtUnix r then lastSeenAtUnix r else updatedAtUnix r
  | None => -1
  end.

Definition requireMonotonicTime (relayActor : string) (acceptedUnix : Z)
    (relay : option relayRecord) : Tx unit :=
  latestEvent ← wrapped "read relay event time" (query (latest_relay_event relayActor));
  latestModeration ← wrapped "read moderation event time" (query (latest_moderation_event relayActor));
  check (negb (acceptedUnix <? latest_of (latest_of (relay_latest relay) latestEvent) latestModeration))
    ErrTransitionTime.

Definition insertRelayEvent (relayActor eventKind : string) (recordedUnix : Z) : Tx unit :=
  wrapped "write relay event" (exec (insert_relay_event relayActor eventKind recordedUnix)).

Definition empty_observation (updatedUnix : Z) : observation_row := {|
  actor_state := ReachabilityUnknown; actor_last_checked := None; actor_last_success := None;
  inbox_url := None; inbox_declared := None; inbox_probe_state := InboxNotChecked;
  inbox_last_checked := None; rfc9421_verified := None;
  observation_updated := updatedUnix; revision := 1 |}.
Definition insertEmptyObservation (actor : string) (updatedUnix : Z) : Tx unit :=
  wrapped "create relay observation" (exec (insert_observation actor (empty_observation updatedUnix))) ;;
  mret tt.

(** Re-read an observation row just inserted. *)
Definition selectInsertedObservation (action actor : string) : Tx observation_row :=
  current ← wrapped action (selectObservation actor);
  match current with
  | Some row => mret row
  | None => tx_fail (storageFailure action ErrInvalidState)
  end.

Definition verify_row (verifiedUnix updatedUnix : Z) (r : observation_row) : observation_row := {|
  actor_state := actor_state r; actor_last_checked := actor_last_checked r;
  actor_last_success := actor_last_success r; inbox_url := inbox_url r;
  inbox_declared := inbox_declared r; inbox_probe_state := inbox_probe_state r;
  inbox_last_checked := inbox_last_checked r; rfc9421_verified := Some verifiedUnix;
  observation_updated := updatedUnix; revision := revision r + 1 |}.

Definition recordRFC9421VerifiedTx (actor : string) (verifiedUnix : Z) : Tx unit :=
  existing ← wrapped "read RFC 9421 observation" (selectObservation actor);
  current ← match existing with
            | Some row => mret row
            | None =>
                insertEmptyObservation actor verifiedUnix ;;
                selectInsertedObservation "read inserted RFC 9421 observation" actor
            end;
  check (null_or (λ v, v <=? verifiedUnix) (rfc9421_verified current)) ErrObservationTime ;;
  wrapped "write RFC 9421 observation"
    (exec (update_observation actor
             (verify_row verifiedUnix (maxInt64 (observation_updated current) verifiedUnix)))) ;;
  mret tt.

(** [retainedObservationIdentity]: some lifecycle or discovery row exists. *)
Definition retainedObservationIdentity (actor : string) : Tx bool := query (retained_identity actor).

Section Intents.
Context `{RelayIdentity}.

Record RegisterIntent := { register_actor : string; register_base : string }.
Record ModerationIntent := {
  moderation_intent_actor : string; moderation_intent_moderator : string;
  moderation_intent_reason : string }.

(** [validateRegisterIntent(intent) == nil] *)
Definition validateRegisterIntent (intent : RegisterIntent) : bool :=
  negb ((len (register_actor intent) =? 0) ||
        (maximumRelayActorBytes <? len (register_actor intent)) ||
        (len (register_base intent) =? 0) ||
        (maximumPublicBaseBytes <? len (register_base intent))) &&
  canonical_identity (register_actor intent) (register_base intent).

(** [validateIdentityIntent(intent) == nil] *)
Definition validateIdentityIntent (relayActor : string) : bool :=
  negb ((len relayActor =? 0) || (maximumRelayActorBytes <? len relayActor)) &&
  canonical_actor relayActor.

(** [validateModerationIntent(intent) == nil] *)
Definition validateModerationIntent (intent : ModerationIntent) : bool :=
  validateIdentityIntent (moderation_intent_actor intent) &&
  ValidOperatorID (moderation_intent_moderator intent) &&
  ValidModerationReasonCode (moderation_intent_reason intent).
End Intents.

Lemma maxInt64_max a b : maxInt64 a b = Z.max a b.
Proof. unfold maxInt64. destruct (Z.ltb_spec b a); lia. Qed.

(** ** The shared steps are bodies of a transaction *)

Lemma body_check ok e : TxBody (check ok e).
Proof. unfold check. tx_calls. Qed.
Lemma body_selectRelay actor : TxBody (selectRelay actor).
Proof. apply body_query. Qed.
Lemma body_selectObservation actor : TxBody (selectObservation actor).
Proof. apply body_query. Qed.
#[export] Hint Resolve body_check body_selectRelay body_selectObservation : tx_body.
Lemma body_requireMonotonicTime actor t relay : TxBody (requireMonotonicTime actor t relay).
Proof. unfold requireMonotonicTime. tx_calls. Qed.
Lemma body_insertRelayEvent actor kind t : TxBody (insertRelayEvent actor kind t).
Proof. apply body_wrapped, body_exec. Qed.
Lemma body_insertEmptyObservation actor t : TxBody (insertEmptyObservation actor t).
Proof. unfold insertEmptyObservation. tx_calls. Qed.
Lemma body_selectInsertedObservation action actor : TxBody (selectInsertedObservation action actor).
Proof. unfold selectInsertedObservation. tx_calls. Qed.
Lemma body_retainedObservationIdentity actor : TxBody (retainedObservationIdentity actor).
Proof. apply body_query. Qed.
#[export] Hint Resolve body_requireMonotonicTime body_insertRelayEvent body_insertEmptyObservation
  body_selectInsertedObservation body_retainedObservationIdentity : tx_body.
Lemma body_recordRFC9421VerifiedTx actor t : TxBody (recordRFC9421VerifiedTx actor t).
Proof. unfold recordRFC9421VerifiedTx. tx_calls. Qed.
#[export] Hint Resolve body_recordRFC9421VerifiedTx : tx_body.

(** ** Bounded reads

    A read runs its query outside a write transaction; each row is scanned and
    validated in turn, one row past the limit tells that a further page exists. *)

Definition tx_lift {A} (r : result error A) : Tx A :=
  match r with Ok a => mret a | Err e => tx_fail e end.

Definition run_read {A} (c : call) (body : Tx A) (d : db) : result error A :=
  if negb (configured c) then Err ErrRepositoryConfiguration
  else fst (body (TX d d (outcomes c))).

(** [for rows.Next() { Scan; validate; if len(page) == limit { Next = ...; break };
    append }; rows.Err()]: the candidates and whether a further row was read. *)
Fixpoint scan_rows {R C} (decodeAction iterateAction : string) (decode : R → result error C)
    (limit : nat) (acc : list C) (rows : list R) : Tx (list C * bool) :=
  match rows with
  | [] => wrapped iterateAction driver ;; mret (acc, false)
  | row :: rest =>
      wrapped decodeAction driver ;;
      candidate ← tx_lift (decode row);
      if (length acc =? limit)%nat then wrapped iterateAction driver ;; mret (acc, true)
      else scan_rows decodeAction iterateAction decode limit (acc ++ [candidate]) rest
  end.

Lemma scan_rows_free {R C} decodeAction iterateAction (decode : R → result error C) (f : R → C)
    limit acc rows d w :
  (∀ r, In r rows → decode r = Ok (f r)) → (length acc <= limit)%nat →
  scan_rows decodeAction iterateAction decode limit acc rows (TX d w []) =
  (Ok (acc ++ map f (take (limit - length acc) rows), (limit - length acc <? length rows)%nat),
   TX d w []).
Proof.
  revert acc. induction rows as [|r rows IH]; intros acc Hdec Hlen; simpl.
  - rewrite take_nil, app_nil_r. by destruct (limit - length acc)%nat.
  - unfold mbind, tx_bind, wrapped; simpl. rewrite (Hdec r (or_introl eq_refl)); simpl.
    destruct (Nat.eqb_spec (length acc) limit) as [He|He]; simpl.
    + rewrite He, Nat.sub_diag. simpl. by rewrite app_nil_r.
    + rewrite IH; [|intros; apply Hdec; by right|rewrite length_app; simpl; lia].
      rewrite length_app; simpl. replace (limit - length acc)%nat with (S (limit - (length acc + 1)))%nat by lia.
      simpl. by rewrite <- app_assoc.
Qed.

(** Whatever the driver does, a page is at most [limit] decoded rows. *)
Lemma scan_rows_ok {R C} decodeAction iterateAction (decode : R → result error C)
    limit acc rows st page more st' :
  (length acc <= limit)%nat →
  scan_rows decodeAction iterateAction decode limit acc rows st = (Ok (page, more), st') →
  (length page <= limit)%nat ∧
  ∃ kept, page = acc ++ kept ∧ Forall2 (λ r c, decode r = Ok c) (take (length kept) rows) kept ∧
          (more = false → length kept = length rows) ∧ (more = true → length page = limit).
Proof.
  revert acc st. induction rows as [|r rows IH]; intros acc st Hlen; simpl.
  - unfold mbind, tx_bind, wrapped. destruct (driver st) as [[[]|] ?]; simpl; [|done].
    intros [= <- <- <-]. split; [done|]. exists []. rewrite app_nil_r. by repeat constructor.
  - unfold mbind at 1, tx_bind at 1, wrapped at 1. destruct (driver st) as [[[]|] st1]; simpl; [|done].
    unfold mbind at 1, tx_bind at 1. destruct (decode r) as [c|] eqn:Hc; simpl; [|done].
    destruct (Nat.eqb_spec (length acc) limit) as [He|He].
    + unfold mbind, tx_bind, wrapped. destruct (driver st1) as [[[]|] ?]; simpl; [|done].
      intros [= <- <- <-]. split; [done|]. exists []. rewrite app_nil_r. by repeat constructor.
    + intros Hscan. apply IH in Hscan as (Hp & kept & -> & Hf & Hm1 & Hm2);
        [|rewrite length_app; simpl; lia].
      split; [done|]. exists (c :: kept). rewrite <- app_assoc. simpl. split; [done|].
      split; [by constructor|]. split; [intros; f_equal; auto|].
      rewrite <- app_assoc in Hm2. done.
Qed.
