(* ===== verification/Paging.v ===== *)
(** * Paging: bounded keyset reads and the readers that follow them

    What every listing of the repository shares: the query returns the rows
    strictly after a position, one more than the limit, the loop decodes and
    validates each row ([scan_rows] of [Repository]), and the continuation is the
    position of the last row kept.  A client's theorems need only that its rows
    decode and that its cursors name the keys of rows. *)
From S2P Require Import Prelude Vocabulary Store Repository.
Local Open Scope string_scope.
Local Open Scope Z_scope.
Local Open Scope go_scope.
Local Open Scope list_scope.

Lemma in_take {A} (x : A) n l : In x (take n l) → In x l.
Proof. intros Hx. rewrite <- (take_drop n l). apply in_or_app. by left. Qed.

Lemma list_last_map {A B} (f : A → B) l : list.last (map f l) = f <$> list.last l.
Proof. apply fmap_last. Qed.

Definition is_present {A} (o : option A) : bool := match o with Some _ => true | None => false end.

(** A reader that follows the continuation of each page to the end. *)
Fixpoint read_all {C Cur} (read : Cur → result error (list C * option Cur)) (fuel : nat) (cursor : Cur)
    : result error (list C) :=
  match fuel with
  | O => Ok []
  | S fuel =>
      match read cursor with
      | Err e => Err e
      | Ok (page, None) => Ok page
      | Ok (page, Some next) =>
          match read_all read fuel next with
          | Ok rest => Ok (page ++ rest)
          | Err e => Err e
          end
      end
  end.

Section Paging.
Context {R C K Cur : Type} `{KeyOrder K} (key : R → K).

(** [WHERE key > after ORDER BY key LIMIT limit+1] *)
Definition keyset_rows (after : K) (limit : nat) (rows : list R) : list R :=
  take (S limit) (rows_after key after (order_by key rows)).

(** The loop over such rows keeps exactly one keyset page. *)
Lemma scan_keyset decodeAction iterateAction (decode : R → result error C) (f : R → C) after limit rows d w :
  (0 < limit)%nat → (∀ r, In r rows → decode r = Ok (f r)) →
  scan_rows decodeAction iterateAction decode limit [] (keyset_rows after limit rows) (TX d w []) =
  (Ok (map f (keyset_page key after limit rows).1, is_present (keyset_page key after limit rows).2), TX d w []).
Proof.
  intros Hlim Hdec. unfold keyset_rows. rewrite (scan_rows_free _ _ _ f).
  2:{ intros r Hr%in_take. apply filter_In in Hr as [Hr _]. by apply order_by_in in Hr; apply Hdec. }
  2:{ simpl. lia. }
  simpl. rewrite Nat.sub_0_r. unfold keyset_page.
  set (fetched := take (S limit) _).
  destruct (Nat.ltb_spec limit (length fetched)) as [Hlt|]; simpl; [|done].
  destruct (list.last (take limit fetched)) eqn:Hlast; [done|].
  apply last_None, (f_equal length) in Hlast. rewrite length_take in Hlast. simpl in Hlast. lia.
Qed.

(** A read that returns keyset pages, with cursors that name the keys of rows,
    followed to the end: every row after the start, once and in order. *)
Lemma read_all_rows (f : R → C) (cursor : R → Cur) (position : Cur → K) (accepted : Cur → Prop)
    (read : Cur → result error (list C * option Cur)) limit rows fuel start :
  (0 < limit)%nat → NoDup (key <$> rows) →
  (∀ r, In r rows → accepted (cursor r) ∧ position (cursor r) = key r) →
  (∀ cur, accepted cur → read cur =
     let page := keyset_page key (position cur) limit rows in
     Ok (map f page.1, if is_present page.2 then cursor <$> list.last page.1 else None)) →
  accepted start →
  (length (rows_after key (position start) (order_by key rows)) < fuel)%nat →
  read_all read fuel start = Ok (map f (rows_after key (position start) (order_by key rows))).
Proof.
  intros Hlim Hnd Hcur Hread. revert start. induction fuel as [|fuel IH]; intros start Hstart Hfuel; [lia|].
  simpl. rewrite Hread by done. cbv zeta.
  pose proof (keyset_page_next key (position start) limit rows Hlim) as Hnext.
  pose proof (keyset_page_in key (position start) limit rows) as Hin.
  destruct (keyset_page key (position start) limit rows) as [kept [k|]]; simpl in *; [|by rewrite Hnext].
  destruct Hnext as (kept' & x & rest & -> & -> & _ & Heq). rewrite last_snoc. simpl.
  destruct (Hin x) as [Hx _]; [apply in_or_app; right; by left|]. destruct (Hcur x Hx) as [Hok Hpos].
  pose proof (rows_after_continue key _ _ _ _ _ (order_by_sorted key rows Hnd) Heq) as Hcont.
  rewrite IH, Hpos, Hcont; [by rewrite Heq, !map_app|done|].
  rewrite Hpos, Hcont. rewrite Heq, !length_app in Hfuel. simpl in Hfuel. lia.
Qed.
End Paging.

(** ** Unions of sorted sources *)

(** Reading the first rows of two sorted sources and ordering the union gives the
    first rows of the union. *)
Section SortedUnion.
Context {A K : Type} `{KeyOrder K} (key : A → K).

Lemma sorted_before (l : list A) n x y : strictly_sorted key l → In x (take n l) → In y l → ¬ In y (take n l) →
  key_ltb (key x) (key y) = true.
Proof.
  intros Hs Hx Hy Hn. rewrite <- (take_drop n l) in Hs, Hy. apply in_app_or in Hy as [Hy|Hy]; [done|].
  apply StronglySorted_app_parts in Hs as (_&_&Hs). by apply Hs.
Qed.
Lemma sorted_rank (l l' : list A) n x : strictly_sorted key l → In x (take n l) → NoDup l' →
  (∀ y, In y l' → In y l ∧ key_ltb (key y) (key x) = true) → (length l' < n)%nat.
Proof.
  intros Hs Hx Hnd Hl'. apply in_split in Hx as (p&q&Hpq). assert (Hlen : (length p < n)%nat).
  { apply (f_equal length) in Hpq. rewrite length_take, length_app in Hpq. simpl in Hpq. lia. }
  apply Nat.le_lt_trans with (length p); [|done]. apply NoDup_incl_length; [by apply NoDup_ListNoDup|].
  rewrite <- (take_drop n l), Hpq, <- app_assoc in Hs. intros y Hy. destruct (Hl' y Hy) as [Hin Hlt].
  rewrite <- (take_drop n l), Hpq, <- app_assoc in Hin. apply in_app_or in Hin as [Hin|Hin]; [done|].
  apply StronglySorted_app_parts in Hs as (_&Hs&_). destruct Hin as [<-|Hin]; [by rewrite key_ltb_irrefl in Hlt|].
  inversion Hs as [|? ? _ Hf]; subst. rewrite List.Forall_forall in Hf. by rewrite (key_ltb_asym _ _ (Hf y Hin)) in Hlt.
Qed.
Lemma take_filter (f : A → bool) n l : (∀ x, In x (take n l) → f x = true) → take n (List.filter f l) = take n l.
Proof.
  revert l. induction n as [|n IH]; intros [|x l] Hf; [done..|]. cbn [List.filter]. rewrite Hf by by left. simpl. f_equal.
  apply IH. intros y Hy. apply Hf. by right.
Qed.
Lemma strictly_sorted_take (l : list A) n : strictly_sorted key l → strictly_sorted key (take n l).
Proof. intros Hs. rewrite <- (take_drop n l) in Hs. by apply StronglySorted_app_parts in Hs as (?&_&_). Qed.
Lemma strictly_sorted_filter (f : A → bool) l : strictly_sorted key l → strictly_sorted key (List.filter f l).
Proof. apply StronglySorted_filter. Qed.
Lemma key_inj (rows : list A) x y : NoDup (key <$> rows) → In x rows → In y rows → key x = key y → x = y.
Proof.
  induction rows as [|r rows IH]; [done|]. intros Hnd Hx Hy Heq. apply list.NoDup_cons in Hnd as [Hr Hnd].
  assert (Hout : ∀ z, In z rows → key z ≠ key r).
  { intros z Hz He. apply Hr. rewrite <- He. by apply list_elem_of_fmap_2, list_elem_of_In. }
  destruct Hx as [->|Hx], Hy as [->|Hy]; [done| | |by apply IH].
  - by destruct (Hout y Hy).
  - by destruct (Hout x Hx).
Qed.

Definition has_key (x : A) (l : list A) : bool :=
  existsb (λ y, negb (key_ltb (key x) (key y)) && negb (key_ltb (key y) (key x))) l.
Lemma has_key_in rows l x : NoDup (key <$> rows) → (∀ y, In y l → In y rows) → In x rows → has_key x l = true ↔ In x l.
Proof.
  intros Hnd Hsub Hx. unfold has_key. rewrite existsb_exists. split; [|intros Hy; exists x; by rewrite key_ltb_irrefl].
  intros (y&Hy&[Hxy Hyx]%andb_true_iff). replace x with y; [done|]. apply (key_inj rows); [done|by apply Hsub|done|].
  apply key_ltb_total; by apply negb_true_iff.
Qed.

(** What is among the first of the union is among the first of its own source. *)
Lemma take_source n (l l' rows : list A) x : NoDup (key <$> rows) → (∀ y, In y l → In y rows) →
  strictly_sorted key l → strictly_sorted key l' → (∀ y, In y l' → In y l) → In x (take n l) → In x l' → In x (take n l').
Proof.
  intros Hnd Hl Hs Hs' Hsub Hx Hx'. destruct (has_key x (take n l')) eqn:E.
  - apply (has_key_in rows) in E; [done|done|intros y Hy%in_take; auto|auto].
  - assert (Hni : ¬ In x (take n l')).
    { intros Hy. apply (has_key_in rows (take n l')) in Hy; [congruence|done|intros y Hy'%in_take; auto|auto]. }
    destruct Hni. assert (Hlen : (length (take n l') < n)%nat); [|rewrite length_take in Hlen; by rewrite take_ge by lia].
    apply (sorted_rank l _ n x Hs Hx); [by apply (strictly_sorted_NoDup key), strictly_sorted_take|].
    intros y Hy. split; [by eapply Hsub, in_take|]. apply (sorted_before l' n); try done. intros Hin.
    apply (has_key_in rows (take n l')) in Hin; [congruence|done|intros z Hz%in_take; auto|auto].
Qed.
Lemma strictly_sorted_keys (l : list A) : strictly_sorted key l → NoDup (key <$> l).
Proof.
  unfold strictly_sorted. induction 1 as [|x l Hs IH Hf]; simpl; constructor; [|done].
  intros (y&Hk&Hy)%list_elem_of_fmap. rewrite List.Forall_forall in Hf. rewrite list_elem_of_In in Hy. specialize (Hf y Hy).
  rewrite Hk in Hf. by rewrite key_ltb_irrefl in Hf.
Qed.
Lemma take_union n (l l1 l2 : list A) : l1 ++ l2 ≡ₚ l → strictly_sorted key l → strictly_sorted key l1 → strictly_sorted key l2 →
  take n (order_by key (take n l1 ++ take n l2)) = take n l.
Proof.
  intros Hp Hs Hs1 Hs2. assert (Hnd : NoDup (key <$> l1 ++ l2)) by (rewrite Hp; by apply strictly_sorted_keys).
  assert (Hin : ∀ x, In x l ↔ In x l1 ∨ In x l2).
  { intros x. rewrite <- in_app_iff. split; apply Permutation_in; [by symmetry|done]. }
  set (first := take n l1 ++ take n l2).
  assert (Hsub : ∀ x, In x first → In x (l1 ++ l2)).
  { intros x [Hx%in_take|Hx%in_take]%in_app_or; apply in_or_app; auto. }
  assert (Hall : ∀ x, In x l → In x (l1 ++ l2)) by (intros x Hx; by apply in_or_app, Hin).
  assert (Horder : order_by key first = List.filter (λ x, has_key x first) l).
  { apply (strictly_sorted_same key); [|by apply strictly_sorted_filter|].
    - apply order_by_sorted. unfold first. rewrite fmap_app, !fmap_take. rewrite fmap_app in Hnd.
      apply list.NoDup_app in Hnd as (Hn1&Hn12&Hn2). apply list.NoDup_app.
      split_and!; [by eapply sublist_NoDup, sublist_take| |by eapply sublist_NoDup, sublist_take].
      intros k Hk1 Hk2. apply (Hn12 k); rewrite list_elem_of_In in *; by eapply in_take.
    - intros x. rewrite order_by_in, filter_In. split.
      + intros Hx. split; [by apply Hin, in_app_or, Hsub|by apply (has_key_in (l1 ++ l2)); auto].
      + intros [Hx Hk]. apply (has_key_in (l1 ++ l2)) in Hk; auto. }
  rewrite Horder. apply take_filter. intros x Hx. apply (has_key_in (l1 ++ l2)); [done|done|by eapply Hall, in_take|].
  apply in_or_app. apply in_take in Hx as Hxl. apply Hin in Hxl as [Hx1|Hx2]; [left|right];
    eapply (take_source n l _ (l1 ++ l2)); try done; intros y Hy; apply Hin; auto.
Qed.
End SortedUnion.
