(* ===== verification/Lifecycle.v ===== *)
(** * Lifecycle: register, heartbeat, unregister, moderation and enrollment

    The state-changing methods of [internal/storage/sqlite/relay.go],
    [moderation.go] and [enrollment.go], statement by statement, over the
    database and transactions of [Store]. *)
From S2P Require Import Prelude Identity Vocabulary Store Repository.
Local Open Scope string_scope.
Local Open Scope Z_scope.
Local Open Scope go_scope.
Local Open Scope list_scope.

(** ** Column updates *)

Definition new_relay (base : string) (t : Z) : relay_row := {|
  public_base_url := base; lifecycle_state := lifecycleRegistered;
  administrative_state := administrativeActive; first_registered_at_unix := t;
  updated_at_unix := t; last_seen_at_unix := t; last_heartbeat_at_unix := Some t;
  unregistered_at_unix := None; pruned_at_unix := None; suspended_at_unix := None |}.

(** [SET updated_at_unix = ?, last_seen_at_unix = ?, last_heartbeat_at_unix = ?] *)
Definition refresh_relay (t : Z) (r : relay_row) : relay_row := {|
  public_base_url := public_base_url r; lifecycle_state := lifecycle_state r;
  administrative_state := administrative_state r;
  first_registered_at_unix := first_registered_at_unix r;
  updated_at_unix := t; last_seen_at_unix := t; last_heartbeat_at_unix := Some t;
  unregistered_at_unix := unregistered_at_unix r; pruned_at_unix := pruned_at_unix r;
  suspended_at_unix := suspended_at_unix r |}.

Definition reregister_relay (base : string) (t : Z) (r : relay_row) : relay_row := {|
  public_base_url := base; lifecycle_state := lifecycleRegistered;
  administrative_state := administrative_state r;
  first_registered_at_unix := first_registered_at_unix r;
  updated_at_unix := t; last_seen_at_unix := t; last_heartbeat_at_unix := Some t;
  unregistered_at_unix := None; pruned_at_unix := None;
  suspended_at_unix := suspended_at_unix r |}.

Definition unregister_relay (t : Z) (r : relay_row) : relay_row := {|
  public_base_url := public_base_url r; lifecycle_state := lifecycleUnregistered;
  administrative_state := administrative_state r;
  first_registered_at_unix := first_registered_at_unix r;
  updated_at_unix := t; last_seen_at_unix := last_seen_at_unix r;
  last_heartbeat_at_unix := last_heartbeat_at_unix r;
  unregistered_at_unix := Some t; pruned_at_unix := pruned_at_unix r;
  suspended_at_unix := suspended_at_unix r |}.

Definition moderate_relay (state : string) (suspendedAt : option Z) (t : Z) (r : relay_row) : relay_row := {|
  public_base_url := public_base_url r; lifecycle_state := lifecycle_state r;
  administrative_state := state;
  first_registered_at_unix := first_registered_at_unix r;
  updated_at_unix := t; last_seen_at_unix := last_seen_at_unix r;
  last_heartbeat_at_unix := last_heartbeat_at_unix r;
  unregistered_at_unix := unregistered_at_unix r; pruned_at_unix := pruned_at_unix r;
  suspended_at_unix := suspendedAt |}.

(** [selectEnrollmentOpen(ctx, transaction)] *)
Definition selectEnrollmentOpen : Tx bool :=
  row ← query policy;
  match row with
  | None => tx_fail ErrBackend
  | Some p =>
      check ((enrollment_open p =? 0) || (enrollment_open p =? 1)) (storageFailure "" ErrInvalidState) ;;
      mret (enrollment_open p =? 1)
  end.

Definition any_row (r : relay_row) : bool := true.

(** ** relay.go *)

Section Operations.
Context `{RelayIdentity}.

(** The registration statement and its outcome and event kind. *)
Definition write_registration (intent : RegisterIntent) (acceptedUnix : Z)
    (relay : option relayRecord) : Tx (string * string) :=
  match relay with
  | None =>
      wrapped "write relay"
        (exec (insert_relay (register_actor intent) (new_relay (register_base intent) acceptedUnix))) ;;
      mret (OutcomeCreated, eventRegisterCreated)
  | Some r =>
      if (lifecycleState r ≟ lifecycleRegistered) && (publicBaseURL r ≟ register_base intent) then
        wrapped "write relay"
          (exec (update_relay (register_actor intent) any_row (refresh_relay acceptedUnix))) ;;
        mret (OutcomeUnchanged, eventRegisterUnchanged)
      else if (lifecycleState r ≟ lifecycleUnregistered) || (lifecycleState r ≟ lifecyclePruned) then
        wrapped "write relay"
          (exec (update_relay (register_actor intent) any_row
                   (reregister_relay (register_base intent) acceptedUnix))) ;;
        mret (OutcomeUpdated, eventRegisterUpdated)
      else tx_fail (storageFailure "classify registration" ErrInvalidState)
  end.

Definition Register_tx (intent : RegisterIntent) (acceptedUnix : Z) : Tx string :=
  relay ← wrapped "read relay" (selectRelay (register_actor intent));
  match relay with
  | Some r => check (negb (administrativeState r ≟ administrativeSuspended)) ErrRelaySuspended
  | None =>
      enrollmentOpen ← wrapped "read enrollment policy" selectEnrollmentOpen;
      check enrollmentOpen ErrEnrollmentClosed
  end ;;
  requireMonotonicTime (register_actor intent) acceptedUnix relay ;;
  '(outcome, eventKind) ← write_registration intent acceptedUnix relay;
  recordRFC9421VerifiedTx (register_actor intent) acceptedUnix ;;
  insertRelayEvent (register_actor intent) eventKind acceptedUnix ;;
  wrapped "commit register" commit ;;
  mret outcome.

Definition Register (c : call) (intent : RegisterIntent) (acceptedAt : Z) (d : db)
    : result error string * db :=
  if negb (validateRegisterIntent intent) then (Err ErrTransitionInput, d)
  else
    match transitionUnix acceptedAt with
    | Err e => (Err e, d)
    | Ok acceptedUnix => in_transaction c (Register_tx intent acceptedUnix) d
    end.

Definition Heartbeat_tx (relayActor : string) (acceptedUnix : Z) : Tx string :=
  relay ← wrapped "read relay" (selectRelay relayActor);
  match relay with
  | None => tx_fail ErrRelayAbsent
  | Some r =>
      check (lifecycleState r ≟ lifecycleRegistered) ErrRelayAbsent ;;
      check (negb (administrativeState r ≟ administrativeSuspended)) ErrRelaySuspended ;;
      requireMonotonicTime relayActor acceptedUnix relay ;;
      wrapped "write heartbeat" (exec (update_relay relayActor any_row (refresh_relay acceptedUnix))) ;;
      recordRFC9421VerifiedTx relayActor acceptedUnix ;;
      insertRelayEvent relayActor eventHeartbeatRecorded acceptedUnix ;;
      wrapped "commit heartbeat" commit ;;
      mret OutcomeRecorded
  end.

Definition Heartbeat (c : call) (relayActor : string) (acceptedAt : Z) (d : db)
    : result error string * db :=
  if negb (validateIdentityIntent relayActor) then (Err ErrTransitionInput, d)
  else
    match transitionUnix acceptedAt with
    | Err e => (Err e, d)
    | Ok acceptedUnix => in_transaction c (Heartbeat_tx relayActor acceptedUnix) d
    end.

Definition Unregister_tx (relayActor : string) (acceptedUnix : Z) : Tx string :=
  relay ← wrapped "read relay" (selectRelay relayActor);
  requireMonotonicTime relayActor acceptedUnix relay ;;
  '(outcome, eventKind) ←
    (if match relay with Some r => lifecycleState r ≟ lifecycleRegistered | None => false end then
       wrapped "write unregister"
         (exec (update_relay relayActor any_row (unregister_relay acceptedUnix))) ;;
       mret (OutcomeRemoved, eventUnregisterRemoved)
     else mret (OutcomeAbsent, eventUnregisterAbsent));
  retained ← wrapped "read RFC 9421 observation identity" (retainedObservationIdentity relayActor);
  (if (retained : bool) then recordRFC9421VerifiedTx relayActor acceptedUnix else mret tt) ;;
  insertRelayEvent relayActor eventKind acceptedUnix ;;
  wrapped "commit unregister" commit ;;
  mret outcome.

Definition Unregister (c : call) (relayActor : string) (acceptedAt : Z) (d : db)
    : result error string * db :=
  if negb (validateIdentityIntent relayActor) then (Err ErrTransitionInput, d)
  else
    match transitionUnix acceptedAt with
    | Err e => (Err e, d)
    | Ok acceptedUnix => in_transaction c (Unregister_tx relayActor acceptedUnix) d
    end.

(** ** moderation.go *)

Definition classifyModeration (currentState targetState : string)
    : result error (string * string * bool) :=
  if (currentState ≟ administrativeActive) && (targetState ≟ administrativeSuspended) then
    Ok (ModerationSuspended, moderationSuspendApplied, true)
  else if (currentState ≟ administrativeSuspended) && (targetState ≟ administrativeSuspended) then
    Ok (ModerationAlreadySuspended, moderationSuspendUnchanged, false)
  else if (currentState ≟ administrativeSuspended) && (targetState ≟ administrativeActive) then
    Ok (ModerationRestored, moderationRestoreApplied, true)
  else if (currentState ≟ administrativeActive) && (targetState ≟ administrativeActive) then
    Ok (ModerationAlreadyActive, moderationRestoreUnchanged, false)
  else Err (storageFailure "classify relay moderation" ErrInvalidState).

Definition insertModerationEvent (intent : ModerationIntent) (action : string) (recordedUnix : Z)
    : Tx unit :=
  wrapped "write moderation event"
    (exec (insert_moderation_event (moderation_intent_actor intent) action
             (moderation_intent_moderator intent) (moderation_intent_reason intent) recordedUnix)).

Definition moderate_tx (intent : ModerationIntent) (acceptedUnix : Z) (targetState : string)
    : Tx string :=
  relay ← wrapped "read relay for moderation" (selectRelay (moderation_intent_actor intent));
  match relay with
  | None => tx_fail ErrRelayAbsent
  | Some r =>
      requireMonotonicTime (moderation_intent_actor intent) acceptedUnix relay ;;
      match classifyModeration (administrativeState r) targetState with
      | Err e => tx_fail e
      | Ok (outcome, action, changed) =>
          (if changed then
             wrapped "write relay moderation"
               (exec (update_relay (moderation_intent_actor intent) any_row
                        (moderate_relay targetState
                           (if targetState ≟ administrativeSuspended then Some acceptedUnix else None)
                           acceptedUnix))) ;;
             mret tt
           else mret tt) ;;
          insertModerationEvent intent action acceptedUnix ;;
          wrapped "commit relay moderation" commit ;;
          mret outcome
      end
  end.

Definition moderate (c : call) (intent : ModerationIntent) (acceptedAt : Z) (targetState : string)
    (d : db) : result error string * db :=
  if negb (validateModerationIntent intent) then (Err ErrTransitionInput, d)
  else
    match transitionUnix acceptedAt with
    | Err e => (Err e, d)
    | Ok acceptedUnix => in_transaction c (moderate_tx intent acceptedUnix targetState) d
    end.

Definition Suspend (c : call) (intent : ModerationIntent) (acceptedAt : Z) (d : db) :=
  moderate c intent acceptedAt administrativeSuspended d.
Definition Restore (c : call) (intent : ModerationIntent) (acceptedAt : Z) (d : db) :=
  moderate c intent acceptedAt administrativeActive d.
End Operations.

(** ** enrollment.go *)

Definition boolInteger (value : bool) : Z := if value then 1 else 0.

Definition classifyEnrollment (current target : bool) : string * string :=
  match current, target with
  | false, true => (EnrollmentOpened, enrollmentOpened)
  | true, true => (EnrollmentAlreadyOpen, enrollmentOpenUnchanged)
  | true, false => (EnrollmentClosed, enrollmentClosed)
  | false, false => (EnrollmentAlreadyClosed, enrollmentClosedUnchanged)
  end.

Definition requireEnrollmentTime (acceptedUnix : Z) : Tx unit :=
  row ← wrapped "read enrollment policy time" (query policy);
  match row with
  | None => tx_fail (storageFailure "read enrollment policy time" ErrBackend)
  | Some p =>
      latestEvent ← wrapped "read enrollment event time" (query latest_enrollment_event);
      check (negb (acceptedUnix <? latest_of (policy_updated p) latestEvent)) ErrTransitionTime
  end.

Definition SetEnrollment_tx (open : bool) (operatorID : string) (acceptedUnix : Z) : Tx string :=
  current ← wrapped "read enrollment policy" selectEnrollmentOpen;
  requireEnrollmentTime acceptedUnix ;;
  let '(outcome, action) := classifyEnrollment current open in
  (if negb (Bool.eqb current open) then
     wrapped "write enrollment policy"
       (exec (update_policy (λ _, PolicyRow (boolInteger open) acceptedUnix))) ;;
     mret tt
   else mret tt) ;;
  wrapped "write enrollment event" (exec (insert_enrollment_event action operatorID acceptedUnix)) ;;
  wrapped "commit enrollment policy" commit ;;
  mret outcome.

Definition SetEnrollment (c : call) (open : bool) (operatorID : string) (acceptedAt : Z) (d : db)
    : result error string * db :=
  if negb (ValidOperatorID operatorID) then (Err ErrTransitionInput, d)
  else
    match transitionUnix acceptedAt with
    | Err e => (Err e, d)
    | Ok acceptedUnix => in_transaction c (SetEnrollment_tx open operatorID acceptedUnix) d
    end.

(** ** Every operation settles *)

Section Settles.
Context `{RelayIdentity}.

Lemma body_selectEnrollmentOpen : TxBody selectEnrollmentOpen.
Proof. unfold selectEnrollmentOpen. tx_calls. Qed.
Hint Resolve body_selectEnrollmentOpen : tx_body.
Lemma body_write_registration intent t relay : TxBody (write_registration intent t relay).
Proof. unfold write_registration. tx_calls. Qed.
Hint Resolve body_write_registration : tx_body.
Lemma body_insertModerationEvent intent action t : TxBody (insertModerationEvent intent action t).
Proof. apply body_wrapped, body_exec. Qed.
Hint Resolve body_insertModerationEvent : tx_body.
Lemma body_requireEnrollmentTime t : TxBody (requireEnrollmentTime t).
Proof. unfold requireEnrollmentTime. tx_calls. Qed.
Hint Resolve body_requireEnrollmentTime : tx_body.

Lemma final_Register intent t : TxFinal (Register_tx intent t).
Proof. unfold Register_tx. tx_calls. Qed.
Lemma final_Heartbeat actor t : TxFinal (Heartbeat_tx actor t).
Proof. unfold Heartbeat_tx. tx_calls. Qed.
Lemma final_Unregister actor t : TxFinal (Unregister_tx actor t).
Proof. unfold Unregister_tx. tx_calls. Qed.
Lemma final_moderate intent t target : TxFinal (moderate_tx intent t target).
Proof. unfold moderate_tx. tx_calls. Qed.
Lemma final_SetEnrollment open operator t : TxFinal (SetEnrollment_tx open operator t).
Proof. unfold SetEnrollment_tx. tx_calls. Qed.

Lemma settles_Register intent t : settles (λ c d, Register c intent t d).
Proof. unfold Register. settle. apply final_Register. Qed.
Lemma settles_Heartbeat actor t : settles (λ c d, Heartbeat c actor t d).
Proof. unfold Heartbeat. settle. apply final_Heartbeat. Qed.
Lemma settles_Unregister actor t : settles (λ c d, Unregister c actor t d).
Proof. unfold Unregister. settle. apply final_Unregister. Qed.
Lemma settles_moderate intent t target : settles (λ c d, moderate c intent t target d).
Proof. unfold moderate. settle. apply final_moderate. Qed.
Lemma settles_SetEnrollment open operator t : settles (λ c d, SetEnrollment c open operator t d).
Proof. unfold SetEnrollment. settle. apply final_SetEnrollment. Qed.
End Settles.
