(* ===== verification/Discovery.v ===== *)
(** * Discovery: operator discovery and relay observations

    [internal/storage/sqlite/discovery.go]: adding and removing operator
    discoveries, and recording actor and inbox observations. *)
From S2P Require Import Prelude Identity Vocabulary Store Repository.
Local Open Scope string_scope.
Local Open Scope Z_scope.
Local Open Scope go_scope.
Local Open Scope list_scope.

(** ** Column updates *)

Definition new_discovery (base : string) (t : Z) : discovery_row := {|
  discovery_base := base; discovery_state := discoveryActive; first_discovered := t;
  discovery_updated := t; discovery_removed_at := None |}.

Definition readd_discovery (base : string) (t : Z) (r : discovery_row) : discovery_row := {|
  discovery_base := base; discovery_state := discoveryActive;
  first_discovered := first_discovered r; discovery_updated := t; discovery_removed_at := None |}.

Definition remove_discovery (t : Z) (r : discovery_row) : discovery_row := {|
  discovery_base := discovery_base r; discovery_state := discoveryRemoved;
  first_discovered := first_discovered r; discovery_updated := t; discovery_removed_at := Some t |}.

Record discovery_audit := {
  audit_operator : string; audit_reason : string; audit_source_kind : string;
  audit_source_label : string }.

Definition insertDiscoveryEvent (actor action : string) (audit : discovery_audit) (recordedUnix : Z)
    : Tx unit :=
  wrapped "write discovery event"
    (exec (insert_discovery_event actor action (audit_operator audit) (audit_reason audit)
             (audit_source_kind audit)
             (if audit_source_label audit ≟ "" then None else Some (audit_source_label audit))
             recordedUnix)).

Definition requireDiscoveryTime (actor : string) (acceptedUnix : Z) (current : option discovery_row)
    : Tx unit :=
  latestEvent ← wrapped "read discovery event time" (query (latest_discovery_event actor));
  let latest := match current with Some r => discovery_updated r | None => -1 end in
  check (negb (acceptedUnix <? latest_of latest latestEvent)) ErrTransitionTime.

Definition selectDiscovery (actor : string) : Tx (option discovery_row) :=
  query (λ d, discoveries d !! actor).

(** [WHERE relay_actor = ?] of an UPDATE of [relay_observations]. *)
Definition reach_row (inbox : option string) (observedUnix updatedUnix : Z) (r : observation_row)
    : observation_row := {|
  actor_state := ReachabilityReachable; actor_last_checked := Some observedUnix;
  actor_last_success := Some observedUnix; inbox_url := inbox;
  inbox_declared := (λ _, observedUnix) <$> inbox;
  inbox_probe_state := InboxNotChecked; inbox_last_checked := None;
  rfc9421_verified := rfc9421_verified r; observation_updated := updatedUnix;
  revision := revision r + 1 |}.

Definition unreach_row (state : string) (observedUnix updatedUnix : Z) (r : observation_row)
    : observation_row := {|
  actor_state := state; actor_last_checked := Some observedUnix;
  actor_last_success := actor_last_success r; inbox_url := inbox_url r;
  inbox_declared := inbox_declared r; inbox_probe_state := inbox_probe_state r;
  inbox_last_checked := inbox_last_checked r; rfc9421_verified := rfc9421_verified r;
  observation_updated := updatedUnix; revision := revision r + 1 |}.

Definition inbox_row (state : string) (observedUnix updatedUnix : Z) (r : observation_row)
    : observation_row := {|
  actor_state := actor_state r; actor_last_checked := actor_last_checked r;
  actor_last_success := actor_last_success r; inbox_url := inbox_url r;
  inbox_declared := inbox_declared r; inbox_probe_state := state;
  inbox_last_checked := Some observedUnix; rfc9421_verified := rfc9421_verified r;
  observation_updated := updatedUnix; revision := revision r + 1 |}.

(** The observation row to update: the current one or a fresh empty one. *)
Definition currentOrEmptyObservation (action actor : string) (existing : option observation_row)
    (observedUnix : Z) : Tx observation_row :=
  match existing with
  | Some row => mret row
  | None =>
      insertEmptyObservation actor observedUnix ;;
      selectInsertedObservation action actor
  end.

Section Operations.
Context `{RelayIdentity}.

Record DiscoveryAddIntent := {
  add_actor : string; add_base : string; add_audit : discovery_audit }.
Record DiscoveryRemoveIntent := { remove_actor : string; remove_audit : discovery_audit }.
Record ActorObservationIntent := {
  actor_intent_actor : string; actor_intent_state : string; actor_intent_inbox : string }.
Record InboxObservationIntent := {
  inbox_intent_actor : string; inbox_intent_url : string; inbox_intent_state : string }.

Definition valid_audit (audit : discovery_audit) : bool :=
  ValidOperatorID (audit_operator audit) && ValidModerationReasonCode (audit_reason audit) &&
  DiscoverySourceKind_Valid (audit_source_kind audit) &&
  ValidDiscoverySourceLabel (audit_source_label audit).

Definition validateDiscoveryAddIntent (intent : DiscoveryAddIntent) : bool :=
  canonical_identity (add_actor intent) (add_base intent) && valid_audit (add_audit intent).

Definition validateDiscoveryRemoveIntent (intent : DiscoveryRemoveIntent) : bool :=
  validateIdentityIntent (remove_actor intent) && valid_audit (remove_audit intent).

Definition canonical_inbox (url : string) : bool :=
  canonical_actor url && negb (maximumRelayActorBytes <? len url).

Definition validateActorObservationIntent (intent : ActorObservationIntent) : bool :=
  validateIdentityIntent (actor_intent_actor intent) &&
  ((actor_intent_state intent ≟ ReachabilityReachable) ||
   (actor_intent_state intent ≟ ReachabilityUnreachable)) &&
  negb ((actor_intent_state intent ≟ ReachabilityUnreachable) && negb (actor_intent_inbox intent ≟ "")) &&
  ((actor_intent_inbox intent ≟ "") || canonical_inbox (actor_intent_inbox intent)).

Definition validateInboxObservationIntent (intent : InboxObservationIntent) : bool :=
  validateIdentityIntent (inbox_intent_actor intent) &&
  negb (inbox_intent_state intent ≟ InboxNotChecked) &&
  InboxProbeState_Valid (inbox_intent_state intent) &&
  negb (inbox_intent_url intent ≟ "") && canonical_inbox (inbox_intent_url intent).

(** The statement of [AddDiscovery] with its outcome and action. *)
Definition write_discovery (intent : DiscoveryAddIntent) (acceptedUnix : Z)
    (current : option discovery_row) : Tx (string * string) :=
  match current with
  | None =>
      wrapped "write discovery"
        (exec (insert_discovery (add_actor intent) (new_discovery (add_base intent) acceptedUnix))) ;;
      mret (DiscoveryAdded, discoveryAdded)
  | Some r =>
      if (discovery_state r ≟ discoveryActive) && (discovery_base r ≟ add_base intent) then
        mret (DiscoveryUnchanged, discoveryUnchanged)
      else if (discovery_state r ≟ discoveryActive) || (discovery_state r ≟ discoveryRemoved) then
        wrapped "write discovery"
          (exec (update_discovery (add_actor intent) (readd_discovery (add_base intent) acceptedUnix))) ;;
        mret (DiscoveryUpdated, discoveryUpdated)
      else tx_fail (storageFailure "classify discovery add" ErrInvalidState)
  end.

Definition AddDiscovery_tx (intent : DiscoveryAddIntent) (acceptedUnix : Z) : Tx string :=
  current ← wrapped "read discovery" (selectDiscovery (add_actor intent));
  requireDiscoveryTime (add_actor intent) acceptedUnix current ;;
  '(outcome, action) ← write_discovery intent acceptedUnix current;
  insertDiscoveryEvent (add_actor intent) action (add_audit intent) acceptedUnix ;;
  wrapped "commit discovery add" commit ;;
  mret outcome.

Definition AddDiscovery (c : call) (intent : DiscoveryAddIntent) (acceptedAt : Z) (d : db)
    : result error string * db :=
  if negb (validateDiscoveryAddIntent intent) then (Err ErrTransitionInput, d)
  else
    match transitionUnix acceptedAt with
    | Err e => (Err e, d)
    | Ok acceptedUnix => in_transaction c (AddDiscovery_tx intent acceptedUnix) d
    end.

Definition RemoveDiscovery_tx (intent : DiscoveryRemoveIntent) (acceptedUnix : Z) : Tx string :=
  current ← wrapped "read discovery" (selectDiscovery (remove_actor intent));
  requireDiscoveryTime (remove_actor intent) acceptedUnix current ;;
  '(outcome, action) ←
    (if match current with Some r => discovery_state r ≟ discoveryActive | None => false end then
       wrapped "write discovery removal"
         (exec (update_discovery (remove_actor intent) (remove_discovery acceptedUnix))) ;;
       mret (DiscoveryRemovedOK, discoveryRemovedOK)
     else mret (DiscoveryAbsent, discoveryAbsent));
  insertDiscoveryEvent (remove_actor intent) action (remove_audit intent) acceptedUnix ;;
  wrapped "commit discovery removal" commit ;;
  mret outcome.

Definition RemoveDiscovery (c : call) (intent : DiscoveryRemoveIntent) (acceptedAt : Z) (d : db)
    : result error string * db :=
  if negb (validateDiscoveryRemoveIntent intent) then (Err ErrTransitionInput, d)
  else
    match transitionUnix acceptedAt with
    | Err e => (Err e, d)
    | Ok acceptedUnix => in_transaction c (RemoveDiscovery_tx intent acceptedUnix) d
    end.

Definition RecordActorObservation_tx (intent : ActorObservationIntent) (observedUnix : Z) : Tx unit :=
  let actor := actor_intent_actor intent in
  retained ← wrapped "read observation identity" (retainedObservationIdentity actor);
  check retained ErrObservationAbsent ;;
  existing ← wrapped "read actor observation" (selectObservation actor);
  check (match existing with
         | Some r => null_or (λ v, v <=? observedUnix) (actor_last_checked r)
         | None => true
         end) ErrObservationTime ;;
  current ← currentOrEmptyObservation "read inserted actor observation" actor existing observedUnix;
  let updatedUnix := maxInt64 (observation_updated current) observedUnix in
  (if actor_intent_state intent ≟ ReachabilityReachable then
     let inbox := if actor_intent_inbox intent ≟ "" then None else Some (actor_intent_inbox intent) in
     wrapped "write actor observation"
       (exec (update_observation actor (reach_row inbox observedUnix updatedUnix)))
   else
     wrapped "write actor observation"
       (exec (update_observation actor
                (unreach_row (actor_intent_state intent) observedUnix updatedUnix)))) ;;
  wrapped "commit actor observation" commit.

Definition RecordActorObservation (c : call) (intent : ActorObservationIntent) (observedAt : Z) (d : db)
    : result error unit * db :=
  if negb (validateActorObservationIntent intent) then (Err ErrObservationInput, d)
  else
    match observationUnix observedAt with
    | Err e => (Err e, d)
    | Ok observedUnix => in_transaction c (RecordActorObservation_tx intent observedUnix) d
    end.

Definition RecordInboxObservation_tx (intent : InboxObservationIntent) (observedUnix : Z) : Tx unit :=
  let actor := inbox_intent_actor intent in
  existing ← wrapped "read inbox observation" (selectObservation actor);
  match existing with
  | None => tx_fail ErrObservationConflict
  | Some current =>
      check (match inbox_url current with Some u => u ≟ inbox_intent_url intent | None => false end)
        ErrObservationConflict ;;
      check (null_or (λ v, v <=? observedUnix) (inbox_declared current) &&
             null_or (λ v, v <=? observedUnix) (inbox_last_checked current)) ErrObservationTime ;;
      let updatedUnix := maxInt64 (observation_updated current) observedUnix in
      wrapped "write inbox observation"
        (exec (update_observation actor
                 (inbox_row (inbox_intent_state intent) observedUnix updatedUnix))) ;;
      wrapped "commit inbox observation" commit
  end.

Definition RecordInboxObservation (c : call) (intent : InboxObservationIntent) (observedAt : Z) (d : db)
    : result error unit * db :=
  if negb (validateInboxObservationIntent intent) then (Err ErrObservationInput, d)
  else
    match observationUnix observedAt with
    | Err e => (Err e, d)
    | Ok observedUnix => in_transaction c (RecordInboxObservation_tx intent observedUnix) d
    end.
End Operations.

(** ** Every operation settles *)

Lemma body_currentOrEmptyObservation action actor existing t :
  TxBody (currentOrEmptyObservation action actor existing t).
Proof. unfold currentOrEmptyObservation. tx_calls. Qed.
#[export] Hint Resolve body_currentOrEmptyObservation : tx_body.

Section Settles.
Context `{RelayIdentity}.

Lemma body_insertDiscoveryEvent actor action audit t : TxBody (insertDiscoveryEvent actor action audit t).
Proof. apply body_wrapped, body_exec. Qed.
Lemma body_requireDiscoveryTime actor t current : TxBody (requireDiscoveryTime actor t current).
Proof. unfold requireDiscoveryTime. tx_calls. Qed.
Lemma body_selectDiscovery actor : TxBody (selectDiscovery actor).
Proof. apply body_query. Qed.
Lemma body_write_discovery intent t current : TxBody (write_discovery intent t current).
Proof. unfold write_discovery. tx_calls. Qed.
Hint Resolve body_insertDiscoveryEvent body_requireDiscoveryTime body_selectDiscovery
  body_write_discovery : tx_body.

Lemma settles_AddDiscovery intent t : settles (λ c d, AddDiscovery c intent t d).
Proof. unfold AddDiscovery. settle. unfold AddDiscovery_tx. tx_calls. Qed.
Lemma settles_RemoveDiscovery intent t : settles (λ c d, RemoveDiscovery c intent t d).
Proof. unfold RemoveDiscovery. settle. unfold RemoveDiscovery_tx. tx_calls. Qed.
Lemma settles_RecordActorObservation intent t : settles (λ c d, RecordActorObservation c intent t d).
Proof. unfold RecordActorObservation. settle. unfold RecordActorObservation_tx. tx_calls. Qed.
Lemma settles_RecordInboxObservation intent t : settles (λ c d, RecordInboxObservation c intent t d).
Proof. unfold RecordInboxObservation. settle. unfold RecordInboxObservation_tx. tx_calls. Qed.
End Settles.
