(* ===== verification/Reachability.v ===== *)
(** * Reachability: candidates, probe results and the maintenance run

    [internal/storage/sqlite/reachability.go] over the database of [Store],
    [ProbeDiagnostic] of [internal/actorresolver/diagnostic.go], and the bounded
    run of [internal/reachability/run.go] against an abstract repository and an
    abstract prober. *)
From S2P Require Import Prelude Identity Vocabulary Store Repository Discovery.
Local Open Scope string_scope.
Local Open Scope Z_scope.
Local Open Scope go_scope.
Local Open Scope list_scope.

(** ** actorresolver/diagnostic.go *)

Definition no_diagnostic : diagnostic := Diagnostic "" "" 0.
Definition diagnostic_eqb (x y : diagnostic) : bool :=
  (diag_stage x ≟ diag_stage y) && (diag_code x ≟ diag_code y) &&
  (diag_http_status x =? diag_http_status y).

(** [ProbeDiagnostic.Valid]: a stage whose inner switch matches no code falls
    through to [return false]. *)
Definition ProbeDiagnostic_Valid (d : diagnostic) : bool :=
  let code := diag_code d in
  let status := diag_http_status d in
  let http_status := (100 <=? status) && (status <=? 599) in
  if diag_stage d ≟ "" then (code ≟ "") && (status =? 0)
  else if diag_stage d ≟ "dns" then
    one_of ["nxdomain"; "no_address"; "temporary"; "timeout"; "policy"; "error"] code && (status =? 0)
  else if diag_stage d ≟ "connect" then one_of ["refused"; "timeout"; "failed"] code && (status =? 0)
  else if diag_stage d ≟ "tls" then one_of ["certificate"; "handshake"] code && (status =? 0)
  else if diag_stage d ≟ "policy" then (code ≟ "prohibited_target") && (status =? 0)
  else if diag_stage d ≟ "redirect" then (code ≟ "rejected") && (status =? 0)
  else if diag_stage d ≟ "actor" then
    if code ≟ "http_status" then http_status
    else one_of ["content_type"; "invalid_document"; "invalid_response"] code && (status =? 0)
  else if diag_stage d ≟ "inbox" then
    if code ≟ "http_status" then http_status else (code ≟ "invalid_response") && (status =? 0)
  else if diag_stage d ≟ "network" then ((code ≟ "timeout") || (code ≟ "error")) && (status =? 0)
  else false.

Definition HTTPProbeDiagnostic (stage : string) (status : Z) : diagnostic :=
  if (100 <=? status) && (status <=? 599) then Diagnostic stage "http_status" status
  else Diagnostic stage "invalid_response" 0.

(** ** Candidates *)

Record reachability_cursor := ReachabilityCursor {
  HasLastChecked : bool; LastCheckedUnix : Z; CursorActor : string }.
Definition reachability_start : reachability_cursor := ReachabilityCursor false 0 "".
Definition reachability_cursor_eqb (x y : reachability_cursor) : bool :=
  Bool.eqb (HasLastChecked x) (HasLastChecked y) && (LastCheckedUnix x =? LastCheckedUnix y) &&
  (CursorActor x ≟ CursorActor y).

(** [ReachabilityCandidateCursor.Valid] *)
Definition reachability_cursor_valid (cursor : reachability_cursor) : bool :=
  if reachability_cursor_eqb cursor reachability_start then true
  else if CursorActor cursor ≟ "" then false
  else if negb (HasLastChecked cursor) then LastCheckedUnix cursor =? 0
  else 0 <=? LastCheckedUnix cursor.

Record reachability_candidate := ReachabilityCandidate {
  candidate_actor : string; ActorLastCheckedUnix : option Z }.
Record reachability_query := ReachabilityQuery {
  reach_after : reachability_cursor; reach_limit : Z; reach_observed : Z }.
Record reachability_page := ReachabilityPage {
  reach_candidates : list reachability_candidate; reach_next : reachability_cursor }.

Definition reachabilityCursor (candidate : reachability_candidate) : reachability_cursor :=
  match ActorLastCheckedUnix candidate with
  | Some checked => ReachabilityCursor true checked (candidate_actor candidate)
  | None => ReachabilityCursor false 0 (candidate_actor candidate)
  end.

(** The CTE [eligible(relay_actor)]. *)
Definition relay_eligible (r : relay_row) : bool :=
  one_of [lifecycleRegistered; lifecyclePruned] (lifecycle_state r) &&
  (administrative_state r ≟ administrativeActive).
Definition suspended_relay (d : db) (actor : string) : bool :=
  match relays d !! actor with
  | Some r => administrative_state r ≟ administrativeSuspended
  | None => false
  end.
Definition reachabilityEligibleCTE (d : db) : gset string :=
  dom (base.filter (λ kv, Is_true (relay_eligible kv.2)) (relays d)) ∪
  dom (base.filter (λ kv, Is_true ((discovery_state kv.2 ≟ discoveryActive) && negb (suspended_relay d kv.1)))
         (discoveries d)).

(** [SELECT CASE WHEN EXISTS (...) OR (EXISTS (...) AND NOT EXISTS (...))] *)
Definition eligible_now (d : db) (actor : string) : bool :=
  match relays d !! actor with Some r => relay_eligible r | None => false end ||
  (match discoveries d !! actor with Some r => discovery_state r ≟ discoveryActive | None => false end &&
   negb (suspended_relay d actor)).
Definition reachabilityEligible (actor : string) : Tx bool := query (λ d, eligible_now d actor).

Definition coalesce (x : option Z) : Z := match x with Some v => v | None => -1 end.
(** [MAX(COALESCE(last_seen, -1), COALESCE(first_discovered, -1), success)] *)
Definition last_known_online (d : db) (actor : string) (success : option Z) : Z :=
  Z.max (Z.max (coalesce (last_seen_at_unix <$> relays d !! actor))
               (coalesce (first_discovered <$> discoveries d !! actor))) (coalesce success).

Definition actor_checked (d : db) (actor : string) : option Z :=
  observations d !! actor ≫= actor_last_checked.

(** The due condition of the WHERE clause; a comparison with NULL is not true. *)
Definition reachability_due (d : db) (observedUnix longOfflineCutoff cutoff : Z) (actor : string) : bool :=
  match observations d !! actor with
  | None => true
  | Some o =>
      match actor_last_checked o with
      | None => true
      | Some checked =>
          match diagnostics d !! actor with
          | Some g =>
              ((diagnostic_updated g =? checked) && (next_check_at g <=? observedUnix)) ||
              (negb (diagnostic_updated g =? checked) &&
               (checked <? (if (actor_state o ≟ ReachabilityUnreachable) &&
                               (last_known_online d actor (actor_last_success o) <=? longOfflineCutoff)
                            then longOfflineCutoff else cutoff)))
          | None =>
              checked <? (if (actor_state o ≟ ReachabilityUnreachable) &&
                             (last_known_online d actor (actor_last_success o) <=? longOfflineCutoff)
                          then longOfflineCutoff else cutoff)
          end
      end
  end.

(** [ORDER BY checked IS NOT NULL, checked, relay_actor] *)
Definition reachability_key (row : string * option Z) : Z * (Z * string) :=
  match row.2 with
  | None => (0, (0, row.1))
  | Some checked => (1, (checked, row.1))
  end.

(** [whereAfter] *)
Definition reachability_where_after (after : reachability_cursor) (row : string * option Z) : bool :=
  if reachability_cursor_eqb after reachability_start then true
  else if negb (HasLastChecked after) then
    match row.2 with
    | None => key_ltb (CursorActor after) row.1
    | Some _ => true
    end
  else
    match row.2 with
    | None => false
    | Some checked =>
        (LastCheckedUnix after <? checked) ||
        ((checked =? LastCheckedUnix after) && key_ltb (CursorActor after) row.1)
    end.

Definition reachability_rows (q : reachability_query) (d : db) : list (string * option Z) :=
  let observedUnix := unix_of (reach_observed q) in
  let cutoff := int64_sub observedUnix (seconds_of ReachabilityFreshness) in
  let longOfflineCutoff := int64_sub observedUnix (seconds_of ReachabilityUnreachableRetry) in
  take (S (Z.to_nat (reach_limit q)))
    (order_by reachability_key
       (List.filter (reachability_where_after (reach_after q))
          (map (λ actor, (actor, actor_checked d actor))
             (List.filter (reachability_due d observedUnix longOfflineCutoff cutoff)
                (elements (reachabilityEligibleCTE d)))))).

Section Operations.
Context `{RelayIdentity}.

(** [validHealthProjectionActor] of health.go *)
Definition validHealthProjectionActor (relayActor : string) : bool :=
  negb ((len relayActor =? 0) || (maximumRelayActorBytes <? len relayActor)) &&
  canonical_actor relayActor.

Definition decode_reachability (minimumCutoff : Z) (row : string * option Z)
    : result error reachability_candidate :=
  if negb (canonical_actor row.1) then
    Err (storageFailure "validate reachability candidate" ErrInvalidState)
  else
    match row.2 with
    | Some checked =>
        if (checked <? 0) || (minimumCutoff <? checked)
        then Err (storageFailure "validate reachability candidate" ErrInvalidState)
        else Ok (ReachabilityCandidate row.1 (Some checked))
    | None => Ok (ReachabilityCandidate row.1 None)
    end.

Definition ReachabilityCandidates_query (q : reachability_query) : Tx reachability_page :=
  let observedUnix := unix_of (reach_observed q) in
  let minimumCutoff := int64_sub observedUnix (seconds_of ReachabilityFailureRetryMinimum) in
  check (negb (negb (reachability_cursor_valid (reach_after q)) || (reach_limit q <=? 0) ||
               (MaximumReachabilityCandidatePage <? reach_limit q) ||
               (negb (reachability_cursor_eqb (reach_after q) reachability_start) &&
                negb (validHealthProjectionActor (CursorActor (reach_after q))))))
    ErrReachabilityReadInput ;;
  check (negb (observedUnix <? 0)) ErrReachabilityReadInput ;;
  check (negb (HasLastChecked (reach_after q) && (minimumCutoff <? LastCheckedUnix (reach_after q))))
    ErrReachabilityReadInput ;;
  rows ← wrapped "read reachability candidates" (query (reachability_rows q));
  '(candidates, more) ← scan_rows "decode reachability candidate" "iterate reachability candidates"
      (decode_reachability minimumCutoff) (Z.to_nat (reach_limit q)) [] rows;
  mret (ReachabilityPage candidates
          (match list.last candidates with
           | Some c => if (more : bool) then reachabilityCursor c else reachability_start
           | None => reachability_start
           end)).

Definition ReachabilityCandidates (c : call) (q : reachability_query) (d : db)
    : result error reachability_page :=
  run_read c (ReachabilityCandidates_query q) d.

(** ** Recording a probe result *)

Record ReachabilityObservationIntent := {
  reach_actor : string; reach_actor_state : string; reach_inbox_url : string;
  reach_inbox_state : string; reach_actor_diagnostic : diagnostic;
  reach_inbox_diagnostic : diagnostic }.

Definition validateReachabilityObservationIntent (intent : ReachabilityObservationIntent) : bool :=
  ProbeDiagnostic_Valid (reach_actor_diagnostic intent) &&
  ProbeDiagnostic_Valid (reach_inbox_diagnostic intent) &&
  negb ((reach_actor_state intent ≟ ReachabilityReachable) &&
        negb (diagnostic_eqb (reach_actor_diagnostic intent) no_diagnostic)) &&
  negb ((reach_actor_state intent ≟ ReachabilityUnreachable) &&
        negb (diagnostic_eqb (reach_inbox_diagnostic intent) no_diagnostic)) &&
  canonical_actor (reach_actor intent) &&
  (if reach_actor_state intent ≟ ReachabilityReachable then
     if reach_inbox_url intent ≟ "" then reach_inbox_state intent ≟ InboxNotChecked
     else canonical_actor (reach_inbox_url intent) &&
          ((reach_inbox_state intent ≟ InboxResponsive) ||
           (reach_inbox_state intent ≟ InboxMethodRejected) ||
           (reach_inbox_state intent ≟ InboxUnreachable))
   else if reach_actor_state intent ≟ ReachabilityUnreachable then
     negb (negb (reach_inbox_url intent ≟ "") || negb (reach_inbox_state intent ≟ InboxNotChecked))
   else false).

Definition probed_row (intent : ReachabilityObservationIntent) (observedUnix updatedUnix : Z)
    (r : observation_row) : observation_row :=
  let present {A} (v : A) := if reach_inbox_url intent ≟ "" then None else Some v in {|
  actor_state := reach_actor_state intent; actor_last_checked := Some observedUnix;
  actor_last_success := Some observedUnix; inbox_url := present (reach_inbox_url intent);
  inbox_declared := present observedUnix; inbox_probe_state := reach_inbox_state intent;
  inbox_last_checked := present observedUnix; rfc9421_verified := rfc9421_verified r;
  observation_updated := updatedUnix; revision := revision r + 1 |}.

Definition write_probe (intent : ReachabilityObservationIntent) (observedUnix updatedUnix : Z) : Tx unit :=
  if reach_actor_state intent ≟ ReachabilityReachable then
    wrapped "write reachable observation"
      (exec (update_observation (reach_actor intent) (probed_row intent observedUnix updatedUnix))) ;;
    mret tt
  else if reach_actor_state intent ≟ ReachabilityUnreachable then
    wrapped "write unreachable observation"
      (exec (update_observation (reach_actor intent)
               (unreach_row (reach_actor_state intent) observedUnix updatedUnix))) ;;
    mret tt
  else tx_fail ErrReachabilityWriteInput.

(** The new failure streak and the delay its [switch] selects. *)
Definition next_streak (previous : option Z) : Z :=
  let streak := match previous with Some v => v | None => 0 end in
  if streak <? MaximumReachabilityFailureStreak then streak + 1 else streak.
Definition retry_of_streak (streak : Z) : Z :=
  if streak =? 1 then ReachabilityFailureRetryMinimum
  else if streak =? 2 then 2 * hour
  else if streak =? 3 then 4 * hour
  else ReachabilityFreshness.

Definition schedule_probe (intent : ReachabilityObservationIntent) (observedUnix : Z)
    (success : option Z) : Tx (Z * Z) :=
  if reach_actor_state intent ≟ ReachabilityUnreachable then
    previous ← wrapped "read actor retry streak"
                 (query (λ d, actor_failure_streak <$> diagnostics d !! reach_actor intent));
    let streak := next_streak previous in
    lastKnownOnline ← wrapped "classify reachability retry"
                        (query (λ d, last_known_online d (reach_actor intent) success));
    if lastKnownOnline <=? int64_sub observedUnix (seconds_of ReachabilityUnreachableRetry)
    then mret (streak, int64_add observedUnix (seconds_of ReachabilityUnreachableRetry))
    else mret (streak, int64_add observedUnix (seconds_of (retry_of_streak streak)))
  else mret (0, int64_add observedUnix (seconds_of ReachabilityFreshness)).

Definition diagnostic_of (intent : ReachabilityObservationIntent) (nextCheck observedUnix streak : Z)
    : diagnostic_row := {|
  actor_diagnostic := reach_actor_diagnostic intent; inbox_diagnostic := reach_inbox_diagnostic intent;
  next_check_at := nextCheck; diagnostic_updated := observedUnix; actor_failure_streak := streak |}.
(** [ON CONFLICT(relay_actor) DO UPDATE SET ...] *)
Definition merge_diagnostic (actorState : string) (excluded old : diagnostic_row) : diagnostic_row := {|
  actor_diagnostic := actor_diagnostic excluded;
  inbox_diagnostic := if actorState ≟ "reachable" then inbox_diagnostic excluded else inbox_diagnostic old;
  next_check_at := next_check_at excluded; diagnostic_updated := diagnostic_updated excluded;
  actor_failure_streak := actor_failure_streak excluded |}.

Definition RecordReachabilityObservation_tx (intent : ReachabilityObservationIntent) (observedUnix : Z)
    : Tx string :=
  let actor := reach_actor intent in
  eligible ← wrapped "revalidate reachability eligibility" (reachabilityEligible actor);
  if negb eligible then mret ReachabilityWriteSkipped
  else
    existing ← wrapped "read reachability observation" (selectObservation actor);
    if match existing ≫= actor_last_checked with Some checked => observedUnix <=? checked | None => false end
    then mret ReachabilityWriteSkipped
    else
      current ← currentOrEmptyObservation "read inserted reachability observation" actor existing
                  observedUnix;
      let updatedUnix := maxInt64 (observation_updated current) observedUnix in
      write_probe intent observedUnix updatedUnix ;;
      '(streak, nextCheck) ← schedule_probe intent observedUnix (actor_last_success current);
      let row := diagnostic_of intent nextCheck observedUnix streak in
      wrapped "write reachability diagnostics"
        (exec (upsert_diagnostic actor row (merge_diagnostic (reach_actor_state intent) row))) ;;
      wrapped "commit reachability observation" commit ;;
      mret ReachabilityWriteApplied.

Definition RecordReachabilityObservation (c : call) (intent : ReachabilityObservationIntent)
    (observedAt : Z) (d : db) : result error string * db :=
  if negb (validateReachabilityObservationIntent intent) then (Err ErrReachabilityWriteInput, d)
  else
    match observationUnix observedAt with
    | Err e => (Err e, d)
    | Ok observedUnix => in_transaction c (RecordReachabilityObservation_tx intent observedUnix) d
    end.
End Operations.

(** ** Network failures (actorresolver/diagnostic.go)

    A failure is what [errors.Is] and [errors.As] find in its chain. *)

Record dns_error := DNSError { IsNotFound : bool; IsTimeout : bool; IsTemporary : bool }.
Record op_error := OpError { op_timeout : bool; op_dial : bool }.
Record failure := Failure {
  is_redirect_rejected : bool; as_safe_failure : option diagnostic; as_dns : option dns_error;
  is_dns_no_address : bool; is_dns_policy : bool; as_certificate : bool; as_record_header : bool;
  is_deadline : bool; is_refused : bool; as_op : option op_error; is_network_target : bool;
  is_configuration : bool }.

Definition ClassifyNetworkFailure (err : option failure) : diagnostic :=
  match err with
  | None => no_diagnostic
  | Some f =>
      if is_redirect_rejected f then Diagnostic "redirect" "rejected" 0
      else match as_safe_failure f with
      | Some d => d
      | None =>
      match as_dns f with
      | Some dns =>
          if IsNotFound dns then Diagnostic "dns" "nxdomain" 0
          else if IsTimeout dns then Diagnostic "dns" "timeout" 0
          else if IsTemporary dns then Diagnostic "dns" "temporary" 0
          else Diagnostic "dns" "error" 0
      | None =>
      if is_dns_no_address f then Diagnostic "dns" "no_address" 0
      else if is_dns_policy f then Diagnostic "dns" "policy" 0
      else if as_certificate f then Diagnostic "tls" "certificate" 0
      else if as_record_header f then Diagnostic "tls" "handshake" 0
      else if is_deadline f then Diagnostic "network" "timeout" 0
      else if is_refused f then Diagnostic "connect" "refused" 0
      else
        let rest := if is_network_target f then Diagnostic "policy" "prohibited_target" 0
                    else Diagnostic "network" "error" 0 in
        match as_op f with
        | Some op => if op_timeout op then Diagnostic "connect" "timeout" 0
                     else if op_dial op then Diagnostic "connect" "failed" 0 else rest
        | None => rest
        end
      end
      end
  end.

(** ** run.go *)

Record actor_probe := ActorProbe { ActorID : string; ActorInbox : string }.
Inductive inbox_probe := InboxProbeResponsive | InboxProbeMethodRejected | InboxProbeUnreachable
| InboxProbeOther.

(** A prober, with the optional detailed interfaces. A detailed method returns
    its diagnostic next to its value and error. *)
Record prober := Prober {
  ProbeActor : string → result failure actor_probe;
  ProbeInbox : string → result failure inbox_probe;
  ProbeActorDetailed : option (string → result failure actor_probe * diagnostic);
  ProbeInboxDetailed : option (string → result failure inbox_probe * diagnostic) }.

Record ReachabilityResult := {
  ObservedUnix : Z; Scanned : Z; Reachable : Z; Unreachable : Z; Skipped : Z;
  CountResponsive : Z; CountMethodRejected : Z; CountUnreachable : Z; Truncated : bool }.

Definition probed {A} (simple : string → result failure A)
    (detailed : option (string → result failure A * diagnostic)) (url : string)
    : result failure A * diagnostic :=
  match detailed with
  | Some probe => probe url
  | None =>
      match simple url with
      | Ok a => (Ok a, no_diagnostic)
      | Err e => (Err e, ClassifyNetworkFailure (Some e))
      end
  end.

(** [probeOne]; [cancelled] is what [ctx.Err()] reports after a failed probe. *)
Definition probeOne (cancelled : bool) (p : prober) (actor : string)
    : result error ReachabilityObservationIntent :=
  let '(actorResult, actorDiagnostic) := probed (ProbeActor p) (ProbeActorDetailed p) actor in
  match actorResult with
  | Err err =>
      if cancelled then Err ErrContext
      else if is_configuration err || negb (ProbeDiagnostic_Valid actorDiagnostic) ||
              diagnostic_eqb actorDiagnostic no_diagnostic
      then Err ErrRunnerConfiguration
      else Ok {| reach_actor := actor; reach_actor_state := ReachabilityUnreachable;
                 reach_inbox_url := ""; reach_inbox_state := InboxNotChecked;
                 reach_actor_diagnostic := actorDiagnostic; reach_inbox_diagnostic := no_diagnostic |}
  | Ok found =>
      if negb (ActorID found ≟ actor) || negb (diagnostic_eqb actorDiagnostic no_diagnostic)
      then Err ErrRunnerConfiguration
      else
        let intent state diagnosis := {|
          reach_actor := actor; reach_actor_state := ReachabilityReachable;
          reach_inbox_url := ActorInbox found; reach_inbox_state := state;
          reach_actor_diagnostic := no_diagnostic; reach_inbox_diagnostic := diagnosis |} in
        if ActorInbox found ≟ "" then Ok (intent InboxNotChecked no_diagnostic)
        else
          let '(inboxResult, inboxDiagnostic) :=
            probed (ProbeInbox p) (ProbeInboxDetailed p) (ActorInbox found) in
          match inboxResult with
          | Err err =>
              if cancelled then Err ErrContext
              else if is_configuration err || negb (ProbeDiagnostic_Valid inboxDiagnostic)
              then Err ErrRunnerConfiguration
              else Ok (intent InboxUnreachable inboxDiagnostic)
          | Ok answer =>
              if negb (ProbeDiagnostic_Valid inboxDiagnostic) then Err ErrRunnerConfiguration
              else
                match answer with
                | InboxProbeResponsive => Ok (intent InboxResponsive inboxDiagnostic)
                | InboxProbeMethodRejected => Ok (intent InboxMethodRejected inboxDiagnostic)
                | InboxProbeUnreachable => Ok (intent InboxUnreachable inboxDiagnostic)
                | InboxProbeOther => Err ErrRunnerConfiguration
                end
          end
  end.

(** [cursorAfter(candidate, previous)] *)
Definition cursorAfter (candidate previous : reachability_cursor) : bool :=
  if reachability_cursor_eqb previous reachability_start then true
  else if negb (HasLastChecked previous) then
    if negb (HasLastChecked candidate) then key_ltb (CursorActor previous) (CursorActor candidate)
    else true
  else if negb (HasLastChecked candidate) then false
  else (LastCheckedUnix previous <? LastCheckedUnix candidate) ||
       ((LastCheckedUnix candidate =? LastCheckedUnix previous) &&
        key_ltb (CursorActor previous) (CursorActor candidate)).

(** What the run sees of its repository, prober and context, over a world [W]:
    the storage interface, the probers' answers and whether the context is done. *)
Class ReachabilityWorld (W : Type) := {
  world_candidates : reachability_query → W → result error reachability_page * W;
  world_record : ReachabilityObservationIntent → Z → W → result error string * W;
  world_prober : W → prober;
  world_cancelled : W → bool;
  (** per candidate: the [select] took the semaphore, and [ctx.Err() != nil] after a failed probe *)
  world_admitted : W → string → bool;
  world_cancelled_probe : W → string → bool;
  world_probed : W → W }.

Definition tally (intent : ReachabilityObservationIntent) (outcome : string) (r : ReachabilityResult)
    : option ReachabilityResult :=
  let one (b : bool) := if b then 1 else 0 in
  let applied := outcome ≟ ReachabilityWriteApplied in
  let reached := applied && (reach_actor_state intent ≟ ReachabilityReachable) in
  if (outcome ≟ ReachabilityWriteSkipped) || applied then
    Some {| ObservedUnix := ObservedUnix r; Scanned := Scanned r;
            Reachable := Reachable r + one reached;
            Unreachable := Unreachable r + one (applied && negb reached);
            Skipped := Skipped r + one (outcome ≟ ReachabilityWriteSkipped);
            CountResponsive := CountResponsive r + one (reached && (reach_inbox_state intent ≟ InboxResponsive));
            CountMethodRejected :=
              CountMethodRejected r + one (reached && (reach_inbox_state intent ≟ InboxMethodRejected));
            CountUnreachable :=
              CountUnreachable r + one (reached && (reach_inbox_state intent ≟ InboxUnreachable));
            Truncated := Truncated r |}
  else None.

Definition scanned_one (r : ReachabilityResult) : ReachabilityResult := {|
  ObservedUnix := ObservedUnix r; Scanned := Scanned r + 1; Reachable := Reachable r;
  Unreachable := Unreachable r; Skipped := Skipped r; CountResponsive := CountResponsive r;
  CountMethodRejected := CountMethodRejected r; CountUnreachable := CountUnreachable r;
  Truncated := Truncated r |}.
Definition truncated (r : ReachabilityResult) : ReachabilityResult := {|
  ObservedUnix := ObservedUnix r; Scanned := Scanned r; Reachable := Reachable r;
  Unreachable := Unreachable r; Skipped := Skipped r; CountResponsive := CountResponsive r;
  CountMethodRejected := CountMethodRejected r; CountUnreachable := CountUnreachable r;
  Truncated := true |}.

Section Run.
Context `{RelayIdentity} {W : Type} `{ReachabilityWorld W}.

Fixpoint validate_candidates (cutoff : Z) (previous : reachability_cursor)
    (candidates : list reachability_candidate) : option reachability_cursor :=
  match candidates with
  | [] => Some previous
  | candidate :: rest =>
      let cursor := reachabilityCursor candidate in
      if negb (canonical_actor (candidate_actor candidate)) then None
      else if negb (cursorAfter cursor previous) then None
      else if match ActorLastCheckedUnix candidate with Some v => cutoff <? v | None => false end then None
      else validate_candidates cutoff cursor rest
  end.

(** [validatePage(...) == nil] *)
Definition validatePage (page : reachability_page) (after : reachability_cursor) (limit observedAt : Z)
    : bool :=
  let count := Z.of_nat (length (reach_candidates page)) in
  if (limit <? count) || (MaximumReachabilityCandidatePage <? count) then false
  else if count =? 0 then reachability_cursor_eqb (reach_next page) reachability_start
  else
    match validate_candidates (int64_sub (unix_of observedAt) (seconds_of ReachabilityFailureRetryMinimum))
            after (reach_candidates page) with
    | None => false
    | Some previous =>
        negb (negb (reachability_cursor_eqb (reach_next page) reachability_start) &&
              negb (reachability_cursor_eqb (reach_next page) previous))
    end.

(** [probePage]: every probe runs, each answer in its candidate's slot. *)
Definition probePage (candidates : list reachability_candidate) (w : W)
    : list (result error ReachabilityObservationIntent) :=
  map (λ c, let actor := candidate_actor c in
            if world_admitted w actor then probeOne (world_cancelled_probe w actor) (world_prober w) actor
            else Err ErrContext) candidates.

(** The serialized writes; [inl] carries the result of a page written whole,
    [inr] the result and error the run returns at once. *)
Fixpoint record_page (probes : list (result error ReachabilityObservationIntent)) (observedAt : Z)
    (r : ReachabilityResult) (w : W) : (ReachabilityResult + ReachabilityResult * error) * W :=
  match probes with
  | [] => (inl r, w)
  | Err e :: _ => (inr (r, e), w)
  | Ok intent :: rest =>
      let r := scanned_one r in
      let '(outcome, w) := world_record intent observedAt w in
      match outcome with
      | Err e => (inr (r, e), w)
      | Ok outcome =>
          match tally intent outcome r with
          | None => (inr (r, ErrRunnerConfiguration), w)
          | Some r => record_page rest observedAt r w
          end
      end
  end.

Fixpoint run_loop (fuel : nat) (observedAt : Z) (after : reachability_cursor) (r : ReachabilityResult)
    (w : W) : option (ReachabilityResult * option error * W) :=
  match fuel with
  | O => None
  | S fuel =>
      if negb (Scanned r <? MaximumReachabilityAttemptsPerRun) then Some (r, None, w)
      else if world_cancelled w then Some (r, Some ErrContext, w)
      else
        let limit := Z.min MaximumReachabilityCandidatePage (MaximumReachabilityAttemptsPerRun - Scanned r) in
        let '(answer, w) := world_candidates (ReachabilityQuery after limit observedAt) w in
        match answer with
        | Err e => Some (r, Some e, w)
        | Ok page =>
            if negb (validatePage page after limit observedAt) then Some (r, Some ErrRunnerConfiguration, w)
            else if (length (reach_candidates page) =? 0)%nat then Some (r, None, w)
            else
              let probes := probePage (reach_candidates page) w in
              let '(recorded, w) := record_page probes observedAt r (world_probed w) in
              match recorded with
              | inr (r, e) => Some (r, Some e, w)
              | inl r =>
                  if reachability_cursor_eqb (reach_next page) reachability_start then Some (r, None, w)
                  else if Scanned r =? MaximumReachabilityAttemptsPerRun then Some (truncated r, None, w)
                  else run_loop fuel observedAt (reach_next page) r w
              end
        end
  end.

Definition start_result (observedAt : Z) : ReachabilityResult := {|
  ObservedUnix := unix_of observedAt; Scanned := 0; Reachable := 0; Unreachable := 0; Skipped := 0;
  CountResponsive := 0; CountMethodRejected := 0; CountUnreachable := 0; Truncated := false |}.

(** [run_fuel] iterations suffice: each one scans a candidate or returns. *)
Definition run_fuel : nat := 97.
Definition Run (observedAt : Z) (w : W) : option (ReachabilityResult * option error * W) :=
  let r := start_result observedAt in
  if ObservedUnix r <? 0 then Some (r, Some ErrRunnerConfiguration, w)
  else run_loop run_fuel observedAt reachability_start r w.
End Run.

(** ** Every operation settles *)

Section Settles.
Context `{RelayIdentity}.

Lemma body_reachabilityEligible actor : TxBody (reachabilityEligible actor).
Proof. apply body_query. Qed.
Lemma body_write_probe intent t u : TxBody (write_probe intent t u).
Proof. unfold write_probe. tx_calls. Qed.
Lemma body_schedule_probe intent t success : TxBody (schedule_probe intent t success).
Proof. unfold schedule_probe. tx_calls. Qed.
Hint Resolve body_reachabilityEligible body_write_probe body_schedule_probe : tx_body.

Lemma settles_RecordReachabilityObservation intent t :
  settles (λ c d, RecordReachabilityObservation c intent t d).
Proof.
  unfold RecordReachabilityObservation. settle. unfold RecordReachabilityObservation_tx. tx_calls.
Qed.
End Settles.
