(* ===== verification/Candidates.v ===== *)
(** * Candidates: discovery candidates and their maintenance

    [internal/storage/sqlite/discovery_candidate.go] over the tables of migration 9
    next to the database of [Store], [internal/storage/discovery_candidate_maintenance.go],
    and the bounded run of [internal/candidatemaintenance/run.go] against an abstract
    repository and prober. *)
From S2P Require Import Prelude Identity Vocabulary Store Repository Session Discovery Reachability.
Local Open Scope string_scope.
Local Open Scope Z_scope.
Local Open Scope go_scope.
Local Open Scope list_scope.

(** ** Vocabulary *)

Definition MaximumDiscoveryCandidatePage : Z := 24.
Definition MaximumDiscoveryCandidateAttempts : Z := 96.
Definition DiscoveryCandidateRetryOne : Z := 6 * hour.
Definition DiscoveryCandidateRetryTwo : Z := 12 * hour.
Definition DiscoveryCandidateRetryThree : Z := 24 * hour.
Definition DiscoveryCandidateRetryFour : Z := 72 * hour.
Definition DiscoveryCandidateRetryLong : Z := 7 * 24 * hour.
Definition DiscoveryCandidateRetryDelay (failureCount : Z) : Z :=
  if failureCount =? 1 then DiscoveryCandidateRetryOne
  else if failureCount =? 2 then DiscoveryCandidateRetryTwo
  else if failureCount =? 3 then DiscoveryCandidateRetryThree
  else if failureCount =? 4 then DiscoveryCandidateRetryFour
  else if 5 <=? failureCount then DiscoveryCandidateRetryLong
  else 0.

Definition DiscoveryCandidateUnreachable := "unreachable".
Definition DiscoveryCandidateIncompatible := "incompatible".
Definition DiscoveryCandidateResolved := "resolved".
Definition CandidateState_Valid (state : string) : bool :=
  one_of [DiscoveryCandidateUnreachable; DiscoveryCandidateIncompatible; DiscoveryCandidateResolved] state.
Definition DiscoveryCandidateActorUnreachable := "actor_unreachable".
Definition DiscoveryCandidateActorInvalid := "actor_invalid".
Definition CandidateFailure_Valid (failure : string) : bool :=
  (failure ≟ DiscoveryCandidateActorUnreachable) || (failure ≟ DiscoveryCandidateActorInvalid).
Definition DiscoveryCandidateAdded := "added".
Definition DiscoveryCandidateUpdated := "updated".
Definition DiscoveryCandidatePromoted := "promoted".
Definition DiscoveryCandidateSkipped := "skipped".
Definition discoveryCandidateAdded := "candidate_added".
Definition discoveryCandidateUpdated := "candidate_updated".
Definition discoveryCandidateResolved := "candidate_resolved".

(** ** Tables *)

Record candidate_row := CandidateRow {
  candidate_base : string; candidate_state : string; last_failure : option string; first_seen : Z; last_checked : Z;
  last_success : option Z; failure_count : Z; candidate_updated : Z }.
(** Rows of [discovery_candidate_events], in the order of their identifiers. *)
Record candidate_event := CandidateEvent {
  ce_actor : string; ce_action : string; ce_state : string; ce_failure : option string; ce_operator : string; ce_reason : string;
  ce_source_kind : string; ce_source_label : option string; ce_recorded : Z }.
Record candidate_store := CandidateStore { candidate_db : db; candidates : gmap string candidate_row; candidate_events : list candidate_event }.

Definition failure_check (failure : string) : bool := CandidateFailure_Valid failure.
(** The failure code of a state. The last disjunction of the CHECK is NULL, and so
    satisfied, for a state without its code; a resolved row has no code. *)
Definition state_failure (state : string) (failure : option string) : bool :=
  match failure with
  | Some f => ((state ≟ DiscoveryCandidateUnreachable) && (f ≟ DiscoveryCandidateActorUnreachable)) ||
              ((state ≟ DiscoveryCandidateIncompatible) && (f ≟ DiscoveryCandidateActorInvalid))
  | None => true
  end.
Definition candidate_check (actor : string) (r : candidate_row) : bool :=
  blob_length_between 1 4096 actor && blob_length_between 1 2048 (candidate_base r) && CandidateState_Valid (candidate_state r) &&
  null_or failure_check (last_failure r) && (0 <=? first_seen r) && (first_seen r <=? last_checked r) &&
  null_or (λ v, (first_seen r <=? v) && (v <=? last_checked r)) (last_success r) && (0 <=? failure_count r) &&
  (last_checked r <=? candidate_updated r) && state_failure (candidate_state r) (last_failure r) &&
  (if candidate_state r ≟ DiscoveryCandidateResolved then not_null (last_success r) else 1 <=? failure_count r).
Definition candidate_event_check (e : candidate_event) : bool :=
  blob_length_between 1 4096 (ce_actor e) &&
  one_of [discoveryCandidateAdded; discoveryCandidateUpdated; discoveryCandidateResolved] (ce_action e) && CandidateState_Valid (ce_state e) &&
  null_or failure_check (ce_failure e) && operator_check (ce_operator e) && reason_check (ce_reason e) &&
  DiscoverySourceKind_Valid (ce_source_kind e) && null_or operator_check (ce_source_label e) && (0 <=? ce_recorded e) &&
  state_failure (ce_state e) (ce_failure e).

Definition with_candidate_db (d : db) (s : candidate_store) : candidate_store := CandidateStore d (candidates s) (candidate_events s).
Definition put_candidate (actor : string) (r : candidate_row) (s : candidate_store) : candidate_store :=
  CandidateStore (candidate_db s) (<[actor := r]> (candidates s)) (candidate_events s).
Definition insert_candidate (actor : string) (r : candidate_row) (s : candidate_store) : option (candidate_store * Z) :=
  match candidates s !! actor with
  | Some _ => None
  | None => if candidate_check actor r then Some (put_candidate actor r s, 1) else None
  end.
Definition update_candidate (actor : string) (f : candidate_row → candidate_row) (s : candidate_store) : option (candidate_store * Z) :=
  match candidates s !! actor with
  | Some r => if candidate_check actor (f r) then Some (put_candidate actor (f r) s, 1) else None
  | None => Some (s, 0)
  end.
Definition insert_candidate_event (e : candidate_event) (s : candidate_store) : option (candidate_store * unit) :=
  if candidate_event_check e then Some (CandidateStore (candidate_db s) (candidates s) (candidate_events s ++ [e]), tt) else None.

(** A step on the tables of [Store] inside the transaction of a candidate method. *)
Definition on_db {A} (m : Tx A) : Session candidate_store A := λ st,
  let '(r, tx) := m (TX (candidate_db st.1) (candidate_db st.1) st.2) in
  (r, (with_candidate_db (working tx) st.1, faults tx)).
(** [return outcome, nil] before the commit: the deferred rollback undoes the
    transaction, and the call still succeeds. *)
Definition transact_unless {S A} (c : call) (commitAction : string) (skipped : A) (body : Session S (option A)) (s : S) : result error A * S :=
  if negb (configured c) then (Err ErrRepositoryConfiguration, s)
  else
    match admission c with
    | Some e => (Err (storageFailure "admit transition" e), s)
    | None =>
        match (failing "begin transition" call_driver ;;
               r ← body;
               match r with
               | Some a => failing commitAction call_driver ;; mret (Some a)
               | None => mret None
               end) (s, outcomes c) with
        | (Ok (Some a), (s', _)) => (Ok a, s')
        | (Ok None, _) => (Ok skipped, s)
        | (Err e, _) => (Err e, s)
        end
    end.

(** ** Intents *)

Record DiscoveryCandidateIntent := {
  candidate_intent_actor : string; candidate_intent_base : string; candidate_intent_state : string; candidate_intent_failure : string;
  candidate_intent_audit : discovery_audit }.
Record DiscoveryCandidatePromotionIntent := {
  promotion_actor : string; promotion_base : string; promotion_inbox : string; promotion_inbox_state : string; promotion_audit : discovery_audit }.

Definition selectDiscoveryCandidate (actor : string) : Session candidate_store (option candidate_row) := select (λ s, candidates s !! actor).
Definition insertDiscoveryCandidateEvent (actor action state : string) (failure : option string) (audit : discovery_audit) (recordedUnix : Z)
    : Session candidate_store unit :=
  failing "write discovery candidate event"
    (execute (insert_candidate_event (CandidateEvent actor action state failure (audit_operator audit) (audit_reason audit) (audit_source_kind audit)
       (if audit_source_label audit ≟ "" then None else Some (audit_source_label audit)) recordedUnix))).

Section Operations.
Context `{RelayIdentity}.

Definition validateDiscoveryCandidateIntent (intent : DiscoveryCandidateIntent) : bool :=
  canonical_identity (candidate_intent_actor intent) (candidate_intent_base intent) &&
  CandidateState_Valid (candidate_intent_state intent) && negb (candidate_intent_state intent ≟ DiscoveryCandidateResolved) &&
  CandidateFailure_Valid (candidate_intent_failure intent) && valid_audit (candidate_intent_audit intent) &&
  (if candidate_intent_state intent ≟ DiscoveryCandidateUnreachable then candidate_intent_failure intent ≟ DiscoveryCandidateActorUnreachable
   else if candidate_intent_state intent ≟ DiscoveryCandidateIncompatible then candidate_intent_failure intent ≟ DiscoveryCandidateActorInvalid
   else false).

Definition new_candidate (intent : DiscoveryCandidateIntent) (t : Z) : candidate_row :=
  CandidateRow (candidate_intent_base intent) (candidate_intent_state intent) (Some (candidate_intent_failure intent)) t t None 1 t.
(** [failure_count + 1] *)
Definition failed_candidate (intent : DiscoveryCandidateIntent) (t : Z) (r : candidate_row) : candidate_row :=
  CandidateRow (candidate_intent_base intent) (candidate_intent_state intent) (Some (candidate_intent_failure intent)) (first_seen r) t
    (last_success r) (failure_count r + 1) t.
Definition RetainDiscoveryCandidate_tx (intent : DiscoveryCandidateIntent) (acceptedUnix : Z) : Session candidate_store string :=
  let actor := candidate_intent_actor intent in
  current ← failing "read discovery candidate" (selectDiscoveryCandidate actor);
  ensure (null_or (λ r, last_checked r <=? acceptedUnix) current) ErrDiscoveryCandidateTime ;;
  '(outcome, action) ←
    match current with
    | None =>
        failing "write discovery candidate" (execute (insert_candidate actor (new_candidate intent acceptedUnix))) ;;
        mret (DiscoveryCandidateAdded, discoveryCandidateAdded)
    | Some _ =>
        failing "update discovery candidate" (execute (update_candidate actor (failed_candidate intent acceptedUnix))) ;;
        mret (DiscoveryCandidateUpdated, discoveryCandidateUpdated)
    end;
  insertDiscoveryCandidateEvent actor action (candidate_intent_state intent) (Some (candidate_intent_failure intent)) (candidate_intent_audit intent)
    acceptedUnix ;;
  mret outcome.
Definition RetainDiscoveryCandidate (c : call) (intent : DiscoveryCandidateIntent) (acceptedAt : Z) (s : candidate_store)
    : result error string * candidate_store :=
  if negb (validateDiscoveryCandidateIntent intent) then (Err ErrDiscoveryCandidateInput, s)
  else
    match transitionUnix acceptedAt with
    | Err _ => (Err ErrDiscoveryCandidateTime, s)
    | Ok acceptedUnix => transact c "commit discovery candidate" (RetainDiscoveryCandidate_tx intent acceptedUnix) s
    end.

Record DiscoveryCandidateRecord := CandidateRecord { record_actor : string; record_row : candidate_row }.
Definition candidate_record_valid (actor : string) (r : candidate_row) : bool :=
  CandidateState_Valid (candidate_state r) && null_or (λ f, (f ≟ "") || CandidateFailure_Valid f) (last_failure r) && (0 <=? first_seen r) &&
  (first_seen r <=? last_checked r) && (0 <=? failure_count r) && (last_checked r <=? candidate_updated r).
Definition GetDiscoveryCandidate (c : call) (actor : string) (s : candidate_store) : result error (option DiscoveryCandidateRecord) :=
  if negb (configured c) then Err ErrRepositoryConfiguration
  else if negb (canonical_actor actor) then Err ErrDiscoveryCandidateInput
  else
    fst ((r ← failing "read discovery candidate state" (selectDiscoveryCandidate actor);
          match r with
          | None => mret None
          | Some r =>
              ensure (candidate_record_valid actor r) (storageFailure "validate discovery candidate state" ErrInvalidState) ;;
              mret (Some (CandidateRecord actor r))
          end) (s, outcomes c)).
End Operations.

(** ** Candidates to check *)

Record candidate_cursor := CandidateCursor { NextCheckUnix : Z; CandidateURL : string }.
Definition candidate_start : candidate_cursor := CandidateCursor 0 "".
Definition candidate_cursor_eqb (x y : candidate_cursor) : bool :=
  (NextCheckUnix x =? NextCheckUnix y) && (CandidateURL x ≟ CandidateURL y).
(** [DiscoveryCandidateCheckCursor.Valid] *)
Definition candidate_cursor_valid (cursor : candidate_cursor) : bool :=
  candidate_cursor_eqb cursor candidate_start || ((0 <=? NextCheckUnix cursor) && negb (CandidateURL cursor ≟ "")).
Record candidate_query := CandidateQuery { check_after : candidate_cursor; check_limit : Z; check_observed : Z }.
Record DiscoveryCandidateCheck := CandidateCheck {
  check_actor : string; check_base : string; check_state : string; check_failure : string; check_first_seen : Z; check_last_checked : Z;
  check_last_success : option Z; check_failure_count : Z; check_next : Z; check_audit : discovery_audit }.
Record candidate_page := CandidatePage { page_candidates : list DiscoveryCandidateCheck; page_next : candidate_cursor }.
Definition check_cursor (c : DiscoveryCandidateCheck) : candidate_cursor := CandidateCursor (check_next c) (check_actor c).

(** The CASE of the query *)
Definition retry_seconds (failureCount : Z) : Z :=
  if failureCount =? 1 then seconds_of DiscoveryCandidateRetryOne
  else if failureCount =? 2 then seconds_of DiscoveryCandidateRetryTwo
  else if failureCount =? 3 then seconds_of DiscoveryCandidateRetryThree
  else if failureCount =? 4 then seconds_of DiscoveryCandidateRetryFour
  else seconds_of DiscoveryCandidateRetryLong.
(** The event with the smallest identifier. *)
Definition first_candidate_event (actor : string) (s : candidate_store) : option candidate_event :=
  List.find (λ e, ce_actor e ≟ actor) (candidate_events s).
Record due_row := DueRow { due_actor : string; due_candidate : candidate_row; due_next : Z; due_event : candidate_event }.
Definition due_rows (s : candidate_store) : list due_row :=
  omap (λ '(actor, r), if negb (candidate_state r ≟ DiscoveryCandidateResolved) && (1 <=? failure_count r)
                       then (λ e, DueRow actor r (last_checked r + retry_seconds (failure_count r)) e) <$> first_candidate_event actor s
                       else None) (map_to_list (candidates s)).
Definition due_key (row : due_row) : Z * string := (due_next row, due_actor row).
Definition check_rows (q : candidate_query) (s : candidate_store) : list due_row :=
  let after := check_after q in
  take (S (Z.to_nat (check_limit q)))
    (order_by due_key
       (List.filter (λ row, (due_next row <=? unix_of (check_observed q)) &&
                            ((CandidateURL after ≟ "") || key_ltb (NextCheckUnix after, CandidateURL after) (due_key row))) (due_rows s))).

Section Checks.
Context `{RelayIdentity}.

Definition validDiscoveryCandidateCheck (c : DiscoveryCandidateCheck) (observedUnix : Z) : bool :=
  canonical_identity (check_actor c) (check_base c) &&
  ((check_state c ≟ DiscoveryCandidateUnreachable) || (check_state c ≟ DiscoveryCandidateIncompatible)) &&
  CandidateFailure_Valid (check_failure c) && (1 <=? check_failure_count c) && (0 <=? check_first_seen c) &&
  (check_first_seen c <=? check_last_checked c) && (check_last_checked c <=? check_next c) && (check_next c <=? observedUnix) &&
  valid_audit (check_audit c) &&
  (let delay := DiscoveryCandidateRetryDelay (check_failure_count c) in
   (0 <? delay) && (check_next c =? int64_add (check_last_checked c) (seconds_of delay))).
(** [rows.Scan] fails on a NULL failure code. *)
Definition decode_check (observedUnix : Z) (row : due_row) : result error DiscoveryCandidateCheck :=
  let r := due_candidate row in
  let e := due_event row in
  match last_failure r with
  | None => Err (storageFailure "decode discovery candidate check" ErrBackend)
  | Some failure =>
      let c := CandidateCheck (due_actor row) (candidate_base r) (candidate_state r) failure (first_seen r) (last_checked r) (last_success r)
                 (failure_count r) (due_next row)
                 {| audit_operator := ce_operator e; audit_reason := ce_reason e; audit_source_kind := ce_source_kind e;
                    audit_source_label := default "" (ce_source_label e) |} in
      if validDiscoveryCandidateCheck c observedUnix then Ok c else Err (storageFailure "validate discovery candidate check" ErrInvalidState)
  end.
Definition DiscoveryCandidateChecks (c : call) (q : candidate_query) (s : candidate_store) : result error candidate_page :=
  let observedUnix := unix_of (check_observed q) in
  let after := check_after q in
  if negb (configured c) || negb (candidate_cursor_valid after) || (check_limit q <=? 0) || (MaximumDiscoveryCandidatePage <? check_limit q)
  then Err ErrDiscoveryCandidateMaintenanceRead
  else if observedUnix <? 0 then Err ErrDiscoveryCandidateMaintenanceRead
  else if negb (candidate_cursor_eqb after candidate_start) && (observedUnix <? NextCheckUnix after) then Err ErrDiscoveryCandidateMaintenanceRead
  else
    fst ((rows ← failing "read discovery candidate checks" (select (check_rows q));
          '(kept, more) ← on_db (scan_rows "decode discovery candidate check" "iterate discovery candidate checks" (decode_check observedUnix)
                                   (Z.to_nat (check_limit q)) [] rows);
          mret (CandidatePage kept
                  (match list.last kept with
                   | Some last => if (more : bool) then check_cursor last else candidate_start
                   | None => candidate_start
                   end))) (s, outcomes c)).

(** ** Promotion *)

Definition validateDiscoveryCandidatePromotionIntent (intent : DiscoveryCandidatePromotionIntent) : bool :=
  canonical_identity (promotion_actor intent) (promotion_base intent) && valid_audit (promotion_audit intent) &&
  (if promotion_inbox intent ≟ "" then promotion_inbox_state intent ≟ InboxNotChecked
   else canonical_actor (promotion_inbox intent) &&
        one_of [InboxResponsive; InboxMethodRejected; InboxUnreachable] (promotion_inbox_state intent)).

(** [requireDiscoveryTime(...)], whose [ErrTransitionTime] skips the promotion. *)
Definition discovery_timely (actor : string) (observedUnix : Z) (current : option discovery_row) : Session candidate_store bool := λ st,
  match on_db (requireDiscoveryTime actor observedUnix current) st with
  | (Ok _, st) => (Ok true, st)
  | (Err ErrTransitionTime, st) => (Ok false, st)
  | (Err e, st) => (Err e, st)
  end.
Definition write_promoted (intent : DiscoveryCandidatePromotionIntent) (observedUnix : Z) (current : option discovery_row)
    : Session candidate_store string :=
  let actor := promotion_actor intent in
  match current with
  | None =>
      on_db (wrapped "write promoted discovery" (exec (insert_discovery actor (new_discovery (promotion_base intent) observedUnix)))) ;;
      mret discoveryAdded
  | Some r =>
      if (discovery_state r ≟ discoveryActive) && (discovery_base r ≟ promotion_base intent) then mret discoveryUnchanged
      else if (discovery_state r ≟ discoveryActive) || (discovery_state r ≟ discoveryRemoved) then
        on_db (wrapped "write promoted discovery"
          (exec (update_discovery actor (readd_discovery (promotion_base intent) observedUnix)))) ;;
        mret discoveryUpdated
      else fail (storageFailure "classify promoted discovery" ErrInvalidState)
  end.
(** The row is updated at the observation, not at the later of it and the row. *)
Definition promoted_observation (intent : DiscoveryCandidatePromotionIntent) (observedUnix : Z) (r : observation_row) : observation_row :=
  let declared := if promotion_inbox intent ≟ "" then None else Some observedUnix in {|
  actor_state := ReachabilityReachable; actor_last_checked := Some observedUnix; actor_last_success := Some observedUnix;
  inbox_url := if promotion_inbox intent ≟ "" then None else Some (promotion_inbox intent);
  inbox_declared := declared; inbox_probe_state := promotion_inbox_state intent; inbox_last_checked := declared;
  rfc9421_verified := rfc9421_verified r; observation_updated := observedUnix; revision := revision r + 1 |}.
Definition resolved_candidate (observedUnix : Z) (r : candidate_row) : candidate_row :=
  CandidateRow (candidate_base r) DiscoveryCandidateResolved None (first_seen r) observedUnix (Some observedUnix) (failure_count r) observedUnix.

Definition PromoteDiscoveryCandidate_tx (intent : DiscoveryCandidatePromotionIntent) (observedUnix : Z) : Session candidate_store (option string) :=
  let actor := promotion_actor intent in
  candidate ← failing "read discovery candidate promotion" (selectDiscoveryCandidate actor);
  if match candidate with
     | None => true
     | Some r => (candidate_state r ≟ DiscoveryCandidateResolved) || (observedUnix <=? last_checked r)
     end
  then mret None
  else
    current ← on_db (wrapped "read promoted discovery" (selectDiscovery actor));
    timely ← discovery_timely actor observedUnix current;
    if negb timely then mret None
    else
      action ← write_promoted intent observedUnix current;
      on_db (insertDiscoveryEvent actor action (promotion_audit intent) observedUnix) ;;
      existing ← on_db (wrapped "read promoted observation" (selectObservation actor));
      observation ← on_db (currentOrEmptyObservation "read promoted observation" actor existing observedUnix);
      if match actor_last_checked observation with Some v => observedUnix <=? v | None => false end then mret None
      else
        on_db (wrapped "write promoted observation" (exec (update_observation actor (promoted_observation intent observedUnix)))) ;;
        failing "resolve discovery candidate" (execute (update_candidate actor (resolved_candidate observedUnix))) ;;
        insertDiscoveryCandidateEvent actor discoveryCandidateResolved DiscoveryCandidateResolved None (promotion_audit intent) observedUnix ;;
        mret (Some DiscoveryCandidatePromoted).
Definition PromoteDiscoveryCandidate (c : call) (intent : DiscoveryCandidatePromotionIntent) (observedAt : Z) (s : candidate_store)
    : result error string * candidate_store :=
  if negb (validateDiscoveryCandidatePromotionIntent intent) then (Err ErrDiscoveryCandidateMaintenanceWrite, s)
  else
    match observationUnix observedAt with
    | Err _ => (Err ErrDiscoveryCandidateMaintenanceWrite, s)
    | Ok observedUnix =>
        transact_unless c "commit discovery candidate promotion" DiscoveryCandidateSkipped (PromoteDiscoveryCandidate_tx intent observedUnix) s
    end.
End Checks.

(** ** run.go *)

(** A prober; an error of [ProbeActor] says whether the document or the key of the
    actor is to blame. *)
Record candidate_prober := CandidateProber { candidate_ProbeActor : string → result bool actor_probe; candidate_ProbeInbox : string → option inbox_probe }.
Record CandidateResult := CandidateResultOf {
  result_observed : Z; result_scanned : Z; result_promoted : Z; result_unreachable : Z; result_incompatible : Z; result_skipped : Z;
  result_truncated : bool }.
(** [probeResult]: a promotion whose audit is still empty, a failure or an error. *)
Inductive probe_result := ProbePromotion (intent : DiscoveryCandidatePromotionIntent) | ProbeFailure (failure : string) | ProbeError (e : error).

Definition no_audit : discovery_audit := {| audit_operator := ""; audit_reason := ""; audit_source_kind := ""; audit_source_label := "" |}.
(** [cancelled] is what [ctx.Err()] reports after a failed probe. *)
Definition candidate_probeOne (cancelled : bool) (p : candidate_prober) (c : DiscoveryCandidateCheck) : probe_result :=
  match candidate_ProbeActor p (check_actor c) with
  | Err invalid => if cancelled then ProbeError ErrContext
                   else ProbeFailure (if invalid then DiscoveryCandidateActorInvalid else DiscoveryCandidateActorUnreachable)
  | Ok actor =>
      if negb (ActorID actor ≟ check_actor c) then ProbeFailure DiscoveryCandidateActorInvalid
      else
        let promotion state := ProbePromotion {|
          promotion_actor := check_actor c; promotion_base := check_base c; promotion_inbox := ActorInbox actor; promotion_inbox_state := state;
          promotion_audit := no_audit |} in
        if ActorInbox actor ≟ "" then promotion InboxNotChecked
        else
          match candidate_ProbeInbox p (ActorInbox actor) with
          | None => if cancelled then ProbeError ErrContext else promotion InboxUnreachable
          | Some InboxProbeResponsive => promotion InboxResponsive
          | Some InboxProbeMethodRejected => promotion InboxMethodRejected
          | Some InboxProbeUnreachable => promotion InboxUnreachable
          | Some InboxProbeOther => ProbeError ErrRunnerConfiguration
          end
  end.

Definition candidateCursorAfter (candidate previous : candidate_cursor) : bool :=
  candidate_cursor_eqb previous candidate_start || (NextCheckUnix previous <? NextCheckUnix candidate) ||
  ((NextCheckUnix candidate =? NextCheckUnix previous) && key_ltb (CandidateURL previous) (CandidateURL candidate)).
Fixpoint validate_checks (observedUnix : Z) (previous : candidate_cursor) (checks : list DiscoveryCandidateCheck) : option candidate_cursor :=
  match checks with
  | [] => Some previous
  | c :: checks =>
      if (observedUnix <? check_next c) || negb (candidateCursorAfter (check_cursor c) previous) then None
      else validate_checks observedUnix (check_cursor c) checks
  end.
Definition candidate_validatePage (page : candidate_page) (after : candidate_cursor) (limit observedAt : Z) : bool :=
  let count := Z.of_nat (length (page_candidates page)) in
  if (limit <? count) || (MaximumDiscoveryCandidatePage <? count) then false
  else if count =? 0 then candidate_cursor_eqb (page_next page) candidate_start
  else
    match validate_checks (unix_of observedAt) after (page_candidates page) with
    | None => false
    | Some previous => candidate_cursor_eqb (page_next page) candidate_start || candidate_cursor_eqb (page_next page) previous
    end.

(** What the run sees of its repository, prober and context, over a world [W]. *)
Class CandidateWorld (W : Type) := {
  candidate_checks : candidate_query → W → result error candidate_page * W;
  candidate_retain : DiscoveryCandidateIntent → Z → W → result error string * W;
  candidate_promote : DiscoveryCandidatePromotionIntent → Z → W → result error string * W;
  candidate_world_prober : W → candidate_prober;
  candidate_cancelled : W → bool;
  (** per candidate: the [select] took the semaphore, and [ctx.Err() != nil] after a failed probe *)
  candidate_admitted : W → string → bool;
  candidate_cancelled_probe : W → string → bool;
  candidate_probed : W → W }.

Definition scanned_candidate (r : CandidateResult) : CandidateResult :=
  CandidateResultOf (result_observed r) (result_scanned r + 1) (result_promoted r) (result_unreachable r) (result_incompatible r) (result_skipped r) (result_truncated r).
Definition truncated_candidates (r : CandidateResult) : CandidateResult :=
  CandidateResultOf (result_observed r) (result_scanned r) (result_promoted r) (result_unreachable r) (result_incompatible r) (result_skipped r) true.
Definition tally_promotion (outcome : string) (r : CandidateResult) : option CandidateResult :=
  let '(CandidateResultOf o s p u i k t) := r in
  if outcome ≟ DiscoveryCandidatePromoted then Some (CandidateResultOf o s (p + 1) u i k t)
  else if outcome ≟ DiscoveryCandidateSkipped then Some (CandidateResultOf o s p u i (k + 1) t)
  else None.
(** The state of a failure and the result that counts it. *)
Definition tally_failure (failure : string) (r : CandidateResult) : option (string * CandidateResult) :=
  let '(CandidateResultOf o s p u i k t) := r in
  if failure ≟ DiscoveryCandidateActorInvalid then Some (DiscoveryCandidateIncompatible, CandidateResultOf o s p u (i + 1) k t)
  else if failure ≟ DiscoveryCandidateActorUnreachable then Some (DiscoveryCandidateUnreachable, CandidateResultOf o s p (u + 1) i k t)
  else None.

Section Run.
Context {W : Type} `{CandidateWorld W}.

Definition candidate_probePage (checks : list DiscoveryCandidateCheck) (w : W) : list (DiscoveryCandidateCheck * probe_result) :=
  map (λ c, (c, if candidate_admitted w (check_actor c) then candidate_probeOne (candidate_cancelled_probe w (check_actor c)) (candidate_world_prober w) c
                else ProbeError ErrContext)) checks.
(** The serialized writes of one page. *)
Fixpoint write_page (probes : list (DiscoveryCandidateCheck * probe_result)) (observedAt : Z) (r : CandidateResult) (w : W)
    : (CandidateResult + CandidateResult * error) * W :=
  match probes with
  | [] => (inl r, w)
  | (_, ProbeError e) :: _ => (inr (r, e), w)
  | (c, ProbePromotion intent) :: rest =>
      let r := scanned_candidate r in
      let intent := {| promotion_actor := promotion_actor intent; promotion_base := promotion_base intent; promotion_inbox := promotion_inbox intent;
                       promotion_inbox_state := promotion_inbox_state intent; promotion_audit := check_audit c |} in
      let '(outcome, w) := candidate_promote intent observedAt w in
      match outcome with
      | Err e => (inr (r, e), w)
      | Ok outcome =>
          match tally_promotion outcome r with
          | None => (inr (r, ErrRunnerConfiguration), w)
          | Some r => write_page rest observedAt r w
          end
      end
  | (c, ProbeFailure failure) :: rest =>
      let r := scanned_candidate r in
      match tally_failure failure r with
      | None => (inr (r, ErrRunnerConfiguration), w)
      | Some (state, r) =>
          let '(outcome, w) := candidate_retain {|
            candidate_intent_actor := check_actor c; candidate_intent_base := check_base c; candidate_intent_state := state;
            candidate_intent_failure := failure; candidate_intent_audit := check_audit c |} observedAt w in
          match outcome with
          | Err e => (inr (r, e), w)
          | Ok _ => write_page rest observedAt r w
          end
      end
  end.
Fixpoint candidate_loop (fuel : nat) (observedAt : Z) (after : candidate_cursor) (r : CandidateResult) (w : W)
    : option (CandidateResult * option error * W) :=
  match fuel with
  | O => None
  | S fuel =>
      if negb (result_scanned r <? MaximumDiscoveryCandidateAttempts) then Some (r, None, w)
      else if candidate_cancelled w then Some (r, Some ErrContext, w)
      else
        let limit := Z.min MaximumDiscoveryCandidatePage (MaximumDiscoveryCandidateAttempts - result_scanned r) in
        let '(answer, w) := candidate_checks (CandidateQuery after limit observedAt) w in
        match answer with
        | Err e => Some (r, Some e, w)
        | Ok page =>
            if negb (candidate_validatePage page after limit observedAt) then Some (r, Some ErrRunnerConfiguration, w)
            else if (length (page_candidates page) =? 0)%nat then Some (r, None, w)
            else
              let probes := candidate_probePage (page_candidates page) w in
              match write_page probes observedAt r (candidate_probed w) with
              | (inr (r, e), w) => Some (r, Some e, w)
              | (inl r, w) =>
                  if candidate_cursor_eqb (page_next page) candidate_start then Some (r, None, w)
                  else if result_scanned r =? MaximumDiscoveryCandidateAttempts then Some (truncated_candidates r, None, w)
                  else candidate_loop fuel observedAt (page_next page) r w
              end
        end
  end.
(** Each iteration scans a candidate or returns. *)
Definition candidate_fuel : nat := 97.
Definition candidate_Run (observedAt : Z) (w : W) : option (CandidateResult * option error * W) :=
  let r := CandidateResultOf (unix_of observedAt) 0 0 0 0 0 false in
  if result_observed r <? 0 then Some (r, Some ErrRunnerConfiguration, w)
  else candidate_loop candidate_fuel observedAt candidate_start r w.
End Run.
