(* ===== verification/Pruning.v ===== *)
(** * Pruning: soft-pruning candidates, the transition and the bounded run

    [internal/storage/sqlite/pruning.go] over the database of [Store], and
    [internal/pruning/run.go] against an abstract repository. *)
From S2P Require Import Prelude Identity Vocabulary Store Repository Reachability.
Local Open Scope string_scope.
Local Open Scope Z_scope.
Local Open Scope go_scope.
Local Open Scope list_scope.

(** [storage.PruneCandidateCursor] *)
Record prune_cursor := PruneCursor { prune_last_seen : Z; prune_actor : string }.
Definition prune_start : prune_cursor := PruneCursor 0 "".
Definition prune_cursor_eqb (x y : prune_cursor) : bool :=
  (prune_last_seen x =? prune_last_seen y) && (prune_actor x ≟ prune_actor y).
Definition prune_cursor_valid (cursor : prune_cursor) : bool :=
  if prune_cursor_eqb cursor prune_start then true
  else (0 <=? prune_last_seen cursor) && negb (prune_actor cursor ≟ "").
Definition cursor_key (cursor : prune_cursor) : Z * string := (prune_last_seen cursor, prune_actor cursor).

Record prune_query := PruneQuery { prune_after : prune_cursor; prune_limit : Z; prune_observed : Z }.
Record prune_candidate := PruneCandidate {
  pruned_actor : string; pruned_base : string; pruned_administrative : string; pruned_last_seen : Z }.
Record prune_page := PrunePage { prune_candidates : list prune_candidate; prune_next : prune_cursor }.
Definition candidate_position (c : prune_candidate) : prune_cursor :=
  PruneCursor (pruned_last_seen c) (pruned_actor c).

(** [actor_state = 'reachable' AND actor_last_success_at_unix >= cutoff] *)
Definition recently_reachable (reachabilityCutoff : Z) (o : observation_row) : bool :=
  (actor_state o ≟ ReachabilityReachable) &&
  match actor_last_success o with Some v => reachabilityCutoff <=? v | None => false end.

Definition prune_due (cutoff reachabilityCutoff : Z) (d : db) (actor : string) (r : relay_row) : bool :=
  (lifecycle_state r ≟ lifecycleRegistered) && (last_seen_at_unix r <=? cutoff) &&
  negb (match observations d !! actor with Some o => recently_reachable reachabilityCutoff o | None => false end).

Definition prune_key (row : string * relay_row) : Z * string := (last_seen_at_unix row.2, row.1).

(** The WHERE clause without the cursor, and the whole query. *)
Definition prune_rows (cutoff reachabilityCutoff : Z) (d : db) : list (string * relay_row) :=
  List.filter (λ row, prune_due cutoff reachabilityCutoff d row.1 row.2) (map_to_list (relays d)).
Definition dead_cutoff (observedUnix : Z) : Z := int64_sub observedUnix (seconds_of DeadBefore).
Definition fresh_cutoff (observedUnix : Z) : Z := int64_sub observedUnix (seconds_of ReachabilityFreshness).
Definition prune_page_rows (q : prune_query) (d : db) : list (string * relay_row) :=
  let observedUnix := unix_of (prune_observed q) in
  take (S (Z.to_nat (prune_limit q)))
    (rows_after prune_key (cursor_key (prune_after q))
       (order_by prune_key (prune_rows (dead_cutoff observedUnix) (fresh_cutoff observedUnix) d))).

Definition prune_relay (t : Z) (r : relay_row) : relay_row := {|
  public_base_url := public_base_url r; lifecycle_state := lifecyclePruned;
  administrative_state := administrative_state r;
  first_registered_at_unix := first_registered_at_unix r;
  updated_at_unix := t; last_seen_at_unix := last_seen_at_unix r;
  last_heartbeat_at_unix := last_heartbeat_at_unix r;
  unregistered_at_unix := unregistered_at_unix r; pruned_at_unix := Some t;
  suspended_at_unix := suspended_at_unix r |}.

Section Operations.
Context `{RelayIdentity}.

Definition decode_prune (cutoff : Z) (row : string * relay_row) : result error prune_candidate :=
  let '(actor, r) := row in
  if negb (canonical_identity actor (public_base_url r)) then
    Err (storageFailure "validate soft-pruning candidate" ErrInvalidState)
  else if negb (RelayAdministrativeState_Valid (administrative_state r)) || (last_seen_at_unix r <? 0) ||
          (cutoff <? last_seen_at_unix r) then
    Err (storageFailure "validate soft-pruning candidate" ErrInvalidState)
  else Ok (PruneCandidate actor (public_base_url r) (administrative_state r) (last_seen_at_unix r)).

Definition PruneCandidates_query (q : prune_query) : Tx prune_page :=
  let observedUnix := unix_of (prune_observed q) in
  let cutoff := dead_cutoff observedUnix in
  check (negb (negb (prune_cursor_valid (prune_after q)) || (prune_limit q <=? 0) ||
               (MaximumPruneCandidatePage <? prune_limit q) ||
               (negb (prune_cursor_eqb (prune_after q) prune_start) &&
                negb (validHealthProjectionActor (prune_actor (prune_after q)))))) ErrPruningReadInput ;;
  check (negb (observedUnix <? 0)) ErrPruningReadInput ;;
  check (negb (negb (prune_cursor_eqb (prune_after q) prune_start) &&
               (cutoff <? prune_last_seen (prune_after q)))) ErrPruningReadInput ;;
  rows ← wrapped "read soft-pruning candidates" (query (prune_page_rows q));
  '(candidates, more) ← scan_rows "decode soft-pruning candidate" "iterate soft-pruning candidates"
      (decode_prune cutoff) (Z.to_nat (prune_limit q)) [] rows;
  mret (PrunePage candidates
          (match list.last candidates with
           | Some c => if (more : bool) then candidate_position c else prune_start
           | None => prune_start
           end)).

Definition PruneCandidates (c : call) (q : prune_query) (d : db) : result error prune_page :=
  run_read c (PruneCandidates_query q) d.

(** [requireMonotonicTime] whose [ErrTransitionTime] means "not eligible". *)
Definition monotonic_or_stale (relayActor : string) (observedUnix : Z) (relay : option relayRecord)
    : Tx bool := λ st,
  match requireMonotonicTime relayActor observedUnix relay st with
  | (Ok _, st') => (Ok true, st')
  | (Err ErrTransitionTime, st') => (Ok false, st')
  | (Err e, st') => (Err e, st')
  end.

Definition SoftPrune_tx (relayActor : string) (observedUnix : Z) : Tx string :=
  let cutoff := dead_cutoff observedUnix in
  relay ← wrapped "read relay for soft pruning" (selectRelay relayActor);
  match relay with
  | None => mret PruneNotEligible
  | Some r =>
      if lifecycleState r ≟ lifecyclePruned then mret PruneAlreadyPruned
      else if negb (lifecycleState r ≟ lifecycleRegistered) || (cutoff <? lastSeenAtUnix r)
      then mret PruneNotEligible
      else
        observation ← wrapped "read reachability for soft pruning" (selectObservation relayActor);
        if match observation with Some o => recently_reachable (fresh_cutoff observedUnix) o | None => false end
        then mret PruneNotEligible
        else
          monotonic ← monotonic_or_stale relayActor observedUnix relay;
          if negb monotonic then mret PruneNotEligible
          else
            rowsAffected ← wrapped "write soft-pruning transition"
              (exec (update_relay relayActor
                       (λ row, (lifecycle_state row ≟ lifecycleRegistered) &&
                               (last_seen_at_unix row <=? cutoff))
                       (prune_relay observedUnix)));
            wrapped "inspect soft-pruning transition" driver ;;
            check (rowsAffected =? 1) (storageFailure "write soft-pruning transition" ErrInvalidState) ;;
            insertRelayEvent relayActor eventRelayPruned observedUnix ;;
            wrapped "commit soft-pruning transition" commit ;;
            mret PruneApplied
  end.

Definition SoftPrune (c : call) (relayActor : string) (observedAt : Z) (d : db)
    : result error string * db :=
  if negb (validateIdentityIntent relayActor) then (Err ErrTransitionInput, d)
  else
    match transitionUnix observedAt with
    | Err e => (Err e, d)
    | Ok observedUnix => in_transaction c (SoftPrune_tx relayActor observedUnix) d
    end.
End Operations.

(** ** run.go *)

Record prune_result := PruneResult {
  prune_observed_unix : Z; prune_scanned : Z; prune_pruned : Z; prune_skipped : Z;
  prune_truncated : bool }.

(** [storage.PruningRepository] and the context, over a world [W]. *)
Class PruningWorld (W : Type) := {
  repository_candidates : prune_query → W → result error prune_page * W;
  repository_prune : string → Z → W → result error string * W;
  context_done : W → bool }.

Definition count_outcome (outcome : string) (r : prune_result) : prune_result :=
  if outcome ≟ PruneApplied then
    PruneResult (prune_observed_unix r) (prune_scanned r + 1) (prune_pruned r + 1) (prune_skipped r)
      (prune_truncated r)
  else
    PruneResult (prune_observed_unix r) (prune_scanned r + 1) (prune_pruned r) (prune_skipped r + 1)
      (prune_truncated r).
Definition set_truncated (r : prune_result) : prune_result :=
  PruneResult (prune_observed_unix r) (prune_scanned r) (prune_pruned r) (prune_skipped r) true.

(** [cursorAfter(candidate, previous)] *)
Definition prune_cursorAfter (candidate previous : prune_cursor) : bool :=
  (prune_last_seen previous <? prune_last_seen candidate) ||
  ((prune_last_seen candidate =? prune_last_seen previous) &&
   key_ltb (prune_actor previous) (prune_actor candidate)).

Section PruneRun.
Context `{RelayIdentity} {W : Type} `{PruningWorld W}.

(** The loop over one page: [inl] the result and position after the whole
    page, [inr] the result and error the run returns at once. *)
Fixpoint prune_page_loop (observedAt cutoff : Z) (position : prune_cursor)
    (candidates : list prune_candidate) (r : prune_result) (w : W)
    : (prune_result * prune_cursor + prune_result * error) * W :=
  match candidates with
  | [] => (inl (r, position), w)
  | candidate :: rest =>
      let candidatePosition := candidate_position candidate in
      if negb (prune_cursor_valid candidatePosition) || negb (canonical_actor (pruned_actor candidate)) ||
         negb (RelayAdministrativeState_Valid (pruned_administrative candidate)) ||
         (cutoff <? pruned_last_seen candidate) || negb (prune_cursorAfter candidatePosition position)
      then (inr (r, ErrRunnerConfiguration), w)
      else if context_done w then (inr (r, ErrContext), w)
      else
        let '(outcome, w) := repository_prune (pruned_actor candidate) observedAt w in
        match outcome with
        | Err e => (inr (r, e), w)
        | Ok outcome =>
            if negb (PruneOutcome_Valid outcome) then (inr (r, ErrRunnerConfiguration), w)
            else prune_page_loop observedAt cutoff candidatePosition rest (count_outcome outcome r) w
        end
  end.

Fixpoint prune_loop (fuel : nat) (observedAt cutoff : Z) (cursor : prune_cursor) (r : prune_result) (w : W)
    : option (prune_result * option error * W) :=
  match fuel with
  | O => None
  | S fuel =>
      if negb (prune_scanned r <? MaximumSoftPruneAttemptsPerRun) then Some (r, None, w)
      else
        let limit := Z.min MaximumPruneCandidatePage (MaximumSoftPruneAttemptsPerRun - prune_scanned r) in
        let '(answer, w) := repository_candidates (PruneQuery cursor limit observedAt) w in
        match answer with
        | Err e => Some (r, Some e, w)
        | Ok page =>
            if (length (prune_candidates page) =? 0)%nat then
              if prune_cursor_eqb (prune_next page) prune_start then Some (r, None, w)
              else Some (r, Some ErrRunnerConfiguration, w)
            else if limit <? Z.of_nat (length (prune_candidates page))
            then Some (r, Some ErrRunnerConfiguration, w)
            else
              let '(done, w) := prune_page_loop observedAt cutoff cursor (prune_candidates page) r w in
              match done with
              | inr (r, e) => Some (r, Some e, w)
              | inl (r, position) =>
                  if prune_cursor_eqb (prune_next page) prune_start then Some (r, None, w)
                  else if negb (prune_cursor_valid (prune_next page)) ||
                          negb (prune_cursor_eqb (prune_next page) position)
                  then Some (r, Some ErrRunnerConfiguration, w)
                  else if prune_scanned r =? MaximumSoftPruneAttemptsPerRun
                  then Some (set_truncated r, None, w)
                  else prune_loop fuel observedAt cutoff (prune_next page) r w
              end
        end
  end.

(** Each iteration scans a candidate or returns, so [prune_fuel] iterations
    are enough. *)
Definition prune_fuel : nat := Z.to_nat (MaximumSoftPruneAttemptsPerRun + 1).
Definition PruneRun (observedAt : Z) (w : W) : option (prune_result * option error * W) :=
  let observedUnix := unix_of observedAt in
  let r := PruneResult observedUnix 0 0 0 false in
  if observedUnix <? 0 then Some (PruneResult 0 0 0 0 false, Some ErrRunnerConfiguration, w)
  else if context_done w then Some (PruneResult 0 0 0 0 false, Some ErrContext, w)
  else prune_loop prune_fuel observedAt (dead_cutoff observedUnix) prune_start r w.
End PruneRun.

(** ** Every operation settles *)

Section Settles.
Context `{RelayIdentity}.

Lemma body_monotonic_or_stale actor t relay : TxBody (monotonic_or_stale actor t relay).
Proof.
  unfold monotonic_or_stale. destruct (body_requireMonotonicTime actor t relay) as [[Hf Hn He] Hd].
  split; [split|].
  - intros d w fs. specialize (Hf d w fs). specialize (Hd d w).
    destruct (requireMonotonicTime actor t relay (TX d w fs)) as [r st],
      (requireMonotonicTime actor t relay (TX d w [])) as [r0 st0]; simpl in *.
    destruct Hf as [(-> & ? & ?)|(e & -> & Hs & ?)].
    + left. by destruct r0 as [|[]].
    + right. exists e. by destruct e.
  - intros d w. specialize (Hn d w).
    destruct (requireMonotonicTime actor t relay (TX d w [])) as [[[]|[]] st]; done.
  - intros d w e _. specialize (Hd d w).
    destruct (requireMonotonicTime actor t relay (TX d w [])) as [[[]|[]] st]; done.
  - intros d w. specialize (Hd d w).
    destruct (requireMonotonicTime actor t relay (TX d w [])) as [[[]|[]] st]; done.
Qed.
Hint Resolve body_monotonic_or_stale : tx_body.

Lemma settles_SoftPrune actor t : settles (λ c d, SoftPrune c actor t d).
Proof. unfold SoftPrune. settle. unfold SoftPrune_tx. tx_calls. Qed.
End Settles.
