(* ===== verification/Invariant.v ===== *)
(** * Invariant: what every reachable database satisfies

    [db_ok] gathers the CHECK constraints of the tables and the facts no single
    constraint states: identities are canonical, observations belong to retained
    identities, RFC 9421 evidence never exceeds the relay's last event unless the
    relay was purged with its events and only its discovery is left, probe
    diagnostics belong to a checked actor and schedule at least an hour ahead.
    The statements of [Store] preserve it. *)
From S2P Require Import Prelude Identity Vocabulary Store Repository Lifecycle Discovery Reachability Pruning.
Local Open Scope string_scope.
Local Open Scope Z_scope.
Local Open Scope go_scope.
Local Open Scope list_scope.

(** ** Relay rows *)

Definition within (lo hi : Z) (x : option Z) : Prop := ∀ v, x = Some v → lo ≤ v ≤ hi.

Definition relay_wf (actor : string) (r : relay_row) : Prop :=
  (1 ≤ len actor ≤ 4096 ∧ 1 ≤ len (public_base_url r) ≤ 2048) ∧
  (0 ≤ first_registered_at_unix r ≤ updated_at_unix r ∧ first_registered_at_unix r ≤ last_seen_at_unix r) ∧
  within (first_registered_at_unix r) (Z.min (updated_at_unix r) (last_seen_at_unix r)) (last_heartbeat_at_unix r) ∧
  ((lifecycle_state r = lifecycleRegistered ∧ unregistered_at_unix r = None ∧ pruned_at_unix r = None) ∨
   (lifecycle_state r = lifecycleUnregistered ∧ pruned_at_unix r = None ∧
     ∃ t, unregistered_at_unix r = Some t ∧ first_registered_at_unix r ≤ t ≤ updated_at_unix r) ∨
   (lifecycle_state r = lifecyclePruned ∧ unregistered_at_unix r = None ∧
     ∃ t, pruned_at_unix r = Some t ∧ last_seen_at_unix r ≤ t ≤ updated_at_unix r)) ∧
  ((administrative_state r = administrativeActive ∧ suspended_at_unix r = None) ∨
   (administrative_state r = administrativeSuspended ∧
     ∃ t, suspended_at_unix r = Some t ∧ first_registered_at_unix r ≤ t ≤ updated_at_unix r)).

Lemma within_some lo hi v : within lo hi (Some v) ↔ lo ≤ v ≤ hi.
Proof. split; [intros Hw; by apply Hw|by intros ? ? [= <-]]. Qed.
Lemma within_none lo hi : within lo hi None ↔ True.
Proof. split; [done|by intros ? ?]. Qed.

Lemma within_widen lo hi hi' x : within lo hi x → hi ≤ hi' → within lo hi' x.
Proof. intros Hw Hh v Hv. specialize (Hw v Hv). lia. Qed.

Lemma RelayLifecycleState_Valid_cases s : RelayLifecycleState_Valid s = true →
  s = lifecycleRegistered ∨ s = lifecycleUnregistered ∨ s = lifecyclePruned.
Proof. unfold RelayLifecycleState_Valid. repeat case_str; auto; done. Qed.
Lemma RelayAdministrativeState_Valid_cases s : RelayAdministrativeState_Valid s = true →
  s = administrativeActive ∨ s = administrativeSuspended.
Proof. unfold RelayAdministrativeState_Valid. repeat case_str; auto; done. Qed.

Ltac relay_fields :=
  cbn [public_base_url lifecycle_state administrative_state first_registered_at_unix updated_at_unix
       last_seen_at_unix last_heartbeat_at_unix unregistered_at_unix pruned_at_unix suspended_at_unix].

Lemma relay_check_wf actor r : relay_check actor r = true → relay_wf actor r.
Proof.
  destruct r as [base lc ad fr up ls hb un pr su].
  unfold relay_check, relay_wf, blob_length_between. 
  relay_fields. intros Hc.
  bool_facts.
  destruct (RelayLifecycleState_Valid_cases lc) as [->|[->| ->]]; [done|..];
  (destruct (RelayAdministrativeState_Valid_cases ad) as [->| ->]; [done|..]); str_consts;
  destruct un, pr; try discriminate; destruct su; try discriminate; destruct hb;
  cbn [null_or andb orb is_null not_null negb] in *; bool_facts; rewrite ?within_some, ?within_none;
  repeat split; try lia; eauto 10 with lia.
Qed.
Lemma relay_wf_check actor r : relay_wf actor r → relay_check actor r = true.
Proof.
  destruct r as [base lc ad fr up ls hb un pr su].
  unfold relay_check, relay_wf, blob_length_between. 
  relay_fields.
  intros ([??]&[??]&Hh&Hl&Ha).
  destruct Hl as [(->& -> & ->)|[(->& -> & t & -> & ?)|(->& -> & t & -> & ?)]];
  destruct Ha as [[-> ->]|(-> & u & -> & ?)]; destruct hb as [h|]; rewrite ?within_some in Hh;
  unfold RelayLifecycleState_Valid, RelayAdministrativeState_Valid; str_consts;
  cbn [null_or andb orb is_null not_null negb]; bool_lia. 
Qed.

Lemma relay_check_new actor base t :
  1 ≤ len actor ≤ 4096 → 1 ≤ len base ≤ 2048 → 0 ≤ t → relay_check actor (new_relay base t) = true.
Proof.
  intros. apply relay_wf_check. unfold relay_wf; simpl. rewrite within_some.
  split_and!; try lia; by left.
Qed.

(** Facts of a row used by every transition. *)
Ltac relay_transition H :=
  apply relay_check_wf in H as ([??]&[??]&Hhb&Hlc&Had); apply relay_wf_check; unfold relay_wf; simpl;
  rewrite ?within_some; split_and!; try lia; try done.

Section Rows.
Context (actor : string) (r : relay_row) (t : Z) (Hr : relay_check actor r = true)
        (Hup : updated_at_unix r ≤ t).

Lemma administrative_kept (u : Z) : updated_at_unix r ≤ u →
  (administrative_state r = administrativeActive ∧ suspended_at_unix r = None) ∨
  (administrative_state r = administrativeSuspended ∧
   ∃ s, suspended_at_unix r = Some s ∧ first_registered_at_unix r ≤ s ≤ u).
Proof using Hr.
  intros Hu. apply relay_check_wf in Hr as (_&_&_&_&[?|(?&s&?&?)]); [by left|right].
  split; [done|]. exists s. split; [done|lia].
Qed.

Lemma heartbeat_kept (u : Z) : updated_at_unix r ≤ u →
  within (first_registered_at_unix r) (Z.min u (last_seen_at_unix r)) (last_heartbeat_at_unix r).
Proof using Hr.
  intros Hu v Hv. apply relay_check_wf in Hr as (_&_&Hh&_&_). specialize (Hh v Hv). lia.
Qed.

Lemma relay_check_refresh : last_seen_at_unix r ≤ t → lifecycle_state r = lifecycleRegistered →
  relay_check actor (refresh_relay t r) = true.
Proof using Hr Hup.
  intros Hls Hreg. pose proof (administrative_kept t Hup). relay_transition Hr.
  left. destruct Hlc as [?|[[Heq _]|[Heq _]]]; [done|by rewrite Heq in Hreg..].
Qed.

Lemma relay_check_reregister base : last_seen_at_unix r ≤ t → 1 ≤ len base ≤ 2048 →
  relay_check actor (reregister_relay base t r) = true.
Proof using Hr Hup.
  intros. pose proof (administrative_kept t Hup). relay_transition Hr. by left.
Qed.

Lemma relay_check_unregister : lifecycle_state r = lifecycleRegistered →
  relay_check actor (unregister_relay t r) = true.
Proof using Hr Hup.
  intros Hreg. pose proof (administrative_kept t Hup). pose proof (heartbeat_kept t Hup).
  relay_transition Hr. right; left.
  destruct Hlc as [(_&_&?)|[[Heq _]|[Heq _]]]; [|by rewrite Heq in Hreg..].
  split; [done|]. split; [done|]. exists t. split; [done|lia].
Qed.

Lemma relay_check_prune : last_seen_at_unix r ≤ t → lifecycle_state r = lifecycleRegistered →
  relay_check actor (prune_relay t r) = true.
Proof using Hr Hup.
  intros Hls Hreg. pose proof (administrative_kept t Hup). pose proof (heartbeat_kept t Hup).
  relay_transition Hr. right; right.
  destruct Hlc as [(_&?&_)|[[Heq _]|[Heq _]]]; [|by rewrite Heq in Hreg..].
  split; [done|]. split; [done|]. exists t. split; [done|lia].
Qed.

Lemma relay_check_moderate target :
  target = administrativeActive ∨ target = administrativeSuspended →
  relay_check actor
    (moderate_relay target (if target ≟ administrativeSuspended then Some t else None) t r) = true.
Proof using Hr Hup.
  intros Ht. pose proof (heartbeat_kept t Hup). relay_transition Hr.
  - destruct Hlc as [?|[(?&?&u&?&?)|(?&?&u&?&?)]]; [by left|right; left|right; right].
    all: split; [done|]; split; [done|]; exists u; split; [done|lia].
  - destruct Ht as [-> | ->]; str_consts; [by left|right]. split; [done|]. exists t. split; [done|lia].
Qed.
End Rows.

(** ** Observation rows *)

Definition observation_wf (actor : string) (o : observation_row) : Prop :=
  (1 ≤ len actor ≤ 4096 ∧ 0 ≤ observation_updated o ∧ 1 ≤ revision o) ∧
  (within 0 (observation_updated o) (actor_last_checked o) ∧
   within 0 (observation_updated o) (actor_last_success o) ∧
   within 0 (observation_updated o) (inbox_declared o) ∧
   within 0 (observation_updated o) (inbox_last_checked o) ∧
   within 0 (observation_updated o) (rfc9421_verified o)) ∧
  ((actor_state o = ReachabilityUnknown ∧ actor_last_checked o = None ∧ actor_last_success o = None) ∨
   (actor_state o = ReachabilityReachable ∧ ∃ c, actor_last_checked o = Some c ∧ actor_last_success o = Some c) ∨
   (actor_state o = ReachabilityUnreachable ∧
    ∃ c, actor_last_checked o = Some c ∧ within 0 c (actor_last_success o))) ∧
  ((inbox_url o = None ∧ inbox_declared o = None) ∨
   (∃ u v, inbox_url o = Some u ∧ 1 ≤ len u ≤ 4096 ∧ inbox_declared o = Some v)) ∧
  ((inbox_probe_state o = InboxNotChecked ∧ inbox_last_checked o = None) ∨
   (inbox_probe_state o ≠ InboxNotChecked ∧ InboxProbeState_Valid (inbox_probe_state o) = true ∧
    is_Some (inbox_last_checked o))).

Ltac observation_fields :=
  cbn [actor_state actor_last_checked actor_last_success inbox_url inbox_declared inbox_probe_state
       inbox_last_checked rfc9421_verified observation_updated revision].

Lemma ReachabilityState_Valid_cases s : ReachabilityState_Valid s = true →
  s = ReachabilityUnknown ∨ s = ReachabilityReachable ∨ s = ReachabilityUnreachable.
Proof. unfold ReachabilityState_Valid. repeat case_str; auto; done. Qed.

Lemma null_or_within lo hi x :
  null_or (Z.leb lo) x = true → null_or (λ v, v <=? hi) x = true → within lo hi x.
Proof. intros Hl Hh v ->. simpl in *. bool_facts. lia. Qed.
Lemma within_null_or lo hi x : within lo hi x →
  null_or (Z.leb lo) x = true ∧ null_or (λ v, v <=? hi) x = true.
Proof.
  intros Hw. destruct x as [v|]; simpl; [|done]. specialize (Hw v eq_refl). split; bool_lia.
Qed.

Lemma observation_check_wf actor o : observation_check actor o = true → observation_wf actor o.
Proof.
  destruct o as [st lc ls iu de ps ic ve up rv]. unfold observation_check, observation_wf, blob_length_between.
  observation_fields. intros Hc. bool_facts.
  split; [lia|]. split; [by split_and!; apply null_or_within|]. split.
  - destruct (ReachabilityState_Valid_cases st) as [->|[->| ->]]; [done|..]; str_consts;
      destruct lc as [c|]; try discriminate; destruct ls as [s|]; try discriminate;
      cbn [null_or andb orb is_null] in *; rewrite ?orb_false_r in *; bool_facts; subst; eauto 10.
    + right; right. split; [done|]. exists c. rewrite within_some. split; [done|lia].
    + right; right. split; [done|]. exists c. by rewrite within_none.
  - split.
    + destruct iu as [u|], de as [v|]; try discriminate; [right|by left]. exists u, v. simpl in *. bool_facts.
      split; [done|split; [lia|done]].
    + destruct (String.eqb_spec ps InboxNotChecked) as [->|]; destruct ic; try discriminate; [by left|].
      right. split; [done|]. split; [done|by eexists].
Qed.

Lemma observation_wf_check actor o : observation_wf actor o → observation_check actor o = true.
Proof.
  destruct o as [st lc ls iu de ps ic ve up rv]. unfold observation_check, observation_wf, blob_length_between.
  observation_fields. intros ((?&?&?)&(Hw1&Hw2&Hw3&Hw4&Hw5)&Hst&Hin&Hps).
  destruct (within_null_or _ _ _ Hw1) as [-> ->], (within_null_or _ _ _ Hw2) as [-> ->],
    (within_null_or _ _ _ Hw3) as [-> ->], (within_null_or _ _ _ Hw4) as [-> ->],
    (within_null_or _ _ _ Hw5) as [-> ->].
  assert (Hi : null_or (λ s, (1 <=? len s) && (len s <=? 4096)) iu = true ∧
               Bool.eqb (is_null iu) (is_null de) = true).
  { destruct Hin as [[-> ->]|(u&v&->&?&->)]; [done|]. simpl. split; [bool_lia|done]. }
  destruct Hi as [Hi1 Hi2]. rewrite Hi1, Hi2.
  assert (Hp : InboxProbeState_Valid ps = true ∧
    ((ps ≟ InboxNotChecked) && is_null ic) || (negb (ps ≟ InboxNotChecked) && not_null ic) = true).
  { destruct Hps as [[-> ->]|(Hne&Hv&[? ->])]; [done|]. split; [done|].
    by rewrite (proj2 (String.eqb_neq _ _) Hne). }
  destruct Hp as [Hp1 Hp2]. rewrite Hp1, Hp2.
  assert (Hs : ReachabilityState_Valid st = true) by (by destruct Hst as [[-> _]|[[-> _]|[-> _]]]).
  rewrite Hs.
  destruct Hst as [(->&->&->)|[(->&c&->&->)|(->&c&->&Hc)]]; str_consts;
    cbn [null_or andb orb is_null]; rewrite ?Z.eqb_refl; [bool_lia..|].
  destruct (within_null_or _ _ _ Hc) as [_ ->]. bool_lia.
Qed.

Lemma observation_check_verify actor o t :
  observation_check actor o = true → 0 ≤ t →
  observation_check actor (verify_row t (maxInt64 (observation_updated o) t) o) = true.
Proof.
  intros Ho Ht. apply observation_check_wf in Ho as ((?&?&?)&(Hw1&Hw2&Hw3&Hw4&Hw5)&?&?&?).
  apply observation_wf_check. unfold observation_wf. rewrite maxInt64_max; simpl. rewrite within_some.
  split_and!; try lia; try done; (eapply within_widen; [eassumption|lia]).
Qed.

Lemma observation_check_empty actor t :
  1 ≤ len actor ≤ 4096 → 0 ≤ t → observation_check actor (empty_observation t) = true.
Proof.
  intros. apply observation_wf_check. unfold observation_wf; simpl. rewrite !within_none.
  split_and!; try lia; try done; by left.
Qed.

(** ** The database invariant *)

Section DatabaseInvariant.
Context `{RelayIdentity}.

(** [pending a v]: RFC 9421 evidence [v] of [a] whose event is still to be written. *)
Record db_inv (pending : string → Z → Prop) (d : db) : Prop := {
  inv_relays : ∀ a r, relays d !! a = Some r →
    relay_check a r = true ∧ canonical_identity a (public_base_url r) = true;
  inv_relay_events : Forall (λ e, relay_event_check e = true ∧ event_id e ≤ relay_event_seq d)
                       (relay_events d);
  inv_moderation_events : Forall (λ e, moderation_event_check e = true ∧
                                       moderation_event_id e ≤ moderation_event_seq d)
                            (moderation_events d);
  inv_policy : ∃ p, policy d = Some p ∧ policy_check p = true;
  inv_enrollment_events : Forall (λ e, enrollment_event_check e = true) (enrollment_events d);
  inv_discoveries : ∀ a r, discoveries d !! a = Some r →
    discovery_check a r = true ∧ canonical_identity a (discovery_base r) = true;
  inv_discovery_events : Forall (λ e, discovery_event_check e = true ∧
                                      discovery_event_id e ≤ discovery_event_seq d)
                           (discovery_events d);
  inv_observations : ∀ a o, observations d !! a = Some o →
    observation_check a o = true ∧ retained_identity a d = true;
  inv_verified : ∀ a o v, observations d !! a = Some o → rfc9421_verified o = Some v →
    pending a v ∨ (relays d !! a = None ∧ latest_relay_event a d = None) ∨ ∃ m, latest_relay_event a d = Some m ∧ v ≤ m;
  inv_diagnostics : ∀ a g, diagnostics d !! a = Some g →
    diagnostic_check g = true ∧
    diagnostic_updated g + seconds_of ReachabilityFailureRetryMinimum ≤ next_check_at g ∧
    ∃ o c, observations d !! a = Some o ∧ actor_last_checked o = Some c ∧ diagnostic_updated g ≤ c }.

Definition nothing_pending (a : string) (v : Z) : Prop := False.
Definition db_ok (d : db) : Prop := db_inv nothing_pending d.

Lemma initial_db_ok : db_ok initial_db.
Proof.
  split; simpl; try (by constructor); try (intros *; by rewrite lookup_empty).
  exists (PolicyRow 0 0). done.
Qed.

Lemma canonical_identity_actor a u : canonical_identity a u = true → canonical_actor a = true.
Proof.
  unfold canonical_identity, canonical_actor.
  destruct (norm_identity a u) as [[a' u']|] eqn:Hn; [|done].
  apply norm_identity_actor in Hn. rewrite Hn. by intros [? _]%andb_true_iff.
Qed.

(** A canonical actor has exactly one canonical base URL. *)
Lemma canonical_identity_base a u1 u2 :
  canonical_identity a u1 = true → canonical_identity a u2 = true → u1 = u2.
Proof.
  unfold canonical_identity.
  destruct (norm_identity a u1) as [[a1 v1]|] eqn:H1; [|done].
  destruct (norm_identity a u2) as [[a2 v2]|] eqn:H2; [|done].
  intros ? ?. bool_facts. subst. by pose proof (norm_identity_base _ _ _ _ _ H1 H2).
Qed.

Lemma latest_relay_event_append a e l seq d :
  relay_events d = l →
  latest_relay_event a (set_relay_events (l ++ [e]) seq d) =
  if event_actor e ≟ a
  then Some (match latest_relay_event a d with Some m => Z.max m (event_recorded e) | None => event_recorded e end)
  else latest_relay_event a d.
Proof.
  intros <-. unfold latest_relay_event. simpl. rewrite List.filter_app, map_app. simpl.
  destruct (event_actor e ≟ a); simpl; [apply max_of_app|by rewrite app_nil_r].
Qed.
End DatabaseInvariant.

(** ** Pure effects of the statements *)

Definition put_relay (actor : string) (r : relay_row) (d : db) : db :=
  set_relays (<[actor := r]> (relays d)) d.
Definition put_discovery (actor : string) (r : discovery_row) (d : db) : db :=
  set_discoveries (<[actor := r]> (discoveries d)) d.
Definition put_observation (actor : string) (o : observation_row) (d : db) : db :=
  set_observations (<[actor := o]> (observations d)) d.
Definition put_diagnostic (actor : string) (g : diagnostic_row) (d : db) : db :=
  set_diagnostics (<[actor := g]> (diagnostics d)) d.
Definition log_relay_event (actor kind : string) (t : Z) (d : db) : db :=
  set_relay_events (relay_events d ++ [RelayEvent (relay_event_seq d + 1) actor kind t])
    (relay_event_seq d + 1) d.
Definition log_moderation_event (actor action moderator reason : string) (t : Z) (d : db) : db :=
  set_moderation_events
    (moderation_events d ++ [ModerationEvent (moderation_event_seq d + 1) actor action moderator reason t])
    (moderation_event_seq d + 1) d.
Definition log_enrollment_event (action operator : string) (t : Z) (d : db) : db :=
  set_enrollment_events (enrollment_events d ++ [EnrollmentEvent action operator t]) d.
Definition log_discovery_event (actor action operator reason kind : string) (label : option string)
    (t : Z) (d : db) : db :=
  set_discovery_events
    (discovery_events d ++
       [DiscoveryEvent (discovery_event_seq d + 1) actor action operator reason kind label t])
    (discovery_event_seq d + 1) d.

(** The observation row of an actor, or the empty one created at [t]. *)
Definition observation_at (actor : string) (t : Z) (d : db) : observation_row :=
  match observations d !! actor with Some o => o | None => empty_observation t end.
Definition mark_verified (actor : string) (t : Z) (d : db) : db :=
  let o := observation_at actor t d in
  put_observation actor (verify_row t (maxInt64 (observation_updated o) t) o) d.

(** The newest time any retained row or event of a relay carries. *)
Definition relay_evidence (actor : string) (d : db) : Z :=
  latest_of (latest_of (relay_latest (record_of <$> relays d !! actor)) (latest_relay_event actor d))
    (latest_moderation_event actor d).

(** No RFC 9421 evidence of [actor] is later than [t]. *)
Definition verified_by (actor : string) (t : Z) (d : db) : bool :=
  null_or (λ v, v <=? t) (observations d !! actor ≫= rfc9421_verified).
Lemma verified_by_spec a t w : verified_by a t w = true ↔ ∀ o v, observations w !! a = Some o → rfc9421_verified o = Some v → v ≤ t.
Proof.
  unfold verified_by. destruct (observations w !! a) as [o|]; simpl; [|split; [by intros _ ? ?|done]].
  destruct (rfc9421_verified o) as [v|] eqn:Hv; simpl; [|split; [intros _ o' v [= <-]; by rewrite Hv|done]]. rewrite Z.leb_le. split.
  - intros Hle o' v' [= <-]. rewrite Hv. by intros [= <-].
  - intros Hall. by apply (Hall o).
Qed.

Section Preservation.
Context `{RelayIdentity}.

Lemma inv_weaken P Q d : (∀ a v, P a v → Q a v) → db_inv P d → db_inv Q d.
Proof.
  intros HPQ []. split; try assumption. intros a o v Ho Hv.
  destruct (inv_verified0 a o v Ho Hv); [left; auto|by right].
Qed.

Lemma retained_put_relay a actor r d :
  retained_identity a d = true → retained_identity a (put_relay actor r d) = true.
Proof.
  unfold retained_identity, put_relay; simpl. intros Hr. destruct (decide (actor = a)) as [->|Hne].
  - by rewrite lookup_insert_eq.
  - by rewrite lookup_insert_ne.
Qed.
Lemma retained_put_discovery a actor r d :
  retained_identity a d = true → retained_identity a (put_discovery actor r d) = true.
Proof.
  unfold retained_identity, put_discovery; simpl. intros Hr. destruct (decide (actor = a)) as [->|Hne].
  - rewrite lookup_insert_eq. simpl. by rewrite orb_true_r.
  - by rewrite lookup_insert_ne.
Qed.

Lemma inv_put_relay_at (P Q : string → Z → Prop) actor r d :
  db_inv P d → relay_check actor r = true → canonical_identity actor (public_base_url r) = true →
  (∀ a v, P a v → Q a v) → is_Some (relays d !! actor) ∨ (∀ v, Q actor v) →
  db_inv Q (put_relay actor r d).
Proof.
  intros [] Hc Hi HPQ Hold. split; try assumption.
  - intros a r'. unfold put_relay; simpl.
    destruct (decide (actor = a)) as [->|Hne]; [rewrite lookup_insert_eq; by intros [= <-]|].
    rewrite lookup_insert_ne; [apply inv_relays0|done].
  - intros a o Ho. destruct (inv_observations0 a o Ho). split; [done|by apply retained_put_relay].
  - intros a o v Ho Hv. destruct (inv_verified0 a o v Ho Hv) as [?|[[Hn He]|?]]; [left; auto| |by right; right].
    unfold put_relay; simpl. destruct (decide (actor = a)) as [->|Hne]; [|right; left; by rewrite lookup_insert_ne].
    destruct Hold as [[? Hs]|HQ]; [congruence|by left].
Qed.
Lemma inv_put_relay P actor r d :
  db_inv P d → relay_check actor r = true → canonical_identity actor (public_base_url r) = true →
  is_Some (relays d !! actor) → db_inv P (put_relay actor r d).
Proof. intros. apply (inv_put_relay_at P); auto. Qed.

Lemma inv_put_discovery P actor r d :
  db_inv P d → discovery_check actor r = true → canonical_identity actor (discovery_base r) = true →
  db_inv P (put_discovery actor r d).
Proof.
  intros [] Hc Hi. split; try assumption.
  - intros a r'. unfold put_discovery; simpl.
    destruct (decide (actor = a)) as [->|Hne]; [rewrite lookup_insert_eq; by intros [= <-]|].
    rewrite lookup_insert_ne; [apply inv_discoveries0|done].
  - intros a o Ho. destruct (inv_observations0 a o Ho). split; [done|by apply retained_put_discovery].
Qed.

(** An observation may be replaced when its actor check does not move back. *)
Lemma inv_put_observation (P Q : string → Z → Prop) actor o d :
  db_inv P d → observation_check actor o = true → retained_identity actor d = true →
  (∀ a v, a ≠ actor → P a v → Q a v) →
  (∀ v, rfc9421_verified o = Some v → Q actor v ∨ (relays d !! actor = None ∧ latest_relay_event actor d = None) ∨
        ∃ m, latest_relay_event actor d = Some m ∧ v ≤ m) →
  (∀ o' c, observations d !! actor = Some o' → actor_last_checked o' = Some c →
           ∃ c', actor_last_checked o = Some c' ∧ c ≤ c') →
  db_inv Q (put_observation actor o d).
Proof.
  intros [] Hc Hi HPQ Hv Hm. split; try assumption; unfold put_observation; simpl.
  - intros a o'. destruct (decide (actor = a)) as [->|Hne]; [rewrite lookup_insert_eq; by intros [= <-]|].
    rewrite lookup_insert_ne; [apply inv_observations0|done].
  - intros a o' v. destruct (decide (actor = a)) as [->|Hne].
    + rewrite lookup_insert_eq. intros [= <-]. apply Hv.
    + rewrite lookup_insert_ne; [|done]. intros Ho Hv'.
      destruct (inv_verified0 a o' v Ho Hv'); [left; auto|by right].
  - intros a g Hg. destruct (inv_diagnostics0 a g Hg) as (?&?&o'&c&Ho&Hl&?). split; [done|split; [done|]].
    destruct (decide (actor = a)) as [->|Hne].
    + rewrite lookup_insert_eq. destruct (Hm o' c Ho Hl) as (c'&?&?). exists o, c'. split; [done|split; [done|lia]].
    + rewrite lookup_insert_ne; [|done]. by exists o', c.
Qed.

Lemma inv_put_diagnostic P actor g d :
  db_inv P d → diagnostic_check g = true →
  diagnostic_updated g + seconds_of ReachabilityFailureRetryMinimum ≤ next_check_at g →
  (∃ o c, observations d !! actor = Some o ∧ actor_last_checked o = Some c ∧ diagnostic_updated g ≤ c) →
  db_inv P (put_diagnostic actor g d).
Proof.
  intros [] Hc Hn Ho. split; try assumption. intros a g'. unfold put_diagnostic; simpl.
  destruct (decide (actor = a)) as [->|Hne]; [rewrite lookup_insert_eq; by intros [= <-]|].
  rewrite lookup_insert_ne; [apply inv_diagnostics0|done].
Qed.

Lemma events_ids_grow {E} (check : E → bool) (id : E → Z) l seq e :
  Forall (λ e, check e = true ∧ id e ≤ seq) l → check e = true → id e = seq + 1 →
  Forall (λ e, check e = true ∧ id e ≤ seq + 1) (l ++ [e]).
Proof.
  intros Hl He Hid. apply Forall_app. split.
  - eapply List.Forall_impl; [|exact Hl]. intros x [? ?]. split; [done|lia].
  - constructor; [split; [done|lia]|constructor].
Qed.

(** Writing the event of [actor] at [t] settles evidence up to [t]. *)
Lemma inv_log_relay_event (P Q : string → Z → Prop) actor kind t d :
  db_inv P d → 1 ≤ len actor ≤ 4096 → one_of relay_event_kinds kind = true → 0 ≤ t →
  (∀ a v, P a v → Q a v ∨ (a = actor ∧ v ≤ t)) →
  (relays d !! actor = None → verified_by actor t d = true) →
  db_inv Q (log_relay_event actor kind t d).
Proof.
  intros [] Hl Hk Ht HPQ Hcov. unfold log_relay_event. split; try assumption.
  - apply events_ids_grow; [done| |done]. unfold relay_event_check, blob_length_between.
      cbn [event_actor event_kind event_recorded].
    rewrite Hk. bool_lia.
  - intros a o v Ho Hv. rewrite latest_relay_event_append by done. simpl.
    destruct (inv_verified0 a o v Ho Hv) as [HP|[[Hn He]|(m&Hm&?)]].
    + destruct (HPQ a v HP) as [?|[-> ?]]; [by left|right; right]. rewrite String.eqb_refl.
      eexists. split; [done|]. destruct (latest_relay_event actor d); lia.
    + right. case_str; [right; subst a|by left]. rewrite He. eexists. split; [done|].
      by apply (proj1 (verified_by_spec _ _ _) (Hcov Hn) o).
    + right; right. rewrite Hm. case_str; [eexists; split; [done|lia]|by exists m].
Qed.

Lemma inv_log_moderation_event P actor action moderator reason t d :
  db_inv P d →
  moderation_event_check (ModerationEvent (moderation_event_seq d + 1) actor action moderator reason t) = true →
  db_inv P (log_moderation_event actor action moderator reason t d).
Proof. intros [] Hc. split; try assumption. by apply events_ids_grow. Qed.

Lemma inv_log_discovery_event P actor action operator reason kind label t d :
  db_inv P d →
  discovery_event_check
    (DiscoveryEvent (discovery_event_seq d + 1) actor action operator reason kind label t) = true →
  db_inv P (log_discovery_event actor action operator reason kind label t d).
Proof. intros [] Hc. split; try assumption. by apply events_ids_grow. Qed.

Lemma inv_log_enrollment_event P action operator t d :
  db_inv P d → enrollment_event_check (EnrollmentEvent action operator t) = true →
  db_inv P (log_enrollment_event action operator t d).
Proof.
  intros [] Hc. split; try assumption. apply Forall_app. split; [done|by repeat constructor].
Qed.

Lemma inv_set_policy P p d : db_inv P d → policy_check p = true → db_inv P (set_policy (Some p) d).
Proof. intros [] Hc. split; try assumption. by exists p. Qed.
End Preservation.
