(* ===== verification/Contract.v ===== *)
(** * Contract: what the repository operations promise

    Each mutating operation against the database as a whole, without statements,
    driver outcomes, CHECK constraints or commits: which error it returns, or the
    outcome and the exact next database. The refinement lemmas show that, from a
    database satisfying the invariant, the operations of [Lifecycle], [Discovery],
    [Reachability] and [Pruning] do precisely this; the preservation lemmas show
    that it keeps the invariant. *)
From S2P Require Import Prelude Identity Vocabulary Store Repository Lifecycle Discovery Reachability Pruning Invariant.
Local Open Scope string_scope.
Local Open Scope Z_scope.
Local Open Scope go_scope.
Local Open Scope list_scope.

Definition promise : Type := result error (string * db).
(** A promised error leaves the database as it is. *)
Definition kept (p : promise) (d : db) : result error string * db :=
  match p with Ok (outcome, d') => (Ok outcome, d') | Err e => (Err e, d) end.

(** [if ok then continue else error] *)
Definition require (ok : bool) (e : error) (next : promise) : promise := if ok then next else Err e.

Definition enrollment_is_open (d : db) : bool :=
  match policy d with Some p => enrollment_open p =? 1 | None => false end.
Definition registered_relay (d : db) (actor : string) : bool :=
  match relays d !! actor with Some r => lifecycle_state r ≟ lifecycleRegistered | None => false end.
Definition discovery_evidence (actor : string) (d : db) : Z :=
  latest_of (match discoveries d !! actor with Some r => discovery_updated r | None => -1 end)
    (latest_discovery_event actor d).
Definition enrollment_evidence (d : db) : Z :=
  latest_of (match policy d with Some p => policy_updated p | None => -1 end) (latest_enrollment_event d).

(** What registration writes: the row, the outcome and the event kind. *)
Definition registered_row (base : string) (t : Z) (r : option relay_row) : relay_row * string * string :=
  match r with
  | None => (new_relay base t, OutcomeCreated, eventRegisterCreated)
  | Some r =>
      if lifecycle_state r ≟ lifecycleRegistered then (refresh_relay t r, OutcomeUnchanged, eventRegisterUnchanged)
      else (reregister_relay base t r, OutcomeUpdated, eventRegisterUpdated)
  end.

Section Promises.
Context `{RelayIdentity}.

Definition Register_promise (intent : RegisterIntent) (acceptedAt : Z) (d : db) : promise :=
  let a := register_actor intent in
  let t := unix_of acceptedAt in
  require (validateRegisterIntent intent) ErrTransitionInput
    (require (0 <=? t) ErrTransitionTime
       (require (negb (suspended_relay d a)) ErrRelaySuspended
          (require (not_null (relays d !! a) || enrollment_is_open d) ErrEnrollmentClosed
             (require (relay_evidence a d <=? t) ErrTransitionTime
                (require (verified_by a t d) ErrObservationTime
                   (let '(row, outcome, kind) := registered_row (register_base intent) t (relays d !! a) in
                    Ok (outcome, log_relay_event a kind t (mark_verified a t (put_relay a row d))))))))).

Definition Heartbeat_promise (a : string) (acceptedAt : Z) (d : db) : promise :=
  let t := unix_of acceptedAt in
  require (validateIdentityIntent a) ErrTransitionInput
    (require (0 <=? t) ErrTransitionTime
       (match relays d !! a with
        | None => Err ErrRelayAbsent
        | Some r =>
            require (lifecycle_state r ≟ lifecycleRegistered) ErrRelayAbsent
              (require (negb (administrative_state r ≟ administrativeSuspended)) ErrRelaySuspended
                 (require (relay_evidence a d <=? t) ErrTransitionTime
                    (Ok (OutcomeRecorded,
                         log_relay_event a eventHeartbeatRecorded t
                           (mark_verified a t (put_relay a (refresh_relay t r) d))))))
        end)).

Definition Unregister_promise (a : string) (acceptedAt : Z) (d : db) : promise :=
  let t := unix_of acceptedAt in
  require (validateIdentityIntent a) ErrTransitionInput
    (require (0 <=? t) ErrTransitionTime
       (require (relay_evidence a d <=? t) ErrTransitionTime
          (require (verified_by a t d) ErrObservationTime
          (let seen d' := if retained_identity a d' then mark_verified a t d' else d' in
           match relays d !! a with
           | Some r =>
               if lifecycle_state r ≟ lifecycleRegistered then
                 Ok (OutcomeRemoved, log_relay_event a eventUnregisterRemoved t
                                       (seen (put_relay a (unregister_relay t r) d)))
               else Ok (OutcomeAbsent, log_relay_event a eventUnregisterAbsent t (seen d))
           | None => Ok (OutcomeAbsent, log_relay_event a eventUnregisterAbsent t (seen d))
           end)))).

(** [target] is active or suspended. *)
Definition moderate_promise (intent : ModerationIntent) (acceptedAt : Z) (target : string) (d : db)
    : promise :=
  let a := moderation_intent_actor intent in
  let t := unix_of acceptedAt in
  let log action d' := log_moderation_event a action (moderation_intent_moderator intent)
                         (moderation_intent_reason intent) t d' in
  require (validateModerationIntent intent) ErrTransitionInput
    (require (0 <=? t) ErrTransitionTime
       (match relays d !! a with
        | None => Err ErrRelayAbsent
        | Some r =>
            require (relay_evidence a d <=? t) ErrTransitionTime
              (if target ≟ administrativeSuspended then
                 if administrative_state r ≟ administrativeSuspended
                 then Ok (ModerationAlreadySuspended, log moderationSuspendUnchanged d)
                 else Ok (ModerationSuspended, log moderationSuspendApplied
                            (put_relay a (moderate_relay target (Some t) t r) d))
               else
                 if administrative_state r ≟ administrativeSuspended
                 then Ok (ModerationRestored, log moderationRestoreApplied
                            (put_relay a (moderate_relay target None t r) d))
                 else Ok (ModerationAlreadyActive, log moderationRestoreUnchanged d))
        end)).

Definition SetEnrollment_promise (open : bool) (operatorID : string) (acceptedAt : Z) (d : db) : promise :=
  let t := unix_of acceptedAt in
  require (ValidOperatorID operatorID) ErrTransitionInput
    (require (0 <=? t) ErrTransitionTime
       (require (enrollment_evidence d <=? t) ErrTransitionTime
          (let '(outcome, action) := classifyEnrollment (enrollment_is_open d) open in
           Ok (outcome, log_enrollment_event action operatorID t
                          (if Bool.eqb (enrollment_is_open d) open then d
                           else set_policy (Some (PolicyRow (boolInteger open) t)) d))))).

Definition log_discovery (a action : string) (audit : discovery_audit) (t : Z) (d : db) : db :=
  log_discovery_event a action (audit_operator audit) (audit_reason audit) (audit_source_kind audit)
    (if audit_source_label audit ≟ "" then None else Some (audit_source_label audit)) t d.

(** [public_base_url] columns hold at most 2048 bytes. *)
Definition short_base (base : string) : bool := (1 <=? len base) && (len base <=? 2048).

(** A first addition relies on the schema for the length of the identity. *)
Definition AddDiscovery_promise (intent : DiscoveryAddIntent) (acceptedAt : Z) (d : db) : promise :=
  let a := add_actor intent in
  let t := unix_of acceptedAt in
  require (validateDiscoveryAddIntent intent) ErrTransitionInput
    (require (0 <=? t) ErrTransitionTime
       (require (discovery_evidence a d <=? t) ErrTransitionTime
          (match discoveries d !! a with
           | None =>
               require ((len a <=? 4096) && short_base (add_base intent))
                 (storageFailure "write discovery" ErrConstraint)
                 (Ok (DiscoveryAdded, log_discovery a discoveryAdded (add_audit intent) t
                        (put_discovery a (new_discovery (add_base intent) t) d)))
           | Some r =>
               if discovery_state r ≟ discoveryActive
               then Ok (DiscoveryUnchanged, log_discovery a discoveryUnchanged (add_audit intent) t d)
               else Ok (DiscoveryUpdated, log_discovery a discoveryUpdated (add_audit intent) t
                          (put_discovery a (readd_discovery (add_base intent) t r) d))
           end))).

Definition RemoveDiscovery_promise (intent : DiscoveryRemoveIntent) (acceptedAt : Z) (d : db) : promise :=
  let a := remove_actor intent in
  let t := unix_of acceptedAt in
  require (validateDiscoveryRemoveIntent intent) ErrTransitionInput
    (require (0 <=? t) ErrTransitionTime
       (require (discovery_evidence a d <=? t) ErrTransitionTime
          (match discoveries d !! a with
           | Some r =>
               if discovery_state r ≟ discoveryActive
               then Ok (DiscoveryRemovedOK, log_discovery a discoveryRemovedOK (remove_audit intent) t
                          (put_discovery a (remove_discovery t r) d))
               else Ok (DiscoveryAbsent, log_discovery a discoveryAbsent (remove_audit intent) t d)
           | None => Ok (DiscoveryAbsent, log_discovery a discoveryAbsent (remove_audit intent) t d)
           end))).

Definition SoftPrune_promise (a : string) (observedAt : Z) (d : db) : promise :=
  let t := unix_of observedAt in
  require (validateIdentityIntent a) ErrTransitionInput
    (require (0 <=? t) ErrTransitionTime
       (match relays d !! a with
        | None => Ok (PruneNotEligible, d)
        | Some r =>
            if lifecycle_state r ≟ lifecyclePruned then Ok (PruneAlreadyPruned, d)
            else if prune_due (dead_cutoff t) (fresh_cutoff t) d a r && (relay_evidence a d <=? t)
            then Ok (PruneApplied, log_relay_event a eventRelayPruned t (put_relay a (prune_relay t r) d))
            else Ok (PruneNotEligible, d)
        end)).
End Promises.

(** ** Observations *)

Section ObservationPromises.
Context `{RelayIdentity}.

Definition present (url : string) : option string := if url ≟ "" then None else Some url.

Definition RecordActorObservation_promise (intent : ActorObservationIntent) (observedAt : Z) (d : db)
    : promise :=
  let a := actor_intent_actor intent in
  let t := unix_of observedAt in
  let o := observation_at a t d in
  let updated := Z.max (observation_updated o) t in
  require (validateActorObservationIntent intent) ErrObservationInput
    (require (0 <=? t) ErrObservationTime
       (require (retained_identity a d) ErrObservationAbsent
          (require (null_or (λ v, v <=? t) (actor_checked d a)) ErrObservationTime
             (Ok ("", put_observation a
                        (if actor_intent_state intent ≟ ReachabilityReachable
                         then reach_row (present (actor_intent_inbox intent)) t updated o
                         else unreach_row (actor_intent_state intent) t updated o) d))))).

Definition RecordInboxObservation_promise (intent : InboxObservationIntent) (observedAt : Z) (d : db)
    : promise :=
  let a := inbox_intent_actor intent in
  let t := unix_of observedAt in
  require (validateInboxObservationIntent intent) ErrObservationInput
    (require (0 <=? t) ErrObservationTime
       (match observations d !! a with
        | None => Err ErrObservationConflict
        | Some o =>
            require (match inbox_url o with Some u => u ≟ inbox_intent_url intent | None => false end)
              ErrObservationConflict
              (require (null_or (λ v, v <=? t) (inbox_declared o) &&
                        null_or (λ v, v <=? t) (inbox_last_checked o)) ErrObservationTime
                 (Ok ("", put_observation a
                            (inbox_row (inbox_intent_state intent) t (Z.max (observation_updated o) t) o) d)))
        end)).

(** The delay until the next probe, and the failure streak it records. *)
Definition probe_schedule (intent : ReachabilityObservationIntent) (t : Z) (d : db) : Z * Z :=
  let a := reach_actor intent in
  if reach_actor_state intent ≟ ReachabilityUnreachable then
    let streak := next_streak (actor_failure_streak <$> diagnostics d !! a) in
    (streak,
     if last_known_online d a (actor_last_success (observation_at a t d)) <=? t - seconds_of ReachabilityUnreachableRetry
     then t + seconds_of ReachabilityUnreachableRetry else t + seconds_of (retry_of_streak streak))
  else (0, t + seconds_of ReachabilityFreshness).

Definition probe_observation (intent : ReachabilityObservationIntent) (t : Z) (d : db) : observation_row :=
  let o := observation_at (reach_actor intent) t d in
  let updated := Z.max (observation_updated o) t in
  if reach_actor_state intent ≟ ReachabilityReachable then probed_row intent t updated o
  else unreach_row (reach_actor_state intent) t updated o.

Definition probe_diagnostic (intent : ReachabilityObservationIntent) (t : Z) (d : db) : diagnostic_row :=
  let '(streak, next) := probe_schedule intent t d in
  let row := diagnostic_of intent next t streak in
  match diagnostics d !! reach_actor intent with
  | Some old => merge_diagnostic (reach_actor_state intent) row old
  | None => row
  end.

(** An inbox URL longer than its column is an error of the schema, not of the
    validated input. *)
Definition RecordReachabilityObservation_promise (intent : ReachabilityObservationIntent) (observedAt : Z)
    (d : db) : promise :=
  let a := reach_actor intent in
  let t := unix_of observedAt in
  require (validateReachabilityObservationIntent intent) ErrReachabilityWriteInput
    (require (0 <=? t) ErrObservationTime
       (if negb (eligible_now d a) || match actor_checked d a with Some v => t <=? v | None => false end
        then Ok (ReachabilityWriteSkipped, d)
        else
          require (len (reach_inbox_url intent) <=? 4096)
            (storageFailure "write reachable observation" ErrConstraint)
            (Ok (ReachabilityWriteApplied,
                 put_diagnostic a (probe_diagnostic intent t d)
                   (put_observation a (probe_observation intent t d) d))))).
End ObservationPromises.

(** ** Undisturbed runs of the shared steps *)

Ltac tx_run :=
  repeat (first [rewrite bind_run | rewrite wrapped_run | rewrite query_run | rewrite exec_run
                | rewrite commit_run | rewrite ret_run | rewrite driver_run | progress cbn [negb]]; cbn beta iota).

Section Runs.
Context `{RelayIdentity}.

Lemma check_run ok e st : check ok e st = (if ok then (Ok tt, st) else (Err e, st)).
Proof. by destruct ok. Qed.

Lemma requireMonotonicTime_run a t d w :
  requireMonotonicTime a t (record_of <$> relays w !! a) (TX d w []) =
  (if relay_evidence a w <=? t then Ok tt else Err ErrTransitionTime, TX d w []).
Proof.
  unfold requireMonotonicTime. tx_run. rewrite check_run. fold (relay_evidence a w).
  rewrite <- Z.leb_antisym. by destruct (relay_evidence a w <=? t).
Qed.

Lemma insertRelayEvent_run a kind t d w :
  1 ≤ len a ≤ 4096 → one_of relay_event_kinds kind = true → 0 ≤ t →
  insertRelayEvent a kind t (TX d w []) = (Ok tt, TX d (log_relay_event a kind t w) []).
Proof.
  intros Hl Hk Ht. unfold insertRelayEvent. tx_run. unfold insert_relay_event.
  assert (Hc : relay_event_check (RelayEvent (relay_event_seq w + 1) a kind t) = true).
  { unfold relay_event_check, blob_length_between. cbn [event_actor event_kind event_recorded].
    rewrite Hk. bool_lia. }
  by rewrite Hc.
Qed.

Lemma update_relay_run a guard f d r :
  relays d !! a = Some r → guard r = true → relay_check a (f r) = true →
  update_relay a guard f d = Some (put_relay a (f r) d, 1).
Proof. unfold update_relay. by intros -> -> ->. Qed.

Lemma update_observation_run a f d o :
  observations d !! a = Some o → observation_check a (f o) = true →
  update_observation a f d = Some (put_observation a (f o) d, 1).
Proof. unfold update_observation. by intros -> ->. Qed.

Lemma insert_observation_run a o d :
  observations d !! a = None → retained_identity a d = true → observation_check a o = true →
  insert_observation a o d = Some (put_observation a o d, 1).
Proof. unfold insert_observation. by intros -> -> ->. Qed.

(** Writing an observation after creating it empty leaves one row. *)
Lemma put_observation_twice a o o' d : put_observation a o (put_observation a o' d) = put_observation a o d.
Proof. unfold put_observation, set_observations; simpl. by rewrite insert_insert_eq. Qed.
Lemma lookup_put_observation a o d : observations (put_observation a o d) !! a = Some o.
Proof. apply lookup_insert_eq. Qed.

Lemma currentOrEmptyObservation_run action a t d w :
  retained_identity a w = true → 1 ≤ len a ≤ 4096 → 0 ≤ t →
  currentOrEmptyObservation action a (observations w !! a) t (TX d w []) =
  (Ok (observation_at a t w),
   TX d (match observations w !! a with Some _ => w | None => put_observation a (empty_observation t) w end) []).
Proof.
  intros Hr Hl Ht. unfold currentOrEmptyObservation, observation_at.
  destruct (observations w !! a) as [o|] eqn:Ho; [by tx_run|].
  unfold insertEmptyObservation, selectInsertedObservation, selectObservation. tx_run.
  rewrite (insert_observation_run a (empty_observation t) w) by (try done; by apply observation_check_empty).
  tx_run. by rewrite lookup_put_observation.
Qed.

(** An update applied to the current or freshly created row. *)
Lemma update_current_run a f t w :
  observation_check a (f (observation_at a t w)) = true →
  update_observation a f
    (match observations w !! a with Some _ => w | None => put_observation a (empty_observation t) w end) =
  Some (put_observation a (f (observation_at a t w)) w, 1).
Proof.
  unfold observation_at. destruct (observations w !! a) as [o|] eqn:Ho; intros Hc.
  - by apply update_observation_run.
  - rewrite (update_observation_run a f _ (empty_observation t)); [|apply lookup_put_observation|done].
    by rewrite put_observation_twice.
Qed.

Lemma observation_at_check a t w :
  (∀ o, observations w !! a = Some o → observation_check a o = true) → 1 ≤ len a ≤ 4096 → 0 ≤ t →
  observation_check a (observation_at a t w) = true.
Proof.
  intros Hc Hl Ht. unfold observation_at. destruct (observations w !! a) as [o|]; [by apply Hc|].
  by apply observation_check_empty.
Qed.

Lemma recordRFC9421VerifiedTx_run a t d w :
  retained_identity a w = true → 1 ≤ len a ≤ 4096 → 0 ≤ t →
  (∀ o, observations w !! a = Some o → observation_check a o = true) →
  (∀ o v, observations w !! a = Some o → rfc9421_verified o = Some v → v ≤ t) →
  recordRFC9421VerifiedTx a t (TX d w []) = (Ok tt, TX d (mark_verified a t w) []).
Proof.
  intros Hr Hl Ht Hc Hv. unfold recordRFC9421VerifiedTx, selectObservation. tx_run.
  pose proof (currentOrEmptyObservation_run "read inserted RFC 9421 observation" a t d w Hr Hl Ht) as Hcur.
  unfold currentOrEmptyObservation in Hcur. rewrite Hcur. cbn beta iota. tx_run. rewrite check_run.
  assert (Hold : null_or (λ v, v <=? t) (rfc9421_verified (observation_at a t w)) = true).
  { unfold observation_at. destruct (observations w !! a) as [o|] eqn:Ho; [|done].
    destruct (rfc9421_verified o) as [v|] eqn:Hov; [|done]. apply Z.leb_le. by eapply Hv. }
  rewrite Hold. tx_run. rewrite update_current_run; [done|].
  apply observation_check_verify; [by apply observation_at_check|done].
Qed.
(** Later evidence refuses the transition. *)
Lemma recordRFC9421VerifiedTx_refuses a t d w : verified_by a t w = false →
  recordRFC9421VerifiedTx a t (TX d w []) = (Err ErrObservationTime, TX d w []).
Proof.
  unfold verified_by. destruct (observations w !! a) as [o|] eqn:Ho; [|done]. simpl. intros Hv.
  unfold recordRFC9421VerifiedTx, selectObservation. tx_run. rewrite Ho. tx_run. rewrite check_run, Hv. done.
Qed.
End Runs.
