(* ===== verification/Refinement.v ===== *)
(** * Refinement: the operations keep the promises of [Contract]

    From a database satisfying the invariant, each operation run without
    interference returns exactly what its promise says and leaves exactly the
    promised database: no CHECK constraint, key or trigger fires, and the
    "classify" and "read inserted" failure branches are never taken. *)
From S2P Require Import Prelude Identity Vocabulary Store Repository Lifecycle Discovery Reachability Pruning Invariant Contract.
From Stdlib Require Import Ascii.
Local Open Scope string_scope.
Local Open Scope Z_scope.
Local Open Scope go_scope.
Local Open Scope list_scope.

(** ** Every operation keeps its promise *)

Lemma latest_of_ge latest read v : latest_of latest read ≤ v → latest ≤ v ∧ (∀ x, read = Some x → x ≤ v).
Proof.
  unfold latest_of. destruct read as [x|]; [|by split].
  destruct (Z.ltb_spec latest x); intros; (split; [lia|]); intros ? [= <-]; lia.
Qed.

Lemma relay_evidence_le a d t : relay_evidence a d ≤ t →
  (∀ r, relays d !! a = Some r → updated_at_unix r ≤ t ∧ last_seen_at_unix r ≤ t) ∧
  (∀ x, latest_relay_event a d = Some x → x ≤ t) ∧ (∀ x, latest_moderation_event a d = Some x → x ≤ t).
Proof.
  unfold relay_evidence. intros [[Hrel Hev]%latest_of_ge Hmod]%latest_of_ge. split; [|done].
  intros r Hr. rewrite Hr in Hrel. simpl in Hrel. destruct (Z.ltb_spec (updated_at_unix r) (last_seen_at_unix r)); lia.
Qed.

Section Kept.
Context `{RelayIdentity}.

Lemma validateIdentityIntent_spec a : validateIdentityIntent a = true → 1 ≤ len a ≤ 4096 ∧ canonical_actor a = true.
Proof.
  unfold validateIdentityIntent, maximumRelayActorBytes. intros Hv. bool_facts. unfold len in *.
  split; [lia|done].
Qed.
Lemma validateRegisterIntent_spec intent : validateRegisterIntent intent = true →
  1 ≤ len (register_actor intent) ≤ 4096 ∧ 1 ≤ len (register_base intent) ≤ 2048 ∧
  canonical_identity (register_actor intent) (register_base intent) = true.
Proof.
  unfold validateRegisterIntent, maximumRelayActorBytes, maximumPublicBaseBytes.
  intros Hv. bool_facts. unfold len in *. split; [lia|split; [lia|done]].
Qed.

Lemma transitionUnix_run t : transitionUnix t = if 0 <=? unix_of t then Ok (unix_of t) else Err ErrTransitionTime.
Proof. unfold transitionUnix. rewrite Z.ltb_antisym. by destruct (0 <=? unix_of t). Qed.
Lemma observationUnix_run t : observationUnix t = if 0 <=? unix_of t then Ok (unix_of t) else Err ErrObservationTime.
Proof. unfold observationUnix. rewrite Z.ltb_antisym. by destruct (0 <=? unix_of t). Qed.

(** Evidence of a retained relay of a valid database is covered by its events. *)
Lemma verified_covered a d t : db_ok d → is_Some (relays d !! a) → relay_evidence a d ≤ t → verified_by a t d = true.
Proof.
  intros Hd [r Hr] Ht. apply verified_by_spec. intros o v Ho Hv.
  destruct (inv_verified _ _ Hd a o v Ho Hv) as [[]|[[Hn _]|(m&Hm&?)]]; [congruence|].
  apply relay_evidence_le in Ht as (_&Hev&_). specialize (Hev m Hm). lia.
Qed.

Lemma retained_put_relay_eq a r d : retained_identity a (put_relay a r d) = true.
Proof. unfold retained_identity, put_relay; simpl. by rewrite lookup_insert_eq. Qed.

(** Evidence, event and commit: the common end of the three lifecycle operations. *)
Lemma verified_event_commit (a kind action outcome : string) t d w :
  retained_identity a w = true → 1 ≤ len a ≤ 4096 → 0 ≤ t → one_of relay_event_kinds kind = true →
  (∀ o, observations w !! a = Some o → observation_check a o = true) → verified_by a t w = true →
  (recordRFC9421VerifiedTx a t ;; insertRelayEvent a kind t ;; wrapped action commit ;; mret outcome)
    (TX d w []) =
  (Ok outcome, TX (log_relay_event a kind t (mark_verified a t w)) (log_relay_event a kind t (mark_verified a t w)) []).
Proof.
  intros. rewrite bind_run, recordRFC9421VerifiedTx_run by (try done; by apply verified_by_spec).
  rewrite bind_run, insertRelayEvent_run by done. by tx_run.
Qed.
Lemma verified_event_refused {A} (a : string) (rest : Tx A) t d w : verified_by a t w = false →
  (recordRFC9421VerifiedTx a t ;; rest) (TX d w []) = (Err ErrObservationTime, TX d w []).
Proof. intros Hv. by rewrite bind_run, recordRFC9421VerifiedTx_refuses. Qed.

Lemma classified_lifecycle a d r : db_ok d → relays d !! a = Some r →
  lifecycle_state r ≠ lifecycleRegistered →
  ((lifecycle_state r ≟ lifecycleUnregistered) || (lifecycle_state r ≟ lifecyclePruned)) = true.
Proof.
  intros Hd Hr Hne. destruct (inv_relays _ _ Hd a r Hr) as [Hc _].
  apply relay_check_wf in Hc as (_&_&_&[[? _]|[[-> _]|[-> _]]]&_); done.
Qed.

Lemma write_registration_run intent t d r0 :
  db_ok d → relays d !! register_actor intent = r0 →
  validateRegisterIntent intent = true → 0 ≤ t → relay_evidence (register_actor intent) d ≤ t →
  write_registration intent t (record_of <$> r0) (TX d d []) =
  let '(row, outcome, kind) := registered_row (register_base intent) t r0 in
  (Ok (outcome, kind), TX d (put_relay (register_actor intent) row d) []).
Proof.
  intros Hd Hr0 Hv Ht Hev. apply validateRegisterIntent_spec in Hv as (Hla&Hlb&Hid).
  apply relay_evidence_le in Hev as (Hrow&_). unfold write_registration, registered_row.
  destruct r0 as [r|]; simpl.
  2:{ tx_run. unfold insert_relay. rewrite Hr0, relay_check_new by done. by tx_run. }
  destruct (inv_relays _ _ Hd _ _ Hr0) as [Hc Hbase]. destruct (Hrow r Hr0).
  rewrite (canonical_identity_base _ _ _ Hbase Hid), String.eqb_refl, andb_true_r.
  destruct (String.eqb_spec (lifecycle_state r) lifecycleRegistered) as [Hreg|Hreg].
  - tx_run. rewrite (update_relay_run _ _ _ d r) by (try done; by apply relay_check_refresh). by tx_run.
  - rewrite (classified_lifecycle _ d r) by done. tx_run.
    rewrite (update_relay_run _ _ _ d r) by (try done; by apply relay_check_reregister). by tx_run.
Qed.

Lemma registered_row_kind base t r : one_of relay_event_kinds (registered_row base t r).2 = true.
Proof. destruct r as [r|]; simpl; [|done]. by destruct (lifecycle_state r ≟ lifecycleRegistered). Qed.

(** From the time guard on, registration of a new and of a known relay agree. *)
Lemma Register_tail intent t d :
  db_ok d → validateRegisterIntent intent = true → 0 ≤ t →
  (let '(r, st) :=
     (requireMonotonicTime (register_actor intent) t (record_of <$> relays d !! register_actor intent) ;;
      '(outcome, kind) ← write_registration intent t (record_of <$> relays d !! register_actor intent);
      recordRFC9421VerifiedTx (register_actor intent) t ;;
      insertRelayEvent (register_actor intent) kind t ;;
      wrapped "commit register" commit ;;
      mret outcome) (TX d d []) in (r, durable st)) =
  kept (require (relay_evidence (register_actor intent) d <=? t) ErrTransitionTime
          (require (verified_by (register_actor intent) t d) ErrObservationTime
             (let '(row, outcome, kind) :=
                registered_row (register_base intent) t (relays d !! register_actor intent) in
              Ok (outcome, log_relay_event (register_actor intent) kind t
                             (mark_verified (register_actor intent) t
                                (put_relay (register_actor intent) row d)))))) d.
Proof.
  intros Hd Hv Ht. rewrite bind_run, requireMonotonicTime_run.
  destruct (Z.leb_spec (relay_evidence (register_actor intent) d) t) as [Hev|]; simpl; [|done].
  rewrite bind_run, (write_registration_run intent t d (relays d !! register_actor intent)) by done.
  pose proof (registered_row_kind (register_base intent) t (relays d !! register_actor intent)) as Hk.
  destruct (registered_row _ _ _) as [[row outcome] kind]. cbn beta iota. simpl in Hk.
  change (verified_by (register_actor intent) t d) with (verified_by (register_actor intent) t (put_relay (register_actor intent) row d)).
  destruct (verified_by (register_actor intent) t (put_relay (register_actor intent) row d)) eqn:Hvb; cbn [require kept].
  - rewrite verified_event_commit; [done|apply retained_put_relay_eq|apply (validateRegisterIntent_spec _ Hv)
      |done|done|intros o Ho; by apply (inv_observations _ _ Hd) in Ho as [? _]|done].
  - by rewrite verified_event_refused.
Qed.

Lemma Register_keeps intent acceptedAt d :
  db_ok d → Register plain_call intent acceptedAt d = kept (Register_promise intent acceptedAt d) d.
Proof.
  intros Hd. unfold Register, Register_promise. rewrite transitionUnix_run. set (t := unix_of acceptedAt).
  destruct (validateRegisterIntent intent) eqn:Hv; simpl; [|done].
  destruct (Z.leb_spec 0 t) as [Ht|]; simpl; [|done].
  rewrite in_transaction_plain. unfold Register_tx, selectRelay, selectEnrollmentOpen.
  pose proof (Register_tail intent t d Hd Hv Ht) as Htail.
  tx_run. unfold suspended_relay, not_null, is_null, enrollment_is_open.
  destruct (relays d !! register_actor intent) as [r|] eqn:Hr; cbn [fmap option_fmap option_map negb orb] in *.
  - rewrite check_run. cbn [administrativeState record_of].
    destruct (administrative_state r ≟ administrativeSuspended); [done|]. apply Htail.
  - destruct (inv_policy _ _ Hd) as (p & Hpol & Hp). tx_run. rewrite !Hpol. tx_run. rewrite check_run.
    unfold policy_check in Hp. apply andb_true_iff in Hp as [Hp _]. rewrite Hp. tx_run. rewrite check_run.
    destruct (enrollment_open p =? 1); [|done]. apply Htail.
Qed.

Lemma Heartbeat_keeps a acceptedAt d :
  db_ok d → Heartbeat plain_call a acceptedAt d = kept (Heartbeat_promise a acceptedAt d) d.
Proof.
  intros Hd. unfold Heartbeat, Heartbeat_promise. rewrite transitionUnix_run. set (t := unix_of acceptedAt).
  destruct (validateIdentityIntent a) eqn:Hv; simpl; [|done].
  destruct (Z.leb_spec 0 t) as [Ht|]; simpl; [|done].
  apply validateIdentityIntent_spec in Hv as [Hl _].
  rewrite in_transaction_plain. unfold Heartbeat_tx, selectRelay. tx_run.
  pose proof (requireMonotonicTime_run a t d d) as Hmono.
  destruct (relays d !! a) as [r|] eqn:Hr; cbn [fmap option_fmap option_map] in *; [|done].
  tx_run. rewrite check_run. cbn [lifecycleState record_of].
  destruct (String.eqb_spec (lifecycle_state r) lifecycleRegistered) as [Hreg|]; [|done].
  tx_run. rewrite check_run. cbn [administrativeState record_of].
  destruct (administrative_state r ≟ administrativeSuspended); [done|].
  tx_run. rewrite Hmono. destruct (Z.leb_spec (relay_evidence a d) t) as [Hev|]; [|done].
  destruct (inv_relays _ _ Hd a r Hr) as [Hc Hbase].
  destruct (relay_evidence_le _ _ _ Hev) as [Hrow _]. destruct (Hrow r Hr).
  tx_run. rewrite (update_relay_run _ _ _ d r) by (try done; by apply relay_check_refresh). tx_run.
  rewrite <- bind_run, verified_event_commit; [done|apply retained_put_relay_eq|done|done|done
    |intros o Ho; by apply (inv_observations _ _ Hd) in Ho as [? _]|].
  by apply (verified_covered a d t); [|eexists|].
Qed.

Lemma Unregister_keeps a acceptedAt d :
  db_ok d → Unregister plain_call a acceptedAt d = kept (Unregister_promise a acceptedAt d) d.
Proof.
  intros Hd. unfold Unregister, Unregister_promise. rewrite transitionUnix_run. set (t := unix_of acceptedAt).
  destruct (validateIdentityIntent a) eqn:Hv; simpl; [|done].
  destruct (Z.leb_spec 0 t) as [Ht|]; simpl; [|done].
  apply validateIdentityIntent_spec in Hv as [Hl _].
  rewrite in_transaction_plain. unfold Unregister_tx, selectRelay, retainedObservationIdentity. tx_run.
  rewrite requireMonotonicTime_run. destruct (Z.leb_spec (relay_evidence a d) t) as [Hev|]; [|done]. tx_run.
  destruct (relay_evidence_le _ _ _ Hev) as [Hrow _].
  assert (Hend : ∀ w (kind outcome : string), one_of relay_event_kinds kind = true → observations w = observations d →
    (retained_identity a w = false → retained_identity a d = false) →
    (let '(r, st) :=
       ((if retained_identity a w then recordRFC9421VerifiedTx a t else (mret tt : Tx unit)) ;;
        insertRelayEvent a kind t ;; wrapped "commit unregister" commit ;; mret outcome) (TX d w []) in
     (r, durable st)) =
    kept (require (verified_by a t d) ErrObservationTime
            (Ok (outcome, log_relay_event a kind t (if retained_identity a w then mark_verified a t w else w)))) d).
  { intros w kind outcome Hk Hw Hret'. assert (Hvw : verified_by a t w = verified_by a t d) by (unfold verified_by; by rewrite Hw).
    destruct (retained_identity a w) eqn:Hret.
    - destruct (verified_by a t d) eqn:Hvb; cbn [require kept]; [|by rewrite verified_event_refused].
      rewrite verified_event_commit; try done. rewrite Hw. intros o Ho; by apply (inv_observations _ _ Hd) in Ho as [? _].
    - assert (verified_by a t d = true) as ->.
      { apply verified_by_spec. intros o v Ho. apply (inv_observations _ _ Hd) in Ho as [_ Ho]. by rewrite Hret' in Ho. }
      cbn [require kept]. tx_run. rewrite insertRelayEvent_run by done. by tx_run. }
  assert (Hput : ∀ r, retained_identity a (put_relay a r d) = false → retained_identity a d = false) by (intros r; by rewrite retained_put_relay_eq).
  destruct (relays d !! a) as [r|] eqn:Hr; cbn [fmap option_fmap option_map lifecycleState record_of].
  - destruct (String.eqb_spec (lifecycle_state r) lifecycleRegistered) as [Hreg|].
    + destruct (inv_relays _ _ Hd a r Hr) as [Hc _]. destruct (Hrow r eq_refl).
      tx_run. rewrite (update_relay_run _ _ _ d r) by (try done; by apply relay_check_unregister).
      tx_run. rewrite <- bind_run. apply Hend; [done|done|apply Hput].
    + tx_run. rewrite <- bind_run. by apply Hend.
  - tx_run. rewrite <- bind_run. by apply Hend.
Qed.
End Kept.

(** ** Token grammars of the code and of the schema agree *)

Lemma token_loop_split (first_ok rest_ok : Ascii.ascii → bool) c s :
  (∀ c, first_ok c = true → rest_ok c = true) →
  token_loop (λ first c, if (first : bool) then first_ok c else rest_ok c) true (String c s) =
  first_ok c && all_chars rest_ok (String c s).
Proof.
  intros Hsub. simpl. destruct (first_ok c) eqn:Hc; [|done]. rewrite (Hsub c Hc). simpl.
  induction s as [|x s IH]; simpl; [done|]. by rewrite IH.
Qed.

Lemma token_loop_ext f g b s : (∀ b c, f b c = g b c) → token_loop f b s = token_loop g b s.
Proof. intros Hfg. revert b. induction s as [|c s IH]; intros b; simpl; [done|]. by rewrite Hfg, IH. Qed.

(** [ValidOperatorID] accepts exactly the operators the CHECK constraints accept. *)
Lemma ValidOperatorID_check s : ValidOperatorID s = operator_check s.
Proof.
  unfold ValidOperatorID, operator_check, blob_length_between, MaximumOperatorIDBytes.
  destruct s as [|c s]; [done|]. rewrite (token_loop_ext _ (λ first c, if (first : bool) then token_alnum c
    else token_alnum c || token_punct c)) by (intros [] ?; simpl; [by rewrite orb_false_r|done]).
  rewrite (token_loop_split token_alnum (λ c, token_alnum c || token_punct c)) by (by intros ? ->).
  cbn [first_char]. destruct (len (String c s) =? 0) eqn:H0; [by unfold len in H0|].
  assert (H1 : (1 <=? len (String c s)) = true) by (apply Z.leb_le; unfold len; simpl; lia).
  rewrite H1, Z.ltb_antisym. simpl orb. by destruct (len (String c s) <=? 128).
Qed.

Lemma ValidModerationReasonCode_check s : ValidModerationReasonCode s = reason_check s.
Proof.
  unfold ValidModerationReasonCode, reason_check, blob_length_between, MaximumModerationReasonCodeBytes.
  destruct s as [|c s]; [done|].
  rewrite (token_loop_split (λ c, char_between c "a" "z")
             (λ c, char_between c "a" "z" || char_between c "0" "9" ||
                   existsb (Ascii.eqb c) ["_"; "-"]%char)) by (by intros ? ->).
  cbn [first_char]. destruct (len (String c s) =? 0) eqn:H0; [by unfold len in H0|].
  assert (H1 : (1 <=? len (String c s)) = true) by (apply Z.leb_le; unfold len; simpl; lia).
  rewrite H1, Z.ltb_antisym. simpl orb. by destruct (len (String c s) <=? 64).
Qed.

(** A label is optional: the empty one is stored as NULL. *)
Lemma ValidDiscoverySourceLabel_check s :
  ValidDiscoverySourceLabel s = null_or operator_check (if s ≟ "" then None else Some s).
Proof.
  unfold ValidDiscoverySourceLabel. destruct (String.eqb_spec s "") as [|Hne]; [done|]. simpl.
  rewrite <- ValidOperatorID_check. unfold ValidOperatorID, MaximumDiscoverySourceLabelBytes, MaximumOperatorIDBytes.
  destruct s as [|c s]; [done|]. by destruct (len (String c s) =? 0) eqn:H0; [unfold len in H0|].
Qed.

Section KeptMore.
Context `{RelayIdentity}.

Definition moderation_actions : list string :=
  [moderationSuspendApplied; moderationSuspendUnchanged; moderationRestoreApplied; moderationRestoreUnchanged].

Lemma moderation_event_valid intent seq action t :
  validateModerationIntent intent = true → one_of moderation_actions action = true → 0 ≤ t →
  moderation_event_check (ModerationEvent seq (moderation_intent_actor intent) action
    (moderation_intent_moderator intent) (moderation_intent_reason intent) t) = true.
Proof.
  intros Hv Ha Ht. unfold validateModerationIntent in Hv. bool_facts.
  apply validateIdentityIntent_spec in H as [? _] || apply validateIdentityIntent_spec in H0 as [? _] ||
  apply validateIdentityIntent_spec in H1 as [? _].
  unfold moderation_event_check, blob_length_between.
  cbn [moderation_actor moderation_action moderator_id moderation_reason moderation_recorded].
  rewrite <- ValidOperatorID_check, <- ValidModerationReasonCode_check.
  unfold moderation_actions in Ha. rewrite Ha.
  repeat match goal with Hx : ?x = true |- context [?x] => rewrite Hx end. bool_lia.
Qed.

Lemma insertModerationEvent_run intent action t d w :
  validateModerationIntent intent = true → one_of moderation_actions action = true → 0 ≤ t →
  insertModerationEvent intent action t (TX d w []) =
  (Ok tt, TX d (log_moderation_event (moderation_intent_actor intent) action
                  (moderation_intent_moderator intent) (moderation_intent_reason intent) t w) []).
Proof.
  intros. unfold insertModerationEvent. tx_run. unfold insert_moderation_event.
  by rewrite moderation_event_valid.
Qed.

Lemma administrative_cases a d r : db_ok d → relays d !! a = Some r →
  administrative_state r = administrativeActive ∨ administrative_state r = administrativeSuspended.
Proof.
  intros Hd Hr. destruct (inv_relays _ _ Hd a r Hr) as [Hc _].
  apply relay_check_wf in Hc as (_&_&_&_&[[? _]|[? _]]); auto.
Qed.

Lemma moderate_keeps intent acceptedAt target d :
  target = administrativeActive ∨ target = administrativeSuspended →
  db_ok d → moderate plain_call intent acceptedAt target d = kept (moderate_promise intent acceptedAt target d) d.
Proof.
  intros Htg Hd. unfold moderate, moderate_promise. rewrite transitionUnix_run. set (t := unix_of acceptedAt).
  destruct (validateModerationIntent intent) eqn:Hv; simpl; [|done].
  destruct (Z.leb_spec 0 t) as [Ht|]; simpl; [|done].
  rewrite in_transaction_plain. unfold moderate_tx, selectRelay. tx_run.
  pose proof (requireMonotonicTime_run (moderation_intent_actor intent) t d d) as Hmono.
  destruct (relays d !! moderation_intent_actor intent) as [r|] eqn:Hr;
    cbn [fmap option_fmap option_map] in *; [|done].
  tx_run. rewrite Hmono.
  destruct (Z.leb_spec (relay_evidence (moderation_intent_actor intent) d) t) as [Hev|]; [|done].
  destruct (inv_relays _ _ Hd _ r Hr) as [Hc Hbase].
  destruct (relay_evidence_le _ _ _ Hev) as [Hrow _]. destruct (Hrow r Hr).
  pose proof (relay_check_moderate _ r t Hc ltac:(done) target Htg) as Hck.
  unfold classifyModeration. cbn [administrativeState record_of].
  destruct (administrative_cases _ d r Hd Hr) as [Hs|Hs], Htg as [-> | ->]; rewrite Hs; str_consts;
    cbn [andb] in *; tx_run; try rewrite (update_relay_run _ _ _ d r) by done; tx_run;
    rewrite insertModerationEvent_run by done; by tx_run.
Qed.

Lemma update_policy_run f d p :
  policy d = Some p → policy_check (f p) = true → update_policy f d = Some (set_policy (Some (f p)) d, 1).
Proof. unfold update_policy. by intros -> ->. Qed.

Lemma insert_enrollment_event_run action operator t d :
  enrollment_event_check (EnrollmentEvent action operator t) = true →
  insert_enrollment_event action operator t d = Some (log_enrollment_event action operator t d, tt).
Proof. unfold insert_enrollment_event. by intros ->. Qed.

Lemma SetEnrollment_keeps open operatorID acceptedAt d :
  db_ok d →
  SetEnrollment plain_call open operatorID acceptedAt d = kept (SetEnrollment_promise open operatorID acceptedAt d) d.
Proof.
  intros Hd. unfold SetEnrollment, SetEnrollment_promise. rewrite transitionUnix_run. set (t := unix_of acceptedAt).
  destruct (ValidOperatorID operatorID) eqn:Hv; simpl; [|done].
  destruct (Z.leb_spec 0 t) as [Ht|]; simpl; [|done].
  destruct (inv_policy _ _ Hd) as (p & Hpol & Hp).
  rewrite in_transaction_plain. unfold SetEnrollment_tx, selectEnrollmentOpen, requireEnrollmentTime. tx_run.
  unfold enrollment_evidence, enrollment_is_open.
  rewrite !Hpol. unfold policy_check in Hp. apply andb_true_iff in Hp as [Hp _].
  tx_run. rewrite check_run, Hp. tx_run. rewrite Hpol. tx_run. rewrite check_run, <- Z.leb_antisym.
  destruct (latest_of (policy_updated p) (latest_enrollment_event d) <=? t); [|done]. tx_run.
  assert (Hev : ∀ action, one_of [enrollmentOpened; enrollmentOpenUnchanged; enrollmentClosed;
            enrollmentClosedUnchanged] action = true →
            enrollment_event_check (EnrollmentEvent action operatorID t) = true).
  { intros action Ha. unfold enrollment_event_check.
    cbn [enrollment_action enrollment_operator enrollment_recorded].
    rewrite Ha, <- ValidOperatorID_check, Hv. bool_lia. }
  assert (Hpc : ∀ b, policy_check (PolicyRow (boolInteger b) t) = true).
  { intros []; unfold policy_check; simpl; bool_lia. }
  destruct (enrollment_open p =? 1), open; cbn [Bool.eqb classifyEnrollment negb]; tx_run;
    try rewrite (update_policy_run _ d p) by (done || apply Hpc); tx_run;
    rewrite insert_enrollment_event_run by (by apply Hev); by tx_run.
Qed.
End KeptMore.

(** ** Discoveries *)

Lemma DiscoveryState_Valid_cases s : DiscoveryState_Valid s = true → s = discoveryActive ∨ s = discoveryRemoved.
Proof. unfold DiscoveryState_Valid. repeat case_str; auto; done. Qed.

Definition discovery_wf (actor : string) (r : discovery_row) : Prop :=
  (1 ≤ len actor ≤ 4096 ∧ 1 ≤ len (discovery_base r) ≤ 2048) ∧
  0 ≤ first_discovered r ≤ discovery_updated r ∧
  ((discovery_state r = discoveryActive ∧ discovery_removed_at r = None) ∨
   (discovery_state r = discoveryRemoved ∧
    ∃ t, discovery_removed_at r = Some t ∧ first_discovered r ≤ t ≤ discovery_updated r)).

Lemma discovery_check_wf actor r : discovery_check actor r = true → discovery_wf actor r.
Proof.
  destruct r as [base st fi up re]. unfold discovery_check, discovery_wf, blob_length_between.
  cbn [discovery_base discovery_state first_discovered discovery_updated discovery_removed_at].
  intros Hc. bool_facts. split; [lia|]. split; [lia|].
  destruct (DiscoveryState_Valid_cases st) as [-> | ->]; [done|..]; str_consts;
    destruct re as [v|]; try discriminate; [by left|right]. simpl in *. bool_facts.
  split; [done|]. exists v. split; [done|lia].
Qed.
Lemma discovery_wf_check actor r : discovery_wf actor r → discovery_check actor r = true.
Proof.
  destruct r as [base st fi up re]. unfold discovery_check, discovery_wf, blob_length_between, DiscoveryState_Valid.
  cbn [discovery_base discovery_state first_discovered discovery_updated discovery_removed_at].
  intros ([??]&?&[[-> ->]|(->&v&->&?)]); str_consts; cbn [null_or andb orb is_null not_null negb]; bool_lia.
Qed.

Section KeptDiscovery.
Context `{RelayIdentity}.

Definition discovery_actions : list string :=
  [discoveryAdded; discoveryUpdated; discoveryUnchanged; discoveryRemovedOK; discoveryAbsent].

Lemma discovery_event_check_valid seq a action audit t :
  valid_audit audit = true → one_of discovery_actions action = true → 1 ≤ len a ≤ 4096 → 0 ≤ t →
  discovery_event_check (DiscoveryEvent seq a action
    (audit_operator audit) (audit_reason audit) (audit_source_kind audit)
    (if audit_source_label audit ≟ "" then None else Some (audit_source_label audit)) t) = true.
Proof.
  intros Hv Ha Hl Ht. unfold valid_audit in Hv. rewrite ValidOperatorID_check, ValidModerationReasonCode_check,
    ValidDiscoverySourceLabel_check in Hv. unfold discovery_actions in Ha.
  unfold discovery_event_check, blob_length_between.
  cbn [discovery_actor discovery_action discovery_operator discovery_reason discovery_source_kind
       discovery_source_label discovery_recorded].
  rewrite !andb_true_iff in Hv. destruct_and! Hv.
  repeat match goal with Hx : _ = true |- _ => rewrite Hx; clear Hx end. bool_lia.
Qed.

Lemma insertDiscoveryEvent_run a action audit t d w :
  valid_audit audit = true → one_of discovery_actions action = true → 1 ≤ len a ≤ 4096 → 0 ≤ t →
  insertDiscoveryEvent a action audit t (TX d w []) = (Ok tt, TX d (log_discovery a action audit t w) []).
Proof.
  intros. unfold insertDiscoveryEvent. tx_run. unfold insert_discovery_event.
  by rewrite discovery_event_check_valid.
Qed.

Lemma requireDiscoveryTime_run a t d w :
  requireDiscoveryTime a t (discoveries w !! a) (TX d w []) =
  (if discovery_evidence a w <=? t then Ok tt else Err ErrTransitionTime, TX d w []).
Proof.
  unfold requireDiscoveryTime. tx_run. rewrite check_run. fold (discovery_evidence a w).
  rewrite <- Z.leb_antisym. by destruct (discovery_evidence a w <=? t).
Qed.

Lemma discovery_evidence_le a d t r :
  discovery_evidence a d ≤ t → discoveries d !! a = Some r → discovery_updated r ≤ t.
Proof. unfold discovery_evidence. intros [Hle _]%latest_of_ge Hr. by rewrite Hr in Hle. Qed.

Lemma discovery_transition_check a d r t base :
  db_ok d → discoveries d !! a = Some r → discovery_updated r ≤ t → short_base base = true →
  discovery_check a (readd_discovery base t r) = true ∧ discovery_check a (remove_discovery t r) = true.
Proof.
  intros Hd Hr Ht Hb. destruct (inv_discoveries _ _ Hd a r Hr) as [Hc _].
  apply discovery_check_wf in Hc as ([??]&?&?). unfold short_base in Hb. bool_facts.
  split; apply discovery_wf_check; unfold discovery_wf; simpl; (split; [lia|split; [lia|]]).
  - by left.
  - right. split; [done|]. exists t. split; [done|lia].
Qed.

Lemma canonical_actor_nonempty a : canonical_actor a = true → 1 ≤ len a.
Proof.
  unfold canonical_actor. destruct a as [|c s]; [|unfold len; simpl; lia].
  destruct (norm_actor "") as [n|] eqn:Hn; [|done]. intros ->%String.eqb_eq. by destruct (norm_actor_nonempty "").
Qed.

Lemma insert_discovery_run a r d : discoveries d !! a = None →
  insert_discovery a r d = if discovery_check a r then Some (put_discovery a r d, 1) else None.
Proof. unfold insert_discovery. by intros ->. Qed.
Lemma update_discovery_run a f d r : discoveries d !! a = Some r → discovery_check a (f r) = true →
  update_discovery a f d = Some (put_discovery a (f r) d, 1).
Proof. unfold update_discovery. by intros -> ->. Qed.

Lemma new_discovery_check a base t : 1 ≤ len a → 0 ≤ t →
  discovery_check a (new_discovery base t) = (len a <=? 4096) && short_base base.
Proof.
  intros Ha Ht. apply eq_true_iff_eq. split.
  - intros Hc. apply discovery_check_wf in Hc as ([??]&_). simpl in *. unfold short_base. bool_lia.
  - unfold short_base. intros Hb. bool_facts. apply discovery_wf_check. unfold discovery_wf; simpl.
    split; [lia|]. split; [lia|by left].
Qed.

Lemma write_discovery_run intent t d :
  db_ok d → validateDiscoveryAddIntent intent = true → 0 ≤ t → discovery_evidence (add_actor intent) d ≤ t →
  let a := add_actor intent in
  write_discovery intent t (discoveries d !! a) (TX d d []) =
  match discoveries d !! a with
  | None => if (len a <=? 4096) && short_base (add_base intent)
            then (Ok (DiscoveryAdded, discoveryAdded), TX d (put_discovery a (new_discovery (add_base intent) t) d) [])
            else (Err (storageFailure "write discovery" ErrConstraint), TX d d [])
  | Some r =>
      if discovery_state r ≟ discoveryActive then (Ok (DiscoveryUnchanged, discoveryUnchanged), TX d d [])
      else (Ok (DiscoveryUpdated, discoveryUpdated), TX d (put_discovery a (readd_discovery (add_base intent) t r) d) [])
  end.
Proof.
  intros Hd Hv Ht Hev a. unfold validateDiscoveryAddIntent in Hv. apply andb_true_iff in Hv as [Hid _]. fold a in Hid.
  unfold write_discovery. fold a. destruct (discoveries d !! a) as [r|] eqn:Hr.
  - destruct (inv_discoveries _ _ Hd _ r Hr) as [Hc Hbase].
    rewrite (canonical_identity_base _ _ _ Hbase Hid) in *. rewrite String.eqb_refl, andb_true_r.
    pose proof (discovery_evidence_le _ _ _ r Hev Hr) as Hup.
    apply discovery_check_wf in Hc as ([_ Hb]&_&Hst).
    assert (Hshort : short_base (add_base intent) = true).
    { rewrite <- (canonical_identity_base _ _ _ Hbase Hid). unfold short_base. bool_lia. }
    destruct (discovery_transition_check _ d r t (add_base intent) Hd Hr Hup Hshort) as [Hck _].
    destruct Hst as [[-> _]|[-> _]]; str_consts; cbn [orb]; tx_run; [done|].
    rewrite (update_discovery_run _ _ d r) by done. by tx_run.
  - tx_run. rewrite insert_discovery_run, new_discovery_check by (try done; by eapply canonical_actor_nonempty, canonical_identity_actor).
    destruct ((len a <=? 4096) && short_base (add_base intent)); by tx_run.
Qed.

Lemma AddDiscovery_keeps intent acceptedAt d :
  db_ok d → AddDiscovery plain_call intent acceptedAt d = kept (AddDiscovery_promise intent acceptedAt d) d.
Proof.
  intros Hd. unfold AddDiscovery, AddDiscovery_promise. rewrite transitionUnix_run.
  set (t := unix_of acceptedAt).
  destruct (validateDiscoveryAddIntent intent) eqn:Hv; simpl; [|done].
  destruct (Z.leb_spec 0 t) as [Ht|]; simpl; [|done].
  rewrite in_transaction_plain. unfold AddDiscovery_tx, selectDiscovery. tx_run.
  rewrite requireDiscoveryTime_run. destruct (Z.leb_spec (discovery_evidence (add_actor intent) d) t) as [Hev|]; [|done].
  tx_run. rewrite write_discovery_run by done.
  unfold validateDiscoveryAddIntent in Hv. apply andb_true_iff in Hv as [Hid Hau].
  pose proof (canonical_actor_nonempty _ (canonical_identity_actor _ _ Hid)) as Hl1.
  destruct (discoveries d !! add_actor intent) as [r|] eqn:Hr.
  - destruct (inv_discoveries _ _ Hd _ r Hr) as [Hc _]. apply discovery_check_wf in Hc as ([Hl _]&_).
    destruct (discovery_state r ≟ discoveryActive); cbn beta iota; tx_run;
      rewrite insertDiscoveryEvent_run by done; by tx_run.
  - destruct (len (add_actor intent) <=? 4096) eqn:Hl; [|done]. cbn [andb].
    destruct (short_base (add_base intent)); [|done]. cbn beta iota. apply Z.leb_le in Hl. tx_run.
    rewrite insertDiscoveryEvent_run by done. by tx_run.
Qed.

Lemma RemoveDiscovery_keeps intent acceptedAt d :
  db_ok d →
  RemoveDiscovery plain_call intent acceptedAt d = kept (RemoveDiscovery_promise intent acceptedAt d) d.
Proof.
  intros Hd. unfold RemoveDiscovery, RemoveDiscovery_promise. rewrite transitionUnix_run.
  set (t := unix_of acceptedAt).
  destruct (validateDiscoveryRemoveIntent intent) eqn:Hv; simpl; [|done].
  destruct (Z.leb_spec 0 t) as [Ht|]; simpl; [|done].
  unfold validateDiscoveryRemoveIntent in Hv. apply andb_true_iff in Hv as [[Hl _]%validateIdentityIntent_spec Hau].
  rewrite in_transaction_plain. unfold RemoveDiscovery_tx, selectDiscovery. tx_run.
  rewrite requireDiscoveryTime_run.
  destruct (Z.leb_spec (discovery_evidence (remove_actor intent) d) t) as [Hev|]; [|done]. tx_run.
  destruct (discoveries d !! remove_actor intent) as [r|] eqn:Hr.
  - destruct (discovery_state r ≟ discoveryActive).
    + pose proof (discovery_evidence_le _ _ _ r Hev Hr) as Hup.
      destruct (discovery_transition_check _ d r t "x" Hd Hr Hup eq_refl) as [_ Hck].
      tx_run. unfold update_discovery at 1. rewrite Hr, Hck. tx_run.
      rewrite insertDiscoveryEvent_run by done. by tx_run.
    + tx_run. rewrite insertDiscoveryEvent_run by done. by tx_run.
  - tx_run. rewrite insertDiscoveryEvent_run by done. by tx_run.
Qed.

Lemma monotonic_or_stale_run a t d w :
  monotonic_or_stale a t (record_of <$> relays w !! a) (TX d w []) =
  (Ok (relay_evidence a w <=? t), TX d w []).
Proof.
  unfold monotonic_or_stale. rewrite requireMonotonicTime_run. by destruct (relay_evidence a w <=? t).
Qed.

Lemma SoftPrune_keeps a observedAt d :
  db_ok d → SoftPrune plain_call a observedAt d = kept (SoftPrune_promise a observedAt d) d.
Proof.
  intros Hd. unfold SoftPrune, SoftPrune_promise. rewrite transitionUnix_run. set (t := unix_of observedAt).
  destruct (validateIdentityIntent a) eqn:Hv; simpl; [|done].
  destruct (Z.leb_spec 0 t) as [Ht|]; simpl; [|done].
  apply validateIdentityIntent_spec in Hv as [Hl _].
  rewrite in_transaction_plain. unfold SoftPrune_tx, selectRelay, selectObservation. tx_run.
  pose proof (monotonic_or_stale_run a t d d) as Hmono. unfold prune_due.
  destruct (relays d !! a) as [r|] eqn:Hr; cbn [fmap option_fmap option_map lifecycleState lastSeenAtUnix record_of] in *; [|done].
  destruct (lifecycle_state r ≟ lifecyclePruned); [done|].
  rewrite (Z.leb_antisym (dead_cutoff t)).
  destruct (String.eqb_spec (lifecycle_state r) lifecycleRegistered) as [Hreg|]; [|done].
  destruct (dead_cutoff t <? last_seen_at_unix r) eqn:Hdue; [done|]. cbn [negb andb orb]. tx_run.
  destruct (match observations d !! a with Some o => _ | None => false end); [done|]. cbn [negb andb]. tx_run.
  rewrite Hmono. tx_run.
  destruct (Z.leb_spec (relay_evidence a d) t) as [Hev|]; [|done]. tx_run.
  destruct (inv_relays _ _ Hd a r Hr) as [Hc _]. destruct (relay_evidence_le _ _ _ Hev) as [Hrow _].
  destruct (Hrow r Hr). bool_facts.
  rewrite (update_relay_run _ _ _ d r);
    [|done|rewrite Hreg; apply andb_true_iff; split; [done|by apply Z.leb_le]|by apply relay_check_prune].
  tx_run. rewrite check_run. cbn [Z.eqb Pos.eqb]. tx_run. rewrite insertRelayEvent_run by done. by tx_run.
Qed.
End KeptDiscovery.

(** ** Observations *)

Section ObservationRows.
Context (a : string) (o : observation_row) (t : Z).
Hypothesis Ho : observation_check a o = true.
Hypothesis Ht : 0 ≤ t.

Ltac observation_transition :=
  apply observation_check_wf in Ho as ((?&?&?)&(Hw1&Hw2&Hw3&Hw4&Hw5)&Hst&Hin&Hps);
  apply observation_wf_check; unfold observation_wf; simpl; rewrite ?within_some, ?within_none;
  split_and!; try lia; try done; try (eapply within_widen; [eassumption|lia]).

Lemma observation_check_reach inbox :
  null_or (blob_length_between 1 4096) inbox = true →
  observation_check a (reach_row inbox t (Z.max (observation_updated o) t) o) = true.
Proof using Ho Ht.
  intros Hi. observation_transition.
  - destruct inbox; simpl; [rewrite within_some; lia|done].
  - right; left. split; [done|]. by exists t.
  - destruct inbox as [u|]; [right|by left]. exists u, t. unfold blob_length_between in Hi. simpl in Hi.
    bool_facts. split; [done|split; [lia|done]].
  - by left.
Qed.

Lemma observation_check_unreach :
  null_or (λ v, v <=? t) (actor_last_checked o) = true →
  observation_check a (unreach_row ReachabilityUnreachable t (Z.max (observation_updated o) t) o) = true.
Proof using Ho Ht.
  intros Hc. observation_transition.
  right; right. split; [done|]. exists t. split; [done|]. intros v Hv.
  destruct Hst as [(_&_&Hn)|[(_&c&Hc'&Hs)|(_&c&Hc'&Hs)]]; [congruence| |];
    rewrite Hc' in Hc; simpl in Hc; bool_facts.
  - rewrite Hs in Hv. injection Hv as <-. specialize (Hw1 c Hc'). lia.
  - specialize (Hs v Hv). lia.
Qed.

Lemma observation_check_inbox state :
  InboxProbeState_Valid state = true → state ≠ InboxNotChecked →
  observation_check a (inbox_row state t (Z.max (observation_updated o) t) o) = true.
Proof using Ho Ht.
  intros Hv Hn. observation_transition. right. split; [done|]. split; [done|by eexists].
Qed.
End ObservationRows.

Section KeptObservations.
Context `{RelayIdentity}.

Lemma retained_length {P} a d : db_inv P d → retained_identity a d = true → 1 ≤ len a ≤ 4096.
Proof.
  unfold retained_identity, not_null, is_null. intros Hd Hr.
  destruct (relays d !! a) as [r|] eqn:Hrel.
  - destruct (inv_relays _ _ Hd a r Hrel) as [Hc _]. by apply relay_check_wf in Hc as ([? _]&_).
  - destruct (discoveries d !! a) as [r|] eqn:Hdis; [|done].
    destruct (inv_discoveries _ _ Hd a r Hdis) as [Hc _]. by apply discovery_check_wf in Hc as ([? _]&_).
Qed.

Lemma observation_at_ok {P} a t d : db_inv P d → retained_identity a d = true → 0 ≤ t →
  observation_check a (observation_at a t d) = true.
Proof.
  intros Hd Hr Ht. apply observation_at_check; [|by eapply retained_length|done].
  intros o Ho. by apply (inv_observations _ _ Hd) in Ho as [? _].
Qed.

Lemma actor_checked_at a t d : actor_last_checked (observation_at a t d) = actor_checked d a.
Proof. unfold observation_at, actor_checked. by destruct (observations d !! a). Qed.

Lemma present_check url : (len url <=? 4096) = true → null_or (blob_length_between 1 4096) (present url) = true.
Proof.
  intros Hl. unfold present. destruct (String.eqb_spec url "") as [|Hne]; [done|].
  unfold null_or, blob_length_between. rewrite Hl, andb_true_r. apply Z.leb_le.
  destruct url; [done|]. unfold len. simpl. lia.
Qed.

Lemma RecordActorObservation_row_check intent t d :
  let a := actor_intent_actor intent in
  let o := observation_at a t d in
  validateActorObservationIntent intent = true → observation_check a o = true → 0 ≤ t →
  null_or (λ v, v <=? t) (actor_checked d a) = true →
  observation_check a
    (if actor_intent_state intent ≟ ReachabilityReachable
     then reach_row (present (actor_intent_inbox intent)) t (Z.max (observation_updated o) t) o
     else unreach_row (actor_intent_state intent) t (Z.max (observation_updated o) t) o) = true.
Proof.
  intros a o Hv Hok Ht Hc. unfold validateActorObservationIntent in Hv. rewrite !andb_true_iff in Hv.
  destruct Hv as [[[_ Hst] _] Hin].
  destruct (String.eqb_spec (actor_intent_state intent) ReachabilityReachable) as [Hs|Hs].
  - apply observation_check_reach; [done|done|]. destruct (String.eqb_spec (actor_intent_inbox intent) "") as [->|].
    + done.
    + apply present_check. simpl in Hin. unfold canonical_inbox, maximumRelayActorBytes in Hin.
      apply andb_true_iff in Hin as [_ Hlen]. by rewrite <- Z.leb_antisym in Hlen.
  - simpl in Hst. apply String.eqb_eq in Hst. rewrite Hst. apply observation_check_unreach; [done|done|].
    unfold o. by rewrite actor_checked_at.
Qed.

Lemma RecordActorObservation_keeps intent observedAt d :
  db_ok d →
  RecordActorObservation plain_call intent observedAt d =
  match kept (RecordActorObservation_promise intent observedAt d) d with
  | (Ok _, d') => (Ok tt, d')
  | (Err e, d') => (Err e, d')
  end.
Proof.
  intros Hd. unfold RecordActorObservation, RecordActorObservation_promise. rewrite observationUnix_run.
  set (t := unix_of observedAt). set (a := actor_intent_actor intent).
  destruct (validateActorObservationIntent intent) eqn:Hv; simpl; [|done].
  destruct (Z.leb_spec 0 t) as [Ht|]; simpl; [|done].
  rewrite in_transaction_plain. unfold RecordActorObservation_tx, retainedObservationIdentity, selectObservation.
  fold a. tx_run. rewrite check_run. destruct (retained_identity a d) eqn:Hr; [|done]. tx_run. rewrite check_run.
  unfold actor_checked at 1.
  destruct (null_or (λ v, v <=? t) (observations d !! a ≫= actor_last_checked)) eqn:Hc.
  2:{ destruct (observations d !! a) as [o|]; simpl in Hc; [|done]. by rewrite Hc. }
  replace (match observations d !! a with Some r => null_or (λ v, v <=? t) (actor_last_checked r) | None => true end)
    with true by (by destruct (observations d !! a) as [o|]).
  tx_run. rewrite currentOrEmptyObservation_run by (try done; by eapply retained_length). tx_run.
  rewrite maxInt64_max. pose proof (observation_at_ok a t d Hd Hr Ht) as Hok.
  pose proof (RecordActorObservation_row_check intent t d Hv Hok Ht Hc) as Hck. fold a in Hck.
  cbn [require kept]. fold (present (actor_intent_inbox intent)).
  destruct (actor_intent_state intent ≟ ReachabilityReachable); tx_run;
    (rewrite (update_current_run a _ t d) by done); by tx_run.
Qed.

Lemma RecordInboxObservation_keeps intent observedAt d :
  db_ok d →
  RecordInboxObservation plain_call intent observedAt d =
  match kept (RecordInboxObservation_promise intent observedAt d) d with
  | (Ok _, d') => (Ok tt, d')
  | (Err e, d') => (Err e, d')
  end.
Proof.
  intros Hd. unfold RecordInboxObservation, RecordInboxObservation_promise. rewrite observationUnix_run.
  set (t := unix_of observedAt). set (a := inbox_intent_actor intent).
  destruct (validateInboxObservationIntent intent) eqn:Hv; simpl; [|done].
  destruct (Z.leb_spec 0 t) as [Ht|]; simpl; [|done].
  rewrite in_transaction_plain. unfold RecordInboxObservation_tx, selectObservation. fold a. tx_run.
  destruct (observations d !! a) as [o|] eqn:Ho; [|done]. tx_run. rewrite check_run.
  destruct (match inbox_url o with Some u => u ≟ inbox_intent_url intent | None => false end); [|done].
  tx_run. rewrite check_run.
  destruct (null_or (λ v, v <=? t) (inbox_declared o) && null_or (λ v, v <=? t) (inbox_last_checked o)); [|done].
  tx_run. rewrite maxInt64_max. destruct (inv_observations _ _ Hd a o Ho) as [Hc Hr].
  unfold validateInboxObservationIntent in Hv. rewrite !andb_true_iff in Hv. destruct Hv as [[[[_ Hn] Hval] _] _].
  bool_facts. rewrite (update_observation_run a _ d o Ho); [by tx_run|].
  by apply observation_check_inbox.
Qed.

(** *** Reachability *)

Lemma one_of_cases values v : one_of values v = true → In v values.
Proof.
  unfold one_of. intros (x & Hx & He)%existsb_exists. apply String.eqb_eq in He. by subst.
Qed.

(** A valid probe diagnostic fits its columns. *)
Lemma ProbeDiagnostic_Valid_fits g : ProbeDiagnostic_Valid g = true →
  len (diag_stage g) ≤ 16 ∧ len (diag_code g) ≤ 32 ∧ 0 ≤ diag_http_status g ≤ 599.
Proof.
  destruct g as [stage code status]. unfold ProbeDiagnostic_Valid.
  cbn [diag_stage diag_code diag_http_status]. intros Hv.
  repeat match type of Hv with
  | (if ?s ≟ ?k then _ else _) = true => destruct (String.eqb_spec s k) as [->|]
  | false = true => discriminate Hv
  end.
  all: repeat match goal with
  | H : (_ && _)%bool = true |- _ => apply andb_true_iff in H as [? ?]
  | H : (_ || _)%bool = true |- _ => apply orb_true_iff in H as [?|?]
  | H : one_of _ _ = true |- _ => apply one_of_cases in H; simpl in H; destruct_or?; subst
  end; bool_facts; subst; (split; [|split]); first [by vm_compute|lia].
Qed.

Lemma eligible_retained d a : eligible_now d a = true → retained_identity a d = true.
Proof.
  unfold eligible_now, retained_identity, not_null, is_null.
  destruct (relays d !! a), (discoveries d !! a); try done.
Qed.

Lemma retry_of_streak_range streak :
  seconds_of ReachabilityFailureRetryMinimum ≤ seconds_of (retry_of_streak streak) ≤ seconds_of ReachabilityUnreachableRetry.
Proof. unfold retry_of_streak. repeat case_match; by vm_compute. Qed.

Lemma next_streak_range d a : db_ok d →
  1 ≤ next_streak (actor_failure_streak <$> diagnostics d !! a) ≤ 4.
Proof.
  intros Hd. unfold next_streak, MaximumReachabilityFailureStreak.
  destruct (diagnostics d !! a) as [g|] eqn:Hg; simpl; [|lia].
  destruct (inv_diagnostics _ _ Hd a g Hg) as [Hc _]. unfold diagnostic_check in Hc. bool_facts.
  destruct (Z.ltb_spec (actor_failure_streak g) 4); lia.
Qed.

(** The next check is one hour to one week ahead. *)
Lemma probe_schedule_range intent t d : db_ok d →
  let '(streak, next) := probe_schedule intent t d in
  0 ≤ streak ≤ 4 ∧ t + seconds_of ReachabilityFailureRetryMinimum ≤ next ≤ t + seconds_of ReachabilityUnreachableRetry.
Proof.
  intros Hd. unfold probe_schedule. pose proof (next_streak_range d (reach_actor intent) Hd).
  destruct (reach_actor_state intent ≟ ReachabilityUnreachable).
  2:{ split; [lia|]. vm_compute seconds_of. lia. }
  case_match; (split; [lia|]).
  - vm_compute seconds_of. lia.
  - pose proof (retry_of_streak_range (next_streak (actor_failure_streak <$> diagnostics d !! reach_actor intent))).
    lia.
Qed.

Definition int64_time (t : Z) : Prop := 0 ≤ t ∧ t + seconds_of ReachabilityUnreachableRetry ≤ int64_max.


Lemma schedule_probe_run intent t d w o :
  int64_time t → relays w = relays d → discoveries w = discoveries d → diagnostics w = diagnostics d →
  o = observation_at (reach_actor intent) t d →
  schedule_probe intent t (actor_last_success o) (TX d w []) = (Ok (probe_schedule intent t d), TX d w []).
Proof.
  intros [Ht0 Ht] Hrel Hdis Hdia ->. unfold schedule_probe, probe_schedule.
  assert (Hr : seconds_of ReachabilityUnreachableRetry = 604800) by done. rewrite Hr in *.
  unfold int64_max in Ht.
  assert (Hsub : int64_sub t 604800 = t - 604800).
  { apply int64_wrap_id. unfold int64_min, int64_max. lia. }
  assert (Hadd : ∀ x, 0 ≤ x ≤ 604800 → int64_add t x = t + x).
  { intros x Hx. apply int64_add_small. unfold int64_min, int64_max. lia. }
  destruct (reach_actor_state intent ≟ ReachabilityUnreachable).
  - tx_run. rewrite Hdia. unfold last_known_online. rewrite Hrel, Hdis. rewrite Hsub.
    pose proof (retry_of_streak_range (next_streak (actor_failure_streak <$> diagnostics d !! reach_actor intent))) as Hrng.
    rewrite Hr in Hrng. assert (0 ≤ seconds_of ReachabilityFailureRetryMinimum) by (by vm_compute).
    rewrite (Hadd 604800), Hadd by lia. by case_match.
  - rewrite Hadd; [done|by vm_compute].
Qed.
End KeptObservations.

Section KeptReachability.
Context `{RelayIdentity}.

(** What validation of a probe result gives. *)
Lemma validateReachability_spec intent : validateReachabilityObservationIntent intent = true →
  ProbeDiagnostic_Valid (reach_actor_diagnostic intent) = true ∧
  ProbeDiagnostic_Valid (reach_inbox_diagnostic intent) = true ∧
  ((reach_actor_state intent = ReachabilityReachable ∧
    ((reach_inbox_url intent = "" ∧ reach_inbox_state intent = InboxNotChecked) ∨
     (reach_inbox_url intent ≠ "" ∧ InboxProbeState_Valid (reach_inbox_state intent) = true ∧
      reach_inbox_state intent ≠ InboxNotChecked))) ∨
   (reach_actor_state intent = ReachabilityUnreachable ∧ reach_inbox_url intent = "")).
Proof.
  unfold validateReachabilityObservationIntent. intros Hv. rewrite !andb_true_iff in Hv.
  destruct Hv as [[[[[Ha Hi] _] _] _] Hs]. split; [done|]. split; [done|].
  destruct (String.eqb_spec (reach_actor_state intent) ReachabilityReachable) as [->|].
  - left. split; [done|]. destruct (String.eqb_spec (reach_inbox_url intent) "") as [->|Hne].
    + left. split; [done|]. by apply String.eqb_eq.
    + right. split; [done|]. apply andb_true_iff in Hs as [_ Hs]. unfold InboxProbeState_Valid.
      rewrite !orb_true_iff, !String.eqb_eq in *. destruct_or! Hs; rewrite Hs; split; auto; done.
  - right. destruct (String.eqb_spec (reach_actor_state intent) ReachabilityUnreachable); [|done].
    bool_facts. done.
Qed.

Lemma probed_check intent t d :
  db_ok d → retained_identity (reach_actor intent) d = true → 0 ≤ t →
  validateReachabilityObservationIntent intent = true → (len (reach_inbox_url intent) <=? 4096) = true →
  null_or (λ v, v <=? t) (actor_checked d (reach_actor intent)) = true →
  observation_check (reach_actor intent) (probe_observation intent t d) = true.
Proof.
  intros Hd Hr Ht Hv Hlen Hc. pose proof (observation_at_ok _ t d Hd Hr Ht) as Hok.
  apply validateReachability_spec in Hv as (_&_&[[Hs Hi]|[Hs Hi]]); unfold probe_observation; rewrite Hs; str_consts; cbn iota.
  - apply observation_check_wf in Hok as ((?&?&?)&(Hw1&Hw2&Hw3&Hw4&Hw5)&_).
    apply observation_wf_check. unfold observation_wf; simpl. rewrite Hs.
    set (o := observation_at (reach_actor intent) t d) in *.
    destruct Hi as [(-> & ->)|(Hne & Hval & Hn)]; [simpl|rewrite (proj2 (String.eqb_neq _ _) Hne)];
      rewrite ?within_some, ?within_none.
    + split_and!; try lia; try done; try (eapply within_widen; [eassumption|lia]);
        [right; left; split; [done|by exists t]|by left|by left].
    + split_and!; try lia; try (eapply within_widen; [eassumption|lia]).
      * right; left. split; [done|by exists t].
      * right. exists (reach_inbox_url intent), t. split; [done|]. split; [|done].
        apply Z.leb_le in Hlen. destruct (reach_inbox_url intent); [done|]. unfold len in *. simpl in *. lia.
      * right. split; [done|]. split; [done|by eexists].
  - apply observation_check_unreach; [done|done|]. by rewrite actor_checked_at.
Qed.

Lemma diagnostic_row_check intent t d :
  db_ok d → 0 ≤ t → validateReachabilityObservationIntent intent = true →
  diagnostic_check (probe_diagnostic intent t d) = true ∧
  let '(streak, next) := probe_schedule intent t d in diagnostic_check (diagnostic_of intent next t streak) = true.
Proof.
  intros Hd Ht Hv. apply validateReachability_spec in Hv as (Ha&Hi&_).
  apply ProbeDiagnostic_Valid_fits in Ha as (?&?&?), Hi as (?&?&?).
  pose proof (probe_schedule_range intent t d Hd) as Hrng. unfold probe_diagnostic.
  destruct (probe_schedule intent t d) as [streak next].
  assert (0 < seconds_of ReachabilityFailureRetryMinimum) by (by vm_compute).
  split.
  - destruct (diagnostics d !! reach_actor intent) as [old|] eqn:Hold.
    + destruct (inv_diagnostics _ _ Hd _ old Hold) as [Hc _]. unfold diagnostic_check in *; simpl.
      destruct (reach_actor_state intent ≟ "reachable"); bool_facts; bool_lia.
    + unfold diagnostic_check; simpl. bool_lia.
  - unfold diagnostic_check; simpl. bool_lia.
Qed.

Lemma write_probe_run intent t d :
  db_ok d → retained_identity (reach_actor intent) d = true → 0 ≤ t →
  validateReachabilityObservationIntent intent = true →
  null_or (λ v, v <=? t) (actor_checked d (reach_actor intent)) = true →
  let a := reach_actor intent in
  let w := match observations d !! a with Some _ => d | None => put_observation a (empty_observation t) d end in
  fst (write_probe intent t (Z.max (observation_updated (observation_at a t d)) t) (TX d w [])) =
    (if len (reach_inbox_url intent) <=? 4096 then Ok tt
     else Err (storageFailure "write reachable observation" ErrConstraint)) ∧
  ((len (reach_inbox_url intent) <=? 4096) = true →
   write_probe intent t (Z.max (observation_updated (observation_at a t d)) t) (TX d w []) =
   (Ok tt, TX d (put_observation a (probe_observation intent t d) d) [])).
Proof.
  intros Hd Hr Ht Hv Hc a w. pose proof (probed_check intent t d Hd Hr Ht Hv) as Hp.
  assert (Hlong : (len (reach_inbox_url intent) <=? 4096) = false →
    update_observation a (probed_row intent t (Z.max (observation_updated (observation_at a t d)) t)) w = None ∧
    reach_actor_state intent = ReachabilityReachable).
  { intros Hl. apply validateReachability_spec in Hv as (_&_&[[Hs _]|[_ Hi]]); [|by rewrite Hi in Hl].
    split; [|done]. unfold update_observation, w.
    assert (Hbad : ∀ o, observation_check a
      (probed_row intent t (Z.max (observation_updated (observation_at a t d)) t) o) = false).
    { intros o. apply not_true_is_false. intros (_&_&_&Hin&_)%observation_check_wf. simpl in Hin.
      destruct (String.eqb_spec (reach_inbox_url intent) "") as [He|]; [by rewrite He in Hl|].
      destruct Hin as [[? _]|(u&v&[= <-]&?&_)]; [done|]. bool_facts. lia. }
    destruct (observations d !! a) as [o|] eqn:Ho.
    - by rewrite Ho, Hbad.
    - by rewrite lookup_put_observation, Hbad. }
  unfold write_probe, probe_observation in *. fold a in Hp |- *.
  destruct (len (reach_inbox_url intent) <=? 4096) eqn:Hl.
  - specialize (Hp eq_refl Hc). apply validateReachability_spec in Hv as (_&_&[[Hs _]|[Hs _]]);
      rewrite Hs in *; str_consts; cbn iota in *; tx_run; unfold w;
      rewrite (update_current_run a _ t d) by done; by tx_run.
  - destruct (Hlong eq_refl) as [Hu ->]. str_consts. tx_run. rewrite Hu. by tx_run.
Qed.

Lemma upsert_diagnostic_run a g merge d :
  is_Some (observations d !! a) → diagnostic_check g = true →
  diagnostic_check (match diagnostics d !! a with Some old => merge old | None => g end) = true →
  upsert_diagnostic a g merge d =
  Some (put_diagnostic a (match diagnostics d !! a with Some old => merge old | None => g end) d, 1).
Proof. unfold upsert_diagnostic. intros [o ->] -> ->. done. Qed.

Lemma RecordReachabilityObservation_keeps intent observedAt d :
  db_ok d → int64_time (unix_of observedAt) ∨ unix_of observedAt < 0 →
  RecordReachabilityObservation plain_call intent observedAt d =
  kept (RecordReachabilityObservation_promise intent observedAt d) d.
Proof.
  intros Hd Htime. unfold RecordReachabilityObservation, RecordReachabilityObservation_promise.
  rewrite observationUnix_run. set (t := unix_of observedAt) in *. set (a := reach_actor intent).
  destruct (validateReachabilityObservationIntent intent) eqn:Hv; simpl; [|done].
  destruct (Z.leb_spec 0 t) as [Ht|]; simpl; [|done]. destruct Htime as [Htime|]; [|lia].
  rewrite in_transaction_plain. unfold RecordReachabilityObservation_tx, reachabilityEligible, selectObservation.
  fold a. tx_run. destruct (eligible_now d a) eqn:Hel; cbn [negb orb]; [|done].
  pose proof (eligible_retained d a Hel) as Hret. tx_run. unfold actor_checked.
  destruct (match observations d !! a ≫= actor_last_checked with Some v => t <=? v | None => false end) eqn:Hchk;
    [done|].
  tx_run. rewrite currentOrEmptyObservation_run by (try done; by eapply retained_length). tx_run.
  rewrite maxInt64_max.
  assert (Hc : null_or (λ v, v <=? t) (actor_checked d a) = true).
  { unfold actor_checked. destruct (observations d !! a ≫= actor_last_checked); simpl in *; bool_facts; bool_lia. }
  destruct (write_probe_run intent t d Hd Hret Ht Hv Hc) as [Hw1 Hw2]. fold a in Hw1, Hw2.
  destruct (len (reach_inbox_url intent) <=? 4096) eqn:Hl; cbn [require].
  2:{ destruct (write_probe intent t _ _) as [r st] eqn:Hrun in Hw1. rewrite Hrun. simpl in Hw1. subst r.
      pose proof (body_durable _ (body_write_probe intent t (Z.max (observation_updated (observation_at a t d)) t)) d) as Hdur.
      cbn [kept]. f_equal.
      specialize (Hdur (match observations d !! a with Some _ => d | None => put_observation a (empty_observation t) d end)).
      rewrite Hrun in Hdur. apply Hdur. }
  rewrite (Hw2 eq_refl). cbn beta iota. tx_run.
  rewrite (schedule_probe_run intent t d (put_observation a (probe_observation intent t d) d)
             (observation_at a t d)) by done.
  destruct (diagnostic_row_check intent t d Hd Ht Hv) as [Hg1 Hg2]. unfold probe_diagnostic in *.
  destruct (probe_schedule intent t d) as [streak next]. fold a in Hg1 |- *. tx_run.
  rewrite upsert_diagnostic_run; [by tx_run|exists (probe_observation intent t d); apply lookup_put_observation|done|done].
Qed.
End KeptReachability.
