(* ===== verification/System.v ===== *)
(** * System: the repository as a state machine

    The twelve mutating operations on relays, enrollment, discoveries and
    observations behind one name, under any admission answer and any driver
    failures: what each promises by [Contract], and that a promise keeps the
    invariant.  [Writes] closes over these and the writes of the other
    repositories. *)
From S2P Require Import Prelude Identity Vocabulary Store Repository Lifecycle Discovery Reachability Pruning Invariant Contract Refinement.
Local Open Scope string_scope.
Local Open Scope Z_scope.
Local Open Scope go_scope.
Local Open Scope list_scope.

Section System.
Context `{RelayIdentity}.

Inductive operation :=
| OpRegister (intent : RegisterIntent)
| OpHeartbeat (actor : string)
| OpUnregister (actor : string)
| OpSuspend (intent : ModerationIntent)
| OpRestore (intent : ModerationIntent)
| OpSetEnrollment (open : bool) (operator : string)
| OpAddDiscovery (intent : DiscoveryAddIntent)
| OpRemoveDiscovery (intent : DiscoveryRemoveIntent)
| OpActorObservation (intent : ActorObservationIntent)
| OpInboxObservation (intent : InboxObservationIntent)
| OpReachability (intent : ReachabilityObservationIntent)
| OpSoftPrune (actor : string).

Definition unit_outcome (p : result error unit * db) : result error string * db :=
  match p with (Ok _, d) => (Ok "", d) | (Err e, d) => (Err e, d) end.

(** The repository method of each operation, called at time [t]. *)
Definition perform (c : call) (o : operation) (t : Z) (d : db) : result error string * db :=
  match o with
  | OpRegister intent => Register c intent t d
  | OpHeartbeat actor => Heartbeat c actor t d
  | OpUnregister actor => Unregister c actor t d
  | OpSuspend intent => Suspend c intent t d
  | OpRestore intent => Restore c intent t d
  | OpSetEnrollment open operator => SetEnrollment c open operator t d
  | OpAddDiscovery intent => AddDiscovery c intent t d
  | OpRemoveDiscovery intent => RemoveDiscovery c intent t d
  | OpActorObservation intent => unit_outcome (RecordActorObservation c intent t d)
  | OpInboxObservation intent => unit_outcome (RecordInboxObservation c intent t d)
  | OpReachability intent => RecordReachabilityObservation c intent t d
  | OpSoftPrune actor => SoftPrune c actor t d
  end.

Definition promised (o : operation) (t : Z) (d : db) : promise :=
  match o with
  | OpRegister intent => Register_promise intent t d
  | OpHeartbeat actor => Heartbeat_promise actor t d
  | OpUnregister actor => Unregister_promise actor t d
  | OpSuspend intent => moderate_promise intent t administrativeSuspended d
  | OpRestore intent => moderate_promise intent t administrativeActive d
  | OpSetEnrollment open operator => SetEnrollment_promise open operator t d
  | OpAddDiscovery intent => AddDiscovery_promise intent t d
  | OpRemoveDiscovery intent => RemoveDiscovery_promise intent t d
  | OpActorObservation intent => RecordActorObservation_promise intent t d
  | OpInboxObservation intent => RecordInboxObservation_promise intent t d
  | OpReachability intent => RecordReachabilityObservation_promise intent t d
  | OpSoftPrune actor => SoftPrune_promise actor t d
  end.

(** The server clock stays a week below the last [int64] second. *)
Definition clock_ok (t : Z) : Prop := unix_of t + seconds_of ReachabilityUnreachableRetry ≤ int64_max.

(** The actor whose rows an operation may change. *)
Definition operation_actor (o : operation) : option string :=
  match o with
  | OpRegister intent => Some (register_actor intent)
  | OpHeartbeat actor | OpUnregister actor | OpSoftPrune actor => Some actor
  | OpSuspend intent | OpRestore intent => Some (moderation_intent_actor intent)
  | OpSetEnrollment _ _ => None
  | OpAddDiscovery intent => Some (add_actor intent)
  | OpRemoveDiscovery intent => Some (remove_actor intent)
  | OpActorObservation intent => Some (actor_intent_actor intent)
  | OpInboxObservation intent => Some (inbox_intent_actor intent)
  | OpReachability intent => Some (reach_actor intent)
  end.

(** ** Refinement *)

Lemma perform_plain o t d : db_ok d → clock_ok t → perform plain_call o t d = kept (promised o t d) d.
Proof.
  intros Hd Ht. destruct o; simpl.
  - by apply Register_keeps.
  - by apply Heartbeat_keeps.
  - by apply Unregister_keeps.
  - apply moderate_keeps; auto.
  - apply moderate_keeps; auto.
  - by apply SetEnrollment_keeps.
  - by apply AddDiscovery_keeps.
  - by apply RemoveDiscovery_keeps.
  - rewrite RecordActorObservation_keeps by done. unfold RecordActorObservation_promise, require.
    by repeat case_match; simplify_eq/=.
  - rewrite RecordInboxObservation_keeps by done. unfold RecordInboxObservation_promise, require.
    by repeat case_match; simplify_eq/=.
  - apply RecordReachabilityObservation_keeps; [done|]. unfold clock_ok, int64_time in *. lia.
  - by apply SoftPrune_keeps.
Qed.

Lemma settles_unit (run : call → db → result error unit * db) :
  settles run → settles (λ c d, unit_outcome (run c d)).
Proof.
  intros [Hs He]. split; [intros c d|intros d e d'].
  - destruct (Hs c d) as [->|(e&->&?)]; [by left|right]. by exists e.
  - specialize (He d). destruct (run plain_call d) as [[[]|e1] d1]; intros [= ? ?]; subst. by apply (He e).
Qed.

Lemma perform_settles o t : settles (λ c d, perform c o t d).
Proof.
  destruct o; simpl; try (apply settles_unit).
  - apply settles_Register.
  - apply settles_Heartbeat.
  - apply settles_Unregister.
  - apply settles_moderate.
  - apply settles_moderate.
  - apply settles_SetEnrollment.
  - apply settles_AddDiscovery.
  - apply settles_RemoveDiscovery.
  - apply settles_RecordActorObservation.
  - apply settles_RecordInboxObservation.
  - apply settles_RecordReachabilityObservation.
  - apply settles_SoftPrune.
Qed.

(** The database an accepted call leaves is the promised one. *)
Lemma performed_ok c o t d out d' : db_ok d → clock_ok t → perform c o t d = (Ok out, d') →
  promised o t d = Ok (out, d').
Proof.
  intros Hd Ht Hp. destruct (settles_call _ (perform_settles o t) c d) as [Heq|(e&Heq&_)]; rewrite Heq in Hp; [|done].
  rewrite (perform_plain o t d Hd Ht) in Hp. unfold kept in Hp. destruct (promised o t d) as [[]|]; by simplify_eq.
Qed.

(** A call that is refused leaves the database alone, whatever the database. *)
Lemma performed_error c o t d e d' : perform c o t d = (Err e, d') → d' = d.
Proof.
  intros Hp. destruct (settles_call _ (perform_settles o t) c d) as [Heq|(e'&Heq&_)]; rewrite Heq in Hp.
  - by apply (settles_error _ (perform_settles o t) d e).
  - by injection Hp as _ <-.
Qed.
End System.

(** ** Promises keep the invariant *)

Lemma require_ok ok e next p : require ok e next = Ok p → ok = true ∧ next = Ok p.
Proof. by destruct ok. Qed.

(** Peel the guards of a promise off a hypothesis. *)
Ltac guards H :=
  repeat match type of H with
  | require _ _ _ = Ok _ => let G := fresh "Hg" in apply require_ok in H as [G H]
  end; bool_facts.

Section Preserve.
Context `{RelayIdentity}.

Definition covered_by (a : string) (t : Z) (a' : string) (v : Z) : Prop := a' = a ∧ v ≤ t.
(** Whatever evidence [a] has, it is about to be replaced. *)
Definition evidence_of (a : string) (a' : string) (v : Z) : Prop := a' = a.

Lemma inv_put_relay_new a r d : db_ok d → relay_check a r = true → canonical_identity a (public_base_url r) = true →
  db_inv (evidence_of a) (put_relay a r d).
Proof. intros. by apply (inv_put_relay_at nothing_pending); [..|right]. Qed.
Lemma inv_evidence_of a d : db_ok d → db_inv (evidence_of a) d.
Proof. by apply inv_weaken. Qed.

Lemma inv_mark_verified a t d :
  db_inv (evidence_of a) d → retained_identity a d = true → 0 ≤ t →
  db_inv (covered_by a t) (mark_verified a t d).
Proof.
  intros Hd Hr Ht. unfold mark_verified.
  apply (inv_put_observation (evidence_of a)); try done.
  - apply observation_check_verify; [by eapply observation_at_ok|done].
  - intros v [= <-]. by left.
  - intros o c Ho Hc. unfold observation_at. rewrite Ho. exists c. split; [done|lia].
Qed.

Lemma inv_verified_event a kind t d :
  db_inv (evidence_of a) d → retained_identity a d = true → 0 ≤ t → one_of relay_event_kinds kind = true →
  db_ok (log_relay_event a kind t (mark_verified a t d)).
Proof.
  intros Hd Hr Ht Hk. apply (inv_log_relay_event (covered_by a t)); try done.
  - by apply inv_mark_verified.
  - by eapply retained_length.
  - intros a' v [-> ?]. by right.
  - intros _. apply verified_by_spec. unfold mark_verified, put_observation. simpl. rewrite lookup_insert_eq. by intros o v [= <-] [= <-].
Qed.

Lemma inv_event a kind t d :
  db_ok d → 1 ≤ len a ≤ 4096 → 0 ≤ t → one_of relay_event_kinds kind = true → (relays d !! a = None → verified_by a t d = true) →
  db_ok (log_relay_event a kind t d).
Proof. intros. apply (inv_log_relay_event nothing_pending); try done. Qed.

Lemma registered_row_ok intent t d :
  db_ok d → validateRegisterIntent intent = true → 0 ≤ t → relay_evidence (register_actor intent) d ≤ t →
  let '(row, _, _) := registered_row (register_base intent) t (relays d !! register_actor intent) in
  relay_check (register_actor intent) row = true ∧
  canonical_identity (register_actor intent) (public_base_url row) = true.
Proof.
  intros Hd Hv Ht Hev. apply validateRegisterIntent_spec in Hv as (?&?&Hid).
  apply relay_evidence_le in Hev as (Hrow&_). unfold registered_row.
  destruct (relays d !! register_actor intent) as [r|] eqn:Hr.
  - destruct (inv_relays _ _ Hd _ r Hr) as [Hc Hbase]. destruct (Hrow r eq_refl).
    destruct (String.eqb_spec (lifecycle_state r) lifecycleRegistered); simpl.
    + split; [by apply relay_check_refresh|done].
    + split; [by apply relay_check_reregister|done].
  - simpl. split; [by apply relay_check_new|done].
Qed.

Lemma Register_preserves intent t d out d' :
  db_ok d → Register_promise intent t d = Ok (out, d') → db_ok d'.
Proof.
  unfold Register_promise. intros Hd Hp. guards Hp.
  pose proof (registered_row_ok intent (unix_of t) d Hd ltac:(done) ltac:(done) ltac:(done)) as Hrow.
  pose proof (registered_row_kind (register_base intent) (unix_of t) (relays d !! register_actor intent)) as Hk.
  destruct (registered_row _ _ _) as [[row out'] kind]. injection Hp as <- <-. destruct Hrow.
  apply inv_verified_event; [by apply inv_put_relay_new|apply retained_put_relay_eq|done|done].
Qed.

Lemma Heartbeat_preserves a t d out d' : db_ok d → Heartbeat_promise a t d = Ok (out, d') → db_ok d'.
Proof.
  unfold Heartbeat_promise. intros Hd Hp. guards Hp.
  destruct (relays d !! a) as [r|] eqn:Hr; [|done]. guards Hp. injection Hp as <- <-.
  destruct (inv_relays _ _ Hd _ r Hr) as [Hc Hbase].
  destruct (relay_evidence_le a d (unix_of t)) as [Hrow _]; [done|]. destruct (Hrow r Hr).
  apply inv_verified_event; [|apply retained_put_relay_eq|done|done].
  apply inv_put_relay_new; [done|by apply relay_check_refresh|done].
Qed.

Lemma inv_seen_event a kind t d :
  db_ok d → 1 ≤ len a ≤ 4096 → 0 ≤ t → one_of relay_event_kinds kind = true →
  db_ok (log_relay_event a kind t (if retained_identity a d then mark_verified a t d else d)).
Proof.
  intros Hd. intros. destruct (retained_identity a d) eqn:Hr; [apply inv_verified_event; by try apply inv_evidence_of|apply inv_event; try done].
  intros _. apply verified_by_spec. intros o v Ho. apply (inv_observations _ _ Hd) in Ho as [_ Ho]. by rewrite Hr in Ho.
Qed.

Lemma Unregister_preserves a t d out d' : db_ok d → Unregister_promise a t d = Ok (out, d') → db_ok d'.
Proof.
  unfold Unregister_promise. intros Hd Hp. guards Hp.
  match goal with Hv : validateIdentityIntent a = true |- _ =>
    apply validateIdentityIntent_spec in Hv as [Hl _] end.
  destruct (relays d !! a) as [r|] eqn:Hr; [destruct (String.eqb_spec (lifecycle_state r) lifecycleRegistered)|];
    injection Hp as <- <-; apply inv_seen_event; try done.
  destruct (inv_relays _ _ Hd _ r Hr) as [Hc Hbase].
  destruct (relay_evidence_le a d (unix_of t)) as [Hrow _]; [done|]. destruct (Hrow r Hr).
  apply inv_put_relay; [done|by apply relay_check_unregister|done|by eexists].
Qed.

Lemma moderate_preserves intent t target d out d' :
  target = administrativeActive ∨ target = administrativeSuspended →
  db_ok d → moderate_promise intent t target d = Ok (out, d') → db_ok d'.
Proof.
  unfold moderate_promise. intros Htg Hd Hp. guards Hp.
  destruct (relays d !! moderation_intent_actor intent) as [r|] eqn:Hr; [|done]. guards Hp.
  destruct (inv_relays _ _ Hd _ r Hr) as [Hc Hbase].
  destruct (relay_evidence_le (moderation_intent_actor intent) d (unix_of t)) as [Hrow _]; [done|].
  destruct (Hrow r Hr).
  pose proof (relay_check_moderate _ r (unix_of t) Hc ltac:(done) target Htg) as Hck.
  destruct Htg as [-> | ->]; str_consts; cbn iota in *;
    destruct (administrative_state r ≟ administrativeSuspended); injection Hp as <- <-;
    (apply inv_log_moderation_event; [|by apply moderation_event_valid]); try done;
    by apply inv_put_relay; [..|eexists].
Qed.

Lemma SetEnrollment_preserves open operator t d out d' :
  db_ok d → SetEnrollment_promise open operator t d = Ok (out, d') → db_ok d'.
Proof.
  unfold SetEnrollment_promise. intros Hd Hp. guards Hp.
  assert (Hev : ∀ action, one_of [enrollmentOpened; enrollmentOpenUnchanged; enrollmentClosed;
            enrollmentClosedUnchanged] action = true →
            enrollment_event_check (EnrollmentEvent action operator (unix_of t)) = true).
  { intros action Ha. unfold enrollment_event_check.
    cbn [enrollment_action enrollment_operator enrollment_recorded].
    rewrite Ha, <- ValidOperatorID_check. bool_lia. done. }
  assert (Hpc : ∀ b, policy_check (PolicyRow (boolInteger b) (unix_of t)) = true).
  { intros []; unfold policy_check; simpl; bool_lia. }
  destruct (classifyEnrollment _ open) as [out' action] eqn:Hcl. injection Hp as <- <-.
  apply inv_log_enrollment_event.
  - destruct (Bool.eqb _ open); [done|by apply inv_set_policy].
  - apply Hev. by destruct (enrollment_is_open d), open; simpl in Hcl; injection Hcl as <- <-.
Qed.


Lemma inv_log_discovery a action audit t d :
  db_ok d → valid_audit audit = true → one_of discovery_actions action = true → 1 ≤ len a ≤ 4096 → 0 ≤ t →
  db_ok (log_discovery a action audit t d).
Proof. intros. apply inv_log_discovery_event; [done|by apply discovery_event_check_valid]. Qed.

Lemma AddDiscovery_preserves intent t d out d' :
  db_ok d → AddDiscovery_promise intent t d = Ok (out, d') → db_ok d'.
Proof.
  unfold AddDiscovery_promise. intros Hd Hp. guards Hp.
  match goal with Hv : validateDiscoveryAddIntent intent = true |- _ =>
    unfold validateDiscoveryAddIntent in Hv; apply andb_true_iff in Hv as [Hid Hau] end.
  pose proof (canonical_actor_nonempty _ (canonical_identity_actor _ _ Hid)) as Hl1.
  destruct (discoveries d !! add_actor intent) as [r|] eqn:Hr.
  - destruct (inv_discoveries _ _ Hd _ r Hr) as [Hc Hbase].
    pose proof (discovery_check_wf _ _ Hc) as ([Hl Hb]&_).
    destruct (discovery_state r ≟ discoveryActive); injection Hp as <- <-; apply inv_log_discovery; try done.
    apply inv_put_discovery; [done| |done].
    rewrite <- (canonical_identity_base _ _ _ Hbase Hid).
    eapply discovery_transition_check; [done|done| |unfold short_base; bool_lia].
    by eapply discovery_evidence_le.
  - guards Hp. injection Hp as <- <-. apply inv_log_discovery; try done.
    apply inv_put_discovery; [done| |done]. rewrite new_discovery_check by done.
    apply andb_true_iff. split; [by apply Z.leb_le|done].
Qed.

Lemma RemoveDiscovery_preserves intent t d out d' :
  db_ok d → RemoveDiscovery_promise intent t d = Ok (out, d') → db_ok d'.
Proof.
  unfold RemoveDiscovery_promise. intros Hd Hp. guards Hp.
  match goal with Hv : validateDiscoveryRemoveIntent intent = true |- _ =>
    unfold validateDiscoveryRemoveIntent in Hv; apply andb_true_iff in Hv as [[Hl _]%validateIdentityIntent_spec Hau] end.
  destruct (discoveries d !! remove_actor intent) as [r|] eqn:Hr.
  - destruct (inv_discoveries _ _ Hd _ r Hr) as [Hc Hbase].
    destruct (discovery_state r ≟ discoveryActive); injection Hp as <- <-; apply inv_log_discovery; try done.
    apply inv_put_discovery; [done| |done].
    eapply (discovery_transition_check _ d r _ "x"); [done|done| |done].
    by eapply discovery_evidence_le.
  - injection Hp as <- <-. by apply inv_log_discovery.
Qed.

(** Observations other than RFC 9421 evidence. *)
Lemma inv_observe a t d o :
  db_ok d → observation_check a o = true → retained_identity a d = true → 
  rfc9421_verified o = rfc9421_verified (observation_at a t d) →
  (∀ c, actor_checked d a = Some c → ∃ c', actor_last_checked o = Some c' ∧ c ≤ c') →
  db_ok (put_observation a o d).
Proof.
  intros Hd Hc Hr Hv Hm. apply (inv_put_observation nothing_pending); try done.
  - intros v. rewrite Hv. unfold observation_at. destruct (observations d !! a) as [o'|] eqn:Ho; [|done].
    intros Hv'. by apply (inv_verified _ _ Hd a o' v).
  - intros o' c Ho Hc'. apply Hm. unfold actor_checked. by rewrite Ho.
Qed.

Lemma RecordActorObservation_preserves intent t d out d' :
  db_ok d → RecordActorObservation_promise intent t d = Ok (out, d') → db_ok d'.
Proof.
  unfold RecordActorObservation_promise. intros Hd Hp. guards Hp. injection Hp as <- <-.
  assert (Hm : ∀ c, actor_checked d (actor_intent_actor intent) = Some c → ∃ c', Some (unix_of t) = Some c' ∧ c ≤ c').
  { intros c Hc. exists (unix_of t). split; [done|]. rewrite Hc in *. simpl in *. bool_facts. done. }
  pose proof (observation_at_ok (actor_intent_actor intent) (unix_of t) d Hd ltac:(done) ltac:(done)) as Hok.
  apply (inv_observe _ (unix_of t)); try done.
  - apply RecordActorObservation_row_check; done.
  - by destruct (actor_intent_state intent ≟ ReachabilityReachable).
  - by destruct (actor_intent_state intent ≟ ReachabilityReachable).
Qed.

Lemma RecordInboxObservation_preserves intent t d out d' :
  db_ok d → RecordInboxObservation_promise intent t d = Ok (out, d') → db_ok d'.
Proof.
  unfold RecordInboxObservation_promise. intros Hd Hp. guards Hp.
  destruct (observations d !! inbox_intent_actor intent) as [o|] eqn:Ho; [|done]. guards Hp.
  injection Hp as <- <-. destruct (inv_observations _ _ Hd _ o Ho) as [Hc Hr].
  match goal with Hv : validateInboxObservationIntent intent = true |- _ =>
    unfold validateInboxObservationIntent in Hv; bool_facts end.
  apply (inv_observe _ (unix_of t)); try done.
  - by apply observation_check_inbox.
  - unfold observation_at. by rewrite Ho.
  - intros c. unfold actor_checked. rewrite Ho. simpl. intros Hc'. exists c. split; [done|lia].
Qed.

Lemma RecordReachability_preserves intent t d out d' :
  db_ok d → RecordReachabilityObservation_promise intent t d = Ok (out, d') → db_ok d'.
Proof.
  unfold RecordReachabilityObservation_promise. intros Hd Hp. guards Hp.
  set (a := reach_actor intent) in *.
  destruct (eligible_now d a) eqn:Hel; cbn [negb orb] in Hp; [|by injection Hp as <- <-].
  destruct (match actor_checked d a with Some v => unix_of t <=? v | None => false end) eqn:Hchk;
    [by injection Hp as <- <-|]. guards Hp. injection Hp as <- <-.
  pose proof (eligible_retained d a Hel) as Hret.
  assert (Hc : null_or (λ v, v <=? unix_of t) (actor_checked d a) = true).
  { destruct (actor_checked d a); simpl in *; bool_facts; bool_lia. }
  assert (Hobs : actor_last_checked (probe_observation intent (unix_of t) d) = Some (unix_of t)).
  { unfold probe_observation. by destruct (reach_actor_state intent ≟ ReachabilityReachable). }
  apply inv_put_diagnostic.
  - apply (inv_observe _ (unix_of t)); try done.
    + apply probed_check; try done. by apply Z.leb_le.
    + unfold probe_observation. by destruct (reach_actor_state intent ≟ ReachabilityReachable).
    + intros c Hc'. rewrite Hobs. exists (unix_of t). rewrite Hc' in Hc. simpl in Hc. bool_facts. done.
  - by apply diagnostic_row_check.
  - pose proof (probe_schedule_range intent (unix_of t) d Hd) as Hrng. unfold probe_diagnostic.
    destruct (probe_schedule intent (unix_of t) d) as [streak next].
    destruct (diagnostics d !! reach_actor intent); simpl; lia.
  - exists (probe_observation intent (unix_of t) d), (unix_of t). rewrite lookup_put_observation.
    split; [done|split; [done|]]. unfold probe_diagnostic.
    destruct (probe_schedule intent (unix_of t) d) as [streak next].
    destruct (diagnostics d !! reach_actor intent); simpl; lia.
Qed.

Lemma SoftPrune_preserves a t d out d' : db_ok d → SoftPrune_promise a t d = Ok (out, d') → db_ok d'.
Proof.
  unfold SoftPrune_promise. intros Hd Hp. guards Hp.
  match goal with Hv : validateIdentityIntent a = true |- _ =>
    apply validateIdentityIntent_spec in Hv as [Hl _] end.
  destruct (relays d !! a) as [r|] eqn:Hr; [|by injection Hp as <- <-].
  destruct (lifecycle_state r ≟ lifecyclePruned); [by injection Hp as <- <-|].
  destruct (prune_due _ _ d a r && (relay_evidence a d <=? unix_of t)) eqn:Hdue; [|by injection Hp as <- <-].
  unfold prune_due in Hdue. bool_facts. injection Hp as <- <-.
  destruct (inv_relays _ _ Hd _ r Hr) as [Hc Hbase].
  destruct (relay_evidence_le a d (unix_of t)) as [Hrow _]; [done|]. destruct (Hrow r Hr).
  apply inv_event; try done; [apply inv_put_relay; [done|by apply relay_check_prune|done|by eexists]|].
  intros Hn. exfalso. revert Hn. unfold put_relay. simpl. by rewrite lookup_insert_eq.
Qed.

Lemma promised_preserves o t d out d' : db_ok d → promised o t d = Ok (out, d') → db_ok d'.
Proof.
  destruct o; simpl; intros Hd Hp.
  - by eapply Register_preserves.
  - by eapply Heartbeat_preserves.
  - by eapply Unregister_preserves.
  - eapply moderate_preserves; [|done..]. by right.
  - eapply moderate_preserves; [|done..]. by left.
  - by eapply SetEnrollment_preserves.
  - by eapply AddDiscovery_preserves.
  - by eapply RemoveDiscovery_preserves.
  - by eapply RecordActorObservation_preserves.
  - by eapply RecordInboxObservation_preserves.
  - by eapply RecordReachability_preserves.
  - by eapply SoftPrune_preserves.
Qed.
End Preserve.

(** ** What an accepted operation does to a relay row *)

Section RowSteps.
Context `{RelayIdentity}.

(** No retained time of the row is later than [t]. *)
Definition fresh (t : Z) (r : relay_row) : Prop := updated_at_unix r ≤ t ∧ last_seen_at_unix r ≤ t.
Definition is_registered (r : relay_row) : Prop := lifecycle_state r = lifecycleRegistered.
Definition is_suspended (r : relay_row) : Prop := administrative_state r = administrativeSuspended.

(** Operations that never write a relay row. *)
Definition spares_relays (o : operation) : bool :=
  match o with
  | OpSoftPrune _ | OpSetEnrollment _ _ | OpAddDiscovery _ | OpRemoveDiscovery _ | OpActorObservation _
  | OpInboxObservation _ | OpReachability _ => true
  | _ => false
  end.

Inductive row_step (t : Z) : operation → option relay_row → option relay_row → Prop :=
| row_enroll intent :
    row_step t (OpRegister intent) None (Some (new_relay (register_base intent) t))
| row_refresh intent r : is_registered r → ¬ is_suspended r → fresh t r →
    row_step t (OpRegister intent) (Some r) (Some (refresh_relay t r))
| row_reregister intent r : ¬ is_registered r → ¬ is_suspended r → fresh t r →
    row_step t (OpRegister intent) (Some r) (Some (reregister_relay (register_base intent) t r))
| row_heartbeat a r : is_registered r → ¬ is_suspended r → fresh t r →
    row_step t (OpHeartbeat a) (Some r) (Some (refresh_relay t r))
| row_unregister a r : is_registered r → fresh t r →
    row_step t (OpUnregister a) (Some r) (Some (unregister_relay t r))
| row_unregister_absent a x : (∀ r, x = Some r → ¬ is_registered r) →
    row_step t (OpUnregister a) x x
| row_suspend intent r : ¬ is_suspended r → fresh t r →
    row_step t (OpSuspend intent) (Some r) (Some (moderate_relay administrativeSuspended (Some t) t r))
| row_suspend_again intent r : is_suspended r → row_step t (OpSuspend intent) (Some r) (Some r)
| row_restore intent r : is_suspended r → fresh t r →
    row_step t (OpRestore intent) (Some r) (Some (moderate_relay administrativeActive None t r))
| row_restore_again intent r : ¬ is_suspended r → row_step t (OpRestore intent) (Some r) (Some r)
| row_prune a r : is_registered r → last_seen_at_unix r ≤ dead_cutoff t → fresh t r →
    row_step t (OpSoftPrune a) (Some r) (Some (prune_relay t r))
| row_spared o x : spares_relays o = true → row_step t o x x.

Lemma evidence_fresh a d t r : relay_evidence a d ≤ t → relays d !! a = Some r → fresh t r.
Proof. intros [Hrow _]%relay_evidence_le Hr. by apply Hrow. Qed.

Lemma lookup_put_relay a r d : relays (put_relay a r d) !! a = Some r.
Proof. apply lookup_insert_eq. Qed.

Lemma register_row intent t d out d' :
  Register_promise intent t d = Ok (out, d') →
  row_step (unix_of t) (OpRegister intent) (relays d !! register_actor intent) (relays d' !! register_actor intent).
Proof.
  unfold Register_promise, suspended_relay. intros Hp. guards Hp. unfold registered_row in Hp.
  destruct (relays d !! register_actor intent) as [r|] eqn:Hr; simpl in Hp.
  2:{ injection Hp as <- <-. simpl. rewrite lookup_insert_eq. constructor. }
  assert (Hf : fresh (unix_of t) r) by (by eapply evidence_fresh). bool_facts.
  destruct (String.eqb_spec (lifecycle_state r) lifecycleRegistered); injection Hp as <- <-; simpl;
    rewrite lookup_insert_eq; by constructor.
Qed.

Lemma heartbeat_row a t d out d' : Heartbeat_promise a t d = Ok (out, d') →
  row_step (unix_of t) (OpHeartbeat a) (relays d !! a) (relays d' !! a).
Proof.
  unfold Heartbeat_promise. intros Hp. guards Hp. destruct (relays d !! a) as [r|] eqn:Hr; [|done].
  guards Hp. injection Hp as <- <-. simpl. rewrite lookup_insert_eq.
  constructor; [done..|by eapply evidence_fresh].
Qed.

Lemma seen_relays (b : bool) a t d : relays (if b then mark_verified a t d else d) = relays d.
Proof. by destruct b. Qed.

Lemma unregister_row a t d out d' : Unregister_promise a t d = Ok (out, d') →
  row_step (unix_of t) (OpUnregister a) (relays d !! a) (relays d' !! a).
Proof.
  unfold Unregister_promise. intros Hp. guards Hp.
  destruct (relays d !! a) as [r|] eqn:Hr; [destruct (String.eqb_spec (lifecycle_state r) lifecycleRegistered)|];
    injection Hp as <- <-; unfold log_relay_event; simpl; rewrite seen_relays, ?lookup_put_relay, ?Hr.
  - constructor; [done|by eapply evidence_fresh].
  - constructor. by intros ? [= <-].
  - by constructor.
Qed.

Lemma moderate_row intent t d out d' :
  (moderate_promise intent t administrativeSuspended d = Ok (out, d') →
   row_step (unix_of t) (OpSuspend intent) (relays d !! moderation_intent_actor intent)
     (relays d' !! moderation_intent_actor intent)) ∧
  (moderate_promise intent t administrativeActive d = Ok (out, d') →
   row_step (unix_of t) (OpRestore intent) (relays d !! moderation_intent_actor intent)
     (relays d' !! moderation_intent_actor intent)).
Proof.
  unfold moderate_promise. split; intros Hp; guards Hp;
    (destruct (relays d !! moderation_intent_actor intent) as [r|] eqn:Hr; [|done]); guards Hp; str_consts;
    cbn iota in Hp; destruct (String.eqb_spec (administrative_state r) administrativeSuspended);
    injection Hp as <- <-; simpl; rewrite ?lookup_insert_eq, ?Hr; constructor; try done;
    by eapply evidence_fresh.
Qed.

Lemma prune_row a t d out d' : SoftPrune_promise a t d = Ok (out, d') →
  row_step (unix_of t) (OpSoftPrune a) (relays d !! a) (relays d' !! a).
Proof.
  unfold SoftPrune_promise, prune_due. intros Hp. guards Hp.
  destruct (relays d !! a) as [r|] eqn:Hr; [|injection Hp as <- <-; rewrite Hr; by constructor].
  destruct (lifecycle_state r ≟ lifecyclePruned); [injection Hp as <- <-; rewrite Hr; by constructor|].
  destruct (_ && _) eqn:Hdue in Hp; injection Hp as <- <-; [|rewrite Hr; by constructor].
  simpl. rewrite lookup_insert_eq. bool_facts. constructor; [done|done|by eapply evidence_fresh].
Qed.

(** Operations without a relay write leave the table as it is. *)
Lemma spared_relays o t d out d' : spares_relays o = true → (∀ a, o ≠ OpSoftPrune a) →
  promised o t d = Ok (out, d') → relays d' = relays d.
Proof.
  intros Hs Hn Hp. destruct o; simpl in Hs, Hp; try discriminate Hs.
  - unfold SetEnrollment_promise in Hp. guards Hp. destruct (classifyEnrollment _ _) as [x y].
    injection Hp as <- <-. simpl. by destruct (Bool.eqb _ _).
  - unfold AddDiscovery_promise in Hp. guards Hp.
    destruct (discoveries d !! add_actor intent) as [r|]; [destruct (discovery_state r ≟ discoveryActive)|guards Hp];
      by injection Hp as <- <-.
  - unfold RemoveDiscovery_promise in Hp. guards Hp.
    destruct (discoveries d !! remove_actor intent) as [r|]; [destruct (discovery_state r ≟ discoveryActive)|];
      by injection Hp as <- <-.
  - unfold RecordActorObservation_promise in Hp. guards Hp. by injection Hp as <- <-.
  - unfold RecordInboxObservation_promise in Hp. guards Hp.
    destruct (observations d !! inbox_intent_actor intent); [|done]. guards Hp. by injection Hp as <- <-.
  - unfold RecordReachabilityObservation_promise in Hp. guards Hp. destruct (_ || _) in Hp; [by injection Hp as <- <-|].
    guards Hp. by injection Hp as <- <-.
  - by destruct (Hn actor).
Qed.

Lemma promised_row o t d out d' a :
  promised o t d = Ok (out, d') → operation_actor o = Some a →
  row_step (unix_of t) o (relays d !! a) (relays d' !! a).
Proof.
  intros Hp Ha. destruct o; simpl in Ha; try discriminate Ha;
    try (assert (relays d' = relays d) as -> by (refine (spared_relays _ _ _ _ _ _ _ Hp); done); by constructor); injection Ha as <-.
  - by eapply register_row.
  - by eapply heartbeat_row.
  - by eapply unregister_row.
  - by eapply moderate_row.
  - by eapply moderate_row.
  - by eapply prune_row.
Qed.

(** Every operation writes relay rows of its own actor only. *)
Lemma promised_frame o t d out d' a :
  promised o t d = Ok (out, d') → operation_actor o ≠ Some a →
  relays d' !! a = relays d !! a ∧ observations d' !! a = observations d !! a ∧
  discoveries d' !! a = discoveries d !! a ∧ diagnostics d' !! a = diagnostics d !! a.
Proof.
  intros Hp Ha. destruct o; simpl in Ha, Hp; try (assert (Hne := λ e, Ha (f_equal Some e)); clear Ha).
  1: unfold Register_promise in Hp. 
  2: unfold Heartbeat_promise in Hp.
  3: unfold Unregister_promise in Hp.
  4-5: unfold moderate_promise in Hp.
  6: unfold SetEnrollment_promise in Hp.
  7: unfold AddDiscovery_promise in Hp.
  8: unfold RemoveDiscovery_promise in Hp.
  9: unfold RecordActorObservation_promise in Hp.
  10: unfold RecordInboxObservation_promise in Hp.
  11: unfold RecordReachabilityObservation_promise in Hp.
  12: unfold SoftPrune_promise in Hp.
  all: unfold require in Hp; repeat case_match; simplify_eq/=; repeat case_match; simpl;
       rewrite ?lookup_insert_ne by done; done.
Qed.
End RowSteps.
