(* ===== verification/Guarantees.v ===== *)
(** * Guarantees: what the repository promises its callers

    Theorems about every valid database: the refinement of [Contract], atomicity,
    the lifecycle state machine, the separation of
    moderation from lifecycle, audit completeness, closed enrollment, frames and
    monotone times. *)
From S2P Require Import Prelude Identity Vocabulary Store Repository Lifecycle Discovery Reachability Pruning Invariant Contract Refinement System.
Local Open Scope string_scope.
Local Open Scope Z_scope.
Local Open Scope go_scope.
Local Open Scope list_scope.

(** ** The abstract relay: lifecycle and suspension *)

Inductive lifecycle := Registered | Unregistered | Pruned.
Inductive relay_status := Absent | Known (l : lifecycle) (suspended : bool).

Definition lifecycle_of (state : string) : lifecycle :=
  if state ≟ lifecycleRegistered then Registered
  else if state ≟ lifecycleUnregistered then Unregistered else Pruned.
Definition status_of (r : option relay_row) : relay_status :=
  match r with
  | None => Absent
  | Some r => Known (lifecycle_of (lifecycle_state r)) (administrative_state r ≟ administrativeSuspended)
  end.
Definition status_in (d : db) (a : string) : relay_status := status_of (relays d !! a).

(** The status an accepted operation may leave its relay in. *)
Definition status_steps `{RelayIdentity} (o : operation) (before after : relay_status) : Prop :=
  match o with
  | OpRegister _ => (∀ l, before ≠ Known l true) ∧ after = Known Registered false
  | OpHeartbeat _ => before = Known Registered false ∧ after = before
  | OpUnregister _ =>
      match before with
      | Known Registered suspended => after = Known Unregistered suspended
      | _ => after = before
      end
  | OpSuspend _ => ∃ l suspended, before = Known l suspended ∧ after = Known l true
  | OpRestore _ => ∃ l suspended, before = Known l suspended ∧ after = Known l false
  | OpSoftPrune _ =>
      after = before ∨ ∃ suspended, before = Known Registered suspended ∧ after = Known Pruned suspended
  | _ => after = before
  end.

(** The administrative half of a relay row. *)
Definition administrative_part (r : relay_row) : string * option Z :=
  (administrative_state r, suspended_at_unix r).
(** The lifecycle half, without the shared modification time. *)
Definition lifecycle_part (r : relay_row) : string * string * Z * Z * option Z * option Z * option Z :=
  (public_base_url r, lifecycle_state r, first_registered_at_unix r, last_seen_at_unix r,
   last_heartbeat_at_unix r, unregistered_at_unix r, pruned_at_unix r).
Definition moderates `{RelayIdentity} (o : operation) : bool :=
  match o with OpSuspend _ | OpRestore _ => true | _ => false end.

(** What an accepted operation adds to the four audit logs. *)
Record logs := Logs {
  log_relay : list relay_event; log_moderation : list moderation_event;
  log_enrollment : list enrollment_event; log_discoveries : list discovery_event }.
Definition logs_of (d : db) : logs :=
  Logs (relay_events d) (moderation_events d) (enrollment_events d) (discovery_events d).
Definition logs_grow (before after : logs) (new : logs) : Prop :=
  log_relay after = log_relay before ++ log_relay new ∧
  log_moderation after = log_moderation before ++ log_moderation new ∧
  log_enrollment after = log_enrollment before ++ log_enrollment new ∧
  log_discoveries after = log_discoveries before ++ log_discoveries new.

(** The one row an operation writes to the log of relays, of moderation and of
    discoveries. *)
Definition relay_entry (a kind : string) (t : Z) (d : db) : logs :=
  Logs [RelayEvent (relay_event_seq d + 1) a kind t] [] [] [].
Definition moderation_entry (intent : ModerationIntent) (action : string) (t : Z) (d : db) : logs :=
  Logs [] [ModerationEvent (moderation_event_seq d + 1) (moderation_intent_actor intent) action
             (moderation_intent_moderator intent) (moderation_intent_reason intent) t] [] [].
Definition discovery_entry (a action : string) (audit : discovery_audit) (t : Z) (d : db) : logs :=
  Logs [] [] [] [DiscoveryEvent (discovery_event_seq d + 1) a action (audit_operator audit) (audit_reason audit)
                   (audit_source_kind audit)
                   (if audit_source_label audit ≟ "" then None else Some (audit_source_label audit)) t].
Definition no_entry : logs := Logs [] [] [] [].

Inductive listing := Unlisted | Listed (active : bool).
Definition listing_in (d : db) (a : string) : listing :=
  match discoveries d !! a with
  | None => Unlisted
  | Some r => Listed (discovery_state r ≟ discoveryActive)
  end.

(** What an accepted operation of [o] at [t] answers and logs, by the state it
    found: the recorded action and the answer are determined by whether the
    relay was registered or suspended, enrollment open, the discovery active.
    Observations log nothing; a pruning logs when it pruned the relay. *)
Definition audits `{RelayIdentity} (o : operation) (t : Z) (d d' : db) (outcome : string) (new : logs) : Prop :=
  match o with
  | OpRegister intent =>
      let a := register_actor intent in
      (outcome, new) =
        match status_in d a with
        | Absent => (OutcomeCreated, relay_entry a eventRegisterCreated t d)
        | Known Registered _ => (OutcomeUnchanged, relay_entry a eventRegisterUnchanged t d)
        | Known _ _ => (OutcomeUpdated, relay_entry a eventRegisterUpdated t d)
        end
  | OpHeartbeat a => (outcome, new) = (OutcomeRecorded, relay_entry a eventHeartbeatRecorded t d)
  | OpUnregister a =>
      (outcome, new) =
        match status_in d a with
        | Known Registered _ => (OutcomeRemoved, relay_entry a eventUnregisterRemoved t d)
        | _ => (OutcomeAbsent, relay_entry a eventUnregisterAbsent t d)
        end
  | OpSuspend intent =>
      (outcome, new) =
        match status_in d (moderation_intent_actor intent) with
        | Known _ true => (ModerationAlreadySuspended, moderation_entry intent moderationSuspendUnchanged t d)
        | _ => (ModerationSuspended, moderation_entry intent moderationSuspendApplied t d)
        end
  | OpRestore intent =>
      (outcome, new) =
        match status_in d (moderation_intent_actor intent) with
        | Known _ true => (ModerationRestored, moderation_entry intent moderationRestoreApplied t d)
        | _ => (ModerationAlreadyActive, moderation_entry intent moderationRestoreUnchanged t d)
        end
  | OpSetEnrollment open operator =>
      let '(answer, action) :=
        match enrollment_is_open d, open with
        | false, true => (EnrollmentOpened, enrollmentOpened)
        | true, true => (EnrollmentAlreadyOpen, enrollmentOpenUnchanged)
        | true, false => (EnrollmentClosed, enrollmentClosed)
        | false, false => (EnrollmentAlreadyClosed, enrollmentClosedUnchanged)
        end in
      outcome = answer ∧ new = Logs [] [] [EnrollmentEvent action operator t] []
  | OpAddDiscovery intent =>
      let a := add_actor intent in
      (outcome, new) =
        match listing_in d a with
        | Unlisted => (DiscoveryAdded, discovery_entry a discoveryAdded (add_audit intent) t d)
        | Listed true => (DiscoveryUnchanged, discovery_entry a discoveryUnchanged (add_audit intent) t d)
        | Listed false => (DiscoveryUpdated, discovery_entry a discoveryUpdated (add_audit intent) t d)
        end
  | OpRemoveDiscovery intent =>
      let a := remove_actor intent in
      (outcome, new) =
        match listing_in d a with
        | Listed true => (DiscoveryRemovedOK, discovery_entry a discoveryRemovedOK (remove_audit intent) t d)
        | _ => (DiscoveryAbsent, discovery_entry a discoveryAbsent (remove_audit intent) t d)
        end
  | OpActorObservation _ | OpInboxObservation _ => (outcome, new) = ("", no_entry)
  | OpReachability _ => (outcome = ReachabilityWriteApplied ∨ outcome = ReachabilityWriteSkipped) ∧ new = no_entry
  | OpSoftPrune a =>
      (outcome, new) =
        match status_in d a, status_in d' a with
        | Known Registered _, Known Pruned _ => (PruneApplied, relay_entry a eventRelayPruned t d)
        | Known Pruned _, _ => (PruneAlreadyPruned, no_entry)
        | _, _ => (PruneNotEligible, no_entry)
        end
  end.

(** The protocol operation a repository operation serves. *)
Definition protocol_operation `{RelayIdentity} (o : operation) : option string :=
  match o with
  | OpRegister _ => Some OperationRegister
  | OpHeartbeat _ => Some OperationHeartbeat
  | OpUnregister _ => Some OperationUnregister
  | _ => None
  end.

Section Guarantees.
Context `{RelayIdentity}.

Lemma row_step_status t o x y : row_step t o x y → status_steps o (status_of x) (status_of y).
Proof.
  unfold is_registered, is_suspended. destruct 1; simpl; unfold lifecycle_of, is_registered, is_suspended, not in *;
    repeat match goal with Hs : _ = lifecycleRegistered |- _ => rewrite Hs end;
    repeat match goal with
    | Hs : administrative_state _ = _ |- _ => rewrite Hs
    | Hs : administrative_state _ = _ → False |- _ => apply String.eqb_neq in Hs; rewrite Hs
    end; str_consts; cbn iota; eauto 10; try done.
  - destruct x as [r|]; simpl; [|done]. unfold lifecycle_of.
    destruct (String.eqb_spec (lifecycle_state r) lifecycleRegistered) as [He|]; [by destruct (H0 r eq_refl)|].
    by destruct (lifecycle_state r ≟ lifecycleUnregistered).
  - destruct o; try done; by left.
Qed.

(** *** Helper facts for the theorems *)

Lemma administrative_suspended_ne : administrativeActive ≠ administrativeSuspended.
Proof. done. Qed.

Lemma row_step_administrative t o x y : row_step t o x y → moderates o = false →
  ∀ r, x = Some r → ∃ r', y = Some r' ∧ administrative_part r' = administrative_part r.
Proof. destruct 1; simpl; intros Hm r' Hr; simplify_eq; eauto. Qed.

Lemma row_step_lifecycle t o x y : row_step t o x y → moderates o = true →
  ∃ r r', x = Some r ∧ y = Some r' ∧ lifecycle_part r' = lifecycle_part r.
Proof. destruct 1; simpl; intros Hm; try done; eauto 10. by destruct o. Qed.

(** A row keeps its first registration; its times never move back. *)
Lemma row_step_monotone t o x y : row_step t o x y →
  ∀ r, x = Some r → ∃ r', y = Some r' ∧ first_registered_at_unix r' = first_registered_at_unix r ∧
    updated_at_unix r ≤ updated_at_unix r' ∧ last_seen_at_unix r ≤ last_seen_at_unix r'.
Proof.
  destruct 1; unfold fresh in *; intros r' Hr; simplify_eq; eexists; (split; [done|]); simpl; lia.
Qed.

Lemma row_step_present t o x y : row_step t o x y → x = None →
  y = None ∨ (∃ intent, o = OpRegister intent).
Proof. destruct 1; intros Hx; simplify_eq; eauto. Qed.

Lemma logs_grow_nil d d' :
  relay_events d' = relay_events d → moderation_events d' = moderation_events d →
  enrollment_events d' = enrollment_events d → discovery_events d' = discovery_events d →
  logs_grow (logs_of d) (logs_of d') (Logs [] [] [] []).
Proof. unfold logs_grow; simpl. intros -> -> -> ->. by rewrite !app_nil_r. Qed.

Lemma logged_relay_event a kind t d w :
  logs_of w = logs_of d → relay_event_seq w = relay_event_seq d →
  logs_grow (logs_of d) (logs_of (log_relay_event a kind t w)) (relay_entry a kind t d).
Proof.
  intros Hl Hs. unfold logs_of in Hl. simplify_eq. unfold logs_grow; simpl. rewrite !app_nil_r. split_and!; congruence.
Qed.
Lemma logged_moderation_event intent action t d w :
  logs_of w = logs_of d → moderation_event_seq w = moderation_event_seq d →
  logs_grow (logs_of d) (logs_of (log_moderation_event (moderation_intent_actor intent) action
    (moderation_intent_moderator intent) (moderation_intent_reason intent) t w)) (moderation_entry intent action t d).
Proof.
  intros Hl Hs. unfold logs_of in Hl. simplify_eq. unfold logs_grow; simpl. rewrite !app_nil_r. split_and!; congruence.
Qed.
Lemma logged_discovery_event a action audit t d w :
  logs_of w = logs_of d → discovery_event_seq w = discovery_event_seq d →
  logs_grow (logs_of d) (logs_of (log_discovery a action audit t w)) (discovery_entry a action audit t d).
Proof.
  intros Hl Hs. unfold logs_of in Hl. simplify_eq. unfold logs_grow; simpl. rewrite !app_nil_r. split_and!; congruence.
Qed.

(** The status of a stored row, by the two columns the operations test. *)
Lemma status_registered d a r : relays d !! a = Some r → lifecycle_state r = lifecycleRegistered →
  ∃ suspended, status_in d a = Known Registered suspended.
Proof. intros Hr Hl. unfold status_in. rewrite Hr. simpl. rewrite Hl. by eexists. Qed.
Lemma status_gone d a r : relays d !! a = Some r → lifecycle_state r ≠ lifecycleRegistered →
  ∃ l suspended, l ≠ Registered ∧ status_in d a = Known l suspended.
Proof.
  intros Hr Hl. unfold status_in. rewrite Hr. simpl. unfold lifecycle_of. rewrite (proj2 (String.eqb_neq _ _) Hl).
  eexists _, _. split; [|done]. by case_match.
Qed.
Lemma status_pruned d a r : relays d !! a = Some r → lifecycle_state r = lifecyclePruned →
  ∃ suspended, status_in d a = Known Pruned suspended.
Proof. intros Hr Hl. unfold status_in. rewrite Hr. simpl. rewrite Hl. by eexists. Qed.
Lemma status_standing d a r : db_ok d → relays d !! a = Some r → lifecycle_state r ≠ lifecyclePruned →
  ∃ l suspended, l ≠ Pruned ∧ status_in d a = Known l suspended.
Proof.
  intros Hd Hr Hl. unfold status_in. rewrite Hr. simpl.
  destruct (inv_relays _ _ Hd a r Hr) as [Hc _]. apply relay_check_wf in Hc as (_&_&_&Hw&_).
  destruct Hw as [[-> _]|[[-> _]|[Hp _]]]; [..|congruence]; (eexists _, _; split; [|done]; done).
Qed.

Lemma promised_lifecycle_audit o t d out d' : db_ok d → promised o t d = Ok (out, d') →
  (match o with OpRegister _ | OpHeartbeat _ | OpUnregister _ => true | _ => false end) = true →
  ∃ new, logs_grow (logs_of d) (logs_of d') new ∧ audits o (unix_of t) d d' out new.
Proof.
  intros Hd Hp Ho. destruct o; try done; clear Ho; simpl in Hp |- *.
  - unfold Register_promise, registered_row in Hp. guards Hp.
    destruct (relays d !! register_actor intent) as [r|] eqn:Hr; simpl in Hp.
    + destruct (String.eqb_spec (lifecycle_state r) lifecycleRegistered) as [Hl|Hl]; injection Hp as <- <-.
      * destruct (status_registered _ _ _ Hr Hl) as [s ->]. eexists. split; [|done]. by apply logged_relay_event.
      * destruct (status_gone _ _ _ Hr Hl) as (l&s&Hn&->). destruct l; [done|..]; (eexists; split; [|done]; by apply logged_relay_event).
    + injection Hp as <- <-. unfold status_in. rewrite Hr. eexists. split; [|done]. by apply logged_relay_event.
  - unfold Heartbeat_promise in Hp. guards Hp. destruct (relays d !! actor); [|done]. guards Hp. injection Hp as <- <-.
    eexists. split; [|done]. by apply logged_relay_event.
  - unfold Unregister_promise in Hp. guards Hp.
    destruct (relays d !! actor) as [r|] eqn:Hr;
      [destruct (String.eqb_spec (lifecycle_state r) lifecycleRegistered) as [Hl|Hl]|]; injection Hp as <- <-.
    + destruct (status_registered _ _ _ Hr Hl) as [s ->]. eexists. split; [|done].
      apply logged_relay_event; by destruct (retained_identity _ _).
    + destruct (status_gone _ _ _ Hr Hl) as (l&s&Hn&->).
      destruct l; [done|..]; (eexists; split; [|done]; apply logged_relay_event; by destruct (retained_identity _ _)).
    + unfold status_in. rewrite Hr. eexists. split; [|done]. apply logged_relay_event; by destruct (retained_identity _ _).
Qed.

Lemma promised_moderation_audit intent t target d out d' : moderate_promise intent t target d = Ok (out, d') →
  one_of [administrativeSuspended; administrativeActive] target = true →
  ∃ new, logs_grow (logs_of d) (logs_of d') new ∧
    audits (if target ≟ administrativeSuspended then OpSuspend intent else OpRestore intent) (unix_of t) d d' out new.
Proof.
  unfold moderate_promise. intros Hp Ht. guards Hp.
  destruct (relays d !! moderation_intent_actor intent) as [r|] eqn:Hr; [|done]. guards Hp.
  destruct (target ≟ administrativeSuspended); simpl; unfold status_in; rewrite Hr; simpl;
    destruct (administrative_state r ≟ administrativeSuspended); injection Hp as <- <-;
    (eexists; split; [|done]; by apply logged_moderation_event).
Qed.

Lemma promised_prune_audit a t d out d' : db_ok d → SoftPrune_promise a t d = Ok (out, d') →
  ∃ new, logs_grow (logs_of d) (logs_of d') new ∧ audits (OpSoftPrune a) (unix_of t) d d' out new.
Proof.
  unfold SoftPrune_promise. intros Hd Hp. guards Hp. simpl.
  destruct (relays d !! a) as [r|] eqn:Hr.
  2:{ injection Hp as <- <-. unfold status_in. rewrite Hr. exists no_entry. split; [by apply logs_grow_nil|done]. }
  destruct (String.eqb_spec (lifecycle_state r) lifecyclePruned) as [Hl|Hl].
  { injection Hp as <- <-. destruct (status_pruned _ _ _ Hr Hl) as [s ->]. exists no_entry.
    split; [by apply logs_grow_nil|done]. }
  destruct (prune_due _ _ d a r) eqn:Hdue; simpl in Hp; [destruct (relay_evidence a d <=? unix_of t); simpl in Hp|].
  { injection Hp as <- <-. assert (Hreg : lifecycle_state r = lifecycleRegistered).
    { unfold prune_due in Hdue. bool_facts. done. }
    destruct (status_registered _ _ _ Hr Hreg) as [s ->].
    assert (Hnew : relays (put_relay a (prune_relay (unix_of t) r) d) !! a = Some (prune_relay (unix_of t) r))
      by apply lookup_insert_eq.
    destruct (status_pruned _ _ _ Hnew eq_refl) as [s' Hs'].
    eexists. split; [by apply logged_relay_event|]. unfold status_in in *. simpl in *. by rewrite Hs'. }
  all: injection Hp as <- <-; destruct (status_standing _ _ _ Hd Hr Hl) as (l&s&Hn&->); exists no_entry;
    (split; [by apply logs_grow_nil|by destruct l]).
Qed.

Lemma promised_audit o t d out d' : db_ok d → promised o t d = Ok (out, d') →
  ∃ new, logs_grow (logs_of d) (logs_of d') new ∧ audits o (unix_of t) d d' out new.
Proof.
  intros Hd Hp. destruct o; try (by apply promised_lifecycle_audit); simpl in Hp.
  - by apply (promised_moderation_audit _ _ administrativeSuspended).
  - by apply (promised_moderation_audit _ _ administrativeActive).
  - unfold SetEnrollment_promise in Hp. guards Hp. simpl.
    destruct (enrollment_is_open d) eqn:Ho, open; cbn in Hp; injection Hp as <- <-;
      (eexists; split; [|done]; unfold logs_grow; simpl; by rewrite !app_nil_r).
  - unfold AddDiscovery_promise in Hp. guards Hp. simpl. unfold listing_in.
    destruct (discoveries d !! add_actor intent) as [r|]; [destruct (discovery_state r ≟ discoveryActive)|guards Hp];
      injection Hp as <- <-; (eexists; split; [|done]; by apply logged_discovery_event).
  - unfold RemoveDiscovery_promise in Hp. guards Hp. simpl. unfold listing_in.
    destruct (discoveries d !! remove_actor intent) as [r|]; [destruct (discovery_state r ≟ discoveryActive)|];
      injection Hp as <- <-; (eexists; split; [|done]; by apply logged_discovery_event).
  - unfold RecordActorObservation_promise in Hp. guards Hp. injection Hp as <- <-.
    eexists. split; [by apply logs_grow_nil|done].
  - unfold RecordInboxObservation_promise in Hp. guards Hp.
    destruct (observations d !! inbox_intent_actor intent); [|done]. guards Hp. injection Hp as <- <-.
    eexists. split; [by apply logs_grow_nil|done].
  - unfold RecordReachabilityObservation_promise in Hp. guards Hp. destruct (_ || _) in Hp; [|guards Hp]; injection Hp as <- <-;
      (eexists; split; [by apply logs_grow_nil|split; [by eauto|done]]).
  - by apply promised_prune_audit.
Qed.
End Guarantees.

(** ** Theorems *)

Section Theorems.
Context `{RelayIdentity}.

(** The database left by an undisturbed call. *)
Definition after (o : operation) (t : Z) (d : db) : db := (perform plain_call o t d).2.

Lemma after_ok o t d : db_ok d → clock_ok t → db_ok (after o t d).
Proof.
  intros Hd Ht. unfold after. rewrite perform_plain by done. unfold kept.
  destruct (promised o t d) as [[out d']|] eqn:Hp; [|done]. by eapply promised_preserves.
Qed.

(** C1: Refinement. On a valid database every call either returns exactly the
    promised outcome and database, or is refused for an outside reason (missing
    configuration, write admission, the driver) and changes nothing. *)
Theorem perform_refines_promise c o t d : db_ok d → clock_ok t →
  perform c o t d = kept (promised o t d) d ∨ (∃ e, perform c o t d = (Err e, d) ∧ disturbed e = true).
Proof.
  intros Hd Ht. rewrite <- perform_plain by done. apply (settles_call _ (perform_settles o t)).
Qed.

(** Atomicity. A call that returns an error leaves the database as it was,
    on any database whatsoever. *)
Theorem error_changes_nothing c o t d e d' : perform c o t d = (Err e, d') → d' = d.
Proof. apply performed_error. Qed.

(** Errors that a promise can name. *)
Definition documented_error (o : operation) (e : error) : bool :=
  match o, e with
  | OpRegister _, (ErrTransitionInput | ErrTransitionTime | ErrRelaySuspended | ErrEnrollmentClosed
                  | ErrObservationTime) => true
  | OpHeartbeat _, (ErrTransitionInput | ErrTransitionTime | ErrRelaySuspended | ErrRelayAbsent) => true
  | OpUnregister _, (ErrTransitionInput | ErrTransitionTime | ErrObservationTime) => true
  | (OpSoftPrune _ | OpSetEnrollment _ _ | OpRemoveDiscovery _),
    (ErrTransitionInput | ErrTransitionTime) => true
  | (OpSuspend _ | OpRestore _), (ErrTransitionInput | ErrTransitionTime | ErrRelayAbsent) => true
  | OpAddDiscovery _, (ErrTransitionInput | ErrTransitionTime | ErrStorageFailure "write discovery" ErrConstraint) => true
  | OpActorObservation _, (ErrObservationInput | ErrObservationTime | ErrObservationAbsent) => true
  | OpInboxObservation _, (ErrObservationInput | ErrObservationTime | ErrObservationConflict) => true
  | OpReachability _, (ErrReachabilityWriteInput | ErrObservationTime
                      | ErrStorageFailure "write reachable observation" ErrConstraint) => true
  | _, _ => false
  end.

Lemma require_err ok e next e' : require ok e next = Err e' → e' = e ∨ next = Err e'.
Proof. destruct ok; simpl; [by right|intros [= ->]; by left]. Qed.

Ltac documented H :=
  repeat match type of H with
  | require _ _ _ = Err _ => apply require_err in H as [->|H]; [done|]
  | match ?x with _ => _ end = Err _ => destruct x
  | Ok _ = Err _ => discriminate H
  end.

Lemma promised_documented o t d e : promised o t d = Err e → documented_error o e = true.
Proof.
  destruct o; simpl; intros Hp.
  - unfold Register_promise in Hp. documented Hp.
  - unfold Heartbeat_promise in Hp. documented Hp. by injection Hp as <-.
  - unfold Unregister_promise in Hp. documented Hp.
  - unfold moderate_promise in Hp. documented Hp. by injection Hp as <-.
  - unfold moderate_promise in Hp. documented Hp. by injection Hp as <-.
  - unfold SetEnrollment_promise in Hp. documented Hp.
  - unfold AddDiscovery_promise in Hp. documented Hp.
  - unfold RemoveDiscovery_promise in Hp. documented Hp.
  - unfold RecordActorObservation_promise in Hp. documented Hp.
  - unfold RecordInboxObservation_promise in Hp. documented Hp. by injection Hp as <-.
  - unfold RecordReachabilityObservation_promise in Hp. documented Hp.
  - unfold SoftPrune_promise in Hp. documented Hp.
Qed.

(** On a valid database an undisturbed call fails only with the errors
    documented for it; the "classify", "read inserted" and "invalid state"
    failure branches, and every CHECK constraint but the two named lengths, are
    unreachable. *)
Theorem undisturbed_errors_documented o t d e d' : db_ok d → clock_ok t →
  perform plain_call o t d = (Err e, d') → documented_error o e = true.
Proof.
  intros Hd Ht. rewrite perform_plain by done. unfold kept.
  destruct (promised o t d) as [[]|e'] eqn:Hp; [done|]. intros [= -> _]. by eapply promised_documented.
Qed.

(** C8: The lifecycle state machine. An accepted operation moves its relay's
    status only along the edges of [status_steps]: enrollment and re-registration
    never of a suspended relay, heartbeats only of active registered relays,
    pruning only of registered relays, and suspension only by moderation. *)
Theorem status_machine c o t d out d' a : db_ok d → clock_ok t →
  perform c o t d = (Ok out, d') → operation_actor o = Some a →
  status_steps o (status_in d a) (status_in d' a).
Proof.
  intros Hd Ht Hp Ha. eapply row_step_status, promised_row; [|done]. by eapply performed_ok.
Qed.

(** Moderation and lifecycle are independent: an operation other than
    suspend and restore keeps the administrative half of every relay row, and
    suspend and restore keep the lifecycle half of every relay row. *)
Theorem moderation_is_independent c o t d out d' a r : db_ok d → clock_ok t →
  perform c o t d = (Ok out, d') → relays d !! a = Some r →
  ∃ r', relays d' !! a = Some r' ∧
    (moderates o = false → administrative_part r' = administrative_part r) ∧
    (moderates o = true → lifecycle_part r' = lifecycle_part r).
Proof.
  intros Hd Ht Hp Hr. pose proof (performed_ok _ _ _ _ _ _ Hd Ht Hp) as Hok.
  destruct (decide (operation_actor o = Some a)) as [Ha|Ha].
  - pose proof (promised_row _ _ _ _ _ _ Hok Ha) as Hrow. destruct (moderates o) eqn:Hm.
    + destruct (row_step_lifecycle _ _ _ _ Hrow Hm) as (r1&r2&Hr1&Hr2&?). rewrite Hr in Hr1. injection Hr1 as <-.
      exists r2. split_and!; done.
    + destruct (row_step_administrative _ _ _ _ Hrow Hm r Hr) as (r2&Hr2&?). exists r2. split_and!; done.
  - destruct (promised_frame _ _ _ _ _ _ Hok Ha) as [Hrel _]. exists r. rewrite Hrel. split_and!; done.
Qed.

(** No operation ever deletes a relay row or changes its base URL or first
    registration, and its update and last-seen times never move back. *)
Theorem relay_identity_permanent c o t d out d' a r : db_ok d → clock_ok t →
  perform c o t d = (Ok out, d') → relays d !! a = Some r →
  ∃ r', relays d' !! a = Some r' ∧ public_base_url r' = public_base_url r ∧
    first_registered_at_unix r' = first_registered_at_unix r ∧
    updated_at_unix r ≤ updated_at_unix r' ∧ last_seen_at_unix r ≤ last_seen_at_unix r'.
Proof.
  intros Hd Ht Hp Hr. pose proof (performed_ok _ _ _ _ _ _ Hd Ht Hp) as Hok.
  destruct (decide (operation_actor o = Some a)) as [Ha|Ha].
  - destruct (row_step_monotone _ _ _ _ (promised_row _ _ _ _ _ _ Hok Ha) r Hr) as (r'&Hr'&?&?&?).
    exists r'. split; [done|]. split; [|done].
    pose proof (promised_preserves _ _ _ _ _ Hd Hok) as Hd'.
    destruct (inv_relays _ _ Hd' a r' Hr') as [_ ?], (inv_relays _ _ Hd a r Hr) as [_ ?].
    by eapply canonical_identity_base.
  - destruct (promised_frame _ _ _ _ _ _ Hok Ha) as [Hrel _]. exists r. rewrite Hrel. split_and!; done.
Qed.

(** C9: The audit logs are append-only and complete. An accepted operation
    appends to the four logs exactly what [audits] determines from the state it
    found, which also determines its answer: a lifecycle, moderation, enrollment
    or discovery operation the one row with its actor, the action the found
    state calls for (created, updated or unchanged; removed or absent; suspended
    or unchanged; ...), its operator, reason, source, label and time; a pruning
    one row when the relay went from registered to pruned and none otherwise;
    an observation none. *)
Theorem audit_complete c o t d out d' : db_ok d → clock_ok t →
  perform c o t d = (Ok out, d') →
  ∃ new, logs_grow (logs_of d) (logs_of d') new ∧ audits o (unix_of t) d d' out new.
Proof. intros Hd Ht Hp. eapply promised_audit; [done|]. by eapply performed_ok. Qed.

(** Only registration under open enrollment creates a relay row. *)
Theorem enrollment_gates_new_relays c o t d out d' a : db_ok d → clock_ok t →
  perform c o t d = (Ok out, d') → relays d !! a = None → is_Some (relays d' !! a) →
  enrollment_is_open d = true ∧ out = OutcomeCreated ∧
  ∃ intent, o = OpRegister intent ∧ register_actor intent = a.
Proof.
  intros Hd Ht Hp Hnone [r' Hsome]. pose proof (performed_ok _ _ _ _ _ _ Hd Ht Hp) as Hok.
  destruct (decide (operation_actor o = Some a)) as [Ha|Ha].
  2:{ destruct (promised_frame _ _ _ _ _ _ Hok Ha) as [Hrel _]. congruence. }
  destruct (row_step_present _ _ _ _ (promised_row _ _ _ _ _ _ Hok Ha) Hnone) as [|[intent ->]]; [congruence|].
  simpl in Ha. injection Ha as <-. simpl in Hok. unfold Register_promise in Hok. rewrite Hnone in Hok.
  guards Hok. simpl in *. injection Hok as <- <-. split; [done|]. split; [done|]. by exists intent.
Qed.

(** Frame. An accepted operation leaves every row of every other actor. *)
Theorem other_actors_untouched c o t d out d' a : db_ok d → clock_ok t →
  perform c o t d = (Ok out, d') → operation_actor o ≠ Some a →
  relays d' !! a = relays d !! a ∧ observations d' !! a = observations d !! a ∧
  discoveries d' !! a = discoveries d !! a ∧ diagnostics d' !! a = diagnostics d !! a.
Proof. intros Hd Ht Hp. by eapply promised_frame, performed_ok. Qed.

(** An accepted protocol operation returns an outcome valid for it. *)
Theorem outcomes_valid c o t d out d' operation : db_ok d → clock_ok t →
  perform c o t d = (Ok out, d') → protocol_operation o = Some operation →
  Outcome_ValidFor out operation = true.
Proof.
  intros Hd Ht Hp Ho. pose proof (performed_ok _ _ _ _ _ _ Hd Ht Hp) as Hok.
  destruct o; simpl in Ho; simplify_eq; simpl in Hok.
  - unfold Register_promise, registered_row in Hok. guards Hok.
    destruct (relays d !! register_actor intent) as [r|]; simpl in Hok;
      [destruct (lifecycle_state r ≟ lifecycleRegistered)|]; by injection Hok as <- <-.
  - unfold Heartbeat_promise in Hok. guards Hok. destruct (relays d !! actor); [|done]. guards Hok.
    by injection Hok as <- <-.
  - unfold Unregister_promise in Hok. guards Hok.
    destruct (relays d !! actor) as [r|]; [destruct (lifecycle_state r ≟ lifecycleRegistered)|]; by injection Hok as <- <-.
Qed.
End Theorems.

(** ** Acceptance and round trips *)

Section Acceptance.
Context `{RelayIdentity}.

(** An undisturbed heartbeat is accepted exactly when its identity is
    canonical, its relay is registered and not suspended, and its time is not
    before any retained time of the relay. *)
Theorem heartbeat_accepted_iff a t d : db_ok d → clock_ok t →
  (is_ok (perform plain_call (OpHeartbeat a) t d).1 = true ↔
   validateIdentityIntent a = true ∧ 0 ≤ unix_of t ∧ status_in d a = Known Registered false ∧
   relay_evidence a d ≤ unix_of t).
Proof.
  intros Hd Ht. rewrite perform_plain by done. simpl. unfold Heartbeat_promise, require, status_in, status_of.
  destruct (validateIdentityIntent a); simpl; [|by intuition].
  destruct (Z.leb_spec 0 (unix_of t)); simpl; [|intuition lia].
  destruct (relays d !! a) as [r|] eqn:Hr; simpl; [|by intuition]. unfold lifecycle_of.
  destruct (inv_relays _ _ Hd a r Hr) as [Hc _]. apply relay_check_wf in Hc as (_&_&_&Hl&_).
  destruct (String.eqb_spec (lifecycle_state r) lifecycleRegistered); simpl.
  - destruct (administrative_state r ≟ administrativeSuspended); simpl; [by intuition|].
    destruct (Z.leb_spec (relay_evidence a d) (unix_of t)); simpl; [by intuition|intuition lia].
  - destruct Hl as [[? _]|[[-> _]|[-> _]]]; [done|..]; str_consts; cbn iota; intuition congruence.
Qed.

Lemma latest_of_bounds latest read u : latest ≤ u → (∀ x, read = Some x → x ≤ u) → latest_of latest read ≤ u.
Proof.
  intros Hl Hr. unfold latest_of. destruct read as [x|]; [|done]. specialize (Hr x eq_refl).
  destruct (latest <? x); done.
Qed.

(** After an accepted lifecycle operation at [t] nothing retained is later. *)
Lemma evidence_after a kind t u row d : relay_evidence a d ≤ t → t ≤ u →
  updated_at_unix row ≤ t → last_seen_at_unix row ≤ t →
  relay_evidence a (log_relay_event a kind t (mark_verified a t (put_relay a row d))) ≤ u.
Proof.
  intros (_&Hev&Hmod)%relay_evidence_le Hu Hup Hls. unfold relay_evidence.
  apply latest_of_bounds; [apply latest_of_bounds|].
  - simpl. rewrite lookup_insert_eq. simpl. destruct (updated_at_unix row <? last_seen_at_unix row); lia.
  - unfold log_relay_event. rewrite latest_relay_event_append by done. simpl. rewrite String.eqb_refl.
    intros x [= <-]. unfold latest_relay_event in *. simpl.
    destruct (max_of _) as [m|] eqn:Hm; [|lia]. specialize (Hev m eq_refl). lia.
  - intros x Hx. specialize (Hmod x Hx). lia.
Qed.

(** Leaving and coming back. A registered, unsuspended relay that
    unregisters at [t] and registers again at [u] after [t] is accepted both
    times ("removed", then "updated"), whether or not enrollment is open, keeps
    its first registration, and is registered at the end. *)
Theorem unregister_then_register intent t u d r :
  let a := register_actor intent in
  db_ok d → clock_ok t → clock_ok u → validateRegisterIntent intent = true →
  relays d !! a = Some r → status_in d a = Known Registered false →
  0 ≤ unix_of t → relay_evidence a d ≤ unix_of t → t ≤ u →
  ∃ d1 d2 r2, perform plain_call (OpUnregister a) t d = (Ok OutcomeRemoved, d1) ∧
    perform plain_call (OpRegister intent) u d1 = (Ok OutcomeUpdated, d2) ∧
    relays d2 !! a = Some r2 ∧ status_in d2 a = Known Registered false ∧
    first_registered_at_unix r2 = first_registered_at_unix r ∧
    last_seen_at_unix r2 = unix_of u.
Proof.
  intros a Hd Ht Hu Hv Hr Hst H0 Hev Htu. unfold status_in in Hst. rewrite Hr in Hst. unfold status_of in Hst.
  injection Hst as Hl Hs. pose proof (unix_of_mono t u Htu) as Hm.
  assert (Hreg : lifecycle_state r = lifecycleRegistered).
  { destruct (inv_relays _ _ Hd a r Hr) as [Hc _]. apply relay_check_wf in Hc as (_&_&_&Hlc&_).
    destruct Hlc as [[? _]|[[Hx _]|[Hx _]]]; [done|by rewrite Hx in Hl..]. }
  assert (Hid : validateIdentityIntent a = true).
  { unfold validateRegisterIntent in Hv. unfold validateIdentityIntent. bool_facts.
    assert (Hcan : canonical_actor a = true) by (by eapply canonical_identity_actor).
    rewrite Hcan. unfold maximumRelayActorBytes in *. apply andb_true_iff. split; [|done].
    apply negb_true_iff, orb_false_iff. unfold a. split; bool_lia. }
  set (d1 := log_relay_event a eventUnregisterRemoved (unix_of t)
               (mark_verified a (unix_of t) (put_relay a (unregister_relay (unix_of t) r) d))).
  assert (H1 : promised (OpUnregister a) t d = Ok (OutcomeRemoved, d1)).
  { simpl. unfold Unregister_promise. rewrite Hid, Hr, Hreg, retained_put_relay_eq. simpl.
    rewrite (proj2 (Z.leb_le _ _) H0), (proj2 (Z.leb_le _ _) Hev). simpl.
    by rewrite (verified_covered a d (unix_of t)) by done. }
  pose proof (promised_preserves _ _ _ _ _ Hd H1) as Hd1.
  assert (Hr1 : relays d1 !! a = Some (unregister_relay (unix_of t) r)) by apply lookup_insert_eq.
  assert (Hev1 : relay_evidence a d1 ≤ unix_of u).
  { destruct (relay_evidence_le _ _ _ Hev) as [Hrow _]. destruct (Hrow r Hr). by apply evidence_after. }
  exists d1. eexists _, (reregister_relay (register_base intent) (unix_of u) (unregister_relay (unix_of t) r)).
  rewrite !perform_plain by done. rewrite H1. split; [done|]. split.
  - simpl. unfold Register_promise, suspended_relay. fold a. rewrite Hv, Hr1. simpl. rewrite Hs. simpl.
    rewrite (proj2 (Z.leb_le 0 (unix_of u))), (proj2 (Z.leb_le _ _) Hev1) by lia. simpl.
    by rewrite (verified_covered a d1 (unix_of u)) by done.
  - simpl. rewrite lookup_insert_eq. split; [done|]. unfold status_in. simpl. rewrite lookup_insert_eq.
    unfold status_of. simpl. by rewrite Hs.
Qed.
End Acceptance.

(** ** Concrete databases *)

Definition sample_actor := "https://relay.example/actor".
Definition sample_intent : RegisterIntent :=
  {| register_actor := sample_actor; register_base := "https://relay.example" |}.
Definition sample_open := after (OpSetEnrollment true "operator") (time_of_unix 500) initial_db.
Definition sample_enrolled := after (OpRegister sample_intent) (time_of_unix 1000) sample_open.

Ltac clock := by vm_compute.
Ltac evaluate := by vm_compute.

Lemma sample_open_ok : db_ok sample_open.
Proof. apply after_ok; [apply initial_db_ok|clock]. Qed.
Lemma sample_enrolled_ok : db_ok sample_enrolled.
Proof. apply after_ok; [apply sample_open_ok|clock]. Qed.

Example sample_statuses :
  status_in sample_open sample_actor = Absent ∧ status_in sample_enrolled sample_actor = Known Registered false.
Proof. by vm_compute. Qed.

(** A heartbeat of the enrolled relay, for the witnesses below. *)
Definition beat_time := time_of_unix 2000.
Definition sample_beaten := after (OpHeartbeat sample_actor) beat_time sample_enrolled.
Definition accepts (o : operation) (t : Z) (d : db) (out : string) : Prop :=
  perform plain_call o t d = (Ok out, after o t d).

Lemma perform_refines_promise_witness :
  let o := OpHeartbeat sample_actor in
  perform (Call true None [false; true]) o beat_time sample_enrolled =
    kept (promised o beat_time sample_enrolled) sample_enrolled ∨
  (∃ e, perform (Call true None [false; true]) o beat_time sample_enrolled = (Err e, sample_enrolled) ∧ disturbed e = true).
Proof. apply perform_refines_promise; [apply sample_enrolled_ok|clock]. Defined.

Lemma error_changes_nothing_witness :
  ∃ d', perform plain_call (OpHeartbeat sample_actor) beat_time sample_open = (Err ErrRelayAbsent, d') ∧ d' = sample_open.
Proof.
  exists (after (OpHeartbeat sample_actor) beat_time sample_open).
  assert (Hp : perform plain_call (OpHeartbeat sample_actor) beat_time sample_open =
    (Err ErrRelayAbsent, after (OpHeartbeat sample_actor) beat_time sample_open)) by evaluate.
  split; [exact Hp|apply (error_changes_nothing _ _ _ _ _ _ Hp)].
Defined.

Lemma undisturbed_errors_documented_witness :
  ∃ d', perform plain_call (OpHeartbeat sample_actor) beat_time sample_open = (Err ErrRelayAbsent, d') ∧
        documented_error (OpHeartbeat sample_actor) ErrRelayAbsent = true.
Proof.
  exists (after (OpHeartbeat sample_actor) beat_time sample_open).
  assert (Hp : perform plain_call (OpHeartbeat sample_actor) beat_time sample_open =
    (Err ErrRelayAbsent, after (OpHeartbeat sample_actor) beat_time sample_open)) by evaluate.
  split; [exact Hp|].
  apply (undisturbed_errors_documented _ beat_time sample_open _ _ sample_open_ok ltac:(clock) Hp).
Defined.

Lemma status_machine_witness :
  accepts (OpHeartbeat sample_actor) beat_time sample_enrolled OutcomeRecorded ∧
  status_steps (OpHeartbeat sample_actor) (status_in sample_enrolled sample_actor) (status_in sample_beaten sample_actor).
Proof.
  assert (Hp : accepts (OpHeartbeat sample_actor) beat_time sample_enrolled OutcomeRecorded) by evaluate.
  split; [exact Hp|]. apply (status_machine plain_call _ beat_time _ _ _ _ sample_enrolled_ok ltac:(clock) Hp).
  evaluate.
Defined.

Lemma moderation_is_independent_witness :
  accepts (OpHeartbeat sample_actor) beat_time sample_enrolled OutcomeRecorded ∧
  ∃ r r', relays sample_enrolled !! sample_actor = Some r ∧ relays sample_beaten !! sample_actor = Some r' ∧
    (moderates (OpHeartbeat sample_actor) = false → administrative_part r' = administrative_part r) ∧
    (moderates (OpHeartbeat sample_actor) = true → lifecycle_part r' = lifecycle_part r).
Proof.
  assert (Hp : accepts (OpHeartbeat sample_actor) beat_time sample_enrolled OutcomeRecorded) by evaluate.
  split; [exact Hp|]. exists (new_relay "https://relay.example" 1000).
  assert (Hr : relays sample_enrolled !! sample_actor = Some (new_relay "https://relay.example" 1000)) by evaluate.
  destruct (moderation_is_independent plain_call _ beat_time _ _ _ _ _ sample_enrolled_ok ltac:(clock) Hp Hr) as [r' ?].
  exists r'. split; [exact Hr|assumption].
Defined.

Lemma relay_identity_permanent_witness :
  ∃ r r', relays sample_enrolled !! sample_actor = Some r ∧ relays sample_beaten !! sample_actor = Some r' ∧
    public_base_url r' = public_base_url r ∧ first_registered_at_unix r' = first_registered_at_unix r ∧
    updated_at_unix r ≤ updated_at_unix r' ∧ last_seen_at_unix r ≤ last_seen_at_unix r'.
Proof.
  assert (Hp : accepts (OpHeartbeat sample_actor) beat_time sample_enrolled OutcomeRecorded) by evaluate.
  exists (new_relay "https://relay.example" 1000).
  assert (Hr : relays sample_enrolled !! sample_actor = Some (new_relay "https://relay.example" 1000)) by evaluate.
  destruct (relay_identity_permanent plain_call _ beat_time _ _ _ _ _ sample_enrolled_ok ltac:(clock) Hp Hr) as [r' ?].
  exists r'. split; [exact Hr|assumption].
Defined.

Lemma audit_complete_witness :
  ∃ new, logs_grow (logs_of sample_enrolled) (logs_of sample_beaten) new ∧
         audits (OpHeartbeat sample_actor) 2000 sample_enrolled sample_beaten OutcomeRecorded new.
Proof.
  assert (Hp : accepts (OpHeartbeat sample_actor) beat_time sample_enrolled OutcomeRecorded) by evaluate.
  apply (audit_complete plain_call (OpHeartbeat sample_actor) beat_time _ _ _ sample_enrolled_ok ltac:(clock) Hp).
Defined.

Lemma enrollment_gates_new_relays_witness :
  enrollment_is_open sample_open = true ∧ OutcomeCreated = OutcomeCreated ∧
  ∃ intent, OpRegister sample_intent = OpRegister intent ∧ register_actor intent = sample_actor.
Proof.
  assert (Hp : accepts (OpRegister sample_intent) (time_of_unix 1000) sample_open OutcomeCreated) by evaluate.
  assert (Hn : relays sample_open !! sample_actor = None) by evaluate.
  assert (Hs : is_Some (relays (after (OpRegister sample_intent) (time_of_unix 1000) sample_open) !! sample_actor)).
  { exists (new_relay "https://relay.example" 1000). evaluate. }
  exact (enrollment_gates_new_relays plain_call (OpRegister sample_intent) (time_of_unix 1000) sample_open OutcomeCreated
           _ sample_actor sample_open_ok ltac:(clock) Hp Hn Hs).
Defined.

Lemma other_actors_untouched_witness :
  relays sample_beaten !! "https://other.example/actor" = relays sample_enrolled !! "https://other.example/actor" ∧
  observations sample_beaten !! "https://other.example/actor" = observations sample_enrolled !! "https://other.example/actor" ∧
  discoveries sample_beaten !! "https://other.example/actor" = discoveries sample_enrolled !! "https://other.example/actor" ∧
  diagnostics sample_beaten !! "https://other.example/actor" = diagnostics sample_enrolled !! "https://other.example/actor".
Proof.
  assert (Hp : accepts (OpHeartbeat sample_actor) beat_time sample_enrolled OutcomeRecorded) by evaluate.
  apply (other_actors_untouched plain_call _ beat_time _ _ _ _ sample_enrolled_ok ltac:(clock) Hp). done.
Defined.

Lemma outcomes_valid_witness :
  accepts (OpHeartbeat sample_actor) beat_time sample_enrolled OutcomeRecorded ∧
  Outcome_ValidFor OutcomeRecorded OperationHeartbeat = true.
Proof.
  assert (Hp : accepts (OpHeartbeat sample_actor) beat_time sample_enrolled OutcomeRecorded) by evaluate.
  split; [exact Hp|].
  apply (outcomes_valid plain_call _ beat_time _ _ _ OperationHeartbeat sample_enrolled_ok ltac:(clock) Hp). done.
Defined.

Lemma heartbeat_accepted_iff_witness :
  is_ok (perform plain_call (OpHeartbeat sample_actor) beat_time sample_enrolled).1 = true ↔
  validateIdentityIntent sample_actor = true ∧ 0 ≤ unix_of beat_time ∧
  status_in sample_enrolled sample_actor = Known Registered false ∧
  relay_evidence sample_actor sample_enrolled ≤ unix_of beat_time.
Proof. apply heartbeat_accepted_iff; [apply sample_enrolled_ok|clock]. Defined.

Lemma unregister_then_register_witness :
  ∃ d1 d2 r2,
    perform plain_call (OpUnregister (register_actor sample_intent)) beat_time sample_enrolled = (Ok OutcomeRemoved, d1) ∧
    perform plain_call (OpRegister sample_intent) (time_of_unix 3000) d1 = (Ok OutcomeUpdated, d2) ∧
    relays d2 !! register_actor sample_intent = Some r2 ∧
    status_in d2 (register_actor sample_intent) = Known Registered false ∧
    first_registered_at_unix r2 = first_registered_at_unix (new_relay "https://relay.example" 1000) ∧
    last_seen_at_unix r2 = unix_of (time_of_unix 3000).
Proof.
  assert (Hv : validateRegisterIntent sample_intent = true) by evaluate.
  assert (Hr : relays sample_enrolled !! register_actor sample_intent = Some (new_relay "https://relay.example" 1000))
    by evaluate.
  assert (Hs : status_in sample_enrolled (register_actor sample_intent) = Known Registered false) by evaluate.
  assert (H0 : 0 ≤ unix_of beat_time) by evaluate.
  assert (He : relay_evidence (register_actor sample_intent) sample_enrolled ≤ unix_of beat_time) by evaluate.
  assert (Hle : beat_time ≤ time_of_unix 3000) by evaluate.
  exact (unregister_then_register sample_intent beat_time (time_of_unix 3000) sample_enrolled _
           sample_enrolled_ok ltac:(clock) ltac:(clock) Hv Hr Hs H0 He Hle).
Defined.
