(* ===== verification/CandidateContract.v ===== *)
(** * CandidateContract: what the candidate methods promise

    [RetainDiscoveryCandidate] and [PromoteDiscoveryCandidate] against the candidate
    tables and the database as a whole: which error, or which outcome and which next
    store. From a store satisfying the invariant the methods of [Candidates] do
    precisely this, and keep the invariant under any driver outcomes. *)
From S2P Require Import Prelude Identity Vocabulary Store Repository Session Lifecycle Discovery Reachability Candidates Invariant Contract Refinement System Guarantees.
Local Open Scope string_scope.
Local Open Scope Z_scope.
Local Open Scope go_scope.
Local Open Scope list_scope.

(** ** Promises *)

Definition candidate_event_of (actor action state : string) (failure : option string) (audit : discovery_audit) (t : Z) : candidate_event :=
  CandidateEvent actor action state failure (audit_operator audit) (audit_reason audit) (audit_source_kind audit)
    (if audit_source_label audit ≟ "" then None else Some (audit_source_label audit)) t.
Definition log_candidate (e : candidate_event) (s : candidate_store) : candidate_store :=
  CandidateStore (candidate_db s) (candidates s) (candidate_events s ++ [e]).

Section Promises.
Context `{RelayIdentity}.

Definition retained_store (intent : DiscoveryCandidateIntent) (t : Z) (row : candidate_row) (action : string) (s : candidate_store) : candidate_store :=
  let a := candidate_intent_actor intent in
  log_candidate (candidate_event_of a action (candidate_intent_state intent) (Some (candidate_intent_failure intent)) (candidate_intent_audit intent) t)
    (put_candidate a row s).
Definition RetainDiscoveryCandidate_promise (intent : DiscoveryCandidateIntent) (acceptedAt : Z) (s : candidate_store)
    : result error string * candidate_store :=
  let a := candidate_intent_actor intent in
  let t := unix_of acceptedAt in
  if negb (validateDiscoveryCandidateIntent intent) then (Err ErrDiscoveryCandidateInput, s)
  else if t <? 0 then (Err ErrDiscoveryCandidateTime, s)
  else
    match candidates s !! a with
    | None =>
        if (len a <=? 4096) && short_base (candidate_intent_base intent)
        then (Ok DiscoveryCandidateAdded, retained_store intent t (new_candidate intent t) discoveryCandidateAdded s)
        else (Err (storageFailure "write discovery candidate" ErrConstraint), s)
    | Some r =>
        if last_checked r <=? t
        then (Ok DiscoveryCandidateUpdated, retained_store intent t (failed_candidate intent t r) discoveryCandidateUpdated s)
        else (Err ErrDiscoveryCandidateTime, s)
    end.

(** The candidate of a promotion is listed as discovered: the discovery row and its
    event, the observation of the probe, the resolved row and its event. *)
Definition promoted_discovery (a base : string) (t : Z) (d : db) : string * db :=
  match discoveries d !! a with
  | None => (discoveryAdded, put_discovery a (new_discovery base t) d)
  | Some r =>
      if discovery_state r ≟ discoveryActive then (discoveryUnchanged, d)
      else (discoveryUpdated, put_discovery a (readd_discovery base t r) d)
  end.
Definition promoted_event_db (intent : DiscoveryCandidatePromotionIntent) (t : Z) (d : db) : db :=
  let '(action, d1) := promoted_discovery (promotion_actor intent) (promotion_base intent) t d in
  log_discovery (promotion_actor intent) action (promotion_audit intent) t d1.
Definition promoted_db (intent : DiscoveryCandidatePromotionIntent) (t : Z) (d : db) : db :=
  put_observation (promotion_actor intent) (promoted_observation intent t (observation_at (promotion_actor intent) t d)) (promoted_event_db intent t d).
Definition promoted_store (intent : DiscoveryCandidatePromotionIntent) (t : Z) (r : candidate_row) (s : candidate_store) : candidate_store :=
  let a := promotion_actor intent in
  log_candidate (candidate_event_of a discoveryCandidateResolved DiscoveryCandidateResolved None (promotion_audit intent) t)
    (put_candidate a (resolved_candidate t r) (with_candidate_db (promoted_db intent t (candidate_db s)) s)).
(** The observation columns take the probe: its inbox URL fits and the row holds no
    RFC 9421 evidence later than the probe. *)
Definition recordable (intent : DiscoveryCandidatePromotionIntent) (t : Z) (d : db) : bool :=
  (len (promotion_inbox intent) <=? 4096) && null_or (λ v, v <=? t) (rfc9421_verified (observation_at (promotion_actor intent) t d)).
(** What the promotion skips: no unresolved candidate last checked before the probe,
    or a later discovery event, or a probe of the actor at the same time or later. *)
Definition promotion_current (a : string) (t : Z) (s : candidate_store) : bool :=
  match candidates s !! a with
  | Some r => negb (candidate_state r ≟ DiscoveryCandidateResolved) && (last_checked r <? t) && (discovery_evidence a (candidate_db s) <=? t) &&
              negb (match actor_checked (candidate_db s) a with Some v => t <=? v | None => false end)
  | None => false
  end.
Definition PromoteDiscoveryCandidate_promise (intent : DiscoveryCandidatePromotionIntent) (observedAt : Z) (s : candidate_store)
    : result error string * candidate_store :=
  let a := promotion_actor intent in
  let t := unix_of observedAt in
  if negb (validateDiscoveryCandidatePromotionIntent intent) then (Err ErrDiscoveryCandidateMaintenanceWrite, s)
  else if t <? 0 then (Err ErrDiscoveryCandidateMaintenanceWrite, s)
  else
    match candidates s !! a with
    | Some r =>
        if promotion_current a t s then
          if recordable intent t (candidate_db s) then (Ok DiscoveryCandidatePromoted, promoted_store intent t r s)
          else (Err (storageFailure "write promoted observation" ErrConstraint), s)
        else (Ok DiscoveryCandidateSkipped, s)
    | None => (Ok DiscoveryCandidateSkipped, s)
    end.

(** ** The invariant *)

Record candidate_inv (s : candidate_store) : Prop := {
  candidates_db : db_ok (candidate_db s);
  candidates_rows : ∀ a r, candidates s !! a = Some r →
    candidate_check a r = true ∧ canonical_identity a (candidate_base r) = true ∧ 1 ≤ failure_count r ∧
    (candidate_state r ≠ DiscoveryCandidateResolved → is_Some (last_failure r)) ∧ is_Some (first_candidate_event a s);
  candidates_events : Forall (λ e, candidate_event_check e = true) (candidate_events s) }.

Lemma initial_candidates_ok d : db_ok d → candidate_inv (CandidateStore d ∅ []).
Proof. intros Hd. split; [done|intros a r Hr; cbn [candidates] in Hr; by rewrite lookup_empty in Hr|constructor]. Qed.

Lemma first_event_log a e s : first_candidate_event a (log_candidate e s) =
  match first_candidate_event a s with Some e' => Some e' | None => if ce_actor e ≟ a then Some e else None end.
Proof.
  unfold first_candidate_event, log_candidate. cbn [candidate_events]. induction (candidate_events s) as [|x l IH]; simpl; [done|].
  by destruct (ce_actor x ≟ a).
Qed.

(** A row is replaced together with an event of its actor. *)
Lemma inv_write s d a r e : candidate_inv s → db_ok d → candidate_check a r = true → canonical_identity a (candidate_base r) = true →
  1 ≤ failure_count r → (candidate_state r ≠ DiscoveryCandidateResolved → is_Some (last_failure r)) →
  ce_actor e = a → candidate_event_check e = true → candidate_inv (log_candidate e (put_candidate a r (with_candidate_db d s))).
Proof.
  intros Hs Hd Hc Hi Hn Hf Ha He. split; [done| |].
  - intros a' r'. rewrite first_event_log. unfold log_candidate, put_candidate, first_candidate_event. cbn [candidates candidate_events with_candidate_db].
    destruct (decide (a = a')) as [<-|Hne].
    + rewrite lookup_insert_eq. intros [= <-]. split_and!; try done. rewrite Ha, String.eqb_refl.
      destruct (List.find _ _); by eexists.
    + rewrite lookup_insert_ne by done. intros Hr. destruct (candidates_rows _ Hs a' r' Hr) as (?&?&?&?&[e' He']).
      unfold first_candidate_event in He'. rewrite He'. split_and!; try done; by eexists.
  - apply Forall_app. split; [apply (candidates_events _ Hs)|by constructor].
Qed.
End Promises.

(** ** Rows and events that pass the schema *)

Lemma candidate_event_check_valid a action state failure audit t : valid_audit audit = true → 1 ≤ len a ≤ 4096 →
  one_of [discoveryCandidateAdded; discoveryCandidateUpdated; discoveryCandidateResolved] action = true → CandidateState_Valid state = true →
  null_or failure_check failure = true → state_failure state failure = true → 0 ≤ t →
  candidate_event_check (candidate_event_of a action state failure audit t) = true.
Proof.
  intros Hv Hl Ha Hs Hf Hsf Ht. unfold valid_audit in Hv.
  rewrite ValidOperatorID_check, ValidModerationReasonCode_check, ValidDiscoverySourceLabel_check, !andb_true_iff in Hv. destruct_and! Hv.
  unfold candidate_event_check, candidate_event_of, blob_length_between.
  cbn [ce_actor ce_action ce_state ce_failure ce_operator ce_reason ce_source_kind ce_source_label ce_recorded].
  repeat match goal with Hx : _ = true |- _ => rewrite Hx; clear Hx end. bool_lia.
Qed.

Section Kept.
Context `{RelayIdentity}.

Definition candidate_wf (a : string) (r : candidate_row) : Prop :=
  (1 ≤ len a ≤ 4096 ∧ 1 ≤ len (candidate_base r) ≤ 2048) ∧ 0 ≤ first_seen r ≤ last_checked r ∧ last_checked r ≤ candidate_updated r ∧
  within (first_seen r) (last_checked r) (last_success r) ∧ 0 ≤ failure_count r ∧
  CandidateState_Valid (candidate_state r) = true ∧ null_or failure_check (last_failure r) = true ∧
  state_failure (candidate_state r) (last_failure r) = true ∧
  (if candidate_state r ≟ DiscoveryCandidateResolved then is_Some (last_success r) else 1 ≤ failure_count r).
Lemma candidate_check_wf a r : candidate_check a r = true ↔ candidate_wf a r.
Proof.
  unfold candidate_check, candidate_wf, blob_length_between, within. destruct r as [b st lf fs lc ls n u]; simpl.
  rewrite !andb_true_iff, !Z.leb_le. destruct ls as [v|]; simpl; rewrite ?andb_true_iff, ?Z.leb_le; destruct (st ≟ _); simpl; rewrite ?Z.leb_le;
    (split; [intros Hx; destruct_and! Hx; split_and!; try done; try lia; try (by eexists); intros ? [= <-]; lia
            |intros Hx; destruct_and! Hx]); split_and!; try done; try lia;
    try (match goal with Hw : ∀ _, Some _ = Some _ → _ |- _ => specialize (Hw _ eq_refl); lia end); by destruct_and!; try (match goal with Hw : is_Some None |- _ => by destruct Hw end).
Qed.

Lemma validate_candidate_spec intent : validateDiscoveryCandidateIntent intent = true →
  canonical_identity (candidate_intent_actor intent) (candidate_intent_base intent) = true ∧ valid_audit (candidate_intent_audit intent) = true ∧
  CandidateState_Valid (candidate_intent_state intent) = true ∧ (candidate_intent_state intent ≟ DiscoveryCandidateResolved) = false ∧
  failure_check (candidate_intent_failure intent) = true ∧
  state_failure (candidate_intent_state intent) (Some (candidate_intent_failure intent)) = true.
Proof.
  unfold validateDiscoveryCandidateIntent, failure_check. rewrite !andb_true_iff, negb_true_iff. intros (((((?&?)&?)&?)&?)&Hs).
  split_and!; try done. unfold state_failure. repeat case_match; simpl; rewrite ?Hs; try done; by rewrite orb_true_r.
Qed.

Lemma failed_candidate_check intent t r : validateDiscoveryCandidateIntent intent = true → candidate_check (candidate_intent_actor intent) r = true →
  canonical_identity (candidate_intent_actor intent) (candidate_base r) = true → last_checked r ≤ t →
  candidate_check (candidate_intent_actor intent) (failed_candidate intent t r) = true.
Proof.
  intros (Hid&_&Hst&Hres&Hf&Hsf)%validate_candidate_spec (Hl&Hfs&Hup&Hls&Hn&_)%candidate_check_wf Hb Ht. apply candidate_check_wf.
  unfold candidate_wf, failed_candidate. cbn [candidate_base candidate_state last_failure first_seen last_checked last_success failure_count candidate_updated].
  rewrite (canonical_identity_base _ _ _ Hb Hid) in Hl. rewrite Hres. split_and!; try done; try lia. by eapply within_widen.
Qed.
Lemma new_candidate_check intent t : validateDiscoveryCandidateIntent intent = true → 0 ≤ t →
  candidate_check (candidate_intent_actor intent) (new_candidate intent t) = (len (candidate_intent_actor intent) <=? 4096) && short_base (candidate_intent_base intent).
Proof.
  intros (Hid&_&Hst&Hres&Hf&Hsf)%validate_candidate_spec Ht. apply eq_true_iff_eq. rewrite candidate_check_wf.
  unfold candidate_wf, new_candidate, short_base. cbn [candidate_base candidate_state last_failure first_seen last_checked last_success failure_count candidate_updated].
  pose proof (canonical_actor_nonempty _ (canonical_identity_actor _ _ Hid)). rewrite Hres, !andb_true_iff, !Z.leb_le.
  split; [intros Hx; destruct_and! Hx; by split_and!|intros Hx; destruct_and! Hx; split_and!; try done; try lia; by intros ? ?].
Qed.

Lemma insert_candidate_event_run a action state failure audit t s : valid_audit audit = true → 1 ≤ len a ≤ 4096 →
  one_of [discoveryCandidateAdded; discoveryCandidateUpdated; discoveryCandidateResolved] action = true → CandidateState_Valid state = true →
  null_or failure_check failure = true → state_failure state failure = true → 0 ≤ t →
  insertDiscoveryCandidateEvent a action state failure audit t (s, []) = (Ok tt, (log_candidate (candidate_event_of a action state failure audit t) s, [])).
Proof.
  intros. unfold insertDiscoveryCandidateEvent. session_run. unfold insert_candidate_event. fold (candidate_event_of a action state failure audit t).
  by rewrite candidate_event_check_valid.
Qed.

Lemma RetainDiscoveryCandidate_keeps intent acceptedAt s : candidate_inv s →
  RetainDiscoveryCandidate plain_call intent acceptedAt s = RetainDiscoveryCandidate_promise intent acceptedAt s.
Proof.
  intros Hs. unfold RetainDiscoveryCandidate, RetainDiscoveryCandidate_promise, transitionUnix. set (t := unix_of acceptedAt).
  destruct (validateDiscoveryCandidateIntent intent) eqn:Hv; [|done]. cbn [negb]. destruct (Z.ltb_spec t 0) as [|Ht]; [done|].
  rewrite transact_plain. unfold RetainDiscoveryCandidate_tx, selectDiscoveryCandidate. session_run.
  pose proof (validate_candidate_spec _ Hv) as (Hid&Hau&Hst&Hres&Hf&Hsf). set (a := candidate_intent_actor intent) in *.
  pose proof (canonical_actor_nonempty _ (canonical_identity_actor _ _ Hid)) as Hl1.
  destruct (candidates s !! a) as [r|] eqn:Hr; simpl null_or.
  - destruct (candidates_rows _ Hs _ _ Hr) as (Hc&Hb&_). destruct (Z.leb_spec (last_checked r) t) as [Hle|]; [|done]. session_run.
    unfold update_candidate. rewrite Hr. unfold a. rewrite (failed_candidate_check intent t r) by done. fold a. session_run.
    apply candidate_check_wf in Hc as ((?&_)&_). rewrite insert_candidate_event_run by done. by session_run.
  - session_run. unfold insert_candidate. rewrite Hr. unfold a at 1. rewrite new_candidate_check by done. fold a.
    destruct (len a <=? 4096) eqn:Hl4; [|done]. destruct (short_base (candidate_intent_base intent)); [|done]. cbn [andb]. session_run.
    apply Z.leb_le in Hl4. rewrite insert_candidate_event_run by done. by session_run.
Qed.
End Kept.

(** ** Promotion *)

Section Promotion.
Context `{RelayIdentity}.

Lemma on_db_run {A} (m : Tx A) s : on_db m (s, []) =
  let '(r, tx) := m (TX (candidate_db s) (candidate_db s) []) in (r, (with_candidate_db (working tx) s, faults tx)).
Proof. done. Qed.
Lemma with_candidate_db_same s : with_candidate_db (candidate_db s) s = s.
Proof. by destruct s. Qed.

Lemma discovery_timely_run a t s : discovery_timely a t (discoveries (candidate_db s) !! a) (s, []) =
  (Ok (discovery_evidence a (candidate_db s) <=? t), (s, [])).
Proof.
  unfold discovery_timely. rewrite on_db_run, requireDiscoveryTime_run. cbn [working faults]. rewrite with_candidate_db_same.
  by destruct (_ <=? t).
Qed.

Lemma write_promoted_run intent t s : db_ok (candidate_db s) → 0 ≤ t → discovery_evidence (promotion_actor intent) (candidate_db s) ≤ t →
  canonical_identity (promotion_actor intent) (promotion_base intent) = true → 1 ≤ len (promotion_actor intent) ≤ 4096 →
  short_base (promotion_base intent) = true →
  write_promoted intent t (discoveries (candidate_db s) !! promotion_actor intent) (s, []) =
  let '(action, d) := promoted_discovery (promotion_actor intent) (promotion_base intent) t (candidate_db s) in
  (Ok action, (with_candidate_db d s, [])).
Proof.
  intros Hd Ht Hev Hid Hl Hb. unfold write_promoted, promoted_discovery. set (a := promotion_actor intent) in *.
  destruct (discoveries (candidate_db s) !! a) as [r|] eqn:Hr.
  - destruct (inv_discoveries _ _ Hd _ r Hr) as [Hc Hbase].
    rewrite (canonical_identity_base _ _ _ Hbase Hid) in *. rewrite String.eqb_refl, andb_true_r.
    pose proof (discovery_evidence_le _ _ _ r Hev Hr) as Hup.
    destruct (discovery_transition_check _ _ r t (promotion_base intent) Hd Hr Hup Hb) as [Hck _].
    apply discovery_check_wf in Hc as (_&_&[[-> _]|[-> _]]); str_consts; cbn [orb]; session_run; [by rewrite with_candidate_db_same|].
    rewrite on_db_run. tx_run. rewrite (update_discovery_run _ _ _ r) by done. by session_run.
  - session_run. rewrite on_db_run. tx_run. rewrite insert_discovery_run, new_discovery_check by (done || lia).
    rewrite Hb, (proj2 (Z.leb_le _ 4096)) by lia. cbn [andb]. by session_run.
Qed.

Lemma promoted_event_run intent t s : db_ok (candidate_db s) → 0 ≤ t → discovery_evidence (promotion_actor intent) (candidate_db s) ≤ t →
  canonical_identity (promotion_actor intent) (promotion_base intent) = true → 1 ≤ len (promotion_actor intent) ≤ 4096 →
  short_base (promotion_base intent) = true → valid_audit (promotion_audit intent) = true →
  (action ← write_promoted intent t (discoveries (candidate_db s) !! promotion_actor intent);
   on_db (insertDiscoveryEvent (promotion_actor intent) action (promotion_audit intent) t)) (s, []) =
  (Ok tt, (with_candidate_db (promoted_event_db intent t (candidate_db s)) s, [])).
Proof.
  intros Hd Ht Hev Hid Hl Hb Hau. session_run. rewrite write_promoted_run by done. unfold promoted_event_db.
  destruct (promoted_discovery _ _ _ _) as [action d] eqn:E. rewrite on_db_run.
  rewrite insertDiscoveryEvent_run; [done|done| |done|done].
  unfold promoted_discovery in E. repeat case_match; by injection E as <- _.
Qed.

(** The event leaves the observations and makes the identity a retained one. *)
Lemma promoted_event_observations intent t d : observations (promoted_event_db intent t d) = observations d.
Proof. unfold promoted_event_db, promoted_discovery. repeat case_match; by simplify_eq. Qed.
Lemma promoted_event_retained intent t d : retained_identity (promotion_actor intent) (promoted_event_db intent t d) = true.
Proof.
  unfold promoted_event_db, promoted_discovery, retained_identity.
  destruct (discoveries d !! promotion_actor intent) as [r|] eqn:Hr; [destruct (_ ≟ _)|]; simpl;
    rewrite ?lookup_insert_eq, ?Hr; by rewrite orb_true_r.
Qed.

Lemma validate_promotion_spec intent : validateDiscoveryCandidatePromotionIntent intent = true →
  canonical_identity (promotion_actor intent) (promotion_base intent) = true ∧ valid_audit (promotion_audit intent) = true ∧
  ((promotion_inbox intent = "" ∧ promotion_inbox_state intent = InboxNotChecked) ∨
   (promotion_inbox intent ≠ "" ∧ 1 ≤ len (promotion_inbox intent) ∧ InboxProbeState_Valid (promotion_inbox_state intent) = true ∧
    promotion_inbox_state intent ≠ InboxNotChecked)).
Proof.
  unfold validateDiscoveryCandidatePromotionIntent. rewrite !andb_true_iff. intros ((?&?)&Hi). split_and!; [done..|].
  destruct (String.eqb_spec (promotion_inbox intent) "") as [->|Hne]; [left; split; [done|by apply String.eqb_eq]|right].
  apply andb_true_iff in Hi as [Hc Hs]. split; [done|]. split; [by apply canonical_actor_nonempty|].
  apply one_of_cases in Hs as [Hs|[Hs|[Hs|[]]]]; rewrite <- Hs; by split.
Qed.

Lemma promoted_observation_check intent t o : validateDiscoveryCandidatePromotionIntent intent = true → 0 ≤ t →
  observation_check (promotion_actor intent) o = true →
  observation_check (promotion_actor intent) (promoted_observation intent t o) =
  (len (promotion_inbox intent) <=? 4096) && null_or (λ v, v <=? t) (rfc9421_verified o).
Proof.
  intros (_&_&Hin)%validate_promotion_spec Ht ((?&?&?)&(_&_&_&_&Hw)&_)%observation_check_wf. apply eq_true_iff_eq. split.
  - intros (_&(_&_&_&_&Hw')&_&Hi&_)%observation_check_wf. cbn in Hw', Hi. apply andb_true_iff. split.
    + destruct Hin as [[-> _]|(Hne&_)]; [done|]. apply String.eqb_neq in Hne. rewrite Hne in Hi.
      destruct Hi as [[[=] _]|(u&v&[= <-]&?&_)]. apply Z.leb_le. lia.
    + destruct (rfc9421_verified o) as [v|]; [|done]. destruct (Hw' v eq_refl). by apply Z.leb_le.
  - intros [Hl Hv]%andb_true_iff. apply Z.leb_le in Hl. apply observation_wf_check. unfold observation_wf; simpl. rewrite !within_some.
    assert (Hver : within 0 t (rfc9421_verified o)).
    { intros v Hv'. rewrite Hv' in Hv. destruct (Hw v Hv'). simpl in Hv. apply Z.leb_le in Hv. lia. }
    destruct Hin as [[-> ->]|(Hne&Hl1&Hst&Hnn)]; [str_consts; cbn iota|rewrite (proj2 (String.eqb_neq _ _) Hne)];
      rewrite ?within_some, ?within_none; split_and!; try done; try lia.
    + right; left. split; [done|by exists t].
    + by left.
    + by left.
    + right; left. split; [done|by exists t].
    + right. exists (promotion_inbox intent), t. by split_and!.
    + right. split; [done|split; [done|by eexists]].
Qed.

Lemma resolved_check a t r : candidate_check a r = true → last_checked r ≤ t → candidate_check a (resolved_candidate t r) = true.
Proof.
  intros (Hl&Hfs&Hup&Hls&Hn&_)%candidate_check_wf Ht. apply candidate_check_wf. unfold candidate_wf, resolved_candidate.
  cbn [candidate_base candidate_state last_failure first_seen last_checked last_success failure_count candidate_updated].
  rewrite within_some. split_and!; try done; try lia; by eexists.
Qed.
End Promotion.

Section PromotionKept.
Context `{RelayIdentity}.

Lemma sbind_assoc {S A B C} (m : Session S A) (k : A → Session S B) (k' : B → Session S C) st :
  (m ≫= λ a, k a ≫= k') st = ((m ≫= k) ≫= k') st.
Proof. rewrite !sbind_run. by destruct (m st) as [[a|e] st']. Qed.

Lemma transact_unless_plain {S A} commitAction (skipped : A) (body : Session S (option A)) s :
  transact_unless plain_call commitAction skipped body s =
  match body (s, []) with
  | (Ok (Some a), (s', [])) => (Ok a, s')
  | (Ok (Some a), (s', true :: _)) => (Err (storageFailure commitAction ErrBackend), s)
  | (Ok (Some a), (s', false :: _)) => (Ok a, s')
  | (Ok None, _) => (Ok skipped, s)
  | (Err e, _) => (Err e, s)
  end.
Proof.
  unfold transact_unless, plain_call. cbn [configured admission outcomes negb]. session_run.
  destruct (body (s, [])) as [[[x|]|e] [s' [|[] fs]]]; done.
Qed.

(** The observation written over the store of the event. *)
Lemma observation_at_same a t d d' : observations d' = observations d → observation_at a t d' = observation_at a t d.
Proof. unfold observation_at. by intros ->. Qed.

Lemma update_observation_refused a f t w : observation_check a (f (observation_at a t w)) = false →
  update_observation a f (match observations w !! a with Some _ => w | None => put_observation a (empty_observation t) w end) = None.
Proof.
  unfold observation_at, update_observation. destruct (observations w !! a) as [o|] eqn:Ho; intros Hc.
  - by rewrite Ho, Hc.
  - by rewrite lookup_put_observation, Hc.
Qed.

Lemma promotion_identity intent s r : candidate_inv s → validateDiscoveryCandidatePromotionIntent intent = true →
  candidates s !! promotion_actor intent = Some r →
  canonical_identity (promotion_actor intent) (promotion_base intent) = true ∧ 1 ≤ len (promotion_actor intent) ≤ 4096 ∧
  short_base (promotion_base intent) = true ∧ candidate_base r = promotion_base intent.
Proof.
  intros Hs (Hid&_)%validate_promotion_spec Hr. destruct (candidates_rows _ Hs _ _ Hr) as (Hc&Hb&_).
  apply candidate_check_wf in Hc as ((Hl&Hl2)&_). pose proof (canonical_identity_base _ _ _ Hb Hid) as Heq. rewrite Heq in Hl2.
  split_and!; try done; try lia. unfold short_base. bool_lia.
Qed.

Theorem PromoteDiscoveryCandidate_keeps intent observedAt s : candidate_inv s →
  PromoteDiscoveryCandidate plain_call intent observedAt s = PromoteDiscoveryCandidate_promise intent observedAt s.
Proof.
  intros Hs. unfold PromoteDiscoveryCandidate, PromoteDiscoveryCandidate_promise, observationUnix. set (t := unix_of observedAt).
  destruct (validateDiscoveryCandidatePromotionIntent intent) eqn:Hv; [|done]. cbn [negb]. destruct (Z.ltb_spec t 0) as [|Ht]; [done|].
  rewrite transact_unless_plain. unfold PromoteDiscoveryCandidate_tx, selectDiscoveryCandidate. session_run. unfold promotion_current.
  destruct (candidates s !! promotion_actor intent) as [r|] eqn:Hr; [|done].
  rewrite (Z.ltb_antisym t). destruct (candidate_state r ≟ DiscoveryCandidateResolved); [done|]. cbn [negb andb orb].
  destruct (t <=? last_checked r) eqn:Hlc; [done|]. cbn [negb andb].
  destruct (promotion_identity _ _ _ Hs Hv Hr) as (Hid&Hl&Hb&Hbase). pose proof (validate_promotion_spec _ Hv) as (_&Hau&_).
  pose proof (candidates_db _ Hs) as Hd. set (a := promotion_actor intent) in *.
  unfold selectDiscovery, selectObservation. session_run. rewrite on_db_run. tx_run. cbn [working faults]. rewrite with_candidate_db_same. session_run.
  rewrite discovery_timely_run. session_run. destruct (Z.leb_spec (discovery_evidence a (candidate_db s)) t) as [Hev|]; [|done].
  cbn [negb andb]. rewrite (sbind_assoc _ (λ action, on_db (insertDiscoveryEvent a action (promotion_audit intent) t))).
  rewrite sbind_run.
  pose proof (promoted_event_run intent t s Hd Ht Hev Hid Hl Hb Hau) as Hrun. fold a in Hrun. rewrite Hrun. session_run. rewrite on_db_run. tx_run. cbn [working faults candidate_db with_candidate_db].
  set (d1 := promoted_event_db intent t (candidate_db s)). 
  session_run. rewrite on_db_run. cbn [candidate_db with_candidate_db].
  pose proof (promoted_event_observations intent t (candidate_db s)) as Hobs. pose proof (promoted_event_retained intent t (candidate_db s)) as Hret. fold d1 a in Hobs, Hret.
  rewrite currentOrEmptyObservation_run by done. cbn [working faults]. session_run.
  rewrite (observation_at_same a t (candidate_db s) d1) by done. rewrite actor_checked_at.
  destruct (match actor_checked (candidate_db s) a with Some v => t <=? v | None => false end); [done|]. cbn [negb andb].
  session_run. rewrite on_db_run. tx_run. cbn [candidate_db with_candidate_db].
  assert (Hoc : observation_check a (observation_at a t (candidate_db s)) = true).
  { apply observation_at_check; [|done|done]. intros o Ho. by apply (inv_observations _ _ Hd) in Ho as [? _]. }
  pose proof (promoted_observation_check intent t _ Hv Ht Hoc) as Hpc. change (_ && _) with (recordable intent t (candidate_db s)) in Hpc. fold a in Hpc.
  rewrite <- (observation_at_same a t (candidate_db s) d1 Hobs) in Hpc. fold a.
  destruct (recordable intent t (candidate_db s)).
  2:{ rewrite update_observation_refused by done. done. }
  rewrite update_current_run by done. session_run. cbn [working faults]. unfold update_candidate. cbn [candidates with_candidate_db].
  destruct (candidates_rows _ Hs _ _ Hr) as (Hck&_). fold a. rewrite Hr. apply Z.leb_gt in Hlc. rewrite resolved_check by (done || lia). session_run.
  rewrite insert_candidate_event_run by done. session_run. unfold promoted_store, promoted_db. fold a d1.
  by rewrite (observation_at_same a t (candidate_db s) d1).
Qed.
End PromotionKept.

(** ** Disturbed calls *)

(** [robust m]: driver outcomes leave the answer and the state as they are
    undisturbed, or fail the session with a storage error. *)
Record robust {S A} (m : Session S A) : Prop := {
  robust_faults : ∀ s fs,
    ((m (s, fs)).1 = (m (s, [])).1 ∧ (m (s, fs)).2.1 = (m (s, [])).2.1) ∨ (∃ e, (m (s, fs)).1 = Err e ∧ storage_error e = true);
  robust_free : ∀ s, (m (s, [])).2.2 = [] }.

Section Robust.
Context {S : Type}.

Lemma robust_ret {A} (a : A) : robust (mret a : Session S A).
Proof. by split; [left|]. Qed.
Lemma robust_fail {A} e : robust (fail e : Session S A).
Proof. by split; [left|]. Qed.
Lemma robust_driver : robust (call_driver : Session S unit).
Proof. split; [|done]. intros s [|[] fs]; cbn; [by left|right; by eexists|by left]. Qed.
Lemma robust_read {A} (f : S → A) : robust (read_state f).
Proof. by split; [left|]. Qed.
Lemma robust_statement {A} (st : S → option (S * A)) : robust (run_statement st).
Proof. split; intros s; [left|]; unfold run_statement; cbn [fst snd]; by destruct (st s) as [[s1 a1]|]. Qed.
Lemma robust_bind {A B} (m : Session S A) (k : A → Session S B) : robust m → (∀ a, robust (k a)) → robust (m ≫= k).
Proof.
  intros [Hm Hf] Hk. split.
  - intros s fs. rewrite !sbind_run. specialize (Hm s fs). specialize (Hf s).
    destruct (m (s, fs)) as [r1 [s1 fs1]], (m (s, [])) as [r0 [s0 fs0]]; simpl in *; subst.
    destruct Hm as [[-> ->]|(e&->&He)]; [|right; by exists e]. destruct r0 as [a|e]; [|by left]. apply (robust_faults _ (Hk a)).
  - intros s. rewrite sbind_run. specialize (Hf s). destruct (m (s, [])) as [[a|e] [s0 fs0]]; simpl in *; subst; [apply (robust_free _ (Hk a))|done].
Qed.
Lemma robust_failing {A} action (m : Session S A) : robust m → robust (failing action m).
Proof.
  intros [Hm Hf]. split.
  - intros s fs. rewrite !failing_run. specialize (Hm s fs).
    destruct (m (s, fs)) as [[a1|e1] [s1 fs1]], (m (s, [])) as [[a0|e0] [s0 fs0]]; simpl in *;
      destruct Hm as [[Hr ->]|(e&Hr&He)]; try done; try (left; by injection Hr as ->); right; by eexists.
  - intros s. rewrite failing_run. specialize (Hf s). by destruct (m (s, [])) as [[a|e] [s0 fs0]].
Qed.
Lemma robust_select {A} (f : S → A) : robust (select f).
Proof. apply robust_bind; [apply robust_driver|intros _; apply robust_read]. Qed.
Lemma robust_execute {A} (st : S → option (S * A)) : robust (execute st).
Proof. apply robust_bind; [apply robust_driver|intros _; apply robust_statement]. Qed.
Lemma robust_ensure ok e : robust (ensure ok e : Session S unit).
Proof. destruct ok; [apply robust_ret|apply robust_fail]. Qed.
End Robust.

Lemma robust_on_db {A} (m : Tx A) : TxBody m → robust (on_db m).
Proof.
  intros [Hm Hd]. split.
  - intros s fs. unfold on_db; cbn [fst snd]. pose proof (final_faults _ Hm (candidate_db s) (candidate_db s) fs) as Hf.
    destruct (m (TX _ _ fs)) as [r1 [d1 w1 f1]], (m (TX _ _ [])) as [r0 [d0 w0 f0]]; simpl in *.
    destruct Hf as [(->&_&->)|(e&->&He&_)]; [by left|right; by exists e].
  - intros s. unfold on_db; cbn [fst snd]. pose proof (final_free _ Hm (candidate_db s) (candidate_db s)) as Hf.
    by destruct (m (TX _ _ [])) as [r0 [d0 w0 f0]].
Qed.
Lemma robust_timely a t current : robust (discovery_timely a t current).
Proof.
  destruct (robust_on_db _ (body_requireDiscoveryTime a t current)) as [Hm Hf]. split.
  - intros s fs. unfold discovery_timely. specialize (Hm s fs). destruct (on_db _ (s, fs)) as [r1 [s1 f1]], (on_db _ (s, [])) as [r0 [s0 f0]]; simpl in *.
    destruct Hm as [[-> ->]|(e&->&He)]; [left; by destruct r0 as [|[]]|right; exists e; by destruct e].
  - intros s. unfold discovery_timely. specialize (Hf s). destruct (on_db _ (s, [])) as [[|e] [s0 f0]]; simpl in *; [done|]. by destruct e.
Qed.

Ltac robust :=
  repeat (intros;
    lazymatch goal with
    | |- robust (_ ≫= _) => apply robust_bind
    | |- robust (failing _ _) => apply robust_failing
    | |- robust (on_db _) => apply robust_on_db; tx_calls
    | |- robust (discovery_timely _ _ _) => apply robust_timely
    | |- robust (match ?x with _ => _ end) => destruct x
    | |- robust (select _) => apply robust_select
    | |- robust (execute _) => apply robust_execute
    | |- robust (ensure _ _) => apply robust_ensure
    | |- robust (mret _) => apply robust_ret
    | |- robust (fail _) => apply robust_fail
    | |- robust call_driver => apply robust_driver
    | |- robust _ => assumption
    end).

(** The call does what it does undisturbed, or is refused for an outside reason. *)
Definition candidate_settles {A} (run : call → candidate_store → result error A * candidate_store) : Prop :=
  ∀ c s, run c s = run plain_call s ∨ (∃ e, run c s = (Err e, s) ∧ disturbed e = true).

Lemma transact_unless_settles {A} commitAction (skipped : A) (body : Session candidate_store (option A)) : robust body →
  candidate_settles (λ c, transact_unless c commitAction skipped body).
Proof.
  intros Hb c s. unfold transact_unless at 1 3. destruct (configured c); [|right; by eexists]. cbn [negb].
  destruct (admission c) as [e|]; [right; by eexists|]. unfold transact_unless, plain_call. cbn [configured admission outcomes negb].
  set (whole := failing "begin transition" call_driver ;; _). assert (Hw : robust whole) by (unfold whole; robust).
  pose proof (robust_faults _ Hw s (outcomes c)) as Hf.
  destruct (whole (s, outcomes c)) as [r1 [s1 f1]], (whole (s, [])) as [r0 [s0 f0]]; simpl in Hf.
  destruct Hf as [[-> ->]|(e&->&He)]; [by left; destruct r0 as [[|]|]|]. right. exists e. split; [done|]. by destruct e.
Qed.
Lemma transact_settles {A} commitAction (body : Session candidate_store A) : robust body →
  candidate_settles (λ c, transact c commitAction body).
Proof.
  intros Hb c s. unfold transact at 1 3, transact_as at 1 2. destruct (configured c); [|right; by eexists]. cbn [negb].
  destruct (admission c) as [e|]; [right; by eexists|]. unfold transact, transact_as, plain_call. cbn [configured admission outcomes negb].
  set (whole := failing "begin transition" call_driver ;; _). assert (Hw : robust whole) by (unfold whole; robust).
  pose proof (robust_faults _ Hw s (outcomes c)) as Hf.
  destruct (whole (s, outcomes c)) as [r1 [s1 f1]], (whole (s, [])) as [r0 [s0 f0]]; simpl in Hf.
  destruct Hf as [[-> ->]|(e&->&He)]; [by left; destruct r0|]. right. exists e. split; [done|]. by destruct e.
Qed.

(** ** Calls over the candidate store *)

Section Calls.
Context `{RelayIdentity}.

Inductive candidate_call :=
| CallRetain (intent : DiscoveryCandidateIntent)
| CallPromote (intent : DiscoveryCandidatePromotionIntent).
Definition candidate_perform (c : call) (o : candidate_call) (t : Z) : candidate_store → result error string * candidate_store :=
  match o with CallRetain intent => RetainDiscoveryCandidate c intent t | CallPromote intent => PromoteDiscoveryCandidate c intent t end.
Definition candidate_promised (o : candidate_call) (t : Z) : candidate_store → result error string * candidate_store :=
  match o with
  | CallRetain intent => RetainDiscoveryCandidate_promise intent t
  | CallPromote intent => PromoteDiscoveryCandidate_promise intent t
  end.

Lemma candidate_perform_plain o t s : candidate_inv s → candidate_perform plain_call o t s = candidate_promised o t s.
Proof. destruct o; [apply RetainDiscoveryCandidate_keeps|apply PromoteDiscoveryCandidate_keeps]. Qed.

Lemma candidate_perform_settles o t : candidate_settles (λ c, candidate_perform c o t).
Proof.
  intros c s. destruct o as [intent|intent]; cbn [candidate_perform].
  - unfold RetainDiscoveryCandidate. destruct (negb _); [by left|]. destruct (transitionUnix t) as [u|]; [|by left].
    apply (transact_settles _ (RetainDiscoveryCandidate_tx intent u)).
    unfold RetainDiscoveryCandidate_tx, selectDiscoveryCandidate, insertDiscoveryCandidateEvent. robust.
  - unfold PromoteDiscoveryCandidate. destruct (negb _); [by left|]. destruct (observationUnix t) as [u|]; [|by left].
    apply (transact_unless_settles _ _ (PromoteDiscoveryCandidate_tx intent u)).
    unfold PromoteDiscoveryCandidate_tx, selectDiscoveryCandidate, insertDiscoveryCandidateEvent, write_promoted. robust.
    all: first [apply body_selectDiscovery | apply body_insertDiscoveryEvent].
Qed.

(** C11: Refinement. On a valid store every retention and every promotion returns
    exactly the promised outcome and store, or is refused for an outside reason
    (missing configuration, write admission, the driver) and changes nothing. *)
Theorem candidate_calls_refine_promise c o t s : candidate_inv s →
  candidate_perform c o t s = candidate_promised o t s ∨ (∃ e, candidate_perform c o t s = (Err e, s) ∧ disturbed e = true).
Proof. intros Hs. rewrite <- candidate_perform_plain by done. apply (candidate_perform_settles o t). Qed.

(** ** The promises keep the invariant *)

Lemma promoted_db_ok intent t d r a : a = promotion_actor intent → db_ok d → validateDiscoveryCandidatePromotionIntent intent = true → 0 ≤ t →
  candidate_check a r = true → canonical_identity a (candidate_base r) = true → discovery_evidence a d ≤ t →
  match actor_checked d a with Some v => t <=? v | None => false end = false → recordable intent t d = true → db_ok (promoted_db intent t d).
Proof.
  intros -> Hd Hv Ht ((Hl&Hbl)&_)%candidate_check_wf Hb Hev Hchk Hrec. pose proof (validate_promotion_spec _ Hv) as (Hid&Hau&_).
  set (a := promotion_actor intent) in *. rewrite (canonical_identity_base _ _ _ Hb Hid) in Hbl.
  assert (Hshort : short_base (promotion_base intent) = true) by (unfold short_base; bool_lia).
  assert (Hd1 : db_ok (promoted_event_db intent t d)).
  { unfold promoted_event_db, promoted_discovery. fold a. destruct (discoveries d !! a) as [x|] eqn:Hx; [destruct (_ ≟ _)|]; apply inv_log_discovery; try done.
    - apply inv_put_discovery; [done| |done]. eapply discovery_transition_check; [done..|by eapply discovery_evidence_le|done].
    - apply inv_put_discovery; [done| |done]. rewrite new_discovery_check by lia. rewrite Hshort, (proj2 (Z.leb_le _ 4096)) by lia. done. }
  pose proof (promoted_event_observations intent t d) as Hobs. unfold promoted_db. fold a.
  assert (Hoc : observation_check a (observation_at a t d) = true).
  { apply observation_at_check; [|done|done]. intros o Ho. by apply (inv_observations _ _ Hd) in Ho as [? _]. }
  apply (inv_put_observation nothing_pending); [done| |apply promoted_event_retained|done| |].
  - pose proof (promoted_observation_check intent t _ Hv Ht Hoc) as Hp. fold a in Hp. rewrite Hp. exact Hrec.
  - intros v Hver. cbn in Hver. apply (inv_verified _ _ Hd1 a (observation_at a t d)); [|done]. rewrite Hobs. unfold observation_at in *.
    by destruct (observations d !! a).
  - rewrite Hobs. intros o c Ho Hc. exists t. split; [done|]. unfold actor_checked in Hchk. rewrite Ho in Hchk. cbn in Hchk. rewrite Hc in Hchk.
    apply Z.leb_gt in Hchk. lia.
Qed.

Lemma candidate_promised_ok o t s out s' : candidate_inv s → candidate_promised o t s = (out, s') → candidate_inv s'.
Proof.
  intros Hs. destruct o as [intent|intent]; cbn [candidate_promised].
  - unfold RetainDiscoveryCandidate_promise. destruct (validateDiscoveryCandidateIntent intent) eqn:Hv; [|by intros [= _ <-]]. cbn [negb].
    destruct (Z.ltb_spec (unix_of t) 0); [by intros [= _ <-]|]. pose proof (validate_candidate_spec _ Hv) as (Hid&Hau&Hst&Hres&Hf&Hsf).
    pose proof (canonical_actor_nonempty _ (canonical_identity_actor _ _ Hid)) as Hl1.
    assert (Hw : ∀ row action, candidate_check (candidate_intent_actor intent) row = true →
      candidate_base row = candidate_intent_base intent → last_failure row = Some (candidate_intent_failure intent) → 1 ≤ failure_count row →
      one_of [discoveryCandidateAdded; discoveryCandidateUpdated; discoveryCandidateResolved] action = true →
      candidate_inv (retained_store intent (unix_of t) row action s)).
    { intros row action Hc Hb Hlf Hn Ha. unfold retained_store. rewrite <- (with_candidate_db_same s) at 1.
      apply inv_write; [done|apply Hs|done|by rewrite Hb|done|intros _; by rewrite Hlf; eexists|done|].
      apply candidate_event_check_valid; try done. apply candidate_check_wf in Hc as ((?&_)&_). done. }
    destruct (candidates s !! candidate_intent_actor intent) as [r|] eqn:Hr.
    + destruct (candidates_rows _ Hs _ _ Hr) as (Hc&Hb&Hn&_). destruct (Z.leb_spec (last_checked r) (unix_of t)); [|by intros [= _ <-]].
      intros [= _ <-]. apply Hw; try done; [by apply failed_candidate_check|]. cbn. lia.
    + destruct ((len _ <=? 4096) && _) eqn:Hfit; [|by intros [= _ <-]]. intros [= _ <-]. apply Hw; try done. by rewrite new_candidate_check.
  - unfold PromoteDiscoveryCandidate_promise. destruct (validateDiscoveryCandidatePromotionIntent intent) eqn:Hv; [|by intros [= _ <-]]. cbn [negb].
    destruct (Z.ltb_spec (unix_of t) 0); [by intros [= _ <-]|].
    unfold promotion_current. destruct (candidates s !! promotion_actor intent) as [r|] eqn:Hr; [|by intros [= _ <-]].
    destruct (_ && _) eqn:Hcur; [|by intros [= _ <-]]. rewrite !andb_true_iff, !negb_true_iff in Hcur. destruct Hcur as (((Hres&Hlc)&Hev)&Hchk).
    destruct (recordable _ _ _) eqn:Hrec; [|by intros [= _ <-]]. intros [= _ <-]. bool_facts.
    destruct (candidates_rows _ Hs _ _ Hr) as (Hc&Hb&Hn&_). pose proof (validate_promotion_spec _ Hv) as (Hid&Hau&_).
    pose proof (candidate_check_wf (promotion_actor intent) r) as [Hwf _]. destruct (Hwf Hc) as ((Hl&_)&_).
    unfold promoted_store. apply inv_write; try done.
    + eapply promoted_db_ok; try done. apply Hs.
    + apply resolved_check; [done|lia].
    + by apply candidate_event_check_valid.
Qed.

End Calls.
