(* ===== verification/CandidateFacts.v ===== *)
(** * CandidateFacts: the candidate listing and the maintenance run

    Following the pages of [DiscoveryCandidateChecks] lists every due candidate once
    and in order; the run of [internal/candidatemaintenance] stays within its bound
    over any repository, counts every candidate it scans, and over the repository of
    [Candidates] settles what it finds. *)
From S2P Require Import Prelude Identity Vocabulary Store Repository Session Paging Discovery Reachability Candidates Invariant Contract Refinement CandidateContract.
Local Open Scope string_scope.
Local Open Scope Z_scope.
Local Open Scope go_scope.
Local Open Scope list_scope.

(** ** Due candidates *)

(** The check a due row decodes to. *)
Definition check_of (row : due_row) : DiscoveryCandidateCheck :=
  let r := due_candidate row in
  let e := due_event row in
  CandidateCheck (due_actor row) (candidate_base r) (candidate_state r) (default "" (last_failure r)) (first_seen r) (last_checked r)
    (last_success r) (failure_count r) (due_next row)
    {| audit_operator := ce_operator e; audit_reason := ce_reason e; audit_source_kind := ce_source_kind e;
       audit_source_label := default "" (ce_source_label e) |}.
Definition due_now (now : Z) (s : candidate_store) : list due_row := List.filter (λ row, due_next row <=? now) (due_rows s).
Definition candidate_position (c : candidate_cursor) : Z * string := (NextCheckUnix c, CandidateURL c).

Lemma candidate_cursor_eqb_eq x y : candidate_cursor_eqb x y = true ↔ x = y.
Proof.
  destruct x, y. unfold candidate_cursor_eqb; simpl. rewrite andb_true_iff, Z.eqb_eq, String.eqb_eq.
  split; [by intros [-> ->]|by intros [= -> ->]].
Qed.

Lemma retry_seconds_delay n : 1 ≤ n → retry_seconds n = seconds_of (DiscoveryCandidateRetryDelay n) ∧ 0 < DiscoveryCandidateRetryDelay n ∧ 21600 ≤ retry_seconds n.
Proof.
  intros Hn. unfold retry_seconds, DiscoveryCandidateRetryDelay.
  destruct (Z.eqb_spec n 1); [by vm_compute|]. destruct (Z.eqb_spec n 2); [by vm_compute|]. destruct (Z.eqb_spec n 3); [by vm_compute|].
  destruct (Z.eqb_spec n 4); [by vm_compute|]. rewrite (proj2 (Z.leb_le 5 n)) by lia. by vm_compute.
Qed.

Lemma candidate_due_rows s row : In row (due_rows s) ↔
  candidates s !! due_actor row = Some (due_candidate row) ∧ candidate_state (due_candidate row) ≠ DiscoveryCandidateResolved ∧
  1 ≤ failure_count (due_candidate row) ∧ due_next row = last_checked (due_candidate row) + retry_seconds (failure_count (due_candidate row)) ∧
  first_candidate_event (due_actor row) s = Some (due_event row).
Proof.
  unfold due_rows. rewrite <- list_elem_of_In, list_elem_of_omap. split.
  - intros ([a r]&Hin%elem_of_map_to_list&Hrow). destruct (_ && _) eqn:E; [|done]. bool_facts.
    destruct (first_candidate_event a s) as [e|] eqn:He; [|done]. by injection Hrow as <-.
  - destruct row as [a r n e]. cbn. intros (Hr&Hst&Hn&->&He). exists (a, r). split; [by apply elem_of_map_to_list|].
    rewrite (proj2 (String.eqb_neq _ _) Hst), (proj2 (Z.leb_le _ _) Hn), He. done.
Qed.

Lemma due_rows_actors s : NoDup (due_actor <$> due_rows s).
Proof.
  assert (Hk : NoDup (map_to_list (candidates s)).*1) by apply NoDup_fst_map_to_list. unfold due_rows.
  induction (map_to_list (candidates s)) as [|[a r] l IH]; [constructor|]. apply list.NoDup_cons in Hk as [Ha Hk]. specialize (IH Hk).
  cbn [omap list_omap]. destruct (_ && _); [|done]. destruct (first_candidate_event a s) as [e|]; [|done]. cbn. constructor; [|done].
  intros (row&->&Hrow)%list_elem_of_fmap. apply Ha. apply list_elem_of_omap in Hrow as ([b x]&Hin&Hrow). apply list_elem_of_fmap. exists (b, x).
  split; [|done]. destruct (_ && _); [|done]. destruct (first_candidate_event b s); [|done]. by injection Hrow as <-.
Qed.
Lemma due_now_keys now s : NoDup (due_key <$> due_now now s).
Proof.
  unfold due_now, due_key. apply (NoDup_fmap_1 snd). rewrite <- list_fmap_compose.
  change (snd ∘ (λ row, (due_next row, due_actor row))) with due_actor.
  assert (Hs : sublist (List.filter (λ row, due_next row <=? now) (due_rows s)) (due_rows s)).
  { induction (due_rows s) as [|x l IH]; [constructor|]. cbn. destruct (_ <=? _); by constructor. }
  eapply sublist_NoDup; [apply due_rows_actors|by apply fmap_sublist || by apply sublist_fmap].
Qed.

Section Listing.
Context `{RelayIdentity}.

Lemma event_audit_valid e : candidate_event_check e = true →
  valid_audit {| audit_operator := ce_operator e; audit_reason := ce_reason e; audit_source_kind := ce_source_kind e;
                 audit_source_label := default "" (ce_source_label e) |} = true.
Proof.
  unfold candidate_event_check, valid_audit. rewrite !andb_true_iff. intros Hc. destruct_and! Hc. cbn.
  rewrite ValidOperatorID_check, ValidModerationReasonCode_check, ValidDiscoverySourceLabel_check. split_and!; try done.
  destruct (ce_source_label e) as [l|]; [|done]. cbn in *. by destruct (String.eqb_spec l "") as [->|].
Qed.
Lemma first_event_check a s e : candidate_inv s → first_candidate_event a s = Some e → candidate_event_check e = true.
Proof.
  intros Hs He. pose proof (candidates_events _ Hs) as Hev. apply find_some in He as [He _].
  rewrite List.Forall_forall in Hev. by apply Hev.
Qed.

Lemma due_row_facts now s row : candidate_inv s → In row (due_now now s) →
  canonical_identity (due_actor row) (candidate_base (due_candidate row)) = true ∧ 1 ≤ len (due_actor row) ∧
  0 ≤ last_checked (due_candidate row) ∧ last_checked (due_candidate row) ≤ due_next row ∧ 0 ≤ due_next row ≤ now.
Proof.
  intros Hs [(Hr&Hst&Hn&Hx&He)%candidate_due_rows Hle]%filter_In. apply Z.leb_le in Hle.
  destruct (candidates_rows _ Hs _ _ Hr) as (Hc&Hb&_). apply candidate_check_wf in Hc as (([Hl _]&_)&Hfs&_).
  destruct (retry_seconds_delay _ Hn) as (_&_&Hd). split_and!; try done; lia.
Qed.

Lemma decode_due now s row : candidate_inv s → now ≤ int64_max → In row (due_now now s) → decode_check now row = Ok (check_of row).
Proof.
  intros Hs Hmax Hrow. pose proof (due_row_facts _ _ _ Hs Hrow) as (Hid&_&Hlc&Hln&Hnx).
  apply filter_In in Hrow as [(Hr&Hst&Hn&Hx&He)%candidate_due_rows _].
  destruct (candidates_rows _ Hs _ _ Hr) as (Hc&Hb&_&Hf&_). destruct (Hf Hst) as [f Hlf].
  pose proof (candidate_check_wf (due_actor row) (due_candidate row)) as [Hwf _]. destruct (Hwf Hc) as (_&Hfs&_&_&_&Hval&Hfv&Hsf&_).
  unfold decode_check. rewrite Hlf. change (CandidateCheck _ _ _ _ _ _ _ _ _ _) with
    (CandidateCheck (due_actor row) (candidate_base (due_candidate row)) (candidate_state (due_candidate row)) (default "" (Some f)) (first_seen (due_candidate row))
       (last_checked (due_candidate row)) (last_success (due_candidate row)) (failure_count (due_candidate row)) (due_next row)
       {| audit_operator := ce_operator (due_event row); audit_reason := ce_reason (due_event row); audit_source_kind := ce_source_kind (due_event row);
          audit_source_label := default "" (ce_source_label (due_event row)) |}).
  rewrite <- Hlf. fold (check_of row). rewrite Hlf in Hfv, Hsf.
  assert (Hchk : validDiscoveryCandidateCheck (check_of row) now = true); [|by rewrite Hchk].
  unfold validDiscoveryCandidateCheck, check_of. cbn [check_actor check_base check_state check_failure check_first_seen check_last_checked check_failure_count check_next check_audit].
  rewrite Hid, Hlf, event_audit_valid by (by eapply first_event_check). change (default "" (Some f)) with f.
  destruct (retry_seconds_delay _ Hn) as (Hrs&Hpos&Hge). rewrite (proj2 (Z.ltb_lt _ _) Hpos), <- Hrs.
  rewrite int64_add_small by (unfold int64_min; lia). rewrite <- Hx, Z.eqb_refl. assert (Hfv' : CandidateFailure_Valid f = true) by exact Hfv. rewrite Hfv'.
  assert (Hst2 : (candidate_state (due_candidate row) ≟ DiscoveryCandidateUnreachable) || (candidate_state (due_candidate row) ≟ DiscoveryCandidateIncompatible) = true).
  { unfold state_failure in Hsf. apply orb_true_iff in Hsf as [Hsf|Hsf]; apply andb_true_iff in Hsf as [-> _]; [done|by rewrite orb_true_r]. }
  rewrite Hst2. cbn [andb]. bool_lia.
Qed.

(** ** Pages *)

Definition accepted_cursor (now : Z) (c : candidate_cursor) : Prop :=
  c = candidate_start ∨ (0 ≤ NextCheckUnix c ≤ now ∧ CandidateURL c ≠ "").

Lemma due_now_check now s row : candidate_inv s → In row (due_now now s) →
  accepted_cursor now (check_cursor (check_of row)) ∧ candidate_position (check_cursor (check_of row)) = due_key row ∧
  check_cursor (check_of row) ≠ candidate_start.
Proof.
  intros Hs Hrow. destruct (due_row_facts _ _ _ Hs Hrow) as (_&Hl&_&_&Hn). unfold check_cursor, check_of, candidate_position, due_key, candidate_start. cbn.
  assert (due_actor row ≠ "") by (intros He; rewrite He in Hl; by destruct Hl). split_and!; [right; cbn; split; [lia|done]|done|by intros [= _ ?]].
Qed.

Lemma start_key n a : 0 ≤ n → a ≠ "" → key_ltb (0, "") (n, a) = true.
Proof.
  intros Hn Ha. unfold key_ltb at 1; cbn. change (key_ltb 0 n) with (0 <? n). change (key_ltb n 0) with (n <? 0).
  destruct (Z.ltb_spec 0 n); [done|]. rewrite (proj2 (Z.ltb_ge n 0)) by lia. by destruct a.
Qed.
Lemma check_rows_keyset after limit t s : candidate_inv s → accepted_cursor (unix_of t) after →
  check_rows (CandidateQuery after limit t) s = keyset_rows due_key (candidate_position after) (Z.to_nat limit) (due_now (unix_of t) s).
Proof.
  intros Hs Ha. unfold check_rows, keyset_rows, rows_after. cbn [check_after check_limit check_observed]. f_equal.
  rewrite <- order_by_filter by apply due_now_keys. f_equal. unfold due_now.
  assert (Hff : ∀ (p q : due_row → bool) l, List.filter q (List.filter p l) = List.filter (λ x, p x && q x) l).
  { intros p q l. induction l as [|x l IH]; [done|]. cbn. destruct (p x); cbn; [destruct (q x)|]; by rewrite IH. }
  rewrite Hff. apply filter_same. intros row Hrow. destruct (due_next row <=? unix_of t) eqn:Hdue; [|done]. cbn [andb].
  destruct Ha as [->|[Hn Hne]]; [|by rewrite (proj2 (String.eqb_neq _ _) Hne)].
  symmetry. destruct (due_row_facts (unix_of t) s row Hs) as (_&Hl&_&_&[Hnx _]); [by apply filter_In|].
  assert (Hne : due_actor row ≠ "") by (intros He; rewrite He in Hl; by destruct Hl).
  unfold candidate_position, candidate_start, due_key. cbn. by apply start_key.
Qed.

Definition page_of_rows (page : list due_row * option (Z * string)) : candidate_page :=
  CandidatePage (map check_of page.1)
    (match page.2 with Some _ => match list.last page.1 with Some row => check_cursor (check_of row) | None => candidate_start end | None => candidate_start end).

Lemma checks_read after limit t s : candidate_inv s → 0 ≤ unix_of t ≤ int64_max → 0 < limit ≤ MaximumDiscoveryCandidatePage →
  accepted_cursor (unix_of t) after →
  DiscoveryCandidateChecks plain_call (CandidateQuery after limit t) s =
  Ok (page_of_rows (keyset_page due_key (candidate_position after) (Z.to_nat limit) (due_now (unix_of t) s))).
Proof.
  intros Hs Ht Hlim Ha. unfold DiscoveryCandidateChecks. cbn [check_after check_limit check_observed configured plain_call negb orb outcomes].
  assert (Hval : candidate_cursor_valid after = true).
  { unfold candidate_cursor_valid. destruct Ha as [->|[Hn Hne]]; [done|]. rewrite (proj2 (String.eqb_neq _ _) Hne). rewrite (proj2 (Z.leb_le 0 _)) by lia. by rewrite orb_true_r. }
  rewrite Hval, (proj2 (Z.leb_gt limit 0)), (proj2 (Z.ltb_ge _ limit)), (proj2 (Z.ltb_ge _ 0)) by lia. cbn [negb orb].
  assert (Hb : negb (candidate_cursor_eqb after candidate_start) && (unix_of t <? NextCheckUnix after) = false).
  { destruct Ha as [->|[Hn Hne]]; [done|]. rewrite (proj2 (Z.ltb_ge _ _)) by lia. by rewrite andb_false_r. }
  rewrite Hb. session_run. rewrite check_rows_keyset by done. unfold on_db. cbn [fst snd].
  rewrite (scan_keyset due_key _ _ _ check_of) by (done || lia || (intros; apply (decode_due _ s); [done|lia|done])).
  cbn [fst snd]. unfold page_of_rows. destruct (keyset_page _ _ _ _) as [kept [k|]]; cbn; rewrite list_last_map; by destruct (list.last kept).
Qed.

(** A reader that follows [Next] until it is the zero cursor. *)
Definition read_checks (limit t : Z) (s : candidate_store) (cursor : candidate_cursor) : result error (list DiscoveryCandidateCheck * option candidate_cursor) :=
  match DiscoveryCandidateChecks plain_call (CandidateQuery cursor limit t) s with
  | Ok page => Ok (page_candidates page, if candidate_cursor_eqb (page_next page) candidate_start then None else Some (page_next page))
  | Err e => Err e
  end.
Definition checks_walk (fuel : nat) (limit t : Z) (s : candidate_store) : result error (list DiscoveryCandidateCheck) :=
  read_all (read_checks limit t s) fuel candidate_start.

Lemma start_before now s : candidate_inv s →
  rows_after due_key (candidate_position candidate_start) (order_by due_key (due_now now s)) = order_by due_key (due_now now s).
Proof.
  intros Hs. apply filter_all_true. intros row Hrow%order_by_in. destruct (due_row_facts _ _ _ Hs Hrow) as (_&Hl&_&_&[Hn _]).
  assert (Hne : due_actor row ≠ "") by (intros He; rewrite He in Hl; by destruct Hl).
  unfold candidate_position, candidate_start, due_key. cbn. by apply start_key.
Qed.

Lemma checks_walk_rows fuel limit t s : candidate_inv s → 0 ≤ unix_of t ≤ int64_max → 0 < limit ≤ MaximumDiscoveryCandidatePage →
  (length (due_now (unix_of t) s) < fuel)%nat →
  checks_walk fuel limit t s = Ok (map check_of (order_by due_key (due_now (unix_of t) s))).
Proof.
  intros Hs Ht Hlim Hfuel. unfold checks_walk. rewrite <- (start_before (unix_of t) s Hs) at 1.
  apply (read_all_rows due_key check_of (λ row, check_cursor (check_of row)) candidate_position (accepted_cursor (unix_of t)) _ (Z.to_nat limit));
    [lia|apply due_now_keys| | |by left|].
  - intros row Hrow. by destruct (due_now_check _ _ _ Hs Hrow) as (?&?&_).
  - intros cur Hcur. unfold read_checks. rewrite checks_read by done.
    pose proof (keyset_page_in due_key (candidate_position cur) (Z.to_nat limit) (due_now (unix_of t) s)) as Hin.
    pose proof (keyset_page_next due_key (candidate_position cur) (Z.to_nat limit) (due_now (unix_of t) s) ltac:(lia)) as Hnext.
    destruct (keyset_page _ _ _ _) as [kept [k|]]; cbn in *; [|done].
    destruct Hnext as (kept' & x & rest & -> & -> & _). rewrite last_snoc. cbn.
    destruct (due_now_check (unix_of t) s x Hs) as (_&_&Hne); [apply Hin, in_or_app; right; by left|].
    destruct (candidate_cursor_eqb _ _) eqn:E; [by apply candidate_cursor_eqb_eq in E|done].
  - rewrite start_before by done. by rewrite (Permutation_length (order_by_perm _ _)).
Qed.

Definition check_key (c : DiscoveryCandidateCheck) : Z * string := (check_next c, check_actor c).

(** C12: Reading the candidate checks page by page lists every unresolved candidate
    whose retry delay has passed exactly once, with the columns of its row, the time
    it became due and the audit of its first event, ordered by that time and the
    candidate URL; no page of a valid store fails. *)
Theorem candidate_checks_complete limit t s :
  candidate_inv s → 0 ≤ unix_of t ≤ int64_max → 0 < limit ≤ MaximumDiscoveryCandidatePage →
  ∃ l, (∀ fuel, (length l < fuel)%nat → checks_walk fuel limit t s = Ok l) ∧ strictly_sorted check_key l ∧
       ∀ c, In c l ↔ ∃ r e, candidates s !! check_actor c = Some r ∧ first_candidate_event (check_actor c) s = Some e ∧
                            candidate_state r ≠ DiscoveryCandidateResolved ∧
                            last_checked r + seconds_of (DiscoveryCandidateRetryDelay (failure_count r)) ≤ unix_of t ∧
                            c = check_of (DueRow (check_actor c) r (last_checked r + seconds_of (DiscoveryCandidateRetryDelay (failure_count r))) e).
Proof.
  intros Hs Ht Hlim. set (rows := order_by due_key (due_now (unix_of t) s)). exists (map check_of rows). split_and!.
  - intros fuel Hfuel. apply checks_walk_rows; try done. rewrite length_map in Hfuel. unfold rows in Hfuel. by rewrite (Permutation_length (order_by_perm _ _)) in Hfuel.
  - assert (Hsort : strictly_sorted due_key rows) by apply order_by_sorted, due_now_keys. revert Hsort. unfold strictly_sorted.
    induction 1 as [|x l Hl IH Hf]; cbn; constructor; [done|]. rewrite List.Forall_forall in *. intros y (z&<-&Hz)%in_map_iff. by apply Hf.
  - intros c. rewrite in_map_iff. split.
    + intros (row&<-&[Hrow Hdue]%order_by_in%filter_In). apply candidate_due_rows in Hrow as (Hr&Hst&Hn&Hx&He). apply Z.leb_le in Hdue.
      destruct (retry_seconds_delay _ Hn) as (Hrs&_). exists (due_candidate row), (due_event row). rewrite <- Hrs, <- Hx. split_and!; try done; by destruct row.
    + intros (r&e&Hr&He&Hst&Hle&Hc). eexists. split; [symmetry; exact Hc|]. apply order_by_in, filter_In. split; [|by apply Z.leb_le].
      destruct (candidates_rows _ Hs _ _ Hr) as (_&_&Hn&_). destruct (retry_seconds_delay _ Hn) as (Hrs&_). apply candidate_due_rows. cbn.
      rewrite <- Hrs. split_and!; done.
Qed.
End Listing.

(** ** The maintenance run over any repository *)

Definition candidates_counted (r : CandidateResult) : Z := result_promoted r + result_unreachable r + result_incompatible r + result_skipped r.
Definition candidate_counts_ok (r : CandidateResult) : Prop :=
  0 ≤ result_promoted r ∧ 0 ≤ result_unreachable r ∧ 0 ≤ result_incompatible r ∧ 0 ≤ result_skipped r.
(** Everything counted, or stopped inside the last scanned candidate. *)
Definition candidate_progress (finished : bool) (r : CandidateResult) : Prop :=
  candidate_counts_ok r ∧ candidates_counted r ≤ result_scanned r ≤ candidates_counted r + (if finished then 0 else 1) ∧ result_truncated r = false.
(** What a finished run reports. *)
Definition candidate_report (t : Z) (r : CandidateResult) (e : option error) : Prop :=
  result_observed r = unix_of t ∧ candidate_counts_ok r ∧ 0 ≤ result_scanned r ≤ MaximumDiscoveryCandidateAttempts ∧
  candidates_counted r ≤ result_scanned r ≤ candidates_counted r + 1 ∧ (e = None → result_scanned r = candidates_counted r) ∧
  (result_truncated r = true → e = None ∧ result_scanned r = MaximumDiscoveryCandidateAttempts).

Lemma tally_promotion_counts outcome r r' : candidate_counts_ok r → tally_promotion outcome r = Some r' →
  candidate_counts_ok r' ∧ candidates_counted r' = candidates_counted r + 1 ∧ result_scanned r' = result_scanned r ∧
  result_truncated r' = result_truncated r ∧ result_observed r' = result_observed r.
Proof.
  destruct r as [o s p u i k b]. unfold candidate_counts_ok, candidates_counted, tally_promotion. cbn. intros Hc.
  repeat case_match; try done; intros [= <-]; cbn; split_and!; try done; lia.
Qed.
Lemma tally_failure_counts failure r state r' : candidate_counts_ok r → tally_failure failure r = Some (state, r') →
  candidate_counts_ok r' ∧ candidates_counted r' = candidates_counted r + 1 ∧ result_scanned r' = result_scanned r ∧
  result_truncated r' = result_truncated r ∧ result_observed r' = result_observed r.
Proof.
  destruct r as [o s p u i k b]. unfold candidate_counts_ok, candidates_counted, tally_failure. cbn. intros Hc.
  repeat case_match; try done; intros [= _ <-]; cbn; split_and!; try done; lia.
Qed.

Section RunFacts.
Context `{RelayIdentity} {W : Type} `{CandidateWorld W}.

Lemma scanned_progress r : candidate_progress true r → candidate_progress false (scanned_candidate r).
Proof. destruct r. unfold candidate_progress, candidate_counts_ok, candidates_counted. cbn. intros (?&?&?). split_and!; try done; lia. Qed.

Lemma candidate_progress_weaken r : candidate_progress true r → candidate_progress false r.
Proof. intros (?&?&?). split_and!; try done; lia. Qed.

Lemma write_page_progress probes t r w x w' : candidate_progress true r → write_page probes t r w = (x, w') →
  match x with
  | inl r' => candidate_progress true r' ∧ result_scanned r' = result_scanned r + Z.of_nat (length probes) ∧ result_observed r' = result_observed r
  | inr (r', _) => candidate_progress false r' ∧ result_scanned r ≤ result_scanned r' ≤ result_scanned r + Z.of_nat (length probes) ∧
                   result_observed r' = result_observed r
  end.
Proof.
  revert r w. induction probes as [|[c [intent|failure|e]] probes IH]; intros r w Hr; cbn [write_page].
  - intros [= <- <-]. split_and!; [done|cbn; lia|done].
  - pose proof (scanned_progress r Hr) as Hsc. destruct Hr as (Hc&Hn&Ht).
    destruct (candidate_promote _ t w) as [[outcome|e] w1]; [|intros [= <- <-]; split_and!; try done; cbn; destruct r; cbn; lia].
    destruct (tally_promotion outcome (scanned_candidate r)) as [r1|] eqn:Hty;
      [|intros [= <- <-]; split_and!; try done; cbn; destruct r; cbn; lia].
    apply tally_promotion_counts in Hty as (Hc1&Hn1&Hs1&Ht1&Ho1); [|apply Hsc]. intros Hrec. apply IH in Hrec.
    + destruct x as [r'|[r' e]]; destruct Hrec as (?&?&?); split_and!; try done; destruct r; cbn in *; try lia; congruence.
    + destruct r. unfold candidate_progress, candidates_counted in *; cbn in *. split_and!; try done; try lia; congruence.
  - pose proof (scanned_progress r Hr) as Hsc. destruct Hr as (Hc&Hn&Ht).
    destruct (tally_failure failure (scanned_candidate r)) as [[state r1]|] eqn:Hty;
      [|intros [= <- <-]; split_and!; try done; cbn; destruct r; cbn; lia].
    apply tally_failure_counts in Hty as (Hc1&Hn1&Hs1&Ht1&Ho1); [|apply Hsc].
    assert (Hr1 : candidate_progress true r1).
    { destruct r. unfold candidate_progress, candidates_counted in *; cbn in *. split_and!; try done; try lia; congruence. }
    destruct (candidate_retain _ t w) as [[outcome|e] w1].
    + intros Hrec. apply IH in Hrec; [|done].
      destruct x as [r'|[r' e]]; destruct Hrec as (?&?&?); split_and!; try done; destruct r; cbn in *; try lia; congruence.
    + intros [= <- <-]. split; [by apply candidate_progress_weaken|]. destruct r; cbn in *; split; [lia|done].
  - intros [= <- <-]. split; [by apply candidate_progress_weaken|]. cbn. split; [lia|done].
Qed.

Lemma candidate_progress_report t r e : candidate_progress (match e with None => true | _ => false end) r →
  result_scanned r ≤ MaximumDiscoveryCandidateAttempts → result_observed r = unix_of t → candidate_report t r e.
Proof.
  unfold candidate_progress, candidate_report, candidate_counts_ok, candidates_counted. intros (Hc&Hn&Ht) Hmax Ho.
  split_and!; try lia; try (destruct e; lia); [intros ->; lia|congruence].
Qed.

Lemma candidate_validate_length page after limit t : candidate_validatePage page after limit t = true →
  Z.of_nat (length (page_candidates page)) ≤ limit.
Proof. unfold candidate_validatePage. destruct (_ || _) eqn:E; [done|]. bool_facts. done. Qed.

Lemma candidate_loop_reports fuel t after r w : candidate_progress true r → result_observed r = unix_of t →
  result_scanned r ≤ MaximumDiscoveryCandidateAttempts → MaximumDiscoveryCandidateAttempts < result_scanned r + Z.of_nat fuel →
  ∃ r' e w', candidate_loop fuel t after r w = Some (r', e, w') ∧ candidate_report t r' e.
Proof.
  revert after r w. induction fuel as [|fuel IH]; intros after r w Hr Ho Hmax Hfuel; [lia|]. cbn [candidate_loop].
  pose proof (candidate_progress_weaken r Hr) as Hrw.
  destruct (Z.ltb_spec (result_scanned r) MaximumDiscoveryCandidateAttempts) as [Hlt|]; cbn [negb];
    [|eexists _, _, _; split; [done|by apply candidate_progress_report]].
  destruct (candidate_cancelled w); [eexists _, _, _; split; [done|by apply candidate_progress_report]|].
  set (limit := Z.min _ _). destruct (candidate_checks _ w) as [[page|e] w1];
    [|eexists _, _, _; split; [done|by apply candidate_progress_report]].
  destruct (candidate_validatePage page after limit t) eqn:Hv; cbn [negb];
    [|eexists _, _, _; split; [done|by apply candidate_progress_report]].
  apply candidate_validate_length in Hv. destruct (Nat.eqb_spec (length (page_candidates page)) 0) as [|Hne];
    [eexists _, _, _; split; [done|by apply candidate_progress_report]|].
  destruct (write_page _ t r (candidate_probed w1)) as [x w2] eqn:Hrec. pose proof (write_page_progress _ _ _ _ _ _ Hr Hrec) as Hp.
  unfold candidate_probePage in Hp. rewrite length_map in Hp.
  assert (Hlim : limit ≤ MaximumDiscoveryCandidateAttempts - result_scanned r) by (unfold limit; lia).
  destruct x as [r1|[r1 e1]]; destruct Hp as (Hp&Hs&Ho1); [|eexists _, _, _; split; [done|]; apply candidate_progress_report; [done|lia|congruence]].
  destruct (candidate_cursor_eqb (page_next page) candidate_start);
    [eexists _, _, _; split; [done|]; apply candidate_progress_report; [done|lia|congruence]|].
  destruct (Z.eqb_spec (result_scanned r1) MaximumDiscoveryCandidateAttempts) as [He|]; [|apply IH; [done|congruence|lia..]].
  eexists _, _, _. split; [done|]. destruct Hp as (Hc&Hn&Ht). destruct r1. unfold candidate_report, candidate_counts_ok, candidates_counted in *; cbn in *.
  split_and!; try lia; try done; congruence.
Qed.

(** C13: A maintenance run over any repository, prober and context terminates with a
    result: it scans at most 96 candidates, every scanned candidate is counted once
    as promoted, unreachable, incompatible or skipped (the one a failure stopped at
    excepted), and the result is truncated only when the run finished at the bound. *)
Theorem candidate_run_reports t w : ∃ r e w', candidate_Run t w = Some (r, e, w') ∧ candidate_report t r e.
Proof.
  unfold candidate_Run. cbn [result_observed]. destruct (unix_of t <? 0).
  - eexists _, _, _. split; [done|]. apply candidate_progress_report; [|done|done]. split_and!; done.
  - apply candidate_loop_reports; [split_and!; done|done|done|done].
Qed.
End RunFacts.

(** ** The run over the repository *)

Section RepositoryRun.
Context `{RelayIdentity}.

(** The repository of [Candidates] and a fixed prober, undisturbed. *)
Definition candidate_repository (p : candidate_prober) : CandidateWorld candidate_store := {|
  candidate_checks q s := (DiscoveryCandidateChecks plain_call q s, s);
  candidate_retain intent t s := RetainDiscoveryCandidate plain_call intent t s;
  candidate_promote intent t s := PromoteDiscoveryCandidate plain_call intent t s;
  candidate_world_prober _ := p;
  candidate_cancelled _ := false;
  candidate_admitted _ _ := true;
  candidate_cancelled_probe _ _ := false;
  candidate_probed s := s |}.

Lemma candidate_after_key x y : candidateCursorAfter x y = candidate_cursor_eqb y candidate_start || key_ltb (candidate_position y) (candidate_position x).
Proof.
  destruct x as [n a], y as [m b]. unfold candidateCursorAfter, candidate_position; cbn [NextCheckUnix CandidateURL]. unfold key_ltb at 2; cbn.
  change (key_ltb m n) with (m <? n). change (key_ltb n m) with (n <? m). destruct (candidate_cursor_eqb _ _); [done|]. cbn.
  destruct (Z.ltb_spec m n), (Z.ltb_spec n m), (Z.eqb_spec n m); cbn; try done; lia.
Qed.

Lemma validate_checks_rows now after rows s : candidate_inv s → (∀ row, In row rows → In row (due_now now s)) → accepted_cursor now after →
  strictly_sorted due_key rows → (∀ row, In row rows → key_ltb (candidate_position after) (due_key row) = true) →
  validate_checks now after (map check_of rows) = Some (match list.last rows with Some row => check_cursor (check_of row) | None => after end).
Proof.
  intros Hs. revert after. induction rows as [|row rows IH]; intros after Hin Ha Hsort Hk; [done|]. cbn [map validate_checks].
  destruct (due_now_check now s row Hs) as (Hacc&Hpos&_); [by apply Hin; left|].
  destruct (due_row_facts now s row Hs) as (_&_&_&_&Hn); [by apply Hin; left|]. inversion Hsort as [|? ? Hsort' Hf]; subst. rewrite List.Forall_forall in Hf.
  change (check_next (check_of row)) with (due_next row). rewrite (proj2 (Z.ltb_ge _ _)) by lia.
  rewrite candidate_after_key, Hpos, (Hk row) by by left. rewrite orb_true_r. cbn [negb orb].
  rewrite IH; [by rewrite last_cons; destruct (list.last rows)|intros r Hr; apply Hin; by right|done|done|].
  intros r Hr. rewrite Hpos. by apply Hf.
Qed.

(** Every page of the repository passes the run's own validation. *)
Lemma repository_checks_valid after limit t s page : candidate_inv s → 0 ≤ unix_of t ≤ int64_max → 0 < limit ≤ MaximumDiscoveryCandidatePage →
  accepted_cursor (unix_of t) after → DiscoveryCandidateChecks plain_call (CandidateQuery after limit t) s = Ok page →
  candidate_validatePage page after limit t = true.
Proof.
  intros Hs Ht Hlim Ha. rewrite checks_read by done. intros [= <-]. set (kp := keyset_page _ _ _ _).
  assert (Hlen : (length kp.1 <= Z.to_nat limit)%nat) by apply keyset_page_length.
  assert (Hin : ∀ row, In row kp.1 → In row (due_now (unix_of t) s) ∧ key_ltb (candidate_position after) (due_key row) = true)
    by (intros row; apply keyset_page_in).
  assert (Hsort : strictly_sorted due_key kp.1) by (apply keyset_page_sorted, due_now_keys).
  unfold candidate_validatePage, page_of_rows. cbn [page_candidates page_next]. rewrite length_map, !(proj2 (Z.ltb_ge _ _)) by lia. cbn [orb].
  destruct (list.last kp.1) as [row|] eqn:Hlast.
  - assert (Hne : Z.of_nat (length kp.1) ≠ 0) by (destruct kp.1; [done|cbn; lia]). rewrite (proj2 (Z.eqb_neq _ _) Hne).
    rewrite (validate_checks_rows (unix_of t) after kp.1 s), Hlast; [|done|intros r Hr; by apply Hin|done|done|intros r Hr; by apply Hin].
    destruct kp.2; [|done]. set (c := check_cursor _). by rewrite (proj2 (candidate_cursor_eqb_eq c c) eq_refl), orb_true_r.
  - apply last_None in Hlast. rewrite Hlast. cbn. by destruct kp.2.
Qed.

(** The promotion the run writes for a check carries the audit of the check. *)
Definition audited (c : DiscoveryCandidateCheck) (intent : DiscoveryCandidatePromotionIntent) : DiscoveryCandidatePromotionIntent := {|
  promotion_actor := promotion_actor intent; promotion_base := promotion_base intent; promotion_inbox := promotion_inbox intent;
  promotion_inbox_state := promotion_inbox_state intent; promotion_audit := check_audit c |}.

(** A promotion the observation columns refuse stops the whole run: when the
    first due candidate answers with an inbox URL longer than its column, or its
    observation already holds RFC 9421 evidence later than the start of the run, the
    run ends with the storage error after one candidate, nothing is written and no
    other candidate is looked at. *)
Theorem refused_promotion_stops_run p t s row rest intent : candidate_inv s → 0 ≤ unix_of t ≤ int64_max →
  order_by due_key (due_now (unix_of t) s) = row :: rest →
  candidate_probeOne false p (check_of row) = ProbePromotion intent → promotion_actor intent = due_actor row →
  validateDiscoveryCandidatePromotionIntent (audited (check_of row) intent) = true →
  promotion_current (due_actor row) (unix_of t) s = true → recordable intent (unix_of t) (candidate_db s) = false →
  @candidate_Run candidate_store (candidate_repository p) t s =
  Some (CandidateResultOf (unix_of t) 1 0 0 0 0 false, Some (storageFailure "write promoted observation" ErrConstraint), s).
Proof.
  intros Hs Ht Hrows Hprobe Ha Hv Hcur Hrec. unfold candidate_Run. cbn [result_observed]. rewrite (proj2 (Z.ltb_ge _ 0)) by lia.
  assert (∃ n, candidate_fuel = S n) as [n ->] by (by exists 96%nat). cbn [candidate_loop].
  change (negb (_ <? MaximumDiscoveryCandidateAttempts)) with false. cbn [candidate_cancelled candidate_checks candidate_repository result_scanned].
  change (MaximumDiscoveryCandidatePage `min` (MaximumDiscoveryCandidateAttempts - 0)) with 24. cbn beta iota.
  assert (Hstart : accepted_cursor (unix_of t) candidate_start) by (by left).
  pose proof (checks_read candidate_start 24 t s Hs Ht ltac:(done) Hstart) as Hread.
  pose proof (repository_checks_valid candidate_start 24 t s _ Hs Ht ltac:(done) Hstart Hread) as Hval. rewrite Hread, Hval. cbn [negb].
  unfold page_of_rows. cbn [page_candidates page_next]. rewrite keyset_page_kept, start_before, Hrows by done. cbn [take].
  change (Z.to_nat 24) with 24%nat. cbn [take map length Nat.eqb candidate_probePage candidate_world_prober candidate_admitted candidate_cancelled_probe candidate_probed].
  unfold candidate_probePage. cbn [map candidate_admitted candidate_cancelled_probe candidate_world_prober candidate_repository]. rewrite Hprobe. cbn [write_page].
  fold (audited (check_of row) intent). cbn [candidate_promote candidate_repository].
  change (candidate_probed s) with s. rewrite PromoteDiscoveryCandidate_keeps by done. unfold PromoteDiscoveryCandidate_promise. rewrite Hv. cbn [negb].
  rewrite (proj2 (Z.ltb_ge _ 0)) by lia. change (promotion_actor (audited (check_of row) intent)) with (promotion_actor intent). rewrite Ha.
  change (recordable (audited _ _)) with (recordable intent). rewrite Hcur, Hrec.
  unfold promotion_current in Hcur. destruct (candidates s !! due_actor row) as [r|]; [|done]. done.
Qed.
End RepositoryRun.

(** * The candidate theorems at concrete stores *)

From S2P Require Import Canonical System Guarantees.

Definition sample_audit : discovery_audit := {| audit_operator := "operator"; audit_reason := "import"; audit_source_kind := "file"; audit_source_label := "list" |}.
Definition sample_failure : DiscoveryCandidateIntent := {|
  candidate_intent_actor := sample_actor; candidate_intent_base := "https://relay.example"; candidate_intent_state := DiscoveryCandidateUnreachable;
  candidate_intent_failure := DiscoveryCandidateActorUnreachable; candidate_intent_audit := sample_audit |}.
(** The relay registered, was retained as an unreachable candidate, and sends a
    signed heartbeat a second after the start of the run. *)
Definition sample_candidates : candidate_store := (candidate_perform plain_call (CallRetain sample_failure) (time_of_unix 1500) (CandidateStore sample_enrolled ∅ [])).2.
Definition run_time : Z := time_of_unix 30000.
Definition late_heartbeat : candidate_store :=
  with_candidate_db (after (OpHeartbeat sample_actor) (time_of_unix 30001) sample_enrolled) sample_candidates.

Lemma sample_candidates_ok : candidate_inv sample_candidates.
Proof.
  pose proof (initial_candidates_ok sample_enrolled sample_enrolled_ok) as Hs. unfold sample_candidates. rewrite candidate_perform_plain by done.
  destruct (candidate_promised _ _ _) as [out s'] eqn:E. by eapply candidate_promised_ok.
Qed.
Lemma late_heartbeat_ok : candidate_inv late_heartbeat.
Proof.
  destruct sample_candidates_ok as [_ Hrows Hev]. split; [|apply Hrows|apply Hev]. apply after_ok; [apply sample_enrolled_ok|clock].
Qed.

Definition sample_promotion (inbox : string) : DiscoveryCandidatePromotionIntent := {|
  promotion_actor := sample_actor; promotion_base := "https://relay.example"; promotion_inbox := inbox; promotion_inbox_state := InboxResponsive;
  promotion_audit := no_audit |}.
Definition sample_prober (inbox : string) : candidate_prober := {|
  candidate_ProbeActor a := Ok (ActorProbe a inbox); candidate_ProbeInbox _ := Some InboxProbeResponsive |}.

Lemma candidate_calls_refine_promise_witness :
  let o := CallPromote (audited (CandidateCheck sample_actor "https://relay.example" "unreachable" "actor_unreachable" 1500 1500 None 1 23100 sample_audit)
                          (sample_promotion "https://relay.example/inbox")) in
  (candidate_perform plain_call o run_time sample_candidates).1 = Ok DiscoveryCandidatePromoted ∧
  (candidate_perform (Call true None [false; true]) o run_time sample_candidates = candidate_promised o run_time sample_candidates ∨
   ∃ e, candidate_perform (Call true None [false; true]) o run_time sample_candidates = (Err e, sample_candidates) ∧ disturbed e = true).
Proof. split; [evaluate|]. apply candidate_calls_refine_promise, sample_candidates_ok. Defined.

Lemma candidate_checks_complete_witness :
  0 ≤ unix_of run_time ≤ int64_max ∧
  ∃ l, (∀ fuel, (length l < fuel)%nat → checks_walk fuel 24 run_time sample_candidates = Ok l) ∧ strictly_sorted check_key l ∧
       ∀ c, In c l ↔ ∃ r e, candidates sample_candidates !! check_actor c = Some r ∧ first_candidate_event (check_actor c) sample_candidates = Some e ∧
                            candidate_state r ≠ DiscoveryCandidateResolved ∧
                            last_checked r + seconds_of (DiscoveryCandidateRetryDelay (failure_count r)) ≤ unix_of run_time ∧
                            c = check_of (DueRow (check_actor c) r (last_checked r + seconds_of (DiscoveryCandidateRetryDelay (failure_count r))) e).
Proof.
  assert (Ht : 0 ≤ unix_of run_time ≤ int64_max) by evaluate. split; [exact Ht|].
  apply (candidate_checks_complete 24 run_time sample_candidates sample_candidates_ok Ht). by vm_compute.
Defined.
(** The candidate is due at the run, and was not before its first retry. *)
Example sample_due :
  match checks_walk 2 24 run_time sample_candidates with Ok l => map check_next l = [23100] | Err _ => False end ∧
  checks_walk 2 24 (time_of_unix 23099) sample_candidates = Ok [].
Proof. evaluate. Qed.

(** A run of a reachable candidate promotes it; the late heartbeat stops the run. *)
Example sample_promoted :
  match @candidate_Run _ (candidate_repository (sample_prober "https://relay.example/inbox")) run_time sample_candidates with
  | Some (r, None, s) => r = CandidateResultOf 30000 1 1 0 0 0 false ∧ (candidate_state <$> candidates s !! sample_actor) = Some DiscoveryCandidateResolved
  | _ => False
  end.
Proof. evaluate. Qed.

Lemma refused_promotion_stops_run_witness :
  @candidate_Run candidate_store (candidate_repository (sample_prober "https://relay.example/inbox")) run_time late_heartbeat =
  Some (CandidateResultOf 30000 1 0 0 0 0 false, Some (storageFailure "write promoted observation" ErrConstraint), late_heartbeat).
Proof.
  assert (Ht : 0 ≤ unix_of run_time ≤ int64_max) by evaluate.
  assert (Hrow : ∃ row, order_by due_key (due_now (unix_of run_time) late_heartbeat) = [row] ∧
    candidate_probeOne false (sample_prober "https://relay.example/inbox") (check_of row) = ProbePromotion (sample_promotion "https://relay.example/inbox") ∧
    promotion_actor (sample_promotion "https://relay.example/inbox") = due_actor row ∧
    validateDiscoveryCandidatePromotionIntent (audited (check_of row) (sample_promotion "https://relay.example/inbox")) = true ∧
    promotion_current (due_actor row) (unix_of run_time) late_heartbeat = true).
  { eexists. split; [vm_compute; reflexivity|]. split_and!; evaluate. }
  destruct Hrow as (row&Hr&Hp&Ha&Hv&Hc).
  assert (Hrec : recordable (sample_promotion "https://relay.example/inbox") (unix_of run_time) (candidate_db late_heartbeat) = false) by evaluate.
  exact (refused_promotion_stops_run _ run_time late_heartbeat row [] _ late_heartbeat_ok Ht Hr Hp Ha Hv Hc Hrec).
Defined.
