(* ===== verification/ReachabilityFacts.v ===== *)
(** * ReachabilityFacts: candidates, schedules and the maintenance run

    The candidate query agrees with the eligibility the write revalidates and is
    exactly keyset pagination; the persisted deadline decides when an actor is
    due again; a probe result always passes the repository's validation; the run
    is bounded and its counts add up; an inbox URL longer than its column can
    never be recorded. *)
From S2P Require Import Prelude Identity Vocabulary Store Repository Discovery Reachability Invariant Contract Refinement System Guarantees.
Local Open Scope string_scope.
Local Open Scope Z_scope.
Local Open Scope go_scope.
Local Open Scope list_scope.

(** ** Eligibility *)

Lemma eligible_cte_spec d a : a ∈ reachabilityEligibleCTE d ↔ eligible_now d a = true.
Proof.
  unfold reachabilityEligibleCTE, eligible_now. rewrite elem_of_union, !elem_of_dom, orb_true_iff, andb_true_iff, negb_true_iff.
  split.
  - intros [[r Hr]|[r Hr]]; apply map_lookup_filter_Some in Hr as [Hr Hp]; simpl in Hp; rewrite Is_true_true in Hp;
      rewrite Hr; [by left|right]. apply andb_true_iff in Hp as [? ?%negb_true_iff]. done.
  - intros [Hr|[Hr Hs]].
    + left. destruct (relays d !! a) as [r|] eqn:Ha; [|done]. exists r.
      apply map_lookup_filter_Some. split; [done|]. by rewrite Is_true_true.
    + right. destruct (discoveries d !! a) as [r|] eqn:Ha; [|done]. exists r.
      apply map_lookup_filter_Some. split; [done|]. simpl. rewrite Is_true_true, Hr, Hs. done.
Qed.

(** ** Candidates *)

(** The due candidates as rows, before the cursor. *)
Definition due_rows (observedUnix : Z) (d : db) : list (string * option Z) :=
  map (λ actor, (actor, actor_checked d actor))
    (List.filter (reachability_due d observedUnix
                    (int64_sub observedUnix (seconds_of ReachabilityUnreachableRetry))
                    (int64_sub observedUnix (seconds_of ReachabilityFreshness)))
       (elements (reachabilityEligibleCTE d))).

Definition cursor_position (c : reachability_cursor) : Z * (Z * string) :=
  reachability_key (CursorActor c, if HasLastChecked c then Some (LastCheckedUnix c) else None).
Definition candidate_of (row : string * option Z) : reachability_candidate :=
  ReachabilityCandidate row.1 row.2.

Lemma reachability_cursor_eqb_eq x y : reachability_cursor_eqb x y = true ↔ x = y.
Proof.
  destruct x, y. unfold reachability_cursor_eqb; simpl. rewrite !andb_true_iff, eqb_true_iff, Z.eqb_eq, String.eqb_eq.
  split; [intros [[-> ->] ->]; done|by intros [= -> -> ->]].
Qed.

Lemma key_ltb_string_empty a : a ≠ "" → key_ltb "" a = true.
Proof. by destruct a. Qed.

Lemma where_after_key c row :
  reachability_cursor_valid c = true → row.1 ≠ "" →
  (∀ v, row.2 = Some v → 0 ≤ v) →
  reachability_where_after c row = key_ltb (cursor_position c) (reachability_key row).
Proof.
  destruct c as [has checked actor], row as [a v]. unfold reachability_where_after, reachability_cursor_valid, cursor_position.
  simpl. destruct (reachability_cursor_eqb _ _) eqn:Hz.
  - apply reachability_cursor_eqb_eq in Hz. injection Hz as -> -> ->. intros _ Ha Hv.
    unfold reachability_key; simpl. destruct v as [v|]; unfold key_ltb; simpl; [done|].
    unfold key_ltb; simpl. by rewrite key_ltb_string_empty.
  - intros Hval Ha Hv. destruct (actor ≟ ""); [done|]. unfold reachability_key; simpl.
    destruct has, v as [v|]; simpl in *; unfold key_ltb; simpl; unfold key_ltb; simpl; try done.
    change (key_ltb checked v) with (checked <? v). change (key_ltb v checked) with (v <? checked).
    destruct (Z.ltb_spec checked v), (Z.ltb_spec v checked), (Z.eqb_spec v checked); simpl; try done; lia.
Qed.

Lemma reachability_key_inj x y : reachability_key x = reachability_key y → x = y.
Proof. destruct x as [a [v|]], y as [c [w|]]; unfold reachability_key; simpl; intros [= -> ->] || intros [= ->]; congruence. Qed.

(** ** The candidate read on a valid database *)

Lemma take_in {A} (x : A) n l : In x (take n l) → In x l.
Proof. intros Hx. rewrite <- (take_drop n l). apply in_or_app. by left. Qed.

Section Candidates.
Context `{RelayIdentity}.

Lemma candidate_row_ok now d row : db_ok d → 0 ≤ now ≤ int64_max →
  In row (map (λ actor, (actor, actor_checked d actor))
       (List.filter (reachability_due d now (int64_sub now (seconds_of ReachabilityUnreachableRetry))
                       (int64_sub now (seconds_of ReachabilityFreshness)))
          (elements (reachabilityEligibleCTE d)))) →
  canonical_actor row.1 = true ∧ 1 ≤ len row.1 ≤ 4096 ∧
  ∀ v, row.2 = Some v → 0 ≤ v ≤ now - seconds_of ReachabilityFailureRetryMinimum.
Proof.
  intros Hd Hnow (a&<-&[Ha Hdue]%filter_In)%in_map_iff. simpl.
  apply list_elem_of_In, elem_of_elements, eligible_cte_spec in Ha.
  assert (Hact : canonical_actor a = true ∧ 1 ≤ len a ≤ 4096).
  { unfold eligible_now in Ha. destruct (relays d !! a) as [r|] eqn:Hr.
    - destruct (inv_relays _ _ Hd a r Hr) as [Hc Hi]. split; [by eapply canonical_identity_actor|].
      unfold relay_check, blob_length_between in Hc. bool_facts. lia.
    - destruct (discoveries d !! a) as [r|] eqn:Hdi; [|done].
      destruct (inv_discoveries _ _ Hd a r Hdi) as [Hc Hi]. split; [by eapply canonical_identity_actor|].
      unfold discovery_check, blob_length_between in Hc. bool_facts. lia. }
  destruct Hact as [Hcan Hlen]. split; [done|split; [done|]].
  intros v Hv. unfold actor_checked in Hv. destruct (observations d !! a) as [o|] eqn:Ho; [|done]. simpl in Hv.
  unfold reachability_due in Hdue. rewrite Ho, Hv in Hdue.
  rewrite !int64_sub_nonneg in Hdue by (done || (vm_compute; split; discriminate)).
  destruct (inv_observations _ _ Hd a o Ho) as [Hc _]. apply observation_check_wf in Hc as (_&(Hw&_)&_).
  destruct (Hw v Hv) as [? _]. split; [done|].
  change (seconds_of ReachabilityFreshness) with 21600 in *.
  change (seconds_of ReachabilityUnreachableRetry) with 604800 in *.
  change (seconds_of ReachabilityFailureRetryMinimum) with 3600 in *.
  destruct (diagnostics d !! a) as [g|] eqn:Hg.
  - destruct (inv_diagnostics _ _ Hd a g Hg) as (_&Hn&_). change (seconds_of ReachabilityFailureRetryMinimum) with 3600 in Hn.
    apply orb_true_iff in Hdue as [Hdue|Hdue]; bool_facts; [lia|]. case_match; lia.
  - case_match; bool_facts; lia.
Qed.

Lemma due_rows_keys now d : NoDup (reachability_key <$> due_rows now d).
Proof.
  apply NoDup_fmap_2_strong; [intros x y _ _; apply reachability_key_inj|].
  apply (NoDup_fmap_2_strong (λ actor, (actor, actor_checked d actor))); [by intros x y _ _ [=]|].
  apply NoDup_ListNoDup, List.NoDup_filter, NoDup_ListNoDup, NoDup_elements.
Qed.

Lemma cursor_position_row row : cursor_position (reachabilityCursor (candidate_of row)) = reachability_key row.
Proof. by destruct row as [a [v|]]. Qed.

(** What the query accepts: a cursor of an earlier page at this observation
    time, a limit within the page bound. *)
Definition reachability_query_ok (q : reachability_query) : bool :=
  reachability_cursor_valid (reach_after q) && (0 <? reach_limit q) &&
  (reach_limit q <=? MaximumReachabilityCandidatePage) &&
  (reachability_cursor_eqb (reach_after q) reachability_start ||
   validHealthProjectionActor (CursorActor (reach_after q))) &&
  (0 <=? unix_of (reach_observed q)) &&
  (negb (HasLastChecked (reach_after q)) ||
   (LastCheckedUnix (reach_after q) <=? unix_of (reach_observed q) - seconds_of ReachabilityFailureRetryMinimum)).

Definition page_of (page : list (string * option Z) * option (Z * (Z * string))) : reachability_page :=
  ReachabilityPage (map candidate_of page.1)
    (match page.2 with
     | None => reachability_start
     | Some _ => match list.last page.1 with
                 | Some row => reachabilityCursor (candidate_of row) | None => reachability_start end
     end).

Lemma last_map {A B} (f : A → B) l : list.last (map f l) = f <$> list.last l.
Proof. apply fmap_last. Qed.

Lemma reachability_rows_keyset q d : db_ok d → 0 ≤ unix_of (reach_observed q) ≤ int64_max →
  reachability_cursor_valid (reach_after q) = true →
  reachability_rows q d =
  take (S (Z.to_nat (reach_limit q)))
    (rows_after reachability_key (cursor_position (reach_after q))
       (order_by reachability_key (due_rows (unix_of (reach_observed q)) d))).
Proof.
  intros Hd Hr Hv. unfold reachability_rows, rows_after. f_equal.
  rewrite <- order_by_filter by apply due_rows_keys. f_equal.
  apply filter_same. intros row Hrow. destruct (candidate_row_ok _ _ _ Hd Hr Hrow) as (_&Hl&Hc).
  apply where_after_key; [done| |intros v Hw; by destruct (Hc v Hw)].
  intros He. rewrite He in Hl. by destruct Hl.
Qed.

Lemma decode_reachability_row now d row : db_ok d → 0 ≤ now ≤ int64_max → In row (due_rows now d) →
  decode_reachability (now - seconds_of ReachabilityFailureRetryMinimum) row = Ok (candidate_of row).
Proof.
  intros Hd Hnow Hrow. destruct (candidate_row_ok _ _ _ Hd Hnow Hrow) as (Hcan&_&Hc).
  unfold decode_reachability. rewrite Hcan. destruct row as [a [v|]]; simpl; [|done].
  destruct (Hc v eq_refl). by rewrite (proj2 (Z.ltb_ge v 0)), (proj2 (Z.ltb_ge _ v)).
Qed.

Lemma candidates_read q d : db_ok d → unix_of (reach_observed q) ≤ int64_max →
  reachability_query_ok q = true →
  ReachabilityCandidates plain_call q d =
  Ok (page_of (keyset_page reachability_key (cursor_position (reach_after q)) (Z.to_nat (reach_limit q))
                 (due_rows (unix_of (reach_observed q)) d))).
Proof.
  intros Hd Hmax Hq. unfold reachability_query_ok in Hq.
  apply andb_true_iff in Hq as [Hq Hq6]. apply andb_true_iff in Hq as [Hq Hq5].
  apply andb_true_iff in Hq as [Hq Hq4]. apply andb_true_iff in Hq as [Hq Hq3].
  apply andb_true_iff in Hq as [Hq1 Hq2]. bool_facts.
  unfold ReachabilityCandidates, run_read, ReachabilityCandidates_query. cbn [configured negb plain_call].
  rewrite int64_sub_nonneg by (done || (vm_compute; split; discriminate)).
  tx_run. rewrite !check_run.
  rewrite Hq1, (proj2 (Z.leb_gt (reach_limit q) 0)), (proj2 (Z.ltb_ge _ _) Hq3),
    (proj2 (Z.ltb_ge _ 0) Hq5) by lia.
  replace (negb (reachability_cursor_eqb (reach_after q) reachability_start) &&
           negb (validHealthProjectionActor (CursorActor (reach_after q)))) with false
    by (symmetry; apply orb_true_iff in Hq4 as [-> | ->]; simpl; [done|by rewrite andb_false_r]).
  replace (HasLastChecked (reach_after q) &&
           (unix_of (reach_observed q) - seconds_of ReachabilityFailureRetryMinimum <? LastCheckedUnix (reach_after q)))
    with false
    by (symmetry; apply orb_true_iff in Hq6 as [->%negb_true_iff|Hq6]; simpl; [done|];
        apply andb_false_iff; right; bool_lia; bool_facts; lia).
  simpl. tx_run. rewrite reachability_rows_keyset by done.
  set (rows := rows_after _ _ _). set (limit := Z.to_nat (reach_limit q)).
  rewrite (scan_rows_free _ _ _ candidate_of).
  2:{ intros r Hr. apply (decode_reachability_row _ d); [done|done|].
      rewrite <- (order_by_in reachability_key).
      apply take_in in Hr. by apply filter_In in Hr as [? _]. }
  2:{ simpl. lia. }
  simpl. rewrite Nat.sub_0_r. unfold page_of, keyset_page. fold rows.
  destruct (limit <? length (take (S limit) rows))%nat; simpl; rewrite last_map.
  - do 2 f_equal. by destruct (list.last (take limit (take (S limit) rows))) eqn:Hl.
  - by destruct (list.last (take limit (take (S limit) rows))).
Qed.

(** A reader that follows [Next] until it is the zero cursor. *)
Fixpoint candidates_walk (fuel : nat) (q : reachability_query) (d : db)
    : result error (list reachability_candidate) :=
  match fuel with
  | O => Ok []
  | S fuel =>
      match ReachabilityCandidates plain_call q d with
      | Err e => Err e
      | Ok page =>
          if reachability_cursor_eqb (reach_next page) reachability_start then Ok (reach_candidates page)
          else
            match candidates_walk fuel (ReachabilityQuery (reach_next page) (reach_limit q) (reach_observed q)) d with
            | Ok rest => Ok (reach_candidates page ++ rest)
            | Err e => Err e
            end
      end
  end.

(** The continuation after a row of the query is again an accepted cursor. *)
Lemma continuation_ok q d row : db_ok d → unix_of (reach_observed q) ≤ int64_max →
  reachability_query_ok q = true → In row (due_rows (unix_of (reach_observed q)) d) →
  reachability_query_ok (ReachabilityQuery (reachabilityCursor (candidate_of row)) (reach_limit q)
                           (reach_observed q)) = true ∧
  reachability_cursor_eqb (reachabilityCursor (candidate_of row)) reachability_start = false.
Proof.
  intros Hd Hmax Hq Hrow. unfold reachability_query_ok in *.
  apply andb_true_iff in Hq as [Hq _]. apply andb_true_iff in Hq as [Hq H0].
  apply andb_true_iff in Hq as [Hq _]. apply andb_true_iff in Hq as [Hq Hl2]. apply andb_true_iff in Hq as [_ Hl1].
  apply Z.leb_le in H0. destruct (candidate_row_ok _ _ _ Hd (conj H0 Hmax) Hrow) as (Hcan&Hlen&Hc).
  assert (Hne : (row.1 ≟ "") = false).
  { apply String.eqb_neq. intros He. rewrite He in Hlen. by destruct Hlen. }
  assert (Hstart : ∀ b v, reachability_cursor_eqb (ReachabilityCursor b v row.1) reachability_start = false).
  { intros b v. unfold reachability_cursor_eqb. simpl. by rewrite Hne, andb_false_r. }
  assert (Hhealth : validHealthProjectionActor row.1 = true).
  { unfold validHealthProjectionActor. rewrite Hcan. unfold maximumRelayActorBytes.
    rewrite (proj2 (Z.eqb_neq _ _)), (proj2 (Z.ltb_ge _ _)) by lia. done. }
  destruct row as [a [v|]]; unfold candidate_of, reachabilityCursor; simpl in *; rewrite Hstart; (split; [|done]);
    unfold reachability_cursor_valid; rewrite Hstart; simpl; rewrite Hne, Hl1, Hl2, Hhealth, (proj2 (Z.leb_le _ _) H0).
  - destruct (Hc v eq_refl). rewrite (proj2 (Z.leb_le 0 v)), (proj2 (Z.leb_le v _)) by lia. done.
  - done.
Qed.

Lemma candidates_walk_keyset fuel q d : db_ok d → unix_of (reach_observed q) ≤ int64_max →
  reachability_query_ok q = true →
  candidates_walk fuel q d =
  Ok (map candidate_of
        (keyset_walk reachability_key fuel (cursor_position (reach_after q)) (Z.to_nat (reach_limit q))
           (due_rows (unix_of (reach_observed q)) d))).
Proof.
  intros Hd Hmax. revert q Hmax. induction fuel as [|fuel IH]; intros q Hmax Hq; simpl; [done|].
  rewrite candidates_read by done.
  set (rows := due_rows (unix_of (reach_observed q)) d). set (limit := Z.to_nat (reach_limit q)).
  assert (Hlim : (0 < limit)%nat).
  { unfold reachability_query_ok in Hq. bool_facts. unfold limit. lia. }
  pose proof (keyset_page_next reachability_key (cursor_position (reach_after q)) limit rows Hlim) as Hnext.
  pose proof (keyset_page_in reachability_key (cursor_position (reach_after q)) limit rows) as Hin.
  destruct (keyset_page _ _ _ _) as [kept [k|]]; unfold page_of; simpl in *; [|done].
  destruct Hnext as (kept' & x & rest & -> & -> & _ & _). rewrite last_snoc.
  destruct (continuation_ok q d x Hd Hmax Hq) as [Hq' Hns].
  { apply Hin. apply in_or_app. right. by left. }
  rewrite Hns, IH by done. simpl. rewrite cursor_position_row. by rewrite !map_app.
Qed.

(** The due condition of the query at second [now]. *)
Definition due_at (now : Z) (d : db) (a : string) : bool :=
  reachability_due d now (int64_sub now (seconds_of ReachabilityUnreachableRetry))
    (int64_sub now (seconds_of ReachabilityFreshness)) a.

Lemma due_rows_in now d a c :
  In (a, c) (due_rows now d) ↔ eligible_now d a = true ∧ due_at now d a = true ∧ c = actor_checked d a.
Proof.
  unfold due_rows. rewrite in_map_iff. split.
  - intros (b&[= <- <-]&[Hb Hdue]%filter_In). by rewrite <- list_elem_of_In, elem_of_elements, eligible_cte_spec in Hb.
  - intros (He&Hdue&->). exists a. split; [done|]. apply filter_In. split; [|done].
    by rewrite <- list_elem_of_In, elem_of_elements, eligible_cte_spec.
Qed.

Definition candidate_key (c : reachability_candidate) : Z * (Z * string) :=
  reachability_key (candidate_actor c, ActorLastCheckedUnix c).

Lemma candidates_sorted rows : strictly_sorted reachability_key rows →
  strictly_sorted candidate_key (map candidate_of rows).
Proof.
  unfold strictly_sorted. induction 1 as [|[a c] rows Hs IH Hf]; simpl; [constructor|]. constructor; [done|].
  rewrite Forall_forall in Hf |- *. intros y ([b v]&<-&Hy)%in_map_iff. by apply Hf.
Qed.

(** C10: Reading the reachability candidates page by page, each page from the
    cursor of the one before, lists every actor that is eligible and due at the
    observation time exactly once, never-checked actors first and then by last
    check and actor; no page of a valid database fails. *)
Theorem reachability_candidates_complete limit t d :
  db_ok d → 0 ≤ unix_of t ≤ int64_max → 0 < limit ≤ MaximumReachabilityCandidatePage →
  ∃ l, (∀ fuel, (length l < fuel)%nat →
          candidates_walk fuel (ReachabilityQuery reachability_start limit t) d = Ok l) ∧
       strictly_sorted candidate_key l ∧
       ∀ a c, In (ReachabilityCandidate a c) l ↔
              eligible_now d a = true ∧ due_at (unix_of t) d a = true ∧ c = actor_checked d a.
Proof.
  intros Hd Ht Hlim. set (rows := due_rows (unix_of t) d).
  exists (map candidate_of (order_by reachability_key rows)). split; [|split].
  - intros fuel Hfuel. rewrite candidates_walk_keyset; [|done|simpl; lia|].
    2:{ unfold reachability_query_ok; simpl. by rewrite (proj2 (Z.ltb_lt _ _)), !(proj2 (Z.leb_le _ _)) by lia. }
    simpl. fold rows.
    assert (Hall : rows_after reachability_key (cursor_position reachability_start) (order_by reachability_key rows) =
                   order_by reachability_key rows).
    { apply filter_all_true. intros row Hrow%order_by_in. destruct (candidate_row_ok _ _ _ Hd Ht Hrow) as (_&Hl&Hc).
      rewrite <- where_after_key; [done|done| |intros v Hv; by destruct (Hc v Hv)].
      intros He. rewrite He in Hl. by destruct Hl. }
    rewrite keyset_walk_complete, Hall; [done|lia|apply due_rows_keys|].
    by rewrite Hall, length_map in *.
  - apply candidates_sorted, order_by_sorted, due_rows_keys.
  - intros a c. rewrite in_map_iff, <- due_rows_in. fold rows. split.
    + intros ([b v]&[= <- <-]&Hin). by apply order_by_in in Hin.
    + intros Hin. exists (a, c). split; [done|]. by apply order_by_in.
Qed.
End Candidates.

(** ** The maintenance run *)

(** The counts of a run whose writes so far all answered. *)
Definition counted (r : ReachabilityResult) : Z := Reachable r + Unreachable r + Skipped r.
Definition counts_ok (r : ReachabilityResult) : Prop :=
  0 ≤ Reachable r ∧ 0 ≤ Unreachable r ∧ 0 ≤ Skipped r ∧ 0 ≤ CountResponsive r ∧
  0 ≤ CountMethodRejected r ∧ 0 ≤ CountUnreachable r ∧
  CountResponsive r + CountMethodRejected r + CountUnreachable r ≤ Reachable r.

Ltac counts := split_and!; first [done | lia].

Lemma tally_counts intent outcome r r' : counts_ok r → tally intent outcome r = Some r' →
  counts_ok r' ∧ counted r' = counted r + 1 ∧ Scanned r' = Scanned r ∧ Truncated r' = Truncated r.
Proof.
  unfold counts_ok, counted, tally. intros Hc.
  destruct (String.eqb_spec outcome ReachabilityWriteSkipped) as [->|_]; str_consts; simpl.
  { intros [= <-]; simpl. counts. }
  destruct (outcome ≟ ReachabilityWriteApplied); [|done]. intros [= <-]; simpl.
  destruct (reach_actor_state intent ≟ ReachabilityReachable); simpl; [|counts].
  destruct (String.eqb_spec (reach_inbox_state intent) InboxResponsive) as [->|_]; [str_consts; simpl; counts|].
  destruct (String.eqb_spec (reach_inbox_state intent) InboxMethodRejected) as [->|_]; [str_consts; simpl; counts|].
  destruct (reach_inbox_state intent ≟ InboxUnreachable); counts.
Qed.

Section RunFacts.
Context `{RelayIdentity} {W : Type} `{ReachabilityWorld W}.

(** Everything counted, or stopped inside the last scanned candidate. *)
Definition progress (finished : bool) (r : ReachabilityResult) : Prop :=
  counts_ok r ∧ counted r ≤ Scanned r ≤ counted r + (if finished then 0 else 1) ∧ Truncated r = false.

Lemma record_page_progress probes t r w x w' : progress true r → record_page probes t r w = (x, w') →
  match x with
  | inl r' => progress true r' ∧ Scanned r' = Scanned r + Z.of_nat (length probes)
  | inr (r', _) => progress false r' ∧ Scanned r ≤ Scanned r' ≤ Scanned r + Z.of_nat (length probes)
  end.
Proof.
  revert r w. induction probes as [|[intent|e] probes IH]; intros r w Hr; simpl.
  - intros [= <- <-]. split; [done|lia].
  - destruct (world_record intent t w) as [[outcome|e] w1].
    + destruct Hr as (Hc&Hn&Ht). destruct (tally intent outcome (scanned_one r)) as [r1|] eqn:Hty.
      * apply tally_counts in Hty as (Hc1&Hn1&Hs1&Ht1); [|done]. simpl in Hs1, Ht1. intros Hrec. apply IH in Hrec.
        -- destruct x as [r'|[r' e]]; (split; [apply Hrec|]); lia.
        -- split; [done|]. unfold counted in *; simpl in *. split; [lia|congruence].
      * intros [= <- <-]. unfold progress, counted in *; simpl. split; [|lia]. split; [exact Hc|split; [lia|done]].
    + intros [= <- <-]. destruct Hr as (Hc&Hn&Ht). unfold progress, counted in *; simpl.
      split; [|lia]. split; [exact Hc|split; [lia|done]].
  - intros [= <- <-]. split; [|lia]. destruct Hr as (?&?&?). split; [done|]. split; [lia|done].
Qed.

(** What a finished run reports. *)
Definition run_report (r : ReachabilityResult) (e : option error) : Prop :=
  counts_ok r ∧ 0 ≤ Scanned r ≤ MaximumReachabilityAttemptsPerRun ∧
  counted r ≤ Scanned r ≤ counted r + 1 ∧ (e = None → Scanned r = counted r) ∧
  (Truncated r = true → e = None ∧ Scanned r = MaximumReachabilityAttemptsPerRun).

Lemma progress_report r e : progress (match e with None => true | _ => false end) r →
  Scanned r ≤ MaximumReachabilityAttemptsPerRun → run_report r e.
Proof.
  unfold progress, run_report, counts_ok, counted. intros (Hc&Hn&Ht) Hmax.
  repeat split; try lia; try (destruct e; lia); try congruence. by intros ->; lia.
Qed.

Lemma progress_weaken r : progress true r → progress false r.
Proof. intros (?&?&?). split; [done|split; [lia|done]]. Qed.

Lemma validatePage_length page after limit t : validatePage page after limit t = true →
  Z.of_nat (length (reach_candidates page)) ≤ limit.
Proof. unfold validatePage. case_match; [done|]. bool_facts. done. Qed.

Lemma run_loop_reports fuel t after r w :
  progress true r → Scanned r ≤ MaximumReachabilityAttemptsPerRun →
  MaximumReachabilityAttemptsPerRun < Scanned r + Z.of_nat fuel →
  ∃ r' e w', run_loop fuel t after r w = Some (r', e, w') ∧ run_report r' e.
Proof.
  revert after r w. induction fuel as [|fuel IH]; intros after r w Hr Hmax Hfuel; [lia|]. simpl.
  destruct (Z.ltb_spec (Scanned r) MaximumReachabilityAttemptsPerRun) as [Hlt|]; simpl.
  2:{ eexists _, _, _. split; [done|]. by apply progress_report. }
  destruct (world_cancelled w).
  { eexists _, _, _. split; [done|]. apply progress_report; [by apply progress_weaken|done]. }
  set (limit := Z.min _ _). destruct (world_candidates _ w) as [[page|e] w1].
  2:{ eexists _, _, _. split; [done|]. apply progress_report; [by apply progress_weaken|done]. }
  destruct (validatePage page after limit t) eqn:Hv; simpl.
  2:{ eexists _, _, _. split; [done|]. apply progress_report; [by apply progress_weaken|done]. }
  apply validatePage_length in Hv.
  destruct (Nat.eqb_spec (length (reach_candidates page)) 0) as [|Hne].
  { eexists _, _, _. split; [done|]. by apply progress_report. }
  destruct (record_page _ t r (world_probed w1)) as [x w2] eqn:Hrec.
  pose proof (record_page_progress _ _ _ _ _ _ Hr Hrec) as Hp. unfold probePage in Hp. rewrite length_map in Hp.
  assert (Hlim : limit ≤ MaximumReachabilityAttemptsPerRun - Scanned r) by (unfold limit; lia).
  destruct x as [r1|[r1 e1]]; destruct Hp as [Hp Hs].
  2:{ eexists _, _, _. split; [done|]. apply progress_report; [done|lia]. }
  destruct (reachability_cursor_eqb (reach_next page) reachability_start).
  { eexists _, _, _. split; [done|]. apply progress_report; [done|lia]. }
  destruct (Z.eqb_spec (Scanned r1) MaximumReachabilityAttemptsPerRun) as [He|].
  { eexists _, _, _. split; [done|]. destruct Hp as (Hc&Hn&Ht). unfold run_report, counts_ok, counted in *; simpl.
    rewrite He in *. repeat split; try lia; done. }
  apply IH; [done|lia..].
Qed.

(** A run over any repository, prober and context returns a result: it scans
    at most 96 candidates, every scanned candidate is counted exactly once as
    reachable, unreachable or skipped (the one a failure stopped at excepted),
    the inbox counts stay within the reachable ones, and the result is marked
    truncated only when the run finished at the bound. *)
Theorem Run_reports t w :
  ∃ r e w', Run t w = Some (r, e, w') ∧ run_report r e.
Proof.
  unfold Run. destruct (ObservedUnix (start_result t) <? 0).
  - eexists _, _, _. split; [done|]. apply progress_report; [|done]. repeat split; done || lia.
  - apply run_loop_reports; [|done|done]. repeat split; done || lia.
Qed.
End RunFacts.

(** ** Probe results *)

Section Probes.
Context `{RelayIdentity}.

(** Whatever a prober answers, a probe result the run writes is for the
    probed actor and passes the repository's validation, provided the prober
    returns a canonical inbox URL or none. *)
Theorem probeOne_valid cancelled p a intent :
  canonical_actor a = true →
  (∀ found, (probed (ProbeActor p) (ProbeActorDetailed p) a).1 = Ok found →
            ActorInbox found = "" ∨ canonical_actor (ActorInbox found) = true) →
  probeOne cancelled p a = Ok intent →
  reach_actor intent = a ∧ validateReachabilityObservationIntent intent = true.
Proof.
  intros Ha Hin. unfold probeOne. destruct (probed _ (ProbeActorDetailed p) a) as [[found|err] diag]; simpl in Hin.
  - specialize (Hin found eq_refl). case_match; [done|].
    destruct (String.eqb_spec (ActorInbox found) "") as [He|Hne].
    + intros [= <-]. split; [done|]. unfold validateReachabilityObservationIntent; simpl. by rewrite Ha, He.
    + destruct Hin as [?|Hc]; [done|].
      assert (Hok : ∀ state g, ProbeDiagnostic_Valid g = true →
        state ∈ [InboxResponsive; InboxMethodRejected; InboxUnreachable] →
        validateReachabilityObservationIntent {|
          reach_actor := a; reach_actor_state := ReachabilityReachable; reach_inbox_url := ActorInbox found;
          reach_inbox_state := state; reach_actor_diagnostic := no_diagnostic; reach_inbox_diagnostic := g |} = true).
      { intros state g Hg Hs. unfold validateReachabilityObservationIntent; simpl.
        rewrite Hg, Ha, Hc, (proj2 (String.eqb_neq _ _) Hne). simpl.
        by repeat (apply elem_of_cons in Hs as [->|Hs]; [done|]); apply elem_of_nil in Hs. }
      destruct (probed _ (ProbeInboxDetailed p) (ActorInbox found)) as [[answer|err] g].
      * destruct (ProbeDiagnostic_Valid g) eqn:Hg; simpl; [|done].
        destruct answer; intros [= <-]; (split; [done|]); apply Hok; try done; set_solver.
      * destruct cancelled; [done|]. case_match eqn:Hcase; [done|]. intros [= <-]. split; [done|].
        apply orb_false_iff in Hcase as [_ Hg%negb_false_iff]. apply Hok; [done|set_solver].
  - destruct cancelled; [done|]. case_match eqn:Hcase; [done|]. intros [= <-]. split; [done|].
    apply orb_false_iff in Hcase as [Hcase Hz]. apply orb_false_iff in Hcase as [_ Hg%negb_false_iff].
    unfold validateReachabilityObservationIntent; simpl. by rewrite Hg, Ha.
Qed.
End Probes.

(** ** The run over the repository *)

Section RepositoryRun.
Context `{RelayIdentity}.

(** The run's dependencies when nothing disturbs it: the repository above, a
    fixed prober, a context that stays open. *)
Definition repository_world (p : prober) : ReachabilityWorld db := {|
  world_candidates q d := (ReachabilityCandidates plain_call q d, d);
  world_record intent t d := RecordReachabilityObservation plain_call intent t d;
  world_prober _ := p;
  world_cancelled _ := false;
  world_admitted _ _ := true;
  world_cancelled_probe _ _ := false;
  world_probed d := d |}.

Lemma row_cursor_after row after : reachability_cursor_valid after = true → row.1 ≠ "" →
  (∀ v, row.2 = Some v → 0 ≤ v) →
  key_ltb (cursor_position after) (reachability_key row) = true →
  cursorAfter (reachabilityCursor (candidate_of row)) after = true.
Proof.
  intros Hv Hne Hc Hk. rewrite <- where_after_key in Hk by done.
  unfold cursorAfter, reachability_where_after in *. destruct (reachability_cursor_eqb after _); [done|].
  destruct (HasLastChecked after); destruct row as [a [v|]]; simpl in *; done.
Qed.

Lemma row_cursor_valid row : row.1 ≠ "" → (∀ v, row.2 = Some v → 0 ≤ v) →
  reachability_cursor_valid (reachabilityCursor (candidate_of row)) = true.
Proof.
  intros Hne Hc. unfold reachability_cursor_valid. case_match; [done|].
  destruct row as [a [v|]]; simpl in *; rewrite (proj2 (String.eqb_neq _ _) Hne); [|done].
  specialize (Hc v eq_refl). simpl. bool_lia.
Qed.

Lemma validate_candidates_rows now d after rows : db_ok d → 0 ≤ now ≤ int64_max →
  (∀ row, In row rows → In row (due_rows now d)) → reachability_cursor_valid after = true →
  strictly_sorted reachability_key rows →
  (∀ row, In row rows → key_ltb (cursor_position after) (reachability_key row) = true) →
  validate_candidates (now - seconds_of ReachabilityFailureRetryMinimum) after (map candidate_of rows) =
  Some (match list.last rows with Some row => reachabilityCursor (candidate_of row) | None => after end).
Proof.
  intros Hd Hnow. revert after. induction rows as [|row rows IH]; intros after Hin Hv Hs Hk; [done|].
  destruct (candidate_row_ok _ _ _ Hd Hnow (Hin row (or_introl eq_refl))) as (Hcan&Hl&Hc).
  assert (Hne : row.1 ≠ "") by (intros He; rewrite He in Hl; by destruct Hl).
  assert (Hc0 : ∀ v, row.2 = Some v → 0 ≤ v) by (intros v ?; by apply Hc).
  inversion Hs as [|? ? Hs' Hf]; subst. rewrite Forall_forall in Hf. simpl. rewrite Hcan. simpl.
  rewrite (row_cursor_after row after) by (done || by apply Hk; left). simpl.
  replace (match row.2 with Some v => now - seconds_of ReachabilityFailureRetryMinimum <? v | None => false end) with false
    by (destruct row.2 as [v|]; [|done]; symmetry; destruct (Hc v eq_refl); bool_lia).
  rewrite IH.
  - rewrite last_cons. by destruct (list.last rows).
  - intros r Hr. apply Hin. by right.
  - by apply row_cursor_valid.
  - done.
  - intros r Hr. rewrite cursor_position_row. by apply Hf.
Qed.

(** Every page of the repository passes the run's own validation. *)
Lemma repository_page_valid q d page : db_ok d → unix_of (reach_observed q) ≤ int64_max →
  reachability_query_ok q = true → ReachabilityCandidates plain_call q d = Ok page →
  validatePage page (reach_after q) (reach_limit q) (reach_observed q) = true.
Proof.
  intros Hd Hmax Hq. rewrite candidates_read by done. intros [= <-].
  set (now := unix_of (reach_observed q)) in *. set (limit := Z.to_nat (reach_limit q)).
  set (kp := keyset_page _ _ _ _).
  assert (Hq' := Hq). unfold reachability_query_ok in Hq'. fold now in Hq'. bool_facts.
  assert (Hnow : 0 ≤ now ≤ int64_max) by lia.
  assert (Hlen : (length kp.1 <= limit)%nat) by apply keyset_page_length.
  assert (Hin : ∀ row, In row kp.1 → In row (due_rows now d) ∧
                 key_ltb (cursor_position (reach_after q)) (reachability_key row) = true)
    by (intros row; apply keyset_page_in).
  assert (Hsort : strictly_sorted reachability_key kp.1) by (apply keyset_page_sorted, due_rows_keys).
  unfold validatePage. rewrite int64_sub_nonneg by (done || (vm_compute; split; discriminate)). fold now.
  replace (reach_candidates (page_of kp)) with (map candidate_of kp.1) by done.
  rewrite length_map, (proj2 (Z.ltb_ge _ _)), (proj2 (Z.ltb_ge _ _)) by (unfold limit in *; lia). cbn [orb page_of reach_next].
  destruct (list.last kp.1) as [row|] eqn:Hlast.
  - assert (Hne : Z.of_nat (length kp.1) ≠ 0).
    { intros He. destruct kp.1; [done|]. simpl in He. lia. }
    rewrite (proj2 (Z.eqb_neq _ _) Hne), (validate_candidates_rows now d), Hlast; try done.
    + destruct kp.2; [|done]. set (c := reachabilityCursor _).
      by rewrite (proj2 (reachability_cursor_eqb_eq c c) eq_refl), andb_false_r.
    + intros r Hr. by apply Hin.
    + intros r Hr. by apply Hin.
  - apply last_None in Hlast. rewrite Hlast. simpl. by destruct kp.2.
Qed.
End RepositoryRun.

(** ** What a recorded probe decides *)

Section Recorded.
Context `{RelayIdentity}.

(** A recorded probe decides when its actor is next due: at the persisted
    deadline and not before, whatever else the database holds. The deadline is
    six hours after a reachable probe and after the fourth failure in a row, one,
    two and four hours after the first three failures, and a week once the actor
    was last known online a week ago. *)
Theorem recorded_probe_schedules c intent t d d' :
  db_ok d → clock_ok t →
  perform c (OpReachability intent) t d = (Ok ReachabilityWriteApplied, d') →
  let a := reach_actor intent in
  let now := unix_of t in
  let failures := next_streak (actor_failure_streak <$> diagnostics d !! a) in
  let next :=
    if reach_actor_state intent ≟ ReachabilityUnreachable then
      if last_known_online d a (observations d !! a ≫= actor_last_success) <=? now - 604800 then now + 604800
      else if failures =? 1 then now + 3600 else if failures =? 2 then now + 7200
      else if failures =? 3 then now + 14400 else now + 21600
    else now + 21600 in
  actor_checked d' a = Some now ∧
  ∀ later, due_at later d' a = (next <=? later).
Proof.
  intros Hd Ht Hp a now failures next. apply performed_ok in Hp; [|done|done]. simpl in Hp.
  unfold RecordReachabilityObservation_promise, require in Hp. fold a in Hp. fold now in Hp.
  destruct (validateReachabilityObservationIntent intent) eqn:Hval; [|done].
  destruct (0 <=? now); [|done]. destruct (negb (eligible_now d a) || _); [done|].
  destruct (len (reach_inbox_url intent) <=? 4096); [|done]. injection Hp as <-.
  assert (Hobs : actor_last_checked (probe_observation intent now d) = Some now).
  { unfold probe_observation. by destruct (reach_actor_state intent ≟ ReachabilityReachable). }
  assert (Hnext : next_check_at (probe_diagnostic intent now d) = next ∧
                  diagnostic_updated (probe_diagnostic intent now d) = now).
  { assert (Hs : (probe_schedule intent now d).2 = next).
    { unfold probe_schedule, next, retry_of_streak, observation_at. fold a. fold failures.
      change (seconds_of ReachabilityUnreachableRetry) with 604800.
      replace (actor_last_success match observations d !! a with Some o => o | None => empty_observation now end)
        with (observations d !! a ≫= actor_last_success) by (by destruct (observations d !! a)).
      destruct (reach_actor_state intent ≟ ReachabilityUnreachable); [|done]. simpl.
      destruct (_ <=? _); [done|]. destruct (failures =? 1); [done|]. destruct (failures =? 2); [done|].
      by destruct (failures =? 3). }
    unfold probe_diagnostic. destruct (probe_schedule intent now d) as [streak n]; simpl in Hs.
    fold a. by destruct (diagnostics d !! a). }
  destruct Hnext as [Hn Hu]. unfold actor_checked, due_at, reachability_due, put_diagnostic, put_observation. simpl.
  fold a. rewrite !lookup_insert_eq. simpl. rewrite Hobs. split; [done|]. intros later.
  rewrite Hn, Hu, Z.eqb_refl. simpl. by rewrite orb_false_r.
Qed.

Lemma long_inbox_refused intent t d :
  db_ok d → clock_ok t → 0 ≤ unix_of t →
  validateReachabilityObservationIntent intent = true →
  4096 < len (reach_inbox_url intent) →
  eligible_now d (reach_actor intent) = true →
  (∀ checked, actor_checked d (reach_actor intent) = Some checked → checked < unix_of t) →
  RecordReachabilityObservation plain_call intent t d =
  (Err (storageFailure "write reachable observation" ErrConstraint), d).
Proof.
  intros Hd Ht H0 Hval Hlen He Hc.
  change (perform plain_call (OpReachability intent) t d =
          (Err (storageFailure "write reachable observation" ErrConstraint), d)).
  rewrite perform_plain by done. simpl.
  unfold RecordReachabilityObservation_promise, require, kept. rewrite Hval, (proj2 (Z.leb_le _ _) H0), He.
  replace (match actor_checked d (reach_actor intent) with Some v => unix_of t <=? v | None => false end) with false
    by (destruct (actor_checked d (reach_actor intent)) as [v|]; [|done]; specialize (Hc v eq_refl); symmetry; bool_lia).
  simpl. by rewrite (proj2 (Z.leb_gt _ _) Hlen).
Qed.

(** An actor whose document declares a canonical inbox URL longer than the
    column stalls the maintenance run: the method accepts the probe answer, the
    storage refuses it, the run stops at this candidate, and as nothing was
    written the candidate is first again in the next run. *)
Theorem long_inbox_stalls_run p t d a checked rest intent :
  db_ok d → clock_ok t → 0 ≤ unix_of t →
  order_by reachability_key (due_rows (unix_of t) d) = (a, checked) :: rest →
  probeOne false p a = Ok intent → reach_actor intent = a →
  validateReachabilityObservationIntent intent = true →
  4096 < len (reach_inbox_url intent) →
  @Run _ db (repository_world p) t d =
  Some (scanned_one (start_result t), Some (storageFailure "write reachable observation" ErrConstraint), d).
Proof.
  intros Hd Ht H0 Hrows Hprobe Ha Hval Hlen.
  assert (Hmax : unix_of t ≤ int64_max).
  { unfold clock_ok in Ht. change (seconds_of ReachabilityUnreachableRetry) with 604800 in Ht. lia. }
  assert (Hin : In (a, checked) (due_rows (unix_of t) d)).
  { apply (order_by_in reachability_key). rewrite Hrows. by left. }
  destruct (candidate_row_ok _ _ _ Hd (conj H0 Hmax) Hin) as (_&Hl&Hc).
  apply due_rows_in in Hin as (He&_&Hchk).
  set (q := ReachabilityQuery reachability_start 24 t).
  assert (Hq : reachability_query_ok q = true).
  { unfold reachability_query_ok; simpl. by rewrite (proj2 (Z.leb_le _ _) H0). }
  pose proof (candidates_read q d Hd Hmax Hq) as Hread.
  pose proof (repository_page_valid q d _ Hd Hmax Hq Hread) as Hpage.
  unfold q in Hread at 2 3 4, Hpage. cbn [reach_after reach_limit reach_observed] in Hread, Hpage.
  assert (Hfirst : ∃ more, (keyset_page reachability_key (cursor_position reachability_start) 24
                              (due_rows (unix_of t) d)).1 = (a, checked) :: more).
  { rewrite keyset_page_kept, Hrows. unfold rows_after. simpl.
    rewrite <- where_after_key; [by eexists|done| |intros v Hv; by destruct (Hc v Hv)].
    simpl. intros ->. by destruct Hl. }
  destruct Hfirst as [more Hfirst]. unfold Run. cbn [start_result ObservedUnix].
  rewrite (proj2 (Z.ltb_ge _ 0) H0). assert (∃ n, run_fuel = S n) as [n ->] by (by exists 96%nat).
  cbn -[ReachabilityCandidates validatePage record_page probePage].
  change (ReachabilityQuery reachability_start _ t) with q. rewrite Hread.
  change (MaximumReachabilityCandidatePage `min` (MaximumReachabilityAttemptsPerRun - 0)) with 24.
  rewrite Hpage.
  unfold page_of in *. change (Z.to_nat 24) with 24%nat. cbn [reach_candidates]. rewrite Hfirst. simpl. rewrite Hprobe. simpl.
  rewrite long_inbox_refused; try done; rewrite ?Ha; [done|].
  intros v Hv. rewrite <- Hchk in Hv. destruct (Hc v Hv) as [_ Hle]. simpl in Hle.
  change (seconds_of ReachabilityFailureRetryMinimum) with 3600 in Hle. lia.
Qed.
End Recorded.

(** ** Concrete runs *)

Lemma sample_enrolled_clock : 0 ≤ unix_of beat_time ≤ int64_max.
Proof. by vm_compute. Qed.

Lemma reachability_candidates_complete_witness :
  ∃ l, (∀ fuel, (length l < fuel)%nat →
          candidates_walk fuel (ReachabilityQuery reachability_start 24 beat_time) sample_enrolled = Ok l) ∧
       strictly_sorted candidate_key l ∧
       ∀ a c, In (ReachabilityCandidate a c) l ↔
              eligible_now sample_enrolled a = true ∧ due_at (unix_of beat_time) sample_enrolled a = true ∧
              c = actor_checked sample_enrolled a.
Proof.
  apply (reachability_candidates_complete 24 beat_time sample_enrolled sample_enrolled_ok sample_enrolled_clock).
  by vm_compute.
Defined.

(** A prober that finds the probed actor with one inbox. *)
Definition inbox_prober (inbox : string) (answer : result failure inbox_probe) : prober := {|
  ProbeActor a := Ok (ActorProbe a inbox); ProbeInbox _ := answer;
  ProbeActorDetailed := None; ProbeInboxDetailed := None |}.

Definition sample_probe (inbox : string) : ReachabilityObservationIntent := {|
  reach_actor := sample_actor; reach_actor_state := ReachabilityReachable; reach_inbox_url := inbox;
  reach_inbox_state := InboxResponsive; reach_actor_diagnostic := no_diagnostic;
  reach_inbox_diagnostic := no_diagnostic |}.
Definition sample_inbox := "https://relay.example/inbox".
Fixpoint letters (n : nat) : string := match n with O => "" | S n => String.append "a" (letters n) end.
Definition long_inbox := String.append "https://relay.example/" (letters 4096).

Lemma probeOne_valid_witness :
  reach_actor (sample_probe sample_inbox) = sample_actor ∧
  validateReachabilityObservationIntent (sample_probe sample_inbox) = true.
Proof.
  assert (Hc : canonical_actor sample_actor = true) by evaluate.
  assert (Hp : probeOne false (inbox_prober sample_inbox (Ok InboxProbeResponsive)) sample_actor =
               Ok (sample_probe sample_inbox)) by evaluate.
  refine (probeOne_valid false (inbox_prober sample_inbox (Ok InboxProbeResponsive)) sample_actor _ Hc _ Hp).
  intros found [= <-]. right. evaluate.
Defined.

Lemma recorded_probe_schedules_witness :
  let d' := after (OpReachability (sample_probe sample_inbox)) beat_time sample_enrolled in
  accepts (OpReachability (sample_probe sample_inbox)) beat_time sample_enrolled ReachabilityWriteApplied ∧
  actor_checked d' sample_actor = Some 2000 ∧ ∀ later, due_at later d' sample_actor = (23600 <=? later).
Proof.
  intros d'.
  assert (Hp : accepts (OpReachability (sample_probe sample_inbox)) beat_time sample_enrolled ReachabilityWriteApplied)
    by evaluate.
  split; [exact Hp|].
  exact (recorded_probe_schedules plain_call (sample_probe sample_inbox) beat_time sample_enrolled d'
           sample_enrolled_ok ltac:(clock) Hp).
Defined.

Lemma long_inbox_stalls_run_witness :
  @Run _ db (repository_world (inbox_prober long_inbox (Ok InboxProbeResponsive))) beat_time sample_enrolled =
  Some (scanned_one (start_result beat_time),
        Some (storageFailure "write reachable observation" ErrConstraint), sample_enrolled).
Proof.
  assert (H0 : 0 ≤ unix_of beat_time) by evaluate.
  assert (Hrows : order_by reachability_key (due_rows (unix_of beat_time) sample_enrolled) = [(sample_actor, None)])
    by evaluate.
  assert (Hprobe : probeOne false (inbox_prober long_inbox (Ok InboxProbeResponsive)) sample_actor =
                   Ok (sample_probe long_inbox)) by evaluate.
  assert (Hval : validateReachabilityObservationIntent (sample_probe long_inbox) = true) by evaluate.
  assert (Hlen : 4096 < len (reach_inbox_url (sample_probe long_inbox))) by evaluate.
  exact (long_inbox_stalls_run _ beat_time sample_enrolled sample_actor None [] (sample_probe long_inbox)
           sample_enrolled_ok ltac:(clock) H0 Hrows Hprobe eq_refl Hval Hlen).
Defined.
