(* ===== verification/PruningFacts.v ===== *)
(** * PruningFacts: candidate pages, the soft-pruning run and its effect

    Candidate pages are keyset pages of valid rows; a run over the repository
    prunes the due relays in order up to its bound; a run over any repository
    returns and counts what it scanned. *)
From S2P Require Import Prelude Identity Vocabulary Store Repository Lifecycle Reachability Pruning Invariant Contract Refinement System Guarantees ReachabilityFacts.
Local Open Scope string_scope.
Local Open Scope Z_scope.
Local Open Scope go_scope.
Local Open Scope list_scope.

(** The relays due for soft pruning at second [now], in the order of the query. *)
Definition prune_rows_at (now : Z) (d : db) : list (string * relay_row) :=
  prune_rows (dead_cutoff now) (fresh_cutoff now) d.
Definition due_relays (now : Z) (d : db) : list (string * relay_row) :=
  order_by prune_key (prune_rows_at now d).
Definition due_relay (now : Z) (d : db) (a : string) (r : relay_row) : Prop :=
  relays d !! a = Some r ∧ prune_due (dead_cutoff now) (fresh_cutoff now) d a r = true.

Lemma prune_rows_in now d a r : In (a, r) (prune_rows_at now d) ↔ due_relay now d a r.
Proof.
  unfold prune_rows_at, prune_rows, due_relay. rewrite filter_In, <- list_elem_of_In. simpl.
  by rewrite elem_of_map_to_list.
Qed.

Lemma due_relays_in now d a r : In (a, r) (due_relays now d) ↔ due_relay now d a r.
Proof. unfold due_relays. by rewrite order_by_in, prune_rows_in. Qed.

Lemma prune_rows_NoDup now d : NoDup (prune_rows_at now d).
Proof. apply NoDup_ListNoDup, List.NoDup_filter, NoDup_ListNoDup, NoDup_map_to_list. Qed.

Lemma prune_rows_keys now d : NoDup (prune_key <$> prune_rows_at now d).
Proof.
  apply NoDup_fmap_2_strong; [|apply prune_rows_NoDup].
  intros [a r] [b s] Hx Hy. rewrite list_elem_of_In, prune_rows_in in Hx, Hy. unfold prune_key; simpl.
  intros [= _ ->]. destruct Hx as [Hx _], Hy as [Hy _]. congruence.
Qed.

Lemma due_relays_sorted now d : strictly_sorted prune_key (due_relays now d).
Proof. apply order_by_sorted, prune_rows_keys. Qed.

Section PruningFacts.
Context `{RelayIdentity}.

(** ** The candidate read on a valid database *)

Definition candidate_of_relay (row : string * relay_row) : prune_candidate :=
  PruneCandidate row.1 (public_base_url row.2) (administrative_state row.2) (last_seen_at_unix row.2).
Definition prune_position (row : string * relay_row) : prune_cursor :=
  candidate_position (candidate_of_relay row).

Lemma relay_row_valid d a r : db_ok d → relays d !! a = Some r →
  a ≠ "" ∧ validateIdentityIntent a = true ∧ canonical_actor a = true ∧
  canonical_identity a (public_base_url r) = true ∧ 0 ≤ last_seen_at_unix r ∧
  RelayAdministrativeState_Valid (administrative_state r) = true.
Proof.
  intros Hd Hr. destruct (inv_relays _ _ Hd a r Hr) as [Hc Hi].
  pose proof (canonical_identity_actor _ _ Hi) as Hcan.
  unfold relay_check, blob_length_between in Hc. bool_facts.
  unfold validateIdentityIntent, maximumRelayActorBytes. rewrite Hcan, Hi.
  rewrite (proj2 (Z.eqb_neq (len a) 0)), (proj2 (Z.ltb_ge 4096 (len a))) by lia.
  split_and!; try done; [|lia]. intros ->. by unfold len in *.
Qed.

Lemma decode_prune_row now d row : db_ok d → In row (due_relays now d) →
  decode_prune (dead_cutoff now) row = Ok (candidate_of_relay row).
Proof.
  destruct row as [a r]. intros Hd [Hr Hdue]%due_relays_in. unfold decode_prune.
  destruct (relay_row_valid d a r Hd Hr) as (_&_&_&->&Hls&->). unfold prune_due in Hdue. bool_facts.
  by rewrite (proj2 (Z.ltb_ge _ 0)), (proj2 (Z.ltb_ge (dead_cutoff now) _)).
Qed.

(** A cursor the query accepts: the start, or the position of a due relay. *)
Definition prune_cursor_ok (now : Z) (c : prune_cursor) : Prop :=
  c = prune_start ∨
  (prune_actor c ≠ "" ∧ validHealthProjectionActor (prune_actor c) = true ∧
   0 ≤ prune_last_seen c ≤ dead_cutoff now).

Lemma prune_cursor_eqb_start c : prune_actor c ≠ "" → prune_cursor_eqb c prune_start = false.
Proof. intros Hne. unfold prune_cursor_eqb; simpl. by rewrite (proj2 (String.eqb_neq _ _) Hne), andb_false_r. Qed.

Lemma prune_position_ok now d row : db_ok d → In row (due_relays now d) →
  prune_cursor_ok now (prune_position row) ∧ prune_actor (prune_position row) ≠ "".
Proof.
  destruct row as [a r]. intros Hd [Hr Hdue]%due_relays_in.
  destruct (relay_row_valid d a r Hd Hr) as (Hne&Hv&_&_&Hls&_). unfold prune_due in Hdue. bool_facts.
  split; [right|done]. split; [done|]. split; [exact Hv|simpl; lia].
Qed.

Lemma prune_candidates_read q d : db_ok d → 0 ≤ unix_of (prune_observed q) →
  prune_cursor_ok (unix_of (prune_observed q)) (prune_after q) →
  0 < prune_limit q ≤ MaximumPruneCandidatePage →
  let page := keyset_page prune_key (cursor_key (prune_after q)) (Z.to_nat (prune_limit q))
                (prune_rows_at (unix_of (prune_observed q)) d) in
  PruneCandidates plain_call q d =
  Ok (PrunePage (map candidate_of_relay page.1)
        (match page.2, list.last page.1 with
         | Some _, Some row => prune_position row
         | _, _ => prune_start
         end)).
Proof.
  intros Hd H0 Hcur [Hl0 Hl1] page. unfold PruneCandidates, run_read, PruneCandidates_query.
  cbn [configured negb plain_call]. set (now := unix_of (prune_observed q)) in *. tx_run. rewrite !check_run.
  rewrite (proj2 (Z.leb_gt _ 0)), (proj2 (Z.ltb_ge _ _) Hl1), (proj2 (Z.ltb_ge now 0)) by lia.
  assert (Hc : prune_cursor_valid (prune_after q) = true ∧
               negb (prune_cursor_eqb (prune_after q) prune_start) &&
               negb (validHealthProjectionActor (prune_actor (prune_after q))) = false ∧
               negb (prune_cursor_eqb (prune_after q) prune_start) &&
               (dead_cutoff now <? prune_last_seen (prune_after q)) = false).
  { destruct Hcur as [->|(Hne&Hv&Hls)]; [done|]. unfold prune_cursor_valid.
    rewrite prune_cursor_eqb_start, Hv, (proj2 (String.eqb_neq _ _) Hne), (proj2 (Z.leb_le _ _)),
      (proj2 (Z.ltb_ge _ _)) by (done || lia). done. }
  destruct Hc as (->&->&->). simpl. tx_run. unfold prune_page_rows. cbv zeta. fold now.
  set (rows := rows_after prune_key _ _). set (limit := Z.to_nat (prune_limit q)).
  rewrite (scan_rows_free _ _ _ candidate_of_relay).
  2:{ intros r Hr. apply (decode_prune_row _ d); [done|]. apply take_in in Hr. by apply filter_In in Hr as [? _]. }
  2:{ simpl. lia. }
  simpl. rewrite Nat.sub_0_r. unfold page, keyset_page. fold limit. fold (due_relays now d).
  change (rows_after prune_key (cursor_key (prune_after q)) (due_relays now d)) with rows.
  destruct (limit <? length (take (S limit) rows))%nat; simpl; rewrite last_map;
    by destruct (list.last (take limit (take (S limit) rows))).
Qed.

(** ** One candidate *)

(** The outcome [SoftPrune] gives a due relay, and the row it leaves. *)
Definition prunable (t : Z) (d : db) (row : string * relay_row) : bool := relay_evidence row.1 d <=? unix_of t.
Definition row_outcome (t : Z) (d : db) (row : string * relay_row) : string :=
  if prunable t d row then PruneApplied else PruneNotEligible.

Lemma relay_evidence_other a b kind t row d : b ≠ a →
  relay_evidence b (log_relay_event a kind t (put_relay a row d)) = relay_evidence b d.
Proof.
  intros Hne. unfold relay_evidence, log_relay_event. rewrite latest_relay_event_append by done. simpl.
  rewrite lookup_insert_ne by done. by rewrite (proj2 (String.eqb_neq a b) (not_eq_sym Hne)).
Qed.

Lemma soft_prune_due row t d : db_ok d → clock_ok t → 0 ≤ unix_of t → due_relay (unix_of t) d row.1 row.2 →
  let d1 := after (OpSoftPrune row.1) t d in
  SoftPrune plain_call row.1 t d = (Ok (row_outcome t d row), d1) ∧ db_ok d1 ∧
  relays d1 !! row.1 = Some (if prunable t d row then prune_relay (unix_of t) row.2 else row.2) ∧
  observations d1 = observations d ∧
  (∀ b, b ≠ row.1 → relays d1 !! b = relays d !! b ∧ relay_evidence b d1 = relay_evidence b d).
Proof.
  destruct row as [a r]. simpl. intros Hd Ht H0 [Hr Hdue].
  destruct (relay_row_valid d a r Hd Hr) as (_&Hv&_).
  assert (Hl : lifecycle_state r = lifecycleRegistered) by (unfold prune_due in Hdue; bool_facts; done).
  assert (Hp : SoftPrune_promise a t d = Ok (row_outcome t d (a, r),
    if prunable t d (a, r) then log_relay_event a eventRelayPruned (unix_of t) (put_relay a (prune_relay (unix_of t) r) d)
    else d)).
  { unfold SoftPrune_promise, require, row_outcome, prunable. rewrite Hv, (proj2 (Z.leb_le _ _) H0), Hr, Hl, Hdue.
    simpl. by destruct (relay_evidence a d <=? unix_of t). }
  pose proof (perform_plain (OpSoftPrune a) t d Hd Ht) as Hplain. simpl in Hplain. rewrite Hp in Hplain.
  unfold kept in Hplain. split_and!.
  - unfold after. simpl. by rewrite Hplain.
  - by apply after_ok.
  - unfold after. simpl. rewrite Hplain. simpl. destruct (prunable t d (a, r)); [apply lookup_insert_eq|done].
  - unfold after. simpl. rewrite Hplain. simpl. by destruct (prunable t d (a, r)).
  - intros b Hb. unfold after. simpl. rewrite Hplain. simpl. destruct (prunable t d (a, r)); [|done].
    rewrite relay_evidence_other by done. simpl. by rewrite lookup_insert_ne.
Qed.

(** ** The rows still to prune *)

(** [d] agrees with the database the run started from on every relay whose
    position is after [pos]. *)
Record ahead (now : Z) (pos : Z * string) (d0 d : db) : Prop := {
  ahead_ok : db_ok d;
  ahead_due : ∀ a r, key_ltb pos (prune_key (a, r)) = true → due_relay now d a r ↔ due_relay now d0 a r;
  ahead_evidence : ∀ a r, key_ltb pos (prune_key (a, r)) = true → due_relay now d0 a r →
    relay_evidence a d = relay_evidence a d0 }.

Lemma ahead_rows now pos d0 d : ahead now pos d0 d →
  rows_after prune_key pos (due_relays now d) = rows_after prune_key pos (due_relays now d0).
Proof.
  intros [_ Hdue _]. apply (StronglySorted_unique prune_key); [apply rows_after_sorted, due_relays_sorted..|].
  assert (Hnd : ∀ d, NoDup (rows_after prune_key pos (due_relays now d))).
  { intros d1. apply NoDup_ListNoDup, List.NoDup_filter. unfold due_relays.
    apply (Permutation_NoDup (symmetry (order_by_perm _ _))), NoDup_ListNoDup, prune_rows_NoDup. }
  apply NoDup_Permutation; [apply Hnd..|]. intros [a r]. unfold rows_after.
  rewrite !list_elem_of_In, !filter_In, !due_relays_in. split; intros [Hin Hk]; (split; [|done]); by apply (Hdue a r).
Qed.

Lemma ahead_step t pos row d0 d : clock_ok t → 0 ≤ unix_of t → ahead (unix_of t) pos d0 d →
  key_ltb pos (prune_key row) = true → due_relay (unix_of t) d row.1 row.2 →
  ahead (unix_of t) (prune_key row) d0 (after (OpSoftPrune row.1) t d).
Proof.
  destruct row as [a r]; simpl. intros Ht H0 [Hok Hsame Hev] Hpos Hdue.
  destruct (soft_prune_due (a, r) t d Hok Ht H0 Hdue) as (_&Hok1&Hrow&Hobs&Hother). simpl in *.
  set (d1 := after (OpSoftPrune a) t d) in *.
  assert (Hcase : ∀ b s, key_ltb (prune_key (a, r)) (prune_key (b, s)) = true → due_relay (unix_of t) d b s → b ≠ a).
  { intros b s Hk [Hb _] ->. destruct Hdue as [Ha _]. assert (s = r) as -> by congruence.
    by rewrite key_ltb_irrefl in Hk. }
  assert (Hlater : ∀ b s, key_ltb (prune_key (a, r)) (prune_key (b, s)) = true → key_ltb pos (prune_key (b, s)) = true)
    by (intros b s; by apply key_ltb_trans).
  split; [done| |].
  - intros b s Hk. rewrite <- Hsame by auto. destruct (decide (b = a)) as [->|Hne].
    + split; [|intros Hd; by destruct (Hcase a s Hk Hd)]. intros [Hs Hd1]. rewrite Hrow in Hs. injection Hs as <-.
      destruct (prunable t d (a, r)); [done|]. by rewrite key_ltb_irrefl in Hk.
    + unfold due_relay. destruct (Hother b Hne) as [-> _]. unfold prune_due. by rewrite Hobs.
  - intros b s Hk Hd0. assert (Hd : due_relay (unix_of t) d b s) by (apply Hsame; auto).
    destruct (Hother b) as [_ ->]; [by apply (Hcase b s)|]. by apply (Hev b s); [apply Hlater|].
Qed.

(** ** The run over the repository *)

(** The repository, undisturbed, with a context that stays open. *)
Definition pruning_world : PruningWorld db := {|
  repository_candidates q d := (PruneCandidates plain_call q d, d);
  repository_prune a t d := SoftPrune plain_call a t d;
  context_done _ := false |}.
#[local] Existing Instance pruning_world.

Definition prune_all (t : Z) (rows : list (string * relay_row)) (d : db) : db :=
  fold_left (λ d row, after (OpSoftPrune row.1) t d) rows d.
Definition count_rows (t : Z) (d0 : db) (rows : list (string * relay_row)) (r : prune_result) : prune_result :=
  fold_left (λ r row, count_outcome (row_outcome t d0 row) r) rows r.
Definition last_position (cursor : prune_cursor) (rows : list (string * relay_row)) : prune_cursor :=
  match list.last rows with Some row => prune_position row | None => cursor end.

Lemma last_position_cons cursor row rows :
  last_position cursor (row :: rows) = last_position (prune_position row) rows.
Proof. unfold last_position. rewrite last_cons. by destruct (list.last rows). Qed.

Lemma count_outcome_scanned t d row r :
  prune_scanned (count_outcome (row_outcome t d row) r) = prune_scanned r + 1 ∧
  prune_truncated (count_outcome (row_outcome t d row) r) = prune_truncated r ∧
  prune_observed_unix (count_outcome (row_outcome t d row) r) = prune_observed_unix r.
Proof. unfold count_outcome, row_outcome. by destruct (prunable t d row). Qed.

Lemma count_rows_scanned t d rows r :
  prune_scanned (count_rows t d rows r) = prune_scanned r + Z.of_nat (length rows) ∧
  prune_truncated (count_rows t d rows r) = prune_truncated r ∧
  prune_observed_unix (count_rows t d rows r) = prune_observed_unix r.
Proof.
  revert r. induction rows as [|row rows IH]; intros r; simpl; [by rewrite Z.add_0_r|].
  destruct (count_outcome_scanned t d row r) as (H1&H2&H3).
  destruct (IH (count_outcome (row_outcome t d row) r)) as (->&->&->). rewrite H1, H2, H3. split; [lia|done].
Qed.

Lemma prune_page_run t rows rest cursor r d0 d : clock_ok t → 0 ≤ unix_of t →
  ahead (unix_of t) (cursor_key cursor) d0 d → db_ok d0 →
  rows_after prune_key (cursor_key cursor) (due_relays (unix_of t) d0) = rows ++ rest →
  prune_page_loop t (dead_cutoff (unix_of t)) cursor (map candidate_of_relay rows) r d =
    (inl (count_rows t d0 rows r, last_position cursor rows), prune_all t rows d) ∧
  ahead (unix_of t) (cursor_key (last_position cursor rows)) d0 (prune_all t rows d) ∧
  rows_after prune_key (cursor_key (last_position cursor rows)) (due_relays (unix_of t) d0) = rest.
Proof.
  intros Ht H0. revert cursor r d. induction rows as [|row rows IH]; intros cursor r d Hah Hd0 Hrows; [done|].
  assert (Hin : In row (rows_after prune_key (cursor_key cursor) (due_relays (unix_of t) d0))).
  { rewrite Hrows. by left. }
  apply filter_In in Hin as [Hin Hk]. assert (Hin' := Hin).
  destruct row as [a s]. apply due_relays_in in Hin. assert (Hdue : due_relay (unix_of t) d a s) by (by apply Hah).
  destruct (soft_prune_due (a, s) t d (ahead_ok _ _ _ _ Hah) Ht H0 Hdue) as (Hp&_).
  assert (Hout : row_outcome t d (a, s) = row_outcome t d0 (a, s)).
  { unfold row_outcome, prunable. simpl. by rewrite (ahead_evidence _ _ _ _ Hah a s Hk Hin). }
  assert (Hcont : rows_after prune_key (cursor_key (prune_position (a, s))) (due_relays (unix_of t) d0) = rows ++ rest).
  { apply (rows_after_continue prune_key _ (cursor_key cursor) [] (a, s)); [apply due_relays_sorted|done]. }
  destruct (IH (prune_position (a, s)) (count_outcome (row_outcome t d0 (a, s)) r)
               (after (OpSoftPrune a) t d)) as (Hrun&Hah'&Hrest).
  { by apply (ahead_step t (cursor_key cursor) (a, s)). }
  { done. }
  { done. }
  rewrite last_position_cons. split; [|done].
  change (count_rows t d0 ((a, s) :: rows) r) with (count_rows t d0 rows (count_outcome (row_outcome t d0 (a, s)) r)).
  change (prune_all t ((a, s) :: rows) d) with (prune_all t rows (after (OpSoftPrune a) t d)).
  rewrite <- Hrun. clear Hrun. simpl.
  destruct (relay_row_valid d0 a s Hd0 (proj1 Hin)) as (Hne&_&Hcan&_&Hls&Hadm).
  destruct (prune_position_ok _ _ _ Hd0 Hin') as [_ Hne'].
  unfold prune_cursor_valid. rewrite prune_cursor_eqb_start by done. simpl.
  rewrite (proj2 (Z.leb_le _ _) Hls), (proj2 (String.eqb_neq _ _) Hne), Hcan, Hadm.
  assert (Hcut : (dead_cutoff (unix_of t) <? last_seen_at_unix s) = false).
  { destruct Hin as [_ Hdc]. unfold prune_due in Hdc. bool_facts. bool_lia. }
  assert (Hafter : prune_cursorAfter (prune_position (a, s)) cursor = true).
  { unfold prune_cursorAfter, cursor_key, prune_key in *. unfold key_ltb in Hk. simpl in *.
    change (key_ltb (prune_last_seen cursor) (last_seen_at_unix s)) with (prune_last_seen cursor <? last_seen_at_unix s) in Hk.
    change (key_ltb (last_seen_at_unix s) (prune_last_seen cursor)) with (last_seen_at_unix s <? prune_last_seen cursor) in Hk.
    apply orb_true_iff in Hk as [->|[Hge%negb_true_iff Hs]%andb_true_iff]; [done|].
    destruct (Z.ltb_spec (prune_last_seen cursor) (last_seen_at_unix s)); [done|]. simpl.
    bool_facts. by rewrite (proj2 (Z.eqb_eq _ _)), Hs by lia. }
  rewrite Hcut. change (candidate_position (candidate_of_relay (a, s))) with (prune_position (a, s)).
  rewrite Hafter. simpl. simpl in Hp. rewrite Hp, Hout.
  assert (Hv : PruneOutcome_Valid (row_outcome t d0 (a, s)) = true) by (unfold row_outcome; by destruct (prunable t d0 (a, s))).
  by rewrite Hv.
Qed.

Lemma count_rows_app t d rows1 rows2 r :
  count_rows t d (rows1 ++ rows2) r = count_rows t d rows2 (count_rows t d rows1 r).
Proof. apply fold_left_app. Qed.
Lemma prune_all_app t rows1 rows2 d : prune_all t (rows1 ++ rows2) d = prune_all t rows2 (prune_all t rows1 d).
Proof. apply fold_left_app. Qed.

(** What a run leaves of [rows] within a budget of [n] attempts. *)
Definition run_result (t : Z) (n : nat) (rows : list (string * relay_row)) (r : prune_result) (d0 d : db)
    : prune_result * option error * db :=
  let done := count_rows t d0 (take n rows) r in
  (if (n <? length rows)%nat then set_truncated done else done, None, prune_all t (take n rows) d).

Lemma run_result_continue t n k rows r d0 d : (k <= n)%nat → (k <= length rows)%nat →
  run_result t (n - k) (drop k rows) (count_rows t d0 (take k rows) r) d0 (prune_all t (take k rows) d) =
  run_result t n rows r d0 d.
Proof.
  intros Hn Hl. unfold run_result. rewrite <- count_rows_app, <- prune_all_app, take_take_drop, length_drop.
  replace (k + (n - k))%nat with n by lia.
  by destruct (Nat.ltb_spec (n - k) (length rows - k)), (Nat.ltb_spec n (length rows)); try lia.
Qed.

(** The page the run reads: the next rows still to prune, with a continuation
    exactly when more remain. *)
Lemma run_page t cursor limit d0 d rows : 0 ≤ unix_of t → 0 < limit ≤ MaximumPruneCandidatePage →
  ahead (unix_of t) (cursor_key cursor) d0 d → prune_cursor_ok (unix_of t) cursor →
  rows_after prune_key (cursor_key cursor) (due_relays (unix_of t) d0) = rows →
  PruneCandidates plain_call (PruneQuery cursor limit t) d =
  Ok (PrunePage (map candidate_of_relay (take (Z.to_nat limit) rows))
        (if (Z.to_nat limit <? length rows)%nat then last_position cursor (take (Z.to_nat limit) rows)
         else prune_start)).
Proof.
  intros H0 Hlim Hah Hcur Hrows. rewrite prune_candidates_read; [|apply Hah|done|done|done].
  cbn [prune_after prune_limit prune_observed]. unfold keyset_page.
  fold (due_relays (unix_of t) d). rewrite (ahead_rows _ _ _ _ Hah), Hrows.
  rewrite length_take, take_take, (Nat.min_l (Z.to_nat limit) (S (Z.to_nat limit))) by lia.
  replace (Z.to_nat limit <? S (Z.to_nat limit) `min` length rows)%nat with (Z.to_nat limit <? length rows)%nat.
  2:{ destruct (Nat.ltb_spec (Z.to_nat limit) (length rows)),
        (Nat.ltb_spec (Z.to_nat limit) (S (Z.to_nat limit) `min` length rows)); lia || done. }
  destruct (Nat.ltb_spec (Z.to_nat limit) (length rows)); simpl; [|done]. unfold last_position.
  destruct (list.last (take (Z.to_nat limit) rows)) eqn:Hlast; [done|]. simpl.
  apply last_None, (f_equal length) in Hlast. rewrite length_take in Hlast. simpl in Hlast. lia.
Qed.

(** After a nonempty page the run stands at the position of a due relay. *)
Lemma last_position_ok now d0 k rows cursor : db_ok d0 → take k rows ≠ [] →
  rows_after prune_key (cursor_key cursor) (due_relays now d0) = rows →
  prune_cursor_ok now (last_position cursor (take k rows)) ∧ prune_actor (last_position cursor (take k rows)) ≠ "" ∧
  prune_cursor_valid (last_position cursor (take k rows)) = true.
Proof.
  intros Hd0 Hne Hrows. unfold last_position. destruct (list.last (take k rows)) as [x|] eqn:Hlast.
  2:{ by apply last_None in Hlast. }
  apply last_some_app in Hlast as [kept Hk].
  assert (Hin : In x (due_relays now d0)).
  { assert (Hx : In x (take k rows)) by (rewrite Hk; apply in_or_app; right; by left).
    apply take_in in Hx. rewrite <- Hrows in Hx. by apply filter_In in Hx as [? _]. }
  destruct (prune_position_ok now d0 x Hd0 Hin) as [Hok Hact]. split; [done|split; [done|]].
  unfold prune_cursor_valid. rewrite prune_cursor_eqb_start by done.
  destruct Hok as [He|(_&_&Hls)]; [by rewrite He in Hact|].
  by rewrite (proj2 (Z.leb_le _ _)), (proj2 (String.eqb_neq _ _) Hact) by lia.
Qed.

Lemma prune_cursor_eqb_refl c : prune_cursor_eqb c c = true.
Proof. unfold prune_cursor_eqb. by rewrite Z.eqb_refl, String.eqb_refl. Qed.

Lemma prune_loop_run fuel t cursor r rows d0 d : clock_ok t → 0 ≤ unix_of t → db_ok d0 →
  ahead (unix_of t) (cursor_key cursor) d0 d → prune_cursor_ok (unix_of t) cursor →
  rows_after prune_key (cursor_key cursor) (due_relays (unix_of t) d0) = rows →
  0 ≤ prune_scanned r < MaximumSoftPruneAttemptsPerRun →
  MaximumSoftPruneAttemptsPerRun < prune_scanned r + Z.of_nat fuel →
  prune_loop fuel t (dead_cutoff (unix_of t)) cursor r d =
  Some (run_result t (Z.to_nat (MaximumSoftPruneAttemptsPerRun - prune_scanned r)) rows r d0 d).
Proof.
  intros Ht H0 Hd0. revert cursor r rows d.
  induction fuel as [|fuel IH]; intros cursor r rows d Hah Hcur Hrows Hscan Hfuel; [lia|]. simpl.
  rewrite (proj2 (Z.ltb_lt _ _)) by lia. cbn [negb].
  set (n := Z.to_nat (MaximumSoftPruneAttemptsPerRun - prune_scanned r)).
  set (limit := MaximumPruneCandidatePage `min` (MaximumSoftPruneAttemptsPerRun - prune_scanned r)).
  assert (Hlim : 0 < limit ≤ MaximumPruneCandidatePage) by (unfold limit, MaximumPruneCandidatePage in *; lia).
  assert (Hln : (Z.to_nat limit <= n)%nat) by (unfold n, limit; lia).
  rewrite (run_page t cursor limit d0 d rows) by done. cbn [prune_candidates prune_next]. rewrite length_map.
  destruct (prune_page_run t (take (Z.to_nat limit) rows) (drop (Z.to_nat limit) rows) cursor r d0 d)
    as (Hpage&Hah'&Hrest); [done|done|done|done|by rewrite take_drop|].
  destruct (count_rows_scanned t d0 (take (Z.to_nat limit) rows) r) as (Hs1&_&_). rewrite length_take in *.
  destruct (Nat.eqb_spec (Z.to_nat limit `min` length rows) 0) as [Hz|Hnz].
  { assert (rows = []) as -> by (destruct rows; [done|]; simpl in Hz; lia). unfold run_result. by rewrite !take_nil. }
  rewrite (proj2 (Z.ltb_ge limit _)) by lia. rewrite Hpage.
  destruct (Nat.ltb_spec (Z.to_nat limit) (length rows)) as [Hlong|Hshort].
  - destruct (last_position_ok (unix_of t) d0 (Z.to_nat limit) rows cursor) as (Hok&Hact&Hpv); [done| |done|].
    { intros He. apply (f_equal length) in He. rewrite length_take in He. simpl in He. lia. }
    rewrite prune_cursor_eqb_start, Hpv, prune_cursor_eqb_refl by done. cbn [negb orb].
    rewrite Nat.min_l in Hs1 by lia.
    destruct (Z.eqb_spec (prune_scanned (count_rows t d0 (take (Z.to_nat limit) rows) r)) MaximumSoftPruneAttemptsPerRun)
      as [He|Hne].
    + assert (Hn : n = Z.to_nat limit) by (unfold n; lia). unfold run_result. rewrite Hn.
      by rewrite (proj2 (Nat.ltb_lt _ _) Hlong).
    + rewrite (IH _ _ (drop (Z.to_nat limit) rows)); [|done|done|done|unfold limit, MaximumPruneCandidatePage in *; lia..].
      rewrite Hs1. replace (Z.to_nat _) with (n - Z.to_nat limit)%nat by (unfold n; lia).
      by rewrite run_result_continue by lia.
  - unfold run_result. rewrite !take_ge by lia. by rewrite (proj2 (Nat.ltb_ge n (length rows))) by lia.
Qed.

(** What pruning distinct due relays one after the other leaves. *)
Lemma prune_all_rows t rows d : clock_ok t → 0 ≤ unix_of t → db_ok d → NoDup (fst <$> rows) →
  (∀ row, In row rows → due_relay (unix_of t) d row.1 row.2) →
  db_ok (prune_all t rows d) ∧
  (∀ row, In row rows → relays (prune_all t rows d) !! row.1 =
     Some (if prunable t d row then prune_relay (unix_of t) row.2 else row.2)) ∧
  (∀ a, (∀ r, ¬ In (a, r) rows) → relays (prune_all t rows d) !! a = relays d !! a).
Proof.
  intros Ht H0. revert d. induction rows as [|[a r] rows IH]; intros d Hd Hnd Hdue; simpl.
  { split; [done|]. split; [by intros row []|done]. }
  apply list.NoDup_cons in Hnd as [Hni Hnd]. simpl in Hni.
  destruct (soft_prune_due (a, r) t d Hd Ht H0 (Hdue _ (or_introl eq_refl))) as (_&Hd1&Hrow&Hobs&Hother). simpl in *.
  assert (Hne : ∀ row, In row rows → row.1 ≠ a).
  { intros row Hin <-. apply Hni, list_elem_of_fmap_2. by apply list_elem_of_In. }
  destruct (IH (after (OpSoftPrune a) t d)) as (Hok&Hrows&Hrest); [done|done| |].
  { intros row Hin. destruct (Hdue row (or_intror Hin)) as [Hr Hp]. destruct (Hother _ (Hne _ Hin)) as [Hsame _].
    split; [congruence|]. unfold prune_due in *. by rewrite Hobs. }
  split; [done|]. split.
  - intros row [<-|Hin]; simpl.
    + rewrite Hrest; [done|]. intros s Hin. by destruct (Hne _ Hin).
    + rewrite (Hrows row Hin). unfold prunable. by destruct (Hother _ (Hne _ Hin)) as [_ ->].
  - intros b Hb. rewrite Hrest by (intros s Hin; by apply (Hb s); right).
    apply Hother. intros ->. by apply (Hb r); left.
Qed.

Lemma NoDup_actors rows : strictly_sorted prune_key rows →
  (∀ x y, In x rows → In y rows → x.1 = y.1 → x = y) → NoDup (fst <$> rows).
Proof.
  intros Hs Hinj. unfold strictly_sorted in Hs. induction Hs as [|x rows Hs IH Hf]; simpl; [constructor|].
  apply list.NoDup_cons. split; [|apply IH; intros; apply Hinj; by right || done].
  intros (y&He&Hy)%list_elem_of_fmap. apply list_elem_of_In in Hy.
  rewrite (Hinj x y (or_introl eq_refl) (or_intror Hy) He), Forall_forall in Hf. specialize (Hf y Hy).
  by rewrite key_ltb_irrefl in Hf.
Qed.

(** Outcomes of a list of rows, as the counters of the result. *)
Lemma count_rows_pruned t d rows r :
  prune_pruned (count_rows t d rows r) = prune_pruned r + Z.of_nat (length (List.filter (prunable t d) rows)) ∧
  prune_pruned (count_rows t d rows r) + prune_skipped (count_rows t d rows r) =
  prune_pruned r + prune_skipped r + Z.of_nat (length rows).
Proof.
  revert r. induction rows as [|row rows IH]; intros r; simpl; [lia|].
  destruct (IH (count_outcome (row_outcome t d row) r)) as [H1 H2]. rewrite H1 in *.
  unfold count_outcome, row_outcome in *. destruct (prunable t d row); simpl in *; lia.
Qed.

(** C14: A soft-pruning run over an undisturbed repository examines the relays
    dead for the retention period and not recently reachable, oldest last sighting
    first, up to 1000 of them: each becomes pruned exactly when none of its
    recorded events is later than the run, every other relay keeps its row, the
    counters report this, and the result is marked truncated exactly when more
    were due. *)
Theorem PruneRun_prunes_due t d : db_ok d → clock_ok t → 0 ≤ unix_of t →
  let due := due_relays (unix_of t) d in
  let examined := take 1000 due in
  ∃ r d', PruneRun t d = Some (r, None, d') ∧ db_ok d' ∧
    prune_scanned r = Z.of_nat (length examined) ∧
    prune_pruned r = Z.of_nat (length (List.filter (prunable t d) examined)) ∧
    prune_pruned r + prune_skipped r = prune_scanned r ∧
    prune_truncated r = (1000 <? length due)%nat ∧
    (∀ row, In row examined → relays d' !! row.1 =
       Some (if prunable t d row then prune_relay (unix_of t) row.2 else row.2)) ∧
    (∀ a, (∀ r, ¬ In (a, r) examined) → relays d' !! a = relays d !! a).
Proof.
  intros Hd Ht H0 due examined.
  assert (Hstart : rows_after prune_key (cursor_key prune_start) due = due).
  { apply filter_all_true. intros [a r] [Hr _]%due_relays_in.
    destruct (relay_row_valid d a r Hd Hr) as (Hne&_&_&_&Hls&_). unfold prune_key, cursor_key; simpl.
    unfold key_ltb; simpl. change (key_ltb 0 (last_seen_at_unix r)) with (0 <? last_seen_at_unix r).
    change (key_ltb (last_seen_at_unix r) 0) with (last_seen_at_unix r <? 0).
    destruct (Z.ltb_spec 0 (last_seen_at_unix r)); [done|]. rewrite (proj2 (Z.ltb_ge _ 0) Hls). by apply key_ltb_string_empty. }
  set (r0 := PruneResult (unix_of t) 0 0 0 false).
  assert (Hrun : PruneRun t d = Some (run_result t 1000 due r0 d d)).
  { unfold PruneRun. rewrite (proj2 (Z.ltb_ge _ 0) H0). cbn [context_done pruning_world].
    rewrite (prune_loop_run _ t prune_start r0 due d d); try done; by left. }
  destruct (prune_all_rows t examined d Ht H0 Hd) as (Hok&Hrows&Hrest).
  { apply NoDup_actors.
    - unfold examined. pose proof (due_relays_sorted (unix_of t) d) as Hs. fold due in Hs.
      rewrite <- (take_drop 1000 due) in Hs. by apply StronglySorted_app_parts in Hs as (?&_&_).
    - intros [a r] [b s] [Hx _]%take_in%due_relays_in [Hy _]%take_in%due_relays_in. simpl. congruence. }
  { intros [a r] Hin. by apply due_relays_in, (take_in _ 1000). }
  unfold run_result in Hrun. fold examined in Hrun. eexists _, _. split; [exact Hrun|].
  destruct (count_rows_scanned t d examined r0) as (Hs&Htr&_), (count_rows_pruned t d examined r0) as [Hp Hk].
  split; [exact Hok|]. set (x := count_rows t d examined r0) in *. clearbody x. simpl in Hs, Htr, Hp, Hk.
  destruct (1000 <? length due)%nat; simpl; (split; [lia|]; split; [lia|]; split; [lia|]; split; [done|]; by split).
Qed.
End PruningFacts.

(** ** The run over any repository *)

Section AnyRepository.
Context `{RelayIdentity} {W : Type} `{PruningWorld W}.

Definition prune_counts (r : prune_result) : Prop :=
  0 ≤ prune_pruned r ∧ 0 ≤ prune_skipped r ∧ prune_scanned r = prune_pruned r + prune_skipped r.
Definition prune_report (r : prune_result) (e : option error) : Prop :=
  prune_counts r ∧ prune_scanned r ≤ MaximumSoftPruneAttemptsPerRun ∧
  (prune_truncated r = true → e = None ∧ prune_scanned r = MaximumSoftPruneAttemptsPerRun).

Lemma count_outcome_counts outcome r : prune_counts r →
  prune_counts (count_outcome outcome r) ∧ prune_scanned (count_outcome outcome r) = prune_scanned r + 1 ∧
  prune_truncated (count_outcome outcome r) = prune_truncated r.
Proof. unfold prune_counts, count_outcome. destruct (outcome ≟ PruneApplied); simpl; intros; (split; [lia|]); by split. Qed.

Lemma prune_page_counts t cutoff position candidates r w x w' : prune_counts r → prune_truncated r = false →
  prune_page_loop t cutoff position candidates r w = (x, w') →
  match x with
  | inl (r', _) => prune_counts r' ∧ prune_truncated r' = false ∧
                   prune_scanned r' = prune_scanned r + Z.of_nat (length candidates)
  | inr (r', _) => prune_counts r' ∧ prune_truncated r' = false ∧
                   prune_scanned r' ≤ prune_scanned r + Z.of_nat (length candidates)
  end.
Proof.
  revert position r w. induction candidates as [|c candidates IH]; intros position r w Hr Ht; simpl.
  { intros [= <- <-]. split; [done|split; [done|lia]]. }
  destruct (_ || negb (prune_cursorAfter _ _)). { intros [= <- <-]. split; [done|split; [done|lia]]. }
  destruct (context_done w). { intros [= <- <-]. split; [done|split; [done|lia]]. }
  destruct (repository_prune (pruned_actor c) t w) as [[outcome|e] w1].
  2:{ intros [= <- <-]. split; [done|split; [done|lia]]. }
  destruct (PruneOutcome_Valid outcome); cbn [negb]; [|intros [= <- <-]; split; [done|split; [done|lia]]].
  destruct (count_outcome_counts outcome r Hr) as (Hc&Hs&Htr). intros Hp. apply IH in Hp; [|done|congruence].
  destruct x as [[r' p]|[r' e]]; destruct Hp as (?&?&?); (split; [done|split; [done|lia]]).
Qed.

Lemma prune_loop_reports fuel t cutoff cursor r w : prune_counts r → prune_truncated r = false →
  prune_scanned r ≤ MaximumSoftPruneAttemptsPerRun →
  MaximumSoftPruneAttemptsPerRun < prune_scanned r + Z.of_nat fuel →
  ∃ r' e w', prune_loop fuel t cutoff cursor r w = Some (r', e, w') ∧ prune_report r' e.
Proof.
  assert (Hplain : ∀ r e, prune_counts r → prune_truncated r = false →
            prune_scanned r ≤ MaximumSoftPruneAttemptsPerRun → prune_report r e).
  { intros r0 e ? Ht ?. split; [done|split; [done|by rewrite Ht]]. }
  revert cursor r w. induction fuel as [|fuel IH]; intros cursor r w Hr Ht Hmax Hfuel; [lia|]. simpl.
  destruct (Z.ltb_spec (prune_scanned r) MaximumSoftPruneAttemptsPerRun); cbn [negb]; [|by eauto 10].
  set (limit := Z.min _ _). destruct (repository_candidates _ w) as [[page|e] w1]; [|by eauto 10].
  destruct (Nat.eqb_spec (length (prune_candidates page)) 0); [case_match; by eauto 10|].
  destruct (Z.ltb_spec limit (Z.of_nat (length (prune_candidates page)))); [by eauto 10|].
  destruct (prune_page_loop _ _ _ _ _ _) as [x w2] eqn:Hp. apply prune_page_counts in Hp; [|done|done].
  assert (limit ≤ MaximumSoftPruneAttemptsPerRun - prune_scanned r) by (unfold limit; lia).
  destruct x as [[r' p]|[r' e]]; destruct Hp as (Hc'&Ht'&Hs').
  2:{ eexists _, _, _. split; [done|]. apply Hplain; [done|done|lia]. }
  case_match. { eexists _, _, _. split; [done|]. apply Hplain; [done|done|lia]. }
  case_match. { eexists _, _, _. split; [done|]. apply Hplain; [done|done|lia]. }
  destruct (Z.eqb_spec (prune_scanned r') MaximumSoftPruneAttemptsPerRun) as [He|].
  - eexists _, _, _. split; [done|]. split; [exact Hc'|]. simpl. rewrite He. split; [lia|done].
  - apply IH; [done|done|lia..].
Qed.

(** A soft-pruning run over any repository and context returns: it makes at
    most 1000 attempts, every attempt is counted once as pruned or skipped, and
    only a run that used the whole budget without an error is marked truncated. *)
Theorem PruneRun_reports t w : ∃ r e w', PruneRun t w = Some (r, e, w') ∧ prune_report r e.
Proof.
  unfold PruneRun. destruct (unix_of t <? 0); [|destruct (context_done w)].
  - eexists _, _, _. split; [done|]. by repeat split.
  - eexists _, _, _. split; [done|]. by repeat split.
  - apply prune_loop_reports; [by repeat split|done|by vm_compute|by vm_compute].
Qed.
End AnyRepository.

(** ** A concrete run *)

Definition prune_time := time_of_unix 4000000.

Lemma PruneRun_prunes_due_witness :
  let examined := take 1000 (due_relays (unix_of prune_time) sample_enrolled) in
  examined = [(sample_actor, new_relay "https://relay.example" 1000)] ∧
  ∃ r d', @PruneRun _ db pruning_world prune_time sample_enrolled = Some (r, None, d') ∧ db_ok d' ∧
    prune_scanned r = Z.of_nat (length examined) ∧
    prune_pruned r = Z.of_nat (length (List.filter (prunable prune_time sample_enrolled) examined)) ∧
    prune_pruned r + prune_skipped r = prune_scanned r ∧
    prune_truncated r = (1000 <? length (due_relays (unix_of prune_time) sample_enrolled))%nat ∧
    (∀ row, In row examined → relays d' !! row.1 =
       Some (if prunable prune_time sample_enrolled row then prune_relay (unix_of prune_time) row.2 else row.2)) ∧
    (∀ a, (∀ r, ¬ In (a, r) examined) → relays d' !! a = relays sample_enrolled !! a).
Proof.
  assert (He : take 1000 (due_relays (unix_of prune_time) sample_enrolled) =
               [(sample_actor, new_relay "https://relay.example" 1000)]) by evaluate.
  assert (H0 : 0 ≤ unix_of prune_time) by evaluate.
  split; [exact He|].
  exact (PruneRun_prunes_due prune_time sample_enrolled sample_enrolled_ok ltac:(clock) H0).
Defined.
