(* ===== verification/Health.v ===== *)
(** * Health: classification, the private projection and the public listing

    [ClassifyHealth] of [internal/storage/health.go], and the two bounded listings
    over the same index: [ProjectHealth] of [internal/storage/sqlite/health.go] and
    [ListPublicRelays] of [public_listing.go]. *)
From S2P Require Import Prelude Identity Vocabulary Store Repository Paging Lifecycle Reachability Pruning Invariant Contract Refinement System Guarantees.
Local Open Scope string_scope.
Local Open Scope Z_scope.
Local Open Scope go_scope.
Local Open Scope list_scope.

(** ** Classification *)

Definition ClassifyHealth (lastSeenUnix observedUnix : Z) : result error string :=
  if (lastSeenUnix <? 0) || (observedUnix <? 0) || (observedUnix <? lastSeenUnix) then Err ErrHealthTime
  else
    let ageSeconds := int64_sub observedUnix lastSeenUnix in
    if ageSeconds <=? seconds_of HealthyThrough then Ok HealthHealthy
    else if ageSeconds <? seconds_of StaleBefore then Ok HealthStale
    else if ageSeconds <? seconds_of DeadBefore then Ok HealthDead
    else Ok HealthPrune.

(** ** Cursors, queries and pages *)

Record health_cursor := HealthCursor { health_last_seen : Z; health_actor : string }.
Definition health_start : health_cursor := HealthCursor 0 "".
Definition health_cursor_eqb (x y : health_cursor) : bool :=
  (health_last_seen x =? health_last_seen y) && (health_actor x ≟ health_actor y).
(** [HealthProjectionCursor.Valid] *)
Definition health_cursor_valid (cursor : health_cursor) : bool :=
  if health_cursor_eqb cursor health_start then true
  else (0 <=? health_last_seen cursor) && negb (health_actor cursor ≟ "").

Record health_query := HealthQuery { health_after : health_cursor; health_limit : Z; health_observed : Z }.
Record health_relay := HealthRelay {
  HealthRelayActor : string; HealthPublicBaseURL : string; HealthState : string; HealthLastSeenUnix : Z }.
Record health_page := HealthPage { health_relays : list health_relay; health_next : health_cursor }.

(** [HealthProjectionRelay.PublicEligible] *)
Definition PublicEligible (relay : health_relay) : bool :=
  HealthState_Valid (HealthState relay) && negb (HealthState relay ≟ HealthPrune).

Definition health_relay_cursor (relay : health_relay) : health_cursor :=
  HealthCursor (HealthLastSeenUnix relay) (HealthRelayActor relay).
Definition health_key (row : string * relay_row) : Z * string := (last_seen_at_unix row.2, row.1).
Definition health_position (cursor : health_cursor) : Z * string :=
  (health_last_seen cursor, health_actor cursor).

(** The page of the loop: [Next] names the last relay kept when another row was read. *)
Definition health_page_of (read : list health_relay * bool) : health_page :=
  HealthPage read.1
    (match list.last read.1 with
     | Some relay => if read.2 then health_relay_cursor relay else health_start
     | None => health_start
     end).

(** [WHERE lifecycle_state = 'registered' AND administrative_state = 'active'] *)
Definition visible_relay (r : relay_row) : bool :=
  (lifecycle_state r ≟ lifecycleRegistered) && (administrative_state r ≟ administrativeActive).
Definition projected_rows (d : db) : list (string * relay_row) :=
  List.filter (λ row, visible_relay row.2) (map_to_list (relays d)).
(** and [AND last_seen_at_unix > cutoff] *)
Definition public_rows (cutoffUnix : Z) (d : db) : list (string * relay_row) :=
  List.filter (λ row, visible_relay row.2 && (cutoffUnix <? last_seen_at_unix row.2)) (map_to_list (relays d)).

Section Listings.
Context `{RelayIdentity}.

Definition decode_health (action : string) (observedUnix : Z) (row : string * relay_row)
    : result error health_relay :=
  if negb (canonical_identity row.1 (public_base_url row.2)) then Err (storageFailure action ErrInvalidState)
  else
    match ClassifyHealth (last_seen_at_unix row.2) observedUnix with
    | Err e => Err e
    | Ok state => Ok (HealthRelay row.1 (public_base_url row.2) state (last_seen_at_unix row.2))
    end.
Definition decode_public (observedUnix : Z) (row : string * relay_row) : result error health_relay :=
  match decode_health "validate public relay listing" observedUnix row with
  | Err e => Err e
  | Ok relay => if PublicEligible relay then Ok relay else Err ErrHealthTime
  end.

(** The input checks both methods share, up to their page bound. *)
Definition health_input_ok (maximum : Z) (q : health_query) : bool :=
  let started := negb (health_cursor_eqb (health_after q) health_start) in
  negb (negb (health_cursor_valid (health_after q)) || (health_limit q <=? 0) || (maximum <? health_limit q) ||
        (started && negb (validHealthProjectionActor (health_actor (health_after q))))) &&
  negb ((unix_of (health_observed q) <? 0) ||
        (started && (unix_of (health_observed q) <? health_last_seen (health_after q)))).

Definition ProjectHealth_query (q : health_query) : Tx health_page :=
  check (health_input_ok MaximumHealthProjectionPage q) ErrHealthReadInput ;;
  rows ← wrapped "read health projection"
    (query (λ d, keyset_rows health_key (health_position (health_after q)) (Z.to_nat (health_limit q))
                   (projected_rows d)));
  read ← scan_rows "decode health projection" "iterate health projection"
    (decode_health "validate health projection" (unix_of (health_observed q))) (Z.to_nat (health_limit q)) [] rows;
  mret (health_page_of read).
Definition ProjectHealth (c : call) (q : health_query) (d : db) : result error health_page :=
  run_read c (ProjectHealth_query q) d.

Definition MaximumPublicListingPage : Z := 100.
Definition ListPublicRelays_query (q : health_query) : Tx health_page :=
  check (health_input_ok MaximumPublicListingPage q) ErrHealthReadInput ;;
  let observedUnix := unix_of (health_observed q) in
  let cutoffUnix := int64_sub observedUnix (seconds_of DeadBefore) in
  rows ← wrapped "read public relay listing"
    (query (λ d, keyset_rows health_key (health_position (health_after q)) (Z.to_nat (health_limit q))
                   (public_rows cutoffUnix d)));
  read ← scan_rows "decode public relay listing" "iterate public relay listing"
    (decode_public observedUnix) (Z.to_nat (health_limit q)) [] rows;
  mret (health_page_of read).
Definition ListPublicRelays (c : call) (q : health_query) (d : db) : result error health_page :=
  run_read c (ListPublicRelays_query q) d.
End Listings.

(** ** Classification facts *)

Definition health_rank (state : string) : Z :=
  if state ≟ HealthHealthy then 0 else if state ≟ HealthStale then 1 else if state ≟ HealthDead then 2 else 3.

Lemma ClassifyHealth_age lastSeen observed : 0 ≤ lastSeen ≤ observed → observed ≤ int64_max →
  ClassifyHealth lastSeen observed =
  Ok (if observed - lastSeen <=? 129600 then HealthHealthy
      else if observed - lastSeen <? 604800 then HealthStale
      else if observed - lastSeen <? 2592000 then HealthDead else HealthPrune).
Proof.
  intros Hl Ho. unfold ClassifyHealth. rewrite int64_sub_nonneg by lia.
  rewrite (proj2 (Z.ltb_ge lastSeen 0)), (proj2 (Z.ltb_ge observed 0)), (proj2 (Z.ltb_ge observed lastSeen)) by lia.
  cbn [orb]. change (seconds_of HealthyThrough) with 129600. change (seconds_of StaleBefore) with 604800.
  change (seconds_of DeadBefore) with 2592000. by repeat case_match.
Qed.

(** Health classification is total on past sightings and refuses every other
    time; the four states meet at 36 hours, 7 days and 30 days, and a relay seen
    earlier or observed later never gets a better state. *)
Theorem ClassifyHealth_degrades seen1 seen2 now1 now2 :
  0 ≤ seen1 ≤ seen2 → seen2 ≤ now1 ≤ now2 → now2 ≤ int64_max →
  ∃ s1 s2, ClassifyHealth seen1 now2 = Ok s1 ∧ ClassifyHealth seen2 now1 = Ok s2 ∧
    health_rank s2 ≤ health_rank s1 ∧
    (s2 = HealthHealthy ↔ now1 - seen2 ≤ 129600) ∧
    (s2 = HealthStale ↔ 129600 < now1 - seen2 < 604800) ∧
    (s2 = HealthDead ↔ 604800 ≤ now1 - seen2 < 2592000) ∧
    (s2 = HealthPrune ↔ 2592000 ≤ now1 - seen2) ∧
    ∀ seen now, is_ok (ClassifyHealth seen now) = (0 <=? seen) && (seen <=? now).
Proof.
  intros Hs Hn Hmax. rewrite !ClassifyHealth_age by lia. eexists _, _. split; [done|split; [done|]].
  split; [|split; [|split; [|split; [|split]]]].
  - repeat match goal with |- context [?a <=? ?b] => destruct (Z.leb_spec a b)
           | |- context [?a <? ?b] => destruct (Z.ltb_spec a b) end; vm_compute; try done; lia.
  - destruct (Z.leb_spec (now1 - seen2) 129600); [by split; [lia|]|]. split; [|lia]. by repeat case_match.
  - destruct (Z.leb_spec (now1 - seen2) 129600); [by split; [|lia]|].
    destruct (Z.ltb_spec (now1 - seen2) 604800); [by split; [lia|]|]. split; [|lia]. by repeat case_match.
  - destruct (Z.leb_spec (now1 - seen2) 129600); [by split; [|lia]|].
    destruct (Z.ltb_spec (now1 - seen2) 604800); [by split; [|lia]|].
    destruct (Z.ltb_spec (now1 - seen2) 2592000); [by split; [lia|]|]. split; [|lia]. done.
  - destruct (Z.leb_spec (now1 - seen2) 129600); [by split; [|lia]|].
    destruct (Z.ltb_spec (now1 - seen2) 604800); [by split; [|lia]|].
    destruct (Z.ltb_spec (now1 - seen2) 2592000); [by split; [|lia]|]. by split; [lia|].
  - intros seen now. unfold ClassifyHealth.
    destruct (Z.ltb_spec seen 0), (Z.leb_spec 0 seen); try lia; [done|].
    destruct (Z.ltb_spec now 0), (Z.ltb_spec now seen), (Z.leb_spec seen now); try lia; simpl; try done.
    by repeat case_match.
Qed.

(** ** The listings on a valid database *)

Section ListingFacts.
Context `{RelayIdentity}.

Lemma relay_rows_in f d a r :
  In (a, r) (List.filter f (map_to_list (relays d))) ↔ relays d !! a = Some r ∧ f (a, r) = true.
Proof. by rewrite filter_In, <- list_elem_of_In, elem_of_map_to_list. Qed.

Lemma relay_rows_keys f d : NoDup (health_key <$> List.filter f (map_to_list (relays d))).
Proof.
  apply NoDup_fmap_2_strong.
  - intros [a r] [b s] Hx Hy. rewrite list_elem_of_In, relay_rows_in in Hx, Hy. unfold health_key; simpl.
    intros [= _ ->]. destruct Hx as [Hx _], Hy as [Hy _]. congruence.
  - apply NoDup_ListNoDup, List.NoDup_filter, NoDup_ListNoDup, NoDup_map_to_list.
Qed.

(** No visible relay was last seen after [now]. *)
Definition sightings_by (now : Z) (d : db) : Prop :=
  ∀ a r, relays d !! a = Some r → visible_relay r = true → last_seen_at_unix r ≤ now.

(** The state a row is shown in; the listings read only rows that have one. *)
Definition health_state_of (now : Z) (r : relay_row) : string :=
  match ClassifyHealth (last_seen_at_unix r) now with Ok state => state | Err _ => "" end.
Definition listed (now : Z) (row : string * relay_row) : health_relay :=
  HealthRelay row.1 (public_base_url row.2) (health_state_of now row.2) (last_seen_at_unix row.2).

Lemma relay_row_facts d a r : db_ok d → relays d !! a = Some r →
  a ≠ "" ∧ validHealthProjectionActor a = true ∧ canonical_identity a (public_base_url r) = true ∧
  0 ≤ last_seen_at_unix r.
Proof.
  intros Hd Hr. destruct (inv_relays _ _ Hd a r Hr) as [Hc Hi].
  pose proof (canonical_identity_actor _ _ Hi) as Hcan.
  unfold relay_check, blob_length_between in Hc. bool_facts.
  unfold validHealthProjectionActor, maximumRelayActorBytes. rewrite Hcan, Hi.
  rewrite (proj2 (Z.eqb_neq (len a) 0)), (proj2 (Z.ltb_ge 4096 (len a))) by lia.
  split_and!; try done; [|lia]. intros ->. by unfold len in *.
Qed.

Lemma decode_health_row action now d a r : db_ok d → now ≤ int64_max → relays d !! a = Some r →
  last_seen_at_unix r ≤ now →
  decode_health action now (a, r) = Ok (listed now (a, r)) ∧
  ClassifyHealth (last_seen_at_unix r) now = Ok (health_state_of now r).
Proof.
  intros Hd Hnow Hr Hls. destruct (relay_row_facts d a r Hd Hr) as (_&_&Hi&H0).
  unfold decode_health, listed, health_state_of. simpl. rewrite Hi. simpl.
  by rewrite ClassifyHealth_age by lia.
Qed.

Lemma decode_public_row now d a r : db_ok d → 0 ≤ now ≤ int64_max → relays d !! a = Some r →
  last_seen_at_unix r ≤ now → now - 2592000 < last_seen_at_unix r →
  decode_public now (a, r) = Ok (listed now (a, r)).
Proof.
  intros Hd Hnow Hr Hls Hcut. destruct (relay_row_facts d a r Hd Hr) as (_&_&_&H0).
  unfold decode_public. destruct (decode_health_row "validate public relay listing" now d a r) as [-> _]; [done|lia|done|done|].
  unfold PublicEligible, listed, health_state_of; simpl. rewrite ClassifyHealth_age by lia.
  rewrite (proj2 (Z.ltb_lt (now - last_seen_at_unix r) 2592000)) by lia. by repeat case_match.
Qed.

(** A cursor that both methods accept at [now]. *)
Definition health_cursor_ok (now : Z) (c : health_cursor) : Prop :=
  c = health_start ∨
  (health_actor c ≠ "" ∧ validHealthProjectionActor (health_actor c) = true ∧ 0 ≤ health_last_seen c ≤ now).

Lemma health_input_accepts maximum q : health_cursor_ok (unix_of (health_observed q)) (health_after q) →
  0 < health_limit q ≤ maximum → 0 ≤ unix_of (health_observed q) → health_input_ok maximum q = true.
Proof.
  intros Hc [Hl1 Hl2] H0. unfold health_input_ok, health_cursor_valid.
  rewrite (proj2 (Z.leb_gt _ 0) Hl1), (proj2 (Z.ltb_ge _ _) Hl2), (proj2 (Z.ltb_ge _ 0) H0).
  destruct Hc as [->|(Hne&Hv&Hls)]; [done|].
  assert (health_cursor_eqb (health_after q) health_start = false) as ->.
  { unfold health_cursor_eqb; simpl. by rewrite (proj2 (String.eqb_neq _ _) Hne), andb_false_r. }
  rewrite Hv, (proj2 (String.eqb_neq _ _) Hne), (proj2 (Z.leb_le _ _)), (proj2 (Z.ltb_ge _ _)) by lia. done.
Qed.

Lemma listed_cursor now row : health_relay_cursor (listed now row) = HealthCursor (last_seen_at_unix row.2) row.1.
Proof. done. Qed.

(** A listing method as a reader: relays and, unless it is the start, the cursor. *)
Definition reader (list_page : health_query → result error health_page) (t limit : Z) (cursor : health_cursor)
    : result error (list health_relay * option health_cursor) :=
  match list_page (HealthQuery cursor limit t) with
  | Err e => Err e
  | Ok page => Ok (health_relays page,
                   if health_cursor_eqb (health_next page) health_start then None else Some (health_next page))
  end.

Lemma page_reader now rows after limit d :
  db_ok d → (∀ a r, In (a, r) rows → relays d !! a = Some r) →
  let page := keyset_page health_key after limit rows in
  let result := health_page_of (map (listed now) page.1, is_present page.2) in
  (health_relays result, if health_cursor_eqb (health_next result) health_start then None else Some (health_next result)) =
  (map (listed now) page.1,
   if is_present page.2 then (λ row, health_relay_cursor (listed now row)) <$> list.last page.1 else None).
Proof.
  intros Hd Hrows page result. unfold result, health_page_of. simpl. f_equal. rewrite list_last_map.
  destruct (list.last page.1) as [[a r]|] eqn:Hl; simpl; [|by destruct page.2].
  destruct page.2 as [k|]; simpl; [|done].
  assert (Hin : In (a, r) rows).
  { apply last_some_app in Hl as [kept Hk]. apply (keyset_page_in health_key after limit rows).
    fold page. rewrite Hk. apply in_or_app. right. by left. }
  destruct (relay_row_facts d a r Hd (Hrows a r Hin)) as (Hne&_).
  unfold health_cursor_eqb; simpl. by rewrite (proj2 (String.eqb_neq _ _) Hne), andb_false_r.
Qed.

Definition health_rows_page (now : Z) (rows : list (string * relay_row)) (limit : Z) (after : health_cursor)
    : list health_relay * bool :=
  let page := keyset_page health_key (health_position after) (Z.to_nat limit) rows in
  (map (listed now) page.1, is_present page.2).

Lemma ProjectHealth_read q d : let now := unix_of (health_observed q) in
  db_ok d → 0 ≤ now ≤ int64_max → sightings_by now d → health_cursor_ok now (health_after q) →
  0 < health_limit q ≤ MaximumHealthProjectionPage →
  ProjectHealth plain_call q d =
  Ok (health_page_of (health_rows_page now (projected_rows d) (health_limit q) (health_after q))).
Proof.
  intros now Hd Hnow Hseen Hc Hl. unfold ProjectHealth, run_read, ProjectHealth_query.
  cbn [configured negb plain_call]. rewrite health_input_accepts by (done || apply Hnow). simpl. tx_run.
  rewrite (scan_keyset health_key _ _ _ (listed now)); [done|lia|].
  intros [a r] [Hr Hv]%relay_rows_in. by apply (decode_health_row _ now d a r); [|lia| |apply (Hseen a)].
Qed.

Lemma ListPublicRelays_read q d : let now := unix_of (health_observed q) in
  db_ok d → 0 ≤ now ≤ int64_max → sightings_by now d → health_cursor_ok now (health_after q) →
  0 < health_limit q ≤ MaximumPublicListingPage →
  ListPublicRelays plain_call q d =
  Ok (health_page_of (health_rows_page now (public_rows (now - 2592000) d) (health_limit q) (health_after q))).
Proof.
  intros now Hd Hnow Hseen Hc Hl. unfold ListPublicRelays, run_read, ListPublicRelays_query.
  cbn [configured negb plain_call]. rewrite health_input_accepts by (done || apply Hnow). simpl. tx_run.
  fold now. rewrite int64_sub_nonneg by (done || (vm_compute; split; discriminate)).
  change (seconds_of DeadBefore) with 2592000.
  rewrite (scan_keyset health_key _ _ _ (listed now)); [done|lia|].
  intros [a r] [Hr Hv]%relay_rows_in. apply andb_true_iff in Hv as [Hv Hcut]. simpl in *.
  by apply (decode_public_row now d); [| | |apply (Hseen a)|lia].
Qed.

Lemma listing_all list_page t limit d f : let now := unix_of t in
  let rows := List.filter f (map_to_list (relays d)) in
  db_ok d → sightings_by now d → 0 < limit → (∀ row, f row = true → visible_relay row.2 = true) →
  (∀ cursor, health_cursor_ok now cursor →
     list_page (HealthQuery cursor limit t) = Ok (health_page_of (health_rows_page now rows limit cursor))) →
  ∀ fuel, (length rows < fuel)%nat →
  read_all (reader list_page t limit) fuel health_start = Ok (map (listed now) (order_by health_key rows)).
Proof.
  intros now rows Hd Hseen Hl Hf Hread fuel Hfuel.
  assert (Hall : rows_after health_key (health_position health_start) (order_by health_key rows) = order_by health_key rows).
  { apply filter_all_true. intros [a r] [Hr _]%order_by_in%relay_rows_in.
    destruct (relay_row_facts d a r Hd Hr) as (Hne&_&_&H0). unfold health_key, health_position, key_ltb; simpl.
    change (key_ltb 0 (last_seen_at_unix r)) with (0 <? last_seen_at_unix r).
    change (key_ltb (last_seen_at_unix r) 0) with (last_seen_at_unix r <? 0).
    destruct (Z.ltb_spec 0 (last_seen_at_unix r)); [done|]. rewrite (proj2 (Z.ltb_ge _ 0) H0). by destruct a. }
  rewrite (read_all_rows health_key (listed now) (λ row, health_relay_cursor (listed now row)) health_position
             (health_cursor_ok now) (reader list_page t limit) (Z.to_nat limit) rows fuel health_start).
  - by rewrite Hall.
  - lia.
  - apply relay_rows_keys.
  - intros [a r] [Hr Hfr]%relay_rows_in. split; [|done]. right. simpl.
    destruct (relay_row_facts d a r Hd Hr) as (Hne&Hv&_&H0). pose proof (Hseen a r Hr (Hf _ Hfr)). simpl in *. auto.
  - intros cursor Hc. unfold reader. rewrite Hread by done. cbv zeta. f_equal.
    apply (page_reader now rows (health_position cursor) (Z.to_nat limit) d); [done|].
    by intros a r [? _]%relay_rows_in.
  - by left.
  - rewrite Hall. by rewrite (Permutation_length (order_by_perm health_key rows)).
Qed.

Definition health_relay_key (relay : health_relay) : Z * string := (HealthLastSeenUnix relay, HealthRelayActor relay).

Lemma listed_sorted now rows : strictly_sorted health_key rows → strictly_sorted health_relay_key (map (listed now) rows).
Proof.
  unfold strictly_sorted. induction 1 as [|row rows Hs IH Hf]; simpl; [constructor|]. constructor; [done|].
  rewrite Forall_forall in Hf |- *. intros y (x&<-&Hx)%in_map_iff. by apply Hf.
Qed.

Lemma listed_in now f d relay :
  In relay (map (listed now) (order_by health_key (List.filter f (map_to_list (relays d))))) ↔
  ∃ r, relays d !! HealthRelayActor relay = Some r ∧ f (HealthRelayActor relay, r) = true ∧
       relay = listed now (HealthRelayActor relay, r).
Proof.
  rewrite in_map_iff. split.
  - intros ([a r]&<-&[Hr Hf]%order_by_in%relay_rows_in). exists r. done.
  - intros (r&Hr&Hf&Heq). exists (HealthRelayActor relay, r). split; [done|]. by apply order_by_in, relay_rows_in.
Qed.

(** Following the pages of the public listing at one observation time not
    before any sighting reads exactly the registered, unsuspended relays seen
    within the last 30 days, each once, oldest sighting first, each with its
    healthy, stale or dead state; no page fails and no soft-prunable relay is
    ever among them. *)
Theorem public_listing_complete t limit d : let now := unix_of t in
  db_ok d → 0 ≤ now ≤ int64_max → sightings_by now d → 0 < limit ≤ MaximumPublicListingPage →
  ∃ l, (∀ fuel, (length l < fuel)%nat →
          read_all (reader (λ q, ListPublicRelays plain_call q d) t limit) fuel health_start = Ok l) ∧
       strictly_sorted health_relay_key l ∧
       (∀ relay, In relay l ↔ ∃ r, relays d !! HealthRelayActor relay = Some r ∧
          visible_relay r = true ∧ now - last_seen_at_unix r < 2592000 ∧ relay = listed now (HealthRelayActor relay, r)) ∧
       (∀ relay, In relay l → PublicEligible relay = true) ∧
       (∀ relay r, In relay l → relays d !! HealthRelayActor relay = Some r →
          prune_due (dead_cutoff now) (fresh_cutoff now) d (HealthRelayActor relay) r = false).
Proof.
  intros now Hd Hnow Hseen Hl.
  exists (map (listed now) (order_by health_key (public_rows (now - 2592000) d))).
  assert (Hin : ∀ relay, In relay (map (listed now) (order_by health_key (public_rows (now - 2592000) d))) ↔
    ∃ r, relays d !! HealthRelayActor relay = Some r ∧
         visible_relay r = true ∧ now - last_seen_at_unix r < 2592000 ∧ relay = listed now (HealthRelayActor relay, r)).
  { intros relay. unfold public_rows. rewrite listed_in. simpl. split.
    - intros (r&Hr&[Hv Hcut%Z.ltb_lt]%andb_true_iff&He). exists r. split_and!; done || lia.
    - intros (r&Hr&Hv&Hcut&He). exists r. rewrite Hv, (proj2 (Z.ltb_lt _ _)) by lia. by split_and!. }
  split; [|split; [|split; [done|split]]].
  - intros fuel Hfuel. unfold public_rows. apply listing_all; [done|done|lia| | |].
    + intros row [? _]%andb_true_iff. done.
    + intros cursor Hc. by apply ListPublicRelays_read.
    + rewrite length_map, (Permutation_length (order_by_perm health_key _)) in Hfuel. done.
  - apply listed_sorted, order_by_sorted, relay_rows_keys.
  - intros relay Hrelay. apply Hin in Hrelay as (r&Hr&Hv&Hcut&He). rewrite He. clear He.
    destruct (relay_row_facts d _ r Hd Hr) as (_&_&_&H0).
    pose proof (Hseen _ r Hr Hv). unfold PublicEligible, listed, health_state_of; simpl.
    rewrite ClassifyHealth_age by lia. rewrite (proj2 (Z.ltb_lt (now - last_seen_at_unix r) 2592000)) by done.
    by repeat case_match.
  - intros relay r Hrelay Hr'. apply Hin in Hrelay as (r'&Hr&Hv&Hcut&_). assert (r' = r) as -> by congruence. unfold prune_due, dead_cutoff.
    rewrite int64_sub_nonneg by (done || (vm_compute; split; discriminate)).
    change (seconds_of DeadBefore) with 2592000.
    rewrite (proj2 (Z.leb_gt (last_seen_at_unix r) (now - 2592000))) by lia. by rewrite andb_false_r.
Qed.

(** Following the pages of the private health projection reads every
    registered, unsuspended relay once with its health state, oldest sighting
    first, and no page fails. *)
Theorem health_projection_complete t limit d : let now := unix_of t in
  db_ok d → 0 ≤ now ≤ int64_max → sightings_by now d → 0 < limit ≤ MaximumHealthProjectionPage →
  ∃ l, (∀ fuel, (length l < fuel)%nat →
          read_all (reader (λ q, ProjectHealth plain_call q d) t limit) fuel health_start = Ok l) ∧
       strictly_sorted health_relay_key l ∧
       (∀ relay, In relay l ↔ ∃ r, relays d !! HealthRelayActor relay = Some r ∧ visible_relay r = true ∧
          ClassifyHealth (last_seen_at_unix r) now = Ok (HealthState relay) ∧ relay = listed now (HealthRelayActor relay, r)).
Proof.
  intros now Hd Hnow Hseen Hl. exists (map (listed now) (order_by health_key (projected_rows d))).
  split; [|split].
  - intros fuel Hfuel. unfold projected_rows. apply listing_all; [done|done|lia|done| |].
    + intros cursor Hc. by apply ProjectHealth_read.
    + rewrite length_map, (Permutation_length (order_by_perm health_key _)) in Hfuel. done.
  - apply listed_sorted, order_by_sorted, relay_rows_keys.
  - intros relay. unfold projected_rows. rewrite listed_in. simpl.
    split; intros (r&Hr&Hv&He); exists r; (split; [done|split; [done|]]); [|by destruct He].
    split; [|done]. rewrite He. simpl. pose proof (Hseen _ r Hr Hv).
    by destruct (decode_health_row "" now d _ r Hd ltac:(lia) Hr H0) as [_ ?].
Qed.
End ListingFacts.

(** ** Concrete listings *)

Lemma ClassifyHealth_degrades_witness :
  ∃ s1 s2, ClassifyHealth 1000 700000 = Ok s1 ∧ ClassifyHealth 2000 200000 = Ok s2 ∧ health_rank s2 ≤ health_rank s1 ∧
    (s2 = HealthHealthy ↔ 200000 - 2000 ≤ 129600) ∧ (s2 = HealthStale ↔ 129600 < 200000 - 2000 < 604800) ∧
    (s2 = HealthDead ↔ 604800 ≤ 200000 - 2000 < 2592000) ∧ (s2 = HealthPrune ↔ 2592000 ≤ 200000 - 2000) ∧
    ∀ seen now, is_ok (ClassifyHealth seen now) = (0 <=? seen) && (seen <=? now).
Proof. apply (ClassifyHealth_degrades 1000 2000 200000 700000); by vm_compute. Defined.

Lemma sample_seen : sightings_by (unix_of beat_time) sample_enrolled.
Proof.
  intros a r Hr _.
  assert (He : map_to_list (relays sample_enrolled) = [(sample_actor, new_relay "https://relay.example" 1000)])
    by (vm_compute; reflexivity).
  apply elem_of_map_to_list in Hr. rewrite He in Hr. apply list_elem_of_singleton in Hr as [= _ ->]. by vm_compute.
Qed.

Lemma public_listing_complete_witness : let now := unix_of beat_time in
  ∃ l, (∀ fuel, (length l < fuel)%nat →
          read_all (reader (λ q, ListPublicRelays plain_call q sample_enrolled) beat_time 50) fuel health_start = Ok l) ∧
       strictly_sorted health_relay_key l ∧
       (∀ relay, In relay l ↔ ∃ r, relays sample_enrolled !! HealthRelayActor relay = Some r ∧
          visible_relay r = true ∧ now - last_seen_at_unix r < 2592000 ∧ relay = listed now (HealthRelayActor relay, r)) ∧
       (∀ relay, In relay l → PublicEligible relay = true) ∧
       (∀ relay r, In relay l → relays sample_enrolled !! HealthRelayActor relay = Some r →
          prune_due (dead_cutoff now) (fresh_cutoff now) sample_enrolled (HealthRelayActor relay) r = false).
Proof.
  assert (Hn : 0 ≤ unix_of beat_time ≤ int64_max) by evaluate.
  assert (Hl : 0 < 50 ≤ MaximumPublicListingPage) by evaluate.
  exact (public_listing_complete beat_time 50 sample_enrolled sample_enrolled_ok Hn sample_seen Hl).
Defined.

Lemma health_projection_complete_witness : let now := unix_of beat_time in
  ∃ l, (∀ fuel, (length l < fuel)%nat →
          read_all (reader (λ q, ProjectHealth plain_call q sample_enrolled) beat_time 50) fuel health_start = Ok l) ∧
       strictly_sorted health_relay_key l ∧
       (∀ relay, In relay l ↔ ∃ r, relays sample_enrolled !! HealthRelayActor relay = Some r ∧ visible_relay r = true ∧
          ClassifyHealth (last_seen_at_unix r) now = Ok (HealthState relay) ∧ relay = listed now (HealthRelayActor relay, r)).
Proof.
  assert (Hn : 0 ≤ unix_of beat_time ≤ int64_max) by evaluate.
  assert (Hl : 0 < 50 ≤ MaximumHealthProjectionPage) by evaluate.
  exact (health_projection_complete beat_time 50 sample_enrolled sample_enrolled_ok Hn sample_seen Hl).
Defined.
