(* ===== verification/Telemetry.v ===== *)
(** * Telemetry: self-reported relay counts

    The table [relay_telemetry] (migrations 0011 and 0012) and the two upserts of
    [internal/storage/sqlite/telemetry.go], each one statement outside any
    transaction, with the validation of [internal/storage/telemetry.go]. *)
From S2P Require Import Prelude Identity Vocabulary Store Repository Lifecycle Guarantees.
Local Open Scope string_scope.
Local Open Scope Z_scope.
Local Open Scope go_scope.
Local Open Scope list_scope.

Definition MaximumReceivingInstanceCount : Z := 10000000.
Definition MaximumParticipatingInstanceCount : Z := 10000000.

Record telemetry_row := TelemetryRow {
  receiving_instance_count : Z; reported_at : Z;
  participating_instance_count : option Z; participating_reported_at : option Z }.

(** The CHECK constraints of the table; a CHECK on NULL holds. *)
Definition telemetry_check (actor : string) (r : telemetry_row) : bool :=
  blob_length_between 1 4096 actor &&
  (0 <=? receiving_instance_count r) && (receiving_instance_count r <=? 10000000) && (0 <=? reported_at r) &&
  null_or (λ v, (0 <=? v) && (v <=? 10000000)) (participating_instance_count r) &&
  null_or (Z.leb 0) (participating_reported_at r).

(** [INSERT ... ON CONFLICT(relay_actor) DO UPDATE SET ... WHERE guard]: the
    insert trigger requires a lifecycle row, on conflict too; a refused WHERE
    affects no row. *)
Definition upsert_telemetry (d : db) (actor : string) (new : telemetry_row) (guard : telemetry_row → bool)
    (merge : telemetry_row → telemetry_row) (t : gmap string telemetry_row) : option (gmap string telemetry_row * Z) :=
  if negb (not_null (relays d !! actor)) || negb (telemetry_check actor new) then None
  else
    match t !! actor with
    | None => Some (<[actor := new]> t, 1)
    | Some old =>
        if negb (guard old) then Some (t, 0)
        else if telemetry_check actor (merge old) then Some (<[actor := merge old]> t, 1) else None
    end.

Record TelemetryIntent := { telemetry_actor : string; ReceivingInstanceCount : Z }.
Record ParticipatingTelemetryIntent := { participating_actor : string; ParticipatingInstanceCount : Z }.

(** [ExecContext] then [RowsAffected]: the statement commits by itself, so an
    error reading its result comes after the change. *)
Definition autocommit (c : call) (action readAction checkAction : string)
    (statement : gmap string telemetry_row → option (gmap string telemetry_row * Z)) (t : gmap string telemetry_row)
    : result error unit * gmap string telemetry_row :=
  match outcomes c with
  | true :: _ => (Err (storageFailure action ErrBackend), t)
  | faults =>
      match statement t with
      | None => (Err (storageFailure action ErrConstraint), t)
      | Some (t', rows) =>
          match faults with
          | _ :: true :: _ => (Err (storageFailure readAction ErrBackend), t')
          | _ => if (rows <? 0) || (1 <? rows) then (Err (storageFailure checkAction ErrInvalidState), t')
                 else (Ok tt, t')
          end
      end
  end.

Section Operations.
Context `{RelayIdentity}.

(** [ValidProfileRelayActor] of [internal/storage/profile.go] *)
Definition ValidProfileRelayActor (value : string) : bool :=
  if value ≟ "" then false else canonical_actor value.

Definition ValidateTelemetryIntent (intent : TelemetryIntent) (reportedAt : Z) : bool :=
  negb (negb (ValidProfileRelayActor (telemetry_actor intent)) || (ReceivingInstanceCount intent <? 0) ||
        (MaximumReceivingInstanceCount <? ReceivingInstanceCount intent) || (unix_of reportedAt <? 0)).
Definition ValidateParticipatingTelemetryIntent (intent : ParticipatingTelemetryIntent) (reportedAt : Z) : bool :=
  negb (negb (ValidProfileRelayActor (participating_actor intent)) || (ParticipatingInstanceCount intent <? 0) ||
        (MaximumParticipatingInstanceCount <? ParticipatingInstanceCount intent) || (unix_of reportedAt <? 0)).

Definition receiving_statement (d : db) (intent : TelemetryIntent) (reported : Z)
    : gmap string telemetry_row → option (gmap string telemetry_row * Z) :=
  upsert_telemetry d (telemetry_actor intent)
    (TelemetryRow (ReceivingInstanceCount intent) reported None None)
    (λ old, reported_at old <=? reported)
    (λ old, TelemetryRow (ReceivingInstanceCount intent) reported
              (participating_instance_count old) (participating_reported_at old)).

Definition participating_statement (d : db) (intent : ParticipatingTelemetryIntent) (reported : Z)
    : gmap string telemetry_row → option (gmap string telemetry_row * Z) :=
  upsert_telemetry d (participating_actor intent)
    (TelemetryRow 0 0 (Some (ParticipatingInstanceCount intent)) (Some reported))
    (λ old, match participating_reported_at old with None => true | Some v => v <=? reported end)
    (λ old, TelemetryRow (receiving_instance_count old) (reported_at old)
              (Some (ParticipatingInstanceCount intent)) (Some reported)).

Definition ReplaceRelayTelemetry (c : call) (intent : TelemetryIntent) (reportedAt : Z) (d : db)
    (t : gmap string telemetry_row) : result error unit * gmap string telemetry_row :=
  if negb (configured c) then (Err ErrRepositoryConfiguration, t)
  else if negb (ValidateTelemetryIntent intent reportedAt) then (Err ErrTelemetryInput, t)
  else autocommit c "replace relay telemetry" "read relay telemetry write result"
         "validate relay telemetry write result" (receiving_statement d intent (unix_of reportedAt)) t.

Definition ReplaceRelayParticipatingTelemetry (c : call) (intent : ParticipatingTelemetryIntent) (reportedAt : Z)
    (d : db) (t : gmap string telemetry_row) : result error unit * gmap string telemetry_row :=
  if negb (configured c) then (Err ErrRepositoryConfiguration, t)
  else if negb (ValidateParticipatingTelemetryIntent intent reportedAt) then (Err ErrTelemetryInput, t)
  else autocommit c "replace relay participating telemetry" "read relay participating telemetry write result"
         "validate relay participating telemetry write result"
         (participating_statement d intent (unix_of reportedAt)) t.
End Operations.

(** ** What the two reports guarantee *)

Section Facts.
Context `{RelayIdentity}.

Definition telemetry_ok (t : gmap string telemetry_row) : Prop := ∀ (a : string) (r : telemetry_row), t !! a = Some r → telemetry_check a r = true.

(** The row a receiving report leaves, and the one a participating report leaves. *)
Definition received (intent : TelemetryIntent) (reported : Z) (old : option telemetry_row) : telemetry_row :=
  match old with
  | None => TelemetryRow (ReceivingInstanceCount intent) reported None None
  | Some r =>
      if reported_at r <=? reported
      then TelemetryRow (ReceivingInstanceCount intent) reported (participating_instance_count r) (participating_reported_at r)
      else r
  end.
Definition participated (intent : ParticipatingTelemetryIntent) (reported : Z) (old : option telemetry_row)
    : telemetry_row :=
  match old with
  | None => TelemetryRow 0 0 (Some (ParticipatingInstanceCount intent)) (Some reported)
  | Some r =>
      if match participating_reported_at r with None => true | Some v => v <=? reported end
      then TelemetryRow (receiving_instance_count r) (reported_at r) (Some (ParticipatingInstanceCount intent)) (Some reported)
      else r
  end.

(** Both statements, once the row to insert and the merged row are valid. *)
Lemma upsert_valid d a (new : telemetry_row) (guard : telemetry_row → bool) (merge : telemetry_row → telemetry_row)
    (t : gmap string telemetry_row) : telemetry_ok t → is_Some (relays d !! a) → telemetry_check a new = true →
  (∀ old, telemetry_check a old = true → telemetry_check a (merge old) = true) →
  let row := match t !! a with None => new | Some old => if guard old then merge old else old end in
  (∃ n, upsert_telemetry d a new guard merge t = Some (<[a := row]> t, n) ∧ 0 ≤ n ≤ 1) ∧
  telemetry_ok (<[a := row]> t).
Proof.
  intros Hok [r Hr] Hnew Hmerge row. unfold upsert_telemetry. rewrite Hr, Hnew. cbn [not_null is_null negb orb].
  assert (Hrow : telemetry_check a row = true).
  { unfold row. destruct (t !! a) as [old|] eqn:Ho; [|done]. destruct (guard old); [apply Hmerge|]; by apply (Hok a). }
  split.
  - unfold row in *. destruct (t !! a) as [old|] eqn:Ho; [|by exists 1; split; [|lia]].
    destruct (guard old); cbn [negb]; [rewrite Hrow; by exists 1; split; [|lia]|].
    exists 0. rewrite insert_id by done. split; [done|lia].
  - intros b s. destruct (decide (b = a)) as [->|]; [rewrite lookup_insert_eq; by intros [= <-]|].
    rewrite lookup_insert_ne by done. apply Hok.
Qed.

(** The statement of a report took effect, or nothing did. *)
Lemma autocommit_effect c x y z statement t out t' : autocommit c x y z statement t = (out, t') →
  t' = t ∨ ∃ n, statement t = Some (t', n).
Proof. unfold autocommit. destruct (statement t) as [[t1 n]|]; repeat case_match; intros [=]; subst; eauto. Qed.
Lemma autocommit_ok c x y z statement t t' : autocommit c x y z statement t = (Ok tt, t') → ∃ n, statement t = Some (t', n).
Proof. unfold autocommit. destruct (statement t) as [[t1 n]|]; repeat case_match; intros [=]; subst; by eexists. Qed.
Lemma upsert_ok d actor new guard merge (t t' : gmap string telemetry_row) n : upsert_telemetry d actor new guard merge t = Some (t', n) →
  t' = <[actor := match t !! actor with None => new | Some old => if guard old then merge old else old end]> t.
Proof.
  unfold upsert_telemetry. destruct (_ || _); [done|]. destruct (t !! actor) as [old|] eqn:Ho; [|by intros [= <- _]].
  destruct (guard old); cbn [negb]; [destruct (telemetry_check _ _); [by intros [= <- _]|done]|]. intros [= <- _]. by rewrite insert_id.
Qed.
Lemma autocommit_run action readAction checkAction statement t t' n : statement t = Some (t', n) → 0 ≤ n ≤ 1 →
  autocommit plain_call action readAction checkAction statement t = (Ok tt, t').
Proof.
  intros Hs Hn. unfold autocommit; simpl. rewrite Hs. by rewrite (proj2 (Z.ltb_ge n 0)), (proj2 (Z.ltb_ge 1 n)) by lia.
Qed.

Lemma profile_actor_length a : ValidProfileRelayActor a = true → 1 ≤ len a.
Proof.
  unfold ValidProfileRelayActor. destruct (String.eqb_spec a "") as [|Hne]; [done|]. intros _.
  unfold len. destruct a; [done|]. simpl. lia.
Qed.

Lemma check_parts actor r : telemetry_check actor r = true ↔
  1 ≤ len actor ≤ 4096 ∧ 0 ≤ receiving_instance_count r ≤ 10000000 ∧ 0 ≤ reported_at r ∧
  null_or (λ v, (0 <=? v) && (v <=? 10000000)) (participating_instance_count r) = true ∧
  null_or (Z.leb 0) (participating_reported_at r) = true.
Proof. unfold telemetry_check, blob_length_between. rewrite !andb_true_iff, !Z.leb_le. intuition lia. Qed.

Lemma receiving_run intent t d tel : telemetry_ok tel → ValidateTelemetryIntent intent t = true →
  is_Some (relays d !! telemetry_actor intent) → len (telemetry_actor intent) ≤ 4096 →
  let a := telemetry_actor intent in
  let tel' : gmap string telemetry_row := <[a := received intent (unix_of t) (tel !! a)]> tel in
  ReplaceRelayTelemetry plain_call intent t d tel = (Ok tt, tel') ∧ telemetry_ok tel'.
Proof.
  intros Hok Hv Hr Hlen a tel'. unfold ReplaceRelayTelemetry. rewrite Hv. cbn [configured plain_call negb].
  unfold ValidateTelemetryIntent, MaximumReceivingInstanceCount in Hv. bool_facts.
  assert (1 ≤ len a) by (by apply profile_actor_length).
  destruct (upsert_valid d a (TelemetryRow (ReceivingInstanceCount intent) (unix_of t) None None)
              (λ old : telemetry_row, reported_at old <=? unix_of t)
              (λ old : telemetry_row, TelemetryRow (ReceivingInstanceCount intent) (unix_of t)
                        (participating_instance_count old) (participating_reported_at old)) tel) as [(n&Hs&Hn) Hok'].
  - done.
  - done.
  - apply check_parts. simpl. split_and!; done || lia.
  - intros old (?&?&?&?&?)%check_parts. apply check_parts. simpl. split_and!; done || lia.
  - split; [|exact Hok']. by apply (autocommit_run _ _ _ _ _ _ n).
Qed.

Lemma participating_run intent t d tel : telemetry_ok tel → ValidateParticipatingTelemetryIntent intent t = true →
  is_Some (relays d !! participating_actor intent) → len (participating_actor intent) ≤ 4096 →
  let a := participating_actor intent in
  let tel' : gmap string telemetry_row := <[a := participated intent (unix_of t) (tel !! a)]> tel in
  ReplaceRelayParticipatingTelemetry plain_call intent t d tel = (Ok tt, tel') ∧ telemetry_ok tel'.
Proof.
  intros Hok Hv Hr Hlen a tel'. unfold ReplaceRelayParticipatingTelemetry. rewrite Hv. cbn [configured plain_call negb].
  unfold ValidateParticipatingTelemetryIntent, MaximumParticipatingInstanceCount in Hv. bool_facts.
  assert (1 ≤ len a) by (by apply profile_actor_length).
  assert (Hp : null_or (λ v, (0 <=? v) && (v <=? 10000000)) (Some (ParticipatingInstanceCount intent)) = true ∧
               null_or (Z.leb 0) (Some (unix_of t)) = true) by (simpl; split; bool_lia).
  destruct Hp as [Hp1 Hp2].
  destruct (upsert_valid d a (TelemetryRow 0 0 (Some (ParticipatingInstanceCount intent)) (Some (unix_of t)))
              (λ old : telemetry_row, match participating_reported_at old with None => true | Some v => v <=? unix_of t end)
              (λ old : telemetry_row, TelemetryRow (receiving_instance_count old) (reported_at old)
                        (Some (ParticipatingInstanceCount intent)) (Some (unix_of t))) tel) as [(n&Hs&Hn) Hok'].
  - done.
  - done.
  - apply check_parts. simpl in *. split_and!; done || lia.
  - intros old (?&?&?&?&?)%check_parts. apply check_parts. simpl in *. split_and!; done || lia.
  - split; [|exact Hok']. by apply (autocommit_run _ _ _ _ _ _ n).
Qed.

(** Receiving reports converge: two accepted reports of one relay leave the
    same table in either order of arrival, that of the later time, whatever was
    stored before, and neither touches what the relay reported about
    participation. *)
Theorem receiving_reports_converge i1 i2 t1 t2 d tel :
  telemetry_ok tel → telemetry_actor i1 = telemetry_actor i2 → len (telemetry_actor i1) ≤ 4096 →
  is_Some (relays d !! telemetry_actor i1) →
  ValidateTelemetryIntent i1 t1 = true → ValidateTelemetryIntent i2 t2 = true → unix_of t1 < unix_of t2 →
  let run i t tel := (ReplaceRelayTelemetry plain_call i t d tel).2 in
  let final := run i2 t2 (run i1 t1 tel) in
  final = run i1 t1 (run i2 t2 tel) ∧
  ∃ row : telemetry_row, final !! telemetry_actor i1 = Some row ∧
    (participating_instance_count row, participating_reported_at row) =
      match tel !! telemetry_actor i1 with
      | Some old => (participating_instance_count old, participating_reported_at old) | None => (None, None) end ∧
    (∀ old, tel !! telemetry_actor i1 = Some old → unix_of t2 < reported_at old → row = old) ∧
    ((∀ old, tel !! telemetry_actor i1 = Some old → reported_at old ≤ unix_of t2) →
       receiving_instance_count row = ReceivingInstanceCount i2 ∧ reported_at row = unix_of t2).
Proof.
  intros Hok Ha Hlen Hr Hv1 Hv2 Hlt run final. set (a := telemetry_actor i1) in *.
  assert (Hrun : ∀ i t tel, (i = i1 ∧ t = t1) ∨ (i = i2 ∧ t = t2) → telemetry_ok tel →
            run i t tel = <[a := received i (unix_of t) (tel !! a)]> tel ∧ telemetry_ok (run i t tel)).
  { intros i t tel0 Hi Hok0. unfold run.
    assert (Hi' : telemetry_actor i = a ∧ ValidateTelemetryIntent i t = true) by (by destruct Hi as [[-> ->]|[-> ->]]).
    destruct Hi' as [Hai Hvi]. destruct (receiving_run i t d tel0) as [Hs Ho]; [done|done|by rewrite Hai|by rewrite Hai|].
    rewrite Hs. rewrite Hai in *. done. }
  destruct (Hrun i1 t1 tel) as [E1 O1]; [auto|done|]. destruct (Hrun i2 t2 tel) as [E2 O2]; [auto|done|].
  unfold final. destruct (Hrun i2 t2 (run i1 t1 tel)) as [-> _]; [auto|done|].
  destruct (Hrun i1 t1 (run i2 t2 tel)) as [-> _]; [auto|done|].
  rewrite E1, E2, !lookup_insert_eq, !insert_insert_eq.
  assert (Hcomm : received i2 (unix_of t2) (Some (received i1 (unix_of t1) (tel !! a))) =
                  received i1 (unix_of t1) (Some (received i2 (unix_of t2) (tel !! a))) ∧
                  received i2 (unix_of t2) (Some (received i1 (unix_of t1) (tel !! a))) = received i2 (unix_of t2) (tel !! a)).
  { unfold received. destruct (tel !! a) as [old|]; simpl.
    - destruct (Z.leb_spec (reported_at old) (unix_of t1)), (Z.leb_spec (reported_at old) (unix_of t2)); simpl; try lia;
        repeat match goal with |- context [?x <=? ?y] => destruct (Z.leb_spec x y); simpl end; done || lia.
    - rewrite (proj2 (Z.leb_le _ _)), (proj2 (Z.leb_gt _ _)) by lia. done. }
  destruct Hcomm as [Hc1 Hc2]. split; [by rewrite Hc1|]. eexists. split; [done|]. rewrite Hc2. unfold received.
  destruct (tel !! a) as [old|]; simpl.
  - destruct (Z.leb_spec (reported_at old) (unix_of t2)); simpl; (split; [done|]); split.
    + intros ? [= <-]. lia.
    + done.
    + by intros ? [= <-].
    + intros Hle. specialize (Hle old eq_refl). lia.
  - split; [done|]. split; [done|]. done.
Qed.

(** A participating report of a relay that never reported receiving counts
    stores a receiving count of zero reported at the epoch, so that the relay
    appears to have reported it. *)
Theorem participating_report_invents_receiving intent t d tel :
  telemetry_ok tel → ValidateParticipatingTelemetryIntent intent t = true →
  is_Some (relays d !! participating_actor intent) → len (participating_actor intent) ≤ 4096 →
  tel !! participating_actor intent = None →
  (ReplaceRelayParticipatingTelemetry plain_call intent t d tel).2 !! participating_actor intent =
  Some (TelemetryRow 0 0 (Some (ParticipatingInstanceCount intent)) (Some (unix_of t))).
Proof.
  intros Hok Hv Hr Hlen Hnone. destruct (participating_run intent t d tel Hok Hv Hr Hlen) as [-> _]. simpl.
  by rewrite lookup_insert_eq, Hnone.
Qed.
End Facts.

(** The reports are refused for no admission state: the statements never ask
    for the lease every other repository mutation takes. *)
Lemma telemetry_ignores_admission `{RelayIdentity} admitted refused outs i j t d tel :
  ReplaceRelayTelemetry (Call true admitted outs) i t d tel = ReplaceRelayTelemetry (Call true refused outs) i t d tel ∧
  ReplaceRelayParticipatingTelemetry (Call true admitted outs) j t d tel =
  ReplaceRelayParticipatingTelemetry (Call true refused outs) j t d tel.
Proof. done. Qed.

(** ** Concrete reports *)

Definition sample_report (n : Z) : TelemetryIntent := {| telemetry_actor := sample_actor; ReceivingInstanceCount := n |}.
Definition sample_participation (n : Z) : ParticipatingTelemetryIntent :=
  {| participating_actor := sample_actor; ParticipatingInstanceCount := n |}.

Lemma empty_telemetry_ok : telemetry_ok ∅.
Proof. intros a r. by rewrite lookup_empty. Qed.

Lemma sample_retained : is_Some (relays sample_enrolled !! sample_actor).
Proof. exists (new_relay "https://relay.example" 1000). vm_compute. reflexivity. Qed.

Lemma receiving_reports_converge_witness :
  (ReplaceRelayTelemetry plain_call (sample_report 7) (time_of_unix 3000) sample_enrolled
     (ReplaceRelayTelemetry plain_call (sample_report 5) (time_of_unix 2000) sample_enrolled ∅).2).2 =
  (ReplaceRelayTelemetry plain_call (sample_report 5) (time_of_unix 2000) sample_enrolled
     (ReplaceRelayTelemetry plain_call (sample_report 7) (time_of_unix 3000) sample_enrolled ∅).2).2.
Proof.
  assert (Hlen : len (telemetry_actor (sample_report 5)) ≤ 4096) by (vm_compute; discriminate).
  assert (Hv1 : ValidateTelemetryIntent (sample_report 5) (time_of_unix 2000) = true) by (vm_compute; reflexivity).
  assert (Hv2 : ValidateTelemetryIntent (sample_report 7) (time_of_unix 3000) = true) by (vm_compute; reflexivity).
  assert (Hlt : unix_of (time_of_unix 2000) < unix_of (time_of_unix 3000)) by (vm_compute; reflexivity).
  exact (proj1 (receiving_reports_converge (sample_report 5) (sample_report 7) (time_of_unix 2000) (time_of_unix 3000)
    sample_enrolled ∅ empty_telemetry_ok eq_refl Hlen sample_retained Hv1 Hv2 Hlt)).
Defined.

Lemma participating_report_invents_receiving_witness :
  (ReplaceRelayParticipatingTelemetry plain_call (sample_participation 3) (time_of_unix 2000) sample_enrolled ∅).2
    !! sample_actor = Some (TelemetryRow 0 0 (Some 3) (Some 2000)).
Proof.
  assert (Hlen : len sample_actor ≤ 4096) by (vm_compute; discriminate).
  assert (Hv : ValidateParticipatingTelemetryIntent (sample_participation 3) (time_of_unix 2000) = true) by (vm_compute; reflexivity).
  assert (Hn : (∅ : gmap string telemetry_row) !! sample_actor = None) by (vm_compute; reflexivity).
  exact (participating_report_invents_receiving (sample_participation 3) (time_of_unix 2000) sample_enrolled ∅
           empty_telemetry_ok Hv sample_retained Hlen Hn).
Defined.
