(* ===== verification/Profile.v ===== *)
(** * Profile: source-scoped descriptive relay profiles

    [internal/storage/profile.go] (normalization) and
    [internal/storage/sqlite/profile.go] (source replacement, field-by-field
    precedence), with the tables of migration 10.  Fields and sources are closed
    vocabularies the CHECK constraints enforce, so they are inductive types here. *)
From S2P Require Import Prelude GoNet Identity Text Vocabulary Store Repository Telemetry Session.
From stdpp Require Import finite.
From Stdlib Require Import Ascii.
Local Open Scope string_scope.
Local Open Scope Z_scope.
Local Open Scope go_scope.
Local Open Scope list_scope.

Definition MaximumProfileScalarBytes : Z := 256.
Definition MaximumProfileNoteBytes : Z := 1024.
Definition MaximumProfileListItems : nat := 16.
Definition MaximumProfileListItemBytes : Z := 128.
Definition MaximumProfileURLBytes : Z := 2048.
Definition MaximumProfileEmailBytes : Z := 320.
Definition MaximumProfileFediverseIDBytes : Z := 256.
Definition MaximumProfileSourceURLBytes : Z := 2048.
Definition MaximumProfileStoredValueBytes : Z := 4096.

(** ** Sources and fields *)

Inductive ProfileSourceKind := ProfileSourceCSV | ProfileSourceRelay | ProfileSourceOverride.
#[export] Instance ProfileSourceKind_eq : EqDecision ProfileSourceKind.
Proof. solve_decision. Defined.
Definition ProfileSourcePriority (kind : ProfileSourceKind) : Z :=
  match kind with ProfileSourceOverride => 3 | ProfileSourceRelay => 2 | ProfileSourceCSV => 1 end.
Definition source_kind_name (kind : ProfileSourceKind) : string :=
  match kind with ProfileSourceCSV => "csv" | ProfileSourceRelay => "relay" | ProfileSourceOverride => "override" end.

Inductive ProfileField :=
| ProfileFieldParticipationMode | ProfileFieldAvailability | ProfileFieldRelayType | ProfileFieldLanguages
| ProfileFieldCountries | ProfileFieldRegions | ProfileFieldTopics | ProfileFieldContactFediverse
| ProfileFieldContactEmail | ProfileFieldContactURL | ProfileFieldParticipationURL | ProfileFieldNotes.
#[export] Instance ProfileField_eq : EqDecision ProfileField.
Proof. solve_decision. Defined.
Definition ProfileFields : list ProfileField :=
  [ProfileFieldParticipationMode; ProfileFieldAvailability; ProfileFieldRelayType; ProfileFieldLanguages;
   ProfileFieldCountries; ProfileFieldRegions; ProfileFieldTopics; ProfileFieldContactFediverse;
   ProfileFieldContactEmail; ProfileFieldContactURL; ProfileFieldParticipationURL; ProfileFieldNotes].
Definition field_name (field : ProfileField) : string :=
  match field with
  | ProfileFieldParticipationMode => "participation_mode" | ProfileFieldAvailability => "availability"
  | ProfileFieldRelayType => "relay_type" | ProfileFieldLanguages => "languages"
  | ProfileFieldCountries => "countries" | ProfileFieldRegions => "regions" | ProfileFieldTopics => "topics"
  | ProfileFieldContactFediverse => "contact_fediverse" | ProfileFieldContactEmail => "contact_email"
  | ProfileFieldContactURL => "contact_url" | ProfileFieldParticipationURL => "participation_url"
  | ProfileFieldNotes => "notes"
  end.
Definition MultiValue (field : ProfileField) : bool :=
  match field with
  | ProfileFieldLanguages | ProfileFieldCountries | ProfileFieldRegions | ProfileFieldTopics => true
  | _ => false
  end.

(** ** Profiles *)

Record profile := RelayProfileOf {
  ParticipationMode : string; Availability : string; RelayType : string;
  Languages : list string; Countries : list string; Regions : list string; Topics : list string;
  ContactFediverse : string; ContactEmail : string; ContactURL : string; ParticipationURL : string; Notes : string }.
#[export] Instance profile_eq : EqDecision profile.
Proof. solve_decision. Defined.
Definition empty_profile : profile := RelayProfileOf "" "" "" [] [] [] [] "" "" "" "" "".
Definition profile_Empty (p : profile) : bool := bool_decide (p = empty_profile).

Record ProfileSource := { Kind : ProfileSourceKind; SourceLabel : string; SourceURL : string }.
Record ProfileSourceIntent := { profile_actor : string; profile_source : ProfileSource; asserted : profile }.
Record ProfileMutationSummary := Summary { Created : Z; Updated : Z; Cleared : Z; Unchanged : Z }.
Definition ProfileMutationSummary_Changed (s : ProfileMutationSummary) : bool :=
  (0 <? Created s) || (0 <? Updated s) || (0 <? Cleared s).

#[export] Instance result_bind {E} : MBind (result E) := λ A B k r,
  match r with Ok a => k a | Err e => Err e end.

(** ** Normalization *)

Definition containsProfileControl (value : bytes) : bool := existsb (λ c, (byte c <? 0x20) || (byte c =? 0x7f)) value.
Definition blen (value : bytes) : Z := Z.of_nat (length value).

Definition normalizeProfileText (value : string) (maximum : Z) : result error string :=
  let value := trim_space (b value) in
  match value with
  | [] => Ok ""
  | _ => if negb (valid_utf8 value) || (maximum <? blen value) || containsProfileControl value
         then Err ErrProfileInput else Ok (str value)
  end.

Fixpoint normalize_items (values : list string) : result error (list string) :=
  match values with
  | [] => Ok []
  | value :: rest =>
      match normalizeProfileText value MaximumProfileListItemBytes with
      | Ok normalized =>
          if normalized ≟ "" then Err ErrProfileInput
          else items ← normalize_items rest; Ok (normalized :: items)
      | Err _ => Err ErrProfileInput
      end
  end.
(** [sort.Strings] of the set of normalized items *)
Definition sort_unique (values : list string) : list string := order_by (λ v : string, v) (remove_dups values).
Definition normalizeProfileList (values : list string) : result error (list string) :=
  match values with
  | [] => Ok []
  | _ =>
      if (MaximumProfileListItems <? length values)%nat then Err ErrProfileInput
      else
        items ← normalize_items values;
        if (MaximumProfileListItems <? length (remove_dups items))%nat then Err ErrProfileInput
        else Ok (sort_unique items)
  end.

Definition normalizeProfileEmail (value : string) : result error string :=
  let value := trim_space (b value) in
  match value with
  | [] => Ok ""
  | _ =>
      if negb (valid_utf8 value) || (MaximumProfileEmailBytes <? blen value) || containsProfileControl value
      then Err ErrProfileInput
      else if negb (plain_address value) || existsb (λ c, mem c "<>" || (c ≡c quote)) value
      then Err ErrProfileInput else Ok (str value)
  end.

Section Normalize.
Context `{RelayIdentity}.

Definition normalizeProfileHTTPSURL (value : string) (maximum : Z) : result error string :=
  let value := trim_space (b value) in
  if bytes_eqb value [] || negb (valid_utf8 value) || (maximum <? blen value) || containsProfileControl value
  then Err ErrProfileInput
  else
    match norm_actor (str value) with
    | Some canonical => if maximum <? len canonical then Err ErrProfileInput else Ok canonical
    | None => Err ErrProfileInput
    end.
Definition optional_url (value : string) : result error string :=
  if value ≟ "" then Ok "" else normalizeProfileHTTPSURL value MaximumProfileURLBytes.

Definition NormalizeRelayProfile (p : profile) : result error profile :=
  participation ← normalizeProfileText (ParticipationMode p) MaximumProfileScalarBytes;
  availability ← normalizeProfileText (Availability p) MaximumProfileScalarBytes;
  relayType ← normalizeProfileText (RelayType p) MaximumProfileScalarBytes;
  languages ← normalizeProfileList (Languages p);
  countries ← normalizeProfileList (Countries p);
  regions ← normalizeProfileList (Regions p);
  topics ← normalizeProfileList (Topics p);
  fediverse ← normalizeProfileText (ContactFediverse p) MaximumProfileFediverseIDBytes;
  email ← normalizeProfileEmail (ContactEmail p);
  contact ← optional_url (ContactURL p);
  participate ← optional_url (ParticipationURL p);
  notes ← normalizeProfileText (Notes p) MaximumProfileNoteBytes;
  Ok (RelayProfileOf participation availability relayType languages countries regions topics fediverse email
        contact participate notes).

(** [canonical, err := NormalizeRelayProfile(p); err == nil && equalRelayProfile(canonical, p)] *)
Definition equalRelayProfile (left right : profile) : bool := bool_decide (left = right).
Definition normalized_profile (p : profile) : bool :=
  match NormalizeRelayProfile p with Ok q => equalRelayProfile q p | Err _ => false end.

Definition NormalizeProfileSource (source : ProfileSource) : result error ProfileSource :=
  let label := str (trim_space (b (SourceLabel source))) in
  let url := str (trim_space (b (SourceURL source))) in
  match Kind source with
  | ProfileSourceRelay =>
      if negb (label ≟ "") || negb (url ≟ "") then Err ErrProfileInput else Ok (Build_ProfileSource ProfileSourceRelay label url)
  | ProfileSourceCSV =>
      if negb (ValidDiscoverySourceLabel label) || (label ≟ "") then Err ErrProfileInput
      else if url ≟ "" then Ok (Build_ProfileSource ProfileSourceCSV label url)
      else canonical ← normalizeProfileHTTPSURL url MaximumProfileSourceURLBytes;
           Ok (Build_ProfileSource ProfileSourceCSV label canonical)
  | ProfileSourceOverride =>
      if negb (ValidOperatorID label) || negb (url ≟ "") then Err ErrProfileInput
      else Ok (Build_ProfileSource ProfileSourceOverride label url)
  end.
End Normalize.

(** ** Stored values *)

Definition text_of (p : profile) (field : ProfileField) : string :=
  match field with
  | ProfileFieldParticipationMode => ParticipationMode p | ProfileFieldAvailability => Availability p
  | ProfileFieldRelayType => RelayType p | ProfileFieldContactFediverse => ContactFediverse p
  | ProfileFieldContactEmail => ContactEmail p | ProfileFieldContactURL => ContactURL p
  | ProfileFieldParticipationURL => ParticipationURL p | ProfileFieldNotes => Notes p
  | _ => ""
  end.
Definition list_of (p : profile) (field : ProfileField) : list string :=
  match field with
  | ProfileFieldLanguages => Languages p | ProfileFieldCountries => Countries p
  | ProfileFieldRegions => Regions p | ProfileFieldTopics => Topics p
  | _ => []
  end.
Definition set_text (p : profile) (field : ProfileField) (v : string) : profile :=
  let '(RelayProfileOf a b0 c d e f g h i j k l) := p in
  match field with
  | ProfileFieldParticipationMode => RelayProfileOf v b0 c d e f g h i j k l
  | ProfileFieldAvailability => RelayProfileOf a v c d e f g h i j k l
  | ProfileFieldRelayType => RelayProfileOf a b0 v d e f g h i j k l
  | ProfileFieldContactFediverse => RelayProfileOf a b0 c d e f g v i j k l
  | ProfileFieldContactEmail => RelayProfileOf a b0 c d e f g h v j k l
  | ProfileFieldContactURL => RelayProfileOf a b0 c d e f g h i v k l
  | ProfileFieldParticipationURL => RelayProfileOf a b0 c d e f g h i j v l
  | ProfileFieldNotes => RelayProfileOf a b0 c d e f g h i j k v
  | _ => p
  end.
Definition set_list (p : profile) (field : ProfileField) (v : list string) : profile :=
  let '(RelayProfileOf a b0 c d e f g h i j k l) := p in
  match field with
  | ProfileFieldLanguages => RelayProfileOf a b0 c v e f g h i j k l
  | ProfileFieldCountries => RelayProfileOf a b0 c d v f g h i j k l
  | ProfileFieldRegions => RelayProfileOf a b0 c d e v g h i j k l
  | ProfileFieldTopics => RelayProfileOf a b0 c d e f v h i j k l
  | _ => p
  end.

(** The JSON of an asserted field, and whether the field is present. *)
Definition encodeProfileField (p : profile) (field : ProfileField) : option string :=
  if MultiValue field then
    match list_of p field with [] => None | values => Some (str (json_list (map b values))) end
  else if text_of p field ≟ "" then None else Some (str (json_string (b (text_of p field)))).

Definition decodeProfileField (p : profile) (field : ProfileField) (valueJSON : string) : result error profile :=
  if (valueJSON ≟ "") || (MaximumProfileStoredValueBytes <? len valueJSON) then Err ErrInvalidState
  else if MultiValue field then
    match unmarshal_strings (b valueJSON) with
    | Some (v :: values) => Ok (set_list p field (map str (v :: values)))
    | _ => Err ErrInvalidState
    end
  else
    match unmarshal_string (b valueJSON) with
    | Some value => if str value ≟ "" then Err ErrInvalidState else Ok (set_text p field (str value))
    | None => Err ErrInvalidState
    end.

Record profile_row := ProfileRow {
  value_json : string; source_label : option string; source_url : option string;
  accepted_at : Z; value_revision : Z }.
Record profile_event := ProfileEvent {
  pe_actor : string; pe_kind : ProfileSourceKind; pe_field : ProfileField; pe_value : option string;
  pe_label : option string; pe_url : option string; pe_revision : Z; pe_recorded : Z }.

(** [CHECK (json_valid(v) AND json_type(v) = 'text' | 'array')] for the field's
    shape; only documents the codec reads occur. *)
Definition json_shape_ok (field : ProfileField) (v : string) : bool :=
  if MultiValue field then not_null (unmarshal_strings (b v)) && has_prefix (b v) ["["%char]
  else not_null (unmarshal_string (b v)) && has_prefix (b v) [quote].
Definition json_check (field : ProfileField) (v : string) : bool := blob_length_between 2 4096 v && json_shape_ok field v.
Definition provenance_check (kind : ProfileSourceKind) (label url : option string) : bool :=
  null_or operator_check label &&
  null_or (λ u, blob_length_between 1 2048 u && has_prefix (b u) (b "https://")) url &&
  match kind with
  | ProfileSourceRelay => is_null label && is_null url
  | ProfileSourceOverride => not_null label && is_null url
  | ProfileSourceCSV => not_null label
  end.
Definition profile_row_check (actor : string) (kind : ProfileSourceKind) (field : ProfileField) (r : profile_row) : bool :=
  blob_length_between 1 4096 actor && json_check field (value_json r) && (0 <=? accepted_at r) &&
  (1 <=? value_revision r) && provenance_check kind (source_label r) (source_url r).
Definition profile_event_check (e : profile_event) : bool :=
  blob_length_between 1 4096 (pe_actor e) && null_or (json_check (pe_field e)) (pe_value e) &&
  (1 <=? pe_revision e) && (0 <=? pe_recorded e) && provenance_check (pe_kind e) (pe_label e) (pe_url e).

(** The two tables: values by (actor, source, field), and the append-only events;
    beside them the identities the guards read. *)
#[export] Program Instance ProfileSourceKind_finite : Finite ProfileSourceKind :=
  {| enum := [ProfileSourceCSV; ProfileSourceRelay; ProfileSourceOverride] |}.
Next Obligation. by apply (bool_decide_unpack _). Qed.
Next Obligation. by intros []; apply (bool_decide_unpack _). Qed.
#[export] Program Instance ProfileField_finite : Finite ProfileField := {| enum := ProfileFields |}.
Next Obligation. by apply (bool_decide_unpack _). Qed.
Next Obligation. by intros []; apply (bool_decide_unpack _). Qed.

Abbreviation profile_key := (string * (ProfileSourceKind * ProfileField))%type.
Record profile_state := ProfileState {
  profile_db : db; profile_values : gmap profile_key profile_row; profile_events : list profile_event }.

(** [INSERT ... ON CONFLICT DO UPDATE]: the new row replaces the old one; the
    insert trigger requires a retained identity. *)
Definition upsert_profile_value (actor : string) (kind : ProfileSourceKind) (field : ProfileField) (r : profile_row)
    (s : profile_state) : option (profile_state * unit) :=
  if negb (retained_identity actor (profile_db s)) || negb (profile_row_check actor kind field r) then None
  else Some (ProfileState (profile_db s) (<[(actor, (kind, field)) := r]> (profile_values s)) (profile_events s), tt).
Definition delete_profile_value (actor : string) (kind : ProfileSourceKind) (field : ProfileField) (s : profile_state)
    : option (profile_state * unit) :=
  Some (ProfileState (profile_db s) (delete (actor, (kind, field)) (profile_values s)) (profile_events s), tt).
Definition same_revision (e e' : profile_event) : bool :=
  (pe_actor e ≟ pe_actor e') && bool_decide (pe_kind e = pe_kind e') && bool_decide (pe_field e = pe_field e') &&
  (pe_revision e =? pe_revision e').
Definition insert_profile_event (e : profile_event) (s : profile_state) : option (profile_state * unit) :=
  if negb (profile_event_check e) || existsb (same_revision e) (profile_events s) then None
  else Some (ProfileState (profile_db s) (profile_values s) (profile_events s ++ [e]), tt).

Definition of_source (actor : string) (kind : ProfileSourceKind) (e : profile_event) : bool :=
  (pe_actor e ≟ actor) && bool_decide (pe_kind e = kind).
(** [SELECT MAX(recorded_at_unix) ... WHERE relay_actor = ? AND source_kind = ?] *)
Definition latest_profile_event (actor : string) (kind : ProfileSourceKind) (s : profile_state) : option Z :=
  max_of (map pe_recorded (List.filter (of_source actor kind) (profile_events s))).
(** The history revision of one field: [MAX(revision) ... GROUP BY field_name]. *)
Definition history_revision (actor : string) (kind : ProfileSourceKind) (field : ProfileField) (s : profile_state) : option Z :=
  max_of (map pe_revision
    (List.filter (λ e, of_source actor kind e && bool_decide (pe_field e = field)) (profile_events s))).

(** ** Reading one source *)

Definition requireProfileMonotonicTime (actor : string) (kind : ProfileSourceKind) (acceptedUnix : Z) : Session profile_state unit :=
  latest ← failing "read profile event time" (select (latest_profile_event actor kind));
  ensure (null_or (λ v, v <=? acceptedUnix) latest) ErrProfileTime.

(** The rows of one query, one [Scan] and one validity test each. *)
Fixpoint scan_valid {S A} (decodeAction validateAction iterateAction : string) (valid : A → bool) (rows : list A)
    : Session S unit :=
  match rows with
  | [] => failing iterateAction call_driver
  | row :: rest =>
      failing decodeAction call_driver ;;
      ensure (valid row) (storageFailure validateAction ErrInvalidState) ;;
      scan_valid decodeAction validateAction iterateAction valid rest
  end.

(** The fields one source asserts, in the order of [ProfileFields]. *)
Definition source_rows (actor : string) (kind : ProfileSourceKind) (s : profile_state) : list (ProfileField * profile_row) :=
  omap (λ f, (λ r, (f, r)) <$> profile_values s !! (actor, (kind, f))) ProfileFields.
Definition source_revisions (actor : string) (kind : ProfileSourceKind) (s : profile_state) : list (ProfileField * Z) :=
  omap (λ f, (λ v, (f, v)) <$> history_revision actor kind f s) ProfileFields.

Definition readProfileSourceValues (actor : string) (kind : ProfileSourceKind)
    : Session profile_state (list (ProfileField * profile_row)) :=
  rows ← failing "read profile source" (select (source_rows actor kind));
  scan_valid "decode profile source" "validate profile source" "iterate profile source"
    (λ row, 1 <=? value_revision row.2) rows ;;
  mret rows.
Definition readProfileSourceRevisions (actor : string) (kind : ProfileSourceKind)
    : Session profile_state (list (ProfileField * Z)) :=
  rows ← failing "read profile revisions" (select (source_revisions actor kind));
  scan_valid "decode profile revision" "validate profile revision" "iterate profile revisions"
    (λ row, 1 <=? row.2) rows ;;
  mret rows.

(** [values[field]] of the maps the two readers return. *)
Definition field_entry {A} (rows : list (ProfileField * A)) (field : ProfileField) : option A :=
  snd <$> List.find (λ row, bool_decide (row.1 = field)) rows.
(** [historyRevisions[field]]: zero when absent *)
Definition revision_of (revisions : list (ProfileField * Z)) (field : ProfileField) : Z :=
  default 0 (field_entry revisions field).

(** ** Replacing one source *)

(** [NULLIF(?, '')] *)
Definition nullif_empty (s : string) : option string := if s ≟ "" then None else Some s.
Definition coalesce_empty (s : option string) : string := default "" s.

Definition insertProfileEvent (actor : string) (source : ProfileSource) (field : ProfileField) (value : option string)
    (revision recordedUnix : Z) : Session profile_state unit :=
  failing "record profile event"
    (execute (insert_profile_event
       (ProfileEvent actor (Kind source) field value (nullif_empty (SourceLabel source)) (nullif_empty (SourceURL source))
          revision recordedUnix))).

Definition clear_field (actor : string) (source : ProfileSource) (field : ProfileField) (revision acceptedUnix : Z)
    : Session profile_state unit :=
  failing "clear profile value" (execute (delete_profile_value actor (Kind source) field)) ;;
  insertProfileEvent actor source field None revision acceptedUnix.
Definition write_field (actor : string) (source : ProfileSource) (field : ProfileField) (valueJSON : string)
    (revision acceptedUnix : Z) : Session profile_state unit :=
  failing "write profile value"
    (execute (upsert_profile_value actor (Kind source) field
       (ProfileRow valueJSON (nullif_empty (SourceLabel source)) (nullif_empty (SourceURL source)) acceptedUnix revision))) ;;
  insertProfileEvent actor source field (Some valueJSON) revision acceptedUnix.

(** [exists && existing.valueJSON == valueJSON && ...] *)
Definition same_assertion (source : ProfileSource) (valueJSON : string) (existing : option profile_row) : bool :=
  match existing with
  | Some r => (value_json r ≟ valueJSON) && (coalesce_empty (source_label r) ≟ SourceLabel source) &&
              (coalesce_empty (source_url r) ≟ SourceURL source)
  | None => false
  end.

Fixpoint replace_fields (actor : string) (source : ProfileSource) (p : profile) (acceptedUnix : Z)
    (current : list (ProfileField * profile_row)) (revisions : list (ProfileField * Z))
    (result : ProfileMutationSummary) (fields : list ProfileField) : Session profile_state ProfileMutationSummary :=
  match fields with
  | [] => mret result
  | field :: rest =>
      let existing := field_entry current field in
      let revision := revision_of revisions field + 1 in
      let '(Summary created updated cleared unchanged) := result in
      let continue := replace_fields actor source p acceptedUnix current revisions in
      match encodeProfileField p field with
      | None =>
          if is_null existing then continue (Summary created updated cleared (unchanged + 1)) rest
          else clear_field actor source field revision acceptedUnix ;;
               continue (Summary created updated (cleared + 1) unchanged) rest
      | Some valueJSON =>
          ensure (negb (MaximumProfileStoredValueBytes <? len valueJSON)) ErrProfileInput ;;
          if same_assertion source valueJSON existing then continue (Summary created updated cleared (unchanged + 1)) rest
          else
            write_field actor source field valueJSON revision acceptedUnix ;;
            continue (if is_null existing then Summary (created + 1) updated cleared unchanged
                      else Summary created (updated + 1) cleared unchanged) rest
      end
  end.

Section Replace.
Context `{RelayIdentity}.

Definition ReplaceProfileSource_tx (actor : string) (source : ProfileSource) (p : profile) (acceptedUnix : Z)
    : Session profile_state ProfileMutationSummary :=
  retained ← failing "read profile identity" (select (λ s, retained_identity actor (profile_db s)));
  ensure retained ErrProfileAbsent ;;
  requireProfileMonotonicTime actor (Kind source) acceptedUnix ;;
  current ← readProfileSourceValues actor (Kind source);
  revisions ← readProfileSourceRevisions actor (Kind source);
  ensure (forallb (λ row, revision_of revisions row.1 =? value_revision row.2) current)
    (storageFailure "validate profile revision" ErrInvalidState) ;;
  replace_fields actor source p acceptedUnix current revisions (Summary 0 0 0 0) ProfileFields.

Definition ReplaceProfileSource (c : call) (intent : ProfileSourceIntent) (acceptedAt : Z) (s : profile_state)
    : result error ProfileMutationSummary * profile_state :=
  if negb (configured c) then (Err ErrRepositoryConfiguration, s)
  else if negb (ValidProfileRelayActor (profile_actor intent)) then (Err ErrProfileInput, s)
  else
    match NormalizeProfileSource (profile_source intent) with
    | Err e => (Err e, s)
    | Ok source =>
        match NormalizeRelayProfile (asserted intent) with
        | Err e => (Err e, s)
        | Ok p =>
            let acceptedUnix := unix_of acceptedAt in
            if acceptedUnix <? 0 then (Err ErrProfileTime, s)
            else transact c "commit profile source" (ReplaceProfileSource_tx (profile_actor intent) source p acceptedUnix) s
        end
    end.
End Replace.

(** ** Effective profiles *)

Abbreviation profile_table := (gmap profile_key profile_row).
Abbreviation profile_entry := (profile_key * profile_row)%type.

(** [ORDER BY relay_actor, field_name, CASE source_kind ... END DESC] *)
Definition effective_key (e : profile_entry) : string * (string * Z) :=
  let '((actor, (kind, field)), _) := e in (actor, (field_name field, - ProfileSourcePriority kind)).
Definition effective_query (store : profile_table) (actors : list string) : list profile_entry :=
  order_by effective_key (List.filter (λ e, one_of actors e.1.1) (map_to_list store)).

Section Effective.
Context `{RelayIdentity}.

(** The first row of an actor's field is the one of highest priority. *)
Fixpoint effective_rows (requested : list string) (result : gmap string profile) (seen : list (string * ProfileField))
    (rows : list profile_entry) : Tx (gmap string profile) :=
  match rows with
  | [] => wrapped "iterate effective profile" driver ;; mret result
  | ((actor, (_, field)), r) :: rest =>
      wrapped "decode effective profile" driver ;;
      check (one_of requested actor) (storageFailure "validate effective profile" ErrInvalidState) ;;
      if bool_decide ((actor, field) ∈ seen) then effective_rows requested result seen rest
      else
        p ← wrapped "decode effective profile value"
              (tx_lift (decodeProfileField (default empty_profile (result !! actor)) field (value_json r)));
        effective_rows requested (<[actor := p]> result) ((actor, field) :: seen) rest
  end.
Fixpoint normalize_all (result : gmap string profile) (actors : list string) : Tx (gmap string profile) :=
  match actors with
  | [] => mret result
  | actor :: rest =>
      p ← wrapped "normalize effective profile" (tx_lift (NormalizeRelayProfile (default empty_profile (result !! actor))));
      normalize_all (<[actor := p]> result) rest
  end.
Definition readEffectiveProfiles (store : profile_table) (actors : list string) : Tx (gmap string profile) :=
  match actors with
  | [] => mret ∅
  | _ =>
      check (forallb ValidProfileRelayActor actors) ErrProfileInput ;;
      rows ← wrapped "read effective profile" (query (λ _, effective_query store actors));
      result ← effective_rows actors ∅ [] rows;
      normalize_all result actors
  end.

Definition EffectiveProfile_tx (store : profile_table) (actor : string) : Tx profile :=
  check (ValidProfileRelayActor actor) ErrProfileInput ;;
  retained ← wrapped "read profile identity" (query (retained_identity actor));
  check retained ErrProfileAbsent ;;
  profiles ← readEffectiveProfiles store [actor];
  mret (default empty_profile (profiles !! actor)).
Definition EffectiveProfile (c : call) (store : profile_table) (actor : string) (d : db) : result error profile :=
  run_read c (EffectiveProfile_tx store actor) d.

(** One source without precedence, for the CSV preflight. *)
Fixpoint source_preview (p : profile) (rows : list (ProfileField * profile_row)) : Tx profile :=
  match rows with
  | [] => wrapped "iterate profile source preview" driver ;; mret p
  | (field, r) :: rest =>
      wrapped "decode profile source preview" driver ;;
      p ← wrapped "decode profile source preview value" (tx_lift (decodeProfileField p field (value_json r)));
      source_preview p rest
  end.
Definition preview_rows (store : profile_table) (actor : string) (kind : ProfileSourceKind) : list (ProfileField * profile_row) :=
  order_by (λ row : ProfileField * profile_row, field_name row.1)
    (omap (λ f, (λ r, (f, r)) <$> store !! (actor, (kind, f))) ProfileFields).
Definition ProfileSourceProfile (c : call) (store : profile_table) (actor : string) (kind : ProfileSourceKind) (d : db)
    : result error profile :=
  if negb (configured c) || negb (ValidProfileRelayActor actor) then Err ErrProfileInput
  else
    run_read c
      (rows ← wrapped "read profile source preview" (query (λ _, preview_rows store actor kind));
       p ← source_preview empty_profile rows;
       tx_lift (NormalizeRelayProfile p)) d.
End Effective.
