(* ===== verification/Requests.v ===== *)
(** * Requests: the signed lifecycle requests of protocol versions 1, 2 and 3

    [internal/protocol/v1/request.go], [register.go], [heartbeat.go] and
    [unregister.go], and [request.go] and [verifier.go] of [internal/protocol/v2]
    and [internal/protocol/v3]: strict decoding of a bounded body, the target of
    the request, and verification with the reservation of the signature nonce.
    Versions 2 and 3 are the same code up to the constants of a [contract]. *)
From S2P Require Import Prelude GoNet Identity Text Json Vocabulary Store Session Repository Telemetry Profile Replay Signature.
From Stdlib Require Import Ascii.
Local Open Scope string_scope.
Local Open Scope Z_scope.
Local Open Scope go_scope.
Local Open Scope list_scope.

(** ** Errors *)

(** [Err<Operation>Configuration], [...Request], [...BodyTooLarge],
    [...ProtocolVersion] and [...Target] of the package of a version. *)
Inductive contract_error := BadConfiguration | BadRequest | BodyTooLarge | BadProtocolVersion | BadTarget.
Inductive lifecycle_error :=
| ErrContract (version : Z) (operation : string) (e : contract_error)
| ErrAuthentication (e : auth_error)
| ErrStorage (e : error)
| ErrLifecycleConfiguration.

(** ** Requests on the wire *)

(** [request.Body]: what reads deliver, and whether a last read fails. *)
Record body_reader := BodyReader { content : bytes; read_fails : bool }.
(** An [*http.Request] with what the verifier of [Signature] does not look at. *)
Record lifecycle_request := LifecycleRequest {
  http : http_request; RequestURI : string; RawFragment : string; RemoteAddr : string; ContentLength : Z; Body : option body_reader }.

Definition validOperationTarget (request : lifecycle_request) (endpointPath : string) : bool :=
  match request_URL (http request) with
  | None => false
  | Some url =>
      let u := url_target url in
      (request_method (http request) ≟ "POST") && bytes_eqb (EscapedPath u) (b endpointPath) && bytes_eqb (RawQuery u) [] &&
      negb (ForceQuery u) && bytes_eqb (url_fragment url) [] && (RawFragment request ≟ "") &&
      ((RequestURI request ≟ "") || (RequestURI request ≟ endpointPath))
  end.

(** ** Strict decoding *)

Definition duplicate_names (members : list (bytes * json)) : bool := negb (bool_decide (NoDup (map fst members))).
(** The first pass of version 1 over the tokens.  A body on which it stops for its
    syntax is one the decoder refuses as well. *)
Definition rejectDuplicateTopLevelJSONNames (body : bytes) : bool :=
  match parse_document body with Some (JObject members) => duplicate_names members | _ => true end.
Definition decodeStrictJSONObject {R} (fields : list (field R)) (body : bytes) (destination : R) : option R :=
  if rejectDuplicateTopLevelJSONNames body then None else document ← parse_document body; into_struct fields document destination.

(** The first pass of versions 2 and 3 looks at every object, and lets a document
    that is no object pass. *)
Fixpoint duplicate_within (j : json) : bool :=
  match j with
  | JObject members => duplicate_names members || existsb (λ m, duplicate_within m.2) members
  | JArray items => existsb duplicate_within items
  | _ => false
  end.
Definition duplicateJSONName (body : bytes) : bool :=
  match parse_document body with Some j => duplicate_within j | None => true end.
Definition decodeStrictJSON {R} (fields : list (field R)) (body : bytes) (destination : R) : option R :=
  if duplicateJSONName body then None else document ← parse_document body; into_struct fields document destination.

(** [json:"name"] on a field of a struct *)
Definition json_field {R A} (name : string) (decode : Decoder A) (get : R → A) (set : A → R → R) : field R :=
  (name, λ j r, v ← decode j (get r); Some (set v r)).

Record identity_request := IdentityRequest { id_version : Z; id_operation : string; id_actor : string }.
Definition identity_fields : list (field identity_request) :=
  [json_field "protocol_version" into_int id_version (λ x r, IdentityRequest x (id_operation r) (id_actor r));
   json_field "operation" into_string id_operation (λ x r, IdentityRequest (id_version r) x (id_actor r));
   json_field "relay_actor" into_string id_actor (λ x r, IdentityRequest (id_version r) (id_operation r) x)].
Definition zero_identity : identity_request := IdentityRequest 0 "" "".

Definition MaximumRegisterBodyBytes : Z := 1024 * 1024.
Definition MaximumHeartbeatBodyBytes : Z := MaximumRegisterBodyBytes.
Definition MaximumUnregisterBodyBytes : Z := MaximumRegisterBodyBytes.

(** The checks on the configured limit and on the body before it is decoded. *)
Definition body_limit (version : Z) (operation : string) (body : bytes) (maximumBytes protocolMaximum : Z) : result lifecycle_error unit :=
  if (maximumBytes <=? 0) || (protocolMaximum <? maximumBytes) then Err (ErrContract version operation BadConfiguration)
  else if maximumBytes <? blen body then Err (ErrContract version operation BodyTooLarge)
  else Ok tt.
(** [request.ProtocolVersion] and [request.Operation] *)
Definition expected_header (version : Z) (operation : string) (version' : Z) (operation' : string) : result lifecycle_error unit :=
  if negb (version' =? version) then Err (ErrContract version operation BadProtocolVersion)
  else if negb (operation' ≟ operation) then Err (ErrContract version operation BadRequest)
  else Ok tt.
Definition require_contract (version : Z) (operation : string) (ok : bool) : result lifecycle_error unit :=
  if ok then Ok tt else Err (ErrContract version operation BadRequest).
Definition decoded {A} (version : Z) (operation : string) (r : option A) : result lifecycle_error A :=
  match r with Some a => Ok a | None => Err (ErrContract version operation BadRequest) end.

Section Decoding.
Context `{RelayIdentity}.

(** ** Version 1 *)

Record register_request := RegisterRequest { reg_version : Z; reg_operation : string; reg_actor : string; reg_base : string }.
Definition register_fields : list (field register_request) :=
  [json_field "protocol_version" into_int reg_version (λ x r, RegisterRequest x (reg_operation r) (reg_actor r) (reg_base r));
   json_field "operation" into_string reg_operation (λ x r, RegisterRequest (reg_version r) x (reg_actor r) (reg_base r));
   json_field "relay_actor" into_string reg_actor (λ x r, RegisterRequest (reg_version r) (reg_operation r) x (reg_base r));
   json_field "public_base_url" into_string reg_base (λ x r, RegisterRequest (reg_version r) (reg_operation r) (reg_actor r) x)].

Definition DecodeRegisterRequest (body : bytes) (maximumBytes : Z) : result lifecycle_error register_request :=
  body_limit Version OperationRegister body maximumBytes MaximumRegisterBodyBytes ;;
  request ← decoded Version OperationRegister (decodeStrictJSONObject register_fields body (RegisterRequest 0 "" "" ""));
  expected_header Version OperationRegister (reg_version request) (reg_operation request) ;;
  require_contract Version OperationRegister (canonical_identity (reg_actor request) (reg_base request)) ;;
  Ok request.
Definition decode_identity (operation : string) (body : bytes) (maximumBytes protocolMaximum : Z) : result lifecycle_error identity_request :=
  body_limit Version operation body maximumBytes protocolMaximum ;;
  request ← decoded Version operation (decodeStrictJSONObject identity_fields body zero_identity);
  expected_header Version operation (id_version request) (id_operation request) ;;
  require_contract Version operation (canonical_actor (id_actor request)) ;;
  Ok request.
Definition DecodeHeartbeatRequest (body : bytes) (maximumBytes : Z) := decode_identity OperationHeartbeat body maximumBytes MaximumHeartbeatBodyBytes.
Definition DecodeUnregisterRequest (body : bytes) (maximumBytes : Z) := decode_identity OperationUnregister body maximumBytes MaximumUnregisterBodyBytes.

(** ** Versions 2 and 3 *)

Inductive telemetry := Receiving (i : TelemetryIntent) | Participating (i : ParticipatingTelemetryIntent).
Record contract := Contract {
  contract_version : Z; contract_tag : string; contract_root : string;
  telemetry_name : string; telemetry_maximum : Z; telemetry_intent : string → Z → telemetry }.
Definition contract_v2 : contract := {|
  contract_version := 2; contract_tag := "activity-relay-directory-v2"; contract_root := "/v2/relays/";
  telemetry_name := "receiving_instance_count"; telemetry_maximum := MaximumReceivingInstanceCount;
  telemetry_intent := λ actor count, Receiving {| telemetry_actor := actor; ReceivingInstanceCount := count |} |}.
Definition contract_v3 : contract := {|
  contract_version := 3; contract_tag := "activity-relay-directory-v3"; contract_root := "/v3/relays/";
  telemetry_name := "participating_instance_count"; telemetry_maximum := MaximumParticipatingInstanceCount;
  telemetry_intent := λ actor count, Participating {| participating_actor := actor; ParticipatingInstanceCount := count |} |}.

Record profileWire := ProfileWire {
  wire_mode : option string; wire_availability : option string; wire_type : option string;
  wire_languages : option go_slice; wire_countries : option go_slice; wire_regions : option go_slice; wire_topics : option go_slice;
  wire_fediverse : option string; wire_email : option string; wire_url : option string; wire_participation : option string;
  wire_notes : option string }.
Definition nil_profile : profileWire := ProfileWire None None None None None None None None None None None None.
Definition pointer_string : Decoder (option string) := into_pointer "" into_string.
Definition pointer_strings : Decoder (option go_slice) := into_pointer nil_slice into_strings.
Definition profile_fields : list (field profileWire) :=
  [json_field "participation_mode" pointer_string wire_mode (λ x '(ProfileWire _ a t l c r o f e u p n), ProfileWire x a t l c r o f e u p n);
   json_field "availability" pointer_string wire_availability (λ x '(ProfileWire m _ t l c r o f e u p n), ProfileWire m x t l c r o f e u p n);
   json_field "relay_type" pointer_string wire_type (λ x '(ProfileWire m a _ l c r o f e u p n), ProfileWire m a x l c r o f e u p n);
   json_field "languages" pointer_strings wire_languages (λ x '(ProfileWire m a t _ c r o f e u p n), ProfileWire m a t x c r o f e u p n);
   json_field "countries" pointer_strings wire_countries (λ x '(ProfileWire m a t l _ r o f e u p n), ProfileWire m a t l x r o f e u p n);
   json_field "regions" pointer_strings wire_regions (λ x '(ProfileWire m a t l c _ o f e u p n), ProfileWire m a t l c x o f e u p n);
   json_field "topics" pointer_strings wire_topics (λ x '(ProfileWire m a t l c r _ f e u p n), ProfileWire m a t l c r x f e u p n);
   json_field "contact_fediverse" pointer_string wire_fediverse (λ x '(ProfileWire m a t l c r o _ e u p n), ProfileWire m a t l c r o x e u p n);
   json_field "contact_email" pointer_string wire_email (λ x '(ProfileWire m a t l c r o f _ u p n), ProfileWire m a t l c r o f x u p n);
   json_field "contact_url" pointer_string wire_url (λ x '(ProfileWire m a t l c r o f e _ p n), ProfileWire m a t l c r o f e x p n);
   json_field "participation_url" pointer_string wire_participation (λ x '(ProfileWire m a t l c r o f e u _ n), ProfileWire m a t l c r o f e u x n);
   json_field "notes" pointer_string wire_notes (λ x '(ProfileWire m a t l c r o f e u p _), ProfileWire m a t l c r o f e u p x)].

(** [profileWire.normalized] *)
Definition profile_normalized (w : profileWire) : result error profile :=
  match w with
  | ProfileWire (Some mode) (Some availability) (Some type) (Some languages) (Some countries) (Some regions) (Some topics)
      (Some fediverse) (Some email) (Some url) (Some participation) (Some notes) =>
      normalized ← NormalizeRelayProfile (RelayProfileOf mode availability type (slice_values languages) (slice_values countries)
        (slice_values regions) (slice_values topics) fediverse email url participation notes);
      if one_of [""; "open"; "restricted"; "closed"] (ParticipationMode normalized) then Ok normalized else Err ErrProfileInput
  | _ => Err ErrProfileInput
  end.

Record telemetryWire := TelemetryWire { wire_count : option Z }.
Definition telemetry_fields (c : contract) : list (field telemetryWire) :=
  [json_field (telemetry_name c) (into_pointer 0 into_int) wire_count (λ x _, TelemetryWire x)].
Definition pointer_telemetry (c : contract) : Decoder (option telemetryWire) := into_pointer (TelemetryWire None) (into_struct (telemetry_fields c)).
(** [telemetryWire.normalized] of a pointer that may be nil *)
Definition telemetry_normalized (c : contract) (w : option telemetryWire) (relayActor : string) : result error (option telemetry) :=
  match w with
  | None => Ok None
  | Some (TelemetryWire None) => Err ErrTelemetryInput
  | Some (TelemetryWire (Some count)) =>
      if (count <? 0) || (telemetry_maximum c <? count) then Err ErrTelemetryInput else Ok (Some (telemetry_intent c relayActor count))
  end.

Record registerWire := RegisterWire {
  rw_version : Z; rw_operation : string; rw_actor : string; rw_base : string; rw_profile : profileWire; rw_telemetry : option telemetryWire }.
Definition nil_register : registerWire := RegisterWire 0 "" "" "" nil_profile None.
Definition register_wire_fields (c : contract) : list (field registerWire) :=
  [json_field "protocol_version" into_int rw_version (λ x '(RegisterWire _ o a u p t), RegisterWire x o a u p t);
   json_field "operation" into_string rw_operation (λ x '(RegisterWire v _ a u p t), RegisterWire v x a u p t);
   json_field "relay_actor" into_string rw_actor (λ x '(RegisterWire v o _ u p t), RegisterWire v o x u p t);
   json_field "public_base_url" into_string rw_base (λ x '(RegisterWire v o a _ p t), RegisterWire v o a x p t);
   json_field "profile" (into_struct profile_fields) rw_profile (λ x '(RegisterWire v o a u _ t), RegisterWire v o a u x t);
   json_field "telemetry" (pointer_telemetry c) rw_telemetry (λ x '(RegisterWire v o a u p _), RegisterWire v o a u p x)].
Record heartbeatWire := HeartbeatWire { hw_version : Z; hw_operation : string; hw_actor : string; hw_telemetry : option telemetryWire }.
Definition heartbeat_wire_fields (c : contract) : list (field heartbeatWire) :=
  [json_field "protocol_version" into_int hw_version (λ x '(HeartbeatWire _ o a t), HeartbeatWire x o a t);
   json_field "operation" into_string hw_operation (λ x '(HeartbeatWire v _ a t), HeartbeatWire v x a t);
   json_field "relay_actor" into_string hw_actor (λ x '(HeartbeatWire v o _ t), HeartbeatWire v o x t);
   json_field "telemetry" (pointer_telemetry c) hw_telemetry (λ x '(HeartbeatWire v o a _), HeartbeatWire v o a x)].

(** What a request of versions 2 and 3 decodes into; the identity of heartbeat and
    unregister, and a profile only of register. *)
Record RegisterRequest_v2 := RegisterRequestOf {
  rr_version : Z; rr_operation : string; rr_actor : string; rr_base : string; rr_profile : profile; rr_telemetry : option telemetry }.
Record HeartbeatRequest_v2 := HeartbeatRequestOf { hr_version : Z; hr_operation : string; hr_actor : string; hr_telemetry : option telemetry }.
(** Any error of [normalized] is reported as an invalid request. *)
Definition or_bad_request {A} (version : Z) (operation : string) (r : result error A) : result lifecycle_error A :=
  match r with Ok a => Ok a | Err _ => Err (ErrContract version operation BadRequest) end.

Definition DecodeRegisterRequest_v2 (c : contract) (body : bytes) (maximumBytes : Z) : result lifecycle_error RegisterRequest_v2 :=
  let v := contract_version c in
  body_limit v OperationRegister body maximumBytes MaximumRegisterBodyBytes ;;
  wire ← decoded v OperationRegister (decodeStrictJSON (register_wire_fields c) body nil_register);
  expected_header v OperationRegister (rw_version wire) (rw_operation wire) ;;
  require_contract v OperationRegister (canonical_identity (rw_actor wire) (rw_base wire)) ;;
  profile ← or_bad_request v OperationRegister (profile_normalized (rw_profile wire));
  telemetry ← or_bad_request v OperationRegister (telemetry_normalized c (rw_telemetry wire) (rw_actor wire));
  Ok (RegisterRequestOf (rw_version wire) (rw_operation wire) (rw_actor wire) (rw_base wire) profile telemetry).
Definition DecodeHeartbeatRequest_v2 (c : contract) (body : bytes) (maximumBytes : Z) : result lifecycle_error HeartbeatRequest_v2 :=
  let v := contract_version c in
  body_limit v OperationHeartbeat body maximumBytes MaximumHeartbeatBodyBytes ;;
  wire ← decoded v OperationHeartbeat (decodeStrictJSON (heartbeat_wire_fields c) body (HeartbeatWire 0 "" "" None));
  expected_header v OperationHeartbeat (hw_version wire) (hw_operation wire) ;;
  require_contract v OperationHeartbeat (canonical_actor (hw_actor wire)) ;;
  telemetry ← or_bad_request v OperationHeartbeat (telemetry_normalized c (hw_telemetry wire) (hw_actor wire));
  Ok (HeartbeatRequestOf (hw_version wire) (hw_operation wire) (hw_actor wire) telemetry).
Definition decodeIdentityRequest (c : contract) (body : bytes) (maximumBytes protocolMaximum : Z) (operation : string)
    : result lifecycle_error identity_request :=
  let v := contract_version c in
  body_limit v operation body maximumBytes protocolMaximum ;;
  request ← decoded v operation (decodeStrictJSON identity_fields body zero_identity);
  expected_header v operation (id_version request) (id_operation request) ;;
  require_contract v operation (canonical_actor (id_actor request)) ;;
  Ok request.
Definition DecodeUnregisterRequest_v2 (c : contract) (body : bytes) (maximumBytes : Z) : result lifecycle_error identity_request :=
  decodeIdentityRequest c body maximumBytes MaximumUnregisterBodyBytes OperationUnregister.
Definition v3_DecodeRegisterRequest := DecodeRegisterRequest_v2 contract_v3.
Definition v3_DecodeHeartbeatRequest := DecodeHeartbeatRequest_v2 contract_v3.
Definition v3_DecodeUnregisterRequest := DecodeUnregisterRequest_v2 contract_v3.
End Decoding.

(** ** Verification *)

(** What the handler obtains: the request and its authentication; a verifier may
    also return nil for either. *)
Abbreviation verified R := (option (R * option verification)).
(** One call of a verifier: its authority, the clock when the request is verified
    and when the nonce is reserved, and the answers of the key resolver. *)
Record verification_call := VerificationCall {
  verify_clock : Z; reserve_clock : Z; resolve : string → option resolved_key }.

Section Verifying.
Context `{RelayIdentity} `{SignatureLibraries}.
Context {W : Type} (store : string → Z → W → result error bool * W) (authority : string) (call : verification_call).

(** Decode, check the target, verify the signature for the decoded actor. *)
Definition verify_decoded {R} (version : Z) (operation tag endpointPath : string) (actor : R → string)
    (request : lifecycle_request) (body : bytes) (decoded : result lifecycle_error R) (w : W) : result lifecycle_error (verified R) * W :=
  match decoded with
  | Err e => (Err e, w)
  | Ok r =>
      if negb (validOperationTarget request endpointPath) then (Err (ErrContract version operation BadTarget), w)
      else
        match VerifyPOSTAndReserveWithTag store authority (verify_clock call) (reserve_clock call) (resolve call)
                (http request) body (actor r) tag w with
        | (Err e, w) => (Err (ErrAuthentication e), w)
        | (Ok authentication, w) => (Ok (Some (r, Some authentication)), w)
        end
  end.

Definition RegisterEndpointPath := "/v1/relays/register".
Definition HeartbeatEndpointPath := "/v1/relays/heartbeat".
Definition UnregisterEndpointPath := "/v1/relays/unregister".
Definition VerifyRegisterAndReserve (request : lifecycle_request) (body : bytes) (maximumBytes : Z) (w : W) :=
  verify_decoded Version OperationRegister RFC9421SignatureTag RegisterEndpointPath reg_actor request body
    (DecodeRegisterRequest body maximumBytes) w.
Definition VerifyHeartbeatAndReserve (request : lifecycle_request) (body : bytes) (maximumBytes : Z) (w : W) :=
  verify_decoded Version OperationHeartbeat RFC9421SignatureTag HeartbeatEndpointPath id_actor request body
    (DecodeHeartbeatRequest body maximumBytes) w.
Definition VerifyUnregisterAndReserve (request : lifecycle_request) (body : bytes) (maximumBytes : Z) (w : W) :=
  verify_decoded Version OperationUnregister RFC9421SignatureTag UnregisterEndpointPath id_actor request body
    (DecodeUnregisterRequest body maximumBytes) w.

(** Versions 2 and 3 *)
Definition endpoint (c : contract) (operation : string) : string := String.append (contract_root c) operation.
Definition VerifyRegisterAndReserve_v2 (c : contract) (request : lifecycle_request) (body : bytes) (maximumBytes : Z) (w : W) :=
  verify_decoded (contract_version c) OperationRegister (contract_tag c) (endpoint c OperationRegister) rr_actor request body
    (DecodeRegisterRequest_v2 c body maximumBytes) w.
Definition VerifyHeartbeatAndReserve_v2 (c : contract) (request : lifecycle_request) (body : bytes) (maximumBytes : Z) (w : W) :=
  verify_decoded (contract_version c) OperationHeartbeat (contract_tag c) (endpoint c OperationHeartbeat) hr_actor request body
    (DecodeHeartbeatRequest_v2 c body maximumBytes) w.
Definition VerifyUnregisterAndReserve_v2 (c : contract) (request : lifecycle_request) (body : bytes) (maximumBytes : Z) (w : W) :=
  verify_decoded (contract_version c) OperationUnregister (contract_tag c) (endpoint c OperationUnregister) id_actor request body
    (DecodeUnregisterRequest_v2 c body maximumBytes) w.
Definition v3_VerifyRegisterAndReserve := VerifyRegisterAndReserve_v2 contract_v3.
Definition v3_VerifyHeartbeatAndReserve := VerifyHeartbeatAndReserve_v2 contract_v3.
Definition v3_VerifyUnregisterAndReserve := VerifyUnregisterAndReserve_v2 contract_v3.
End Verifying.
