(* ===== verification/Handler.v ===== *)
(** * Handler: the HTTP handlers of the lifecycle routes

    [internal/httpapi/lifecycle.go].  A handler runs concurrently with others over
    the limiter and the database they share, so it is a sequence of phases: each
    step does what the handler does up to and including its next access to the
    shared state.  [run_handler] is one handler alone, [handlers_step] any
    interleaving of several. *)
From S2P Require Import Prelude GoNet Identity AddrText Text Json Vocabulary Store Session Repository Lifecycle Telemetry Profile Replay Signature Requests Admission.
From Stdlib Require Import Ascii.
Local Open Scope string_scope.
Local Open Scope Z_scope.
Local Open Scope go_scope.
Local Open Scope list_scope.

(** ** Error codes and responses *)

Definition ErrorInvalidRequest := "invalid_request".
Definition ErrorUnsupportedProtocolVersion := "unsupported_protocol_version".
Definition ErrorAuthenticationFailed := "authentication_failed".
Definition ErrorReplayDetected := "replay_detected".
Definition ErrorLifecycleUnavailable := "lifecycle_unavailable".
Definition ErrorEnrollmentClosed := "enrollment_closed".
Definition ErrorRelayNotRegistered := "relay_not_registered".
Definition ErrorRelaySuspended := "relay_suspended".
Definition ErrorRateLimited := "rate_limited".
Definition ErrorInternal := "internal_error".
Definition ErrorCode_Valid (code : string) : bool :=
  one_of [ErrorInvalidRequest; ErrorUnsupportedProtocolVersion; ErrorAuthenticationFailed; ErrorReplayDetected; ErrorLifecycleUnavailable;
          ErrorEnrollmentClosed; ErrorRelayNotRegistered; ErrorRelaySuspended; ErrorRateLimited; ErrorInternal] code.
Definition protocolErrorMessage (code : string) : string :=
  if code ≟ ErrorInvalidRequest then "request is invalid"
  else if code ≟ ErrorUnsupportedProtocolVersion then "protocol version is unsupported"
  else if code ≟ ErrorAuthenticationFailed then "authentication failed"
  else if code ≟ ErrorReplayDetected then "request has already been received"
  else if code ≟ ErrorLifecycleUnavailable then "lifecycle service is unavailable"
  else if code ≟ ErrorEnrollmentClosed then "directory enrollment is closed"
  else if code ≟ ErrorRelayNotRegistered then "relay is not registered"
  else if code ≟ ErrorRelaySuspended then "relay is suspended"
  else if code ≟ ErrorRateLimited then "request rate limit exceeded"
  else "internal server error".

(** The JSON document of a response; a response to HEAD has none.  The headers
    [writeJSON] always sets are left out. *)
Inductive document :=
| OperationResponse (version : Z) (operation outcome relayActor : string)
| ErrorResponse (version : Z) (code message : string).
Record response := Response { status : Z; allow : option string; retry_after : option Z; response_body : option document }.
Definition writeJSON (method : string) (status : Z) (value : document) : response :=
  Response status None None (if method ≟ "HEAD" then None else Some value).
Definition writeProtocolErrorVersion (method : string) (status version : Z) (code : string) : response :=
  writeJSON method status (ErrorResponse version code (protocolErrorMessage code)).
Definition method_not_allowed (method : string) (version : Z) : response :=
  Response 405 (Some "POST") None (response_body (writeProtocolErrorVersion method 405 version ErrorInvalidRequest)).

Definition retryAfterSeconds (duration : Z) : Z :=
  if duration <=? 0 then 0
  else
    let seconds := Z.quot duration second in
    let seconds := if negb (Z.rem duration second =? 0) then seconds + 1 else seconds in
    if seconds <? 1 then 1 else seconds.
Definition writeAdmissionErrorVersion (method : string) (result : Result) (version : Z) : response :=
  match result_Decision result with
  | DecisionSourceRateLimited | DecisionActorRateLimited | DecisionConcurrencyLimited | DecisionCapacityLimited =>
      let seconds := retryAfterSeconds (result_RetryAfter result) in
      Response 429 None (if 0 <? seconds then Some seconds else None)
        (response_body (writeProtocolErrorVersion method 429 version ErrorRateLimited))
  | _ => writeProtocolErrorVersion method 500 version ErrorInternal
  end.

(** [errors.Is(err, target)] for a sentinel of [internal/storage]: [storageFailure]
    wraps its cause. *)
Fixpoint is_storage_error (matches : error → bool) (e : error) : bool :=
  matches e || match e with ErrStorageFailure _ cause => is_storage_error matches cause | _ => false end.
Definition relay_suspended (e : error) : bool := match e with ErrRelaySuspended => true | _ => false end.
Definition enrollment_closed (e : error) : bool := match e with ErrEnrollmentClosed => true | _ => false end.
Definition relay_absent (e : error) : bool := match e with ErrRelayAbsent => true | _ => false end.
Definition admission_hard (e : error) : bool := match e with ErrWriteAdmissionHard => true | _ => false end.
Definition profile_or_telemetry_input (e : error) : bool := match e with ErrProfileInput | ErrTelemetryInput => true | _ => false end.

(** The status and code of an error; version 1 has no case for profile and
    telemetry input. *)
Definition classify_error (version : Z) (e : lifecycle_error) : Z * string :=
  match e with
  | ErrContract v _ BadProtocolVersion => if v =? version then (400, ErrorUnsupportedProtocolVersion) else (500, ErrorInternal)
  | ErrContract v _ BadConfiguration => (500, ErrorInternal)
  | ErrContract v _ _ => if v =? version then (400, ErrorInvalidRequest) else (500, ErrorInternal)
  | ErrAuthentication ErrRFC9421Replay => (409, ErrorReplayDetected)
  | ErrAuthentication (ErrRFC9421Configuration | ErrRFC9421ReplayStore) => (500, ErrorInternal)
  | ErrAuthentication _ => (401, ErrorAuthenticationFailed)
  | ErrStorage e =>
      if is_storage_error relay_suspended e then (403, ErrorRelaySuspended)
      else if is_storage_error enrollment_closed e then (403, ErrorEnrollmentClosed)
      else if is_storage_error relay_absent e then (409, ErrorRelayNotRegistered)
      else if is_storage_error admission_hard e then (503, ErrorLifecycleUnavailable)
      else if negb (version =? 1) && is_storage_error profile_or_telemetry_input e then (400, ErrorInvalidRequest)
      else (500, ErrorInternal)
  | ErrLifecycleConfiguration => (500, ErrorInternal)
  end.
Definition write_classified (method : string) (version : Z) (e : lifecycle_error) : response :=
  let '(status, code) := classify_error version e in writeProtocolErrorVersion method status version code.
Definition writeLifecycleError (method : string) (e : lifecycle_error) : response := write_classified method 1 e.
Definition writeLifecycleV2Error (method : string) (e : lifecycle_error) : response := write_classified method 2 e.
Definition writeLifecycleV3Error (method : string) (e : lifecycle_error) : response := write_classified method 3 e.

Inductive body_error := BodyTooLargeError | BodyInvalid.
(** [io.ReadAll(io.LimitReader(request.Body, maximum+1))]; a failing read is seen
    only when the data before it does not fill the limit. *)
Definition readBoundedBody (request : lifecycle_request) (maximum : Z) : result body_error bytes :=
  match Body request with
  | None => Err (if maximum <? ContentLength request then BodyTooLargeError else BodyInvalid)
  | Some reader =>
      if maximum <=? 0 then Err (if maximum <? ContentLength request then BodyTooLargeError else BodyInvalid)
      else if maximum <? ContentLength request then Err BodyTooLargeError
      else if maximum <? blen (content reader) then Err BodyTooLargeError
      else if read_fails reader then Err BodyInvalid
      else Ok (content reader)
  end.

(** ** The shared state and the handler *)

Record lifecycle_world := LifecycleWorld { limiter : Limiter; repository : profile_state; telemetry_rows : gmap string telemetry_row }.
Definition with_limiter (l : Limiter) (w : lifecycle_world) : lifecycle_world := LifecycleWorld l (repository w) (telemetry_rows w).
Definition with_repository (s : profile_state) (w : lifecycle_world) : lifecycle_world := LifecycleWorld (limiter w) s (telemetry_rows w).
Definition with_telemetry (t : gmap string telemetry_row) (w : lifecycle_world) : lifecycle_world := LifecycleWorld (limiter w) (repository w) t.
Definition directory (w : lifecycle_world) : db := profile_db (repository w).
Definition with_directory (d : db) (w : lifecycle_world) : lifecycle_world :=
  with_repository (ProfileState d (profile_values (repository w)) (profile_events (repository w))) w.

(** What one step finds around it: the context and clock the limiter reads, the
    answers around its repository call, the verifier's clocks and key resolver,
    and the clock of the replay store. *)
Record environment := Environment {
  env_context : context; env_clock : Z; env_call : call; env_verification : verification_call; env_canceled : bool; env_store_clock : Z }.

(** [v1.RFC9421ReplayStore]; the SQLite store keeps its table in the directory. *)
Abbreviation replay_store := (environment → string → Z → lifecycle_world → result error bool * lifecycle_world).
Definition sqlite_replay_store (cleanupBatch : Z) : replay_store := λ env key expiresAt w,
  let '(r, s) := ReserveRFC9421Replay (env_call env) (env_canceled env) cleanupBatch (env_store_clock env) key expiresAt
                   (replay_reservations (directory w)) in
  (r, with_directory (set_replay s (directory w)) w).

(** [LifecycleVerifier], [LifecycleV2Verifier], [LifecycleV3Verifier] *)
Abbreviation verifier_method R :=
  (verification_call → (string → Z → lifecycle_world → result error bool * lifecycle_world) → lifecycle_request → bytes → Z →
   lifecycle_world → result lifecycle_error (verified R) * lifecycle_world).
Record LifecycleVerifier (Register_request Heartbeat_request : Type) := {
  verifier_register : verifier_method Register_request;
  verifier_heartbeat : verifier_method Heartbeat_request;
  verifier_unregister : verifier_method identity_request }.
Arguments verifier_register {_ _}.
Arguments verifier_heartbeat {_ _}.
Arguments verifier_unregister {_ _}.

Section Verifiers.
Context `{RelayIdentity} `{SignatureLibraries}.
(** [*v1.RFC9421Verifier] of an authority, and [*v2.RFC9421Verifier], [*v3.RFC9421Verifier] over it *)
Definition rfc9421_verifier (authority : string) : LifecycleVerifier register_request identity_request := {|
  verifier_register := λ call store, VerifyRegisterAndReserve store authority call;
  verifier_heartbeat := λ call store, VerifyHeartbeatAndReserve store authority call;
  verifier_unregister := λ call store, VerifyUnregisterAndReserve store authority call |}.
Definition rfc9421_verifier_v2 (c : contract) (authority : string) : LifecycleVerifier RegisterRequest_v2 HeartbeatRequest_v2 := {|
  verifier_register := λ call store, VerifyRegisterAndReserve_v2 store authority call c;
  verifier_heartbeat := λ call store, VerifyHeartbeatAndReserve_v2 store authority call c;
  verifier_unregister := λ call store, VerifyUnregisterAndReserve_v2 store authority call c |}.
End Verifiers.

(** A nil interface or pointer is [None] or [false]; the repositories are those of
    the SQLite repository. *)
Record LifecycleDependencies := Dependencies {
  dep_Verifier : option (LifecycleVerifier register_request identity_request);
  dep_V2Verifier : option (LifecycleVerifier RegisterRequest_v2 HeartbeatRequest_v2);
  dep_V3Verifier : option (LifecycleVerifier RegisterRequest_v2 HeartbeatRequest_v2);
  dep_ReplayStore : option replay_store; dep_Repository : bool; dep_ProfileRepository : bool; dep_TelemetryRepository : bool;
  dep_SourceResolver : option (list Prefix); dep_Limiter : bool; dep_MaximumBodyBytes : Z; dep_Now : bool }.
Record LifecycleHandler := HandlerOf {
  verifier : LifecycleVerifier register_request identity_request;
  v2Verifier : option (LifecycleVerifier RegisterRequest_v2 HeartbeatRequest_v2);
  v3Verifier : option (LifecycleVerifier RegisterRequest_v2 HeartbeatRequest_v2);
  replayStore : replay_store; profileRepository : bool; telemetryRepository : bool;
  sourceResolver : list Prefix; maximumBodyBytes : Z }.
Definition present {A} (x : option A) : bool := negb (is_null x).
Definition NewLifecycleHandler (d : LifecycleDependencies) : option LifecycleHandler :=
  if negb (dep_Repository d) || negb (dep_Limiter d) || negb (dep_Now d) || (dep_MaximumBodyBytes d <=? 0) ||
     (MaximumRegisterBodyBytes <? dep_MaximumBodyBytes d) ||
     negb (Bool.eqb (is_null (dep_V2Verifier d)) (negb (dep_ProfileRepository d))) ||
     (present (dep_V3Verifier d) && (negb (dep_ProfileRepository d) || negb (dep_TelemetryRepository d))) then None
  else
    verifier ← dep_Verifier d; replayStore ← dep_ReplayStore d; sourceResolver ← dep_SourceResolver d;
    Some (HandlerOf verifier (dep_V2Verifier d) (dep_V3Verifier d) replayStore (dep_ProfileRepository d) (dep_TelemetryRepository d)
            sourceResolver (dep_MaximumBodyBytes d)).

Definition supportsV2 (h : LifecycleHandler) : bool := present (v2Verifier h) && profileRepository h.
Definition supportsV3 (h : LifecycleHandler) : bool := present (v3Verifier h) && profileRepository h && telemetryRepository h.

Inductive protocol := V1 | V2 | V3.
#[export] Instance protocol_eq_dec : EqDecision protocol.
Proof. solve_decision. Defined.
Definition version_number (p : protocol) : Z := match p with V1 => 1 | V2 => 2 | V3 => 3 end.
Definition supports (p : protocol) (h : LifecycleHandler) : bool :=
  match p with V1 => true | V2 => supportsV2 h | V3 => supportsV3 h end.
Definition write_error (p : protocol) (method : string) (e : lifecycle_error) : response :=
  match p with V1 => writeLifecycleError method e | V2 => writeLifecycleV2Error method e | V3 => writeLifecycleV3Error method e end.

(** ** Verification and persistence *)

(** What [verify], [verifyV2] and [verifyV3] return. *)
Record intent := Intent { intent_actor : string; intent_base : string; intent_profile : profile; intent_telemetry : option telemetry }.
Definition intent_of {R} (f : R → intent) (r : result lifecycle_error (verified R)) : result lifecycle_error intent :=
  match r with
  | Err e => Err e
  | Ok (Some (request, Some _)) => Ok (f request)
  | Ok _ => Err ErrLifecycleConfiguration
  end.
Definition identity_intent (r : identity_request) : intent := Intent (id_actor r) "" empty_profile None.
Definition registered_intent (r : register_request) : intent := Intent (reg_actor r) (reg_base r) empty_profile None.
Definition profile_intent (r : RegisterRequest_v2) : intent := Intent (rr_actor r) (rr_base r) (rr_profile r) (rr_telemetry r).
Definition heartbeat_intent (r : HeartbeatRequest_v2) : intent := Intent (hr_actor r) "" empty_profile (hr_telemetry r).

Definition verify_with {R B} (v : LifecycleVerifier R B) (register : R → intent) (beat : B → intent) (h : LifecycleHandler)
    (env : environment) (operation : string) (request : lifecycle_request) (body : bytes) (w : lifecycle_world)
    : result lifecycle_error intent * lifecycle_world :=
  let call := env_verification env in
  let store := replayStore h env in
  if operation ≟ OperationRegister then
    let '(r, w) := verifier_register v call store request body (maximumBodyBytes h) w in (intent_of register r, w)
  else if operation ≟ OperationHeartbeat then
    let '(r, w) := verifier_heartbeat v call store request body (maximumBodyBytes h) w in (intent_of beat r, w)
  else if operation ≟ OperationUnregister then
    let '(r, w) := verifier_unregister v call store request body (maximumBodyBytes h) w in (intent_of identity_intent r, w)
  else (Err ErrLifecycleConfiguration, w).
Definition verify (h : LifecycleHandler) := verify_with (verifier h) registered_intent identity_intent h.
Definition verifyV2 (h : LifecycleHandler) (env : environment) (operation : string) (request : lifecycle_request) (body : bytes) (w : lifecycle_world) :=
  match v2Verifier h with
  | Some v => verify_with v profile_intent heartbeat_intent h env operation request body w
  | None => (Err ErrLifecycleConfiguration, w)
  end.
Definition verifyV3 (h : LifecycleHandler) (env : environment) (operation : string) (request : lifecycle_request) (body : bytes) (w : lifecycle_world) :=
  match v3Verifier h with
  | Some v => verify_with v profile_intent heartbeat_intent h env operation request body w
  | None => (Err ErrLifecycleConfiguration, w)
  end.
Definition verify_protocol (p : protocol) :=
  match p with V1 => verify | V2 => verifyV2 | V3 => verifyV3 end.

(** An error of the repository as an error of the handler. *)
Definition stored {A} (r : result error A) : result lifecycle_error A := match r with Ok a => Ok a | Err e => Err (ErrStorage e) end.

(** ** Requests in progress *)

Inductive phase :=
| Arrived
| Holding (permit : nat)
| Verified (permit : nat) (i : intent)
| Charged (permit : nat) (i : intent)
| Persisted (permit : nat) (i : intent) (acceptedAt : Z) (outcome : string)
| Profiled (permit : nat) (i : intent) (acceptedAt : Z) (outcome : string)
| Releasing (permit : nat) (r : response)
| Answered (r : response).

(** A request of a route, which fixes the version and the operation. *)
Record routed := Routed { route_protocol : protocol; route_operation : string; route_request : lifecycle_request }.
Abbreviation in_progress := (list (routed * phase)).

Section Serving.
Context `{RelayIdentity}.

Definition persist (c : call) (operation actor publicBaseURL : string) (acceptedAt : Z) (w : lifecycle_world)
    : result lifecycle_error string * lifecycle_world :=
  let on_directory r := (stored r.1, with_directory r.2 w) in
  if operation ≟ OperationRegister then
    on_directory (Register c {| register_actor := actor; register_base := publicBaseURL |} acceptedAt (directory w))
  else if operation ≟ OperationHeartbeat then on_directory (Heartbeat c actor acceptedAt (directory w))
  else if operation ≟ OperationUnregister then on_directory (Unregister c actor acceptedAt (directory w))
  else (Err ErrLifecycleConfiguration, w).
(** The relay's self-report of a version 2 or 3 register. *)
Definition persist_profile (c : call) (actor : string) (p : profile) (acceptedAt : Z) (w : lifecycle_world)
    : result lifecycle_error unit * lifecycle_world :=
  let '(r, s) := ReplaceProfileSource c
    {| profile_actor := actor; profile_source := {| Kind := ProfileSourceRelay; SourceLabel := ""; SourceURL := "" |}; asserted := p |}
    acceptedAt (repository w) in
  (match r with Ok _ => Ok tt | Err e => Err (ErrStorage e) end, with_repository s w).
(** The telemetry of the request, under the verified actor. *)
Definition persist_telemetry (h : LifecycleHandler) (c : call) (actor : string) (t : telemetry) (acceptedAt : Z) (w : lifecycle_world)
    : result lifecycle_error unit * lifecycle_world :=
  if negb (telemetryRepository h) then (Err ErrLifecycleConfiguration, w)
  else
    let '(r, rows) :=
      match t with
      | Receiving i => ReplaceRelayTelemetry c {| telemetry_actor := actor; ReceivingInstanceCount := ReceivingInstanceCount i |}
                         acceptedAt (directory w) (telemetry_rows w)
      | Participating i => ReplaceRelayParticipatingTelemetry c
                             {| participating_actor := actor; ParticipatingInstanceCount := ParticipatingInstanceCount i |}
                             acceptedAt (directory w) (telemetry_rows w)
      end in
    (stored r, with_telemetry rows w).

(** ** One request *)

Definition route_method (q : routed) : string := request_method (http (route_request q)).
Definition protocol_error (q : routed) (status : Z) (code : string) : response :=
  writeProtocolErrorVersion (route_method q) status (version_number (route_protocol q)) code.
Definition admission_error (q : routed) (r : Result) : response :=
  writeAdmissionErrorVersion (route_method q) r (version_number (route_protocol q)).
Definition lifecycle_failure (q : routed) (e : lifecycle_error) : response := write_error (route_protocol q) (route_method q) e.
(** The end of the handler once everything is stored. *)
Definition outcome_response (q : routed) (i : intent) (outcome : string) : response :=
  if negb (Outcome_ValidFor outcome (route_operation q)) then protocol_error q 500 ErrorInternal
  else writeJSON (route_method q) (if outcome ≟ OutcomeCreated then 201 else 200)
         (OperationResponse (version_number (route_protocol q)) (route_operation q) outcome (intent_actor i)).

(** Method, handler, source and source admission. *)
Definition begin_request (handler : option LifecycleHandler) (q : routed) (env : environment) (w : lifecycle_world) : phase * lifecycle_world :=
  if negb (route_method q ≟ "POST") then (Answered (method_not_allowed (route_method q) (version_number (route_protocol q))), w)
  else
    match handler with
    | Some h =>
        if negb (supports (route_protocol q) h) then (Answered (protocol_error q 503 ErrorLifecycleUnavailable), w)
        else
          match Source_of (sourceResolver h) (RemoteAddr (route_request q)) (header_values (http (route_request q)) "X-Real-IP") with
          | None => (Answered (protocol_error q 400 ErrorInvalidRequest), w)
          | Some source =>
              let '(permit, r, l) := AdmitSource (env_context env) (env_clock env) (route_operation q) (Some source) (limiter w) in
              match permit with
              | Some permit => (Holding permit, with_limiter l w)
              | None => (Answered (admission_error q r), with_limiter l w)
              end
          end
    | None => (Answered (protocol_error q 503 ErrorLifecycleUnavailable), w)
    end.
Definition verify_request (h : LifecycleHandler) (q : routed) (env : environment) (permit : nat) (w : lifecycle_world) : phase * lifecycle_world :=
  match readBoundedBody (route_request q) (maximumBodyBytes h) with
  | Err e => (Releasing permit (protocol_error q (match e with BodyTooLargeError => 413 | BodyInvalid => 400 end) ErrorInvalidRequest), w)
  | Ok body =>
      match verify_protocol (route_protocol q) h env (route_operation q) (route_request q) body w with
      | (Err e, w) => (Releasing permit (lifecycle_failure q e), w)
      | (Ok i, w) => (Verified permit i, w)
      end
  end.
Definition admit_actor (q : routed) (env : environment) (permit : nat) (i : intent) (w : lifecycle_world) : phase * lifecycle_world :=
  let '(r, l) := AdmitActor permit (env_context env) (env_clock env) (route_operation q) (intent_actor i) (limiter w) in
  (if Allowed r then Charged permit i else Releasing permit (admission_error q r), with_limiter l w).
Definition store_lifecycle (q : routed) (env : environment) (permit : nat) (i : intent) (w : lifecycle_world) : phase * lifecycle_world :=
  let acceptedAt := env_clock env in
  match persist (env_call env) (route_operation q) (intent_actor i) (intent_base i) acceptedAt w with
  | (Err e, w) => (Releasing permit (lifecycle_failure q e), w)
  | (Ok outcome, w) => (Persisted permit i acceptedAt outcome, w)
  end.
Definition store_profile (q : routed) (env : environment) (permit : nat) (i : intent) (acceptedAt : Z) (outcome : string)
    (w : lifecycle_world) : phase * lifecycle_world :=
  if negb (bool_decide (route_protocol q = V1)) && (route_operation q ≟ OperationRegister) then
    match persist_profile (env_call env) (intent_actor i) (intent_profile i) acceptedAt w with
    | (Err e, w) => (Releasing permit (lifecycle_failure q e), w)
    | (Ok _, w) => (Profiled permit i acceptedAt outcome, w)
    end
  else (Profiled permit i acceptedAt outcome, w).
Definition store_telemetry (h : LifecycleHandler) (q : routed) (env : environment) (permit : nat) (i : intent) (acceptedAt : Z)
    (outcome : string) (w : lifecycle_world) : phase * lifecycle_world :=
  match intent_telemetry i with
  | Some t =>
      match persist_telemetry h (env_call env) (intent_actor i) t acceptedAt w with
      | (Err e, w) => (Releasing permit (lifecycle_failure q e), w)
      | (Ok _, w) => (Releasing permit (outcome_response q i outcome), w)
      end
  | None => (Releasing permit (outcome_response q i outcome), w)
  end.
(** A step of a request past source admission, whose handler exists, and the
    deferred [permit.Release()]. *)
Definition continue_request (h : LifecycleHandler) (q : routed) (env : environment) (ph : phase) (w : lifecycle_world) : phase * lifecycle_world :=
  match ph with
  | Arrived => begin_request (Some h) q env w
  | Holding permit => verify_request h q env permit w
  | Verified permit i => admit_actor q env permit i w
  | Charged permit i => store_lifecycle q env permit i w
  | Persisted permit i acceptedAt outcome => store_profile q env permit i acceptedAt outcome w
  | Profiled permit i acceptedAt outcome => store_telemetry h q env permit i acceptedAt outcome w
  | Releasing permit r => (Answered r, with_limiter (Release permit (limiter w)) w)
  | Answered r => (Answered r, w)
  end.
Definition serve_step (handler : option LifecycleHandler) (q : routed) (env : environment) (ph : phase) (w : lifecycle_world) : phase * lifecycle_world :=
  match handler with
  | Some h => continue_request h q env ph w
  | None => match ph with Arrived => begin_request None q env w | _ => (ph, w) end
  end.

(** One request alone, a step per environment. *)
Fixpoint run_handler (handler : option LifecycleHandler) (q : routed) (envs : list environment) (ph : phase) (w : lifecycle_world) : phase * lifecycle_world :=
  match envs with
  | [] => (ph, w)
  | env :: envs => let '(ph, w) := serve_step handler q env ph w in run_handler handler q envs ph w
  end.
Definition serveV1 (handler : option LifecycleHandler) (operation : string) (request : lifecycle_request) (envs : list environment) (w : lifecycle_world) :=
  run_handler handler (Routed V1 operation request) envs Arrived w.
Definition serveV2 (handler : option LifecycleHandler) (operation : string) (request : lifecycle_request) (envs : list environment) (w : lifecycle_world) :=
  run_handler handler (Routed V2 operation request) envs Arrived w.
Definition serveV3 (handler : option LifecycleHandler) (operation : string) (request : lifecycle_request) (envs : list environment) (w : lifecycle_world) :=
  run_handler handler (Routed V3 operation request) envs Arrived w.

(** ** Concurrent requests *)

(** A request arrives, one of those in progress takes its next step, or another
    part of the program writes the database. *)
Inductive handler_event := Arrives (q : routed) | Steps (i : nat) (env : environment) | Elsewhere (s : profile_state) (t : gmap string telemetry_row).
Definition handlers_step (handler : option LifecycleHandler) (ev : handler_event) (s : in_progress * lifecycle_world) : in_progress * lifecycle_world :=
  let '(rs, w) := s in
  match ev with
  | Arrives q => (rs ++ [(q, Arrived)], w)
  | Steps i env =>
      match rs !! i with
      | Some (q, ph) => let '(ph, w) := serve_step handler q env ph w in (<[i := (q, ph)]> rs, w)
      | None => (rs, w)
      end
  | Elsewhere r t => (rs, LifecycleWorld (limiter w) r t)
  end.
Fixpoint handlers_run (handler : option LifecycleHandler) (evs : list handler_event) (s : in_progress * lifecycle_world) : in_progress * lifecycle_world :=
  match evs with [] => s | ev :: evs => handlers_run handler evs (handlers_step handler ev s) end.
End Serving.
