(* ===== verification/HandlerFacts.v ===== *)
(** * HandlerFacts: the permits of concurrent lifecycle requests

    What one step of a request does to the limiter, and the invariant that ties
    the permits in use to the requests in progress under any interleaving. *)
From S2P Require Import Prelude GoNet Identity AddrText Text Json Vocabulary Store Session Repository Lifecycle Telemetry Profile Replay Signature Requests Admission Handler Discovery Reachability Pruning Invariant Contract Refinement System Guarantees.
Local Open Scope string_scope.
Local Open Scope Z_scope.
Local Open Scope go_scope.
Local Open Scope list_scope.

(** ** The limiter, one call at a time *)

Section Limiter.
Context `{RelayIdentity}.

Lemma AdmitSource_effect ctx clock operation source l permit r l' : AdmitSource ctx clock operation source l = (permit, r, l') →
  config l' = config l ∧
  match permit with
  | Some k => k = length (permits l) ∧ permits l' = permits l ++ [PermitOf operation true false] ∧ inFlight l' = inFlight l + 1 ∧
              inFlight l < MaxConcurrent (config l) ∧ Allowed r = true
  | None => permits l' = permits l ∧ inFlight l' = inFlight l
  end.
Proof.
  unfold AdmitSource. intros Ha. destruct ctx as [[canceled locked]|]; [|by injection Ha as <- <- <-].
  destruct (negb _); [by injection Ha as <- <- <-|]. destruct canceled; [by injection Ha as <- <- <-|].
  destruct source as [a|]; [|by injection Ha as <- <- <-]. destruct (negb _); [by injection Ha as <- <- <-|].
  destruct locked; [by injection Ha as <- <- <-|]. destruct (Z.leb_spec (MaxConcurrent (config l)) (inFlight l)); [by injection Ha as <- <- <-|].
  destruct (pool_admit _ _ _ _ _ _ _ _) as [result pool]. destruct (Allowed result) eqn:Hr; simpl in Ha; injection Ha as <- <- <-; done.
Qed.
Lemma AdmitActor_effect k ctx clock operation actor l r l' : AdmitActor k ctx clock operation actor l = (r, l') →
  config l' = config l ∧ inFlight l' = inFlight l ∧
  ((permits l' = permits l ∧ Allowed r = false) ∨
   ∃ p, permits l !! k = Some p ∧ active p = true ∧ permit_operation p = operation ∧ actorChecked p = false ∧ permits l' = <[k := PermitOf operation true true]> (permits l)).
Proof.
  unfold AdmitActor. intros Ha. destruct (permits l !! k) as [p|] eqn:Hp; [|injection Ha as <- <-; auto].
  destruct ctx as [[canceled locked]|]; [|injection Ha as <- <-; auto].
  destruct (negb (Operation_Valid operation)); [injection Ha as <- <-; auto|]. destruct canceled; [injection Ha as <- <-; auto|].
  destruct (canonical_actor actor) eqn:Hc; simpl in Ha; [|injection Ha as <- <-; auto].
  destruct (active p) eqn:Hact; simpl in Ha; [|injection Ha as <- <-; auto].
  destruct (String.eqb_spec (permit_operation p) operation) as [Hop|]; simpl in Ha; [|injection Ha as <- <-; auto].
  destruct (actorChecked p) eqn:Hck; simpl in Ha; [injection Ha as <- <-; auto|]. destruct locked; [injection Ha as <- <-; auto|].
  destruct (pool_admit _ _ _ _ _ _ _ _) as [result pool]. injection Ha as <- <-. split; [done|]. split; [done|]. right. exists p.
  by rewrite <- Hop.
Qed.
Lemma Release_effect k l p : permits l !! k = Some p → active p = true →
  config (Release k l) = config l ∧ permits (Release k l) = <[k := PermitOf (permit_operation p) false (actorChecked p)]> (permits l) ∧
  inFlight (Release k l) = (if 0 <? inFlight l then inFlight l - 1 else inFlight l).
Proof. intros Hp Ha. unfold Release. by rewrite Hp, Ha. Qed.
End Limiter.

(** ** Permits under any interleaving *)

Section Permits.
Context `{RelayIdentity}.

Definition held_permit (ph : phase) : option nat :=
  match ph with
  | Arrived | Answered _ => None
  | Holding k | Verified k _ | Charged k _ | Persisted k _ _ _ | Profiled k _ _ _ | Releasing k _ => Some k
  end.
(** Whether the actor bucket has been asked with the permit. *)
Definition actor_admitted (ph : phase) : bool :=
  match ph with Charged _ _ | Persisted _ _ _ _ | Profiled _ _ _ _ => true | _ => false end.
Definition actor_pending (ph : phase) : bool := match ph with Holding _ | Verified _ _ => true | _ => false end.
Definition holders (rs : in_progress) : list nat := omap (λ qp, held_permit qp.2) rs.

Record permits_ok (s : in_progress * lifecycle_world) : Prop := {
  permits_flight : inFlight (limiter s.2) = Z.of_nat (length (holders s.1));
  permits_limit : inFlight (limiter s.2) ≤ MaxConcurrent (config (limiter s.2));
  permits_distinct : ∀ i j q q' ph ph' k, s.1 !! i = Some (q, ph) → s.1 !! j = Some (q', ph') →
    held_permit ph = Some k → held_permit ph' = Some k → i = j;
  permits_active : ∀ i q ph k, s.1 !! i = Some (q, ph) → held_permit ph = Some k →
    ∃ checked, permits (limiter s.2) !! k = Some (PermitOf (route_operation q) true checked) ∧
               (actor_admitted ph = true → checked = true) ∧ (actor_pending ph = true → checked = false) }.

(** What one step of a request does to the limiter. *)
Inductive limiter_step (q : routed) : phase → Limiter → phase → Limiter → Prop :=
| step_quiet ph ph' l l' : held_permit ph' = held_permit ph → (actor_admitted ph' = true → actor_admitted ph = true) →
    (actor_pending ph' = true → actor_pending ph = true) →
    config l' = config l → permits l' = permits l → inFlight l' = inFlight l → limiter_step q ph l ph' l'
| step_grant ph k l l' : held_permit ph = None → k = length (permits l) → config l' = config l →
    permits l' = permits l ++ [PermitOf (route_operation q) true false] → inFlight l' = inFlight l + 1 →
    inFlight l < MaxConcurrent (config l) → limiter_step q ph l (Holding k) l'
| step_actor k i ph' l l' : held_permit ph' = Some k → actor_pending ph' = false → config l' = config l → inFlight l' = inFlight l →
    permits l' = <[k := PermitOf (route_operation q) true true]> (permits l) → limiter_step q (Verified k i) l ph' l'
| step_release k r l : limiter_step q (Releasing k r) l (Answered r) (Release k l).

(** A verification writes reservations and nothing else. *)
Class ReservingVerifier (h : LifecycleHandler) : Prop := {
  verify_reserves p env operation request body w r w' : verify_protocol p h env operation request body w = (r, w') →
    ∃ reservations, w' = with_directory (set_replay reservations (directory w)) w }.

Lemma persist_limiter c operation actor base t w r w' : persist c operation actor base t w = (r, w') → limiter w' = limiter w.
Proof. unfold persist. repeat case_match; by intros [= _ <-]. Qed.
Lemma persist_profile_limiter c actor p t w r w' : persist_profile c actor p t w = (r, w') → limiter w' = limiter w.
Proof. unfold persist_profile. destruct (ReplaceProfileSource _ _ _ _). by intros [= _ <-]. Qed.
Lemma persist_telemetry_limiter h c actor t at_ w r w' : persist_telemetry h c actor t at_ w = (r, w') → limiter w' = limiter w.
Proof. unfold persist_telemetry. destruct (negb _); [by intros [= _ <-]|]. repeat case_match; by intros [= _ <-]. Qed.

Lemma serve_step_limiter handler q env ph w ph' w' : (∀ h, handler = Some h → ReservingVerifier h) →
  serve_step handler q env ph w = (ph', w') → limiter_step q ph (limiter w) ph' (limiter w').
Proof.
  intros Hh. destruct handler as [h|]; cbn [serve_step].
  2:{ destruct ph; try (intros [= <- <-]; by constructor). unfold begin_request. destruct (negb _); intros [= <- <-]; by constructor. }
  specialize (Hh h eq_refl). destruct ph; cbn [continue_request].
  - unfold begin_request. destruct (negb (route_method q ≟ "POST")); [intros [= <- <-]; by constructor|].
    destruct (negb (supports _ _)); [intros [= <- <-]; by constructor|]. destruct (Source_of _ _ _) as [a|]; [|intros [= <- <-]; by constructor].
    destruct (AdmitSource _ _ _ _ _) as [[permit r] l] eqn:E. apply AdmitSource_effect in E as [Hc E]. destruct permit as [k|]; intros [= <- <-]; cbn.
    + destruct E as (?&?&?&?&_). by apply step_grant.
    + destruct E. by constructor.
  - unfold verify_request. destruct (readBoundedBody _ _) as [body|e]; [|intros [= <- <-]; by constructor].
    destruct (verify_protocol _ _ _ _ _ _ _) as [r w1] eqn:E. apply verify_reserves in E as [rs ->]. destruct r; intros [= <- <-]; by constructor.
  - unfold admit_actor. destruct (AdmitActor _ _ _ _ _ _) as [r l] eqn:E. apply AdmitActor_effect in E as (Hc & Hf & E). intros [= <- <-]. cbn.
    destruct E as [[Hp ->]|(p & Hp & Ha & Hop & Hck & Hp')]; [by apply step_quiet|].
    apply step_actor; try done; by destruct (Allowed r).
  - unfold store_lifecycle. destruct (persist _ _ _ _ _ _) as [r w1] eqn:E. apply persist_limiter in E.
    destruct r; intros [= <- <-]; rewrite E; by constructor.
  - unfold store_profile. destruct (_ && _); [|intros [= <- <-]; by constructor].
    destruct (persist_profile _ _ _ _ _) as [r w1] eqn:E. apply persist_profile_limiter in E. destruct r; intros [= <- <-]; rewrite E; by constructor.
  - unfold store_telemetry. destruct (intent_telemetry i); [|intros [= <- <-]; by constructor].
    destruct (persist_telemetry _ _ _ _ _ _) as [r w1] eqn:E. apply persist_telemetry_limiter in E. destruct r; intros [= <- <-]; rewrite E; by constructor.
  - intros [= <- <-]. apply step_release.
  - intros [= <- <-]. by constructor.
Qed.

(** The holders before, around and after one request. *)
Lemma holders_split rs i q ph ph' : rs !! i = Some (q, ph) →
  holders (<[i := (q, ph')]> rs) = holders (take i rs) ++ option_list (held_permit ph') ++ holders (drop (S i) rs) ∧
  holders rs = holders (take i rs) ++ option_list (held_permit ph) ++ holders (drop (S i) rs).
Proof.
  intros Hi. split.
  - rewrite insert_take_drop by (by eapply lookup_lt_Some). unfold holders. rewrite omap_app. cbn. by destruct (held_permit ph').
  - rewrite <- (take_drop_middle rs i (q, ph)) at 1 by done. unfold holders. rewrite omap_app. cbn. by destruct (held_permit ph).
Qed.
Lemma holders_length rs i q ph ph' : rs !! i = Some (q, ph) →
  (length (holders (<[i := (q, ph')]> rs)) + length (option_list (held_permit ph)) = length (holders rs) + length (option_list (held_permit ph')))%nat.
Proof. intros Hi. destruct (holders_split rs i q ph ph' Hi) as [-> ->]. rewrite !length_app. lia. Qed.
(** A request of the list after one of them has moved on. *)
Lemma updated_request (rs : in_progress) i q ph' j q' ph1 : <[i := (q, ph')]> rs !! j = Some (q', ph1) →
  (j = i ∧ q' = q ∧ ph1 = ph') ∨ (j ≠ i ∧ rs !! j = Some (q', ph1)).
Proof.
  intros Hj. destruct (decide (j = i)) as [->|Hne]; [left|right; by rewrite list_lookup_insert_ne in Hj].
  assert (i < length rs)%nat by (apply lookup_lt_Some in Hj; by rewrite length_insert in Hj).
  rewrite list_lookup_insert_eq in Hj by done. by injection Hj as <- <-.
Qed.

Lemma permits_step rs w i q ph ph' w' : permits_ok (rs, w) → rs !! i = Some (q, ph) →
  limiter_step q ph (limiter w) ph' (limiter w') → permits_ok (<[i := (q, ph')]> rs, w').
Proof.
  intros [Hf Hl Hd Ha] Hi Hs. cbn [fst snd] in *. pose proof (holders_length rs i q ph ph' Hi) as Hlen.
  remember (limiter w) as l eqn:El. remember (limiter w') as l' eqn:El'. destruct Hs as [ph ph' l l' H0 H1 H2 H3 H4 H5|ph k l l' H0 -> H2 H3 H4 H5|k i0 ph' l l' H0 H1 H2 H3 H4|k r l].
  - assert (Hheld : ∀ j q' ph1 k, <[i := (q, ph')]> rs !! j = Some (q', ph1) → held_permit ph1 = Some k →
              ∃ ph0, rs !! j = Some (q', ph0) ∧ held_permit ph0 = Some k).
    { intros j q' ph1 k [(->&->&->)|[_ Hj]]%updated_request Hk; [exists ph; split; [done|congruence]|by exists ph1]. }
    rewrite H0 in Hlen. constructor; cbn [fst snd]; rewrite <- ?El'; [lia|congruence| |].
    + intros j j' q1 q2 p1 p2 k G1 G2 Hk1 Hk2. destruct (Hheld _ _ _ _ G1 Hk1) as (?&?&?), (Hheld _ _ _ _ G2 Hk2) as (?&?&?). by eapply Hd.
    + intros j q' ph1 k Hj Hk. rewrite H4. apply updated_request in Hj as [(->&->&->)|[_ Hj]]; [|by eapply Ha].
      destruct (Ha i q ph k) as (c&Hc&H6&H7); [done|congruence|]. exists c. split; [done|]. split; intros; [apply H6|apply H7]; auto.
  - rewrite H0 in Hlen. cbn in Hlen. constructor; cbn [fst snd]; rewrite <- ?El'; [lia|rewrite H2; lia| |].
    + intros j j' q1 q2 p1 p2 k [(->&->&->)|[Hn1 H6]]%updated_request [(->&->&->)|[Hn2 H7]]%updated_request Hk1 Hk2; [done|..|by eapply Hd].
      * destruct (Ha _ _ _ _ H7 Hk2) as (c&Hc&_). injection Hk1 as <-. apply lookup_lt_Some in Hc. lia.
      * destruct (Ha _ _ _ _ H6 Hk1) as (c&Hc&_). injection Hk2 as <-. apply lookup_lt_Some in Hc. lia.
    + intros j q' ph1 k [(->&->&->)|[_ Hj]]%updated_request Hk; rewrite H3.
      * injection Hk as <-. exists false. by rewrite lookup_app_r, Nat.sub_diag by done.
      * destruct (Ha _ _ _ _ Hj Hk) as (c&Hc&?). exists c. split; [|done]. by apply lookup_app_l_Some.
  - rewrite H0 in Hlen. cbn in Hlen. constructor; cbn [fst snd]; rewrite <- ?El'; [lia|rewrite H2, H3; lia| |].
    + intros j j' q1 q2 p1 p2 k' [(->&->&->)|[Hn1 H6]]%updated_request [(->&->&->)|[Hn2 H7]]%updated_request Hk1 Hk2; [done|..|by eapply Hd].
      * eapply (Hd i j' _ _ _ _ k'); [done|done|cbn; congruence|done].
      * eapply (Hd j i _ _ _ _ k'); [done|done|done|cbn; congruence].
    + intros j q' ph1 k' Hj Hk. rewrite H4. destruct (Ha i q (Verified k i0) k Hi eq_refl) as (c&Hc&_).
      apply updated_request in Hj as [(->&->&->)|[Hne Hj]].
      * replace k' with k by congruence. exists true. rewrite list_lookup_insert_eq by (by eapply lookup_lt_Some). split; [done|]. split; [done|congruence].
      * destruct (Ha _ _ _ _ Hj Hk) as (c'&Hc'&?). exists c'. split; [|done]. rewrite list_lookup_insert_ne; [done|].
        intros <-. apply Hne. by eapply (Hd j i).
  - cbn in Hlen. destruct (Ha i q (Releasing k r) k Hi eq_refl) as (c&Hc&_).
    destruct (Release_effect k l _ Hc eq_refl) as (Hcfg & Hper & Hfl).
    assert (Hpos : 0 < inFlight l) by lia. rewrite (proj2 (Z.ltb_lt _ _) Hpos) in Hfl.
    constructor; cbn [fst snd]; rewrite <- ?El'; [lia|rewrite Hcfg; lia| |].
    + intros j j' q1 q2 p1 p2 k' [(->&->&->)|[Hn1 H6]]%updated_request [(->&->&->)|[Hn2 H7]]%updated_request Hk1 Hk2; [done..|by eapply Hd].
    + intros j q' ph1 k' [(->&->&->)|[Hne Hj]]%updated_request Hk; [done|]. rewrite Hper. destruct (Ha _ _ _ _ Hj Hk) as (c'&Hc'&?).
      exists c'. split; [|done]. rewrite list_lookup_insert_ne; [done|]. intros <-. apply Hne. by eapply (Hd j i).
Qed.

Lemma handlers_permits handler evs : (∀ h, handler = Some h → ReservingVerifier h) → ∀ s, permits_ok s → permits_ok (handlers_run handler evs s).
Proof.
  intros Hh. induction evs as [|ev evs IH]; intros [rs w] Hs; [done|]. cbn [handlers_run]. apply IH. destruct ev as [q|i env|r t]; cbn [handlers_step].
  - destruct Hs as [Hf Hl Hd Ha]. cbn [fst snd] in *. constructor; cbn [fst snd]; [|done| |].
    + unfold holders in *. rewrite omap_app. cbn. by rewrite app_nil_r.
    + intros i j q1 q2 p1 p2 k H1 H2 Hk1 Hk2. apply lookup_app_Some in H1 as [H1|[_ H1]]; [|apply list_lookup_singleton_Some in H1 as [_ [= <- <-]]; done].
      apply lookup_app_Some in H2 as [H2|[_ H2]]; [|apply list_lookup_singleton_Some in H2 as [_ [= <- <-]]; done]. by eapply Hd.
    + intros i q1 p1 k H1 Hk. apply lookup_app_Some in H1 as [H1|[_ H1]]; [by eapply Ha|apply list_lookup_singleton_Some in H1 as [_ [= <- <-]]; done].
  - destruct (rs !! i) as [[q ph]|] eqn:Hi; [|done]. destruct (serve_step handler q env ph w) as [ph' w'] eqn:E.
    eapply permits_step; [done|done|]. by eapply serve_step_limiter.
  - destruct Hs as [Hf Hl Hd Ha]. by constructor.
Qed.
End Permits.

(** * HandlerFacts: what a lifecycle request must have passed before it writes The handler over the RFC 9421 verifiers and the SQLite replay store: every verification is the strict decoder, the exact target and the signature of the actor in the body; and the rows each phase of a request may write. *)

(** ** The handler over the RFC 9421 verifiers and the SQLite replay store *)

(** The operation of a route: register, heartbeat, unregister or another. *)
Ltac by_operation operation :=
  destruct (String.eqb_spec operation OperationRegister) as [->|]; [|destruct (String.eqb_spec operation OperationHeartbeat) as [->|];
    [|destruct (String.eqb_spec operation OperationUnregister) as [->|]]].

Section Signed.
Context `{RelayIdentity} `{SignatureLibraries}.

Record signed_handler (authority : string) (cleanupBatch : Z) (h : LifecycleHandler) : Prop := {
  signed_v1 : verifier h = rfc9421_verifier authority;
  signed_v2 : v2Verifier h = None ∨ v2Verifier h = Some (rfc9421_verifier_v2 contract_v2 authority);
  signed_v3 : v3Verifier h = None ∨ v3Verifier h = Some (rfc9421_verifier_v2 contract_v3 authority);
  signed_store : replayStore h = sqlite_replay_store cleanupBatch }.

(** The signature tag, the path and the decoder of a route. *)
Definition route_tag (p : protocol) : string :=
  match p with V1 => RFC9421SignatureTag | V2 => contract_tag contract_v2 | V3 => contract_tag contract_v3 end.
Definition route_path (p : protocol) (operation : string) : string :=
  match p with V1 => String.append "/v1/relays/" operation | V2 => endpoint contract_v2 operation | V3 => endpoint contract_v3 operation end.
Definition as_intent {R} (f : R → intent) (r : result lifecycle_error R) : result lifecycle_error intent :=
  match r with Ok r => Ok (f r) | Err e => Err e end.
Definition request_intent (p : protocol) (operation : string) (body : bytes) (maximum : Z) : result lifecycle_error intent :=
  let with_contract c :=
    if operation ≟ OperationRegister then as_intent profile_intent (DecodeRegisterRequest_v2 c body maximum)
    else if operation ≟ OperationHeartbeat then as_intent heartbeat_intent (DecodeHeartbeatRequest_v2 c body maximum)
    else if operation ≟ OperationUnregister then as_intent identity_intent (DecodeUnregisterRequest_v2 c body maximum)
    else Err ErrLifecycleConfiguration in
  match p with
  | V1 =>
      if operation ≟ OperationRegister then as_intent registered_intent (DecodeRegisterRequest body maximum)
      else if operation ≟ OperationHeartbeat then as_intent identity_intent (DecodeHeartbeatRequest body maximum)
      else if operation ≟ OperationUnregister then as_intent identity_intent (DecodeUnregisterRequest body maximum)
      else Err ErrLifecycleConfiguration
  | V2 => with_contract contract_v2
  | V3 => with_contract contract_v3
  end.

(** The signature of the request verifies, under the tag of the route, with a key
    of the actor its body names. *)
Definition signed_request (authority : string) (h : LifecycleHandler) (call : verification_call) (q : routed) (body : bytes) (i : intent) : Prop :=
  request_intent (route_protocol q) (route_operation q) body (maximumBodyBytes h) = Ok i ∧
  validOperationTarget (route_request q) (route_path (route_protocol q) (route_operation q)) = true ∧
  ∃ v, VerifyPOSTWithTag authority (verify_clock call) (resolve call) (http (route_request q)) body (route_tag (route_protocol q)) = Ok v ∧
       BindRelayActor v (intent_actor i) = true.
Definition authenticated (authority : string) (h : LifecycleHandler) (q : routed) (i : intent) : Prop :=
  ∃ call body, readBoundedBody (route_request q) (maximumBodyBytes h) = Ok body ∧ signed_request authority h call q body i.

Definition reserves (w w' : lifecycle_world) : Prop := ∃ reservations, w' = with_directory (set_replay reservations (directory w)) w.
Lemma reserves_none w : reserves w w.
Proof. exists (replay_reservations (directory w)). by destruct w as [l [[] ? ?] t]. Qed.
Lemma sqlite_store_reserves batch env key expires w r w' : sqlite_replay_store batch env key expires w = (r, w') → reserves w w'.
Proof.
  unfold sqlite_replay_store. destruct (ReserveRFC9421Replay _ _ _ _ _ _ _) as [x s]. intros [= _ <-]. by eexists.
Qed.

(** What a verification leaves: reservations, and an intent only of a signed request. *)
Definition verified_as (authority : string) (h : LifecycleHandler) (call : verification_call) (q : routed) (body : bytes)
    (w : lifecycle_world) (r : result lifecycle_error intent) (w' : lifecycle_world) : Prop :=
  reserves w w' ∧ ∀ i, r = Ok i → signed_request authority h call q body i.

Lemma decoded_verified {R} (f : R → intent) (actor : R → string) store authority h call version q body decoded w r w' :
  (∀ key expires w r w', store key expires w = (r, w') → reserves w w') → (∀ x, intent_actor (f x) = actor x) →
  as_intent f decoded = request_intent (route_protocol q) (route_operation q) body (maximumBodyBytes h) →
  verify_decoded store authority call version (route_operation q) (route_tag (route_protocol q)) (route_path (route_protocol q) (route_operation q))
    actor (route_request q) body decoded w = (r, w') →
  verified_as authority h call q body w (intent_of f r) w'.
Proof.
  intros Hstore Hact Hreq. unfold verify_decoded, verified_as. destruct decoded as [x|e]; [|intros [= <- <-]; split; [apply reserves_none|done]].
  destruct (validOperationTarget _ _) eqn:Ht; simpl; [|intros [= <- <-]; split; [apply reserves_none|done]].
  unfold VerifyPOSTAndReserveWithTag. destruct (VerifyPOSTWithTag _ _ _ _ _ _) as [v|e] eqn:Hv; [|intros [= <- <-]; split; [apply reserves_none|done]].
  destruct (BindRelayActor v (actor x)) eqn:Hb; simpl; [|intros [= <- <-]; split; [apply reserves_none|done]].
  destruct (store _ _ w) as [[[]|e] w1] eqn:E; apply Hstore in E; intros [= <- <-]; (split; [done|]); intros i; [|done..].
  intros [= <-]. split; [by rewrite <- Hreq|]. split; [done|]. exists v. split; [done|]. by rewrite Hact.
Qed.

(** Every verification of the handler is [verify_decoded] of the decoded body of
    its route, or there is no verifier or no such operation. *)
Definition verifies (authority : string) (h : LifecycleHandler) (env : environment) (q : routed) (body : bytes) : Prop :=
  ∃ R (f : R → intent) (actor : R → string) version decoded,
    (∀ x, intent_actor (f x) = actor x) ∧
    as_intent f decoded = request_intent (route_protocol q) (route_operation q) body (maximumBodyBytes h) ∧
    ∀ w, verify_protocol (route_protocol q) h env (route_operation q) (route_request q) body w =
      (let '(r, w') := verify_decoded (replayStore h env) authority (env_verification env) version (route_operation q)
                         (route_tag (route_protocol q)) (route_path (route_protocol q) (route_operation q)) actor (route_request q) body decoded w in
       (intent_of f r, w')).
Definition unverifiable (h : LifecycleHandler) (env : environment) (q : routed) (body : bytes) : Prop :=
  (∀ w, verify_protocol (route_protocol q) h env (route_operation q) (route_request q) body w = (Err ErrLifecycleConfiguration, w)) ∧
  (supports (route_protocol q) h = true → request_intent (route_protocol q) (route_operation q) body (maximumBodyBytes h) = Err ErrLifecycleConfiguration).

Ltac verifies f := left; eexists _, f, _, _, _; split_and!; [intros x; reflexivity|reflexivity|intros w; reflexivity].
Lemma verify_method authority batch h env q body : signed_handler authority batch h → verifies authority h env q body ∨ unverifiable h env q body.
Proof.
  intros [H1 H2 H3 _]. destruct q as [p operation request]. unfold verifies, unverifiable. cbn [route_protocol route_operation route_request].
  destruct p; cbn [verify_protocol].
  - unfold verify, verify_with. rewrite H1. by_operation operation; [verifies registered_intent|verifies identity_intent|verifies identity_intent|].
    right. split; [done|]. intros _. unfold request_intent. by rewrite !(proj2 (String.eqb_neq _ _)) by done.
  - unfold verifyV2. destruct H2 as [H2|H2]; rewrite H2; [right; split; [done|]; cbn; unfold supportsV2; by rewrite H2|].
    unfold verify_with. by_operation operation; [verifies profile_intent|verifies heartbeat_intent|verifies identity_intent|].
    right. split; [done|]. intros _. unfold request_intent. by rewrite !(proj2 (String.eqb_neq _ _)) by done.
  - unfold verifyV3. destruct H3 as [H3|H3]; rewrite H3; [right; split; [done|]; cbn; unfold supportsV3; by rewrite H3|].
    unfold verify_with. by_operation operation; [verifies profile_intent|verifies heartbeat_intent|verifies identity_intent|].
    right. split; [done|]. intros _. unfold request_intent. by rewrite !(proj2 (String.eqb_neq _ _)) by done.
Qed.

Lemma verify_signed authority batch h q env body w r w' : signed_handler authority batch h →
  verify_protocol (route_protocol q) h env (route_operation q) (route_request q) body w = (r, w') →
  verified_as authority h (env_verification env) q body w r w'.
Proof.
  intros Hh. assert (Hstore : ∀ key expires w r w', replayStore h env key expires w = (r, w') → reserves w w').
  { rewrite (signed_store _ _ _ Hh). apply sqlite_store_reserves. }
  destruct (verify_method authority batch h env q body Hh) as [(R & f & actor & version & decoded & Hact & Hreq & ->)|[-> _]].
  - destruct (verify_decoded _ _ _ _ _ _ _ _ _ _ _ _) as [r1 w1] eqn:E. intros [= <- <-].
    by apply (decoded_verified f actor (replayStore h env) authority h (env_verification env) version q body decoded w).
  - intros [= <- <-]. split; [apply reserves_none|done].
Qed.
Lemma signed_reserves authority batch h : signed_handler authority batch h → ReservingVerifier h.
Proof. intros Hh. constructor. intros p env operation request body w r w' Hv. by apply (verify_signed authority batch h (Routed p operation request)) in Hv as [Hv _]. Qed.

(** A store whose every reservation fails. *)
Lemma decoded_refused {R} (actor : R → string) (store : string → Z → lifecycle_world → result error bool * lifecycle_world) authority call version operation tag path request body decoded w r w' :
  (∀ key expires w, ∃ e, store key expires w = (Err e, w)) →
  verify_decoded store authority call version operation tag path actor request body decoded w = (r, w') →
  w' = w ∧ match decoded with
  | Err e => r = Err e
  | Ok x =>
      (∃ e, r = Err e ∧ (e = ErrContract version operation BadTarget ∨ ∃ a, e = ErrAuthentication a)) ∧
      (validOperationTarget request path = true → ∀ v,
       VerifyPOSTWithTag authority (verify_clock call) (resolve call) (http request) body tag = Ok v → BindRelayActor v (actor x) = true →
       r = Err (ErrAuthentication ErrRFC9421ReplayStore))
  end.
Proof.
  intros Hstore. unfold verify_decoded. destruct decoded as [x|e]; [|by intros [= <- <-]].
  destruct (validOperationTarget request path); cbn [negb]; [|intros [= <- <-]; split; [done|]; split; [eexists; auto|done]].
  unfold VerifyPOSTAndReserveWithTag. destruct (VerifyPOSTWithTag _ _ _ _ _ _) as [v|e]; [|intros [= <- <-]; split; [done|]; split; [eexists; eauto|done]].
  destruct (BindRelayActor v (actor x)) eqn:Hb; cbn [negb].
  - destruct (Hstore (DeriveRFC9421ReplayKey (ver_KeyID v) (ver_Nonce v)) (whole_second (reserve_clock call) + RFC9421ReplayTTL) w) as [e ->].
    intros [= <- <-]. split; [done|]. split; [eexists; eauto|done].
  - intros [= <- <-]. split; [done|]. split; [eexists; eauto|]. intros _ v' [= <-]. congruence.
Qed.
Lemma refused_reservation batch env e key expires w : admission (env_call env) = Some e →
  ∃ e', sqlite_replay_store batch env key expires w = (Err e', w).
Proof.
  intros Ha. unfold sqlite_replay_store, ReserveRFC9421Replay, transact_as. rewrite Ha.
  assert (Hw : with_directory (set_replay (replay_reservations (directory w)) (directory w)) w = w) by (by destruct w as [l [[] ? ?] t]).
  destruct (replay_validate _ _ _ _ _) as [[now ex]|e']; [destruct (negb (configured _))|]; rewrite Hw; by eexists.
Qed.
End Signed.

(** ** What a request must have passed before it writes *)

Section Writes.
Context `{RelayIdentity} `{SignatureLibraries}.

Definition phase_intent (ph : phase) : option intent :=
  match ph with Verified _ i | Charged _ i | Persisted _ i _ _ | Profiled _ i _ _ => Some i | _ => None end.
Lemma serve_step_intent authority batch h q env ph w ph' w' i : signed_handler authority batch h →
  serve_step (Some h) q env ph w = (ph', w') → phase_intent ph' = Some i → phase_intent ph = Some i ∨ authenticated authority h q i.
Proof.
  intros Hh. destruct ph; cbn [serve_step continue_request].
  - unfold begin_request. repeat case_match; by intros [= <- <-].
  - unfold verify_request. destruct (readBoundedBody _ _) as [body|e] eqn:Hbody; [|by intros [= <- <-]].
    destruct (verify_protocol _ _ _ _ _ _ _) as [r w1] eqn:E. apply (verify_signed _ _ _ _ _ _ _ _ _ Hh) in E as [_ Hok].
    destruct r as [i'|]; intros [= <- <-]; [|done]. intros [= <-]. right. exists (env_verification env), body. auto.
  - unfold admit_actor. destruct (AdmitActor _ _ _ _ _ _) as [r l]. destruct (Allowed r); intros [= <- <-]; (by left) || done.
  - unfold store_lifecycle. destruct (persist _ _ _ _ _ _) as [[]]; intros [= <- <-]; (by left) || done.
  - unfold store_profile. destruct (_ && _); [|intros [= <- <-]; by left]. destruct (persist_profile _ _ _ _ _) as [[]]; intros [= <- <-]; (by left) || done.
  - unfold store_telemetry. destruct (intent_telemetry _); [|by intros [= <- <-]]. destruct (persist_telemetry _ _ _ _ _ _) as [[]]; by intros [= <- <-].
  - by intros [= <- <-].
  - by intros [= <- <-].
Qed.

(** Every request in progress past verification carries an authenticated intent. *)
Definition requests_authenticated (authority : string) (h : LifecycleHandler) (rs : in_progress) : Prop :=
  ∀ j q ph i, rs !! j = Some (q, ph) → phase_intent ph = Some i → authenticated authority h q i.
Lemma handlers_authenticated authority batch h evs : signed_handler authority batch h → ∀ s,
  requests_authenticated authority h s.1 → requests_authenticated authority h (handlers_run (Some h) evs s).1.
Proof.
  intros Hh. induction evs as [|ev evs IH]; intros [rs w] Hs; [done|]. cbn [handlers_run]. apply IH. destruct ev as [q|j env|r t]; cbn [handlers_step]; [| |done].
  - intros j q' ph i Hj Hi. cbn [fst] in *. apply lookup_app_Some in Hj as [Hj|[_ Hj]]; [by eapply Hs|].
    apply list_lookup_singleton_Some in Hj as [_ [= <- <-]]. done.
  - destruct (rs !! j) as [[q ph]|] eqn:Hj; [|done]. destruct (serve_step (Some h) q env ph w) as [ph' w'] eqn:E.
    intros k q' ph1 i Hk Hi. cbn [fst] in *. apply updated_request in Hk as [(->&->&->)|[_ Hk]]; [|by eapply Hs].
    destruct (serve_step_intent _ _ _ _ _ _ _ _ _ i Hh E Hi) as [Hph|]; [by eapply Hs|done].
Qed.

(** The tables besides the reservations. *)
Definition same_tables (w w' : lifecycle_world) : Prop :=
  (∃ reservations, directory w' = set_replay reservations (directory w)) ∧ profile_values (repository w') = profile_values (repository w) ∧
  profile_events (repository w') = profile_events (repository w) ∧ telemetry_rows w' = telemetry_rows w.
(** Every row of every other relay. *)
Definition others_untouched (a : string) (w w' : lifecycle_world) : Prop :=
  (∀ b, b ≠ a → relays (directory w') !! b = relays (directory w) !! b ∧ observations (directory w') !! b = observations (directory w) !! b ∧
                discoveries (directory w') !! b = discoveries (directory w) !! b ∧ diagnostics (directory w') !! b = diagnostics (directory w) !! b) ∧
  (∀ k, k.1 ≠ a → profile_values (repository w') !! k = profile_values (repository w) !! k) ∧
  (∀ b, b ≠ a → telemetry_rows w' !! b = telemetry_rows w !! b).

Lemma same_directory (w w' : lifecycle_world) : repository w' = repository w → telemetry_rows w' = telemetry_rows w → same_tables w w'.
Proof.
  intros Hr Ht. unfold same_tables, directory. rewrite Hr, Ht. split_and!; try done. exists (replay_reservations (profile_db (repository w))).
  by destruct (profile_db (repository w)).
Qed.
Lemma reserves_tables w w' : reserves w w' → same_tables w w'.
Proof. intros [rs ->]. split_and!; try done. by exists rs. Qed.

(** A profile replacement writes the values of its own actor. *)
Definition profile_frame (a : string) (s s' : profile_state) : Prop :=
  profile_db s' = profile_db s ∧ ∀ k : profile_key, k.1 ≠ a → profile_values s' !! k = profile_values s !! k.
Definition framed {A} (a : string) (m : Session profile_state A) : Prop := ∀ s fs r s' fs', m (s, fs) = (r, (s', fs')) → profile_frame a s s'.
Lemma frame_refl a s : profile_frame a s s.
Proof. done. Qed.
Lemma framed_bind {A B} a (m : Session profile_state A) (k : A → Session profile_state B) : framed a m → (∀ x, framed a (k x)) → framed a (m ≫= k).
Proof.
  intros Hm Hk s fs r s' fs' Hr. rewrite sbind_run in Hr. destruct (m (s, fs)) as [[x|e] [s1 fs1]] eqn:E; apply Hm in E as [E1 E2].
  - apply Hk in Hr as [Hr1 Hr2]. split; [congruence|]. intros k' Hk'. by rewrite Hr2, E2.
  - by injection Hr as <- <- <-.
Qed.
Lemma framed_failing {A} a action (m : Session profile_state A) : framed a m → framed a (failing action m).
Proof.
  intros Hm s fs r s' fs'. unfold failing. destruct (m (s, fs)) as [[x|e] [s1 fs1]] eqn:E; apply Hm in E; by intros [= _ <- _].
Qed.
Lemma framed_quiet {A} a (m : Session profile_state A) : (∀ s fs, (m (s, fs)).2.1 = s) → framed a m.
Proof. intros Hm s fs r s' fs' Hr. specialize (Hm s fs). rewrite Hr in Hm. cbn in Hm. subst s'. apply frame_refl. Qed.
Lemma framed_driver a : framed a call_driver.
Proof. apply framed_quiet. by intros s [|[] fs]. Qed.
Lemma framed_ensure a ok e : framed a (ensure ok e).
Proof. apply framed_quiet. by destruct ok. Qed.
Lemma framed_ret {A} a (x : A) : framed a (mret x).
Proof. by apply framed_quiet. Qed.
Lemma framed_select {A} a (f : profile_state → A) : framed a (select f).
Proof. apply framed_bind; [apply framed_driver|]. intros _. by apply framed_quiet. Qed.
Lemma framed_execute {A} a (statement : profile_state → option (profile_state * A)) :
  (∀ s s' x, statement s = Some (s', x) → profile_frame a s s') → framed a (execute statement).
Proof.
  intros Hs. apply framed_bind; [apply framed_driver|]. intros _ s fs r s' fs'. unfold run_statement. cbn [fst snd].
  destruct (statement s) as [[s1 x]|] eqn:E; intros [= _ <- _]; [by eapply Hs|apply frame_refl].
Qed.
Lemma framed_event a actor source field v revision t : framed a (insertProfileEvent actor source field v revision t).
Proof.
  apply framed_failing, framed_execute. intros s s' x. unfold insert_profile_event. destruct (_ || _); [done|]. by intros [= <- _].
Qed.
Lemma framed_value a (m : profile_state → option (profile_state * unit)) :
  (∀ s s' x, m s = Some (s', x) → profile_frame a s s') → ∀ action, framed a (failing action (execute m)).
Proof. intros Hm action. by apply framed_failing, framed_execute. Qed.
Lemma framed_scan {A} a d v i (valid : A → bool) rows : framed a (scan_valid d v i valid rows).
Proof.
  induction rows as [|row rows IH]; cbn [scan_valid]; [apply framed_failing, framed_driver|].
  repeat (apply framed_bind; [|intros _]); [apply framed_failing, framed_driver|apply framed_ensure|done].
Qed.
Lemma framed_fields actor source p t current revisions fields : ∀ summary,
  framed actor (replace_fields actor source p t current revisions summary fields).
Proof.
  induction fields as [|f fields IH]; intros [c u x n]; cbn [replace_fields]; [apply framed_ret|].
  destruct (encodeProfileField p f) as [json|].
  - apply framed_bind; [apply framed_ensure|intros _]. destruct (same_assertion _ _ _); [apply IH|]. apply framed_bind; [|intros _; destruct (is_null _); apply IH].
    apply framed_bind; [|intros _; apply framed_event]. apply framed_value. intros s s' y. unfold upsert_profile_value. destruct (_ || _); [done|].
    intros [= <- _]. split; [done|]. intros k Hk. cbn. apply lookup_insert_ne. intros <-. by apply Hk.
  - destruct (is_null _); [apply IH|]. apply framed_bind; [|intros _; apply IH]. apply framed_bind; [|intros _; apply framed_event].
    apply framed_value. intros s s' y. unfold delete_profile_value. intros [= <- _]. split; [done|]. intros k Hk. cbn. apply lookup_delete_ne. intros <-. by apply Hk.
Qed.
Lemma framed_replacement actor source p t : framed actor (ReplaceProfileSource_tx actor source p t).
Proof.
  unfold ReplaceProfileSource_tx, requireProfileMonotonicTime, readProfileSourceValues, readProfileSourceRevisions.
  repeat (apply framed_bind; [|intros ?]);
    first [apply framed_failing, framed_select|apply framed_ensure|apply framed_scan|apply framed_ret|apply framed_fields].
Qed.
Lemma replace_frame c intent t s r s' : ReplaceProfileSource c intent t s = (r, s') → profile_frame (profile_actor intent) s s'.
Proof.
  unfold ReplaceProfileSource. destruct (negb (configured c)); [by intros [= _ <-]|]. destruct (negb (ValidProfileRelayActor _)); [by intros [= _ <-]|].
  destruct (NormalizeProfileSource _) as [source|e]; [|by intros [= _ <-]]. destruct (NormalizeRelayProfile _) as [p|e]; [|by intros [= _ <-]].
  destruct (unix_of t <? 0); [by intros [= _ <-]|]. unfold transact, transact_as. destruct (negb _); [by intros [= _ <-]|].
  destruct (admission c); [by intros [= _ <-]|].
  match goal with |- match ?m ?st with _ => _ end = _ → _ => assert (Hm : framed (profile_actor intent) m);
    [|destruct (m st) as [[x|e] [s1 fs1]] eqn:E; [apply Hm in E|]; by intros [= _ <-]] end.
  apply framed_bind; [apply framed_failing, framed_driver|intros _]. apply framed_bind; [apply framed_replacement|intros x].
  apply framed_bind; [apply framed_failing, framed_driver|intros _]. apply framed_ret.
Qed.
End Writes.

(** ** The tables each phase writes *)

Section Tables.
Context `{RelayIdentity} `{SignatureLibraries}.

Lemma persist_frame c operation actor base t w r w' : db_ok (directory w) → clock_ok t →
  persist c operation actor base t w = (r, w') → others_untouched actor w w'.
Proof.
  intros Hd Ht.
  assert (Hop : ∀ o x d', operation_actor o = Some actor → perform c o t (directory w) = (x, d') → others_untouched actor w (with_directory d' w)).
  { intros o x d' Ha Hp. split_and!; [|done..]. intros a Hne. destruct x as [out|e].
    - eapply other_actors_untouched; [done|done|exact Hp|congruence].
    - apply error_changes_nothing in Hp. cbn. by rewrite Hp. }
  unfold persist. destruct (operation ≟ OperationRegister); [|destruct (operation ≟ OperationHeartbeat); [|destruct (operation ≟ OperationUnregister)]].
  - destruct (Register _ _ _ _) as [x d'] eqn:E. intros [= _ <-]. by apply (Hop (OpRegister {| register_actor := actor; register_base := base |}) x d').
  - destruct (Heartbeat _ _ _ _) as [x d'] eqn:E. intros [= _ <-]. by apply (Hop (OpHeartbeat actor) x d').
  - destruct (Unregister _ _ _ _) as [x d'] eqn:E. intros [= _ <-]. by apply (Hop (OpUnregister actor) x d').
  - intros [= _ <-]. by split_and!.
Qed.
Lemma persist_profile_frame c actor p t w r w' : persist_profile c actor p t w = (r, w') → others_untouched actor w w'.
Proof.
  unfold persist_profile. destruct (ReplaceProfileSource _ _ _ _) as [x s] eqn:E. apply replace_frame in E as [Hdb Hv]. intros [= _ <-].
  split_and!; [|done|done]. intros a Ha. unfold directory. cbn. by rewrite Hdb.
Qed.
Lemma upsert_frame d actor new guard merge t t' n : upsert_telemetry d actor new guard merge t = Some (t', n) → ∀ a, a ≠ actor → t' !! a = t !! a.
Proof.
  unfold upsert_telemetry. destruct (_ || _); [done|]. intros Hu a Ha. destruct (t !! actor) as [old|].
  - destruct (negb _); [by injection Hu as <- _|]. destruct (telemetry_check _ _); [|done]. injection Hu as <- _. by apply lookup_insert_ne.
  - injection Hu as <- _. by apply lookup_insert_ne.
Qed.
Lemma autocommit_frame c x y z statement t r t' (a : string) : autocommit c x y z statement t = (r, t') →
  (∀ t1 n, statement t = Some (t1, n) → t1 !! a = t !! a) → t' !! a = t !! a.
Proof.
  unfold autocommit. intros Hr Hs. destruct (statement t) as [[t1 n]|].
  - specialize (Hs _ _ eq_refl). repeat case_match; injection Hr as _ <-; done.
  - repeat case_match; by injection Hr as _ <-.
Qed.
Lemma persist_telemetry_frame h c actor i t w r w' : persist_telemetry h c actor i t w = (r, w') → others_untouched actor w w'.
Proof.
  unfold persist_telemetry. destruct (negb (telemetryRepository h)); [intros [= _ <-]; by split_and!|].
  destruct (match i with Receiving _ => _ | Participating _ => _ end) as [x rows] eqn:E. intros [= _ <-]. split_and!; [done|done|].
  intros a Ha. cbn. destruct i as [i|i]; unfold ReplaceRelayTelemetry, ReplaceRelayParticipatingTelemetry in E;
    (destruct (negb (configured c)); [by injection E as _ <-|]; destruct (negb _); [by injection E as _ <-|];
     apply (autocommit_frame _ _ _ _ _ _ _ _ a) in E; [done|]; intros t1 n Hs; by eapply upsert_frame).
Qed.

Lemma serve_step_tables authority batch h q env ph w ph' w' : signed_handler authority batch h → db_ok (directory w) → clock_ok (env_clock env) →
  serve_step (Some h) q env ph w = (ph', w') →
  same_tables w w' ∨ ∃ i, phase_intent ph = Some i ∧ actor_admitted ph = true ∧ others_untouched (intent_actor i) w w'.
Proof.
  intros Hh Hd Ht. assert (Hkeep : ∀ w', repository w' = repository w → telemetry_rows w' = telemetry_rows w →
    same_tables w w' ∨ ∃ i, phase_intent ph = Some i ∧ actor_admitted ph = true ∧ others_untouched (intent_actor i) w w')
    by (intros w1 Hr Htel; left; by apply same_directory).
  destruct ph; cbn [serve_step continue_request].
  - unfold begin_request. repeat case_match; intros [= <- <-]; by apply Hkeep.
  - unfold verify_request. destruct (readBoundedBody _ _) as [body|e]; [|intros [= <- <-]; by apply Hkeep].
    destruct (verify_protocol _ _ _ _ _ _ _) as [r w1] eqn:E. apply (verify_signed _ _ _ _ _ _ _ _ _ Hh) in E as [Hres _].
    destruct r; intros [= <- <-]; left; by apply reserves_tables.
  - unfold admit_actor. destruct (AdmitActor _ _ _ _ _ _) as [r l]. intros [= <- <-]. by apply Hkeep.
  - unfold store_lifecycle. destruct (persist _ _ _ _ _ _) as [r w1] eqn:E. apply persist_frame in E; [|done..].
    destruct r; intros [= <- <-]; right; by exists i.
  - unfold store_profile. destruct (_ && _); [|intros [= <- <-]; by apply Hkeep].
    destruct (persist_profile _ _ _ _ _) as [r w1] eqn:E. apply persist_profile_frame in E. destruct r; intros [= <- <-]; right; by exists i.
  - unfold store_telemetry. destruct (intent_telemetry i); [|intros [= <- <-]; by apply Hkeep].
    destruct (persist_telemetry _ _ _ _ _ _) as [r w1] eqn:E. apply persist_telemetry_frame in E. destruct r; intros [= <- <-]; right; by exists i.
  - intros [= <- <-]. by apply Hkeep.
  - intros [= <- <-]. by apply Hkeep.
Qed.
End Tables.

