(* ===== verification/HandlerAnswers.v ===== *)
(** * HandlerAnswers: the answers of the lifecycle handlers

    Every request is answered, with a response of the documented table; and what
    the answers are while the database is at its hard limit. *)
From S2P Require Import Prelude GoNet Identity AddrText Text Json Vocabulary Store Session Repository Lifecycle Telemetry Profile Replay Signature Requests Admission Handler Discovery Reachability Pruning Invariant Contract Refinement System Guarantees HandlerFacts.
Local Open Scope string_scope.
Local Open Scope Z_scope.
Local Open Scope go_scope.
Local Open Scope list_scope.
(** ** Answers *)

Section Answers.
Context `{RelayIdentity}.

(** The table of the handler documentation, with 405 for other methods. *)
Definition documented_errors : list (Z * string) :=
  [(400, ErrorInvalidRequest); (400, ErrorUnsupportedProtocolVersion); (401, ErrorAuthenticationFailed); (403, ErrorRelaySuspended);
   (403, ErrorEnrollmentClosed); (405, ErrorInvalidRequest); (409, ErrorReplayDetected); (409, ErrorRelayNotRegistered);
   (413, ErrorInvalidRequest); (429, ErrorRateLimited); (500, ErrorInternal); (503, ErrorLifecycleUnavailable)].
Definition documented_answer (q : routed) (r : response) : Prop :=
  (allow r = if status r =? 405 then Some "POST" else None) ∧
  (∀ seconds, retry_after r = Some seconds → status r = 429 ∧ 1 ≤ seconds) ∧
  match response_body r with
  | None => route_method q = "HEAD" ∧ status r = 405
  | Some (OperationResponse version operation outcome actor) =>
      version = version_number (route_protocol q) ∧ operation = route_operation q ∧ Outcome_ValidFor outcome operation = true ∧
      status r = (if outcome ≟ OutcomeCreated then 201 else 200)
  | Some (ErrorResponse version code message) =>
      version = version_number (route_protocol q) ∧ (status r, code) ∈ documented_errors ∧ message = protocolErrorMessage code ∧
      (status r = 405 ↔ route_method q ≠ "POST")
  end.

Lemma post_error q code_status code : route_method q = "POST" → (code_status, code) ∈ documented_errors → code_status ≠ 405 →
  documented_answer q (protocol_error q code_status code).
Proof.
  intros Hm Hin Hs. unfold documented_answer, protocol_error, writeProtocolErrorVersion, writeJSON. rewrite Hm. cbn.
  rewrite (proj2 (Z.eqb_neq _ _) Hs). split_and!; done.
Qed.
Ltac in_table := apply list_elem_of_In; simpl; tauto.
Lemma post_failure q e : route_method q = "POST" → documented_answer q (lifecycle_failure q e).
Proof.
  intros Hm.
  assert (Hall : ∀ version, (classify_error version e) ∈ documented_errors ∧ (classify_error version e).1 ≠ 405).
  { intros v. unfold classify_error. repeat case_match; (split; [in_table|done]). }
  unfold lifecycle_failure, write_error, writeLifecycleError, writeLifecycleV2Error, writeLifecycleV3Error, write_classified.
  pose proof (λ status code, post_error q status code Hm) as Hp. unfold protocol_error in Hp.
  destruct (route_protocol q) eqn:Hv; cbn [version_number] in Hp;
    (destruct (classify_error _ e) as [s c] eqn:E; pose proof (Hall (version_number (route_protocol q))) as Ha; rewrite Hv in Ha; cbn [version_number] in Ha;
     rewrite E in Ha; destruct Ha; by apply Hp).
Qed.
Lemma post_admission q r : route_method q = "POST" → documented_answer q (admission_error q r).
Proof.
  intros Hm. unfold admission_error, writeAdmissionErrorVersion.
  pose proof (post_error q 500 ErrorInternal Hm) as H500. unfold protocol_error in H500.
  assert (Hlimited : ∀ d, documented_answer q (Response 429 None (let s := retryAfterSeconds d in if 0 <? s then Some s else None)
            (response_body (writeProtocolErrorVersion (route_method q) 429 (version_number (route_protocol q)) ErrorRateLimited)))).
  { intros d. unfold documented_answer, writeProtocolErrorVersion, writeJSON. rewrite Hm. cbn. split_and!; try done.
    - intros s. destruct (Z.ltb_spec 0 (retryAfterSeconds d)); [|done]. intros [= <-]. split; [done|lia].
    - in_table. }
  destruct (result_Decision r); first [apply Hlimited | apply H500; [in_table|done]].
Qed.
Lemma post_outcome q i outcome : route_method q = "POST" → documented_answer q (outcome_response q i outcome).
Proof.
  intros Hm. unfold outcome_response. destruct (Outcome_ValidFor outcome (route_operation q)) eqn:Hv; cbn [negb].
  - unfold documented_answer, writeJSON. rewrite Hm. cbn. destruct (outcome ≟ OutcomeCreated); by split_and!.
  - apply post_error; [done|in_table|done].
Qed.

Definition phase_rank (ph : phase) : nat :=
  match ph with
  | Arrived => 7 | Holding _ => 6 | Verified _ _ => 5 | Charged _ _ => 4 | Persisted _ _ _ _ => 3 | Profiled _ _ _ _ => 2
  | Releasing _ _ => 1 | Answered _ => 0
  end%nat.
Definition documented_phase (q : routed) (ph : phase) : Prop :=
  match ph with
  | Arrived => True
  | Answered r => documented_answer q r
  | Releasing _ r => route_method q = "POST" ∧ documented_answer q r
  | _ => route_method q = "POST"
  end.
Lemma begin_documented handler q env w ph' w' : begin_request handler q env w = (ph', w') →
  documented_phase q ph' ∧ (phase_rank ph' ≤ 6)%nat ∧ (handler = None → ∃ r, ph' = Answered r).
Proof.
  unfold begin_request. destruct (String.eqb_spec (route_method q) "POST") as [Hm|Hm]; cbn [negb].
  - destruct handler as [h|]; [|intros [= <- <-]; split_and!; [apply post_error; [done|in_table|done]|simpl; lia|by eexists]].
    destruct (negb (supports _ _)); [intros [= <- <-]; split_and!; [apply post_error; [done|in_table|done]|simpl; lia|done]|].
    destruct (Source_of _ _ _); [|intros [= <- <-]; split_and!; [apply post_error; [done|in_table|done]|simpl; lia|done]].
    destruct (AdmitSource _ _ _ _ _) as [[[k|] r] l]; intros [= <- <-]; (split_and!; [|simpl; lia|done]); [done|by apply post_admission].
  - intros [= <- <-]. split_and!; [|simpl; lia|by eexists]. unfold documented_phase, documented_answer, method_not_allowed, writeProtocolErrorVersion, writeJSON.
    cbn. destruct (String.eqb_spec (route_method q) "HEAD"); cbn; split_and!; try done. in_table.
Qed.
Lemma continue_documented h q env ph w ph' w' : documented_phase q ph → continue_request h q env ph w = (ph', w') →
  documented_phase q ph' ∧ (phase_rank ph' ≤ Nat.pred (phase_rank ph))%nat.
Proof.
  intros Hd. destruct ph; cbn [continue_request].
  - intros Hb. apply begin_documented in Hb as (?&?&_). done.
  - cbn in Hd. unfold verify_request. destruct (readBoundedBody _ _) as [body|[]].
    + destruct (verify_protocol _ _ _ _ _ _ _) as [[i|e] w1]; intros [= <- <-]; (split; [|simpl; lia]); [done|]. split; [done|by apply post_failure].
    + intros [= <- <-]. split; [split; [done|apply post_error; [done|in_table|done]]|simpl; lia].
    + intros [= <- <-]. split; [split; [done|apply post_error; [done|in_table|done]]|simpl; lia].
  - cbn in Hd. unfold admit_actor. destruct (AdmitActor _ _ _ _ _ _) as [r l]. destruct (Allowed r); intros [= <- <-]; (split; [|simpl; lia]); [done|].
    split; [done|by apply post_admission].
  - cbn in Hd. unfold store_lifecycle. destruct (persist _ _ _ _ _ _) as [[o|e] w1]; intros [= <- <-]; (split; [|simpl; lia]); [done|]. split; [done|by apply post_failure].
  - cbn in Hd. unfold store_profile. destruct (_ && _); [|intros [= <- <-]; split; [done|simpl; lia]].
    destruct (persist_profile _ _ _ _ _) as [[o|e] w1]; intros [= <- <-]; (split; [|simpl; lia]); [done|]. split; [done|by apply post_failure].
  - cbn in Hd. unfold store_telemetry. destruct (intent_telemetry i); [|intros [= <- <-]; split; [split; [done|by apply post_outcome]|simpl; lia]].
    destruct (persist_telemetry _ _ _ _ _ _) as [[o|e] w1]; intros [= <- <-]; (split; [|simpl; lia]); (split; [done|]); [by apply post_outcome|by apply post_failure].
  - destruct Hd as [_ Hd]. intros [= <- <-]. split; [done|simpl; lia].
  - intros [= <- <-]. split; [done|simpl; lia].
Qed.
Lemma run_documented h q envs : ∀ ph w, documented_phase q ph → (phase_rank ph ≤ length envs)%nat →
  ∃ r w', run_handler (Some h) q envs ph w = (Answered r, w') ∧ documented_answer q r.
Proof.
  induction envs as [|env envs IH]; intros ph w Hd Hr; cbn [run_handler].
  - destruct ph; simpl in Hr; try lia. by eexists _, _.
  - cbn [serve_step]. destruct (continue_request h q env ph w) as [ph' w'] eqn:E. apply (continue_documented _ _ _ _ _ _ _ Hd) in E as [Hd' Hr'].
    apply IH; [done|]. simpl in Hr. lia.
Qed.
Lemma answered_stays handler q envs r w : run_handler handler q envs (Answered r) w = (Answered r, w).
Proof. induction envs as [|env envs IH]; [done|]. cbn [run_handler]. by destruct handler. Qed.
Lemma answers_documented handler q envs w : (7 ≤ length envs)%nat →
  ∃ r w', run_handler handler q envs Arrived w = (Answered r, w') ∧ documented_answer q r.
Proof.
  intros Hlen. destruct handler as [h|]; [by apply run_documented|]. destruct envs as [|env envs]; [simpl in Hlen; lia|].
  cbn [run_handler serve_step]. destruct (begin_request None q env w) as [ph w'] eqn:E. apply begin_documented in E as (Hd & _ & Ha).
  destruct (Ha eq_refl) as [r ->]. rewrite answered_stays. by eexists _, _.
Qed.
End Answers.

(** ** Answers at the hard storage limit *)

Section HardLimit.
Context `{RelayIdentity} `{SignatureLibraries}.

Definition reports_storage (e : lifecycle_error) : bool := match e with ErrStorage _ => true | _ => false end.
Lemma classify_unavailable version e : reports_storage e = false → (classify_error version e).1 ≠ 503.
Proof. intros Hs. unfold classify_error. destruct e as [v o []|[]| |]; try done; by destruct (v =? version). Qed.
Lemma result_bind_error {E A B} (r : result E A) (k : A → result E B) e : r ≫= k = Err e → r = Err e ∨ ∃ a, k a = Err e.
Proof. destruct r; [by right; eexists|]. intros [= <-]. by left. Qed.
(** Decoding fails with the errors of the contract. *)
Ltac contract_errors H :=
  repeat (apply result_bind_error in H as [H|[? H]]);
  repeat match type of H with
    | body_limit _ _ _ _ _ = _ => unfold body_limit in H
    | expected_header _ _ _ _ = _ => unfold expected_header in H
    | require_contract _ _ ?b = _ => destruct b; cbn [require_contract] in H
    | decoded _ _ ?r = _ => destruct r; cbn [decoded] in H
    | or_bad_request _ _ ?r = _ => destruct r; cbn [or_bad_request] in H
    | (if ?b then _ else _) = _ => destruct b
    end;
  first [discriminate H | injection H as <-; reflexivity].
Lemma request_intent_error p operation body maximum e : request_intent p operation body maximum = Err e → reports_storage e = false.
Proof.
  assert (Has : ∀ {R} (f : R → intent) r, as_intent f r = Err e → (∀ e', r = Err e' → reports_storage e' = false) → reports_storage e = false).
  { intros R f [x|x]; [done|]. intros [= ->] Hr. by apply Hr. }
  unfold request_intent. destruct p; by_operation operation; try (intros [= <-]; done);
    (intros Hr; apply (Has _ _ _ Hr); intros e' He;
     unfold DecodeRegisterRequest, DecodeHeartbeatRequest, DecodeUnregisterRequest, decode_identity, DecodeRegisterRequest_v2, DecodeHeartbeatRequest_v2,
       DecodeUnregisterRequest_v2, decodeIdentityRequest in He; contract_errors He).
Qed.

Lemma verify_hard authority batch h q env body e w r w' : signed_handler authority batch h → admission (env_call env) = Some e →
  verify_protocol (route_protocol q) h env (route_operation q) (route_request q) body w = (r, w') →
  w' = w ∧ ∃ e', r = Err e' ∧ reports_storage e' = false ∧
    (supports (route_protocol q) h = true → ∀ i, signed_request authority h (env_verification env) q body i → e' = ErrAuthentication ErrRFC9421ReplayStore).
Proof.
  intros Hh Ha. assert (Hstore : ∀ key expires w, ∃ e', replayStore h env key expires w = (Err e', w)).
  { intros key expires w1. rewrite (signed_store _ _ _ Hh). by eapply refused_reservation. }
  destruct (verify_method authority batch h env q body Hh) as [(R & f & actor & version & decoded & Hact & Hreq & ->)|[-> Hnone]].
  - destruct (verify_decoded _ _ _ _ _ _ _ _ _ _ _ _) as [r1 w1] eqn:E. intros [= <- <-]. apply (decoded_refused _ _ _ _ _ _ _ _ _ _ _ _ _ _ Hstore) in E as [-> E].
    split; [done|]. destruct decoded as [x|e'].
    + destruct E as [(e' & -> & He') Hauth]. exists e'. split; [done|]. split; [destruct He' as [->|[a ->]]; done|].
      intros _ i (Hi & Ht & v & Hv & Hb). rewrite <- Hreq in Hi. injection Hi as <-. rewrite Hact in Hb. specialize (Hauth Ht v Hv Hb). by injection Hauth.
    + subst r1. exists e'. split; [done|]. split; [symmetry in Hreq; by apply request_intent_error in Hreq|]. intros _ i (Hi & _). by rewrite <- Hreq in Hi.
  - intros [= <- <-]. split; [done|]. eexists. split; [done|]. split; [done|]. intros Hsup i (Hi & _). by rewrite (Hnone Hsup) in Hi.
Qed.

Definition hard (env : environment) : Prop := admission (env_call env) = Some ErrWriteAdmissionHard.
Definition hard_phase (ph : phase) : Prop :=
  match ph with Arrived | Holding _ => True | Releasing _ r | Answered r => status r ≠ 503 | _ => False end.
Lemma hard_step authority batch h q env ph w ph' w' : signed_handler authority batch h → supports (route_protocol q) h = true → hard env → hard_phase ph →
  continue_request h q env ph w = (ph', w') → hard_phase ph' ∧ repository w' = repository w ∧ telemetry_rows w' = telemetry_rows w.
Proof.
  intros Hh Hsup Henv Hph. destruct ph; try done; cbn [continue_request].
  - unfold begin_request. rewrite Hsup. cbn [negb]. destruct (negb _); [by intros [= <- <-]|]. destruct (Source_of _ _ _); [|by intros [= <- <-]].
    destruct (AdmitSource _ _ _ _ _) as [[[k|] r] l]; intros [= <- <-]; (split; [|done]); [done|]. cbn. unfold admission_error, writeAdmissionErrorVersion.
    by destruct (result_Decision r).
  - unfold verify_request. destruct (readBoundedBody _ _) as [body|[]]; [|by intros [= <- <-]..].
    destruct (verify_protocol _ _ _ _ _ _ _) as [r w1] eqn:E. apply (verify_hard _ _ _ _ _ _ _ _ _ _ Hh Henv) in E as (-> & e & -> & He & _).
    intros [= <- <-]. split; [|done]. cbn. pose proof (classify_unavailable (version_number (route_protocol q)) e He) as Hc.
    unfold lifecycle_failure, write_error, writeLifecycleError, writeLifecycleV2Error, writeLifecycleV3Error, write_classified.
    destruct (route_protocol q); cbn [version_number] in Hc; by destruct (classify_error _ e).
  - by intros [= <- <-].
  - by intros [= <- <-].
Qed.
Lemma hard_run authority batch h q envs : signed_handler authority batch h → supports (route_protocol q) h = true → Forall hard envs →
  ∀ ph w ph' w', hard_phase ph → run_handler (Some h) q envs ph w = (ph', w') →
  hard_phase ph' ∧ repository w' = repository w ∧ telemetry_rows w' = telemetry_rows w.
Proof.
  intros Hh Hsup. induction 1 as [|env envs Henv Hall IH]; intros ph w ph' w' Hph; cbn [run_handler]; [by intros [= <- <-]|].
  cbn [serve_step]. destruct (continue_request h q env ph w) as [ph1 w1] eqn:E. apply (hard_step _ _ _ _ _ _ _ _ _ Hh Hsup Henv Hph) in E as (Hp & Hr & Ht).
  intros Hrun. destruct (IH _ _ _ _ Hp Hrun) as (?&?&?). split_and!; congruence.
Qed.
End HardLimit.
