(* ===== verification/ProfileNormal.v ===== *)
(** * ProfileNormal: normalization of descriptive profiles

    [NormalizeRelayProfile] works field by field and is idempotent, and a stored
    value is the JSON of one normalized field: what [encodeProfileField] writes,
    [decodeProfileField] reads back. *)
From S2P Require Import Prelude GoNet Identity AddrText Canonical Text Vocabulary Store Repository Telemetry Session Profile.
From Stdlib Require Import Ascii.
Local Open Scope string_scope.
Local Open Scope Z_scope.
Local Open Scope go_scope.
Local Open Scope list_scope.

(** ** Texts *)

Lemma normalizeProfileText_fixed s m t : normalizeProfileText s m = Ok t → normalizeProfileText t m = Ok t.
Proof.
  unfold normalizeProfileText. destruct (trim_space (b s)) as [|c r] eqn:E; [by intros [= <-]|].
  destruct (_ || _) eqn:Hbad; [done|]. intros Ht. assert (t = str (c :: r)) as -> by congruence. rewrite b_str, <- E, trim_space_idempotent, E, Hbad. done.
Qed.
Lemma normalizeProfileEmail_fixed s t : normalizeProfileEmail s = Ok t → normalizeProfileEmail t = Ok t.
Proof.
  unfold normalizeProfileEmail. destruct (trim_space (b s)) as [|c r] eqn:E; [by intros [= <-]|].
  destruct (_ || _) eqn:Hbad; [done|]. destruct (negb (plain_address _) || _) eqn:Haddr; [done|].
  intros Ht. assert (t = str (c :: r)) as -> by congruence. rewrite b_str, <- E, trim_space_idempotent, E, Hbad, Haddr. done.
Qed.

(** ** Lists *)

Lemma remove_dups_fixed {A} `{EqDecision A} (l : list A) : NoDup l → remove_dups l = l.
Proof. induction 1 as [|x l Hx _ IH]; [done|]. simpl. destruct (decide_rel _ x l); [done|]. by rewrite IH. Qed.

Lemma sort_unique_in values v : In v (sort_unique values) ↔ In v values.
Proof. unfold sort_unique. rewrite order_by_in, <- !list_elem_of_In. apply elem_of_remove_dups. Qed.
Lemma sort_unique_sorted values : strictly_sorted (λ v : string, v) (sort_unique values).
Proof. apply order_by_sorted. rewrite list_fmap_id. apply NoDup_remove_dups. Qed.
Lemma sort_unique_fixed values : strictly_sorted (λ v : string, v) values → sort_unique values = values.
Proof.
  intros Hs. apply (strictly_sorted_same (λ v : string, v)); [apply sort_unique_sorted|done|]. intros v. apply sort_unique_in.
Qed.
Lemma sort_unique_length values : length (sort_unique values) = length (remove_dups values).
Proof. unfold sort_unique. by rewrite (Permutation_length (order_by_perm _ _)). Qed.

Lemma normalize_items_spec values items : normalize_items values = Ok items →
  length items = length values ∧ ∀ v, In v items → v ≠ "" ∧ normalizeProfileText v MaximumProfileListItemBytes = Ok v.
Proof.
  revert items. induction values as [|value values IH]; intros items Hn; cbn [normalize_items] in Hn.
  - injection Hn as <-. split; [done|by intros ? []].
  - destruct (normalizeProfileText value MaximumProfileListItemBytes) as [t|] eqn:Ht; [|done].
    destruct (String.eqb_spec t ""); [done|]. destruct (normalize_items values) as [rest|]; cbn [mbind result_bind] in Hn; [|done].
    injection Hn as <-. destruct (IH rest eq_refl) as [Hl Hin]. split; [simpl; lia|]. intros v [<-|Hv]; [|by apply Hin].
    split; [done|]. by eapply normalizeProfileText_fixed.
Qed.
Lemma normalize_items_fixed values : (∀ v, In v values → v ≠ "" ∧ normalizeProfileText v MaximumProfileListItemBytes = Ok v) →
  normalize_items values = Ok values.
Proof.
  induction values as [|v values IH]; intros Hv; [done|]. cbn [normalize_items]. destruct (Hv v) as [Hne ->]; [by left|].
  rewrite (proj2 (String.eqb_neq _ _)) by done. rewrite IH by (intros w Hw; apply Hv; by right). done.
Qed.

Lemma normalizeProfileList_spec values l : normalizeProfileList values = Ok l →
  strictly_sorted (λ v : string, v) l ∧ (length l <= MaximumProfileListItems)%nat ∧
  ∀ v, In v l → v ≠ "" ∧ normalizeProfileText v MaximumProfileListItemBytes = Ok v.
Proof.
  unfold normalizeProfileList. destruct values as [|v values]; [intros [= <-]; split_and!; [constructor|simpl; lia|by intros ? []]|].
  destruct (_ <? _)%nat; [done|]. destruct (normalize_items (v :: values)) as [items|] eqn:Hi; cbn [mbind result_bind]; [|done].
  destruct (Nat.ltb_spec MaximumProfileListItems (length (remove_dups items))) as [|Hl]; [done|]. intros [= <-].
  destruct (normalize_items_spec _ _ Hi) as [_ Hin]. split_and!.
  - apply sort_unique_sorted.
  - by rewrite sort_unique_length.
  - intros w Hw. apply Hin. by apply sort_unique_in.
Qed.
Lemma normalizeProfileList_fixed values l : normalizeProfileList values = Ok l → normalizeProfileList l = Ok l.
Proof.
  intros (Hs&Hl&Hin)%normalizeProfileList_spec. apply Nat.ltb_ge in Hl.
  pose proof (remove_dups_fixed l (strictly_sorted_NoDup (λ v : string, v) l Hs)) as Hdups. pose proof (sort_unique_fixed l Hs) as Hsort.
  pose proof (normalize_items_fixed l Hin) as Hitems. unfold normalizeProfileList. destruct l as [|v l]; [done|].
  rewrite Hl, Hitems. cbn [mbind result_bind]. by rewrite Hdups, Hl, Hsort.
Qed.

(** ** URLs *)

Section Profiles.
Context `{RelayIdentity} `{!CanonicalURLs}.

Lemma url_trimmed s : all_in url_char s → trim_space s = s.
Proof.
  intros Hs. pose proof (url_not_surrounded s Hs) as Hsur. unfold surrounded_by_space in Hsur. apply orb_false_iff in Hsur as [H1 H2].
  unfold trim_space. rewrite trim_left_fixed by done. rewrite trim_end_fixed; [by rewrite rev_involutive|].
  unfold ends_with_space in H2. unfold ends_reversed. destruct (rev s) as [|e [|d [|c r]]]; done.
Qed.
Lemma ascii_utf8 s : (∀ c, In c s → byte c < 128) → valid_utf8 s = true.
Proof.
  induction s as [|c s IH]; intros Hs; [done|]. cbn [valid_utf8]. rewrite (proj2 (Z.ltb_lt (byte c) 0x80)) by (apply Hs; by left).
  apply IH. intros d Hd. apply Hs. by right.
Qed.
Lemma url_plain s : all_in url_char s → valid_utf8 s = true ∧ containsProfileControl s = false.
Proof.
  intros Hs. split.
  - apply ascii_utf8. intros c Hc. destruct (url_char_facts c (Hs c Hc)) as (_&_&_&_&_&Hb). by apply Z.ltb_lt.
  - unfold containsProfileControl. apply not_true_iff_false. intros (c&Hc&Hctl)%existsb_exists.
    destruct (url_char_facts c (Hs c Hc)) as (_&_&Hn&_). unfold is_ctl in Hn. change 0x20 with 32 in Hctl. change 0x7f with 127 in Hctl. congruence.
Qed.
Lemma len_bytes s : len s = blen (b s).
Proof. unfold len, blen, b. f_equal. induction s as [|c s IH]; [done|]. simpl. by rewrite IH. Qed.

Lemma normalizeProfileHTTPSURL_fixed s m t : normalizeProfileHTTPSURL s m = Ok t → t ≠ "" ∧ normalizeProfileHTTPSURL t m = Ok t.
Proof.
  unfold normalizeProfileHTTPSURL. destruct (_ || _ || _ || _); [done|].
  destruct (norm_actor (str (trim_space (b s)))) as [a|] eqn:Ha; [|done]. destruct (m <? len a) eqn:Hm; [done|]. intros [= <-].
  pose proof (norm_actor_chars _ _ Ha) as Hchars. pose proof (norm_actor_https _ _ Ha) as Hhttps.
  split; [intros ->; done|]. rewrite url_trimmed by done. destruct (url_plain _ Hchars) as [-> ->].
  rewrite str_b, (norm_actor_stable _ _ Ha), <- len_bytes, Hm. cbn [negb orb].
  by destruct (b a).
Qed.
Lemma normalizeProfileHTTPSURL_stored s m t : normalizeProfileHTTPSURL s m = Ok t →
  t ≠ "" ∧ len t ≤ m ∧ has_prefix (b t) (b "https://") = true.
Proof.
  intros Ht. split; [by destruct (normalizeProfileHTTPSURL_fixed s m t Ht)|]. unfold normalizeProfileHTTPSURL in Ht.
  destruct (_ || _ || _ || _); [done|]. destruct (norm_actor _) as [a|] eqn:Ha; [|done].
  destruct (Z.ltb_spec m (len a)); [done|]. injection Ht as <-. split; [done|]. by apply (norm_actor_https _ _ Ha).
Qed.
Lemma optional_url_fixed s t : optional_url s = Ok t → optional_url t = Ok t.
Proof.
  unfold optional_url. destruct (s ≟ ""); [by intros [= <-]|]. intros [Hne Ht]%normalizeProfileHTTPSURL_fixed.
  by rewrite (proj2 (String.eqb_neq _ _)).
Qed.

(** ** Field by field *)

Definition text_norm (field : ProfileField) (value : string) : result error string :=
  match field with
  | ProfileFieldContactFediverse => normalizeProfileText value MaximumProfileFediverseIDBytes
  | ProfileFieldContactEmail => normalizeProfileEmail value
  | ProfileFieldContactURL | ProfileFieldParticipationURL => optional_url value
  | ProfileFieldNotes => normalizeProfileText value MaximumProfileNoteBytes
  | _ => normalizeProfileText value MaximumProfileScalarBytes
  end.

Lemma text_norm_fixed f s t : text_norm f s = Ok t → text_norm f t = Ok t.
Proof.
  destruct f; cbn [text_norm]; eauto using normalizeProfileText_fixed, normalizeProfileEmail_fixed, optional_url_fixed.
Qed.

Lemma NormalizeRelayProfile_fields p q : NormalizeRelayProfile p = Ok q ↔
  (∀ f, MultiValue f = false → text_norm f (text_of p f) = Ok (text_of q f)) ∧
  (∀ f, MultiValue f = true → normalizeProfileList (list_of p f) = Ok (list_of q f)).
Proof.
  destruct p as [p1 p2 p3 p4 p5 p6 p7 p8 p9 p10 p11 p12], q as [q1 q2 q3 q4 q5 q6 q7 q8 q9 q10 q11 q12].
  unfold NormalizeRelayProfile. cbn [ParticipationMode Availability RelayType Languages Countries Regions Topics ContactFediverse
    ContactEmail ContactURL ParticipationURL Notes]. split.
  - intros Hn. repeat match type of Hn with (?m ≫= _) = _ => destruct m eqn:?; cbn [mbind result_bind] in Hn; [|done] end.
    injection Hn as <- <- <- <- <- <- <- <- <- <- <- <-. split; intros [] Hf; done.
  - intros [Ht Hl]. pose proof (Ht ProfileFieldParticipationMode eq_refl) as H1. pose proof (Ht ProfileFieldAvailability eq_refl) as H2.
    pose proof (Ht ProfileFieldRelayType eq_refl) as H3. pose proof (Hl ProfileFieldLanguages eq_refl) as H4.
    pose proof (Hl ProfileFieldCountries eq_refl) as H5. pose proof (Hl ProfileFieldRegions eq_refl) as H6.
    pose proof (Hl ProfileFieldTopics eq_refl) as H7. pose proof (Ht ProfileFieldContactFediverse eq_refl) as H8.
    pose proof (Ht ProfileFieldContactEmail eq_refl) as H9. pose proof (Ht ProfileFieldContactURL eq_refl) as H10.
    pose proof (Ht ProfileFieldParticipationURL eq_refl) as H11. pose proof (Ht ProfileFieldNotes eq_refl) as H12.
    cbn [text_norm text_of list_of ParticipationMode Availability RelayType Languages Countries Regions Topics ContactFediverse
      ContactEmail ContactURL ParticipationURL Notes] in *.
    rewrite H1, H2, H3, H4, H5, H6, H7, H8, H9, H10, H11, H12. done.
Qed.

Definition profile_fixed (p : profile) : Prop := NormalizeRelayProfile p = Ok p.
Lemma NormalizeRelayProfile_fixed p q : NormalizeRelayProfile p = Ok q → profile_fixed q.
Proof.
  rewrite NormalizeRelayProfile_fields. intros [Ht Hl]. apply NormalizeRelayProfile_fields.
  split; intros f Hf; [by eapply text_norm_fixed, Ht|by eapply normalizeProfileList_fixed, Hl].
Qed.
Lemma normalized_profile_fixed p : normalized_profile p = true ↔ profile_fixed p.
Proof.
  unfold normalized_profile, profile_fixed, equalRelayProfile. destruct (NormalizeRelayProfile p) as [q|e].
  - rewrite bool_decide_eq_true. split; [by intros ->|by intros [= ->]].
  - by split.
Qed.

(** ** Stored fields *)

Definition same_field (p q : profile) (f : ProfileField) : Prop := text_of p f = text_of q f ∧ list_of p f = list_of q f.
Definition field_fixed (p : profile) (f : ProfileField) : Prop :=
  if MultiValue f then normalizeProfileList (list_of p f) = Ok (list_of p f) else text_norm f (text_of p f) = Ok (text_of p f).
Definition copy_field (f : ProfileField) (p acc : profile) : profile :=
  if MultiValue f then set_list acc f (list_of p f) else set_text acc f (text_of p f).

Lemma profile_fixed_fields p : profile_fixed p ↔ ∀ f, field_fixed p f.
Proof.
  unfold profile_fixed, field_fixed. rewrite NormalizeRelayProfile_fields. split.
  - intros [Ht Hl] f. destruct (MultiValue f) eqn:E; auto.
  - intros Hf. split; intros f E; specialize (Hf f); by rewrite E in Hf.
Qed.
Lemma field_fixed_same p q f : same_field p q f → field_fixed p f → field_fixed q f.
Proof. unfold field_fixed. by intros [-> ->]. Qed.
Lemma encode_same p q f : same_field p q f → encodeProfileField p f = encodeProfileField q f.
Proof. unfold encodeProfileField. by intros [-> ->]. Qed.

Lemma copy_field_same f p acc : same_field (copy_field f p acc) p f.
Proof. destruct acc, p, f; by split. Qed.
Lemma copy_field_other f g p acc : g ≠ f → same_field (copy_field f p acc) acc g.
Proof. intros Hne. destruct acc, p, f, g; (done || by split). Qed.
Lemma profile_ext p q : (∀ f, same_field p q f) → p = q.
Proof.
  intros Hs. pose proof (λ f, proj1 (Hs f)) as Ht. pose proof (λ f, proj2 (Hs f)) as Hl. clear Hs. destruct p, q.
  pose proof (Ht ProfileFieldParticipationMode). pose proof (Ht ProfileFieldAvailability). pose proof (Ht ProfileFieldRelayType).
  pose proof (Hl ProfileFieldLanguages). pose proof (Hl ProfileFieldCountries). pose proof (Hl ProfileFieldRegions).
  pose proof (Hl ProfileFieldTopics). pose proof (Ht ProfileFieldContactFediverse). pose proof (Ht ProfileFieldContactEmail).
  pose proof (Ht ProfileFieldContactURL). pose proof (Ht ProfileFieldParticipationURL). pose proof (Ht ProfileFieldNotes).
  simpl in *. congruence.
Qed.

(** The JSON written for an asserted field is read back as that field. *)
Lemma decode_encode p f json acc : encodeProfileField p f = Some json → len json ≤ 4096 →
  decodeProfileField acc f json = Ok (copy_field f p acc).
Proof.
  intros He Hl. unfold decodeProfileField, encodeProfileField, copy_field in *.
  change MaximumProfileStoredValueBytes with 4096. rewrite (proj2 (Z.ltb_ge _ _) Hl). destruct (MultiValue f).
  - destruct (list_of p f) as [|v values] eqn:E; [done|]. assert (json = str (json_list (map b (v :: values)))) as -> by congruence.
    change (str (json_list (map b (v :: values))) ≟ "") with false. cbv iota. cbn [orb]. rewrite b_str.
    rewrite unmarshal_json_list by done. cbn [map]. do 2 f_equal. rewrite str_b. f_equal. clear. induction values as [|w values IH]; [done|].
    cbn [map]. by rewrite str_b, IH.
  - destruct (String.eqb_spec (text_of p f) "") as [|Hne]; [done|]. assert (json = str (json_string (b (text_of p f)))) as -> by congruence.
    change (str (json_string (b (text_of p f))) ≟ "") with false. cbv iota. cbn [orb]. rewrite b_str, unmarshal_json_string, str_b.
    by rewrite (proj2 (String.eqb_neq _ _) Hne).
Qed.
Lemma encode_none p f : encodeProfileField p f = None → same_field p empty_profile f.
Proof.
  unfold encodeProfileField, same_field. destruct (MultiValue f) eqn:E.
  - destruct (list_of p f) eqn:El; [|done]. intros _. destruct f; done.
  - destruct (String.eqb_spec (text_of p f) "") as [Et|]; [|done]. intros _. destruct f; done.
Qed.
Lemma encode_empty f : encodeProfileField empty_profile f = None.
Proof. by destruct f. Qed.
Lemma empty_fixed : profile_fixed empty_profile.
Proof. vm_compute. reflexivity. Qed.

(** A value the tables may hold. *)
Definition stored_value (f : ProfileField) (json : string) : Prop :=
  ∃ p, profile_fixed p ∧ encodeProfileField p f = Some json ∧ len json ≤ 4096.

Lemma len_str x : len (str x) = blen x.
Proof. by rewrite len_bytes, b_str. Qed.
Lemma json_string_blen x : 2 ≤ blen (json_string x).
Proof. unfold blen, json_string. simpl. rewrite length_app. simpl. lia. Qed.
Lemma json_list_blen x : 2 ≤ blen (json_list x).
Proof. unfold blen, json_list. simpl. rewrite length_app. simpl. lia. Qed.
Lemma stored_check f json : stored_value f json → json_check f json = true.
Proof.
  intros (p&_&He&Hl). unfold json_check, blob_length_between, json_shape_ok, encodeProfileField in *.
  rewrite (proj2 (Z.leb_le _ _) Hl). destruct (MultiValue f).
  - destruct (list_of p f) as [|v values]; [done|]. assert (json = str (json_list (map b (v :: values)))) as -> by congruence. rewrite len_str in *.
    pose proof (json_list_blen (map b (v :: values))). rewrite (proj2 (Z.leb_le 2 _)) by done.
    rewrite b_str, unmarshal_json_list by done. unfold json_list. simpl. by rewrite has_prefix_nil.
  - destruct (text_of p f ≟ ""); [done|]. assert (json = str (json_string (b (text_of p f)))) as -> by congruence. rewrite len_str in *.
    pose proof (json_string_blen (b (text_of p f))). rewrite (proj2 (Z.leb_le 2 _)) by done.
    rewrite b_str, unmarshal_json_string. unfold json_string. simpl. by rewrite has_prefix_nil.
Qed.
Lemma decode_stored f json acc : stored_value f json →
  ∃ p, decodeProfileField acc f json = Ok (copy_field f p acc) ∧ profile_fixed p ∧ encodeProfileField p f = Some json.
Proof. intros (p&Hp&He&Hl). exists p. by rewrite (decode_encode p). Qed.
End Profiles.

(** ** Properties *)

(** Normalization of descriptive profiles is idempotent, and storage preserves
    it: the JSON kept for an asserted field of a normalized profile decodes to that
    field, whatever profile it is decoded into, and leaves every other field. *)
Theorem NormalizeRelayProfile_stored `{RelayIdentity, !CanonicalURLs} p q f json acc :
  NormalizeRelayProfile p = Ok q →
  NormalizeRelayProfile q = Ok q ∧
  (encodeProfileField q f = Some json → len json ≤ MaximumProfileStoredValueBytes →
   ∃ read, decodeProfileField acc f json = Ok read ∧ same_field read q f ∧ ∀ g, g ≠ f → same_field read acc g).
Proof.
  intros Hn. split; [by apply (NormalizeRelayProfile_fixed p)|]. intros He Hl. exists (copy_field f q acc).
  split_and!; [by apply decode_encode|apply copy_field_same|]. intros g Hg. by apply copy_field_other.
Qed.

Definition sample_profile : profile :=
  RelayProfileOf " open " "public" "" ["fr"; " en"; "fr"] [] [] ["art & craft"] "" "ops@relay.example" "https://Relay.example" "" "hi".

Lemma NormalizeRelayProfile_stored_witness :
  NormalizeRelayProfile sample_profile =
    Ok (RelayProfileOf "open" "public" "" ["en"; "fr"] [] [] ["art & craft"] "" "ops@relay.example" "https://relay.example/" "" "hi") ∧
  is_ok (decodeProfileField empty_profile ProfileFieldTopics (str ["["%char; quote] +:+ "art \u0026 craft" +:+ str [quote; "]"%char])) = true.
Proof.
  assert (Hn : NormalizeRelayProfile sample_profile =
    Ok (RelayProfileOf "open" "public" "" ["en"; "fr"] [] [] ["art & craft"] "" "ops@relay.example" "https://relay.example/" "" "hi"))
    by (vm_compute; reflexivity).
  split; [exact Hn|].
  destruct (NormalizeRelayProfile_stored _ _ ProfileFieldTopics (str ["["%char; quote] +:+ "art \u0026 craft" +:+ str [quote; "]"%char])
    empty_profile Hn) as [_ Hstored].
  destruct Hstored as (read&->&_); [vm_compute; reflexivity|vm_compute; congruence|reflexivity].
Defined.
