(* ===== verification/Csv.v ===== *)
(** * Csv: relay profiles as spreadsheet rows

    [internal/profilecsv/csv.go]: the operator's CSV exchange of descriptive
    profiles, over the reader and the writer of encoding/csv with their default
    options (comma, no comments, no lazy quotes, no trimming, LF line ends).
    A row that a spreadsheet could take for a formula is protected with an
    apostrophe; list cells escape their separator. *)
From S2P Require Import Prelude GoNet Identity AddrText Canonical Text Vocabulary Store Repository Telemetry Session Profile ProfileNormal.
From Stdlib Require Import Ascii.
Local Open Scope string_scope.
Local Open Scope Z_scope.
Local Open Scope go_scope.
Local Open Scope list_scope.

(** ** encoding/csv: lines *)

Definition line_feed : ascii := byte_of 10.
Definition carriage_return : ascii := byte_of 13.
Definition comma : ascii := byte_of 0x2C.

(** The lines of a text, each with its line feed, the last perhaps without. *)
Fixpoint raw_lines (s : bytes) : list bytes :=
  match s with
  | [] => []
  | c :: rest =>
      if c ≡c line_feed then [c] :: raw_lines rest
      else match raw_lines rest with
           | [] => [[c]]
           | line :: lines => (c :: line) :: lines
           end
  end.
(** [readLine]: a carriage return before the line feed is dropped, and one at the
    end of a file without a last line feed. *)
Fixpoint normalize_line (line : bytes) : bytes :=
  match line with
  | [] => []
  | c :: rest =>
      match rest with
      | [] => if c ≡c carriage_return then [] else [c]
      | [d] => if (c ≡c carriage_return) && (d ≡c line_feed) then [d] else c :: normalize_line rest
      | _ => c :: normalize_line rest
      end
  end.
Definition csv_lines (body : bytes) : list bytes := map normalize_line (raw_lines body).
(** [len(line) == lengthNL(line)] *)
Definition line_over (line : bytes) : bool :=
  match line with [] => true | [c] => c ≡c line_feed | _ => false end.

(** ** encoding/csv: records *)

(** What a scan finds behind the opening quote of a field on one line: the closing
    quote before a comma, the closing quote at the end of the line, a quote before
    anything else, or no closing quote. *)
Inductive quoted_scan :=
| QuoteEnd (text line : bytes) | QuoteLast (text : bytes) | QuoteBad | QuoteOpen (text : bytes).
Definition scanned (c : ascii) (scan : quoted_scan) : quoted_scan :=
  match scan with
  | QuoteEnd text line => QuoteEnd (c :: text) line
  | QuoteLast text => QuoteLast (c :: text)
  | QuoteBad => QuoteBad
  | QuoteOpen text => QuoteOpen (c :: text)
  end.
Fixpoint scan_quoted (line : bytes) : quoted_scan :=
  match line with
  | [] => QuoteOpen []
  | c :: rest =>
      if c ≡c quote then
        match rest with
        | d :: rest' =>
            if d ≡c quote then scanned quote (scan_quoted rest')
            else if d ≡c comma then QuoteEnd [] rest'
            else if line_over rest then QuoteLast [] else QuoteBad
        | [] => QuoteLast []
        end
      else scanned c (scan_quoted rest)
  end.
(** A quoted field, over as many lines as it takes: its text, the rest of the line
    behind its comma, and the lines left; [None] is [ErrQuote]. *)
Fixpoint quoted_field (line : bytes) (lines : list bytes) : option (bytes * option bytes * list bytes) :=
  match scan_quoted line with
  | QuoteEnd text line => Some (text, Some line, lines)
  | QuoteLast text => Some (text, None, lines)
  | QuoteBad => None
  | QuoteOpen text =>
      match lines with
      | [] => None
      | next :: lines =>
          match quoted_field next lines with
          | Some (more, line, lines) => Some (text ++ more, line, lines)
          | None => None
          end
      end
  end.
(** [bytes.IndexRune(line, ',')], without the line feed at the end of the line. *)
Fixpoint plain_field (line : bytes) : bytes * option bytes :=
  match line with
  | [] => ([], None)
  | c :: rest =>
      if c ≡c comma then ([], Some rest)
      else if line_over line then ([], None)
      else let '(field, more) := plain_field rest in (c :: field, more)
  end.
Definition starts_quoted (line : bytes) : bool := match line with c :: _ => c ≡c quote | [] => false end.
(** The fields of one record; a bare quote in a plain field is [ErrBareQuote]. *)
Fixpoint csv_fields (fuel : nat) (line : bytes) (lines : list bytes) : option (list bytes * list bytes) :=
  match fuel with
  | O => None
  | S fuel =>
      found ← (if starts_quoted line then quoted_field (tail line) lines
               else let '(field, more) := plain_field line in
                    if existsb (λ c, c ≡c quote) field then None else Some (field, more, lines));
      let '(field, more, lines) := found in
      match more with
      | None => Some ([field], lines)
      | Some line =>
          '(fields, lines) ← csv_fields fuel line lines;
          Some (field :: fields, lines)
      end
  end.

(** [Reader.Read]: empty lines are skipped; a row carries the number of its first
    line, counted from the [total] lines of the document. *)
Inductive csv_read := CsvEnd | CsvBroken | CsvRow (line : Z) (fields : list bytes) (lines : list bytes).
Fixpoint read_row (total : nat) (lines : list bytes) : csv_read :=
  match lines with
  | [] => CsvEnd
  | line :: rest =>
      if line_over line then read_row total rest
      else
        match csv_fields (S (length (concat lines))) line rest with
        | Some (fields, lines) => CsvRow (Z.of_nat (total - length rest)) fields lines
        | None => CsvBroken
        end
  end.

(** ** encoding/csv: the writer *)

Definition fieldNeedsQuotes (field : bytes) : bool :=
  match field with
  | [] => false
  | _ => bytes_eqb field [backslash; "."%char] ||
         existsb (λ c, (c ≡c line_feed) || (c ≡c carriage_return) || (c ≡c quote) || (c ≡c comma)) field ||
         starts_with_space field
  end.
Definition double_quotes (field : bytes) : bytes := flat_map (λ c, if c ≡c quote then [quote; quote] else [c]) field.
Definition csv_field (field : bytes) : bytes :=
  if fieldNeedsQuotes field then quote :: double_quotes field ++ [quote] else field.
Fixpoint csv_cells (fields : list bytes) : bytes :=
  match fields with
  | [] => []
  | [field] => csv_field field
  | field :: rest => csv_field field ++ comma :: csv_cells rest
  end.
Definition csv_record (fields : list bytes) : bytes := csv_cells fields ++ [line_feed].

(** ** Cells *)

Definition importHeaders : list string :=
  ["relay"; "participation_mode"; "availability"; "relay_type"; "languages"; "countries"; "regions"; "topics"; "contact_fediverse";
   "contact_email"; "contact_url"; "participation_url"; "notes"; "source_url"].
Definition exportHeaders : list string := removelast importHeaders.

Definition apostrophe : ascii := byte_of 0x27.
Definition semicolon : ascii := byte_of 0x3B.
Definition formulaTrigger (c : ascii) : bool := mem c "=+-@".
Definition protectCell (value : bytes) : bytes :=
  match value with
  | [] => []
  | c :: _ => if (c ≡c apostrophe) || formulaTrigger c then apostrophe :: value else value
  end.
Definition unprotectCell (value : bytes) : bytes :=
  match value with
  | c :: ((d :: _) as rest) => if (c ≡c apostrophe) && ((d ≡c apostrophe) || formulaTrigger d) then rest else value
  | _ => value
  end.

Definition escape_item (value : bytes) : bytes :=
  flat_map (λ c, if (c ≡c backslash) || (c ≡c semicolon) then [backslash; c] else [c]) value.
Fixpoint join_items (values : list bytes) : bytes :=
  match values with
  | [] => []
  | [value] => escape_item value
  | value :: rest => escape_item value ++ semicolon :: join_items rest
  end.
Definition encodeList (values : list string) : bytes := join_items (map b values).

(** [appendItem]: the item so far, trimmed, must not be empty. *)
Definition append_item (item : bytes) (parts : list string) : option (list string) :=
  let normalized := trim_space item in if bytes_eqb normalized [] then None else Some (parts ++ [str normalized]).
Fixpoint split_items (value item : bytes) (escaped : bool) (parts : list string) : option (list string) :=
  match value with
  | [] => if escaped then None else append_item item parts
  | c :: rest =>
      if escaped then
        if (c ≡c semicolon) || (c ≡c backslash) then split_items rest (item ++ [c]) false parts else None
      else if c ≡c backslash then split_items rest item true parts
      else if c ≡c semicolon then
        match append_item item parts with Some parts => split_items rest [] false parts | None => None end
      else split_items rest (item ++ [c]) false parts
  end.
(** The list is normalized as the topics of an otherwise empty profile. *)
Definition decodeList `{RelayIdentity} (value : bytes) : option (list string) :=
  match value with
  | [] => Some []
  | _ =>
      match split_items value [] false [] with
      | Some parts =>
          match NormalizeRelayProfile (RelayProfileOf "" "" "" [] [] [] parts "" "" "" "" "") with
          | Ok normalized => Some (Topics normalized)
          | Err _ => None
          end
      | None => None
      end
  end.

(** ** Documents *)

Record csv_profile := CsvProfile { csv_Line : Z; csv_Relay : string; csv_Profile : profile; csv_SourceURL : string }.

(** The column of each header; [None] for an unknown or repeated one. *)
Fixpoint header_indexes (header : list bytes) (index : nat) (indexes : list (string * nat)) : option (list (string * nat)) :=
  match header with
  | [] => Some indexes
  | raw :: rest =>
      let name := str (trim_space raw) in
      if negb (one_of importHeaders name) || (name ≟ "") || one_of (map fst indexes) name then None
      else header_indexes rest (S index) (indexes ++ [(name, index)])
  end.
Fixpoint column (name : string) (indexes : list (string * nat)) : option nat :=
  match indexes with
  | [] => None
  | (header, index) :: rest => if header ≟ name then Some index else column name rest
  end.
Definition cell_of (indexes : list (string * nat)) (row : list bytes) (name : string) : bytes :=
  match column name indexes with
  | Some index => trim_space (unprotectCell (nth index row []))
  | None => []
  end.

Section Documents.
Context `{RelayIdentity}.

Definition decode_row (sourceLabel : string) (indexes : list (string * nat)) (line : Z) (row : list bytes) : option csv_profile :=
  let value := cell_of indexes row in
  let text name := str (value name) in
  if text "relay" ≟ "" then None
  else
    languages ← decodeList (value "languages");
    countries ← decodeList (value "countries");
    regions ← decodeList (value "regions");
    topics ← decodeList (value "topics");
    match NormalizeRelayProfile
            (RelayProfileOf (text "participation_mode") (text "availability") (text "relay_type") languages countries regions topics
               (text "contact_fediverse") (text "contact_email") (text "contact_url") (text "participation_url") (text "notes")),
          NormalizeProfileSource (Build_ProfileSource ProfileSourceCSV sourceLabel (text "source_url")) with
    | Ok normalized, Ok source => Some (CsvProfile line (text "relay") normalized (SourceURL source))
    | _, _ => None
    end.
Fixpoint decode_rows (fuel : nat) (sourceLabel : string) (maximumRecords : Z) (width : nat) (indexes : list (string * nat)) (total : nat)
    (lines : list bytes) (records : list csv_profile) : option (list csv_profile) :=
  match fuel with
  | O => None
  | S fuel =>
      match read_row total lines with
      | CsvEnd => Some records
      | CsvBroken => None
      | CsvRow line row lines =>
          if negb (length row =? width)%nat || (maximumRecords <=? Z.of_nat (length records)) then None
          else
            match decode_row sourceLabel indexes line row with
            | Some record => decode_rows fuel sourceLabel maximumRecords width indexes total lines (records ++ [record])
            | None => None
            end
      end
  end.
(** Every error is [ErrCSV]. *)
Definition Decode (body : bytes) (sourceLabel : string) (maximumRecords : Z) : option (list csv_profile) :=
  if bytes_eqb body [] || negb (valid_utf8 body) || (maximumRecords <=? 0) ||
     negb (ValidDiscoverySourceLabel sourceLabel) || (sourceLabel ≟ "") then None
  else
    let lines := csv_lines body in
    let total := length lines in
    match read_row total lines with
    | CsvRow _ header rest =>
        if (length importHeaders <? length header)%nat then None
        else
          indexes ← header_indexes header 0 [];
          match column "relay" indexes with
          | None => None
          | Some _ =>
              match decode_rows (S total) sourceLabel maximumRecords (length header) indexes total rest [] with
              | Some [] | None => None
              | Some records => Some records
              end
          end
    | _ => None
    end.

Definition export_cells (relay : string) (p : profile) : list bytes :=
  map protectCell
    [b relay; b (ParticipationMode p); b (Availability p); b (RelayType p); encodeList (Languages p); encodeList (Countries p);
     encodeList (Regions p); encodeList (Topics p); b (ContactFediverse p); b (ContactEmail p); b (ContactURL p); b (ParticipationURL p);
     b (Notes p)].
Fixpoint encode_rows (records : list csv_profile) : option bytes :=
  match records with
  | [] => Some []
  | record :: rest =>
      if negb (ValidProfileRelayActor (csv_Relay record)) then None
      else
        match NormalizeRelayProfile (csv_Profile record) with
        | Err _ => None
        | Ok p =>
            match encode_rows rest with
            | Some more => Some (csv_record (export_cells (csv_Relay record) p) ++ more)
            | None => None
            end
        end
  end.
Definition Encode (records : list csv_profile) : option bytes :=
  match encode_rows records with
  | Some rows => Some (csv_record (map b exportHeaders) ++ rows)
  | None => None
  end.
End Documents.

(** ** Lines of text without control bytes *)

(** The bytes of a normalized cell: printable, so no line ends. *)
Definition printable_byte (c : ascii) : bool := negb ((byte c <? 0x20) || (byte c =? 0x7f)).
Lemma no_control s : containsProfileControl s = false ↔ all_in printable_byte s.
Proof.
  unfold containsProfileControl, printable_byte. split.
  - intros Hs c Hc. destruct (_ || _) eqn:E; [|done]. assert (existsb (λ c, (byte c <? 32) || (byte c =? 127)) s = true) by (apply existsb_exists; eauto).
    congruence.
  - intros Hs. apply not_true_iff_false. intros (c&Hc&E)%existsb_exists. specialize (Hs c Hc). simpl in Hs. by rewrite E in Hs.
Qed.
Lemma printable_facts c : printable_byte c = true → (c ≡c line_feed) = false ∧ (c ≡c carriage_return) = false.
Proof. revert c. each_byte. Qed.

Lemma valid_utf8_app_length n : ∀ s t, (length s <= n)%nat → valid_utf8 s = true → valid_utf8 (s ++ t) = valid_utf8 t.
Proof.
  induction n as [|n IH]; intros [|c0 s] t Hl Hs; simpl in Hl; try done; [lia|]. cbn [app valid_utf8] in *.
  destruct (byte c0 <? 0x80); [apply IH; [lia|done]|]. destruct s as [|c1 s]; [done|]. simpl in Hl. cbn [app].
  destruct (_ && _).
  { apply andb_true_iff in Hs as [-> Hs]. cbn [andb]. apply IH; [lia|done]. }
  destruct s as [|c2 s]; [done|]. simpl in Hl. cbn [app]. destruct (_ && _).
  { rewrite !andb_true_iff in Hs. destruct Hs as [[[[-> ->] ->] ->] Hs]. cbn [andb]. apply IH; [lia|done]. }
  destruct s as [|c3 s]; [done|]. simpl in Hl. cbn [app].
  rewrite !andb_true_iff in Hs. destruct Hs as [[[[[[[-> ->] ->] ->] ->] ->] ->] Hs]. cbn [andb]. apply IH; [lia|done].
Qed.
Lemma valid_utf8_app s t : valid_utf8 s = true → valid_utf8 (s ++ t) = valid_utf8 t.
Proof. by apply (valid_utf8_app_length (length s)). Qed.

Lemma raw_lines_first s rest : all_in printable_byte s → raw_lines (s ++ line_feed :: rest) = (s ++ [line_feed]) :: raw_lines rest.
Proof.
  induction s as [|c s IH]; intros Hs; [done|]. apply all_in_inv in Hs as [Hc Hs]. cbn [app raw_lines].
  destruct (printable_facts c Hc) as [-> _]. by rewrite IH.
Qed.
Lemma normalize_printable s : all_in printable_byte s → normalize_line (s ++ [line_feed]) = s ++ [line_feed].
Proof.
  induction s as [|c s IH]; intros Hs; [done|]. apply all_in_inv in Hs as [Hc Hs]. cbn [app normalize_line].
  destruct (printable_facts c Hc) as [_ Hcr]. destruct s as [|d s].
  - cbn [app]. by rewrite Hcr.
  - rewrite IH by done. cbn [app]. rewrite Hcr. destruct (s ++ [line_feed]) eqn:E; done.
Qed.

(** ** One field *)

Lemma char_eqb_refl c : (c ≡c c) = true.
Proof. by apply char_eqb_eq. Qed.

Definition clean (field : bytes) : Prop := all_in printable_byte field.
Lemma scan_double field rest : scan_quoted (double_quotes field ++ quote :: rest) =
  match rest with
  | d :: rest' => if d ≡c quote then scan_quoted (double_quotes field ++ quote :: rest)
                  else if d ≡c comma then QuoteEnd field rest' else if line_over rest then QuoteLast field else QuoteBad
  | [] => QuoteLast field
  end.
Proof.
  unfold double_quotes. induction field as [|c field IH].
  - cbn [flat_map app]. destruct rest as [|d rest]; [done|]. destruct (d ≡c quote) eqn:E; [done|].
    cbn [scan_quoted]. rewrite char_eqb_refl, E. destruct (d ≡c comma); [done|]. by destruct (line_over _).
  - cbn [flat_map]. destruct rest as [|d rest].
    + destruct (c ≡c quote) eqn:Ec.
      * apply char_eqb_eq in Ec as ->. cbn [app scan_quoted]. rewrite !char_eqb_refl, IH. done.
      * cbn [app scan_quoted]. rewrite Ec, IH. done.
    + destruct (d ≡c quote) eqn:Ed; [done|]. destruct (c ≡c quote) eqn:Ec.
      * apply char_eqb_eq in Ec as ->. cbn [app scan_quoted]. rewrite !char_eqb_refl, IH.
        destruct (d ≡c comma); [done|]. by destruct (line_over _).
      * cbn [app scan_quoted]. rewrite Ec, IH. destruct (d ≡c comma); [done|]. by destruct (line_over _).
Qed.

Lemma plain_field_comma field rest : all_in (λ c, negb (c ≡c comma)) field → plain_field (field ++ comma :: rest) = (field, Some rest).
Proof.
  induction field as [|c field IH]; intros Hf; [done|]. apply all_in_inv in Hf as [Hc Hf]. cbn [app plain_field].
  apply negb_true_iff in Hc. rewrite Hc, IH by done. by destruct field.
Qed.
Lemma plain_field_end field : all_in (λ c, negb (c ≡c comma)) field → plain_field (field ++ [line_feed]) = (field, None).
Proof.
  induction field as [|c field IH]; intros Hf; [done|]. apply all_in_inv in Hf as [Hc Hf]. cbn [app plain_field].
  apply negb_true_iff in Hc. rewrite Hc, IH by done. by destruct field.
Qed.
Lemma unquoted_chars field : fieldNeedsQuotes field = false →
  all_in (λ c, negb (c ≡c comma)) field ∧ existsb (λ c, c ≡c quote) field = false ∧ starts_quoted field = false.
Proof.
  destruct field as [|c0 field]; [by intros _; split_and!; [intros ? []|..]|]. unfold fieldNeedsQuotes. rewrite !orb_false_iff. intros [[_ Hq] _].
  assert (Hin : ∀ c, In c (c0 :: field) → (c ≡c comma) = false ∧ (c ≡c quote) = false).
  { intros c Hc. destruct ((c ≡c line_feed) || (c ≡c carriage_return) || (c ≡c quote) || (c ≡c comma)) eqn:E.
    - assert (existsb (λ c, (c ≡c line_feed) || (c ≡c carriage_return) || (c ≡c quote) || (c ≡c comma)) (c0 :: field) = true)
        by (apply existsb_exists; eauto). congruence.
    - rewrite !orb_false_iff in E. tauto. }
  split_and!.
  - intros c Hc. by destruct (Hin c Hc) as [-> _].
  - apply not_true_iff_false. intros (c&Hc&E)%existsb_exists. destruct (Hin c Hc). congruence.
  - simpl. by destruct (Hin c0 (or_introl eq_refl)).
Qed.

(** ** One record *)

(** Reading what [csv_field] writes: the field is found, before a comma and at the
    end of the line. *)
Lemma csv_fields_comma fuel field rest lines :
  csv_fields (S fuel) (csv_field field ++ comma :: rest) lines =
  match csv_fields fuel rest lines with Some (fields, lines) => Some (field :: fields, lines) | None => None end.
Proof.
  unfold csv_field. destruct (fieldNeedsQuotes field) eqn:Hq.
  - cbn [app csv_fields starts_quoted]. rewrite char_eqb_refl. cbn [tail]. rewrite <- app_assoc. cbn [app].
    destruct lines; cbn [quoted_field]; rewrite scan_double; cbn [char_eqb]; done.
  - destruct (unquoted_chars _ Hq) as (Hc&Hn&Hs). cbn [csv_fields].
    assert (starts_quoted (field ++ comma :: rest) = false) as -> by (destruct field; done).
    rewrite plain_field_comma, Hn by done. done.
Qed.
Lemma csv_fields_end fuel field lines : csv_fields (S fuel) (csv_field field ++ [line_feed]) lines = Some ([field], lines).
Proof.
  unfold csv_field. destruct (fieldNeedsQuotes field) eqn:Hq.
  - cbn [app csv_fields starts_quoted]. rewrite char_eqb_refl. cbn [tail]. rewrite <- app_assoc. cbn [app].
    destruct lines; cbn [quoted_field]; rewrite scan_double; done.
  - destruct (unquoted_chars _ Hq) as (Hc&Hn&Hs). cbn [csv_fields].
    assert (starts_quoted (field ++ [line_feed]) = false) as -> by (destruct field; done).
    rewrite plain_field_end, Hn by done. done.
Qed.
Lemma csv_cells_cons field f2 rest : csv_cells (field :: f2 :: rest) = csv_field field ++ comma :: csv_cells (f2 :: rest).
Proof. done. Qed.
Lemma csv_fields_record fields lines : fields ≠ [] → ∀ fuel, (length fields <= fuel)%nat →
  csv_fields fuel (csv_record fields) lines = Some (fields, lines).
Proof.
  unfold csv_record. induction fields as [|field [|f2 fields] IH]; intros Hne fuel Hf; [done|..].
  - destruct fuel; [simpl in Hf; lia|]. apply csv_fields_end.
  - destruct fuel; [simpl in Hf; lia|]. rewrite csv_cells_cons, <- app_assoc. cbn [app]. rewrite csv_fields_comma.
    rewrite IH; [done..|simpl in *; lia].
Qed.

Lemma all_in_flat_map {A} p (f : A → bytes) l : (∀ x, In x l → all_in p (f x)) → all_in p (flat_map f l).
Proof. intros Hf c (x&Hx&Hc)%in_flat_map. by apply (Hf x Hx). Qed.
Lemma double_quotes_clean field : clean field → clean (double_quotes field).
Proof.
  intros Hf. apply all_in_flat_map. intros c Hc. destruct (c ≡c quote); [apply all_in_forallb; reflexivity|]. intros d [<-|[]]. by apply Hf.
Qed.
Lemma csv_field_clean field : clean field → clean (csv_field field).
Proof.
  intros Hf. unfold csv_field. destruct (fieldNeedsQuotes field); [|done]. apply all_in_cons; [done|].
  apply all_in_app; [by apply double_quotes_clean|apply all_in_forallb; reflexivity].
Qed.
Lemma csv_cells_clean fields : Forall clean fields → clean (csv_cells fields).
Proof.
  induction 1 as [|field fields Hf Hfs IH]; [by intros ? []|]. destruct fields as [|f2 fields]; [by apply csv_field_clean|].
  rewrite csv_cells_cons. apply all_in_app; [by apply csv_field_clean|]. by apply all_in_cons.
Qed.
Lemma csv_cells_length f1 f2 fields : (length (f1 :: f2 :: fields) <= S (length (csv_cells (f1 :: f2 :: fields))))%nat.
Proof.
  revert f1 f2. induction fields as [|f3 fields IH]; intros f1 f2; rewrite csv_cells_cons, length_app.
  - simpl. lia.
  - specialize (IH f2 f3). cbn [length] in *. lia.
Qed.

(** A record of at least two clean fields is one line, and reads back as those fields. *)
Lemma record_lines fields rest : Forall clean fields → csv_lines (csv_record fields ++ rest) = csv_record fields :: csv_lines rest.
Proof.
  intros Hf%csv_cells_clean. unfold csv_lines, csv_record. rewrite <- app_assoc. cbn [app]. rewrite raw_lines_first by done.
  cbn [map]. by rewrite normalize_printable.
Qed.
Lemma read_record total f1 f2 fields rest : let row := f1 :: f2 :: fields in
  read_row total (csv_record row :: rest) = CsvRow (Z.of_nat (total - length rest)) row rest.
Proof.
  intros row. cbn [read_row]. pose proof (csv_cells_length f1 f2 fields) as Hl. fold row in Hl.
  assert (line_over (csv_record row) = false) as ->.
  { unfold csv_record. subst row. rewrite csv_cells_cons. destruct (csv_field f1) as [|c1 s1]; [by destruct (csv_cells (f2 :: fields))|].
    destruct s1; [by destruct (csv_cells (f2 :: fields))|done]. }
  rewrite csv_fields_record; [done|done|]. cbn [concat]. rewrite length_app. unfold csv_record. rewrite length_app. lia.
Qed.

(** ** Cells: spaces and UTF-8 survive the escapes *)

Definition high (c : ascii) : Prop := 0x80 <= byte c.
(** A text that begins like no space, or not at all. *)
Definition plain_head (s : bytes) : Prop := match s with [] => True | c :: _ => byte c < 0x80 ∧ ascii_space c = false end.
Definition starts_by (pair : ascii → ascii → bool) (triple : ascii → ascii → ascii → bool) (s : bytes) : bool :=
  match s with
  | c :: d :: e :: _ => ascii_space c || pair c d || triple c d e
  | [c; d] => ascii_space c || pair c d
  | [c] => ascii_space c
  | [] => false
  end.

Section Escapes.
Variables (pair : ascii → ascii → bool) (triple : ascii → ascii → ascii → bool) (g : ascii → bytes).
Hypothesis pair_high : ∀ c d, pair c d = true → high c ∧ high d.
Hypothesis triple_high : ∀ c d e, triple c d e = true → high c ∧ high d ∧ high e.
Hypothesis g_plain : ∀ c, g c = [c] ∨ (g c ≠ [] ∧ plain_head (g c)).

Lemma low_pair c d : byte c < 0x80 ∨ byte d < 0x80 → pair c d = false.
Proof. intros Hl. apply not_true_iff_false. intros [Hc Hd]%pair_high. unfold high in *. lia. Qed.
Lemma low_triple c d e : byte c < 0x80 ∨ byte d < 0x80 ∨ byte e < 0x80 → triple c d e = false.
Proof. intros Hl. apply not_true_iff_false. intros (Hc&Hd&He)%triple_high. unfold high in *. lia. Qed.
Lemma starts_low s : plain_head s → starts_by pair triple s = false.
Proof.
  destruct s as [|c [|d [|e s]]]; [done|..]; intros [Hc Hs]; cbn [starts_by]; rewrite Hs, ?low_pair, ?low_triple by tauto; done.
Qed.
Lemma starts_low2 c s : ascii_space c = false → plain_head s → starts_by pair triple (c :: s) = false.
Proof.
  intros Hc. destruct s as [|d [|e s]]; [done|..]; intros [Hd Hs]; cbn [starts_by]; rewrite Hc, ?low_pair, ?low_triple by tauto; done.
Qed.
Lemma starts_low3 c d s : ascii_space c = false → pair c d = false → plain_head s → starts_by pair triple (c :: d :: s) = false.
Proof.
  intros Hc Hp. destruct s as [|e s]; [by cbn; rewrite Hc, Hp|]. intros [He Hs]. cbn [starts_by]. rewrite Hc, Hp, low_triple by tauto. done.
Qed.
Lemma plain_head_app s t : s ≠ [] → plain_head s → plain_head (s ++ t).
Proof. by destruct s. Qed.
Lemma starts_escaped v rest : plain_head rest → starts_by pair triple v = false → starts_by pair triple (flat_map g v ++ rest) = false.
Proof.
  intros Hr Hv. destruct v as [|c v]; [by apply starts_low|]. cbn [flat_map]. rewrite <- app_assoc.
  destruct (g_plain c) as [->|[Hn Hp]]; [|by apply starts_low, plain_head_app]. cbn [app].
  assert (Hc : ascii_space c = false) by (destruct v as [|d [|e v]]; cbn in Hv; rewrite ?orb_false_iff in Hv; tauto).
  destruct v as [|d v]; [by apply starts_low2|]. cbn [flat_map]. rewrite <- app_assoc.
  destruct (g_plain d) as [->|[Hn Hp]]; [|by apply starts_low2, plain_head_app]. cbn [app].
  assert (Hd : pair c d = false) by (destruct v as [|e v]; cbn in Hv; rewrite ?orb_false_iff in Hv; tauto).
  destruct v as [|e v]; [by apply starts_low3|]. cbn [flat_map]. rewrite <- app_assoc.
  destruct (g_plain e) as [->|[Hn Hp]]; [|by apply starts_low3, plain_head_app]. exact Hv.
Qed.
End Escapes.

Lemma space_pair_high c d : space_pair c d = true → high c ∧ high d.
Proof. unfold space_pair, high. rewrite andb_true_iff, orb_true_iff, !Z.eqb_eq. lia. Qed.
Lemma space_triple_high c d e : space_triple c d e = true → high c ∧ high d ∧ high e.
Proof. unfold space_triple, high. rewrite !orb_true_iff, !andb_true_iff, !orb_true_iff, !andb_true_iff, !Z.eqb_eq, !Z.leb_le. lia. Qed.

Lemma trim_space_fixed s : starts_with_space s = false → ends_reversed (rev s) = false → trim_space s = s.
Proof. intros Hs He. unfold trim_space. rewrite trim_left_fixed by done. rewrite trim_end_fixed by done. apply rev_involutive. Qed.
Lemma trimmed_ends s : trim_space s = s → starts_with_space s = false ∧ ends_reversed (rev s) = false.
Proof.
  intros Ht. destruct (trim_left_spec s) as [Hs [x Hx]]. destruct (trim_end_spec (rev (trim_left s))) as [He [y Hy]]. unfold trim_space in Ht.
  assert (Hl : (length x = 0 ∧ length y = 0)%nat).
  { pose proof (f_equal length Hx) as L1. pose proof (f_equal length Hy) as L2. pose proof (f_equal length Ht) as L3.
    rewrite length_app in L1, L2. rewrite length_rev in L2, L3. lia. }
  destruct x, y; simpl in Hl; try lia. simpl in Hx, Hy. rewrite <- Hx in *. split; [done|]. by rewrite Hy.
Qed.

Definition escaped_byte (c : ascii) : bytes := if (c ≡c backslash) || (c ≡c semicolon) then [backslash; c] else [c].
Definition escaped_back (c : ascii) : bytes := if (c ≡c backslash) || (c ≡c semicolon) then [c; backslash] else [c].
Lemma escaped_byte_plain c : escaped_byte c = [c] ∨ (escaped_byte c ≠ [] ∧ plain_head (escaped_byte c)).
Proof. unfold escaped_byte. destruct (_ || _); [by right|by left]. Qed.
Lemma escaped_back_plain c : escaped_back c = [c] ∨ (escaped_back c ≠ [] ∧ plain_head (escaped_back c)).
Proof.
  unfold escaped_back. destruct (_ || _) eqn:E; [right|by left]. split; [done|]. apply orb_true_iff in E. rewrite !char_eqb_eq in E.
  by destruct E as [->| ->].
Qed.
Lemma rev_escape_item v : rev (escape_item v) = flat_map escaped_back (rev v).
Proof.
  unfold escape_item. induction v as [|c v IH]; [done|]. cbn [flat_map rev]. rewrite flat_map_app, <- IH, rev_app_distr. f_equal.
  cbn [flat_map]. unfold escaped_back. by destruct (_ || _).
Qed.
Lemma join_items_ends values : values ≠ [] → ∃ v rest, In v values ∧ rev (join_items values) = rev (escape_item v) ++ rest ∧ plain_head rest.
Proof.
  induction values as [|v [|v2 values] IH]; intros Hne; [done|..].
  - exists v, []. rewrite app_nil_r. split; [by left|done].
  - destruct IH as (w&rest&Hw&He&Hp); [done|]. exists w, (rest ++ semicolon :: rev (escape_item v)). split; [by right|].
    change (join_items (v :: v2 :: values)) with (escape_item v ++ semicolon :: join_items (v2 :: values)).
    rewrite rev_app_distr. cbn [rev]. rewrite He, <- !app_assoc. split; [done|]. destruct rest; [done|exact Hp].
Qed.
Lemma join_items_head v values : ∃ rest, join_items (v :: values) = escape_item v ++ rest ∧ plain_head rest.
Proof. destruct values as [|v2 values]; [exists []; by rewrite app_nil_r|]. by eexists (semicolon :: _). Qed.
Lemma join_items_trimmed values : (∀ v, In v values → trim_space v = v) → trim_space (join_items values) = join_items values.
Proof.
  destruct values as [|v values]; intros Hv; [done|]. apply trim_space_fixed.
  - destruct (join_items_head v values) as (rest&->&Hr).
    apply (starts_escaped space_pair space_triple escaped_byte space_pair_high space_triple_high escaped_byte_plain _ _ Hr).
    by apply trimmed_ends, Hv; left.
  - destruct (join_items_ends (v :: values)) as (w&rest&Hw&->&Hr); [done|]. rewrite rev_escape_item.
    apply (starts_escaped (λ e d, space_pair d e) (λ e d c, space_triple c d e) escaped_back); [| |apply escaped_back_plain|done|].
    + intros c d Hp%space_pair_high. tauto.
    + intros c d e Hp%space_triple_high. tauto.
    + by apply trimmed_ends, Hv.
Qed.

Section Utf8.
Variable g : ascii → bytes.
Hypothesis g_high : ∀ c, high c → g c = [c].
Hypothesis g_low : ∀ c, byte c < 0x80 → valid_utf8 (g c) = true.
Lemma tail_byte_high c : tail_byte c = true → high c.
Proof. unfold tail_byte, high. rewrite andb_true_iff, !Z.leb_le. lia. Qed.
Lemma utf8_flat_map_length n : ∀ s, (length s <= n)%nat → valid_utf8 s = true → valid_utf8 (flat_map g s) = true.
Proof.
  induction n as [|n IH]; intros [|c0 s] Hl Hs; simpl in Hl; try done; [lia|]. cbn [flat_map valid_utf8] in *.
  destruct (Z.ltb_spec (byte c0) 0x80) as [H0|H0]; [rewrite valid_utf8_app by auto; apply IH; [lia|done]|].
  rewrite (g_high c0) by done. cbn [app valid_utf8]. rewrite (proj2 (Z.ltb_ge _ _)) by done. destruct s as [|c1 s]; [done|]. simpl in Hl. cbn [flat_map].
  destruct (_ && _) eqn:E1 in Hs.
  { apply andb_true_iff in Hs as [T1 Hs]. rewrite (g_high c1) by by apply tail_byte_high. cbn [app]. rewrite E1, T1. cbn [andb]. apply IH; [lia|done]. }
  destruct s as [|c2 s]; [done|]. simpl in Hl. cbn [flat_map]. destruct (_ && _) eqn:E2 in Hs.
  { rewrite !andb_true_iff in Hs. destruct Hs as [[[[T1 T2] E3] E4] Hs]. rewrite (g_high c1), (g_high c2) by by apply tail_byte_high.
    cbn [app]. rewrite E1, E2, T1, T2, E3, E4. cbn [andb]. apply IH; [lia|done]. }
  destruct s as [|c3 s]; [done|]. simpl in Hl. cbn [flat_map].
  rewrite !andb_true_iff in Hs. destruct Hs as [[[[[[[E3 E4] T1] T2] T3] E5] E6] Hs].
  rewrite (g_high c1), (g_high c2), (g_high c3) by by apply tail_byte_high.
  cbn [app]. rewrite E1, E2, E3, E4, T1, T2, T3, E5, E6. cbn [andb]. apply IH; [lia|done].
Qed.
Lemma utf8_flat_map s : valid_utf8 s = true → valid_utf8 (flat_map g s) = true.
Proof. by apply (utf8_flat_map_length (length s)). Qed.
End Utf8.

Lemma high_not c d : high c → byte d < 0x80 → (c ≡c d) = false.
Proof. intros Hc Hd. apply not_true_iff_false. intros ->%char_eqb_eq. unfold high in Hc. lia. Qed.
Lemma low_utf8 c s : byte c < 0x80 → valid_utf8 (c :: s) = valid_utf8 s.
Proof. intros Hc. cbn [valid_utf8]. by rewrite (proj2 (Z.ltb_lt _ _)). Qed.
Lemma escape_item_utf8 v : valid_utf8 v = true → valid_utf8 (escape_item v) = true.
Proof.
  apply utf8_flat_map; intros c Hc; [by rewrite !high_not|]. destruct (_ || _); by rewrite !low_utf8.
Qed.
Lemma double_quotes_utf8 v : valid_utf8 v = true → valid_utf8 (double_quotes v) = true.
Proof.
  apply utf8_flat_map; intros c Hc; [by rewrite !high_not|]. destruct (_ ≡c _); by rewrite !low_utf8.
Qed.
Lemma join_items_utf8 values : Forall (λ v, valid_utf8 v = true) values → valid_utf8 (join_items values) = true.
Proof.
  induction 1 as [|v values Hv Hvs IH]; [done|]. destruct values as [|v2 values]; [by apply escape_item_utf8|].
  change (valid_utf8 (escape_item v ++ semicolon :: join_items (v2 :: values)) = true). rewrite valid_utf8_app by by apply escape_item_utf8.
  by rewrite low_utf8.
Qed.
Lemma csv_field_utf8 v : valid_utf8 v = true → valid_utf8 (csv_field v) = true.
Proof.
  intros Hv. unfold csv_field. destruct (fieldNeedsQuotes v); [|done]. rewrite low_utf8 by done.
  by rewrite valid_utf8_app by by apply double_quotes_utf8.
Qed.
Lemma csv_record_utf8 fields rest : Forall (λ v, valid_utf8 v = true) fields → valid_utf8 (csv_record fields ++ rest) = valid_utf8 rest.
Proof.
  intros Hf. unfold csv_record. rewrite <- app_assoc. rewrite valid_utf8_app; [by cbn [app]; rewrite low_utf8|].
  induction Hf as [|v fields Hv Hf IH]; [done|]. destruct fields as [|v2 fields]; [by apply csv_field_utf8|].
  rewrite csv_cells_cons, valid_utf8_app by by apply csv_field_utf8. by rewrite low_utf8.
Qed.

(** ** Cells: protection and lists *)

Lemma unprotect_protect v : unprotectCell (protectCell v) = v.
Proof.
  destruct v as [|c v]; [done|]. cbn [protectCell]. destruct (_ || _) eqn:E.
  - cbn [unprotectCell]. rewrite char_eqb_refl, E. done.
  - apply orb_false_iff in E as [E _]. cbn [unprotectCell]. destruct v; [done|]. by rewrite E.
Qed.
(** A written cell never begins like a formula. *)
Definition not_formula (cell : bytes) : Prop := match cell with [] => True | c :: _ => formulaTrigger c = false end.
Lemma protect_not_formula v : not_formula (protectCell v).
Proof. destruct v as [|c v]; [done|]. cbn [protectCell]. destruct (_ || _) eqn:E; [done|]. apply orb_false_iff in E. by destruct E. Qed.
Lemma protect_clean v : clean v → clean (protectCell v).
Proof. destruct v as [|c v]; [done|]. cbn [protectCell]. intros Hv. destruct (_ || _); [|done]. by apply all_in_cons. Qed.
Lemma protect_utf8 v : valid_utf8 v = true → valid_utf8 (protectCell v) = true.
Proof. destruct v as [|c v]; [done|]. cbn [protectCell]. intros Hv. destruct (_ || _); [by rewrite low_utf8|done]. Qed.
Lemma escape_item_clean v : clean v → clean (escape_item v).
Proof.
  intros Hv. apply all_in_flat_map. intros c Hc. specialize (Hv c Hc). destruct (_ || _); repeat apply all_in_cons; try done; apply all_in_nil.
Qed.
Lemma join_items_clean values : Forall clean values → clean (join_items values).
Proof.
  induction 1 as [|v values Hv Hvs IH]; [by intros ? []|]. destruct values as [|v2 values]; [by apply escape_item_clean|].
  change (clean (escape_item v ++ semicolon :: join_items (v2 :: values))). apply all_in_app; [by apply escape_item_clean|].
  by apply all_in_cons.
Qed.

Lemma split_escaped v rest item parts : split_items (escape_item v ++ rest) item false parts = split_items rest (item ++ v) false parts.
Proof.
  revert item. unfold escape_item. induction v as [|c v IH]; intros item; [by rewrite app_nil_r|]. cbn [flat_map].
  rewrite <- app_assoc. destruct ((c ≡c backslash) || (c ≡c semicolon)) eqn:E.
  - cbn [app split_items]. rewrite char_eqb_refl. rewrite (orb_comm (c ≡c semicolon)), E, IH, <- app_assoc. done.
  - apply orb_false_iff in E as [E1 E2]. cbn [app split_items]. rewrite E1, E2, IH, <- app_assoc. done.
Qed.
Lemma split_joined values parts : values ≠ [] → (∀ v, In v values → trim_space (b v) = b v ∧ v ≠ "") →
  split_items (encodeList values) [] false parts = Some (parts ++ values).
Proof.
  unfold encodeList. revert parts. induction values as [|v values IH]; intros parts Hne Hv; [done|].
  destruct (Hv v (or_introl eq_refl)) as [Ht Hn].
  assert (Ha : append_item (b v) parts = Some (parts ++ [v])).
  { unfold append_item. rewrite Ht, str_b. destruct (b v) eqn:E; [|done]. exfalso. apply Hn. by rewrite <- (str_b v), E. }
  destruct values as [|v2 values].
  - change (join_items (map b [v])) with (escape_item (b v)). rewrite <- (app_nil_r (escape_item _)), split_escaped. exact Ha.
  - change (join_items (map b (v :: v2 :: values))) with (escape_item (b v) ++ semicolon :: join_items (map b (v2 :: values))).
    rewrite split_escaped. cbn [app split_items]. change (semicolon ≡c backslash) with false. rewrite char_eqb_refl, Ha.
    rewrite IH; [by rewrite <- app_assoc|done|]. intros w Hw. apply Hv. by right.
Qed.

(** ** Normalized profiles in cells *)

Definition plain_cell (s : bytes) : Prop := trim_space s = s ∧ valid_utf8 s = true ∧ clean s.
Lemma url_plain_cell s : all_in url_char s → plain_cell s.
Proof. intros Hs. destruct (url_plain s Hs) as [Hu Hc]. split_and!; [by apply url_trimmed|done|by apply no_control]. Qed.
Lemma empty_cell : plain_cell [].
Proof. split_and!; [done|done|by intros ? []]. Qed.
Lemma text_plain m v : normalizeProfileText v m = Ok v → plain_cell (b v).
Proof.
  unfold normalizeProfileText. destruct (trim_space (b v)) as [|c s] eqn:E; [intros [= <-]; apply empty_cell|].
  destruct (_ || _ || _) eqn:Ec; [done|]. intros [= Hv]. rewrite !orb_false_iff, negb_false_iff in Ec. destruct Ec as [[Hu _] Hc].
  assert (Hb : b v = c :: s) by (rewrite <- Hv; exact (b_str (c :: s))). rewrite Hb in *. split_and!; [done|done|by apply no_control].
Qed.
Lemma token_char_plain c : token_alnum c || token_punct c = true → ascii_space c = false ∧ (byte c <? 128) = true.
Proof. revert c. each_byte. Qed.
Lemma token_chars first value : token_loop (λ first c, token_alnum c || (negb first && token_punct c)) first value = true →
  ∀ c, In c (b value) → ascii_space c = false ∧ (byte c <? 128) = true.
Proof.
  revert first. induction value as [|d value IH]; intros first Hv c; [intros []|]. cbn [token_loop] in Hv. apply andb_true_iff in Hv as [Hd Hv].
  intros [<-|Hc]; [|by eapply IH]. apply token_char_plain. apply orb_true_iff in Hd as [->|Hd]; [done|].
  apply andb_true_iff in Hd as [_ ->]. by rewrite orb_true_r.
Qed.
Lemma label_trimmed label : ValidDiscoverySourceLabel label = true → str (trim_space (b label)) = label.
Proof.
  unfold ValidDiscoverySourceLabel. destruct (String.eqb_spec label "") as [->|]; [done|]. destruct (_ <? _); [done|]. intros Ht.
  assert (trim_space (b label) = b label) as ->; [|apply str_b].
  assert (Hs : surrounded_by_space (b label) = false) by (apply plain_not_surrounded; by eapply token_chars).
  unfold surrounded_by_space in Hs. apply orb_false_iff in Hs as [Hs He]. apply trim_space_fixed; [done|].
  unfold ends_with_space in He. unfold ends_reversed. destruct (rev (b label)) as [|e [|d [|c r]]]; done.
Qed.

Section RoundTrip.
Context `{RelayIdentity} `{!CanonicalURLs}.

Lemma actor_plain_cell a : canonical_actor a = true → plain_cell (b a).
Proof.
  unfold canonical_actor. destruct (norm_actor a) as [a'|] eqn:E; [|done]. intros ->%String.eqb_eq. by apply url_plain_cell, (norm_actor_chars a a).
Qed.
Lemma field_plain f v : text_norm f v = Ok v → plain_cell (b v).
Proof.
  assert (Hurl : optional_url v = Ok v → plain_cell (b v)).
  { unfold optional_url, normalizeProfileHTTPSURL. destruct (String.eqb_spec v "") as [->|]; [intros _; apply empty_cell|].
    destruct (_ || _ || _ || _); [done|]. destruct (norm_actor (str (trim_space (b v)))) as [a|] eqn:Ha; [|done]. destruct (_ <? _); [done|].
    intros [= ->]. by apply url_plain_cell, (norm_actor_chars _ _ Ha). }
  destruct f; cbn [text_norm]; eauto using text_plain.
  unfold normalizeProfileEmail. destruct (trim_space (b v)) as [|c s] eqn:E; [intros [= <-]; apply empty_cell|].
  destruct (_ || _ || _) eqn:Ec; [done|]. destruct (_ || _) in |- *; [done|]. intros [= Hv]. rewrite !orb_false_iff, negb_false_iff in Ec. destruct Ec as [[Hu _] Hc].
  assert (Hb : b v = c :: s) by (rewrite <- Hv; exact (b_str (c :: s))). rewrite Hb in *. split_and!; [done|done|by apply no_control].
Qed.
Lemma list_plain l : normalizeProfileList l = Ok l → (∀ v, In v l → plain_cell (b v) ∧ v ≠ "") ∧ plain_cell (encodeList l).
Proof.
  intros (_&_&Hin)%normalizeProfileList_spec.
  assert (Hv : ∀ v, In v l → plain_cell (b v) ∧ v ≠ "") by (intros v Hv; destruct (Hin v Hv); split; [by eapply text_plain|done]).
  split; [done|]. unfold encodeList. split_and!.
  - apply join_items_trimmed. intros v (w&<-&Hw)%in_map_iff. by apply Hv.
  - apply join_items_utf8, Forall_forall. intros v (w&<-&Hw)%in_map_iff. by apply Hv.
  - apply join_items_clean, Forall_forall. intros v (w&<-&Hw)%in_map_iff. by apply Hv.
Qed.
Lemma decode_encoded_list l : normalizeProfileList l = Ok l → decodeList (encodeList l) = Some l.
Proof.
  intros Hl. destruct (list_plain l Hl) as [Hv _]. destruct l as [|v l]; [done|]. unfold decodeList.
  destruct (encodeList (v :: l)) as [|c s] eqn:E.
  - destruct (join_items_head (b v) (map b l)) as (rest&Hj&_). change (join_items (b v :: map b l)) with (encodeList (v :: l)) in Hj.
    rewrite Hj in E. apply app_eq_nil in E as [E _]. destruct (Hv v (or_introl eq_refl)) as [_ Hn]. destruct v as [|d v]; [done|].
    unfold escape_item in E. cbn in E. by destruct (_ || _).
  - rewrite <- E, split_joined; [|done|intros w Hw; destruct (Hv w Hw) as [(?&_) ?]; by split]. cbn [app].
    unfold NormalizeRelayProfile. cbn [ParticipationMode Availability RelayType Languages Countries Regions Topics ContactFediverse ContactEmail
      ContactURL ParticipationURL Notes]. rewrite Hl. done.
Qed.

Definition export_indexes : list (string * nat) := combine exportHeaders (seq 0 13).
Lemma decode_exported label line relay p : ValidDiscoverySourceLabel label = true → label ≠ "" → ValidProfileRelayActor relay = true →
  profile_fixed p → decode_row label export_indexes line (export_cells relay p) = Some (CsvProfile line relay p "").
Proof.
  intros Hlabel Hne Hrelay Hp. unfold ValidProfileRelayActor in Hrelay. destruct (String.eqb_spec relay "") as [|Hr]; [done|].
  apply actor_plain_cell in Hrelay as [Hrt _]. pose proof Hp as [Ht Hl]%NormalizeRelayProfile_fields.
  assert (Htext : ∀ f, MultiValue f = false → trim_space (unprotectCell (protectCell (b (text_of p f)))) = b (text_of p f)).
  { intros f Hf. rewrite unprotect_protect. by destruct (field_plain f _ (Ht f Hf)). }
  assert (Hlist : ∀ f, MultiValue f = true → decodeList (trim_space (unprotectCell (protectCell (encodeList (list_of p f))))) = Some (list_of p f)).
  { intros f Hf. rewrite unprotect_protect. destruct (list_plain _ (Hl f Hf)) as [_ (->&_)]. by apply decode_encoded_list, Hl. }
  unfold decode_row, cell_of, export_cells, export_indexes. cbn [column combine exportHeaders importHeaders removelast seq map nth String.eqb Ascii.eqb Bool.eqb].
  rewrite unprotect_protect, Hrt, !str_b, (proj2 (String.eqb_neq _ _)) by done.
  rewrite (Hlist ProfileFieldLanguages eq_refl : decodeList (trim_space (unprotectCell (protectCell (encodeList (Languages p))))) = Some (Languages p)),
    (Hlist ProfileFieldCountries eq_refl : decodeList (trim_space (unprotectCell (protectCell (encodeList (Countries p))))) = Some (Countries p)),
    (Hlist ProfileFieldRegions eq_refl : decodeList (trim_space (unprotectCell (protectCell (encodeList (Regions p))))) = Some (Regions p)),
    (Hlist ProfileFieldTopics eq_refl : decodeList (trim_space (unprotectCell (protectCell (encodeList (Topics p))))) = Some (Topics p)). cbn [mbind option_bind].
  rewrite (Htext ProfileFieldParticipationMode eq_refl : trim_space (unprotectCell (protectCell (b (ParticipationMode p)))) = b (ParticipationMode p)),
    (Htext ProfileFieldAvailability eq_refl : trim_space (unprotectCell (protectCell (b (Availability p)))) = b (Availability p)),
    (Htext ProfileFieldRelayType eq_refl : trim_space (unprotectCell (protectCell (b (RelayType p)))) = b (RelayType p)),
    (Htext ProfileFieldContactFediverse eq_refl : trim_space (unprotectCell (protectCell (b (ContactFediverse p)))) = b (ContactFediverse p)),
    (Htext ProfileFieldContactEmail eq_refl : trim_space (unprotectCell (protectCell (b (ContactEmail p)))) = b (ContactEmail p)),
    (Htext ProfileFieldContactURL eq_refl : trim_space (unprotectCell (protectCell (b (ContactURL p)))) = b (ContactURL p)),
    (Htext ProfileFieldParticipationURL eq_refl : trim_space (unprotectCell (protectCell (b (ParticipationURL p)))) = b (ParticipationURL p)),
    (Htext ProfileFieldNotes eq_refl : trim_space (unprotectCell (protectCell (b (Notes p)))) = b (Notes p)).
  rewrite !str_b.
  assert (RelayProfileOf (ParticipationMode p) (Availability p) (RelayType p) (Languages p) (Countries p) (Regions p) (Topics p)
    (ContactFediverse p) (ContactEmail p) (ContactURL p) (ParticipationURL p) (Notes p) = p) as -> by by destruct p.
  rewrite Hp. unfold NormalizeProfileSource. cbn [Kind SourceLabel SourceURL]. rewrite label_trimmed, Hlabel by done.
  rewrite (proj2 (String.eqb_neq label "")) by done. done.
Qed.
End RoundTrip.

(** ** Whole documents *)

Section WholeDocuments.
Context `{RelayIdentity} `{!CanonicalURLs}.

(** What an exported record reads back as: its profile normalized, numbered by its line. *)
Definition read_back (line : Z) (record : csv_profile) : csv_profile :=
  CsvProfile line (csv_Relay record) (match NormalizeRelayProfile (csv_Profile record) with Ok p => p | Err _ => csv_Profile record end) "".
Fixpoint read_back_from (line : Z) (records : list csv_profile) : list csv_profile :=
  match records with
  | [] => []
  | record :: rest => read_back line record :: read_back_from (line + 1) rest
  end.
(** The records the encoder accepts, each with its normal form. *)
Definition exportable (record : csv_profile) (p : profile) : Prop :=
  ValidProfileRelayActor (csv_Relay record) = true ∧ NormalizeRelayProfile (csv_Profile record) = Ok p.

Lemma exported_cells_plain relay p : ValidProfileRelayActor relay = true → profile_fixed p →
  Forall (λ cell, clean cell ∧ valid_utf8 cell = true) (export_cells relay p).
Proof.
  intros Hrelay [Ht Hl]%NormalizeRelayProfile_fields. unfold ValidProfileRelayActor in Hrelay. destruct (relay ≟ ""); [done|].
  assert (Hcell : ∀ cell, plain_cell cell → clean (protectCell cell) ∧ valid_utf8 (protectCell cell) = true).
  { intros cell (_&Hu&Hc). split; [by apply protect_clean|by apply protect_utf8]. }
  assert (Htext : ∀ f, MultiValue f = false → plain_cell (b (text_of p f))) by (intros f Hf; by eapply field_plain, Ht).
  assert (Hlist : ∀ f, MultiValue f = true → plain_cell (encodeList (list_of p f))) by (intros f Hf; by apply list_plain, Hl).
  unfold export_cells. cbn [map].
  repeat (apply Forall_cons_2; [apply Hcell|]); [by apply actor_plain_cell|..|apply Forall_nil_2].
  - exact (Htext ProfileFieldParticipationMode eq_refl).
  - exact (Htext ProfileFieldAvailability eq_refl).
  - exact (Htext ProfileFieldRelayType eq_refl).
  - exact (Hlist ProfileFieldLanguages eq_refl).
  - exact (Hlist ProfileFieldCountries eq_refl).
  - exact (Hlist ProfileFieldRegions eq_refl).
  - exact (Hlist ProfileFieldTopics eq_refl).
  - exact (Htext ProfileFieldContactFediverse eq_refl).
  - exact (Htext ProfileFieldContactEmail eq_refl).
  - exact (Htext ProfileFieldContactURL eq_refl).
  - exact (Htext ProfileFieldParticipationURL eq_refl).
  - exact (Htext ProfileFieldNotes eq_refl).
Qed.
(** The lines and the encoding of the rows of a document. *)
Lemma encode_rows_lines records rows : encode_rows records = Some rows →
  valid_utf8 rows = true ∧ ∃ profiles, Forall2 exportable records profiles ∧
    csv_lines rows = zip_with (λ record p, csv_record (export_cells (csv_Relay record) p)) records profiles.
Proof.
  revert rows. induction records as [|record records IH]; intros rows Hr; cbn [encode_rows] in Hr.
  - injection Hr as <-. split; [done|]. exists []. by split.
  - destruct (ValidProfileRelayActor (csv_Relay record)) eqn:Hv; [|done]. cbn [negb] in Hr.
    destruct (NormalizeRelayProfile (csv_Profile record)) as [p|] eqn:Hp; [|done]. destruct (encode_rows records) as [more|]; [|done].
    injection Hr as <-. destruct (IH more eq_refl) as (Hu&profiles&Hf&Hl).
    pose proof (exported_cells_plain _ p Hv (NormalizeRelayProfile_fixed _ _ Hp)) as Hcells. 
    assert (Hc : Forall clean (export_cells (csv_Relay record) p)) by (eapply Forall_impl; [|exact Hcells]; by intros ? []).
    assert (Hcu : Forall (λ v, valid_utf8 v = true) (export_cells (csv_Relay record) p)) by (eapply Forall_impl; [|exact Hcells]; by intros ? []). split.
    + by rewrite csv_record_utf8.
    + exists (p :: profiles). split; [by constructor|]. rewrite record_lines by done. cbn [zip_with]. by rewrite Hl.
Qed.
Lemma decode_rows_exported label maximum total : ValidDiscoverySourceLabel label = true → label ≠ "" →
  ∀ records profiles done fuel, Forall2 exportable records profiles → (length records < fuel)%nat → (length records <= total)%nat →
  Z.of_nat (length done) + Z.of_nat (length records) ≤ maximum →
  decode_rows fuel label maximum 13 export_indexes total
    (zip_with (λ record p, csv_record (export_cells (csv_Relay record) p)) records profiles) done =
  Some (done ++ read_back_from (Z.of_nat total - Z.of_nat (length records) + 1) records).
Proof.
  intros Hlabel Hne. induction records as [|record records IH]; intros profiles done fuel Hf Hfuel Htotal Hmax.
  - destruct fuel; [simpl in Hfuel; lia|]. inversion Hf; subst. cbn [zip_with decode_rows read_row read_back_from]. by rewrite app_nil_r.
  - inversion Hf as [|? p ? profiles' [Hv Hp] Hrest]; subst. destruct fuel as [|fuel]; [simpl in Hfuel; lia|].
    cbn [zip_with decode_rows]. unfold export_cells at 1. cbn [map]. rewrite read_record.
    match goal with |- context [zip_with ?f records profiles'] => assert (length (zip_with f records profiles') = length records) as Hlen end.
    { rewrite length_zip_with. apply Forall2_length in Hrest. lia. }
    rewrite Hlen. fold (export_cells (csv_Relay record) p).
    assert ((maximum <=? Z.of_nat (length done)) = false) as -> by (apply Z.leb_gt; simpl in Hmax; lia).
    cbn [export_cells length Nat.eqb map negb orb].
    match goal with |- context [decode_row label export_indexes ?line ?row] => change row with (export_cells (csv_Relay record) p) end.
    rewrite decode_exported; [|done|done|done|by eapply NormalizeRelayProfile_fixed].
    rewrite IH; [|done|simpl in Hfuel; lia|simpl in Htotal; lia|rewrite length_app; simpl in Hmax |- *; lia].
    rewrite <- app_assoc. cbn [app read_back_from]. do 2 f_equal. simpl in Htotal.
    f_equal; [unfold read_back; rewrite Hp; f_equal; lia|]. f_equal. simpl. lia.
Qed.

Lemma encoded_document records body label maximum : Encode records = Some body → records ≠ [] → Z.of_nat (length records) ≤ maximum →
  ValidDiscoverySourceLabel label = true → label ≠ "" →
  Decode body label maximum = Some (read_back_from 2 records) ∧
  ∃ rows, csv_lines body = map csv_record (map b exportHeaders :: rows) ∧ ∀ row cell, In row rows → In cell row → not_formula cell.
Proof.
  unfold Encode. destruct (encode_rows records) as [rows|] eqn:Hr; [|done]. intros Hb Hne Hmax Hlabel Hl. assert (body = csv_record (map b exportHeaders) ++ rows) as -> by congruence.
  destruct (encode_rows_lines _ _ Hr) as (Hu&profiles&Hf&Hlines).
  assert (Hlen : length (csv_lines rows) = length records).
  { rewrite Hlines, length_zip_with. apply Forall2_length in Hf. lia. }
  assert (Hall : csv_lines (csv_record (map b exportHeaders) ++ rows) = csv_record (map b exportHeaders) :: csv_lines rows).
  { apply record_lines. repeat (apply Forall_cons_2; [apply all_in_forallb; reflexivity|]). apply Forall_nil_2. }
  split.
  - unfold Decode. rewrite Hall. rewrite csv_record_utf8, Hu, Hlabel by (repeat (apply Forall_cons_2; [reflexivity|]); apply Forall_nil_2).
    rewrite (proj2 (String.eqb_neq label "")), (proj2 (Z.leb_gt maximum 0)) by (done || (destruct records; [done|simpl in Hmax; lia])).
    cbn [map exportHeaders importHeaders removelast]. rewrite read_record.
    assert (header_indexes (map b exportHeaders) 0 [] = Some export_indexes) as Hidx by (vm_compute; reflexivity).
    cbn [map exportHeaders importHeaders removelast] in Hidx. rewrite Hidx.
    match goal with |- context [bytes_eqb ?x []] => assert (bytes_eqb x [] = false) as -> by reflexivity end.
    cbn [length negb orb mbind option_bind]. rewrite Hlen, Hlines.
    rewrite (decode_rows_exported label maximum _ Hlabel Hl records profiles [] _ Hf) by (cbn [length]; lia).
    destruct records as [|record records]; [done|]. cbn [app read_back_from]. do 2 f_equal; f_equal; cbn [length]; lia.
  - exists (zip_with (λ record p, export_cells (csv_Relay record) p) records profiles). split.
    + rewrite Hall, Hlines. cbn [map]. f_equal. clear. revert profiles. induction records as [|record records IH]; intros [|p profiles]; [done..|].
      cbn [zip_with map]. by rewrite IH.
    + intros row cell Hrow Hcell. clear -Hrow Hcell. revert profiles Hrow.
      induction records as [|record records IH]; intros [|p profiles] Hrow; [destruct Hrow..|]. destruct Hrow as [<-|Hrow]; [|by eapply IH].
      unfold export_cells in Hcell. apply in_map_iff in Hcell as (v&<-&_). apply protect_not_formula.
Qed.

(** C38: Exported profiles are read back: the import of an exported document, under
    any label and with room for its rows, returns every record in order, numbered by
    its line, with the same relay and its profile normalized; and no cell of the
    document is one a spreadsheet takes for a formula. *)
Theorem csv_roundtrip records body label maximum : Encode records = Some body → records ≠ [] → Z.of_nat (length records) ≤ maximum →
  ValidDiscoverySourceLabel label = true → label ≠ "" →
  Decode body label maximum = Some (read_back_from 2 records) ∧
  ∃ rows, csv_lines body = map csv_record (map b exportHeaders :: rows) ∧ ∀ row cell, In row rows → In cell row → not_formula cell.
Proof. apply encoded_document. Qed.
End WholeDocuments.

(** ** One exported relay *)

Definition exported_profile : profile :=
  RelayProfileOf "open" "public" "" ["de"; "en"] [] ["Europe; West"] ["=news"] "@relay@example.org" "" "https://relay.example/contact" "" "a, b".
Definition exported_record : csv_profile := CsvProfile 0 "https://relay.example/actor" exported_profile "".
Lemma csv_roundtrip_witness : ∃ body, Encode [exported_record] = Some body ∧ Decode body "operator" 10 = Some (read_back_from 2 [exported_record]).
Proof.
  eexists. split; [vm_compute; reflexivity|].
  refine (proj1 (csv_roundtrip [exported_record] _ "operator" 10 _ _ _ _ _)); [vm_compute; reflexivity|done|done|reflexivity|done].
Defined.
