(* ===== verification/RequestFacts.v ===== *)
(** * RequestFacts: requests survive encoding and strict decoding

    The documents clients send, and the round trip of every operation of every
    protocol version through the strict decoders of [Requests]. *)
From S2P Require Import Prelude GoNet Identity AddrText Text Json JsonFacts Vocabulary Store Session Repository Telemetry Profile ProfileNormal Replay Signature Requests Admission Handler HandlerFacts.
From Stdlib Require Import Ascii.
Local Open Scope string_scope.
Local Open Scope Z_scope.
Local Open Scope go_scope.
Local Open Scope list_scope.

(** ** Counts as JSON numbers *)

Definition format_count (v : Z) : bytes := format_uint 8 v [].

Lemma decimal_digits s : forallb is_digit s = true → ∀ acc, decimal_value acc s = Some (read_digits s acc).
Proof.
  induction s as [|c s IH]; intros Hs acc; [done|]. cbn [forallb] in Hs. apply andb_true_iff in Hs as [Hc Hs]. cbn [decimal_value]. rewrite Hc.
  replace (byte c - byte "0") with (digit_value c) by (revert c Hc; each_byte). by apply IH.
Qed.
Lemma digit_zero z : 0 < z ≤ 9 → (decimal_digit z ≡c "0") = false.
Proof.
  intros Hz. assert (z = 1 ∨ z = 2 ∨ z = 3 ∨ z = 4 ∨ z = 5 ∨ z = 6 ∨ z = 7 ∨ z = 8 ∨ z = 9) as Hcases by lia.
  by repeat destruct Hcases as [->|Hcases]; [..|subst z].
Qed.
(** A positive number is written without a leading zero. *)
Lemma format_uint_head fuel v acc : 0 < v < 10 ^ Z.of_nat fuel → ∃ c t, format_uint fuel v acc = c :: t ∧ (c ≡c "0") = false.
Proof.
  revert v acc. induction fuel as [|fuel IH]; intros v acc Hv; [simpl in Hv; lia|]. cbn [format_uint]. destruct (Z.ltb_spec v 10).
  - exists (decimal_digit v), acc. rewrite Z.mod_small by lia. split; [done|]. apply digit_zero. lia.
  - apply IH. rewrite Nat2Z.inj_succ, Z.pow_succ_r in Hv by lia. split; [apply Z.div_str_pos; lia|apply Z.div_lt_upper_bound; lia].
Qed.
Lemma span_all_digits s : forallb is_digit s = true → span_digits s = (s, []).
Proof. induction s as [|c s IH]; [done|]. cbn. intros [Hc Hs]%andb_true_iff. by rewrite Hc, (IH Hs). Qed.
Lemma digit_no_minus c : is_digit c = true → (c ≡c "-") = false.
Proof. revert c. each_byte. Qed.
Lemma format_count_shape v : 0 ≤ v < 10 ^ 8 → ∃ c t, format_count v = c :: t ∧ forallb is_digit (c :: t) = true ∧ (v = 0 ∧ t = [] ∧ c = "0"%char ∨ (c ≡c "0") = false).
Proof.
  intros Hv. destruct (Z.eq_dec v 0) as [->|Hne]; [exists "0"%char, []; split_and!; [reflexivity|reflexivity|by left]|].
  destruct (format_uint_head 8 v []) as (c&t&Hf&Hc); [change (Z.of_nat 8) with 8; lia|].
  pose proof (format_uint_digits 8 v []) as Hd. rewrite Hf in Hd. exists c, t. split; [exact Hf|]. split; [apply Hd; [lia|reflexivity]|]. by right.
Qed.
Lemma format_count_scan v : 0 ≤ v < 10 ^ 8 → scan_number (format_count v) = Some (format_count v, []) ∧ parse_int64 (format_count v) = Some v.
Proof.
  intros Hv. destruct (format_count_shape v Hv) as (c&t&Hf&Hd&Hc).
  assert (Hread : read_digits (format_count v) 0 = v) by (unfold format_count; rewrite format_uint_read by (change (Z.of_nat 8) with 8; lia); done).
  rewrite Hf in *. pose proof Hd as Hdig. cbn [forallb] in Hd. apply andb_true_iff in Hd as [Hc0 Ht].
  assert (Hsign : scan_sign (c :: t) = ([], c :: t)) by (unfold scan_sign; by rewrite digit_no_minus).
  assert (Hint : scan_integer (c :: t) = Some (c :: t, [])).
  { unfold scan_integer. destruct Hc as [(_&->&->)|Hc]; [done|]. rewrite Hc, Hc0. by rewrite span_all_digits. }
  split.
  - unfold scan_number. rewrite Hsign, Hint. cbn. by rewrite app_nil_r.
  - unfold parse_int64. rewrite Hsign. rewrite decimal_digits, Hread by done. cbn [mbind option_bind].
    unfold int64_min, int64_max. rewrite !(proj2 (Z.leb_le _ _)) by lia. done.
Qed.
Lemma into_count v old : 0 ≤ v < 10 ^ 8 → into_int (JNumber (format_count v)) old = Some v.
Proof. intros Hv. apply (format_count_scan v Hv). Qed.
Lemma printable_count v : 0 ≤ v < 10 ^ 8 → printable (JNumber (format_count v)) = true.
Proof. intros Hv. cbn [printable]. rewrite (proj1 (format_count_scan v Hv)). by apply bytes_eqb_eq. Qed.

(** ** The documents of the requests *)

Definition text (s : string) : json := JString (b s).
Definition texts (values : list string) : json := JArray (map text values).
Definition profile_document (p : profile) : json := JObject
  [(b "participation_mode", text (ParticipationMode p)); (b "availability", text (Availability p)); (b "relay_type", text (RelayType p));
   (b "languages", texts (Languages p)); (b "countries", texts (Countries p)); (b "regions", texts (Regions p)); (b "topics", texts (Topics p));
   (b "contact_fediverse", text (ContactFediverse p)); (b "contact_email", text (ContactEmail p)); (b "contact_url", text (ContactURL p));
   (b "participation_url", text (ParticipationURL p)); (b "notes", text (Notes p))].
Definition telemetry_document (t : telemetry) : json :=
  match t with
  | Receiving i => JObject [(b "receiving_instance_count", JNumber (format_count (ReceivingInstanceCount i)))]
  | Participating i => JObject [(b "participating_instance_count", JNumber (format_count (ParticipatingInstanceCount i)))]
  end.
Definition request_document (p : protocol) (operation : string) (i : intent) : json := JObject (
  [(b "protocol_version", JNumber (format_count (version_number p))); (b "operation", text operation); (b "relay_actor", text (intent_actor i))] ++
  (if operation ≟ OperationRegister then
     (b "public_base_url", text (intent_base i)) :: (match p with V1 => [] | _ => [(b "profile", profile_document (intent_profile i))] end)
   else []) ++
  match intent_telemetry i with Some t => [(b "telemetry", telemetry_document t)] | None => [] end).

Section Sendable.
Context `{RelayIdentity}.

(** The telemetry a client may send for an actor. *)
Definition sendable_telemetry (p : protocol) (operation actor : string) (t : telemetry) : Prop :=
  operation ≠ OperationUnregister ∧
  match p, t with
  | V2, Receiving i => telemetry_actor i = actor ∧ 0 ≤ ReceivingInstanceCount i ≤ 10000000
  | V3, Participating i => participating_actor i = actor ∧ 0 ≤ ParticipatingInstanceCount i ≤ 10000000
  | _, _ => False
  end.
(** A request a client may send: canonical identities, a normalized profile only
    with a version 2 or 3 register, and text that is valid UTF-8. *)
Record sendable (p : protocol) (operation : string) (i : intent) : Prop := {
  send_operation : operation = OperationRegister ∨ operation = OperationHeartbeat ∨ operation = OperationUnregister;
  send_identity : if operation ≟ OperationRegister then canonical_identity (intent_actor i) (intent_base i) = true
                  else canonical_actor (intent_actor i) = true ∧ intent_base i = "";
  send_profile : if (operation ≟ OperationRegister) && negb (bool_decide (p = V1)) then
                   NormalizeRelayProfile (intent_profile i) = Ok (intent_profile i) ∧
                   one_of [""; "open"; "restricted"; "closed"] (ParticipationMode (intent_profile i)) = true
                 else intent_profile i = empty_profile;
  send_telemetry : ∀ t, intent_telemetry i = Some t → sendable_telemetry p operation (intent_actor i) t;
  send_text : printable (request_document p operation i) = true }.
End Sendable.

Lemma texts_depth values : json_depth (texts values) ≤ 1.
Proof.
  unfold texts. cbn [json_depth]. assert (Hd : fold_right (λ i d, Z.max (json_depth i) d) 0 (map text values) = 0); [|lia].
  induction values as [|v values IH]; [done|]. cbn [map fold_right]. rewrite IH. done.
Qed.
Lemma object_depth members n : 0 ≤ n → Forall (λ m, json_depth m.2 ≤ n) members → json_depth (JObject members) ≤ 1 + n.
Proof.
  intros Hn Hall. cbn [json_depth]. apply Zplus_le_compat_l. induction Hall as [|m members Hm Hall IH]; [done|]. cbn [fold_right]. lia.
Qed.
Lemma profile_depth p : json_depth (profile_document p) ≤ 2.
Proof.
  apply (object_depth _ 1); [lia|]. repeat constructor; cbn [snd]; first [apply texts_depth|cbn; lia].
Qed.
Lemma request_depth p operation i : json_depth (request_document p operation i) ≤ maxNestingDepth.
Proof.
  trans (1 + 2); [|done]. apply object_depth; [lia|]. apply Forall_app. split; [repeat constructor; cbn; lia|]. apply Forall_app. split.
  - destruct (operation ≟ OperationRegister); [|constructor]. constructor; [cbn; lia|].
    destruct p; repeat constructor; apply profile_depth.
  - destruct (intent_telemetry i) as [[]|]; repeat constructor; cbn; lia.
Qed.
Lemma printed_document p operation i : printable (request_document p operation i) = true →
  parse_document (json_print (request_document p operation i)) = Some (request_document p operation i).
Proof. intros Hp. apply parse_print; [done|]. apply request_depth. Qed.

(** ** Decoding them *)

Lemma into_members_step {R} (fields : list (field R)) name v members (r : R) f r' :
  find (field_named name) fields = Some f → f.2 v r = Some r' →
  into_members fields ((name, v) :: members) r = into_members fields members r'.
Proof. intros Hf Hv. cbn [into_members]. by rewrite Hf; cbn [mbind option_bind]; rewrite Hv. Qed.
Lemma into_text s old : into_string (text s) old = Some s.
Proof. cbn. by rewrite str_b. Qed.
Lemma into_texts_elements values : ∀ array, into_elements (map text values) array = Some (values ++ drop (length values) array).
Proof.
  induction values as [|v values IH]; intros array; [done|]. cbn [map into_elements]. rewrite into_text. cbn [mbind option_bind]. rewrite IH. destruct array; cbn; by rewrite ?drop_nil.
Qed.
Lemma into_texts values : ∃ s, into_strings (texts values) nil_slice = Some s ∧ slice_values s = values.
Proof.
  destruct values as [|v values]; [by eexists|]. unfold texts, into_strings. cbn [map].
  change (text v :: map text values) with (map text (v :: values)). rewrite into_texts_elements. cbn [mbind option_bind].
  eexists. split; [done|]. unfold slice_values. cbn [slice_length slice_array]. rewrite length_map. cbn [length]. rewrite skipn_nil, app_nil_r. exact (firstn_all (v :: values)).
Qed.

Lemma pointer_text s : pointer_string (text s) None = Some (Some s).
Proof. cbn. by rewrite str_b. Qed.
Lemma pointer_texts values s : into_strings (texts values) nil_slice = Some s → pointer_strings (texts values) None = Some (Some s).
Proof. intros Hs. unfold pointer_strings, into_pointer, texts in *. cbn [default]. by rewrite Hs. Qed.

(** Decode the members of a document one after the other. *)
Ltac decode_member known :=
  eapply eq_trans; [eapply into_members_step; [reflexivity|]|];
  [cbn [json_field snd wire_mode wire_availability wire_type wire_languages wire_countries wire_regions wire_topics wire_fediverse wire_email wire_url
          wire_participation wire_notes wire_count rw_version rw_operation rw_actor rw_base rw_profile rw_telemetry hw_version hw_operation hw_actor hw_telemetry
          id_version id_operation id_actor reg_version reg_operation reg_actor reg_base];
   first [rewrite into_text | rewrite pointer_text | erewrite pointer_texts by eassumption | rewrite into_count by lia | rewrite known];
   cbn [mbind option_bind]; reflexivity|].

Section RoundTrip.
Context `{RelayIdentity}.

Lemma decode_profile p : ∃ w, into_struct profile_fields (profile_document p) nil_profile = Some w ∧ profile_normalized w =
  (normalized ← NormalizeRelayProfile p; if one_of [""; "open"; "restricted"; "closed"] (ParticipationMode normalized) then Ok normalized else Err ErrProfileInput).
Proof.
  destruct (into_texts (Languages p)) as (l1&H1&V1), (into_texts (Countries p)) as (l2&H2&V2), (into_texts (Regions p)) as (l3&H3&V3),
    (into_texts (Topics p)) as (l4&H4&V4).
  eexists. split.
  - unfold into_struct, profile_document, nil_profile. do 12 decode_member H1. reflexivity.
  - cbn [profile_normalized]. rewrite V1, V2, V3, V4. by destruct p.
Qed.
End RoundTrip.

Lemma distinct_names (members : list (bytes * json)) : duplicate_names members = negb (bool_decide (NoDup (map fst members))).
Proof. done. Qed.
Lemma duplicate_texts values : duplicate_within (texts values) = false.
Proof. cbn. by induction values. Qed.
Lemma duplicate_object members : bool_decide (NoDup (map fst members)) = true → Forall (λ m, duplicate_within m.2 = false) members →
  duplicate_within (JObject members) = false.
Proof.
  intros Hn Hall. cbn [duplicate_within]. unfold duplicate_names. rewrite Hn. cbn [negb orb].
  induction Hall as [|m members Hm Hall IH]; [done|]. cbn [existsb]. rewrite Hm. apply IH.
  apply bool_decide_eq_true in Hn. apply bool_decide_eq_true. by inversion Hn.
Qed.
Lemma duplicate_profile p : duplicate_within (profile_document p) = false.
Proof.
  apply duplicate_object; [vm_compute; reflexivity|]. repeat constructor; cbn [snd]; first [apply duplicate_texts|reflexivity].
Qed.
Lemma request_names p operation i : bool_decide (NoDup (map fst (match request_document p operation i with JObject members => members | _ => [] end))) = true.
Proof.
  unfold request_document. destruct (operation ≟ OperationRegister), (intent_telemetry i) as [[]|], p; vm_compute; reflexivity.
Qed.
Lemma request_distinct p operation i : duplicate_within (request_document p operation i) = false.
Proof.
  pose proof (request_names p operation i) as Hn. unfold request_document in *. apply duplicate_object; [exact Hn|].
  apply Forall_app. split; [repeat constructor|]. apply Forall_app. split.
  - destruct (operation ≟ OperationRegister); [|constructor]. constructor; [done|]. destruct p; repeat constructor; apply duplicate_profile.
  - destruct (intent_telemetry i) as [[]|]; repeat constructor.
Qed.
(** The strict decoders, on a document a client sends. *)
Lemma strict_request {R} (fields : list (field R)) p operation i r : printable (request_document p operation i) = true →
  let d := request_document p operation i in
  decodeStrictJSON fields (json_print d) r = into_struct fields d r ∧ decodeStrictJSONObject fields (json_print d) r = into_struct fields d r.
Proof.
  intros Hp. cbv zeta. unfold decodeStrictJSON, duplicateJSONName, decodeStrictJSONObject, rejectDuplicateTopLevelJSONNames.
  rewrite !(printed_document p operation i Hp). rewrite request_distinct. cbn [mbind option_bind]. split; [done|].
  pose proof (request_names p operation i) as Hn. unfold request_document in *. cbv iota in Hn. unfold duplicate_names. by rewrite Hn.
Qed.

Section Requests.
Context `{RelayIdentity}.

Lemma decode_count c name v : (c = contract_v2 ∧ name = "receiving_instance_count" ∨ c = contract_v3 ∧ name = "participating_instance_count") → 0 ≤ v ≤ 10000000 →
  pointer_telemetry c (JObject [(b name, JNumber (format_count v))]) None = Some (Some (TelemetryWire (Some v))) ∧
  ∀ actor, telemetry_normalized c (Some (TelemetryWire (Some v))) actor = Ok (Some (telemetry_intent c actor v)).
Proof.
  intros Hc Hv. assert (Hm : telemetry_maximum c = 10000000) by (by destruct Hc as [[-> _]|[-> _]]). split.
  - assert (Hw : into_struct (telemetry_fields c) (JObject [(b name, JNumber (format_count v))]) (TelemetryWire None) = Some (TelemetryWire (Some v))).
    { unfold into_struct, telemetry_fields. destruct Hc as [[-> ->]|[-> ->]]; (eapply eq_trans; [eapply into_members_step; [reflexivity|]|]; [|reflexivity]);
      cbn [json_field snd wire_count]; unfold into_pointer; cbn [default]; rewrite into_count by lia; reflexivity. }
    unfold pointer_telemetry, into_pointer. cbn [default]. by rewrite Hw.
  - intros actor. unfold telemetry_normalized. rewrite Hm, (proj2 (Z.ltb_ge v 0)), (proj2 (Z.ltb_ge 10000000 v)) by lia. done.
Qed.
End Requests.

Lemma into_object {R} (fields : list (field R)) members r : into_struct fields (JObject members) r = into_members fields members r.
Proof. done. Qed.
(** The members of the requests of versions 2 and 3, and of version 1. *)
Ltac decode_with known :=
  eapply eq_trans; [eapply into_members_step; [reflexivity|]|];
  [cbn [json_field snd rw_version rw_operation rw_actor rw_base rw_profile rw_telemetry hw_version hw_operation hw_actor hw_telemetry
          id_version id_operation id_actor reg_version reg_operation reg_actor reg_base];
   rewrite known; cbn [mbind option_bind]; reflexivity|].
Lemma register_members c version operation actor base profile v w : into_int version 0 = Some v →
  into_struct profile_fields profile nil_profile = Some w → ∀ more,
  into_members (register_wire_fields c) ([(b "protocol_version", version); (b "operation", text operation); (b "relay_actor", text actor);
    (b "public_base_url", text base); (b "profile", profile)] ++ more) nil_register =
  into_members (register_wire_fields c) more (RegisterWire v operation actor base w None).
Proof.
  intros Hv Hw more. cbn [app]. unfold nil_register. decode_with Hv. do 3 decode_with into_text. decode_with Hw. reflexivity.
Qed.
Lemma register_telemetry c telemetry v operation actor base w x : pointer_telemetry c telemetry None = Some x →
  into_members (register_wire_fields c) [(b "telemetry", telemetry)] (RegisterWire v operation actor base w None) =
  Some (RegisterWire v operation actor base w x).
Proof. intros Hx. decode_with Hx. reflexivity. Qed.
Lemma heartbeat_members c version operation actor v : into_int version 0 = Some v → ∀ more,
  into_members (heartbeat_wire_fields c) ([(b "protocol_version", version); (b "operation", text operation); (b "relay_actor", text actor)] ++ more)
    (HeartbeatWire 0 "" "" None) =
  into_members (heartbeat_wire_fields c) more (HeartbeatWire v operation actor None).
Proof. intros Hv more. cbn [app]. decode_with Hv. do 2 decode_with into_text. reflexivity. Qed.
Lemma heartbeat_telemetry c telemetry v operation actor x : pointer_telemetry c telemetry None = Some x →
  into_members (heartbeat_wire_fields c) [(b "telemetry", telemetry)] (HeartbeatWire v operation actor None) = Some (HeartbeatWire v operation actor x).
Proof. intros Hx. decode_with Hx. reflexivity. Qed.
Lemma identity_members version operation actor v : into_int version 0 = Some v →
  into_members identity_fields [(b "protocol_version", version); (b "operation", text operation); (b "relay_actor", text actor)] zero_identity =
  Some (IdentityRequest v operation actor).
Proof. intros Hv. unfold zero_identity. decode_with Hv. do 2 decode_with into_text. reflexivity. Qed.
Lemma register_members_v1 version operation actor base v : into_int version 0 = Some v →
  into_members register_fields [(b "protocol_version", version); (b "operation", text operation); (b "relay_actor", text actor); (b "public_base_url", text base)]
    (RegisterRequest 0 "" "" "") = Some (RegisterRequest v operation actor base).
Proof. intros Hv. decode_with Hv. do 3 decode_with into_text. reflexivity. Qed.

Lemma bind_ok {E A B} (r : result E A) a (k : A → result E B) x : r = Ok a → k a = x → r ≫= k = x.
Proof. by intros ->. Qed.
(** The contract of versions 2 and 3. *)
Definition contract_of (p : protocol) : contract := match p with V3 => contract_v3 | _ => contract_v2 end.
Lemma wire_version p v : into_int (JNumber (format_count (version_number p))) v = Some (version_number p).
Proof. apply into_count. by destruct p. Qed.
Lemma version_of p : p ≠ V1 → contract_version (contract_of p) = version_number p.
Proof. by destruct p. Qed.

Section Decoded.
Context `{RelayIdentity}.
Context (p : protocol) (operation : string) (i : intent) (maximum : Z).
Hypothesis Hsend : sendable p operation i.
Let body : bytes := json_print (request_document p operation i).
Hypothesis Hmax : 0 < maximum ≤ MaximumRegisterBodyBytes.
Hypothesis Hbody : blen body ≤ maximum.

Lemma within_limit version op : body_limit version op body maximum MaximumRegisterBodyBytes = Ok tt.
Proof.
  unfold body_limit. rewrite (proj2 (Z.leb_gt maximum 0)), (proj2 (Z.ltb_ge MaximumRegisterBodyBytes maximum)), (proj2 (Z.ltb_ge maximum (blen body))) by lia. done.
Qed.
Lemma same_header version op : expected_header version op version op = Ok tt.
Proof. unfold expected_header. by rewrite Z.eqb_refl, String.eqb_refl. Qed.
Lemma strict_body {R} (fields : list (field R)) r :
  decodeStrictJSON fields body r = into_struct fields (request_document p operation i) r ∧
  decodeStrictJSONObject fields body r = into_struct fields (request_document p operation i) r.
Proof. by apply strict_request, send_text. Qed.
(** The telemetry member, when there is one. *)
Lemma decode_telemetry t : intent_telemetry i = Some t → ∃ w, pointer_telemetry (contract_of p) (telemetry_document t) None = Some (Some w) ∧
  telemetry_normalized (contract_of p) (Some w) (intent_actor i) = Ok (Some t).
Proof.
  intros Ht. pose proof (send_telemetry _ _ _ Hsend t Ht) as [_ Hs]. destruct t as [[a v]|[a v]]; destruct p; try done; destruct Hs as [Ha Hv]; cbn in Ha, Hv; subst a;
    [destruct (decode_count contract_v2 "receiving_instance_count" v) as [Hd Hn]; [by left|done|]|
     destruct (decode_count contract_v3 "participating_instance_count" v) as [Hd Hn]; [by right|done|]]; (eexists; split; [exact Hd|apply Hn]).
Qed.

Definition telemetry_members : list (bytes * json) := match intent_telemetry i with Some t => [(b "telemetry", telemetry_document t)] | None => [] end.
Lemma register_shape : p ≠ V1 → operation = OperationRegister → request_document p operation i = JObject (
  [(b "protocol_version", JNumber (format_count (version_number p))); (b "operation", text operation); (b "relay_actor", text (intent_actor i));
   (b "public_base_url", text (intent_base i)); (b "profile", profile_document (intent_profile i))] ++ telemetry_members).
Proof. intros Hp Hop. unfold request_document, telemetry_members. rewrite Hop. change (OperationRegister ≟ OperationRegister) with true. by destruct p. Qed.
Lemma plain_shape : operation ≠ OperationRegister → request_document p operation i = JObject (
  [(b "protocol_version", JNumber (format_count (version_number p))); (b "operation", text operation); (b "relay_actor", text (intent_actor i))] ++ telemetry_members).
Proof. intros Hop. unfold request_document, telemetry_members. by rewrite (proj2 (String.eqb_neq _ _) Hop). Qed.
Lemma register_v1_shape : p = V1 → operation = OperationRegister → intent_telemetry i = None → request_document p operation i = JObject (
  [(b "protocol_version", JNumber (format_count (version_number p))); (b "operation", text operation); (b "relay_actor", text (intent_actor i));
   (b "public_base_url", text (intent_base i))]).
Proof. intros Hp Hop Ht. unfold request_document. rewrite Hop, Hp, Ht. by change (OperationRegister ≟ OperationRegister) with true. Qed.
Lemma no_telemetry : p = V1 ∨ operation = OperationUnregister → intent_telemetry i = None.
Proof.
  intros Hc. destruct (intent_telemetry i) as [t|] eqn:Ht; [|done]. destruct (send_telemetry _ _ _ Hsend t Ht) as [Hne Hs].
  destruct Hc as [Hp|]; [|done]. by rewrite Hp in Hs.
Qed.

Lemma register_decoded w t : operation = OperationRegister → canonical_identity (intent_actor i) (intent_base i) = true → p ≠ V1 →
  decodeStrictJSON (register_wire_fields (contract_of p)) body nil_register =
    Some (RegisterWire (version_number p) operation (intent_actor i) (intent_base i) w t) →
  profile_normalized w = Ok (intent_profile i) → telemetry_normalized (contract_of p) t (intent_actor i) = Ok (intent_telemetry i) →
  DecodeRegisterRequest_v2 (contract_of p) body maximum =
    Ok (RegisterRequestOf (version_number p) operation (intent_actor i) (intent_base i) (intent_profile i) (intent_telemetry i)).
Proof.
  intros Hop Hid Hp Hd Hw Ht. unfold DecodeRegisterRequest_v2. apply (bind_ok _ _ _ _ (within_limit _ _)).
  eapply bind_ok; [by rewrite Hd|]. cbn beta. eapply bind_ok; [cbn [rw_version rw_operation]; rewrite (version_of p Hp), Hop; apply same_header|]. cbn beta.
  eapply bind_ok; [cbn [rw_actor rw_base]; by rewrite Hid|]. cbn beta. eapply bind_ok; [cbn [rw_profile]; by rewrite Hw|]. cbn beta.
  eapply bind_ok; [cbn [rw_telemetry rw_actor]; by rewrite Ht|]. reflexivity.
Qed.
Lemma register_back : p ≠ V1 → operation = OperationRegister →
  DecodeRegisterRequest_v2 (contract_of p) body maximum =
  Ok (RegisterRequestOf (version_number p) operation (intent_actor i) (intent_base i) (intent_profile i) (intent_telemetry i)).
Proof.
  intros Hp Hop. pose proof (send_identity _ _ _ Hsend) as Hid. pose proof (send_profile _ _ _ Hsend) as Hprof.
  rewrite Hop in Hid, Hprof. change (OperationRegister ≟ OperationRegister) with true in Hid, Hprof. cbv iota in Hid.
  rewrite (bool_decide_eq_false_2 _ Hp) in Hprof. cbn [negb andb] in Hprof. destruct Hprof as [Hnorm Hmode].
  destruct (decode_profile (intent_profile i)) as (w&Hw&Hwn). rewrite Hnorm in Hwn. cbn [mbind result_bind] in Hwn. rewrite Hmode in Hwn.
  pose proof (λ t, register_decoded w t Hop Hid Hp) as Hfinal.
  rewrite (proj1 (strict_body _ _)), (register_shape Hp Hop), into_object in Hfinal.
  rewrite (register_members _ _ _ _ _ _ _ _ (wire_version p 0) Hw) in Hfinal. unfold telemetry_members in Hfinal.
  destruct (intent_telemetry i) as [t|] eqn:Ht; [|by apply (Hfinal None)].
  destruct (decode_telemetry t Ht) as (x&Hx&Hn). apply (Hfinal (Some x)); [|done|done]. by apply register_telemetry.
Qed.
Lemma heartbeat_back : p ≠ V1 → operation = OperationHeartbeat →
  DecodeHeartbeatRequest_v2 (contract_of p) body maximum = Ok (HeartbeatRequestOf (version_number p) operation (intent_actor i) (intent_telemetry i)).
Proof.
  intros Hp Hop. pose proof (send_identity _ _ _ Hsend) as Hid. rewrite Hop in Hid. destruct Hid as [Hid _].
  assert (Hne : operation ≠ OperationRegister) by (by rewrite Hop).
  assert (Hfinal : ∀ t, decodeStrictJSON (heartbeat_wire_fields (contract_of p)) body (HeartbeatWire 0 "" "" None) =
      Some (HeartbeatWire (version_number p) operation (intent_actor i) t) →
    telemetry_normalized (contract_of p) t (intent_actor i) = Ok (intent_telemetry i) →
    DecodeHeartbeatRequest_v2 (contract_of p) body maximum = Ok (HeartbeatRequestOf (version_number p) operation (intent_actor i) (intent_telemetry i))).
  { intros t Hd Ht. unfold DecodeHeartbeatRequest_v2. apply (bind_ok _ _ _ _ (within_limit _ _)).
    eapply bind_ok; [by rewrite Hd|]. cbn beta. eapply bind_ok; [cbn [hw_version hw_operation]; rewrite (version_of p Hp), Hop; apply same_header|]. cbn beta.
    eapply bind_ok; [cbn [hw_actor]; by rewrite Hid|]. cbn beta. eapply bind_ok; [cbn [hw_telemetry hw_actor]; by rewrite Ht|]. reflexivity. }
  rewrite (proj1 (strict_body _ _)), (plain_shape Hne), into_object in Hfinal.
  rewrite (heartbeat_members _ _ _ _ _ (wire_version p 0)) in Hfinal. unfold telemetry_members in Hfinal.
  destruct (intent_telemetry i) as [t|] eqn:Ht; [|by apply (Hfinal None)].
  destruct (decode_telemetry t Ht) as (x&Hx&Hn). apply (Hfinal (Some x)); [|done]. by apply heartbeat_telemetry.
Qed.
Lemma identity_back : operation = OperationUnregister ∨ p = V1 ∧ operation = OperationHeartbeat →
  let r := IdentityRequest (version_number p) operation (intent_actor i) in
  decodeStrictJSON identity_fields body zero_identity = Some r ∧ decodeStrictJSONObject identity_fields body zero_identity = Some r ∧
  canonical_actor (intent_actor i) = true.
Proof.
  intros Hop. cbv zeta. rewrite (proj1 (strict_body _ _)), (proj2 (strict_body _ _)).
  assert (Hne : operation ≠ OperationRegister) by (clear -Hop; by destruct Hop as [->|[_ ->]]).
  rewrite (plain_shape Hne). unfold telemetry_members. rewrite no_telemetry by (clear -Hop; destruct Hop as [|[]]; auto). rewrite app_nil_r.
  rewrite !into_object, !(identity_members _ _ _ _ (wire_version p 0)). pose proof (send_identity _ _ _ Hsend) as Hid.
  rewrite (proj2 (String.eqb_neq _ _) Hne) in Hid. by destruct Hid.
Qed.
End Decoded.

Section Theorems.
Context `{RelayIdentity}.

Lemma register_v1_back i maximum : sendable V1 OperationRegister i → 0 < maximum ≤ MaximumRegisterBodyBytes →
  blen (json_print (request_document V1 OperationRegister i)) ≤ maximum →
  DecodeRegisterRequest (json_print (request_document V1 OperationRegister i)) maximum = Ok (RegisterRequest 1 OperationRegister (intent_actor i) (intent_base i)).
Proof.
  intros Hs Hm Hb. pose proof (send_identity _ _ _ Hs) as Hid. change (canonical_identity (intent_actor i) (intent_base i) = true) in Hid.
  pose proof (no_telemetry V1 OperationRegister i Hs (or_introl eq_refl)) as Ht.
  unfold DecodeRegisterRequest. apply (bind_ok _ _ _ _ (within_limit V1 OperationRegister i maximum Hm Hb _ _)). eapply bind_ok.
  { rewrite (proj2 (strict_body V1 OperationRegister i Hs _ _)), (register_v1_shape V1 OperationRegister i eq_refl eq_refl Ht), into_object.
    rewrite (register_members_v1 _ _ _ _ _ (wire_version V1 0)). reflexivity. }
  cbn beta. eapply bind_ok; [apply same_header|]. cbn beta. eapply bind_ok; [cbn [reg_actor reg_base]; by rewrite Hid|]. reflexivity.
Qed.
Lemma identity_v1_back operation i maximum : sendable V1 operation i → operation = OperationHeartbeat ∨ operation = OperationUnregister →
  0 < maximum ≤ MaximumRegisterBodyBytes → blen (json_print (request_document V1 operation i)) ≤ maximum →
  decode_identity operation (json_print (request_document V1 operation i)) maximum MaximumRegisterBodyBytes = Ok (IdentityRequest 1 operation (intent_actor i)).
Proof.
  intros Hs Hop Hm Hb. destruct (identity_back V1 operation i Hs) as (_&Hd&Hc); [destruct Hop; auto|].
  unfold decode_identity. apply (bind_ok _ _ _ _ (within_limit V1 operation i maximum Hm Hb _ _)). eapply bind_ok; [by rewrite Hd|]. cbn beta.
  eapply bind_ok; [apply same_header|]. cbn beta. eapply bind_ok; [cbn [id_actor]; by rewrite Hc|]. reflexivity.
Qed.
Lemma unregister_back p i maximum : p ≠ V1 → sendable p OperationUnregister i → 0 < maximum ≤ MaximumRegisterBodyBytes →
  blen (json_print (request_document p OperationUnregister i)) ≤ maximum →
  DecodeUnregisterRequest_v2 (contract_of p) (json_print (request_document p OperationUnregister i)) maximum =
  Ok (IdentityRequest (version_number p) OperationUnregister (intent_actor i)).
Proof.
  intros Hp Hs Hm Hb. destruct (identity_back p OperationUnregister i Hs) as (Hd&_&Hc); [by left|].
  unfold DecodeUnregisterRequest_v2, decodeIdentityRequest. apply (bind_ok _ _ _ _ (within_limit p OperationUnregister i maximum Hm Hb _ _)).
  eapply bind_ok; [by rewrite Hd|]. cbn beta. eapply bind_ok; [cbn [id_version id_operation]; rewrite (version_of p Hp); apply same_header|]. cbn beta.
  eapply bind_ok; [cbn [id_actor]; by rewrite Hc|]. reflexivity.
Qed.

(** The fields of an intent that the request does not carry. *)
Lemma bare_intent p operation i : sendable p operation i → operation ≠ OperationRegister → intent_telemetry i = None →
  Intent (intent_actor i) "" empty_profile None = i.
Proof.
  intros [_ Hid Hprof _ _] Hne Ht. rewrite (proj2 (String.eqb_neq _ _) Hne) in Hid, Hprof. cbn [andb] in Hprof.
  destruct Hid as [_ Hbase], i as [a u pr t]. cbn in *. by subst.
Qed.
Lemma roundtrip_v1 operation i maximum : sendable V1 operation i → 0 < maximum ≤ MaximumRegisterBodyBytes →
  blen (json_print (request_document V1 operation i)) ≤ maximum →
  request_intent V1 operation (json_print (request_document V1 operation i)) maximum = Ok i.
Proof.
  intros Hs Hm Hb. pose proof (no_telemetry V1 operation i Hs (or_introl eq_refl)) as Ht.
  destruct (send_operation _ _ _ Hs) as [->|[->| ->]].
  - trans (as_intent registered_intent (DecodeRegisterRequest (json_print (request_document V1 OperationRegister i)) maximum)); [reflexivity|].
    rewrite register_v1_back by done. pose proof (send_profile _ _ _ Hs) as Hprof. change (intent_profile i = empty_profile) in Hprof.
    destruct i; cbn in *; by subst.
  - trans (as_intent identity_intent (DecodeHeartbeatRequest (json_print (request_document V1 OperationHeartbeat i)) maximum)); [reflexivity|].
    unfold DecodeHeartbeatRequest, MaximumHeartbeatBodyBytes. rewrite identity_v1_back by auto. cbn [as_intent]. f_equal. by apply (bare_intent V1 OperationHeartbeat).
  - trans (as_intent identity_intent (DecodeUnregisterRequest (json_print (request_document V1 OperationUnregister i)) maximum)); [reflexivity|].
    unfold DecodeUnregisterRequest, MaximumUnregisterBodyBytes. rewrite identity_v1_back by auto. cbn [as_intent]. f_equal. by apply (bare_intent V1 OperationUnregister).
Qed.
Lemma roundtrip_contract p operation i maximum : p ≠ V1 → sendable p operation i → 0 < maximum ≤ MaximumRegisterBodyBytes →
  blen (json_print (request_document p operation i)) ≤ maximum →
  request_intent p operation (json_print (request_document p operation i)) maximum = Ok i.
Proof.
  intros Hp Hs Hm Hb. destruct (send_operation _ _ _ Hs) as [->|[->| ->]].
  - trans (as_intent profile_intent (DecodeRegisterRequest_v2 (contract_of p) (json_print (request_document p OperationRegister i)) maximum)); [by destruct p|].
    rewrite register_back by done. by destruct i.
  - trans (as_intent heartbeat_intent (DecodeHeartbeatRequest_v2 (contract_of p) (json_print (request_document p OperationHeartbeat i)) maximum)); [by destruct p|].
    rewrite heartbeat_back by done. pose proof (send_profile _ _ _ Hs) as Hprof. change (intent_profile i = empty_profile) in Hprof.
    destruct (send_identity _ _ _ Hs) as [_ Hbase]. destruct i; cbn in *; by subst.
  - trans (as_intent identity_intent (DecodeUnregisterRequest_v2 (contract_of p) (json_print (request_document p OperationUnregister i)) maximum)); [by destruct p|].
    rewrite unregister_back by done. cbn [as_intent]. f_equal. apply (bare_intent p OperationUnregister); [done|done|]. apply (no_telemetry p OperationUnregister i Hs). by right.
Qed.

(** C5: Every request a client may send comes back as it was sent: for each
    operation of each protocol version, the JSON document of a request with
    canonical identities, a normalized profile and counts in range decodes, under
    any configured limit it fits in, into exactly that request. *)
Theorem request_roundtrip p operation i maximum : sendable p operation i → 0 < maximum ≤ MaximumRegisterBodyBytes →
  blen (json_print (request_document p operation i)) ≤ maximum →
  request_intent p operation (json_print (request_document p operation i)) maximum = Ok i.
Proof.
  intros Hs Hm Hb. destruct (decide (p = V1)) as [->|Hp]; [by apply roundtrip_v1|]. by apply roundtrip_contract.
Qed.
End Theorems.

(** ** Witness *)

Definition sample_intent_v2 : intent := {|
  intent_actor := "https://relay.example/actor"; intent_base := "https://relay.example";
  intent_profile := RelayProfileOf "open" "private" "" ["en"; "fr"] [] [] [] "" "" "" "" "mail <us>";
  intent_telemetry := Some (Receiving {| telemetry_actor := "https://relay.example/actor"; ReceivingInstanceCount := 120 |}) |}.
Lemma sample_sendable : sendable V2 OperationRegister sample_intent_v2.
Proof.
  split; [by left|vm_compute; reflexivity|vm_compute; split; reflexivity| |vm_compute; reflexivity].
  intros t [= <-]. split; [discriminate|]. split; [reflexivity|]. cbn. lia.
Qed.
Lemma request_roundtrip_witness :
  request_intent V2 OperationRegister (json_print (request_document V2 OperationRegister sample_intent_v2)) 65536 = Ok sample_intent_v2.
Proof.
  assert (Hm : 0 < 65536 ≤ MaximumRegisterBodyBytes) by (vm_compute; split; [reflexivity|discriminate]).
  assert (Hb : blen (json_print (request_document V2 OperationRegister sample_intent_v2)) ≤ 65536) by (vm_compute; discriminate).
  exact (request_roundtrip V2 OperationRegister sample_intent_v2 65536 sample_sendable Hm Hb).
Defined.

(** The decoders of [encoding/json] match member names without regard to ASCII
    case, so two spellings of one name are no duplicates and the last one wins. *)
Definition two_actors : json := JObject
  [(b "protocol_version", JNumber (format_count 1)); (b "operation", text OperationHeartbeat);
   (b "relay_actor", text "https://a.example/"); (b "RELAY_ACTOR", text "https://b.example/")].
Lemma names_in_any_case :
  DecodeHeartbeatRequest (json_print two_actors) 65536 = Ok (IdentityRequest 1 OperationHeartbeat "https://b.example/").
Proof. vm_compute. reflexivity. Qed.
