(* ===== verification/Directory.v ===== *)
(** * Directory: the public tiered projection and its pages

    Evidence classification and validation of
    [internal/storage/directory_projection.go]; candidate reads, detail rows and
    the forward and backward page scans of
    [internal/storage/sqlite/directory_projection.go].  One request reads one
    snapshot.  Descriptive profiles are an interface: [ProfileReader]. *)
From S2P Require Import Prelude Identity Vocabulary Store Repository Reachability Health Telemetry.
Local Open Scope string_scope.
Local Open Scope Z_scope.
Local Open Scope go_scope.
Local Open Scope list_scope.

(** ** Vocabulary *)

Definition MaximumDirectoryProjectionPage : Z := 100.
Definition MaximumDirectoryProjectionScan : nat := 400.
Definition HeartbeatNotObserved := "not_observed".
Definition HeartbeatHealthy := "healthy".
Definition HeartbeatStale := "stale".
Definition HeartbeatDead := "dead".
Definition HeartbeatPrune := "prune".
Definition PublicHeartbeatState_Valid (state : string) : bool :=
  one_of [HeartbeatNotObserved; HeartbeatHealthy; HeartbeatStale; HeartbeatDead; HeartbeatPrune] state.

(** [DirectoryTier] is a [uint8]; the four tiers are 1 to 4. *)
Definition DirectoryTierHeartbeatOnline : Z := 1.
Definition DirectoryTierOnline : Z := 2.
Definition DirectoryTierUnavailable : Z := 3.
Definition DirectoryTierGraveyard : Z := 4.
Definition DirectoryTier_Valid (tier : Z) : bool :=
  (DirectoryTierHeartbeatOnline <=? tier) && (tier <=? DirectoryTierGraveyard).

Definition ClassifyPublicHeartbeat (lastHeartbeatUnix : option Z) (observedUnix : Z) : result error string :=
  if observedUnix <? 0 then Err ErrHealthTime
  else
    match lastHeartbeatUnix with
    | None => Ok HeartbeatNotObserved
    | Some last =>
        match ClassifyHealth last observedUnix with
        | Err e => Err e
        | Ok health =>
            if health ≟ HealthHealthy then Ok HeartbeatHealthy
            else if health ≟ HealthStale then Ok HeartbeatStale
            else if health ≟ HealthDead then Ok HeartbeatDead
            else if health ≟ HealthPrune then Ok HeartbeatPrune
            else Err ErrHealthTime
        end
    end.

(** ** Profiles, as this component needs them

    [readEffectiveProfiles] of [sqlite/profile.go] for a set of actors, the zero
    profile a map lookup yields, and whether [NormalizeRelayProfile] of
    [storage/profile.go] accepts a profile and changes nothing. *)
Class ProfileReader := {
  RelayProfile : Type;
  profile_store : Type;
  zero_profile : RelayProfile;
  readEffectiveProfiles : profile_store → list string → Tx (gmap string RelayProfile);
  profile_normalized : RelayProfile → bool }.

(** What a client may assume: an undisturbed read of canonical actors returns the
    effective, normalized profile of each, whatever the batch. *)
Class ProfileReaderLaws `{RelayIdentity, ProfileReader} := {
  profiles_sound : profile_store → Prop;
  effectiveProfile : profile_store → string → RelayProfile;
  effective_normalized : ∀ store actor, profiles_sound store → profile_normalized (effectiveProfile store actor) = true;
  read_profiles_run : ∀ store actors d w, profiles_sound store → (∀ a, In a actors → canonical_actor a = true) →
    ∃ profiles, readEffectiveProfiles store actors (TX d w []) = (Ok profiles, TX d w []) ∧
                ∀ a, In a actors → profiles !! a = Some (effectiveProfile store a) }.

(** ** Cursors, rows and pages *)

Record directory_cursor := DirectoryCursor { cursor_tier : Z; cursor_actor : string }.
Definition directory_start : directory_cursor := DirectoryCursor 0 "".
Definition directory_cursor_eqb (x y : directory_cursor) : bool :=
  (cursor_tier x =? cursor_tier y) && (cursor_actor x ≟ cursor_actor y).

Section Directory.
Context `{RelayIdentity} `{ProfileReader}.

(** [DirectoryProjectionCursor.Valid] *)
Definition directory_cursor_valid (cursor : directory_cursor) : bool :=
  if directory_cursor_eqb cursor directory_start then true
  else if negb (DirectoryTier_Valid (cursor_tier cursor)) || (cursor_actor cursor ≟ "") then false
  else canonical_actor (cursor_actor cursor).

Record directory_relay := {
  RelayActor : string; PublicBaseURL : string; Profile : RelayProfile;
  DirReceivingCount : option Z; TelemetryReportedUnix : option Z;
  DirParticipatingCount : option Z; ParticipatingReportedUnix : option Z;
  LifecycleKnown : bool; DirRegistered : bool; Discovered : bool; FirstKnownUnix : Z; Tier : Z;
  HeartbeatState : string; LastSeenUnix : option Z; LastHeartbeatUnix : option Z;
  ActorState : string; DirActorLastChecked : option Z; ActorLastSuccessUnix : option Z;
  ActorDiagnostic : diagnostic; InboxDiagnostic : diagnostic; NextReachabilityCheckUnix : option Z;
  InboxURL : string; InboxDeclaredUnix : option Z; DirInboxProbeState : string;
  InboxLastCheckedUnix : option Z; RFC9421VerifiedUnix : option Z }.

Record directory_page := DirectoryPage {
  page_relays : list directory_relay; page_previous : directory_cursor; page_next : directory_cursor }.
Record directory_query := DirectoryQuery {
  dir_after : directory_cursor; dir_before : directory_cursor; dir_limit : Z; dir_observed : Z }.

(** ** Classification and validation of one row *)

Definition fresh_reachability (relay : directory_relay) (observedUnix : Z) : bool :=
  (ActorState relay ≟ ReachabilityReachable) &&
  match DirActorLastChecked relay, ActorLastSuccessUnix relay with
  | Some checked, Some success =>
      (checked =? success) && (success <=? observedUnix) &&
      (int64_sub observedUnix (seconds_of ReachabilityFreshness) <=? success)
  | _, _ => false
  end.
Definition current_heartbeat (relay : directory_relay) (observedUnix : Z) : bool :=
  DirRegistered relay &&
  match LastHeartbeatUnix relay with
  | Some last => (last <=? observedUnix) && (int64_sub observedUnix (seconds_of HealthyThrough) <=? last)
  | None => false
  end.
Definition later (value : option Z) (lastOnline : Z) : Z :=
  match value with Some v => if lastOnline <? v then v else lastOnline | None => lastOnline end.

Definition ClassifyDirectoryTier (relay : directory_relay) (observedUnix : Z) : result error Z :=
  if (observedUnix <? 0) || (FirstKnownUnix relay <? 0) || (observedUnix <? FirstKnownUnix relay) ||
     negb (PublicHeartbeatState_Valid (HeartbeatState relay)) || negb (ReachabilityState_Valid (ActorState relay)) ||
     negb (InboxProbeState_Valid (DirInboxProbeState relay))
  then Err ErrDirectoryProjectionData
  else
    let freshReachability := fresh_reachability relay observedUnix in
    let currentHeartbeat := current_heartbeat relay observedUnix in
    if freshReachability && currentHeartbeat then Ok DirectoryTierHeartbeatOnline
    else if freshReachability || currentHeartbeat then Ok DirectoryTierOnline
    else
      let lastOnline := later (ActorLastSuccessUnix relay) (later (LastSeenUnix relay) (FirstKnownUnix relay)) in
      let graveyardCutoff := int64_sub observedUnix (seconds_of DirectoryGraveyardAfter) in
      if lastOnline <=? graveyardCutoff then Ok DirectoryTierGraveyard else Ok DirectoryTierUnavailable.

Definition tier_agrees (relay : directory_relay) (observedUnix : Z) : bool :=
  match ClassifyDirectoryTier relay observedUnix with Ok tier => tier =? Tier relay | Err _ => false end.

(** [DirectoryProjectionRelay.PublicEligible] *)
Definition directory_eligible (relay : directory_relay) (observedUnix : Z) : bool :=
  if (observedUnix <? 0) || (negb (LifecycleKnown relay) && negb (Discovered relay)) ||
     negb (DirectoryTier_Valid (Tier relay))
  then false
  else tier_agrees relay observedUnix.

Definition validObservedTime (value : option Z) (observedUnix : Z) : bool :=
  match value with None => true | Some v => (0 <=? v) && (v <=? observedUnix) end.
Definition validObservedFutureTime (value : option Z) (observedUnix : Z) : bool :=
  match value with
  | None => true
  | Some v => (0 <=? v) && (v <=? int64_add observedUnix (seconds_of ReachabilityUnreachableRetry))
  end.

(** The checks of [ValidateDirectoryProjectionEvidence] in three groups. *)
Definition identity_evidence (relay : directory_relay) (observedUnix : Z) : bool :=
  negb ((observedUnix <? 0) || (negb (LifecycleKnown relay) && negb (Discovered relay)) ||
        (DirRegistered relay && negb (LifecycleKnown relay)) || negb (DirectoryTier_Valid (Tier relay)) ||
        (FirstKnownUnix relay <? 0) || (observedUnix <? FirstKnownUnix relay)) &&
  canonical_identity (RelayActor relay) (PublicBaseURL relay) && profile_normalized (Profile relay) &&
  Bool.eqb (is_null (DirReceivingCount relay)) (is_null (TelemetryReportedUnix relay)) &&
  Bool.eqb (is_null (DirParticipatingCount relay)) (is_null (ParticipatingReportedUnix relay)) &&
  null_or (λ v, (0 <=? v) && (v <=? MaximumReceivingInstanceCount)) (DirReceivingCount relay) &&
  null_or (λ v, (0 <=? v) && (v <=? MaximumParticipatingInstanceCount)) (DirParticipatingCount relay) &&
  validObservedTime (TelemetryReportedUnix relay) observedUnix &&
  validObservedTime (ParticipatingReportedUnix relay) observedUnix.

Definition heartbeat_evidence (relay : directory_relay) (observedUnix : Z) : bool :=
  match ClassifyPublicHeartbeat (LastHeartbeatUnix relay) observedUnix with
  | Ok heartbeat => heartbeat ≟ HeartbeatState relay
  | Err _ => false
  end &&
  negb (LifecycleKnown relay && is_null (LastSeenUnix relay)) &&
  validObservedTime (LastHeartbeatUnix relay) observedUnix &&
  match LastHeartbeatUnix relay with
  | None => true
  | Some last => match LastSeenUnix relay with Some seen => last <=? seen | None => false end
  end.

Definition actor_evidence (relay : directory_relay) : bool :=
  if ActorState relay ≟ ReachabilityUnknown then
    is_null (DirActorLastChecked relay) && is_null (ActorLastSuccessUnix relay)
  else if ActorState relay ≟ ReachabilityReachable then
    match DirActorLastChecked relay, ActorLastSuccessUnix relay with
    | Some checked, Some success => checked =? success
    | _, _ => false
    end
  else if ActorState relay ≟ ReachabilityUnreachable then
    match DirActorLastChecked relay with
    | Some checked => null_or (λ success, success <=? checked) (ActorLastSuccessUnix relay)
    | None => false
    end
  else false.

Definition inbox_evidence (relay : directory_relay) : bool :=
  Bool.eqb (InboxURL relay ≟ "") (is_null (InboxDeclaredUnix relay)) &&
  ((InboxURL relay ≟ "") || canonical_actor (InboxURL relay)) &&
  (if DirInboxProbeState relay ≟ InboxNotChecked then is_null (InboxLastCheckedUnix relay)
   else not_null (InboxLastCheckedUnix relay)) &&
  match InboxDeclaredUnix relay, InboxLastCheckedUnix relay with
  | Some declared, Some checked => declared <=? checked
  | _, _ => true
  end.

(** [ValidateDirectoryProjectionEvidence(relay, observedUnix) == nil]; every
    failure is [ErrDirectoryProjectionData]. *)
Definition ValidateDirectoryProjectionEvidence (relay : directory_relay) (observedUnix : Z) : bool :=
  identity_evidence relay observedUnix && heartbeat_evidence relay observedUnix &&
  ReachabilityState_Valid (ActorState relay) && InboxProbeState_Valid (DirInboxProbeState relay) &&
  ProbeDiagnostic_Valid (ActorDiagnostic relay) && ProbeDiagnostic_Valid (InboxDiagnostic relay) &&
  validObservedFutureTime (NextReachabilityCheckUnix relay) observedUnix &&
  validObservedTime (DirActorLastChecked relay) observedUnix &&
  validObservedTime (ActorLastSuccessUnix relay) observedUnix &&
  validObservedTime (InboxDeclaredUnix relay) observedUnix &&
  validObservedTime (InboxLastCheckedUnix relay) observedUnix &&
  validObservedTime (RFC9421VerifiedUnix relay) observedUnix &&
  actor_evidence relay && inbox_evidence relay && tier_agrees relay observedUnix.

Definition ValidateDirectoryProjectionRelay (relay : directory_relay) (observedUnix : Z) : bool :=
  ValidateDirectoryProjectionEvidence relay observedUnix && directory_eligible relay observedUnix.

(** ** Candidate actors *)

Definition actor_key (actor : string) : string := actor.

(** The WHERE clauses of the candidate statements without the boundary. *)
Definition candidate_relays (d : db) : list string :=
  map fst (List.filter (λ row, relay_eligible row.2) (map_to_list (relays d))).
Definition candidate_discoveries (d : db) : list string :=
  map fst (List.filter (λ row, (discovery_state row.2 ≟ discoveryActive) && negb (suspended_relay d row.1))
             (map_to_list (discoveries d))).
(** [relay_actor > ? ORDER BY relay_actor LIMIT ?] *)
Definition actors_after (boundary : string) (limit : nat) (actors : list string) : list string :=
  take limit (rows_after actor_key boundary (order_by actor_key actors)).
(** [relay_actor < ? ORDER BY relay_actor DESC LIMIT ?]; no bound for the last page *)
Definition actors_before (boundary : string) (limit : nat) (actors : list string) : list string :=
  take limit (reverse (List.filter (λ a, (boundary ≟ "") || key_ltb a boundary) (order_by actor_key actors))).

Fixpoint scan_actors (actors rows : list string) : Tx (list string) :=
  match rows with
  | [] => wrapped "iterate public directory candidates" driver ;; mret actors
  | actor :: rest =>
      wrapped "decode public directory candidate" driver ;;
      check (canonical_actor actor) (storageFailure "validate public directory candidate" ErrInvalidState) ;;
      check (length actors <? S MaximumDirectoryProjectionScan)%nat
        (storageFailure "validate public directory candidates" ErrInvalidState) ;;
      scan_actors (actors ++ [actor]) rest
  end.
Definition readDirectoryCandidateActors (statement : db → list string) : Tx (list string) :=
  rows ← wrapped "read public directory candidates" (query statement);
  scan_actors [] rows.

(** One merge loop for both directions; [before x y] is the order of the rows. *)
Fixpoint merge_actors (before : string → string → bool) (limit : nat) (left right : list string) : list string :=
  match limit with
  | O => []
  | S limit =>
      match left, right with
      | [], [] => []
      | x :: left', [] => x :: merge_actors before limit left' []
      | [], y :: right' => y :: merge_actors before limit [] right'
      | x :: left', y :: right' =>
          if before x y then x :: merge_actors before limit left' right
          else if before y x then y :: merge_actors before limit left right'
          else x :: merge_actors before limit left' right'
      end
  end.
Definition mergeDirectoryActors (left right : list string) (limit : nat) : list string :=
  merge_actors key_ltb limit left right.
Definition mergeDirectoryActorsDescending (left right : list string) (limit : nat) : list string :=
  merge_actors (λ x y, key_ltb y x) limit left right.

Definition readDirectoryCandidateActorsAfter (boundary : string) (limit : nat) : Tx (list string) :=
  relays ← readDirectoryCandidateActors (λ d, actors_after boundary limit (candidate_relays d));
  discoveries ← readDirectoryCandidateActors (λ d, actors_after boundary limit (candidate_discoveries d));
  mret (mergeDirectoryActors relays discoveries limit).
Definition readDirectoryCandidateActorsBefore (boundary : string) (limit : nat) : Tx (list string) :=
  relays ← readDirectoryCandidateActors (λ d, actors_before boundary limit (candidate_relays d));
  discoveries ← readDirectoryCandidateActors (λ d, actors_before boundary limit (candidate_discoveries d));
  mret (mergeDirectoryActorsDescending relays discoveries limit).

(** ** Detail rows *)

(** The tables the details read besides the database: telemetry and profiles. *)
Record extras := Extras { telemetry : gmap string telemetry_row; profile_rows : profile_store }.

Definition firstDirectoryKnownUnix (firstRegistered firstDiscovered : option Z) : option Z :=
  match firstRegistered, firstDiscovered with
  | Some r, Some d => if r <=? d then Some r else Some d
  | Some r, None => Some r
  | None, Some d => Some d
  | None, None => None
  end.

Definition identity_failure (what : string) : error := storageFailure what ErrInvalidState.
Definition lifecycle_known (r : option relay_row) : bool :=
  match r with
  | Some r => ((lifecycle_state r ≟ lifecycleRegistered) || (lifecycle_state r ≟ lifecyclePruned)) &&
              (administrative_state r ≟ administrativeActive)
  | None => false
  end.
Definition lifecycle_registered (r : option relay_row) : bool :=
  match r with
  | Some r => (lifecycle_state r ≟ lifecycleRegistered) && (administrative_state r ≟ administrativeActive)
  | None => false
  end.
Definition discovery_public (r : option discovery_row) : bool :=
  match r with Some r => discovery_state r ≟ discoveryActive | None => false end.

Definition assemble (actor : string) (profile : RelayProfile) (tel : option telemetry_row)
    (relay : option relay_row) (discovery : option discovery_row) (observation : option observation_row)
    (diag : option diagnostic_row) (firstKnown : Z) (base heartbeat : string) (tier : Z) : directory_relay := {|
  RelayActor := actor; PublicBaseURL := base; Profile := profile;
  DirReceivingCount := receiving_instance_count <$> tel; TelemetryReportedUnix := reported_at <$> tel;
  DirParticipatingCount := tel ≫= participating_instance_count;
  ParticipatingReportedUnix := tel ≫= participating_reported_at;
  LifecycleKnown := lifecycle_known relay; DirRegistered := lifecycle_registered relay;
  Discovered := discovery_public discovery; FirstKnownUnix := firstKnown; Tier := tier;
  HeartbeatState := heartbeat; LastSeenUnix := last_seen_at_unix <$> relay;
  LastHeartbeatUnix := relay ≫= last_heartbeat_at_unix;
  ActorState := match observation with Some o => actor_state o | None => ReachabilityUnknown end;
  DirActorLastChecked := observation ≫= actor_last_checked;
  ActorLastSuccessUnix := observation ≫= actor_last_success;
  ActorDiagnostic := match diag with Some g => actor_diagnostic g | None => no_diagnostic end;
  InboxDiagnostic := match diag with Some g => inbox_diagnostic g | None => no_diagnostic end;
  NextReachabilityCheckUnix := next_check_at <$> diag;
  InboxURL := match observation ≫= inbox_url with Some url => url | None => "" end;
  InboxDeclaredUnix := observation ≫= inbox_declared;
  DirInboxProbeState := match observation with Some o => inbox_probe_state o | None => InboxNotChecked end;
  InboxLastCheckedUnix := observation ≫= inbox_last_checked;
  RFC9421VerifiedUnix := observation ≫= rfc9421_verified |}.

(** One row of the joined query; [Ok None] hides the actor. A joined table's
    columns are NULL exactly when it has no row. *)
Definition directory_detail (observedUnix : Z) (d : db) (tel : gmap string telemetry_row)
    (profile : RelayProfile) (actor : string) : result error (option directory_relay) :=
  let relay := relays d !! actor in
  let discovery := discoveries d !! actor in
  let telemetry := tel !! actor in
  let identity_ok base := match base with Some u => canonical_identity actor u | None => true end in
  let relayBase := public_base_url <$> relay in
  let discoveryBase := discovery_base <$> discovery in
  if negb (identity_ok relayBase) then Err (identity_failure "validate public directory lifecycle identity")
  else if negb (identity_ok discoveryBase) then Err (identity_failure "validate public directory discovery identity")
  else if match relayBase, discoveryBase with Some x, Some y => negb (x ≟ y) | _, _ => false end
  then Err (identity_failure "validate public directory identity")
  else if match relay with
          | Some r => negb (RelayLifecycleState_Valid (lifecycle_state r)) ||
                      negb (RelayAdministrativeState_Valid (administrative_state r))
          | None => false
          end
  then Err (identity_failure "validate public directory lifecycle state")
  else if match discovery with Some r => negb (DiscoveryState_Valid (discovery_state r)) | None => false end
  then Err (identity_failure "validate public directory discovery state")
  else if suspended_relay d actor then Ok None
  else if negb (lifecycle_known relay) && negb (discovery_public discovery) then Ok None
  else
    match firstDirectoryKnownUnix (first_registered_at_unix <$> relay) (first_discovered <$> discovery) with
    | None => Err (identity_failure "validate public directory details")
    | Some firstKnown =>
        if negb (Bool.eqb (is_null (telemetry ≫= participating_instance_count))
                          (is_null (telemetry ≫= participating_reported_at))) ||
           negb (null_or (λ v, (0 <=? v) && (v <=? MaximumReceivingInstanceCount))
                   (receiving_instance_count <$> telemetry)) ||
           negb (null_or (λ v, (0 <=? v) && (v <=? MaximumParticipatingInstanceCount))
                   (telemetry ≫= participating_instance_count))
        then Err (identity_failure "validate public directory telemetry")
        else
          match (if lifecycle_known relay then relayBase else discoveryBase) with
          | None => Err (identity_failure "validate public directory details")
          | Some base =>
              match ClassifyPublicHeartbeat (relay ≫= last_heartbeat_at_unix) observedUnix with
              | Err e => Err (storageFailure "classify public directory heartbeat" e)
              | Ok heartbeat =>
                  let row := assemble actor profile telemetry relay discovery (observations d !! actor)
                               (diagnostics d !! actor) firstKnown base heartbeat in
                  match ClassifyDirectoryTier (row 0) observedUnix with
                  | Err e => Err (storageFailure "classify public directory tier" e)
                  | Ok tier =>
                      if ValidateDirectoryProjectionEvidence (row tier) observedUnix then Ok (Some (row tier))
                      else Err (storageFailure "validate public directory evidence" ErrDirectoryProjectionData)
                  end
              end
          end
    end.


Fixpoint detail_rows (observedUnix : Z) (d : db) (tel : gmap string telemetry_row)
    (profiles : gmap string RelayProfile) (result : gmap string (option directory_relay)) (actors : list string) : Tx (gmap string (option directory_relay)) :=
  match actors with
  | [] => wrapped "iterate public directory details" driver ;; mret result
  | actor :: rest =>
      wrapped "decode public directory details" driver ;;
      check (negb (not_null (result !! actor))) (identity_failure "validate public directory details") ;;
      let profile := match profiles !! actor with Some p => p | None => zero_profile end in
      relay ← tx_lift (directory_detail observedUnix d tel profile actor);
      detail_rows observedUnix d tel profiles (<[actor := relay]> result) rest
  end.

(** [ORDER BY seed.relay_actor] over the seeds, each with its joined rows. *)
Definition readDirectoryProjectionDetails (x : extras) (actors : list string) (observedUnix : Z) : Tx (gmap string (option directory_relay)) :=
  check (negb ((length actors =? 0) || (MaximumDirectoryProjectionScan <? length actors))%nat)
    ErrDirectoryProjectionInput ;;
  profiles ← readEffectiveProfiles (profile_rows x) actors;
  d ← wrapped "read public directory details" (query (λ d, d));
  result ← detail_rows observedUnix d (telemetry x) profiles ∅ (order_by actor_key actors);
  check (size result =? length actors)%nat (identity_failure "validate public directory details") ;;
  mret result.

(** ** The scan of one request *)

Definition relay_cursor (relay : directory_relay) : directory_cursor :=
  DirectoryCursor (Tier relay) (RelayActor relay).

(** [setDirectoryForwardPrevious] *)
Definition forward_previous (relays : list directory_relay) (after : directory_cursor) : directory_cursor :=
  if directory_cursor_eqb after directory_start then directory_start
  else match relays with [] => after | first :: _ => relay_cursor first end.
(** [setDirectoryReverseNext] *)
Definition reverse_next (relays : list directory_relay) (fallback : directory_cursor) : directory_cursor :=
  match list.last relays with Some last => relay_cursor last | None => fallback end.

Inductive scan_stop :=
| PageFull (page : list directory_relay)
| Scanned (page : list directory_relay) (boundary : string).

(** The loop over the candidates of one read: it stops at the relay that fills
    the page. *)
Fixpoint scan_candidates (rows : gmap string (option directory_relay)) (tier : Z) (limit observedUnix : Z) (page : list directory_relay)
    (boundary : string) (candidates : list string) : result error scan_stop :=
  match candidates with
  | [] => Ok (Scanned page boundary)
  | actor :: rest =>
      match rows !! actor with
      | None => Err (identity_failure "validate public directory projection")
      | Some None => scan_candidates rows tier limit observedUnix page actor rest
      | Some (Some relay) =>
          if negb (Tier relay =? tier) then scan_candidates rows tier limit observedUnix page actor rest
          else if negb (ValidateDirectoryProjectionRelay relay observedUnix)
          then Err (storageFailure "validate public directory projection" ErrDirectoryProjectionData)
          else
            let page := page ++ [relay] in
            if Z.of_nat (length page) =? limit then Ok (PageFull page)
            else scan_candidates rows tier limit observedUnix page actor rest
      end
  end.

(** The loop of [hasDirectoryRelayAfter] and [hasDirectoryRelayBefore] over one read. *)
Fixpoint any_in_tier (rows : gmap string (option directory_relay)) (tier : Z) (candidates : list string) : result error bool :=
  match candidates with
  | [] => Ok false
  | actor :: rest =>
      match rows !! actor with
      | None => Err (identity_failure "validate public directory projection")
      | Some (Some relay) => if Tier relay =? tier then Ok true else any_in_tier rows tier rest
      | Some None => any_in_tier rows tier rest
      end
  end.

(** The shared loop of the two: tiers in the order of [next_tier], each scanned
    from [boundary] and the later ones from their start. *)
Fixpoint has_relay_loop (read : string → nat → Tx (list string)) (x : extras) (observedUnix lastTier : Z)
    (next_tier : Z → Z) (fuel : nat) (tier : Z) (boundary : string) (scanned : nat) : Tx bool :=
  match fuel with
  | O => tx_fail ErrInvalidState
  | S fuel =>
      let remaining := (MaximumDirectoryProjectionScan - scanned)%nat in
      if (remaining =? 0)%nat then mret true
      else
        candidates ← read boundary (S remaining);
        let seeds := take remaining candidates in
        found ← (if (length seeds =? 0)%nat then mret false
                 else rows ← readDirectoryProjectionDetails x seeds observedUnix;
                      tx_lift (any_in_tier rows tier seeds));
        let scanned := (scanned + length seeds)%nat in
        if (found : bool) then mret true
        else if (length seeds <? length candidates)%nat then mret true
        else if (MaximumDirectoryProjectionScan <=? scanned)%nat && negb (tier =? lastTier) then mret true
        else if tier =? lastTier then mret false
        else has_relay_loop read x observedUnix lastTier next_tier fuel (next_tier tier) "" scanned
  end.
Definition tier_fuel : nat := 5.
Definition hasDirectoryRelayAfter (x : extras) (cursor : directory_cursor) (observedUnix : Z) : Tx bool :=
  check (directory_cursor_valid cursor && negb (directory_cursor_eqb cursor directory_start))
    ErrDirectoryProjectionInput ;;
  has_relay_loop readDirectoryCandidateActorsAfter x observedUnix DirectoryTierGraveyard (λ t, t + 1) tier_fuel
    (cursor_tier cursor) (cursor_actor cursor) 0.
Definition hasDirectoryRelayBefore (x : extras) (cursor : directory_cursor) (observedUnix : Z) : Tx bool :=
  check (directory_cursor_valid cursor && negb (directory_cursor_eqb cursor directory_start))
    ErrDirectoryProjectionInput ;;
  has_relay_loop readDirectoryCandidateActorsBefore x observedUnix DirectoryTierHeartbeatOnline (λ t, t - 1)
    tier_fuel (cursor_tier cursor) (cursor_actor cursor) 0.

(** [listDirectoryRelaysAfter]: the [for] loop over tiers. *)
Fixpoint list_after_loop (x : extras) (q : directory_query) (observedUnix : Z) (fuel : nat) (tier : Z)
    (boundary : string) (scanned : nat) (page : list directory_relay) : Tx directory_page :=
  let done next := mret (DirectoryPage page (forward_previous page (dir_after q)) next) in
  match fuel with
  | O => tx_fail ErrInvalidState
  | S fuel =>
      if negb (DirectoryTier_Valid tier) || negb (scanned <? MaximumDirectoryProjectionScan)%nat
      then done directory_start
      else
        let remaining := (MaximumDirectoryProjectionScan - scanned)%nat in
        candidates ← readDirectoryCandidateActorsAfter boundary (S remaining);
        if (length candidates =? 0)%nat then
          if tier =? DirectoryTierGraveyard then done directory_start
          else list_after_loop x q observedUnix fuel (tier + 1) "" scanned page
        else
          let seeds := take remaining candidates in
          rows ← readDirectoryProjectionDetails x seeds observedUnix;
          stop ← tx_lift (scan_candidates rows tier (dir_limit q) observedUnix page boundary seeds);
          match stop with
          | PageFull page =>
              let cursor := match list.last page with Some r => relay_cursor r | None => directory_start end in
              more ← hasDirectoryRelayAfter x cursor observedUnix;
              mret (DirectoryPage page (forward_previous page (dir_after q))
                      (if (more : bool) then cursor else directory_start))
          | Scanned page boundary =>
              let scanned := (scanned + length seeds)%nat in
              let finish next := mret (DirectoryPage page (forward_previous page (dir_after q)) next) in
              if (length seeds <? length candidates)%nat then finish (DirectoryCursor tier boundary)
              else if (scanned =? MaximumDirectoryProjectionScan)%nat then
                finish (if tier <? DirectoryTierGraveyard then DirectoryCursor tier boundary else directory_start)
              else if tier =? DirectoryTierGraveyard then finish directory_start
              else list_after_loop x q observedUnix fuel (tier + 1) "" scanned page
          end
  end.
Definition listDirectoryRelaysAfter (x : extras) (q : directory_query) (observedUnix : Z) : Tx directory_page :=
  let started := negb (directory_cursor_eqb (dir_after q) directory_start) in
  list_after_loop x q observedUnix tier_fuel
    (if started then cursor_tier (dir_after q) else DirectoryTierHeartbeatOnline)
    (if started then cursor_actor (dir_after q) else "") 0 [].

(** [listDirectoryRelaysBefore]: [page] collects the relays backwards. *)
Fixpoint list_before_loop (x : extras) (q : directory_query) (observedUnix : Z) (fuel : nat) (tier : Z)
    (boundary : string) (scanned : nat) (page : list directory_relay) : Tx directory_page :=
  let finish page previous fallback :=
    mret (DirectoryPage (reverse page) previous (reverse_next (reverse page) fallback)) in
  match fuel with
  | O => tx_fail ErrInvalidState
  | S fuel =>
      if negb (DirectoryTier_Valid tier) || negb (scanned <? MaximumDirectoryProjectionScan)%nat
      then finish page directory_start directory_start
      else
        let remaining := (MaximumDirectoryProjectionScan - scanned)%nat in
        candidates ← readDirectoryCandidateActorsBefore boundary (S remaining);
        if (length candidates =? 0)%nat then
          if tier =? DirectoryTierHeartbeatOnline then finish page directory_start directory_start
          else list_before_loop x q observedUnix fuel (tier - 1) "" scanned page
        else
          let seeds := take remaining candidates in
          rows ← readDirectoryProjectionDetails x seeds observedUnix;
          stop ← tx_lift (scan_candidates rows tier (dir_limit q) observedUnix page boundary seeds);
          match stop with
          | PageFull page =>
              let relays := reverse page in
              let first := match relays with r :: _ => relay_cursor r | [] => directory_start end in
              moreEarlier ← hasDirectoryRelayBefore x first observedUnix;
              mret (DirectoryPage relays (if (moreEarlier : bool) then first else directory_start)
                      (reverse_next relays directory_start))
          | Scanned page boundary =>
              let scanned := (scanned + length seeds)%nat in
              let continuation := DirectoryCursor tier boundary in
              if (length seeds <? length candidates)%nat then finish page continuation continuation
              else if (scanned =? MaximumDirectoryProjectionScan)%nat then
                finish page (if DirectoryTierHeartbeatOnline <? tier then continuation else directory_start)
                  continuation
              else if tier =? DirectoryTierHeartbeatOnline then finish page directory_start directory_start
              else list_before_loop x q observedUnix fuel (tier - 1) "" scanned page
          end
  end.
Definition listDirectoryRelaysBefore (x : extras) (q : directory_query) (observedUnix : Z) : Tx directory_page :=
  list_before_loop x q observedUnix tier_fuel (cursor_tier (dir_before q)) (cursor_actor (dir_before q)) 0 [].

Definition ListDirectoryRelays_query (x : extras) (q : directory_query) : Tx directory_page :=
  let observedUnix := unix_of (dir_observed q) in
  let after := negb (directory_cursor_eqb (dir_after q) directory_start) in
  let before := negb (directory_cursor_eqb (dir_before q) directory_start) in
  check (negb (negb (directory_cursor_valid (dir_after q)) || negb (directory_cursor_valid (dir_before q)) ||
               (after && before) || (dir_limit q <=? 0) || (MaximumDirectoryProjectionPage <? dir_limit q)))
    ErrDirectoryProjectionInput ;;
  check (negb (observedUnix <? 0)) ErrDirectoryProjectionInput ;;
  if before then listDirectoryRelaysBefore x q observedUnix else listDirectoryRelaysAfter x q observedUnix.
Definition ListDirectoryRelays (c : call) (x : extras) (q : directory_query) (d : db) : result error directory_page :=
  run_read c (ListDirectoryRelays_query x q) d.
End Directory.
