(* ===== verification/Evidence.v ===== *)
(** * Evidence: what the public projection may assume of a database

    The second invariant of the repository: no row carries a time after the last
    operation, stored inbox URLs are canonical and were declared before they were
    checked, diagnostics are valid and due within a week.  Every operation keeps
    it, so the directory's own validation accepts every row it assembles. *)
From S2P Require Import Prelude Identity Vocabulary Store Repository Lifecycle Discovery Reachability Pruning Invariant Contract Refinement System.
Local Open Scope string_scope.
Local Open Scope Z_scope.
Local Open Scope go_scope.
Local Open Scope list_scope.

Section Evidence.
Context `{RelayIdentity}.

Definition observation_sound (now : Z) (o : observation_row) : Prop :=
  observation_updated o ≤ now ∧
  (∀ u, inbox_url o = Some u → canonical_actor u = true) ∧
  (∀ declared checked, inbox_declared o = Some declared → inbox_last_checked o = Some checked → declared ≤ checked).
Definition diagnostic_sound (g : diagnostic_row) : Prop :=
  ProbeDiagnostic_Valid (actor_diagnostic g) = true ∧ ProbeDiagnostic_Valid (inbox_diagnostic g) = true ∧
  next_check_at g ≤ diagnostic_updated g + seconds_of ReachabilityUnreachableRetry.

Record evidence (now : Z) (d : db) : Prop := {
  ev_relays : ∀ a r, relays d !! a = Some r → updated_at_unix r ≤ now ∧ last_seen_at_unix r ≤ now;
  ev_discoveries : ∀ a r, discoveries d !! a = Some r → discovery_updated r ≤ now;
  ev_observations : ∀ a o, observations d !! a = Some o → observation_sound now o;
  ev_diagnostics : ∀ a g, diagnostics d !! a = Some g → diagnostic_sound g }.

Lemma initial_evidence now : evidence now initial_db.
Proof. split; intros a r; simpl; by rewrite lookup_empty. Qed.

(** The logs and the policy are no evidence. *)
Lemma evidence_same now d d' : evidence now d →
  relays d' = relays d → discoveries d' = discoveries d → observations d' = observations d →
  diagnostics d' = diagnostics d → evidence now d'.
Proof. intros [] H1 H2 H3 H4. split; by rewrite ?H1, ?H2, ?H3, ?H4. Qed.

Lemma observation_sound_le now now' o : now ≤ now' → observation_sound now o → observation_sound now' o.
Proof. intros Hn (?&?&?). split; [lia|done]. Qed.
Lemma evidence_le now now' d : now ≤ now' → evidence now d → evidence now' d.
Proof.
  intros Hn []. split; [intros a r Hr; destruct (ev_relays0 a r Hr); lia|intros a r Hr; specialize (ev_discoveries0 a r Hr); lia| |done].
  intros a o Ho. eapply observation_sound_le; eauto.
Qed.

Lemma ev_put_relay now a r d : evidence now d → updated_at_unix r ≤ now → last_seen_at_unix r ≤ now →
  evidence now (put_relay a r d).
Proof.
  intros [] Hu Hs. split; simpl; try done. intros b s [[<- <-]|[_ Hb]]%lookup_insert_Some; [done|by apply (ev_relays0 b)].
Qed.
Lemma ev_put_discovery now a r d : evidence now d → discovery_updated r ≤ now → evidence now (put_discovery a r d).
Proof.
  intros [] Hu. split; simpl; try done. intros b s [[<- <-]|[_ Hb]]%lookup_insert_Some; [done|by apply (ev_discoveries0 b)].
Qed.
Lemma ev_put_observation now a o d : evidence now d → observation_sound now o → evidence now (put_observation a o d).
Proof.
  intros [] Ho. split; simpl; try done. intros b s [[<- <-]|[_ Hb]]%lookup_insert_Some; [done|by apply (ev_observations0 b)].
Qed.
Lemma ev_put_diagnostic now a g d : evidence now d → diagnostic_sound g → evidence now (put_diagnostic a g d).
Proof.
  intros [] Hg. split; simpl; try done. intros b s [[<- <-]|[_ Hb]]%lookup_insert_Some; [done|by apply (ev_diagnostics0 b)].
Qed.
Lemma ev_log_relay now a kind t d : evidence now d → evidence now (log_relay_event a kind t d).
Proof. intros Hd. by apply (evidence_same now d). Qed.
Lemma ev_log_moderation now a x m r t d : evidence now d → evidence now (log_moderation_event a x m r t d).
Proof. intros Hd. by apply (evidence_same now d). Qed.
Lemma ev_log_enrollment now x o t d : evidence now d → evidence now (log_enrollment_event x o t d).
Proof. intros Hd. by apply (evidence_same now d). Qed.
Lemma ev_log_discovery now a x audit t d : evidence now d → evidence now (log_discovery a x audit t d).
Proof. intros Hd. by apply (evidence_same now d). Qed.
Lemma ev_set_policy now p d : evidence now d → evidence now (set_policy p d).
Proof. intros Hd. by apply (evidence_same now d). Qed.

Lemma ev_observation_at now a t d : evidence now d → t ≤ now → observation_sound now (observation_at a t d).
Proof.
  intros Hd Ht. unfold observation_at. destruct (observations d !! a) as [o|] eqn:Ho; [by apply (ev_observations _ _ Hd a)|].
  by split.
Qed.

Lemma ev_mark_verified now a t d : evidence now d → t ≤ now → evidence now (mark_verified a t d).
Proof.
  intros Hd Ht. apply ev_put_observation; [done|]. rewrite maxInt64_max.
  destruct (ev_observation_at now a t d Hd Ht) as (?&?&?). split; simpl; [lia|done].
Qed.

Lemma unreach_sound now state t updated o : observation_sound now o → updated ≤ now →
  observation_sound now (unreach_row state t updated o).
Proof. intros (?&?&?) Hu. by split. Qed.
End Evidence.

Create HintDb evidence.
#[export] Hint Resolve ev_put_relay ev_put_discovery ev_put_observation ev_put_diagnostic ev_log_relay
  ev_log_moderation ev_log_enrollment ev_log_discovery ev_set_policy ev_mark_verified : evidence.

Section Preserve.
Context `{RelayIdentity}.

Lemma Register_evidence intent t d out d' now : evidence now d → unix_of t ≤ now →
  Register_promise intent t d = Ok (out, d') → evidence now d'.
Proof.
  unfold Register_promise. intros Hd Ht Hp. guards Hp. unfold registered_row in Hp.
  destruct (relays d !! register_actor intent) as [r|]; [destruct (lifecycle_state r ≟ lifecycleRegistered)|];
    injection Hp as <- <-; auto with evidence.
Qed.

Lemma Heartbeat_evidence a t d out d' now : evidence now d → unix_of t ≤ now →
  Heartbeat_promise a t d = Ok (out, d') → evidence now d'.
Proof.
  unfold Heartbeat_promise. intros Hd Ht Hp. guards Hp.
  destruct (relays d !! a); [|done]. guards Hp. injection Hp as <- <-. auto with evidence.
Qed.

Lemma Unregister_evidence a t d out d' now : evidence now d → unix_of t ≤ now →
  Unregister_promise a t d = Ok (out, d') → evidence now d'.
Proof.
  unfold Unregister_promise. intros Hd Ht Hp. guards Hp.
  destruct (relays d !! a) as [r|] eqn:Hr; [destruct (lifecycle_state r ≟ lifecycleRegistered)|];
    injection Hp as <- <-; apply ev_log_relay; case_match; auto with evidence;
    destruct (ev_relays _ _ Hd a r Hr); auto with evidence.
Qed.

Lemma moderate_evidence intent t target d out d' now : evidence now d → unix_of t ≤ now →
  moderate_promise intent t target d = Ok (out, d') → evidence now d'.
Proof.
  unfold moderate_promise. intros Hd Ht Hp. guards Hp.
  destruct (relays d !! moderation_intent_actor intent) as [r|] eqn:Hr; [|done]. guards Hp.
  destruct (ev_relays _ _ Hd _ r Hr).
  destruct (target ≟ administrativeSuspended), (administrative_state r ≟ administrativeSuspended);
    injection Hp as <- <-; auto with evidence.
Qed.

Lemma SetEnrollment_evidence open operator t d out d' now : evidence now d →
  SetEnrollment_promise open operator t d = Ok (out, d') → evidence now d'.
Proof.
  unfold SetEnrollment_promise. intros Hd Hp. guards Hp. destruct (classifyEnrollment _ open).
  injection Hp as <- <-. case_match; auto with evidence.
Qed.

Lemma AddDiscovery_evidence intent t d out d' now : evidence now d → unix_of t ≤ now →
  AddDiscovery_promise intent t d = Ok (out, d') → evidence now d'.
Proof.
  unfold AddDiscovery_promise. intros Hd Ht Hp. guards Hp.
  destruct (discoveries d !! add_actor intent) as [r|]; [destruct (discovery_state r ≟ discoveryActive)|guards Hp];
    injection Hp as <- <-; auto with evidence.
Qed.

Lemma RemoveDiscovery_evidence intent t d out d' now : evidence now d → unix_of t ≤ now →
  RemoveDiscovery_promise intent t d = Ok (out, d') → evidence now d'.
Proof.
  unfold RemoveDiscovery_promise. intros Hd Ht Hp. guards Hp.
  destruct (discoveries d !! remove_actor intent) as [r|]; [destruct (discovery_state r ≟ discoveryActive)|];
    injection Hp as <- <-; auto with evidence.
Qed.

Lemma RecordActorObservation_evidence intent t d out d' now : evidence now d → unix_of t ≤ now →
  RecordActorObservation_promise intent t d = Ok (out, d') → evidence now d'.
Proof.
  unfold RecordActorObservation_promise. intros Hd Ht Hp. guards Hp. injection Hp as <- <-.
  pose proof (ev_observation_at now (actor_intent_actor intent) (unix_of t) d Hd Ht) as Ho.
  assert (Hu : Z.max (observation_updated (observation_at (actor_intent_actor intent) (unix_of t) d)) (unix_of t) ≤ now).
  { destruct Ho as (?&_). lia. }
  apply ev_put_observation; [done|]. destruct (actor_intent_state intent ≟ ReachabilityReachable).
  - split; [done|]. simpl. split; [|done]. unfold present. intros u.
    destruct (actor_intent_inbox intent ≟ "") eqn:He; [done|]. intros [= <-].
    match goal with Hv : validateActorObservationIntent intent = true |- _ =>
      unfold validateActorObservationIntent in Hv; rewrite He in Hv end.
    simpl in *. unfold canonical_inbox in *. bool_facts. done.
  - by apply unreach_sound.
Qed.

Lemma RecordInboxObservation_evidence intent t d out d' now : evidence now d → unix_of t ≤ now →
  RecordInboxObservation_promise intent t d = Ok (out, d') → evidence now d'.
Proof.
  unfold RecordInboxObservation_promise. intros Hd Ht Hp. guards Hp.
  destruct (observations d !! inbox_intent_actor intent) as [o|] eqn:Ho; [|done]. guards Hp. injection Hp as <- <-.
  destruct (ev_observations _ _ Hd _ o Ho) as (?&?&_). apply ev_put_observation; [done|].
  split; [simpl; lia|]. split; [done|]. simpl. intros declared checked Hde [= <-].
  destruct (inbox_declared o); simplify_eq/=. bool_facts. done.
Qed.

Lemma probe_inbox_canonical intent : validateReachabilityObservationIntent intent = true →
  ProbeDiagnostic_Valid (reach_actor_diagnostic intent) = true ∧
  ProbeDiagnostic_Valid (reach_inbox_diagnostic intent) = true ∧
  ((reach_actor_state intent ≟ ReachabilityReachable) = true → reach_inbox_url intent ≠ "" →
     canonical_actor (reach_inbox_url intent) = true).
Proof.
  unfold validateReachabilityObservationIntent. intros Hv. bool_facts. split; [done|split; [done|]].
  intros Hr Hne. rewrite Hr, (proj2 (String.eqb_neq _ _) Hne) in *. bool_facts. done.
Qed.

Lemma RecordReachability_evidence intent t d out d' now : evidence now d → db_ok d → unix_of t ≤ now →
  RecordReachabilityObservation_promise intent t d = Ok (out, d') → evidence now d'.
Proof.
  unfold RecordReachabilityObservation_promise. intros Hd Hok Ht Hp. guards Hp.
  destruct (negb (eligible_now d (reach_actor intent)) || _); [by injection Hp as <- <-|]. guards Hp. injection Hp as <- <-.
  destruct (probe_inbox_canonical intent) as (Hdg1&Hdg2&Hin); [done|].
  pose proof (ev_observation_at now (reach_actor intent) (unix_of t) d Hd Ht) as Ho.
  assert (Hu : Z.max (observation_updated (observation_at (reach_actor intent) (unix_of t) d)) (unix_of t) ≤ now).
  { destruct Ho as (?&_). lia. }
  apply ev_put_diagnostic; [apply ev_put_observation; [done|]|].
  - unfold probe_observation. destruct (reach_actor_state intent ≟ ReachabilityReachable); [|by apply unreach_sound].
    split; [done|]. simpl. destruct (String.eqb_spec (reach_inbox_url intent) ""); split; try done.
    + intros u [= <-]. by apply Hin.
    + by intros ? ? [= <-] [= <-].
  - pose proof (probe_schedule_range intent (unix_of t) d Hok) as Hs. unfold probe_diagnostic, diagnostic_sound.
    destruct (probe_schedule intent (unix_of t) d) as [streak next].
    destruct (diagnostics d !! reach_actor intent) as [g|] eqn:Hdg; simpl; split_and!; try done; try lia.
    destruct (reach_actor_state intent ≟ "reachable"); [done|]. by destruct (ev_diagnostics _ _ Hd _ g Hdg) as (_&?&_).
Qed.

Lemma SoftPrune_evidence a t d out d' now : evidence now d → unix_of t ≤ now →
  SoftPrune_promise a t d = Ok (out, d') → evidence now d'.
Proof.
  unfold SoftPrune_promise. intros Hd Ht Hp. guards Hp.
  destruct (relays d !! a) as [r|] eqn:Hr; [|by injection Hp as <- <-].
  destruct (lifecycle_state r ≟ lifecyclePruned); [by injection Hp as <- <-|].
  destruct (_ && _); injection Hp as <- <-; [|done].
  destruct (ev_relays _ _ Hd a r Hr). auto with evidence.
Qed.

Lemma promised_evidence o t d out d' now : evidence now d → db_ok d → unix_of t ≤ now →
  promised o t d = Ok (out, d') → evidence now d'.
Proof.
  intros Hd Hok Ht. destruct o; simpl; intros Hp.
  - by eapply Register_evidence.
  - by eapply Heartbeat_evidence.
  - by eapply Unregister_evidence.
  - by eapply moderate_evidence.
  - by eapply moderate_evidence.
  - by eapply SetEnrollment_evidence.
  - by eapply AddDiscovery_evidence.
  - by eapply RemoveDiscovery_evidence.
  - by eapply RecordActorObservation_evidence.
  - by eapply RecordInboxObservation_evidence.
  - by eapply RecordReachability_evidence.
  - by eapply SoftPrune_evidence.
Qed.

(** One call keeps the evidence. *)
Lemma evidence_step now c o t d r d' : db_ok d ∧ evidence now d → clock_ok t → unix_of t ≤ now → perform c o t d = (r, d') →
  db_ok d' ∧ evidence now d'.
Proof.
  intros [Hok Hev] Hc Ht Hp. destruct r as [out|e].
  - pose proof (performed_ok c o t d out d' Hok Hc Hp) as Hpr.
    split; [by eapply promised_preserves|by eapply promised_evidence].
  - apply performed_error in Hp as ->. done.
Qed.
Lemma after_evidence now o t d : db_ok d ∧ evidence now d → clock_ok t → unix_of t ≤ now → db_ok (perform plain_call o t d).2 ∧ evidence now (perform plain_call o t d).2.
Proof. intros Hd Hc Ht. destruct (perform plain_call o t d) as [r d'] eqn:E. by apply (evidence_step now plain_call o t d r d'). Qed.
End Preserve.
