(* ===== verification/DirectoryFacts.v ===== *)
(** * DirectoryFacts: the public projection is total, tiered and complete

    On a database with sound evidence every candidate has a detail row that passes
    the directory's own validation; a request returns the next relays in tier and
    actor order; following the continuations lists every public relay once. *)
From S2P Require Import Prelude Identity Vocabulary Store Repository Paging Lifecycle Discovery Reachability Pruning Invariant Contract Refinement System Guarantees ReachabilityFacts Health Telemetry Directory Evidence.
Local Open Scope string_scope.
Local Open Scope Z_scope.
Local Open Scope go_scope.
Local Open Scope list_scope.

Section Details.
Context `{RelayIdentity} `{ProfileReader}.

(** ** Classification is total on sound evidence *)

Lemma ClassifyPublicHeartbeat_total last now : 0 ≤ now ≤ int64_max → (∀ v, last = Some v → 0 ≤ v ≤ now) →
  ∃ hb, ClassifyPublicHeartbeat last now = Ok hb ∧ PublicHeartbeatState_Valid hb = true.
Proof.
  intros Hn Hl. unfold ClassifyPublicHeartbeat. rewrite (proj2 (Z.ltb_ge now 0)) by lia.
  destruct last as [v|]; [|by eexists]. specialize (Hl v eq_refl). rewrite ClassifyHealth_age by lia.
  repeat case_match; simplify_eq/=; by eexists.
Qed.

Lemma ClassifyDirectoryTier_total relay now : 0 ≤ now → 0 ≤ FirstKnownUnix relay ≤ now →
  PublicHeartbeatState_Valid (HeartbeatState relay) = true → ReachabilityState_Valid (ActorState relay) = true →
  InboxProbeState_Valid (DirInboxProbeState relay) = true →
  ∃ tier, ClassifyDirectoryTier relay now = Ok tier ∧ DirectoryTier_Valid tier = true.
Proof.
  intros Hn [Hf1 Hf2] Hh Ha Hi. unfold ClassifyDirectoryTier.
  rewrite (proj2 (Z.ltb_ge now 0)), (proj2 (Z.ltb_ge (FirstKnownUnix relay) 0)), (proj2 (Z.ltb_ge now _)), Hh, Ha, Hi by lia.
  cbn [negb orb]. repeat case_match; by eexists.
Qed.

(** ** Telemetry as the details read it *)

Definition telemetry_sound (now : Z) (tel : gmap string telemetry_row) : Prop :=
  ∀ a r, tel !! a = Some r →
    0 ≤ receiving_instance_count r ≤ 10000000 ∧ 0 ≤ reported_at r ≤ now ∧
    is_null (participating_instance_count r) = is_null (participating_reported_at r) ∧
    (∀ v, participating_instance_count r = Some v → 0 ≤ v ≤ 10000000) ∧
    (∀ v, participating_reported_at r = Some v → 0 ≤ v ≤ now).

(** ** The facts of one public actor *)

Record public_facts (now : Z) (d : db) (a : string) (base : string) (known : Z) : Prop := {
  pf_relay_identity : ∀ r, relays d !! a = Some r → canonical_identity a (public_base_url r) = true ∧ public_base_url r = base;
  pf_discovery_identity : ∀ r, discoveries d !! a = Some r → canonical_identity a (discovery_base r) = true ∧ discovery_base r = base;
  pf_base : canonical_identity a base = true;
  pf_present : relays d !! a = None → discoveries d !! a ≠ None;
  pf_known : firstDirectoryKnownUnix (first_registered_at_unix <$> relays d !! a) (first_discovered <$> discoveries d !! a) = Some known;
  pf_known_time : 0 ≤ known ≤ now }.

Lemma public_facts_hold now d a : db_ok d → evidence now d → eligible_now d a = true →
  ∃ base known, public_facts now d a base known.
Proof.
  intros Hd Hev He.
  assert (Hrel : ∀ r, relays d !! a = Some r → canonical_identity a (public_base_url r) = true ∧ 0 ≤ first_registered_at_unix r ≤ now).
  { intros r Hr. destruct (inv_relays _ _ Hd a r Hr) as [Hc Hi], (ev_relays _ _ Hev a r Hr). unfold relay_check in Hc.
    bool_facts. split; [done|lia]. }
  assert (Hdis : ∀ r, discoveries d !! a = Some r → canonical_identity a (discovery_base r) = true ∧ 0 ≤ first_discovered r ≤ now).
  { intros r Hr. destruct (inv_discoveries _ _ Hd a r Hr) as [Hc Hi]. pose proof (ev_discoveries _ _ Hev a r Hr).
    unfold discovery_check in Hc. bool_facts. split; [done|lia]. }
  unfold eligible_now in He. destruct (relays d !! a) as [r|] eqn:Hr, (discoveries d !! a) as [s|] eqn:Hs; try done.
  - destruct (Hrel r eq_refl), (Hdis s eq_refl).
    exists (public_base_url r), (Z.min (first_registered_at_unix r) (first_discovered s)).
    split; rewrite ?Hr, ?Hs; try done.
    + by intros ? [= <-].
    + intros ? [= <-]. split; [done|]. by apply (canonical_identity_base a).
    + simpl. case_match; bool_facts; f_equal; lia.
    + lia.
  - destruct (Hrel r eq_refl). exists (public_base_url r), (first_registered_at_unix r).
    split; rewrite ?Hr, ?Hs; try done. by intros ? [= <-].
  - destruct (Hdis s eq_refl). exists (discovery_base s), (first_discovered s).
    split; rewrite ?Hr, ?Hs; try done. by intros ? [= <-].
Qed.

(** The assembled row of an actor. *)
Definition public_row (d : db) (tel : gmap string telemetry_row) (p : RelayProfile) (a base heartbeat : string)
    (known tier : Z) : directory_relay :=
  assemble a p (tel !! a) (relays d !! a) (discoveries d !! a) (observations d !! a) (diagnostics d !! a)
    known base heartbeat tier.

Lemma eligible_paths d a : eligible_now d a = true →
  suspended_relay d a = false ∧
  (lifecycle_known (relays d !! a) || discovery_public (discoveries d !! a)) = true.
Proof.
  unfold eligible_now, suspended_relay, lifecycle_known, discovery_public, relay_eligible, one_of. simpl.
  destruct (relays d !! a) as [r|]; simpl.
  - destruct (String.eqb_spec (administrative_state r) administrativeSuspended) as [->|]; simpl.
    + str_consts. by rewrite !andb_false_r.
    + intros He. split; [done|]. rewrite orb_false_r, andb_true_r in He. done.
  - by rewrite andb_true_r.
Qed.

Lemma registered_known r : lifecycle_registered r = true → lifecycle_known r = true.
Proof. destruct r as [r|]; simpl; [|done]. intros [-> ->]%andb_true_iff. done. Qed.

Lemma row_identity_evidence now d tel p a base hb known tier : telemetry_sound now tel → 0 ≤ now →
  public_facts now d a base known → eligible_now d a = true → profile_normalized p = true →
  DirectoryTier_Valid tier = true → identity_evidence (public_row d tel p a base hb known tier) now = true.
Proof.
  intros Htel Hn Hf He Hp Ht. destruct (eligible_paths d a He) as [_ Hpath].
  destruct (pf_known_time _ _ _ _ _ Hf) as [Hk1 Hk2]. unfold identity_evidence, public_row. simpl.
  rewrite Ht, (pf_base _ _ _ _ _ Hf), Hp.
  rewrite (proj2 (Z.ltb_ge now 0)), (proj2 (Z.ltb_ge known 0)), (proj2 (Z.ltb_ge now known)) by lia.
  rewrite <- negb_orb, Hpath. simpl.
  assert (lifecycle_registered (relays d !! a) && negb (lifecycle_known (relays d !! a)) = false) as ->.
  { destruct (lifecycle_registered (relays d !! a)) eqn:Hr; [|done]. by rewrite (registered_known _ Hr). }
  simpl. unfold validObservedTime, MaximumReceivingInstanceCount, MaximumParticipatingInstanceCount.
  destruct (tel !! a) as [r|] eqn:Hr; simpl; [|done].
  destruct (Htel a r Hr) as (Hc&Hrep&Hpair&Hpc&Hpr). rewrite Hpair, eqb_reflx.
  rewrite !(proj2 (Z.leb_le _ _)) by lia. simpl.
  destruct (participating_instance_count r) as [n|]; simpl.
  - specialize (Hpc n eq_refl). rewrite !(proj2 (Z.leb_le _ _)) by lia. simpl.
    destruct (participating_reported_at r) as [v|]; [|done]. specialize (Hpr v eq_refl). bool_lia.
  - destruct (participating_reported_at r) as [v|]; [|done]. specialize (Hpr v eq_refl). bool_lia.
Qed.

Lemma row_heartbeat_evidence now d tel p a base hb known tier : db_ok d → evidence now d →
  ClassifyPublicHeartbeat (relays d !! a ≫= last_heartbeat_at_unix) now = Ok hb →
  heartbeat_evidence (public_row d tel p a base hb known tier) now = true.
Proof.
  intros Hd Hev Hhb. unfold heartbeat_evidence, public_row, validObservedTime. simpl. rewrite Hhb, String.eqb_refl. simpl.
  destruct (relays d !! a) as [r|] eqn:Hr; simpl; [|done]. rewrite andb_false_r. simpl.
  destruct (inv_relays _ _ Hd a r Hr) as [Hc _], (ev_relays _ _ Hev a r Hr). unfold relay_check in Hc.
  destruct (last_heartbeat_at_unix r); cbn [null_or] in *; [|done]. bool_facts. bool_lia.
Qed.

(** The observation and diagnostic columns of a row. *)
Lemma row_observation_evidence now d a : db_ok d → evidence now d → 0 ≤ now → now + 604800 ≤ int64_max →
  let row p tel base hb known tier := public_row d tel p a base hb known tier in
  ∀ p tel base hb known tier, let r := row p tel base hb known tier in
  (ReachabilityState_Valid (ActorState r) && InboxProbeState_Valid (DirInboxProbeState r) &&
   ProbeDiagnostic_Valid (ActorDiagnostic r) && ProbeDiagnostic_Valid (InboxDiagnostic r) &&
   validObservedFutureTime (NextReachabilityCheckUnix r) now && validObservedTime (DirActorLastChecked r) now &&
   validObservedTime (ActorLastSuccessUnix r) now && validObservedTime (InboxDeclaredUnix r) now &&
   validObservedTime (InboxLastCheckedUnix r) now && validObservedTime (RFC9421VerifiedUnix r) now &&
   actor_evidence r && inbox_evidence r)%bool = true.
Proof.
  intros Hd Hev Hn Hmax row p tel base hb known tier r.
  assert (Hdiag : ProbeDiagnostic_Valid (ActorDiagnostic r) = true ∧ ProbeDiagnostic_Valid (InboxDiagnostic r) = true ∧
                  validObservedFutureTime (NextReachabilityCheckUnix r) now = true).
  { unfold r, row, public_row; simpl. destruct (diagnostics d !! a) as [g|] eqn:Hg; simpl; [|done].
    destruct (ev_diagnostics _ _ Hev a g Hg) as (?&?&Hnext). split; [done|split; [done|]].
    destruct (inv_diagnostics _ _ Hd a g Hg) as (Hc&_&o&c&Ho&Hlc&Hle).
    destruct (ev_observations _ _ Hev a o Ho) as (Hu&_). destruct (inv_observations _ _ Hd a o Ho) as [Hoc _].
    unfold diagnostic_check in Hc. unfold observation_check in Hoc. rewrite Hlc in Hoc. cbn [null_or] in Hoc. bool_facts.
    change (seconds_of ReachabilityUnreachableRetry) with 604800 in *. unfold int64_add.
    rewrite int64_wrap_id by (unfold int64_min, int64_max in *; lia). bool_lia. }
  destruct Hdiag as (Hg1&Hg2&Hg3). rewrite Hg1, Hg2, Hg3. clear Hg1 Hg2 Hg3.
  unfold r, row, public_row, validObservedTime, actor_evidence, inbox_evidence; simpl.
  destruct (observations d !! a) as [o|] eqn:Ho; simpl; [|done].
  destruct (inv_observations _ _ Hd a o Ho) as [Hc _], (ev_observations _ _ Hev a o Ho) as (Hu&Hcan&Hord).
  pose proof (observation_check_wf _ _ Hc) as ((_&_&_)&(Hw1&Hw2&Hw3&Hw4&Hw5)&Hst&Hinb&Hps).
  assert (Hwithin : ∀ x, within 0 (observation_updated o) x → match x with None => true | Some v => (0 <=? v) && (v <=? now) end = true).
  { intros [v|] Hw; [|done]. destruct (Hw v eq_refl). bool_lia. }
  rewrite !Hwithin by done. rewrite !andb_true_r.
  assert (Hs : ReachabilityState_Valid (actor_state o) = true) by (by destruct Hst as [[-> _]|[[-> _]|[-> _]]]).
  assert (Hp : InboxProbeState_Valid (inbox_probe_state o) = true) by (by destruct Hps as [[-> _]|(_&?&_)]).
  rewrite Hs, Hp. simpl. apply andb_true_iff. split.
  - destruct Hst as [(->&->&->)|[(->&c&->&->)|(->&c&->&Hsu)]]; str_consts; simpl; [done|by rewrite Z.eqb_refl|].
    destruct (actor_last_success o) as [s|]; [|done]. destruct (Hsu s eq_refl). simpl. bool_lia.
  - assert (Hprobe : (if inbox_probe_state o ≟ InboxNotChecked then is_null (inbox_last_checked o)
                      else not_null (inbox_last_checked o)) = true).
    { destruct Hps as [[-> ->]|(Hne&_&[? ->])]; [done|]. by rewrite (proj2 (String.eqb_neq _ _) Hne). }
    rewrite Hprobe.
    destruct Hinb as [[Hiu Hde]|(u&v&Hiu&Hlen&Hde)]; rewrite Hiu, Hde in *; simpl; [done|].
    assert (u ≠ "") by (intros ->; by destruct Hlen). rewrite (proj2 (String.eqb_neq _ _)), (Hcan u eq_refl) by done. simpl.
    destruct (inbox_last_checked o) as [ch|] eqn:Hch; [|done]. specialize (Hord v ch eq_refl eq_refl). bool_lia.
Qed.

(** The retained-state guards of a detail row pass. *)
Definition retained_guards (d : db) (tel : gmap string telemetry_row) (a base : string) : Prop :=
  (match public_base_url <$> relays d !! a with Some u => canonical_identity a u | None => true end) = true ∧
  (match discovery_base <$> discoveries d !! a with Some u => canonical_identity a u | None => true end) = true ∧
  (match public_base_url <$> relays d !! a, discovery_base <$> discoveries d !! a with
   | Some x, Some y => negb (x ≟ y) | _, _ => false end) = false ∧
  (match relays d !! a with
   | Some r => negb (RelayLifecycleState_Valid (lifecycle_state r)) || negb (RelayAdministrativeState_Valid (administrative_state r))
   | None => false end) = false ∧
  (match discoveries d !! a with Some r => negb (DiscoveryState_Valid (discovery_state r)) | None => false end) = false ∧
  negb (Bool.eqb (is_null (tel !! a ≫= participating_instance_count)) (is_null (tel !! a ≫= participating_reported_at))) ||
    negb (null_or (λ v, (0 <=? v) && (v <=? MaximumReceivingInstanceCount)) (receiving_instance_count <$> tel !! a)) ||
    negb (null_or (λ v, (0 <=? v) && (v <=? MaximumParticipatingInstanceCount)) (tel !! a ≫= participating_instance_count)) = false ∧
  (if lifecycle_known (relays d !! a) then public_base_url <$> relays d !! a else discovery_base <$> discoveries d !! a) = Some base.

Lemma retained_guards_hold now d tel a base known : db_ok d → telemetry_sound now tel →
  public_facts now d a base known → (lifecycle_known (relays d !! a) || discovery_public (discoveries d !! a)) = true →
  retained_guards d tel a base.
Proof.
  intros Hd Htel Hf Hpath. unfold retained_guards. split_and!.
  - destruct (relays d !! a) as [r|] eqn:Hr; [|done]. by destruct (pf_relay_identity _ _ _ _ _ Hf r Hr).
  - destruct (discoveries d !! a) as [r|] eqn:Hr; [|done]. by destruct (pf_discovery_identity _ _ _ _ _ Hf r Hr).
  - destruct (relays d !! a) as [r|] eqn:Hr; [|done]. destruct (discoveries d !! a) as [s|] eqn:Hs; [|done]. simpl.
    destruct (pf_relay_identity _ _ _ _ _ Hf r Hr) as [_ ->], (pf_discovery_identity _ _ _ _ _ Hf s Hs) as [_ ->].
    by rewrite String.eqb_refl.
  - destruct (relays d !! a) as [r|] eqn:Hr; [|done]. destruct (inv_relays _ _ Hd a r Hr) as [Hc _].
    unfold relay_check in Hc. do 15 apply andb_true_iff in Hc as [Hc _].
    apply andb_true_iff in Hc as [Hc ->]. by apply andb_true_iff in Hc as [_ ->].
  - destruct (discoveries d !! a) as [r|] eqn:Hr; [|done]. destruct (inv_discoveries _ _ Hd a r Hr) as [Hc _].
    unfold discovery_check in Hc. do 5 apply andb_true_iff in Hc as [Hc _]. apply andb_true_iff in Hc as [_ ->]. done.
  - unfold MaximumReceivingInstanceCount, MaximumParticipatingInstanceCount.
    destruct (tel !! a) as [r|] eqn:Hr; [|done]. simpl. destruct (Htel a r Hr) as (Hc&_&Hpair&Hpc&_).
    rewrite Hpair, eqb_reflx, !(proj2 (Z.leb_le _ _)) by lia. simpl.
    destruct (participating_instance_count r) as [n|]; [|done]. specialize (Hpc n eq_refl). simpl.
    by rewrite !(proj2 (Z.leb_le _ _)) by lia.
  - destruct (lifecycle_known (relays d !! a)) eqn:Hk.
    + destruct (relays d !! a) as [r|] eqn:Hr; [|done]. simpl. by destruct (pf_relay_identity _ _ _ _ _ Hf r Hr) as [_ ->].
    + destruct (discoveries d !! a) as [r|] eqn:Hr; [|done]. simpl. by destruct (pf_discovery_identity _ _ _ _ _ Hf r Hr) as [_ ->].
Qed.

(** Every eligible actor has a detail row, and the row passes the directory's
    own validation. *)
Lemma directory_detail_public now d tel p a : db_ok d → evidence now d → telemetry_sound now tel →
  0 ≤ now → now + 604800 ≤ int64_max → profile_normalized p = true → eligible_now d a = true →
  ∃ r, directory_detail now d tel p a = Ok (Some r) ∧ RelayActor r = a ∧ Profile r = p ∧
       DirectoryTier_Valid (Tier r) = true ∧ ValidateDirectoryProjectionRelay r now = true ∧
       ∃ base hb known, r = public_row d tel p a base hb known (Tier r) ∧
                        ClassifyDirectoryTier r now = Ok (Tier r).
Proof.
  intros Hd Hev Htel Hn Hmax Hp He. destruct (public_facts_hold now d a Hd Hev He) as (base&known&Hf).
  destruct (eligible_paths d a He) as [Hsus Hpath].
  destruct (ClassifyPublicHeartbeat_total (relays d !! a ≫= last_heartbeat_at_unix) now) as (hb&Hhb&Hhv); [lia| |].
  { destruct (relays d !! a) as [r|] eqn:Hr; [|done]. simpl. intros v Hv.
    destruct (inv_relays _ _ Hd a r Hr) as [Hc _], (ev_relays _ _ Hev a r Hr). unfold relay_check in Hc. rewrite Hv in Hc.
    cbn [null_or] in Hc. bool_facts. lia. }
  set (row := public_row d tel p a base hb known).
  pose proof (row_observation_evidence now d a Hd Hev Hn Hmax p tel base hb known) as Hobs. simpl in Hobs. fold row in Hobs.
  destruct (ClassifyDirectoryTier_total (row 0) now) as (tier&Htier&Htv); [done|apply Hf|done| | |].
  { specialize (Hobs 0). bool_facts. done. }
  { specialize (Hobs 0). bool_facts. done. }
  assert (Hclass : ClassifyDirectoryTier (row tier) now = Ok tier) by exact Htier.
  assert (Hagree : tier_agrees (row tier) now = true) by (unfold tier_agrees; rewrite Hclass; apply Z.eqb_refl).
  assert (Hvalid : ValidateDirectoryProjectionEvidence (row tier) now = true).
  { unfold ValidateDirectoryProjectionEvidence. rewrite Hagree, andb_true_r.
    assert (Hi : identity_evidence (row tier) now = true) by (by apply row_identity_evidence).
    assert (Hh : heartbeat_evidence (row tier) now = true) by (by apply row_heartbeat_evidence).
    rewrite Hi, Hh. exact (Hobs tier). }
  exists (row tier). split; [|split; [done|split; [done|split; [done|split]]]].
  - destruct (retained_guards_hold now d tel a base known Hd Htel Hf Hpath) as (G1&G2&G3&G4&G5&G6&G7).
    unfold directory_detail. rewrite <- negb_orb, Hpath, G1, G2, G3, G4, G5, G6, G7, (pf_known _ _ _ _ _ Hf), Hhb, Hsus.
    cbn [negb]. change (match ClassifyDirectoryTier (row 0) now with
                        | Ok tier => if ValidateDirectoryProjectionEvidence (row tier) now then Ok (Some (row tier))
                                     else Err (storageFailure "validate public directory evidence" ErrDirectoryProjectionData)
                        | Err e => Err (storageFailure "classify public directory tier" e) end = Ok (Some (row tier))).
    by rewrite Htier, Hvalid.
  - unfold ValidateDirectoryProjectionRelay, directory_eligible. rewrite Hvalid, Hagree. simpl.
    rewrite (proj2 (Z.ltb_ge now 0)), <- negb_orb, Hpath, Htv by done. done.
  - by exists base, hb, known.
Qed.
End Details.
