(* ===== verification/DirectoryPages.v ===== *)
(** * DirectoryPages: what one request of the public directory returns

    Both candidate reads yield the next eligible actors in order; the page loops
    then walk the (tier, actor) slots from the request's cursor.  [slots] is that
    order and [page_of] the page it promises; the loops of [Directory] refine it,
    and a reader that follows the continuations sees every public relay once. *)
From S2P Require Import Prelude Identity Vocabulary Store Repository Paging Lifecycle Discovery Reachability Pruning Invariant Contract Refinement System Guarantees ReachabilityFacts Health Telemetry Directory Evidence DirectoryFacts.
Local Open Scope string_scope.
Local Open Scope Z_scope.
Local Open Scope go_scope.
Local Open Scope list_scope.

(** ** Merging candidate lists *)

Section Merge.
Context {O : KeyOrder string}.

Lemma merge_take before n l1 l2 r1 r2 : take n l1 = take n l2 → take n r1 = take n r2 →
  merge_actors before n l1 r1 = merge_actors before n l2 r2.
Proof.
  revert l1 l2 r1 r2. induction n as [|n IH]; intros l1 l2 r1 r2 Hl Hr; [done|].
  assert (Hdown : ∀ m (x y : list string), take (S m) x = take (S m) y → take m x = take m y).
  { intros m x y E. apply (f_equal (take m)) in E. rewrite !take_take, !Nat.min_l in E by lia. done. }
  destruct l1 as [|x l1], l2 as [|x2 l2]; try done; destruct r1 as [|y r1], r2 as [|y2 r2]; try done; simpl.
  - injection Hr as -> Hr. f_equal. by apply IH.
  - injection Hl as -> Hl. f_equal. by apply IH.
  - assert (Hl' := Hl). assert (Hr' := Hr). injection Hl as -> Hl. injection Hr as -> Hr.
    apply Hdown in Hl', Hr'. case_match; [f_equal; by apply IH|]. case_match; f_equal; by apply IH.
Qed.

Lemma merge_shorter before n m l r : (n <= m)%nat → merge_actors before n l r = take n (merge_actors before m l r).
Proof.
  revert m l r. induction n as [|n IH]; intros m l r Hm; [done|]. destruct m as [|m]; [lia|]. simpl.
  destruct l as [|x l], r as [|y r]; [done| | |]; simpl; repeat case_match; simpl; f_equal; apply IH; lia.
Qed.

Definition sorted (l : list string) : Prop := StronglySorted (λ a b, key_ltb a b = true) l.

Lemma merge_in m l r : (length l + length r <= m)%nat → ∀ x, In x (merge_actors key_ltb m l r) ↔ In x l ∨ In x r.
Proof.
  revert l r. induction m as [|m IH]; intros l r Hm x.
  { destruct l, r; simpl in *; try lia; tauto. }
  destruct l as [|a l], r as [|b r]; simpl in *; [tauto|rewrite IH by (simpl; lia); simpl; tauto..|].
  destruct (key_ltb a b) eqn:Hab; [|destruct (key_ltb b a) eqn:Hba]; simpl; rewrite IH by (simpl; lia); simpl; [tauto..|].
  rewrite (key_ltb_total a b Hab Hba). tauto.
Qed.

Lemma merge_sorted m l r : (length l + length r <= m)%nat → sorted l → sorted r → sorted (merge_actors key_ltb m l r).
Proof.
  revert l r. induction m as [|m IH]; intros l r Hm Hl Hr; [constructor|].
  assert (Hcons : ∀ a l r, (length l + length r <= m)%nat → sorted l → sorted r →
            (∀ x, In x l ∨ In x r → key_ltb a x = true) → sorted (a :: merge_actors key_ltb m l r)).
  { intros a l' r' Hm' Hl' Hr' Ha. constructor; [by apply IH|]. apply Forall_forall. intros x Hx%merge_in; auto. }
  destruct l as [|a l], r as [|b r]; simpl in *; [constructor| | |].
  - inversion Hr as [|? ? Hr' Hf]; subst. rewrite Forall_forall in Hf. apply Hcons; simpl; [lia|constructor|done|].
    intros x [[]|Hx]. by apply Hf.
  - inversion Hl as [|? ? Hl' Hf]; subst. rewrite Forall_forall in Hf. apply Hcons; simpl; [lia|done|constructor|].
    intros x [Hx|[]]. by apply Hf.
  - inversion Hl as [|? ? Hl' Hfl]; subst. inversion Hr as [|? ? Hr' Hfr]; subst. rewrite Forall_forall in Hfl, Hfr.
    destruct (key_ltb a b) eqn:Hab; [|destruct (key_ltb b a) eqn:Hba].
    + apply Hcons; simpl; [lia|done|done|]. intros x [Hx|[<-|Hx]]; [by apply Hfl|done|].
      apply (key_ltb_trans a b); [done|by apply Hfr].
    + apply Hcons; simpl; [lia|done|done|]. intros x [[<-|Hx]|Hx]; [done| |by apply Hfr].
      apply (key_ltb_trans b a); [done|by apply Hfl].
    + rewrite (key_ltb_total a b Hab Hba) in *. apply Hcons; simpl; [lia|done|done|].
      intros x [Hx|Hx]; [by apply Hfl|by apply Hfr].
Qed.

(** Merging the first [n] of two sorted lists yields the first [n] of their union. *)
Lemma merge_union n l r u : sorted l → sorted r → sorted u → (∀ x, In x u ↔ In x l ∨ In x r) →
  merge_actors key_ltb n (take n l) (take n r) = take n u.
Proof.
  intros Hl Hr Hu Hin. rewrite (merge_take _ n (take n l) l (take n r) r) by (rewrite take_take; f_equal; lia).
  rewrite (merge_shorter _ n (n + length l + length r)) by lia. f_equal.
  apply (strictly_sorted_same (λ a : string, a)); [apply merge_sorted; [lia|done|done]|done|].
  intros x. rewrite merge_in by lia. by rewrite Hin.
Qed.
End Merge.


(** SQLite's [ORDER BY relay_actor DESC]. *)
Program Definition descending_order : KeyOrder string := {| key_ltb x y := string_ltb y x |}.
Next Obligation. intros a. exact (@key_ltb_irrefl _ string_order a). Qed.
Next Obligation. intros a b c Hab Hbc. exact (@key_ltb_trans _ string_order c b a Hbc Hab). Qed.
Next Obligation. intros a b Hab Hba. exact (@key_ltb_total _ string_order a b Hba Hab). Qed.

Lemma sorted_reverse l : sorted (O := string_order) l → sorted (O := descending_order) (reverse l).
Proof.
  unfold sorted. induction 1 as [|x l Hs IH Hf]; [constructor|]. rewrite reverse_cons.
  apply StronglySorted_app. split_and!; [|done|repeat constructor]. intros y z Hy Hz.
  apply list_elem_of_singleton in Hz as ->. rewrite elem_of_reverse, list_elem_of_In in Hy.
  rewrite Forall_forall in Hf. by apply Hf.
Qed.

(** The sorted candidates of either path, without duplicates. *)
Definition sorted_union (l r : list string) : list string := merge_actors string_ltb (length l + length r) l r.

Lemma sorted_union_in l r x : In x (sorted_union l r) ↔ In x l ∨ In x r.
Proof. unfold sorted_union. by apply (merge_in (O := string_order)). Qed.
Lemma sorted_union_sorted l r : sorted (O := string_order) l → sorted (O := string_order) r →
  sorted (O := string_order) (sorted_union l r).
Proof. intros Hl Hr. unfold sorted_union. by apply (merge_sorted (O := string_order)). Qed.

Lemma merge_ascending n l r u : sorted (O := string_order) l → sorted (O := string_order) r → sorted (O := string_order) u →
  (∀ x, In x u ↔ In x l ∨ In x r) → mergeDirectoryActors (take n l) (take n r) n = take n u.
Proof. apply (merge_union (O := string_order)). Qed.
Lemma merge_descending n l r u : sorted (O := string_order) l → sorted (O := string_order) r → sorted (O := string_order) u →
  (∀ x, In x u ↔ In x l ∨ In x r) →
  mergeDirectoryActorsDescending (take n (reverse l)) (take n (reverse r)) n = take n (reverse u).
Proof.
  intros Hl%sorted_reverse Hr%sorted_reverse Hu%sorted_reverse Hin. apply (merge_union (O := descending_order)); [done..|].
  intros x. rewrite <- !list_elem_of_In, !elem_of_reverse, !list_elem_of_In. apply Hin.
Qed.

(** ** Candidate reads *)

Section Candidates.
Context `{RelayIdentity}.

(** Every actor with a public path, in order. *)
Definition public_actors (d : db) : list string :=
  sorted_union (order_by actor_key (candidate_relays d)) (order_by actor_key (candidate_discoveries d)).

Lemma candidate_relays_in d a : In a (candidate_relays d) ↔ ∃ r, relays d !! a = Some r ∧ relay_eligible r = true.
Proof.
  unfold candidate_relays. rewrite in_map_iff. split.
  - intros ([b r] & <- & [Hin He]%filter_In). exists r. by rewrite <- elem_of_map_to_list, list_elem_of_In.
  - intros (r & Hr & He). exists (a, r). split; [done|]. apply filter_In.
    by rewrite <- list_elem_of_In, elem_of_map_to_list.
Qed.
Lemma candidate_discoveries_in d a : In a (candidate_discoveries d) ↔
  ∃ r, discoveries d !! a = Some r ∧ (discovery_state r ≟ discoveryActive) = true ∧ suspended_relay d a = false.
Proof.
  unfold candidate_discoveries. rewrite in_map_iff. split.
  - intros ([b r] & <- & [Hin [He Hs]%andb_true_iff]%filter_In). exists r.
    rewrite <- elem_of_map_to_list, list_elem_of_In. by apply negb_true_iff in Hs.
  - intros (r & Hr & He & Hs). exists (a, r). split; [done|]. apply filter_In. simpl. rewrite He, Hs.
    by rewrite <- list_elem_of_In, elem_of_map_to_list.
Qed.

Lemma keys_NoDup {V} (f : string * V → bool) (m : gmap string V) :
  NoDup (actor_key <$> map fst (List.filter f (map_to_list m))).
Proof.
  replace (actor_key <$> _) with (map fst (List.filter f (map_to_list m))) by (symmetry; apply list_fmap_id).
  pose proof (NoDup_fst_map_to_list m) as Hnd. revert Hnd. change (fst <$> map_to_list m) with (map fst (map_to_list m)).
  induction (map_to_list m) as [|[k v] l IH]; simpl; intros Hnd; [constructor|].
  inversion Hnd as [|? ? Hk Hnd2]; subst. destruct (f (k, v)); simpl; [|by apply IH].
  constructor; [|by apply IH]. contradict Hk. rewrite list_elem_of_In, in_map_iff in *.
  destruct Hk as (x & Hx & [Hin _]%filter_In). by exists x.
Qed.

Lemma candidate_relays_sorted d : sorted (O := string_order) (order_by actor_key (candidate_relays d)).
Proof. apply (order_by_sorted actor_key), keys_NoDup. Qed.
Lemma candidate_discoveries_sorted d : sorted (O := string_order) (order_by actor_key (candidate_discoveries d)).
Proof. apply (order_by_sorted actor_key), keys_NoDup. Qed.
Lemma public_actors_sorted d : sorted (O := string_order) (public_actors d).
Proof. apply sorted_union_sorted; [apply candidate_relays_sorted|apply candidate_discoveries_sorted]. Qed.

Lemma public_actors_in d a : In a (public_actors d) ↔ eligible_now d a = true.
Proof.
  unfold public_actors. rewrite sorted_union_in, !order_by_in, candidate_relays_in, candidate_discoveries_in.
  unfold eligible_now. rewrite orb_true_iff, andb_true_iff, negb_true_iff. split.
  - intros [(r&->&He)|(r&->&He&Hs)]; [by left|by right].
  - intros [He|[He Hs]]; [left|right].
    + destruct (relays d !! a) as [r|]; [by exists r|done].
    + destruct (discoveries d !! a) as [r|]; [by exists r|done].
Qed.

Lemma eligible_canonical d a : db_ok d → eligible_now d a = true → canonical_actor a = true.
Proof.
  intros Hd He. unfold eligible_now in He.
  destruct (relays d !! a) as [r|] eqn:Hr; [|destruct (discoveries d !! a) as [r|] eqn:Hdis; [|done]].
  - destruct (inv_relays _ _ Hd a r Hr) as [_ Hi]. by eapply canonical_identity_actor.
  - destruct (inv_discoveries _ _ Hd a r Hdis) as [_ Hi]. by eapply canonical_identity_actor.
Qed.
Lemma sorted_filter f l : sorted (O := string_order) l → sorted (O := string_order) (List.filter f l).
Proof. apply StronglySorted_filter. Qed.

(** The actors before a boundary; all of them for the empty boundary. *)
Definition actors_below (boundary : string) (actors : list string) : list string :=
  List.filter (λ a, (boundary ≟ "") || key_ltb a boundary) actors.

Lemma scan_actors_free actors rows d w : (∀ a, In a rows → canonical_actor a = true) →
  (length actors + length rows <= 401)%nat →
  scan_actors actors rows (TX d w []) = (Ok (actors ++ rows), TX d w []).
Proof.
  revert actors. induction rows as [|a rows IH]; intros actors Hcan Hlen; simpl scan_actors; tx_run; [by rewrite app_nil_r|].
  rewrite Hcan by (by left). simpl in Hlen. rewrite (proj2 (Nat.ltb_lt _ _)) by (unfold MaximumDirectoryProjectionScan; lia).
  unfold check. tx_run. rewrite IH, <- app_assoc; [done|intros b Hb; apply Hcan; by right|].
  rewrite length_app. simpl. lia.
Qed.

Lemma read_candidates_free statement d w : (∀ a, In a (statement w) → canonical_actor a = true) →
  (length (statement w) <= 401)%nat →
  readDirectoryCandidateActors statement (TX d w []) = (Ok (statement w), TX d w []).
Proof. intros Hcan Hlen. unfold readDirectoryCandidateActors. tx_run. by apply scan_actors_free. Qed.

Lemma candidate_canonical w a : db_ok w → In a (candidate_relays w) ∨ In a (candidate_discoveries w) → canonical_actor a = true.
Proof.
  intros Hw Hin. apply (eligible_canonical w); [done|]. rewrite <- public_actors_in. unfold public_actors.
  by rewrite sorted_union_in, !order_by_in.
Qed.

(** Both candidate reads are windows of the public actors. *)
Lemma read_after_free boundary n d w : db_ok w → (n <= 401)%nat →
  readDirectoryCandidateActorsAfter boundary n (TX d w []) =
  (Ok (take n (rows_after actor_key boundary (public_actors w))), TX d w []).
Proof.
  intros Hw Hn. unfold readDirectoryCandidateActorsAfter.
  assert (Hcan : ∀ l, (∀ a, In a l → In a (candidate_relays w) ∨ In a (candidate_discoveries w)) →
                   (∀ a, In a (actors_after boundary n l) → canonical_actor a = true) ∧ (length (actors_after boundary n l) <= 401)%nat).
  { intros l Hl. unfold actors_after. split; [|rewrite length_take; lia].
    intros a [Ha _]%in_take%filter_In. apply order_by_in in Ha. apply (candidate_canonical w); [done|by apply Hl]. }
  destruct (Hcan (candidate_relays w)) as [Hr1 Hr2]; [by left|].
  destruct (Hcan (candidate_discoveries w)) as [Hd1 Hd2]; [by right|].
  rewrite bind_run, read_candidates_free by done. cbn beta iota. rewrite bind_run, read_candidates_free by done.
  cbn beta iota. rewrite ret_run. f_equal. f_equal.
  apply merge_ascending; try apply sorted_filter; [apply candidate_relays_sorted|apply candidate_discoveries_sorted|apply public_actors_sorted|].
  intros x. unfold rows_after. rewrite !filter_In. unfold public_actors. rewrite sorted_union_in. tauto.
Qed.

Lemma read_before_free boundary n d w : db_ok w → (n <= 401)%nat →
  readDirectoryCandidateActorsBefore boundary n (TX d w []) =
  (Ok (take n (reverse (actors_below boundary (public_actors w)))), TX d w []).
Proof.
  intros Hw Hn. unfold readDirectoryCandidateActorsBefore.
  assert (Hcan : ∀ l, (∀ a, In a l → In a (candidate_relays w) ∨ In a (candidate_discoveries w)) →
                   (∀ a, In a (actors_before boundary n l) → canonical_actor a = true) ∧ (length (actors_before boundary n l) <= 401)%nat).
  { intros l Hl. unfold actors_before. split; [|rewrite length_take; lia].
    intros a Ha%in_take. rewrite <- list_elem_of_In, elem_of_reverse, list_elem_of_In in Ha. apply filter_In in Ha as [Ha _].
    apply order_by_in in Ha. apply (candidate_canonical w); [done|by apply Hl]. }
  destruct (Hcan (candidate_relays w)) as [Hr1 Hr2]; [by left|].
  destruct (Hcan (candidate_discoveries w)) as [Hd1 Hd2]; [by right|].
  rewrite bind_run, read_candidates_free by done. cbn beta iota. rewrite bind_run, read_candidates_free by done.
  cbn beta iota. rewrite ret_run. f_equal. f_equal.
  apply merge_descending; try apply sorted_filter; [apply candidate_relays_sorted|apply candidate_discoveries_sorted|apply public_actors_sorted|].
  intros x. unfold actors_below. rewrite !filter_In. unfold public_actors. rewrite sorted_union_in. tauto.
Qed.
End Candidates.

(** ** Detail reads *)

Section DetailReads.
Context `{RelayIdentity} `{ProfileReader} `{!ProfileReaderLaws}.
Context (now : Z) (d : db) (x : extras).

(** Everything a request may assume of the retained state. *)
Record readable : Prop := {
  rd_ok : db_ok d;
  rd_evidence : evidence now d;
  rd_telemetry : telemetry_sound now (telemetry x);
  rd_profiles : profiles_sound (profile_rows x);
  rd_clock : 0 ≤ now ∧ now + 604800 ≤ int64_max }.

Definition detail_of (a : string) : result error (option directory_relay) :=
  directory_detail now d (telemetry x) (effectiveProfile (profile_rows x) a) a.
(** The public row of an actor. *)
Definition row_of (a : string) : option directory_relay :=
  match detail_of a with Ok row => row | Err _ => None end.

Hypothesis Hread : readable.

Lemma row_of_public a : eligible_now d a = true →
  ∃ r, detail_of a = Ok (Some r) ∧ row_of a = Some r ∧ RelayActor r = a ∧ DirectoryTier_Valid (Tier r) = true ∧
       ValidateDirectoryProjectionRelay r now = true.
Proof.
  intros He. destruct Hread as [Hok Hev Htel Hprof [Hn Hmax]].
  destruct (directory_detail_public now d (telemetry x) (effectiveProfile (profile_rows x) a) a)
    as (r&Hr&Ha&_&Ht&Hv&_); try done; [by apply effective_normalized|].
  exists r. unfold row_of, detail_of. rewrite Hr. done.
Qed.

Lemma detail_rows_free profiles (result : gmap string (option directory_relay)) actors e : NoDup actors →
  (∀ a, In a actors → eligible_now d a = true ∧ result !! a = None ∧
        profiles !! a = Some (effectiveProfile (profile_rows x) a)) →
  ∃ rows : gmap string (option directory_relay), detail_rows now d (telemetry x) profiles result actors (TX e d []) = (Ok rows, TX e d []) ∧
    size rows = (size result + length actors)%nat ∧
    (∀ a, In a actors → rows !! a = Some (row_of a)) ∧ (∀ a, ¬ In a actors → rows !! a = result !! a).
Proof.
  intros Hnd. revert result. induction Hnd as [|a actors Ha Hnd IH]; intros result Hin.
  { exists result. simpl. tx_run. by rewrite Nat.add_0_r. }
  destruct (Hin a) as (He&Hnone&Hprof); [by left|]. destruct (row_of_public a He) as (r&Hr&Hrow&_).
  simpl detail_rows. rewrite Hnone, Hprof. simpl negb. unfold check. tx_run.
  unfold detail_of in Hr. rewrite Hr. simpl tx_lift. tx_run.
  destruct (IH (<[a := Some r]> result)) as (rows&->&Hsize&Hrows&Hother).
  { intros b Hb. destruct (Hin b) as (?&Hn&?); [by right|]. split_and!; [done| |done].
    rewrite lookup_insert_ne; [done|]. intros ->. by apply Ha, list_elem_of_In. }
  exists rows. split; [done|]. rewrite Hsize, map_size_insert_None by done. split; [simpl; lia|]. split.
  - intros b [<-|Hb]; [|by apply Hrows]. rewrite Hother by (by rewrite <- list_elem_of_In). by rewrite lookup_insert_eq, Hrow.
  - intros b Hb. rewrite Hother by (intros Hin'; apply Hb; by right). apply lookup_insert_ne.
    intros ->. apply Hb. by left.
Qed.

(** The details of up to 400 public actors are exactly their rows. *)
Lemma read_details_free actors e : NoDup actors → actors ≠ [] → (length actors <= 400)%nat →
  (∀ a, In a actors → eligible_now d a = true) →
  ∃ rows : gmap string (option directory_relay), readDirectoryProjectionDetails x actors now (TX e d []) = (Ok rows, TX e d []) ∧
    ∀ a, In a actors → rows !! a = Some (row_of a).
Proof.
  intros Hnd Hne Hlen Hel. unfold readDirectoryProjectionDetails. cbv zeta.
  assert ((length actors =? 0)%nat = false) as -> by (destruct actors; done).
  assert ((MaximumDirectoryProjectionScan <? length actors)%nat = false) as ->
    by (apply Nat.ltb_ge; unfold MaximumDirectoryProjectionScan; lia).
  cbn [orb negb]. unfold check. tx_run.
  destruct (read_profiles_run (profile_rows x) actors e d) as (profiles&Hp&Hall); [apply Hread| |].
  { intros a Ha. apply (eligible_canonical d); [apply Hread|by apply Hel]. }
  rewrite Hp. cbn beta iota. tx_run.
  destruct (detail_rows_free profiles ∅ (order_by actor_key actors) e) as (rows&->&Hsize&Hrows&_).
  { by rewrite (order_by_perm actor_key actors). }
  { intros a Ha%order_by_in. split; [by apply Hel|]. split; [apply lookup_empty|by apply Hall]. }
  cbn beta iota. rewrite Hsize, (Permutation_length (order_by_perm actor_key actors)), map_size_empty. simpl.
  rewrite Nat.eqb_refl. tx_run. exists rows. split; [done|].
  intros a Ha. apply Hrows. by apply order_by_in.
Qed.
End DetailReads.
