(* ===== verification/DirectoryScan.v ===== *)
(** * DirectoryScan: the page loops over the slots of the directory

    A request walks (tier, actor) slots from its cursor, forwards or backwards.
    [direction] is the interface of the two, [page_loop] the loop both share up to
    what they return, and [page_end] what it returns in terms of the slots ahead. *)
From S2P Require Import Prelude Identity Vocabulary Store Repository Paging Lifecycle Discovery Reachability Pruning Invariant Contract Refinement System Guarantees ReachabilityFacts Health Telemetry Directory Evidence DirectoryFacts DirectoryPages.
Local Open Scope string_scope.
Local Open Scope Z_scope.
Local Open Scope go_scope.
Local Open Scope list_scope.

(** ** The slots a request walks *)

Section Scan.
Context `{RelayIdentity} `{ProfileReader} `{!ProfileReaderLaws}.
Context (now : Z) (d : db) (x : extras).

(** The relay shown in a slot: the public row of the actor, in its own tier only. *)
Definition hit (slot : Z * string) : option directory_relay :=
  match row_of now d x slot.2 with
  | Some r => if Tier r =? slot.1 then Some r else None
  | None => None
  end.
Definition hits (slots : list (Z * string)) : list directory_relay := omap hit slots.
Definition any_hit (slots : list (Z * string)) : bool := match hits slots with [] => false | _ => true end.

Lemma hits_app l1 l2 : hits (l1 ++ l2) = hits l1 ++ hits l2.
Proof. apply omap_app. Qed.
Lemma any_hit_app l1 l2 : any_hit (l1 ++ l2) = any_hit l1 || any_hit l2.
Proof. unfold any_hit. rewrite hits_app. by destruct (hits l1). Qed.

(** The slots from a boundary in a tier and all of the later tiers. *)
Fixpoint slots (window : string → list string) (next : Z → Z) (n : nat) (tier : Z) (boundary : string)
    : list (Z * string) :=
  match n with
  | O => []
  | S n => map (pair tier) (window boundary) ++ slots window next n (next tier) ""
  end.

Definition slot_cursor (slot : option (Z * string)) : directory_cursor :=
  match slot with Some (tier, actor) => DirectoryCursor tier actor | None => directory_start end.

(** A budget of candidates shows a relay, or does not suffice to tell. *)
Definition more (budget : nat) (s : list (Z * string)) : bool :=
  any_hit (take budget s) || (budget <? length s)%nat.

Hypothesis Hread : readable now d x.

Lemma hit_spec tier a : eligible_now d a = true → ∃ r, row_of now d x a = Some r ∧ RelayActor r = a ∧
  DirectoryTier_Valid (Tier r) = true ∧ ValidateDirectoryProjectionRelay r now = true ∧
  hit (tier, a) = if Tier r =? tier then Some r else None.
Proof.
  intros He. destruct (row_of_public now d x Hread a He) as (r&_&Hr&Ha&Ht&Hv).
  exists r. unfold hit. simpl. by rewrite Hr.
Qed.

Lemma hits_in s r : (∀ slot, In slot s → eligible_now d slot.2 = true) → In r (hits s) → In (Tier r, RelayActor r) s.
Proof.
  intros He. unfold hits. rewrite <- !list_elem_of_In, list_elem_of_omap. intros ([t a] & Hin & Hh).
  destruct (hit_spec t a) as (r'&_&Ha&_&_&Hh'); [by apply (He (t, a)), list_elem_of_In|].
  rewrite Hh' in Hh. destruct (Z.eqb_spec (Tier r') t) as [<-|]; [|done]. injection Hh as <-. by rewrite Ha.
Qed.

Lemma scan_candidates_run rows tier lim page boundary seeds :
  (∀ a, In a seeds → eligible_now d a = true ∧ rows !! a = Some (row_of now d x a)) → (length page < lim)%nat →
  scan_candidates rows tier (Z.of_nat lim) now page boundary seeds =
  Ok (let found := page ++ hits (map (pair tier) seeds) in
      if (length found <? lim)%nat then Scanned found (default boundary (list.last seeds))
      else PageFull (take lim found)).
Proof.
  revert page boundary. induction seeds as [|a seeds IH]; intros page boundary Hin Hlen.
  { simpl. rewrite app_nil_r, (proj2 (Nat.ltb_lt _ _)) by done. done. }
  destruct (Hin a) as [He Hrow]; [by left|]. destruct (hit_spec tier a He) as (r&Hr&_&_&Hv&Hh).
  assert (Hlast : default boundary (list.last (a :: seeds)) = default a (list.last seeds)) by (by rewrite last_cons; destruct (list.last seeds)).
  assert (Hin' : ∀ b, In b seeds → eligible_now d b = true ∧ rows !! b = Some (row_of now d x b)) by (intros; apply Hin; by right).
  cbn [scan_candidates]. rewrite Hrow, Hr, Hv. cbn [negb map]. unfold hits. cbn [omap list_omap].
  rewrite Hh. destruct (Tier r =? tier); cbn [negb]; [|rewrite IH by done; cbv zeta; by rewrite Hlast].
  destruct (Z.eqb_spec (Z.of_nat (length (page ++ [r]))) (Z.of_nat lim)) as [E|E]; cbv zeta.
  - apply Nat2Z.inj in E. assert (Happ : ∀ l, page ++ r :: l = (page ++ [r]) ++ l) by (intros; by rewrite <- app_assoc).
    rewrite (Happ (omap hit (map (pair tier) seeds))), (length_app (page ++ [r])).
    rewrite (proj2 (Nat.ltb_ge _ _)) by lia. by rewrite <- E, take_app_length.
  - rewrite IH; [|done|rewrite length_app in *; simpl in *; lia]. cbv zeta. by rewrite Hlast, <- app_assoc.
Qed.

Lemma any_in_tier_run rows tier seeds :
  (∀ a, In a seeds → eligible_now d a = true ∧ rows !! a = Some (row_of now d x a)) →
  any_in_tier rows tier seeds = Ok (any_hit (map (pair tier) seeds)).
Proof.
  induction seeds as [|a seeds IH]; intros Hin; [done|].
  destruct (Hin a) as [He Hrow]; [by left|]. destruct (hit_spec tier a He) as (r&Hr&_&_&_&Hh).
  cbn [any_in_tier]. rewrite Hrow, Hr. unfold any_hit, hits. cbn [map omap list_omap]. rewrite Hh.
  destruct (Tier r =? tier); [done|]. apply IH. intros; apply Hin; by right.
Qed.

Lemma NoDup_take {A} n (l : list A) : NoDup l → NoDup (take n l).
Proof. intros Hl. rewrite <- (take_drop n l) in Hl. by apply list.NoDup_app in Hl as [? _]. Qed.

Lemma more_app budget l s : (length l <= budget)%nat → more budget (l ++ s) = any_hit l || more (budget - length l) s.
Proof.
  intros Hl. unfold more. rewrite take_app, any_hit_app, take_ge, length_app, <- orb_assoc by done.
  do 2 f_equal. destruct (Nat.ltb_spec budget (length l + length s)), (Nat.ltb_spec (budget - length l) (length s)); lia || done.
Qed.
Lemma more_beyond budget l s : (budget < length l)%nat → more budget (l ++ s) = true.
Proof. intros Hl. unfold more. rewrite length_app, (proj2 (Nat.ltb_lt _ _)) by lia. apply orb_true_r. Qed.
Lemma more_hit budget l s : any_hit (take budget l) = true → more budget (l ++ s) = true.
Proof. intros Hh. unfold more. by rewrite take_app, any_hit_app, Hh. Qed.
Lemma more_nil budget : more budget [] = false.
Proof. unfold more. by rewrite take_nil. Qed.

(** A direction of the scan: its candidate read and its order of tiers. *)
Section Direction.
Context (window : string → list string) (read : string → nat → Tx (list string)).
Context (next : Z → Z) (last : Z) (left : Z → nat).

Record direction : Prop := {
  dir_window : ∀ b a, In a (window b) → eligible_now d a = true;
  dir_nodup : ∀ b, NoDup (window b);
  dir_restart : ∀ b, window b ≠ [] → window "" ≠ [];
  dir_read : ∀ b n e, (n <= 401)%nat → read b n (TX e d []) = (Ok (take n (window b)), TX e d []);
  dir_resume : ∀ b l1 a l2, window b = l1 ++ a :: l2 → window a = l2;
  dir_last : left last = 1%nat;
  dir_next : ∀ t, DirectoryTier_Valid t = true → t ≠ last →
    DirectoryTier_Valid (next t) = true ∧ left t = S (left (next t)) }.
Hypothesis Hdir : direction.

Definition slots_of (tier : Z) (boundary : string) : list (Z * string) := slots window next (left tier) tier boundary.

Lemma slots_last b : slots_of last b = map (pair last) (window b).
Proof. unfold slots_of. rewrite (dir_last Hdir). simpl. apply app_nil_r. Qed.
Lemma slots_next t b : DirectoryTier_Valid t = true → t ≠ last →
  slots_of t b = map (pair t) (window b) ++ slots_of (next t) "".
Proof. intros Ht Hl. unfold slots_of. destruct (dir_next Hdir t Ht Hl) as [_ ->]. done. Qed.
Lemma slots_next_nonempty t b : DirectoryTier_Valid t = true → t ≠ last → window b ≠ [] → slots_of (next t) "" ≠ [].
Proof.
  intros Ht Hl Hw%(dir_restart Hdir). destruct (dir_next Hdir t Ht Hl) as [Hv _].
  destruct (decide (next t = last)) as [E|E]; [rewrite E, slots_last|rewrite slots_next by done]; by destruct (window "").
Qed.

Lemma slots_split t b : DirectoryTier_Valid t = true → ∃ s, slots_of t b = map (pair t) (window b) ++ s ∧
  (if t =? last then s = [] else s = slots_of (next t) "" ∧ (window b ≠ [] → s ≠ [])).
Proof.
  intros Ht. destruct (Z.eqb_spec t last) as [->|El]; [exists []; by rewrite slots_last, app_nil_r|].
  exists (slots_of (next t) ""). split; [by apply slots_next|]. split; [done|]. by apply slots_next_nonempty.
Qed.
Lemma slot_cursor_last t b (l : list string) : l ≠ [] →
  DirectoryCursor t (default b (list.last l)) = slot_cursor (list.last (map (pair t) l)).
Proof. intros Hl. rewrite list_last_map. destruct (list.last l) eqn:E; [done|]. by apply last_None in E. Qed.

(** One read of the loop: the seeds, their rows, and whether candidates remain. *)
Lemma window_seeds b remaining e : (0 < remaining <= 400)%nat → window b ≠ [] →
  let seeds := take remaining (window b) in
  ∃ rows, readDirectoryProjectionDetails x seeds now (TX e d []) = (Ok rows, TX e d []) ∧
    ∀ a, In a seeds → eligible_now d a = true ∧ rows !! a = Some (row_of now d x a).
Proof.
  intros Hr Hw seeds. assert (Hin : ∀ a, In a seeds → eligible_now d a = true).
  { intros a Ha%in_take. by apply (dir_window Hdir b). }
  destruct (read_details_free now d x Hread seeds e) as (rows&Hrows&Hall); [| | |done|].
  - apply NoDup_take, (dir_nodup Hdir).
  - unfold seeds. destruct remaining, (window b); done || lia.
  - unfold seeds. rewrite length_take. lia.
  - exists rows. split; [done|]. intros a Ha. split; [by apply Hin|by apply Hall].
Qed.

Lemma has_relay_run fuel tier b scanned e : DirectoryTier_Valid tier = true → (left tier <= fuel)%nat → (scanned < 400)%nat →
  has_relay_loop read x now last next fuel tier b scanned (TX e d []) =
  (Ok (more (400 - scanned) (slots_of tier b)), TX e d []).
Proof.
  revert tier b scanned. induction fuel as [|fuel IH]; intros tier b scanned Ht Hf Hs.
  { destruct (decide (tier = last)) as [->|E]; [rewrite (dir_last Hdir) in Hf; lia|].
    destruct (dir_next Hdir tier Ht E). lia. }
  cbn [has_relay_loop]. change MaximumDirectoryProjectionScan with 400%nat in *.
  rewrite (proj2 (Nat.eqb_neq (400 - scanned) 0)) by lia. cbv zeta.
  rewrite bind_run, (dir_read Hdir) by lia. cbn beta iota. rewrite take_take, Nat.min_l by lia.
  set (rem := (400 - scanned)%nat). set (seeds := take rem (window b)).
  assert (Hfound : (if (length seeds =? 0)%nat then mret false
             else rows ← readDirectoryProjectionDetails x seeds now; tx_lift (any_in_tier rows tier seeds)) (TX e d [])
             = (Ok (any_hit (map (pair tier) seeds)), TX e d [])).
  { destruct (Nat.eqb_spec (length seeds) 0) as [E|E]; [apply nil_length_inv in E; by rewrite E|].
    destruct (window_seeds b rem e) as (rows&Hrows&Hall); [unfold rem; lia|intros Hw; apply E; unfold seeds; by rewrite Hw, take_nil|].
    rewrite bind_run. fold seeds in Hrows, Hall. rewrite Hrows. by rewrite (any_in_tier_run rows tier seeds Hall). }
  rewrite bind_run, Hfound. cbn beta iota.
  assert (Hseeds : length seeds = Nat.min rem (length (window b))) by apply length_take.
  rewrite (length_take (window b) (S rem)).
  destruct (slots_split tier b Ht) as (s'&->&Hs').
  destruct (any_hit (map (pair tier) seeds)) eqn:Hany.
  { rewrite more_hit; [done|]. by rewrite firstn_map. }
  destruct (Nat.ltb_spec (length seeds) (Nat.min (S rem) (length (window b)))) as [Hlt|Hge].
  { rewrite more_beyond; [done|]. rewrite length_map. lia. }
  assert (Hall : seeds = window b) by (apply take_ge; lia). rewrite more_app by (rewrite length_map; lia).
  rewrite Hall in Hany. rewrite Hany, length_map. cbn [orb].
  destruct (Z.eqb_spec tier last) as [El|El]; cbn [negb andb].
  { rewrite Hs', more_nil, andb_false_r. done. }
  destruct Hs' as [-> Hne]. rewrite andb_true_r. rewrite Hseeds.
  destruct (Nat.leb_spec 400 (scanned + Nat.min rem (length (window b)))) as [Hfull|Hnot].
  - unfold more. rewrite (proj2 (Nat.ltb_lt _ _)), orb_true_r; [done|].
    assert (window b ≠ []) as Hw%Hne by (intros E; rewrite E in Hfull; simpl in Hfull; lia).
    destruct (slots_of (next tier) ""); [done|]. simpl. lia.
  - destruct (dir_next Hdir tier Ht El) as [Hv Hl]. rewrite IH; [|done|lia|lia]. do 3 f_equal. lia.
Qed.

(** Both page loops are one loop up to what they return: a full page, a page cut
    by the scan budget, or the end of the last tier. *)
Section Loop.
Context {P : Type} (full : list directory_relay → Tx P).
Context (cut ended : list directory_relay → directory_cursor → Tx P) (lim : nat).

Fixpoint page_loop (fuel : nat) (tier : Z) (boundary : string) (scanned : nat) (page : list directory_relay) : Tx P :=
  match fuel with
  | O => tx_fail ErrInvalidState
  | S fuel =>
      if negb (DirectoryTier_Valid tier) || negb (scanned <? MaximumDirectoryProjectionScan)%nat
      then ended page directory_start
      else
        let remaining := (MaximumDirectoryProjectionScan - scanned)%nat in
        candidates ← read boundary (S remaining);
        if (length candidates =? 0)%nat then
          if tier =? last then ended page directory_start
          else page_loop fuel (next tier) "" scanned page
        else
          let seeds := take remaining candidates in
          rows ← readDirectoryProjectionDetails x seeds now;
          stop ← tx_lift (scan_candidates rows tier (Z.of_nat lim) now page boundary seeds);
          match stop with
          | PageFull page => full page
          | Scanned page boundary =>
              let scanned := (scanned + length seeds)%nat in
              if (length seeds <? length candidates)%nat then cut page (DirectoryCursor tier boundary)
              else if (scanned =? MaximumDirectoryProjectionScan)%nat then
                if tier =? last then ended page (DirectoryCursor tier boundary)
                else cut page (DirectoryCursor tier boundary)
              else if tier =? last then ended page directory_start
              else page_loop fuel (next tier) "" scanned page
          end
  end.

(** What the loop returns, from the slots ahead of it. *)
Definition page_end (budget : nat) (s : list (Z * string)) (page : list directory_relay) : Tx P :=
  let found := page ++ hits (take budget s) in
  if (length found <? lim)%nat then
    if (budget <? length s)%nat then cut found (slot_cursor (list.last (take budget s)))
    else ended found (if (length s =? budget)%nat then slot_cursor (list.last s) else directory_start)
  else full (take lim found).

Lemma page_end_full budget l s page : (lim <= length (page ++ hits (take budget l)))%nat →
  page_end budget (l ++ s) page = full (take lim (page ++ hits (take budget l))).
Proof.
  intros Hl. unfold page_end. rewrite take_app, hits_app. rewrite length_app in Hl.
  rewrite (proj2 (Nat.ltb_ge _ _)) by (rewrite !length_app; lia).
  rewrite app_assoc, take_app_le; [done|]. rewrite length_app. lia.
Qed.
Lemma page_end_cut budget l s page : (length (page ++ hits (take budget l)) < lim)%nat → (budget < length l)%nat →
  page_end budget (l ++ s) page = cut (page ++ hits (take budget l)) (slot_cursor (list.last (take budget l))).
Proof.
  intros Hl Hb. unfold page_end. rewrite take_app_le by lia.
  rewrite (proj2 (Nat.ltb_lt _ _) Hl), (proj2 (Nat.ltb_lt _ _)); [done|]. rewrite length_app. lia.
Qed.
Lemma last_app_nonempty {A} (l s : list A) : s ≠ [] → list.last (l ++ s) = list.last s.
Proof. intros Hs. rewrite list.last_app. destruct (list.last s) eqn:E; [done|]. by apply last_None in E. Qed.

Lemma page_end_app budget l s page : (length l < budget)%nat → (length (page ++ hits l) < lim)%nat →
  page_end budget (l ++ s) page = page_end (budget - length l) s (page ++ hits l).
Proof.
  intros Hb Hp. unfold page_end. rewrite take_app, hits_app, (take_ge l), app_assoc, (length_app l s) by lia.
  destruct (_ <? lim)%nat; [|done].
  assert ((budget <? length l + length s)%nat = (budget - length l <? length s)%nat) as ->
    by (destruct (Nat.ltb_spec budget (length l + length s)), (Nat.ltb_spec (budget - length l) (length s)); lia || done).
  assert ((length l + length s =? budget)%nat = (length s =? budget - length l)%nat) as ->
    by (destruct (Nat.eqb_spec (length l + length s) budget), (Nat.eqb_spec (length s) (budget - length l)); lia || done).
  destruct (Nat.ltb_spec (budget - length l) (length s)).
  - rewrite last_app_nonempty; [done|]. intros E%(f_equal length). rewrite length_take in E. simpl in E. lia.
  - destruct (Nat.eqb_spec (length s) (budget - length l)); [|done]. rewrite last_app_nonempty; [done|]. intros ->. simpl in *. lia.
Qed.

Lemma page_end_exact l s page : (0 < length l)%nat → (length (page ++ hits l) < lim)%nat →
  page_end (length l) (l ++ s) page =
  match s with [] => ended | _ => cut end (page ++ hits l) (slot_cursor (list.last l)).
Proof.
  intros Hl Hp. unfold page_end. rewrite take_app_length, (proj2 (Nat.ltb_lt _ _) Hp), (length_app l s).
  destruct s as [|slot s]; simpl.
  - rewrite Nat.add_0_r, Nat.ltb_irrefl, Nat.eqb_refl, app_nil_r. done.
  - rewrite (proj2 (Nat.ltb_lt _ _)) by lia. done.
Qed.
Lemma page_end_nil budget page : (0 < budget)%nat → (length page < lim)%nat → page_end budget [] page = ended page directory_start.
Proof.
  intros Hb Hp. unfold page_end. rewrite take_nil. simpl. rewrite app_nil_r, (proj2 (Nat.ltb_lt _ _) Hp).
  by destruct budget.
Qed.

Lemma page_loop_run fuel tier b scanned page e : DirectoryTier_Valid tier = true → (left tier <= fuel)%nat →
  (scanned < 400)%nat → (length page < lim)%nat →
  page_loop fuel tier b scanned page (TX e d []) = page_end (400 - scanned) (slots_of tier b) page (TX e d []).
Proof.
  revert tier b scanned page. induction fuel as [|fuel IH]; intros tier b scanned page Ht Hf Hs Hp.
  { destruct (decide (tier = last)) as [->|E]; [rewrite (dir_last Hdir) in Hf; lia|].
    destruct (dir_next Hdir tier Ht E). lia. }
  cbn [page_loop]. change MaximumDirectoryProjectionScan with 400%nat in *.
  rewrite Ht, (proj2 (Nat.ltb_lt scanned 400)) by done. cbv zeta. cbn [negb orb].
  rewrite bind_run, (dir_read Hdir) by lia. cbn beta iota. rewrite take_take, Nat.min_l by lia.
  set (rem := (400 - scanned)%nat). set (seeds := take rem (window b)).
  destruct (slots_split tier b Ht) as (s'&->&Hs').
  destruct (decide (window b = [])) as [Hw|Hw].
  { rewrite Hw, take_nil. simpl. destruct (Z.eqb_spec tier last) as [El|El].
    - rewrite Hs', page_end_nil; [done|lia|done].
    - destruct (dir_next Hdir tier Ht El) as [Hv Hl], Hs' as [-> _]. apply IH; [done|lia|lia|done]. }
  rewrite (proj2 (Nat.eqb_neq (length (take (S rem) (window b))) 0)) by (by destruct (window b)).
  destruct (window_seeds b rem e) as (rows&Hrows&Hall); [unfold rem; lia|done|]. fold seeds in Hrows, Hall.
  rewrite bind_run, Hrows. cbn beta iota. rewrite (scan_candidates_run rows tier lim page b seeds Hall Hp). cbv zeta.
  cbn [tx_lift]. rewrite bind_run, ret_run. cbn beta iota. unfold seeds. rewrite <- firstn_map.
  destruct (Nat.ltb_spec (length (page ++ hits (take rem (map (pair tier) (window b))))) lim) as [Hl|Hl];
    [|by rewrite page_end_full].
  rewrite !length_take.
  destruct (Nat.ltb_spec (rem `min` length (window b)) (S rem `min` length (window b))) as [Hc|Hc].
  { rewrite page_end_cut by (rewrite ?length_map; done || lia). rewrite firstn_map. f_equal. apply slot_cursor_last.
    intros E%(f_equal length). rewrite length_take in E. destruct (window b); simpl in E; [done|lia]. }
  rewrite (take_ge (window b)), (take_ge (map _ _)) in * by (rewrite ?length_map; lia). rewrite Nat.min_r by lia.
  destruct (Nat.eqb_spec (scanned + length (window b)) 400) as [E|E].
  - assert (rem = length (map (pair tier) (window b))) as -> by (rewrite length_map; lia).
    rewrite slot_cursor_last by done. rewrite page_end_exact; [|rewrite length_map; destruct (window b); simpl; done || lia|done].
    destruct (tier =? last); [by rewrite Hs'|]. destruct Hs' as [-> Hne]. specialize (Hne Hw). by destruct (slots_of (next tier) "").
  - rewrite page_end_app, length_map by (rewrite ?length_map; done || lia).
    destruct (Z.eqb_spec tier last) as [El|El]; [rewrite Hs', page_end_nil; [done|lia|done]|].
    destruct (dir_next Hdir tier Ht El) as [Hv Hlt], Hs' as [-> _]. rewrite IH; [|done|lia|lia|done].
    by replace (400 - (scanned + length (window b)))%nat with (rem - length (window b))%nat by lia.
Qed.
End Loop.

(** ** Resuming after a slot *)

Lemma slots_resume n t b pre t' a rest : (left t <= n)%nat → DirectoryTier_Valid t = true →
  slots_of t b = pre ++ (t', a) :: rest → slots_of t' a = rest.
Proof.
  revert t b pre. induction n as [|n IH]; intros t b pre Hn Ht Heq.
  { destruct (decide (t = last)) as [->|E]; [rewrite (dir_last Hdir) in Hn; lia|].
    destruct (dir_next Hdir t Ht E). lia. }
  destruct (slots_split t b Ht) as (s'&Hs&Hs'). rewrite Hs in Heq.
  assert (Hlater : ∀ k, s' = k ++ (t', a) :: rest → slots_of t' a = rest).
  { intros k Hk. destruct (t =? last) eqn:El; [rewrite Hs' in Hk; by destruct k|]. destruct Hs' as [Hs' _].
    apply Z.eqb_neq in El. destruct (dir_next Hdir t Ht El). apply (IH (next t) "" k); [lia|done|].
    by rewrite <- Hs', Hk. }
  apply app_eq_inv in Heq as [([|slot k]&Hmap&Hk)|(k&Hpre&Hk)]; [by apply (Hlater []) | |by apply (Hlater k)].
  injection Hk as <- ->. apply map_eq_app in Hmap as (l1&l2&Hw&_&Hl2).
  destruct l2 as [|a' l2]; [done|]. injection Hl2 as <- <- <-.
  destruct (slots_split t a' Ht) as (s2&->&Hs2). rewrite (dir_resume Hdir b l1 a' l2 Hw). f_equal.
  destruct (t =? last); [by rewrite Hs', Hs2|]. destruct Hs' as [-> _], Hs2 as [-> _]. done.
Qed.

Lemma slots_valid n t b slot : (left t <= n)%nat → DirectoryTier_Valid t = true → In slot (slots_of t b) →
  DirectoryTier_Valid slot.1 = true ∧ eligible_now d slot.2 = true.
Proof.
  revert t b. induction n as [|n IH]; intros t b Hn Ht Hin.
  { destruct (decide (t = last)) as [->|E]; [rewrite (dir_last Hdir) in Hn; lia|].
    destruct (dir_next Hdir t Ht E). lia. }
  destruct (slots_split t b Ht) as (s'&Hs&Hs'). rewrite Hs in Hin. apply in_app_or in Hin as [Hin|Hin].
  - apply in_map_iff in Hin as (a&<-&Ha). split; [done|by apply (dir_window Hdir b)].
  - destruct (Z.eqb_spec t last) as [El|El]; [by rewrite Hs' in Hin|]. destruct Hs' as [-> _].
    destruct (dir_next Hdir t Ht El). apply (IH (next t) ""); [lia|done|done].
Qed.
End Direction.

(** ** Pages as prefixes of the slots *)

Lemma hits_prefix lim s : (0 < lim <= length (hits s))%nat → ∃ pre slot rest r,
  s = pre ++ slot :: rest ∧ hit slot = Some r ∧ hits pre ++ [r] = take lim (hits s) ∧ length (hits pre ++ [r]) = lim.
Proof.
  revert lim. induction s as [|slot s IH]; intros lim Hl; [simpl in Hl; lia|].
  unfold hits in *. cbn [omap list_omap] in *. destruct (hit slot) as [r|] eqn:Hr.
  - destruct lim as [|[|lim]]; [lia| |].
    + exists [], slot, s, r. done.
    + destruct (IH (S lim)) as (pre&slot'&rest&r'&->&Hr'&Hp&Hlen); [simpl in Hl; lia|].
      exists (slot :: pre), slot', rest, r'. cbn [omap list_omap app]. rewrite Hr. simpl. rewrite <- Hp. simpl in Hlen. auto.
  - destruct (IH lim Hl) as (pre&slot'&rest&r'&->&Hr'&Hp&Hlen).
    exists (slot :: pre), slot', rest, r'. cbn [omap list_omap app]. rewrite Hr. auto.
Qed.

(** The three ways a page ends, for a fresh request. *)
Lemma page_end_cases {P} (full : _ → Tx P) cut ended lim s : (0 < lim)%nat →
  (∃ pre slot rest r, s = pre ++ slot :: rest ∧ hit slot = Some r ∧ length (hits pre ++ [r]) = lim ∧
     page_end full cut ended lim 400 s [] = full (hits pre ++ [r])) ∨
  (∃ pre slot rest, s = pre ++ slot :: rest ∧ (length (hits (pre ++ [slot])) < lim)%nat ∧ length (pre ++ [slot]) = 400%nat ∧
     page_end full cut ended lim 400 s [] = cut (hits (pre ++ [slot])) (slot_cursor (Some slot))) ∨
  ((length (hits s) < lim)%nat ∧ ∃ c, page_end full cut ended lim 400 s [] = ended (hits s) c).
Proof.
  intros Hlim. unfold page_end. simpl.
  destruct (Nat.ltb_spec (length (hits (take 400 s))) lim) as [Hl|Hl].
  - destruct (Nat.ltb_spec 400 (length s)) as [Hs|Hs].
    + right. left. destruct (list.last (take 400 s)) as [slot|] eqn:E.
      * destruct (last_some_app _ _ E) as [pre Hpre]. exists pre, slot, (drop 400 s).
        rewrite <- Hpre. split; [|split_and!; [done|rewrite length_take; lia|done]]. rewrite <- (take_drop 400 s), Hpre, <- app_assoc at 1. done.
      * apply last_None, (f_equal length) in E. rewrite length_take, length_nil in E. lia.
    + right. right. rewrite take_ge in * by done. split; [done|]. by eexists.
  - left. destruct (hits_prefix lim (take 400 s)) as (pre&slot&rest&r&Hs&Hr&Hp&Hlen); [done|].
    exists pre, slot, (rest ++ drop 400 s), r. rewrite Hp. split_and!; [|done| |done].
    + rewrite <- (take_drop 400 s), Hs, <- app_assoc at 1. done.
    + by rewrite <- Hp.
Qed.

Lemma more_false s : more 400 s = false → hits s = [].
Proof.
  unfold more. intros [Hh Hl]%orb_false_iff. apply Nat.ltb_ge in Hl. rewrite take_ge in Hh by done.
  unfold any_hit in Hh. by destruct (hits s).
Qed.

(** ** The two directions *)

Lemma public_nonempty a : In a (public_actors d) → a ≠ "".
Proof.
  intros Ha%public_actors_in ->. unfold eligible_now in Ha. pose proof (rd_ok _ _ _ Hread) as Hd.
  destruct (relays d !! "") as [r|] eqn:Hr; [|destruct (discoveries d !! "") as [r|] eqn:Hdis; [|done]].
  - destruct (inv_relays _ _ Hd _ r Hr) as [Hc _]. unfold relay_check in Hc. by bool_facts.
  - destruct (inv_discoveries _ _ Hd _ r Hdis) as [Hc _]. unfold discovery_check in Hc. by bool_facts.
Qed.

Definition window_after (boundary : string) : list string := rows_after actor_key boundary (public_actors d).
Definition window_before (boundary : string) : list string := reverse (actors_below boundary (public_actors d)).
Definition tiers_after (tier : Z) : nat := Z.to_nat (5 - tier).
Definition tiers_before (tier : Z) : nat := Z.to_nat tier.

Lemma public_NoDup : NoDup (public_actors d).
Proof.
  pose proof (public_actors_sorted d) as Hs. unfold sorted in Hs. induction Hs as [|a l Hs IH Hf]; [constructor|].
  constructor; [|done]. rewrite list_elem_of_In. intros Ha. rewrite Forall_forall in Hf. specialize (Hf a Ha).
  by rewrite key_ltb_irrefl in Hf.
Qed.
Lemma sublist_NoDup (f : string → bool) : NoDup (List.filter f (public_actors d)).
Proof.
  pose proof public_NoDup as Hnd. induction Hnd as [|a l Ha Hnd IH]; simpl; [constructor|].
  destruct (f a); [|done]. constructor; [|done]. contradict Ha. rewrite list_elem_of_In in *. by apply filter_In in Ha as [? _].
Qed.

Lemma window_after_all : window_after "" = public_actors d.
Proof. apply filter_all_true. intros a Ha. by apply key_ltb_string_empty, public_nonempty. Qed.
Lemma window_before_all : window_before "" = reverse (public_actors d).
Proof. unfold window_before, actors_below. f_equal. by apply filter_all_true. Qed.

Lemma direction_after :
  direction window_after readDirectoryCandidateActorsAfter (λ t, t + 1) DirectoryTierGraveyard tiers_after.
Proof.
  split.
  - intros b a [Ha _]%filter_In. by apply public_actors_in.
  - intros b. apply sublist_NoDup.
  - intros b Hb. rewrite window_after_all. contradict Hb. unfold window_after. by rewrite Hb.
  - intros b n e Hn. by apply read_after_free; [apply Hread|].
  - intros b l1 a l2 Hw. apply (rows_after_continue actor_key (public_actors d) b l1 a l2); [apply public_actors_sorted|].
    by rewrite <- app_assoc.
  - done.
  - intros t Ht Hl. unfold DirectoryTier_Valid, tiers_after, DirectoryTierHeartbeatOnline, DirectoryTierGraveyard in *.
    bool_facts. split; [bool_lia|lia].
Qed.

Lemma direction_before :
  direction window_before readDirectoryCandidateActorsBefore (λ t, t - 1) DirectoryTierHeartbeatOnline tiers_before.
Proof.
  split.
  - intros b a Ha. unfold window_before in Ha. rewrite <- list_elem_of_In, elem_of_reverse, list_elem_of_In in Ha.
    apply filter_In in Ha as [Ha _]. by apply public_actors_in.
  - intros b. unfold window_before. rewrite reverse_Permutation. apply sublist_NoDup.
  - intros b Hb. rewrite window_before_all. contradict Hb. unfold window_before, actors_below.
    apply (f_equal reverse) in Hb. rewrite reverse_involutive in Hb. by rewrite Hb.
  - intros b n e Hn. by apply read_before_free; [apply Hread|].
  - intros b l1 a l2 Hw. unfold window_before in *. apply (f_equal reverse) in Hw.
    rewrite reverse_involutive, reverse_app, reverse_cons, <- app_assoc in Hw. simpl in Hw.
    assert (Hin : In a (actors_below b (public_actors d))) by (rewrite Hw; apply in_or_app; right; by left).
    apply filter_In in Hin as [Hin Hab]. pose proof (public_nonempty a Hin) as Hne.
    assert (Hs : sorted (O := string_order) (actors_below b (public_actors d))) by (apply sorted_filter, public_actors_sorted).
    rewrite Hw in Hs. apply StronglySorted_app_parts in Hs as (_&Hs2&H12).
    rewrite <- (reverse_involutive l2). f_equal. unfold actors_below.
    rewrite <- (filter_filter_subsumed _ (λ r, (b ≟ "") || key_ltb r b)).
    2:{ intros r [Hr|Hr]%orb_true_iff; [by rewrite (proj2 (String.eqb_neq a "") Hne) in Hr|].
        apply orb_true_iff in Hab as [->|Hab]; [done|]. by rewrite (key_ltb_trans r a b), orb_true_r. }
    fold (actors_below b (public_actors d)). rewrite Hw, List.filter_app, (proj2 (String.eqb_neq a "") Hne).
    rewrite filter_all_true, filter_all_false; [by rewrite app_nil_r|..].
    + intros y [<-|Hy]; [apply key_ltb_irrefl|]. apply StronglySorted_inv in Hs2 as [_ Hf].
      rewrite Forall_forall in Hf. by apply key_ltb_asym, Hf.
    + intros y Hy. apply H12; [done|by left].
  - done.
  - intros t Ht Hl. unfold DirectoryTier_Valid, tiers_before, DirectoryTierHeartbeatOnline, DirectoryTierGraveyard in *.
    bool_facts. split; [bool_lia|lia].
Qed.
End Scan.
