(* ===== verification/DirectoryWalk.v ===== *)
(** * DirectoryWalk: navigation of the public directory

    What a request promises of the slots ahead of its cursor, and what a reader
    sees who follows the continuations: forwards from the start the whole listing,
    from any relay of it the relays after, backwards the relays before. *)
From S2P Require Import Prelude Identity Vocabulary Store Repository Paging Lifecycle Discovery Reachability Pruning Invariant Contract Refinement System Guarantees ReachabilityFacts Health Telemetry Directory Evidence DirectoryFacts DirectoryPages DirectoryScan.
Local Open Scope string_scope.
Local Open Scope Z_scope.
Local Open Scope go_scope.
Local Open Scope list_scope.

(** ** The request loops are the shared loop *)

Section Requests.
Context `{RelayIdentity} `{ProfileReader} `{!ProfileReaderLaws}.
Context (now : Z) (d : db) (x : extras).

Definition last_cursor (page : list directory_relay) : directory_cursor :=
  match list.last page with Some r => relay_cursor r | None => directory_start end.
Definition full_after (q : directory_query) (page : list directory_relay) : Tx directory_page :=
  found ← hasDirectoryRelayAfter x (last_cursor page) now;
  mret (DirectoryPage page (forward_previous page (dir_after q)) (if (found : bool) then last_cursor page else directory_start)).
Definition cut_after (q : directory_query) (page : list directory_relay) (cursor : directory_cursor) : Tx directory_page :=
  mret (DirectoryPage page (forward_previous page (dir_after q)) cursor).
Definition ended_after (q : directory_query) (page : list directory_relay) (_ : directory_cursor) : Tx directory_page :=
  cut_after q page directory_start.

Definition first_cursor (page : list directory_relay) : directory_cursor :=
  match page with r :: _ => relay_cursor r | [] => directory_start end.
Definition full_before (page : list directory_relay) : Tx directory_page :=
  let relays := reverse page in
  found ← hasDirectoryRelayBefore x (first_cursor relays) now;
  mret (DirectoryPage relays (if (found : bool) then first_cursor relays else directory_start)
          (reverse_next relays directory_start)).
Definition cut_before (page : list directory_relay) (cursor : directory_cursor) : Tx directory_page :=
  mret (DirectoryPage (reverse page) cursor (reverse_next (reverse page) cursor)).
Definition ended_before (page : list directory_relay) (cursor : directory_cursor) : Tx directory_page :=
  mret (DirectoryPage (reverse page) directory_start (reverse_next (reverse page) cursor)).

(** Step over one monadic read on both sides. *)
Ltac same_read := rewrite !bind_run; match goal with |- context [match ?m ?st with _ => _ end] =>
  destruct (m st) as [[?|?] ?] end; cbn beta iota; [|done].

Lemma list_after_is_page_loop q lim fuel tier b scanned page st : dir_limit q = Z.of_nat lim →
  list_after_loop x q now fuel tier b scanned page st =
  page_loop now x readDirectoryCandidateActorsAfter (λ t, t + 1) DirectoryTierGraveyard
    (full_after q) (cut_after q) (ended_after q) lim fuel tier b scanned page st.
Proof.
  intros Hlim. revert tier b scanned page st. induction fuel as [|fuel IH]; intros tier b scanned page st; [done|].
  cbn [list_after_loop page_loop]. cbv zeta. destruct (DirectoryTier_Valid tier) eqn:Ht; [|done].
  destruct (scanned <? MaximumDirectoryProjectionScan)%nat; [|done]. cbn [negb orb]. same_read.
  case_match; [destruct (tier =? _); [done|apply IH]|]. same_read. rewrite Hlim. same_read.
  match goal with |- context [match ?s with PageFull _ => _ | Scanned _ _ => _ end] => destruct s end; [done|].
  case_match; [done|]. unfold DirectoryTier_Valid in Ht.
  destruct (_ =? MaximumDirectoryProjectionScan)%nat.
  - destruct (Z.eqb_spec tier DirectoryTierGraveyard) as [->|]; [done|]. bool_facts.
    rewrite (proj2 (Z.ltb_lt tier DirectoryTierGraveyard)) by lia. done.
  - destruct (tier =? _); [done|apply IH].
Qed.

Lemma list_before_is_page_loop q lim fuel tier b scanned page st : dir_limit q = Z.of_nat lim →
  list_before_loop x q now fuel tier b scanned page st =
  page_loop now x readDirectoryCandidateActorsBefore (λ t, t - 1) DirectoryTierHeartbeatOnline
    full_before cut_before ended_before lim fuel tier b scanned page st.
Proof.
  intros Hlim. revert tier b scanned page st. induction fuel as [|fuel IH]; intros tier b scanned page st; [done|].
  cbn [list_before_loop page_loop]. cbv zeta. destruct (DirectoryTier_Valid tier) eqn:Ht; [|done].
  destruct (scanned <? MaximumDirectoryProjectionScan)%nat; [|done]. cbn [negb orb]. same_read.
  case_match; [destruct (tier =? _); [done|apply IH]|]. same_read. rewrite Hlim. same_read.
  match goal with |- context [match ?s with PageFull _ => _ | Scanned _ _ => _ end] => destruct s end; [done|].
  case_match; [done|]. unfold DirectoryTier_Valid in Ht.
  destruct (_ =? MaximumDirectoryProjectionScan)%nat.
  - destruct (Z.eqb_spec tier DirectoryTierHeartbeatOnline) as [->|]; [done|]. bool_facts.
    rewrite (proj2 (Z.ltb_lt DirectoryTierHeartbeatOnline tier)) by lia. done.
  - destruct (tier =? _); [done|apply IH].
Qed.

Lemma directory_cursor_eqb_eq c1 c2 : directory_cursor_eqb c1 c2 = true ↔ c1 = c2.
Proof.
  destruct c1 as [t1 a1], c2 as [t2 a2]. unfold directory_cursor_eqb. simpl.
  rewrite andb_true_iff, Z.eqb_eq, String.eqb_eq. split; [by intros [-> ->]|by intros [= -> ->]].
Qed.
Lemma cursor_not_start t a : a ≠ "" → directory_cursor_eqb (DirectoryCursor t a) directory_start = false.
Proof. intros Ha. apply not_true_iff_false. rewrite directory_cursor_eqb_eq. by intros [= _ ->]. Qed.

(** The slots ahead of a cursor, in either direction. *)
Definition next_slots (tier : Z) (actor : string) : list (Z * string) :=
  slots_of (window_after d) (λ t, t + 1) tiers_after tier actor.
Definition previous_slots (tier : Z) (actor : string) : list (Z * string) :=
  slots_of (window_before d) (λ t, t - 1) tiers_before tier actor.
Definition slots_after (c : directory_cursor) : list (Z * string) :=
  if directory_cursor_eqb c directory_start then next_slots DirectoryTierHeartbeatOnline ""
  else next_slots (cursor_tier c) (cursor_actor c).
Definition slots_before (c : directory_cursor) : list (Z * string) := previous_slots (cursor_tier c) (cursor_actor c).

Hypothesis Hread : readable now d x.

(** A slot with a public actor is a cursor the repository accepts. *)
Definition public_slot (slot : Z * string) : Prop := DirectoryTier_Valid slot.1 = true ∧ eligible_now d slot.2 = true.

Lemma public_slot_cursor slot : public_slot slot →
  directory_cursor_valid (slot_cursor (Some slot)) = true ∧
  directory_cursor_eqb (slot_cursor (Some slot)) directory_start = false.
Proof.
  destruct slot as [t a]. intros [Ht He]. simpl in *.
  assert (Ha : a ≠ "") by (apply (public_nonempty now d x Hread), public_actors_in, He).
  pose proof (cursor_not_start t a Ha) as Hs. split; [|done]. unfold directory_cursor_valid. rewrite Hs. simpl.
  rewrite Ht, (proj2 (String.eqb_neq a "") Ha). simpl. by eapply eligible_canonical; [apply Hread|].
Qed.

Lemma next_slots_public t b slot : DirectoryTier_Valid t = true → In slot (next_slots t b) → public_slot slot.
Proof. intros Ht. by apply (slots_valid d _ _ _ _ _ (direction_after now d x Hread) (tiers_after t)). Qed.
Lemma previous_slots_public t b slot : DirectoryTier_Valid t = true → In slot (previous_slots t b) → public_slot slot.
Proof. intros Ht. by apply (slots_valid d _ _ _ _ _ (direction_before now d x Hread) (tiers_before t)). Qed.

Lemma tier_fuel_after t : DirectoryTier_Valid t = true → (tiers_after t <= tier_fuel)%nat.
Proof. unfold DirectoryTier_Valid, tiers_after, tier_fuel, DirectoryTierHeartbeatOnline, DirectoryTierGraveyard. intros. bool_facts. lia. Qed.
Lemma tier_fuel_before t : DirectoryTier_Valid t = true → (tiers_before t <= tier_fuel)%nat.
Proof. unfold DirectoryTier_Valid, tiers_before, tier_fuel, DirectoryTierHeartbeatOnline, DirectoryTierGraveyard. intros. bool_facts. lia. Qed.

Lemma has_after_run slot e : public_slot slot →
  hasDirectoryRelayAfter x (slot_cursor (Some slot)) now (TX e d []) =
  (Ok (more now d x 400 (next_slots slot.1 slot.2)), TX e d []).
Proof.
  intros Hslot. destruct (public_slot_cursor slot Hslot) as [Hv Hs]. unfold hasDirectoryRelayAfter.
  rewrite Hv, Hs. unfold check. simpl negb. simpl andb. tx_run. destruct slot as [t a], Hslot as [Ht _].
  by apply (has_relay_run now d x Hread _ _ _ _ _ (direction_after now d x Hread)); [|apply tier_fuel_after|lia].
Qed.
Lemma has_before_run slot e : public_slot slot →
  hasDirectoryRelayBefore x (slot_cursor (Some slot)) now (TX e d []) =
  (Ok (more now d x 400 (previous_slots slot.1 slot.2)), TX e d []).
Proof.
  intros Hslot. destruct (public_slot_cursor slot Hslot) as [Hv Hs]. unfold hasDirectoryRelayBefore.
  rewrite Hv, Hs. unfold check. simpl negb. simpl andb. tx_run. destruct slot as [t a], Hslot as [Ht _].
  by apply (has_relay_run now d x Hread _ _ _ _ _ (direction_before now d x Hread)); [|apply tier_fuel_before|lia].
Qed.

(** ** What a page promises *)

Abbreviation shown := (hits now d x).

(** A continuation resumes after the last slot of the page, and there is one
    unless nothing is left to show. *)
Definition continues (resume : directory_cursor → list (Z * string)) (cursor : directory_cursor) (pre rest : list (Z * string)) : Prop :=
  if directory_cursor_eqb cursor directory_start then shown rest = []
  else resume cursor = rest ∧ pre ≠ [] ∧ directory_cursor_valid cursor = true.
Definition forward_page (after : directory_cursor) (lim : nat) (page : directory_page) : Prop :=
  ∃ pre rest, slots_after after = pre ++ rest ∧ page_relays page = shown pre ∧ (length (page_relays page) <= lim)%nat ∧
    continues slots_after (page_next page) pre rest.
Definition backward_page (before : directory_cursor) (lim : nat) (page : directory_page) : Prop :=
  ∃ pre rest, slots_before before = pre ++ rest ∧ page_relays page = reverse (shown pre) ∧
    (length (page_relays page) <= lim)%nat ∧ continues slots_before (page_previous page) pre rest.

Lemma hit_slot slot r : public_slot slot → hit now d x slot = Some r → slot = (Tier r, RelayActor r).
Proof.
  destruct slot as [t a]. intros [_ He] Hh. destruct (hit_spec now d x Hread t a He) as (r'&_&Ha&_&_&Heq).
  rewrite Heq in Hh. destruct (Z.eqb_spec (Tier r') t) as [<-|]; [|done]. injection Hh as <-. by rewrite Ha.
Qed.
Lemma hits_snoc pre slot r : hit now d x slot = Some r → shown (pre ++ [slot]) = shown pre ++ [r].
Proof. intros Hr. rewrite hits_app. f_equal. unfold hits. simpl. by rewrite Hr. Qed.

Lemma cursor_tier_valid c : directory_cursor_valid c = true → directory_cursor_eqb c directory_start = false →
  DirectoryTier_Valid (cursor_tier c) = true.
Proof.
  unfold directory_cursor_valid. intros Hv Hs. rewrite Hs in Hv. destruct (DirectoryTier_Valid (cursor_tier c)); [done|].
  by simpl in Hv.
Qed.

Lemma slots_after_public c slot : directory_cursor_valid c = true → In slot (slots_after c) → public_slot slot.
Proof.
  unfold slots_after. intros Hv. destruct (directory_cursor_eqb c directory_start) eqn:E; apply next_slots_public; [done|].
  by apply cursor_tier_valid.
Qed.
Lemma slots_after_resume c pre slot rest : directory_cursor_valid c = true → slots_after c = pre ++ slot :: rest →
  next_slots slot.1 slot.2 = rest.
Proof.
  unfold slots_after. intros Hv. destruct slot as [t a].
  destruct (directory_cursor_eqb c directory_start) eqn:E;
    (apply (slots_resume d _ _ _ _ _ (direction_after now d x Hread) tier_fuel); [apply tier_fuel_after|]);
    (done || by apply cursor_tier_valid).
Qed.
Lemma slots_before_resume c pre slot rest : DirectoryTier_Valid (cursor_tier c) = true → slots_before c = pre ++ slot :: rest →
  previous_slots slot.1 slot.2 = rest.
Proof.
  unfold slots_before. intros Hv. destruct slot as [t a].
  by apply (slots_resume d _ _ _ _ _ (direction_before now d x Hread) tier_fuel); [apply tier_fuel_before|].
Qed.

Lemma continues_slot resume_slots pre slot rest : public_slot slot → resume_slots (slot_cursor (Some slot)) = rest →
  continues resume_slots (slot_cursor (Some slot)) (pre ++ [slot]) rest.
Proof.
  intros Hp Hr. destruct (public_slot_cursor slot Hp) as [Hv Hs]. unfold continues. rewrite Hs. split_and!; [done| |done].
  by destruct pre.
Qed.
Lemma continues_end resume_slots pre rest : shown rest = [] → continues resume_slots directory_start pre rest.
Proof. done. Qed.
Lemma next_slots_after slot : public_slot slot → slots_after (slot_cursor (Some slot)) = next_slots slot.1 slot.2.
Proof. intros Hp. destruct (public_slot_cursor slot Hp) as [_ Hs]. unfold slots_after. rewrite Hs. by destruct slot. Qed.

Lemma request_forward q lim : dir_limit q = Z.of_nat lim → (0 < lim <= 100)%nat → dir_before q = directory_start →
  directory_cursor_valid (dir_after q) = true → unix_of (dir_observed q) = now →
  ListDirectoryRelays plain_call x q d =
  fst (page_end now d x (full_after q) (cut_after q) (ended_after q) lim 400 (slots_after (dir_after q)) [] (TX d d [])).
Proof.
  intros Hlim Hl Hb Hv Hnow. destruct (rd_clock _ _ _ Hread) as [Hn _].
  unfold ListDirectoryRelays, run_read. cbn [configured negb plain_call]. unfold ListDirectoryRelays_query.
  rewrite Hb, Hv, Hnow, Hlim. change (directory_cursor_eqb directory_start directory_start) with true.
  change (directory_cursor_valid directory_start) with true. cbn [negb andb orb]. rewrite andb_false_r.
  rewrite (proj2 (Z.leb_gt (Z.of_nat lim) 0)), (proj2 (Z.ltb_ge MaximumDirectoryProjectionPage _)), (proj2 (Z.ltb_ge now 0))
    by (unfold MaximumDirectoryProjectionPage; lia).
  change (outcomes plain_call) with (@nil bool). unfold check. cbn [negb andb orb]. tx_run. unfold listDirectoryRelaysAfter. cbv zeta. f_equal.
  rewrite (list_after_is_page_loop q lim) by done.
  rewrite (page_loop_run now d x Hread _ _ _ _ _ (direction_after now d x Hread)); [| |apply tier_fuel_after| lia|simpl; lia].
  - unfold slots_after. by destruct (directory_cursor_eqb (dir_after q) directory_start).
  - destruct (directory_cursor_eqb (dir_after q) directory_start) eqn:E; [done|by apply cursor_tier_valid].
  - destruct (directory_cursor_eqb (dir_after q) directory_start) eqn:E; [done|by apply cursor_tier_valid].
Qed.

Lemma forward_request q lim : dir_limit q = Z.of_nat lim → (0 < lim <= 100)%nat → dir_before q = directory_start →
  directory_cursor_valid (dir_after q) = true → unix_of (dir_observed q) = now →
  ∃ page, ListDirectoryRelays plain_call x q d = Ok page ∧ forward_page (dir_after q) lim page.
Proof.
  intros Hlim Hl Hb Hv Hnow. rewrite (request_forward q lim) by done.
  pose proof (λ slot, slots_after_public (dir_after q) slot Hv) as Hpub.
  destruct (page_end_cases now d x (full_after q) (cut_after q) (ended_after q) lim (slots_after (dir_after q)))
    as [(pre&slot&rest&r&Hs&Hr&Hlen&->)|[(pre&slot&rest&Hs&Hlen&_&->)|(Hlen&c&->)]]; [lia| | |].
  - assert (Hp : public_slot slot) by (apply Hpub; rewrite Hs; apply in_or_app; right; by left).
    pose proof (slots_after_resume _ _ _ _ Hv Hs) as Hres.
    assert (Hc : last_cursor (shown pre ++ [r]) = slot_cursor (Some slot)).
    { unfold last_cursor. rewrite last_snoc. by rewrite (hit_slot slot r). }
    unfold full_after. rewrite Hc, bind_run, has_after_run by done. cbn beta iota. eexists. split; [done|].
    exists (pre ++ [slot]), rest. simpl. rewrite <- app_assoc, (hits_snoc pre slot r) by done. split_and!; [done|done|lia|].
    rewrite Hres. destruct (more now d x 400 rest) eqn:Hmore; [|by apply continues_end, more_false].
    apply continues_slot; [done|by rewrite next_slots_after].
  - assert (Hp : public_slot slot) by (apply Hpub; rewrite Hs; apply in_or_app; right; by left).
    eexists. split; [done|]. exists (pre ++ [slot]), rest. simpl. rewrite <- app_assoc. split_and!; [done|done|lia|].
    apply continues_slot; [done|]. rewrite next_slots_after by done. by apply (slots_after_resume (dir_after q) pre).
  - eexists. split; [done|]. exists (slots_after (dir_after q)), []. simpl. rewrite app_nil_r. split_and!; [done|done|lia|].
    by apply continues_end.
Qed.

Lemma request_backward q lim : dir_limit q = Z.of_nat lim → (0 < lim <= 100)%nat → dir_after q = directory_start →
  directory_cursor_valid (dir_before q) = true → directory_cursor_eqb (dir_before q) directory_start = false →
  unix_of (dir_observed q) = now →
  ListDirectoryRelays plain_call x q d =
  fst (page_end now d x full_before cut_before ended_before lim 400 (slots_before (dir_before q)) [] (TX d d [])).
Proof.
  intros Hlim Hl Ha Hv Hs Hnow. destruct (rd_clock _ _ _ Hread) as [Hn _].
  unfold ListDirectoryRelays, run_read. cbn [configured negb plain_call]. unfold ListDirectoryRelays_query.
  rewrite Ha, Hv, Hs, Hnow, Hlim. change (directory_cursor_eqb directory_start directory_start) with true.
  change (directory_cursor_valid directory_start) with true. cbn [negb andb orb].
  rewrite (proj2 (Z.leb_gt (Z.of_nat lim) 0)), (proj2 (Z.ltb_ge MaximumDirectoryProjectionPage _)), (proj2 (Z.ltb_ge now 0))
    by (unfold MaximumDirectoryProjectionPage; lia).
  change (outcomes plain_call) with (@nil bool). unfold check. cbn [negb andb orb]. tx_run.
  unfold listDirectoryRelaysBefore. f_equal. rewrite (list_before_is_page_loop q lim) by done.
  rewrite (page_loop_run now d x Hread _ _ _ _ _ (direction_before now d x Hread)); [done| |apply tier_fuel_before| lia|simpl; lia];
    by apply cursor_tier_valid.
Qed.

Lemma slots_before_public c slot : DirectoryTier_Valid (cursor_tier c) = true → In slot (slots_before c) → public_slot slot.
Proof. intros Hv. by apply previous_slots_public. Qed.
Lemma previous_slots_before slot : slots_before (slot_cursor (Some slot)) = previous_slots slot.1 slot.2.
Proof. by destruct slot. Qed.

Lemma backward_request q lim : dir_limit q = Z.of_nat lim → (0 < lim <= 100)%nat → dir_after q = directory_start →
  directory_cursor_valid (dir_before q) = true → directory_cursor_eqb (dir_before q) directory_start = false →
  unix_of (dir_observed q) = now →
  ∃ page, ListDirectoryRelays plain_call x q d = Ok page ∧ backward_page (dir_before q) lim page.
Proof.
  intros Hlim Hl Ha Hv Hst Hnow. rewrite (request_backward q lim) by done. pose proof (cursor_tier_valid _ Hv Hst) as Ht.
  pose proof (λ slot, slots_before_public (dir_before q) slot Ht) as Hpub.
  destruct (page_end_cases now d x full_before cut_before ended_before lim (slots_before (dir_before q)))
    as [(pre&slot&rest&r&Hs&Hr&Hlen&->)|[(pre&slot&rest&Hs&Hlen&_&->)|(Hlen&c&->)]]; [lia| | |].
  - assert (Hp : public_slot slot) by (apply Hpub; rewrite Hs; apply in_or_app; right; by left).
    pose proof (slots_before_resume _ _ _ _ Ht Hs) as Hres.
    assert (Hc : first_cursor (reverse (shown pre ++ [r])) = slot_cursor (Some slot)).
    { rewrite reverse_app. by rewrite (hit_slot slot r). }
    unfold full_before. cbv zeta. rewrite Hc, bind_run, has_before_run by done. cbn beta iota. eexists. split; [done|].
    exists (pre ++ [slot]), rest. simpl. rewrite <- app_assoc, (hits_snoc pre slot r), length_reverse by done.
    split_and!; [done|done|lia|]. rewrite Hres.
    destruct (more now d x 400 rest) eqn:Hmore; [|by apply continues_end, more_false].
    apply continues_slot; [done|by rewrite previous_slots_before].
  - assert (Hp : public_slot slot) by (apply Hpub; rewrite Hs; apply in_or_app; right; by left).
    eexists. split; [done|]. exists (pre ++ [slot]), rest. simpl. rewrite <- app_assoc, length_reverse. split_and!; [done|done|lia|].
    apply continues_slot; [done|]. rewrite previous_slots_before. by apply (slots_before_resume (dir_before q) pre).
  - eexists. split; [done|]. exists (slots_before (dir_before q)), []. simpl. rewrite app_nil_r, length_reverse.
    split_and!; [done|done|lia|]. by apply continues_end.
Qed.

(** ** Following the continuations *)

Definition resume_with (next : directory_cursor) : option directory_cursor :=
  if directory_cursor_eqb next directory_start then None else Some next.
Definition read_forward (lim : nat) (t : Z) (after : directory_cursor) :=
  match ListDirectoryRelays plain_call x (DirectoryQuery after directory_start (Z.of_nat lim) t) d with
  | Ok page => Ok (page_relays page, resume_with (page_next page))
  | Err e => Err e
  end.
(** Backwards, the relays of a page are read from its end. *)
Definition read_backward (lim : nat) (t : Z) (before : directory_cursor) :=
  match ListDirectoryRelays plain_call x (DirectoryQuery directory_start before (Z.of_nat lim) t) d with
  | Ok page => Ok (reverse (page_relays page), resume_with (page_previous page))
  | Err e => Err e
  end.

Lemma walk_slots (read : directory_cursor → result error (list directory_relay * option directory_cursor))
    (resume : directory_cursor → list (Z * string)) (accepted : directory_cursor → Prop) fuel c :
  (∀ c, accepted c → ∃ next pre rest, read c = Ok (shown pre, next) ∧ resume c = pre ++ rest ∧
     match next with None => shown rest = [] | Some c' => accepted c' ∧ resume c' = rest ∧ pre ≠ [] end) →
  accepted c → (length (resume c) < fuel)%nat → read_all read fuel c = Ok (shown (resume c)).
Proof.
  intros Hread'. revert c. induction fuel as [|fuel IH]; intros c Hc Hf; [lia|]. simpl.
  destruct (Hread' c Hc) as (next&pre&rest&->&Hs&Hn). rewrite Hs, hits_app in *.
  destruct next as [c'|]; [|by rewrite Hn, app_nil_r]. destruct Hn as (Hc'&Hr&Hpre).
  rewrite IH; [by rewrite Hr|done|]. rewrite Hr. rewrite length_app in Hf. destruct pre; [done|]. simpl in Hf. lia.
Qed.

Lemma walk_forward lim t fuel c : (0 < lim <= 100)%nat → unix_of t = now → directory_cursor_valid c = true →
  (length (slots_after c) < fuel)%nat → read_all (read_forward lim t) fuel c = Ok (shown (slots_after c)).
Proof.
  intros Hl Ht Hc. apply (walk_slots _ _ (λ c, directory_cursor_valid c = true)); [|done]. clear c Hc fuel. intros c Hc.
  destruct (forward_request (DirectoryQuery c directory_start (Z.of_nat lim) t) lim) as (page&Hp&pre&rest&Hs&Hrel&_&Hcont); try done.
  unfold read_forward. rewrite Hp, Hrel. exists (resume_with (page_next page)), pre, rest. split_and!; [done|done|].
  revert Hcont. unfold continues, resume_with. destruct (directory_cursor_eqb _ _); [done|]. by intros (?&?&?).
Qed.

Lemma walk_backward lim t fuel c : (0 < lim <= 100)%nat → unix_of t = now → directory_cursor_valid c = true →
  directory_cursor_eqb c directory_start = false →
  (length (slots_before c) < fuel)%nat → read_all (read_backward lim t) fuel c = Ok (shown (slots_before c)).
Proof.
  intros Hl Ht Hc Hst.
  apply (walk_slots _ _ (λ c, directory_cursor_valid c = true ∧ directory_cursor_eqb c directory_start = false)); [|done].
  clear c Hc Hst fuel. intros c [Hc Hst].
  destruct (backward_request (DirectoryQuery directory_start c (Z.of_nat lim) t) lim) as (page&Hp&pre&rest&Hs&Hrel&_&Hcont); try done.
  unfold read_backward. rewrite Hp, Hrel, reverse_involutive. exists (resume_with (page_previous page)), pre, rest. split_and!; [done|done|].
  revert Hcont. unfold continues, resume_with. destruct (directory_cursor_eqb (page_previous page) _) eqn:E; [done|].
  by intros (?&?&?).
Qed.

(** ** The whole listing *)

Definition chunk (tier : Z) : list (Z * string) := map (pair tier) (public_actors d).
Definition all_slots : list (Z * string) := chunk 1 ++ chunk 2 ++ chunk 3 ++ chunk 4.

Lemma next_slots_all : slots_after directory_start = all_slots.
Proof.
  change (slots_after directory_start) with (slots (window_after d) (λ t, t + 1) 4 1 ""). cbn [slots].
  rewrite (window_after_all now d x Hread). unfold all_slots, chunk. by rewrite app_nil_r.
Qed.
Lemma previous_slots_all : slots_before (DirectoryCursor DirectoryTierGraveyard "") = reverse all_slots.
Proof.
  change (slots_before _) with (slots (window_before d) (λ t, t - 1) 4 4 ""). cbn [slots].
  rewrite window_before_all. unfold all_slots, chunk. rewrite app_nil_r, !reverse_app, <- !app_assoc.
  assert (Hrev : ∀ t : Z, reverse (map (pair t) (public_actors d)) = map (pair t) (reverse (public_actors d))).
  { intros t. symmetry. exact (fmap_reverse (pair t) (public_actors d)). }
  by rewrite !Hrev.
Qed.

Lemma all_slots_in t a : In (t, a) all_slots ↔ DirectoryTier_Valid t = true ∧ In a (public_actors d).
Proof.
  unfold all_slots, chunk. rewrite !in_app_iff, !in_map_iff. unfold DirectoryTier_Valid, DirectoryTierHeartbeatOnline, DirectoryTierGraveyard.
  split.
  - intros Hin. repeat destruct Hin as [Hin|Hin]; destruct Hin as (b&Heq&Hb); by injection Heq as <- <-.
  - intros [Ht Ha]. assert (Ht' : t = 1 ∨ t = 2 ∨ t = 3 ∨ t = 4) by (bool_facts; lia).
    destruct Ht' as [->|[->|[->| ->]]]; eauto 6.
Qed.

(** The position of a relay in the listing. *)
Definition relay_position (r : directory_relay) : Z * string := (Tier r, RelayActor r).
Definition slot_key (slot : Z * string) : Z * string := slot.

Lemma chunk_sorted t : strictly_sorted slot_key (chunk t).
Proof.
  unfold strictly_sorted, chunk. pose proof (public_actors_sorted d) as Hs. unfold sorted in Hs.
  induction Hs as [|a l Hs IH Hf]; simpl; constructor; [done|]. apply Forall_forall. intros slot (b&<-&Hb)%in_map_iff.
  rewrite Forall_forall in Hf. specialize (Hf b Hb). unfold slot_key, key_ltb at 1. simpl. rewrite key_ltb_irrefl. simpl. done.
Qed.
Lemma chunks_sorted t l : strictly_sorted slot_key l → (∀ slot, In slot l → t < slot.1) → strictly_sorted slot_key (chunk t ++ l).
Proof.
  intros Hl Hin. apply StronglySorted_app. split_and!; [|apply chunk_sorted|done].
  intros s1 s2. rewrite !list_elem_of_In. intros (a&<-&_)%in_map_iff H2. specialize (Hin s2 H2). unfold slot_key, key_ltb at 1.
  simpl. apply orb_true_iff. left. apply Z.ltb_lt, Hin.
Qed.
Lemma chunk_tier t slot : In slot (chunk t) → slot.1 = t.
Proof. by intros (a&<-&_)%in_map_iff. Qed.
Lemma all_slots_sorted : strictly_sorted slot_key all_slots.
Proof.
  unfold all_slots. apply chunks_sorted; [apply chunks_sorted; [apply chunks_sorted; [apply chunk_sorted|]|]|];
    intros slot; rewrite ?in_app_iff; intros Hin; repeat destruct Hin as [Hin|Hin]; apply chunk_tier in Hin; lia.
Qed.

Lemma all_slots_public slot : In slot all_slots → public_slot slot.
Proof. destruct slot as [t a]. rewrite all_slots_in. intros [Ht Ha]. split; [done|by apply public_actors_in]. Qed.

Lemma hits_sorted l : strictly_sorted slot_key l → (∀ slot, In slot l → public_slot slot) → strictly_sorted relay_position (shown l).
Proof.
  intros Hs. induction Hs as [|slot l Hs IH Hf]; intros Hp; [constructor|].
  unfold hits. cbn [omap list_omap]. fold (shown l).
  destruct (hit now d x slot) as [r|] eqn:Hr; [|apply IH; intros; apply Hp; by right]. constructor.
  - apply IH. intros; apply Hp; by right.
  - apply Forall_forall. intros r' Hr'. apply (hits_in now d x Hread) in Hr'; [|intros s Hin; by apply (Hp s); right].
    rewrite Forall_forall in Hf. specialize (Hf _ Hr'). rewrite (hit_slot slot r) in Hf; [done|by apply Hp; left|done].
Qed.

Lemma hits_split l l1 r l2 : shown l = l1 ++ r :: l2 → ∃ pre slot rest,
  l = pre ++ slot :: rest ∧ hit now d x slot = Some r ∧ shown pre = l1 ∧ shown rest = l2.
Proof.
  revert l1. induction l as [|slot l IH]; intros l1 Heq; [by destruct l1|]. unfold hits in Heq. cbn [omap list_omap] in Heq.
  destruct (hit now d x slot) as [r'|] eqn:Hr.
  - destruct l1 as [|r1 l1]; injection Heq as -> Heq; [by exists [], slot, l|].
    destruct (IH l1 Heq) as (pre&s&rest&->&Hs&Hp&Hrest). exists (slot :: pre), s, rest. split_and!; [done|done| |done].
    rewrite <- Hp. unfold hits. cbn [omap list_omap]. by rewrite Hr.
  - destruct (IH l1 Heq) as (pre&s&rest&->&Hs&Hp&Hrest). exists (slot :: pre), s, rest. split_and!; [done|done| |done].
    rewrite <- Hp. unfold hits. cbn [omap list_omap]. by rewrite Hr.
Qed.

Lemma hits_reverse l : shown (reverse l) = reverse (shown l).
Proof.
  induction l as [|slot l IH]; [done|]. rewrite reverse_cons, hits_app, IH. unfold hits at 2 3. cbn [omap list_omap].
  destruct (hit now d x slot); [by rewrite reverse_cons|by rewrite app_nil_r].
Qed.

Lemma all_hits_in r : In r (shown all_slots) ↔ eligible_now d (RelayActor r) = true ∧ detail_of now d x (RelayActor r) = Ok (Some r).
Proof.
  split.
  - intros Hin. pose proof Hin as Hin'. apply (hits_in now d x Hread) in Hin; [|intros s Hs; by apply all_slots_public].
    apply all_slots_public in Hin as [_ He]. simpl in He. split; [done|].
    destruct (row_of_public now d x Hread _ He) as (r'&Hd&Hrow&_). rewrite Hd. do 2 f_equal.
    unfold hits in Hin'. rewrite <- list_elem_of_In, list_elem_of_omap in Hin'. destruct Hin' as (slot&Hslot&Hh).
    rewrite list_elem_of_In in Hslot. pose proof (hit_slot slot r (all_slots_public _ Hslot) Hh) as ->.
    unfold hit in Hh. simpl in Hh. rewrite Hrow in Hh. by case_match; simplify_eq.
  - intros [He Hd]. destruct (row_of_public now d x Hread _ He) as (r'&Hd'&Hrow&_&Ht&_). rewrite Hd in Hd'. injection Hd' as <-.
    unfold hits. rewrite <- list_elem_of_In, list_elem_of_omap. exists (Tier r, RelayActor r). split.
    + rewrite list_elem_of_In. apply all_slots_in. split; [done|by apply public_actors_in].
    + unfold hit. simpl. by rewrite Hrow, Z.eqb_refl.
Qed.

Lemma all_slots_length : length all_slots = (4 * length (public_actors d))%nat.
Proof. unfold all_slots, chunk. rewrite !length_app, !length_map. lia. Qed.
End Requests.

(** ** The directory *)

Section Theorems.
Context `{RelayIdentity} `{ProfileReader} `{!ProfileReaderLaws}.

(** C15: Following the next-page cursors from the start, with any page size, lists
    every actor with a public path exactly once with the row assembled from its
    retained evidence, by tier and then by actor; no request fails. *)
Theorem directory_listing_complete lim t fuel d x :
  readable (unix_of t) d x → (0 < lim <= 100)%nat → (4 * length (public_actors d) < fuel)%nat →
  ∃ listing, read_all (read_forward d x lim t) fuel directory_start = Ok listing ∧
    strictly_sorted relay_position listing ∧
    ∀ r, In r listing ↔ eligible_now d (RelayActor r) = true ∧ detail_of (unix_of t) d x (RelayActor r) = Ok (Some r).
Proof.
  intros Hread Hl Hf. exists (hits (unix_of t) d x (all_slots d)).
  rewrite (walk_forward (unix_of t)), (next_slots_all (unix_of t) d x Hread); try done.
  - split_and!; [done| |apply (all_hits_in _ _ _ Hread)].
    apply (hits_sorted _ _ _ Hread); [apply all_slots_sorted|intros slot; apply all_slots_public].
  - by rewrite (next_slots_all (unix_of t) d x Hread), all_slots_length.
Qed.

(** C16: The cursor of any listed relay navigates the listing: the next pages from
    it show exactly the relays after it, the previous pages, read from their end,
    exactly the relays before it. *)
Theorem directory_navigation lim t fuel d x before r after :
  readable (unix_of t) d x → (0 < lim <= 100)%nat → (4 * length (public_actors d) < fuel)%nat →
  read_all (read_forward d x lim t) fuel directory_start = Ok (before ++ r :: after) →
  read_all (read_forward d x lim t) fuel (relay_cursor r) = Ok after ∧
  read_all (read_backward d x lim t) fuel (relay_cursor r) = Ok (reverse before).
Proof.
  intros Hread Hl Hf Hall. pose proof (next_slots_all (unix_of t) d x Hread) as Hnext.
  rewrite (walk_forward (unix_of t)) in Hall; [|done|done|done|done|by rewrite Hnext, all_slots_length].
  rewrite Hnext in Hall. injection Hall as Hall.
  apply hits_split in Hall as (pre&slot&rest&Hs&Hr&Hpre&Hrest).
  assert (Hp : public_slot d slot) by (apply all_slots_public; rewrite Hs; apply in_or_app; right; by left).
  pose proof (hit_slot (unix_of t) d x Hread slot r Hp Hr) as Hslot.
  assert (Hc : relay_cursor r = slot_cursor (Some slot)) by (by rewrite Hslot).
  destruct (public_slot_cursor (unix_of t) d x Hread slot Hp) as [Hv Hst].
  assert (Hlen : (length (all_slots d) < fuel)%nat) by (by rewrite all_slots_length). rewrite Hs, length_app in Hlen. simpl in Hlen.
  assert (Hafter : slots_after d (slot_cursor (Some slot)) = rest).
  { rewrite (next_slots_after (unix_of t) d x Hread) by done. apply (slots_after_resume (unix_of t) d x Hread directory_start pre); [done|by rewrite Hnext]. }
  assert (Hbefore : slots_before d (slot_cursor (Some slot)) = reverse pre).
  { rewrite previous_slots_before.
    apply (slots_before_resume (unix_of t) d x Hread (DirectoryCursor DirectoryTierGraveyard "") (reverse rest)); [done|].
    rewrite (previous_slots_all), Hs, reverse_app, reverse_cons, <- app_assoc. done. }
  rewrite Hc, (walk_forward (unix_of t)), (walk_backward (unix_of t)), Hafter, Hbefore, hits_reverse, Hpre, Hrest; try done.
  - rewrite Hbefore, length_reverse. lia.
  - rewrite Hafter. lia.
Qed.

Lemma fresh_earlier relay now now' : 0 ≤ now ≤ now' → now' ≤ int64_max →
  validObservedTime (ActorLastSuccessUnix relay) now = true →
  fresh_reachability relay now' = true → fresh_reachability relay now = true.
Proof.
  intros Hn Hm Hv. unfold fresh_reachability. change (seconds_of ReachabilityFreshness) with 21600.
  intros [-> Hf]%andb_true_iff. simpl. destruct (DirActorLastChecked relay) as [c|], (ActorLastSuccessUnix relay) as [s|]; try done.
  simpl in Hv. rewrite int64_sub_nonneg in Hf |- * by (unfold int64_max in *; lia). bool_facts. bool_lia.
Qed.
Lemma heartbeat_earlier relay now now' : 0 ≤ now ≤ now' → now' ≤ int64_max →
  validObservedTime (LastHeartbeatUnix relay) now = true →
  current_heartbeat relay now' = true → current_heartbeat relay now = true.
Proof.
  intros Hn Hm Hv. unfold current_heartbeat. change (seconds_of HealthyThrough) with 129600.
  intros [-> Hf]%andb_true_iff. simpl. destruct (LastHeartbeatUnix relay) as [s|]; [|done].
  simpl in Hv. rewrite int64_sub_nonneg in Hf |- * by (unfold int64_max in *; lia). bool_facts. bool_lia.
Qed.

Lemma evidence_tier relay now : ValidateDirectoryProjectionEvidence relay now = true →
  validObservedTime (ActorLastSuccessUnix relay) now = true ∧ validObservedTime (LastHeartbeatUnix relay) now = true ∧
  ClassifyDirectoryTier relay now = Ok (Tier relay).
Proof.
  unfold ValidateDirectoryProjectionEvidence, heartbeat_evidence, tier_agrees. intros Hv. bool_facts.
  destruct (ClassifyDirectoryTier relay now) as [t|]; [|done].
  bool_facts. by subst t.
Qed.
Lemma classified_tier relay now tier : ClassifyDirectoryTier relay now = Ok tier →
  0 ≤ now ∧ 0 ≤ FirstKnownUnix relay ≤ now ∧ PublicHeartbeatState_Valid (HeartbeatState relay) = true ∧
  ReachabilityState_Valid (ActorState relay) = true ∧ InboxProbeState_Valid (DirInboxProbeState relay) = true.
Proof. unfold ClassifyDirectoryTier. case_match eqn:E; [done|]. intros _. bool_facts. done. Qed.

(** Tiers only degrade while the evidence stays the same: a row valid at one
    time still classifies at any later time, never into a better tier. *)
Theorem ClassifyDirectoryTier_degrades relay now now' :
  ValidateDirectoryProjectionEvidence relay now = true → now ≤ now' ≤ int64_max →
  ∃ tier, ClassifyDirectoryTier relay now' = Ok tier ∧ DirectoryTier_Valid tier = true ∧ Tier relay ≤ tier.
Proof.
  intros (Hs&Hb&Ht)%evidence_tier [Hle Hmax]. destruct (classified_tier _ _ _ Ht) as (Hn&Hk&Hh&Ha&Hi).
  destruct (ClassifyDirectoryTier_total relay now') as (t'&Ht'&Htv); try done; [lia|lia|].
  exists t'. split; [done|split; [done|]]. unfold ClassifyDirectoryTier in Ht, Ht'.
  destruct (_ || _ : bool) in Ht; [done|]. destruct (_ || _ : bool) in Ht'; [done|].
  pose proof (fresh_earlier relay now now' ltac:(lia) Hmax Hs) as Hf.
  pose proof (heartbeat_earlier relay now now' ltac:(lia) Hmax Hb) as Hc.
  change (seconds_of DirectoryGraveyardAfter) with 2592000 in *.
  rewrite int64_sub_nonneg in Ht, Ht' by (unfold int64_max in *; lia).
  unfold DirectoryTierHeartbeatOnline, DirectoryTierOnline, DirectoryTierUnavailable, DirectoryTierGraveyard in *.
  destruct (fresh_reachability relay now), (current_heartbeat relay now),
    (fresh_reachability relay now'), (current_heartbeat relay now'); try (specialize (Hf eq_refl); done); try (specialize (Hc eq_refl); done);
    simpl in Ht, Ht'; repeat case_match; bool_facts; simplify_eq; lia.
Qed.
End Theorems.
