(* ===== verification/ProfileFacts.v ===== *)
(** * ProfileFacts: what the sources of a profile combine to

    [readEffectiveProfiles] reads the rows of all sources in one ordered query and
    keeps, for every field, the first row it meets; here it is shown to be the
    field-by-field precedence override, relay, CSV over the stored table.  This is
    the profile reader the directory projection is verified against. *)
From S2P Require Import Prelude GoNet Identity AddrText Canonical Text Vocabulary Store Repository Contract Telemetry Session Profile ProfileNormal Directory.
From Stdlib Require Import Ascii.
Local Open Scope string_scope.
Local Open Scope Z_scope.
Local Open Scope go_scope.
Local Open Scope list_scope.

Section Facts.
Context `{Hidentity : RelayIdentity} `{Hcanonical : !CanonicalURLs}.

(** ** Precedence *)

(** The first of the three sources, by falling priority, that has a value. *)
Definition precedence {A} (value : ProfileSourceKind → option A) : option A :=
  match value ProfileSourceOverride with
  | Some v => Some v
  | None => match value ProfileSourceRelay with Some v => Some v | None => value ProfileSourceCSV end
  end.
Definition winner (store : profile_table) (actor : string) (f : ProfileField) : option profile_row :=
  precedence (λ kind, store !! (actor, (kind, f))).

(** Every stored value is the JSON of one normalized field. *)
Definition values_sound (store : profile_table) : Prop :=
  ∀ actor kind f r, store !! (actor, (kind, f)) = Some r → stored_value f (value_json r).
Lemma winner_stored store actor f r : values_sound store → winner store actor f = Some r → stored_value f (value_json r).
Proof.
  intros Hs. unfold winner, precedence. repeat case_match; intros; simplify_eq; eauto.
Qed.

(** ** The effective profile, one field at a time *)

Definition put_winner (store : profile_table) (actor : string) (acc : profile) (f : ProfileField) : profile :=
  match winner store actor f with
  | Some r => match decodeProfileField acc f (value_json r) with Ok p => p | Err _ => acc end
  | None => acc
  end.
Definition effective_profile (store : profile_table) (actor : string) : profile :=
  fold_left (put_winner store actor) ProfileFields empty_profile.

(** What a field of a profile built from stored values looks like. *)
Definition field_from (row : option profile_row) (p : profile) (f : ProfileField) : Prop :=
  match row with
  | Some r => ∃ q, profile_fixed q ∧ encodeProfileField q f = Some (value_json r) ∧ same_field p q f
  | None => same_field p empty_profile f
  end.
Lemma field_from_fixed row p f : field_from row p f → field_fixed p f.
Proof.
  destruct row as [r|]; cbn [field_from].
  - intros (q&Hq&_&Hs1&Hs2). apply (field_fixed_same q); [by split|]. by apply profile_fixed_fields.
  - intros [Hs1 Hs2]. apply (field_fixed_same empty_profile); [by split|]. apply profile_fixed_fields, empty_fixed.
Qed.
Lemma field_from_encode row p f : field_from row p f → encodeProfileField p f = value_json <$> row.
Proof.
  destruct row as [r|]; cbn [field_from].
  - intros (q&_&Hq&Hs). by rewrite (encode_same _ _ _ Hs).
  - intros Hs. by rewrite (encode_same _ _ _ Hs), encode_empty.
Qed.
Lemma field_from_same row p q f : same_field q p f → field_from row p f → field_from row q f.
Proof.
  intros [H1 H2]. destruct row as [r|]; cbn [field_from].
  - intros (x&Hx&He&[H3 H4]). exists x. split_and!; [done|done|]. split; congruence.
  - intros [H3 H4]. split; congruence.
Qed.
Lemma field_from_unique row p q f : field_from row p f → field_from row q f → same_field p q f.
Proof.
  destruct row as [r|]; cbn [field_from]; [|intros [H1 H2] [H3 H4]; split; congruence].
  intros (x&_&Hx&Sx) (y&_&Hy&Sy). assert (Hxy : same_field x y f).
  { clear Sx Sy. unfold encodeProfileField in *. rewrite <- Hx in Hy. clear Hx. destruct (MultiValue f) eqn:E.
    - assert (Ht : ∀ p, text_of p f = "") by (intros p'; by destruct f). split; [by rewrite !Ht|].
      destruct (list_of x f) as [|v l], (list_of y f) as [|w m]; try done.
      assert (Hj : json_list (map b (w :: m)) = json_list (map b (v :: l))) by (apply (f_equal (fmap b)) in Hy; cbn [fmap option_fmap option_map] in Hy; rewrite !b_str in Hy; congruence).
      apply (f_equal unmarshal_strings) in Hj. rewrite !unmarshal_json_list in Hj by done.
      assert (Hinj : ∀ l1 l2, map b l1 = map b l2 → l1 = l2).
      { induction l1 as [|c l1 IH]; intros [|d l2] Heq; try done. cbn [map] in Heq. pose proof (f_equal (hd []) Heq) as Hh.
        pose proof (f_equal (@tl _) Heq) as Htl. simpl in Hh, Htl. f_equal; [|by apply IH]. by rewrite <- (str_b c), Hh, str_b. }
      symmetry. apply Hinj. congruence.
    - assert (Hl : ∀ p, list_of p f = []) by (intros p'; by destruct f). split; [|by rewrite !Hl].
      destruct (String.eqb_spec (text_of x f) ""), (String.eqb_spec (text_of y f) ""); try congruence.
      assert (Hj : json_string (b (text_of y f)) = json_string (b (text_of x f))) by (apply (f_equal (fmap b)) in Hy; cbn [fmap option_fmap option_map] in Hy; rewrite !b_str in Hy; congruence).
      apply (f_equal unmarshal_string) in Hj. rewrite !unmarshal_json_string in Hj.
      rewrite <- (str_b (text_of x f)), <- (str_b (text_of y f)). congruence. }
  destruct Sx, Sy, Hxy. split; congruence.
Qed.

Lemma fold_winner store actor fields : values_sound store → NoDup fields → ∀ acc, (∀ f, f ∈ fields → same_field acc empty_profile f) →
  let p := fold_left (put_winner store actor) fields acc in
  ∀ f, if bool_decide (f ∈ fields) then field_from (winner store actor f) p f else same_field p acc f.
Proof.
  intros Hs. induction 1 as [|g fields Hg Hnd IH]; intros acc Hacc; cbn [fold_left]; cbv zeta in *.
  - intros f. rewrite bool_decide_eq_false_2 by set_solver. by split.
  - assert (Hstep : field_from (winner store actor g) (put_winner store actor acc g) g ∧
                    ∀ f, f ≠ g → same_field (put_winner store actor acc g) acc f).
    { unfold put_winner. destruct (winner store actor g) as [r|] eqn:Hw.
      - destruct (decode_stored g (value_json r) acc) as (q&->&Hq&He); [by eapply winner_stored|]. split.
        + exists q. split_and!; [done|done|apply copy_field_same].
        + intros f Hf. by apply copy_field_other.
      - split; [apply Hacc; set_solver|]. intros f _. by split. }
    destruct Hstep as [Hown Hother]. specialize (IH (put_winner store actor acc g)).
    ospecialize (IH _).
    { intros f Hf. assert (f ≠ g) by (intros ->; done). destruct (Hother f) as [K1 K2]; [done|]. destruct (Hacc f) as [K3 K4]; [set_solver|]. split; congruence. }
    intros f. specialize (IH f). destruct (decide (f = g)) as [->|Hne].
    + rewrite bool_decide_eq_false_2 in IH by done. rewrite bool_decide_eq_true_2 by set_solver. by eapply field_from_same.
    + destruct (decide (f ∈ fields)).
      * rewrite bool_decide_eq_true_2 in IH by done. rewrite bool_decide_eq_true_2 by set_solver. done.
      * rewrite bool_decide_eq_false_2 in IH by done. rewrite bool_decide_eq_false_2 by (by intros [?|?]%elem_of_cons).
        destruct IH as [K1 K2]. destruct (Hother f) as [K3 K4]; [done|]. split; congruence.
Qed.

Lemma effective_field store actor f : values_sound store → field_from (winner store actor f) (effective_profile store actor) f.
Proof.
  intros Hs. pose proof (fold_winner store actor ProfileFields Hs) as Hf. ospecialize (Hf _); [by apply (bool_decide_unpack _)|].
  specialize (Hf empty_profile). ospecialize (Hf _); [by intros|]. specialize (Hf f). cbv zeta in Hf.
  rewrite bool_decide_eq_true_2 in Hf; [done|]. destruct f; by apply (bool_decide_unpack _).
Qed.
Lemma effective_fixed store actor : values_sound store → profile_fixed (effective_profile store actor).
Proof. intros Hs. apply profile_fixed_fields. intros f. by eapply field_from_fixed, effective_field. Qed.
Lemma effective_unique store actor p : values_sound store → (∀ f, field_from (winner store actor f) p f) → p = effective_profile store actor.
Proof. intros Hs Hp. apply profile_ext. intros f. by eapply field_from_unique, effective_field. Qed.

(** ** The ordered query *)

Definition entry_of (actor : string) (f : ProfileField) (e : profile_entry) : bool := (e.1.1 ≟ actor) && bool_decide (e.1.2.2 = f).
Definition first_row (rows : list profile_entry) (actor : string) (f : ProfileField) : option profile_row :=
  snd <$> List.find (entry_of actor f) rows.

Lemma query_in store actors e : In e (effective_query store actors) ↔ one_of actors e.1.1 = true ∧ store !! e.1 = Some e.2.
Proof.
  unfold effective_query. rewrite order_by_in, filter_In, <- list_elem_of_In. destruct e as [k r]. rewrite elem_of_map_to_list. cbn [fst snd]. tauto.
Qed.
Lemma field_name_inj f g : field_name f = field_name g → f = g.
Proof. by destruct f, g. Qed.
Lemma query_sorted store actors : strictly_sorted effective_key (effective_query store actors).
Proof.
  apply order_by_sorted.
  set (g := λ k : profile_key, (k.1, (field_name k.2.2, - ProfileSourcePriority k.2.1))).
  assert (Hg : ∀ rows : list profile_entry, effective_key <$> rows = g <$> (fst <$> rows)).
  { intros rows. rewrite <- list_fmap_compose. apply list_fmap_ext. by intros _ [[a [k f]] r] _. }
  rewrite Hg. assert (Inj (=) (=) g).
  { intros [a [k f]] [a' [k' f']] [= -> Hf Hk]. apply field_name_inj in Hf as ->. by destruct k, k'. }
  apply NoDup_fmap_2; [done|].
  assert (Hnd : NoDup (fst <$> map_to_list store)) by apply NoDup_fst_map_to_list.
  revert Hnd. generalize (map_to_list store). induction l as [|e l IH]; intros Hnd; cbn [List.filter fmap list_fmap] in *; [constructor|].
  apply list.NoDup_cons in Hnd as [Hni Hnd]. specialize (IH Hnd). destruct (one_of actors e.1.1); [|done].
  apply list.NoDup_cons. split; [|done]. intros (e'&He&Hin)%list_elem_of_fmap. apply list_elem_of_In, filter_In in Hin as [Hin _].
  apply Hni. rewrite He. apply list_elem_of_fmap_2. by apply list_elem_of_In.
Qed.

Lemma first_is_winner store actors actor f : In actor actors → first_row (effective_query store actors) actor f = winner store actor f.
Proof.
  intros Hin. assert (Hreq : one_of actors actor = true) by (apply existsb_exists; exists actor; split; [done|apply String.eqb_refl]).
  assert (Hhas : ∀ kind r, store !! (actor, (kind, f)) = Some r →
    In ((actor, (kind, f)), r) (effective_query store actors) ∧ entry_of actor f ((actor, (kind, f)), r) = true).
  { intros kind r Hr. split; [by apply query_in|]. unfold entry_of. cbn [fst snd]. by rewrite String.eqb_refl, bool_decide_eq_true_2. }
  unfold first_row. destruct (List.find (entry_of actor f) (effective_query store actors)) as [e|] eqn:Hf; cbn [fmap option_fmap option_map].
  - apply (find_first effective_key) in Hf as (He&HP&Hmin); [|apply query_sorted]. apply query_in in He as [_ He].
    destruct e as [[a [k g]] r]. unfold entry_of in HP. cbn [fst snd] in *. apply andb_true_iff in HP as [Ha%String.eqb_eq Hg%bool_decide_eq_true].
    subst a g. assert (Hlow : ∀ k' r', store !! (actor, (k', f)) = Some r' → k' = k ∨ ProfileSourcePriority k' < ProfileSourcePriority k).
    { intros k' r' Hr'. destruct (Hhas k' r' Hr') as [Hq Hp]. destruct (Hmin _ Hq Hp) as [[= -> _]|Hlt]; [by left|].
      right. unfold effective_key in Hlt. rewrite !pair_lt_same in Hlt.
      apply Z.ltb_lt in Hlt. lia. }
    unfold winner, precedence.
    destruct (store !! (actor, (ProfileSourceOverride, f))) as [r1|] eqn:E1.
    { destruct (Hlow _ _ E1) as [<-|]; [congruence|destruct k; simpl in *; lia]. }
    destruct (store !! (actor, (ProfileSourceRelay, f))) as [r2|] eqn:E2.
    { destruct (Hlow _ _ E2) as [<-|]; [congruence|destruct k; simpl in *; try lia; congruence]. }
    destruct k; congruence.
  - assert (Hno : ∀ kind, store !! (actor, (kind, f)) = None).
    { intros kind. destruct (store !! _) as [r|] eqn:Hr; [|done]. destruct (Hhas kind r Hr) as [Hq Hp].
      pose proof (List.find_none _ _ Hf _ Hq). congruence. }
    unfold winner, precedence. by rewrite !Hno.
Qed.

(** ** Reading *)

Lemma effective_rows_run requested rows d w : ∀ result seen,
  (∀ e, In e rows → one_of requested e.1.1 = true ∧ stored_value e.1.2.2 (value_json e.2)) →
  ∃ result', effective_rows requested result seen rows (TX d w []) = (Ok result', TX d w []) ∧
    ∀ actor f, let p := default empty_profile (result !! actor) in let p' := default empty_profile (result' !! actor) in
      if bool_decide ((actor, f) ∈ seen) then same_field p' p f
      else match first_row rows actor f with Some r => field_from (Some r) p' f | None => same_field p' p f end.
Proof.
  induction rows as [|[[a [k g]] r] rows IH]; intros result seen Hrows; cbn [effective_rows].
  - tx_run. exists result. split; [done|]. intros actor f. cbv zeta. cbn [first_row List.find fmap option_fmap option_map]. by case_bool_decide; split.
  - destruct (Hrows ((a, (k, g)), r)) as [Hreq Hval]; [by left|]. cbn [fst snd] in *. tx_run. rewrite check_run, Hreq. cbn beta iota.
    assert (Htail : ∀ e, In e rows → one_of requested e.1.1 = true ∧ stored_value e.1.2.2 (value_json e.2)) by (intros e He; apply Hrows; by right).
    destruct (decide ((a, g) ∈ seen)) as [Hseen|Hnew].
    + rewrite bool_decide_eq_true_2 by done. destruct (IH result seen Htail) as (result'&Hrun&Hall).
      exists result'. split; [exact Hrun|]. intros actor f. specialize (Hall actor f). cbv zeta in *. case_bool_decide as Hs; [done|].
      unfold first_row in *. cbn [List.find]. destruct (entry_of actor f ((a, (k, g)), r)) eqn:E; [|done].
      unfold entry_of in E. cbn [fst snd] in E. apply andb_true_iff in E as [<-%String.eqb_eq <-%bool_decide_eq_true]. done.
    + rewrite bool_decide_eq_false_2 by done.
      destruct (decode_stored g (value_json r) (default empty_profile (result !! a)) Hval) as (q&Hdec&Hq&He).
      set (p2 := copy_field g q (default empty_profile (result !! a))) in *.
      destruct (IH (<[a := p2]> result) ((a, g) :: seen) Htail) as (result'&Hrun&Hall). exists result'. split.
      { unfold tx_lift. rewrite Hdec. exact Hrun. }
      intros actor f. specialize (Hall actor f). cbv zeta in *. unfold first_row in *. cbn [List.find].
      destruct (entry_of actor f ((a, (k, g)), r)) eqn:E.
      * unfold entry_of in E. cbn [fst snd] in E. apply andb_true_iff in E as [<-%String.eqb_eq <-%bool_decide_eq_true].
        rewrite bool_decide_eq_false_2 by done. rewrite bool_decide_eq_true_2 in Hall by (by left). rewrite lookup_insert_eq in Hall.
        cbn [default fmap option_fmap option_map snd]. exists q. split_and!; [done|done|].
        destruct Hall as [K1 K2]. destruct (copy_field_same g q (default empty_profile (result !! a))) as [K3 K4].
        split; unfold p2 in *; simpl in *; congruence.
      * assert (Hp2 : same_field (default empty_profile (<[a := p2]> result !! actor)) (default empty_profile (result !! actor)) f).
        { destruct (decide (a = actor)) as [<-|Hne]; [|by rewrite lookup_insert_ne; [split|]]. rewrite lookup_insert_eq. apply copy_field_other.
          intros ->. unfold entry_of in E. cbn [fst snd] in E. by rewrite String.eqb_refl, bool_decide_eq_true_2 in E. }
        assert (Hkey : (actor, f) ∈ (a, g) :: seen ↔ (actor, f) ∈ seen).
        { rewrite elem_of_cons. split; [|by right]. intros [[= -> ->]|]; [|done].
          unfold entry_of in E. cbn [fst snd] in E. by rewrite String.eqb_refl, bool_decide_eq_true_2 in E. }
        rewrite (bool_decide_ext _ _ Hkey) in Hall. destruct Hp2 as [K1 K2].
        case_bool_decide; [destruct Hall; split; congruence|].
        destruct (snd <$> List.find (entry_of actor f) rows); [done|]. destruct Hall; split; congruence.
Qed.

Lemma normalize_all_run actors d w : ∀ result, (∀ a, In a actors → profile_fixed (default empty_profile (result !! a))) →
  ∃ result', normalize_all result actors (TX d w []) = (Ok result', TX d w []) ∧
    (∀ a, default empty_profile (result' !! a) = default empty_profile (result !! a)) ∧
    ∀ a, In a actors ∨ is_Some (result !! a) → result' !! a = Some (default empty_profile (result !! a)).
Proof.
  induction actors as [|a actors IH]; intros result Hfix; cbn [normalize_all].
  - exists result. split_and!; [done|done|]. by intros a [[]|[p ->]].
  - pose proof (Hfix a (or_introl eq_refl)) as Ha. destruct (IH (<[a := default empty_profile (result !! a)]> result)) as (result'&Hrun&Hdef&Hin).
    { intros c Hc. destruct (decide (a = c)) as [<-|]; [by rewrite lookup_insert_eq|]. rewrite lookup_insert_ne by done. apply Hfix. by right. }
    exists result'. split; [|split].
    + tx_run. unfold tx_lift. unfold profile_fixed in Ha. rewrite Ha. exact Hrun.
    + intros c. rewrite Hdef. destruct (decide (a = c)) as [<-|]; [by rewrite lookup_insert_eq|by rewrite lookup_insert_ne].
    + intros c Hc. specialize (Hin c). destruct (decide (a = c)) as [<-|Hne].
      * rewrite lookup_insert_eq in Hin. apply Hin. right. by eexists.
      * rewrite lookup_insert_ne in Hin by done. apply Hin. destruct Hc as [[->|Hc]|Hc]; [done|by left|by right].
Qed.

Lemma canonical_valid a : canonical_actor a = true → ValidProfileRelayActor a = true.
Proof.
  unfold ValidProfileRelayActor. destruct (String.eqb_spec a "") as [->|]; [|done].
  unfold canonical_actor. destruct (norm_actor "") as [x|] eqn:E; [|done]. intros ->%String.eqb_eq. by apply norm_actor_nonempty in E.
Qed.

Lemma readEffectiveProfiles_run store actors d w : values_sound store → (∀ a, In a actors → canonical_actor a = true) →
  ∃ profiles, Profile.readEffectiveProfiles store actors (TX d w []) = (Ok profiles, TX d w []) ∧
    ∀ a, In a actors → profiles !! a = Some (effective_profile store a).
Proof.
  intros Hs Hcan. unfold Profile.readEffectiveProfiles. destruct actors as [|a0 actors0] eqn:E; [exists ∅; split; [done|by intros ? []]|].
  rewrite <- E in *. assert (Hvalid : forallb ValidProfileRelayActor actors = true).
  { apply forallb_forall. intros a Ha. by apply canonical_valid, Hcan. }
  tx_run. rewrite check_run, Hvalid. cbn beta iota. tx_run.
  destruct (effective_rows_run actors (effective_query store actors) d w ∅ []) as (result&Hrun&Hall).
  { intros [[a [k f]] r] [Hreq Hl]%query_in. cbn [fst snd] in *. split; [done|]. by apply (Hs a k f r). }
  rewrite Hrun. assert (Heff : ∀ a, In a actors → default empty_profile (result !! a) = effective_profile store a).
  { intros a Ha. apply effective_unique; [done|]. intros f. specialize (Hall a f). cbv zeta in Hall.
    rewrite bool_decide_eq_false_2, first_is_winner in Hall by (done || set_solver). by destruct (winner store a f). }
  destruct (normalize_all_run actors d w result) as (result'&Hrun'&_&Hin).
  { intros a Ha. rewrite Heff by done. by apply effective_fixed. }
  exists result'. split; [exact Hrun'|]. intros a Ha. rewrite Hin by (by left). by rewrite Heff.
Qed.
Lemma effective_call store actor d : values_sound store → ValidProfileRelayActor actor = true → retained_identity actor d = true →
  EffectiveProfile plain_call store actor d = Ok (effective_profile store actor).
Proof.
  intros Hs Hv Hr. unfold EffectiveProfile, run_read. cbn [configured plain_call negb]. unfold EffectiveProfile_tx.
  tx_run; rewrite check_run, Hv; cbn beta iota; tx_run; rewrite check_run, Hr; cbn beta iota. tx_run.
  destruct (readEffectiveProfiles_run store [actor] d d Hs) as (profiles&Hrun&Hin).
  { intros a [<-|[]]. unfold ValidProfileRelayActor in Hv. by destruct (actor ≟ ""). }
  by rewrite Hrun, Hin by (by left).
Qed.
Lemma effective_read store actor d : values_sound store → ValidProfileRelayActor actor = true → retained_identity actor d = true →
  ∃ p, EffectiveProfile plain_call store actor d = Ok p ∧ ∀ f, encodeProfileField p f = value_json <$> winner store actor f.
Proof.
  intros Hs Hv Hr. rewrite effective_call by done. eexists. split; [done|]. intros f. by apply field_from_encode, effective_field.
Qed.
End Facts.

(** ** The profile reader of the directory *)

#[export] Instance profile_reader `{RelayIdentity} : ProfileReader := {|
  RelayProfile := profile; profile_store := profile_table; zero_profile := empty_profile;
  Directory.readEffectiveProfiles := Profile.readEffectiveProfiles;
  profile_normalized := normalized_profile |}.
#[export] Program Instance profile_reader_laws `{RelayIdentity} `{!CanonicalURLs} : ProfileReaderLaws := {|
  profiles_sound := values_sound; effectiveProfile := effective_profile |}.
Next Obligation. intros ?? store actor Hs. apply normalized_profile_fixed. by apply effective_fixed. Qed.
Next Obligation. intros ?? store actors d w Hs Hcan. by apply readEffectiveProfiles_run. Qed.

(** Soundness of a concrete table, by evaluation. *)
Definition stored_valueb `{RelayIdentity} (f : ProfileField) (json : string) : bool :=
  match decodeProfileField empty_profile f json with
  | Ok p => normalized_profile p && bool_decide (encodeProfileField p f = Some json) && (len json <=? 4096)
  | Err _ => false
  end.
Definition values_soundb `{RelayIdentity} (store : profile_table) : bool :=
  forallb (λ e : profile_entry, stored_valueb e.1.2.2 (value_json e.2)) (map_to_list store).
Lemma values_soundb_ok `{RelayIdentity} store : values_soundb store = true → values_sound store.
Proof.
  unfold values_soundb. rewrite forallb_forall. intros Hall actor kind f r Hr. apply elem_of_map_to_list, list_elem_of_In in Hr.
  specialize (Hall _ Hr). cbn [fst snd] in Hall. unfold stored_valueb in Hall.
  destruct (decodeProfileField empty_profile f (value_json r)) as [p|]; [|done].
  apply andb_true_iff in Hall as [[Hn%normalized_profile_fixed He%bool_decide_eq_true]%andb_true_iff Hl%Z.leb_le]. by exists p.
Qed.

(** ** Properties *)

(** C18: The effective profile of a retained relay is, field by field, the value of
    the highest source that asserts the field, in the order override, relay, CSV;
    it is normalized, and no field comes from anywhere else. *)
Theorem EffectiveProfile_precedence `{RelayIdentity, !CanonicalURLs} store actor d :
  values_sound store → ValidProfileRelayActor actor = true →
  if retained_identity actor d then
    ∃ p, EffectiveProfile plain_call store actor d = Ok p ∧ NormalizeRelayProfile p = Ok p ∧
         ∀ f, encodeProfileField p f = value_json <$> winner store actor f
  else EffectiveProfile plain_call store actor d = Err ErrProfileAbsent.
Proof.
  intros Hs Hv. destruct (retained_identity actor d) eqn:Hr.
  - rewrite effective_call by done. eexists. split_and!; [done|by apply effective_fixed|]. intros f. by apply field_from_encode, effective_field.
  - unfold EffectiveProfile, run_read, EffectiveProfile_tx. cbn [configured plain_call negb]. tx_run. rewrite check_run, Hv. cbn beta iota.
    tx_run. by rewrite check_run, Hr.
Qed.

Definition sample_values : profile_table :=
  list_to_map [(("https://a.example/", (ProfileSourceCSV, ProfileFieldNotes)),
                ProfileRow (str (json_string (b "from the list"))) (Some "list") None 5 1);
               (("https://a.example/", (ProfileSourceRelay, ProfileFieldNotes)),
                ProfileRow (str (json_string (b "from the relay"))) None None 7 1);
               (("https://a.example/", (ProfileSourceCSV, ProfileFieldAvailability)),
                ProfileRow (str (json_string (b "public"))) (Some "list") None 5 1)].
Definition sample_discovered : db :=
  set_discoveries (<["https://a.example/" := DiscoveryRow "https://a.example" discoveryActive 5 5 None]> ∅) initial_db.


Lemma EffectiveProfile_precedence_witness :
  ∃ p, EffectiveProfile plain_call sample_values "https://a.example/" sample_discovered = Ok p ∧ NormalizeRelayProfile p = Ok p ∧
       encodeProfileField p ProfileFieldNotes = Some (str (json_string (b "from the relay"))).
Proof.
  assert (Hs : values_sound sample_values) by (apply values_soundb_ok; vm_compute; reflexivity).
  assert (Hv : ValidProfileRelayActor "https://a.example/" = true) by (vm_compute; reflexivity).
  pose proof (EffectiveProfile_precedence sample_values "https://a.example/" sample_discovered Hs Hv) as Hp.
  change (retained_identity "https://a.example/" sample_discovered) with true in Hp. cbv iota in Hp.
  destruct Hp as (p&Hp&Hn&Hf). exists p. split; [exact Hp|split; [exact Hn|]]. rewrite Hf. vm_compute. reflexivity.
Defined.
