(* ===== verification/ProfileReplace.v ===== *)
(** * ProfileReplace: replacing the assertions of one source

    [ReplaceProfileSource] as a function of the tables: which rows it leaves, which
    events it appends, when it is refused; it keeps the tables well formed. *)
From S2P Require Import Prelude GoNet Identity AddrText Canonical Text Vocabulary Store Repository Invariant Refinement Telemetry Session Profile ProfileNormal ProfileFacts.
From Stdlib Require Import Ascii.
Local Open Scope string_scope.
Local Open Scope Z_scope.
Local Open Scope go_scope.
Local Open Scope list_scope.

Section Replacement.
Context `{Hidentity : RelayIdentity} `{Hcanonical : !CanonicalURLs}.

(** ** The invariant of the two tables *)

(** The events of one field of one source. *)
Definition field_event (actor : string) (kind : ProfileSourceKind) (f : ProfileField) (e : profile_event) : bool :=
  of_source actor kind e && bool_decide (pe_field e = f).
(** A current value is normalized, and is the one its latest event records. *)
Record profile_ok (s : profile_state) : Prop := {
  ok_values : values_sound (profile_values s);
  ok_revisions : ∀ actor kind f r, profile_values s !! (actor, (kind, f)) = Some r →
    history_revision actor kind f s = Some (value_revision r);
  ok_events : ∀ e, In e (profile_events s) → 1 ≤ pe_revision e ∧ 0 ≤ pe_recorded e }.

Lemma history_revision_positive actor kind f s m : profile_ok s → history_revision actor kind f s = Some m → 1 ≤ m.
Proof.
  intros Hok Hm. unfold history_revision in Hm. apply max_of_some in Hm. apply in_map_iff in Hm as (e&<-&He).
  apply filter_In in He as [He _]. by apply (ok_events s Hok).
Qed.

(** ** Provenance *)

Lemma provenance_source source source' : NormalizeProfileSource source = Ok source' →
  provenance_check (Kind source') (nullif_empty (SourceLabel source')) (nullif_empty (SourceURL source')) = true.
Proof.
  unfold NormalizeProfileSource, provenance_check, nullif_empty. destruct (Kind source).
  - set (label := str (trim_space (b (SourceLabel source)))). set (url := str (trim_space (b (SourceURL source)))).
    destruct (negb (ValidDiscoverySourceLabel label) || (label ≟ "")) eqn:Hl; [done|].
    apply orb_false_iff in Hl as [Hl Hne]. apply negb_false_iff in Hl. rewrite ValidDiscoverySourceLabel_check, Hne in Hl.
    destruct (url ≟ "") eqn:Hu.
    + intros [= <-]. cbn [Kind SourceLabel SourceURL]. rewrite Hne, Hu. simpl. by simpl in Hl; rewrite Hl.
    + destruct (normalizeProfileHTTPSURL url MaximumProfileSourceURLBytes) as [t|] eqn:Ht; cbn [mbind result_bind]; [|done].
      intros [= <-]. cbn [Kind SourceLabel SourceURL]. rewrite Hne. apply normalizeProfileHTTPSURL_stored in Ht as (Hn&Hlen&Hp).
      rewrite (proj2 (String.eqb_neq _ _) Hn). cbn [null_or is_null not_null negb]. simpl in Hl. rewrite Hl, Hp.
      unfold blob_length_between. rewrite (proj2 (Z.leb_le (len t) 2048)) by done.
      rewrite (proj2 (Z.leb_le 1 (len t))); [done|]. destruct t; [done|]. unfold len. simpl. lia.
  - set (label := str (trim_space (b (SourceLabel source)))). set (url := str (trim_space (b (SourceURL source)))).
    destruct (label ≟ "") eqn:Hl; [|done]. destruct (url ≟ "") eqn:Hu; [|done]. intros [= <-]. cbn [Kind SourceLabel SourceURL]. by rewrite Hl, Hu.
  - set (label := str (trim_space (b (SourceLabel source)))). set (url := str (trim_space (b (SourceURL source)))).
    destruct (ValidOperatorID label) eqn:Hl; [|done]. destruct (url ≟ "") eqn:Hu; [|done]. intros [= <-]. cbn [Kind SourceLabel SourceURL negb orb].
    rewrite Hu. destruct (String.eqb_spec label "") as [->|Hne]; [done|]. rewrite ValidOperatorID_check in Hl. simpl. by rewrite Hl.
Qed.

(** ** The loop over the fields *)

Section Loop.
Variables (actor : string) (source : ProfileSource) (p : profile) (t : Z).
Let key (f : ProfileField) : profile_key := (actor, (Kind source, f)).
Hypothesis Hactor : 1 ≤ len actor ≤ 4096.
Hypothesis Hprovenance : provenance_check (Kind source) (nullif_empty (SourceLabel source)) (nullif_empty (SourceURL source)) = true.
Hypothesis Hprofile : profile_fixed p.
Hypothesis Ht : 0 ≤ t.

Definition oversized (f : ProfileField) : bool :=
  match encodeProfileField p f with Some json => MaximumProfileStoredValueBytes <? len json | None => false end.

Definition new_row (s : profile_state) (f : ProfileField) (json : string) : profile_row :=
  ProfileRow json (nullif_empty (SourceLabel source)) (nullif_empty (SourceURL source)) t
    (default 0 (history_revision actor (Kind source) f s) + 1).
Definition new_event (s : profile_state) (f : ProfileField) (json : option string) : profile_event :=
  ProfileEvent actor (Kind source) f json (nullif_empty (SourceLabel source)) (nullif_empty (SourceURL source))
    (default 0 (history_revision actor (Kind source) f s) + 1) t.

(** What the assertion of one field does to the tables. *)
Definition assert_field (s : profile_state) (f : ProfileField) : profile_state :=
  let existing := profile_values s !! key f in
  match encodeProfileField p f with
  | None => if is_null existing then s
            else ProfileState (profile_db s) (delete (key f) (profile_values s)) (profile_events s ++ [new_event s f None])
  | Some json =>
      if same_assertion source json existing then s
      else ProfileState (profile_db s) (<[key f := new_row s f json]> (profile_values s)) (profile_events s ++ [new_event s f (Some json)])
  end.
Definition count_field (s : profile_state) (f : ProfileField) (summary : ProfileMutationSummary) : ProfileMutationSummary :=
  let existing := profile_values s !! key f in
  let '(Summary created updated cleared unchanged) := summary in
  match encodeProfileField p f with
  | None => if is_null existing then Summary created updated cleared (unchanged + 1) else Summary created updated (cleared + 1) unchanged
  | Some json =>
      if same_assertion source json existing then Summary created updated cleared (unchanged + 1)
      else if is_null existing then Summary (created + 1) updated cleared unchanged else Summary created (updated + 1) cleared unchanged
  end.

Lemma assert_field_other s f g : g ≠ f →
  profile_values (assert_field s f) !! key g = profile_values s !! key g ∧
  history_revision actor (Kind source) g (assert_field s f) = history_revision actor (Kind source) g s.
Proof.
  intros Hne. assert (Hev : ∀ v d m, history_revision actor (Kind source) g (ProfileState d m (profile_events s ++ [new_event s f v])) =
    history_revision actor (Kind source) g s).
  { intros v d m. unfold history_revision. cbn [profile_events]. rewrite List.filter_app. cbn [List.filter new_event pe_field].
    rewrite (bool_decide_eq_false_2 (f = g)) by congruence. rewrite andb_false_r. by rewrite app_nil_r. }
  assert (Hk : key f ≠ key g) by (unfold key; congruence).
  unfold assert_field. destruct (encodeProfileField p f) as [json|].
  - destruct (same_assertion _ _ _); [done|]. cbn [profile_values]. by rewrite lookup_insert_ne, Hev.
  - destruct (is_null _); [done|]. cbn [profile_values]. by rewrite lookup_delete_ne, Hev.
Qed.
Lemma assert_field_db s f : profile_db (assert_field s f) = profile_db s.
Proof. unfold assert_field. repeat case_match; done. Qed.

Lemma new_event_fresh s f v : existsb (same_revision (new_event s f v)) (profile_events s) = false.
Proof.
  apply not_true_iff_false. intros (e&He&Hs)%existsb_exists. unfold same_revision in Hs. cbn [new_event pe_actor pe_kind pe_field pe_revision] in Hs.
  apply andb_true_iff in Hs as [[[Ha%String.eqb_eq Hk%bool_decide_eq_true]%andb_true_iff Hf%bool_decide_eq_true]%andb_true_iff Hr%Z.eqb_eq].
  unfold history_revision in Hr. destruct (max_of_in (map pe_revision (List.filter (λ e, of_source actor (Kind source) e && bool_decide (pe_field e = f)) (profile_events s)))
    (pe_revision e)) as (m&Hm&Hle).
  - apply in_map, filter_In. split; [done|]. unfold of_source. rewrite <- Ha, <- Hk, <- Hf.
    by rewrite String.eqb_refl, !bool_decide_eq_true_2.
  - rewrite Hm in Hr. simpl in Hr. lia.
Qed.

Lemma new_revision_positive s f : profile_ok s → 1 ≤ default 0 (history_revision actor (Kind source) f s) + 1.
Proof.
  intros Hok. destruct (history_revision actor (Kind source) f s) as [m|] eqn:Hm; simpl; [|lia].
  pose proof (history_revision_positive _ _ _ _ _ Hok Hm). lia.
Qed.
Lemma encoded_stored f json : encodeProfileField p f = Some json → oversized f = false → stored_value f json.
Proof. unfold oversized. intros He. rewrite He. intros Hl%Z.ltb_ge. by exists p. Qed.

Lemma insert_new_event s f v : profile_ok s → null_or (json_check f) v = true → ∀ m,
  insertProfileEvent actor source f v (default 0 (history_revision actor (Kind source) f s) + 1) t
    (ProfileState (profile_db s) m (profile_events s), []) =
  (Ok tt, (ProfileState (profile_db s) m (profile_events s ++ [new_event s f v]), [])).
Proof.
  intros Hok Hv m. unfold insertProfileEvent. session_run. unfold insert_profile_event. cbn [profile_events profile_db profile_values].
  pose proof (new_event_fresh s f v) as Hfresh. unfold new_event in Hfresh |- *. rewrite Hfresh.
  pose proof (new_revision_positive s f Hok) as Hrev.
  assert (Hcheck : profile_event_check (ProfileEvent actor (Kind source) f v (nullif_empty (SourceLabel source)) (nullif_empty (SourceURL source))
    (default 0 (history_revision actor (Kind source) f s) + 1) t) = true).
  { unfold profile_event_check, blob_length_between. cbn [pe_actor pe_kind pe_field pe_value pe_label pe_url pe_revision pe_recorded].
    rewrite Hv, Hprovenance. bool_lia; done. }
  rewrite Hcheck. done.
Qed.

Lemma is_null_lookup {A} (x : option A) : is_null x = true ↔ x = None.
Proof. by destruct x. Qed.

Lemma assert_field_run s f current revisions summary rest : profile_ok s → retained_identity actor (profile_db s) = true →
  field_entry current f = profile_values s !! key f →
  revision_of revisions f = default 0 (history_revision actor (Kind source) f s) → oversized f = false →
  replace_fields actor source p t current revisions summary (f :: rest) (s, []) =
  replace_fields actor source p t current revisions (count_field s f summary) rest (assert_field s f, []).
Proof.
  intros Hok Hret Hcur Hrev Hsize. cbn [replace_fields]. rewrite Hcur, Hrev. destruct summary as [c u cl un].
  unfold count_field, assert_field. destruct (encodeProfileField p f) as [json|] eqn:He.
  - pose proof (encoded_stored f json He Hsize) as Hst. unfold oversized in Hsize. rewrite He in Hsize. rewrite Hsize. session_run.
    destruct (same_assertion source json (profile_values s !! key f)); [done|]. session_run. unfold write_field. session_run.
    unfold upsert_profile_value. rewrite Hret. unfold profile_row_check, blob_length_between. cbn [value_json source_label source_url accepted_at value_revision].
    rewrite (stored_check f json Hst), Hprovenance. pose proof (new_revision_positive s f Hok) as Hpos.
    rewrite (proj2 (Z.leb_le 1 (len actor))), (proj2 (Z.leb_le (len actor) 4096)), (proj2 (Z.leb_le 0 t)), (proj2 (Z.leb_le 1 _)) by lia.
    cbn [negb andb orb]. cbn beta iota. rewrite insert_new_event by (done || by apply stored_check). cbn beta iota.
    by destruct (is_null (profile_values s !! key f)).
  - destruct (is_null (profile_values s !! key f)) eqn:Hn; [done|]. session_run. unfold clear_field. session_run.
    unfold delete_profile_value. cbn beta iota. by rewrite insert_new_event.
Qed.
(** The row a field ends up with. *)
Definition asserted_row (s : profile_state) (f : ProfileField) : option profile_row :=
  match encodeProfileField p f with
  | None => None
  | Some json => if same_assertion source json (profile_values s !! key f) then profile_values s !! key f else Some (new_row s f json)
  end.
Lemma assert_field_row s f : profile_values (assert_field s f) !! key f = asserted_row s f.
Proof.
  unfold assert_field, asserted_row. destruct (encodeProfileField p f) as [json|].
  - destruct (same_assertion _ _ _); [done|]. apply lookup_insert_eq.
  - destruct (is_null _) eqn:E; [by apply is_null_lookup in E|]. apply lookup_delete_eq.
Qed.
Lemma asserted_row_same s s' f : profile_values s' !! key f = profile_values s !! key f →
  history_revision actor (Kind source) f s' = history_revision actor (Kind source) f s → asserted_row s' f = asserted_row s f.
Proof. unfold asserted_row, new_row. by intros -> ->. Qed.
Lemma assert_field_elsewhere s f k : k.1 ≠ actor ∨ k.2.1 ≠ Kind source → profile_values (assert_field s f) !! k = profile_values s !! k.
Proof.
  intros Hk. assert (Hne : key f ≠ k) by (intros <-; unfold key in Hk; simpl in Hk; by destruct Hk).
  unfold assert_field. repeat case_match; simpl; by rewrite ?lookup_insert_ne, ?lookup_delete_ne by done.
Qed.

Lemma history_snoc a k g s e d m : history_revision a k g (ProfileState d m (profile_events s ++ [e])) =
  if field_event a k g e then Some (match history_revision a k g s with Some v => Z.max v (pe_revision e) | None => pe_revision e end)
  else history_revision a k g s.
Proof.
  unfold history_revision, field_event. cbn [profile_events]. rewrite List.filter_app. cbn [List.filter].
  destruct (of_source a k e && bool_decide (pe_field e = g)); [|by rewrite app_nil_r]. rewrite map_app. apply max_of_app.
Qed.
Lemma field_event_new s f v a k g : field_event a k g (new_event s f v) = true ↔ (a, (k, g)) = key f.
Proof.
  unfold field_event, of_source, key. cbn [new_event pe_actor pe_kind pe_field]. split.
  - intros [[->%String.eqb_eq <-%bool_decide_eq_true]%andb_true_iff <-%bool_decide_eq_true]%andb_true_iff. done.
  - intros [= -> -> ->]. by rewrite String.eqb_refl, !bool_decide_eq_true_2.
Qed.
Lemma history_new s f v d m : history_revision actor (Kind source) f (ProfileState d m (profile_events s ++ [new_event s f v])) =
  Some (default 0 (history_revision actor (Kind source) f s) + 1).
Proof.
  rewrite history_snoc. rewrite (proj2 (field_event_new s f v actor (Kind source) f)) by done. cbn [new_event pe_revision].
  destruct (history_revision actor (Kind source) f s); simpl; f_equal; lia.
Qed.

Lemma assert_field_ok s f : profile_ok s → oversized f = false → profile_ok (assert_field s f).
Proof.
  intros Hok Hsize. assert (Hevents : ∀ v, profile_ok (ProfileState (profile_db s) (delete (key f) (profile_values s)) (profile_events s ++ [new_event s f v]))).
  { intros v. split; cbn [profile_values profile_events].
    - intros a k g r [_ Hr]%lookup_delete_Some. by apply (ok_values s Hok a k g).
    - intros a k g r [Hne Hr]%lookup_delete_Some. rewrite history_snoc.
      destruct (field_event a k g (new_event s f v)) eqn:E; [by apply field_event_new in E|]. by apply (ok_revisions s Hok).
    - intros e [He|[<-|[]]]%in_app_or; [by apply (ok_events s Hok)|]. cbn [new_event pe_revision pe_recorded].
      split; [by apply new_revision_positive|done]. }
  unfold assert_field. destruct (encodeProfileField p f) as [json|] eqn:He.
  - destruct (same_assertion _ _ _); [done|]. specialize (Hevents (Some json)). destruct Hevents as [Hv Hr He2]. cbn [profile_values profile_events] in *.
    split; cbn [profile_values profile_events]; [..|exact He2].
    + intros a k g r [[[= <- <- <-] <-]|[Hne Hl]]%lookup_insert_Some.
      * cbn [new_row value_json]. by apply encoded_stored.
      * apply (ok_values s Hok a k g). done.
    + intros a k g r [[[= <- <- <-] <-]|[Hne Hl]]%lookup_insert_Some.
      * rewrite history_new. done.
      * rewrite history_snoc. destruct (field_event a k g (new_event s f (Some json))) eqn:E; [by apply field_event_new in E|].
        by apply (ok_revisions s Hok).
  - destruct (is_null _); [done|]. apply Hevents.
Qed.

Definition changed (summary : ProfileMutationSummary) : Z := Created summary + Updated summary + Cleared summary.
Lemma count_field_spec s f summary :
  changed (count_field s f summary) = changed summary + Z.of_nat (length (profile_events (assert_field s f)) - length (profile_events s)) ∧
  changed (count_field s f summary) + Unchanged (count_field s f summary) = changed summary + Unchanged summary + 1.
Proof.
  unfold count_field, assert_field, changed. destruct summary as [c u cl un].
  destruct (encodeProfileField p f) as [json|]; [destruct (same_assertion _ _ _)|]; [| |];
    try destruct (is_null _); cbn [Created Updated Cleared Unchanged profile_events]; rewrite ?length_app; cbn [length]; lia.
Qed.
Lemma assert_field_log s f : ∃ new, profile_events (assert_field s f) = profile_events s ++ new ∧
  ∀ e, In e new → of_source actor (Kind source) e = true ∧ pe_recorded e = t ∧ pe_value e = encodeProfileField p (pe_field e).
Proof.
  assert (Hone : ∀ v, v = encodeProfileField p f → ∀ e, In e [new_event s f v] →
    of_source actor (Kind source) e = true ∧ pe_recorded e = t ∧ pe_value e = encodeProfileField p (pe_field e)).
  { intros v Hv e [<-|[]]. unfold of_source. cbn [new_event pe_actor pe_kind pe_recorded pe_value pe_field].
    by rewrite String.eqb_refl, bool_decide_eq_true_2. }
  unfold assert_field. destruct (encodeProfileField p f) as [json|]; [destruct (same_assertion _ _ _)|destruct (is_null _)];
    first [exists []; split; [by rewrite app_nil_r|by intros ? []] | eexists [_]; split; [done|by apply Hone]].
Qed.

(** The entries the two readers found are those of the starting tables. *)
Definition entries_of (s : profile_state) (current : list (ProfileField * profile_row)) (revisions : list (ProfileField * Z))
    (f : ProfileField) : Prop :=
  field_entry current f = profile_values s !! key f ∧ revision_of revisions f = default 0 (history_revision actor (Kind source) f s).
Lemma entries_step s f current revisions fields : f ∉ fields → (∀ g, g ∈ f :: fields → entries_of s current revisions g) →
  ∀ g, g ∈ fields → entries_of (assert_field s f) current revisions g.
Proof.
  intros Hf He g Hg. destruct (He g) as [Hc Hr]; [by right|]. unfold entries_of.
  destruct (assert_field_other s f g) as [-> ->]; [by intros ->|]. done.
Qed.

Lemma replace_fields_run current revisions fields : NoDup fields → forallb (λ f, negb (oversized f)) fields = true → ∀ s summary,
  profile_ok s → retained_identity actor (profile_db s) = true → (∀ f, f ∈ fields → entries_of s current revisions f) →
  let s' := fold_left assert_field fields s in
  ∃ summary', replace_fields actor source p t current revisions summary fields (s, []) = (Ok summary', (s', [])) ∧
    profile_ok s' ∧ profile_db s' = profile_db s ∧
    (∀ f, f ∈ fields → profile_values s' !! key f = asserted_row s f) ∧
    (∀ f, f ∉ fields → profile_values s' !! key f = profile_values s !! key f ∧
       history_revision actor (Kind source) f s' = history_revision actor (Kind source) f s) ∧
    (∀ k, k.1 ≠ actor ∨ k.2.1 ≠ Kind source → profile_values s' !! k = profile_values s !! k) ∧
    ∃ new, profile_events s' = profile_events s ++ new ∧
      (∀ e, In e new → of_source actor (Kind source) e = true ∧ pe_recorded e = t ∧ pe_value e = encodeProfileField p (pe_field e)) ∧
      changed summary' = changed summary + Z.of_nat (length new) ∧
      changed summary' + Unchanged summary' = changed summary + Unchanged summary + Z.of_nat (length fields).
Proof.
  induction 1 as [|f fields Hf Hnd IH]; intros Hsize s summary Hok Hret He; cbv zeta; cbn [fold_left].
  - exists summary. split_and!; try done; [by intros ? ?%elem_of_nil|]. exists []. rewrite app_nil_r. split_and!; try done; simpl; lia || by intros ? [].
  - cbn [forallb] in Hsize. apply andb_true_iff in Hsize as [Hfs%negb_true_iff Hsize]. destruct (He f) as [Hc Hr]; [by left|].
    rewrite assert_field_run by done. pose proof (assert_field_log s f) as (new0&Hlog&Hnew0).
    pose proof (count_field_spec s f summary) as [Hcount Htotal].
    destruct (IH Hsize (assert_field s f) (count_field s f summary)) as (summary'&Hrun&Hok'&Hdb&Hin&Hout&Helse&new&Hev&Hnew&Hn1&Hn2).
    { by apply assert_field_ok. } { by rewrite assert_field_db. } { by eapply entries_step. }
    exists summary'. split_and!; try done.
    + by rewrite Hdb, assert_field_db.
    + intros g Hg. destruct (decide (g = f)) as [->|Hne].
      * destruct (Hout f Hf) as [-> _]. apply assert_field_row.
      * apply elem_of_cons in Hg as [|Hg]; [done|]. rewrite Hin by done. destruct (assert_field_other s f g Hne). by apply asserted_row_same.
    + intros g Hg. rewrite elem_of_cons in Hg. destruct (Hout g) as [-> ->]; [tauto|]. apply assert_field_other. tauto.
    + intros k Hk. rewrite Helse by done. by apply assert_field_elsewhere.
    + exists (new0 ++ new). rewrite Hev, Hlog, app_assoc. split_and!; [done| | |].
      * intros e [Hin'|Hin']%in_app_or; auto.
      * rewrite Hn1, Hcount, Hlog, !length_app. lia.
      * cbn [length]. lia.
Qed.
Lemma replace_fields_oversized current revisions fields : NoDup fields → forallb (λ f, negb (oversized f)) fields = false → ∀ s summary,
  profile_ok s → retained_identity actor (profile_db s) = true → (∀ f, f ∈ fields → entries_of s current revisions f) →
  ∃ st, replace_fields actor source p t current revisions summary fields (s, []) = (Err ErrProfileInput, st).
Proof.
  induction 1 as [|f fields Hf Hnd IH]; intros Hsize s summary Hok Hret He; [done|]. cbn [forallb] in Hsize.
  destruct (He f) as [Hc Hr]; [by left|]. destruct (oversized f) eqn:Hfs.
  - cbn [replace_fields]. destruct summary. unfold oversized in Hfs. destruct (encodeProfileField p f) as [json|]; [|done].
    rewrite Hfs. session_run. by eexists.
  - cbn [negb andb] in Hsize. rewrite assert_field_run by done. apply IH; [done|by apply assert_field_ok|by rewrite assert_field_db|by eapply entries_step].
Qed.
End Loop.

(** ** The readers *)

Lemma scan_valid_run {S A} x y z (valid : A → bool) rows (s : S) : forallb valid rows = true → scan_valid x y z valid rows (s, []) = (Ok tt, (s, [])).
Proof.
  induction rows as [|row rows IH]; cbn [forallb scan_valid]; intros Hv; session_run; [done|]. apply andb_true_iff in Hv as [Hr Hv].
  rewrite Hr. cbn beta iota. by apply IH.
Qed.
Lemma omap_entry {A} (look : ProfileField → option A) f : field_entry (omap (λ f, (λ r, (f, r)) <$> look f) ProfileFields) f = look f.
Proof.
  unfold field_entry. assert (Hgen : ∀ fields, List.find (λ row : ProfileField * A, bool_decide (row.1 = f)) (omap (λ f, (λ r, (f, r)) <$> look f) fields) =
    if bool_decide (f ∈ fields) then (λ r, (f, r)) <$> look f else None).
  { induction fields as [|g fields IH]; [done|]. cbn [omap list_omap]. destruct (look g) as [r|] eqn:Hg; cbn [fmap option_fmap option_map].
    - cbn [List.find]. cbn [fst]. destruct (decide (g = f)) as [->|Hne].
      + rewrite (bool_decide_eq_true_2 (f = f)), bool_decide_eq_true_2 by (done || by left). by rewrite Hg.
      + rewrite (bool_decide_eq_false_2 (g = f)) by done. rewrite IH. rewrite (bool_decide_ext (f ∈ g :: fields) (f ∈ fields)); [done|].
        rewrite elem_of_cons. split; [by intros [->|]|by right].
    - rewrite IH. destruct (decide (g = f)) as [->|Hne].
      + rewrite Hg. by repeat case_bool_decide.
      + rewrite (bool_decide_ext (f ∈ g :: fields) (f ∈ fields)); [done|]. rewrite elem_of_cons. split; [by intros [->|]|by right]. }
  rewrite Hgen. rewrite bool_decide_eq_true_2 by (destruct f; by apply (bool_decide_unpack _)). by destruct (look f).
Qed.
Lemma omap_valid {A} (look : ProfileField → option A) (valid : ProfileField * A → bool) :
  (∀ f r, look f = Some r → valid (f, r) = true) → forallb valid (omap (λ f, (λ r, (f, r)) <$> look f) ProfileFields) = true.
Proof.
  intros Hv. apply forallb_forall. intros row Hrow%list_elem_of_In. apply list_elem_of_omap in Hrow as (f&_&Hf).
  destruct (look f) as [r|] eqn:E; simpl in Hf; [|done]. injection Hf as <-. by apply Hv.
Qed.

Lemma readers_run actor kind s : profile_ok s →
  readProfileSourceValues actor kind (s, []) = (Ok (source_rows actor kind s), (s, [])) ∧
  readProfileSourceRevisions actor kind (s, []) = (Ok (source_revisions actor kind s), (s, [])) ∧
  forallb (λ row, revision_of (source_revisions actor kind s) row.1 =? value_revision row.2) (source_rows actor kind s) = true.
Proof.
  intros Hok. unfold readProfileSourceValues, readProfileSourceRevisions. session_run.
  assert (Hrev : ∀ f r, profile_values s !! (actor, (kind, f)) = Some r → 1 ≤ value_revision r).
  { intros f r Hr. eapply history_revision_positive; [done|]. by apply (ok_revisions s Hok). }
  rewrite !scan_valid_run.
  - split_and!; [done..|]. apply omap_valid. intros f r Hr. cbn [fst snd]. unfold revision_of, source_revisions. rewrite omap_entry.
    rewrite (ok_revisions s Hok _ _ _ _ Hr). simpl. apply Z.eqb_refl.
  - apply omap_valid. intros f v Hv. cbn [fst snd]. apply Z.leb_le. by eapply history_revision_positive.
  - apply omap_valid. intros f r Hr. cbn [fst snd]. apply Z.leb_le. by eapply Hrev.
Qed.

(** What an undisturbed replacement of one source does. *)
Definition replacement_of (actor : string) (source : ProfileSource) (p : profile) (t : Z) (s s' : profile_state)
    (summary : ProfileMutationSummary) : Prop :=
  profile_ok s' ∧ profile_db s' = profile_db s ∧
  (∀ f, profile_values s' !! (actor, (Kind source, f)) = asserted_row actor source p t s f) ∧
  (∀ k, k.1 ≠ actor ∨ k.2.1 ≠ Kind source → profile_values s' !! k = profile_values s !! k) ∧
  ∃ new, profile_events s' = profile_events s ++ new ∧
    (∀ e, In e new → of_source actor (Kind source) e = true ∧ pe_recorded e = t ∧ pe_value e = encodeProfileField p (pe_field e)) ∧
    changed summary = Z.of_nat (length new) ∧ changed summary + Unchanged summary = 12.
Definition late (actor : string) (source : ProfileSource) (t : Z) (s : profile_state) : bool :=
  existsb (λ e, of_source actor (Kind source) e && (t <? pe_recorded e)) (profile_events s).

Lemma late_latest actor source t s :
  null_or (λ v, v <=? t) (latest_profile_event actor (Kind source) s) = negb (late actor source t s).
Proof.
  unfold latest_profile_event, late. destruct (max_of _) as [m|] eqn:Hm; cbn [null_or].
  - destruct (existsb _ _) eqn:He; cbn [negb].
    + apply existsb_exists in He as (e&He&[Hs Hl%Z.ltb_lt]%andb_true_iff). apply Z.leb_gt.
      destruct (max_of_in (map pe_recorded (List.filter (of_source actor (Kind source)) (profile_events s))) (pe_recorded e)) as (m'&Hm'&Hle);
        [apply in_map, filter_In; done|]. rewrite Hm in Hm'. injection Hm' as <-. lia.
    + apply Z.leb_le. apply max_of_some in Hm. apply in_map_iff in Hm as (e&<-&[He' Hs]%filter_In).
      destruct (Z.le_gt_cases (pe_recorded e) t) as [|Hgt]; [done|].
      assert (Hc : existsb (λ e, of_source actor (Kind source) e && (t <? pe_recorded e)) (profile_events s) = true); [|congruence].
      apply existsb_exists. exists e. split; [done|]. rewrite Hs. simpl. by apply Z.ltb_lt.
  - destruct (existsb _ _) eqn:He; [|done]. apply existsb_exists in He as (e&He&[Hs _]%andb_true_iff).
    destruct (max_of_in (map pe_recorded (List.filter (of_source actor (Kind source)) (profile_events s))) (pe_recorded e)) as (m'&Hm'&_);
      [apply in_map, filter_In; done|]. congruence.
Qed.

Lemma ReplaceProfileSource_run intent acceptedAt s source p :
  profile_ok s → db_ok (profile_db s) → ValidProfileRelayActor (profile_actor intent) = true →
  NormalizeProfileSource (profile_source intent) = Ok source → NormalizeRelayProfile (asserted intent) = Ok p → 0 ≤ unix_of acceptedAt →
  let r := ReplaceProfileSource plain_call intent acceptedAt s in
  if negb (retained_identity (profile_actor intent) (profile_db s)) then r = (Err ErrProfileAbsent, s)
  else if late (profile_actor intent) source (unix_of acceptedAt) s then r = (Err ErrProfileTime, s)
  else if existsb (oversized p) ProfileFields then r = (Err ErrProfileInput, s)
  else ∃ summary s', r = (Ok summary, s') ∧ replacement_of (profile_actor intent) source p (unix_of acceptedAt) s s' summary.
Proof.
  intros Hok Hdb Hactor Hsource Hp Ht. cbv zeta. set (actor := profile_actor intent) in *. set (t := unix_of acceptedAt) in *.
  assert (Hcall : ReplaceProfileSource plain_call intent acceptedAt s =
    transact plain_call "commit profile source" (ReplaceProfileSource_tx actor source p t) s).
  { unfold ReplaceProfileSource. cbn [configured plain_call negb]. fold actor t. rewrite Hactor, Hsource, Hp. cbn [negb].
    by rewrite (proj2 (Z.ltb_ge t 0)). }
  rewrite Hcall, transact_plain. unfold ReplaceProfileSource_tx. session_run.
  destruct (retained_identity actor (profile_db s)) eqn:Hret; [|done]. cbn [negb]. session_run.
  unfold requireProfileMonotonicTime. session_run. rewrite late_latest. destruct (late actor source t s); [done|]. cbn [negb]. session_run.
  destruct (readers_run actor (Kind source) s Hok) as (Hr1&Hr2&Hr3). rewrite Hr1. cbn beta iota. session_run. rewrite Hr2. cbn beta iota. session_run. rewrite Hr3. cbn beta iota.
  session_run. pose proof (retained_length _ _ Hdb Hret) as Hlen. pose proof (provenance_source _ _ Hsource) as Hprov.
  pose proof (NormalizeRelayProfile_fixed _ _ Hp) as Hfix.
  assert (Hnd : NoDup ProfileFields) by (by apply (bool_decide_unpack _)).
  assert (Hall : ∀ f, f ∈ ProfileFields) by (intros []; by apply (bool_decide_unpack _)).
  assert (Hentries : ∀ f, f ∈ ProfileFields → entries_of actor source s (source_rows actor (Kind source) s) (source_revisions actor (Kind source) s) f).
  { intros f _. unfold entries_of, revision_of, source_rows, source_revisions. by rewrite !omap_entry. }
  destruct (existsb (oversized p) ProfileFields) eqn:Hsize.
  - destruct (replace_fields_oversized actor source p t Hlen Hprov Hfix Ht (source_rows actor (Kind source) s) (source_revisions actor (Kind source) s)
      ProfileFields Hnd) with (s := s) (summary := Summary 0 0 0 0) as [st Hrun]; [|done|done|done|].
    { apply existsb_exists in Hsize as (f&Hf&Hs). apply not_true_iff_false. rewrite forallb_forall. intros Hc. specialize (Hc f Hf). by rewrite Hs in Hc. }
    by rewrite Hrun.
  - destruct (replace_fields_run actor source p t Hlen Hprov Hfix Ht (source_rows actor (Kind source) s) (source_revisions actor (Kind source) s)
      ProfileFields Hnd) with (s := s) (summary := Summary 0 0 0 0) as (summary&Hrun&Hok'&Hdb'&Hin&_&Helse&new&Hev&Hnew&Hn1&Hn2); [|done|done|done|].
    { apply forallb_forall. intros f Hf. apply negb_true_iff, not_true_iff_false. intros Hs.
      assert (existsb (oversized p) ProfileFields = true); [apply existsb_exists; by exists f|congruence]. }
    rewrite Hrun. eexists _, _. split; [done|]. split_and!; try done; [intros f; by apply Hin|]. exists new. split_and!; [done|done|exact Hn1|exact Hn2].
Qed.
End Replacement.

Lemma same_assertion_json source json row : same_assertion source json row = true → value_json <$> row = Some json.
Proof. destruct row as [r|]; [|done]. cbn [same_assertion]. intros [[Hj%String.eqb_eq _]%andb_true_iff _]%andb_true_iff. simpl. by f_equal. Qed.
Lemma asserted_json actor source p t s f : value_json <$> asserted_row actor source p t s f = encodeProfileField p f.
Proof.
  unfold asserted_row. destruct (encodeProfileField p f) as [json|]; [|done].
  destruct (same_assertion _ _ _) eqn:E; [by apply same_assertion_json in E|done].
Qed.
Lemma precedence_map {A B} (f : A → B) (value : ProfileSourceKind → option A) : f <$> precedence value = precedence (λ k, f <$> value k).
Proof. unfold precedence. by destruct (value ProfileSourceOverride), (value ProfileSourceRelay). Qed.

(** ** Properties *)

Lemma steady_scan {S A} x y z (valid : A → bool) rows : steady (scan_valid x y z valid rows : Session S unit).
Proof. induction rows as [|row rows IH]; cbn [scan_valid]; steady. Qed.
#[export] Hint Resolve steady_scan : steady.

Section Theorems.
Context `{RelayIdentity} `{!CanonicalURLs}.

Lemma steady_fields actor source p t current revisions fields : ∀ summary,
  steady (replace_fields actor source p t current revisions summary fields).
Proof.
  induction fields as [|f fields IH]; intros [c u x n]; cbn [replace_fields]; [apply steady_ret|].
  unfold write_field, clear_field, insertProfileEvent. steady.
Qed.
#[local] Hint Resolve steady_fields : steady.

Lemma steady_replacement actor source p t : steady (ReplaceProfileSource_tx actor source p t).
Proof.
  unfold ReplaceProfileSource_tx, requireProfileMonotonicTime, readProfileSourceValues, readProfileSourceRevisions. steady.
Qed.

Lemma replace_error c intent t s e s' : ReplaceProfileSource c intent t s = (Err e, s') → s' = s.
Proof. unfold ReplaceProfileSource. intros Hr. repeat case_match; try (by injection Hr); by apply transact_error in Hr. Qed.

(** C19: Replacing the assertions of one source: an error leaves all tables as they
    were, whatever fails; undisturbed, the only refusals are an actor no table
    retains, a time before the source's latest event, and a field whose JSON exceeds
    the stored bound.  Otherwise every field of the source is exactly the asserted
    one (an unchanged field keeps its row), every other source and relay keeps its
    rows, one event per changed field is appended, the summary counts them, and the
    tables stay well formed. *)
Theorem ReplaceProfileSource_replaces intent acceptedAt s source p :
  profile_ok s → db_ok (profile_db s) → ValidProfileRelayActor (profile_actor intent) = true →
  NormalizeProfileSource (profile_source intent) = Ok source → NormalizeRelayProfile (asserted intent) = Ok p → 0 ≤ unix_of acceptedAt →
  (∀ c e s', ReplaceProfileSource c intent acceptedAt s = (Err e, s') → s' = s) ∧
  let r := ReplaceProfileSource plain_call intent acceptedAt s in
  if negb (retained_identity (profile_actor intent) (profile_db s)) then r = (Err ErrProfileAbsent, s)
  else if late (profile_actor intent) source (unix_of acceptedAt) s then r = (Err ErrProfileTime, s)
  else if existsb (oversized p) ProfileFields then r = (Err ErrProfileInput, s)
  else ∃ summary s', r = (Ok summary, s') ∧ replacement_of (profile_actor intent) source p (unix_of acceptedAt) s s' summary.
Proof.
  intros Hok Hdb Hactor Hsource Hp Ht. split; [|by apply ReplaceProfileSource_run].
  intros c e s' Hr. unfold ReplaceProfileSource in Hr. rewrite Hactor, Hsource, Hp in Hr. cbn [negb] in Hr.
  destruct (negb (configured c)); [by injection Hr|]. destruct (unix_of acceptedAt <? 0); [by injection Hr|]. by apply transact_error in Hr.
Qed.

(** What a replacement changes for readers: afterwards each field of the
    relay's effective profile is the one of the highest source, with the replaced
    source contributing exactly the newly asserted fields. *)
Theorem replacement_takes_effect intent acceptedAt s source p summary s' :
  profile_ok s → db_ok (profile_db s) → ValidProfileRelayActor (profile_actor intent) = true →
  NormalizeProfileSource (profile_source intent) = Ok source → NormalizeRelayProfile (asserted intent) = Ok p →
  ReplaceProfileSource plain_call intent acceptedAt s = (Ok summary, s') →
  ∃ q, EffectiveProfile plain_call (profile_values s') (profile_actor intent) (profile_db s') = Ok q ∧
    ∀ f, encodeProfileField q f =
         precedence (λ kind, if bool_decide (kind = Kind source) then encodeProfileField p f
                             else value_json <$> profile_values s !! (profile_actor intent, (kind, f))).
Proof.
  intros Hok Hdb Hactor Hsource Hp Hr.
  assert (Ht : 0 ≤ unix_of acceptedAt).
  { unfold ReplaceProfileSource in Hr. rewrite Hactor, Hsource, Hp in Hr. destruct (Z.ltb_spec (unix_of acceptedAt) 0); [done|lia]. }
  pose proof (ReplaceProfileSource_run intent acceptedAt s source p Hok Hdb Hactor Hsource Hp Ht) as Hrun. cbv zeta in Hrun. rewrite Hr in Hrun.
  destruct (retained_identity (profile_actor intent) (profile_db s)) eqn:Hret; [|done]. cbn [negb] in Hrun.
  destruct (late _ _ _ _); [done|]. destruct (existsb _ _); [done|].
  destruct Hrun as (?&?&[= <- <-]&Hok'&Hdb'&Hin&Helse&_).
  destruct (effective_read (profile_values s') (profile_actor intent) (profile_db s')) as (q&Hq&Hf).
  { apply (ok_values _ Hok'). } { done. } { by rewrite Hdb'. }
  exists q. split; [done|]. intros f. rewrite Hf. unfold winner. rewrite precedence_map.
  unfold precedence. assert (Hval : ∀ kind, value_json <$> profile_values s' !! (profile_actor intent, (kind, f)) =
    (if bool_decide (kind = Kind source) then encodeProfileField p f else value_json <$> profile_values s !! (profile_actor intent, (kind, f)))).
  { intros kind. case_bool_decide as Hk; [subst kind; rewrite Hin; apply asserted_json|]. rewrite Helse; [done|by right]. }
  by rewrite !Hval.
Qed.

(** A profile [NormalizeRelayProfile] accepts can be impossible to store: notes
    of 1024 bytes are within their bound, but every ["<"] becomes six bytes of JSON,
    so the replacement is refused as invalid input. *)
Lemma escaped_notes_refused intent acceptedAt s source :
  profile_ok s → db_ok (profile_db s) → ValidProfileRelayActor (profile_actor intent) = true →
  NormalizeProfileSource (profile_source intent) = Ok source → 0 ≤ unix_of acceptedAt →
  retained_identity (profile_actor intent) (profile_db s) = true → late (profile_actor intent) source (unix_of acceptedAt) s = false →
  let notes := str (repeat "<"%char 1024) in
  asserted intent = RelayProfileOf "" "" "" [] [] [] [] "" "" "" "" notes →
  NormalizeRelayProfile (asserted intent) = Ok (asserted intent) ∧
  ReplaceProfileSource plain_call intent acceptedAt s = (Err ErrProfileInput, s).
Proof.
  intros Hok Hdb Hactor Hsource Ht Hret Hlate notes Hp. cbv zeta in *.
  assert (Hn : NormalizeRelayProfile (asserted intent) = Ok (asserted intent)) by (rewrite Hp; vm_compute; reflexivity). split; [done|].
  pose proof (ReplaceProfileSource_run intent acceptedAt s source (asserted intent) Hok Hdb Hactor Hsource Hn Ht) as Hrun. cbv zeta in Hrun.
  rewrite Hret, Hlate in Hrun. cbn [negb] in Hrun.
  assert (existsb (oversized (asserted intent)) ProfileFields = true) as Hover by (rewrite Hp; vm_compute; reflexivity). by rewrite Hover in Hrun.
Qed.
End Theorems.

(** ** Witnesses *)

Definition sample_intent : ProfileSourceIntent := {|
  profile_actor := "https://a.example/"; profile_source := Build_ProfileSource ProfileSourceOverride "ops" "";
  asserted := RelayProfileOf "" "private" "" [] [] [] [] "" "" "" "" "" |}.
Definition sample_state : profile_state := ProfileState sample_discovered ∅ [].

Lemma sample_state_ok : profile_ok sample_state.
Proof.
  assert (Hnone : ∀ k, profile_values sample_state !! k = None) by (intros k; apply lookup_empty).
  split; [intros ????; by rewrite Hnone|intros ????; by rewrite Hnone|by intros ? []].
Qed.
Lemma sample_db_ok : db_ok sample_discovered.
Proof.
  pose proof initial_db_ok as Hok. destruct Hok. split; try done.
  - intros a r Hl. unfold sample_discovered, set_discoveries in Hl. cbn [discoveries] in Hl.
    apply lookup_insert_Some in Hl as [[<- <-]|[_ Hl]]; [by split; vm_compute|by rewrite lookup_empty in Hl].
Qed.

Lemma ReplaceProfileSource_replaces_witness :
  ∃ summary s', ReplaceProfileSource plain_call sample_intent (9 * second) sample_state = (Ok summary, s') ∧ profile_ok s' ∧
    summary = Summary 1 0 0 11.
Proof.
  assert (Hactor : ValidProfileRelayActor (profile_actor sample_intent) = true) by (vm_compute; reflexivity).
  assert (Hsource : NormalizeProfileSource (profile_source sample_intent) = Ok (Build_ProfileSource ProfileSourceOverride "ops" "")) by (vm_compute; reflexivity).
  assert (Hp : NormalizeRelayProfile (asserted sample_intent) = Ok (asserted sample_intent)) by (vm_compute; reflexivity).
  assert (Ht : 0 ≤ unix_of (9 * second)) by (vm_compute; congruence).
  destruct (ReplaceProfileSource_replaces sample_intent (9 * second) sample_state _ _ sample_state_ok sample_db_ok Hactor Hsource Hp Ht) as [_ Hr].
  cbv zeta in Hr. change (negb _) with false in Hr. cbv iota in Hr.
  assert (late (profile_actor sample_intent) (Build_ProfileSource ProfileSourceOverride "ops" "") (unix_of (9 * second)) sample_state = false) as E by (vm_compute; reflexivity).
  rewrite E in Hr. clear E.
  assert (existsb (oversized (asserted sample_intent)) ProfileFields = false) as E by (vm_compute; reflexivity). rewrite E in Hr. clear E.
  destruct Hr as (summary&s'&Hr&Hok&_). exists summary, s'. split; [exact Hr|split; [exact Hok|]].
  assert (Hs : Ok summary = fst (ReplaceProfileSource plain_call sample_intent (9 * second) sample_state)) by (by rewrite Hr).
  revert Hs. vm_compute. congruence.
Defined.

Lemma replacement_takes_effect_witness :
  ∃ q, EffectiveProfile plain_call (profile_values (snd (ReplaceProfileSource plain_call sample_intent (9 * second) sample_state)))
         "https://a.example/" sample_discovered = Ok q ∧
       encodeProfileField q ProfileFieldAvailability = Some (str (json_string (b "private"))).
Proof.
  assert (Hactor : ValidProfileRelayActor (profile_actor sample_intent) = true) by (vm_compute; reflexivity).
  assert (Hsource : NormalizeProfileSource (profile_source sample_intent) = Ok (Build_ProfileSource ProfileSourceOverride "ops" "")) by (vm_compute; reflexivity).
  assert (Hp : NormalizeRelayProfile (asserted sample_intent) = Ok (asserted sample_intent)) by (vm_compute; reflexivity).
  assert (Hr : ReplaceProfileSource plain_call sample_intent (9 * second) sample_state =
    (Ok (Summary 1 0 0 11), snd (ReplaceProfileSource plain_call sample_intent (9 * second) sample_state))) by (vm_compute; reflexivity).
  destruct (replacement_takes_effect sample_intent (9 * second) sample_state _ _ _ _ sample_state_ok sample_db_ok Hactor Hsource Hp Hr) as (q&Hq&Hf).
  exists q. split; [exact Hq|]. rewrite Hf. vm_compute. reflexivity.
Defined.
