(* ===== verification/HandlerGuarantees.v ===== *)
(** * HandlerGuarantees: the guarantees of the lifecycle handlers *)
From S2P Require Import Prelude GoNet Identity AddrText Text Json Vocabulary Store Session Repository Lifecycle Telemetry Profile Replay Signature Requests Admission Handler Discovery Reachability Pruning Invariant Contract Refinement System Guarantees HandlerFacts HandlerAnswers.
Local Open Scope string_scope.
Local Open Scope Z_scope.
Local Open Scope go_scope.
Local Open Scope list_scope.

(** ** Theorems *)

Section Theorems.
Context `{RelayIdentity} `{SignatureLibraries}.

(** Before any request: a limiter just made, any database. *)
Definition handlers_start (c : limiter_config) (s : in_progress * lifecycle_world) : Prop :=
  s.1 = [] ∧ newLimiter c = Some (limiter s.2).
Lemma start_permits c s : handlers_start c s → permits_ok s ∧ config (limiter s.2) = c.
Proof.
  destruct s as [rs w]. intros [Hrs Hl]. cbn [fst snd] in Hrs, Hl. subst rs. cbn [snd]. unfold newLimiter in Hl. destruct (validateConfig c) eqn:Hc; [|done].
  injection Hl as Hl. rewrite <- Hl. unfold validateConfig in Hc. split; [|done]. constructor; cbn [fst snd]; rewrite <- ?Hl; cbn; [done| |done|done].
  rewrite negb_true_iff, !orb_false_iff in Hc. repeat match goal with H : _ ∧ _ |- _ => destruct H end. lia.
Qed.
Lemma handlers_config handler evs : (∀ h, handler = Some h → ReservingVerifier h) → ∀ s,
  config (limiter (handlers_run handler evs s).2) = config (limiter s.2).
Proof.
  intros Hh. induction evs as [|ev evs IH]; intros [rs w]; [done|]. cbn [handlers_run]. rewrite IH. destruct ev as [q|i env|r t]; [done| |done].
  cbn [handlers_step]. destruct (rs !! i) as [[q ph]|]; [|done]. destruct (serve_step _ _ _ _ _) as [ph' w'] eqn:E. cbn [snd].
  apply serve_step_limiter in E; [|done]. destruct E; try done. unfold Release. by repeat case_match.
Qed.

Lemma holders_answered (rs : in_progress) : (∀ i q ph, rs !! i = Some (q, ph) → ∃ r, ph = Answered r) → holders rs = [].
Proof.
  induction rs as [|[q ph] rs IH]; intros Hall; [done|]. destruct (Hall 0%nat q ph eq_refl) as [r ->]. cbn.
  apply IH. intros i. apply (Hall (S i)).
Qed.

(** C4: Permits under any interleaving of any number of lifecycle requests, with
    other writers of the database in between: the limiter counts exactly the
    requests that are past source admission and not yet finished, never more than
    the configured maximum; each of them holds a permit of its own operation that
    no other holds; and once every request is answered nothing is in flight. *)
Theorem permits_balanced authority batch c h evs s rs w : signed_handler authority batch h → handlers_start c s →
  handlers_run (Some h) evs s = (rs, w) →
  inFlight (limiter w) = Z.of_nat (length (holders rs)) ∧ inFlight (limiter w) ≤ MaxConcurrent c ∧
  (∀ i j q q' ph ph' k, rs !! i = Some (q, ph) → rs !! j = Some (q', ph') → held_permit ph = Some k → held_permit ph' = Some k → i = j) ∧
  (∀ i q ph k, rs !! i = Some (q, ph) → held_permit ph = Some k →
     ∃ checked, permits (limiter w) !! k = Some (PermitOf (route_operation q) true checked)) ∧
  ((∀ i q ph, rs !! i = Some (q, ph) → ∃ r, ph = Answered r) → inFlight (limiter w) = 0).
Proof.
  intros Hh Hs Hrun. destruct (start_permits c s Hs) as [Hok Hc].
  assert (Hv : ∀ h', Some h = Some h' → ReservingVerifier h') by (intros h' [= <-]; by eapply signed_reserves).
  pose proof (handlers_permits _ evs Hv s Hok) as [Hf Hl Hd Ha]. pose proof (handlers_config _ evs Hv s) as Hcfg.
  rewrite Hrun in Hf, Hl, Hd, Ha, Hcfg. cbn [fst snd] in Hf, Hl, Hd, Ha, Hcfg. rewrite Hcfg, Hc in Hl. split_and!; [done|done|done| |].
  - intros i q ph k Hi Hk. destruct (Ha i q ph k Hi Hk) as (x&Hx&_). by exists x.
  - intros Hall. rewrite Hf. assert (Hnil : holders rs = []); [|by rewrite Hnil]. by apply holders_answered.
Qed.

(** C3: Nothing is written for a request that has not earned it.  Under any
    interleaving, a step of a request that changes any table other than the replay
    reservations is a step whose request carries a signature that verifies, under
    the tag of its protocol version, with a key owned by the very relay actor its
    body names; whose target is the exact endpoint; that holds an active permit for
    its operation on which the actor bucket has been charged; and it leaves every
    row of every other relay as it was. *)
Theorem writes_authenticated authority batch c h evs s rs w j q ph env ph' w' : signed_handler authority batch h → handlers_start c s →
  handlers_run (Some h) evs s = (rs, w) → rs !! j = Some (q, ph) → db_ok (directory w) → clock_ok (env_clock env) →
  serve_step (Some h) q env ph w = (ph', w') → ¬ same_tables w w' →
  ∃ i k, phase_intent ph = Some i ∧ authenticated authority h q i ∧ held_permit ph = Some k ∧
    permits (limiter w) !! k = Some (PermitOf (route_operation q) true true) ∧ others_untouched (intent_actor i) w w'.
Proof.
  intros Hh Hs Hrun Hj Hd Ht Hstep Hchanged. destruct (start_permits c s Hs) as [Hok _].
  assert (Hv : ∀ h', Some h = Some h' → ReservingVerifier h') by (intros h' [= <-]; by eapply signed_reserves).
  pose proof (handlers_permits _ evs Hv s Hok) as [_ _ _ Ha]. rewrite Hrun in Ha. cbn [fst snd] in Ha.
  destruct (serve_step_tables _ _ _ _ _ _ _ _ _ Hh Hd Ht Hstep) as [|(i & Hi & Hact & Hothers)]; [done|].
  assert (Hk : ∃ k, held_permit ph = Some k) by (destruct ph; try discriminate Hact; by eexists). destruct Hk as [k Hk].
  destruct (Ha j q ph k Hj Hk) as (checked & Hp & Hchk & _). rewrite (Hchk Hact) in Hp. exists i, k. split_and!; try done.
  assert (Hauth : requests_authenticated authority h s.1) by (destruct Hs as [-> _]; intros ? ? ? ? Hx; done).
  apply (handlers_authenticated _ _ _ evs Hh) in Hauth. rewrite Hrun in Hauth. by eapply Hauth.
Qed.
End Theorems.

(** ** At the hard storage limit *)

Section HardLimitTheorem.
Context `{RelayIdentity} `{SignatureLibraries}.

(** C6: While the write guard refuses every transaction, no lifecycle request is
    ever answered 503 lifecycle_unavailable, the documented answer: the refusal
    meets the reservation of the nonce first, whose every failure is reported as a
    failing replay store, so a request whose signature verifies is answered 500
    internal_error.  No table changes. *)
Theorem hard_limit_masked authority batch h q envs w : signed_handler authority batch h → supports (route_protocol q) h = true →
  Forall hard envs → (7 ≤ length envs)%nat →
  (∃ r w', run_handler (Some h) q envs Arrived w = (Answered r, w') ∧ status r ≠ 503 ∧
     repository w' = repository w ∧ telemetry_rows w' = telemetry_rows w) ∧
  (∀ env k body i w1, hard env → readBoundedBody (route_request q) (maximumBodyBytes h) = Ok body →
     signed_request authority h (env_verification env) q body i →
     serve_step (Some h) q env (Holding k) w1 = (Releasing k (protocol_error q 500 ErrorInternal), w1)).
Proof.
  intros Hh Hsup Hall Hlen. split.
  - destruct (answers_documented (Some h) q envs w Hlen) as (r&w'&Hrun&_). exists r, w'.
    destruct (hard_run _ _ _ _ _ Hh Hsup Hall Arrived w (Answered r) w' I Hrun) as (Hr&?&?). by split_and!.
  - intros env k body i w1 Henv Hbody Hi. cbn [serve_step continue_request]. unfold verify_request. rewrite Hbody.
    destruct (verify_protocol _ _ _ _ _ _ _) as [r w2] eqn:E. apply (verify_hard _ _ _ _ _ _ _ _ _ _ Hh Henv) in E as (-> & e & -> & _ & He).
    rewrite (He Hsup i Hi). f_equal. f_equal. unfold lifecycle_failure, protocol_error. by destruct (route_protocol q).
Qed.
End HardLimitTheorem.
