(* ===== verification/HandlerRefinement.v ===== *)
(** * HandlerRefinement: an accepted lifecycle request does what it promises

    The effect of one request on the database, from its arrival to its answer: an
    accepted request performs the promised transition of [Contract], replaces the
    relay's own profile source and stores its telemetry; a refused one changes
    nothing, except that versions 2 and 3 may refuse after the transition. *)
From S2P Require Import Prelude GoNet Identity AddrText Canonical Text Json Vocabulary Store Session Repository Lifecycle Telemetry Profile ProfileNormal ProfileFacts ProfileReplace Replay Signature Requests Admission Handler Discovery Reachability Pruning Invariant Contract Refinement System Guarantees HandlerFacts HandlerAnswers.
Local Open Scope string_scope.
Local Open Scope Z_scope.
Local Open Scope go_scope.
Local Open Scope list_scope.

(** ** What the repository calls of a request do when they succeed *)

Section Effects.
Context `{RelayIdentity, !CanonicalURLs}.

Definition relay_source : ProfileSource := {| Kind := ProfileSourceRelay; SourceLabel := ""; SourceURL := "" |}.
Definition relay_report (actor : string) (p : profile) : ProfileSourceIntent :=
  {| profile_actor := actor; profile_source := relay_source; asserted := p |}.
(** The relay's own source is exactly the profile, and nothing else changes. *)
Definition profile_reported (actor : string) (p : profile) (s s' : profile_state) : Prop :=
  (∀ f, value_json <$> profile_values s' !! (actor, (ProfileSourceRelay, f)) = encodeProfileField p f) ∧
  (∀ k, k.1 ≠ actor ∨ k.2.1 ≠ ProfileSourceRelay → profile_values s' !! k = profile_values s !! k).
Lemma reported c actor p t s x s' : profile_ok s → db_ok (profile_db s) → profile_fixed p →
  ReplaceProfileSource c (relay_report actor p) t s = (Ok x, s') →
  profile_db s' = profile_db s ∧ profile_reported actor p s s'.
Proof.
  intros Hs Hd Hp Hr. assert (Hsource : NormalizeProfileSource (profile_source (relay_report actor p)) = Ok relay_source) by (vm_compute; reflexivity).
  assert (Hplain : ValidProfileRelayActor actor = true ∧ 0 ≤ unix_of t ∧ ReplaceProfileSource plain_call (relay_report actor p) t s = (Ok x, s')).
  { unfold ReplaceProfileSource in *. rewrite Hsource in *. cbn [profile_actor relay_report asserted configured plain_call negb] in *.
    rewrite Hp in *. destruct (negb (configured c)); [done|]. destruct (ValidProfileRelayActor actor); [|done]. cbn [negb] in *.
    destruct (Z.ltb_spec (unix_of t) 0); [done|]. split_and!; [done|done|]. apply transact_ok in Hr; [|apply steady_replacement].
    rewrite transact_plain. by rewrite Hr. }
  destruct Hplain as (Ha & Ht & Hrun). pose proof (ReplaceProfileSource_run (relay_report actor p) t s relay_source p Hs Hd Ha Hsource Hp Ht) as Hspec.
  cbv zeta in Hspec. rewrite Hrun in Hspec. destruct (negb (retained_identity _ _)); [done|]. destruct (late _ _ _ _); [done|]. destruct (existsb _ _); [done|].
  destruct Hspec as (?&?&[= <- <-]&_&Hdb&Hin&Helse&_). split; [done|]. split; [|exact Helse].
  intros f. pose proof (Hin f) as Hf. cbn [profile_actor relay_report Kind relay_source] in Hf. rewrite Hf. apply asserted_json.
Qed.

(** The telemetry rows after a report. *)
Definition telemetry_stored (actor : string) (t : telemetry) (reported : Z) (rows : gmap string telemetry_row) : gmap string telemetry_row :=
  match t with
  | Receiving i => <[actor := received i reported (rows !! actor)]> rows
  | Participating i => <[actor := participated i reported (rows !! actor)]> rows
  end.
Lemma telemetry_effect h c actor t at_ w w' : persist_telemetry h c actor t at_ w = (Ok tt, w') →
  w' = with_telemetry (telemetry_stored actor t (unix_of at_) (telemetry_rows w)) w.
Proof.
  unfold persist_telemetry. destruct (negb (telemetryRepository h)); [done|]. destruct t as [i|i]; unfold ReplaceRelayTelemetry, ReplaceRelayParticipatingTelemetry;
    (destruct (negb (configured c)); [done|]; destruct (negb _); [done|];
     match goal with |- context [autocommit ?c ?x ?y ?z ?s ?t] => destruct (autocommit c x y z s t) as [[[]|] rows] eqn:E; intros [= <-] end;
     apply autocommit_ok in E as [n E]; apply upsert_ok in E; subst rows; f_equal).
Qed.

(** The reservations are no part of what the other operations keep. *)
Lemma set_replay_ok rs d : db_ok d → db_ok (set_replay rs d).
Proof. by intros []. Qed.

Definition request_operation (operation : string) (i : intent) : option System.operation :=
  if operation ≟ OperationRegister then Some (OpRegister {| register_actor := intent_actor i; register_base := intent_base i |})
  else if operation ≟ OperationHeartbeat then Some (OpHeartbeat (intent_actor i))
  else if operation ≟ OperationUnregister then Some (OpUnregister (intent_actor i))
  else None.
Lemma persisted c operation i t w outcome w' : db_ok (directory w) → clock_ok t →
  persist c operation (intent_actor i) (intent_base i) t w = (Ok outcome, w') →
  ∃ o, request_operation operation i = Some o ∧ promised o t (directory w) = Ok (outcome, directory w') ∧ w' = with_directory (directory w') w.
Proof.
  intros Hd Ht. unfold persist, request_operation.
  assert (Hop : ∀ o x d', perform c o t (directory w) = (x, d') → ∀ out w', (stored x, with_directory d' w) = (Ok out, w') →
    promised o t (directory w) = Ok (out, directory w') ∧ w' = with_directory (directory w') w).
  { intros o [x|x] d' Hp out w1; intros [= -> <-]. split; [|done]. by apply (performed_ok c). }
  destruct (operation ≟ OperationRegister); [|destruct (operation ≟ OperationHeartbeat); [|destruct (operation ≟ OperationUnregister); [|done]]].
  - destruct (Register _ _ _ _) as [x d'] eqn:E. intros Hr. eexists. split; [done|]. by eapply Hop.
  - destruct (Heartbeat _ _ _ _) as [x d'] eqn:E. intros Hr. eexists. split; [done|]. by eapply (Hop (OpHeartbeat _)).
  - destruct (Unregister _ _ _ _) as [x d'] eqn:E. intros Hr. eexists. split; [done|]. by eapply (Hop (OpUnregister _)).
Qed.
End Effects.

(** ** The profile and telemetry of a decoded request *)

Section Decoded.
Context `{RelayIdentity, !CanonicalURLs}.

Lemma result_bind_ok {E A B} (r : result E A) (k : A → result E B) x : r ≫= k = Ok x → ∃ a, r = Ok a ∧ k a = Ok x.
Proof. destruct r; [|done]. by eexists. Qed.
Lemma register_normalized c body maximum r : DecodeRegisterRequest_v2 c body maximum = Ok r → profile_fixed (rr_profile r).
Proof.
  unfold DecodeRegisterRequest_v2. cbv zeta. intros Hr.
  apply result_bind_ok in Hr as (?&_&Hr). apply result_bind_ok in Hr as (w&_&Hr). apply result_bind_ok in Hr as (?&_&Hr). apply result_bind_ok in Hr as (?&_&Hr).
  apply result_bind_ok in Hr as (p&Hp&Hr). apply result_bind_ok in Hr as (?&_&Hr). injection Hr as <-. cbn [rr_profile].
  unfold or_bad_request in Hp. destruct (profile_normalized (rw_profile w)) as [p'|] eqn:Hn; [|done]. injection Hp as ->.
  unfold profile_normalized in Hn. repeat (match type of Hn with match ?x with _ => _ end = _ => destruct x end; try done).
  apply result_bind_ok in Hn as (q&Hq&Hn). destruct (one_of _ _); [|done]. injection Hn as <-. by eapply NormalizeRelayProfile_fixed.
Qed.
Lemma as_intent_ok {R} (f : R → intent) r i : as_intent f r = Ok i → ∃ x, r = Ok x ∧ i = f x.
Proof. destruct r; [|done]. intros [= <-]. by eexists. Qed.
Lemma intent_fixed p operation body maximum i : request_intent p operation body maximum = Ok i → profile_fixed (intent_profile i).
Proof.
  assert (He : profile_fixed empty_profile) by (vm_compute; reflexivity). unfold request_intent.
  destruct p; by_operation operation; try done; intros (x&Hx&->)%as_intent_ok; try exact He; by eapply register_normalized.
Qed.
Lemma v1_telemetry operation body maximum i : request_intent V1 operation body maximum = Ok i → intent_telemetry i = None.
Proof. unfold request_intent. by_operation operation; try done; by intros (x&Hx&->)%as_intent_ok. Qed.
End Decoded.

(** ** The stages of one request *)

Section Stages.
Context `{RelayIdentity, !CanonicalURLs} `{SignatureLibraries}.
Context (authority : string) (batch : Z) (h : LifecycleHandler) (q : routed) (w0 : lifecycle_world).
Hypothesis Hsigned : signed_handler authority batch h.
Hypothesis Hdb : db_ok (directory w0).
Hypothesis Hprofile : profile_ok (repository w0).
Hypothesis Hpost : route_method q = "POST".

(** The promised transition, over the database of the arrival up to reservations. *)
Definition transition_done (i : intent) (acceptedAt : Z) (outcome : string) (d : db) : Prop :=
  ∃ o reservations, request_operation (route_operation q) i = Some o ∧
    promised o acceptedAt (set_replay reservations (directory w0)) = Ok (outcome, d).
Definition reports_profile : bool := negb (bool_decide (route_protocol q = V1)) && (route_operation q ≟ OperationRegister).
Definition profile_done (i : intent) (s : profile_state) : Prop :=
  if reports_profile then profile_reported (intent_actor i) (intent_profile i) (repository w0) s
  else profile_values s = profile_values (repository w0) ∧ profile_events s = profile_events (repository w0).
Definition telemetry_done (i : intent) (acceptedAt : Z) (rows : gmap string telemetry_row) : Prop :=
  rows = match intent_telemetry i with
         | Some t => telemetry_stored (intent_actor i) t (unix_of acceptedAt) (telemetry_rows w0)
         | None => telemetry_rows w0
         end.

(** What an answer says of the database. *)
Definition answered_for (r : response) (w : lifecycle_world) : Prop :=
  match response_body r with
  | Some (OperationResponse version operation outcome actor) =>
      ∃ i acceptedAt, authenticated authority h q i ∧ version = version_number (route_protocol q) ∧ operation = route_operation q ∧ actor = intent_actor i ∧
        clock_ok acceptedAt ∧ status r = (if outcome ≟ OutcomeCreated then 201 else 200) ∧
        transition_done i acceptedAt outcome (directory w) ∧ profile_done i (repository w) ∧ telemetry_done i acceptedAt (telemetry_rows w)
  | _ =>
      same_tables w0 w ∨ route_protocol q ≠ V1 ∧ ∃ i acceptedAt outcome, authenticated authority h q i ∧ clock_ok acceptedAt ∧ transition_done i acceptedAt outcome (directory w)
  end.
Definition stage (ph : phase) (w : lifecycle_world) : Prop :=
  match ph with
  | Arrived | Holding _ => same_tables w0 w
  | Verified _ i | Charged _ i => authenticated authority h q i ∧ same_tables w0 w
  | Persisted _ i acceptedAt outcome =>
      authenticated authority h q i ∧ clock_ok acceptedAt ∧ transition_done i acceptedAt outcome (directory w) ∧
      profile_values (repository w) = profile_values (repository w0) ∧ profile_events (repository w) = profile_events (repository w0) ∧
      telemetry_rows w = telemetry_rows w0
  | Profiled _ i acceptedAt outcome =>
      authenticated authority h q i ∧ clock_ok acceptedAt ∧ transition_done i acceptedAt outcome (directory w) ∧ profile_done i (repository w) ∧
      telemetry_rows w = telemetry_rows w0
  | Releasing _ r | Answered r => answered_for r w
  end.

Definition refusal (r : response) : bool := match response_body r with Some (OperationResponse _ _ _ _) => false | _ => true end.
Lemma refused_answer r w : refusal r = true → same_tables w0 w → answered_for r w.
Proof. unfold refusal, answered_for. destruct (response_body r) as [[]|]; [done|by left|by left]. Qed.
Lemma refused_after r w i acceptedAt outcome : refusal r = true → route_protocol q ≠ V1 → authenticated authority h q i → clock_ok acceptedAt →
  transition_done i acceptedAt outcome (directory w) → answered_for r w.
Proof. unfold refusal, answered_for. intros Hr Hp Ha Ht Hd. destruct (response_body r) as [[]|]; [done|right..]; (split; [done|]; by exists i, acceptedAt, outcome). Qed.
Lemma error_refusal method status version code : refusal (writeProtocolErrorVersion method status version code) = true.
Proof. unfold writeProtocolErrorVersion, writeJSON, refusal. cbn. by destruct (method ≟ "HEAD"). Qed.
Lemma admission_refusal qq r : refusal (admission_error qq r) = true.
Proof.
  unfold admission_error, writeAdmissionErrorVersion.
  assert (Hl : ∀ s a ra m v c, refusal (Response s a ra (response_body (writeProtocolErrorVersion m s v c))) = true) by (intros; apply error_refusal).
  destruct (result_Decision r); first [apply error_refusal|apply Hl].
Qed.
Lemma failure_refusal qq e : refusal (lifecycle_failure qq e) = true.
Proof.
  unfold lifecycle_failure, write_error, writeLifecycleError, writeLifecycleV2Error, writeLifecycleV3Error, write_classified.
  destruct (route_protocol qq); destruct (classify_error _ e); apply error_refusal.
Qed.

Lemma same_tables_refl w : same_tables w w.
Proof. by apply same_directory. Qed.
Lemma same_tables_trans w1 w2 w3 : same_tables w1 w2 → same_tables w2 w3 → same_tables w1 w3.
Proof. intros ([r1 E1]&?&?&?) ([r2 E2]&?&?&?). split_and!; try congruence. exists r2. by rewrite E2, E1. Qed.
Lemma same_tables_limiter w l : same_tables w0 w → same_tables w0 (with_limiter l w).
Proof. done. Qed.

(** A promised outcome is one the response may carry. *)
Lemma promised_outcome i o t d outcome d' : request_operation (route_operation q) i = Some o → promised o t d = Ok (outcome, d') →
  Outcome_ValidFor outcome (route_operation q) = true.
Proof.
  unfold request_operation. by_operation (route_operation q); try done; intros [= <-]; cbn [promised].
  - intros Hp. unfold Register_promise, registered_row in Hp. guards Hp. clear Hg Hg0 Hg1 Hg2 Hg3. repeat case_match; by simplify_eq.
  - intros Hp. unfold Heartbeat_promise in Hp. guards Hp. destruct (relays d !! _); [|done]. guards Hp. by injection Hp as <- _.
  - intros Hp. unfold Unregister_promise in Hp. guards Hp. clear Hg Hg0 Hg1. repeat case_match; by simplify_eq.
Qed.

Lemma same_directory_ok w : same_tables w0 w → db_ok (directory w) ∧ profile_ok (repository w).
Proof.
  intros ([rs Hd]&Hv&He&_). rewrite Hd. split; [by apply set_replay_ok|].
  destruct Hprofile as [H2 H3 H4], (repository w) as [d v e]. cbn [profile_values profile_events] in Hv, He. subst v e. by constructor.
Qed.
Lemma transition_ok i acceptedAt outcome d : clock_ok acceptedAt → transition_done i acceptedAt outcome d → db_ok d.
Proof. intros Ht (o&rs&_&Hp). by eapply (promised_preserves o acceptedAt (set_replay rs (directory w0))); [apply set_replay_ok|..]. Qed.
Lemma authenticated_fixed i : authenticated authority h q i → profile_fixed (intent_profile i).
Proof. intros (call&body&_&Hi&_). by eapply intent_fixed. Qed.
Lemma authenticated_v1 i : authenticated authority h q i → route_protocol q = V1 → intent_telemetry i = None.
Proof. intros (call&body&_&Hi&_) Hp. rewrite Hp in Hi. by eapply v1_telemetry. Qed.

Lemma stage_admitted env k i w ph' w' : clock_ok (env_clock env) → stage (Charged k i) w → store_lifecycle q env k i w = (ph', w') → stage ph' w'.
Proof.
  intros Ht [Ha Hw]. destruct (same_directory_ok w Hw) as [Hd _]. unfold store_lifecycle.
  destruct (persist _ _ _ _ _ _) as [[o|e] w1] eqn:E; intros [= <- <-].
  - apply persisted in E as (op&Hop&Hpr&Hw1); [|done..]. destruct Hw as ([rs Hrs]&Hv&He&Htel). rewrite Hrs in Hpr. cbn [stage].
    rewrite Hw1. split_and!; try done. by exists op, rs.
  - apply refused_answer; [apply failure_refusal|]. assert (w1 = w) as ->; [|done].
    unfold persist in E. destruct w as [l [d v ev] tel]. unfold directory, with_directory, with_repository in E. cbn in E.
    repeat case_match; try (injection E as _ <-; done);
      match type of E with (stored ?x.1, _) = _ => destruct x as [y d'] eqn:Ex; cbn in E; injection E as E1 <-; unfold stored in E1; destruct y; [done|] end;
      [apply (performed_error (env_call env) (OpRegister {| register_actor := intent_actor i; register_base := intent_base i |}) (env_clock env) d) in Ex
      |apply (performed_error (env_call env) (OpHeartbeat (intent_actor i)) (env_clock env) d) in Ex
      |apply (performed_error (env_call env) (OpUnregister (intent_actor i)) (env_clock env) d) in Ex]; by rewrite Ex.
Qed.
Lemma stage_persisted env k i acceptedAt outcome w ph' w' : stage (Persisted k i acceptedAt outcome) w →
  store_profile q env k i acceptedAt outcome w = (ph', w') → stage ph' w'.
Proof.
  intros (Ha&Ht&Htr&Hv&He&Htel). unfold store_profile. fold reports_profile. destruct reports_profile eqn:Hrep.
  - unfold persist_profile. destruct (ReplaceProfileSource _ _ _ _) as [x s'] eqn:E. change (ReplaceProfileSource (env_call env)
      (relay_report (intent_actor i) (intent_profile i)) acceptedAt (repository w) = (x, s')) in E.
    assert (Hok : profile_ok (repository w)).
    { destruct Hprofile as [H2 H3 H4], (repository w) as [d v e]. cbn [profile_values profile_events] in Hv, He. subst v e. by constructor. }
    destruct x as [x|e]; intros [= <- <-].
    + apply reported in E as [Hdb' [Hin Helse]]; [|done|by eapply transition_ok|by apply authenticated_fixed]. cbn [stage].
      split_and!; [done|done|unfold directory in *; cbn [with_repository repository]; by rewrite Hdb'| |done]. unfold profile_done. rewrite Hrep. split; [done|]. intros k' Hk. by rewrite Helse, Hv.
    + assert (s' = repository w) as -> by (by apply replace_error in E). eapply refused_after; [apply failure_refusal| |done|done|].
      * intros Hp. unfold reports_profile in Hrep. by rewrite bool_decide_eq_true_2 in Hrep.
      * exact Htr.
  - intros [= <- <-]. cbn [stage]. split_and!; try done. unfold profile_done. by rewrite Hrep.
Qed.
Lemma stage_profiled env k i acceptedAt outcome w ph' w' : stage (Profiled k i acceptedAt outcome) w →
  store_telemetry h q env k i acceptedAt outcome w = (ph', w') → stage ph' w'.
Proof.
  intros (Ha&Ht&Htr&Hprof&Htel).
  assert (Hout : ∀ w', repository w' = repository w → telemetry_done i acceptedAt (telemetry_rows w') → answered_for (outcome_response q i outcome) w').
  { intros w1 Hr Hd. destruct Htr as (o&rs&Ho&Hp). unfold outcome_response. rewrite (promised_outcome _ _ _ _ _ _ Ho Hp). cbn [negb].
    unfold writeJSON. rewrite Hpost. unfold answered_for. cbn. exists i, acceptedAt. split_and!; try done.
    - exists o, rs. split; [done|]. unfold directory in *. by rewrite Hr.
    - by rewrite Hr. }
  unfold store_telemetry. destruct (intent_telemetry i) as [t|] eqn:Hi.
  - destruct (persist_telemetry _ _ _ _ _ _) as [[[]|e] w1] eqn:E; intros [= <- <-].
    + apply telemetry_effect in E as ->. apply Hout; [done|]. unfold telemetry_done. by rewrite Hi, <- Htel.
    + eapply refused_after; [apply failure_refusal| |done|done|].
      * intros Hp. by rewrite (authenticated_v1 _ Ha Hp) in Hi.
      * assert (Hr : repository w1 = repository w).
        { unfold persist_telemetry in E. destruct (negb _); [by injection E as _ <-|]. case_match; by injection E as _ <-. }
        unfold directory in *. rewrite Hr. exact Htr.
  - intros [= <- <-]. apply Hout; [done|]. unfold telemetry_done. by rewrite Hi.
Qed.
Lemma stage_step env ph w ph' w' : clock_ok (env_clock env) → stage ph w → continue_request h q env ph w = (ph', w') → stage ph' w'.
Proof.
  intros Ht Hph. destruct ph; cbn [continue_request].
  - unfold begin_request. rewrite Hpost. cbn [String.eqb negb]. change ("POST" ≟ "POST") with true. cbn [negb].
    destruct (negb (supports _ _)); [intros [= <- <-]; apply refused_answer; [apply error_refusal|done]|].
    destruct (Source_of _ _ _); [|intros [= <- <-]; apply refused_answer; [apply error_refusal|done]].
    destruct (AdmitSource _ _ _ _ _) as [[[k|] r] l]; intros [= <- <-]; [done|]. apply refused_answer; [apply admission_refusal|done].
  - cbn [stage] in Hph. unfold verify_request. destruct (readBoundedBody _ _) as [body|e] eqn:Hbody; [|intros [= <- <-]; apply refused_answer; [apply error_refusal|done]].
    destruct (verify_protocol _ _ _ _ _ _ _) as [r w1] eqn:E. apply (verify_signed _ _ _ _ _ _ _ _ _ Hsigned) in E as [Hres Hok].
    apply reserves_tables in Hres. pose proof (same_tables_trans _ _ _ Hph Hres) as Hw1.
    destruct r as [i|e]; intros [= <- <-]; [|apply refused_answer; [apply failure_refusal|done]].
    split; [|done]. exists (env_verification env), body. auto.
  - unfold admit_actor. destruct (AdmitActor _ _ _ _ _ _) as [r l]. destruct Hph as [Ha Hw].
    destruct (Allowed r); intros [= <- <-]; [done|]. apply refused_answer; [apply admission_refusal|done].
  - by apply stage_admitted.
  - by apply stage_persisted.
  - by apply stage_profiled.
  - intros [= <- <-]. exact Hph.
  - by intros [= <- <-].
Qed.
Lemma stage_run envs : Forall (λ env, clock_ok (env_clock env)) envs → ∀ ph w ph' w', stage ph w →
  run_handler (Some h) q envs ph w = (ph', w') → stage ph' w'.
Proof.
  induction 1 as [|env envs Ht Hall IH]; intros ph w ph' w' Hph; cbn [run_handler]; [by intros [= <- <-]|].
  cbn [serve_step]. destruct (continue_request h q env ph w) as [ph1 w1] eqn:E. intros Hr. eapply IH; [|exact Hr]. by eapply stage_step.
Qed.
End Stages.

Section Theorems.
Context `{RelayIdentity, !CanonicalURLs} `{SignatureLibraries}.

(** C2: The effect of one lifecycle request, whatever fails around it.  After seven
    steps it is answered.  A success answer names the version, the operation and the
    actor of the request and means that its signature verified for that actor, that
    the database went through exactly the transition the operation promises (up to
    replay reservations), that a version 2 or 3 register left exactly the asserted
    profile as the relay's own source, and that the telemetry row is the reported
    one.  A refusal of version 1 leaves every table but the reservations as it was;
    one of versions 2 and 3 may come after the transition. *)
Theorem lifecycle_request_effect authority batch h q envs w : signed_handler authority batch h → db_ok (directory w) → profile_ok (repository w) →
  Forall (λ env, clock_ok (env_clock env)) envs → (7 ≤ length envs)%nat →
  ∃ r w', run_handler (Some h) q envs Arrived w = (Answered r, w') ∧ documented_answer q r ∧ answered_for authority h q w r w'.
Proof.
  intros Hh Hd Hp Hall Hlen. destruct (answers_documented (Some h) q envs w Hlen) as (r&w'&Hrun&Hdoc). exists r, w'. split_and!; [done|done|].
  destruct (String.eqb_spec (route_method q) "POST") as [Hm|Hm].
  - by apply (stage_run authority batch h q w Hh Hd Hp Hm envs Hall Arrived w (Answered r) w' (same_tables_refl w)).
  - destruct envs as [|env envs]; [simpl in Hlen; lia|]. cbn [run_handler serve_step continue_request] in Hrun. unfold begin_request in Hrun.
    rewrite (proj2 (String.eqb_neq _ _) Hm) in Hrun. cbn [negb] in Hrun. rewrite answered_stays in Hrun. injection Hrun as <- <-.
    apply refused_answer; [|apply same_tables_refl]. unfold refusal, method_not_allowed, writeProtocolErrorVersion, writeJSON. cbn. by destruct (_ ≟ "HEAD").
Qed.
End Theorems.
