(* ===== verification/HandlerExamples.v ===== *)
(** * HandlerExamples: lifecycle requests at work

    A relay whose signature verifies in the sample libraries: it registers, its
    heartbeat meets the hard storage limit, and the witnesses of the theorems. *)
From S2P Require Import Prelude GoNet Identity AddrText Canonical Text Json JsonFacts Vocabulary Store Session Repository Lifecycle Telemetry Profile ProfileNormal ProfileFacts ProfileReplace Replay Signature SignatureFacts Requests Admission AdmissionPromise Handler Discovery Reachability Pruning Invariant Contract Refinement System Guarantees HandlerFacts HandlerAnswers RequestFacts HandlerGuarantees HandlerRefinement.
From Stdlib Require Import Ascii.
Local Open Scope string_scope.
Local Open Scope Z_scope.
Local Open Scope go_scope.
Local Open Scope list_scope.

(** Libraries whose signatures carry the tag of version 2. *)
Definition tagged_libraries (tag : string) : SignatureLibraries := {|
  RSASSA_PKCS1_1_5_SHA256 := "rsa";
  dictionary := string;
  UnmarshalDictionary values := head values;
  dictionary_Names d := ["sig"];
  dictionary_Get d name := @dictionary_Get sample_libraries d name;
  MarshalInnerList _ := Some "params";
  UnmarshalInnerList _ := Some (SigParams signer_key tag "rsa" (time_of_unix 1000) (time_of_unix 1200) rfc9421POSTComponents "n1");
  rsa_Verify _ _ signature := bytes_eqb signature (b "ok");
  sha256 _ := repeat (ascii_of_N 7) 32;
  http_ParseTime _ := Some (time_of_unix 1000) |}.

Definition lifecycle_http (path : string) : http_request :=
  HttpRequest "POST"
    (Some (RequestURL {| Scheme := []; Opaque := []; HasUser := false; Host := []; Path := b path; RawPath := []; ForceQuery := false; RawQuery := [] |} [] []))
    "directory.example" (request_header sample_request).
Definition lifecycle_post (p : protocol) (operation : string) (i : intent) : lifecycle_request :=
  let body := json_print (request_document p operation i) in
  LifecycleRequest (lifecycle_http (route_path p operation)) (route_path p operation) "" "192.0.2.7:40000" (blen body) (Some (BodyReader body false)).
Definition sample_env (c : call) (seconds : Z) : environment :=
  Environment (Some (false, false)) (time_of_unix seconds) c (VerificationCall (time_of_unix seconds) (time_of_unix seconds) sample_resolver) false
    (time_of_unix seconds).
Definition sample_world (d : db) : lifecycle_world := LifecycleWorld sample_limiter (ProfileState d ∅ []) ∅.
Definition bare (actor base : string) : intent := Intent actor base empty_profile None.

(** Version 1, in the sample libraries. *)
Definition sample_handler : LifecycleHandler :=
  HandlerOf (rfc9421_verifier "directory.example") None None (sqlite_replay_store 256) false false [] 65536.
Definition sample_register : routed :=
  Routed V1 OperationRegister (lifecycle_post V1 OperationRegister (bare signer "https://relay.example")).
Definition sample_heartbeat : routed := Routed V1 OperationHeartbeat (lifecycle_post V1 OperationHeartbeat (bare signer "")).

Lemma sample_signed : signed_handler "directory.example" 256 sample_handler.
Proof. split; [reflexivity|by left|by left|reflexivity]. Qed.
Lemma sample_profiles_ok d : profile_ok (ProfileState d ∅ []).
Proof.
  assert (Hnone : ∀ k, profile_values (ProfileState d ∅ []) !! k = None) by (intros k; apply lookup_empty).
  split; [intros ????; by rewrite Hnone|intros ????; by rewrite Hnone|by intros ? []].
Qed.
Lemma sample_clocks seconds n : seconds = 1010 → Forall (λ env, clock_ok (env_clock env)) (repeat (sample_env plain_call seconds) n).
Proof. intros ->. induction n; constructor; [|done]. vm_compute. discriminate. Qed.

Lemma lifecycle_request_effect_witness : ∃ w',
  run_handler (Some sample_handler) sample_register (repeat (sample_env plain_call 1010) 7) Arrived (sample_world sample_open) =
    (Answered (Response 201 None None (Some (OperationResponse 1 OperationRegister OutcomeCreated signer))), w') ∧
  answered_for "directory.example" sample_handler sample_register (sample_world sample_open)
    (Response 201 None None (Some (OperationResponse 1 OperationRegister OutcomeCreated signer))) w'.
Proof.
  assert (Hp : profile_ok (repository (sample_world sample_open))) by apply sample_profiles_ok.
  assert (Hlen : (7 ≤ length (repeat (sample_env plain_call 1010) 7))%nat) by (vm_compute; apply le_n).
  destruct (lifecycle_request_effect "directory.example" 256 sample_handler sample_register (repeat (sample_env plain_call 1010) 7) (sample_world sample_open)
    sample_signed sample_open_ok Hp (sample_clocks 1010 7 eq_refl) Hlen) as (r&w'&Hrun&_&Ha).
  assert (Hr : (run_handler (Some sample_handler) sample_register (repeat (sample_env plain_call 1010) 7) Arrived (sample_world sample_open)).1 =
    Answered (Response 201 None None (Some (OperationResponse 1 OperationRegister OutcomeCreated signer)))) by (vm_compute; reflexivity).
  rewrite Hrun in Hr. injection Hr as ->. exists w'. split; [exact Hrun|exact Ha].
Defined.

(** ** Permits and writes *)

Definition arriving (q : routed) (env : environment) (n : nat) : list handler_event := Arrives q :: repeat (Steps 0 env) n.
(** Two requests at once, one of them answered. *)
Definition two_requests : list handler_event :=
  arriving sample_register (sample_env plain_call 1010) 7 ++ [Arrives sample_heartbeat; Steps 1 (sample_env plain_call 1011)].
Lemma sample_start d : handlers_start sample_config ([], sample_world d).
Proof. split; [reflexivity|]. vm_compute. reflexivity. Qed.

Lemma permits_balanced_witness : ∃ rs w,
  handlers_run (Some sample_handler) two_requests ([], sample_world sample_open) = (rs, w) ∧
  inFlight (limiter w) = 1 ∧ holders rs = [1%nat].
Proof.
  destruct (handlers_run (Some sample_handler) two_requests ([], sample_world sample_open)) as [rs w] eqn:Hrun. exists rs, w.
  destruct (permits_balanced "directory.example" 256 sample_config sample_handler two_requests ([], sample_world sample_open) rs w
    sample_signed (sample_start _) Hrun) as (Hf&_).
  assert (Hh : holders rs = [1%nat]) by (change rs with (rs, w).1; rewrite <- Hrun; vm_compute; reflexivity).
  split; [reflexivity|]. split; [rewrite Hf, Hh; reflexivity|exact Hh].
Defined.

Lemma writes_authenticated_witness : ∃ rs w ph ph' w',
  handlers_run (Some sample_handler) (arriving sample_register (sample_env plain_call 1010) 3) ([], sample_world sample_open) = (rs, w) ∧
  rs !! 0%nat = Some (sample_register, ph) ∧ serve_step (Some sample_handler) sample_register (sample_env plain_call 1010) ph w = (ph', w') ∧
  ∃ i k, phase_intent ph = Some i ∧ authenticated "directory.example" sample_handler sample_register i ∧ held_permit ph = Some k ∧
    permits (limiter w) !! k = Some (PermitOf OperationRegister true true) ∧ others_untouched (intent_actor i) w w'.
Proof.
  destruct (handlers_run (Some sample_handler) (arriving sample_register (sample_env plain_call 1010) 3) ([], sample_world sample_open)) as [rs w] eqn:Hrun.
  assert (Hj : ∃ ph, rs !! 0%nat = Some (sample_register, ph)) by (change rs with (rs, w).1; rewrite <- Hrun; vm_compute; eexists; reflexivity).
  destruct Hj as [ph Hj]. destruct (serve_step (Some sample_handler) sample_register (sample_env plain_call 1010) ph w) as [ph' w'] eqn:Hstep.
  exists rs, w, ph, ph', w'. split; [reflexivity|]. split; [exact Hj|]. split; [exact Hstep|].
  assert (Hd : db_ok (directory w)).
  { assert (Hdir : directory w = set_replay (replay_reservations (directory w)) sample_open).
    { change w with (rs, w).2. rewrite <- Hrun. vm_compute. reflexivity. }
    rewrite Hdir. apply set_replay_ok, sample_open_ok. }
  assert (Ht : clock_ok (env_clock (sample_env plain_call 1010))) by (vm_compute; discriminate).
  assert (Hpre : relays (directory w) !! signer = None) by (change w with (rs, w).2; rewrite <- Hrun; vm_compute; reflexivity).
  assert (Hpost : ¬ relays (directory w') !! signer = None).
  { change w' with (ph', w').2. rewrite <- Hstep. assert (Hph : (rs, w).1 !! 0%nat = Some (sample_register, ph)) by exact Hj. rewrite <- Hrun in Hph.
    change w with (rs, w).2. rewrite <- Hrun. vm_compute in Hph. injection Hph as <-. vm_compute. discriminate. }
  assert (Hchanged : ¬ same_tables w w') by (intros ([r Hr]&_); apply Hpost; rewrite Hr; exact Hpre).
  exact (writes_authenticated "directory.example" 256 sample_config sample_handler _ ([], sample_world sample_open) rs w 0 sample_register ph
    (sample_env plain_call 1010) ph' w' sample_signed (sample_start _) Hrun Hj Hd Ht Hstep Hchanged).
Defined.

(** ** The hard limit *)

Definition hard_call : call := Call true (Some ErrWriteAdmissionHard) [].
Lemma hard_limit_masked_witness : ∃ r w',
  run_handler (Some sample_handler) sample_heartbeat (repeat (sample_env hard_call 1010) 7) Arrived (sample_world sample_enrolled) = (Answered r, w') ∧
  status r = 500 ∧ status r ≠ 503 ∧ repository w' = repository (sample_world sample_enrolled).
Proof.
  assert (Hhard : Forall hard (repeat (sample_env hard_call 1010) 7)) by (repeat constructor).
  assert (Hlen : (7 ≤ length (repeat (sample_env hard_call 1010) 7))%nat) by (vm_compute; apply le_n).
  destruct (hard_limit_masked "directory.example" 256 sample_handler sample_heartbeat _ (sample_world sample_enrolled) sample_signed eq_refl Hhard Hlen)
    as [(r&w'&Hrun&Hs&Hrep&_) _].
  exists r, w'. split; [exact Hrun|]. split; [|split; [exact Hs|exact Hrep]].
  assert (Hr : (run_handler (Some sample_handler) sample_heartbeat (repeat (sample_env hard_call 1010) 7) Arrived (sample_world sample_enrolled)).1 =
    Answered (Response 500 None None (Some (ErrorResponse 1 ErrorInternal "internal server error")))) by (vm_compute; reflexivity).
  rewrite Hrun in Hr. injection Hr as ->. reflexivity.
Defined.

(** ** Version 2 *)

Definition v2_handler : LifecycleHandler :=
  HandlerOf (rfc9421_verifier "directory.example")
    (Some (@rfc9421_verifier_v2 _ (tagged_libraries (contract_tag contract_v2)) contract_v2 "directory.example")) None
    (sqlite_replay_store 256) true true [] 65536.
Definition v2_register (p : profile) (t : option telemetry) : routed :=
  Routed V2 OperationRegister (lifecycle_post V2 OperationRegister (Intent signer "https://relay.example" p t)).
(** A described registration is answered, and everything it asserts is stored. *)
Example described_registration :
  let described := RelayProfileOf "open" "public" "" ["en"] [] [] [] "" "" "" "" "welcome" in
  let reported := Receiving {| telemetry_actor := signer; ReceivingInstanceCount := 120 |} in
  let '(ph, w) := run_handler (Some v2_handler) (v2_register described (Some reported)) (repeat (sample_env plain_call 1010) 7) Arrived (sample_world sample_open) in
  ph = Answered (Response 201 None None (Some (OperationResponse 2 OperationRegister OutcomeCreated signer))) ∧
  status_in (directory w) signer = Known Registered false ∧
  EffectiveProfile plain_call (profile_values (repository w)) signer (directory w) = Ok described ∧
  telemetry_rows w !! signer = Some (TelemetryRow 120 1010 None None).
Proof. vm_compute. repeat split. Qed.

(** A version 2 register can be answered 400 invalid_request although the relay
    is now registered: notes of 1024 bytes pass every check of the request, the
    lifecycle transition commits, and only then is the profile refused, because its
    JSON encoding is longer than the column. *)
Theorem rejected_yet_registered :
  let notes := str (repeat "<"%char 1024) in
  let refused := v2_register (RelayProfileOf "open" "" "" [] [] [] [] "" "" "" "" notes) None in
  ∃ w', run_handler (Some v2_handler) refused (repeat (sample_env plain_call 1010) 7) Arrived (sample_world sample_open) =
    (Answered (Response 400 None None (Some (ErrorResponse 2 ErrorInvalidRequest "request is invalid"))), w') ∧
  status_in sample_open signer = Absent ∧ status_in (directory w') signer = Known Registered false ∧
  profile_values (repository w') = ∅.
Proof.
  cbv zeta. eexists. split; [vm_compute; reflexivity|]. split; [vm_compute; reflexivity|]. split; vm_compute; reflexivity.
Qed.
