(* ===== verification/DirectoryExamples.v ===== *)
(** * DirectoryExamples: the directory over concrete tables

    The theorems of [DirectoryWalk] applied to a relay that registered, sent a
    heartbeat and was probed, with the profile reader of [ProfileFacts]. *)
From S2P Require Import Prelude Identity Canonical Vocabulary Paging Store Repository Reachability Invariant System Guarantees ReachabilityFacts Health Telemetry Profile ProfileFacts Directory Evidence DirectoryFacts DirectoryPages DirectoryScan DirectoryWalk.
Local Open Scope string_scope.
Local Open Scope Z_scope.
Local Open Scope go_scope.
Local Open Scope list_scope.

Definition sample_probed : db := after (OpReachability (sample_probe sample_inbox)) beat_time sample_beaten.
Definition sample_extras : extras := Extras ∅ (∅ : profile_table).

Lemma sample_probed_evidence : db_ok sample_probed ∧ evidence 3000 sample_probed.
Proof.
  unfold sample_probed, sample_beaten, sample_enrolled, sample_open, after. repeat (apply after_evidence; [|clock|vm_compute; congruence]). split; [apply initial_db_ok|apply initial_evidence].
Qed.
Lemma sample_readable : readable 3000 sample_probed sample_extras.
Proof.
  destruct sample_probed_evidence as [Hok Hev]. by split.
Qed.

Lemma directory_listing_complete_witness :
  readable (unix_of (time_of_unix 3000)) sample_probed sample_extras ∧
  ∃ listing, read_all (read_forward sample_probed sample_extras 1 (time_of_unix 3000)) 5 directory_start = Ok listing ∧
    strictly_sorted relay_position listing ∧
    ∀ r, In r listing ↔ eligible_now sample_probed (RelayActor r) = true ∧
      detail_of (unix_of (time_of_unix 3000)) sample_probed sample_extras (RelayActor r) = Ok (Some r).
Proof.
  assert (Hf : (4 * length (public_actors sample_probed) < 5)%nat) by (vm_compute; lia).
  split; [exact sample_readable|].
  exact (directory_listing_complete 1 (time_of_unix 3000) 5 sample_probed sample_extras sample_readable ltac:(lia) Hf).
Defined.

Lemma directory_navigation_witness :
  ∃ r, RelayActor r = sample_actor ∧ Tier r = DirectoryTierHeartbeatOnline ∧
    read_all (read_backward sample_probed sample_extras 1 (time_of_unix 3000)) 5 (relay_cursor r) = Ok (reverse []).
Proof.
  assert (Hf : (4 * length (public_actors sample_probed) < 5)%nat) by (vm_compute; lia).
  set (listing := read_all (read_forward sample_probed sample_extras 1 (time_of_unix 3000)) 5 directory_start).
  assert (Hb : match listing with Ok [r] => (RelayActor r ≟ sample_actor) && (Tier r =? DirectoryTierHeartbeatOnline) | _ => false end = true)
    by (vm_compute; reflexivity).
  assert (Hl : ∃ r, RelayActor r = sample_actor ∧ Tier r = DirectoryTierHeartbeatOnline ∧ listing = Ok [r]).
  { destruct listing as [[|r [|]]|]; try discriminate Hb. apply andb_true_iff in Hb as [Ha%String.eqb_eq Ht%Z.eqb_eq]. by exists r. }
  destruct Hl as (r&Ha&Ht&Hl). exists r. split; [exact Ha|split; [exact Ht|]].
  exact (proj2 (directory_navigation 1 (time_of_unix 3000) 5 sample_probed sample_extras [] r [] sample_readable ltac:(lia) Hf Hl)).
Defined.

Lemma ClassifyDirectoryTier_degrades_witness :
  ∃ r tier, RelayActor r = sample_actor ∧ ValidateDirectoryProjectionEvidence r 3000 = true ∧
    ClassifyDirectoryTier r (3000 + 6000000) = Ok tier ∧ Tier r ≤ tier.
Proof.
  assert (Hb : match detail_of 3000 sample_probed sample_extras sample_actor with
               | Ok (Some r) => (RelayActor r ≟ sample_actor) && ValidateDirectoryProjectionEvidence r 3000 | _ => false end = true)
    by (vm_compute; reflexivity).
  assert (Hl : ∃ r, RelayActor r = sample_actor ∧ ValidateDirectoryProjectionEvidence r 3000 = true).
  { destruct (detail_of _ _ _ _) as [[r|]|]; try discriminate Hb. apply andb_true_iff in Hb as [Ha%String.eqb_eq Hv]. by exists r. }
  destruct Hl as (r&Ha&Hv).
  destruct (ClassifyDirectoryTier_degrades r 3000 (3000 + 6000000) Hv ltac:(vm_compute; split; congruence)) as (tier&Ht&_&Hle).
  exists r, tier. split; [exact Ha|split; [exact Hv|split; [exact Ht|exact Hle]]].
Defined.
