(* ===== verification/Retention.v ===== *)
(** * Retention: hard deletion of inactive relays and removed discoveries

    [internal/storage/retention.go], [internal/storage/sqlite/retention.go] and
    [internal/retention/run.go] with migrations 6, 8, 10, 11 and 13: the candidate
    pages, the destructive batch with its triggers and cascades, the audited run
    record, and the bounded run over an abstract repository. *)
From S2P Require Import Prelude GoNet Identity Vocabulary Store Session Repository Paging Reachability Telemetry Profile.
From Stdlib Require Import Ascii.
Local Open Scope string_scope.
Local Open Scope Z_scope.
Local Open Scope go_scope.
Local Open Scope list_scope.

Definition MaximumInactiveRetentionDays : Z := 36500.
Definition MaximumPurgeCandidatePage : Z := 100.
Definition MaximumPurgeAttemptsPerRun : Z := 1000.
Definition RetentionPolicyVersion : Z := 2.
Definition PurgeCandidateLifecycle := "lifecycle".
Definition PurgeCandidateDiscovery := "discovery".
Definition PurgeCandidateKind_Valid (kind : string) : bool := (kind ≟ PurgeCandidateLifecycle) || (kind ≟ PurgeCandidateDiscovery).

(** ** Candidates *)

Record purge_cursor := PurgeCursor { purge_at : Z; purge_actor : string; purge_kind : string }.
Definition purge_start : purge_cursor := PurgeCursor 0 "" "".
Definition purge_cursor_eqb (x y : purge_cursor) : bool :=
  (purge_at x =? purge_at y) && (purge_actor x ≟ purge_actor y) && (purge_kind x ≟ purge_kind y).
Definition purge_cursor_valid (cursor : purge_cursor) : bool :=
  if purge_cursor_eqb cursor purge_start then true
  else (0 <=? purge_at cursor) && negb (purge_actor cursor ≟ "") && PurgeCandidateKind_Valid (purge_kind cursor).
Definition purge_cursor_key (cursor : purge_cursor) : Z * (string * string) := (purge_at cursor, (purge_actor cursor, purge_kind cursor)).

Record purge_query := PurgeQuery { purge_after : purge_cursor; purge_limit : Z; purge_cutoff : Z }.
Record purge_candidate := PurgeCandidate {
  purged_kind : string; purged_actor : string; purged_lifecycle : string; inactive_unix : Z; purged_updated : Z;
  latest_relay_id : Z; latest_moderation_id : Z; latest_discovery_id : Z; observation_revision : Z }.
Definition purge_candidate_valid (c : purge_candidate) : bool :=
  if negb (PurgeCandidateKind_Valid (purged_kind c)) || (purged_actor c ≟ "") || (inactive_unix c <? 0) ||
     (purged_updated c <? inactive_unix c) || (observation_revision c <? 0) then false
  else if purged_kind c ≟ PurgeCandidateLifecycle then
    (0 <=? latest_relay_id c) && (0 <=? latest_moderation_id c) &&
    ((purged_lifecycle c ≟ lifecycleUnregistered) || (purged_lifecycle c ≟ lifecyclePruned))
  else (purged_lifecycle c ≟ "") && (0 <=? latest_discovery_id c).
Definition purge_position (c : purge_candidate) : purge_cursor := PurgeCursor (inactive_unix c) (purged_actor c) (purged_kind c).
Definition purge_key (c : purge_candidate) : Z * (string * string) := purge_cursor_key (purge_position c).
Record purge_page := PurgePage { purge_candidates : list purge_candidate; purge_next : purge_cursor }.

(** [COALESCE((SELECT MAX(id) ... WHERE relay_actor = ?), 0)] *)
Definition latest_event_id (actor : string) (d : db) : Z :=
  default 0 (max_of (map event_id (List.filter (λ e, event_actor e ≟ actor) (relay_events d)))).
Definition latest_moderation_event_id (actor : string) (d : db) : Z :=
  default 0 (max_of (map moderation_event_id (List.filter (λ e, moderation_actor e ≟ actor) (moderation_events d)))).
Definition latest_discovery_event_id (actor : string) (d : db) : Z :=
  default 0 (max_of (map discovery_event_id (List.filter (λ e, discovery_actor e ≟ actor) (discovery_events d)))).
Definition revision_or_zero (actor : string) (d : db) : Z :=
  match observations d !! actor with Some o => revision o | None => 0 end.
(** [CASE lifecycle_state WHEN 'unregistered' THEN ... WHEN 'pruned' THEN ... END] *)
Definition inactive_since (r : relay_row) : option Z :=
  if lifecycle_state r ≟ lifecycleUnregistered then unregistered_at_unix r
  else if lifecycle_state r ≟ lifecyclePruned then pruned_at_unix r else None.

Definition lifecycle_candidate (d : db) (actor : string) (r : relay_row) : purge_candidate :=
  PurgeCandidate PurgeCandidateLifecycle actor (lifecycle_state r) (default 0 (inactive_since r)) (updated_at_unix r)
    (latest_event_id actor d) (latest_moderation_event_id actor d) 0 (revision_or_zero actor d).
Definition discovery_candidate (d : db) (actor : string) (r : discovery_row) : purge_candidate :=
  PurgeCandidate PurgeCandidateDiscovery actor "" (default 0 (discovery_removed_at r)) (discovery_updated r)
    0 0 (latest_discovery_event_id actor d) (revision_or_zero actor d).

Definition until (cutoff : Z) (at_ : option Z) : bool := match at_ with Some v => v <=? cutoff | None => false end.
Definition relay_inactive (cutoff : Z) (r : relay_row) : bool :=
  (administrative_state r ≟ administrativeActive) &&
  ((lifecycle_state r ≟ lifecycleUnregistered) || (lifecycle_state r ≟ lifecyclePruned)) && until cutoff (inactive_since r).
Definition discovery_inactive (cutoff : Z) (r : discovery_row) : bool :=
  (discovery_state r ≟ discoveryRemoved) && until cutoff (discovery_removed_at r).
Definition lifecycle_candidates (cutoff : Z) (d : db) : list purge_candidate :=
  map (λ row, lifecycle_candidate d row.1 row.2) (List.filter (λ row, relay_inactive cutoff row.2) (map_to_list (relays d))).
Definition discovery_candidates (cutoff : Z) (d : db) : list purge_candidate :=
  map (λ row, discovery_candidate d row.1 row.2) (List.filter (λ row, discovery_inactive cutoff row.2) (map_to_list (discoveries d))).

(** Each source is read up to the limit and one, then the union is ordered. *)
Definition purge_rows (q : purge_query) (d : db) : list purge_candidate :=
  let cutoff := unix_of (purge_cutoff q) in
  let source := keyset_rows purge_key (purge_cursor_key (purge_after q)) (Z.to_nat (purge_limit q)) in
  take (S (Z.to_nat (purge_limit q)))
    (order_by purge_key (source (lifecycle_candidates cutoff d) ++ source (discovery_candidates cutoff d))).

Section Candidates.
Context `{RelayIdentity}.

Definition decode_purge (cutoff : Z) (c : purge_candidate) : result error purge_candidate :=
  if negb (purge_candidate_valid c) || negb (validHealthProjectionActor (purged_actor c)) || (cutoff <? inactive_unix c)
  then Err (storageFailure "validate retention candidate" ErrInvalidState) else Ok c.

Definition PurgeCandidates_query (q : purge_query) : Tx purge_page :=
  let started := purge_cursor_eqb (purge_after q) purge_start in
  check (negb (negb (purge_cursor_valid (purge_after q)) || (purge_limit q <=? 0) || (MaximumPurgeCandidatePage <? purge_limit q) ||
               (negb started && negb (validHealthProjectionActor (purge_actor (purge_after q)))))) ErrRetentionReadInput ;;
  let cutoff := unix_of (purge_cutoff q) in
  check (negb ((cutoff <? 0) || (negb started && (cutoff <? purge_at (purge_after q))))) ErrRetentionReadInput ;;
  rows ← wrapped "read retention candidates" (query (purge_rows q));
  '(candidates, more) ← scan_rows "decode retention candidate" "iterate retention candidates"
      (decode_purge cutoff) (Z.to_nat (purge_limit q)) [] rows;
  mret (PurgePage candidates
          (match list.last candidates with
           | Some c => if (more : bool) then purge_position c else purge_start
           | None => purge_start
           end)).
Definition PurgeCandidates (c : call) (q : purge_query) (d : db) : result error purge_page :=
  run_read c (PurgeCandidates_query q) d.
End Candidates.

(** ** Run records *)

Record run_row := RunRow {
  run_policy : Z; run_days : Z; run_observed : Z; run_cutoff : Z; run_backup : string; run_started : Z;
  run_scanned : Z; run_relays : Z; run_discoveries : Z; run_observations : Z; run_events : Z; run_skipped : Z; run_batches : Z;
  run_truncated : Z; run_outcome : string; run_finished : option Z }.
Definition RetentionRunning := "running".
Definition RetentionCompleted := "completed".
Definition RetentionCanceled := "canceled".
Definition RetentionFailed := "failed".
Definition RetentionOutcome_Valid (outcome : string) : bool :=
  (outcome ≟ RetentionCompleted) || (outcome ≟ RetentionCanceled) || (outcome ≟ RetentionFailed).

Definition hex_digest (value : string) : bool :=
  (len value =? 64) && forallb (λ c, is_digit c || in_range c "a" "f") (b value).
Definition between (lo v hi : Z) : bool := (lo <=? v) && (v <=? hi).
(** The CHECK constraints of [retention_runs] after migration 8. *)
Definition run_check (r : run_row) : bool :=
  ((run_policy r =? 1) || (run_policy r =? 2)) && between 1 (run_days r) 36500 && (0 <=? run_observed r) &&
  (0 <=? run_cutoff r) && (run_cutoff r <=? run_observed r) && (run_days r * 86400 <=? run_observed r) &&
  (run_cutoff r =? run_observed r - run_days r * 86400) && between 0 (run_scanned r) 1000 &&
  between 0 (run_relays r) (run_scanned r) && between 0 (run_discoveries r) (run_scanned r) &&
  between 0 (run_observations r) (run_scanned r) && (0 <=? run_events r) && between 0 (run_skipped r) (run_scanned r) &&
  (run_relays r + run_discoveries r + run_skipped r <=? run_scanned r) && between 0 (run_batches r) 1000 &&
  (((run_scanned r =? 0) && (run_batches r =? 0)) || ((0 <? run_scanned r) && between 1 (run_batches r) (run_scanned r))) &&
  ((run_truncated r =? 0) || (run_truncated r =? 1)) &&
  ((run_outcome r ≟ RetentionRunning) || RetentionOutcome_Valid (run_outcome r)) && hex_digest (run_backup r) &&
  (run_observed r <=? run_started r) && null_or (λ v, run_started r <=? v) (run_finished r) &&
  (((run_outcome r ≟ RetentionRunning) && is_null (run_finished r)) ||
   (negb (run_outcome r ≟ RetentionRunning) && not_null (run_finished r))) &&
  (negb ((run_outcome r ≟ RetentionRunning) || (run_outcome r ≟ RetentionCompleted)) ||
   (run_relays r + run_discoveries r + run_skipped r =? run_scanned r)) &&
  (run_observations r <=? run_relays r + run_discoveries r) &&
  ((run_policy r =? 2) || ((run_discoveries r =? 0) && (run_observations r =? 0))).
(** The trigger [retention_runs_guard_update]. *)
Definition run_update_ok (old new : run_row) : bool :=
  (run_policy old =? run_policy new) && (run_days old =? run_days new) && (run_observed old =? run_observed new) &&
  (run_cutoff old =? run_cutoff new) && (run_backup old ≟ run_backup new) && (run_started old =? run_started new) &&
  (run_outcome old ≟ RetentionRunning) && (run_scanned old <=? run_scanned new) && (run_relays old <=? run_relays new) &&
  (run_discoveries old <=? run_discoveries new) && (run_observations old <=? run_observations new) &&
  (run_events old <=? run_events new) && (run_skipped old <=? run_skipped new) && (run_batches old <=? run_batches new) &&
  negb ((run_truncated old =? 1) && (run_truncated new =? 0)).

(** ** The tables a purge touches *)

(** [relay_events_no_delete] is one trigger, dropped and created again by the batch. *)
Record retention_store := RetentionStore {
  retention_db : db; retention_telemetry : gmap string telemetry_row; retention_profiles : profile_table;
  retention_runs : gmap Z run_row; retention_run_seq : Z; events_guarded : bool }.
Definition with_db (d : db) (s : retention_store) : retention_store :=
  RetentionStore d (retention_telemetry s) (retention_profiles s) (retention_runs s) (retention_run_seq s) (events_guarded s).

Definition drop_delete_trigger (s : retention_store) : option (retention_store * unit) :=
  if events_guarded s then
    Some (RetentionStore (retention_db s) (retention_telemetry s) (retention_profiles s) (retention_runs s) (retention_run_seq s) false, tt)
  else None.
Definition create_delete_trigger (s : retention_store) : option (retention_store * unit) :=
  if events_guarded s then None
  else Some (RetentionStore (retention_db s) (retention_telemetry s) (retention_profiles s) (retention_runs s) (retention_run_seq s) true, tt).

(** [DELETE FROM relay_events WHERE relay_actor = ?] *)
Definition delete_relay_events (actor : string) (s : retention_store) : option (retention_store * Z) :=
  let d := retention_db s in
  let kept := List.filter (λ e, negb (event_actor e ≟ actor)) (relay_events d) in
  let count := Z.of_nat (length (relay_events d)) - Z.of_nat (length kept) in
  if events_guarded s && (0 <? count) then None
  else Some (with_db (set_relay_events kept (relay_event_seq d) d) s, count).

(** [relay_profile_values_cleanup_after_relay_delete] and its discovery twin *)
Definition drop_profiles (actor : string) (profiles : profile_table) : profile_table :=
  filter (λ e : profile_key * profile_row, e.1.1 ≠ actor) profiles.
Definition cleanup_profiles (actor : string) (d : db) (profiles : profile_table) : profile_table :=
  if retained_identity actor d then profiles else drop_profiles actor profiles.
Definition delete_relay (actor lifecycle : string) (s : retention_store) : option (retention_store * Z) :=
  let d := retention_db s in
  match relays d !! actor with
  | Some r =>
      if (administrative_state r ≟ administrativeActive) && (lifecycle_state r ≟ lifecycle) then
        let d' := set_relays (delete actor (relays d)) d in
        Some (RetentionStore d' (delete actor (retention_telemetry s)) (cleanup_profiles actor d' (retention_profiles s))
                (retention_runs s) (retention_run_seq s) (events_guarded s), 1)
      else Some (s, 0)
  | None => Some (s, 0)
  end.
Definition delete_discovery (actor : string) (s : retention_store) : option (retention_store * Z) :=
  let d := retention_db s in
  match discoveries d !! actor with
  | Some r =>
      if discovery_state r ≟ discoveryRemoved then
        let d' := set_discoveries (delete actor (discoveries d)) d in
        Some (RetentionStore d' (retention_telemetry s) (cleanup_profiles actor d' (retention_profiles s))
                (retention_runs s) (retention_run_seq s) (events_guarded s), 1)
      else Some (s, 0)
  | None => Some (s, 0)
  end.
(** With the cascade to [relay_observation_diagnostics]. *)
Definition delete_unowned_observation (actor : string) (s : retention_store) : option (retention_store * Z) :=
  let d := retention_db s in
  match observations d !! actor with
  | Some _ =>
      if retained_identity actor d then Some (s, 0)
      else Some (with_db (set_diagnostics (delete actor (diagnostics d)) (set_observations (delete actor (observations d)) d)) s, 1)
  | None => Some (s, 0)
  end.

Definition with_runs (runs : gmap Z run_row) (seq : Z) (s : retention_store) : retention_store :=
  RetentionStore (retention_db s) (retention_telemetry s) (retention_profiles s) runs seq (events_guarded s).
(** [INSERT INTO retention_runs (...) VALUES (...)], the other columns defaulted *)
Definition insert_run (policy days observed cutoff : Z) (backup : string) (started : Z) (s : retention_store) : option (retention_store * Z) :=
  let r := RunRow policy days observed cutoff backup started 0 0 0 0 0 0 0 0 RetentionRunning None in
  let id := retention_run_seq s + 1 in
  if run_check r then Some (with_runs (<[id := r]> (retention_runs s)) id s, id) else None.
Definition update_run (id : Z) (f : run_row → run_row) (s : retention_store) : option (retention_store * Z) :=
  match retention_runs s !! id with
  | Some r =>
      if run_outcome r ≟ RetentionRunning then
        if run_update_ok r (f r) && run_check (f r) then Some (with_runs (<[id := f r]> (retention_runs s)) (retention_run_seq s) s, 1)
        else None
      else Some (s, 0)
  | None => Some (s, 0)
  end.

(** ** PurgeBatch *)

Record batch_result := BatchResult {
  batch_attempted : Z; batch_relays : Z; batch_discoveries : Z; batch_observations : Z; batch_events : Z; batch_skipped : Z }.
Record retention_state := RetentionState {
  state_kind : string; state_lifecycle : string; state_administrative : string; state_inactive : Z; state_updated : Z;
  state_relay_id : Z; state_moderation_id : Z; state_discovery_id : Z; state_observation : Z }.
Definition or_minus_one (v : option Z) : Z := default (-1) v.

Definition lifecycle_state_of (actor : string) (d : db) : option retention_state :=
  (λ r, RetentionState PurgeCandidateLifecycle (lifecycle_state r) (administrative_state r) (or_minus_one (inactive_since r))
          (updated_at_unix r) (latest_event_id actor d) (latest_moderation_event_id actor d) 0 (revision_or_zero actor d))
  <$> relays d !! actor.
Definition discovery_state_of (actor : string) (d : db) : option retention_state :=
  (λ r, RetentionState PurgeCandidateDiscovery (discovery_state r) "" (or_minus_one (discovery_removed_at r))
          (discovery_updated r) 0 0 (latest_discovery_event_id actor d) (revision_or_zero actor d))
  <$> discoveries d !! actor.
Definition readRetentionState (c : purge_candidate) : Session retention_store (option retention_state) :=
  if purged_kind c ≟ PurgeCandidateLifecycle then
    failing "read relay for retention" (select (λ s, lifecycle_state_of (purged_actor c) (retention_db s)))
  else if purged_kind c ≟ PurgeCandidateDiscovery then
    failing "read discovery for retention" (select (λ s, discovery_state_of (purged_actor c) (retention_db s)))
  else fail ErrRetentionWriteInput.

Definition retentionStateMatches (c : purge_candidate) (current : retention_state) (cutoff : Z) : bool :=
  if negb (state_kind current ≟ purged_kind c) || negb (state_inactive current =? inactive_unix c) ||
     negb (state_updated current =? purged_updated c) || negb (state_observation current =? observation_revision c) ||
     (cutoff <? state_inactive current) then false
  else if purged_kind c ≟ PurgeCandidateLifecycle then
    (state_administrative current ≟ administrativeActive) && (state_lifecycle current ≟ purged_lifecycle c) &&
    (state_relay_id current =? latest_relay_id c) && (state_moderation_id current =? latest_moderation_id c)
  else if purged_kind c ≟ PurgeCandidateDiscovery then
    (state_lifecycle current ≟ discoveryRemoved) && (state_discovery_id current =? latest_discovery_id c)
  else false.

Definition add_skipped (r : batch_result) : batch_result :=
  BatchResult (batch_attempted r) (batch_relays r) (batch_discoveries r) (batch_observations r) (batch_events r) (batch_skipped r + 1).
Definition add_relay (events : Z) (r : batch_result) : batch_result :=
  BatchResult (batch_attempted r) (batch_relays r + 1) (batch_discoveries r) (batch_observations r) (batch_events r + events) (batch_skipped r).
Definition add_discovery (r : batch_result) : batch_result :=
  BatchResult (batch_attempted r) (batch_relays r) (batch_discoveries r + 1) (batch_observations r) (batch_events r) (batch_skipped r).
Definition add_observations (n : Z) (r : batch_result) : batch_result :=
  BatchResult (batch_attempted r) (batch_relays r) (batch_discoveries r) (batch_observations r + n) (batch_events r) (batch_skipped r).

(** The arms of the [switch] and the deletion of an observation nothing owns. *)
Definition purge_relay (c : purge_candidate) (r : batch_result) : Session retention_store batch_result :=
  events ← failing "delete retained lifecycle events" (execute (delete_relay_events (purged_actor c)));
  failing "count deleted lifecycle events" call_driver ;;
  ensure (0 <=? events) (storageFailure "count deleted lifecycle events" ErrInvalidState) ;;
  count ← failing "delete inactive relay" (execute (delete_relay (purged_actor c) (purged_lifecycle c)));
  failing "count deleted inactive relay" call_driver ;;
  ensure (count =? 1) (storageFailure "count deleted inactive relay" ErrInvalidState) ;;
  mret (add_relay events r).
Definition purge_discovery (c : purge_candidate) (r : batch_result) : Session retention_store batch_result :=
  count ← failing "delete removed discovery" (execute (delete_discovery (purged_actor c)));
  failing "count deleted discovery" call_driver ;;
  ensure (count =? 1) (storageFailure "count deleted discovery" ErrInvalidState) ;;
  mret (add_discovery r).
Definition purge_observation (c : purge_candidate) (r : batch_result) : Session retention_store batch_result :=
  count ← failing "delete unowned relay observation" (execute (delete_unowned_observation (purged_actor c)));
  failing "count deleted relay observation" call_driver ;;
  ensure ((0 <=? count) && (count <=? 1)) (storageFailure "count deleted relay observation" ErrInvalidState) ;;
  mret (add_observations count r).

Fixpoint purge_loop (cutoff : Z) (candidates : list purge_candidate) (r : batch_result) : Session retention_store batch_result :=
  match candidates with
  | [] => mret r
  | c :: rest =>
      current ← readRetentionState c;
      if match current with Some state => retentionStateMatches c state cutoff | None => false end then
        r ← (if purged_kind c ≟ PurgeCandidateLifecycle then purge_relay c r
             else if purged_kind c ≟ PurgeCandidateDiscovery then purge_discovery c r
             else fail ErrRetentionWriteInput);
        r ← purge_observation c r;
        purge_loop cutoff rest r
      else purge_loop cutoff rest (add_skipped r)
  end.

Definition checkpoint (r : batch_result) (row : run_row) : run_row :=
  RunRow (run_policy row) (run_days row) (run_observed row) (run_cutoff row) (run_backup row) (run_started row)
    (run_scanned row + batch_attempted r) (run_relays row + batch_relays r) (run_discoveries row + batch_discoveries r)
    (run_observations row + batch_observations r) (run_events row + batch_events r) (run_skipped row + batch_skipped r)
    (run_batches row + 1) (run_truncated row) (run_outcome row) (run_finished row).

Definition PurgeBatch_tx (runID : Z) (candidates : list purge_candidate) (cutoff : Z) : Session retention_store batch_result :=
  run ← failing "read retention run" (select (λ s, retention_runs s !! runID) ≫= λ run,
          match run with Some row => mret row | None => fail ErrBackend end);
  ensure ((run_outcome run ≟ RetentionRunning) && (run_cutoff run =? cutoff) && (run_policy run =? RetentionPolicyVersion))
    ErrRetentionWriteInput ;;
  let needsLifecycleDelete := existsb (λ c, purged_kind c ≟ PurgeCandidateLifecycle) candidates in
  (if needsLifecycleDelete then failing "open retention delete scope" (execute drop_delete_trigger) else mret tt) ;;
  r ← purge_loop cutoff candidates (BatchResult (Z.of_nat (length candidates)) 0 0 0 0 0);
  (if needsLifecycleDelete then failing "close retention delete scope" (execute create_delete_trigger) else mret tt) ;;
  count ← failing "checkpoint retention batch" (execute (update_run runID (checkpoint r)));
  failing "checkpoint retention batch" call_driver ;;
  ensure (count =? 1) (storageFailure "checkpoint retention batch" ErrInvalidState) ;;
  mret r.

Section Batch.
Context `{RelayIdentity}.

Definition batch_input_ok (runID : Z) (candidates : list purge_candidate) (cutoff : Z) : bool :=
  negb ((runID <=? 0) || (cutoff <? 0) || (length candidates =? 0)%nat || (MaximumPurgeCandidatePage <? Z.of_nat (length candidates))) &&
  forallb (λ c, negb (negb (purge_candidate_valid c) || negb (validHealthProjectionActor (purged_actor c)) || (cutoff <? inactive_unix c)))
    candidates.
Definition PurgeBatch (c : call) (runID : Z) (candidates : list purge_candidate) (cutoffAt : Z) (s : retention_store)
    : result error batch_result * retention_store :=
  if negb (configured c) then (Err ErrRepositoryConfiguration, s)
  else
    let cutoff := unix_of cutoffAt in
    if negb (batch_input_ok runID candidates cutoff) then (Err ErrRetentionWriteInput, s)
    else transact c "commit retention batch" (PurgeBatch_tx runID candidates cutoff) s.
End Batch.

(** ** Beginning and finishing a run *)

Record run_start := RunStart {
  start_policy : Z; start_days : Z; start_observed : Z; start_cutoff : Z; start_backup : string; start_started : Z }.
Record run_finish := RunFinish {
  finish_id : Z; finish_scanned : Z; finish_relays : Z; finish_discoveries : Z; finish_observations : Z; finish_events : Z;
  finish_skipped : Z; finish_batches : Z; finish_truncated : bool; finish_outcome : string; finish_at : Z }.

(** [hex.DecodeString(value)] succeeds and [value == bytes.ToLower(value)] *)
Definition validRetentionDigest (value : string) : bool :=
  (len value =? 64) && forallb is_hex (b value) && bytes_eqb (map lower_byte (b value)) (b value).
Definition valid_run_start (start : run_start) : bool :=
  negb (negb (start_policy start =? RetentionPolicyVersion) || (start_days start <=? 0) ||
        (MaximumInactiveRetentionDays <? start_days start) || (start_observed start <? 0) || (start_cutoff start <? 0) ||
        (start_observed start <? start_cutoff start) || negb (validRetentionDigest (start_backup start)) ||
        (start_started start <? start_observed start)) &&
  negb ((start_observed start <? start_days start * 86400) ||
        negb (int64_sub (start_observed start) (start_days start * 86400) =? start_cutoff start)).

(** [repository.acquireWrite(ctx)] and statements outside any transaction: each
    one that succeeded stays. *)
Definition acquire_write {S} (c : call) : Session S unit :=
  match admission c with Some e => fail (storageFailure "admit storage mutation" e) | None => mret tt end.
Definition statements {S A} (c : call) (body : Session S A) (s : S) : result error A * S :=
  if negb (configured c) then (Err ErrRepositoryConfiguration, s)
  else let '(r, (s', _)) := body (s, outcomes c) in (r, s').

Definition BeginRetentionRun (c : call) (start : run_start) (s : retention_store) : result error Z * retention_store :=
  statements c
    (ensure (valid_run_start start) ErrRetentionWriteInput ;;
     acquire_write c ;;
     id ← failing "start retention run audit"
       (execute (insert_run (start_policy start) (start_days start) (start_observed start) (start_cutoff start)
                   (start_backup start) (start_started start)));
     failing "read retention run identifier" call_driver ;;
     ensure (0 <? id) (storageFailure "read retention run identifier" ErrInvalidState) ;;
     mret id) s.

Definition finish_primary (f : run_finish) : Z := int64_add (finish_relays f) (finish_discoveries f).
Definition finish_accounted (f : run_finish) : Z := int64_add (finish_primary f) (finish_skipped f).
Definition valid_run_finish (f : run_finish) : bool :=
  negb ((finish_id f <=? 0) || (finish_scanned f <? 0) || (MaximumPurgeAttemptsPerRun <? finish_scanned f) ||
        (finish_relays f <? 0) || (finish_discoveries f <? 0) || (finish_scanned f <? finish_primary f) ||
        (finish_observations f <? 0) || (finish_primary f <? finish_observations f) || (finish_events f <? 0) ||
        (finish_skipped f <? 0) || (finish_scanned f <? finish_accounted f) ||
        ((finish_outcome f ≟ RetentionCompleted) && negb (finish_accounted f =? finish_scanned f)) ||
        (finish_batches f <? 0) || (MaximumPurgeAttemptsPerRun <? finish_batches f) ||
        ((finish_scanned f =? 0) && negb (finish_batches f =? 0)) ||
        ((0 <? finish_scanned f) && ((finish_batches f =? 0) || (finish_scanned f <? finish_batches f))) ||
        negb (RetentionOutcome_Valid (finish_outcome f)) || (finish_at f <? 0)).

(** The recorded row as a [RetentionRunFinish]. *)
Definition recorded_finish (id : Z) (row : run_row) : run_finish :=
  RunFinish id (run_scanned row) (run_relays row) (run_discoveries row) (run_observations row) (run_events row) (run_skipped row)
    (run_batches row) (run_truncated row =? 1) (run_outcome row) (default 0 (run_finished row)).
Definition run_finish_eqb (x y : run_finish) : bool :=
  (finish_id x =? finish_id y) && (finish_scanned x =? finish_scanned y) && (finish_relays x =? finish_relays y) &&
  (finish_discoveries x =? finish_discoveries y) && (finish_observations x =? finish_observations y) &&
  (finish_events x =? finish_events y) && (finish_skipped x =? finish_skipped y) && (finish_batches x =? finish_batches y) &&
  Bool.eqb (finish_truncated x) (finish_truncated y) && (finish_outcome x ≟ finish_outcome y) && (finish_at x =? finish_at y).
(** Finalization may not invent committed effects. *)
Definition contradicts_checkpoint (f : run_finish) (row : run_row) : bool :=
  negb (finish_relays f =? run_relays row) || negb (finish_discoveries f =? run_discoveries row) ||
  negb (finish_observations f =? run_observations row) || negb (finish_events f =? run_events row) ||
  negb (finish_skipped f =? run_skipped row) || (finish_batches f <? run_batches row) || (finish_scanned f <? run_scanned row) ||
  ((finish_outcome f ≟ RetentionCompleted) &&
   (negb (finish_scanned f =? run_scanned row) || negb (finish_batches f =? run_batches row))).
Definition finish_row (f : run_finish) (row : run_row) : run_row :=
  RunRow (run_policy row) (run_days row) (run_observed row) (run_cutoff row) (run_backup row) (run_started row)
    (finish_scanned f) (finish_relays f) (finish_discoveries f) (finish_observations f) (finish_events f) (finish_skipped f)
    (finish_batches f) (if finish_truncated f then 1 else 0) (finish_outcome f) (Some (finish_at f)).

Definition FinishRetentionRun (c : call) (f : run_finish) (s : retention_store) : result error unit * retention_store :=
  statements c
    (ensure (valid_run_finish f) ErrRetentionWriteInput ;;
     row ← failing "read retention run audit for finalization" (select (λ s, retention_runs s !! finish_id f) ≫= λ run,
             match run with Some row => mret row | None => fail ErrBackend end);
     ensure (negb ((run_outcome row ≟ RetentionRunning) && negb (run_policy row =? RetentionPolicyVersion))) ErrRetentionWriteInput ;;
     if negb (run_outcome row ≟ RetentionRunning) then
       ensure (not_null (run_finished row)) ErrRetentionWriteInput ;;
       ensure (run_finish_eqb (recorded_finish (finish_id f) row) f) ErrRetentionWriteInput
     else
       ensure (negb (contradicts_checkpoint f row)) ErrRetentionWriteInput ;;
       acquire_write c ;;
       count ← failing "finish retention run audit" (execute (update_run (finish_id f) (finish_row f)));
       failing "inspect retention run finalization" call_driver ;;
       ensure (count =? 1) ErrRetentionWriteInput) s.

(** ** run.go *)

Record purge_result := PurgeResult {
  result_observed : Z; result_cutoff : Z; result_count : Z; result_oldest : option Z; result_newest : option Z;
  result_batches : Z; result_truncated : bool;
  result_relays : Z; result_discoveries : Z; result_observations : Z; result_events : Z; result_skipped : Z }.
Definition no_result : purge_result := PurgeResult 0 0 0 None None 0 false 0 0 0 0 0.

(** [storage.RetentionRepository] and the context, over a world [W]. *)
Class RetentionWorld (W : Type) := {
  world_candidates : purge_query → W → result error purge_page * W;
  world_begin : run_start → W → result error Z * W;
  world_batch : Z → list purge_candidate → Z → W → result error batch_result * W;
  world_finish : run_finish → W → result error unit * W;
  world_done : W → bool }.

(** [errors.Is(err, context.Canceled) || errors.Is(err, context.DeadlineExceeded)] *)
Fixpoint is_context_error (e : error) : bool :=
  match e with ErrContext => true | ErrStorageFailure _ cause => is_context_error cause | _ => false end.

Definition purge_cursorAfter (candidate previous : purge_cursor) : bool :=
  if purge_cursor_eqb previous purge_start then true
  else if negb (purge_at candidate =? purge_at previous) then purge_at previous <? purge_at candidate
  else if negb (purge_actor candidate ≟ purge_actor previous) then key_ltb (purge_actor previous) (purge_actor candidate)
  else key_ltb (purge_kind previous) (purge_kind candidate).

Definition validRetentionDays (days : Z) : bool := (0 <=? days) && (days <=? MaximumInactiveRetentionDays).
Definition retention_cutoff (days observedAt : Z) : result error (Z * Z) :=
  if negb (validRetentionDays days) then Err ErrRunnerConfiguration
  else
    let observed := unix_of observedAt in
    if observed <? 0 then Err ErrRunnerConfiguration
    else
      let seconds := days * 86400 in
      if observed <? seconds then Err ErrRunnerConfiguration else Ok (observed, observed - seconds).

Section Runner.
Context `{RelayIdentity}.

(** [validatePage]; the position runs over the page *)
Fixpoint valid_positions (cutoff : Z) (position : purge_cursor) (candidates : list purge_candidate) : option purge_cursor :=
  match candidates with
  | [] => Some position
  | c :: rest =>
      if negb (canonical_actor (purged_actor c)) || negb (purge_candidate_valid c) || (cutoff <? inactive_unix c) ||
         negb (purge_cursorAfter (purge_position c) position) then None
      else valid_positions cutoff (purge_position c) rest
  end.
Definition validatePurgePage (page : purge_page) (previous : purge_cursor) (limit cutoff : Z) : bool :=
  if limit <? Z.of_nat (length (purge_candidates page)) then false
  else if (length (purge_candidates page) =? 0)%nat then purge_cursor_eqb (purge_next page) purge_start
  else
    match valid_positions cutoff previous (purge_candidates page) with
    | None => false
    | Some position =>
        if purge_cursor_eqb (purge_next page) purge_start then true
        else purge_cursor_valid (purge_next page) && purge_cursor_eqb (purge_next page) position
    end.

(** The counters of one page: batches, candidates, oldest and newest. *)
Definition scan_page (candidates : list purge_candidate) (r : purge_result) : purge_result :=
  PurgeResult (result_observed r) (result_cutoff r) (result_count r + Z.of_nat (length candidates))
    (match result_oldest r with None => inactive_unix <$> head candidates | oldest => oldest end)
    (match list.last candidates with Some c => Some (inactive_unix c) | None => result_newest r end)
    (result_batches r + 1) (result_truncated r) (result_relays r) (result_discoveries r) (result_observations r) (result_events r)
    (result_skipped r).
Definition truncate_result (r : purge_result) : purge_result :=
  PurgeResult (result_observed r) (result_cutoff r) (result_count r) (result_oldest r) (result_newest r) (result_batches r) true
    (result_relays r) (result_discoveries r) (result_observations r) (result_events r) (result_skipped r).
Definition add_batch (batch : batch_result) (r : purge_result) : purge_result :=
  PurgeResult (result_observed r) (result_cutoff r) (result_count r) (result_oldest r) (result_newest r) (result_batches r)
    (result_truncated r) (result_relays r + batch_relays batch) (result_discoveries r + batch_discoveries batch)
    (result_observations r + batch_observations batch) (result_events r + batch_events batch) (result_skipped r + batch_skipped batch).

Definition batch_consistent (candidates : list purge_candidate) (batch : batch_result) : bool :=
  let primary := batch_relays batch + batch_discoveries batch in
  negb (negb (batch_attempted batch =? Z.of_nat (length candidates)) || (batch_relays batch <? 0) || (batch_discoveries batch <? 0) ||
        (batch_observations batch <? 0) || (primary <? batch_observations batch) || (batch_events batch <? 0) ||
        (batch_skipped batch <? 0) || negb (primary + batch_skipped batch =? batch_attempted batch)).

Definition purge_page_limit (r : purge_result) : Z := Z.min MaximumPurgeCandidatePage (MaximumPurgeAttemptsPerRun - result_count r).

Section World.
Context {W : Type} `{RetentionWorld W}.

(** The destructive loop; [None] only without fuel. *)
Fixpoint retention_loop (fuel : nat) (runID : Z) (cursor : purge_cursor) (r : purge_result) (w : W) : option (purge_result * option error * W) :=
  match fuel with
  | O => None
  | S fuel =>
      if negb (result_count r <? MaximumPurgeAttemptsPerRun) then Some (r, None, w)
      else if world_done w then Some (r, Some ErrContext, w)
      else
        let limit := purge_page_limit r in
        let '(answer, w) := world_candidates (PurgeQuery cursor limit (time_of_unix (result_cutoff r))) w in
        match answer with
        | Err e => Some (r, Some e, w)
        | Ok page =>
            if negb (validatePurgePage page cursor limit (result_cutoff r)) then Some (r, Some ErrRunnerConfiguration, w)
            else if (length (purge_candidates page) =? 0)%nat then Some (r, None, w)
            else
              let r := scan_page (purge_candidates page) r in
              let '(answer, w) := world_batch runID (purge_candidates page) (time_of_unix (result_cutoff r)) w in
              match answer with
              | Err e => Some (r, Some e, w)
              | Ok batch =>
                  if negb (batch_consistent (purge_candidates page) batch) then Some (r, Some ErrRunnerConfiguration, w)
                  else
                    let r := add_batch batch r in
                    if purge_cursor_eqb (purge_next page) purge_start then Some (r, None, w)
                    else if result_count r =? MaximumPurgeAttemptsPerRun then Some (truncate_result r, None, w)
                    else retention_loop fuel runID (purge_next page) r w
              end
        end
  end.

Definition retention_fuel : nat := Z.to_nat (MaximumPurgeAttemptsPerRun + 1).
Definition retention_outcome (e : option error) : string :=
  match e with
  | None => RetentionCompleted
  | Some e => if is_context_error e then RetentionCanceled else RetentionFailed
  end.
Definition finish_of (runID : Z) (r : purge_result) (outcome : string) : run_finish :=
  RunFinish runID (result_count r) (result_relays r) (result_discoveries r) (result_observations r) (result_events r)
    (result_skipped r) (result_batches r) (result_truncated r) outcome (result_observed r).

(** [retention.Run]: the result, the run's error and the error of its
    finalization ([errors.Join] keeps both). *)
Definition RetentionRun (days observedAt : Z) (backup : string) (w : W) : option (purge_result * option error * option error * W) :=
  if (days <=? 0) || negb (validRetentionDays days) || negb (hex_digest backup) then Some (no_result, Some ErrRunnerConfiguration, None, w)
  else
    match retention_cutoff days observedAt with
    | Err e => Some (no_result, Some e, None, w)
    | Ok (observed, cutoff) =>
        if world_done w then Some (no_result, Some ErrContext, None, w)
        else
          let '(started, w) := world_begin (RunStart RetentionPolicyVersion days observed cutoff backup observed) w in
          match started with
          | Err e => Some (no_result, Some e, None, w)
          | Ok runID =>
              match retention_loop retention_fuel runID purge_start (PurgeResult observed cutoff 0 None None 0 false 0 0 0 0 0) w with
              | None => None
              | Some (r, runErr, w) =>
                  let '(finished, w) := world_finish (finish_of runID r (retention_outcome runErr)) w in
                  Some (r, runErr, match finished with Ok _ => None | Err e => Some e end, w)
              end
          end
    end.

(** The read-only twin of the loop. *)
Fixpoint summarize_loop (fuel : nat) (cursor : purge_cursor) (r : purge_result) (w : W) : option (purge_result * option error * W) :=
  match fuel with
  | O => None
  | S fuel =>
      if negb (result_count r <? MaximumPurgeAttemptsPerRun) then Some (r, None, w)
      else
        let limit := purge_page_limit r in
        let '(answer, w) := world_candidates (PurgeQuery cursor limit (time_of_unix (result_cutoff r))) w in
        match answer with
        | Err e => Some (r, Some e, w)
        | Ok page =>
            if negb (validatePurgePage page cursor limit (result_cutoff r)) then Some (r, Some ErrRunnerConfiguration, w)
            else if (length (purge_candidates page) =? 0)%nat then Some (r, None, w)
            else
              let r := scan_page (purge_candidates page) r in
              if purge_cursor_eqb (purge_next page) purge_start then Some (r, None, w)
              else if result_count r =? MaximumPurgeAttemptsPerRun then Some (truncate_result r, None, w)
              else summarize_loop fuel (purge_next page) r w
        end
  end.
Definition Summarize (days observedAt : Z) (w : W) : option (purge_result * option error * W) :=
  if negb (validRetentionDays days) then Some (no_result, Some ErrRunnerConfiguration, w)
  else
    match retention_cutoff days observedAt with
    | Err e => Some (no_result, Some e, w)
    | Ok (observed, cutoff) =>
        let summary := PurgeResult observed cutoff 0 None None 0 false 0 0 0 0 0 in
        if days =? 0 then Some (summary, None, w)
        else if world_done w then Some (summary, Some ErrContext, w)
        else summarize_loop retention_fuel purge_start summary w
    end.
End World.
End Runner.

(** The repository itself as the world, undisturbed and never canceled. *)
#[export] Instance repository_retention `{RelayIdentity} : RetentionWorld retention_store := {|
  world_candidates q s := (PurgeCandidates plain_call q (retention_db s), s);
  world_begin start s := BeginRetentionRun plain_call start s;
  world_batch runID candidates cutoffAt s := PurgeBatch plain_call runID candidates cutoffAt s;
  world_finish f s := FinishRetentionRun plain_call f s;
  world_done _ := false |}.
