(* ===== verification/RetentionPurge.v ===== *)
(** * RetentionPurge: what one destructive batch deletes

    [purge_store] says by table what a batch over a list of candidates deletes: the
    relays and discoveries whose whole candidate, versions included, the list names,
    and what hangs from them.  The loop of [PurgeBatch] does exactly this, under any
    driver outcomes, or nothing. *)
From S2P Require Import Prelude GoNet Identity Vocabulary Store Session Repository Telemetry Profile Retention.
Local Open Scope string_scope.
Local Open Scope Z_scope.
Local Open Scope go_scope.
Local Open Scope list_scope.

#[global] Instance purge_candidate_eq_dec : EqDecision purge_candidate.
Proof. solve_decision. Defined.

(** ** The specification *)

(** A candidate with the fields its kind does not read zeroed. *)
Definition versioned (c : purge_candidate) : purge_candidate :=
  if purged_kind c ≟ PurgeCandidateLifecycle then
    PurgeCandidate (purged_kind c) (purged_actor c) (purged_lifecycle c) (inactive_unix c) (purged_updated c)
      (latest_relay_id c) (latest_moderation_id c) 0 (observation_revision c)
  else
    PurgeCandidate (purged_kind c) (purged_actor c) (purged_lifecycle c) (inactive_unix c) (purged_updated c)
      0 0 (latest_discovery_id c) (observation_revision c).
Definition listed_in (l : list purge_candidate) (c : purge_candidate) : bool := existsb (λ x, bool_decide (versioned x = c)) l.

Section Purge.
Context (cutoff : Z).

Definition purges_relay (l : list purge_candidate) (d : db) (a : string) (r : relay_row) : bool :=
  relay_inactive cutoff r && listed_in l (lifecycle_candidate d a r).
Definition purges_discovery (l : list purge_candidate) (d : db) (a : string) (r : discovery_row) : bool :=
  discovery_inactive cutoff r && listed_in l (discovery_candidate d a r).
Definition relay_purged (l : list purge_candidate) (d : db) (a : string) : bool :=
  match relays d !! a with Some r => purges_relay l d a r | None => false end.
Definition discovery_purged (l : list purge_candidate) (d : db) (a : string) : bool :=
  match discoveries d !! a with Some r => purges_discovery l d a r | None => false end.
(** Something of [a] was purged and no relay or discovery of it remains. *)
Definition unowned (l : list purge_candidate) (d : db) (a : string) : bool :=
  (relay_purged l d a || discovery_purged l d a) &&
  (is_null (relays d !! a) || relay_purged l d a) && (is_null (discoveries d !! a) || discovery_purged l d a).

Definition dropping {V} (gone : string → bool) (m : gmap string V) : gmap string V :=
  filter (λ e : string * V, gone e.1 = false) m.
Definition purge_db (l : list purge_candidate) (d : db) : db :=
  set_diagnostics (dropping (λ a, unowned l d a && not_null (observations d !! a)) (diagnostics d))
    (set_observations (dropping (unowned l d) (observations d))
      (set_discoveries (dropping (discovery_purged l d) (discoveries d))
        (set_relay_events (List.filter (λ e, negb (relay_purged l d (event_actor e))) (relay_events d)) (relay_event_seq d)
          (set_relays (dropping (relay_purged l d) (relays d)) d)))).
Definition purge_store (l : list purge_candidate) (s : retention_store) : retention_store :=
  let d := retention_db s in
  RetentionStore (purge_db l d) (dropping (relay_purged l d) (retention_telemetry s))
    (filter (λ e : profile_key * profile_row, unowned l d e.1.1 = false) (retention_profiles s))
    (retention_runs s) (retention_run_seq s) (events_guarded s).

Lemma dropping_lookup {V} gone (m : gmap string V) a : dropping gone m !! a = if gone a then None else m !! a.
Proof.
  unfold dropping. destruct (gone a) eqn:E.
  - apply map_lookup_filter_None. right. intros v _. simpl. by rewrite E.
  - destruct (m !! a) as [v|] eqn:Hm; [by apply map_lookup_filter_Some|]. apply map_lookup_filter_None. by left.
Qed.

(** ** Purging in pieces *)

Lemma relays_purge l d a : relays (purge_db l d) !! a = if relay_purged l d a then None else relays d !! a.
Proof. apply dropping_lookup. Qed.
Lemma discoveries_purge l d a : discoveries (purge_db l d) !! a = if discovery_purged l d a then None else discoveries d !! a.
Proof. apply dropping_lookup. Qed.
Lemma observations_purge l d a : observations (purge_db l d) !! a = if unowned l d a then None else observations d !! a.
Proof. apply dropping_lookup. Qed.
Lemma relay_purged_row l d a : relay_purged l d a = true → is_Some (relays d !! a).
Proof. unfold relay_purged. by destruct (relays d !! a). Qed.
Lemma discovery_purged_row l d a : discovery_purged l d a = true → is_Some (discoveries d !! a).
Proof. unfold discovery_purged. by destruct (discoveries d !! a). Qed.

(** The candidate of a row that stays is what it was. *)
Lemma purge_latest_event l d a : relay_purged l d a = false → latest_event_id a (purge_db l d) = latest_event_id a d.
Proof.
  intros Ha. unfold latest_event_id. simpl. rewrite filter_filter_on; [done|].
  intros e _ He%String.eqb_eq. rewrite He. by rewrite Ha.
Qed.
Lemma purge_revision l d a : unowned l d a = false → revision_or_zero a (purge_db l d) = revision_or_zero a d.
Proof. intros Ha. unfold revision_or_zero. rewrite observations_purge. by rewrite Ha. Qed.
Lemma kept_relay_owns l d a r : relays d !! a = Some r → relay_purged l d a = false → unowned l d a = false.
Proof. intros Hr Ha. unfold unowned. rewrite Ha, Hr. simpl. by rewrite andb_false_r. Qed.
Lemma kept_discovery_owns l d a r : discoveries d !! a = Some r → discovery_purged l d a = false → unowned l d a = false.
Proof. intros Hr Ha. unfold unowned. rewrite Ha, Hr. simpl. by rewrite !andb_false_r. Qed.
Lemma lifecycle_candidate_kept l d a r : relays d !! a = Some r → relay_purged l d a = false →
  lifecycle_candidate (purge_db l d) a r = lifecycle_candidate d a r.
Proof.
  intros Hr Ha. unfold lifecycle_candidate. rewrite purge_latest_event by done.
  by rewrite purge_revision by (by eapply kept_relay_owns).
Qed.
Lemma discovery_candidate_kept l d a r : discoveries d !! a = Some r → discovery_purged l d a = false →
  discovery_candidate (purge_db l d) a r = discovery_candidate d a r.
Proof.
  intros Hr Ha. unfold discovery_candidate. by rewrite purge_revision by (by eapply kept_discovery_owns).
Qed.

Lemma listed_in_app l1 l2 c : listed_in (l1 ++ l2) c = listed_in l1 c || listed_in l2 c.
Proof. apply existsb_app. Qed.
Lemma relay_purged_app l1 l2 d a : relay_purged (l1 ++ l2) d a = relay_purged l1 d a || relay_purged l2 (purge_db l1 d) a.
Proof.
  destruct (relay_purged l1 d a) eqn:E; unfold relay_purged at 2; unfold relay_purged at 1; rewrite ?relays_purge, ?E.
  - unfold relay_purged in E. destruct (relays d !! a); [|done]. unfold purges_relay in *. rewrite listed_in_app. bool_facts.
    by rewrite H, H0.
  - destruct (relays d !! a) as [r|] eqn:Hr; [|done]. unfold purges_relay. rewrite (lifecycle_candidate_kept l1) by done.
    rewrite listed_in_app. unfold relay_purged in E. rewrite Hr in E. unfold purges_relay in E.
    destruct (relay_inactive cutoff r); [|done]. simpl in *. by rewrite E.
Qed.
Lemma discovery_purged_app l1 l2 d a :
  discovery_purged (l1 ++ l2) d a = discovery_purged l1 d a || discovery_purged l2 (purge_db l1 d) a.
Proof.
  destruct (discovery_purged l1 d a) eqn:E; unfold discovery_purged at 2; unfold discovery_purged at 1; rewrite ?discoveries_purge, ?E.
  - unfold discovery_purged in E. destruct (discoveries d !! a); [|done]. unfold purges_discovery in *. rewrite listed_in_app. bool_facts.
    by rewrite H, H0.
  - destruct (discoveries d !! a) as [r|] eqn:Hr; [|done]. unfold purges_discovery. rewrite (discovery_candidate_kept l1) by done.
    rewrite listed_in_app. unfold discovery_purged in E. rewrite Hr in E. unfold purges_discovery in E.
    destruct (discovery_inactive cutoff r); [|done]. simpl in *. by rewrite E.
Qed.
Lemma unowned_app l1 l2 d a : unowned (l1 ++ l2) d a = unowned l1 d a || unowned l2 (purge_db l1 d) a.
Proof.
  unfold unowned. rewrite relay_purged_app, discovery_purged_app, relays_purge, discoveries_purge.
  pose proof (relay_purged_row l1 d a) as Hr. pose proof (discovery_purged_row l1 d a) as Hd.
  pose proof (relay_purged_row l2 (purge_db l1 d) a) as Hr2. pose proof (discovery_purged_row l2 (purge_db l1 d) a) as Hd2.
  rewrite relays_purge in Hr2. rewrite discoveries_purge in Hd2.
  destruct (relay_purged l1 d a), (discovery_purged l1 d a), (relay_purged l2 (purge_db l1 d) a), (discovery_purged l2 (purge_db l1 d) a),
    (relays d !! a), (discoveries d !! a); simpl; try done;
    repeat match goal with H : true = true → is_Some None |- _ => destruct (H eq_refl); discriminate end.
Qed.
End Purge.

Lemma db_ext d d' :
  relays d = relays d' → relay_events d = relay_events d' → relay_event_seq d = relay_event_seq d' →
  moderation_events d = moderation_events d' → moderation_event_seq d = moderation_event_seq d' → policy d = policy d' →
  enrollment_events d = enrollment_events d' → discoveries d = discoveries d' → discovery_events d = discovery_events d' →
  discovery_event_seq d = discovery_event_seq d' → observations d = observations d' → diagnostics d = diagnostics d' →
  replay_reservations d = replay_reservations d' → d = d'.
Proof. destruct d, d'; simpl. by intros -> -> -> -> -> -> -> -> -> -> -> -> ->. Qed.

Section PurgeTwice.
Context (cutoff : Z).

Lemma dropping_or {V} (g g1 g2 : string → bool) (m : gmap string V) :
  (∀ a, is_Some (m !! a) → g a = g1 a || g2 a) → dropping g m = dropping g2 (dropping g1 m).
Proof.
  intros Hg. apply map_eq. intros a. rewrite !dropping_lookup. destruct (m !! a) eqn:Hm.
  - rewrite Hg by eauto. by destruct (g1 a), (g2 a).
  - by destruct (g a), (g1 a), (g2 a).
Qed.
Lemma dropping_none {V} (g : string → bool) (m : gmap string V) : (∀ a, is_Some (m !! a) → g a = false) → dropping g m = m.
Proof.
  intros Hg. apply map_eq. intros a. rewrite dropping_lookup. destruct (m !! a) eqn:Hm; [by rewrite Hg by eauto|by destruct (g a)].
Qed.
Lemma dropping_one {V} (g : string → bool) a (m : gmap string V) :
  (∀ b, is_Some (m !! b) → g b = bool_decide (b = a)) → dropping g m = delete a m.
Proof.
  intros Hg. apply map_eq. intros b. rewrite dropping_lookup. destruct (m !! b) eqn:Hm.
  - rewrite Hg by eauto. case_bool_decide as Hb; [by rewrite Hb, lookup_delete_eq|by rewrite lookup_delete_ne].
  - destruct (decide (b = a)) as [->|Hb]; [rewrite lookup_delete_eq|rewrite lookup_delete_ne, Hm by done]; by destruct (g _).
Qed.

Lemma purge_db_app l1 l2 d : purge_db cutoff (l1 ++ l2) d = purge_db cutoff l2 (purge_db cutoff l1 d).
Proof.
  apply db_ext; try done.
  - apply dropping_or. intros a _. apply relay_purged_app.
  - change (List.filter (λ e, negb (relay_purged cutoff (l1 ++ l2) d (event_actor e))) (relay_events d) =
            List.filter (λ e, negb (relay_purged cutoff l2 (purge_db cutoff l1 d) (event_actor e)))
              (List.filter (λ e, negb (relay_purged cutoff l1 d (event_actor e))) (relay_events d))).
    induction (relay_events d) as [|e es IH]; [done|]. cbn [List.filter]. rewrite relay_purged_app, negb_orb.
    destruct (relay_purged cutoff l1 d (event_actor e)); cbn [negb andb List.filter]; [done|].
    destruct (relay_purged cutoff l2 (purge_db cutoff l1 d) (event_actor e)); cbn [negb]; by rewrite IH.
  - apply dropping_or. intros a _. apply discovery_purged_app.
  - apply dropping_or. intros a _. apply unowned_app.
  - apply dropping_or. intros a _. rewrite unowned_app, observations_purge.
    by destruct (unowned cutoff l1 d a), (unowned cutoff l2 (purge_db cutoff l1 d) a), (observations d !! a).
Qed.

Lemma filter_profiles_or (g g1 g2 : string → bool) (m : profile_table) : (∀ a, g a = g1 a || g2 a) →
  filter (λ e : profile_key * profile_row, g e.1.1 = false) m =
  filter (λ e : profile_key * profile_row, g2 e.1.1 = false) (filter (λ e : profile_key * profile_row, g1 e.1.1 = false) m).
Proof.
  intros Hg. rewrite map_filter_filter. apply map_filter_ext. intros k r _. simpl. rewrite Hg, orb_false_iff. tauto.
Qed.
Lemma purge_store_app l1 l2 s : purge_store cutoff (l1 ++ l2) s = purge_store cutoff l2 (purge_store cutoff l1 s).
Proof.
  unfold purge_store. cbn [retention_db retention_telemetry retention_profiles retention_runs retention_run_seq events_guarded].
  rewrite purge_db_app. f_equal; [apply dropping_or|apply filter_profiles_or]; intros a; [intros _; apply relay_purged_app|apply unowned_app].
Qed.

(** Candidates naming no row as it is delete nothing. *)
Definition inert (l : list purge_candidate) (d : db) : Prop :=
  ∀ a, relay_purged cutoff l d a = false ∧ discovery_purged cutoff l d a = false.
Lemma purge_inert l s : inert l (retention_db s) → purge_store cutoff l s = s.
Proof.
  intros Hi. destruct s as [d t p r q g]. unfold purge_store.
  cbn [retention_db retention_telemetry retention_profiles retention_runs retention_run_seq events_guarded] in *.
  assert (Hu : ∀ a, unowned cutoff l d a = false) by (intros a; unfold unowned; by destruct (Hi a) as [-> ->]). f_equal.
  - apply db_ext; try done.
    + apply dropping_none. intros a _. by apply Hi.
    + apply filter_all_true. intros e _. destruct (Hi (event_actor e)) as [He _]. simpl. by rewrite He.
    + apply dropping_none. intros a _. by apply Hi.
    + apply dropping_none. intros a _. apply Hu.
    + apply dropping_none. intros a _. by rewrite Hu.
  - apply dropping_none. intros a _. by apply Hi.
  - apply map_filter_id. intros k row _. apply Hu.
Qed.
End PurgeTwice.

(** ** One candidate *)

Section PurgeOne.
Context (cutoff : Z).
Implicit Types (c : purge_candidate) (s : retention_store) (d : db).

Definition current (c : purge_candidate) (d : db) : bool :=
  relay_purged cutoff [c] d (purged_actor c) || discovery_purged cutoff [c] d (purged_actor c).

Lemma listed_one c x : listed_in [c] x = bool_decide (versioned c = x).
Proof. unfold listed_in. simpl. by rewrite orb_false_r. Qed.
Lemma versioned_names c : purged_actor (versioned c) = purged_actor c ∧ purged_kind (versioned c) = purged_kind c.
Proof. unfold versioned. by destruct (purged_kind c ≟ PurgeCandidateLifecycle). Qed.
Lemma relay_purged_one c d a : relay_purged cutoff [c] d a = true → a = purged_actor c ∧ purged_kind c = PurgeCandidateLifecycle.
Proof.
  unfold relay_purged. destruct (relays d !! a) as [r|]; [|done]. unfold purges_relay. rewrite listed_one.
  intros [_ Hc%bool_decide_eq_true]%andb_true_iff. destruct (versioned_names c) as [<- <-]. by rewrite Hc.
Qed.
Lemma discovery_purged_one c d a : discovery_purged cutoff [c] d a = true → a = purged_actor c ∧ purged_kind c = PurgeCandidateDiscovery.
Proof.
  unfold discovery_purged. destruct (discoveries d !! a) as [r|]; [|done]. unfold purges_discovery. rewrite listed_one.
  intros [_ Hc%bool_decide_eq_true]%andb_true_iff. destruct (versioned_names c) as [<- <-]. by rewrite Hc.
Qed.
Lemma relay_purged_other c d a : a ≠ purged_actor c → relay_purged cutoff [c] d a = false.
Proof. intros Ha. destruct (relay_purged cutoff [c] d a) eqn:E; [|done]. by apply relay_purged_one in E as [? _]. Qed.
Lemma discovery_purged_other c d a : a ≠ purged_actor c → discovery_purged cutoff [c] d a = false.
Proof. intros Ha. destruct (discovery_purged cutoff [c] d a) eqn:E; [|done]. by apply discovery_purged_one in E as [? _]. Qed.

Lemma inactive_lifecycle r : inactive_since r ≠ None →
  (lifecycle_state r ≟ lifecycleUnregistered) || (lifecycle_state r ≟ lifecyclePruned) = true.
Proof. unfold inactive_since. by destruct (lifecycle_state r ≟ lifecycleUnregistered), (lifecycle_state r ≟ lifecyclePruned). Qed.

(** The comparison of [retentionStateMatches] is equality with the row's own candidate. *)
Lemma matches_relay c d : purge_candidate_valid c = true → purged_kind c = PurgeCandidateLifecycle →
  match lifecycle_state_of (purged_actor c) d with Some st => retentionStateMatches c st cutoff | None => false end =
  relay_purged cutoff [c] d (purged_actor c).
Proof.
  intros Hv Hk. unfold lifecycle_state_of, relay_purged. destruct (relays d !! purged_actor c) as [r|]; [|done]. simpl.
  unfold purges_relay. rewrite listed_one. destruct c as [k a lc i u ri mi di ob]. simpl in *. subst k.
  unfold purge_candidate_valid in Hv. simpl in Hv. destruct ((a ≟ "") || _ || _ || _) eqn:E0; [done|]. bool_facts.
  apply eq_true_iff_eq. unfold retentionStateMatches, or_minus_one, relay_inactive, lifecycle_candidate, versioned. simpl.
  rewrite andb_true_iff, bool_decide_eq_true. split.
  - destruct (inactive_since r) as [v|] eqn:Hi; simpl.
    + intros Hm. destruct (negb (v =? i) || _ || _ || _) eqn:E; [done|]. bool_facts. subst.
      rewrite (proj2 (String.eqb_eq (administrative_state r) administrativeActive)), inactive_lifecycle by (done || by rewrite Hi).
      rewrite (proj2 (Z.leb_le _ _)) by done.
      split; [done|]. by f_equal.
    + destruct i; [done|done|lia].
  - intros [Hin [= -> -> -> -> -> ->]]. bool_facts. destruct (inactive_since r) as [v|]; [|done]. simpl in *. bool_facts.
    rewrite !Z.eqb_refl, (proj2 (Z.ltb_ge _ _)) by done. simpl. by rewrite String.eqb_refl, (proj2 (String.eqb_eq (administrative_state r) administrativeActive)).
Qed.
Lemma matches_discovery c d : purge_candidate_valid c = true → purged_kind c = PurgeCandidateDiscovery →
  match discovery_state_of (purged_actor c) d with Some st => retentionStateMatches c st cutoff | None => false end =
  discovery_purged cutoff [c] d (purged_actor c).
Proof.
  intros Hv Hk. unfold discovery_state_of, discovery_purged. destruct (discoveries d !! purged_actor c) as [r|]; [|done]. simpl.
  unfold purges_discovery. rewrite listed_one. destruct c as [k a lc i u ri mi di ob]. simpl in *. subst k.
  unfold purge_candidate_valid in Hv. simpl in Hv. destruct ((a ≟ "") || _ || _ || _) eqn:E0; [done|]. bool_facts. subst.
  apply eq_true_iff_eq. unfold retentionStateMatches, or_minus_one, discovery_inactive, discovery_candidate, versioned. simpl.
  rewrite andb_true_iff, bool_decide_eq_true. split.
  - destruct (discovery_removed_at r) as [v|] eqn:Hi; simpl.
    + intros Hm. destruct (negb (v =? i) || _ || _ || _) eqn:E; [done|]. bool_facts. subst.
      rewrite (proj2 (String.eqb_eq (discovery_state r) _)), (proj2 (Z.leb_le _ _)) by done. split; [done|]. by f_equal.
    + destruct i; [done|done|lia].
  - intros [Hin [= -> -> -> ->]]. bool_facts. destruct (discovery_removed_at r) as [v|]; [|done]. simpl in *. bool_facts.
    rewrite !Z.eqb_refl, (proj2 (Z.ltb_ge _ _)) by done. simpl. by rewrite (proj2 (String.eqb_eq (discovery_state r) _)).
Qed.

(** ** The counters *)

Definition shrunk {V} (m m' : gmap string V) : Z := Z.of_nat (size m) - Z.of_nat (size m').
Definition counted (l : list purge_candidate) (d : db) (r : batch_result) : batch_result :=
  let d' := purge_db cutoff l d in
  let relays := shrunk (relays d) (relays d') in
  let discoveries := shrunk (discoveries d) (discoveries d') in
  BatchResult (batch_attempted r) (batch_relays r + relays) (batch_discoveries r + discoveries)
    (batch_observations r + shrunk (observations d) (observations d'))
    (batch_events r + (Z.of_nat (length (relay_events d)) - Z.of_nat (length (relay_events d'))))
    (batch_skipped r + (Z.of_nat (length l) - relays - discoveries)).

Lemma counted_app l1 l2 d r : counted (l1 ++ l2) d r = counted l2 (purge_db cutoff l1 d) (counted l1 d r).
Proof. unfold counted, shrunk. cbv zeta. rewrite purge_db_app, length_app. simpl. f_equal; lia. Qed.

Lemma shrunk_delete {V} (m : gmap string V) a : is_Some (m !! a) → shrunk m (delete a m) = 1.
Proof. intros [v Hv]. unfold shrunk. rewrite map_size_delete_Some by eauto. pose proof (map_size_ne_0_lookup_2 m a ltac:(eauto)). lia. Qed.
Lemma shrunk_same {V} (m : gmap string V) : shrunk m m = 0.
Proof. unfold shrunk. lia. Qed.

Lemma unowned_one c d a : unowned cutoff [c] d a = bool_decide (a = purged_actor c) && current c d &&
  (is_null (relays d !! a) || relay_purged cutoff [c] d a) && (is_null (discoveries d !! a) || discovery_purged cutoff [c] d a).
Proof.
  unfold unowned, current. case_bool_decide as Ha; [by rewrite Ha|].
  rewrite relay_purged_other, discovery_purged_other by done. done.
Qed.

(** Skipping a stale candidate. *)
Lemma stale_inert c d : current c d = false → inert cutoff [c] d.
Proof.
  unfold current. intros [Hr Hd]%orb_false_iff a. destruct (decide (a = purged_actor c)) as [->|Ha]; [done|].
  by rewrite relay_purged_other, discovery_purged_other.
Qed.
End PurgeOne.

(** ** The arms of the batch *)

Section PurgeArms.
Context (cutoff : Z).
Implicit Types (c : purge_candidate) (s : retention_store) (d : db).

Lemma relay_gone_one c d : relay_purged cutoff [c] d (purged_actor c) = true →
  ∀ b, relay_purged cutoff [c] d b = bool_decide (b = purged_actor c).
Proof. intros Hc b. case_bool_decide as Hb; [by rewrite Hb|by apply relay_purged_other]. Qed.
Lemma discovery_gone_one c d : discovery_purged cutoff [c] d (purged_actor c) = true →
  ∀ b, discovery_purged cutoff [c] d b = bool_decide (b = purged_actor c).
Proof. intros Hc b. case_bool_decide as Hb; [by rewrite Hb|by apply discovery_purged_other]. Qed.
Lemma relay_kept_discovery c d : purged_kind c = PurgeCandidateDiscovery → ∀ b, relay_purged cutoff [c] d b = false.
Proof. intros Hk b. destruct (relay_purged cutoff [c] d b) eqn:E; [|done]. apply relay_purged_one in E as [_ E]. by rewrite E in Hk. Qed.
Lemma discovery_kept_relay c d : purged_kind c = PurgeCandidateLifecycle → ∀ b, discovery_purged cutoff [c] d b = false.
Proof. intros Hk b. destruct (discovery_purged cutoff [c] d b) eqn:E; [|done]. apply discovery_purged_one in E as [_ E]. by rewrite E in Hk. Qed.

(** The identity of a purged candidate is unowned when the other table lacks it. *)
Lemma unowned_relay c d : relay_purged cutoff [c] d (purged_actor c) = true →
  ∀ b, unowned cutoff [c] d b = bool_decide (b = purged_actor c) && is_null (discoveries d !! b).
Proof.
  intros Hc b. rewrite unowned_one. unfold current. rewrite Hc. case_bool_decide as Hb; [|done]. rewrite Hb, Hc.
  destruct (relay_purged_one _ _ _ _ Hc) as [_ Hk]. rewrite (discovery_kept_relay c d Hk). simpl. by rewrite orb_true_r, orb_false_r.
Qed.
Lemma unowned_discovery c d : discovery_purged cutoff [c] d (purged_actor c) = true →
  ∀ b, unowned cutoff [c] d b = bool_decide (b = purged_actor c) && is_null (relays d !! b).
Proof.
  intros Hc b. rewrite unowned_one. unfold current. rewrite Hc. case_bool_decide as Hb; [|done]. rewrite Hb, Hc.
  destruct (discovery_purged_one _ _ _ _ Hc) as [_ Hk]. rewrite (relay_kept_discovery c d Hk). simpl. by rewrite !orb_true_r, orb_false_r, andb_true_r.
Qed.

(** What the purge of one candidate leaves of the identity's hanging rows. *)
Definition release_observation (free : bool) (a : string) (d : db) : db :=
  if free && not_null (observations d !! a)
  then set_diagnostics (delete a (diagnostics d)) (set_observations (delete a (observations d)) d) else d.
Definition release_profiles (free : bool) (a : string) (p : profile_table) : profile_table :=
  if free then drop_profiles a p else p.

Lemma released_observations c d (other : bool) :
  (∀ b, unowned cutoff [c] d b = bool_decide (b = purged_actor c) && other) →
  dropping (unowned cutoff [c] d) (observations d) =
  (if other && not_null (observations d !! purged_actor c) then delete (purged_actor c) (observations d) else observations d) ∧
  dropping (λ a, unowned cutoff [c] d a && not_null (observations d !! a)) (diagnostics d) =
  (if other && not_null (observations d !! purged_actor c) then delete (purged_actor c) (diagnostics d) else diagnostics d).
Proof.
  intros Hu. destruct (other && not_null (observations d !! purged_actor c)) eqn:E.
  - apply andb_true_iff in E as [-> E]. split; apply dropping_one; intros b _; rewrite Hu, andb_true_r; [done|].
    case_bool_decide as Hb; [by rewrite Hb, E|done].
  - split; apply dropping_none; intros b Hs; rewrite Hu.
    + case_bool_decide as Hb; [|done]. subst b. destruct other; [|done]. by destruct Hs as [? Hs]; rewrite Hs in E.
    + case_bool_decide as Hb; [|done]. by subst b.
Qed.
Lemma released_profiles c d (other : bool) (p : profile_table) :
  (∀ b, unowned cutoff [c] d b = bool_decide (b = purged_actor c) && other) →
  filter (λ e : profile_key * profile_row, unowned cutoff [c] d e.1.1 = false) p = release_profiles other (purged_actor c) p.
Proof.
  intros Hu. unfold release_profiles, drop_profiles. destruct other.
  - apply map_filter_ext. intros k r _. simpl. rewrite Hu, andb_true_r. apply bool_decide_eq_false.
  - apply map_filter_id. intros k r _. simpl. by rewrite Hu, andb_false_r.
Qed.

Lemma delete_unowned_run a (s : retention_store) : 
  delete_unowned_observation a s =
  Some (with_db (release_observation (negb (retained_identity a (retention_db s))) a (retention_db s)) s,
        if negb (retained_identity a (retention_db s)) && not_null (observations (retention_db s) !! a) then 1 else 0).
Proof.
  unfold delete_unowned_observation, release_observation. destruct (observations (retention_db s) !! a) as [o|].
  - destruct (retained_identity a (retention_db s)); [|done]. by destruct s.
  - rewrite andb_false_r. by destruct s.
Qed.

Lemma filter_one_events c d : relay_purged cutoff [c] d (purged_actor c) = true →
  List.filter (λ e, negb (relay_purged cutoff [c] d (event_actor e))) (relay_events d) =
  List.filter (λ e, negb (event_actor e ≟ purged_actor c)) (relay_events d).
Proof.
  intros Hc. apply filter_same. intros e _. rewrite (relay_gone_one c d Hc). f_equal.
  by case_bool_decide as He; destruct (String.eqb_spec (event_actor e) (purged_actor c)).
Qed.

Lemma purge_relay_store c s : relay_purged cutoff [c] (retention_db s) (purged_actor c) = true →
  let d := retention_db s in let a := purged_actor c in
  let kept := List.filter (λ e, negb (event_actor e ≟ a)) (relay_events d) in
  let d1 := set_relays (delete a (relays d)) (set_relay_events kept (relay_event_seq d) d) in
  purge_store cutoff [c] s =
  RetentionStore (release_observation (is_null (discoveries d !! a)) a d1) (delete a (retention_telemetry s))
    (release_profiles (is_null (discoveries d !! a)) a (retention_profiles s)) (retention_runs s) (retention_run_seq s) (events_guarded s).
Proof.
  intros Hc d a kept d1. pose proof (unowned_relay c d Hc) as Hu. destruct (relay_purged_one _ _ _ _ Hc) as [_ Hk].
  assert (Hu' : ∀ b, unowned cutoff [c] d b = bool_decide (b = purged_actor c) && is_null (discoveries d !! a)).
  { intros b. rewrite Hu. case_bool_decide as Hb; [|done]. by rewrite Hb. }
  destruct (released_observations c d _ Hu') as [Ho Hg]. fold a in Ho, Hg. unfold purge_store. fold d. f_equal.
  - unfold release_observation. change (observations d1 !! a) with (observations d !! a).
    apply db_ext; destruct (is_null (discoveries d !! a) && not_null (observations d !! a)); try done;
      try (by apply dropping_one; intros b _; apply relay_gone_one); try (by apply filter_one_events);
      try (by apply dropping_none; intros b _; apply discovery_kept_relay).
  - by apply dropping_one; intros b _; apply relay_gone_one.
  - apply (released_profiles c d _ _ Hu').
Qed.
Lemma purge_discovery_store c s : discovery_purged cutoff [c] (retention_db s) (purged_actor c) = true →
  let d := retention_db s in let a := purged_actor c in
  let d1 := set_discoveries (delete a (discoveries d)) d in
  purge_store cutoff [c] s =
  RetentionStore (release_observation (is_null (relays d !! a)) a d1) (retention_telemetry s)
    (release_profiles (is_null (relays d !! a)) a (retention_profiles s)) (retention_runs s) (retention_run_seq s) (events_guarded s).
Proof.
  intros Hc d a d1. pose proof (unowned_discovery c d Hc) as Hu. destruct (discovery_purged_one _ _ _ _ Hc) as [_ Hk].
  assert (Hu' : ∀ b, unowned cutoff [c] d b = bool_decide (b = purged_actor c) && is_null (relays d !! a)).
  { intros b. rewrite Hu. case_bool_decide as Hb; [|done]. by rewrite Hb. }
  destruct (released_observations c d _ Hu') as [Ho Hg]. fold a in Ho, Hg. unfold purge_store. fold d. f_equal.
  - unfold release_observation. change (observations d1 !! a) with (observations d !! a).
    apply db_ext; destruct (is_null (relays d !! a) && not_null (observations d !! a)); try done;
      try (by apply dropping_one; intros b _; apply discovery_gone_one);
      try (by apply filter_all_true; intros e _; rewrite (relay_kept_discovery c d Hk));
      by apply dropping_none; intros b _; apply relay_kept_discovery.
  - apply dropping_none; intros b _; by apply relay_kept_discovery.
  - apply (released_profiles c d _ _ Hu').
Qed.
End PurgeArms.

(** ** The loop *)

Section PurgeLoop.
Context (cutoff : Z).
Implicit Types (c : purge_candidate) (s : retention_store) (d : db).

Lemma read_state_run c s : purge_candidate_valid c = true →
  readRetentionState c (s, []) =
  (Ok (if purged_kind c ≟ PurgeCandidateLifecycle then lifecycle_state_of (purged_actor c) (retention_db s)
       else discovery_state_of (purged_actor c) (retention_db s)), (s, [])).
Proof.
  intros Hv. unfold readRetentionState. destruct (purged_kind c ≟ PurgeCandidateLifecycle) eqn:Hl; [done|].
  unfold purge_candidate_valid, PurgeCandidateKind_Valid in Hv. rewrite Hl in Hv. simpl in Hv.
  by destruct (purged_kind c ≟ PurgeCandidateDiscovery).
Qed.

(** The shared tail of both arms. *)
Lemma purge_observation_run c r s :
  let free := negb (retained_identity (purged_actor c) (retention_db s)) in
  purge_observation c r (s, []) =
  (Ok (add_observations (if free && not_null (observations (retention_db s) !! purged_actor c) then 1 else 0) r),
   (with_db (release_observation free (purged_actor c) (retention_db s)) s, [])).
Proof.
  intros free. unfold purge_observation. session_run. rewrite delete_unowned_run. fold free. session_run.
  by destruct (free && _).
Qed.

Lemma released_size free a d :
  shrunk (observations d) (observations (release_observation free a d)) = if free && not_null (observations d !! a) then 1 else 0.
Proof.
  unfold release_observation. destruct (free && not_null (observations d !! a)) eqn:E; [|apply shrunk_same].
  apply andb_true_iff in E as [_ E]. apply (shrunk_delete (observations d)). by destruct (observations d !! a).
Qed.
Lemma release_keeps free a d : let d' := release_observation free a d in
  relays d' = relays d ∧ discoveries d' = discoveries d ∧ relay_events d' = relay_events d.
Proof. unfold release_observation. by destruct (free && _). Qed.

Lemma relay_purged_facts c d : relay_purged cutoff [c] d (purged_actor c) = true →
  ∃ row, relays d !! purged_actor c = Some row ∧ administrative_state row = administrativeActive ∧ lifecycle_state row = purged_lifecycle c.
Proof.
  intros Hc. pose proof (relay_purged_one _ _ _ _ Hc) as [_ Hk]. unfold relay_purged in Hc.
  destruct (relays d !! purged_actor c) as [row|]; [|done]. exists row. unfold purges_relay, relay_inactive in Hc. rewrite listed_one in Hc.
  bool_facts. apply bool_decide_eq_true in H0. unfold versioned in H0. rewrite Hk in H0. by injection H0.
Qed.
Lemma discovery_purged_facts c d : discovery_purged cutoff [c] d (purged_actor c) = true →
  ∃ row, discoveries d !! purged_actor c = Some row ∧ discovery_state row = discoveryRemoved.
Proof.
  intros Hc. unfold discovery_purged in Hc. destruct (discoveries d !! purged_actor c) as [row|]; [|done]. exists row.
  unfold purges_discovery, discovery_inactive in Hc. by bool_facts.
Qed.

Lemma delete_relay_run a lc row s : relays (retention_db s) !! a = Some row →
  administrative_state row = administrativeActive → lifecycle_state row = lc →
  let d := retention_db s in let free := is_null (discoveries d !! a) in
  delete_relay a lc s =
  Some (RetentionStore (set_relays (delete a (relays d)) d) (delete a (retention_telemetry s))
          (release_profiles free a (retention_profiles s)) (retention_runs s) (retention_run_seq s) (events_guarded s), 1).
Proof.
  intros Hr Ha Hl d free. unfold delete_relay. rewrite Hr, Ha, Hl, !String.eqb_refl. cbn [andb]. unfold cleanup_profiles, retained_identity.
  cbn [relays set_relays discoveries]. rewrite lookup_delete_eq. unfold free, d, release_profiles.
  by destruct (discoveries (retention_db s) !! a).
Qed.
Lemma delete_discovery_run a row s : discoveries (retention_db s) !! a = Some row → discovery_state row = discoveryRemoved →
  let d := retention_db s in let free := is_null (relays d !! a) in
  delete_discovery a s =
  Some (RetentionStore (set_discoveries (delete a (discoveries d)) d) (retention_telemetry s)
          (release_profiles free a (retention_profiles s)) (retention_runs s) (retention_run_seq s) (events_guarded s), 1).
Proof.
  intros Hr Hl d free. unfold delete_discovery. rewrite Hr, Hl, String.eqb_refl. unfold cleanup_profiles, retained_identity.
  cbn [relays set_discoveries discoveries]. rewrite lookup_delete_eq, orb_false_r. unfold free, d, release_profiles.
  by destruct (relays (retention_db s) !! a).
Qed.

(** The counters of one candidate, from the store it leaves. *)
Lemma counted_one c d d1 free r : purge_db cutoff [c] d = release_observation free (purged_actor c) d1 →
  observations d1 = observations d →
  counted cutoff [c] d r =
  BatchResult (batch_attempted r) (batch_relays r + shrunk (relays d) (relays d1)) (batch_discoveries r + shrunk (discoveries d) (discoveries d1))
    (batch_observations r + (if free && not_null (observations d !! purged_actor c) then 1 else 0))
    (batch_events r + (Z.of_nat (length (relay_events d)) - Z.of_nat (length (relay_events d1))))
    (batch_skipped r + (1 - shrunk (relays d) (relays d1) - shrunk (discoveries d) (discoveries d1))).
Proof.
  intros Hd Ho. unfold counted. rewrite Hd. destruct (release_keeps free (purged_actor c) d1) as (->&->&->). cbv zeta.
  rewrite <- Ho, released_size. done.
Qed.

Lemma purge_relay_step c r s : relay_purged cutoff [c] (retention_db s) (purged_actor c) = true → events_guarded s = false →
  (r ← purge_relay c r; purge_observation c r) (s, []) =
  (Ok (counted cutoff [c] (retention_db s) r), (purge_store cutoff [c] s, [])).
Proof.
  intros Hc Hg. pose proof (purge_relay_store cutoff c s Hc) as Hs. cbv zeta in Hs.
  destruct (relay_purged_facts c _ Hc) as (row&Hrow&Ha&Hl). unfold purge_relay. session_run. unfold delete_relay_events. rewrite Hg.
  cbn [andb]. session_run. set (kept := List.filter _ _) in *.
  assert (Hlen : (length kept <= length (relay_events (retention_db s)))%nat) by apply List.filter_length_le.
  rewrite (proj2 (Z.leb_le 0 _)) by lia. session_run. erewrite delete_relay_run by done. session_run. change (1 =? 1) with true. session_run. rewrite purge_observation_run.
  cbn [with_db retention_db set_relays set_relay_events observations discoveries relays retention_telemetry retention_profiles
       retention_runs retention_run_seq events_guarded relay_events relay_event_seq].
  assert (Hfree : negb (retained_identity (purged_actor c) (set_relays (delete (purged_actor c) (relays (retention_db s)))
                    (set_relay_events kept (relay_event_seq (retention_db s)) (retention_db s)))) =
                  is_null (discoveries (retention_db s) !! purged_actor c)).
  { unfold retained_identity. cbn [relays set_relays discoveries set_relay_events]. rewrite lookup_delete_eq. simpl. apply negb_involutive. }
  rewrite Hfree, Hs. set (d1 := set_relays _ _). rewrite (counted_one c _ d1 _ r (f_equal retention_db Hs) eq_refl).
  unfold d1. cbn [relays set_relays discoveries set_relay_events relay_events]. rewrite shrunk_delete, shrunk_same by eauto.
  unfold add_observations, add_relay. cbn [batch_attempted batch_relays batch_discoveries batch_observations batch_events batch_skipped].
  unfold with_db. cbn [retention_telemetry retention_profiles retention_runs retention_run_seq events_guarded].
  rewrite Z.sub_diag, Z.add_0_r. by rewrite !Z.add_0_r.
Qed.
Lemma purge_discovery_step c r s : discovery_purged cutoff [c] (retention_db s) (purged_actor c) = true →
  (r ← purge_discovery c r; purge_observation c r) (s, []) =
  (Ok (counted cutoff [c] (retention_db s) r), (purge_store cutoff [c] s, [])).
Proof.
  intros Hc. pose proof (purge_discovery_store cutoff c s Hc) as Hs. cbv zeta in Hs.
  destruct (discovery_purged_facts c _ Hc) as (row&Hrow&Hl). unfold purge_discovery. session_run.
  erewrite delete_discovery_run by done. session_run. change (1 =? 1) with true. session_run. rewrite purge_observation_run.
  cbn [with_db retention_db set_discoveries observations discoveries relays retention_telemetry retention_profiles
       retention_runs retention_run_seq events_guarded].
  assert (Hfree : negb (retained_identity (purged_actor c) (set_discoveries (delete (purged_actor c) (discoveries (retention_db s))) (retention_db s))) =
                  is_null (relays (retention_db s) !! purged_actor c)).
  { unfold retained_identity. cbn [relays set_discoveries discoveries]. rewrite lookup_delete_eq, orb_false_r. apply negb_involutive. }
  rewrite Hfree, Hs. set (d1 := set_discoveries _ _). rewrite (counted_one c _ d1 _ r (f_equal retention_db Hs) eq_refl).
  unfold d1. cbn [relays set_discoveries discoveries relay_events]. rewrite shrunk_delete, shrunk_same by eauto.
  unfold add_observations, add_discovery. cbn [batch_attempted batch_relays batch_discoveries batch_observations batch_events batch_skipped].
  unfold with_db. cbn [retention_telemetry retention_profiles retention_runs retention_run_seq events_guarded].
  rewrite !Z.sub_diag, !Z.add_0_r. done.
Qed.
Lemma purge_stale_step c r s : current cutoff c (retention_db s) = false →
  add_skipped r = counted cutoff [c] (retention_db s) r ∧ purge_store cutoff [c] s = s.
Proof.
  intros Hc%stale_inert. pose proof (purge_inert cutoff [c] s Hc) as Hs. split; [|done].
  pose proof (f_equal retention_db Hs) as Hd. cbn [retention_db purge_store] in Hd. unfold counted. rewrite Hd, !shrunk_same, Z.sub_diag.
  rewrite !Z.add_0_r. done.
Qed.

Definition scoped (l : list purge_candidate) (s : retention_store) : Prop :=
  existsb (λ c, purged_kind c ≟ PurgeCandidateLifecycle) l = true → events_guarded s = false.
Lemma nothing_inert d : inert cutoff [] d.
Proof.
  intros a. unfold relay_purged, discovery_purged, purges_relay, purges_discovery. simpl.
  by destruct (relays d !! a), (discoveries d !! a); rewrite ?andb_false_r.
Qed.
Lemma purge_db_nothing d : purge_db cutoff [] d = d.
Proof. pose proof (purge_inert cutoff [] (RetentionStore d ∅ ∅ ∅ 0 true) (nothing_inert d)) as Hs. by injection Hs. Qed.
Lemma counted_nothing d r : counted cutoff [] d r = r.
Proof. unfold counted. rewrite purge_db_nothing, !shrunk_same, Z.sub_diag. destruct r. simpl. by rewrite !Z.add_0_r. Qed.

Lemma purge_loop_run l r s : Forall (λ c, purge_candidate_valid c = true) l → scoped l s →
  purge_loop cutoff l r (s, []) = (Ok (counted cutoff l (retention_db s) r), (purge_store cutoff l s, [])).
Proof.
  revert r s. induction l as [|c l IH]; intros r s Hv Hg.
  - rewrite purge_inert by apply nothing_inert. by rewrite counted_nothing.
  - apply Forall_cons_1 in Hv as [Hc Hv]. change (c :: l) with ([c] ++ l). rewrite counted_app, purge_store_app.
    change (purge_db cutoff [c] (retention_db s)) with (retention_db (purge_store cutoff [c] s)).
    cbn [app purge_loop]. rewrite sbind_run, read_state_run by done. cbn beta iota.
    assert (Hrest : scoped l (purge_store cutoff [c] s)).
    { unfold scoped in *. intros Hl. apply Hg. cbn [existsb]. by rewrite Hl, orb_true_r. }
    destruct (String.eqb_spec (purged_kind c) PurgeCandidateLifecycle) as [Hk|Hk].
    + rewrite matches_relay by done. destruct (relay_purged cutoff [c] (retention_db s) (purged_actor c)) eqn:E.
      * pose proof (purge_relay_step c r s E) as Hstep. rewrite sbind_run in Hstep |- *. 
        assert (Hopen : events_guarded s = false) by (apply Hg; cbn [existsb]; by rewrite Hk).
        specialize (Hstep Hopen). destruct (purge_relay c r (s, [])) as [[r1|e] st]; [|done]. rewrite sbind_run, Hstep. by apply IH.
      * destruct (purge_stale_step c r s) as [-> ->]; [|by apply IH; [done|intros Hl; apply Hg; cbn [existsb]; rewrite Hl, orb_true_r]].
        unfold current. by rewrite E, discovery_kept_relay.
    + assert (Hd : purged_kind c = PurgeCandidateDiscovery).
      { unfold purge_candidate_valid, PurgeCandidateKind_Valid in Hc. rewrite (proj2 (String.eqb_neq _ _) Hk) in Hc. simpl in Hc.
        by destruct (String.eqb_spec (purged_kind c) PurgeCandidateDiscovery). }
      rewrite matches_discovery by done. destruct (discovery_purged cutoff [c] (retention_db s) (purged_actor c)) eqn:E.
      * pose proof (purge_discovery_step c r s E) as Hstep. rewrite Hd. change (PurgeCandidateDiscovery ≟ PurgeCandidateDiscovery) with true.
        cbv iota. rewrite sbind_run in Hstep |- *.
        destruct (purge_discovery c r (s, [])) as [[r1|e] st]; [|done]. rewrite sbind_run, Hstep. by apply IH.
      * destruct (purge_stale_step c r s) as [-> ->]; [|by apply IH; [done|intros Hl; apply Hg; cbn [existsb]; rewrite Hl, orb_true_r]].
        unfold current. by rewrite E, relay_kept_discovery.
Qed.
End PurgeLoop.

(** ** The transaction *)

Section PurgeTransaction.
Context (runID cutoff : Z) (l : list purge_candidate).

Definition batch_start : batch_result := BatchResult (Z.of_nat (length l)) 0 0 0 0 0.
Definition batch_counts (s : retention_store) : batch_result := counted cutoff l (retention_db s) batch_start.
Definition needs_scope : bool := existsb (λ c, purged_kind c ≟ PurgeCandidateLifecycle) l.
Definition accepts_batch (run : run_row) : bool :=
  (run_outcome run ≟ RetentionRunning) && (run_cutoff run =? cutoff) && (run_policy run =? RetentionPolicyVersion).
Definition checkpointed (run : run_row) (s : retention_store) : retention_store :=
  with_runs (<[runID := checkpoint (batch_counts s) run]> (retention_runs s)) (retention_run_seq s) (purge_store cutoff l s).
Definition can_checkpoint (run : run_row) (s : retention_store) : bool :=
  run_update_ok run (checkpoint (batch_counts s) run) && run_check (checkpoint (batch_counts s) run).

Lemma update_running id run f s : retention_runs s !! id = Some run → run_outcome run = RetentionRunning →
  update_run id f s =
  if run_update_ok run (f run) && run_check (f run)
  then Some (with_runs (<[id := f run]> (retention_runs s)) (retention_run_seq s) s, 1) else None.
Proof. intros Hr Ho. unfold update_run. rewrite Hr, Ho. by change (RetentionRunning ≟ RetentionRunning) with true. Qed.

Lemma batch_run run s : retention_runs s !! runID = Some run → accepts_batch run = true →
  (needs_scope = true → events_guarded s = true) →
  Forall (λ c, purge_candidate_valid c = true) l →
  PurgeBatch_tx runID l cutoff (s, []) =
  if can_checkpoint run s then (Ok (batch_counts s), (checkpointed run s, []))
  else (Err (storageFailure "checkpoint retention batch" ErrConstraint), (purge_store cutoff l s, [])).
Proof.
  intros Hr Ha Hg Hv. unfold PurgeBatch_tx. session_run. rewrite Hr. session_run. fold (accepts_batch run). rewrite Ha. session_run.
  assert (Ho : run_outcome run = RetentionRunning) by (unfold accepts_batch in Ha; by bool_facts).
  fold needs_scope. fold batch_start. destruct needs_scope eqn:Hn.
  - session_run. specialize (Hg eq_refl). unfold drop_delete_trigger. rewrite Hg. session_run. rewrite purge_loop_run; [|done|done]. cbn beta iota.
    cbn [retention_db]. fold (batch_counts s). session_run. unfold create_delete_trigger. cbn [events_guarded purge_store].
    session_run. erewrite update_running by done. fold (can_checkpoint run s). destruct s as [d t p rs q g]. simpl in Hg. subst g.
    by destruct (can_checkpoint run _).
  - session_run. rewrite purge_loop_run; [|done|by unfold scoped; fold needs_scope; rewrite Hn]. cbn beta iota.
    fold (batch_counts s). session_run. erewrite update_running by done. fold (can_checkpoint run s). by destruct (can_checkpoint run _).
Qed.

Lemma steady_purge_loop r : steady (purge_loop cutoff l r).
Proof using.
  clear. revert r. induction l as [|c rest IH]; intros r; cbn [purge_loop]; [apply steady_ret|].
  unfold readRetentionState, purge_relay, purge_discovery, purge_observation. 
  apply steady_bind; [steady|]. intros current. destruct (match current with Some _ => _ | None => _ end); [|apply IH].
  apply steady_bind; [steady|]. intros r1. apply steady_bind; [steady|]. intros r2. apply IH.
Qed.
Lemma steady_batch : steady (PurgeBatch_tx runID l cutoff).
Proof.
  unfold PurgeBatch_tx. cbv zeta. repeat (apply steady_bind; [try apply steady_purge_loop; steady|intros ?]). steady.
Qed.
End PurgeTransaction.

Section PurgeBatchFacts.
Context `{RelayIdentity}.

Lemma batch_input_valid runID l cutoff : batch_input_ok runID l cutoff = true → Forall (λ c, purge_candidate_valid c = true) l.
Proof.
  unfold batch_input_ok. intros [_ Hl]%andb_true_iff. rewrite forallb_forall in Hl. apply List.Forall_forall. intros c Hc.
  specialize (Hl c Hc). bool_facts. by destruct (purge_candidate_valid c).
Qed.

(** What an accepted batch found and did. *)
Lemma batch_effect c runID l cutoffAt s r s' : let cutoff := unix_of cutoffAt in
  PurgeBatch c runID l cutoffAt s = (Ok r, s') →
  ∃ run, retention_runs s !! runID = Some run ∧ accepts_batch cutoff run = true ∧ can_checkpoint cutoff l run s = true ∧
    r = batch_counts cutoff l s ∧ s' = checkpointed runID cutoff l run s.
Proof.
  intros cutoff Hp. unfold PurgeBatch in Hp. fold cutoff in Hp. destruct (negb (configured c)); [done|].
  destruct (batch_input_ok runID l cutoff) eqn:Hin; [|done].
  apply batch_input_valid in Hin. simpl in Hp. apply transact_ok in Hp; [|apply steady_batch].
  assert (Hacc : ∃ run, retention_runs s !! runID = Some run ∧ accepts_batch cutoff run = true ∧
                                  (needs_scope l = true → events_guarded s = true)).
  { unfold PurgeBatch_tx in Hp. revert Hp. session_run. destruct (retention_runs s !! runID) as [run|]; [|done]. session_run.
    fold (accepts_batch cutoff run). destruct (accepts_batch cutoff run) eqn:Ha; [|done]. session_run. fold (needs_scope l). intros Hp.
    exists run. split_and!; [done|done|]. intros Hn. rewrite Hn in Hp. revert Hp. session_run. unfold drop_delete_trigger.
    by destruct (events_guarded s). }
  destruct Hacc as (run&Hr&Ha&Hg). rewrite (batch_run _ _ _ run) in Hp by done.
  destruct (can_checkpoint cutoff l run s) eqn:Hc; [|done]. injection Hp as <- <-. by exists run.
Qed.
Lemma batch_error c runID l cutoffAt s e s' : PurgeBatch c runID l cutoffAt s = (Err e, s') → s' = s.
Proof.
  unfold PurgeBatch. intros Hp. destruct (negb (configured c)); [by injection Hp|]. destruct (negb (batch_input_ok _ _ _)); [by injection Hp|].
  by apply transact_error in Hp.
Qed.

(** C20: A destructive retention batch, under any driver outcomes, either changes
    nothing or does exactly what its candidates name: the inactive relays and
    removed discoveries whose whole candidate, versions included, is in the list
    are deleted with what hangs from them (lifecycle events, telemetry, and the
    observation, diagnostics and profiles of an identity nothing retains any more),
    every stale candidate is counted as skipped, every other row stays, the delete
    guard is back in place, and the run's checkpoint carries the counts. *)
Theorem PurgeBatch_purges c runID l cutoffAt s out s' :
  PurgeBatch c runID l cutoffAt s = (out, s') →
  match out with
  | Err _ => s' = s
  | Ok r =>
      let cutoff := unix_of cutoffAt in let d := retention_db s in let d' := retention_db s' in
      r = BatchResult (Z.of_nat (length l)) (shrunk (relays d) (relays d')) (shrunk (discoveries d) (discoveries d'))
            (shrunk (observations d) (observations d')) (Z.of_nat (length (relay_events d)) - Z.of_nat (length (relay_events d')))
            (Z.of_nat (length l) - shrunk (relays d) (relays d') - shrunk (discoveries d) (discoveries d')) ∧
      ∃ run, retention_runs s !! runID = Some run ∧ accepts_batch cutoff run = true ∧
        s' = with_runs (<[runID := checkpoint r run]> (retention_runs s)) (retention_run_seq s) (purge_store cutoff l s)
  end.
Proof.
  intros Hp. destruct out as [r|e]; [|by apply batch_error in Hp]. apply batch_effect in Hp as (run&Hr&Ha&_&->&->).
  intros cutoff d d'. split; [|by exists run].
  unfold batch_counts, counted, batch_start. cbn [batch_attempted batch_relays batch_discoveries batch_observations batch_events batch_skipped].
  unfold d, d'. cbn [checkpointed with_runs retention_db purge_store]. f_equal; lia.
Qed.
End PurgeBatchFacts.
