(* ===== verification/RetentionFacts.v ===== *)
(** * RetentionFacts: the candidate pages and what a purge leaves of them

    On a valid database the bounded union of the query is a keyset page of all the
    candidates, each page passes the run's own validation, and purging listed
    candidates deletes every one of them and leaves the rest of the listing. *)
From S2P Require Import Prelude GoNet Identity Vocabulary Store Session Repository Paging Telemetry Profile Reachability Retention RetentionPurge Invariant Contract Refinement.
From Stdlib Require Import Ascii.
Local Open Scope string_scope.
Local Open Scope Z_scope.
Local Open Scope go_scope.
Local Open Scope list_scope.

(** ** The candidates of a valid database *)

(** Event identifiers count from one. *)
Record numbered (d : db) : Prop := {
  numbered_relay : ∀ e, In e (relay_events d) → 0 ≤ event_id e;
  numbered_moderation : ∀ e, In e (moderation_events d) → 0 ≤ moderation_event_id e;
  numbered_discovery : ∀ e, In e (discovery_events d) → 0 ≤ discovery_event_id e }.

Lemma latest_nonneg {A} (id : A → Z) (f : A → bool) l : (∀ e, In e l → 0 ≤ id e) → 0 ≤ default 0 (max_of (map id (List.filter f l))).
Proof.
  intros Hl. destruct (max_of _) as [m|] eqn:Hm; simpl; [|lia]. apply max_of_some, in_map_iff in Hm as (e&<-&He).
  apply Hl. by apply filter_In in He as [? _].
Qed.

(** Every candidate at [cutoff], in the order of the listing. *)
Definition candidate_rows (cutoff : Z) (d : db) : list purge_candidate := lifecycle_candidates cutoff d ++ discovery_candidates cutoff d.
Definition due_purges (cutoff : Z) (d : db) : list purge_candidate := order_by purge_key (candidate_rows cutoff d).

Lemma lifecycle_candidates_in cutoff d c :
  In c (lifecycle_candidates cutoff d) ↔ ∃ a r, relays d !! a = Some r ∧ relay_inactive cutoff r = true ∧ c = lifecycle_candidate d a r.
Proof.
  unfold lifecycle_candidates. rewrite in_map_iff. split.
  - intros ([a r]&<-&[Hr Hi]%filter_In). apply list_elem_of_In, elem_of_map_to_list in Hr. eauto.
  - intros (a&r&Hr&Hi&->). exists (a, r). split; [done|]. apply filter_In. split; [|done]. by apply list_elem_of_In, elem_of_map_to_list.
Qed.
Lemma discovery_candidates_in cutoff d c :
  In c (discovery_candidates cutoff d) ↔ ∃ a r, discoveries d !! a = Some r ∧ discovery_inactive cutoff r = true ∧ c = discovery_candidate d a r.
Proof.
  unfold discovery_candidates. rewrite in_map_iff. split.
  - intros ([a r]&<-&[Hr Hi]%filter_In). apply list_elem_of_In, elem_of_map_to_list in Hr. eauto.
  - intros (a&r&Hr&Hi&->). exists (a, r). split; [done|]. apply filter_In. split; [|done]. by apply list_elem_of_In, elem_of_map_to_list.
Qed.
Lemma due_purges_in cutoff d c : In c (due_purges cutoff d) ↔ In c (lifecycle_candidates cutoff d) ∨ In c (discovery_candidates cutoff d).
Proof. unfold due_purges, candidate_rows. rewrite order_by_in. apply in_app_iff. Qed.

Lemma NoDup_key_of {A K L} (key : A → K) (part : K → L) (l : list A) : NoDup ((part ∘ key) <$> l) → NoDup (key <$> l).
Proof. rewrite list_fmap_compose. apply NoDup_fmap_1. Qed.
Lemma filtered_rows_NoDup {R} (p : string * R → bool) (rows : list (string * R)) : NoDup rows.*1 → NoDup (List.filter p rows).*1.
Proof.
  induction rows as [|row rows IH]; simpl; [done|]. intros [Hr Hnd]%list.NoDup_cons. destruct (p row); [|by apply IH].
  simpl. constructor; [|by apply IH]. intros (row'&Hk&Hin)%list_elem_of_fmap. apply Hr, list_elem_of_fmap. exists row'. split; [done|].
  rewrite list_elem_of_In in Hin |- *. by apply filter_In in Hin as [? _].
Qed.
Lemma candidates_keys {R} (f : string * R → purge_candidate) (p : string * R → bool) (m : gmap string R) :
  (∀ row, purged_actor (f row) = row.1) → NoDup (purge_key <$> map f (List.filter p (map_to_list m))).
Proof.
  intros Hf. apply (NoDup_key_of purge_key (λ k, k.2.1)). rewrite <- list_fmap_compose.
  rewrite (list_fmap_ext _ fst); [apply filtered_rows_NoDup, NoDup_fst_map_to_list|]. intros i row _. apply Hf.
Qed.
Lemma candidate_rows_keys cutoff d : NoDup (purge_key <$> candidate_rows cutoff d).
Proof.
  unfold candidate_rows. rewrite fmap_app. apply list.NoDup_app. split_and!; [by apply candidates_keys| |by apply candidates_keys].
  intros k (c&->&Hc)%list_elem_of_fmap (c'&Hk&Hc')%list_elem_of_fmap. rewrite list_elem_of_In in Hc, Hc'.
  apply lifecycle_candidates_in in Hc as (a&r&_&_&->). apply discovery_candidates_in in Hc' as (a'&r'&_&_&->). done.
Qed.
Lemma due_purges_sorted cutoff d : strictly_sorted purge_key (due_purges cutoff d).
Proof. apply order_by_sorted, candidate_rows_keys. Qed.

(** The bounded union of the query is the first rows of the whole listing. *)
Lemma purge_rows_union q d :
  purge_rows q d = keyset_rows purge_key (purge_cursor_key (purge_after q)) (Z.to_nat (purge_limit q)) (candidate_rows (unix_of (purge_cutoff q)) d).
Proof.
  unfold purge_rows, keyset_rows. cbv zeta. set (cutoff := unix_of (purge_cutoff q)). set (k := purge_cursor_key (purge_after q)).
  apply take_union.
  - unfold rows_after. rewrite <- List.filter_app. apply filter_perm. by rewrite !order_by_perm.
  - apply rows_after_sorted, due_purges_sorted.
  - by apply rows_after_sorted, order_by_sorted, candidates_keys.
  - by apply rows_after_sorted, order_by_sorted, candidates_keys.
Qed.

Section PurgeRead.
Context `{RelayIdentity}.

(** A candidate of a valid database passes every validation it meets. *)
Record candidate_ok (cutoff : Z) (c : purge_candidate) : Prop := {
  candidate_valid : purge_candidate_valid c = true;
  candidate_identity : validHealthProjectionActor (purged_actor c) = true;
  candidate_canonical : canonical_actor (purged_actor c) = true;
  candidate_due : inactive_unix c ≤ cutoff }.

Lemma revision_nonneg a d : db_ok d → 0 ≤ revision_or_zero a d.
Proof.
  intros Hd. unfold revision_or_zero. destruct (observations d !! a) as [o|] eqn:Ho; [|lia].
  destruct (inv_observations _ _ Hd a o Ho) as [Hc _]. unfold observation_check in Hc. bool_facts. lia.
Qed.
Lemma identity_actor_ok a u : canonical_identity a u = true → 1 ≤ len a ≤ 4096 →
  a ≠ "" ∧ validHealthProjectionActor a = true ∧ canonical_actor a = true.
Proof.
  intros Hi Hl. pose proof (canonical_identity_actor _ _ Hi) as Hc. split_and!; [|unfold validHealthProjectionActor, maximumRelayActorBytes|done].
  - intros ->. by destruct Hl.
  - rewrite Hc, (proj2 (Z.eqb_neq (len a) 0)), (proj2 (Z.ltb_ge 4096 (len a))) by lia. done.
Qed.
Lemma due_purge_ok cutoff d c : db_ok d → numbered d → In c (due_purges cutoff d) → candidate_ok cutoff c.
Proof.
  intros Hd [Hn1 Hn2 Hn3] [(a&r&Hr&Hi&->)%lifecycle_candidates_in|(a&r&Hr&Hi&->)%discovery_candidates_in]%due_purges_in.
  - destruct (inv_relays _ _ Hd a r Hr) as [Hc Hcan]. apply relay_check_wf in Hc as ([Hla _]&[Hf Hf2]&_&Hl&_).
    destruct (identity_actor_ok _ _ Hcan Hla) as (Hne&Hv&Hca). unfold relay_inactive in Hi. bool_facts.
    assert (Hin : ∃ v, inactive_since r = Some v ∧ 0 ≤ v ≤ updated_at_unix r).
    { unfold inactive_since. destruct Hl as [(Hl&_)|[(->&_&t&->&?)|(->&_&t&->&?)]].
      - by rewrite Hl in *.
      - exists t. str_consts. split; [done|lia].
      - exists t. str_consts. split; [done|lia]. }
    destruct Hin as (v&Hv'&Hb). unfold lifecycle_candidate. rewrite Hv' in *. simpl in *. bool_facts.
    split; simpl; [|done|done|done]. unfold purge_candidate_valid. simpl. rewrite (proj2 (String.eqb_neq _ _) Hne). simpl.
    pose proof (revision_nonneg a d Hd).
    pose proof (latest_nonneg event_id (λ e, event_actor e ≟ a) _ Hn1). pose proof (latest_nonneg moderation_event_id (λ e, moderation_actor e ≟ a) _ Hn2).
    rewrite (proj2 (Z.ltb_ge v 0)), (proj2 (Z.ltb_ge (updated_at_unix r) v)), (proj2 (Z.ltb_ge (revision_or_zero a d) 0)) by lia. simpl.
    rewrite H2, andb_true_r. unfold latest_event_id, latest_moderation_event_id. bool_lia.
  - destruct (inv_discoveries _ _ Hd a r Hr) as [Hc Hcan]. unfold discovery_check, blob_length_between in Hc. unfold discovery_inactive in Hi. bool_facts.
    destruct (identity_actor_ok a (discovery_base r) Hcan) as (Hne&Hv&Hca); [lia|]. destruct (discovery_removed_at r) as [v|] eqn:Hrem; [|done].
    simpl in *. bool_facts. unfold discovery_candidate. rewrite Hrem.
    split; simpl; [|done|done|done]. unfold purge_candidate_valid. simpl. rewrite (proj2 (String.eqb_neq _ _) Hne). simpl.
    pose proof (revision_nonneg a d Hd). pose proof (latest_nonneg discovery_event_id (λ e, discovery_actor e ≟ a) _ Hn3).
    rewrite (proj2 (Z.ltb_ge v 0)), (proj2 (Z.ltb_ge (discovery_updated r) v)), (proj2 (Z.ltb_ge (revision_or_zero a d) 0)) by lia. simpl.
    unfold latest_discovery_event_id. bool_lia.
Qed.

(** The start, or the position of a candidate. *)
Definition purge_cursor_ok (cutoff : Z) (c : purge_cursor) : Prop :=
  c = purge_start ∨ ∃ x, candidate_ok cutoff x ∧ c = purge_position x.

Lemma valid_candidate_facts c : purge_candidate_valid c = true →
  PurgeCandidateKind_Valid (purged_kind c) = true ∧ purged_actor c ≠ "" ∧ 0 ≤ inactive_unix c.
Proof.
  unfold purge_candidate_valid. destruct (_ || _ || _ || _ || _) eqn:E; [done|]. intros _. bool_facts. done.
Qed.
Lemma position_not_start c : purge_candidate_valid c = true → purge_cursor_eqb (purge_position c) purge_start = false.
Proof.
  intros (_&Hne&_)%valid_candidate_facts. unfold purge_cursor_eqb. simpl. by rewrite (proj2 (String.eqb_neq _ _) Hne), andb_false_r.
Qed.
Lemma position_valid c : purge_candidate_valid c = true → purge_cursor_valid (purge_position c) = true.
Proof.
  intros Hv. unfold purge_cursor_valid. rewrite position_not_start by done. destruct (valid_candidate_facts c Hv) as (Hk&Hne&H0).
  simpl. rewrite Hk, (proj2 (String.eqb_neq _ _) Hne), (proj2 (Z.leb_le _ _) H0). done.
Qed.
Lemma decode_purge_ok cutoff c : candidate_ok cutoff c → decode_purge cutoff c = Ok c.
Proof. intros [Hv Hi _ Hd]. unfold decode_purge. by rewrite Hv, Hi, (proj2 (Z.ltb_ge _ _) Hd). Qed.

(** Every candidate passes the validations: so on a valid database, and after any purge. *)
Definition purge_ready (cutoff : Z) (d : db) : Prop := ∀ c, In c (due_purges cutoff d) → candidate_ok cutoff c.
Lemma db_ok_ready cutoff d : db_ok d → numbered d → purge_ready cutoff d.
Proof. intros Hd Hn c. by apply due_purge_ok. Qed.

Lemma purge_candidates_read q d : purge_ready (unix_of (purge_cutoff q)) d → 0 ≤ unix_of (purge_cutoff q) → 0 < purge_limit q ≤ MaximumPurgeCandidatePage →
  purge_cursor_ok (unix_of (purge_cutoff q)) (purge_after q) →
  let page := keyset_page purge_key (purge_cursor_key (purge_after q)) (Z.to_nat (purge_limit q)) (candidate_rows (unix_of (purge_cutoff q)) d) in
  PurgeCandidates plain_call q d =
  Ok (PurgePage page.1 (match page.2, list.last page.1 with Some _, Some c => purge_position c | _, _ => purge_start end)).
Proof.
  intros Hd H0 [Hl0 Hl1] Hcur page. unfold PurgeCandidates, run_read, PurgeCandidates_query.
  cbn [configured negb plain_call]. set (cutoff := unix_of (purge_cutoff q)) in *. tx_run. rewrite !check_run.
  assert (Hc : negb (purge_cursor_valid (purge_after q)) || (purge_limit q <=? 0) || (MaximumPurgeCandidatePage <? purge_limit q) ||
               (negb (purge_cursor_eqb (purge_after q) purge_start) && negb (validHealthProjectionActor (purge_actor (purge_after q)))) = false ∧
               (cutoff <? 0) || (negb (purge_cursor_eqb (purge_after q) purge_start) && (cutoff <? purge_at (purge_after q))) = false).
  { rewrite (proj2 (Z.leb_gt _ 0)), (proj2 (Z.ltb_ge _ _) Hl1), (proj2 (Z.ltb_ge cutoff 0)) by lia.
    destruct Hcur as [->|(x&[Hv Hi _ Hdue]&->)]; [done|]. rewrite position_valid, position_not_start by done. simpl.
    rewrite Hi, (proj2 (Z.ltb_ge _ _) Hdue). done. }
  destruct Hc as [-> ->]. simpl. tx_run. rewrite purge_rows_union. fold cutoff.
  rewrite (scan_keyset purge_key _ _ _ (λ c, c)).
  2:{ lia. }
  2:{ intros c Hc. apply decode_purge_ok, Hd. by apply order_by_in. }
  fold page. rewrite map_id. by destruct (list.last page.1), page.2.
Qed.

(** ** The validation of a page *)

Lemma cursor_after_key (c previous : purge_cursor) : purge_cursor_eqb previous purge_start = false →
  key_ltb (purge_cursor_key previous) (purge_cursor_key c) = true → purge_cursorAfter c previous = true.
Proof.
  destruct c as [t a k], previous as [t' a' k']. unfold purge_cursorAfter, purge_cursor_key. cbn [purge_at purge_actor purge_kind].
  intros ->. unfold key_ltb at 1. simpl. destruct (Z.eqb_spec t t') as [->|Hne]; simpl.
  - rewrite key_ltb_irrefl. simpl. destruct (String.eqb_spec a a') as [->|Ha]; simpl; [by rewrite pair_lt_same|].
    unfold key_ltb at 1. simpl. intros [Hk|[Hk _]%andb_true_iff]%orb_true_iff; [done|]. destruct (key_ltb a' a) eqn:E; [done|]. destruct Ha.
    apply key_ltb_total; [by apply negb_true_iff in Hk|done].
  - change (key_ltb t' t) with (t' <? t). change (key_ltb t t') with (t <? t').
    intros [Hk|[Hk _]%andb_true_iff]%orb_true_iff; [done|]. bool_facts. bool_lia.
Qed.

Definition last_purge (cursor : purge_cursor) (rows : list purge_candidate) : purge_cursor :=
  match list.last rows with Some c => purge_position c | None => cursor end.
Definition after_cursor (cursor : purge_cursor) (c : purge_candidate) : Prop :=
  purge_cursor_eqb cursor purge_start = true ∨ key_ltb (purge_cursor_key cursor) (purge_key c) = true.
Lemma after_cursor_ok cursor c : after_cursor cursor c → purge_cursorAfter (purge_position c) cursor = true.
Proof.
  intros [Hs|Hk]; [unfold purge_cursorAfter; by rewrite Hs|]. destruct (purge_cursor_eqb cursor purge_start) eqn:E; [|by apply cursor_after_key].
  unfold purge_cursorAfter. by rewrite E.
Qed.
Lemma valid_positions_rows cutoff cursor rows : (∀ c, In c rows → candidate_ok cutoff c) → strictly_sorted purge_key rows →
  (∀ c, In c rows → after_cursor cursor c) → valid_positions cutoff cursor rows = Some (last_purge cursor rows).
Proof.
  unfold strictly_sorted. intros Hok Hs. revert cursor. induction Hs as [|c rows Hs IH Hf]; intros cursor Hafter; [done|].
  cbn [valid_positions]. destruct (Hok c (or_introl eq_refl)) as [Hv _ Hcan Hdue].
  rewrite Hcan, Hv, (proj2 (Z.ltb_ge _ _) Hdue), after_cursor_ok by (apply Hafter; by left). cbn [negb orb].
  rewrite IH.
  - unfold last_purge. rewrite last_cons. by destruct (list.last rows).
  - intros x Hx. apply Hok. by right.
  - intros x Hx. right. rewrite List.Forall_forall in Hf. by apply Hf.
Qed.
Lemma cursor_eqb_refl c : purge_cursor_eqb c c = true.
Proof. unfold purge_cursor_eqb. by rewrite Z.eqb_refl, !String.eqb_refl. Qed.

Lemma purge_page_valid cutoff cursor limit rows (more : bool) : (∀ c, In c rows → candidate_ok cutoff c) → strictly_sorted purge_key rows →
  (∀ c, In c rows → after_cursor cursor c) → Z.of_nat (length rows) ≤ limit →
  validatePurgePage (PurgePage rows (match more, list.last rows with true, Some c => purge_position c | _, _ => purge_start end)) cursor limit cutoff = true.
Proof.
  intros Hok Hs Ha Hl. unfold validatePurgePage. cbn [purge_candidates purge_next]. rewrite (proj2 (Z.ltb_ge _ _) Hl).
  destruct (list.last rows) as [c|] eqn:Hlast.
  - assert (Hin : In c rows) by (apply last_some_app in Hlast as [p ->]; apply in_or_app; right; by left).
    assert (Hne : (length rows =? 0)%nat = false) by (destruct rows; [done|done]).
    rewrite Hne, valid_positions_rows by done. unfold last_purge. rewrite Hlast. destruct (Hok c Hin) as [Hv _ _ _].
    destruct more; [|done]. rewrite position_not_start, position_valid by done. by rewrite cursor_eqb_refl.
  - apply last_None in Hlast as ->. by destruct more.
Qed.
End PurgeRead.

(** ** Purging what was listed *)

Section PurgeListed.
Context (cutoff : Z).
Implicit Types (l : list purge_candidate) (d : db).

Lemma versioned_due d c : In c (due_purges cutoff d) → versioned c = c.
Proof. by intros [(a&r&_&_&->)%lifecycle_candidates_in|(a&r&_&_&->)%discovery_candidates_in]%due_purges_in. Qed.
Lemma listed_due l d c : (∀ x, In x l → In x (due_purges cutoff d)) → listed_in l c = true ↔ In c l.
Proof.
  intros Hl. unfold listed_in. rewrite existsb_exists. split.
  - intros (x&Hx&<-%bool_decide_eq_true). by rewrite (versioned_due d) by auto.
  - intros Hc. exists c. split; [done|]. apply bool_decide_eq_true, (versioned_due d). auto.
Qed.

(** The listing that remains is the listing without the purged candidates. *)
Lemma due_after_purge l d c : (∀ x, In x l → In x (due_purges cutoff d)) →
  In c (due_purges cutoff (purge_db cutoff l d)) ↔ In c (due_purges cutoff d) ∧ ¬ In c l.
Proof.
  intros Hl. rewrite !due_purges_in, !lifecycle_candidates_in, !discovery_candidates_in.
  assert (Hr : ∀ a r, relays d !! a = Some r → relay_inactive cutoff r = true →
            relay_purged cutoff l d a = true ↔ In (lifecycle_candidate d a r) l).
  { intros a r Hr Hi. unfold relay_purged. rewrite Hr. unfold purges_relay. rewrite Hi. simpl. by apply (listed_due l d). }
  assert (Hd : ∀ a r, discoveries d !! a = Some r → discovery_inactive cutoff r = true →
            discovery_purged cutoff l d a = true ↔ In (discovery_candidate d a r) l).
  { intros a r Hr' Hi. unfold discovery_purged. rewrite Hr'. unfold purges_discovery. rewrite Hi. simpl. by apply (listed_due l d). }
  split.
  - intros [(a&r&Hrow&Hi&->)|(a&r&Hrow&Hi&->)].
    + rewrite relays_purge in Hrow. destruct (relay_purged cutoff l d a) eqn:E; [done|]. rewrite lifecycle_candidate_kept by done.
      split; [left; eauto|]. rewrite <- (Hr a r Hrow Hi), E. done.
    + rewrite discoveries_purge in Hrow. destruct (discovery_purged cutoff l d a) eqn:E; [done|]. rewrite discovery_candidate_kept by done.
      split; [right; eauto|]. rewrite <- (Hd a r Hrow Hi), E. done.
  - intros [[(a&r&Hrow&Hi&->)|(a&r&Hrow&Hi&->)] Hni].
    + left. assert (E : relay_purged cutoff l d a = false) by (apply not_true_is_false; by rewrite (Hr a r)).
      exists a, r. rewrite relays_purge, E, lifecycle_candidate_kept by done. done.
    + right. assert (E : discovery_purged cutoff l d a = false) by (apply not_true_is_false; by rewrite (Hd a r)).
      exists a, r. rewrite discoveries_purge, E, discovery_candidate_kept by done. done.
Qed.
Lemma due_purges_rest l rest d : due_purges cutoff d = l ++ rest → due_purges cutoff (purge_db cutoff l d) = rest.
Proof.
  intros Hdue. pose proof (due_purges_sorted cutoff d) as Hs. rewrite Hdue in Hs.
  apply (strictly_sorted_same purge_key); [apply due_purges_sorted|by apply StronglySorted_app_parts in Hs as (_&?&_)|].
  pose proof (strictly_sorted_NoDup _ _ Hs) as Hnd. apply list.NoDup_app in Hnd as (_&Hnd&_).
  intros c. rewrite due_after_purge by (intros x Hx; rewrite Hdue; apply in_or_app; by left). rewrite Hdue, in_app_iff. split.
  - by intros [[Hc|Hc] Hn].
  - intros Hc. split; [by right|]. intros Hl. apply (Hnd c); by apply list_elem_of_In.
Qed.
Lemma purge_ready_after `{RelayIdentity} l d : (∀ x, In x l → In x (due_purges cutoff d)) → purge_ready cutoff d → purge_ready cutoff (purge_db cutoff l d).
Proof. intros Hl Hd c Hc. apply Hd. by apply (due_after_purge l d c Hl) in Hc as [? _]. Qed.

(** Every one of them is deleted: none is skipped. *)
Record counts_exact (n : Z) (r r' : batch_result) : Prop := {
  exact_attempted : batch_attempted r' = batch_attempted r;
  exact_primary : batch_relays r' + batch_discoveries r' = batch_relays r + batch_discoveries r + n;
  exact_skipped : batch_skipped r' = batch_skipped r;
  exact_relays : batch_relays r ≤ batch_relays r';
  exact_discoveries : batch_discoveries r ≤ batch_discoveries r';
  exact_observations : batch_observations r ≤ batch_observations r' ≤ batch_observations r + n;
  exact_events : batch_events r ≤ batch_events r' }.

Lemma counted_relay c d r : relay_purged cutoff [c] d (purged_actor c) = true → counts_exact 1 r (counted cutoff [c] d r).
Proof.
  intros Hc. pose proof (purge_relay_store cutoff c (RetentionStore d ∅ ∅ ∅ 0 true) Hc) as Hs. cbv zeta in Hs. cbn [retention_db] in Hs.
  pose proof (relay_purged_row _ _ _ _ Hc) as Hrow. set (kept := List.filter _ _) in Hs. set (d1 := set_relays _ _) in Hs.
  rewrite (counted_one cutoff c d d1 _ r (f_equal retention_db Hs) eq_refl). unfold d1. cbn [relays set_relays discoveries set_relay_events relay_events].
  rewrite shrunk_delete, shrunk_same by done. assert (Hlen : (length kept <= length (relay_events d))%nat) by apply List.filter_length_le.
  destruct (_ && _); split; simpl; lia.
Qed.
Lemma counted_discovery c d r : discovery_purged cutoff [c] d (purged_actor c) = true → counts_exact 1 r (counted cutoff [c] d r).
Proof.
  intros Hc. pose proof (purge_discovery_store cutoff c (RetentionStore d ∅ ∅ ∅ 0 true) Hc) as Hs. cbv zeta in Hs. cbn [retention_db] in Hs.
  pose proof (discovery_purged_row _ _ _ _ Hc) as Hrow. set (d1 := set_discoveries _ _) in Hs.
  rewrite (counted_one cutoff c d d1 _ r (f_equal retention_db Hs) eq_refl). unfold d1. cbn [relays set_discoveries discoveries relay_events].
  rewrite shrunk_delete, shrunk_same by done. destruct (_ && _); split; simpl; lia.
Qed.
Lemma counted_due c d r : In c (due_purges cutoff d) → counts_exact 1 r (counted cutoff [c] d r).
Proof.
  intros Hc. assert (Hl : listed_in [c] c = true) by (apply (listed_due [c] d); [intros x [<-|[]]; done|by left]).
  apply due_purges_in in Hc as [(a&row&Hrow&Hi&->)%lifecycle_candidates_in|(a&row&Hrow&Hi&->)%discovery_candidates_in];
    [apply counted_relay|apply counted_discovery]; simpl.
  - unfold relay_purged. rewrite Hrow. unfold purges_relay. by rewrite Hi, Hl.
  - unfold discovery_purged. rewrite Hrow. unfold purges_discovery. by rewrite Hi, Hl.
Qed.
Lemma counted_listed l d r : NoDup l → (∀ x, In x l → In x (due_purges cutoff d)) →
  counts_exact (Z.of_nat (length l)) r (counted cutoff l d r).
Proof.
  revert d r. induction l as [|c l IH]; intros d r Hnd Hl.
  - rewrite counted_nothing. split; simpl; lia.
  - apply list.NoDup_cons in Hnd as [Hc Hnd]. assert (Hc1 : ∀ x, In x [c] → In x (due_purges cutoff d)) by (intros x [<-|[]]; apply Hl; by left).
    change (c :: l) with ([c] ++ l). rewrite counted_app, length_app.
    pose proof (counted_due c d r (Hc1 c (or_introl eq_refl))) as H1.
    assert (H2 : counts_exact (Z.of_nat (length l)) (counted cutoff [c] d r) (counted cutoff l (purge_db cutoff [c] d) (counted cutoff [c] d r))).
    { apply IH; [done|]. intros x Hx. apply (due_after_purge [c] d x Hc1). split; [apply Hl; by right|].
      intros [->|[]]. apply Hc. by apply list_elem_of_In. }
    rewrite Nat2Z.inj_add. change (Z.of_nat (length [c])) with 1. destruct H1, H2. split; lia.
Qed.
End PurgeListed.
