(* ===== verification/RetentionRun.v ===== *)
(** * RetentionRun: the audited retention run over the repository

    The loop of [retention.Run] over the undisturbed repository, page by page, with
    the run record that follows its counters; and its termination over any repository. *)
From S2P Require Import Prelude GoNet Identity Vocabulary Store Session Repository Paging Telemetry Profile Reachability Retention RetentionPurge Invariant Contract Refinement RetentionFacts.
From Stdlib Require Import Ascii.
Local Open Scope string_scope.
Local Open Scope Z_scope.
Local Open Scope go_scope.
Local Open Scope list_scope.

(** ** The audited run *)

Section Run.
Context `{RelayIdentity} (days observed : Z) (backup : string) (s0 : retention_store).
Context (Hdays : 0 < days ≤ MaximumInactiveRetentionDays) (Hobs : days * 86400 ≤ observed) (Hbackup : hex_digest backup = true).
Context (Hguard : events_guarded s0 = true) (Hseq : 0 ≤ retention_run_seq s0).
Local Abbreviation cutoff := (observed - days * 86400).
Local Abbreviation id := (retention_run_seq s0 + 1).
Local Abbreviation due := (due_purges cutoff (retention_db s0)).
Context (Hready : purge_ready cutoff (retention_db s0)).

(** The run record with the counters of the result so far, and the store then. *)
Definition counted_row (r : purge_result) (truncated : Z) (outcome : string) (finished : option Z) : run_row :=
  RunRow RetentionPolicyVersion days observed cutoff backup observed (result_count r) (result_relays r) (result_discoveries r)
    (result_observations r) (result_events r) (result_skipped r) (result_batches r) truncated outcome finished.
Definition progress_row (r : purge_result) : run_row := counted_row r 0 RetentionRunning None.
Definition completed_row (r : purge_result) : run_row :=
  counted_row r (if result_truncated r then 1 else 0) RetentionCompleted (Some observed).
Definition progress_store (purged : list purge_candidate) (row : run_row) : retention_store :=
  with_runs (<[id := row]> (retention_runs s0)) id (purge_store cutoff purged s0).
Record progress_ok (purged : list purge_candidate) (r : purge_result) : Prop := {
  progress_observed : result_observed r = observed;
  progress_cutoff : result_cutoff r = cutoff;
  progress_count : result_count r = Z.of_nat (length purged);
  progress_primary : result_relays r + result_discoveries r = result_count r;
  progress_relays : 0 ≤ result_relays r;
  progress_discoveries : 0 ≤ result_discoveries r;
  progress_observations : 0 ≤ result_observations r ≤ result_count r;
  progress_events : 0 ≤ result_events r;
  progress_skipped : result_skipped r = 0;
  progress_batches : 0 ≤ result_batches r ≤ result_count r ∧ (result_count r ≠ 0 → 1 ≤ result_batches r) }.

Lemma counted_row_check purged r truncated outcome finished : progress_ok purged r → result_count r ≤ MaximumPurgeAttemptsPerRun →
  truncated = 0 ∨ truncated = 1 → outcome = RetentionRunning ∧ finished = None ∨ outcome = RetentionCompleted ∧ finished = Some observed →
  run_check (counted_row r truncated outcome finished) = true.
Proof using Hbackup Hdays Hobs.
  intros [] Hc Ht Ho. unfold run_check, between, MaximumPurgeAttemptsPerRun, MaximumInactiveRetentionDays in *.
  cbn [counted_row run_policy run_days run_observed run_cutoff run_backup run_started run_scanned run_relays run_discoveries run_observations
       run_events run_skipped run_batches run_truncated run_outcome run_finished].
  rewrite Hbackup. destruct Ht as [->| ->], Ho as [[-> ->]|[-> ->]]; str_consts; cbn [is_null not_null null_or negb andb orb];
    (destruct (Z.eqb_spec (result_count r) 0) as [Hz|Hz]; [rewrite Hz in *|]); bool_lia; rewrite ?orb_true_r, ?andb_true_r; bool_lia; done.
Qed.

Lemma add_page_ok purged page r batch : progress_ok purged r → page ≠ [] →
  counts_exact (Z.of_nat (length page)) (batch_start page) batch →
  progress_ok (purged ++ page) (add_batch batch (scan_page page r)).
Proof using.
  intros [] Hp [Ha Hpr Hs Hr Hd Ho He]. unfold batch_start in *. cbn [batch_attempted batch_relays batch_discoveries batch_observations batch_events batch_skipped] in *.
  assert (0 < Z.of_nat (length page)) by (destruct page; [done|simpl; lia]).
  split; cbn [add_batch scan_page result_observed result_cutoff result_count result_relays result_discoveries result_observations
              result_events result_skipped result_batches]; rewrite ?length_app, ?Nat2Z.inj_add; try done; try lia. 
Qed.
Lemma checkpoint_progress page r batch : batch_attempted batch = Z.of_nat (length page) →
  checkpoint batch (progress_row r) = progress_row (add_batch batch (scan_page page r)).
Proof using. intros Ha. unfold checkpoint, progress_row, counted_row. simpl. by rewrite Ha. Qed.

Lemma progress_update purged page r batch : progress_ok purged r → page ≠ [] →
  counts_exact (Z.of_nat (length page)) (batch_start page) batch →
  run_update_ok (progress_row r) (progress_row (add_batch batch (scan_page page r))) = true.
Proof using.
  intros [] Hp [Ha Hpr Hs Hr Hd Ho He]. unfold batch_start in *. cbn [batch_attempted batch_relays batch_discoveries batch_observations batch_events batch_skipped] in *.
  unfold run_update_ok, progress_row, counted_row. cbn [add_batch scan_page result_observed result_cutoff result_count result_relays result_discoveries
     result_observations result_events result_skipped result_batches run_policy run_days run_observed run_cutoff run_backup run_started run_scanned run_relays run_discoveries run_observations
       run_events run_skipped run_batches run_truncated run_outcome run_finished]. rewrite String.eqb_refl. str_consts. bool_lia; done.
Qed.

Lemma due_split purged page rest : due = purged ++ page ++ rest →
  (∀ c, In c page → candidate_ok cutoff c) ∧ NoDup page ∧
  (∀ c, In c page → In c (due_purges cutoff (purge_db cutoff purged (retention_db s0)))).
Proof using Hready.
  intros Hdue. split_and!.
  - intros c Hc. apply Hready. rewrite Hdue. apply in_or_app. right. apply in_or_app. by left.
  - pose proof (strictly_sorted_NoDup _ _ (due_purges_sorted cutoff (retention_db s0))) as Hnd. rewrite Hdue in Hnd.
    apply list.NoDup_app in Hnd as (_&_&Hnd). by apply list.NoDup_app in Hnd as (?&_&_).
  - intros c Hc. rewrite (due_purges_rest cutoff purged (page ++ rest)) by done. apply in_or_app. by left.
Qed.
Lemma store_after purged page r row :
  with_runs (<[id := row]> (retention_runs (progress_store purged r))) (retention_run_seq (progress_store purged r))
    (purge_store cutoff page (progress_store purged r)) = progress_store (purged ++ page) row.
Proof using.
  unfold progress_store. rewrite purge_store_app. cbn [with_runs retention_runs retention_run_seq]. by rewrite insert_insert_eq.
Qed.

Lemma page_input_ok page : page ≠ [] → Z.of_nat (length page) ≤ MaximumPurgeCandidatePage → (∀ c, In c page → candidate_ok cutoff c) →
  batch_input_ok id page cutoff = true.
Proof using Hobs Hseq.
  intros Hne Hl Hok. unfold batch_input_ok. rewrite (proj2 (Z.leb_gt id 0)), (proj2 (Z.ltb_ge cutoff 0)), (proj2 (Z.ltb_ge _ _) Hl) by lia.
  replace (length page =? 0)%nat with false by (by destruct page). simpl. apply forallb_forall. intros c Hc.
  destruct (Hok c Hc) as [-> -> _ Hd]. by rewrite (proj2 (Z.ltb_ge _ _) Hd).
Qed.

Lemma exact_consistent page batch : counts_exact (Z.of_nat (length page)) (batch_start page) batch → batch_consistent page batch = true.
Proof using.
  intros [Ha Hpr Hs Hr Hd Ho He]. unfold batch_start in *. cbn [batch_attempted batch_relays batch_discoveries batch_observations batch_events batch_skipped] in *.
  unfold batch_consistent. rewrite Ha, Z.eqb_refl, !(proj2 (Z.ltb_ge _ _)) by lia. cbn [negb orb]. bool_lia.
Qed.

Lemma batch_step purged page rest r : due = purged ++ page ++ rest → progress_ok purged r → page ≠ [] →
  Z.of_nat (length page) ≤ MaximumPurgeCandidatePage → result_count r + Z.of_nat (length page) ≤ MaximumPurgeAttemptsPerRun →
  let s := progress_store purged (progress_row r) in
  let batch := batch_counts cutoff page s in let r' := add_batch batch (scan_page page r) in
  PurgeBatch plain_call id page (time_of_unix cutoff) s = (Ok batch, progress_store (purged ++ page) (progress_row r')) ∧
  batch_consistent page batch = true ∧ progress_ok (purged ++ page) r'.
Proof using All.
  intros Hdue Hr Hne Hl Hc s batch r'. destruct (due_split _ _ _ Hdue) as (Hok&Hnd&Hin).
  assert (Hex : counts_exact (Z.of_nat (length page)) (batch_start page) batch) by (by apply counted_listed).
  assert (Hatt : batch_attempted batch = Z.of_nat (length page)) by apply Hex.
  assert (Hr' : progress_ok (purged ++ page) r') by (by apply add_page_ok).
  split_and!; [|by apply exact_consistent|done].
  unfold PurgeBatch. cbn [configured plain_call negb]. rewrite unix_of_time_of_unix, page_input_ok by done. cbn [negb].
    rewrite transact_plain. 
    assert (Hrun : retention_runs s !! id = Some (progress_row r)) by apply lookup_insert_eq.
    assert (Hacc : accepts_batch cutoff (progress_row r) = true).
    { unfold accepts_batch. cbn [progress_row counted_row run_outcome run_cutoff run_policy]. by rewrite Z.eqb_refl. }
    rewrite (batch_run _ _ _ (progress_row r)); [|done|done|done|].
    2:{ apply List.Forall_forall. intros c Hcin. apply Hok, Hcin. }
    unfold can_checkpoint, checkpointed. fold batch. rewrite (checkpoint_progress page r batch Hatt). fold r'.
    assert (Hupd : run_update_ok (progress_row r) (progress_row r') = true) by (by apply (progress_update purged)). rewrite Hupd.
    assert (Hchk : run_check (progress_row r') = true).
    { apply (counted_row_check (purged ++ page)); [done| |by left|by left]. apply progress_count in Hr' as ->. rewrite length_app.
      apply progress_count in Hr as Hrc. lia. }
    rewrite Hchk. cbn [andb]. by rewrite <- (store_after purged page (progress_row r)).
Qed.

(** *** The loop *)

Lemma purge_page_read purged rest r cursor limit : due = purged ++ rest → purge_cursor_ok cutoff cursor →
  (∀ c, In c rest → key_ltb (purge_cursor_key cursor) (purge_key c) = true) → 0 < limit ≤ MaximumPurgeCandidatePage →
  let page := take (Z.to_nat limit) rest in
  let next := match (Z.to_nat limit <? length rest)%nat, list.last page with true, Some c => purge_position c | _, _ => purge_start end in
  PurgeCandidates plain_call (PurgeQuery cursor limit (time_of_unix cutoff)) (retention_db (progress_store purged r)) = Ok (PurgePage page next) ∧
  validatePurgePage (PurgePage page next) cursor limit cutoff = true.
Proof using Hobs Hready.
  intros Hdue Hcur Hafter Hl page next. set (d := retention_db (progress_store purged r)).
  assert (Hrest : due_purges cutoff d = rest) by (by apply due_purges_rest).
  assert (Hd : purge_ready cutoff d).
  { apply (purge_ready_after cutoff purged (retention_db s0)); [|exact Hready]. intros c Hc. rewrite Hdue. apply in_or_app. by left. }
  assert (Hrows : rows_after purge_key (purge_cursor_key cursor) (order_by purge_key (candidate_rows cutoff d)) = rest).
  { fold (due_purges cutoff d). rewrite Hrest. by apply filter_all_true. }
  split.
  - rewrite purge_candidates_read; cbn [purge_cutoff purge_limit purge_after]; rewrite ?unix_of_time_of_unix; [|done|lia|done|done].
    set (kp := keyset_page _ _ _ _). assert (Hkept : kp.1 = page) by (unfold kp; by rewrite keyset_page_kept, Hrows).
    assert (Hmore : is_present kp.2 = (Z.to_nat limit <? length rest)%nat).
    { unfold kp, keyset_page. rewrite Hrows. destruct (Nat.ltb_spec (Z.to_nat limit) (length rest)) as [Hlt|Hge].
      - rewrite length_take. replace (Z.to_nat limit <? S (Z.to_nat limit) `min` length rest)%nat with true by (symmetry; apply Nat.ltb_lt; lia).
        cbn. rewrite take_take, Nat.min_l by lia. destruct (list.last (take (Z.to_nat limit) rest)) eqn:E; [done|]. apply last_None, (f_equal length) in E. rewrite !length_take in E. simpl in E. lia.
      - rewrite length_take. replace (Z.to_nat limit <? S (Z.to_nat limit) `min` length rest)%nat with false; [done|].
        symmetry. apply Nat.ltb_ge. lia. }
    rewrite Hkept. unfold next. rewrite <- Hmore. by destruct kp.2.
  - apply purge_page_valid.
    + intros c Hc. apply Hd. rewrite Hrest. by eapply in_take.
    + apply strictly_sorted_take. rewrite <- Hrest. apply due_purges_sorted.
    + intros c Hc. right. apply Hafter. by eapply in_take.
    + unfold page. rewrite length_take. lia.
Qed.

Lemma truncate_ok purged r : progress_ok purged r → progress_ok purged (truncate_result r).
Proof using. by intros []. Qed.
Lemma due_after_last purged page rest c : due = purged ++ page ++ rest → list.last page = Some c →
  ∀ x, In x rest → key_ltb (purge_key c) (purge_key x) = true.
Proof using.
  intros Hdue Hc x Hx. pose proof (due_purges_sorted cutoff (retention_db s0)) as Hs. rewrite Hdue in Hs.
  apply StronglySorted_app_parts in Hs as (_&Hs&_). apply StronglySorted_app_parts in Hs as (_&_&Hs). apply Hs; [|done].
  apply last_some_app in Hc as [p ->]. apply in_or_app. right. by left.
Qed.

Lemma retention_loop_run fuel purged rest cursor r : due = purged ++ rest → progress_ok purged r → result_truncated r = false →
  purge_cursor_ok cutoff cursor → (∀ c, In c rest → key_ltb (purge_cursor_key cursor) (purge_key c) = true) →
  result_count r < MaximumPurgeAttemptsPerRun → MaximumPurgeAttemptsPerRun - result_count r < Z.of_nat fuel →
  let left := Z.to_nat (MaximumPurgeAttemptsPerRun - result_count r) in
  ∃ r', @retention_loop _ retention_store repository_retention fuel id cursor r (progress_store purged (progress_row r)) =
          Some (r', None, progress_store (purged ++ take left rest) (progress_row r')) ∧
        progress_ok (purged ++ take left rest) r' ∧ result_truncated r' = (left <? length rest)%nat.
Proof using All.
  revert purged rest cursor r. induction fuel as [|fuel IH]; intros purged rest cursor r Hdue Hr Htr Hcur Hafter Hc Hfuel left; [lia|].
  set (limit := purge_page_limit r). set (n := Z.to_nat limit). set (page := take n rest).
  assert (Hlim : 0 < limit ≤ MaximumPurgeCandidatePage ∧ limit ≤ MaximumPurgeAttemptsPerRun - result_count r).
  { unfold limit, purge_page_limit, MaximumPurgeCandidatePage. lia. }
  destruct (purge_page_read purged rest (progress_row r) cursor limit) as [Hread Hvalid]; [done|done|done|lia|]. fold n page in Hread, Hvalid.
  set (next := if (n <? length rest)%nat then match list.last page with Some c => purge_position c | None => purge_start end else purge_start) in Hread, Hvalid. set (s := progress_store purged (progress_row r)) in *.
  cbn [retention_loop]. fold limit. rewrite (proj2 (Z.ltb_lt _ _) Hc). cbn [negb].
  change (world_done s) with false. cbv iota. rewrite (progress_cutoff _ _ Hr).
  change (world_candidates ?q s) with (PurgeCandidates plain_call q (retention_db s), s). rewrite Hread. cbv beta iota. rewrite Hvalid. cbn [negb purge_candidates purge_next].
  assert (Hlen : length page = (n `min` length rest)%nat) by apply length_take.
  destruct (decide (rest = [])) as [Hnil|Hnil].
  { exists r. replace (length page) with 0%nat by (rewrite Hlen, Hnil; simpl; lia). cbn [Nat.eqb].
    by rewrite Hnil, take_nil, app_nil_r, Htr. }
  assert (Hpos : (0 < length rest)%nat) by (destruct rest; [done|simpl; lia]). assert (Hn : (0 < n)%nat) by lia.
  assert (Hpne : page ≠ []) by (intros He; rewrite He in Hlen; simpl in Hlen; lia).
  replace (length page =? 0)%nat with false by (symmetry; apply Nat.eqb_neq; lia).
  assert (Hdue' : due = purged ++ page ++ drop n rest) by (unfold page; by rewrite take_drop).
  destruct (batch_step purged page (drop n rest) r) as (Hbatch&Hcons&Hok); [done|done|done|lia|lia|]. fold s in Hbatch, Hcons, Hok.
  set (batch := batch_counts cutoff page s) in *. set (r' := add_batch batch (scan_page page r)) in *.
  change (world_batch id page ?at_ s) with (PurgeBatch plain_call id page at_ s). 
  change (result_cutoff (scan_page page r)) with (result_cutoff r). rewrite (progress_cutoff _ _ Hr), Hbatch. cbv iota beta. rewrite Hcons. cbn [negb].
  fold r'. assert (Hcount : result_count r' = result_count r + Z.of_nat (length page)) by done.
  assert (Htr' : result_truncated r' = false) by done.
  assert (Hsplit : ∀ m, (n <= m)%nat → take m rest = page ++ take (m - n) (drop n rest)).
  { intros m Hm. unfold page. rewrite take_take_drop. f_equal. lia. }
  assert (Hnl : (n <= left)%nat) by (unfold left; lia).
  unfold next. destruct (Nat.ltb_spec n (length rest)) as [Hmore|Hdone].
  - destruct (list.last page) as [c|] eqn:Hlast; [|by apply last_None in Hlast].
    assert (Hc' : candidate_ok cutoff c).
    { apply (due_split _ _ _ Hdue'). apply last_some_app in Hlast as [p ->]. apply in_or_app. right. by left. }
    rewrite position_not_start by apply Hc'. destruct (Z.eqb_spec (result_count r') MaximumPurgeAttemptsPerRun) as [He|Hne].
    + exists (truncate_result r'). assert (left = n) as -> by (unfold left; lia). fold page. split_and!; [done|by apply truncate_ok|].
      symmetry. by apply Nat.ltb_lt.
    + destruct (IH (purged ++ page) (drop n rest) (purge_position c) r') as (r2&Hrun&Hok2&Htr2); try done; [by rewrite <- app_assoc|..].
      * right. by exists c.
      * by apply (due_after_last purged page).
      * lia.
      * lia.
      * exists r2. rewrite <- app_assoc in Hrun, Hok2. rewrite (Hsplit left) by done.
        replace (left - n)%nat with (Z.to_nat (MaximumPurgeAttemptsPerRun - result_count r')) by (unfold left; lia).
        split_and!; [done|done|]. rewrite Htr2, length_drop. apply eq_true_iff_eq. rewrite !Nat.ltb_lt. unfold left. lia.
  - assert (page = rest) as Hall by (apply take_ge; lia). exists r'. change (purge_cursor_eqb purge_start purge_start) with true. cbv iota.
    rewrite (take_ge rest left), Hall by lia. rewrite <- Hall. split_and!; [done|done|]. rewrite Htr'. symmetry. apply Nat.ltb_ge. rewrite Hall. lia.
Qed.

(** *** Beginning and finishing *)

Lemma acquire_run {S} (s : S) : acquire_write plain_call (s, []) = (Ok tt, (s, [])).
Proof using. done. Qed.

Definition no_progress : purge_result := PurgeResult observed cutoff 0 None None 0 false 0 0 0 0 0.
Lemma no_progress_ok : progress_ok [] no_progress.
Proof using. split; simpl; lia. Qed.

Lemma begin_run : validRetentionDigest backup = true → observed ≤ int64_max →
  BeginRetentionRun plain_call (RunStart RetentionPolicyVersion days observed cutoff backup observed) s0 =
  (Ok id, progress_store [] (progress_row no_progress)).
Proof using Hbackup Hdays Hobs Hseq.
  intros Hdig Hmax. unfold BeginRetentionRun, statements. cbn [configured plain_call negb outcomes].
  assert (Hvalid : valid_run_start (RunStart RetentionPolicyVersion days observed cutoff backup observed) = true).
  { unfold valid_run_start, MaximumInactiveRetentionDays in *. cbn [start_policy start_days start_observed start_cutoff start_backup start_started].
    rewrite Hdig, int64_sub_nonneg by (unfold int64_max in *; lia). change (RetentionPolicyVersion =? RetentionPolicyVersion) with true.
    cbn [negb orb]. rewrite !(proj2 (Z.ltb_ge _ _)), (proj2 (Z.leb_gt _ _)) by lia. rewrite Z.eqb_refl. done. }
  rewrite Hvalid. session_run. rewrite acquire_run. session_run.
  unfold insert_run. cbn [start_policy start_days start_observed start_cutoff start_backup start_started].
  assert (Hcheck : run_check (progress_row no_progress) = true) by (apply (counted_row_check []); [apply no_progress_ok|done|by left|by left]).
  change (RunRow _ _ _ _ _ _ _ _ _ _ _ _ _ _ _ _) with (progress_row no_progress). rewrite Hcheck. session_run. rewrite (proj2 (Z.ltb_lt 0 id)) by lia. session_run.
  unfold progress_store. by rewrite purge_inert by apply nothing_inert.
Qed.

Lemma finish_run purged r : progress_ok purged r → result_count r ≤ MaximumPurgeAttemptsPerRun →
  FinishRetentionRun plain_call (finish_of id r RetentionCompleted) (progress_store purged (progress_row r)) =
  (Ok tt, progress_store purged (completed_row r)).
Proof using Hbackup Hdays Hobs Hseq.
  intros Hr Hc. assert (Hr' := Hr). destruct Hr' as []. unfold FinishRetentionRun, statements. cbn [configured plain_call negb outcomes].
  assert (Hp : finish_primary (finish_of id r RetentionCompleted) = result_count r).
  { unfold finish_primary. cbn [finish_of finish_relays finish_discoveries]. unfold int64_add. rewrite int64_wrap_id, progress_primary0; [done|].
    unfold MaximumPurgeAttemptsPerRun, int64_min, int64_max in *. lia. }
  assert (Ha : finish_accounted (finish_of id r RetentionCompleted) = result_count r).
  { unfold finish_accounted. rewrite Hp. cbn [finish_of finish_skipped]. rewrite progress_skipped0. unfold int64_add.
    rewrite int64_wrap_id; [lia|]. unfold MaximumPurgeAttemptsPerRun, int64_min, int64_max in *. lia. }
  assert (Hvalid : valid_run_finish (finish_of id r RetentionCompleted) = true).
  { unfold valid_run_finish. rewrite Hp, Ha. cbn [finish_of finish_id finish_scanned finish_relays finish_discoveries finish_observations finish_events
      finish_skipped finish_batches finish_truncated finish_outcome finish_at]. unfold MaximumPurgeAttemptsPerRun in *.
    rewrite !Z.eqb_refl. str_consts. cbn [negb andb]. apply negb_true_iff.
    destruct (Z.eqb_spec (result_count r) 0) as [Hz|Hz].
    - rewrite Hz in *. replace (result_batches r) with 0 by lia. repeat (apply orb_false_iff; split); bool_lia; done.
    - destruct (Z.eqb_spec (result_batches r) 0) as [Hb|Hb]; [lia|]. rewrite (proj2 (Z.ltb_lt 0 (result_count r))) by lia.
      repeat (apply orb_false_iff; split); bool_lia; done. }
  rewrite Hvalid. session_run. cbn [progress_store with_runs retention_runs finish_id finish_of]. rewrite lookup_insert_eq. session_run.
  cbn [progress_row counted_row run_outcome run_policy]. str_consts. rewrite Z.eqb_refl. cbn [negb andb]. cbv iota. session_run.
  assert (Hcheck : contradicts_checkpoint (finish_of id r RetentionCompleted) (progress_row r) = false).
  { unfold contradicts_checkpoint. cbn [finish_of finish_id finish_scanned finish_relays finish_discoveries finish_observations finish_events
      finish_skipped finish_batches finish_truncated finish_outcome finish_at progress_row counted_row run_scanned run_relays run_discoveries
      run_observations run_events run_skipped run_batches]. rewrite !Z.eqb_refl, !Z.ltb_irrefl. done. }
  rewrite Hcheck. session_run. rewrite acquire_run. session_run. rewrite (update_running _ (progress_row r)); [|apply lookup_insert_eq|done].
  assert (Hrow : finish_row (finish_of id r RetentionCompleted) (progress_row r) = completed_row r).
  { unfold finish_row, completed_row, counted_row. cbn. by rewrite progress_observed0. }
  rewrite Hrow. assert (Hupd : run_update_ok (progress_row r) (completed_row r) = true).
  { unfold run_update_ok, progress_row, completed_row, counted_row. cbn [run_policy run_days run_observed run_cutoff run_backup run_started run_scanned
      run_relays run_discoveries run_observations run_events run_skipped run_batches run_truncated run_outcome run_finished].
    rewrite String.eqb_refl. str_consts. bool_lia; done. }
  rewrite Hupd. assert (Hrc : run_check (completed_row r) = true).
  { apply (counted_row_check purged); [done|done| |by right]. by destruct (result_truncated r); [right|left]. }
  rewrite Hrc. cbn [andb]. session_run. rewrite Z.eqb_refl. unfold progress_store. cbn [with_runs retention_runs retention_run_seq]. by rewrite insert_insert_eq.
Qed.

Lemma run_whole observedAt : unix_of observedAt = observed → observed ≤ int64_max → validRetentionDigest backup = true →
  let purged := take (Z.to_nat MaximumPurgeAttemptsPerRun) due in
  ∃ r, @RetentionRun _ retention_store repository_retention days observedAt backup s0 =
         Some (r, None, None, progress_store purged (completed_row r)) ∧
       progress_ok purged r ∧ result_truncated r = (Z.to_nat MaximumPurgeAttemptsPerRun <? length due)%nat.
Proof using All.
  intros Hat Hmax Hdig purged.
  destruct (retention_loop_run retention_fuel [] due purge_start no_progress) as (r&Hloop&Hok&Htr); try done.
  - by left.
  - intros c Hc. destruct (Hready c Hc) as [Hv _ _ _]. destruct (valid_candidate_facts c Hv) as (_&Hne&H0).
    unfold purge_key, purge_cursor_key. cbn [purge_position purge_at purge_actor purge_kind purge_start].
    unfold key_ltb. cbn [pair_order fst snd]. change (key_ltb (K:=Z)) with Z.ltb. destruct (Z.eqb_spec (inactive_unix c) 0) as [->|Hz].
    + cbn. apply orb_true_iff. left. by destruct (purged_actor c).
    + rewrite (proj2 (Z.ltb_lt 0 (inactive_unix c))) by lia. done.
  - exists r. split_and!; [|done|done].
    unfold RetentionRun, validRetentionDays, retention_cutoff. rewrite Hat. unfold validRetentionDays.
    rewrite (proj2 (Z.leb_gt days 0)), (proj2 (Z.leb_le 0 days)), (proj2 (Z.leb_le days _)), Hbackup by lia. cbn [negb orb andb].
    rewrite (proj2 (Z.ltb_ge observed 0)), (proj2 (Z.ltb_ge observed (days * 86400))) by lia. cbv zeta iota beta.
    change (world_done s0) with false. cbv iota.
    change (world_begin ?x s0) with (BeginRetentionRun plain_call x s0). rewrite begin_run by done. cbv iota beta.
    fold no_progress. cbn [app] in Hloop. rewrite Hloop. cbn [retention_outcome].
    change (world_finish ?f ?s) with (FinishRetentionRun plain_call f s). cbn [app] in Hok.
    rewrite finish_run; [done|done|]. rewrite (progress_count _ _ Hok), length_take.
    change (result_count no_progress) with 0. unfold MaximumPurgeAttemptsPerRun. lia.
Qed.
End Run.

(** ** Any repository *)

Section AnyWorld.
Context `{RelayIdentity} {W : Type} `{RetentionWorld W}.

(** Each page the loop goes on from adds a candidate, so the fuel is enough. *)
Lemma retention_loop_total fuel runID cursor r w : result_count r ≤ MaximumPurgeAttemptsPerRun →
  MaximumPurgeAttemptsPerRun - result_count r < Z.of_nat fuel → is_Some (retention_loop fuel runID cursor r w).
Proof.
  revert cursor r w. induction fuel as [|fuel IH]; intros cursor r w Hc Hf; cbn [retention_loop]; [lia|].
  destruct (Z.ltb_spec (result_count r) MaximumPurgeAttemptsPerRun) as [Hlt|]; [|by eexists]. cbn [negb].
  destruct (world_done w); [by eexists|]. destruct (world_candidates _ w) as [[page|e] w1]; [|by eexists].
  destruct (validatePurgePage _ _ _ _) eqn:Hv; [|by eexists]. unfold validatePurgePage in Hv. cbn [negb].
  destruct (Z.ltb_spec (purge_page_limit r) (Z.of_nat (length (purge_candidates page)))) as [|Hl]; [done|]. unfold purge_page_limit in Hl.
  destruct (Nat.eqb_spec (length (purge_candidates page)) 0) as [|Hlen]; [by eexists|]. cbv zeta.
  destruct (world_batch _ _ _ w1) as [[batch|e] w2]; [|by eexists]. destruct (negb _); [by eexists|].
  destruct (purge_cursor_eqb _ _); [by eexists|]. destruct (_ =? _); [by eexists|].
  apply IH; cbn [add_batch scan_page result_count]; lia.
Qed.
Lemma RetentionRun_total days observedAt backup w : is_Some (RetentionRun days observedAt backup w).
Proof.
  unfold RetentionRun. destruct (_ || _); [by eexists|]. destruct (retention_cutoff days observedAt) as [[o c]|e]; [|by eexists].
  destruct (world_done w); [by eexists|]. destruct (world_begin _ w) as [[runID|e] w1]; [|by eexists].
  destruct (retention_loop_total retention_fuel runID purge_start (PurgeResult o c 0 None None 0 false 0 0 0 0 0) w1) as [[[r e] w2] Hl]; [done..|].
  rewrite Hl. destruct (world_finish _ w2). by eexists.
Qed.
End AnyWorld.

(** ** The runs of the repository *)

Section Runs.
Context `{RelayIdentity}.
Existing Instance repository_retention.

Lemma digest_accepted value : hex_digest value = true → validRetentionDigest value = true.
Proof.
  unfold hex_digest, validRetentionDigest. intros [-> Hb]%andb_true_iff. cbn [andb].
  assert (Hc : ∀ c, is_digit c || in_range c "a"%char "f"%char = true → is_hex c = true ∧ lower_byte c = c).
  { intros [[] [] [] [] [] [] [] []]; vm_compute; intros [=]; done. }
  rewrite forallb_forall in Hb. apply andb_true_iff. split.
  - apply forallb_forall. intros c Hin. by apply Hc, Hb.
  - apply bytes_eqb_eq. induction (b value) as [|c l IH]; [done|]. simpl. f_equal; [by apply Hc, Hb; left|].
    apply IH. intros x Hx. apply Hb. by right.
Qed.

(** C21: A retention run over the undisturbed repository returns without error. It
    purges exactly the first thousand, in their order, of the relays and
    discoveries inactive until its cutoff, none of them skipped; what is left to
    purge is the rest of that list; and the finished audit row of the run carries
    the counts of the result. *)
Theorem RetentionRun_purges days observedAt backup s :
  let observed := unix_of observedAt in let cutoff := observed - days * 86400 in
  let listed := due_purges cutoff (retention_db s) in let purged := take 1000 listed in
  db_ok (retention_db s) → numbered (retention_db s) → events_guarded s = true → 0 ≤ retention_run_seq s →
  0 < days ≤ MaximumInactiveRetentionDays → days * 86400 ≤ observed ≤ int64_max → hex_digest backup = true →
  ∃ r s', RetentionRun days observedAt backup s = Some (r, None, None, s') ∧
    result_count r = Z.of_nat (length purged) ∧ result_relays r + result_discoveries r = result_count r ∧ result_skipped r = 0 ∧
    result_truncated r = (1000 <? length listed)%nat ∧
    retention_db s' = purge_db cutoff purged (retention_db s) ∧ due_purges cutoff (retention_db s') = drop 1000 listed ∧
    retention_runs s' = <[retention_run_seq s + 1 := completed_row days observed backup r]> (retention_runs s).
Proof.
  intros observed cutoff listed purged Hd Hn Hg Hseq Hdays [Hobs Hmax] Hdig.
  destruct (run_whole days observed backup s Hdays Hobs Hdig Hg Hseq (db_ok_ready _ _ Hd Hn) observedAt) as (r&Hrun&Hok&Htr);
    [done|done|by apply digest_accepted|].
  change (Z.to_nat MaximumPurgeAttemptsPerRun) with 1000%nat in *. fold cutoff listed in Hrun, Hok, Htr. fold purged in Hrun, Hok.
  exists r. eexists. split; [exact Hrun|]. split_and!; try done; try apply Hok.
  apply (due_purges_rest cutoff). unfold purged. by rewrite take_drop.
Qed.

(** [n] runs one after the other, observing the same time. *)
Fixpoint RetentionRuns (n : nat) (days observedAt : Z) (backup : string) (s : retention_store) : option retention_store :=
  match n with
  | O => Some s
  | S n => match RetentionRun days observedAt backup s with
           | Some (_, None, None, s') => RetentionRuns n days observedAt backup s'
           | _ => None
           end
  end.

(** C22: Enough retention runs reach every candidate: after [n] successful runs at
    one time, where the list had at most a thousand candidates per run, no
    active relay unregistered or pruned until the cutoff and no discovery removed
    until it remains. *)
Theorem retention_runs_drain n days observedAt backup s :
  let observed := unix_of observedAt in let cutoff := observed - days * 86400 in
  db_ok (retention_db s) → numbered (retention_db s) → events_guarded s = true → 0 ≤ retention_run_seq s →
  0 < days ≤ MaximumInactiveRetentionDays → days * 86400 ≤ observed ≤ int64_max → hex_digest backup = true →
  (length (due_purges cutoff (retention_db s)) <= n * 1000)%nat →
  ∃ s', RetentionRuns n days observedAt backup s = Some s' ∧
    (∀ a r, relays (retention_db s') !! a = Some r → relay_inactive cutoff r = false) ∧
    (∀ a r, discoveries (retention_db s') !! a = Some r → discovery_inactive cutoff r = false).
Proof.
  intros observed cutoff Hd Hn Hg Hseq Hdays [Hobs Hmax] Hdig Hlen. pose proof (db_ok_ready cutoff _ Hd Hn) as Hready. clear Hd Hn.
  revert s Hg Hseq Hlen Hready. induction n as [|n IH]; intros s Hg Hseq Hlen Hready.
  - exists s. split; [done|]. assert (Hnone : ∀ c, ¬ In c (due_purges cutoff (retention_db s))).
    { intros c Hc. apply in_split in Hc as (p&q&Hpq). rewrite Hpq, length_app in Hlen. simpl in Hlen. lia. }
    split; intros a r Hr; apply not_true_is_false; intros Hi.
    + apply (Hnone (lifecycle_candidate (retention_db s) a r)). apply due_purges_in. left. apply lifecycle_candidates_in. eauto.
    + apply (Hnone (discovery_candidate (retention_db s) a r)). apply due_purges_in. right. apply discovery_candidates_in. eauto.
  - destruct (run_whole days observed backup s Hdays Hobs Hdig Hg Hseq Hready observedAt) as (r&Hrun&_); [done|done|by apply digest_accepted|].
    cbn [RetentionRuns]. rewrite Hrun. change (Z.to_nat MaximumPurgeAttemptsPerRun) with 1000%nat. fold cutoff.
    set (purged := take 1000 (due_purges cutoff (retention_db s))). apply IH; [done|cbn; lia| |].
    + change (retention_db (progress_store days observed s purged (completed_row days observed backup r))) with (purge_db cutoff purged (retention_db s)).
      rewrite (due_purges_rest cutoff purged (drop 1000 (due_purges cutoff (retention_db s)))) by (symmetry; apply take_drop).
      rewrite length_drop. lia.
    + apply (purge_ready_after cutoff purged); [|done]. intros c. apply in_take.
Qed.
End Runs.

(** * Concrete purges A relay that registered and left is purged by a one-day policy: instances of the theorems on batches and runs. *)

From S2P Require Import Lifecycle System Guarantees ReachabilityFacts.

Definition left_db : db := after (OpUnregister sample_actor) beat_time sample_enrolled.
Definition left_store : retention_store := RetentionStore left_db ∅ ∅ ∅ 0 true.
Definition sample_backup : string := "0123456789abcdef0123456789abcdef0123456789abcdef0123456789abcdef".
Definition retention_time : Z := time_of_unix 100000.

Lemma left_db_ok : db_ok left_db.
Proof. apply after_ok; [apply sample_enrolled_ok|clock]. Qed.
Lemma numbered_computed d : forallb (λ e, 0 <=? event_id e) (relay_events d) && forallb (λ e, 0 <=? moderation_event_id e) (moderation_events d) &&
  forallb (λ e, 0 <=? discovery_event_id e) (discovery_events d) = true → numbered d.
Proof.
  intros Hn. bool_facts. rewrite !forallb_forall in *. split; intros e He; apply Z.leb_le; auto.
Qed.
Lemma left_numbered : numbered left_db.
Proof. apply numbered_computed. evaluate. Qed.

Lemma RetentionRun_purges_witness :
  ∃ r s', @RetentionRun go_identity retention_store repository_retention 1 retention_time sample_backup left_store = Some (r, None, None, s') ∧
    result_count r = 1 ∧ retention_runs s' !! 1 = Some (completed_row 1 100000 sample_backup r).
Proof.
  assert (Hd : 0 < 1 ≤ MaximumInactiveRetentionDays) by (vm_compute; split; [reflexivity|discriminate]).
  assert (Ho : 1 * 86400 ≤ unix_of retention_time ≤ int64_max) by (vm_compute; split; discriminate).
  assert (Hb : hex_digest sample_backup = true) by (vm_compute; reflexivity).
  destruct (RetentionRun_purges 1 retention_time sample_backup left_store left_db_ok left_numbered eq_refl ltac:(vm_compute; discriminate) Hd Ho Hb)
    as (r&s'&Hrun&Hcount&_&_&_&_&_&Hruns).
  exists r, s'. split_and!; [exact Hrun|rewrite Hcount; vm_compute; reflexivity|rewrite Hruns; apply lookup_insert_eq].
Defined.

Lemma retention_runs_drain_witness :
  ∃ s', RetentionRuns 1 1 retention_time sample_backup left_store = Some s' ∧
    ∀ a r, relays (retention_db s') !! a = Some r → relay_inactive 13600 r = false.
Proof.
  assert (Hd : 0 < 1 ≤ MaximumInactiveRetentionDays) by (vm_compute; split; [reflexivity|discriminate]).
  assert (Ho : 1 * 86400 ≤ unix_of retention_time ≤ int64_max) by (vm_compute; split; discriminate).
  assert (Hb : hex_digest sample_backup = true) by (vm_compute; reflexivity).
  assert (Hlen : (length (due_purges (unix_of retention_time - 1 * 86400) (retention_db left_store)) <= 1 * 1000)%nat)
    by (apply Nat.leb_le; vm_compute; reflexivity).
  destruct (retention_runs_drain 1 1 retention_time sample_backup left_store left_db_ok left_numbered eq_refl ltac:(vm_compute; discriminate) Hd Ho Hb Hlen)
    as (s'&Hruns&Hrelays&_).
  exists s'. split; [exact Hruns|exact Hrelays].
Defined.

(** The batch of that run: a stale copy of the candidate is skipped. *)
Definition started_store : retention_store :=
  (BeginRetentionRun plain_call (RunStart RetentionPolicyVersion 1 100000 13600 sample_backup 100000) left_store).2.
Definition left_candidate : purge_candidate := PurgeCandidate PurgeCandidateLifecycle sample_actor lifecycleUnregistered 2000 2000 2 0 0 3.
Definition stale_candidate : purge_candidate := PurgeCandidate PurgeCandidateLifecycle sample_actor lifecycleUnregistered 2000 2000 1 0 0 3.

Lemma PurgeBatch_purges_witness :
  ∃ s', PurgeBatch plain_call 1 [stale_candidate; left_candidate] (time_of_unix 13600) started_store = (Ok (BatchResult 2 1 0 1 2 1), s') ∧
    ∃ run, retention_runs started_store !! 1 = Some run ∧ accepts_batch 13600 run = true ∧
      s' = with_runs (<[1 := checkpoint (BatchResult 2 1 0 1 2 1) run]> (retention_runs started_store)) (retention_run_seq started_store)
             (purge_store 13600 [stale_candidate; left_candidate] started_store).
Proof.
  destruct (PurgeBatch plain_call 1 [stale_candidate; left_candidate] (time_of_unix 13600) started_store) as [out s'] eqn:Hp.
  assert (Ho : out = Ok (BatchResult 2 1 0 1 2 1)).
  { change out with (out, s').1. rewrite <- Hp. vm_compute. reflexivity. }
  pose proof (PurgeBatch_purges _ _ _ _ _ _ _ Hp) as Hs. rewrite Ho in Hs |- *. destruct Hs as [_ Hs].
  exists s'. split; [reflexivity|exact Hs].
Defined.
