(* ===== verification/Writes.v ===== *)
(** * Writes: every write of the repositories, in any order

    The tables of one directory database side by side and the calls that write them:
    the directory's own operations, discovery candidates, profiles, telemetry,
    signature reservations and the retention run with its destructive batches.  A
    store is reachable when any such calls, under any admission answers and driver
    outcomes, lead to it from an empty one; [store_ok] holds of every such store. *)
From S2P Require Import Prelude GoNet Identity AddrText Canonical Vocabulary Store Session Repository Lifecycle Discovery Reachability Candidates Pruning Invariant Contract Refinement System Guarantees CandidateContract Telemetry Profile ProfileFacts ProfileReplace Replay Retention RetentionPurge.
Local Open Scope string_scope.
Local Open Scope Z_scope.
Local Open Scope go_scope.
Local Open Scope list_scope.

(** ** The store and its writes *)

Record store := Stored {
  tables : retention_store; stored_candidates : gmap string candidate_row;
  candidate_trail : list candidate_event; profile_trail : list profile_event }.
Definition database (s : store) : db := retention_db (tables s).
Definition empty_store : store := Stored (RetentionStore initial_db ∅ ∅ ∅ 0 true) ∅ [] [].

(** The tables each repository sees, and the store it leaves. *)
Definition with_database (d : db) (s : store) : store :=
  Stored (with_db d (tables s)) (stored_candidates s) (candidate_trail s) (profile_trail s).
Definition with_tables (t : retention_store) (s : store) : store :=
  Stored t (stored_candidates s) (candidate_trail s) (profile_trail s).
Definition candidate_view (s : store) : candidate_store := CandidateStore (database s) (stored_candidates s) (candidate_trail s).
Definition with_candidates (c : candidate_store) (s : store) : store :=
  Stored (with_db (candidate_db c) (tables s)) (candidates c) (candidate_events c) (profile_trail s).
Definition profile_view (s : store) : profile_state := ProfileState (database s) (retention_profiles (tables s)) (profile_trail s).
Definition with_profiles (p : profile_state) (s : store) : store :=
  let t := tables s in
  Stored (RetentionStore (profile_db p) (retention_telemetry t) (profile_values p) (retention_runs t) (retention_run_seq t) (events_guarded t))
    (stored_candidates s) (candidate_trail s) (profile_events p).
Definition with_telemetry_rows (rows : gmap string telemetry_row) (s : store) : store :=
  let t := tables s in
  with_tables (RetentionStore (retention_db t) rows (retention_profiles t) (retention_runs t) (retention_run_seq t) (events_guarded t)) s.
Definition with_reservations (rows : replay_table) (s : store) : store := with_database (set_replay rows (database s)) s.

Section Writes.
Context `{RelayIdentity} `{!CanonicalURLs}.

Inductive write :=
| WriteDirectory (o : operation)
| WriteCandidate (o : candidate_call)
| WriteProfile (intent : ProfileSourceIntent)
| WriteReceiving (intent : TelemetryIntent)
| WriteParticipating (intent : ParticipatingTelemetryIntent)
| WriteReservation (canceled : bool) (cleanupBatch : Z) (key : string) (expiresAt : Z)
| WriteCleanup (canceled : bool) (maximum : Z)
| WriteRunStart (start : run_start)
| WriteBatch (runID : Z) (batch : list purge_candidate)
| WriteRunFinish (finish : run_finish).

(** One call at [t], with its admission answer and driver outcomes in [c]. *)
Definition written (c : call) (w : write) (t : Z) (s : store) : store :=
  match w with
  | WriteDirectory o => with_database (perform c o t (database s)).2 s
  | WriteCandidate o => with_candidates (candidate_perform c o t (candidate_view s)).2 s
  | WriteProfile intent => with_profiles (ReplaceProfileSource c intent t (profile_view s)).2 s
  | WriteReceiving intent => with_telemetry_rows (ReplaceRelayTelemetry c intent t (database s) (retention_telemetry (tables s))).2 s
  | WriteParticipating intent =>
      with_telemetry_rows (ReplaceRelayParticipatingTelemetry c intent t (database s) (retention_telemetry (tables s))).2 s
  | WriteReservation canceled cleanupBatch key expiresAt =>
      with_reservations (ReserveRFC9421Replay c canceled cleanupBatch t key expiresAt (replay_reservations (database s))).2 s
  | WriteCleanup canceled maximum =>
      with_reservations (CleanupExpiredRFC9421Replay c canceled t maximum (replay_reservations (database s))).2 s
  | WriteRunStart start => with_tables (BeginRetentionRun c start (tables s)).2 s
  | WriteBatch runID batch => with_tables (PurgeBatch c runID batch t (tables s)).2 s
  | WriteRunFinish finish => with_tables (FinishRetentionRun c finish (tables s)).2 s
  end.

Inductive reachable : store → Prop :=
| reachable_empty : reachable empty_store
| reachable_write c w t s : reachable s → clock_ok t → reachable (written c w t s).

(** ** The invariant of the whole store *)

Record store_ok (s : store) : Prop := {
  store_candidates : candidate_inv (candidate_view s);
  store_profiles : profile_ok (profile_view s);
  profiles_owned : ∀ a k r, retention_profiles (tables s) !! (a, k) = Some r → retained_identity a (database s) = true;
  store_telemetry : telemetry_ok (retention_telemetry (tables s));
  telemetry_owned : ∀ a r, retention_telemetry (tables s) !! a = Some r → is_Some (relays (database s) !! a);
  store_runs : ∀ id r, retention_runs (tables s) !! id = Some r → run_check r = true ∧ 1 ≤ id ≤ retention_run_seq (tables s);
  store_run_seq : 0 ≤ retention_run_seq (tables s);
  store_reservations : ∀ key r, replay_reservations (database s) !! key = Some r → replay_check key r = true;
  store_guarded : events_guarded (tables s) = true }.

Lemma store_db_ok s : store_ok s → db_ok (database s).
Proof. intros Hs. apply (candidates_db _ (store_candidates _ Hs)). Qed.

Lemma empty_store_ok : store_ok empty_store.
Proof.
  split; cbn; try done. apply initial_candidates_ok, initial_db_ok.
Qed.
End Writes.

(** ** Identities a change keeps *)

(** No key is lost. *)
Definition extends {V} (m m' : gmap string V) : Prop := ∀ a, is_Some (m !! a) → is_Some (m' !! a).
Lemma extends_refl {V} (m : gmap string V) : extends m m.
Proof. by intros a. Qed.
Lemma extends_insert {V} (m : gmap string V) a v : extends m (<[a := v]> m).
Proof. intros b Hb. apply lookup_insert_is_Some'. by right. Qed.

(** [d'] retains every relay and every discovery of [d], and its reservations. *)
Definition retains (d d' : db) : Prop :=
  extends (relays d) (relays d') ∧ extends (discoveries d) (discoveries d') ∧ replay_reservations d' = replay_reservations d.
Lemma retains_refl d : retains d d.
Proof. split_and!; first [apply extends_refl|done]. Qed.
Lemma retains_identity a d d' : retains d d' → retained_identity a d = true → retained_identity a d' = true.
Proof.
  intros (Hr&Hd&_). unfold retained_identity, not_null. specialize (Hr a). specialize (Hd a).
  destruct (relays d !! a), (discoveries d !! a), (relays d' !! a), (discoveries d' !! a); simpl; try done;
    first [by destruct Hr; eauto|by destruct Hd; eauto].
Qed.

Section Retaining.
Context `{RelayIdentity}.

(** An operation puts at most one row into each table. *)
Ltac retaining := split_and!; first [apply extends_refl | apply extends_insert | reflexivity].

Lemma registration_retains o t d out d' : promised o t d = Ok (out, d') →
  (match o with OpRegister _ | OpHeartbeat _ | OpUnregister _ | OpSuspend _ | OpRestore _ => true | _ => false end) = true → retains d d'.
Proof.
  intros Hp Ho. destruct o; try done; clear Ho; simpl in Hp.
  - unfold Register_promise in Hp. guards Hp. destruct (registered_row _ _ _) as [[row out'] kind]. injection Hp as _ <-. retaining.
  - unfold Heartbeat_promise in Hp. guards Hp. destruct (relays d !! actor); [|done]. guards Hp. injection Hp as _ <-. retaining.
  - unfold Unregister_promise in Hp. guards Hp.
    destruct (relays d !! actor) as [r|]; [destruct (lifecycle_state r ≟ lifecycleRegistered)|]; injection Hp as _ <-;
      match goal with |- context [retained_identity actor ?w] => destruct (retained_identity actor w) end; retaining.
  - unfold moderate_promise in Hp. guards Hp. destruct (relays d !! moderation_intent_actor intent) as [r|]; [|done]. guards Hp.
    destruct (administrative_state r ≟ administrativeSuspended); injection Hp as _ <-; retaining.
  - unfold moderate_promise in Hp. guards Hp. destruct (relays d !! moderation_intent_actor intent) as [r|]; [|done]. guards Hp.
    destruct (administrative_state r ≟ administrativeSuspended); injection Hp as _ <-; retaining.
Qed.
Lemma promised_retains o t d out d' : promised o t d = Ok (out, d') → retains d d'.
Proof.
  intros Hp. destruct o; try (by eapply registration_retains); simpl in Hp.
  - unfold SetEnrollment_promise in Hp. guards Hp. destruct (classifyEnrollment _ _) as [x y]. injection Hp as _ <-.
    destruct (Bool.eqb _ _); retaining.
  - unfold AddDiscovery_promise in Hp. guards Hp.
    destruct (discoveries d !! add_actor intent) as [r|]; [destruct (discovery_state r ≟ discoveryActive)|guards Hp];
      injection Hp as _ <-; retaining.
  - unfold RemoveDiscovery_promise in Hp. guards Hp.
    destruct (discoveries d !! remove_actor intent) as [r|]; [destruct (discovery_state r ≟ discoveryActive)|]; injection Hp as _ <-; retaining.
  - unfold RecordActorObservation_promise in Hp. guards Hp. injection Hp as _ <-. retaining.
  - unfold RecordInboxObservation_promise in Hp. guards Hp. destruct (observations d !! inbox_intent_actor intent); [|done]. guards Hp.
    injection Hp as _ <-. retaining.
  - unfold RecordReachabilityObservation_promise in Hp. guards Hp. destruct (_ || _) in Hp; [|guards Hp]; injection Hp as _ <-; retaining.
  - unfold SoftPrune_promise in Hp. guards Hp.
    destruct (relays d !! actor) as [r|]; [destruct (lifecycle_state r ≟ lifecyclePruned); [|destruct (_ && _) in Hp]|];
      injection Hp as _ <-; retaining.
Qed.

Lemma promoted_retains intent t d : retains d (promoted_db intent t d).
Proof.
  unfold promoted_db, promoted_event_db, promoted_discovery.
  destruct (discoveries d !! promotion_actor intent) as [x|]; [destruct (discovery_state x ≟ discoveryActive)|]; retaining.
Qed.
Lemma candidate_promised_retains o t s out s' : candidate_promised o t s = (out, s') → retains (candidate_db s) (candidate_db s').
Proof.
  destruct o as [intent|intent]; cbn [candidate_promised].
  - unfold RetainDiscoveryCandidate_promise. intros Hp. repeat case_match; injection Hp as _ <-; apply retains_refl.
  - unfold PromoteDiscoveryCandidate_promise. intros Hp.
    repeat case_match; injection Hp as _ <-; first [apply promoted_retains | apply retains_refl].
Qed.
End Retaining.

(** ** Purging keeps the database valid *)

Section Purging.
Context `{RelayIdentity} (cutoff : Z) (l : list purge_candidate).

Lemma purge_latest a d : latest_relay_event a (purge_db cutoff l d) = if relay_purged cutoff l d a then None else latest_relay_event a d.
Proof.
  unfold latest_relay_event. simpl. destruct (relay_purged cutoff l d a) eqn:Ha.
  - assert (Hnil : List.filter (λ e, event_actor e ≟ a)
      (List.filter (λ e, negb (relay_purged cutoff l d (event_actor e))) (relay_events d)) = []); [|by rewrite Hnil].
    induction (relay_events d) as [|e es IH]; [done|]. cbn [List.filter]. destruct (String.eqb_spec (event_actor e) a) as [He|He].
    + rewrite He, Ha. exact IH.
    + destruct (relay_purged cutoff l d (event_actor e)); [exact IH|]. cbn [negb List.filter]. by rewrite (proj2 (String.eqb_neq _ _) He).
  - rewrite filter_filter_on; [done|]. intros e _ He%String.eqb_eq. by rewrite He, Ha.
Qed.
(** A row nothing of which was purged, or whose other owner stays, is still owned. *)
Lemma purge_retained a d : retained_identity a d = true → unowned cutoff l d a = false → retained_identity a (purge_db cutoff l d) = true.
Proof.
  unfold retained_identity, unowned, not_null, is_null. rewrite relays_purge, discoveries_purge.
  pose proof (relay_purged_row cutoff l d a) as Hr. pose proof (discovery_purged_row cutoff l d a) as Hd.
  destruct (relay_purged cutoff l d a), (discovery_purged cutoff l d a), (relays d !! a), (discoveries d !! a); simpl; try done.
Qed.
Lemma purge_incl (d : db) : incl (relay_events (purge_db cutoff l d)) (relay_events d).
Proof. intros e He. simpl in He. by apply filter_In in He as [? _]. Qed.

Lemma purge_db_ok d : db_ok d → db_ok (purge_db cutoff l d).
Proof.
  intros Hd. split.
  - intros a r. rewrite relays_purge. destruct (relay_purged _ _ _ _); [done|]. apply (inv_relays _ _ Hd).
  - apply List.Forall_forall. intros e He%purge_incl. pose proof (inv_relay_events _ _ Hd) as Hev. rewrite List.Forall_forall in Hev. by apply Hev.
  - apply (inv_moderation_events _ _ Hd).
  - apply (inv_policy _ _ Hd).
  - apply (inv_enrollment_events _ _ Hd).
  - intros a r. rewrite discoveries_purge. destruct (discovery_purged _ _ _ _); [done|]. apply (inv_discoveries _ _ Hd).
  - apply (inv_discovery_events _ _ Hd).
  - intros a o. rewrite observations_purge. destruct (unowned cutoff l d a) eqn:Hu; [done|]. intros Ho.
    destruct (inv_observations _ _ Hd a o Ho). split; [done|]. by apply purge_retained.
  - intros a o v. rewrite observations_purge, relays_purge, purge_latest. destruct (unowned _ _ _ _); [done|]. intros Ho Hv.
    destruct (relay_purged _ _ _ _); [by right; left|]. by apply (inv_verified _ _ Hd a o v).
  - intros a g. unfold purge_db at 1. cbn [set_diagnostics diagnostics]. rewrite dropping_lookup.
    destruct (unowned cutoff l d a && not_null (observations d !! a)) eqn:Hu; [done|]. intros Hg.
    destruct (inv_diagnostics _ _ Hd a g Hg) as (?&?&o&x&Ho&?&?). split_and!; [done|done|]. exists o, x.
    rewrite observations_purge. rewrite Ho, andb_true_r in Hu. rewrite Hu. by split_and!.
Qed.
End Purging.

(** ** Sessions that keep a property of the state *)

(** Whatever the driver answers. *)
Definition keeps {S A} (P : S → Prop) (m : Session S A) : Prop := ∀ st, P st.1 → P (m st).2.1.

Section Keeping.
Context {S : Type} (P : S → Prop).

Lemma keeps_ret {A} (a : A) : keeps P (mret a : Session S A).
Proof. by intros st. Qed.
Lemma keeps_fail {A} e : keeps P (fail e : Session S A).
Proof. by intros st. Qed.
Lemma keeps_ensure ok e : keeps P (ensure ok e : Session S unit).
Proof. intros st. rewrite ensure_run. by destruct ok. Qed.
Lemma keeps_bind {A B} (m : Session S A) (k : A → Session S B) : keeps P m → (∀ a, keeps P (k a)) → keeps P (m ≫= k).
Proof. intros Hm Hk st Hst. rewrite sbind_run. specialize (Hm st Hst). destruct (m st) as [[a|e] st']; [by apply Hk|done]. Qed.
Lemma keeps_failing {A} action (m : Session S A) : keeps P m → keeps P (failing action m).
Proof. intros Hm st Hst. rewrite failing_run. specialize (Hm st Hst). by destruct (m st) as [[a|e] st']. Qed.
Lemma keeps_driver : keeps P (call_driver : Session S unit).
Proof. intros [s [|[] fs]]; done. Qed.
Lemma keeps_select {A} (f : S → A) : keeps P (select f).
Proof. apply keeps_bind; [apply keeps_driver|]. by intros _ st. Qed.
Lemma keeps_execute {A} (statement : S → option (S * A)) : (∀ s s' a, P s → statement s = Some (s', a) → P s') → keeps P (execute statement).
Proof.
  intros Hs. apply keeps_bind; [apply keeps_driver|]. intros _ [s fs] Hst. unfold run_statement. cbn [fst snd] in *.
  destruct (statement s) as [[s' a]|] eqn:E; [by eapply Hs|done].
Qed.
Lemma keeps_transact {A} u x y c action (body : Session S A) s : keeps P body → P s → P (transact_as u x y c action body s).2.
Proof.
  intros Hb Hs. unfold transact_as. destruct (negb (configured c)); [done|]. destruct (admission c); [done|].
  match goal with |- context [?m (s, outcomes c)] => assert (Hm : keeps P m) end.
  { apply keeps_bind; [apply keeps_failing, keeps_driver|]. intros _. apply keeps_bind; [done|]. intros a.
    apply keeps_bind; [apply keeps_failing, keeps_driver|]. intros _. apply keeps_ret. }
  specialize (Hm (s, outcomes c) Hs). match goal with |- context [?m (s, outcomes c)] => by destruct (m (s, outcomes c)) as [[a|e] [s' fs]] end.
Qed.
End Keeping.

Ltac keeping :=
  repeat match goal with
  | |- keeps _ (_ ≫= _) => apply keeps_bind; [|intros ?]
  | |- keeps _ (failing _ _) => apply keeps_failing
  | |- keeps _ (match ?x with _ => _ end) => destruct x
  | |- keeps _ call_driver => apply keeps_driver
  | |- keeps _ (ensure _ _) => apply keeps_ensure
  | |- keeps _ (mret _) => apply keeps_ret
  | |- keeps _ (fail _) => apply keeps_fail
  | |- keeps _ (select _) => apply keeps_select
  | |- keeps _ (execute _) => apply keeps_execute; intros s1 s2 ? Hkept Hstatement
  | |- keeps _ (acquire_write ?c) => unfold acquire_write; destruct (admission c)
  end.

(** ** The reservations and the runs *)

Definition reservations_ok (rows : replay_table) : Prop := ∀ key r, rows !! key = Some r → replay_check key r = true.

Lemma subset_reservations rows rows' : reservations_ok rows → (∀ key r, rows' !! key = Some r → rows !! key = Some r) → reservations_ok rows'.
Proof. intros Hok Hsub key r Hr. by apply Hok, Hsub. Qed.
Lemma deleted_reservations rows l : reservations_ok rows → reservations_ok (fold_right (λ row s, delete row.1 s) rows (l : list (string * replay_row))).
Proof.
  intros Hok. induction l as [|x l IH]; [done|]. cbn [fold_right]. apply (subset_reservations _ _ IH).
  intros key r Hr. apply lookup_delete_Some in Hr as [_ Hr]. exact Hr.
Qed.
Lemma keeps_reservation_cleanup now maximum : keeps reservations_ok (cleanupExpiredRFC9421Replay now maximum).
Proof.
  unfold cleanupExpiredRFC9421Replay. keeping. unfold delete_expired in Hstatement. simplify_eq. by apply deleted_reservations.
Qed.
Lemma keeps_reserve batch key now expires : keeps reservations_ok (reserve_tx batch key now expires).
Proof.
  unfold reserve_tx. apply keeps_bind; [|intros _; apply keeps_bind; [apply keeps_reservation_cleanup|intros _]]; keeping.
  - unfold delete_expired_key in Hstatement. destruct (s1 !! key) as [row|]; simplify_eq; [|done]. destruct (_ <=? now); [|done].
    apply (subset_reservations s1); [done|]. intros k r Hr. by apply lookup_delete_Some in Hr as [_ Hr].
  - unfold insert_reservation in Hstatement. destruct (replay_check key _) eqn:Hc; [|done]. cbn [negb] in *. destruct (s1 !! key); simplify_eq; [done|].
    intros k r. destruct (decide (k = key)) as [->|Hk]; [rewrite lookup_insert_eq; by intros [= <-]|]. rewrite lookup_insert_ne by done. by apply Hkept.
Qed.
Lemma reserved_ok c canceled batch clock key expiresAt rows : reservations_ok rows →
  reservations_ok (ReserveRFC9421Replay c canceled batch clock key expiresAt rows).2.
Proof.
  intros Hr. unfold ReserveRFC9421Replay. destruct (replay_validate _ _ _ _ _) as [[now expires]|e]; [|done].
  apply keeps_transact; [apply keeps_reserve|done].
Qed.
Lemma cleanup_reservations_ok c canceled clock maximum rows : reservations_ok rows →
  reservations_ok (CleanupExpiredRFC9421Replay c canceled clock maximum rows).2.
Proof.
  intros Hr. unfold CleanupExpiredRFC9421Replay. repeat (match goal with |- context [if ?x then _ else _] => destruct x end; [done|]).
  apply keeps_transact; [apply keeps_reservation_cleanup|done].
Qed.

(** The rows of the runs, and everything else as in [t]. *)
Definition runs_ok (t : retention_store) : Prop :=
  0 ≤ retention_run_seq t ∧ ∀ id r, retention_runs t !! id = Some r → run_check r = true ∧ 1 ≤ id ≤ retention_run_seq t.
Definition runs_of (t t' : retention_store) : Prop :=
  runs_ok t' ∧ ∃ runs seq, t' = with_runs runs seq t.
Lemma with_runs_same t : with_runs (retention_runs t) (retention_run_seq t) t = t.
Proof. by destruct t. Qed.
Lemma put_run_ok t id r seq : runs_ok t → run_check r = true → 1 ≤ id ≤ seq → retention_run_seq t ≤ seq →
  runs_ok (with_runs (<[id := r]> (retention_runs t)) seq t).
Proof.
  intros [H0 Hr] Hc Hid Hseq. split; [cbn; lia|]. intros k x. cbn [retention_runs with_runs retention_run_seq].
  destruct (decide (k = id)) as [->|Hk]; [rewrite lookup_insert_eq; by intros [= <-]|]. rewrite lookup_insert_ne by done.
  intros Hx. destruct (Hr k x Hx). split; [done|lia].
Qed.
Lemma insert_run_of t policy days observed cutoff backup started t1 t2 n : runs_of t t1 →
  insert_run policy days observed cutoff backup started t1 = Some (t2, n) → runs_of t t2.
Proof.
  intros [Hok (runs&seq&->)]. unfold insert_run. cbv zeta. destruct (run_check _) eqn:Hc; [|done]. intros [= <- _].
  split; [|by eexists _, _]. destruct Hok as [H0 Hr]. apply put_run_ok; [done|done|cbn in *; lia..].
Qed.
Lemma update_run_of t id f t1 t2 n : runs_of t t1 → update_run id f t1 = Some (t2, n) → runs_of t t2.
Proof.
  intros [Hok (runs&seq&->)]. unfold update_run. destruct (retention_runs _ !! id) as [r|] eqn:Hr; [|intros [= <- _]; split; [done|by eexists _, _]].
  destruct (_ ≟ _); [|intros [= <- _]; split; [done|by eexists _, _]]. destruct (_ && _) eqn:Hc; [|done]. intros [= <- _]. bool_facts.
  split; [|by eexists _, _]. destruct Hok as [Hseq Hall]. destruct (Hall _ _ Hr). by apply put_run_ok.
Qed.
Lemma started_run c start t : runs_ok t → runs_of t (BeginRetentionRun c start t).2.
Proof.
  intros Ht. unfold BeginRetentionRun, statements. assert (H0 : runs_of t t) by (split; [done|]; eexists _, _; symmetry; apply with_runs_same).
  destruct (negb (configured c)); [done|]. match goal with |- context [?m (t, outcomes c)] => assert (Hm : keeps (runs_of t) m) end.
  { keeping. by eapply insert_run_of. }
  specialize (Hm (t, outcomes c) H0). match goal with |- context [?m (t, outcomes c)] => by destruct (m (t, outcomes c)) as [[a|e] [s' fs]] end.
Qed.
Lemma finished_run c finish t : runs_ok t → runs_of t (FinishRetentionRun c finish t).2.
Proof.
  intros Ht. unfold FinishRetentionRun, statements. assert (H0 : runs_of t t) by (split; [done|]; eexists _, _; symmetry; apply with_runs_same).
  destruct (negb (configured c)); [done|]. match goal with |- context [?m (t, outcomes c)] => assert (Hm : keeps (runs_of t) m) end.
  { keeping. by eapply update_run_of. }
  specialize (Hm (t, outcomes c) H0). match goal with |- context [?m (t, outcomes c)] => by destruct (m (t, outcomes c)) as [[a|e] [s' fs]] end.
Qed.

(** ** Every write keeps the invariant *)

Section Preservation.
Context `{RelayIdentity} `{!CanonicalURLs}.

Lemma with_database_ok d s : store_ok s → db_ok d → retains (database s) d → store_ok (with_database d s).
Proof.
  intros [] Hd Hr. split; try done.
  - destruct store_candidates0 as [_ Hrows Hev]. by split.
  - destruct store_profiles0 as [Hv Hrev Hev]. by split.
  - intros a k r Hk. eapply retains_identity; [exact Hr|]. by eapply profiles_owned0.
  - intros a r Ha. destruct Hr as [Hr _]. apply Hr. by eapply telemetry_owned0.
  - destruct Hr as (_&_&Hq). cbn. rewrite Hq. exact store_reservations0.
Qed.
Lemma directory_write_ok c o t s : store_ok s → clock_ok t → store_ok (with_database (perform c o t (database s)).2 s).
Proof.
  intros Hs Ht. pose proof (store_db_ok s Hs) as Hd. destruct (perform c o t (database s)) as [[out|e] d'] eqn:Hp; cbn [snd].
  - pose proof (performed_ok _ _ _ _ _ _ Hd Ht Hp) as Hok.
    apply with_database_ok; [done|by eapply promised_preserves|by eapply promised_retains].
  - rewrite (performed_error _ _ _ _ _ _ Hp). apply with_database_ok; [done..|apply retains_refl].
Qed.
Lemma with_candidates_ok v s : store_ok s → candidate_inv v → retains (database s) (candidate_db v) → store_ok (with_candidates v s).
Proof.
  intros Hs Hv Hr. pose proof (with_database_ok (candidate_db v) s Hs (candidates_db _ Hv) Hr) as [].
  split; try done. by destruct v.
Qed.
Lemma candidate_write_ok c o t s : store_ok s → store_ok (with_candidates (candidate_perform c o t (candidate_view s)).2 s).
Proof.
  intros Hs. pose proof (store_candidates _ Hs) as Hc.
  destruct (candidate_perform_settles o t c (candidate_view s)) as [Hp|(e&Hp&_)]; rewrite Hp.
  - rewrite candidate_perform_plain by done. destruct (candidate_promised o t (candidate_view s)) as [out v] eqn:E. cbn [snd].
    apply with_candidates_ok; [done|by eapply candidate_promised_ok|]. apply (candidate_promised_retains _ _ _ _ _ E).
  - apply with_candidates_ok; [done..|apply retains_refl].
Qed.

(** A replacement that succeeded under any driver outcomes is the undisturbed one. *)
Lemma replacement_plain c intent t p summary p' : ReplaceProfileSource c intent t p = (Ok summary, p') →
  ReplaceProfileSource plain_call intent t p = (Ok summary, p').
Proof.
  unfold ReplaceProfileSource. cbn [configured plain_call negb]. destruct (negb (configured c)); [done|]. destruct (negb (ValidProfileRelayActor _)); [done|].
  destruct (NormalizeProfileSource _); [|done]. destruct (NormalizeRelayProfile _); [|done]. destruct (_ <? 0); [done|].
  intros Hr. apply transact_ok in Hr; [|apply steady_replacement]. rewrite transact_plain. by rewrite Hr.
Qed.
Lemma replaced_ok c intent t p summary p' : profile_ok p → db_ok (profile_db p) → ReplaceProfileSource c intent t p = (Ok summary, p') →
  profile_ok p' ∧ profile_db p' = profile_db p ∧ retained_identity (profile_actor intent) (profile_db p) = true ∧
  ∀ k, k.1 ≠ profile_actor intent → profile_values p' !! k = profile_values p !! k.
Proof.
  intros Hp Hd Hr%replacement_plain. assert (Hin : ∃ source q, ValidProfileRelayActor (profile_actor intent) = true ∧
    NormalizeProfileSource (profile_source intent) = Ok source ∧ NormalizeRelayProfile (asserted intent) = Ok q ∧ 0 ≤ unix_of t).
  { unfold ReplaceProfileSource in Hr. cbn [configured plain_call negb] in Hr. destruct (ValidProfileRelayActor _); [|done]. cbn [negb] in Hr.
    destruct (NormalizeProfileSource _) as [source|]; [|done]. destruct (NormalizeRelayProfile _) as [q|]; [|done].
    destruct (Z.ltb_spec (unix_of t) 0); [done|]. by exists source, q. }
  destruct Hin as (source&q&Ha&Hs&Hq&Ht). pose proof (ReplaceProfileSource_run intent t p source q Hp Hd Ha Hs Hq Ht) as Hrun.
  cbv zeta in Hrun. rewrite Hr in Hrun. destruct (retained_identity _ _); [|done]. cbn [negb] in Hrun.
  destruct (late _ _ _ _); [done|]. destruct (existsb _ _); [done|]. destruct Hrun as (?&?&[= <- <-]&Hok&Hdb&_&Helse&_).
  split_and!; [done|done|done|]. intros k Hk. apply Helse. by left.
Qed.
Lemma profile_write_ok c intent t s : store_ok s → store_ok (with_profiles (ReplaceProfileSource c intent t (profile_view s)).2 s).
Proof.
  intros Hs. pose proof (store_db_ok s Hs) as Hd. destruct (ReplaceProfileSource c intent t (profile_view s)) as [[summary|e] p'] eqn:Hp; cbn [snd].
  - apply replaced_ok in Hp as (Hok&Hdb&Hret&Helse); [|apply (store_profiles _ Hs)|done]. destruct Hs. split; cbn; try (by rewrite Hdb); try done.
    + destruct store_candidates0 as [? Hrows Hev]. split; cbn; [by rewrite Hdb|done|done].
    + by destruct p'.
    + intros a k r Hk. unfold database. cbn. rewrite Hdb. destruct (decide (a = profile_actor intent)) as [->|Ha]; [exact Hret|].
      rewrite (Helse (a, k)) in Hk by done. by eapply profiles_owned0.
  - apply replace_error in Hp as ->. by destruct s as [[] ? ? ?], Hs; split.
Qed.

Lemma with_telemetry_ok rows s : store_ok s → telemetry_ok rows → (∀ a r, rows !! a = Some r → is_Some (relays (database s) !! a)) →
  store_ok (with_telemetry_rows rows s).
Proof. intros [] Hok Hown. by split. Qed.
(** Both reports are one upsert. *)
Lemma upserted_ok d a new guard merge (rows rows' : gmap string telemetry_row) n : upsert_telemetry d a new guard merge rows = Some (rows', n) →
  telemetry_ok rows → (∀ b r, rows !! b = Some r → is_Some (relays d !! b)) →
  telemetry_ok rows' ∧ ∀ b r, rows' !! b = Some r → is_Some (relays d !! b).
Proof.
  unfold upsert_telemetry. intros Hu Hok Hown. destruct (negb (not_null (relays d !! a)) || negb (telemetry_check a new)) eqn:Hin; [done|].
  apply orb_false_iff in Hin as [Hr%negb_false_iff Hc%negb_false_iff]. assert (Ha : is_Some (relays d !! a)) by (by destruct (relays d !! a)).
  assert (Hput : ∀ r, telemetry_check a r = true → telemetry_ok (<[a := r]> rows) ∧ ∀ b x, <[a := r]> rows !! b = Some x → is_Some (relays d !! b)).
  { intros r Hcr. split; intros b x; (destruct (decide (b = a)) as [->|Hb]; [rewrite lookup_insert_eq; by intros [= <-]|rewrite lookup_insert_ne by done; eauto]). }
  destruct (rows !! a) as [old|]; [|injection Hu as <- _; by apply Hput]. destruct (negb (guard old)); [by injection Hu as <- _|].
  destruct (telemetry_check a (merge old)) eqn:Hm; [|done]. injection Hu as <- _. by apply Hput.
Qed.
Lemma telemetry_write_ok c x y z s a new guard merge : store_ok s →
  store_ok (with_telemetry_rows (autocommit c x y z (upsert_telemetry (database s) a new guard merge) (retention_telemetry (tables s))).2 s).
Proof.
  intros Hs. destruct (autocommit _ _ _ _ _ _) as [out rows] eqn:Ha. cbn [snd]. apply autocommit_effect in Ha as [->|[n Hu]].
  - by apply with_telemetry_ok; [|apply (store_telemetry _ Hs)|apply (telemetry_owned _ Hs)].
  - apply upserted_ok in Hu as [Hok Hown]; [|apply (store_telemetry _ Hs)|apply (telemetry_owned _ Hs)]. by apply with_telemetry_ok.
Qed.
Lemma with_telemetry_same s : with_telemetry_rows (retention_telemetry (tables s)) s = s.
Proof. by destruct s as [[] ? ? ?]. Qed.
Lemma receiving_write_ok c intent t s : store_ok s →
  store_ok (with_telemetry_rows (ReplaceRelayTelemetry c intent t (database s) (retention_telemetry (tables s))).2 s).
Proof.
  intros Hs. unfold ReplaceRelayTelemetry. destruct (negb (configured c)); [cbn [snd]; by rewrite with_telemetry_same|].
  destruct (negb _); [cbn [snd]; by rewrite with_telemetry_same|]. by apply telemetry_write_ok.
Qed.
Lemma participating_write_ok c intent t s : store_ok s →
  store_ok (with_telemetry_rows (ReplaceRelayParticipatingTelemetry c intent t (database s) (retention_telemetry (tables s))).2 s).
Proof.
  intros Hs. unfold ReplaceRelayParticipatingTelemetry. destruct (negb (configured c)); [cbn [snd]; by rewrite with_telemetry_same|].
  destruct (negb _); [cbn [snd]; by rewrite with_telemetry_same|]. by apply telemetry_write_ok.
Qed.

Lemma reservations_db_ok rows d : db_ok d → db_ok (set_replay rows d).
Proof. intros []. by split. Qed.
Lemma with_reservations_ok rows s : store_ok s → reservations_ok rows → store_ok (with_reservations rows s).
Proof.
  intros Hs Hok. pose proof (store_db_ok s Hs) as Hd. destruct Hs. split; try done.
  - destruct store_candidates0 as [? Hrows Hev]. split; cbn; [by apply reservations_db_ok|done|done].
  - destruct store_profiles0 as [Hv Hrev Hev]. by split.
Qed.

Lemma store_runs_ok s : store_ok s → runs_ok (tables s).
Proof. intros Hs. split; [apply (store_run_seq _ Hs)|apply (store_runs _ Hs)]. Qed.
Lemma run_write_ok t s : store_ok s → runs_of (tables s) t → store_ok (with_tables t s).
Proof. intros Hs [[Hseq Hr] (runs&seq&->)]. destruct Hs. by split. Qed.

Lemma purged_store_ok cutoff l s : store_ok s → store_ok (with_tables (purge_store cutoff l (tables s)) s).
Proof.
  intros Hs. pose proof (purge_db_ok cutoff l _ (store_db_ok s Hs)) as Hd. destruct Hs. split; try done.
  - destruct store_candidates0 as [_ Hrows Hev]. by split.
  - destruct store_profiles0 as [Hv Hrev Hev]. split; [|intros a kind f r Hk|done].
    + intros a kind f r Hk. cbn in Hk. apply map_lookup_filter_Some in Hk as [Hk _]. by eapply Hv.
    + cbn in Hk. apply map_lookup_filter_Some in Hk as [Hk _]. by apply (Hrev a kind f r).
  - intros a k r Hk. cbn in Hk. apply map_lookup_filter_Some in Hk as [Hk Hu]. apply purge_retained; [by eapply profiles_owned0|done].
  - intros a r Ha. cbn in Ha. rewrite dropping_lookup in Ha. destruct (relay_purged _ _ _ _); [done|]. by apply store_telemetry0.
  - intros a r Ha. cbn in Ha. rewrite dropping_lookup in Ha. unfold database. cbn. rewrite dropping_lookup.
    destruct (relay_purged _ _ _ _); [done|]. by eapply telemetry_owned0.
Qed.
Lemma batch_write_ok c runID l t s : store_ok s → store_ok (with_tables (PurgeBatch c runID l t (tables s)).2 s).
Proof.
  intros Hs. destruct (PurgeBatch c runID l t (tables s)) as [[r|e] t'] eqn:Hp; cbn [snd].
  - apply batch_effect in Hp as (run&Hr&Ha&Hc&_&->). set (cutoff := unix_of t) in *.
    pose proof (store_runs _ Hs _ _ Hr) as [_ Hid]. pose proof (purged_store_ok cutoff l s Hs) as Hp.
    apply (run_write_ok (checkpointed runID cutoff l run (tables s)) _ Hp). split; [|by eexists _, _].
    unfold can_checkpoint in Hc. bool_facts. by apply (put_run_ok (purge_store cutoff l (tables s))); [apply (store_runs_ok _ Hp)| | |].
  - apply batch_error in Hp as ->. by destruct s, Hs; split.
Qed.

Lemma written_ok c w t s : store_ok s → clock_ok t → store_ok (written c w t s).
Proof.
  intros Hs Ht. destruct w; cbn [written].
  - by apply directory_write_ok.
  - by apply candidate_write_ok.
  - by apply profile_write_ok.
  - by apply receiving_write_ok.
  - by apply participating_write_ok.
  - apply with_reservations_ok; [done|]. apply reserved_ok. exact (store_reservations _ Hs).
  - apply with_reservations_ok; [done|]. apply cleanup_reservations_ok. exact (store_reservations _ Hs).
  - apply run_write_ok; [done|]. apply started_run. by apply store_runs_ok.
  - by apply batch_write_ok.
  - apply run_write_ok; [done|]. apply finished_run. by apply store_runs_ok.
Qed.
Lemma reachable_ok s : reachable s → store_ok s.
Proof. induction 1 as [|c w t s _ IH Ht]; [apply empty_store_ok|by apply written_ok]. Qed.

(** The moderation log belongs to the directory's own operations. *)
Definition moderation_log (d : db) : list moderation_event * Z := (moderation_events d, moderation_event_seq d).
Lemma candidate_promised_log o t v out v' : candidate_promised o t v = (out, v') → moderation_log (candidate_db v') = moderation_log (candidate_db v).
Proof.
  destruct o as [intent|intent]; cbn [candidate_promised].
  - unfold RetainDiscoveryCandidate_promise. intros Hp. by repeat case_match; injection Hp as _ <-.
  - unfold PromoteDiscoveryCandidate_promise. intros Hp. repeat case_match; injection Hp as _ <-; try done.
    cbn [candidate_db promoted_store log_candidate put_candidate with_candidate_db]. unfold promoted_db, promoted_event_db, promoted_discovery.
    by destruct (discoveries (candidate_db v) !! promotion_actor intent) as [x|]; [destruct (discovery_state x ≟ discoveryActive)|].
Qed.
Lemma written_log c w t s : store_ok s → clock_ok t →
  match w with WriteDirectory _ => True | _ => moderation_log (database (written c w t s)) = moderation_log (database s) end.
Proof.
  intros Hs Ht. destruct w; cbn [written]; try done.
  - destruct (candidate_perform_settles o t c (candidate_view s)) as [Hp|(e&Hp&_)]; rewrite Hp; [|done].
    rewrite candidate_perform_plain by apply (store_candidates _ Hs). destruct (candidate_promised o t (candidate_view s)) as [out v] eqn:E.
    by apply candidate_promised_log in E.
  - destruct (ReplaceProfileSource c intent t (profile_view s)) as [[x|e] p'] eqn:Hp.
    + apply replaced_ok in Hp as (_&Hdb&_); [|apply (store_profiles _ Hs)|by apply store_db_ok]. unfold database. cbn. by rewrite Hdb.
    + by apply replace_error in Hp as ->.
  - destruct (started_run c start (tables s)) as [_ (runs&seq&->)]; [by apply store_runs_ok|done].
  - destruct (PurgeBatch c runID batch t (tables s)) as [[r|e] t'] eqn:Hp.
    + by apply batch_effect in Hp as (run&_&_&_&_&->).
    + by apply batch_error in Hp as ->.
  - destruct (finished_run c finish (tables s)) as [_ (runs&seq&->)]; [by apply store_runs_ok|done].
Qed.

(** C7: Every store reachable by calls of the repositories, in any order and under
    any admission answers and driver failures, is valid.  The calls are all that
    write the directory's tables: the twelve operations on relays, enrollment,
    discoveries and observations, the retention and promotion of candidates, profile
    replacements, both telemetry reports, signature reservations and their cleanup,
    and the retention run with its destructive batches.  Valid means that every row
    of every table passes its checks and identities are canonical; that each
    observation, diagnostic, profile value and telemetry row belongs to a row still
    there, whatever was purged; that no evidence of a stored relay is later than its
    last event; that current profile values are their latest revision; and that the
    delete guard of the event log is in place. *)
Theorem reachable_store_ok s : reachable s → db_ok (database s) ∧ store_ok s.
Proof. intros Hs%reachable_ok. split; [by apply store_db_ok|done]. Qed.
End Preservation.

(** ** A store that a purge leaves *)

From S2P Require Import RetentionFacts RetentionRun.

(** A relay that an operator also listed registers and leaves; a day later the
    retention run purges its lifecycle row, while the discovery keeps its identity
    and with it the observation. *)
Definition listed_relay : DiscoveryAddIntent :=
  {| add_actor := sample_actor; add_base := "https://relay.example";
     add_audit := {| audit_operator := "operator"; audit_reason := "listed"; audit_source_kind := "manual"; audit_source_label := "" |} |}.
Definition purge_start_run : run_start := RunStart RetentionPolicyVersion 1 100000 13600 sample_backup 100000.
Definition purge_history : list (write * Z) :=
  [(WriteDirectory (OpSetEnrollment true "operator"), time_of_unix 500);
   (WriteDirectory (OpRegister Guarantees.sample_intent), time_of_unix 1000);
   (WriteDirectory (OpAddDiscovery listed_relay), time_of_unix 1500);
   (WriteDirectory (OpUnregister sample_actor), beat_time);
   (WriteRunStart purge_start_run, time_of_unix 100000);
   (WriteBatch 1 [PurgeCandidate PurgeCandidateLifecycle sample_actor lifecycleUnregistered 2000 2000 2 0 0 3], time_of_unix 13600)].
Definition purged_store : store := fold_left (λ s w, written plain_call w.1 w.2 s) purge_history empty_store.

Lemma fold_reachable l s : reachable s → Forall (λ w, clock_ok w.2) l → reachable (fold_left (λ s w, written plain_call w.1 w.2 s) l s).
Proof.
  revert s. induction l as [|w l IH]; intros s Hs Hl; [done|]. apply Forall_cons_1 in Hl as [Hw Hl].
  apply IH; [by apply reachable_write|done].
Qed.

Example purge_keeps_evidence : relays (database purged_store) !! sample_actor = None ∧
  latest_relay_event sample_actor (database purged_store) = None ∧
  (observations (database purged_store) !! sample_actor ≫= rfc9421_verified) = Some 2000.
Proof. vm_compute. auto. Qed.

Lemma reachable_store_ok_witness : reachable purged_store ∧ db_ok (database purged_store) ∧ store_ok purged_store.
Proof.
  assert (Hr : reachable purged_store).
  { apply fold_reachable; [apply reachable_empty|]. repeat (apply Forall_cons; [clock|]). constructor. }
  split; [exact Hr|exact (reachable_store_ok purged_store Hr)].
Defined.
