(* ===== verification/Readable.v ===== *)
(** * Readable: what the public listings may assume of a store

    [readable] is the hypothesis of the theorems on the public directory: a valid
    database whose evidence, telemetry and profiles carry no time after the reader's
    clock.  Every store that the writes of [Writes] lead to is readable at any time
    not before the last of them. *)
From S2P Require Import Prelude GoNet Identity AddrText Canonical Vocabulary Store Session Repository Lifecycle Discovery Reachability Candidates Pruning Invariant Contract Refinement System Guarantees CandidateContract Telemetry Profile ProfileFacts ProfileReplace Replay Retention RetentionPurge Writes Directory Evidence DirectoryFacts DirectoryPages.
Local Open Scope string_scope.
Local Open Scope Z_scope.
Local Open Scope go_scope.
Local Open Scope list_scope.

Section Readable.
Context `{RelayIdentity} `{!CanonicalURLs} (now : Z).

(** Stores reached by calls none of which is later than [now]. *)
Inductive reached : store → Prop :=
| reached_empty : reached empty_store
| reached_write c w t s : reached s → clock_ok t → unix_of t ≤ now → reached (written c w t s).
Lemma reached_reachable s : reached s → reachable s.
Proof. induction 1 as [|c w t s _ IH Ht _]; [constructor|by constructor]. Qed.

Definition stored_extras (s : store) : extras := Extras (retention_telemetry (tables s)) (retention_profiles (tables s) : profile_store).
Definition timely (s : store) : Prop := evidence now (database s) ∧ telemetry_sound now (retention_telemetry (tables s)).

(** ** Candidates and purges *)

Lemma promoted_evidence intent t d : evidence now d → t ≤ now → validateDiscoveryCandidatePromotionIntent intent = true →
  evidence now (promoted_db intent t d).
Proof.
  intros Hd Ht Hv. unfold promoted_db. apply ev_put_observation.
  - unfold promoted_event_db, promoted_discovery.
    destruct (discoveries d !! promotion_actor intent) as [r|]; [destruct (discovery_state r ≟ discoveryActive)|]; auto with evidence.
  - split; [done|]. cbn [promoted_observation inbox_url inbox_declared inbox_last_checked].
    destruct (String.eqb_spec (promotion_inbox intent) "") as [|Hne]; [done|]. split.
    + intros u [= <-]. unfold validateDiscoveryCandidatePromotionIntent in Hv. rewrite !andb_true_iff in Hv. destruct Hv as [_ Hi].
      rewrite (proj2 (String.eqb_neq _ _) Hne) in Hi. by apply andb_true_iff in Hi as [? _].
    + intros x y [= <-] [= <-]. lia.
Qed.
Lemma candidate_evidence o t v out v' : evidence now (candidate_db v) → unix_of t ≤ now → candidate_promised o t v = (out, v') →
  evidence now (candidate_db v').
Proof.
  intros Hd Ht. destruct o as [intent|intent]; cbn [candidate_promised].
  - unfold RetainDiscoveryCandidate_promise. intros Hp. repeat case_match; injection Hp as _ <-; exact Hd.
  - unfold PromoteDiscoveryCandidate_promise. destruct (validateDiscoveryCandidatePromotionIntent intent) eqn:Hv; [|by intros [= _ <-]].
    intros Hp. repeat case_match; injection Hp as _ <-; first [exact Hd|by apply promoted_evidence].
Qed.
Lemma purge_evidence cutoff l d : evidence now d → evidence now (purge_db cutoff l d).
Proof.
  intros [Hr Hd Ho Hg]. split.
  - intros a r. rewrite relays_purge. destruct (relay_purged _ _ _ _); [done|apply Hr].
  - intros a r. rewrite discoveries_purge. destruct (discovery_purged _ _ _ _); [done|apply Hd].
  - intros a o. rewrite observations_purge. destruct (unowned _ _ _ _); [done|apply Ho].
  - intros a g. unfold purge_db at 1. cbn [set_diagnostics diagnostics]. rewrite dropping_lookup. destruct (_ && _); [done|apply Hg].
Qed.
Lemma purge_telemetry gone tel : telemetry_sound now tel → telemetry_sound now (dropping gone tel).
Proof. intros Hs a r. rewrite dropping_lookup. destruct (gone a); [done|apply Hs]. Qed.

(** ** Telemetry *)

Lemma received_sound c intent t d tel : telemetry_sound now tel → unix_of t ≤ now →
  telemetry_sound now (ReplaceRelayTelemetry c intent t d tel).2.
Proof.
  intros Hs Ht. unfold ReplaceRelayTelemetry. destruct (negb (configured c)); [done|].
  destruct (ValidateTelemetryIntent intent t) eqn:Hv; [|done]. cbn [negb]. unfold ValidateTelemetryIntent, MaximumReceivingInstanceCount in Hv. bool_facts.
  destruct (autocommit _ _ _ _ _ _) as [out rows] eqn:Ha. cbn [snd]. apply autocommit_effect in Ha as [->|[n Hu]]; [done|].
  apply upsert_ok in Hu as ->. intros a r. destruct (decide (a = telemetry_actor intent)) as [->|Hne]; [|rewrite lookup_insert_ne by done; apply Hs].
  rewrite lookup_insert_eq. intros [= <-]. destruct (tel !! telemetry_actor intent) as [old|] eqn:Ho; [|split_and!; simpl; done || lia].
  pose proof (Hs _ _ Ho) as (?&?&?&?&?). case_match; [|done]. split_and!; simpl; done || lia.
Qed.
Lemma participated_sound c intent t d tel : telemetry_sound now tel → unix_of t ≤ now → 0 ≤ now →
  telemetry_sound now (ReplaceRelayParticipatingTelemetry c intent t d tel).2.
Proof.
  intros Hs Ht Hnow. unfold ReplaceRelayParticipatingTelemetry. destruct (negb (configured c)); [done|].
  destruct (ValidateParticipatingTelemetryIntent intent t) eqn:Hv; [|done]. cbn [negb].
  unfold ValidateParticipatingTelemetryIntent, MaximumParticipatingInstanceCount in Hv. bool_facts.
  destruct (autocommit _ _ _ _ _ _) as [out rows] eqn:Ha. cbn [snd]. apply autocommit_effect in Ha as [->|[n Hu]]; [done|].
  apply upsert_ok in Hu as ->. intros a r. destruct (decide (a = participating_actor intent)) as [->|Hne]; [|rewrite lookup_insert_ne by done; apply Hs].
  rewrite lookup_insert_eq. intros [= <-].
  destruct (tel !! participating_actor intent) as [old|] eqn:Ho.
  - pose proof (Hs _ _ Ho) as (?&?&?&?&?). case_match; [|done]. split_and!; simpl; try done; try lia; intros v [= <-]; lia.
  - split_and!; simpl; try done; try lia; intros v [= <-]; lia.
Qed.

(** ** Every write *)

Lemma written_timely c w t s : 0 ≤ now → store_ok s → clock_ok t → unix_of t ≤ now → timely s → timely (written c w t s).
Proof.
  intros Hnow Hs Hc Ht [He Htel]. pose proof (store_db_ok s Hs) as Hd. destruct w; cbn [written].
  - split; [|done]. destruct (perform c o t (database s)) as [out d'] eqn:Hp. by apply (evidence_step now c o t (database s) out d').
  - split; [|done]. destruct (candidate_perform_settles o t c (candidate_view s)) as [Hp|(e&Hp&_)]; rewrite Hp; [|done].
    rewrite candidate_perform_plain by apply (store_candidates _ Hs). destruct (candidate_promised o t (candidate_view s)) as [out v] eqn:E.
    by apply (candidate_evidence o t (candidate_view s) out v).
  - split; [|done]. destruct (ReplaceProfileSource c intent t (profile_view s)) as [[x|e] p'] eqn:Hp.
    + apply replaced_ok in Hp as (_&Hdb&_); [|apply (store_profiles _ Hs)|done]. unfold database. cbn. by rewrite Hdb.
    + by apply replace_error in Hp as ->.
  - split; [done|]. by apply received_sound.
  - split; [done|]. by apply participated_sound.
  - split; [|done]. by apply (evidence_same now (database s)).
  - split; [|done]. by apply (evidence_same now (database s)).
  - destruct (started_run c start (tables s)) as [_ (runs&seq&->)]; [by apply store_runs_ok|done].
  - destruct (PurgeBatch c runID batch t (tables s)) as [[r|e] t'] eqn:Hp.
    + apply batch_effect in Hp as (run&_&_&_&_&->). split; [by apply purge_evidence|by apply purge_telemetry].
    + by apply batch_error in Hp as ->.
  - destruct (finished_run c finish (tables s)) as [_ (runs&seq&->)]; [by apply store_runs_ok|done].
Qed.
Lemma reached_timely s : 0 ≤ now → reached s → timely s.
Proof.
  intros Hnow. induction 1 as [|c w t s Hr IH Hc Ht]; [split; [apply initial_evidence|done]|].
  apply written_timely; try done. by apply reachable_ok, reached_reachable.
Qed.
End Readable.

Section Theorems.

(** C40: Whatever was written up to a time is fit to be read at that time: every store
    that calls of the repositories lead to, none later than [now], under any
    admission answers and driver failures, satisfies the hypothesis of the theorems
    on the public listings.  The database is valid; no row, observation or report is
    later than [now]; inbox URLs are canonical and were declared before they were
    checked; diagnostics are valid and due within a week; participation counts come
    with their time; and every stored profile value is the JSON of a normalized
    field. *)
Theorem reached_readable now s : reached now s → 0 ≤ now → now + 604800 ≤ int64_max → readable now (database s) (stored_extras s).
Proof.
  intros Hr Hnow Hmax. pose proof (reachable_ok s (reached_reachable now s Hr)) as Hs. destruct (reached_timely now s Hnow Hr) as [He Ht].
  split; [by apply store_db_ok|done|done| |done]. exact (ok_values _ (store_profiles _ Hs)).
Qed.

Lemma fold_reached now l s : reached now s → Forall (λ w, clock_ok w.2 ∧ unix_of w.2 ≤ now) l →
  reached now (fold_left (λ s w, written plain_call w.1 w.2 s) l s).
Proof.
  revert s. induction l as [|w l IH]; intros s Hs Hl; [done|]. apply Forall_cons_1 in Hl as [[Hw Ht] Hl].
  apply IH; [by apply reached_write|done].
Qed.
Lemma reached_readable_witness : reached 100000 purged_store ∧ readable 100000 (database purged_store) (stored_extras purged_store).
Proof.
  assert (Hr : reached 100000 purged_store).
  { apply fold_reached; [apply reached_empty|]. repeat (apply Forall_cons; [split; [clock|vm_compute; discriminate]|]). constructor. }
  split; [exact Hr|]. apply (reached_readable 100000 purged_store Hr); vm_compute; discriminate.
Defined.
End Theorems.
