(* ===== verification/Network.v ===== *)
(** * Network: which addresses the directory may connect to

    [internal/actorresolver/network.go]: the guarded dialer under the HTTP client that
    fetches actors, its redirect policy, and the table of prohibited networks.  DNS
    and TCP are a world the dialer talks to; errors are the failures of
    [Reachability], what [errors.Is] and [errors.As] find in them. *)
From S2P Require Import Prelude GoNet AddrText Identity Vocabulary Store Repository Discovery Reachability Admission Signature.
From Stdlib Require Import Ascii.
Local Open Scope string_scope.
Local Open Scope Z_scope.
Local Open Scope go_scope.
Local Open Scope list_scope.

Definition maximumDNSAddresses : Z := 16.
Definition maximumRedirects : Z := 3.

(** ** net/netip *)

(** A valid [netip.Addr] with its zone; [None] is the zero value. *)
Record net_addr := NetAddr { bare : Addr; zone : bytes }.
Definition netip_addr : Type := option net_addr.
(** [address.Unmap()]: an IPv4-mapped address becomes an IPv4 address without zone. *)
Definition unmap_addr (a : netip_addr) : netip_addr :=
  match a with
  | Some (NetAddr x z) => Some (if Is4In6 x then NetAddr (Unmap x) [] else NetAddr x z)
  | None => None
  end.
(** [netip.ParseAddr] with the zone of an IPv6 address *)
Definition parse_net_addr (s : bytes) : option net_addr :=
  match ParseAddr_unzoned s with
  | Some (V4 p q r t) => Some (NetAddr (V4 p q r t) [])
  | Some a => Some (NetAddr a (cut s "%").1.2)
  | None => None
  end.

Definition Is4 (a : Addr) : bool := match a with V4 _ _ _ _ => true | V6 _ => false end.
Definition Is6 (a : Addr) : bool := negb (Is4 a).
Definition first_group (groups : list Z) : Z := default 0 (head groups).
Definition IsLoopback (a : Addr) : bool := match a with V4 p _ _ _ => p =? 127 | V6 _ => addr_value a =? 1 end.
Definition IsLinkLocalUnicast (a : Addr) : bool :=
  match a with V4 p q _ _ => (p =? 169) && (q =? 254) | V6 groups => Z.land (first_group groups) 0xffc0 =? 0xfe80 end.
Definition IsLinkLocalMulticast (a : Addr) : bool :=
  match a with V4 p q r _ => (p =? 224) && (q =? 0) && (r =? 0) | V6 groups => Z.land (first_group groups) 0xff0f =? 0xff02 end.
Definition IsPrivate (a : Addr) : bool :=
  match a with
  | V4 p q _ _ => (p =? 10) || ((p =? 172) && (Z.land q 0xf0 =? 16)) || ((p =? 192) && (q =? 168))
  | V6 groups => Z.land (first_group groups) 0xfe00 =? 0xfc00
  end.
Definition IsGlobalUnicast (a : Addr) : bool :=
  match a with
  | V4 p q r t => negb (addr_value a =? 0) && negb ((p =? 255) && (q =? 255) && (r =? 255) && (t =? 255))
  | V6 _ => true
  end && negb (IsUnspecified a) && negb (IsLoopback a) && negb (IsMulticast a) && negb (IsLinkLocalUnicast a).

(** ** The table *)

Definition v4_prefix (p q r t bits : Z) : Prefix := PrefixFrom (V4 p q r t) bits.
(** The groups given, then zeros. *)
Definition v6_prefix (groups : list Z) (bits : Z) : Prefix := PrefixFrom (V6 (groups ++ replicate (8 - length groups) 0)) bits.
Definition prohibitedNetworkPrefixes : list Prefix :=
  [v4_prefix 0 0 0 0 8; v4_prefix 10 0 0 0 8; v4_prefix 100 64 0 0 10; v4_prefix 127 0 0 0 8; v4_prefix 169 254 0 0 16; v4_prefix 172 16 0 0 12;
   v4_prefix 192 0 0 0 24; v4_prefix 192 0 2 0 24; v4_prefix 192 31 196 0 24; v4_prefix 192 52 193 0 24; v4_prefix 192 88 99 0 24;
   v4_prefix 192 168 0 0 16; v4_prefix 192 175 48 0 24; v4_prefix 198 18 0 0 15; v4_prefix 198 51 100 0 24; v4_prefix 203 0 113 0 24;
   v4_prefix 224 0 0 0 4; v4_prefix 240 0 0 0 4;
   v6_prefix [] 128; v6_prefix [0; 0; 0; 0; 0; 0; 0; 1] 128; v6_prefix [0x64; 0xff9b] 96; v6_prefix [0x64; 0xff9b; 1] 48; v6_prefix [0x100] 64;
   v6_prefix [0x100; 0; 0; 1] 64; v6_prefix [0x2001] 23; v6_prefix [0x2001; 0xdb8] 32; v6_prefix [0x2002] 16; v6_prefix [0x2620; 0x4f; 0x8000] 48;
   v6_prefix [0x3fff] 20; v6_prefix [0x5f00] 16; v6_prefix [0xfc00] 7; v6_prefix [0xfe80] 10; v6_prefix [0xfec0] 10; v6_prefix [0xff00] 8].
Definition allocatedGlobalIPv6Prefix : Prefix := v6_prefix [0x2000] 3.

(** Without a zone the text of an address holds no ['%']. *)
Definition isPublicNetworkAddress (address : netip_addr) : bool :=
  match address with
  | None => false
  | Some (NetAddr x z) =>
      if negb (bytes_eqb z []) then false
      else
        let x := Unmap x in
        if Is6 x && negb (prefix_Contains allocatedGlobalIPv6Prefix x) then false
        else if negb (IsGlobalUnicast x) || IsPrivate x || IsLoopback x || IsLinkLocalUnicast x || IsLinkLocalMulticast x || IsMulticast x ||
                IsUnspecified x then false
        else negb (existsb (λ prohibited, prefix_Contains prohibited x) prohibitedNetworkPrefixes)
  end.

(** ** URLs to fetch *)

(** [target.String()]: [url_user] is the user information and [url_fragment] the
    fragment as they print.  Without a host the slashes depend on how the URL was
    parsed; no such URL is canonical, whichever it is. *)
Definition url_String (url : request_url) : bytes :=
  let u := url_target url in
  let scheme := if bytes_eqb (Scheme u) [] then [] else Scheme u ++ b ":" in
  let rest :=
    if negb (bytes_eqb (Opaque u) []) then Opaque u
    else
      let path := EscapedPath u in
      let slash := match path with c :: _ => if (c ≡c "/") || bytes_eqb (Host u) [] then [] else b "/" | [] => [] end in
      let authority :=
        if negb (bytes_eqb (Host u) []) || HasUser u || (negb (bytes_eqb (Scheme u) []) && negb (bytes_eqb (Path u) []))
        then b "//" ++ url_user url ++ escape_host (Host u) else [] in
      authority ++ slash ++ path in
  let query := if ForceQuery u || negb (bytes_eqb (RawQuery u) []) then b "?" ++ RawQuery u else [] in
  let fragment := if bytes_eqb (url_fragment url) [] then [] else b "#" ++ url_fragment url in
  scheme ++ rest ++ query ++ fragment.

Section Targets.
Context `{RelayIdentity}.

Definition validateActorFetchURL (target : request_url) : bool :=
  let raw := str (url_String target) in
  canonical_actor raw &&
  match parse_net_addr (Hostname (url_target target)) with Some address => isPublicNetworkAddress (Some address) | None => true end.

(** [via] counts the requests made so far. *)
Definition checkActorRedirect (target : option request_url) (via : Z) : bool :=
  match target with
  | None => false
  | Some target => negb (maximumRedirects <? via) && validateActorFetchURL target
  end.
End Targets.

(** ** The dialer *)

Definition no_failure : failure := {|
  is_redirect_rejected := false; as_safe_failure := None; as_dns := None; is_dns_no_address := false; is_dns_policy := false;
  as_certificate := false; as_record_header := false; is_deadline := false; is_refused := false; as_op := None; is_network_target := false;
  is_configuration := false |}.
(** [ErrNetworkTarget] *)
Definition target_failure : failure := {|
  is_redirect_rejected := false; as_safe_failure := None; as_dns := None; is_dns_no_address := false; is_dns_policy := false;
  as_certificate := false; as_record_header := false; is_deadline := false; is_refused := false; as_op := None; is_network_target := true;
  is_configuration := false |}.
(** [errors.Join(ErrNetworkTarget, ErrDNSPolicy)] *)
Definition dns_policy_failure : failure := {|
  is_redirect_rejected := false; as_safe_failure := None; as_dns := None; is_dns_no_address := false; is_dns_policy := true;
  as_certificate := false; as_record_header := false; is_deadline := false; is_refused := false; as_op := None; is_network_target := true;
  is_configuration := false |}.
(** [errors.Join(ErrNetworkTarget, ctx.Err())] *)
Definition context_failure (deadline : bool) : failure := {|
  is_redirect_rejected := false; as_safe_failure := None; as_dns := None; is_dns_no_address := false; is_dns_policy := false;
  as_certificate := false; as_record_header := false; is_deadline := deadline; is_refused := false; as_op := None; is_network_target := true;
  is_configuration := false |}.
(** [&safeNetworkFailure{diagnostic}], whose [Unwrap] yields [ErrNetworkTarget] for the policy denials. *)
Definition safeNetworkFailure (d : diagnostic) : failure := {|
  is_redirect_rejected := false; as_safe_failure := Some d; as_dns := None; is_dns_no_address := false; is_dns_policy := false;
  as_certificate := false; as_record_header := false; is_deadline := false; is_refused := false; as_op := None;
  is_network_target := ((diag_stage d ≟ "dns") && (diag_code d ≟ "policy")) || ((diag_stage d ≟ "policy") && (diag_code d ≟ "prohibited_target"));
  is_configuration := false |}.

(** DNS, TCP and the context of one dial. *)
Class DialWorld (W : Type) := {
  lookup_ip : bytes → W → result failure (list netip_addr) * W;
  dial_target : bytes → bytes → W → option failure * W;
  (** [ctx.Err()], and whether it is a deadline *)
  dial_cancelled : W → option bool }.

(** The host and port of [net.SplitHostPort] *)
Definition SplitHostPort (s : bytes) : option (bytes * bytes) :=
  match SplitHostPort_host s, cut_last s ":" with Some host, Some (_, port) => Some (host, port) | _, _ => None end.
Definition JoinHostPort (host port : bytes) : bytes :=
  if contains_byte host ":" then b "[" ++ host ++ b "]:" ++ port else host ++ b ":" ++ port.
(** A port in the decimal form [FormatUint] prints. *)
Definition dial_port (port : bytes) : bool :=
  forallb is_digit port && negb (bytes_eqb port []) &&
  match parse_port port with Some n => negb (n =? 0) && bytes_eqb (format_uint 5 n []) port | None => false end.

(** The loop over a DNS answer: every address must be public, and each is kept once. *)
Fixpoint approve (addresses : list netip_addr) (approved : list net_addr) : option (list net_addr) :=
  match addresses with
  | [] => Some approved
  | address :: addresses =>
      match unmap_addr address with
      | Some a =>
          if negb (isPublicNetworkAddress (Some a)) then None
          else if existsb (λ x, bool_decide (bare x = bare a)) approved then approve addresses approved
          else approve addresses (approved ++ [a])
      | None => None
      end
  end.

Section Dialer.
Context {W : Type} `{DialWorld W}.

Definition dns_policy : failure := safeNetworkFailure (Diagnostic "dns" "policy" 0).
Definition approvedAddresses (host : bytes) (w : W) : result failure (list net_addr) * W :=
  match parse_net_addr host with
  | Some address =>
      match unmap_addr (Some address) with
      | Some a => if isPublicNetworkAddress (Some a) then (Ok [a], w) else (Err dns_policy, w)
      | None => (Err dns_policy, w)
      end
  | None =>
      let '(answer, w) := lookup_ip host w in
      match answer with
      | Err e =>
          match dial_cancelled w with
          | Some deadline => (Err (context_failure deadline), w)
          | None => (Err (safeNetworkFailure (ClassifyNetworkFailure (Some e))), w)
          end
      | Ok addresses =>
          let count := Z.of_nat (length addresses) in
          if count =? 0 then (Err (safeNetworkFailure (Diagnostic "dns" "no_address" 0)), w)
          else if maximumDNSAddresses <? count then (Err dns_policy_failure, w)
          else
            match approve addresses [] with
            | None => (Err dns_policy, w)
            | Some [] => (Err target_failure, w)
            | Some approved => (Ok approved, w)
            end
      end
  end.

(** The connection attempts in order; [last] is the failure of the latest. *)
Fixpoint dial_loop (network port : bytes) (addresses : list net_addr) (last : option failure) (w : W) : result failure net_addr * W :=
  match addresses with
  | [] => (Err (match last with Some e => safeNetworkFailure (ClassifyNetworkFailure (Some e)) | None => target_failure end), w)
  | approved :: addresses =>
      if bytes_eqb network (b "tcp4") && negb (Is4 (bare approved)) then dial_loop network port addresses last w
      else if bytes_eqb network (b "tcp6") && negb (Is6 (bare approved)) then dial_loop network port addresses last w
      else
        let '(outcome, w) := dial_target network (JoinHostPort (AddrString (bare approved)) port) w in
        match outcome with
        | None => (Ok approved, w)
        | Some e =>
            match dial_cancelled w with
            | Some deadline => (Err (context_failure deadline), w)
            | None => dial_loop network port addresses (Some e) w
            end
        end
  end.
(** The connection of an [Ok] answer is the one to the address returned. *)
Definition DialContext (network address : bytes) (w : W) : result failure net_addr * W :=
  match SplitHostPort address with
  | Some (host, port) =>
      if bytes_eqb host [] || negb (dial_port port) then (Err target_failure, w)
      else
        let '(approved, w) := approvedAddresses host w in
        match approved with
        | Err e => (Err e, w)
        | Ok addresses => dial_loop network port addresses None w
        end
  | None => (Err target_failure, w)
  end.
End Dialer.
