(* ===== verification/DialFacts.v ===== *)
(** * DialFacts: the prohibited networks and the guarded dialer

    What [isPublicNetworkAddress] accepts, against the table alone, and which
    addresses [DialContext] connects to. *)
From S2P Require Import Prelude GoNet AddrText Identity Vocabulary Store Repository Discovery Reachability Admission Signature Network.
From Stdlib Require Import Ascii.
Local Open Scope string_scope.
Local Open Scope Z_scope.
Local Open Scope go_scope.
Local Open Scope list_scope.

(** ** What is public *)

(** An address as the parsers build it. *)
Definition addr_wf (a : Addr) : Prop :=
  match a with
  | V4 p q r t => 0 ≤ p ≤ 255 ∧ 0 ≤ q ≤ 255 ∧ 0 ≤ r ≤ 255 ∧ 0 ≤ t ≤ 255
  | V6 groups => length groups = 8%nat ∧ Forall group_ok groups
  end.

(** The table alone: an IPv4 address outside every prohibited network, or an IPv6
    address of the allocated global block outside every prohibited one. *)
Definition public_address (a : Addr) : bool :=
  (Is4 a || prefix_Contains allocatedGlobalIPv6Prefix a) && negb (existsb (λ prohibited, prefix_Contains prohibited a) prohibitedNetworkPrefixes).

Lemma octet_bits (P : Z → bool) : forallb P (map Z.of_nat (seq 0 256)) = true → ∀ v, 0 ≤ v ≤ 255 → P v = true.
Proof.
  intros Hall v Hv. rewrite forallb_forall in Hall. apply Hall, in_map_iff. exists (Z.to_nat v). split; [lia|]. apply in_seq. lia.
Qed.
Lemma land_high g m k : 0 ≤ g < 2 ^ 15 → Z.testbit k 15 = true → (Z.land g m =? k) = false.
Proof.
  intros Hg Hk. apply Z.eqb_neq. intros <-. rewrite Z.land_spec, andb_true_iff in Hk. destruct Hk as [Hk _].
  rewrite Z.testbit_true, Z.div_small in Hk by lia. done.
Qed.

Lemma contains_v4 p q r t bits x : addr_wf x → Is4 x = true → 0 ≤ bits ≤ 32 →
  prefix_Contains (v4_prefix p q r t bits) x = (addr_value (V4 p q r t) / 2 ^ (32 - bits) =? addr_value x / 2 ^ (32 - bits)).
Proof.
  intros Hx H4 Hb. destruct x as [a b' c d|]; [|done]. unfold prefix_Contains, v4_prefix, prefix_IsValid, host_size. cbn [prefix_addr prefix_bits addr_bits].
  by rewrite (proj2 (Z.leb_le 0 bits)), (proj2 (Z.leb_le bits 32)) by lia.
Qed.

Lemma same_block n k x y : 0 < n → k * n ≤ x < (k + 1) * n → k * n ≤ y < (k + 1) * n → x / n = y / n.
Proof. intros Hn Hx Hy. rewrite <- (Z.div_unique x n k (x - k * n)), <- (Z.div_unique y n k (y - k * n)); [done|lia..]. Qed.

(** The special-purpose predicates of net/netip lie within the table. *)
Definition special_v4 (a : Addr) : bool :=
  negb (IsGlobalUnicast a) || IsPrivate a || IsLoopback a || IsLinkLocalUnicast a || IsLinkLocalMulticast a || IsMulticast a || IsUnspecified a.
Ltac in_network Hin a b' c d bits k :=
  apply (Hin a b' c d bits); [lia|cbn; tauto|]; apply (same_block _ k);
  let n := eval vm_compute in (2 ^ (32 - bits)) in change (2 ^ (32 - bits)) with n; cbn [addr_value]; lia.
Lemma special_in_table p q r t : addr_wf (V4 p q r t) → special_v4 (V4 p q r t) = true →
  existsb (λ prohibited, prefix_Contains prohibited (V4 p q r t)) prohibitedNetworkPrefixes = true.
Proof.
  intros (Hp&Hq&Hr&Ht) Hs. apply existsb_exists.
  assert (Hmul : (Z.land p 240 =? 224) = ((224 <=? p) && (p <=? 239))).
  { apply eqb_prop. revert p Hp Hs. intros p Hp _. revert p Hp. apply octet_bits. by vm_compute. }
  assert (Hpriv : (Z.land q 240 =? 16) = ((16 <=? q) && (q <=? 31))).
  { apply eqb_prop. clear - Hq. revert q Hq. apply octet_bits. by vm_compute. }
  assert (Hin : ∀ a b' c d bits, 0 ≤ bits ≤ 32 → In (v4_prefix a b' c d bits) prohibitedNetworkPrefixes →
    addr_value (V4 a b' c d) / 2 ^ (32 - bits) = addr_value (V4 p q r t) / 2 ^ (32 - bits) →
    ∃ x, In x prohibitedNetworkPrefixes ∧ prefix_Contains x (V4 p q r t) = true).
  { intros a b' c d bits Hb Hi He. exists (v4_prefix a b' c d bits). split; [done|]. rewrite contains_v4 by done. by apply Z.eqb_eq. }
  unfold special_v4, IsGlobalUnicast, IsPrivate, IsLoopback, IsLinkLocalUnicast, IsLinkLocalMulticast, IsMulticast, IsUnspecified in Hs. cbn [addr_value] in *.
  rewrite Hmul, Hpriv in Hs.
  assert (Hcase : p = 0 ∨ p = 10 ∨ p = 127 ∨ (p = 169 ∧ q = 254) ∨ (p = 172 ∧ 16 ≤ q ≤ 31) ∨ (p = 192 ∧ q = 168) ∨ 224 ≤ p ≤ 239 ∨ 240 ≤ p).
  { rewrite ?orb_true_iff, ?andb_true_iff, ?negb_true_iff, ?andb_false_iff, ?negb_false_iff, ?Z.eqb_eq, ?Z.leb_le in Hs. lia. }
  destruct Hcase as [->|[->|[->|[[-> ->]|[[-> ?]|[[-> ->]|[?|?]]]]]]].
  - in_network Hin 0 0 0 0 8 0.
  - in_network Hin 10 0 0 0 8 10.
  - in_network Hin 127 0 0 0 8 127.
  - in_network Hin 169 254 0 0 16 43518.
  - in_network Hin 172 16 0 0 12 2753.
  - in_network Hin 192 168 0 0 16 49320.
  - in_network Hin 224 0 0 0 4 14.
  - in_network Hin 240 0 0 0 4 15.
Qed.

Lemma v6_value g gs : length gs = 7%nat → Forall group_ok gs →
  0 ≤ addr_value (V6 (g :: gs)) - g * 2 ^ 112 < 2 ^ 112.
Proof.
  intros Hl Hgs. do 7 (destruct gs as [|? gs]; [done|]). destruct gs; [|done]. repeat (apply List.Forall_cons_iff in Hgs as [? Hgs]). unfold group_ok in *.
  cbn [addr_value fold_left]. change (2 ^ 112) with 5192296858534827628530496329220096. lia.
Qed.

Lemma allocated_group x : addr_wf x → Is6 x = true → prefix_Contains allocatedGlobalIPv6Prefix x = true →
  ∃ g gs, x = V6 (g :: gs) ∧ 0x2000 ≤ g < 0x4000 ∧ 2 ^ 125 ≤ addr_value x.
Proof.
  destruct x as [|groups]; [done|]. intros [Hl Hg] _ Hc. destruct groups as [|g gs]; [done|]. apply List.Forall_cons_iff in Hg as [Hg Hgs].
  pose proof (v6_value g gs ltac:(by injection Hl) Hgs) as Hv. exists g, gs. split; [done|].
  unfold prefix_Contains in Hc. apply andb_true_iff in Hc as [_ Hc]. apply Z.eqb_eq in Hc.
  change (host_size allocatedGlobalIPv6Prefix) with (2 ^ 125) in Hc.
  change (addr_value (prefix_addr allocatedGlobalIPv6Prefix) / 2 ^ 125) with 1 in Hc.
  set (v := addr_value (V6 (g :: gs))) in *. change (2 ^ 125) with 42535295865117307932921825928971026432 in *.
  change (2 ^ 112) with 5192296858534827628530496329220096 in *. unfold group_ok in Hg. clearbody v.
  assert (42535295865117307932921825928971026432 ≤ v < 2 * 42535295865117307932921825928971026432); [|lia].
  pose proof (Z.div_mod v 42535295865117307932921825928971026432). pose proof (Z.mod_pos_bound v 42535295865117307932921825928971026432). lia.
Qed.

Lemma special_v6 x : addr_wf x → Is6 x = true → prefix_Contains allocatedGlobalIPv6Prefix x = true → special_v4 x = false.
Proof.
  intros Hx H6 Hc. destruct (allocated_group x Hx H6 Hc) as (g&gs&->&Hg&Hv).
  assert (Hm : (Z.shiftr g 8 =? 255) = false).
  { apply Z.eqb_neq. rewrite Z.shiftr_div_pow2 by lia. change (2 ^ 8) with 256. intros Heq. pose proof (Z.mul_div_le g 256 ltac:(lia)). lia. }
  assert (Hv0 : (addr_value (V6 (g :: gs)) =? 0) = false ∧ (addr_value (V6 (g :: gs)) =? 1) = false).
  { change (2 ^ 125) with 42535295865117307932921825928971026432 in Hv. split; apply Z.eqb_neq; lia. }
  destruct Hv0 as [Hv0 Hv1].
  unfold special_v4, IsGlobalUnicast, IsPrivate, IsLoopback, IsLinkLocalUnicast, IsLinkLocalMulticast, IsMulticast, IsUnspecified, first_group. cbn [head default].
  rewrite Hv0, Hv1. unfold default, from_option, id. cbn. rewrite Hm, !land_high by (done || lia). done.
Qed.

Lemma Unmap_wf x : addr_wf x → addr_wf (Unmap x).
Proof.
  destruct x as [|groups]; [done|]. intros [Hl Hg]. do 8 (destruct groups as [|? groups]; [done|]). destruct groups; [|done]. cbn [Unmap].
  destruct (is_4in6 _); [|done]. repeat (apply List.Forall_cons_iff in Hg as [? Hg]). unfold group_ok in *. cbn. div_lia.
Qed.
Lemma Unmap_twice x : Unmap (Unmap x) = Unmap x.
Proof.
  destruct x as [|groups]; [done|]. do 8 (destruct groups as [|? groups]; [done|]). destruct groups; [|done]. cbn [Unmap].
  destruct (is_4in6 _) eqn:E; [done|]. cbn [Unmap]. by rewrite E.
Qed.

(** The tests of one unmapped address come to the table. *)
Lemma unmapped_public y z : addr_wf y → Unmap y = y → isPublicNetworkAddress (Some (NetAddr y z)) = bytes_eqb z [] && public_address y.
Proof.
  intros Hx Hu. unfold isPublicNetworkAddress, public_address. rewrite Hu. destruct (bytes_eqb z []); [|done]. cbn [negb andb].
  change (negb (IsGlobalUnicast y) || IsPrivate y || IsLoopback y || IsLinkLocalUnicast y || IsLinkLocalMulticast y || IsMulticast y || IsUnspecified y)
    with (special_v4 y).
  destruct (Is4 y) eqn:H4; unfold Is6; rewrite H4; cbn [negb andb orb].
  - destruct y as [p q r t|]; [|done]. destruct (special_v4 (V4 p q r t)) eqn:Hs; [|done]. by rewrite special_in_table.
  - destruct (prefix_Contains allocatedGlobalIPv6Prefix y) eqn:Hc; [|done]. cbn [negb andb]. by rewrite special_v6 by (unfold Is6; rewrite ?H4; done).
Qed.

(** The tests of [isPublicNetworkAddress] decide membership in its table
    alone: an address without zone is public exactly when, IPv4-mapped addresses being
    read as IPv4, it lies outside every prohibited network and, for IPv6, inside the
    allocated global block. *)
Theorem isPublicNetworkAddress_exact x z : addr_wf x →
  isPublicNetworkAddress (Some (NetAddr x z)) = bytes_eqb z [] && public_address (Unmap x).
Proof.
  intros Hx. rewrite <- unmapped_public by (by apply Unmap_wf || apply Unmap_twice). unfold isPublicNetworkAddress. by rewrite Unmap_twice.
Qed.

(** * DialFacts: the guarded dialer connects to what it approved What one dial asks of DNS and TCP, recorded, and that every connection it attempts is to a public address. *)

(** ** The dialer connects to what it approved *)

Lemma parse_net_addr_wf s x z : parse_net_addr s = Some (NetAddr x z) → addr_wf x.
Proof.
  unfold parse_net_addr. destruct (ParseAddr_unzoned s) as [y|] eqn:E; [|done].
  assert (addr_wf y).
  { unfold ParseAddr_unzoned in E. destruct (List.find _ s) as [c|]; [|done]. destruct (c ≡c "."); [|destruct (c ≡c ":"); [|done]].
    - apply parse_ipv4_print in E as (a&b'&c'&d&->&_&?&?&?&?). by cbn.
    - destruct (cut s "%") as [[before zone] found]. assert (Hp : ∃ t, parse_ipv6 t = Some y) by (destruct found, zone; first [done | by exists before | by exists s]).
      destruct Hp as [t Ht]. destruct (parse_ipv6_v6 t y Ht) as [gs ->]. by apply parse_ipv6_range in Ht. }
  destruct y; by intros [= <- <-].
Qed.

Lemma parse_printed a : addr_wf a → parse_net_addr (AddrString a) = Some (NetAddr a []).
Proof.
  intros Ha. unfold parse_net_addr, ParseAddr_unzoned. destruct a as [p q r t|gs].
  - destruct Ha as (Hp&Hq&Hr&Ht).
    assert (Hf : List.find (λ c, (c ≡c ".") || (c ≡c ":") || (c ≡c "%")) (AddrString (V4 p q r t)) = Some "."%char).
    { cbn [AddrString]. unfold print_ipv4, print_octet.
      assert (Hd : ∀ v, 0 ≤ v ≤ 9 → (decimal_digit v ≡c ".") || (decimal_digit v ≡c ":") || (decimal_digit v ≡c "%") = false).
      { intros v Hv. assert (In v [0;1;2;3;4;5;6;7;8;9]) as Hin by (cbn; lia). cbn in Hin. repeat (destruct Hin as [<-|Hin]; [done|]). done. }
      destruct (Z.ltb_spec p 10); [|destruct (Z.ltb_spec p 100)]; cbn [app List.find]; rewrite !Hd; try done; div_lia. }
    rewrite Hf. cbn [AddrString]. change ("."%char ≡c ".") with true. by rewrite parse_print_ipv4.
  - destruct Ha as [Hl Hg]. pose proof (AddrString_shape gs Hl Hg) as (Hc&_&x&y&Hs&Hx).
    assert (Hf : List.find (λ c, (c ≡c ".") || (c ≡c ":") || (c ≡c "%")) (AddrString (V6 gs)) = Some ":"%char).
    { rewrite Hs. clear Hs. induction x as [|c x IH]; [done|]. apply all_in_inv in Hx as [Hcx Hx]. simpl. destruct (hex_text_facts c Hcx) as (_&_&->). by apply IH. }
    rewrite Hf. change (":"%char ≡c ".") with false. change (":"%char ≡c ":") with true. cbn match.
    assert (Hcut : cut (AddrString (V6 gs)) "%" = (AddrString (V6 gs), [], false)).
    { apply cut_free. intros c Hin. apply Hc in Hin. revert c Hin. each_byte. }
    rewrite Hcut. cbn match. by rewrite AddrString_parse.
Qed.

(** What one dial asks of the world. *)
Inductive dial_event := Looked (host : bytes) | Dialled (network target : bytes).
(** A world that keeps the sequence of its calls *)
Definition logged {W} : Type := W * list dial_event.
#[local] Instance logged_world {W} `{D : DialWorld W} : DialWorld (logged (W := W)) := {|
  lookup_ip host wl := let '(w, log) := wl in let '(answer, w) := lookup_ip host w in (answer, (w, log ++ [Looked host]));
  dial_target network target wl := let '(w, log) := wl in let '(outcome, w) := dial_target network target w in (outcome, (w, log ++ [Dialled network target]));
  dial_cancelled wl := dial_cancelled wl.1 |}.

Definition netip_wf (a : netip_addr) : Prop := match a with Some a => addr_wf (bare a) | None => True end.
(** The address is valid, without zone, and public, after [Unmap]. *)
Definition public_answer (a : netip_addr) : Prop := ∃ x, unmap_addr a = Some (NetAddr x []) ∧ addr_wf x ∧ public_address x = true.

Lemma unmap_public a x : netip_wf a → unmap_addr a = Some x → isPublicNetworkAddress (Some x) = true →
  x = NetAddr (bare x) [] ∧ addr_wf (bare x) ∧ public_address (bare x) = true.
Proof.
  destruct a as [[y z]|]; [|done]. cbn [unmap_addr netip_wf]. intros Hw [= <-]. cbn [bare] in Hw.
  assert (He : (if Is4In6 y then NetAddr (Unmap y) [] else NetAddr y z) = NetAddr (Unmap y) (if Is4In6 y then [] else z)).
  { destruct (Is4In6 y) eqn:E; [done|]. f_equal. destruct y as [|gs]; [done|]. cbn in E. do 8 (destruct gs as [|? gs]; [done|]). destruct gs; [|done]. cbn [Unmap]. by rewrite E. }
  rewrite He. rewrite unmapped_public by (by apply Unmap_wf || apply Unmap_twice). cbn [bare]. intros [Hz Hp]%andb_true_iff.
  apply bytes_eqb_eq in Hz. rewrite Hz. split_and!; [done|by apply Unmap_wf|done].
Qed.

Lemma approve_public l : ∀ acc out, approve l acc = Some out → Forall netip_wf l →
  Forall public_answer l ∧ (∀ a, In a out → In a acc ∨ (a = NetAddr (bare a) [] ∧ addr_wf (bare a) ∧ public_address (bare a) = true ∧ In (Some a) (map unmap_addr l))) ∧
  (length out <= length acc + length l)%nat.
Proof.
  induction l as [|x l IH]; intros acc out Ha Hw; cbn [approve] in Ha; [injection Ha as <-; split_and!; [constructor|by left|cbn; lia]|].
  apply List.Forall_cons_iff in Hw as [Hx Hw]. destruct (unmap_addr x) as [a|] eqn:Hu; [|done]. destruct (isPublicNetworkAddress (Some a)) eqn:Hpub; [|done].
  cbn [negb] in Ha. destruct (unmap_public x a Hx Hu Hpub) as (He&Hwa&Hpa).
  assert (Hpa' : public_answer x) by (exists (bare a); by rewrite <- He).
  assert (Hrest : ∀ acc', approve l acc' = Some out → (∀ y, In y acc' → In y acc ∨ y = a) → (length acc' <= S (length acc))%nat →
    Forall public_answer (x :: l) ∧ (∀ y, In y out → In y acc ∨ (y = NetAddr (bare y) [] ∧ addr_wf (bare y) ∧ public_address (bare y) = true ∧ In (Some y) (map unmap_addr (x :: l)))) ∧
    (length out <= length acc + length (x :: l))%nat).
  { intros acc' Ha' Hacc Hlen. destruct (IH acc' out Ha' Hw) as (IH1&IH2&IH3). split_and!; [by constructor| |cbn; lia].
    intros y Hy. cbn [map In]. destruct (IH2 y Hy) as [Hin|(?&?&?&?)]; [|right; split_and!; try done; by right].
    destruct (Hacc y Hin) as [?| ->]; [by left|]. right. rewrite Hu. split_and!; try done. by left. }
  destruct (existsb _ acc).
  - apply (Hrest acc); [done|by left|lia].
  - apply (Hrest (acc ++ [a])); [done| |rewrite length_app; cbn; lia]. intros y [?|[<-|[]]]%in_app_or; [by left|by right].
Qed.

Definition dialled (network port : bytes) (a : net_addr) : dial_event := Dialled network (JoinHostPort (AddrString (bare a)) port).

Section Logged.
Context {W : Type} `{D : DialWorld W}.
(** A resolver's answer holds addresses: 32-bit or 128-bit values. *)
Definition answers_wf : Prop := ∀ host w answer, (lookup_ip host w).1 = Ok answer → Forall netip_wf answer.
(** [a] may be dialed for [host]: the literal address, or one of an answer all of
    whose addresses are public. *)
Definition approved_for (host : bytes) (w : W) (a : Addr) : Prop :=
  public_address a = true ∧
  match parse_net_addr host with
  | Some x => a = Unmap (bare x)
  | None => ∃ answer, (lookup_ip host w).1 = Ok answer ∧ Z.of_nat (length answer) ≤ maximumDNSAddresses ∧ Forall public_answer answer ∧
      In (Some (NetAddr a [])) (map unmap_addr answer)
  end.

Lemma approved_logged host (w : W) log r w' log' : answers_wf → approvedAddresses host (w, log) = (r, (w', log')) →
  (log' = log ∨ log' = log ++ [Looked host]) ∧
  ∀ addresses, r = Ok addresses → Z.of_nat (length addresses) ≤ maximumDNSAddresses ∧
    ∀ a, In a addresses → a = NetAddr (bare a) [] ∧ addr_wf (bare a) ∧ approved_for host w (bare a).
Proof.
  intros Hwf Ha. unfold approvedAddresses, approved_for in *. destruct (parse_net_addr host) as [x|] eqn:Hp.
  - destruct x as [x z]. apply parse_net_addr_wf in Hp. cbn [unmap_addr] in Ha. destruct (isPublicNetworkAddress _) eqn:Hpub; injection Ha as <- _ <-;
      (split; [by left|]); [|done].
    intros addresses [= <-]. split; [done|]. intros a [<-|[]].
    destruct (unmap_public (Some (NetAddr x z)) _ Hp eq_refl Hpub) as (He&Hwa&Hpa). split_and!; try done.
    cbn [bare]. destruct (Is4In6 x) eqn:E; cbn [bare]; [done|].
    symmetry. destruct x as [|gs]; [done|]. cbn in E. do 8 (destruct gs as [|? gs]; [done|]). destruct gs; [|done]. cbn [Unmap]. by rewrite E.
  - cbn [lookup_ip logged_world] in Ha. pose proof (Hwf host w) as Hw. destruct (lookup_ip host w) as [answer w1] eqn:Hl. cbn [fst] in *.
    destruct answer as [answer|e]; [|destruct (dial_cancelled _); injection Ha as <- _ <-; (split; [by right|done])].
    destruct (_ =? 0); [injection Ha as <- _ <-; by split; [right|]|]. destruct (Z.ltb_spec maximumDNSAddresses (Z.of_nat (length answer))); [injection Ha as <- _ <-; by split; [right|]|].
    destruct (approve answer []) as [out|] eqn:Happ; [|injection Ha as <- _ <-; by split; [right|]].
    destruct (approve_public _ _ _ Happ (Hw _ eq_refl)) as (Hall&Hout&Hlen). cbn in Hlen.
    destruct out as [|a out]; injection Ha as <- _ <-; (split; [by right|]); [done|]. intros addresses [= <-]. split; [lia|].
    intros x Hx. destruct (Hout x Hx) as [[]|(Hb&Hxw&Hxp&Hxin)]. split_and!; try done. exists answer. rewrite <- Hb. split_and!; try done; lia.
Qed.

Lemma dial_loop_logged network port addresses : ∀ last (w : W) log r w' log', dial_loop network port addresses last (w, log) = (r, (w', log')) →
  ∃ tried, log' = log ++ map (dialled network port) tried ∧ (length tried <= length addresses)%nat ∧ (∀ a, In a tried → In a addresses) ∧
    ∀ c, r = Ok c → ∃ before, tried = before ++ [c].
Proof.
  induction addresses as [|a addresses IH]; intros lst w log r w' log' Hd; cbn [dial_loop] in Hd.
  { injection Hd as <- _ <-. exists []. cbn. rewrite app_nil_r. by split_and!. }
  assert (Hskip : ∀ l w0 lg, dial_loop network port addresses l (w0, lg) = (r, (w', log')) → ∃ tried, log' = lg ++ map (dialled network port) tried ∧
    (length tried <= length (a :: addresses))%nat ∧ (∀ x, In x tried → In x (a :: addresses)) ∧ ∀ c, r = Ok c → ∃ before, tried = before ++ [c]).
  { intros l w0 lg Hl. destruct (IH _ _ _ _ _ _ Hl) as (t&?&?&Hin&?). exists t. split_and!; [done|cbn; lia| |done]. intros x Hx. right. by apply Hin. }
  destruct (bytes_eqb network (b "tcp4") && _); [by eapply Hskip|]. destruct (bytes_eqb network (b "tcp6") && _); [by eapply Hskip|].
  cbn [dial_target logged_world] in Hd. destruct (dial_target network _ w) as [outcome w1].
  destruct outcome as [e|].
  - destruct (dial_cancelled _).
    + injection Hd as <- _ <-. exists [a]. split_and!; [done|cbn; lia| |done]. intros x [<-|[]]. by left.
    + destruct (IH _ _ _ _ _ _ Hd) as (t&->&?&Hin&Hc). exists (a :: t). cbn [map]. rewrite <- app_assoc. split_and!; [done|cbn; lia| |].
      * intros x [<-|Hx]; [by left|right; by apply Hin].
      * intros c Hr. destruct (Hc c Hr) as [before ->]. by exists (a :: before).
  - injection Hd as <- _ <-. exists [a]. split_and!; [done|cbn; lia| |]. { intros x [<-|[]]. by left. } intros c [= <-]. by exists [].
Qed.

(** C30: The guarded dialer connects only to public addresses: every connection a dial
    attempts is to the printed form of an address that the host literally is, or that
    the single lookup of the host answered, all of whose addresses are public; the
    printed form names that address again, so that nothing is resolved a second time;
    one lookup and at most sixteen attempts are made, and a connection returned is
    the last attempted. *)
Theorem dialed_addresses_public network address (w : W) r w' log : answers_wf → DialContext network address (w, []) = (r, (w', log)) →
  ∃ looked tried, log = looked ++ tried ∧ Z.of_nat (length tried) ≤ maximumDNSAddresses ∧
    (∀ event, In event looked → ∃ host port, SplitHostPort address = Some (host, port) ∧ looked = [Looked host]) ∧
    (∀ event, In event tried → ∃ host port a, SplitHostPort address = Some (host, port) ∧ event = Dialled network (JoinHostPort (AddrString a) port) ∧
      parse_net_addr (AddrString a) = Some (NetAddr a []) ∧ approved_for host w a) ∧
    ∀ c, r = Ok c → ∃ port before, tried = before ++ [dialled network port c].
Proof.
  intros Hwf Hd. unfold DialContext in Hd. destruct (SplitHostPort address) as [[host port]|]; [|injection Hd as <- _ <-; by exists [], []].
  destruct (_ || _); [injection Hd as <- _ <-; by exists [], []|].
  destruct (approvedAddresses host (w, [])) as [approved [w1 log1]] eqn:Ha. destruct (approved_logged _ _ _ _ _ _ Hwf Ha) as [Hlog Hok]. cbn [app] in Hlog.
  assert (Hlooked : ∀ event, In event log1 → ∃ host' port', Some (host, port) = Some (host', port') ∧ log1 = [Looked host']).
  { intros event Hin. exists host, port. split; [done|]. by destruct Hlog as [->| ->]. }
  destruct approved as [addresses|e].
  - destruct (Hok _ eq_refl) as [Hlen Hall]. destruct (dial_loop_logged _ _ _ _ _ _ _ _ _ Hd) as (tried&->&Hl&Hin&Hc).
    exists log1, (map (dialled network port) tried). rewrite length_map. split_and!; [done|lia|done| |].
    + intros event (a&<-&Hx)%in_map_iff. destruct (Hall a (Hin a Hx)) as (Hb&Hw&Happ). exists host, port, (bare a). split_and!; try done. by apply parse_printed.
    + intros c Hr. destruct (Hc c Hr) as [before ->]. exists port, (map (dialled network port) before). by rewrite map_app.
  - injection Hd as <- _ <-. exists log1, []. rewrite app_nil_r. by split_and!.
Qed.
End Logged.

(** A name with two public addresses, the first of which refuses; every other name
    also has a private one. *)
#[local] Instance sample_world : DialWorld nat := {|
  lookup_ip host n := (Ok (if bytes_eqb host (b "relay.example") then
      [Some (NetAddr (V6 [0; 0; 0; 0; 0; 65535; 23992; 55330]) []); Some (NetAddr (V6 [0x2606; 0x4700; 0; 0; 0; 0; 0; 1]) [])]
    else [Some (NetAddr (V4 93 184 216 34) []); Some (NetAddr (V4 10 0 0 1) [])]), n);
  dial_target network target n := (if (n =? 0)%nat then Some no_failure else None, S n);
  dial_cancelled _ := None |}.
Lemma sample_dns_answers : answers_wf (W := nat).
Proof. intros host w answer [= <-]. destruct (bytes_eqb _ _); repeat constructor; cbn; lia. Qed.

Lemma dialed_addresses_public_witness :
  ∃ tried, DialContext (b "tcp") (b "relay.example:443") (0%nat, []) =
      (Ok (NetAddr (V6 [0x2606; 0x4700; 0; 0; 0; 0; 0; 1]) []), (2%nat, Looked (b "relay.example") :: tried)) ∧
    tried = [Dialled (b "tcp") (b "93.184.216.34:443"); Dialled (b "tcp") (b "[2606:4700::1]:443")] ∧
    (DialContext (b "tcp") (b "other.example:443") (0%nat, [])).2 = (0%nat, [Looked (b "other.example")]) ∧
    ∃ looked tried', Looked (b "relay.example") :: tried = looked ++ tried' ∧ Z.of_nat (length tried') ≤ maximumDNSAddresses.
Proof.
  eexists. split; [vm_compute; reflexivity|]. split; [reflexivity|]. split; [vm_compute; reflexivity|].
  destruct (dialed_addresses_public (W := nat) (b "tcp") (b "relay.example:443") 0%nat _ _ _ sample_dns_answers ltac:(vm_compute; reflexivity))
    as (looked&tried'&Hlog&Hlen&_). exists looked, tried'. split; [exact Hlog|exact Hlen].
Defined.

Lemma isPublicNetworkAddress_exact_witness : addr_wf (V6 [0; 0; 0; 0; 0; 65535; 0x0a00; 1]) ∧
  isPublicNetworkAddress (Some (NetAddr (V6 [0; 0; 0; 0; 0; 65535; 0x0a00; 1]) [])) = false ∧
  isPublicNetworkAddress (Some (NetAddr (V6 [0x2606; 0x4700; 0; 0; 0; 0; 0; 1]) [])) = true.
Proof.
  assert (Hw : addr_wf (V6 [0; 0; 0; 0; 0; 65535; 0x0a00; 1])) by (split; [done|repeat constructor; done]).
  split; [exact Hw|]. split.
  - rewrite (isPublicNetworkAddress_exact (V6 [0; 0; 0; 0; 0; 65535; 0x0a00; 1]) [] Hw). vm_compute. reflexivity.
  - vm_compute. reflexivity.
Defined.
