(* ===== verification/Resolver.v ===== *)
(** * Resolver: actors, inboxes and signing keys fetched from relays

    [internal/actorresolver/resolver.go]: key identifiers, the bounded fetch of an
    actor document, the actor and inbox probes and the resolution of an RSA key.  An
    error is the list of sentinels [errors.Is] finds in it.  The HTTP client, the
    media-type parser and the PEM and X.509 decoders are taken as they are. *)
From S2P Require Import Prelude GoNet Text Json Identity Vocabulary Store Repository Discovery Reachability Session Replay Signature Requests Admission Network.
From Stdlib Require Import Ascii.
Local Open Scope string_scope.
Local Open Scope Z_scope.
Local Open Scope go_scope.
Local Open Scope list_scope.

Definition maximumKeyIDBytes : Z := 2048.
Definition maximumKeyFragmentBytes : Z := 128.
Definition maximumActorBodyBytes : Z := 256 * 1024.
Definition maximumActorJSONDepth : Z := 32.
Definition maximumJSONEntries : Z := 4096.
Definition maximumActorTypes : Z := 8.
Definition maximumPublicKeys : Z := 8.
Definition maximumPublicKeyPEM : Z := 16 * 1024.
Definition minimumRSAKeyBits : Z := 2048.
Definition maximumRSAKeyBits : Z := 8192.
Definition maximumUserAgentBytes : Z := 256.
Definition activityStreamsProfile : string := "https://www.w3.org/ns/activitystreams".
Definition activityStreamsAccept : string :=
  "application/activity+json, application/ld+json; profile=" +:+ String quote "https://www.w3.org/ns/activitystreams" +:+ String quote "".

(** The errors of the package and of the context. *)
Inductive sentinel :=
| ErrResolverConfiguration | ErrKeyID | ErrNetworkTarget | ErrActorFetch | ErrActorDocument | ErrPublicKey | ErrRedirectRejected
| Canceled | DeadlineExceeded.
#[export] Instance sentinel_eq_dec : EqDecision sentinel.
Proof. solve_decision. Defined.
Definition resolver_error : Type := list sentinel.
(** [ctx.Err()], which is a deadline or a cancellation *)
Definition context_sentinel (deadline : bool) : sentinel := if deadline then DeadlineExceeded else Canceled.

(** ** Key identifiers *)

(** [validUserAgent] *)
Definition validUserAgent (value : bytes) : bool := forallb (λ c, (0x20 <=? byte c) && (byte c <=? 0x7e)) value.
(** [newResolver] with a client *)
Definition newResolver (userAgent : string) : bool :=
  let ua := b userAgent in
  negb (bytes_eqb ua []) && (Z.of_nat (length ua) <=? maximumUserAgentBytes) && negb (surrounded_by_space ua) && valid_utf8 ua && validUserAgent ua.

Definition key_fragment_char (c : ascii) : bool := is_lower c || is_upper c || is_digit c || mem c "-._~".
Definition validKeyFragment (fragment : bytes) : bool := forallb key_fragment_char fragment.

(** [escape(s, encodeFragment)] *)
Definition escape_fragment_char (c : ascii) : bool := negb (is_alnum c || mem c "-_.~" || mem c "$&+,/:;=?@" || mem c "!()*").
Definition escape_fragment (s : bytes) : bytes := flat_map (λ c, if escape_fragment_char c then percent_encode c else [c]) s.
(** [url.setFragment]: the fragment and [RawFragment] *)
Definition set_fragment (f : bytes) : option (bytes * bytes) :=
  fragment ← unescape f encodePath;
  Some (fragment, if bytes_eqb f (escape_fragment fragment) then [] else f).
(** [url.Parse] with the fragment and [RawFragment].  The user information, which no
    canonical URL has, is kept as it is written. *)
Definition parse_url (raw : bytes) : option (request_url * bytes) :=
  let '(before, f, _) := cut raw "#" in
  u ← Parse raw;
  '(fragment, rawFragment) ← (match f with [] => Some ([], []) | _ => set_fragment f end);
  let user := match cut_last (cut (drop 2 (cut (cut before "?").1.1 ":").1.2) "/").1.1 "@" with Some (user, _) => user ++ b "@" | None => [] end in
  Some (RequestURL u (if HasUser u then user else []) fragment, rawFragment).

Section KeyIDs.
Context `{RelayIdentity}.

Definition actorURLFromKeyID (keyID : string) : result resolver_error string :=
  if (keyID ≟ "") || (maximumKeyIDBytes <? len keyID) || surrounded_by_space (b keyID) || negb (valid_utf8 (b keyID)) then Err [ErrKeyID]
  else
    match parse_url (b keyID) with
    | None => Err [ErrKeyID]
    | Some (parsed, rawFragment) =>
        let fragment := url_fragment parsed in
        if bytes_eqb fragment [] || negb (bytes_eqb rawFragment []) || (maximumKeyFragmentBytes <? Z.of_nat (length fragment)) ||
           negb (validKeyFragment fragment) then Err [ErrKeyID]
        else
          let parsed := RequestURL (url_target parsed) (url_user parsed) [] in
          let actorURL := str (url_String parsed) in
          if negb (canonical_actor actorURL) || negb (keyID ≟ actorURL +:+ "#" +:+ str fragment) then Err [ErrKeyID]
          else if validateActorFetchURL parsed then Ok actorURL else Err [ErrNetworkTarget]
    end.
End KeyIDs.

(** ** Content types *)

(** [strings.Fields] *)
Fixpoint fields_from (s current : bytes) : list bytes :=
  let flush := match current with [] => [] | _ => [current] end in
  match s with
  | [] => flush
  | c :: s1 =>
      if ascii_space c then flush ++ fields_from s1 []
      else
        match s1 with
        | d :: s2 =>
            if space_pair c d then flush ++ fields_from s2 []
            else
              match s2 with
              | e :: s3 => if space_triple c d e then flush ++ fields_from s3 [] else fields_from s1 (current ++ [c])
              | [] => fields_from s1 (current ++ [c])
              end
        | [] => fields_from s1 (current ++ [c])
        end
  end.
Definition Fields (s : bytes) : list bytes := fields_from s [].

(** [mime.ParseMediaType], and the decoders of public keys: [pem.Decode] with the
    type, the headers and the bytes of a block and what follows it,
    [x509.ParsePKIXPublicKey], whose key may be no RSA key, and
    [x509.ParsePKCS1PublicKey]. *)
Record pem_block := PEMBlock { block_type : string; block_headers : nat; block_bytes : bytes }.
Class ActorFormats := {
  ParseMediaType : string → option (string * gmap string string);
  pem_Decode : bytes → option pem_block * bytes;
  ParsePKIXPublicKey : bytes → option (option public_key);
  ParsePKCS1PublicKey : bytes → option public_key }.

Definition profileContainsActivityStreams (profile : string) : bool :=
  existsb (λ candidate, bytes_eqb candidate (b activityStreamsProfile)) (Fields (b profile)).
(** [strings.ToLower] and [EqualFold] against ASCII names without [k] and [s] that
    other runes fold to; [strings.ToLower] of a media type [ParseMediaType] lowered *)
Definition lower_text (s : string) : string := str (map lower_byte (b s)).

Section Formats.
Context `{ActorFormats}.

Definition validActivityStreamsContentType (values : list string) : bool :=
  match values with
  | [value] =>
      if 512 <? len value then false
      else
        match ParseMediaType value with
        | None => false
        | Some (mediaType, parameters) =>
            let charset := parameters !! "charset" in
            if match charset with Some charset => negb (lower_text charset ≟ "utf-8") | None => false end then false
            else
              let parameters := delete "charset" parameters in
              let profile := parameters !! "profile" in
              if lower_text mediaType ≟ "application/activity+json" then
                match profile with
                | Some profile => if (length (Fields (b profile)) =? 0)%nat then false else bool_decide (delete "profile" parameters = ∅)
                | None => bool_decide (parameters = ∅)
                end
              else if lower_text mediaType ≟ "application/ld+json" then
                match profile with
                | Some profile => if profileContainsActivityStreams profile then bool_decide (delete "profile" parameters = ∅) else false
                | None => false
                end
              else false
        end
  | _ => false
  end.
End Formats.

(** ** Actor documents *)

(** The walk of [consumeJSONValue] over a document that parses: one that does not is
    refused with the same error, by the walk or by [json.Unmarshal]. *)
Fixpoint json_value_ok (depth : Z) (j : json) : bool :=
  negb (maximumActorJSONDepth <? depth) &&
  match j with
  | JObject members =>
      negb (maximumJSONEntries <? Z.of_nat (length members)) && negb (duplicate_names members) && forallb (λ m, json_value_ok (depth + 1) m.2) members
  | JArray items => negb (maximumJSONEntries <? Z.of_nat (length items)) && forallb (json_value_ok (depth + 1)) items
  | _ => true
  end.
Definition validateJSONDocument (body : bytes) : option json :=
  j ← parse_document body; if json_value_ok 0 j then Some j else None.

(** [json.Unmarshal] into a struct: null leaves it, an unknown field is skipped. *)
Fixpoint unmarshal_members {R} (fields : list (field R)) (members : list (bytes * json)) (r : R) : option R :=
  match members with
  | [] => Some r
  | (name, v) :: members =>
      match find (field_named name) fields with
      | Some f => r ← f.2 v r; unmarshal_members fields members r
      | None => unmarshal_members fields members r
      end
  end.
Definition unmarshal_struct {R} (fields : list (field R)) : Decoder R := λ j r,
  match j with JNull => Some r | JObject members => unmarshal_members fields members r | _ => None end.

(** A [json.RawMessage]: absent, or a value; null is kept. *)
Record actorDocument := ActorDocument { doc_ID : string; doc_Type : option json; doc_Inbox : string; doc_PublicKey : option json }.
Record actorPublicKey := ActorPublicKey { apk_ID : string; apk_Owner : string; apk_PEM : string }.
Definition actorDocument_fields : list (field actorDocument) :=
  [("id", λ j r, v ← into_string j (doc_ID r); Some (ActorDocument v (doc_Type r) (doc_Inbox r) (doc_PublicKey r)));
   ("type", λ j r, Some (ActorDocument (doc_ID r) (Some j) (doc_Inbox r) (doc_PublicKey r)));
   ("inbox", λ j r, v ← into_string j (doc_Inbox r); Some (ActorDocument (doc_ID r) (doc_Type r) v (doc_PublicKey r)));
   ("publicKey", λ j r, Some (ActorDocument (doc_ID r) (doc_Type r) (doc_Inbox r) (Some j)))].
Definition actorPublicKey_fields : list (field actorPublicKey) :=
  [("id", λ j r, v ← into_string j (apk_ID r); Some (ActorPublicKey v (apk_Owner r) (apk_PEM r)));
   ("owner", λ j r, v ← into_string j (apk_Owner r); Some (ActorPublicKey (apk_ID r) v (apk_PEM r)));
   ("publicKeyPem", λ j r, v ← into_string j (apk_PEM r); Some (ActorPublicKey (apk_ID r) (apk_Owner r) v))].
Definition empty_document : actorDocument := ActorDocument "" None "" None.
Definition empty_key : actorPublicKey := ActorPublicKey "" "" "".
Definition decode_document (j : json) : option actorDocument := unmarshal_struct actorDocument_fields j empty_document.
Definition decode_key (j : json) : option actorPublicKey := unmarshal_struct actorPublicKey_fields j empty_key.

Definition relay_actor_type (s : string) : bool := one_of ["Application"; "Service"; "Group"] s.
Definition validRelayActorType (raw : option json) : bool :=
  match raw with
  | None => false
  | Some j =>
      match into_string j "" with
      | Some single => relay_actor_type single
      | None =>
          match j with
          | JArray items =>
              match mapM (λ item, into_string item "") items with
              | Some multiple =>
                  negb (length multiple =? 0)%nat && negb (maximumActorTypes <? Z.of_nat (length multiple)) && existsb relay_actor_type multiple
              | None => false
              end
          | _ => false
          end
      end
  end.

Definition decodeActorPublicKeys (raw : option json) : option (list actorPublicKey) :=
  match raw with
  | None => None
  | Some j =>
      let many :=
        match j with
        | JArray items =>
            multiple ← mapM decode_key items;
            if (length multiple =? 0)%nat || (maximumPublicKeys <? Z.of_nat (length multiple)) || existsb (λ key, apk_ID key ≟ "") multiple
            then None else Some multiple
        | _ => None
        end in
      match decode_key j with
      | Some single => if apk_ID single ≟ "" then many else Some [single]
      | None => many
      end
  end.
(** The loop that selects a key: two keys of the identifier are an error. *)
Fixpoint select_key (keyID : string) (keys : list actorPublicKey) (selected : option actorPublicKey) : option (option actorPublicKey) :=
  match keys with
  | [] => Some selected
  | key :: keys =>
      if negb (apk_ID key ≟ keyID) then select_key keyID keys selected
      else match selected with Some _ => None | None => select_key keyID keys (Some key) end
  end.

Definition acceptable_modulus (n : Z) : bool :=
  (0 <? n) && Z.odd n && (minimumRSAKeyBits <=? bit_len n) && (bit_len n <=? maximumRSAKeyBits).
(** Go's [%] has the sign of the dividend; the exponent is at least 3 there. *)
Definition acceptable_key (key : public_key) : bool :=
  match modulus key with Some n => acceptable_modulus n && (3 <=? exponent key) && negb (Z.rem (exponent key) 2 =? 0) | None => false end.

Section Documents.
Context `{RelayIdentity} `{ActorFormats}.

(** A PEM text holds no NUL and nothing but white space after its block. *)
Definition parseRSAPublicKey (value : string) : result resolver_error public_key :=
  if (value ≟ "") || (maximumPublicKeyPEM <? len value) || negb (valid_utf8 (b value)) || contains_byte (b value) (ascii_of_N 0) ||
     negb (has_prefix (b value) (b "-----BEGIN ")) then Err [ErrPublicKey]
  else
    match pem_Decode (b value) with
    | (None, _) => Err [ErrPublicKey]
    | (Some block, trailing) =>
        if negb (length (Fields trailing) =? 0)%nat || negb (block_headers block =? 0)%nat then Err [ErrPublicKey]
        else
          let parsed :=
            if block_type block ≟ "PUBLIC KEY" then (match ParsePKIXPublicKey (block_bytes block) with Some key => key | None => None end)
            else if block_type block ≟ "RSA PUBLIC KEY" then ParsePKCS1PublicKey (block_bytes block)
            else None in
          match parsed with
          | Some key => if acceptable_key key then Ok key else Err [ErrPublicKey]
          | None => Err [ErrPublicKey]
          end
    end.

Definition probeActorDocument (body : bytes) (actorURL : string) : result resolver_error actor_probe :=
  match validateJSONDocument body with
  | None => Err [ErrActorDocument]
  | Some j =>
      match decode_document j with
      | None => Err [ErrActorDocument]
      | Some document =>
          if negb (doc_ID document ≟ actorURL) || negb (validRelayActorType (doc_Type document)) then Err [ErrActorDocument]
          else if doc_Inbox document ≟ "" then Ok (ActorProbe (doc_ID document) "")
          else if negb (canonical_actor (doc_Inbox document)) then Err [ErrActorDocument]
          else
            match parse_url (b (doc_Inbox document)) with
            | Some (parsed, _) =>
                if validateActorFetchURL parsed then Ok (ActorProbe (doc_ID document) (doc_Inbox document)) else Err [ErrNetworkTarget]
            | None => Err [ErrNetworkTarget]
            end
      end
  end.

Definition resolveActorDocument (body : bytes) (actorURL keyID : string) : result resolver_error resolved_key :=
  match validateJSONDocument body with
  | None => Err [ErrActorDocument]
  | Some j =>
      match decode_document j with
      | None => Err [ErrActorDocument]
      | Some document =>
          if negb (doc_ID document ≟ actorURL) || negb (validRelayActorType (doc_Type document)) then Err [ErrActorDocument]
          else
            match decodeActorPublicKeys (doc_PublicKey document) with
            | None => Err [ErrActorDocument]
            | Some keys =>
                match select_key keyID keys None with
                | Some (Some selected) =>
                    if negb (apk_Owner selected ≟ actorURL) then Err [ErrActorDocument]
                    else if negb (canonical_actor (apk_Owner selected)) then Err [ErrActorDocument]
                    else
                      match parseRSAPublicKey (apk_PEM selected) with
                      | Err e => Err e
                      | Ok publicKey => Ok (ResolvedKey (apk_ID selected) (apk_Owner selected) (doc_ID document) (Some publicKey))
                      end
                | _ => Err [ErrActorDocument]
                end
            end
      end
  end.
End Documents.

(** ** Fetching *)

(** What [client.Do] fails with, and what reads of a response body deliver. *)
Record client_error := ClientError { client_failure : failure; client_canceled : bool }.
Record fetched := Fetched { fetched_StatusCode : Z; fetched_ContentType : list string; fetched_ContentLength : Z; fetched_Body : body_reader }.
(** The HTTP client, under whose transport and redirect policy [Network] is, and the
    context of one call. *)
Class ClientWorld (W : Type) := {
  client_Do : string → string → list (string * string) → W → result client_error (option fetched) * W;
  ctx_Err : W → option bool }.
(** [io.ReadAll(io.LimitReader(body, limit))] *)
Definition read_limited (limit : Z) (r : body_reader) : option bytes :=
  if limit <=? Z.of_nat (length (content r)) then Some (take (Z.to_nat limit) (content r)) else if read_fails r then None else Some (content r).

(** [redactedActorFetchError] *)
Definition redactedActorFetchError (e : client_error) : resolver_error :=
  let f := client_failure e in
  ErrActorFetch :: (if is_network_target f then [ErrNetworkTarget] else []) ++ (if is_redirect_rejected f then [ErrRedirectRejected] else []) ++
  (if client_canceled e then [Canceled] else []) ++ (if is_deadline f then [DeadlineExceeded] else []).

Section Resolver.
Context `{RelayIdentity} `{ActorFormats} {W : Type} `{ClientWorld W}.
Variable userAgent : string.

Definition fetchActorBodyDetailed (actorURL : string) (w : W) : (result resolver_error bytes * diagnostic) * W :=
  match ctx_Err w with
  | Some deadline => ((Err [ErrActorFetch; context_sentinel deadline], no_diagnostic), w)
  | None =>
      match Parse (b actorURL) with
      | None => ((Err [ErrActorFetch], no_diagnostic), w)
      | Some _ =>
          let '(answer, w) := client_Do "GET" actorURL [("Accept", activityStreamsAccept); ("User-Agent", userAgent)] w in
          match answer with
          | Err e =>
              match ctx_Err w with
              | Some deadline => ((Err [ErrActorFetch; context_sentinel deadline], no_diagnostic), w)
              | None => ((Err (redactedActorFetchError e), ClassifyNetworkFailure (Some (client_failure e))), w)
              end
          | Ok None => ((Err [ErrActorFetch], Diagnostic "actor" "invalid_response" 0), w)
          | Ok (Some response) =>
              if negb (fetched_StatusCode response =? 200) then ((Err [ErrActorFetch], HTTPProbeDiagnostic "actor" (fetched_StatusCode response)), w)
              else if negb (validActivityStreamsContentType (fetched_ContentType response)) then ((Err [ErrActorFetch], Diagnostic "actor" "content_type" 0), w)
              else if maximumActorBodyBytes <? fetched_ContentLength response then ((Err [ErrActorFetch], Diagnostic "actor" "invalid_document" 0), w)
              else
                match read_limited (maximumActorBodyBytes + 1) (fetched_Body response) with
                | None => ((Err [ErrActorFetch], Diagnostic "actor" "invalid_document" 0), w)
                | Some body =>
                    if (length body =? 0)%nat || (maximumActorBodyBytes <? Z.of_nat (length body))
                    then ((Err [ErrActorFetch], Diagnostic "actor" "invalid_document" 0), w)
                    else ((Ok body, no_diagnostic), w)
                end
          end
      end
  end.

(** [ResolveRFC9421Key] *)
Definition ResolveRFC9421Key (keyID : string) (w : W) : result resolver_error resolved_key * W :=
  match actorURLFromKeyID keyID with
  | Err e => (Err e, w)
  | Ok actor =>
      let '((body, _), w) := fetchActorBodyDetailed actor w in
      match body with Err e => (Err e, w) | Ok body => (resolveActorDocument body actor keyID, w) end
  end.

(** The validation of an URL to probe: the diagnostic and the error of a refusal *)
Definition probe_target (url : string) (refused : diagnostic) : option (diagnostic * resolver_error) :=
  if negb (canonical_actor url) then Some (refused, [ErrActorDocument])
  else
    match parse_url (b url) with
    | Some (parsed, _) => if validateActorFetchURL parsed then None else Some (Diagnostic "policy" "prohibited_target" 0, [ErrNetworkTarget])
    | None => Some (Diagnostic "policy" "prohibited_target" 0, [ErrNetworkTarget])
    end.

(** [ProbeActorDetailed] *)
Definition ResolverProbeActor (actorURL : string) (w : W) : (result resolver_error actor_probe * diagnostic) * W :=
  match probe_target actorURL (Diagnostic "actor" "invalid_document" 0) with
  | Some (d, e) => ((Err e, d), w)
  | None =>
      let '((body, d), w) := fetchActorBodyDetailed actorURL w in
      match body with
      | Err e => ((Err e, d), w)
      | Ok body =>
          match probeActorDocument body actorURL with
          | Err e => ((Err e, Diagnostic "actor" "invalid_document" 0), w)
          | Ok found => ((Ok found, no_diagnostic), w)
          end
      end
  end.

(** [ProbeInboxDetailed] *)
Definition ResolverProbeInbox (inboxURL : string) (w : W) : (result resolver_error inbox_probe * diagnostic) * W :=
  match probe_target inboxURL (Diagnostic "inbox" "invalid_response" 0) with
  | Some (d, e) => ((Err e, d), w)
  | None =>
      match ctx_Err w with
      | Some deadline => ((Err [ErrActorFetch; context_sentinel deadline], no_diagnostic), w)
      | None =>
          let '(answer, w) := client_Do "OPTIONS" inboxURL [("User-Agent", userAgent)] w in
          match answer with
          | Err e =>
              match ctx_Err w with
              | Some deadline => ((Err [ErrActorFetch; context_sentinel deadline], no_diagnostic), w)
              | None => ((Ok InboxProbeUnreachable, ClassifyNetworkFailure (Some (client_failure e))), w)
              end
          | Ok None => ((Ok InboxProbeUnreachable, Diagnostic "inbox" "invalid_response" 0), w)
          | Ok (Some response) =>
              let status := fetched_StatusCode response in
              let d := HTTPProbeDiagnostic "inbox" status in
              if (200 <=? status) && (status <? 400) then ((Ok InboxProbeResponsive, d), w)
              else if (status =? 405) || (status =? 501) then ((Ok InboxProbeMethodRejected, d), w)
              else ((Ok InboxProbeUnreachable, d), w)
          end
      end
  end.
End Resolver.
