(* ===== verification/ResolverFacts.v ===== *)
(** * ResolverFacts: which keys and actors the resolver accepts

    Key identifiers, the resolution of a signing key against the document of its actor,
    and the resolver as the prober of the reachability run. *)
From S2P Require Import Prelude GoNet AddrText Text Json JsonFacts Identity Canonical Vocabulary Store Repository Discovery Reachability Session Replay Signature Requests Admission ProfileNormal ReachabilityFacts Network Resolver.
From Stdlib Require Import Ascii.
Local Open Scope string_scope.
Local Open Scope Z_scope.
Local Open Scope go_scope.
Local Open Scope list_scope.
#[local] Set Warnings "-clear-no-such-hyp".

(** ** Key identifiers *)

Lemma str_len s : len (str s) = Z.of_nat (length s).
Proof. unfold len. f_equal. induction s as [|c s IH]; [done|]. cbn. by rewrite <- IH. Qed.
Lemma len_b s : Z.of_nat (length (b s)) = len s.
Proof. by rewrite <- (str_b s), str_len, b_str. Qed.
Lemma b_app x y : b (x +:+ y) = b x ++ b y.
Proof. by rewrite <- (str_b x), <- (str_b y), <- str_app, !b_str. Qed.

(** What follows the first ['#'] is no part of the URL. *)
Lemma Parse_before x f : free_of "#" x → Parse (x ++ "#"%char :: f) = Parse x.
Proof. intros Hx. unfold Parse. by rewrite cut_at, cut_free. Qed.

Lemma key_fragment_facts c : key_fragment_char c = true →
  (c ≡c "%") = false ∧ escape_fragment_char c = false ∧ ascii_space c = false ∧ (byte c <? 128) = true.
Proof. revert c. each_byte. Qed.
Lemma unescape_plain s : free_of "%" s → unescape s encodePath = Some s.
Proof.
  induction s as [|c s IH]; intros Hs; [done|]. cbn [unescape]. rewrite (Hs c) by (by left). cbn iota. rewrite IH; [done|]. intros d Hd. apply Hs. by right.
Qed.
Lemma set_fragment_valid f : validKeyFragment f = true → set_fragment f = Some (f, []).
Proof.
  intros Hf%all_in_forallb. unfold set_fragment. rewrite unescape_plain by (intros c Hc; by apply key_fragment_facts, Hf). cbn [mbind option_bind].
  assert (escape_fragment f = f) as ->; [|by rewrite (proj2 (bytes_eqb_eq f f) eq_refl)].
  unfold escape_fragment. induction f as [|c f IH]; [done|]. apply all_in_inv in Hf as [Hc Hf]. cbn [flat_map]. rewrite IH by done.
  by destruct (key_fragment_facts c Hc) as (_&->&_).
Qed.

(** The URL before the fragment parses to what it is with the fragment cleared. *)
Lemma parse_url_before x f : free_of "#" x → parse_url (x ++ "#"%char :: f) =
  '(parsed, _) ← parse_url x; '(fragment, rawFragment) ← (match f with [] => Some ([], []) | _ => set_fragment f end);
  Some (RequestURL (url_target parsed) (url_user parsed) fragment, rawFragment).
Proof.
  intros Hx. unfold parse_url. rewrite (cut_at x f "#"), (cut_free x "#"), Parse_before by done. destruct (Parse x); cbn [mbind option_bind]; [|done].
  destruct f; [done|]. by destruct (set_fragment _) as [[??]|].
Qed.

Lemma escape_host_plain s : all_in host_char s → escape_host s = s.
Proof.
  induction s as [|c s IH]; intros Hs; [done|]. apply all_in_inv in Hs as [Hc Hs]. unfold escape_host in *. cbn [flat_map].
  destruct (host_char_facts c Hc) as (_&_&_&_&_&_&_&He&Hb). rewrite Hb in He. cbn [andb] in He. rewrite He. cbn [app]. by rewrite IH.
Qed.
(** A canonical URL prints as it is. *)
Lemma url_String_canonical authority path : canonical_authority authority → path_ok path →
  ∃ u, parse_url (b "https://" ++ authority ++ path) = Some (RequestURL u [] [], []) ∧
    url_String (RequestURL u [] []) = b "https://" ++ authority ++ path.
Proof.
  intros Ha Hp. destruct (Parse_canonical authority path Ha Hp) as (u&Hu&Hs&Ho&Huser&Hh&Hpath&Hf&Hq). exists u.
  destruct (canonical_authority_chars authority Ha) as [Hchars Hne]. split.
  - unfold parse_url. rewrite cut_free, Hu. { cbn [mbind option_bind]. by rewrite Huser. }
    apply url_free; [by apply url_chars|]. intros d Hd. by apply url_char_facts.
  - unfold url_String. cbn [url_target url_user url_fragment]. rewrite Hs, Ho, Huser, Hh, Hpath, Hf, Hq. cbn [bytes_eqb b negb orb].
    assert (bytes_eqb authority [] = false) as -> by (by destruct authority). cbn [negb orb].
    rewrite escape_host_plain by done. destruct Hp as [->|(_&_&(p&->)&_)]; cbn; by rewrite ?app_nil_r.
Qed.

(** The URL may be fetched: it is canonical and its host is no prohibited address. *)
Definition fetchable `{RelayIdentity} (url : string) : bool :=
  match parse_url (b url) with Some (parsed, _) => validateActorFetchURL parsed | None => false end.
(** The fragment of a key identifier. *)
Definition key_fragment (f : bytes) : Prop := f ≠ [] ∧ Z.of_nat (length f) ≤ maximumKeyFragmentBytes ∧ validKeyFragment f = true.

Lemma key_id_parts `{CanonicalURLs} keyID a : actorURLFromKeyID keyID = Ok a →
  ∃ f, keyID = a +:+ "#" +:+ str f ∧ key_fragment f ∧ canonical_actor a = true ∧ fetchable a = true ∧ len keyID ≤ maximumKeyIDBytes.
Proof.
  unfold actorURLFromKeyID. destruct (keyID ≟ ""); [done|]. cbn [orb]. destruct (Z.ltb_spec maximumKeyIDBytes (len keyID)) as [|Hlen]; [done|]. cbn [orb].
  destruct (_ || _); [done|]. destruct (parse_url (b keyID)) as [[parsed rawFragment]|] eqn:Hp; [|done].
  destruct (bytes_eqb (url_fragment parsed) []) eqn:Hne; [done|]. cbn [orb]. destruct (negb (bytes_eqb rawFragment [])); [done|]. cbn [orb].
  destruct (Z.ltb_spec maximumKeyFragmentBytes (Z.of_nat (length (url_fragment parsed)))) as [|Hf]; [done|]. cbn [orb].
  destruct (validKeyFragment (url_fragment parsed)) eqn:Hv; [|done]. cbn [negb]. set (actor := str (url_String _)).
  destruct (canonical_actor actor) eqn:Hc; [|done]. cbn [negb orb].
  destruct (String.eqb_spec keyID (actor +:+ "#" +:+ str (url_fragment parsed))) as [He|]; [|done]. cbn [negb].
  destruct (validateActorFetchURL _) eqn:Hfetch; [|done]. intros [= <-]. exists (url_fragment parsed).
  assert (Hk : key_fragment (url_fragment parsed)) by (split_and!; [intros E; by rewrite E in Hne|done|done]).
  split_and!; [done|done|done| |done]. clearbody actor.
  assert (Hfree : free_of "#" (b actor)).
  { unfold canonical_actor in Hc. destruct (norm_actor actor) as [a'|] eqn:Hn; [|done]. apply String.eqb_eq in Hc as ->.
    apply url_free; [by eapply norm_actor_chars|]. intros d Hd. by apply url_char_facts. }
  assert (Hb : b keyID = b actor ++ "#"%char :: url_fragment parsed) by (by rewrite He, !b_app, b_str).
  rewrite Hb, parse_url_before in Hp by done. unfold fetchable. destruct (parse_url (b actor)) as [[u raw]|] eqn:Hu; cbn [mbind option_bind] in Hp; [|done].
  assert (Hu0 : url_fragment u = []).
  { unfold parse_url in Hu. rewrite cut_free in Hu by done. destruct (Parse (b actor)); [|done]. cbn [mbind option_bind] in Hu. by injection Hu as <- _. }
  destruct (match url_fragment parsed with [] => _ | _ => _ end) as [[f0 r0]|]; cbn [mbind option_bind] in Hp; [|done]. injection Hp as <- _.
  cbn [url_target url_user url_fragment] in Hfetch. by rewrite <- Hu0 in Hfetch; destruct u.
Qed.

(** The converse, for the URLs of [Identity]. *)
Lemma key_id_accepted keyID a f : keyID = a +:+ "#" +:+ str f → key_fragment f → canonical_actor a = true → fetchable a = true →
  len keyID ≤ maximumKeyIDBytes → actorURLFromKeyID keyID = Ok a.
Proof.
  intros Hk (Hne&Hlf&Hv) Hc Hf Hlen.
  unfold canonical_actor in Hc. destruct (norm_actor a) as [a'|] eqn:Hn; [|done]. apply String.eqb_eq in Hc as ->.
  destruct (actor_url a a Hn) as (authority&path&Ha&Hp&Hurl). pose proof (url_chars authority path Ha Hp) as Hchars.
  destruct (url_String_canonical authority path Ha Hp) as (u&Hu&Hs). rewrite <- (b_str (b "https://" ++ authority ++ path)), <- Hurl in Hu, Hs, Hchars.
  assert (Hfree : free_of "#" (b a)) by (apply url_free; [done|]; intros d Hd; by apply url_char_facts).
  assert (Hb : b keyID = b a ++ "#"%char :: f) by (by rewrite Hk, !b_app, b_str).
  assert (Hplain : ∀ c, In c (b keyID) → ascii_space c = false ∧ (byte c <? 128) = true).
  { rewrite Hb. intros c [Hin|[<-|Hin]]%in_app_or; [by destruct (url_char_facts c (Hchars c Hin)) as (_&_&_&_&?&?)|done|].
    apply all_in_forallb in Hv. by destruct (key_fragment_facts c (Hv c Hin)) as (_&_&?&?). }
  unfold actorURLFromKeyID. rewrite (proj2 (Z.ltb_ge _ _) Hlen), plain_not_surrounded, ascii_utf8 by (done || intros c Hin; apply Z.ltb_lt; by apply Hplain).
  assert ((keyID ≟ "") = false) as -> by (apply String.eqb_neq; intros ->; by destruct (b a)). cbn [orb negb].
  rewrite Hb, parse_url_before, Hu by done. cbn [mbind option_bind].
  assert (match f with [] => Some ([], []) | _ => set_fragment f end = Some (f, [])) as -> by (destruct f; [done|by apply set_fragment_valid]).
  cbn [mbind option_bind url_target url_user url_fragment]. assert (bytes_eqb f [] = false) as -> by (by destruct f). cbn [orb negb bytes_eqb].
  rewrite (proj2 (Z.ltb_ge _ _) Hlf), Hv. cbn [orb negb]. rewrite Hs, str_b. unfold canonical_actor. rewrite Hn, (proj2 (String.eqb_eq a a) eq_refl). cbn [negb orb].
  rewrite <- Hk, (proj2 (String.eqb_eq keyID keyID) eq_refl). cbn [negb]. unfold fetchable in Hf. rewrite Hu in Hf. by rewrite Hf.
Qed.

(** A key identifier is accepted exactly when it is a canonical actor URL that may
    be fetched, ["#"] and a fragment of 1 to 128 unreserved characters, within 2048
    bytes; the actor URL is the part before the ["#"]. *)
Theorem actorURLFromKeyID_exact keyID a : actorURLFromKeyID keyID = Ok a ↔
  ∃ f, keyID = a +:+ "#" +:+ str f ∧ key_fragment f ∧ canonical_actor a = true ∧ fetchable a = true ∧ len keyID ≤ maximumKeyIDBytes.
Proof.
  split; [apply key_id_parts|]. intros (f&?&?&?&?&?). by apply (key_id_accepted keyID a f).
Qed.

(** ** Resolved keys *)

Lemma select_key_started keyID keys : ∀ k, select_key keyID keys (Some k) =
  if forallb (λ key, negb (apk_ID key ≟ keyID)) keys then Some (Some k) else None.
Proof. induction keys as [|key keys IH]; intros k; [done|]. cbn. by destruct (apk_ID key ≟ keyID); cbn. Qed.
(** The loop selects the one key of the identifier. *)
Lemma select_key_unique keyID keys k : select_key keyID keys None = Some (Some k) ↔ List.filter (λ key, apk_ID key ≟ keyID) keys = [k].
Proof.
  induction keys as [|key keys IH]; [done|]. cbn. destruct (apk_ID key ≟ keyID) eqn:E; cbn; [|done]. rewrite select_key_started.
  assert (Hf : ∀ l : list actorPublicKey, forallb (λ key, negb (apk_ID key ≟ keyID)) l = true ↔ List.filter (λ key, apk_ID key ≟ keyID) l = []).
  { induction l as [|x l IHl]; [done|]. cbn. by destruct (apk_ID x ≟ keyID); cbn. }
  destruct (forallb _ keys) eqn:Hall.
  - apply Hf in Hall. rewrite Hall. split; congruence.
  - split; [done|]. intros [= -> Hk]. apply Hf in Hk. congruence.
Qed.

(** The modulus is odd and of 2048 to 8192 bits, the exponent odd and at least 3. *)
Definition sound_key (key : public_key) : Prop :=
  ∃ n, modulus key = Some n ∧ 2 ^ 2047 ≤ n < 2 ^ 8192 ∧ Z.odd n = true ∧ 3 ≤ exponent key ∧ Z.odd (exponent key) = true.
Lemma bit_len_bounds n k : 0 < n → 1 ≤ k → (k ≤ bit_len n ↔ 2 ^ (k - 1) ≤ n).
Proof.
  intros Hn Hk. unfold bit_len. destruct (Z.eqb_spec n 0); [lia|]. rewrite Z.abs_eq by lia. rewrite Z.log2_le_pow2 by lia. lia.
Qed.
Lemma acceptable_key_sound key : acceptable_key key = true → sound_key key.
Proof.
  unfold acceptable_key, acceptable_modulus, sound_key. destruct (modulus key) as [n|]; [|done].
  rewrite !andb_true_iff, !Z.leb_le, Z.ltb_lt, negb_true_iff, Z.eqb_neq. intros [[[[[Hn Hodd] Hmin] Hmax] He] Hrem]. exists n.
  rewrite bit_len_bounds in Hmin by (done || lia). change (minimumRSAKeyBits - 1) with 2047 in Hmin.
  assert (Hlt : ¬ 8193 ≤ bit_len n) by (unfold maximumRSAKeyBits in Hmax; lia). rewrite bit_len_bounds in Hlt by lia. change (8193 - 1) with 8192 in Hlt.
  split_and!; try done; [lia|]. destruct (Z.odd (exponent key)) eqn:E; [done|]. exfalso. apply Hrem. rewrite Z.rem_mod_nonneg by lia. by rewrite Zmod_odd, E.
Qed.

Section Resolved.
Context `{CanonicalURLs} `{ActorFormats}.

Lemma parseRSAPublicKey_sound value key : parseRSAPublicKey value = Ok key → sound_key key.
Proof.
  unfold parseRSAPublicKey. destruct (_ || _); [done|]. destruct (pem_Decode _) as [[block|] trailing]; [|done].
  destruct (_ || _); [done|]. match goal with |- context [match ?x with Some _ => _ | None => _ end] => destruct x as [k|] end; [|done].
  destruct (acceptable_key k) eqn:Ha; [|done]. intros [= <-]. by apply acceptable_key_sound.
Qed.

(** What a document says about a key identifier of its actor *)
Definition document_key (body : bytes) (actor keyID : string) (k : actorPublicKey) : Prop :=
  ∃ j document keys, validateJSONDocument body = Some j ∧ decode_document j = Some document ∧ doc_ID document = actor ∧
    validRelayActorType (doc_Type document) = true ∧ decodeActorPublicKeys (doc_PublicKey document) = Some keys ∧
    List.filter (λ key, apk_ID key ≟ keyID) keys = [k] ∧ apk_Owner k = actor.

Lemma resolveActorDocument_key body actor keyID r : resolveActorDocument body actor keyID = Ok r ↔
  canonical_actor actor = true ∧ ∃ k key, document_key body actor keyID k ∧ parseRSAPublicKey (apk_PEM k) = Ok key ∧ r = ResolvedKey keyID actor actor (Some key).
Proof.
  unfold resolveActorDocument, document_key. split.
  - destruct (validateJSONDocument body) as [j|] eqn:Hj; [|done]. destruct (decode_document j) as [document|] eqn:Hd; [|done].
    destruct (String.eqb_spec (doc_ID document) actor) as [Hid|]; [|done]. destruct (validRelayActorType (doc_Type document)) eqn:Ht; [|done]. cbn [negb orb].
    destruct (decodeActorPublicKeys (doc_PublicKey document)) as [keys|] eqn:Hkeys; [|done].
    destruct (select_key keyID keys None) as [[k|]|] eqn:Hs; [|done..]. apply select_key_unique in Hs.
    destruct (String.eqb_spec (apk_Owner k) actor) as [Ho|]; [|done]. cbn [negb]. rewrite Ho. destruct (canonical_actor actor) eqn:Hc; [|done]. cbn [negb].
    destruct (parseRSAPublicKey (apk_PEM k)) as [key|] eqn:Hkey; [|done]. intros [= <-]. split; [done|].
    assert (Hid' : apk_ID k = keyID).
    { apply String.eqb_eq. pose proof (filter_In (λ key, apk_ID key ≟ keyID) k keys) as Hin. rewrite Hs in Hin. apply Hin. by left. }
    exists k, key. split; [by exists j, document, keys|]. split; [done|]. by rewrite Hid, Hid'.
  - intros (Hc&k&key&(j&document&keys&->&->&Hid&Ht&->&Hs&Ho)&Hkey&->). rewrite Hid, (proj2 (String.eqb_eq actor actor) eq_refl), Ht. cbn [negb orb].
    pose proof Hs as Hs'. apply select_key_unique in Hs' as ->. rewrite Ho, (proj2 (String.eqb_eq actor actor) eq_refl), Hc, Hkey. cbn [negb].
    assert (Hid' : apk_ID k = keyID).
    { apply String.eqb_eq. pose proof (filter_In (λ key, apk_ID key ≟ keyID) k keys) as Hin. rewrite Hs in Hin. apply Hin. by left. }
    by rewrite Hid'.
Qed.
End Resolved.

Section Fetch.
Context `{ActorFormats} {W : Type} `{ClientWorld W}.
Variable userAgent : string.

(** The response delivers [body]: status 200, an ActivityStreams media type, and the
    whole body, of 1 to 262144 bytes. *)
Definition serves (response : fetched) (body : bytes) : Prop :=
  fetched_StatusCode response = 200 ∧ validActivityStreamsContentType (fetched_ContentType response) = true ∧
  fetched_ContentLength response ≤ maximumActorBodyBytes ∧ content (fetched_Body response) = body ∧ read_fails (fetched_Body response) = false ∧
  body ≠ [] ∧ Z.of_nat (length body) ≤ maximumActorBodyBytes.
Definition actor_headers : list (string * string) := [("Accept", activityStreamsAccept); ("User-Agent", userAgent)].

Lemma read_limited_exact r body : Z.of_nat (length body) ≤ maximumActorBodyBytes →
  read_limited (maximumActorBodyBytes + 1) r = Some body ↔ content r = body ∧ read_fails r = false.
Proof.
  intros Hl. unfold read_limited. destruct (Z.leb_spec (maximumActorBodyBytes + 1) (Z.of_nat (length (content r)))) as [Hge|Hlt].
  - split; [|intros [<- _]; lia]. intros [= <-]. rewrite length_take in Hl. unfold maximumActorBodyBytes in *. lia.
  - destruct (read_fails r); split; naive_solver.
Qed.

Lemma fetch_exact actor w body d w' : fetchActorBodyDetailed userAgent actor w = ((Ok body, d), w') ↔
  ctx_Err w = None ∧ Parse (b actor) ≠ None ∧ d = no_diagnostic ∧
  ∃ response, client_Do "GET" actor actor_headers w = (Ok (Some response), w') ∧ serves response body.
Proof.
  unfold fetchActorBodyDetailed, serves. fold actor_headers. destruct (ctx_Err w); [naive_solver|]. destruct (Parse (b actor)); [|naive_solver].
  destruct (client_Do "GET" actor actor_headers w) as [[[response|]|e] w1]; [|naive_solver|destruct (ctx_Err w1); naive_solver].
  split.
  - destruct (Z.eqb_spec (fetched_StatusCode response) 200); [|done]. destruct (validActivityStreamsContentType _) eqn:Hct; [|done]. cbn [negb].
    destruct (Z.ltb_spec maximumActorBodyBytes (fetched_ContentLength response)); [done|].
    destruct (read_limited _ _) as [x|] eqn:Hr; [|done]. destruct (Nat.eqb_spec (length x) 0) as [|Hne]; [done|]. cbn [orb].
    destruct (Z.ltb_spec maximumActorBodyBytes (Z.of_nat (length x))); [done|]. intros [= <- <- <-]. apply read_limited_exact in Hr as [Hc Hf]; [|done].
    split_and!; try done. exists response. split_and!; try done. intros ->. done.
  - intros (_&_&->&response'&[= <- <-]&->&->&Hl&Hc&Hf&Hne&Hb). cbn [negb]. rewrite (proj2 (Z.eqb_eq 200 200) eq_refl). cbn [negb].
    rewrite (proj2 (Z.ltb_ge _ _) Hl), (proj2 (read_limited_exact (fetched_Body response) body Hb)), (proj2 (Z.ltb_ge _ _) Hb) by done.
    destruct (Nat.eqb_spec (length body) 0) as [E|]; [by apply length_zero_iff_nil in E|done].
Qed.
End Fetch.

(** C29: A signing key is resolved exactly when the identifier names a canonical actor
    that may be fetched, one GET of that actor is answered by a complete ActivityStreams
    document within 256 KiB that calls itself by the actor's URL and has a relay actor
    type, exactly one of its at most eight keys has the identifier, that key is owned by
    the actor, and its PEM text holds a sound RSA key; the key returned is bound to the
    identifier and the actor. *)
Theorem key_resolution_exact `{ActorFormats} {W} `{ClientWorld W} userAgent keyID (w : W) k w' :
  ResolveRFC9421Key userAgent keyID w = (Ok k, w') ↔
  ∃ actor f response body key_entry key,
    keyID = actor +:+ "#" +:+ str f ∧ key_fragment f ∧ canonical_actor actor = true ∧ fetchable actor = true ∧ len keyID ≤ maximumKeyIDBytes ∧
    ctx_Err w = None ∧ client_Do "GET" actor (actor_headers userAgent) w = (Ok (Some response), w') ∧ serves response body ∧
    document_key body actor keyID key_entry ∧ parseRSAPublicKey (apk_PEM key_entry) = Ok key ∧ sound_key key ∧
    k = ResolvedKey keyID actor actor (Some key).
Proof.
  unfold ResolveRFC9421Key. split.
  - destruct (actorURLFromKeyID keyID) as [actor|] eqn:Hk; [|done]. apply key_id_parts in Hk as (f&Hk&Hf&Hc&Hfetch&Hlen).
    destruct (fetchActorBodyDetailed userAgent actor w) as [[[body|] d] w1] eqn:Hb; [|done]. apply fetch_exact in Hb as (Hctx&_&_&response&Hdo&Hs).
    intros [= Hr <-]. apply resolveActorDocument_key in Hr as (_&entry&key&Hd&Hkey&->). exists actor, f, response, body, entry, key.
    split_and!; try done. by eapply parseRSAPublicKey_sound.
  - intros (actor&f&response&body&entry&key&Hk&Hf&Hc&Hfetch&Hlen&Hctx&Hdo&Hs&Hd&Hkey&_&->).
    rewrite (key_id_accepted keyID actor f) by done.
    rewrite (proj2 (fetch_exact userAgent actor w body no_diagnostic w')).
    + f_equal. apply resolveActorDocument_key. split; [done|]. by exists entry, key.
    + split_and!; [done| |done|by exists response]. unfold fetchable, parse_url in Hfetch. destruct (cut (b actor) "#") as [[before0 f0] found0]. by destruct (Parse (b actor)).
Qed.

(** ** The resolver as the prober of the maintenance run *)

Lemma HTTPProbeDiagnostic_valid stage status : stage = "actor" ∨ stage = "inbox" →
  ProbeDiagnostic_Valid (HTTPProbeDiagnostic stage status) = true ∧ diagnostic_eqb (HTTPProbeDiagnostic stage status) no_diagnostic = false.
Proof.
  unfold HTTPProbeDiagnostic. intros Hs. destruct ((100 <=? status) && (status <=? 599)) eqn:E; destruct Hs as [->| ->]; (split; [|done]); cbn; by rewrite ?E.
Qed.
(** A failure whose own diagnosis, if it carries one, says something. *)
Definition diagnosed (f : failure) : Prop :=
  match as_safe_failure f with Some d => ProbeDiagnostic_Valid d = true ∧ diagnostic_eqb d no_diagnostic = false | None => True end.
Lemma ClassifyNetworkFailure_valid f : diagnosed f →
  ProbeDiagnostic_Valid (ClassifyNetworkFailure (Some f)) = true ∧ diagnostic_eqb (ClassifyNetworkFailure (Some f)) no_diagnostic = false.
Proof.
  unfold diagnosed, ClassifyNetworkFailure. intros Hd. destruct (is_redirect_rejected f); [done|]. destruct (as_safe_failure f); [done|].
  repeat case_match; done.
Qed.

(** The guarded dialer diagnoses every failure but one it was given: the contract of a
    transport under the client. *)
Lemma approvedAddresses_diagnosed {W} `{DialWorld W} host (w w' : W) e : (∀ h w0 e0 w1, lookup_ip h w0 = (Err e0, w1) → diagnosed e0) →
  approvedAddresses host w = (Err e, w') → diagnosed e.
Proof.
  intros Hl. unfold approvedAddresses. destruct (parse_net_addr host) as [x|].
  - destruct (unmap_addr _) as [y|]; [destruct (isPublicNetworkAddress _)|]; by intros [= <- <-].
  - destruct (lookup_ip host w) as [[answer|e0] w1] eqn:El.
    + destruct (_ =? 0); [by intros [= <- <-]|]. destruct (_ <? _); [by intros [= <- <-]|]. destruct (approve answer []) as [[|]|]; by intros [= <- <-].
    + destruct (dial_cancelled w1); intros [= <- <-]; [done|]. apply ClassifyNetworkFailure_valid. by eapply Hl.
Qed.
Lemma dial_loop_diagnosed {W} `{DialWorld W} network port addresses : (∀ n t w0 e0 w1, dial_target n t w0 = (Some e0, w1) → diagnosed e0) →
  ∀ last (w w' : W) e, (∀ f, last = Some f → diagnosed f) → dial_loop network port addresses last w = (Err e, w') → diagnosed e.
Proof.
  intros Ht. induction addresses as [|a addresses IH]; intros lst w w' e Hlast; cbn [dial_loop].
  - intros [= <- _]. destruct lst as [f|]; [|done]. apply ClassifyNetworkFailure_valid. by apply Hlast.
  - destruct (_ && _); [by apply IH|]. destruct (_ && _); [by apply IH|]. destruct (dial_target network _ w) as [[f|] w1] eqn:Ed; [|done].
    destruct (dial_cancelled w1); [by intros [= <- _]|]. apply IH. intros f' [= <-]. by eapply Ht.
Qed.
Lemma DialContext_diagnosed {W} `{DialWorld W} network address (w w' : W) e : (∀ h w0 e0 w1, lookup_ip h w0 = (Err e0, w1) → diagnosed e0) →
  (∀ n t w0 e0 w1, dial_target n t w0 = (Some e0, w1) → diagnosed e0) → DialContext network address w = (Err e, w') → diagnosed e.
Proof.
  intros Hl Ht. unfold DialContext. destruct (SplitHostPort address) as [[host port]|]; [|by intros [= <- _]]. destruct (_ || _); [by intros [= <- _]|].
  destruct (approvedAddresses host w) as [[addresses|e0] w1] eqn:Ea.
  - by apply dial_loop_diagnosed.
  - intros [= <- _]. by eapply approvedAddresses_diagnosed.
Qed.

Section Prober.
Context `{CanonicalURLs} `{ActorFormats} {W : Type} `{ClientWorld W}.
Variable userAgent : string.

(** What [errors.Is] finds of an error of the resolver in the runner *)
Definition failure_of (e : resolver_error) : failure := {|
  is_redirect_rejected := bool_decide (ErrRedirectRejected ∈ e); as_safe_failure := None; as_dns := None; is_dns_no_address := false;
  is_dns_policy := false; as_certificate := false; as_record_header := false; is_deadline := bool_decide (DeadlineExceeded ∈ e);
  is_refused := false; as_op := None; is_network_target := bool_decide (ErrNetworkTarget ∈ e);
  is_configuration := bool_decide (ErrResolverConfiguration ∈ e) |}.
Definition runner_view {A} (answer : (result resolver_error A * diagnostic) * W) : result failure A * diagnostic :=
  (match answer.1.1 with Ok a => Ok a | Err e => Err (failure_of e) end, answer.1.2).
(** The resolver in the runner's interface, its actor request made in [w] and its
    inbox request in [w_inbox]. *)
Definition resolver_prober (w w_inbox : W) : prober := {|
  ProbeActor := λ a, (runner_view (ResolverProbeActor userAgent a w)).1; ProbeInbox := λ a, (runner_view (ResolverProbeInbox userAgent a w_inbox)).1;
  ProbeActorDetailed := Some (λ a, runner_view (ResolverProbeActor userAgent a w));
  ProbeInboxDetailed := Some (λ a, runner_view (ResolverProbeInbox userAgent a w_inbox)) |}.

(** The transport diagnoses its failures, and the context, once ended, stays ended:
    the runner sees the end that a probe saw. *)
Definition transport_diagnoses : Prop := ∀ m url h (w w' : W) e, client_Do m url h w = (Err e, w') → diagnosed (client_failure e).
Definition cancellation_seen (cancelled : bool) (w : W) : Prop :=
  cancelled = false → ctx_Err w = None ∧ ∀ m url h, ctx_Err (client_Do m url h w).2 = None.

Lemma probe_target_ok url refused : canonical_actor url = true → fetchable url = true → probe_target url refused = None.
Proof. unfold probe_target, fetchable. intros ->. destruct (parse_url (b url)) as [[parsed raw]|]; [|done]. by intros ->. Qed.

(** An actor probe finds the actor asked for with a canonical inbox that may be fetched,
    or fails with evidence, or saw the end of the context. *)
Lemma actor_probe_outcome cancelled a w : transport_diagnoses → cancellation_seen cancelled w →
  match (runner_view (ResolverProbeActor userAgent a w)) with
  | (Ok found, d) => d = no_diagnostic ∧ ActorID found = a ∧
      (ActorInbox found = "" ∨ canonical_actor (ActorInbox found) = true ∧ fetchable (ActorInbox found) = true)
  | (Err e, d) => is_configuration e = false ∧ (cancelled = true ∨ ProbeDiagnostic_Valid d = true ∧ diagnostic_eqb d no_diagnostic = false)
  end.
Proof.
  intros Ht Hc. unfold ResolverProbeActor, probe_target. destruct (canonical_actor a) eqn:Ha; [|cbn; by split; [|right]]. cbn [negb].
  assert (Hp : ∀ parsed raw, parse_url (b a) = Some (parsed, raw) → Parse (b a) ≠ None).
  { unfold parse_url. intros ??. destruct (cut (b a) "#") as [[before0 f0] found0]. by destruct (Parse (b a)). }
  destruct (parse_url (b a)) as [[parsed raw]|] eqn:Hurl; [|cbn; by split; [|right]]. specialize (Hp parsed raw eq_refl).
  destruct (validateActorFetchURL parsed); [|cbn; by split; [|right]].
  assert (Hdoc : ∀ body found, probeActorDocument body a = Ok found → ActorID found = a ∧
      (ActorInbox found = "" ∨ canonical_actor (ActorInbox found) = true ∧ fetchable (ActorInbox found) = true)).
  { intros body found. unfold probeActorDocument, fetchable. destruct (validateJSONDocument body) as [j|]; [|done]. destruct (decode_document j) as [document|]; [|done].
    destruct (String.eqb_spec (doc_ID document) a) as [Hid|]; [|done]. destruct (validRelayActorType _); [|done]. cbn [negb orb].
    destruct (doc_Inbox document ≟ ""); [intros [= <-]; by split; [|left]|]. destruct (canonical_actor (doc_Inbox document)) eqn:Hci; [|done]. cbn [negb].
    destruct (parse_url (b (doc_Inbox document))) as [[p r]|] eqn:Hpi; [|done]. destruct (validateActorFetchURL p) eqn:Hv; [|done]. intros [= <-].
    split; [done|]. right. cbn [ActorInbox]. by rewrite Hci, Hpi, Hv. }
  assert (Herr : ∀ e, is_configuration (failure_of (redactedActorFetchError e)) = false).
  { intros e. cbn. apply bool_decide_eq_false. unfold redactedActorFetchError. destruct (is_network_target _), (is_redirect_rejected _), (client_canceled _), (is_deadline _); set_solver. }
  unfold fetchActorBodyDetailed. destruct (ctx_Err w) as [deadline|] eqn:Hctx.
  { destruct cancelled; [|by destruct (Hc eq_refl); congruence]. destruct deadline; by split; [|left]. }
  destruct (Parse (b a)); [|done]. fold (actor_headers userAgent).
  destruct (client_Do "GET" a (actor_headers userAgent) w) as [[[response|]|e] w1] eqn:Hdo; [| |].
  - destruct (_ =? 200); cbn [negb]; [|split; [done|right; by apply HTTPProbeDiagnostic_valid; left]].
    destruct (validActivityStreamsContentType _); [|by split; [|right]]. cbn [negb]. destruct (_ <? _); [by split; [|right]|].
    destruct (read_limited _ _) as [body|]; [|by split; [|right]]. destruct (_ || _); [by split; [|right]|].
    destruct (probeActorDocument body a) as [found|e] eqn:Hd; [split; [done|]; by apply (Hdoc body)|].
    split; [|by right]. cbn. apply bool_decide_eq_false. clear -Hd. unfold probeActorDocument in Hd. repeat case_match; simplify_eq; set_solver.
  - by split; [|right].
  - destruct (ctx_Err w1) as [deadline|] eqn:Hctx1.
    + destruct cancelled; [destruct deadline; by split; [|left]|]. destruct (Hc eq_refl) as [_ Hc1]. specialize (Hc1 "GET" a (actor_headers userAgent)). rewrite Hdo in Hc1. cbn [snd] in Hc1. by rewrite Hctx1 in Hc1.
    + split; [apply Herr|]. right. apply ClassifyNetworkFailure_valid. by eapply Ht.
Qed.

(** An inbox probe of such a URL answers with evidence, or saw the end of the context. *)
Lemma inbox_probe_outcome cancelled url w : transport_diagnoses → cancellation_seen cancelled w → canonical_actor url = true → fetchable url = true →
  match (runner_view (ResolverProbeInbox userAgent url w)) with
  | (Ok answer, d) => answer ≠ InboxProbeOther ∧ ProbeDiagnostic_Valid d = true
  | (Err e, d) => cancelled = true
  end.
Proof.
  intros Ht Hc Hcan Hf. unfold ResolverProbeInbox. rewrite probe_target_ok by done. destruct (ctx_Err w) as [deadline|] eqn:Hctx.
  { destruct cancelled; [done|]. destruct (Hc eq_refl); congruence. }
  destruct (client_Do "OPTIONS" url _ w) as [[[response|]|e] w1] eqn:Hdo; [|done|].
  - pose proof (HTTPProbeDiagnostic_valid "inbox" (fetched_StatusCode response) (or_intror eq_refl)) as [Hv _].
    destruct (_ && _); [by split|]. destruct (_ || _); by split.
  - destruct (ctx_Err w1) as [deadline|] eqn:Hctx1.
    + destruct cancelled; [done|]. destruct (Hc eq_refl) as [_ Hc1]. specialize (Hc1 "OPTIONS" url [("User-Agent", userAgent)]). rewrite Hdo in Hc1. cbn [snd] in Hc1. by rewrite Hctx1 in Hc1.
    + split; [done|]. apply ClassifyNetworkFailure_valid. by eapply Ht.
Qed.

(** The resolver keeps the contract the reachability run has with its prober: over a
    transport that diagnoses its failures, the probe of one canonical actor never stops
    the run.  It yields an observation of that actor which the repository accepts, and
    only when the run itself is cancelled the context's error instead. *)
Theorem resolver_honours_run cancelled a w w_inbox :
  transport_diagnoses → cancellation_seen cancelled w → cancellation_seen cancelled w_inbox → canonical_actor a = true →
  match probeOne cancelled (resolver_prober w w_inbox) a with
  | Ok intent => reach_actor intent = a ∧ validateReachabilityObservationIntent intent = true
  | Err e => cancelled = true ∧ e = ErrContext
  end.
Proof.
  intros Ht Hc Hci Ha. pose proof (actor_probe_outcome cancelled a w Ht Hc) as Hactor.
  pose proof (probeOne_valid cancelled (resolver_prober w w_inbox) a) as Hvalid.
  destruct (probeOne cancelled (resolver_prober w w_inbox) a) as [intent|e] eqn:Hp.
  - apply Hvalid; [done| |done]. intros found. unfold probed. cbn [resolver_prober ProbeActorDetailed]. destruct (runner_view _) as [[x|x] d]; cbn [fst]; [|done].
    intros [= <-]. destruct Hactor as (_&_&[?|[? _]]); [by left|by right].
  - unfold probeOne, probed in Hp. cbn [resolver_prober ProbeActorDetailed ProbeInboxDetailed] in Hp.
    destruct (runner_view (ResolverProbeActor userAgent a w)) as [[found|err] d].
    + destruct Hactor as (->&Hid&Hin). rewrite Hid, (proj2 (String.eqb_eq a a) eq_refl) in Hp. cbn [negb orb] in Hp. rewrite (eq_refl : diagnostic_eqb no_diagnostic no_diagnostic = true) in Hp. cbn [negb] in Hp.
      destruct (String.eqb_spec (ActorInbox found) "") as [|Hne]; [done|]. destruct Hin as [|[Hcan Hf]]; [done|].
      pose proof (inbox_probe_outcome cancelled (ActorInbox found) w_inbox Ht Hci Hcan Hf) as Hinbox.
      destruct (runner_view (ResolverProbeInbox userAgent (ActorInbox found) w_inbox)) as [[answer|err] d].
      * destruct Hinbox as [Ho Hv]. rewrite Hv in Hp. cbn [negb] in Hp. by destruct answer.
      * rewrite Hinbox in *. by injection Hp as <-.
    + destruct Hactor as [Hcfg [->|[Hv Hz]]]; [by injection Hp as <-|]. destruct cancelled; [by injection Hp as <-|].
      rewrite Hcfg, Hv, Hz in Hp. done.
Qed.
End Prober.

(** * The resolver on one relay A relay whose actor document lists two keys, a client that answers with it, and decoders that read one key text. *)

Definition relay_actor_url : string := "https://relay.example/actor".
Definition relay_inbox_url : string := "https://relay.example/inbox".
Definition relay_key_id : string := relay_actor_url +:+ "#main-key".
Definition relay_pem : string := "-----BEGIN PUBLIC KEY-----".
Definition relay_public_key : public_key := PublicKey (Some (2 ^ 2047 + 1)) 65537.
Definition key_entry (id : string) : json :=
  JObject [(b "id", JString (b id)); (b "owner", JString (b relay_actor_url)); (b "publicKeyPem", JString (b relay_pem))].
Definition relay_document : bytes := json_print (JObject [
  (b "@context", JString (b activityStreamsProfile)); (b "id", JString (b relay_actor_url)); (b "type", JArray [JString (b "Person"); JString (b "Application")]);
  (b "inbox", JString (b relay_inbox_url)); (b "publicKey", JArray [key_entry (relay_actor_url +:+ "#old-key"); key_entry relay_key_id])]).
#[export] Instance sample_formats : ActorFormats := {|
  ParseMediaType value := Some (value, ∅);
  pem_Decode text := (Some (PEMBlock "PUBLIC KEY" 0 text), []);
  ParsePKIXPublicKey _ := Some (Some relay_public_key);
  ParsePKCS1PublicKey _ := None |}.
(** The client answers a GET with the document and an OPTIONS with 405; the state
    counts the requests. *)
#[export] Instance sample_client : ClientWorld nat := {|
  client_Do method _ _ n :=
    (Ok (Some (if method ≟ "GET" then Fetched 200 ["application/activity+json"] (-1) (BodyReader relay_document false)
               else Fetched 405 [] 0 (BodyReader [] false))), S n);
  ctx_Err _ := None |}.

Lemma key_resolution_exact_witness :
  ResolveRFC9421Key "directory/1" relay_key_id 0%nat = (Ok (ResolvedKey relay_key_id relay_actor_url relay_actor_url (Some relay_public_key)), 1%nat) ∧
  (ResolveRFC9421Key "directory/1" (relay_actor_url +:+ "#lost-key") 0%nat).1 = Err [ErrActorDocument] ∧
  (ResolveRFC9421Key "directory/1" "https://10.0.0.1/actor#main-key" 0%nat) = (Err [ErrNetworkTarget], 0%nat) ∧
  sound_key relay_public_key.
Proof.
  assert (Hr : ResolveRFC9421Key "directory/1" relay_key_id 0%nat =
    (Ok (ResolvedKey relay_key_id relay_actor_url relay_actor_url (Some relay_public_key)), 1%nat)) by (vm_compute; reflexivity).
  split; [exact Hr|]. split; [vm_compute; reflexivity|]. split; [vm_compute; reflexivity|].
  destruct (proj1 (key_resolution_exact (W := nat) "directory/1" relay_key_id 0%nat _ _) Hr) as (actor&f&response&body&entry&key&_&_&_&_&_&_&_&_&_&_&Hs&Hk).
  apply (f_equal key_PublicKey) in Hk. cbn [key_PublicKey] in Hk. apply (inj Some) in Hk. rewrite Hk. exact Hs.
Defined.

Lemma actorURLFromKeyID_exact_witness : actorURLFromKeyID relay_key_id = Ok relay_actor_url ∧ fetchable relay_actor_url = true.
Proof.
  assert (Hk : actorURLFromKeyID relay_key_id = Ok relay_actor_url) by (vm_compute; reflexivity). split; [exact Hk|].
  destruct (proj1 (actorURLFromKeyID_exact relay_key_id relay_actor_url) Hk) as (f&_&_&_&Hf&_). exact Hf.
Defined.

Lemma resolver_honours_run_witness :
  ∃ intent, probeOne false (resolver_prober "directory/1" 0%nat 1%nat) relay_actor_url = Ok intent ∧ reach_inbox_url intent = relay_inbox_url ∧
    reach_inbox_state intent = InboxMethodRejected ∧ validateReachabilityObservationIntent intent = true.
Proof.
  eexists. split; [vm_compute; reflexivity|]. split; [reflexivity|]. split; [reflexivity|].
  assert (Hc : ∀ n, cancellation_seen (W := nat) false n) by (intros n _; split; reflexivity).
  assert (Ht : transport_diagnoses (W := nat)) by (intros ?????? [=]).
  assert (Ha : canonical_actor relay_actor_url = true) by (vm_compute; reflexivity).
  pose proof (resolver_honours_run "directory/1" false relay_actor_url 0%nat 1%nat Ht (Hc 0%nat) (Hc 1%nat) Ha) as Hr.

  exact (proj2 Hr).
Defined.
