(* ===== verification/KeyCache.v ===== *)
(** * KeyCache: the bounded cache of resolved signing keys

    [internal/actorresolver/cache.go].  The map and the recency list share their
    entries: an entry is named by its list element.  A call holds the mutex twice, before
    and after it fetches; the steps of a system of concurrent calls are those two
    critical sections and what happens between them. *)
From S2P Require Import Prelude GoNet Identity Vocabulary Store Repository Discovery Reachability Session Replay Signature Requests Admission Network Resolver.
Local Open Scope string_scope.
Local Open Scope Z_scope.
Local Open Scope go_scope.
Local Open Scope list_scope.

Definition maximumCacheEntries : Z := 100000.
Definition maximumCacheTTL : Z := 5 * minute.
Record cache_config := CacheConfig { MaxEntries : Z; TTL : Z }.
(** [newCachedResolver], whose other arguments are present *)
Definition cache_config_ok (config : cache_config) : bool :=
  negb (MaxEntries config <? 1) && negb (maximumCacheEntries <? MaxEntries config) && negb (TTL config <=? 0) && negb (maximumCacheTTL <? TTL config).

(** A [*cacheEntry]: immutable once built, so that sharing it is sharing its value. *)
Record cache_entry := CacheEntry { entry_keyID : string; entry_resolved : resolved_key; entry_expires : Z; entry_element : nat }.
Record key_cache := KeyCache { cache_entries : gmap string cache_entry; cache_order : list cache_entry; cache_lastNow : Z; next_element : nat }.
(** The zero [lastNow] is the zero [time.Time]. *)
Definition empty_cache : key_cache := KeyCache ∅ [] zero_time 0.

(** ** The critical sections *)

Definition cacheTimeLocked (now : Z) (c : key_cache) : Z * key_cache :=
  if now <? cache_lastNow c then (cache_lastNow c, c) else (now, KeyCache (cache_entries c) (cache_order c) now (next_element c)).
(** [order.Remove(element)] *)
Definition remove_element (element : nat) (order : list cache_entry) : list cache_entry :=
  List.filter (λ e, negb (entry_element e =? element)%nat) order.
Definition removeLocked (entry : cache_entry) (c : key_cache) : key_cache :=
  KeyCache (delete (entry_keyID entry) (cache_entries c)) (remove_element (entry_element entry) (cache_order c)) (cache_lastNow c) (next_element c).
(** [order.MoveToBack(element)] does nothing for an element of no list. *)
Definition move_element_back (element : nat) (order : list cache_entry) : list cache_entry :=
  match find (λ e, (entry_element e =? element)%nat) order with Some e => remove_element element order ++ [e] | None => order end.

(** The look-up both sections begin with: a hit, or the cache without a stale entry. *)
Definition lookup_locked (keyID : string) (now : Z) (c : key_cache) : option resolved_key * key_cache :=
  match cache_entries c !! keyID with
  | Some entry =>
      if now <? entry_expires entry
      then (Some (entry_resolved entry), KeyCache (cache_entries c) (move_element_back (entry_element entry) (cache_order c)) (cache_lastNow c) (next_element c))
      else (None, removeLocked entry c)
  | None => (None, c)
  end.
Definition first_section (keyID : string) (now : Z) (c : key_cache) : option resolved_key * key_cache :=
  let '(now, c) := cacheTimeLocked now c in lookup_locked keyID now c.
(** The fetched key, or the fresh entry another call has stored meanwhile *)
Definition second_section (config : cache_config) (keyID : string) (resolved : resolved_key) (now : Z) (c : key_cache) : resolved_key * key_cache :=
  let '(now, c) := cacheTimeLocked now c in
  let '(found, c) := lookup_locked keyID now c in
  match found with
  | Some resolved => (resolved, c)
  | None =>
      let c :=
        if MaxEntries config <=? Z.of_nat (size (cache_entries c)) then
          match cache_order c with oldest :: _ => removeLocked oldest c | [] => c end
        else c in
      let entry := CacheEntry keyID resolved (now + TTL config) (next_element c) in
      (resolved, KeyCache (<[keyID := entry]> (cache_entries c)) (cache_order c ++ [entry]) (cache_lastNow c) (S (next_element c)))
  end.

(** [validateCacheResult]; [BitLen] is that of the absolute value. *)
Definition validateCacheResult (resolved : resolved_key) (keyID actor : string) : result resolver_error unit :=
  if negb (key_KeyID resolved ≟ keyID) || negb (key_Owner resolved ≟ actor) || negb (key_ActorID resolved ≟ actor) then Err [ErrActorDocument]
  else
    match key_PublicKey resolved with
    | Some key =>
        match modulus key with
        | Some n =>
            if (bit_len n <? minimumRSAKeyBits) || (maximumRSAKeyBits <? bit_len n) || (exponent key <? 3) || (Z.rem (exponent key) 2 =? 0)
            then Err [ErrPublicKey] else Ok tt
        | None => Err [ErrPublicKey]
        end
    | None => Err [ErrPublicKey]
    end.

(** ** One call *)

Section Call.
Context `{RelayIdentity}.

(** Before the first section: the context, and the actor of the identifier *)
Definition cache_admits (ctx : option bool) (keyID : string) : result resolver_error string :=
  match ctx with Some deadline => Err [ErrActorFetch; context_sentinel deadline] | None => actorURLFromKeyID keyID end.
(** Between the sections: what the resolver answered, the context after it, and the
    validation of its key *)
Definition cache_accepts (ctx : option bool) (keyID actor : string) (answer : result resolver_error resolved_key) : result resolver_error resolved_key :=
  match answer with
  | Err e => Err e
  | Ok resolved =>
      match ctx with
      | Some deadline => Err [ErrActorFetch; context_sentinel deadline]
      | None => match validateCacheResult resolved keyID actor with Err e => Err e | Ok _ => Ok resolved end
      end
  end.

(** [ResolveRFC9421Key] of a cache no other call interrupts *)
Definition CachedResolveRFC9421Key `{ActorFormats} {W} `{ClientWorld W} (now : W → Z * W) (userAgent : string) (config : cache_config) (keyID : string)
    (c : key_cache) (w : W) : result resolver_error resolved_key * key_cache * W :=
  match cache_admits (ctx_Err w) keyID with
  | Err e => (Err e, c, w)
  | Ok actor =>
      let '(t, w) := now w in
      let '(found, c) := first_section keyID t c in
      match found with
      | Some resolved => (Ok resolved, c, w)
      | None =>
          let '(answer, w) := ResolveRFC9421Key userAgent keyID w in
          match cache_accepts (ctx_Err w) keyID actor answer with
          | Err e => (Err e, c, w)
          | Ok resolved =>
              let '(t, w) := now w in
              let '(resolved, c) := second_section config keyID resolved t c in
              (Ok resolved, c, w)
          end
      end
  end.

(** ** Concurrent calls *)

(** Where a call stands; a finished one has its answer and the cache's time of it. *)
Inductive cache_call :=
| CallEntered (keyID actor : string) | CallFetching (keyID actor : string) | CallFetched (keyID actor : string) (resolved : resolved_key)
| CallAnswered (keyID actor : string) (resolved : resolved_key) (at_time : Z) | CallFailed (e : resolver_error).
(** The cache, the calls, and the keys stored so far with the time of storing *)
Record cache_system := CacheSystem { sys_cache : key_cache; sys_calls : gmap nat cache_call; sys_stored : list (Z * string * resolved_key) }.
Definition initial_system : cache_system := CacheSystem empty_cache ∅ [].

Variable config : cache_config.
Inductive cache_step : cache_system → cache_system → Prop :=
| step_enter c calls stored i keyID ctx actor :
    calls !! i = None → cache_admits ctx keyID = Ok actor →
    cache_step (CacheSystem c calls stored) (CacheSystem c (<[i := CallEntered keyID actor]> calls) stored)
| step_hit c calls stored i keyID actor now resolved c' :
    calls !! i = Some (CallEntered keyID actor) → first_section keyID now c = (Some resolved, c') →
    cache_step (CacheSystem c calls stored) (CacheSystem c' (<[i := CallAnswered keyID actor resolved (cache_lastNow c')]> calls) stored)
| step_miss c calls stored i keyID actor now c' :
    calls !! i = Some (CallEntered keyID actor) → first_section keyID now c = (None, c') →
    cache_step (CacheSystem c calls stored) (CacheSystem c' (<[i := CallFetching keyID actor]> calls) stored)
| step_fetch c calls stored i keyID actor ctx answer :
    calls !! i = Some (CallFetching keyID actor) →
    cache_step (CacheSystem c calls stored) (CacheSystem c (<[i := match cache_accepts ctx keyID actor answer with
      | Ok resolved => CallFetched keyID actor resolved | Err e => CallFailed e end]> calls) stored)
| step_store c calls stored i keyID actor resolved now answered c' :
    calls !! i = Some (CallFetched keyID actor resolved) → second_section config keyID resolved now c = (answered, c') →
    cache_step (CacheSystem c calls stored) (CacheSystem c' (<[i := CallAnswered keyID actor answered (cache_lastNow c')]> calls)
      (match (first_section keyID now c).1 with Some _ => stored | None => stored ++ [(cache_lastNow c', keyID, resolved)] end)).
Definition cache_reachable : cache_system → Prop := rtc cache_step initial_system.
End Call.
