(* ===== verification/KeyCacheFacts.v ===== *)
(** * KeyCacheFacts: the key cache is a bounded least-recently-used list

    The refinement of an abstract list of keys in order of use, and the invariant and
    the freshness of answers in any interleaving of calls. *)
From S2P Require Import Prelude GoNet Identity Canonical Vocabulary Store Repository Discovery Reachability Session Replay Signature Requests Admission Network Resolver ResolverFacts KeyCache.
Local Open Scope string_scope.
Local Open Scope Z_scope.
Local Open Scope go_scope.
Local Open Scope list_scope.

(** ** The abstract cache *)

Record lru_item := LRUItem { item_key : string; item_resolved : resolved_key; item_expires : Z }.
(** The item of a key moves to the end when fresh, and goes when stale. *)
Definition lru_others (key : string) (l : list lru_item) : list lru_item := List.filter (λ x, negb (item_key x ≟ key)) l.
Definition lru_lookup (key : string) (now : Z) (l : list lru_item) : option resolved_key * list lru_item :=
  match find (λ x, item_key x ≟ key) l with
  | Some x => if now <? item_expires x then (Some (item_resolved x), lru_others key l ++ [x]) else (None, lru_others key l)
  | None => (None, l)
  end.
(** A key that is not there is added at the end, at the cost of the first of a full list. *)
Definition lru_store (config : cache_config) (key : string) (resolved : resolved_key) (now : Z) (l : list lru_item) : resolved_key * list lru_item :=
  let '(found, l) := lru_lookup key now l in
  match found with
  | Some resolved => (resolved, l)
  | None => (resolved, (if MaxEntries config <=? Z.of_nat (length l) then tail l else l) ++ [LRUItem key resolved (now + TTL config)])
  end.
Definition item_of (e : cache_entry) : lru_item := LRUItem (entry_keyID e) (entry_resolved e) (entry_expires e).
Definition abstract (c : key_cache) : list lru_item := map item_of (cache_order c).

(** ** The invariant of the cache *)

Record cache_wf (config : cache_config) (c : key_cache) : Prop := {
  wf_listed : ∀ e, e ∈ cache_order c ↔ cache_entries c !! entry_keyID e = Some e;
  wf_keyed : ∀ k e, cache_entries c !! k = Some e → entry_keyID e = k;
  wf_distinct : NoDup (map entry_element (cache_order c));
  wf_next : ∀ e, e ∈ cache_order c → (entry_element e < next_element c)%nat;
  wf_bounded : Z.of_nat (size (cache_entries c)) ≤ MaxEntries config;
  wf_expires : ∀ e, e ∈ cache_order c → entry_expires e ≤ cache_lastNow c + TTL config }.

Section Cache.
Context (config : cache_config) (Hconfig : cache_config_ok config = true).

Lemma wf_same c e x : cache_wf config c → e ∈ cache_order c → x ∈ cache_order c → entry_element x = entry_element e ↔ entry_keyID x = entry_keyID e.
Proof.
  intros Hwf He Hx. split.
  - intros Heq. enough (x = e) as -> by done. pose proof (wf_distinct _ _ Hwf) as Hd. clear Hwf. induction (cache_order c) as [|y l IH]; [by apply elem_of_nil in He|].
    cbn in Hd. apply list.NoDup_cons in Hd as [Hn Hd].
    assert (Hin : ∀ z, z ∈ l → entry_element z ∈ map entry_element l) by (intros z Hz; apply list_elem_of_In, in_map; by apply list_elem_of_In).
    apply elem_of_cons in He as [->|He], Hx as [->|Hx]; [done| | |by apply IH].
    + destruct Hn. rewrite <- Heq. by apply Hin.
    + destruct Hn. rewrite Heq. by apply Hin.
  - intros Heq. apply (wf_listed _ _ Hwf) in He, Hx. rewrite Heq in Hx. congruence.
Qed.
(** The entry of a key is found by its key along the list. *)
Lemma find_listed c key : cache_wf config c → find (λ e, entry_keyID e ≟ key) (cache_order c) = cache_entries c !! key.
Proof.
  intros Hwf. destruct (find _ _) as [e|] eqn:Hf.
  - apply find_some in Hf as [Hin Hk]. apply String.eqb_eq in Hk as <-. symmetry. apply (wf_listed _ _ Hwf). by apply list_elem_of_In.
  - destruct (cache_entries c !! key) as [e|] eqn:He; [|done]. pose proof (wf_keyed _ _ Hwf _ _ He) as <-. apply (wf_listed _ _ Hwf), list_elem_of_In in He.
    eapply find_none in Hf; [|exact He]. by rewrite (proj2 (String.eqb_eq _ _) eq_refl) in Hf.
Qed.
Lemma abstract_find c key : cache_wf config c → find (λ x, item_key x ≟ key) (abstract c) = item_of <$> cache_entries c !! key.
Proof.
  intros Hwf. rewrite <- find_listed by done. unfold abstract. induction (cache_order c) as [|e l IH]; [done|]. cbn. by destruct (entry_keyID e ≟ key).
Qed.
Lemma abstract_remove c e : cache_wf config c → e ∈ cache_order c → map item_of (remove_element (entry_element e) (cache_order c)) = lru_others (entry_keyID e) (abstract c).
Proof.
  intros Hwf He. unfold lru_others, abstract, remove_element.
  assert (Hsub : ∀ x, x ∈ cache_order c → x ∈ cache_order c) by done. revert Hsub. generalize (cache_order c) at 1 3 4. intros l.
  induction l as [|x l IH]; intros Hl; [done|]. cbn [List.filter map].
  assert (Hx : x ∈ cache_order c) by (apply Hl; left). pose proof (wf_same c e x Hwf He Hx) as Hs.
  assert ((entry_element x =? entry_element e)%nat = (entry_keyID x ≟ entry_keyID e)) as ->.
  { apply Bool.eq_iff_eq_true. by rewrite Nat.eqb_eq, String.eqb_eq. }
  cbn [item_of item_key]. destruct (entry_keyID x ≟ entry_keyID e); cbn [negb]; [|cbn; f_equal]; (apply IH; intros y Hy; apply Hl; by right).
Qed.

Lemma remove_in element order x : x ∈ remove_element element order ↔ x ∈ order ∧ entry_element x ≠ element.
Proof. unfold remove_element. rewrite !list_elem_of_In, filter_In, negb_true_iff, Nat.eqb_neq. done. Qed.
Lemma remove_distinct element order : NoDup (map entry_element order) → NoDup (map entry_element (remove_element element order)).
Proof.
  induction order as [|x l IH]; [done|]. cbn. intros [Hn Hd]%list.NoDup_cons. destruct (negb _); [|by apply IH]. cbn. apply list.NoDup_cons. split; [|by apply IH].
  intros Hin. apply Hn. apply list_elem_of_In, in_map_iff in Hin as (y&Hy&Hin). apply filter_In in Hin as [Hin _]. apply list_elem_of_In, in_map_iff. by exists y.
Qed.

(** Removing an entry keeps the invariant. *)
Lemma removeLocked_wf c e : cache_wf config c → e ∈ cache_order c → cache_wf config (removeLocked e c).
Proof.
  intros Hwf He. pose proof (wf_same c e) as Hs. pose proof Hwf as [Hl Hk Hd Hn Hb Hx]. unfold removeLocked. split; cbn.
  - intros x. rewrite remove_in. destruct (decide (entry_keyID x = entry_keyID e)) as [Heq|Hne].
    + rewrite Heq, lookup_delete_eq. split; [|done]. intros [Hin Hn']. destruct Hn'. by apply (Hs x).
    + rewrite lookup_delete_ne, <- Hl by done. split; [by intros [? _]|]. intros Hin. split; [done|]. intros Heq. apply Hne. by apply (Hs x).
  - intros k x Hx'. apply lookup_delete_Some in Hx' as [_ Hx']. by apply Hk.
  - by apply remove_distinct.
  - intros x [Hx' _]%remove_in. by apply Hn.
  - rewrite map_size_delete. case_match; unfold id; lia.
  - intros x [Hx' _]%remove_in. by apply Hx.
Qed.

Lemma move_listed c e : cache_wf config c → e ∈ cache_order c →
  move_element_back (entry_element e) (cache_order c) = remove_element (entry_element e) (cache_order c) ++ [e].
Proof.
  intros Hwf He. unfold move_element_back. destruct (find _ _) as [x|] eqn:Hf.
  - apply find_some in Hf as [Hin Heq]. apply list_elem_of_In in Hin. apply Nat.eqb_eq in Heq.
    apply (wf_same c e x Hwf He Hin) in Heq. apply (wf_listed _ _ Hwf) in Hin, He. rewrite Heq in Hin. congruence.
  - apply list_elem_of_In in He. eapply find_none in Hf; [|exact He]. by rewrite Nat.eqb_refl in Hf.
Qed.
Lemma move_wf c e : cache_wf config c → e ∈ cache_order c →
  cache_wf config (KeyCache (cache_entries c) (move_element_back (entry_element e) (cache_order c)) (cache_lastNow c) (next_element c)).
Proof.
  intros Hwf He. rewrite move_listed by done. pose proof (wf_same c e) as Hs. pose proof Hwf as [Hl Hk Hd Hn Hb Hx].
  assert (Hin : ∀ x, x ∈ remove_element (entry_element e) (cache_order c) ++ [e] ↔ x ∈ cache_order c).
  { intros x. rewrite elem_of_app, remove_in, list_elem_of_singleton. split; [intros [[? _]| ->]; done|]. intros Hxin.
    destruct (decide (entry_element x = entry_element e)) as [Heq|]; [right|by left]. apply Hs in Heq; [|done..]. apply Hl in Hxin, He. rewrite Heq in Hxin. congruence. }
  split; cbn.
  - intros x. rewrite Hin. apply Hl.
  - done.
  - rewrite map_app. apply list.NoDup_app. split_and!; [by apply remove_distinct| |apply NoDup_singleton].
    intros y Hy Hy'%list_elem_of_singleton. subst y. apply list_elem_of_In, in_map_iff in Hy as (x&Hx1&Hx2). apply list_elem_of_In, remove_in in Hx2 as [_ Hx2]. done.
  - intros x Hx'%Hin. by apply Hn.
  - done.
  - intros x Hx'%Hin. by apply Hx.
Qed.

(** A look-up is the abstract one. *)
Lemma lookup_locked_refines key now c found c' : cache_wf config c → lookup_locked key now c = (found, c') →
  cache_wf config c' ∧ lru_lookup key now (abstract c) = (found, abstract c') ∧ cache_lastNow c' = cache_lastNow c ∧
  (∀ e, e ∈ cache_order c' → e ∈ cache_order c) ∧
  match found with
  | Some resolved => ∃ e, e ∈ cache_order c ∧ entry_keyID e = key ∧ entry_resolved e = resolved ∧ now < entry_expires e
  | None => cache_entries c' !! key = None
  end.
Proof.
  intros Hwf Hlook. unfold lookup_locked in Hlook. unfold lru_lookup. rewrite abstract_find by done.
  destruct (cache_entries c !! key) as [e|] eqn:He; cbn [fmap option_fmap option_map]; [|injection Hlook as <- <-; by split_and!].
  pose proof (wf_keyed _ _ Hwf _ _ He) as Hk. subst key. apply (wf_listed _ _ Hwf) in He. cbn [item_of item_expires item_resolved].
  destruct (Z.ltb_spec now (entry_expires e)); injection Hlook as <- <-.
  - split_and!; [by apply move_wf| |done| |].
    + unfold abstract at 2. cbn [cache_order]. rewrite move_listed, map_app, abstract_remove by done. done.
    + cbn. intros x. rewrite move_listed, elem_of_app, remove_in, list_elem_of_singleton by done. intros [[? _]| ->]; done.
    + by exists e.
  - split_and!; [by apply removeLocked_wf| |done| |].
    + unfold abstract at 2, removeLocked. cbn [cache_order]. by rewrite abstract_remove.
    + cbn. intros x. rewrite remove_in. by intros [? _].
    + cbn. apply lookup_delete_eq.
Qed.

Definition clamped (now : Z) (c : key_cache) : Z := Z.max now (cache_lastNow c).
Lemma cacheTimeLocked_wf now c : cache_wf config c → ∃ c1, cacheTimeLocked now c = (clamped now c, c1) ∧ cache_wf config c1 ∧
  cache_lastNow c1 = clamped now c ∧ cache_order c1 = cache_order c ∧ cache_entries c1 = cache_entries c.
Proof.
  intros Hwf. unfold cacheTimeLocked, clamped. destruct (Z.ltb_spec now (cache_lastNow c)).
  - exists c. by rewrite Z.max_r by lia.
  - rewrite Z.max_l by lia. eexists. split; [done|]. pose proof Hwf as [Hl Hk Hd Hn Hb Hx]. split_and!; try done. split; cbn; try done.
    intros e He. apply Hx in He. lia.
Qed.

Lemma first_section_refines key now c found c' : cache_wf config c → first_section key now c = (found, c') →
  cache_wf config c' ∧ lru_lookup key (clamped now c) (abstract c) = (found, abstract c') ∧ cache_lastNow c' = clamped now c ∧
  (∀ e, e ∈ cache_order c' → e ∈ cache_order c) ∧
  (∀ resolved, found = Some resolved → ∃ e, e ∈ cache_order c ∧ entry_keyID e = key ∧ entry_resolved e = resolved ∧ clamped now c < entry_expires e).
Proof.
  intros Hwf Hs. unfold first_section in Hs. destruct (cacheTimeLocked_wf now c Hwf) as (c1&Hc1&Hwf1&Hl1&Ho1&He1). rewrite Hc1 in Hs.
  destruct (lookup_locked_refines _ _ _ _ _ Hwf1 Hs) as (Hwf'&Habs&Hl&Hin&Hf). unfold abstract at 1 in Habs. rewrite Ho1 in Habs, Hin. split_and!; try done; [congruence|].
  intros resolved ->. destruct Hf as (e&He&?). exists e. by rewrite Ho1 in He.
Qed.

Lemma length_size c : cache_wf config c → length (cache_order c) = size (cache_entries c).
Proof.
  intros Hwf. rewrite <- size_dom. assert (dom (cache_entries c) = list_to_set (entry_keyID <$> cache_order c)) as ->.
  { apply set_eq. intros k. rewrite elem_of_dom, elem_of_list_to_set, list_elem_of_fmap. split.
    - intros [e He]. exists e. pose proof (wf_keyed _ _ Hwf _ _ He). subst k. split; [done|]. by apply (wf_listed _ _ Hwf).
    - intros (e&->&He). exists e. by apply (wf_listed _ _ Hwf). }
  rewrite size_list_to_set; [by rewrite length_fmap|]. apply NoDup_fmap_2_strong.
  - intros x y Hx Hy Heq. apply (wf_listed _ _ Hwf) in Hx, Hy. rewrite Heq in Hx. congruence.
  - apply (NoDup_fmap_1 entry_element). apply (wf_distinct _ _ Hwf).
Qed.

(** Room for one more key: the least recently used goes when the cache is full. *)
Definition make_room (c : key_cache) : key_cache :=
  if MaxEntries config <=? Z.of_nat (size (cache_entries c)) then
    match cache_order c with oldest :: _ => removeLocked oldest c | [] => c end
  else c.
Lemma make_room_refines c : cache_wf config c → cache_wf config (make_room c) ∧ Z.of_nat (size (cache_entries (make_room c))) < MaxEntries config ∧
  abstract (make_room c) = (if MaxEntries config <=? Z.of_nat (length (abstract c)) then tail (abstract c) else abstract c) ∧
  cache_lastNow (make_room c) = cache_lastNow c ∧ next_element (make_room c) = next_element c ∧ (∀ e, e ∈ cache_order (make_room c) → e ∈ cache_order c) ∧
  (∀ k, cache_entries c !! k = None → cache_entries (make_room c) !! k = None).
Proof.
  intros Hwf. pose proof (length_size c Hwf) as Hlen. unfold make_room. unfold abstract at 2 3 4. rewrite length_map, Hlen.
  destruct (Z.leb_spec (MaxEntries config) (Z.of_nat (size (cache_entries c)))) as [Hfull|]; [|by split_and!].
  assert (1 ≤ MaxEntries config) by (unfold cache_config_ok in Hconfig; rewrite !andb_true_iff, !negb_true_iff, Z.ltb_ge in Hconfig; lia).
  destruct (cache_order c) as [|oldest rest] eqn:Ho; [cbn in Hlen; lia|].
  assert (Hin : oldest ∈ cache_order c) by (rewrite Ho; left). pose proof (wf_listed _ _ Hwf oldest) as Hold. apply Hold in Hin as Hent.
  assert (Hrest : remove_element (entry_element oldest) (cache_order c) = rest).
  { rewrite Ho. unfold remove_element. cbn [List.filter]. rewrite Nat.eqb_refl. cbn [negb]. pose proof (wf_distinct _ _ Hwf) as Hd. rewrite Ho in Hd. cbn in Hd.
    apply list.NoDup_cons in Hd as [Hn _]. clear -Hn. induction rest as [|x rest IH]; [done|]. cbn in Hn. apply not_elem_of_cons in Hn as [Hne Hn].
    cbn [List.filter]. rewrite (proj2 (Nat.eqb_neq _ _)) by congruence. cbn [negb]. by rewrite IH. }
  split_and!; [by apply removeLocked_wf| | |done|done| |].
  - unfold removeLocked. cbn. rewrite map_size_delete, Hent. cbn in Hlen. pose proof (wf_bounded _ _ Hwf). lia.
  - unfold abstract, removeLocked. cbn [cache_order]. by rewrite Hrest.
  - unfold removeLocked. cbn. intros e. rewrite Hrest. by right.
  - unfold removeLocked. cbn. intros k Hk. apply lookup_delete_None. by right.
Qed.

Lemma second_section_eq key resolved now c : second_section config key resolved now c =
  let '(now, c) := cacheTimeLocked now c in
  let '(found, c) := lookup_locked key now c in
  match found with
  | Some resolved => (resolved, c)
  | None =>
      let c := make_room c in
      (resolved, KeyCache (<[key := CacheEntry key resolved (now + TTL config) (next_element c)]> (cache_entries c))
        (cache_order c ++ [CacheEntry key resolved (now + TTL config) (next_element c)]) (cache_lastNow c) (S (next_element c)))
  end.
Proof. done. Qed.

Lemma add_entry_wf key resolved now c : cache_wf config c → Z.of_nat (size (cache_entries c)) < MaxEntries config → cache_entries c !! key = None → now = cache_lastNow c →
  let e := CacheEntry key resolved (now + TTL config) (next_element c) in
  cache_wf config (KeyCache (<[key := e]> (cache_entries c)) (cache_order c ++ [e]) (cache_lastNow c) (S (next_element c))).
Proof.
  intros [Hl Hk Hd Hn Hb Hx] Hroom Hnone -> e. split; cbn.
  - intros x. rewrite elem_of_app, list_elem_of_singleton. split.
    + intros [Hin| ->]; [|apply lookup_insert_eq]. rewrite lookup_insert_ne; [by apply Hl|]. intros Heq. apply Hl in Hin. congruence.
    + rewrite lookup_insert_Some. intros [[_ He]|[_ Hin]]; [right; by rewrite He|left; by apply Hl].
  - intros k x. rewrite lookup_insert_Some. intros [[<- <-]|[_ Hin]]; [done|by apply Hk].
  - rewrite map_app. apply list.NoDup_app. split_and!; [done| |apply NoDup_singleton]. intros y Hy Hy'%list_elem_of_singleton. subst y.
    apply list_elem_of_In, in_map_iff in Hy as (x&Hx1&Hx2%list_elem_of_In). apply Hn in Hx2. cbn in Hx1. lia.
  - intros x [Hin%Hn| ->%list_elem_of_singleton]%elem_of_app; [lia|cbn; lia].
  - rewrite map_size_insert_None by done. lia.
  - intros x [Hin%Hx| ->%list_elem_of_singleton]%elem_of_app; [done|cbn; lia].
Qed.

Lemma second_section_refines key resolved now c answered c' : cache_wf config c → second_section config key resolved now c = (answered, c') →
  cache_wf config c' ∧ lru_store config key resolved (clamped now c) (abstract c) = (answered, abstract c') ∧ cache_lastNow c' = clamped now c ∧
  (∀ e, e ∈ cache_order c' → e ∈ cache_order c ∨ (first_section key now c).1 = None ∧ e = CacheEntry key resolved (clamped now c + TTL config) (entry_element e)) ∧
  ∃ e, e ∈ cache_order c' ∧ entry_keyID e = key ∧ entry_resolved e = answered ∧ clamped now c < entry_expires e.
Proof.
  intros Hwf Hs. rewrite second_section_eq in Hs. unfold lru_store, first_section. destruct (cacheTimeLocked_wf now c Hwf) as (c1&Hc1&Hwf1&Hl1&Ho1&He1). rewrite Hc1 in *.
  destruct (lookup_locked key (clamped now c) c1) as [found c2] eqn:Hlook.
  destruct (lookup_locked_refines _ _ _ _ _ Hwf1 Hlook) as (Hwf2&Habs&Hl2&Hin2&Hf). unfold abstract at 1 in Habs. rewrite Ho1 in Habs, Hin2. fold (abstract c) in Habs. rewrite Habs.
  destruct found as [r|].
  - injection Hs as <- <-. split_and!; [done|done|congruence|by intros e He; left; apply Hin2|].
    destruct Hf as (e&He&Hk&Hr&Hexp). exists e. split_and!; try done. unfold lookup_locked in Hlook.
    rewrite <- Hk in Hlook. apply (wf_listed _ _ Hwf1) in He as Hent. rewrite Hent in Hlook. destruct (Z.ltb_spec (clamped now c) (entry_expires e)); [|lia].
    injection Hlook as _ <-. cbn. rewrite move_listed by done. apply elem_of_app. right. by left.
  - destruct (make_room_refines c2 Hwf2) as (Hwf3&Hsize&Habs3&Hl3&Hn3&Hin3&Hnone). cbn zeta in Hs. set (c3 := make_room c2) in *. injection Hs as <- <-.
    assert (Hnow : clamped now c = cache_lastNow c3) by congruence.
    split_and!.
    + apply (add_entry_wf key resolved (clamped now c) c3); [done|done|by apply Hnone|done].
    + rewrite <- Habs3. unfold abstract. cbn [cache_order]. by rewrite map_app.
    + cbn. congruence.
    + cbn. intros e [He%Hin3%Hin2| ->%list_elem_of_singleton]%elem_of_app; [by left|by right].
    + eexists. cbn. split; [apply elem_of_app; right; by left|]. cbn. split_and!; try done.
      unfold cache_config_ok in Hconfig. rewrite !andb_true_iff, !negb_true_iff, Z.leb_gt in Hconfig. lia.
Qed.

Lemma empty_cache_wf : cache_wf config empty_cache.
Proof.
  split; cbn; try (by intros ? ?%elem_of_nil); [|done|constructor|].
  - intros e. split; [by intros ?%elem_of_nil|done].
  - unfold cache_config_ok in Hconfig. rewrite !andb_true_iff, !negb_true_iff, Z.ltb_ge in Hconfig. rewrite map_size_empty. lia.
Qed.

(** C32: The map and the recency list of the key cache implement one bounded list of keys
    in order of use: each critical section is, on that list, the look-up that moves a
    fresh key to the end and drops a stale one, and the store that makes room by
    dropping the key used longest ago; the cache's time never runs backwards. *)
Theorem cache_refines_lru key resolved now c : cache_wf config c →
  (let '(found, c') := first_section key now c in
   cache_wf config c' ∧ lru_lookup key (Z.max now (cache_lastNow c)) (abstract c) = (found, abstract c') ∧ cache_lastNow c' = Z.max now (cache_lastNow c)) ∧
  (let '(answered, c') := second_section config key resolved now c in
   cache_wf config c' ∧ lru_store config key resolved (Z.max now (cache_lastNow c)) (abstract c) = (answered, abstract c') ∧
   cache_lastNow c' = Z.max now (cache_lastNow c) ∧ Z.of_nat (length (abstract c')) ≤ MaxEntries config).
Proof.
  intros Hwf. split.
  - destruct (first_section key now c) as [found c'] eqn:E. by destruct (first_section_refines _ _ _ _ _ Hwf E) as (?&?&?&_).
  - destruct (second_section config key resolved now c) as [answered c'] eqn:E. destruct (second_section_refines _ _ _ _ _ _ Hwf E) as (Hwf'&?&?&_).
    split_and!; try done. unfold abstract. rewrite length_map, length_size by done. apply (wf_bounded _ _ Hwf').
Qed.

(** ** Concurrent calls *)

Context `{RelayIdentity}.

(** The key is bound to its identifier and the actor of it. *)
Definition bound_key (keyID actor : string) (r : resolved_key) : Prop :=
  actorURLFromKeyID keyID = Ok actor ∧ validateCacheResult r keyID actor = Ok tt.
(** [r] was stored under the identifier at [t] and is not older than the TTL at [T]. *)
Definition fresh_at (stored : list (Z * string * resolved_key)) (keyID : string) (r : resolved_key) (T : Z) : Prop :=
  ∃ t, (t, keyID, r) ∈ stored ∧ t ≤ T < t + TTL config.
Definition call_ok (stored : list (Z * string * resolved_key)) (call : cache_call) : Prop :=
  match call with
  | CallEntered keyID actor | CallFetching keyID actor => actorURLFromKeyID keyID = Ok actor
  | CallFetched keyID actor r => bound_key keyID actor r
  | CallAnswered keyID actor r T => bound_key keyID actor r ∧ fresh_at stored keyID r T
  | CallFailed _ => True
  end.
Record system_ok (s : cache_system) : Prop := {
  ok_cache : cache_wf config (sys_cache s);
  ok_entries : ∀ e, e ∈ cache_order (sys_cache s) → (entry_expires e - TTL config, entry_keyID e, entry_resolved e) ∈ sys_stored s;
  ok_stored : ∀ t keyID r, (t, keyID, r) ∈ sys_stored s → t ≤ cache_lastNow (sys_cache s) ∧ ∃ actor, bound_key keyID actor r;
  ok_calls : ∀ i call, sys_calls s !! i = Some call → call_ok (sys_stored s) call }.

Lemma cache_accepts_bound ctx keyID actor answer r : actorURLFromKeyID keyID = Ok actor → cache_accepts ctx keyID actor answer = Ok r → bound_key keyID actor r.
Proof.
  intros Hk. unfold cache_accepts. destruct answer as [x|]; [|done]. destruct ctx; [done|]. destruct (validateCacheResult x keyID actor) as [[]|] eqn:E; [|done]. by intros [= <-].
Qed.
Lemma call_ok_more stored more call : call_ok stored call → call_ok (stored ++ more) call.
Proof.
  destruct call; cbn; try done. intros [Hb (t&Ht&?)]. split; [done|]. exists t. split; [|done]. apply elem_of_app. by left.
Qed.
(** A call moves on; the store may grow, the cache changes with its time. *)
Lemma system_ok_step c c' calls stored more i call : system_ok (CacheSystem c calls stored) → cache_wf config c' → cache_lastNow c ≤ cache_lastNow c' →
  (∀ e, e ∈ cache_order c' → e ∈ cache_order c ∨ (entry_expires e - TTL config, entry_keyID e, entry_resolved e) ∈ more) →
  (∀ t keyID r, (t, keyID, r) ∈ more → t ≤ cache_lastNow c' ∧ ∃ actor, bound_key keyID actor r) →
  call_ok (stored ++ more) call → system_ok (CacheSystem c' (<[i := call]> calls) (stored ++ more)).
Proof.
  intros [Hc He Hs Hcalls] Hwf Hle Hin Hmore Hcall. split; cbn in *.
  - done.
  - intros e He'. apply elem_of_app. destruct (Hin e He') as [?|?]; [left; by apply He|by right].
  - intros t k r [Ht|Ht]%elem_of_app; [|by apply Hmore]. destruct (Hs _ _ _ Ht). split; [lia|done].
  - intros j call'. rewrite lookup_insert_Some. intros [[_ <-]|[_ Hj]]; [done|]. apply call_ok_more. by eapply Hcalls.
Qed.
Lemma system_ok_same c calls stored i call : system_ok (CacheSystem c calls stored) → call_ok stored call → system_ok (CacheSystem c (<[i := call]> calls) stored).
Proof.
  intros Hok Hcall. rewrite <- (app_nil_r stored). apply (system_ok_step c); [done|apply (ok_cache _ Hok)|lia|by left|by intros ??? ?%elem_of_nil|by rewrite app_nil_r].
Qed.

Lemma cache_step_ok s s' : cache_step config s s' → system_ok s → system_ok s'.
Proof.
  intros Hstep Hok. pose proof (ok_cache _ Hok) as Hwf. pose proof (ok_calls _ Hok) as Hcalls.
  destruct Hstep as [c calls stored i keyID ctx actor Hi Ha|c calls stored i keyID actor now r c' Hi Hs|c calls stored i keyID actor now c' Hi Hs|
    c calls stored i keyID actor ctx answer Hi|c calls stored i keyID actor r now answered c' Hi Hs]; cbn in Hwf, Hcalls.
  - apply system_ok_same; [done|]. cbn. unfold cache_admits in Ha. by destruct ctx.
  - apply Hcalls in Hi. destruct (first_section_refines _ _ _ _ _ Hwf Hs) as (Hwf'&_&Hl&Hin&Hf). destruct (Hf r eq_refl) as (e&He&Hk&Hr&Hexp).
    pose proof (ok_entries _ Hok e He) as Hst. cbn in Hst. rewrite <- (app_nil_r stored). apply (system_ok_step c); [done|done|unfold clamped in Hl; lia|intros x Hx; left; by apply Hin|by intros ??? ?%elem_of_nil|].
    rewrite app_nil_r. rewrite Hk, Hr in Hst. cbn. destruct (ok_stored _ Hok _ _ _ Hst) as [Ht (actor'&Hb)]. cbn in Ht. cbn in Hi. split.
    + destruct Hb as [Hb ?]. rewrite Hi in Hb. injection Hb as <-. done.
    + exists (entry_expires e - TTL config). split; [done|]. rewrite Hl. unfold clamped in *. lia.
  - apply Hcalls in Hi. destruct (first_section_refines _ _ _ _ _ Hwf Hs) as (Hwf'&_&Hl&Hin&_).
    rewrite <- (app_nil_r stored). apply (system_ok_step c); [done|done|unfold clamped in Hl; lia|intros x Hx; left; by apply Hin|by intros ??? ?%elem_of_nil|done].
  - apply Hcalls in Hi. apply system_ok_same; [done|]. destruct (cache_accepts ctx keyID actor answer) as [r|e] eqn:E; [|done]. by eapply cache_accepts_bound.
  - apply Hcalls in Hi. destruct (second_section_refines _ _ _ _ _ _ Hwf Hs) as (Hwf'&_&Hl&Hin&e&He&Hk&Hr&Hexp). cbn in Hi.
    assert (Hgo : ∀ more, (∀ e, e ∈ cache_order c' → e ∈ cache_order c ∨ (entry_expires e - TTL config, entry_keyID e, entry_resolved e) ∈ more) →
      (∀ x, x ∈ more → x = (cache_lastNow c', keyID, r)) → system_ok (CacheSystem c' (<[i := CallAnswered keyID actor answered (cache_lastNow c')]> calls) (stored ++ more))).
    { intros more Hm1 Hm2. assert (Hst : (entry_expires e - TTL config, keyID, answered) ∈ stored ++ more).
      { apply elem_of_app. rewrite <- Hk, <- Hr. destruct (Hm1 e He) as [He'|?]; [left; by apply (ok_entries _ Hok e)|by right]. }
      assert (Hmore : ∀ t k x, (t, k, x) ∈ more → t ≤ cache_lastNow c' ∧ ∃ actor, bound_key k actor x) by (intros t k x Hx; apply Hm2 in Hx; injection Hx as -> -> ->; split; [done|by exists actor]).
      apply (system_ok_step c); [done|done|unfold clamped in Hl; lia|done|done|]. cbn. rewrite Hl. pose proof Hst as Hb. apply elem_of_app in Hb.
      assert (Ht : entry_expires e - TTL config ≤ cache_lastNow c' ∧ ∃ actor, bound_key keyID actor answered).
      { destruct Hb as [Hb|Hb]; [|by apply Hmore]. destruct (ok_stored _ Hok _ _ _ Hb) as [? ?]. cbn in *. split; [unfold clamped in Hl; lia|done]. }
      destruct Ht as [Ht (actor'&Hb1&Hb2)]. rewrite (proj1 Hi) in Hb1. injection Hb1 as <-. split; [by split; [apply Hi|]|]. exists (entry_expires e - TTL config). split; [done|]. lia. }
    destruct ((first_section keyID now c).1) as [x|] eqn:Hfirst.
    + rewrite <- (app_nil_r stored). apply Hgo; [|by intros ? ?%elem_of_nil]. intros x' Hx'. destruct (Hin x' Hx') as [?|[? _]]; [by left|done].
    + apply Hgo; [|by intros x ?%list_elem_of_singleton]. intros x Hx. destruct (Hin x Hx) as [?|[_ ->]]; [by left|]. right. cbn. rewrite Hl.
      replace (clamped now c + TTL config - TTL config) with (clamped now c) by lia. by left.
Qed.
Lemma reachable_system_ok s : cache_reachable config s → system_ok s.
Proof.
  intros Hr. unfold cache_reachable in Hr. assert (Hinit : system_ok initial_system).
  { split; cbn; [apply empty_cache_wf|by intros ? ?%elem_of_nil|by intros ??? ?%elem_of_nil|done]. }
  revert Hinit. induction Hr as [|s1 s2 s3 Hstep _ IH]; [done|]. intros Hok. apply IH. by eapply cache_step_ok.
Qed.

(** However calls interleave, whatever the clock reads and whatever the resolver
    answers, the map and the recency list of the cache hold the same entries, each key
    once, never more than the configured number, and none expires later than the TTL
    after the latest time the cache has seen. *)
Theorem cache_stays_bounded s : cache_reachable config s →
  let c := sys_cache s in
  length (cache_order c) = size (cache_entries c) ∧ Z.of_nat (length (cache_order c)) ≤ MaxEntries config ∧ NoDup (map entry_element (cache_order c)) ∧
  ∀ e, e ∈ cache_order c ↔ cache_entries c !! entry_keyID e = Some e ∧ entry_expires e ≤ cache_lastNow c + TTL config.
Proof.
  intros [Hwf _ _ _]%reachable_system_ok c. subst c. pose proof (length_size _ Hwf) as Hl. pose proof (wf_bounded _ _ Hwf). split_and!; [done|lia|apply (wf_distinct _ _ Hwf)|].
  intros e. rewrite (wf_listed _ _ Hwf). split; [|by intros [? _]]. intros He. split; [done|]. by apply (wf_expires _ _ Hwf), (wf_listed _ _ Hwf).
Qed.

(** C31: Every key a call answers with, in any interleaving, is bound to the identifier
    asked for and its actor, has an acceptable size and exponent, and was fetched and
    stored under that identifier less than the TTL before, by the cache's own time. *)
Theorem answered_keys_fresh s i keyID actor r T : cache_reachable config s → sys_calls s !! i = Some (CallAnswered keyID actor r T) →
  actorURLFromKeyID keyID = Ok actor ∧ key_KeyID r = keyID ∧ key_Owner r = actor ∧ key_ActorID r = actor ∧
  (∃ key n, key_PublicKey r = Some key ∧ modulus key = Some n ∧ 2048 ≤ bit_len n ≤ 8192 ∧ 3 ≤ exponent key) ∧
  ∃ t, (t, keyID, r) ∈ sys_stored s ∧ t ≤ T < t + TTL config.
Proof.
  intros Hok%reachable_system_ok Hi. apply (ok_calls _ Hok) in Hi as [[Hk Hv] Hf]. unfold validateCacheResult in Hv.
  destruct (String.eqb_spec (key_KeyID r) keyID); [|done]. destruct (String.eqb_spec (key_Owner r) actor); [|done]. destruct (String.eqb_spec (key_ActorID r) actor); [|done].
  cbn [negb orb] in Hv. destruct (key_PublicKey r) as [key|] eqn:Hkey; [|done]. destruct (modulus key) as [n|] eqn:Hm; [|done]. destruct (_ || _) eqn:Hb; [done|].
  rewrite !orb_false_iff, !Z.ltb_ge in Hb. unfold minimumRSAKeyBits, maximumRSAKeyBits in Hb. split_and!; try done. exists key, n. split_and!; done || lia.
Qed.
End Cache.

(** ** A cache of one key *)

Definition one_key_cache : cache_config := CacheConfig 1 minute.
Definition relay_resolved : resolved_key := ResolvedKey relay_key_id relay_actor_url relay_actor_url (Some relay_public_key).
(** Two calls enter, one fetches and stores the key, and the other finds it. *)
Lemma sample_interleaving : ∃ s, cache_reachable one_key_cache s ∧ sys_calls s !! 1%nat = Some (CallAnswered relay_key_id relay_actor_url relay_resolved (30 * second)).
Proof.
  assert (Hid : cache_admits None relay_key_id = Ok relay_actor_url) by (vm_compute; reflexivity).
  eexists. split.
  - eapply rtc_l; [by apply (step_enter one_key_cache _ _ _ 0 relay_key_id None relay_actor_url)|].
    eapply rtc_l; [by apply (step_enter one_key_cache _ _ _ 1 relay_key_id None relay_actor_url)|].
    eapply rtc_l; [by eapply (step_miss one_key_cache _ _ _ 0 relay_key_id relay_actor_url (10 * second))|].
    eapply rtc_l; [by eapply (step_fetch one_key_cache _ _ _ 0 relay_key_id relay_actor_url None (Ok relay_resolved))|].
    eapply rtc_l; [eapply (step_store one_key_cache _ _ _ 0 relay_key_id relay_actor_url relay_resolved (20 * second)); [vm_compute; reflexivity|reflexivity]|].
    eapply rtc_l; [eapply (step_hit one_key_cache _ _ _ 1 relay_key_id relay_actor_url (30 * second)); [vm_compute; reflexivity|vm_compute; reflexivity]|].
    apply rtc_refl.
  - vm_compute. reflexivity.
Qed.

Lemma cache_stays_bounded_witness : ∃ s, cache_reachable one_key_cache s ∧ Z.of_nat (length (cache_order (sys_cache s))) ≤ 1.
Proof.
  destruct sample_interleaving as (s&Hs&_). exists s. split; [exact Hs|]. exact (proj1 (proj2 (cache_stays_bounded one_key_cache eq_refl s Hs))).
Defined.
Lemma answered_keys_fresh_witness : ∃ s t, cache_reachable one_key_cache s ∧ (t, relay_key_id, relay_resolved) ∈ sys_stored s ∧ t ≤ 30 * second < t + minute.
Proof.
  destruct sample_interleaving as (s&Hs&Hi).
  destruct (answered_keys_fresh one_key_cache eq_refl s 1%nat relay_key_id relay_actor_url relay_resolved (30 * second) Hs Hi) as (_&_&_&_&_&t&Ht&Hle).
  exists s, t. split; [exact Hs|]. split; [exact Ht|exact Hle].
Defined.
(** The second key takes the place of the first, though the clock went back. *)
Definition other_key_id : string := relay_actor_url +:+ "#old-key".
Definition other_resolved : resolved_key := ResolvedKey other_key_id relay_actor_url relay_actor_url (Some relay_public_key).
Definition one_key_stored : key_cache := (second_section one_key_cache relay_key_id relay_resolved (20 * second) empty_cache).2.
Lemma cache_refines_lru_witness :
  abstract (second_section one_key_cache other_key_id other_resolved (10 * second) one_key_stored).2 = [LRUItem other_key_id other_resolved (80 * second)] ∧
  cache_wf one_key_cache (second_section one_key_cache other_key_id other_resolved (10 * second) one_key_stored).2.
Proof.
  assert (Hwf : cache_wf one_key_cache one_key_stored).
  { pose proof (cache_refines_lru one_key_cache eq_refl relay_key_id relay_resolved (20 * second) empty_cache (empty_cache_wf one_key_cache eq_refl)) as [_ H].
    unfold one_key_stored. destruct (second_section one_key_cache relay_key_id relay_resolved (20 * second) empty_cache) as [answered c']. exact (proj1 H). }
  split; [vm_compute; reflexivity|].
  pose proof (cache_refines_lru one_key_cache eq_refl other_key_id other_resolved (10 * second) one_key_stored Hwf) as [_ H].
  destruct (second_section one_key_cache other_key_id other_resolved (10 * second) one_key_stored) as [answered c']. exact (proj1 H).
Defined.
