(* ===== verification/Reads.v ===== *)
(** * Reads: the private operator reads and the directory summary

    [internal/storage/sqlite/moderation_read.go], the reads of [discovery.go] and
    [directory_summary.go] over the tables of [Store] and [Candidates]. *)
From S2P Require Import Prelude Identity Vocabulary Store Session Repository Paging Discovery Reachability Candidates Directory.
Local Open Scope string_scope.
Local Open Scope Z_scope.
Local Open Scope go_scope.
Local Open Scope list_scope.

(** ** Discovery and observation reads *)

Record DiscoveryRecord := DiscoveryRecordOf {
  read_actor : string; read_base : string; read_state : string; read_first_discovered : Z; read_updated : Z; read_removed : option Z }.
Record RelayObservation := RelayObservationOf {
  obs_actor : string; obs_state : string; obs_last_checked : option Z; obs_last_success : option Z; obs_inbox_url : string;
  obs_inbox_declared : option Z; obs_inbox_state : string; obs_inbox_checked : option Z; obs_verified : option Z; obs_updated : Z }.

(** [decodeObservation] *)
Definition decodeObservation (actor : string) (row : observation_row) : option RelayObservation :=
  if negb (ReachabilityState_Valid (actor_state row)) || negb (InboxProbeState_Valid (inbox_probe_state row)) || (observation_updated row <? 0) ||
     (revision row <? 1) then None
  else Some (RelayObservationOf actor (actor_state row) (actor_last_checked row) (actor_last_success row) (default "" (inbox_url row))
               (inbox_declared row) (inbox_probe_state row) (inbox_last_checked row) (rfc9421_verified row) (observation_updated row)).

(** ** Moderation reads *)

Definition MaximumModerationAuditPage : Z := 100.
Definition ModerationAction_Valid (action : string) : bool :=
  one_of [moderationSuspendApplied; moderationSuspendUnchanged; moderationRestoreApplied; moderationRestoreUnchanged] action.
Record ModerationState := ModerationStateOf {
  mod_actor : string; mod_base : string; mod_lifecycle : string; mod_administrative : string; mod_first_registered : Z; mod_updated : Z;
  mod_heartbeat : option Z; mod_unregistered : option Z; mod_pruned : option Z; mod_suspended : option Z }.
Record audit_cursor := AuditCursor { RecordedUnix : Z; EventID : Z }.
Definition audit_start : audit_cursor := AuditCursor 0 0.
Definition audit_cursor_eqb (x y : audit_cursor) : bool := (RecordedUnix x =? RecordedUnix y) && (EventID x =? EventID y).
(** [ModerationAuditCursor.Valid] *)
Definition audit_cursor_valid (cursor : audit_cursor) : bool :=
  audit_cursor_eqb cursor audit_start || ((0 <=? RecordedUnix cursor) && (0 <? EventID cursor)).
Record audit_query := AuditQuery { audit_relay : string; audit_after : audit_cursor; audit_limit : Z }.
Record audit_page := AuditPage { audit_events : list moderation_event; audit_next : audit_cursor }.

Definition audit_key (e : moderation_event) : Z * Z := (moderation_recorded e, moderation_event_id e).
Definition audit_position (cursor : audit_cursor) : Z * Z := (RecordedUnix cursor, EventID cursor).
Definition event_cursor (e : moderation_event) : audit_cursor := AuditCursor (moderation_recorded e) (moderation_event_id e).
Definition events_of (actor : string) (d : db) : list moderation_event := List.filter (λ e, moderation_actor e ≟ actor) (moderation_events d).
Definition decode_audit (e : moderation_event) : result error moderation_event :=
  if (moderation_event_id e <=? 0) || (moderation_recorded e <? 0) || negb (ModerationAction_Valid (moderation_action e))
  then Err (storageFailure "validate moderation audit" ErrInvalidState) else Ok e.
Definition audit_page_of (read : list moderation_event * bool) : audit_page :=
  AuditPage read.1
    (match list.last read.1 with Some e => if read.2 then event_cursor e else audit_start | None => audit_start end).

Section Reads.
Context `{RelayIdentity}.

(** Both reads report a missing row as no record. *)
Definition GetDiscovery_query (actor : string) : Tx (option DiscoveryRecord) :=
  check (validateIdentityIntent actor) ErrDiscoveryReadInput ;;
  row ← wrapped "read discovery state" (query (λ d, discoveries d !! actor));
  match row with
  | None => mret None
  | Some r =>
      check (DiscoveryState_Valid (discovery_state r)) (storageFailure "validate discovery state" ErrInvalidState) ;;
      mret (Some (DiscoveryRecordOf actor (discovery_base r) (discovery_state r) (first_discovered r) (discovery_updated r) (discovery_removed_at r)))
  end.
Definition GetDiscovery (c : call) (actor : string) (d : db) : result error (option DiscoveryRecord) := run_read c (GetDiscovery_query actor) d.

Definition GetObservation_query (actor : string) : Tx (option RelayObservation) :=
  check (validateIdentityIntent actor) ErrObservationInput ;;
  row ← wrapped "read relay observation" (query (λ d, observations d !! actor));
  match row with
  | None => mret None
  | Some row =>
      match decodeObservation actor row with
      | Some o => mret (Some o)
      | None => tx_fail (storageFailure "validate relay observation" ErrInvalidState)
      end
  end.
Definition GetObservation (c : call) (actor : string) (d : db) : result error (option RelayObservation) := run_read c (GetObservation_query actor) d.

Definition validAdministrativeReadActor (actor : string) : bool :=
  negb (len actor =? 0) && (len actor <=? maximumRelayActorBytes) && canonical_actor actor.
Definition ModerationState_query (actor : string) : Tx ModerationState :=
  check (validAdministrativeReadActor actor) ErrAdministrativeReadInput ;;
  row ← wrapped "read moderation state" (query (λ d, relays d !! actor));
  match row with
  | None => tx_fail ErrRelayAbsent
  | Some r =>
      check (RelayLifecycleState_Valid (lifecycle_state r) && RelayAdministrativeState_Valid (administrative_state r))
        (storageFailure "validate moderation state" ErrInvalidState) ;;
      mret (ModerationStateOf actor (public_base_url r) (lifecycle_state r) (administrative_state r) (first_registered_at_unix r) (updated_at_unix r)
              (last_heartbeat_at_unix r) (unregistered_at_unix r) (pruned_at_unix r) (suspended_at_unix r))
  end.
Definition ReadModerationState (c : call) (actor : string) (d : db) : result error ModerationState := run_read c (ModerationState_query actor) d.

Definition ModerationAudit_query (q : audit_query) : Tx audit_page :=
  check (validAdministrativeReadActor (audit_relay q) && audit_cursor_valid (audit_after q) &&
         negb ((audit_limit q <=? 0) || (MaximumModerationAuditPage <? audit_limit q))) ErrAdministrativeReadInput ;;
  retained ← wrapped "read audit relay" (query (λ d, relays d !! audit_relay q));
  match retained with
  | None => tx_fail ErrRelayAbsent
  | Some _ =>
      rows ← wrapped "read moderation audit"
        (query (λ d, keyset_rows audit_key (audit_position (audit_after q)) (Z.to_nat (audit_limit q)) (events_of (audit_relay q) d)));
      read ← scan_rows "decode moderation audit" "iterate moderation audit" decode_audit (Z.to_nat (audit_limit q)) [] rows;
      mret (audit_page_of read)
  end.
Definition ModerationAudit (c : call) (q : audit_query) (d : db) : result error audit_page := run_read c (ModerationAudit_query q) d.
End Reads.

(** ** The directory summary *)

Record DirectorySummary := DirectorySummaryOf { KnownRelays : Z; OnlineRelays : Z; OfflineRelays : Z; PendingVerification : Z }.
(** [DirectorySummary.Valid] *)
Definition DirectorySummary_Valid (s : DirectorySummary) : bool :=
  (0 <=? KnownRelays s) && (0 <=? OnlineRelays s) && (0 <=? OfflineRelays s) && (0 <=? PendingVerification s) &&
  (OnlineRelays s + OfflineRelays s =? KnownRelays s).

Definition sql_between (low v high : Z) : bool := (low <=? v) && (v <=? high).
(** [CASE WHEN (...) OR (...) THEN 1 ELSE 0 END] over the joined rows; a comparison
    with NULL is not true. *)
Definition online_actor (d : db) (freshCutoff heartbeatCutoff observedUnix : Z) (actor : string) : bool :=
  match observations d !! actor with
  | Some o =>
      (actor_state o ≟ ReachabilityReachable) &&
      match actor_last_checked o, actor_last_success o with
      | Some checked, Some success => (checked =? success) && sql_between freshCutoff success observedUnix
      | _, _ => false
      end
  | None => false
  end ||
  match relays d !! actor with
  | Some r =>
      (lifecycle_state r ≟ lifecycleRegistered) &&
      match last_heartbeat_at_unix r with Some last => sql_between heartbeatCutoff last observedUnix | None => false end
  | None => false
  end.
Definition pending_candidate (d : db) (row : string * candidate_row) : bool :=
  one_of [DiscoveryCandidateUnreachable; DiscoveryCandidateIncompatible] (candidate_state row.2) &&
  negb (bool_decide (row.1 ∈ reachabilityEligibleCTE d)).
Definition summary_counts (observedUnix : Z) (s : candidate_store) : Z * Z * Z :=
  let d := candidate_db s in
  let freshCutoff := int64_sub observedUnix (seconds_of ReachabilityFreshness) in
  let heartbeatCutoff := int64_sub observedUnix (seconds_of HealthyThrough) in
  let public := elements (reachabilityEligibleCTE d) in
  (Z.of_nat (length public), Z.of_nat (length (List.filter (online_actor d freshCutoff heartbeatCutoff observedUnix) public)),
   Z.of_nat (length (List.filter (pending_candidate d) (map_to_list (candidates s))))).

Definition ReadDirectorySummary (c : call) (observedAt : Z) (s : candidate_store) : result error DirectorySummary :=
  if negb (configured c) then Err ErrRepositoryConfiguration
  else
    let observedUnix := unix_of observedAt in
    if observedUnix <? 0 then Err ErrDirectoryProjectionInput
    else
      fst (('(known, online, pending) ← failing "read directory summary" (select (summary_counts observedUnix));
            let summary := DirectorySummaryOf known online (known - online) pending in
            ensure (negb ((known <? 0) || (online <? 0) || (pending <? 0) || (known <? online) || (int64_max <? known) || (int64_max <? online) ||
                          (int64_max <? pending)))
              (storageFailure "validate directory summary" ErrInvalidState) ;;
            ensure (DirectorySummary_Valid summary) (storageFailure "validate directory summary" ErrInvalidState) ;;
            mret summary) (s, outcomes c)).
