(* ===== verification/ReadsFacts.v ===== *)
(** * ReadsFacts: the private reads return what was recorded

    Every event of the moderation trail is read back once and in order by a
    reader that follows the audit pages, the single-row reads return the stored
    row, and the summary counts exactly what the public listing shows. *)
From S2P Require Import Prelude Identity Vocabulary Store Session Repository Paging Lifecycle Discovery Reachability Candidates Pruning Invariant Contract Refinement System Guarantees ReachabilityFacts Health Directory Evidence DirectoryFacts DirectoryPages DirectoryScan DirectoryWalk Canonical Writes Reads.
Local Open Scope string_scope.
Local Open Scope Z_scope.
Local Open Scope go_scope.
Local Open Scope list_scope.

(** ** The moderation trail *)

Section Trail.
Context `{RelayIdentity}.

(** The trail after an operation: as it was, or one event longer, numbered next. *)
Definition trail_extends (d d' : db) : Prop :=
  (moderation_events d' = moderation_events d ∧ moderation_event_seq d' = moderation_event_seq d) ∨
  ∃ e, moderation_events d' = moderation_events d ++ [e] ∧ moderation_event_id e = moderation_event_seq d + 1 ∧
       moderation_event_seq d' = moderation_event_seq d + 1.

Lemma trail_same d d' : moderation_events d' = moderation_events d → moderation_event_seq d' = moderation_event_seq d → trail_extends d d'.
Proof. by left. Qed.
#[local] Hint Resolve trail_same : core.

Lemma promised_trail o t d out d' : promised o t d = Ok (out, d') → trail_extends d d'.
Proof.
  intros Hp. destruct o; simpl in Hp.
  - unfold Register_promise in Hp. guards Hp.
    destruct (registered_row _ _ _) as [[row out'] kind]. injection Hp as <- <-. auto.
  - unfold Heartbeat_promise in Hp. guards Hp. destruct (relays d !! actor); [|done]. guards Hp. injection Hp as <- <-. auto.
  - unfold Unregister_promise in Hp. guards Hp.
    destruct (relays d !! actor) as [r|]; [destruct (lifecycle_state r ≟ lifecycleRegistered)|]; injection Hp as <- <-;
      destruct (retained_identity _ _); auto.
  - unfold moderate_promise in Hp. guards Hp. destruct (relays d !! moderation_intent_actor intent) as [r|]; [|done].
    guards Hp. str_consts. destruct (administrative_state r ≟ administrativeSuspended); injection Hp as <- <-; right; by eexists.
  - unfold moderate_promise in Hp. guards Hp. destruct (relays d !! moderation_intent_actor intent) as [r|]; [|done].
    guards Hp. str_consts. destruct (administrative_state r ≟ administrativeSuspended); injection Hp as <- <-; right; by eexists.
  - unfold SetEnrollment_promise in Hp. guards Hp. destruct (classifyEnrollment _ open) as [out' action].
    injection Hp as <- <-. destruct (Bool.eqb _ open); auto.
  - unfold AddDiscovery_promise in Hp. guards Hp.
    destruct (discoveries d !! add_actor intent) as [r|]; [destruct (discovery_state r ≟ discoveryActive)|guards Hp];
      injection Hp as <- <-; auto.
  - unfold RemoveDiscovery_promise in Hp. guards Hp.
    destruct (discoveries d !! remove_actor intent) as [r|]; [destruct (discovery_state r ≟ discoveryActive)|];
      injection Hp as <- <-; auto.
  - unfold RecordActorObservation_promise in Hp. guards Hp. injection Hp as <- <-. auto.
  - unfold RecordInboxObservation_promise in Hp. guards Hp.
    destruct (observations d !! inbox_intent_actor intent); [|done]. guards Hp. injection Hp as <- <-. auto.
  - unfold RecordReachabilityObservation_promise in Hp. guards Hp. destruct (_ || _) in Hp; [|guards Hp]; injection Hp as <- <-; auto.
  - unfold SoftPrune_promise in Hp. guards Hp.
    destruct (relays d !! actor) as [r|]; [destruct (lifecycle_state r ≟ lifecyclePruned);
      [|destruct (_ && _) in Hp]|]; injection Hp as <- <-; auto.
Qed.

(** Event ids are positive, never reused, and at most the counter. *)
Definition trail_numbered (d : db) : Prop :=
  0 ≤ moderation_event_seq d ∧ NoDup (moderation_event_id <$> moderation_events d) ∧
  ∀ e, In e (moderation_events d) → 0 < moderation_event_id e ≤ moderation_event_seq d.

Lemma trail_extends_numbered d d' : trail_numbered d → trail_extends d d' → trail_numbered d'.
Proof.
  intros (H0&Hnd&Hin) [[He Hs]|(e&He&Hid&Hs)]; unfold trail_numbered; rewrite He, Hs; [done|].
  split_and!; [lia| |].
  - rewrite fmap_app. apply list.NoDup_app. split_and!; [done| |apply NoDup_singleton].
    intros i (x&->&Hx)%list_elem_of_fmap Hi%list_elem_of_singleton. apply list_elem_of_In, Hin in Hx. lia.
  - intros x [Hx|[<-|[]]]%in_app_or; [|lia]. apply Hin in Hx. lia.
Qed.

Lemma empty_numbered : trail_numbered initial_db.
Proof. split_and!; [done|constructor|intros e []]. Qed.
Lemma reachable_numbered `{!CanonicalURLs} s : reachable s → trail_numbered (database s).
Proof.
  induction 1 as [|c w t s Hr IH Ht]; [apply empty_numbered|]. pose proof (reachable_ok s Hr) as Hs.
  pose proof (written_log c w t s Hs Ht) as Hlog.
  assert (Hsame : moderation_log (database (written c w t s)) = moderation_log (database s) → trail_numbered (database (written c w t s))).
  { intros [= He Hq]. eapply trail_extends_numbered; [exact IH|by left]. }
  destruct w; try (by apply Hsame). cbn [written]. destruct (perform c o t (database s)) as [[out|e] d'] eqn:Hp; cbn.
  - eapply trail_extends_numbered; [exact IH|]. eapply promised_trail, performed_ok; [by apply store_db_ok|done|done].
  - by rewrite (performed_error _ _ _ _ _ _ Hp).
Qed.

(** ** Reading the trail *)

(** A page of [ModerationAudit] as a reader. *)
Definition audit_reader (c : call) (actor : string) (limit : Z) (d : db) (cursor : audit_cursor)
    : result error (list moderation_event * option audit_cursor) :=
  match ModerationAudit c (AuditQuery actor cursor limit) d with
  | Err e => Err e
  | Ok page => Ok (audit_events page, if audit_cursor_eqb (audit_next page) audit_start then None else Some (audit_next page))
  end.

Lemma decode_audit_kept d e : db_ok d → trail_numbered d → In e (moderation_events d) → decode_audit e = Ok e.
Proof.
  intros Hd (_&_&Hn) He. destruct (Hn e He) as [Hid _]. pose proof (inv_moderation_events _ _ Hd) as Hck.
  rewrite List.Forall_forall in Hck. destruct (Hck e He) as [Hc _]. unfold moderation_event_check in Hc.
  rewrite !andb_true_iff in Hc. destruct Hc as [[[[_ Ha] _] _] Ht]. unfold decode_audit, ModerationAction_Valid.
  rewrite Ha, (proj2 (Z.leb_gt _ _) Hid), (proj2 (Z.ltb_ge _ _)) by lia. done.
Qed.

Lemma events_of_in actor d e : In e (events_of actor d) ↔ In e (moderation_events d) ∧ moderation_actor e = actor.
Proof. unfold events_of. by rewrite filter_In, String.eqb_eq. Qed.

Lemma events_keys actor d : trail_numbered d → NoDup (audit_key <$> events_of actor d).
Proof.
  intros (_&Hnd&_). apply NoDup_fmap_1 with snd. rewrite <- list_fmap_compose.
  eapply list.sublist_NoDup; [exact Hnd|]. change (snd ∘ audit_key) with moderation_event_id. apply fmap_sublist. unfold events_of.
  clear Hnd. induction (moderation_events d) as [|e l IH]; simpl; [done|]. case_match; by constructor.
Qed.

Lemma validAdministrativeReadActor_retained d a r : db_ok d → relays d !! a = Some r → validAdministrativeReadActor a = true.
Proof.
  intros Hd Hr. destruct (relay_row_facts d a r Hd Hr) as (_&Ha&_). unfold validHealthProjectionActor in Ha.
  apply andb_true_iff in Ha as [[H0 Hm]%negb_true_iff%orb_false_iff Hcan].
  unfold validAdministrativeReadActor. rewrite H0, Hcan, (proj2 (Z.leb_le _ _)) by lia. done.
Qed.

Lemma ModerationAudit_read actor limit cursor d : db_ok d → trail_numbered d → is_Some (relays d !! actor) →
  audit_cursor_valid cursor = true → 0 < limit ≤ MaximumModerationAuditPage →
  ModerationAudit plain_call (AuditQuery actor cursor limit) d =
  let page := keyset_page audit_key (audit_position cursor) (Z.to_nat limit) (events_of actor d) in
  Ok (audit_page_of (map id page.1, is_present page.2)).
Proof.
  intros Hd Hn [r Hr] Hc Hl. unfold ModerationAudit, run_read, ModerationAudit_query.
  assert (Hactor := validAdministrativeReadActor_retained d actor r Hd Hr).
  simpl audit_relay. simpl audit_after. simpl audit_limit. rewrite Hactor, Hc, (proj2 (Z.leb_gt limit 0)), (proj2 (Z.ltb_ge _ limit)) by lia.
  simpl. tx_run. rewrite Hr. cbn beta iota. tx_run.
  rewrite (scan_keyset audit_key _ _ _ id); [done|lia|].
  intros e [He _]%events_of_in. by apply (decode_audit_kept d).
Qed.

Lemma audit_page_reader actor limit cursor d : trail_numbered d →
  let page := keyset_page audit_key (audit_position cursor) limit (events_of actor d) in
  let result := audit_page_of (map id page.1, is_present page.2) in
  (audit_events result, if audit_cursor_eqb (audit_next result) audit_start then None else Some (audit_next result)) =
  (map id page.1, if is_present page.2 then event_cursor <$> list.last page.1 else None).
Proof.
  intros (_&_&Hn) page result. unfold result, audit_page_of. simpl. f_equal. rewrite list_last_map.
  destruct (list.last page.1) as [e|] eqn:Hl; simpl; [|by destruct page.2].
  destruct page.2 as [k|]; simpl; [|done].
  assert (Hin : In e (events_of actor d)).
  { apply last_some_app in Hl as [kept Hk]. apply (keyset_page_in audit_key (audit_position cursor) limit (events_of actor d)).
    fold page. rewrite Hk. apply in_or_app. right. by left. }
  apply events_of_in in Hin as [Hin _]. apply Hn in Hin. unfold audit_cursor_eqb, event_cursor; simpl.
  rewrite (proj2 (Z.eqb_neq (moderation_event_id e) 0)) by lia. by rewrite andb_false_r.
Qed.

(** C37: The moderation trail is complete: in every reachable store, whatever was
    purged, promoted or reported in between, following the audit pages of a retained
    relay from the start reads every moderation event ever recorded for it exactly
    once, in the order of its time and number, and no page fails. *)
Theorem moderation_trail_complete `{!CanonicalURLs} s actor limit : let d := database s in reachable s → is_Some (relays d !! actor) →
  0 < limit ≤ MaximumModerationAuditPage →
  ∃ trail, (∀ fuel, (length trail < fuel)%nat → read_all (audit_reader plain_call actor limit d) fuel audit_start = Ok trail) ∧
    strictly_sorted audit_key trail ∧ trail ≡ₚ events_of actor d.
Proof.
  intros d Hr Hrow Hl. pose proof (store_db_ok s (reachable_ok s Hr)) as Hd. pose proof (reachable_numbered s Hr) as Hn. fold d in Hd, Hn.
  exists (order_by audit_key (events_of actor d)).
  split_and!; [|by apply order_by_sorted, events_keys|apply order_by_perm].
  assert (Hall : rows_after audit_key (audit_position audit_start) (order_by audit_key (events_of actor d)) =
                 order_by audit_key (events_of actor d)).
  { apply filter_all_true. intros e [He _]%order_by_in%events_of_in. pose proof (proj2 (proj2 Hn) e He) as Hid.
    pose proof (inv_moderation_events _ _ Hd) as Hck. rewrite List.Forall_forall in Hck. destruct (Hck e He) as [Hc _].
    unfold moderation_event_check in Hc. rewrite !andb_true_iff in Hc. destruct Hc as [_ Ht].
    unfold audit_key, audit_position, key_ltb; simpl. rewrite orb_true_iff, andb_true_iff.
    change (key_ltb 0 (moderation_recorded e)) with (0 <? moderation_recorded e).
    change (key_ltb (moderation_recorded e) 0) with (moderation_recorded e <? 0).
    change (key_ltb 0 (moderation_event_id e)) with (0 <? moderation_event_id e). rewrite negb_true_iff. lia. }
  intros fuel Hfuel.
  rewrite (read_all_rows audit_key id event_cursor audit_position (λ c, audit_cursor_valid c = true)
             (audit_reader plain_call actor limit d) (Z.to_nat limit) (events_of actor d) fuel audit_start); rewrite ?Hall.
  - by rewrite map_id.
  - lia.
  - by apply events_keys.
  - intros e [He _]%events_of_in. split; [|done]. pose proof (proj2 (proj2 Hn) e He) as Hid.
    pose proof (inv_moderation_events _ _ Hd) as Hck. rewrite List.Forall_forall in Hck. destruct (Hck e He) as [Hc _].
    unfold moderation_event_check in Hc. rewrite !andb_true_iff in Hc. unfold audit_cursor_valid, event_cursor; simpl.
    rewrite (proj2 (Z.ltb_lt _ _)) by lia. destruct Hc as [_ ->]. by rewrite orb_true_r.
  - intros cursor Hc. unfold audit_reader. rewrite ModerationAudit_read by done. cbv zeta. f_equal. by apply audit_page_reader.
  - done.
  - done.
Qed.
End Trail.

(** ** The summary and the listing *)

Section Summary.
Context `{RelayIdentity} `{ProfileReader} `{!ProfileReaderLaws}.

(** A relay the listing shows as online. *)
Definition shown_online (r : directory_relay) : bool := Tier r <=? DirectoryTierOnline.
Definition count {A} (f : A → bool) (l : list A) : Z := Z.of_nat (length (List.filter f l)).

Lemma count_bounds {A} (f : A → bool) l : 0 ≤ count f l ≤ Z.of_nat (length l).
Proof. unfold count. pose proof (filter_length_le f l). lia. Qed.
Lemma count_split {A} (f : A → bool) l : count f l + count (λ x, negb (f x)) l = Z.of_nat (length l).
Proof. unfold count. induction l as [|x l IH]; simpl; [done|]. destruct (f x); simpl length; lia. Qed.
Lemma count_perm {A} (f : A → bool) l l' : l ≡ₚ l' → count f l = count f l'.
Proof.
  intros Hp. unfold count. f_equal. induction Hp as [|x l l' _ IH|x y l|l1 l2 l3 _ IH1 _ IH2]; simpl; [done| | |congruence].
  - destruct (f x); simpl; congruence.
  - by destruct (f x), (f y).
Qed.
Lemma count_map {A B} (g : A → B) (f : B → bool) l : count f (map g l) = count (λ x, f (g x)) l.
Proof. unfold count. f_equal. induction l as [|x l IH]; simpl; [done|]. destruct (f (g x)); simpl; congruence. Qed.
Lemma count_ext {A} (f g : A → bool) l : (∀ x, In x l → f x = g x) → count f l = count g l.
Proof.
  intros He. unfold count. f_equal. induction l as [|x l IH]; simpl; [done|].
  rewrite He by by left. destruct (g x); simpl; rewrite IH; auto; intros; apply He; by right.
Qed.

(** A public row is shown online exactly when the summary's statement counts its actor. *)
Lemma shown_online_counted now d x r : readable now d x → eligible_now d (RelayActor r) = true →
  detail_of now d x (RelayActor r) = Ok (Some r) →
  online_actor d (now - 21600) (now - 129600) now (RelayActor r) = shown_online r.
Proof.
  intros [Hok Hev Htel Hprof [Hn Hmax]] He Hr. set (a := RelayActor r) in *.
  assert (Hnow : now ≤ int64_max) by lia. assert (Hbig : 604800 ≤ int64_max) by lia.
  destruct (directory_detail_public now d (telemetry x) (effectiveProfile (profile_rows x) a) a)
    as (r'&Hr'&_&_&Ht&_&base&hb&known&Hrow&Hclass); try done; [by apply effective_normalized|].
  unfold detail_of in Hr. rewrite Hr' in Hr. injection Hr as ->.
  assert (Hon : online_actor d (now - 21600) (now - 129600) now a = fresh_reachability r now || current_heartbeat r now).
  { rewrite Hrow. unfold online_actor, fresh_reachability, current_heartbeat, public_row, assemble, sql_between; simpl.
    change (seconds_of ReachabilityFreshness) with 21600. change (seconds_of HealthyThrough) with 129600.
    rewrite (int64_sub_nonneg now 21600), (int64_sub_nonneg now 129600) by lia. f_equal.
    - destruct (observations d !! a) as [o|]; simpl; [|done]. destruct (actor_last_checked o), (actor_last_success o); simpl; try done.
      by rewrite <- andb_assoc, (andb_comm (_ <=? now)).
    - destruct (eligible_paths d a He) as [Hs _]. unfold suspended_relay in Hs.
      destruct (relays d !! a) as [row|] eqn:Hrel; simpl; [|done].
      assert (Hadm : (administrative_state row ≟ administrativeActive) = true) by
        (destruct (administrative_kept a row (proj1 (inv_relays _ _ Hok a row Hrel)) _ (Z.le_refl _)) as [[-> _]|[Hsusp _]]; [done|];
         by rewrite Hsusp in Hs).
      rewrite Hadm, andb_true_r. destruct (last_heartbeat_at_unix row); simpl; [|done].
      by rewrite (andb_comm (_ <=? now)). }
  rewrite Hon. unfold ClassifyDirectoryTier in Hclass. case_match; [done|].
  unfold shown_online. destruct (fresh_reachability r now), (current_heartbeat r now); simpl in Hclass |- *;
    try (injection Hclass as <-; done). case_match; injection Hclass as <-; done.
Qed.

(** The listing names every public actor once. *)
Lemma public_listed now d x listing : readable now d x → strictly_sorted relay_position listing →
  (∀ r, In r listing ↔ eligible_now d (RelayActor r) = true ∧ detail_of now d x (RelayActor r) = Ok (Some r)) →
  elements (reachabilityEligibleCTE d) ≡ₚ map RelayActor listing.
Proof.
  intros Hread Hs Hin. apply NoDup_Permutation; [apply NoDup_elements| |].
  - change (map RelayActor listing) with (RelayActor <$> listing). apply NoDup_fmap_2_strong; [|by eapply (strictly_sorted_NoDup relay_position)].
    intros r1 r2 [_ Hr1]%list_elem_of_In%Hin [_ Hr2]%list_elem_of_In%Hin Heq. rewrite Heq in Hr1. congruence.
  - intros a. rewrite elem_of_elements, eligible_cte_spec, list_elem_of_In, in_map_iff. split.
    + intros He. destruct (row_of_public now d x Hread a He) as (r&Hr&_&Ha&_). exists r. split; [done|]. apply Hin. by rewrite Ha.
    + by intros (r&<-&[He _]%Hin).
Qed.

Lemma public_elements d : elements (reachabilityEligibleCTE d) ≡ₚ public_actors d.
Proof.
  apply NoDup_Permutation; [apply NoDup_elements|by eapply (strictly_sorted_NoDup id), public_actors_sorted|].
  intros a. by rewrite elem_of_elements, eligible_cte_spec, list_elem_of_In, public_actors_in.
Qed.

(** The statement of the summary counts the rows of the listing. *)
Lemma summary_counts_listing now s x listing : let d := candidate_db s in
  readable now d x → strictly_sorted relay_position listing →
  (∀ r, In r listing ↔ eligible_now d (RelayActor r) = true ∧ detail_of now d x (RelayActor r) = Ok (Some r)) →
  summary_counts now s =
  (Z.of_nat (length listing), count shown_online listing,
   count (λ row, one_of [DiscoveryCandidateUnreachable; DiscoveryCandidateIncompatible] (candidate_state row.2) &&
                 negb (bool_decide (row.1 ∈ map RelayActor listing))) (map_to_list (candidates s))).
Proof.
  intros d Hread Hs Hin. pose proof (public_listed now d x listing Hread Hs Hin) as Hperm.
  destruct (rd_clock _ _ _ Hread) as [Hn Hmax]. assert (Hnow : now ≤ int64_max) by lia. assert (Hbig : 604800 ≤ int64_max) by lia.
  unfold summary_counts. fold d. change (seconds_of ReachabilityFreshness) with 21600. change (seconds_of HealthyThrough) with 129600.
  rewrite (int64_sub_nonneg now 21600), (int64_sub_nonneg now 129600) by lia. f_equal; [f_equal|].
  - by rewrite (Permutation_length Hperm), length_map.
  - rewrite <- (count_ext (λ r, online_actor d (now - 21600) (now - 129600) now (RelayActor r))), <- count_map;
      [by apply count_perm|]. intros r [He Hr]%Hin. by eapply shown_online_counted.
  - apply count_ext. intros [a row] _. unfold pending_candidate. fold d. simpl. do 2 f_equal. apply bool_decide_ext.
    by rewrite <- elem_of_elements, Hperm.
Qed.

(** C36: The summary agrees with the listing: at the same time and state, the
    summary never fails, its known relays are the relays a complete reading of
    the public listing shows, its online relays those the listing shows in one of
    the two online tiers, its offline relays the others, and its pending
    verifications the unreachable or incompatible candidates that are not listed. *)
Theorem directory_summary_agrees lim t fuel s x listing : let d := candidate_db s in
  readable (unix_of t) d x → (0 < lim <= 100)%nat → (4 * length (public_actors d) < fuel)%nat →
  Z.of_nat (length (public_actors d)) ≤ int64_max → Z.of_nat (size (candidates s)) ≤ int64_max →
  read_all (read_forward d x lim t) fuel directory_start = Ok listing →
  ReadDirectorySummary plain_call t s =
  Ok (DirectorySummaryOf (Z.of_nat (length listing)) (count shown_online listing) (count (λ r, negb (shown_online r)) listing)
        (count (λ row, one_of [DiscoveryCandidateUnreachable; DiscoveryCandidateIncompatible] (candidate_state row.2) &&
                       negb (bool_decide (row.1 ∈ map RelayActor listing))) (map_to_list (candidates s)))).
Proof.
  intros d Hread Hl Hf Hmax Hcand Hall.
  rewrite (walk_forward (unix_of t)), (next_slots_all (unix_of t) d x Hread) in Hall;
    [|done..|by rewrite (next_slots_all (unix_of t) d x Hread), all_slots_length].
  injection Hall as <-. set (listing := hits (unix_of t) d x (all_slots d)).
  assert (Hin : ∀ r, In r listing ↔ eligible_now d (RelayActor r) = true ∧ detail_of (unix_of t) d x (RelayActor r) = Ok (Some r))
    by apply (all_hits_in _ _ _ Hread).
  assert (Hsorted : strictly_sorted relay_position listing)
    by (apply (hits_sorted _ _ _ Hread); [apply all_slots_sorted|intros slot; apply all_slots_public]).
  pose proof (summary_counts_listing (unix_of t) s x listing Hread Hsorted Hin) as Hcounts. fold d in Hcounts.
  set (pending := count _ (map_to_list _)) in *.
  assert (Hlen : (length listing = length (public_actors d))%nat).
  { rewrite <- (length_map RelayActor listing), <- (Permutation_length (public_listed (unix_of t) d x listing Hread Hsorted Hin)).
    apply Permutation_length, public_elements. }
  assert (Hon := count_bounds shown_online listing). assert (Hp : 0 ≤ pending ≤ int64_max).
  { unfold pending. pose proof (count_bounds (λ row, one_of [DiscoveryCandidateUnreachable; DiscoveryCandidateIncompatible] (candidate_state row.2) &&
                       negb (bool_decide (row.1 ∈ map RelayActor listing))) (map_to_list (candidates s))) as Hb.
    rewrite length_map_to_list in Hb. lia. }
  pose proof (count_split shown_online listing) as Hsplit. destruct (rd_clock _ _ _ Hread) as [Hn _].
  unfold ReadDirectorySummary. cbn [configured negb plain_call]. rewrite (proj2 (Z.ltb_ge _ _) Hn).
  rewrite sbind_run, failing_run, select_run. cbn beta iota. rewrite Hcounts. cbn beta iota.
  unfold ensure, DirectorySummary_Valid; cbn [KnownRelays OnlineRelays OfflineRelays PendingVerification].
  replace (Z.of_nat (length listing) - count shown_online listing) with (count (λ r, negb (shown_online r)) listing) by lia.
  assert (Hoff := count_bounds (λ r, negb (shown_online r)) listing).
  repeat match goal with |- context [?a <? ?b] => rewrite (proj2 (Z.ltb_ge a b)) by lia end.
  repeat match goal with |- context [?a <=? ?b] => rewrite (proj2 (Z.leb_le a b)) by lia end.
  rewrite (proj2 (Z.eqb_eq _ _)) by lia. done.
Qed.
End Summary.

(** ** Reading one relay back *)

Section ReadBack.
Context `{RelayIdentity}.

Definition moderation_state_of (actor : string) (r : relay_row) : ModerationState :=
  ModerationStateOf actor (public_base_url r) (lifecycle_state r) (administrative_state r) (first_registered_at_unix r) (updated_at_unix r)
    (last_heartbeat_at_unix r) (unregistered_at_unix r) (pruned_at_unix r) (suspended_at_unix r).

Lemma relay_states_valid d a r : db_ok d → relays d !! a = Some r →
  RelayLifecycleState_Valid (lifecycle_state r) && RelayAdministrativeState_Valid (administrative_state r) = true.
Proof. intros Hd Hr. destruct (inv_relays _ _ Hd a r Hr) as [Hc _]. unfold relay_check in Hc. bool_facts. by apply andb_true_iff. Qed.

Lemma ReadModerationState_row a d : db_ok d → validAdministrativeReadActor a = true →
  ReadModerationState plain_call a d =
  match relays d !! a with Some r => Ok (moderation_state_of a r) | None => Err ErrRelayAbsent end.
Proof.
  intros Hd Ha. unfold ReadModerationState, run_read, ModerationState_query. cbn [configured negb plain_call].
  rewrite bind_run, check_run, Ha. cbn beta iota. tx_run.
  destruct (relays d !! a) as [r|] eqn:Hr; [|done]. rewrite bind_run, check_run, (relay_states_valid d a r) by done. done.
Qed.

Definition discovery_record_of (actor : string) (r : discovery_row) : DiscoveryRecord :=
  DiscoveryRecordOf actor (discovery_base r) (discovery_state r) (first_discovered r) (discovery_updated r) (discovery_removed_at r).

Lemma GetDiscovery_row a d : db_ok d → validateIdentityIntent a = true →
  GetDiscovery plain_call a d = Ok (discovery_record_of a <$> discoveries d !! a).
Proof.
  intros Hd Ha. unfold GetDiscovery, run_read, GetDiscovery_query. cbn [configured negb plain_call].
  rewrite bind_run, check_run, Ha. cbn beta iota. tx_run.
  destruct (discoveries d !! a) as [r|] eqn:Hr; [|done]. rewrite bind_run, check_run.
  destruct (inv_discoveries _ _ Hd a r Hr) as [Hc _]. unfold discovery_check in Hc. bool_facts. by match goal with Hv : DiscoveryState_Valid _ = true |- _ => rewrite Hv end.
Qed.

Definition observation_record_of (actor : string) (o : observation_row) : RelayObservation :=
  RelayObservationOf actor (actor_state o) (actor_last_checked o) (actor_last_success o) (default "" (inbox_url o))
    (inbox_declared o) (inbox_probe_state o) (inbox_last_checked o) (rfc9421_verified o) (observation_updated o).

Lemma GetObservation_row a d : db_ok d → validateIdentityIntent a = true →
  GetObservation plain_call a d = Ok (observation_record_of a <$> observations d !! a).
Proof.
  intros Hd Ha. unfold GetObservation, run_read, GetObservation_query. cbn [configured negb plain_call].
  rewrite bind_run, check_run, Ha. cbn beta iota. tx_run.
  destruct (observations d !! a) as [o|] eqn:Ho; [|done]. destruct (inv_observations _ _ Hd a o Ho) as [Hc _].
  unfold observation_check in Hc. unfold decodeObservation. bool_facts.
  repeat match goal with Hv : ?b = true |- context [?b] => rewrite Hv end.
  rewrite (proj2 (Z.ltb_ge _ _)), (proj2 (Z.ltb_ge _ _)) by lia. done.
Qed.

(** A moderator reads back what was decided: after an accepted suspension or
    restoration the private state read shows the relay suspended since its first
    suspension, or active, and every other field as it read before the decision
    except the shared modification time. *)
Theorem moderation_read_back c (suspend : bool) intent t d out d' : db_ok d → clock_ok t →
  perform c (if suspend then OpSuspend intent else OpRestore intent) t d = (Ok out, d') →
  let a := moderation_intent_actor intent in
  ∃ before after, ReadModerationState plain_call a d = Ok before ∧ ReadModerationState plain_call a d' = Ok after ∧
    mod_administrative after = (if suspend then administrativeSuspended else administrativeActive) ∧
    mod_suspended after = (if suspend then match mod_suspended before with Some since => Some since | None => Some (unix_of t) end else None) ∧
    (mod_actor after, mod_base after, mod_lifecycle after, mod_first_registered after, mod_heartbeat after, mod_unregistered after, mod_pruned after) =
    (a, mod_base before, mod_lifecycle before, mod_first_registered before, mod_heartbeat before, mod_unregistered before, mod_pruned before).
Proof.
  intros Hd Ht Hp a. assert (Hd' : db_ok d') by (eapply promised_preserves, performed_ok; done).
  assert (Hm : moderate_promise intent t (if suspend then administrativeSuspended else administrativeActive) d = Ok (out, d'))
    by (destruct suspend; by eapply performed_ok in Hp).
  unfold moderate_promise in Hm. guards Hm. destruct (relays d !! moderation_intent_actor intent) as [r|] eqn:Hr; [|done]. guards Hm.
  fold a in Hr. assert (Ha := validAdministrativeReadActor_retained d a r Hd Hr).
  destruct (administrative_kept a r (proj1 (inv_relays _ _ Hd a r Hr)) _ (Z.le_refl _)) as [[Hadm Hs]|[Hadm (since&Hs&_)]];
    destruct suspend; str_consts; rewrite Hadm in Hm; injection Hm as <- <-;
    rewrite !ReadModerationState_row, Hr by done; simpl; rewrite ?lookup_insert_eq, ?Hr;
    (eexists _, _; split; [done|split; [done|]]); simpl; by rewrite ?Hs.
Qed.
End ReadBack.

(** * The private reads over concrete tables The theorems of [ReadsFacts] applied to a relay that was suspended, and to the directory of [DirectoryExamples] with one unreachable candidate beside it. *)

From S2P Require Import Canonical Telemetry Profile ProfileFacts DirectoryExamples.

Definition sample_decision : ModerationIntent :=
  {| moderation_intent_actor := sample_actor; moderation_intent_moderator := "operator"; moderation_intent_reason := "spam" |}.
Definition sample_suspended : db := after (OpSuspend sample_decision) (time_of_unix 2000) sample_enrolled.

(** The relay is suspended twice, and a retention run started in between. *)
Definition suspended_twice : store :=
  fold_left (λ s w, written plain_call w.1 w.2 s)
    [(WriteDirectory (OpSetEnrollment true "operator"), time_of_unix 500);
     (WriteDirectory (OpRegister sample_intent), time_of_unix 1000);
     (WriteDirectory (OpSuspend sample_decision), time_of_unix 2000);
     (WriteRunStart purge_start_run, time_of_unix 2200);
     (WriteDirectory (OpSuspend sample_decision), time_of_unix 2500)] empty_store.

Lemma moderation_trail_complete_witness : reachable suspended_twice ∧
  ∃ trail, (∀ fuel, (length trail < fuel)%nat → read_all (audit_reader plain_call sample_actor 1 (database suspended_twice)) fuel audit_start = Ok trail) ∧
    strictly_sorted audit_key trail ∧ trail ≡ₚ events_of sample_actor (database suspended_twice).
Proof.
  assert (Hr : reachable suspended_twice).
  { apply fold_reachable; [apply reachable_empty|]. repeat (apply Forall_cons; [clock|]). constructor. }
  split; [exact Hr|]. apply (moderation_trail_complete suspended_twice _ 1 Hr); [by eexists; vm_compute|].
  unfold MaximumModerationAuditPage. lia.
Defined.

Lemma moderation_read_back_witness :
  ∃ before after, ReadModerationState plain_call sample_actor sample_enrolled = Ok before ∧
    ReadModerationState plain_call sample_actor sample_suspended = Ok after ∧
    mod_administrative after = administrativeSuspended ∧ mod_suspended after = Some 2000 ∧ mod_lifecycle after = mod_lifecycle before.
Proof.
  assert (Hp : perform plain_call (OpSuspend sample_decision) (time_of_unix 2000) sample_enrolled = (Ok ModerationSuspended, sample_suspended))
    by evaluate.
  destruct (moderation_read_back plain_call true sample_decision (time_of_unix 2000) _ _ _ sample_enrolled_ok ltac:(clock) Hp)
    as (before&after&Hb&Ha&Hadm&Hs&Hrest). exists before, after. split; [exact Hb|split; [exact Ha|split; [exact Hadm|split]]].
  - rewrite Hs. assert (Hbefore : before = moderation_state_of sample_actor (new_relay "https://relay.example" 1000)).
    { apply (f_equal (λ r, match r with Ok s => s | Err _ => before end)) in Hb. rewrite <- Hb. by vm_compute. }
    by rewrite Hbefore.
  - by injection Hrest.
Defined.

Definition sample_candidates : candidate_store :=
  CandidateStore sample_probed
    {["https://other.example/actor" := CandidateRow "https://other.example" DiscoveryCandidateUnreachable None 2000 2000 None 1 2000]} [].

Lemma directory_summary_agrees_witness :
  ∃ listing, read_all (read_forward sample_probed sample_extras 1 (time_of_unix 3000)) 5 directory_start = Ok listing ∧
    ReadDirectorySummary plain_call (time_of_unix 3000) sample_candidates =
      Ok (DirectorySummaryOf (Z.of_nat (length listing)) (count shown_online listing) (count (λ r, negb (shown_online r)) listing) 1).
Proof.
  set (listing := read_all (read_forward sample_probed sample_extras 1 (time_of_unix 3000)) 5 directory_start).
  assert (Hb : match listing with Ok [r] => RelayActor r ≟ sample_actor | _ => false end = true) by (vm_compute; reflexivity).
  assert (Hl : ∃ r, RelayActor r = sample_actor ∧ listing = Ok [r]).
  { destruct listing as [[|r [|]]|]; try discriminate Hb. apply String.eqb_eq in Hb. by exists r. }
  destruct Hl as (r&Ha&Hl). exists [r]. split; [exact Hl|].
  assert (Hf : (4 * length (public_actors sample_probed) < 5)%nat) by (vm_compute; lia).
  assert (Hm : Z.of_nat (length (public_actors sample_probed)) ≤ int64_max) by (vm_compute; discriminate).
  assert (Hc : Z.of_nat (size (candidates sample_candidates)) ≤ int64_max) by (vm_compute; discriminate).
  rewrite (directory_summary_agrees 1 (time_of_unix 3000) 5 sample_candidates sample_extras [r] sample_readable ltac:(lia) Hf Hm Hc Hl).
  simpl map. rewrite Ha. clear. do 2 f_equal; by vm_compute.
Defined.
