(* ===== verification/WebText.v ===== *)
(** * WebText: base64, query strings, decimal numbers and timestamps

    The parts of [encoding/base64] (the RawURLEncoding), [net/url] (ParseQuery),
    [strconv] and [time] that the public HTTP handlers call, over byte lists,
    with the round trips their cursors rely on. *)
From S2P Require Import Prelude GoNet Identity AddrText Canonical Text Json JsonFacts RequestFacts.
From Stdlib Require Import Ascii.
Local Open Scope string_scope.
Local Open Scope Z_scope.
Local Open Scope go_scope.
Local Open Scope list_scope.

(** ** encoding/base64: RawURLEncoding *)

Definition base64_digit (v : Z) : ascii :=
  if v <? 26 then byte_of (byte "A" + v) else if v <? 52 then byte_of (byte "a" + (v - 26))
  else if v <? 62 then byte_of (byte "0" + (v - 52)) else if v =? 62 then "-"%char else "_"%char.
Definition base64_value (c : ascii) : option Z :=
  if is_upper c then Some (byte c - byte "A") else if is_lower c then Some (byte c - byte "a" + 26)
  else if is_digit c then Some (byte c - byte "0" + 52)
  else if c ≡c "-" then Some 62 else if c ≡c "_" then Some 63 else None.

(** [EncodeToString] *)
Fixpoint base64_encode (s : bytes) : bytes :=
  match s with
  | [] => []
  | [x] => [base64_digit (byte x / 4); base64_digit (byte x mod 4 * 16)]
  | [x; y] => [base64_digit (byte x / 4); base64_digit (byte x mod 4 * 16 + byte y / 16); base64_digit (byte y mod 16 * 4)]
  | x :: y :: z :: rest =>
      base64_digit (byte x / 4) :: base64_digit (byte x mod 4 * 16 + byte y / 16) ::
      base64_digit (byte y mod 16 * 4 + byte z / 64) :: base64_digit (byte z mod 64) :: base64_encode rest
  end.

(** Line breaks are skipped, and the unused bits of the last quantum are ignored. *)
Fixpoint base64_quanta (s : bytes) : option bytes :=
  match s with
  | [] => Some []
  | [_] => None
  | [p; q] => x ← base64_value p; y ← base64_value q; Some [byte_of (x * 4 + y / 16)]
  | [p; q; r] =>
      x ← base64_value p; y ← base64_value q; z ← base64_value r;
      Some [byte_of (x * 4 + y / 16); byte_of (y mod 16 * 16 + z / 4)]
  | p :: q :: r :: t :: rest =>
      x ← base64_value p; y ← base64_value q; z ← base64_value r; w ← base64_value t;
      out ← base64_quanta rest;
      Some (byte_of (x * 4 + y / 16) :: byte_of (y mod 16 * 16 + z / 4) :: byte_of (z mod 4 * 64 + w) :: out)
  end.
(** [DecodeString] *)
Definition base64_decode (s : bytes) : option bytes :=
  base64_quanta (List.filter (λ c, negb ((byte c =? 10) || (byte c =? 13))) s).

(** ** net/url: query strings *)

(** [QueryUnescape] *)
Fixpoint query_unescape (s : bytes) : option bytes :=
  match s with
  | [] => Some []
  | c :: s1 =>
      if c ≡c "%" then
        match s1 with
        | h :: l :: s3 =>
            match hex_value h, hex_value l with
            | Some hi, Some lo => rest ← query_unescape s3; Some (byte_of (hi * 16 + lo) :: rest)
            | _, _ => None
            end
        | _ => None
        end
      else rest ← query_unescape s1; Some ((if c ≡c "+" then " "%char else c) :: rest)
  end.

Abbreviation Values := (gmap string (list string)).
(** One [key=value] part of [parseQuery]: a semicolon or a bad escape is an error. *)
Definition add_parameter (values : Values) (part : bytes) : option Values :=
  if contains_byte part ";" then None
  else if bytes_eqb part [] then Some values
  else
    let '(key, value, _) := cut part "=" in
    key ← query_unescape key; value ← query_unescape value;
    Some (<[str key := default [] (values !! str key) ++ [str value]]> values).
Fixpoint add_parameters (values : Values) (parts : list bytes) : option Values :=
  match parts with [] => Some values | part :: parts => values ← add_parameter values part; add_parameters values parts end.
Definition maximumQueryParameters : Z := 10000.
(** [ParseQuery]; an empty part adds nothing. *)
Definition ParseQuery (query : bytes) : option Values :=
  let parts := split_on query "&" in
  if maximumQueryParameters <? Z.of_nat (length parts) then None else add_parameters ∅ parts.

(** [QueryEscape] *)
Definition query_escape (s : bytes) : bytes :=
  flat_map (λ c, if c ≡c " " then b "+" else if is_alnum c || mem c "-_.~" then [c] else percent_encode c) s.

(** ** strconv *)

Definition Itoa (v : Z) : bytes := if v <? 0 then "-"%char :: format_uint 20 (- v) [] else format_uint 20 v [].
Definition Atoi (s : bytes) : option Z :=
  let '(sign, digits) :=
    match s with
    | c :: rest => if c ≡c "-" then (-1, rest) else if c ≡c "+" then (1, rest) else (1, s)
    | [] => (1, [])
    end in
  if bytes_eqb digits [] then None
  else
    v ← decimal_value 0 digits;
    if (int64_min <=? sign * v) && (sign * v <=? int64_max) then Some (sign * v) else None.

(** ** time: RFC 3339 in UTC *)

(** The civil date of a day counted from 1970-01-01: years start in March within
    eras of 400 years. *)
Definition civil_date (days : Z) : Z * Z * Z :=
  let z := days + 719468 in
  let era := z / 146097 in
  let day_of_era := z mod 146097 in
  let year_of_era := (day_of_era - day_of_era / 1460 + day_of_era / 36524 - day_of_era / 146096) / 365 in
  let day_of_year := day_of_era - (365 * year_of_era + year_of_era / 4 - year_of_era / 100) in
  let mp := (5 * day_of_year + 2) / 153 in
  let day := day_of_year - (153 * mp + 2) / 5 + 1 in
  let month := if mp <? 10 then mp + 3 else mp - 9 in
  let year := year_of_era + era * 400 + (if month <=? 2 then 1 else 0) in
  (year, month, day).
(** [appendInt(value, width)] of a number that is not negative *)
Definition padded (width : nat) (v : Z) : bytes :=
  let digits := Itoa v in repeat "0"%char (width - length digits) ++ digits.
(** [time.Unix(v, 0).UTC().Format(time.RFC3339)] from 1970 on *)
Definition rfc3339 (v : Z) : bytes :=
  let '(year, month, day) := civil_date (v / 86400) in
  let s := v mod 86400 in
  padded 4 year ++ b "-" ++ padded 2 month ++ b "-" ++ padded 2 day ++ b "T" ++
  padded 2 (s / 3600) ++ b ":" ++ padded 2 (s / 60 mod 60) ++ b ":" ++ padded 2 (s mod 60) ++ b "Z".
Example rfc3339_samples :
  map (λ v, str (rfc3339 v)) [0; 951782400; 1709251199; 253402300799] =
  ["1970-01-01T00:00:00Z"; "2000-02-29T00:00:00Z"; "2024-02-29T23:59:59Z"; "9999-12-31T23:59:59Z"].
Proof. vm_compute. reflexivity. Qed.
Example base64_samples : str (base64_encode (b "Man, Ma")) = "TWFuLCBNYQ" ∧ base64_decode (b "TWFu
LCBNYR") = Some (b "Man, Ma") ∧ base64_decode (b "TWF=") = None.
Proof. vm_compute. done. Qed.
Example query_samples :
  bool_decide (ParseQuery (b "limit=1+2&&cursor=%41%3d&limit=x") = Some (<["cursor" := ["A="]]> {["limit" := ["1 2"; "x"]]})) &&
  bool_decide (ParseQuery (b "a;b=1") = None) = true.
Proof. vm_compute. reflexivity. Qed.

(** ** Base64 round trip *)

Lemma byte_range c : 0 ≤ byte c < 256.
Proof. revert c. each_byte. Qed.
Lemma byte_of_range v : 0 ≤ v < 256 → byte (byte_of v) = v.
Proof.
  intros Hv. unfold byte, byte_of. rewrite N_ascii_embedding by (change 256%N with (Z.to_N 256); apply Z2N.inj_lt; lia).
  by rewrite Z2N.id by lia.
Qed.

(** A digit and its value; [P] of all 64 values from [P] of each. *)
Lemma sextets (P : Z → bool) : forallb P (map Z.of_nat (seq 0 64)) = true → ∀ v, 0 ≤ v < 64 → P v = true.
Proof.
  rewrite forallb_forall. intros HP v Hv. apply HP. rewrite in_map_iff. exists (Z.to_nat v). split; [lia|]. apply in_seq. lia.
Qed.
Definition base64_char (c : ascii) : bool := is_alnum c || (c ≡c "-") || (c ≡c "_").
Lemma base64_digit_value v : 0 ≤ v < 64 → base64_value (base64_digit v) = Some v.
Proof.
  intros Hv. assert (Hb : match base64_value (base64_digit v) with Some w => w =? v | None => false end = true)
    by (revert v Hv; apply (sextets (λ v, match base64_value (base64_digit v) with Some w => w =? v | None => false end)); vm_compute; done).
  destruct (base64_value _); [|done]. apply Z.eqb_eq in Hb. congruence.
Qed.
Lemma base64_digit_char v : 0 ≤ v < 64 → base64_char (base64_digit v) = true.
Proof. revert v. apply (sextets (λ v, base64_char (base64_digit v))). vm_compute. done. Qed.

Lemma byte_sextets c : 0 ≤ byte c / 4 < 64 ∧ 0 ≤ byte c mod 4 < 4 ∧ 0 ≤ byte c / 16 < 16 ∧ 0 ≤ byte c mod 16 < 16 ∧
  0 ≤ byte c / 64 < 4 ∧ 0 ≤ byte c mod 64 < 64.
Proof. pose proof (byte_range c). split_and!; try (apply Z.div_pos; lia); try (apply Z.div_lt_upper_bound; lia); apply Z.mod_pos_bound; lia. Qed.

Lemma list_ind4 {A} (P : list A → Prop) : P [] → (∀ x, P [x]) → (∀ x y, P [x; y]) → (∀ x y z l, P l → P (x :: y :: z :: l)) → ∀ l, P l.
Proof.
  intros H0 H1 H2 H3. fix F 1. intros [|x [|y [|z l]]]; [exact H0|apply H1|apply H2|]. apply H3, F.
Qed.

#[local] Hint Resolve all_in_cons all_in_nil base64_digit_char : core.

Lemma base64_encode_chars s : all_in base64_char (base64_encode s).
Proof.
  induction s as [|x|x y|x y z s IH] using list_ind4; cbn [base64_encode]; repeat apply all_in_cons; auto;
    apply base64_digit_char; pose proof (byte_sextets x); try pose proof (byte_sextets y); try pose proof (byte_sextets z); lia.
Qed.

(** The bits of three bytes, split into sextets and joined again. *)
Lemma join_first x y : 0 ≤ y < 256 → x / 4 * 4 + (x mod 4 * 16 + y / 16) / 16 = x.
Proof. intros Hy. Z.to_euclidean_division_equations. lia. Qed.
Lemma join_second x y z : 0 ≤ z < 256 → 0 ≤ y < 256 → (x mod 4 * 16 + y / 16) mod 16 * 16 + (y mod 16 * 4 + z / 64) / 4 = y.
Proof. intros Hz Hy. Z.to_euclidean_division_equations. lia. Qed.
Lemma join_third y z : 0 ≤ z < 256 → (y mod 16 * 4 + z / 64) mod 4 * 64 + z mod 64 = z.
Proof. intros Hz. Z.to_euclidean_division_equations. lia. Qed.

Lemma base64_quanta_encode s : base64_quanta (base64_encode s) = Some s.
Proof.
  induction s as [|x|x y|x y z s IH] using list_ind4; cbn [base64_encode base64_quanta]; [done| | |];
    pose proof (byte_sextets x); try pose proof (byte_sextets y); try pose proof (byte_sextets z);
    pose proof (byte_range x); try pose proof (byte_range y); try pose proof (byte_range z);
    rewrite !base64_digit_value by lia; cbn [mbind option_bind].
  - pose proof (join_first (byte x) 0) as Hx. rewrite Z.add_0_r in Hx. rewrite Hx by lia. by rewrite byte_of_byte.
  - pose proof (join_second (byte x) (byte y) 0) as Hy. rewrite Z.add_0_r in Hy.
    rewrite (join_first (byte x) (byte y)), Hy by lia. by rewrite !byte_of_byte.
  - rewrite IH. cbn [mbind option_bind].
    rewrite (join_first (byte x) (byte y)), (join_second (byte x) (byte y) (byte z)), (join_third (byte y) (byte z)) by lia. by rewrite !byte_of_byte.
Qed.
Lemma base64_char_facts c : base64_char c = true →
  negb ((byte c =? 10) || (byte c =? 13)) = true ∧ is_alnum c || mem c "-_.~" = true ∧
  ((c ≡c ".") = false ∧ (c ≡c "&") = false ∧ (c ≡c ";") = false ∧ (c ≡c "=") = false ∧ (c ≡c "%") = false ∧ (c ≡c "+") = false).
Proof. revert c. intros [[] [] [] [] [] [] [] []]; vm_compute; intros; first [discriminate|by split_and!]. Qed.
Lemma base64_free c s : all_in base64_char s → (∀ d, base64_char d = true → (d ≡c c) = false) → free_of c s.
Proof. intros Hs Hd d Hin. by apply Hd, Hs. Qed.

(** What the encoder writes the decoder reads back. *)
Lemma base64_decode_encode s : base64_decode (base64_encode s) = Some s.
Proof.
  unfold base64_decode. rewrite filter_all_true; [apply base64_quanta_encode|].
  intros c Hc. by apply base64_char_facts, (base64_encode_chars s).
Qed.
Lemma base64_encode_empty s : base64_encode s = [] → s = [].
Proof. by destruct s as [|x [|y [|z s]]]. Qed.
Lemma base64_encode_length s : 3 * Z.of_nat (length (base64_encode s)) ≤ 4 * Z.of_nat (length s) + 4.
Proof. induction s as [|x|x y|x y z s IH] using list_ind4; cbn [base64_encode length] in *; lia. Qed.

(** ** Numbers *)

Lemma Itoa_nonneg v : 0 ≤ v → Itoa v = format_uint 20 v [].
Proof. intros Hv. unfold Itoa. by rewrite (proj2 (Z.ltb_ge _ _) Hv). Qed.
Lemma Itoa_digits v : 0 ≤ v → forallb is_digit (Itoa v) = true ∧ Itoa v ≠ [].
Proof. intros Hv. rewrite Itoa_nonneg by done. split; [by apply format_uint_digits|apply format_uint_nonempty; lia]. Qed.
Lemma Itoa_bound v : 0 ≤ v ≤ int64_max → 0 ≤ v < 10 ^ Z.of_nat 20.
Proof. intros Hv. assert (int64_max < 10 ^ Z.of_nat 20) by done. lia. Qed.
Lemma Itoa_shape v : 0 ≤ v ≤ int64_max →
  ∃ c t, Itoa v = c :: t ∧ forallb is_digit (c :: t) = true ∧ read_digits (c :: t) 0 = v ∧ (t = [] ∧ c = "0"%char ∨ (c ≡c "0") = false).
Proof.
  intros Hv. pose proof (Itoa_bound v Hv) as Hb. rewrite Itoa_nonneg by lia.
  assert (Hread : read_digits (format_uint 20 v []) 0 = v) by (by rewrite format_uint_read).
  destruct (Z.eq_dec v 0) as [->|Hne]; [exists "0"%char, []; split_and!; [reflexivity..|by left]|].
  destruct (format_uint_head 20 v []) as (c&t&Hf&Hc); [lia|].
  pose proof (format_uint_digits 20 v []) as Hd. rewrite Hf in *. exists c, t. split_and!; [done|apply Hd; [lia|done]|done|by right].
Qed.

Lemma Itoa_scan v : 0 ≤ v ≤ int64_max → scan_number (Itoa v) = Some (Itoa v, []) ∧ parse_int64 (Itoa v) = Some v.
Proof.
  intros Hv. destruct (Itoa_shape v Hv) as (c&t&->&Hd&Hread&Hc). pose proof Hd as Hdig.
  cbn [forallb] in Hd. apply andb_true_iff in Hd as [Hc0 Ht].
  assert (Hsign : scan_sign (c :: t) = ([], c :: t)) by (unfold scan_sign; by rewrite digit_no_minus).
  assert (Hint : scan_integer (c :: t) = Some (c :: t, [])).
  { unfold scan_integer. destruct Hc as [(->&->)|Hc]; [done|]. rewrite Hc, Hc0. by rewrite span_all_digits. }
  split.
  - unfold scan_number. rewrite Hsign, Hint. cbn. by rewrite app_nil_r.
  - unfold parse_int64. rewrite Hsign, decimal_digits, Hread by done. cbn [mbind option_bind].
    rewrite !(proj2 (Z.leb_le _ _)) by (unfold int64_min; lia). done.
Qed.
Lemma printable_number v : 0 ≤ v ≤ int64_max → printable (JNumber (Itoa v)) = true.
Proof. intros Hv. cbn [printable]. rewrite (proj1 (Itoa_scan v Hv)). by apply bytes_eqb_eq. Qed.
Lemma into_number v old : 0 ≤ v ≤ int64_max → into_int (JNumber (Itoa v)) old = Some v.
Proof. intros Hv. apply (Itoa_scan v Hv). Qed.
Lemma digit_no_plus c : is_digit c = true → (c ≡c "+") = false.
Proof. revert c. each_byte. Qed.
Lemma Atoi_Itoa v : 0 ≤ v ≤ int64_max → Atoi (Itoa v) = Some v.
Proof.
  intros Hv. destruct (Itoa_shape v Hv) as (c&t&->&Hd&Hread&_). pose proof Hd as Hdig.
  cbn [forallb] in Hd. apply andb_true_iff in Hd as [Hc0 Ht]. unfold Atoi. rewrite digit_no_minus by done.
  rewrite digit_no_plus by done. cbn [bytes_eqb]. rewrite decimal_digits, Hread by done. cbn [mbind option_bind].
  rewrite !Z.mul_1_l, !(proj2 (Z.leb_le _ _)) by (unfold int64_min; lia). done.
Qed.

(** ** Query strings of plain parameters *)

(** Bytes a query carries unescaped. *)
Definition plain_char (c : ascii) : bool := is_alnum c || mem c "-_.~".
Lemma plain_char_facts c : plain_char c = true →
  (c ≡c "&") = false ∧ (c ≡c ";") = false ∧ (c ≡c "=") = false ∧ (c ≡c "%") = false ∧ (c ≡c "+") = false ∧ (c ≡c " ") = false.
Proof. revert c. intros [[] [] [] [] [] [] [] []]; vm_compute; intros; first [discriminate|by split_and!]. Qed.
Lemma plain_free c s : all_in plain_char s → (∀ d, plain_char d = true → (d ≡c c) = false) → free_of c s.
Proof. intros Hs Hd d Hin. by apply Hd, Hs. Qed.
Lemma plain_unescape s : all_in plain_char s → query_unescape s = Some s.
Proof.
  induction s as [|c s IH]; intros Hs; [done|]. cbn [query_unescape].
  destruct (plain_char_facts c) as (_&_&_&->&->&_); [apply Hs; by left|]. rewrite IH; [done|]. intros d Hd. apply Hs. by right.
Qed.
Lemma plain_escape s : all_in plain_char s → query_escape s = s.
Proof.
  induction s as [|c s IH]; intros Hs; [done|]. unfold query_escape in *. cbn [flat_map].
  destruct (plain_char_facts c) as (_&_&_&_&_&->); [apply Hs; by left|].
  assert (Hc : plain_char c = true) by (apply Hs; by left). unfold plain_char in Hc. rewrite Hc. cbn [app]. f_equal. apply IH.
  intros d Hd. apply Hs. by right.
Qed.

Definition plain_parameter (p : bytes * bytes) : Prop := all_in plain_char p.1 ∧ all_in plain_char p.2 ∧ p.1 ≠ [].
Definition parameter_bytes (p : bytes * bytes) : bytes := p.1 ++ "="%char :: p.2.
Fixpoint query_bytes (l : list (bytes * bytes)) : bytes :=
  match l with [] => [] | [p] => parameter_bytes p | p :: l => parameter_bytes p ++ "&"%char :: query_bytes l end.
Definition values_of (l : list (bytes * bytes)) (values : Values) : Values :=
  fold_left (λ values p, <[str p.1 := default [] (values !! str p.1) ++ [str p.2]]> values) l values.

Lemma parameter_free p : plain_parameter p → free_of "&" (parameter_bytes p) ∧ free_of ";" (parameter_bytes p).
Proof.
  intros (Hk&Hv&_). unfold parameter_bytes.
  split; apply free_of_app; try (intros d [<-|Hd]; [done|revert d Hd]); apply plain_free; try done; intros d Hd; by apply plain_char_facts.
Qed.
Lemma add_plain values p : plain_parameter p → add_parameter values (parameter_bytes p) = Some (values_of [p] values).
Proof.
  intros Hp. destruct (parameter_free p Hp) as [_ Hsemi]. destruct Hp as (Hk&Hv&Hne). unfold add_parameter.
  rewrite contains_byte_free by done. destruct (bytes_eqb (parameter_bytes p) []) eqn:E.
  { apply bytes_eqb_eq in E. unfold parameter_bytes in E. by destruct p.1. }
  unfold parameter_bytes. rewrite cut_at by (apply plain_free; [done|]; intros d Hd; by apply plain_char_facts).
  rewrite !plain_unescape by done. done.
Qed.
Lemma split_query l : Forall plain_parameter l → split_on (query_bytes l) "&" = if l is [] then [[]] else map parameter_bytes l.
Proof.
  induction 1 as [|p l Hp Hl IH]; [done|]. destruct (parameter_free p Hp) as [Hamp _]. destruct l as [|q l].
  - cbn [query_bytes map]. by apply split_on_free.
  - change (query_bytes (p :: q :: l)) with (parameter_bytes p ++ "&"%char :: query_bytes (q :: l)). rewrite split_on_at by done. by rewrite IH.
Qed.
(** A query string of plain parameters is read back as they were written. *)
Lemma ParseQuery_plain l : Forall plain_parameter l → Z.of_nat (length l) ≤ maximumQueryParameters →
  ParseQuery (query_bytes l) = Some (values_of l ∅).
Proof.
  intros Hl Hlen. unfold ParseQuery. rewrite split_query by done. destruct l as [|p l]; [done|].
  rewrite length_map, (proj2 (Z.ltb_ge _ _)) by done. clear Hlen. generalize (∅ : Values). revert Hl. generalize (p :: l). clear p l.
  induction 1 as [|p l Hp Hl IH]; intros values; [done|]. cbn [map add_parameters].
  rewrite add_plain by done. cbn [mbind option_bind]. rewrite IH. done.
Qed.
