(* ===== verification/PublicCursor.v ===== *)
(** * PublicCursor: the signed cursors of the public HTTP listings

    [encodePublicListingCursor], [encodeDirectoryProjectionCursor] and their
    decoders in [internal/httpapi]: a JSON document, authenticated with
    HMAC-SHA256 under the handler's key, in two base64 parts.  The keyed hash is
    a parameter; its 32-byte output is the one law used. *)
From S2P Require Import Prelude GoNet Identity AddrText Canonical Text Json JsonFacts RequestFacts Requests ProfileNormal Directory WebText.
From Stdlib Require Import Ascii.
Local Open Scope string_scope.
Local Open Scope Z_scope.
Local Open Scope go_scope.
Local Open Scope list_scope.

(** HMAC-SHA256 under a key, and SHA-256. *)
Class PublicHashes := { hmac_sha256 : bytes → bytes → bytes; sum256 : bytes → bytes }.
Class PublicHashLaws `{PublicHashes} := { hmac_size key message : length (hmac_sha256 key message) = 32%nat }.

Definition publicListingMaxCursorSize : Z := 8192.
Definition publicListingCursorKeySize : Z := 32.
Definition sha256_Size : Z := 32.
Definition size_of (s : bytes) : Z := Z.of_nat (length s).

Section Sealing.
Context `{PublicHashes}.

(** The common end of both encoders and the common start of both decoders. *)
Definition seal (key raw : bytes) : option string :=
  if publicListingMaxCursorSize <? size_of raw then None
  else
    let encoded := base64_encode raw ++ "."%char :: base64_encode (hmac_sha256 key raw) in
    if publicListingMaxCursorSize <? size_of encoded then None else Some (str encoded).
Definition unseal (key value : bytes) : option bytes :=
  if bytes_eqb value [] || (publicListingMaxCursorSize <? size_of value) then None
  else
    match split_on value "." with
    | [first; second] =>
        if bytes_eqb first [] || bytes_eqb second [] then None
        else
          raw ← base64_decode first;
          if (size_of raw =? 0) || (publicListingMaxCursorSize <? size_of raw) then None
          else
            signature ← base64_decode second;
            if negb (size_of signature =? sha256_Size) then None
            else if negb (bytes_eqb signature (hmac_sha256 key raw)) then None else Some raw
    | _ => None
    end.
Definition key_ok (key : bytes) : bool := size_of key =? publicListingCursorKeySize.
End Sealing.

(** [decoder.Decode(&v)] with unknown fields disallowed, then the end of input *)
Definition decode_only {R} (fields : list (field R)) (raw : bytes) (zero : R) : option R :=
  document ← parse_document raw; into_struct fields document zero.
(** A [uint8] of a number literal *)
Definition into_uint8 : Decoder Z := λ j old,
  match j with
  | JNull => Some old
  | JNumber literal => v ← decimal_value 0 literal; if v <=? 255 then Some v else None
  | _ => None
  end.

(** ** The two cursors *)

Definition publicListingCursorVersion : Z := 1.
Definition directoryProjectionCursorVersion : Z := 2.

Record publicListingCursor := PublicListingCursor { plc_version : Z; plc_observed : Z; plc_last_seen : Z; plc_actor : string }.
Definition zero_listing_cursor : publicListingCursor := PublicListingCursor 0 0 0 "".
Definition publicListingCursor_fields : list (field publicListingCursor) :=
  [json_field "v" into_int plc_version (λ x c, PublicListingCursor x (plc_observed c) (plc_last_seen c) (plc_actor c));
   json_field "o" into_int plc_observed (λ x c, PublicListingCursor (plc_version c) x (plc_last_seen c) (plc_actor c));
   json_field "s" into_int plc_last_seen (λ x c, PublicListingCursor (plc_version c) (plc_observed c) x (plc_actor c));
   json_field "a" into_string plc_actor (λ x c, PublicListingCursor (plc_version c) (plc_observed c) (plc_last_seen c) x)].
Definition number (v : Z) : json := JNumber (Itoa v).
Definition publicListingCursor_json (c : publicListingCursor) : json :=
  JObject [(b "v", number (plc_version c)); (b "o", number (plc_observed c)); (b "s", number (plc_last_seen c)); (b "a", text (plc_actor c))].

Record directoryProjectionCursor := DirectoryProjectionCursorOf { dpc_version : Z; dpc_issued : Z; dpc_tier : Z; dpc_actor : string }.
Definition zero_projection_cursor : directoryProjectionCursor := DirectoryProjectionCursorOf 0 0 0 "".
Definition directoryProjectionCursor_fields : list (field directoryProjectionCursor) :=
  [json_field "v" into_int dpc_version (λ x c, DirectoryProjectionCursorOf x (dpc_issued c) (dpc_tier c) (dpc_actor c));
   json_field "i" into_int dpc_issued (λ x c, DirectoryProjectionCursorOf (dpc_version c) x (dpc_tier c) (dpc_actor c));
   json_field "t" into_uint8 dpc_tier (λ x c, DirectoryProjectionCursorOf (dpc_version c) (dpc_issued c) x (dpc_actor c));
   json_field "a" into_string dpc_actor (λ x c, DirectoryProjectionCursorOf (dpc_version c) (dpc_issued c) (dpc_tier c) x)].
Definition directoryProjectionCursor_json (c : directoryProjectionCursor) : json :=
  JObject [(b "v", number (dpc_version c)); (b "i", number (dpc_issued c)); (b "t", number (dpc_tier c)); (b "a", text (dpc_actor c))].

Section Cursors.
Context `{RelayIdentity} `{PublicHashes}.

Definition validPublicListingCursor (c : publicListingCursor) : bool :=
  negb (negb (plc_version c =? publicListingCursorVersion) || (plc_observed c <? 0) || (plc_last_seen c <? 0) ||
        (plc_observed c <? plc_last_seen c) || (plc_actor c ≟ "")) && canonical_actor (plc_actor c).
Definition encodePublicListingCursor (key : bytes) (c : publicListingCursor) : option string :=
  if negb (key_ok key) || negb (validPublicListingCursor c) then None else seal key (json_print (publicListingCursor_json c)).
Definition decodePublicListingCursor (key : bytes) (value : string) : option publicListingCursor :=
  if negb (key_ok key) then None
  else
    raw ← unseal key (b value);
    c ← decode_only publicListingCursor_fields raw zero_listing_cursor;
    if negb (validPublicListingCursor c) then None
    else
      match encodePublicListingCursor key c with
      | Some canonical => if canonical ≟ value then Some c else None
      | None => None
      end.

Definition validDirectoryProjectionCursor (c : directoryProjectionCursor) : bool :=
  negb (negb (dpc_version c =? directoryProjectionCursorVersion) || (dpc_issued c <? 0) ||
        negb (DirectoryTier_Valid (dpc_tier c)) || (dpc_actor c ≟ "")) && canonical_actor (dpc_actor c).
Definition encodeDirectoryProjectionCursor (key : bytes) (c : directoryProjectionCursor) : option string :=
  if negb (key_ok key) || negb (validDirectoryProjectionCursor c) then None else seal key (json_print (directoryProjectionCursor_json c)).
Definition decodeDirectoryProjectionCursor (key : bytes) (value : string) : option directoryProjectionCursor :=
  if negb (key_ok key) then None
  else
    raw ← unseal key (b value);
    c ← decode_only directoryProjectionCursor_fields raw zero_projection_cursor;
    if negb (validDirectoryProjectionCursor c) then None
    else
      match encodeDirectoryProjectionCursor key c with
      | Some canonical => if canonical ≟ value then Some c else None
      | None => None
      end.
End Cursors.

(** ** Round trips *)

Section Seals.
Context `{PublicHashes} `{!PublicHashLaws}.

Lemma unseal_seal key raw value : raw ≠ [] → seal key raw = Some value → unseal key (b value) = Some raw.
Proof.
  intros Hne. unfold seal, unseal. destruct (Z.ltb_spec publicListingMaxCursorSize (size_of raw)) as [|Hraw]; [done|].
  set (encoded := base64_encode raw ++ "."%char :: base64_encode (hmac_sha256 key raw)).
  destruct (Z.ltb_spec publicListingMaxCursorSize (size_of encoded)) as [|Henc]; [done|]. intros [= <-]. rewrite b_str.
  assert (Hfirst : bytes_eqb (base64_encode raw) [] = false).
  { apply not_true_iff_false. intros E%bytes_eqb_eq. by apply base64_encode_empty in E. }
  assert (Hsecond : bytes_eqb (base64_encode (hmac_sha256 key raw)) [] = false).
  { apply not_true_iff_false. intros E%bytes_eqb_eq%base64_encode_empty. pose proof (hmac_size key raw) as Hs. by rewrite E in Hs. }
  assert (Hvalue : bytes_eqb encoded [] = false).
  { apply not_true_iff_false. intros E%bytes_eqb_eq. unfold encoded in E. by destruct (base64_encode raw). }
  rewrite Hvalue, (proj2 (Z.ltb_ge _ _) Henc). cbn [orb]. unfold encoded.
  assert (Hdot : ∀ s, free_of "." (base64_encode s)).
  { intros s. apply base64_free; [apply base64_encode_chars|]. intros d Hd. by apply base64_char_facts. }
  rewrite split_on_at, split_on_free by done. rewrite Hfirst, Hsecond, !base64_decode_encode. cbn [orb mbind option_bind].
  rewrite (proj2 (Z.eqb_neq (size_of raw) 0)) by (unfold size_of; destruct raw; [done|simpl; lia]). rewrite (proj2 (Z.ltb_ge _ _) Hraw). cbn [orb].
  unfold size_of at 1. rewrite hmac_size. change (negb (Z.of_nat 32 =? sha256_Size)) with false. cbv iota.
  by rewrite (proj2 (bytes_eqb_eq _ _) eq_refl).
Qed.

(** Only sealed bytes are unsealed. *)
Lemma seal_characters key raw value : seal key raw = Some value → all_in plain_char (b value) ∧ value ≠ "".
Proof.
  unfold seal. destruct (_ <? _); [done|]. cbv zeta. destruct (_ <? _); [done|]. intros [= <-]. rewrite b_str. split.
  - assert (Hp : ∀ s, all_in plain_char (base64_encode s)).
    { intros s c Hc. apply base64_encode_chars in Hc. by destruct (base64_char_facts c Hc) as (_&?&_). }
    apply all_in_app; [done|]. apply all_in_cons; [done|done].
  - intros E. apply (f_equal b) in E. rewrite b_str in E. by destruct (base64_encode raw).
Qed.
End Seals.

Lemma json_object_nonempty members : json_print (JObject members) ≠ [].
Proof. done. Qed.

Section CursorRoundTrips.
Context `{RelayIdentity} `{!CanonicalURLs} `{PublicHashes} `{!PublicHashLaws}.

Lemma canonical_actor_utf8 a : canonical_actor a = true → valid_utf8 (b a) = true.
Proof.
  unfold canonical_actor. destruct (norm_actor a) as [a'|] eqn:E; [|done]. intros ->%String.eqb_eq.
  by apply url_plain, (norm_actor_chars a a).
Qed.

(** Cursors hold [int64] times. *)
Definition listing_cursor_fits (c : publicListingCursor) : Prop := plc_observed c ≤ int64_max.
Definition projection_cursor_fits (c : directoryProjectionCursor) : Prop := dpc_issued c ≤ int64_max.

Lemma listing_cursor_bounds c : validPublicListingCursor c = true → listing_cursor_fits c →
  plc_version c = 1 ∧ 0 ≤ plc_observed c ≤ int64_max ∧ 0 ≤ plc_last_seen c ≤ int64_max ∧ valid_utf8 (b (plc_actor c)) = true.
Proof.
  unfold validPublicListingCursor, listing_cursor_fits, publicListingCursorVersion. intros [Hv Hc]%andb_true_iff Hf.
  rewrite negb_true_iff, !orb_false_iff, negb_false_iff in Hv. destruct Hv as [[[[Hv Ho] Hl] Hle] _].
  split_and!; [lia..|by apply canonical_actor_utf8].
Qed.

Lemma number_printable v : 0 ≤ v ≤ int64_max → printable (number v) = true.
Proof. apply printable_number. Qed.
Lemma into_int_number v old : 0 ≤ v ≤ int64_max → into_int (number v) old = Some v.
Proof. apply into_number. Qed.
Lemma into_uint8_number v old : 0 ≤ v ≤ 255 → into_uint8 (number v) old = Some v.
Proof.
  intros Hv. unfold number, into_uint8. assert (Hm : 0 ≤ v ≤ int64_max) by (unfold int64_max; lia).
  destruct (Itoa_shape v Hm) as (c&t&->&Hd&Hread&_). rewrite decimal_digits, Hread by done. cbn [mbind option_bind].
  by rewrite (proj2 (Z.leb_le _ _)) by lia.
Qed.

Ltac read_member lemma :=
  eapply eq_trans; [eapply into_members_step; [reflexivity|]; cbn [json_field snd]; rewrite lemma; [cbn [mbind option_bind]; reflexivity|..]|].

Lemma listing_document c : validPublicListingCursor c = true → listing_cursor_fits c →
  decode_only publicListingCursor_fields (json_print (publicListingCursor_json c)) zero_listing_cursor = Some c.
Proof.
  intros Hv Hf. destruct (listing_cursor_bounds c Hv Hf) as (Hver&Ho&Hl&Hu).
  assert (Hvi : 0 ≤ plc_version c ≤ int64_max) by (rewrite Hver; done).
  unfold decode_only. rewrite parse_print; [| |done].
  2:{ unfold publicListingCursor_json. cbn [printable forallb fst snd]. rewrite !number_printable by done. cbn [printable text]. by rewrite Hu. }
  cbn [mbind option_bind]. unfold publicListingCursor_json. rewrite into_object.
  do 3 (read_member into_int_number; [done|]).
  eapply eq_trans; [eapply into_members_step; [reflexivity|]; cbn [json_field snd]; rewrite into_text; cbn [mbind option_bind]; reflexivity|].
  by destruct c.
Qed.

Lemma projection_cursor_bounds c : validDirectoryProjectionCursor c = true → projection_cursor_fits c →
  dpc_version c = 2 ∧ 0 ≤ dpc_issued c ≤ int64_max ∧ 1 ≤ dpc_tier c ≤ 4 ∧ valid_utf8 (b (dpc_actor c)) = true.
Proof.
  unfold validDirectoryProjectionCursor, projection_cursor_fits, directoryProjectionCursorVersion, DirectoryTier_Valid,
    DirectoryTierHeartbeatOnline, DirectoryTierGraveyard. intros [Hv Hc]%andb_true_iff Hf.
  rewrite negb_true_iff, !orb_false_iff, !negb_false_iff, andb_true_iff in Hv. destruct Hv as [[[Hv Ho] [Ht1 Ht2]] _].
  split_and!; [lia..|by apply canonical_actor_utf8].
Qed.

Lemma projection_document c : validDirectoryProjectionCursor c = true → projection_cursor_fits c →
  decode_only directoryProjectionCursor_fields (json_print (directoryProjectionCursor_json c)) zero_projection_cursor = Some c.
Proof.
  intros Hv Hf. destruct (projection_cursor_bounds c Hv Hf) as (Hver&Ho&Ht&Hu).
  assert (Hvi : 0 ≤ dpc_version c ≤ int64_max) by (rewrite Hver; done).
  assert (Hti : 0 ≤ dpc_tier c ≤ int64_max) by (unfold int64_max; lia). assert (Htb : 0 ≤ dpc_tier c ≤ 255) by lia.
  unfold decode_only. rewrite parse_print; [| |done].
  2:{ unfold directoryProjectionCursor_json. cbn [printable forallb fst snd]. rewrite !number_printable by done. cbn [printable text]. by rewrite Hu. }
  cbn [mbind option_bind]. unfold directoryProjectionCursor_json. rewrite into_object.
  do 2 (read_member into_int_number; [done|]). read_member into_uint8_number; [done|].
  eapply eq_trans; [eapply into_members_step; [reflexivity|]; cbn [json_field snd]; rewrite into_text; cbn [mbind option_bind]; reflexivity|].
  by destruct c.
Qed.

(** Whatever a decoder returns, it was sealed under the same key. *)
Lemma decode_listing_sealed key value c : decodePublicListingCursor key value = Some c → encodePublicListingCursor key c = Some value.
Proof.
  unfold decodePublicListingCursor. destruct (negb (key_ok key)); [done|].
  destruct (unseal key (b value)) as [raw|]; cbn [mbind option_bind]; [|done].
  destruct (decode_only _ raw _) as [c'|]; cbn [mbind option_bind]; [|done]. destruct (negb (validPublicListingCursor c')); [done|].
  destruct (encodePublicListingCursor key c') as [canonical|] eqn:E; [|done]. destruct (String.eqb_spec canonical value); [|done]. intros [= <-]. congruence.
Qed.
Lemma decode_projection_sealed key value c : decodeDirectoryProjectionCursor key value = Some c → encodeDirectoryProjectionCursor key c = Some value.
Proof.
  unfold decodeDirectoryProjectionCursor. destruct (negb (key_ok key)); [done|].
  destruct (unseal key (b value)) as [raw|]; cbn [mbind option_bind]; [|done].
  destruct (decode_only _ raw _) as [c'|]; cbn [mbind option_bind]; [|done]. destruct (negb (validDirectoryProjectionCursor c')); [done|].
  destruct (encodeDirectoryProjectionCursor key c') as [canonical|] eqn:E; [|done]. destruct (String.eqb_spec canonical value); [|done]. intros [= <-]. congruence.
Qed.
Lemma encode_listing_decoded key value c : listing_cursor_fits c →
  encodePublicListingCursor key c = Some value → decodePublicListingCursor key value = Some c.
Proof.
  intros Hf He. pose proof He as Hseal. unfold encodePublicListingCursor in Hseal. unfold decodePublicListingCursor.
  destruct (key_ok key); cbn [negb orb] in *; [|done]. destruct (validPublicListingCursor c) eqn:Hv; cbn [negb] in Hseal; [|done].
  rewrite (unseal_seal key (json_print (publicListingCursor_json c)) value (json_object_nonempty _) Hseal). cbn [mbind option_bind]. rewrite listing_document by done.
  cbn [mbind option_bind]. rewrite Hv, He, String.eqb_refl. done.
Qed.
Lemma encode_projection_decoded key value c : projection_cursor_fits c →
  encodeDirectoryProjectionCursor key c = Some value → decodeDirectoryProjectionCursor key value = Some c.
Proof.
  intros Hf He. pose proof He as Hseal. unfold encodeDirectoryProjectionCursor in Hseal. unfold decodeDirectoryProjectionCursor.
  destruct (key_ok key); cbn [negb orb] in *; [|done]. destruct (validDirectoryProjectionCursor c) eqn:Hv; cbn [negb] in Hseal; [|done].
  rewrite (unseal_seal key (json_print (directoryProjectionCursor_json c)) value (json_object_nonempty _) Hseal). cbn [mbind option_bind]. rewrite projection_document by done.
  cbn [mbind option_bind]. rewrite Hv, He, String.eqb_refl. done.
Qed.

(** C35: Cursors cannot be forged or mangled: for a cursor with [int64] times, the
    decoder of either listing returns it exactly for the one string the encoder
    writes for it under the same key, so every other string, whatever its JSON or
    base64, is refused. *)
Theorem cursor_roundtrip key value :
  (∀ c, listing_cursor_fits c → decodePublicListingCursor key value = Some c ↔ encodePublicListingCursor key c = Some value) ∧
  (∀ c, projection_cursor_fits c → decodeDirectoryProjectionCursor key value = Some c ↔ encodeDirectoryProjectionCursor key c = Some value).
Proof.
  split; intros c Hf; split; first [apply decode_listing_sealed|apply decode_projection_sealed|by apply encode_listing_decoded|by apply encode_projection_decoded].
Qed.
End CursorRoundTrips.
