(* ===== verification/PublicApi.v ===== *)
(** * PublicApi: the public HTTP listings

    [internal/httpapi/public_listing.go] and [directory_projection.go]: query
    parsing, the bounded loads with their re-validation of every row, the signed
    continuation, the JSON documents and the cacheable representation.  [busy] is
    the number of tokens taken from the handler's semaphore when the request
    arrives; a request is otherwise a pure read of the database.  The five-minute
    read timeouts are among the driver's outcomes of the call. *)
From S2P Require Import Prelude GoNet Identity Text Json JsonFacts RequestFacts Canonical Vocabulary Store Session Repository Reachability Paging Health Telemetry Profile ProfileFacts Directory WebText PublicCursor.
From Stdlib Require Import Ascii.
Local Open Scope string_scope.
Local Open Scope Z_scope.
Local Open Scope go_scope.
Local Open Scope list_scope.

(** ** Handlers and failures *)

Definition publicListingSchemaVersion : Z := 1.
Definition directoryProjectionSchemaVersion : Z := 6.
Definition publicListingCursorMaxAge : Z := 5 * minute.
Definition publicListingConcurrency : Z := 16.
Definition DefaultPublicListingPage : Z := 50.
Definition DefaultDirectoryProjectionPage : Z := 50.
Definition StatusOK : Z := 200.
Definition StatusNotModified : Z := 304.
Definition StatusBadRequest : Z := 400.
Definition StatusMethodNotAllowed : Z := 405.
Definition StatusTooManyRequests : Z := 429.
Definition StatusServiceUnavailable : Z := 503.

(** A handler as its constructor leaves it: every dependency is present. *)
Record PublicListingHandler := PublicListingHandlerOf { cursorKey : bytes; maximumConcurrent : Z }.
(** [newPublicListingHandler]; [random] is what [rand.Read] fills the key with. *)
Definition newPublicListingHandler (repository now directoryRepository summaryRepository renderer : bool) (random : option bytes)
    (maximumConcurrent : Z) : option PublicListingHandler :=
  if negb repository || negb now || (maximumConcurrent <=? 0) || (1024 <? maximumConcurrent) then None
  else if negb directoryRepository then None else if negb summaryRepository then None
  else
    match random with
    | None => None
    | Some key => if negb renderer then None else Some (PublicListingHandlerOf key maximumConcurrent)
    end.
Definition NewPublicListingHandler (repository now directoryRepository summaryRepository renderer : bool) (random : option bytes) :=
  newPublicListingHandler repository now directoryRepository summaryRepository renderer random publicListingConcurrency.

Record publicListingFailure := PublicListingFailure {
  failure_status : Z; failure_code : string; failure_message : string; failure_retryAfter : string }.
Definition unavailable (what : string) : publicListingFailure :=
  PublicListingFailure StatusServiceUnavailable "temporarily_unavailable" (String.append what " temporarily unavailable") "".
Definition rate_limited (what : string) : publicListingFailure :=
  PublicListingFailure StatusTooManyRequests "rate_limited" (String.append what " request limit exceeded") "1".
Definition invalid_request (what : string) : publicListingFailure :=
  PublicListingFailure StatusBadRequest "invalid_request" (String.append "invalid " (String.append what " request")) "".

(** [select { case handler.semaphore <- struct{}{}: ... default: ... }] *)
Definition admits (h : PublicListingHandler) (busy : Z) : bool := busy <? maximumConcurrent h.

(** ** Queries *)

(** Every key is allowed and given once. *)
Definition single_values (allowed : string → bool) (values : Values) : bool :=
  forallb (λ entry : string * list string, allowed entry.1 && (length entry.2 =? 1)%nat) (map_to_list values).
Definition first_value (values : Values) (key : string) : option string := values !! key ≫= head.
Definition parse_limit (maximum : Z) (raw : string) : option Z :=
  match Atoi (b raw) with
  | Some limit => if (limit <? 1) || (maximum <? limit) || negb (bytes_eqb (Itoa limit) (b raw)) then None else Some limit
  | None => None
  end.
(** A cursor's time is at most now and at most five minutes old. *)
Definition current_cursor_time (issuedUnix nowUnix : Z) : bool :=
  negb ((nowUnix <? issuedUnix) || (seconds_of publicListingCursorMaxAge <? int64_sub nowUnix issuedUnix)).

Record publicListingQuery := PublicListingQuery { plq_limit : Z; plq_after : health_cursor; plq_observed : Z; plq_current : string }.
Record directoryProjectionQuery := DirectoryProjectionQueryOf {
  dpq_limit : Z; dpq_registration : string; dpq_after : directory_cursor; dpq_before : directory_cursor;
  dpq_observed : Z; dpq_issued : Z; dpq_current : string }.
Definition with_limit (limit : Z) (q : directoryProjectionQuery) : directoryProjectionQuery :=
  DirectoryProjectionQueryOf limit (dpq_registration q) (dpq_after q) (dpq_before q) (dpq_observed q) (dpq_issued q) (dpq_current q).

Section Queries.
Context `{RelayIdentity} `{PublicHashes}.

Definition parsePublicListingQuery (key : bytes) (rawQuery : bytes) (now : Z) : option publicListingQuery :=
  values ← ParseQuery rawQuery;
  if negb (single_values (λ k, one_of ["limit"; "cursor"] k) values) then None
  else
    limit ← match first_value values "limit" with
            | Some raw => parse_limit MaximumPublicListingPage raw
            | None => Some DefaultPublicListingPage
            end;
    if unix_of now <? 0 then None
    else
      match first_value values "cursor" with
      | None => Some (PublicListingQuery limit health_start now "")
      | Some value =>
          cursor ← decodePublicListingCursor key value;
          if current_cursor_time (plc_observed cursor) (unix_of now)
          then Some (PublicListingQuery limit (HealthCursor (plc_last_seen cursor) (plc_actor cursor)) (time_of_unix (plc_observed cursor)) value)
          else None
      end.

Definition decode_current (key : bytes) (nowUnix : Z) (value : string) : option directoryProjectionCursor :=
  cursor ← decodeDirectoryProjectionCursor key value;
  if current_cursor_time (dpc_issued cursor) nowUnix then Some cursor else None.
Definition projection_position (c : directoryProjectionCursor) : directory_cursor := DirectoryCursor (dpc_tier c) (dpc_actor c).

Definition parseDirectoryProjectionQueryMode (key : bytes) (rawQuery : bytes) (now : Z) (allowBefore : bool) : option directoryProjectionQuery :=
  values ← ParseQuery rawQuery;
  if negb (single_values (λ k, one_of ["limit"; "cursor"] k || (allowBefore && one_of ["before"; "registration"] k)) values) then None
  else if not_null (values !! "cursor") && not_null (values !! "before") then None
  else
    registration ← match first_value values "registration" with
                   | Some value => if one_of ["open"; "restricted"; "closed"] value then Some value else None
                   | None => Some ""
                   end;
    limit ← match first_value values "limit" with
            | Some raw => parse_limit MaximumDirectoryProjectionPage raw
            | None => Some DefaultDirectoryProjectionPage
            end;
    let nowUnix := unix_of now in
    if nowUnix <? 0 then None
    else
      let start := DirectoryProjectionQueryOf limit registration directory_start directory_start now nowUnix "" in
      q ← match first_value values "cursor" with
          | None => Some start
          | Some value =>
              cursor ← decode_current key nowUnix value;
              Some (DirectoryProjectionQueryOf limit registration (projection_position cursor) directory_start now (dpc_issued cursor) value)
          end;
      match first_value values "before" with
      | None => Some q
      | Some value =>
          cursor ← decode_current key nowUnix value;
          Some (DirectoryProjectionQueryOf limit registration (dpq_after q) (projection_position cursor) now (dpc_issued cursor) (dpq_current q))
      end.
Definition parseDirectoryProjectionQuery (key rawQuery : bytes) (now : Z) := parseDirectoryProjectionQueryMode key rawQuery now false.
Definition parseHumanDirectoryProjectionQuery (key rawQuery : bytes) (now : Z) : option directoryProjectionQuery :=
  q ← parseDirectoryProjectionQueryMode key rawQuery now true;
  match ParseQuery rawQuery ≫= (λ values, values !! "limit") with
  | Some _ => Some q
  | None => Some (with_limit MaximumDirectoryProjectionPage q)
  end.
End Queries.

(** ** Presented relays *)

Record directoryProbeDiagnostic := DirectoryProbeDiagnostic {
  probe_stage : string; probe_code : string; probe_HTTPStatus : Z; probe_assessment : string }.

Definition diagnosticAssessment (stage code : string) (status : Z) : string :=
  if (stage ≟ "dns") && one_of ["nxdomain"; "no_address"] code then "possibly_removed"
  else if (stage ≟ "actor") && ((status =? 404) || (status =? 410)) then "possibly_removed"
  else if (stage ≟ "inbox") && ((status =? 404) || (status =? 410)) then "inbox_missing"
  else if (stage ≟ "inbox") && ((status =? 405) || (status =? 501)) then "method_rejected"
  else if (stage ≟ "inbox") && ((status =? 401) || (status =? 403)) then "restricted"
  else if (stage ≟ "inbox") && (200 <=? status) && (status <? 400) then "responsive"
  else if (stage ≟ "actor") && one_of ["invalid_document"; "content_type"] code then "invalid_actor"
  else if ((stage ≟ "actor") && (500 <=? status)) || ((stage ≟ "inbox") && (500 <=? status)) ||
          one_of ["tls"; "connect"; "network"] stage || ((stage ≟ "dns") && one_of ["timeout"; "temporary"] code)
  then "degraded"
  else "unavailable".
Definition presentProbeDiagnostic (g : diagnostic) : option directoryProbeDiagnostic :=
  if diag_stage g ≟ "" then None
  else Some (DirectoryProbeDiagnostic (diag_stage g) (diag_code g) (diag_http_status g)
               (diagnosticAssessment (diag_stage g) (diag_code g) (diag_http_status g))).

Definition with_status (before : string) (status : Z) (after : string) : string :=
  String.append before (String.append (str (Itoa status)) after).
(** [directoryProbeDiagnostic.Summary] *)
Definition Summary (diagnostic : option directoryProbeDiagnostic) : string :=
  match diagnostic with
  | None => "No check recorded."
  | Some g =>
      let found s c := (probe_stage g ≟ s) && (probe_code g ≟ c) in
      let status := probe_HTTPStatus g in
      let answered s n := (probe_stage g ≟ s) && (status =? n) in
      if found "dns" "nxdomain" then "Could not find a DNS address for this relay."
      else if found "dns" "no_address" then "No usable DNS address was found for this relay."
      else if found "dns" "temporary" then "DNS lookup temporarily unavailable."
      else if found "dns" "timeout" then "DNS lookup timed out."
      else if found "dns" "policy" then "The DNS address did not pass security checks."
      else if found "dns" "error" then "DNS lookup failed."
      else if found "connect" "refused" then "The server refused the connection."
      else if found "connect" "timeout" then "The connection timed out."
      else if found "connect" "failed" then "Could not connect to the server."
      else if found "tls" "certificate" then "Connected to the server, but its HTTPS certificate could not be verified (TLS error)."
      else if found "tls" "handshake" then "Connected to the server, but a secure HTTPS connection could not be established (TLS error)."
      else if found "redirect" "rejected" then "Could not safely follow the ActivityPub Actor address redirect."
      else if found "policy" "prohibited_target" then "The ActivityPub address could not be checked safely."
      else if answered "actor" 404 then "ActivityPub Actor address was not found (HTTP 404)."
      else if answered "actor" 410 then "ActivityPub Actor address is no longer available (HTTP 410)."
      else if (probe_stage g ≟ "actor") && (500 <=? status) then with_status "ActivityPub Actor server reported an error (HTTP " status ")."
      else if (probe_stage g ≟ "actor") && negb (status =? 0) then with_status "ActivityPub Actor check returned HTTP " status "."
      else if found "actor" "content_type" then "ActivityPub Actor information was returned in an unsupported format."
      else if found "actor" "invalid_document" then "ActivityPub Actor information could not be validated."
      else if found "actor" "invalid_response" then "ActivityPub Actor server returned an invalid response."
      else if answered "inbox" 404 then "ActivityPub Inbox address was not found (HTTP 404)."
      else if answered "inbox" 410 then "ActivityPub Inbox address is no longer available (HTTP 410)."
      else if answered "inbox" 405 then "ActivityPub Inbox does not support this check (HTTP 405)."
      else if answered "inbox" 501 then "ActivityPub Inbox does not implement this check (HTTP 501)."
      else if answered "inbox" 401 || answered "inbox" 403 then with_status "ActivityPub Inbox declined the check (HTTP " status ")."
      else if (probe_stage g ≟ "inbox") && (200 <=? status) && (status <? 400)
      then with_status "ActivityPub Inbox responded to the check (HTTP " status ")."
      else if (probe_stage g ≟ "inbox") && (500 <=? status) then with_status "ActivityPub Inbox server reported an error (HTTP " status ")."
      else if (probe_stage g ≟ "inbox") && negb (status =? 0) then with_status "ActivityPub Inbox check returned HTTP " status "."
      else if found "inbox" "invalid_response" then "ActivityPub Inbox server returned an invalid response."
      else if found "network" "timeout" then "Network request timed out."
      else if found "network" "error" then "Network connection failed."
      else "The check could not be completed."
  end.

Definition formatProjectionUnix (value : option Z) : option string := (λ v, str (rfc3339 v)) <$> value.

Record directoryProjectionRelay := DirectoryProjectionRelayOf {
  shown_actor : string; shown_base : string; shown_tier : Z; shown_profile : profile;
  shown_receiving : option Z; shown_reported : option string; shown_sites : option Z; shown_sites_reported : option string;
  shown_heartbeat : string; shown_last_seen : option string;
  shown_state : string; shown_last_checked : option string; shown_last_success : option string;
  shown_diagnostic : option directoryProbeDiagnostic; shown_next_eligible : option string;
  shown_inbox : option string; shown_declared : option string; shown_probe : string; shown_inbox_checked : option string;
  shown_inbox_diagnostic : option directoryProbeDiagnostic;
  shown_rfc9421 : string; shown_verified : option string }.

Section Present.
Context `{RelayIdentity}.

(** The profile's lists are copied; the copy of an empty list is empty, not null. *)
Definition presentDirectoryProjectionRelay (relay : directory_relay) : directoryProjectionRelay :=
  let sites := match DirParticipatingCount relay with
               | Some _ => (DirParticipatingCount relay, ParticipatingReportedUnix relay)
               | None => (DirReceivingCount relay, TelemetryReportedUnix relay)
               end in {|
  shown_actor := RelayActor relay; shown_base := PublicBaseURL relay; shown_tier := Tier relay; shown_profile := Directory.Profile relay;
  shown_receiving := DirReceivingCount relay; shown_reported := formatProjectionUnix (TelemetryReportedUnix relay);
  shown_sites := sites.1; shown_sites_reported := formatProjectionUnix sites.2;
  shown_heartbeat := HeartbeatState relay; shown_last_seen := formatProjectionUnix (LastHeartbeatUnix relay);
  shown_state := ActorState relay; shown_last_checked := formatProjectionUnix (DirActorLastChecked relay);
  shown_last_success := formatProjectionUnix (ActorLastSuccessUnix relay);
  shown_diagnostic := presentProbeDiagnostic (ActorDiagnostic relay); shown_next_eligible := formatProjectionUnix (NextReachabilityCheckUnix relay);
  shown_inbox := if InboxURL relay ≟ "" then None else Some (InboxURL relay);
  shown_declared := formatProjectionUnix (InboxDeclaredUnix relay); shown_probe := DirInboxProbeState relay;
  shown_inbox_checked := formatProjectionUnix (InboxLastCheckedUnix relay);
  shown_inbox_diagnostic := presentProbeDiagnostic (InboxDiagnostic relay);
  shown_rfc9421 := match RFC9421VerifiedUnix relay with Some _ => "verified" | None => "not verified" end;
  shown_verified := formatProjectionUnix (RFC9421VerifiedUnix relay) |}.
End Present.

(** ** Loads *)

Record publicListingRelay := PublicListingRelayOf { plr_actor : string; plr_base : string; plr_health : string; plr_last_seen : string }.
Record publicListingResponse := PublicListingResponseOf {
  plp_relays : list publicListingRelay; plp_limit : Z; plp_next : string; plp_current : string }.
Record directoryProjectionResponse := DirectoryProjectionResponseOf {
  dpp_relays : list directoryProjectionRelay; dpp_limit : Z; dpp_next : string; dpp_current : string; dpp_previous : string; dpp_observed : Z }.

Definition directoryProjectionCursorLess (left right : directory_cursor) : bool :=
  if negb (cursor_tier left =? cursor_tier right) then cursor_tier left <? cursor_tier right
  else key_ltb (cursor_actor left) (cursor_actor right).
Definition started (c : directory_cursor) : bool := negb (directory_cursor_eqb c directory_start).

Section Loads.
Context `{RelayIdentity} `{PublicHashes}.

(** A listed relay is shown only as the classification of this request has it. *)
Definition presentListingRelay (observedUnix : Z) (relay : health_relay) : option publicListingRelay :=
  match ClassifyHealth (HealthLastSeenUnix relay) observedUnix with
  | Ok expected =>
      if canonical_identity (HealthRelayActor relay) (HealthPublicBaseURL relay) && (expected ≟ HealthState relay) && PublicEligible relay
      then Some (PublicListingRelayOf (HealthRelayActor relay) (HealthPublicBaseURL relay) (HealthState relay)
                   (str (rfc3339 (HealthLastSeenUnix relay))))
      else None
  | Err _ => None
  end.

Definition loadPublicListing (handler : option PublicListingHandler) (busy : Z) (c : call) (rawQuery : bytes) (now : Z) (d : db)
    : result publicListingFailure publicListingResponse :=
  match handler with
  | None => Err (unavailable "public listing")
  | Some h =>
      if negb (key_ok (cursorKey h)) then Err (unavailable "public listing")
      else if negb (admits h busy) then Err (rate_limited "public listing")
      else
        match parsePublicListingQuery (cursorKey h) rawQuery now with
        | None => Err (invalid_request "public listing")
        | Some parsed =>
            match ListPublicRelays c (HealthQuery (plq_after parsed) (plq_limit parsed) (plq_observed parsed)) d with
            | Err _ => Err (unavailable "public listing")
            | Ok page =>
                match mapM (presentListingRelay (unix_of (plq_observed parsed))) (health_relays page) with
                | None => Err (unavailable "public listing")
                | Some relays =>
                    let finish next := Ok (PublicListingResponseOf relays (plq_limit parsed) next (plq_current parsed)) in
                    if health_cursor_eqb (health_next page) health_start then finish ""
                    else
                      match encodePublicListingCursor (cursorKey h)
                              (PublicListingCursor publicListingCursorVersion (unix_of (plq_observed parsed))
                                 (health_last_seen (health_next page)) (health_actor (health_next page))) with
                      | Some cursor => finish cursor
                      | None => Err (unavailable "public listing")
                      end
                end
            end
        end
  end.

(** The loop over the page: valid rows, in order, strictly between the cursors. *)
Fixpoint present_rows (observedUnix : Z) (after before previous : directory_cursor) (relays : list directory_relay)
    : option (list directoryProjectionRelay) :=
  match relays with
  | [] => Some []
  | relay :: relays =>
      let current := relay_cursor relay in
      if negb (ValidateDirectoryProjectionRelay relay observedUnix) ||
         (started previous && negb (directoryProjectionCursorLess previous current)) ||
         (started after && negb (directoryProjectionCursorLess after current)) ||
         (started before && negb (directoryProjectionCursorLess current before))
      then None
      else rest ← present_rows observedUnix after before current relays; Some (presentDirectoryProjectionRelay relay :: rest)
  end.

(** What the handler requires of the two continuations of a page. *)
Definition previous_ok (after before first previous : directory_cursor) (nonempty : bool) : bool :=
  negb (negb (directory_cursor_valid previous) || (negb (started after) && negb (started before)) ||
        (started after && directoryProjectionCursorLess previous after) ||
        (started before && negb (directoryProjectionCursorLess previous before)) ||
        (nonempty && directoryProjectionCursorLess first previous)).
Definition next_ok (after before last previous next : directory_cursor) (nonempty : bool) : bool :=
  negb (negb (directory_cursor_valid next) || (started after && negb (directoryProjectionCursorLess after next)) ||
        (started before && negb (directoryProjectionCursorLess next before)) ||
        (nonempty && directoryProjectionCursorLess next last) ||
        (started previous && directoryProjectionCursorLess next previous)).
(** An absent continuation is the empty string. *)
Definition continuation_cursor (key : bytes) (issued : Z) (position : directory_cursor) (ok : bool) : option string :=
  if negb (started position) then Some ""
  else if negb ok then None
  else encodeDirectoryProjectionCursor key
         (DirectoryProjectionCursorOf directoryProjectionCursorVersion issued (cursor_tier position) (cursor_actor position)).

Definition page_first (relays : list directory_relay) : directory_cursor :=
  match relays with r :: _ => relay_cursor r | [] => directory_start end.
Definition page_last (relays : list directory_relay) : directory_cursor :=
  match list.last relays with Some r => relay_cursor r | None => directory_start end.
Definition present_page (key : bytes) (parsed : directoryProjectionQuery) (page : directory_page) : option directoryProjectionResponse :=
  let relays := page_relays page in
  if dpq_limit parsed <? Z.of_nat (length relays) then None
  else
    rows ← present_rows (unix_of (dpq_observed parsed)) (dpq_after parsed) (dpq_before parsed) directory_start relays;
    let nonempty := negb (length relays =? 0)%nat in
    previous ← continuation_cursor key (dpq_issued parsed) (page_previous page)
                 (previous_ok (dpq_after parsed) (dpq_before parsed) (page_first relays) (page_previous page) nonempty);
    next ← continuation_cursor key (dpq_issued parsed) (page_next page)
             (next_ok (dpq_after parsed) (dpq_before parsed) (page_last relays) (page_previous page) (page_next page) nonempty);
    Some (DirectoryProjectionResponseOf rows (dpq_limit parsed) next (dpq_current parsed) previous (dpq_observed parsed)).

Definition loadDirectoryProjectionWithParser (parse : bytes → bytes → Z → option directoryProjectionQuery)
    (handler : option PublicListingHandler) (busy : Z) (c : call) (rawQuery : bytes) (now : Z) (x : extras) (d : db)
    : result publicListingFailure directoryProjectionResponse :=
  match handler with
  | None => Err (unavailable "directory projection")
  | Some h =>
      if negb (key_ok (cursorKey h)) then Err (unavailable "directory projection")
      else if negb (admits h busy) then Err (rate_limited "directory projection")
      else
        match parse (cursorKey h) rawQuery now with
        | None => Err (invalid_request "directory projection")
        | Some parsed =>
            match ListDirectoryRelays c x (DirectoryQuery (dpq_after parsed) (dpq_before parsed) (dpq_limit parsed) (dpq_observed parsed)) d with
            | Err _ => Err (unavailable "directory projection")
            | Ok page =>
                match present_page (cursorKey h) parsed page with
                | Some response => Ok response
                | None => Err (unavailable "directory projection")
                end
            end
        end
  end.
Definition loadDirectoryProjection := loadDirectoryProjectionWithParser parseDirectoryProjectionQuery.
Definition loadHumanDirectoryProjection := loadDirectoryProjectionWithParser parseHumanDirectoryProjectionQuery.
End Loads.

(** ** Documents and responses *)

Definition or_null {A} (f : A → json) (v : option A) : json := match v with Some v => f v | None => JNull end.
(** [omitempty] *)
Definition member_if {A} (name : string) (f : A → json) (v : option A) : list (bytes * json) :=
  match v with Some v => [(b name, f v)] | None => [] end.
Definition present_number (v : Z) : option Z := if v =? 0 then None else Some v.

Definition publicListing_json (r : publicListingResponse) : json :=
  JObject [(b "schema_version", number publicListingSchemaVersion);
           (b "relays", JArray (map (λ relay, JObject [(b "relay_actor", text (plr_actor relay)); (b "public_base_url", text (plr_base relay));
                                                        (b "health", text (plr_health relay)); (b "last_seen_at", text (plr_last_seen relay))]) (plp_relays r)));
           (b "pagination", JObject [(b "limit", number (plp_limit r)); (b "next_cursor", text (plp_next r))])].

Definition diagnostic_json (g : directoryProbeDiagnostic) : json :=
  JObject ([(b "stage", text (probe_stage g)); (b "code", text (probe_code g))] ++
           member_if "http_status" number (present_number (probe_HTTPStatus g)) ++ [(b "assessment", text (probe_assessment g))]).
Definition profile_json (p : profile) : json :=
  JObject [(b "participation_mode", text (ParticipationMode p)); (b "availability", text (Availability p)); (b "relay_type", text (RelayType p));
           (b "languages", texts (Languages p)); (b "countries", texts (Countries p)); (b "regions", texts (Regions p)); (b "topics", texts (Topics p));
           (b "contact_fediverse", text (ContactFediverse p)); (b "contact_email", text (ContactEmail p)); (b "contact_url", text (ContactURL p));
           (b "participation_url", text (ParticipationURL p)); (b "notes", text (Notes p))].
Definition directoryProjectionRelay_json (r : directoryProjectionRelay) : json :=
  JObject [(b "relay_actor", text (shown_actor r)); (b "public_base_url", text (shown_base r)); (b "tier", number (shown_tier r));
           (b "profile", profile_json (shown_profile r));
           (b "telemetry", JObject [(b "receiving_instance_count", or_null number (shown_receiving r)); (b "reported_at", or_null text (shown_reported r))]);
           (b "heartbeat", JObject [(b "state", text (shown_heartbeat r)); (b "last_seen_at", or_null text (shown_last_seen r))]);
           (b "reachability", JObject ([(b "state", text (shown_state r)); (b "last_checked_at", or_null text (shown_last_checked r));
                                        (b "last_success_at", or_null text (shown_last_success r))] ++
                                       member_if "diagnostic" diagnostic_json (shown_diagnostic r) ++
                                       member_if "next_eligible_at" text (shown_next_eligible r)));
           (b "inbox", JObject ([(b "url", or_null text (shown_inbox r)); (b "declared_at", or_null text (shown_declared r));
                                 (b "probe_state", text (shown_probe r)); (b "last_checked_at", or_null text (shown_inbox_checked r))] ++
                                member_if "diagnostic" diagnostic_json (shown_inbox_diagnostic r)));
           (b "rfc9421", JObject [(b "state", text (shown_rfc9421 r)); (b "verified_at", or_null text (shown_verified r))])].
Definition directoryProjection_json (r : directoryProjectionResponse) : json :=
  JObject [(b "schema_version", number directoryProjectionSchemaVersion);
           (b "relays", JArray (map directoryProjectionRelay_json (dpp_relays r)));
           (b "pagination", JObject [(b "limit", number (dpp_limit r)); (b "next_cursor", text (dpp_next r))])].
(** [publicListingErrorEnvelope] and [directoryProjectionErrorEnvelope] *)
Definition error_json (version : Z) (code message : string) : json :=
  JObject [(b "schema_version", number version); (b "error", JObject [(b "code", text code); (b "message", text message)])].

Definition newline : ascii := byte_of 10.
Record web_request := WebRequest { web_method : string; web_path : string; web_query : bytes; web_if_none_match : string }.
Record web_response := WebResponse {
  web_status : Z; web_type : string; web_cache : string; web_etag : option bytes; web_retry : string; web_allow : string;
  web_csp : option string; web_attachment : option string; web_body : bytes }.
Definition plain_response (status : Z) (contentType cache : string) (body : bytes) : web_response :=
  WebResponse status contentType cache None "" "" None None body.
Definition with_retry (retry : string) (r : web_response) : web_response :=
  WebResponse (web_status r) (web_type r) (web_cache r) (web_etag r) retry (web_allow r) (web_csp r) (web_attachment r) (web_body r).
(** The body of a HEAD request is not written. *)
Definition body_for (request : web_request) (body : bytes) : bytes := if web_method request ≟ "HEAD" then [] else body.

(** [allowReadMethod]: the response that ends a request with another method *)
Definition allowReadMethod (request : web_request) : option web_response :=
  if one_of ["GET"; "HEAD"] (web_method request) then None
  else Some (WebResponse StatusMethodNotAllowed "text/plain; charset=utf-8" "" None "" "GET, HEAD" None None (b "method not allowed" ++ [newline])).
Definition write_json (request : web_request) (status : Z) (value : json) : web_response :=
  plain_response status "application/json" "no-store" (body_for request (json_print value ++ [newline])).
Definition writePublicListingError (request : web_request) (f : publicListingFailure) : web_response :=
  with_retry (failure_retryAfter f)
    (write_json request (failure_status f) (error_json publicListingSchemaVersion (failure_code f) (failure_message f))).
Definition writeDirectoryProjectionError (request : web_request) (f : publicListingFailure) : web_response :=
  with_retry (failure_retryAfter f)
    (write_json request (failure_status f) (error_json directoryProjectionSchemaVersion (failure_code f) (failure_message f))).

Definition publicListingCacheControl : string := "public, max-age=60, must-revalidate".
(** One candidate of [matchesIfNoneMatch] *)
Definition matches_candidate (etag candidate : bytes) : bool :=
  let candidate := trim_space candidate in
  bytes_eqb candidate (b "*") ||
  bytes_eqb (if has_prefix candidate (b "W/") then trim_space (drop 2 candidate) else candidate) etag.
Definition matchesIfNoneMatch (value : string) (etag : bytes) : bool := existsb (matches_candidate etag) (split_on (b value) ",").

Section Responses.
Context `{RelayIdentity} `{PublicHashes}.

Definition entity_tag (body : bytes) : bytes := [quote] ++ b "sha256-" ++ base64_encode (sum256 body) ++ [quote].
Definition writeCacheablePublicRepresentation (request : web_request) (contentType : string) (body : bytes) : web_response :=
  let etag := entity_tag body in
  let unchanged := matchesIfNoneMatch (web_if_none_match request) etag in
  WebResponse (if unchanged then StatusNotModified else StatusOK) contentType publicListingCacheControl (Some etag) "" "" None None
    (if unchanged then [] else body_for request body).
(** [writeCacheablePublicListingJSON] and [writeCacheableDirectoryProjectionJSON]; these values always marshal. *)
Definition write_cacheable_json (request : web_request) (value : json) : web_response :=
  writeCacheablePublicRepresentation request "application/json" (json_print value ++ [newline]).

(** [PublicListingHandler.serve] *)
Definition serve (handler : option PublicListingHandler) (busy : Z) (c : call) (request : web_request) (now : Z) (d : db) : web_response :=
  match allowReadMethod request with
  | Some refused => refused
  | None =>
      match loadPublicListing handler busy c (web_query request) now d with
      | Err failure => writePublicListingError request failure
      | Ok response => write_cacheable_json request (publicListing_json response)
      end
  end.
Definition serveDirectoryProjection (handler : option PublicListingHandler) (busy : Z) (c : call) (request : web_request) (now : Z)
    (x : extras) (d : db) : web_response :=
  match allowReadMethod request with
  | Some refused => refused
  | None =>
      match loadDirectoryProjection handler busy c (web_query request) now x d with
      | Err failure => writeDirectoryProjectionError request failure
      | Ok response => write_cacheable_json request (directoryProjection_json response)
      end
  end.
End Responses.
