(* ===== verification/PublicApiFacts.v ===== *)
(** * PublicApiFacts: the HTTP listing serves what the repository promises

    On a readable state every page of the repository passes the handler's own
    re-validation, its continuations are sealed, and a client that follows the
    cursors over HTTP is shown the whole directory. *)
From S2P Require Import Prelude GoNet Identity AddrText Text Json JsonFacts RequestFacts Canonical Vocabulary Store Session Repository Reachability Paging Lifecycle Discovery Pruning Invariant Contract Refinement System Guarantees ReachabilityFacts Health Telemetry Profile ProfileFacts Directory Evidence DirectoryFacts DirectoryPages DirectoryScan DirectoryWalk WebText PublicCursor PublicApi.
From Stdlib Require Import Ascii.
Local Open Scope string_scope.
Local Open Scope Z_scope.
Local Open Scope go_scope.
Local Open Scope list_scope.

(** ** Cursors as positions *)

Definition cursor_key (c : directory_cursor) : Z * string := (cursor_tier c, cursor_actor c).
Lemma cursor_less c1 c2 : directoryProjectionCursorLess c1 c2 = key_ltb (cursor_key c1) (cursor_key c2).
Proof.
  destruct c1 as [t1 a1], c2 as [t2 a2]. unfold directoryProjectionCursorLess, cursor_key, key_ltb at 2; simpl.
  change (key_ltb t1 t2) with (t1 <? t2). change (key_ltb t2 t1) with (t2 <? t1).
  destruct (Z.eqb_spec t1 t2) as [->|]; simpl; [by rewrite Z.ltb_irrefl|].
  destruct (Z.ltb_spec t1 t2); simpl; [done|]. by rewrite (proj2 (Z.ltb_lt t2 t1)) by lia.
Qed.
Lemma started_spec c : started c = true ↔ c ≠ directory_start.
Proof. unfold started. by rewrite negb_true_iff, <- not_true_iff_false, directory_cursor_eqb_eq. Qed.
Lemma started_start : started directory_start = false.
Proof. done. Qed.

(** ** The slots ahead are in order *)

Section Forward.
Context `{RelayIdentity} `{!CanonicalURLs} `{PublicHashes} `{!PublicHashLaws}.
Context (now : Z) (d : db) (x : extras).

Lemma slots_ahead n t b : strictly_sorted slot_key (slots (window_after d) (λ t, t + 1) n t b) ∧
  ∀ slot, In slot (slots (window_after d) (λ t, t + 1) n t b) → key_ltb (t, b) slot = true.
Proof.
  revert t b. induction n as [|n IH]; intros t b; [split; [constructor|intros ? []]|]. cbn [slots].
  destruct (IH (t + 1) "") as [Hs Ha].
  assert (Hlater : ∀ slot, In slot (slots (window_after d) (λ t, t + 1) n (t + 1) "") → t < slot.1).
  { intros [t' a'] Hin. specialize (Ha _ Hin). unfold key_ltb in Ha; simpl in Ha. apply orb_true_iff in Ha as [Ha|Ha].
    - apply Z.ltb_lt in Ha. simpl. lia.
    - apply andb_true_iff in Ha as [Ha%negb_true_iff _]. change (key_ltb t' (t + 1)) with (t' <? t + 1) in Ha. simpl. lia. }
  split.
  - apply StronglySorted_app. split_and!; [| |done].
    + intros s1 s2. rewrite !list_elem_of_In. intros (a&<-&_)%in_map_iff Hs2%Hlater. unfold slot_key, key_ltb at 1; simpl.
      apply orb_true_iff. left. by apply Z.ltb_lt.
    + assert (Hw : StronglySorted (λ a1 a2 : string, key_ltb a1 a2 = true) (window_after d b)).
      { apply (StronglySorted_filter (λ a1 a2 : string, key_ltb a1 a2 = true)), public_actors_sorted. }
      induction Hw as [|a l Hw IHw Hf]; simpl; constructor; [done|]. apply Forall_forall. intros slot (a'&<-&Ha')%in_map_iff.
      rewrite Forall_forall in Hf. specialize (Hf _ Ha'). unfold slot_key, key_ltb at 1; simpl. by rewrite key_ltb_irrefl.
  - intros slot [(a&<-&Hin)%in_map_iff|Hin]%in_app_or; unfold key_ltb at 1; simpl.
    + apply filter_In in Hin as [_ Hin]. rewrite key_ltb_irrefl. exact Hin.
    + apply orb_true_iff. left. by apply Z.ltb_lt, Hlater.
Qed.
Lemma slots_after_ahead c : strictly_sorted slot_key (slots_after d c) ∧
  (started c = true → ∀ slot, In slot (slots_after d c) → key_ltb (cursor_key c) slot = true).
Proof.
  unfold slots_after, next_slots, slots_of. destruct (directory_cursor_eqb c directory_start) eqn:E.
  - split; [apply slots_ahead|]. unfold started. by rewrite E.
  - split; [apply slots_ahead|]. intros _. apply slots_ahead.
Qed.

Hypothesis Hread : readable now d x.

(** A forward page with both of its continuations. *)
Definition forward_cursors (after : directory_cursor) (lim : nat) (page : directory_page) : Prop :=
  ∃ pre rest, slots_after d after = pre ++ rest ∧ page_relays page = hits now d x pre ∧ (length (page_relays page) <= lim)%nat ∧
    page_previous page = forward_previous (page_relays page) after ∧
    ((page_next page = directory_start ∧ hits now d x rest = []) ∨
     ∃ kept slot, pre = kept ++ [slot] ∧ public_slot d slot ∧ page_next page = slot_cursor (Some slot) ∧
       (length (page_relays page) = lim ∨ length pre = 400%nat)).

Lemma forward_page_cursors after lim t : unix_of t = now → (0 < lim <= 100)%nat → directory_cursor_valid after = true →
  ∃ page, ListDirectoryRelays plain_call x (DirectoryQuery after directory_start (Z.of_nat lim) t) d = Ok page ∧
    forward_cursors after lim page.
Proof.
  intros Hnow Hl Hv. set (q := DirectoryQuery after directory_start (Z.of_nat lim) t).
  rewrite (request_forward now d x Hread q lim) by done. change (dir_after q) with after.
  pose proof (λ slot, slots_after_public now d x Hread after slot Hv) as Hpub.
  destruct (page_end_cases now d x (full_after now x q) (cut_after q) (ended_after q) lim (slots_after d after))
    as [(pre&slot&rest&r&Hs&Hr&Hlen&->)|[(pre&slot&rest&Hs&Hlen&Hscan&->)|(Hlen&c&->)]]; [lia| | |].
  - assert (Hp : public_slot d slot) by (apply Hpub; rewrite Hs; apply in_or_app; right; by left).
    assert (Hc : last_cursor (hits now d x pre ++ [r]) = slot_cursor (Some slot)).
    { unfold last_cursor. rewrite last_snoc. by rewrite (hit_slot now d x Hread slot r). }
    unfold full_after. rewrite Hc, bind_run, (has_after_run now d x Hread) by done. cbn beta iota. eexists. split; [done|].
    exists (pre ++ [slot]), rest. simpl. rewrite <- app_assoc, (hits_snoc now d x pre slot r) by done. split_and!; [done|done|lia|done|].
    destruct (more now d x 400 _) eqn:Hmore; [right; exists pre, slot; split_and!; [done..|by left]|left; split; [done|]].
    rewrite <- (slots_after_resume now d x Hread after pre slot rest Hv Hs). by apply more_false.
  - assert (Hp : public_slot d slot) by (apply Hpub; rewrite Hs; apply in_or_app; right; by left).
    eexists. split; [done|]. exists (pre ++ [slot]), rest. simpl. rewrite <- app_assoc. split_and!; [done|done|lia|done|].
    right. exists pre, slot. split_and!; [done..|by right].
  - eexists. split; [done|]. exists (slots_after d after), []. simpl. rewrite app_nil_r. split_and!; [done|done|lia|done|by left].
Qed.
End Forward.

(** ** Every page is presented *)

Section Present.
Context `{RelayIdentity} `{!CanonicalURLs} `{PublicHashes} `{!PublicHashLaws}.

(** The actor's JSON text leaves room for the cursor's other fields. *)
Definition cursor_room (actor : string) : Prop := size_of (json_encode (b actor)) ≤ 6000.

Lemma digits_size fuel v acc : (length (format_uint fuel v acc) <= fuel + length acc)%nat.
Proof.
  revert v acc. induction fuel as [|fuel IH]; intros v acc; [simpl; lia|]. cbn [format_uint]. case_match; [simpl; lia|].
  etrans; [apply IH|]. simpl. lia.
Qed.
Lemma Itoa_size v : size_of (Itoa v) ≤ 21.
Proof.
  unfold size_of, Itoa. destruct (v <? 0).
  - pose proof (digits_size 20 (- v) []) as Hs. cbn [length] in *. lia.
  - pose proof (digits_size 20 v []) as Hs. cbn [length] in *. lia.
Qed.
Lemma seal_fits key raw : size_of raw ≤ 6100 → ∃ value, seal key raw = Some value.
Proof.
  intros Hr. unfold seal. rewrite (proj2 (Z.ltb_ge _ _)) by (unfold publicListingMaxCursorSize; lia).
  rewrite (proj2 (Z.ltb_ge _ _)); [by eexists|]. unfold publicListingMaxCursorSize, size_of in *. rewrite length_app. cbn [length].
  pose proof (base64_encode_length raw). pose proof (base64_encode_length (hmac_sha256 key raw)) as Hm. rewrite hmac_size in Hm. lia.
Qed.
(** The bytes of a document of three numbers and a text. *)
Lemma cursor_json_size k1 k2 k3 k4 v1 v2 v3 a :
  length (json_print (JObject [(b k1, number v1); (b k2, number v2); (b k3, number v3); (b k4, text a)])) =
  (length (json_encode (b k1)) + length (json_encode (b k2)) + length (json_encode (b k3)) + length (json_encode (b k4)) +
   length (Itoa v1) + length (Itoa v2) + length (Itoa v3) + length (json_encode (b a)) + 19)%nat.
Proof.
  cbn [json_print map fst snd comma_separated number text]. unfold json_string. repeat (rewrite length_app || cbn [length]). lia.
Qed.
Lemma projection_cursor_encodes key c : key_ok key = true → validDirectoryProjectionCursor c = true → cursor_room (dpc_actor c) →
  ∃ value, encodeDirectoryProjectionCursor key c = Some value.
Proof.
  intros Hk Hv Hroom. unfold encodeDirectoryProjectionCursor. rewrite Hk, Hv. cbn [negb orb]. apply seal_fits.
  pose proof (Itoa_size (dpc_version c)). pose proof (Itoa_size (dpc_issued c)). pose proof (Itoa_size (dpc_tier c)).
  unfold cursor_room, size_of in *. unfold directoryProjectionCursor_json. rewrite cursor_json_size. simpl. lia.
Qed.

Lemma visible_cursor_valid c : directory_cursor_valid c = true → started c = true →
  ∀ issued, 0 ≤ issued → validDirectoryProjectionCursor (DirectoryProjectionCursorOf 2 issued (cursor_tier c) (cursor_actor c)) = true.
Proof.
  unfold started, directory_cursor_valid. intros Hv Hs%negb_true_iff issued Hi. rewrite Hs in Hv.
  destruct (negb (DirectoryTier_Valid (cursor_tier c)) || (cursor_actor c ≟ "")) eqn:E; [done|]. apply orb_false_iff in E as [Ht Ha].
  unfold validDirectoryProjectionCursor. cbn [dpc_version dpc_issued dpc_tier dpc_actor]. rewrite (proj2 (Z.ltb_ge issued 0)), Ht, Ha by done. by rewrite Hv.
Qed.

Lemma continuation_sealed key issued c ok : key_ok key = true → 0 ≤ issued → directory_cursor_valid c = true → (started c = true → ok = true) →
  cursor_room (cursor_actor c) → ∃ value, continuation_cursor key issued c ok = Some value ∧
    if started c then encodeDirectoryProjectionCursor key (DirectoryProjectionCursorOf 2 issued (cursor_tier c) (cursor_actor c)) = Some value
    else value = "".
Proof.
  intros Hk Hi Hv Hok Hroom. unfold continuation_cursor. destruct (started c) eqn:Hs; cbn [negb]; [|by eexists].
  rewrite Hok by done. cbn [negb].
  destruct (projection_cursor_encodes key (DirectoryProjectionCursorOf 2 issued (cursor_tier c) (cursor_actor c))) as [value Hval];
    [done|by apply visible_cursor_valid|done|]. by exists value.
Qed.

(** Rows in order, after the boundary, are all presented. *)
Lemma present_rows_sorted observedUnix after previous relays :
  Forall (λ r, ValidateDirectoryProjectionRelay r observedUnix = true) relays →
  StronglySorted (λ r1 r2, directoryProjectionCursorLess (relay_cursor r1) (relay_cursor r2) = true) relays →
  Forall (λ r, (started after = true → directoryProjectionCursorLess after (relay_cursor r) = true) ∧
               (started previous = true → directoryProjectionCursorLess previous (relay_cursor r) = true)) relays →
  present_rows observedUnix after directory_start previous relays = Some (map presentDirectoryProjectionRelay relays).
Proof.
  intros Hval Hs. revert previous. induction Hs as [|r relays Hs IH Hf]; intros previous Hb; [done|]. cbn [present_rows map].
  apply List.Forall_cons_iff in Hval as [Hr Hval], Hb as [[Ha Hp] Hb]. rewrite Hr, started_start. cbn [negb andb orb]. rewrite orb_false_r.
  assert (Hprev : started previous && negb (directoryProjectionCursorLess previous (relay_cursor r)) = false)
    by (destruct (started previous); [by rewrite Hp|done]).
  assert (Haft : started after && negb (directoryProjectionCursorLess after (relay_cursor r)) = false)
    by (destruct (started after); [by rewrite Ha|done]).
  rewrite Hprev, Haft. cbn [orb]. rewrite IH; [done|done|].
  rewrite List.Forall_forall in Hb, Hf |- *. intros r' Hr'. split; [apply Hb, Hr'|]. intros _. by apply Hf.
Qed.
End Present.

Lemma sorted_impl {A} (R S : A → A → Prop) l : (∀ x y, R x y → S x y) → StronglySorted R l → StronglySorted S l.
Proof.
  intros HRS. induction 1 as [|x l Hs IH Hf]; constructor; [done|]. by eapply List.Forall_impl; [|exact Hf]; intros y; apply HRS.
Qed.

Section Served.
Context `{RelayIdentity} `{!CanonicalURLs} `{PublicHashes} `{!PublicHashLaws}.
Context (now : Z) (d : db) (x : extras).
Hypothesis Hread : readable now d x.
(** No eligible actor is too long for a cursor. *)
Hypothesis Hroom : ∀ a, eligible_now d a = true → cursor_room a.

Lemma slot_position slot : cursor_key (slot_cursor (Some slot)) = slot.
Proof. by destruct slot. Qed.
Lemma relay_slot r : cursor_key (relay_cursor r) = (Tier r, RelayActor r).
Proof. done. Qed.

Lemma hits_slots pre r : (∀ slot, In slot pre → public_slot d slot) → In r (hits now d x pre) →
  In (Tier r, RelayActor r) pre ∧ ValidateDirectoryProjectionRelay r now = true.
Proof.
  intros Hpub Hin. assert (Hslot : In (Tier r, RelayActor r) pre) by (apply (hits_in now d x Hread); [by intros s Hs; apply Hpub|done]).
  split; [done|]. destruct (Hpub _ Hslot) as [_ He]. destruct (row_of_public now d x Hread _ He) as (r'&_&Hrow&_&_&Hv).
  unfold hits in Hin. rewrite <- list_elem_of_In, list_elem_of_omap in Hin. destruct Hin as (slot&Hs&Hh). rewrite list_elem_of_In in Hs.
  pose proof (hit_slot now d x Hread slot r (Hpub _ Hs) Hh) as ->. unfold hit in Hh. simpl in Hh, Hrow. rewrite Hrow in Hh. by case_match; simplify_eq.
Qed.

(** The relays of a forward page satisfy the handler's own checks. *)
Lemma forward_rows_sorted after pre rest : directory_cursor_valid after = true → slots_after d after = pre ++ rest →
  let relays := hits now d x pre in
  Forall (λ r, ValidateDirectoryProjectionRelay r now = true) relays ∧
  StronglySorted (λ r1 r2, directoryProjectionCursorLess (relay_cursor r1) (relay_cursor r2) = true) relays ∧
  Forall (λ r, (started after = true → directoryProjectionCursorLess after (relay_cursor r) = true)) relays ∧
  (∀ slot, In slot pre → public_slot d slot ∧ (started after = true → key_ltb (cursor_key after) slot = true)) ∧ strictly_sorted slot_key pre.
Proof.
  intros Hv Hs relays. destruct (slots_after_ahead d after) as [Hsorted Hahead]. rewrite Hs in Hsorted, Hahead.
  assert (Hpre : ∀ slot, In slot pre → public_slot d slot ∧ (started after = true → key_ltb (cursor_key after) slot = true)).
  { intros slot Hin. split; [|by intros Ha; apply (Hahead Ha), in_or_app; left].
    apply (slots_after_public now d x Hread after slot Hv). rewrite Hs. by apply in_or_app; left. }
  assert (Hps : strictly_sorted slot_key pre) by (apply StronglySorted_app in Hsorted as (_&?&_); done).
  split_and!; [| | |done|done].
  - apply List.Forall_forall. intros r Hr. eapply hits_slots; [|exact Hr]. intros s Hin. by apply Hpre.
  - pose proof (hits_sorted now d x Hread pre Hps (λ s Hin, proj1 (Hpre s Hin))) as Hsr. unfold strictly_sorted in Hsr. fold relays in Hsr.
    eapply sorted_impl; [|exact Hsr]. intros r1 r2 Hr. rewrite cursor_less. exact Hr.
  - apply List.Forall_forall. intros r Hr Ha. rewrite cursor_less, relay_slot. apply Hpre; [|done].
    by eapply hits_slots; [intros s Hin; by apply Hpre|].
Qed.

Definition query_at (lim : nat) (t issued : Z) (after : directory_cursor) (current : string) : directoryProjectionQuery :=
  DirectoryProjectionQueryOf (Z.of_nat lim) "" after directory_start t issued current.
(** What a response tells its client: rows, and where to continue. *)
Definition continues_at (key : bytes) (issued : Z) (next : directory_cursor) (cursor : string) : Prop :=
  if started next then encodeDirectoryProjectionCursor key (DirectoryProjectionCursorOf 2 issued (cursor_tier next) (cursor_actor next)) = Some cursor
  else cursor = "".

Lemma less_irrefl c : directoryProjectionCursorLess c c = false.
Proof. rewrite cursor_less. apply key_ltb_irrefl. Qed.
Lemma less_asym c1 c2 : directoryProjectionCursorLess c1 c2 = true → directoryProjectionCursorLess c2 c1 = false.
Proof. rewrite !cursor_less. apply key_ltb_asym. Qed.

(** The position of the last slot is not before any relay of the page. *)
Lemma last_slot_bound kept slot : strictly_sorted slot_key (kept ++ [slot]) → (∀ s, In s (kept ++ [slot]) → public_slot d s) →
  ∀ r, In r (hits now d x (kept ++ [slot])) → directoryProjectionCursorLess (slot_cursor (Some slot)) (relay_cursor r) = false.
Proof.
  intros Hs Hpub r Hr. destruct (hits_slots _ _ Hpub Hr) as [Hin _]. rewrite cursor_less, slot_position, relay_slot.
  apply StronglySorted_app_parts in Hs as (_&_&Hs). apply in_app_or in Hin as [Hin|[<-|[]]]; [|apply key_ltb_irrefl].
  apply key_ltb_asym. by apply (Hs _ slot Hin (in_eq _ _)).
Qed.
Lemma page_last_in relays : relays ≠ [] → ∃ r, In r relays ∧ page_last relays = relay_cursor r.
Proof.
  intros Hne. unfold page_last. destruct (list.last relays) as [r|] eqn:E; [|by apply last_None in E].
  apply last_some_app in E as [kept ->]. exists r. split; [by apply in_or_app; right; left|done].
Qed.

Lemma public_slot_room slot : public_slot d slot →
  directory_cursor_valid (slot_cursor (Some slot)) = true ∧ started (slot_cursor (Some slot)) = true ∧ cursor_room (cursor_actor (slot_cursor (Some slot))).
Proof.
  intros Hp. destruct (public_slot_cursor now d x Hread slot Hp) as [Hv Hs]. unfold started. rewrite Hs. destruct slot as [t a], Hp as [_ He].
  split_and!; [done|done|by apply Hroom].
Qed.
Lemma hit_room pre r : (∀ slot, In slot pre → public_slot d slot) → In r (hits now d x pre) →
  directory_cursor_valid (relay_cursor r) = true ∧ started (relay_cursor r) = true ∧ cursor_room (cursor_actor (relay_cursor r)).
Proof. intros Hpub Hr. destruct (hits_slots _ _ Hpub Hr) as [Hin _]. exact (public_slot_room _ (Hpub _ Hin)). Qed.

Lemma previous_served after pre relays : directory_cursor_valid after = true → cursor_room (cursor_actor after) →
  (∀ slot, In slot pre → public_slot d slot) → relays = hits now d x pre →
  Forall (λ r, (started after = true → directoryProjectionCursorLess after (relay_cursor r) = true)) relays →
  let previous := forward_previous relays after in
  directory_cursor_valid previous = true ∧ cursor_room (cursor_actor previous) ∧
  (started previous = true → previous_ok after directory_start (page_first relays) previous (negb (length relays =? 0)%nat) = true).
Proof.
  intros Hv Haroom Hpub Hrel Hahead previous. subst previous. unfold forward_previous.
  destruct (directory_cursor_eqb after directory_start) eqn:Hst.
  { split_and!; [done| |done]. unfold cursor_room, size_of. simpl. lia. }
  assert (Hs : started after = true) by (unfold started; by rewrite Hst).
  destruct relays as [|r relays].
  - split_and!; [done|done|]. intros _. unfold previous_ok. rewrite Hv, Hs, less_irrefl. done.
  - destruct (hit_room pre r Hpub) as (Hrv&Hrs&Hroomr); [rewrite <- Hrel; by left|]. split_and!; [done|done|]. intros _.
    apply List.Forall_cons_iff in Hahead as [Ha _]. unfold previous_ok, page_first. rewrite Hrv, Hs, less_irrefl, (less_asym _ _ (Ha Hs)). done.
Qed.

Lemma next_served after kept slot relays : directory_cursor_valid after = true → 
  (∀ s, In s (kept ++ [slot]) → public_slot d s ∧ (started after = true → key_ltb (cursor_key after) s = true)) →
  strictly_sorted slot_key (kept ++ [slot]) → relays = hits now d x (kept ++ [slot]) →
  next_ok after directory_start (page_last relays) (forward_previous relays after) (slot_cursor (Some slot)) (negb (length relays =? 0)%nat) = true.
Proof.
  intros Hv Hpre Hps Hrel. assert (Hin : In slot (kept ++ [slot])) by (apply in_or_app; right; by left).
  destruct (Hpre slot Hin) as [Hp Hafter]. destruct (public_slot_room slot Hp) as (Hsv&_&_).
  assert (Hbound : ∀ r, In r relays → directoryProjectionCursorLess (slot_cursor (Some slot)) (relay_cursor r) = false).
  { rewrite Hrel. apply last_slot_bound; [done|]. intros s Hin'. by apply Hpre. }
  assert (Ha : started after && negb (directoryProjectionCursorLess after (slot_cursor (Some slot))) = false).
  { destruct (started after); [|done]. by rewrite cursor_less, slot_position, Hafter. }
  assert (Hl : negb (length relays =? 0)%nat && directoryProjectionCursorLess (slot_cursor (Some slot)) (page_last relays) = false).
  { destruct relays as [|r relays]; [done|]. destruct (page_last_in (r :: relays)) as (r'&Hr'&->); [done|]. by rewrite (Hbound r' Hr'), andb_false_r. }
  assert (Hpv : started (forward_previous relays after) && directoryProjectionCursorLess (slot_cursor (Some slot)) (forward_previous relays after) = false).
  { unfold forward_previous. destruct (directory_cursor_eqb after directory_start) eqn:Hst; [done|].
    assert (Hs : started after = true) by (unfold started; by rewrite Hst). apply andb_false_iff. right.
    destruct relays as [|r relays]; [|by apply Hbound; left]. apply less_asym. rewrite cursor_less, slot_position. by apply Hafter. }
  unfold next_ok. rewrite Hsv, Ha, Hl, Hpv. done.
Qed.

Lemma present_forward key lim t issued after current page : unix_of t = now → key_ok key = true → 0 ≤ issued → directory_cursor_valid after = true →
  cursor_room (cursor_actor after) → forward_cursors now d x after lim page →
  ∃ r, present_page key (query_at lim t issued after current) page = Some r ∧
    dpp_relays r = map presentDirectoryProjectionRelay (page_relays page) ∧ continues_at key issued (page_next page) (dpp_next r).
Proof.
  intros Hnow Hk Hi Hv Haroom (pre&rest&Hs&Hrel&Hlen&Hprev&Hnext).
  destruct (forward_rows_sorted after pre rest Hv Hs) as (Hval&Hsorted&Hahead&Hpre&Hps). rewrite <- Hrel in Hval, Hsorted, Hahead.
  unfold present_page. cbn [dpq_limit dpq_observed dpq_after dpq_before dpq_issued dpq_current query_at]. rewrite Hnow.
  rewrite (proj2 (Z.ltb_ge _ _)) by lia. rewrite present_rows_sorted; [|done|done|].
  2:{ eapply List.Forall_impl; [|exact Hahead]. intros r Hr. split; [exact Hr|]. by rewrite started_start. }
  cbn [mbind option_bind]. destruct (previous_served after pre (page_relays page)) as (Hpv&Hproom&Hpok); [done|done|intros s Hin; by apply Hpre|done|done|].
  rewrite Hprev. destruct (continuation_sealed key issued (forward_previous (page_relays page) after)
    (previous_ok after directory_start (page_first (page_relays page)) (forward_previous (page_relays page) after) (negb (length (page_relays page) =? 0)%nat)))
    as (pv&->&_); [done..|].
  cbn [mbind option_bind].
  assert (Hnv : directory_cursor_valid (page_next page) = true ∧ cursor_room (cursor_actor (page_next page)) ∧ (started (page_next page) = true →
    next_ok after directory_start (page_last (page_relays page)) (forward_previous (page_relays page) after) (page_next page) (negb (length (page_relays page) =? 0)%nat) = true)).
  { destruct Hnext as [[-> _]|(kept&slot&->&Hp&->&_)].
    - split_and!; [done| |done]. unfold cursor_room, size_of. simpl. lia.
    - destruct (public_slot_room slot Hp) as (?&_&?). split_and!; [done|done|]. intros _. by eapply next_served. }
  destruct Hnv as (Hnv&Hnroom&Hnok).
  destruct (continuation_sealed key issued (page_next page)
    (next_ok after directory_start (page_last (page_relays page)) (forward_previous (page_relays page) after) (page_next page) (negb (length (page_relays page) =? 0)%nat)))
    as (nv&->&Hnvs); [done..|].
  cbn [mbind option_bind]. eexists. split; [done|]. split; [done|]. exact Hnvs.
Qed.
End Served.

(** ** Requests of a client *)

(** The query of a page: its size, and the cursor it continues from. *)
Definition page_query (limit : Z) (cursor : string) : bytes :=
  query_bytes ((b "limit", Itoa limit) :: if cursor ≟ "" then [] else [(b "cursor", b cursor)]).

Lemma digit_plain c : is_digit c = true → plain_char c = true.
Proof. revert c. each_byte. Qed.
Lemma Itoa_plain v : 0 ≤ v → all_in plain_char (Itoa v).
Proof.
  intros Hv c Hc. destruct (Itoa_digits v Hv) as [Hd _]. rewrite forallb_forall in Hd. by apply digit_plain, Hd.
Qed.
Lemma names_plain : all_in plain_char (b "limit") ∧ all_in plain_char (b "cursor").
Proof. split; intros c Hc; repeat (destruct Hc as [<-|Hc]; [reflexivity|]); destruct Hc. Qed.

Lemma page_query_values limit cursor : 0 ≤ limit → all_in plain_char (b cursor) →
  ParseQuery (page_query limit cursor) =
  Some (if cursor ≟ "" then {["limit" := [str (Itoa limit)]]} else <["cursor" := [cursor]]> {["limit" := [str (Itoa limit)]]}).
Proof.
  intros Hl Hc. destruct names_plain as [Hn1 Hn2]. unfold page_query. destruct (String.eqb_spec cursor "") as [->|Hne].
  - rewrite ParseQuery_plain; [done| |done]. repeat constructor; [done|by apply Itoa_plain|done].
  - rewrite ParseQuery_plain; [|repeat constructor; try done; by apply Itoa_plain|done].
    unfold values_of. cbn [fold_left fst snd]. rewrite !str_b. f_equal.
Qed.

Lemma single_values_spec allowed values : (∀ k v, values !! k = Some v → allowed k = true ∧ length v = 1%nat) → single_values allowed values = true.
Proof.
  intros Hall. unfold single_values. apply forallb_forall. intros [k v] Hin. apply list_elem_of_In, elem_of_map_to_list in Hin.
  destruct (Hall k v Hin) as [Hk Hv]. simpl. by rewrite Hk, Hv.
Qed.
Lemma parse_limit_Itoa maximum v : 1 ≤ v ≤ maximum → maximum ≤ int64_max → parse_limit maximum (str (Itoa v)) = Some v.
Proof.
  intros Hv Hm. unfold parse_limit. rewrite b_str, Atoi_Itoa by lia.
  rewrite (proj2 (Z.ltb_ge v 1)), (proj2 (Z.ltb_ge maximum v)), (proj2 (bytes_eqb_eq _ _) eq_refl) by lia. done.
Qed.
Lemma current_time issued nowUnix : 0 ≤ issued ≤ nowUnix → nowUnix ≤ issued + 300 → nowUnix ≤ int64_max → current_cursor_time issued nowUnix = true.
Proof.
  intros Hi Hn Hm. unfold current_cursor_time. rewrite int64_sub_nonneg by lia. change (seconds_of publicListingCursorMaxAge) with 300.
  by rewrite (proj2 (Z.ltb_ge _ _)), (proj2 (Z.ltb_ge _ _)) by lia.
Qed.

Section Client.
Context `{RelayIdentity} `{!CanonicalURLs} `{PublicHashes} `{!PublicHashLaws}.

Lemma encoded_plain key c value : encodeDirectoryProjectionCursor key c = Some value → all_in plain_char (b value) ∧ value ≠ "".
Proof. unfold encodeDirectoryProjectionCursor. case_match; [done|]. apply seal_characters. Qed.

Lemma query_keys limit cursor : let values := (if cursor ≟ "" then {["limit" := [limit]]} else <["cursor" := [cursor]]> {["limit" := [limit]]}) : Values in
  single_values (λ k, one_of ["limit"; "cursor"] k || (false && one_of ["before"; "registration"] k)) values = true ∧
  first_value values "limit" = Some limit ∧ first_value values "registration" = None ∧ first_value values "before" = None ∧
  values !! "before" = None ∧ first_value values "cursor" = if cursor ≟ "" then None else Some cursor.
Proof.
  intros values. split.
  - apply single_values_spec. intros k v. unfold values. destruct (cursor ≟ "").
    + rewrite lookup_singleton_Some. by intros [<- <-].
    + rewrite lookup_insert_Some, lookup_singleton_Some. by intros [[<- <-]|[_ [<- <-]]].
  - unfold first_value, values. destruct (cursor ≟ "").
    + by rewrite lookup_singleton_eq, !lookup_singleton_ne.
    + by rewrite lookup_insert_eq, !lookup_insert_ne, lookup_singleton_eq, !lookup_singleton_ne.
Qed.

(** The parser reads back what the client asked for, up to five minutes after the
    first request. *)
Lemma parse_page_query key limit now issued after cursor : 0 ≤ issued ≤ unix_of now → unix_of now ≤ issued + 300 → unix_of now ≤ int64_max →
  1 ≤ limit ≤ MaximumDirectoryProjectionPage →
  continues_at key issued after cursor → (started after = false → after = directory_start ∧ unix_of now = issued) →
  parseDirectoryProjectionQuery key (page_query limit cursor) now =
  Some (DirectoryProjectionQueryOf limit "" after directory_start now issued cursor).
Proof.
  intros Hi Hage Hn Hl Hc Hstart. unfold parseDirectoryProjectionQuery, parseDirectoryProjectionQueryMode. unfold continues_at in Hc.
  assert (Hplain : all_in plain_char (b cursor)).
  { destruct (started after); [by eapply encoded_plain|subst cursor; by intros c []]. }
  rewrite page_query_values by (done || lia). cbn [mbind option_bind].
  destruct (query_keys (str (Itoa limit)) cursor) as (->&->&->&->&->&->). cbn [negb].
  rewrite andb_false_r. cbn [mbind option_bind]. rewrite parse_limit_Itoa by (done || unfold MaximumDirectoryProjectionPage, int64_max; lia).
  cbn [mbind option_bind]. rewrite (proj2 (Z.ltb_ge _ _)) by lia.
  destruct (started after) eqn:Hs.
  - destruct (encoded_plain _ _ _ Hc) as [_ Hne]. rewrite (proj2 (String.eqb_neq _ _) Hne). unfold decode_current.
    assert (Hfits : projection_cursor_fits (DirectoryProjectionCursorOf 2 issued (cursor_tier after) (cursor_actor after)))
      by (unfold projection_cursor_fits; cbn [dpc_issued]; lia).
    rewrite (encode_projection_decoded key cursor _ Hfits Hc). cbn [mbind option_bind dpc_issued].
    rewrite current_time by lia. cbn [mbind option_bind]. by destruct after.
  - subst cursor. destruct Hstart as [-> ->]; done.
Qed.

(** GET of one page of the listing at [path]. *)
Definition page_request (path : string) (limit : Z) (cursor : string) : web_request := WebRequest "GET" path (page_query limit cursor) "".
(** The answer is the document. *)
Definition answers (answer : web_response) (document : json) : bool :=
  (web_status answer =? StatusOK) && bytes_eqb (web_body answer) (json_print document ++ [newline]).
Lemma unconditional etag : etag ≠ [] → matchesIfNoneMatch "" etag = false.
Proof. intros He. unfold matchesIfNoneMatch, matches_candidate. cbn. destruct etag; [done|done]. Qed.
Lemma page_shown path limit cursor document : answers (write_cacheable_json (page_request path limit cursor) document) document = true.
Proof.
  unfold write_cacheable_json, writeCacheablePublicRepresentation, answers, page_request. cbn [web_if_none_match].
  rewrite unconditional by done. cbn [web_status web_body]. unfold body_for. cbn [web_method].
  change ("GET" ≟ "HEAD") with false. cbv iota. by apply bytes_eqb_eq.
Qed.
Lemma page_served h busy limit cursor now x d response :
  loadDirectoryProjection (Some h) busy plain_call (page_query limit cursor) now x d = Ok response →
  answers (serveDirectoryProjection (Some h) busy plain_call (page_request "/v2/relays" limit cursor) now x d)
    (directoryProjection_json response) = true.
Proof.
  intros Hr. unfold serveDirectoryProjection. cbn [allowReadMethod web_method page_request web_query].
  change (one_of ["GET"; "HEAD"] "GET") with true. cbv iota. rewrite Hr. apply page_shown.
Qed.
Lemma listing_served h busy limit cursor now d response :
  loadPublicListing (Some h) busy plain_call (page_query limit cursor) now d = Ok response →
  answers (serve (Some h) busy plain_call (page_request "/v1/relays" limit cursor) now d) (publicListing_json response) = true.
Proof.
  intros Hr. unfold serve. cbn [allowReadMethod web_method page_request web_query].
  change (one_of ["GET"; "HEAD"] "GET") with true. cbv iota. rewrite Hr. apply page_shown.
Qed.

(** A client that follows the cursors: the time of the request that carries a
    cursor, and the requests in progress when it arrives. *)
Record web_client := WebClient { client_clock : string → Z; client_busy : string → Z }.
(** One page over HTTP: its rows, each with the second of its request. *)
Definition http_read (h : PublicListingHandler) (limit : Z) (c : web_client) (x : extras) (d : db) (cursor : string)
    : result error (list (Z * directoryProjectionRelay) * option string) :=
  let now := client_clock c cursor in
  match loadDirectoryProjection (Some h) (client_busy c cursor) plain_call (page_query limit cursor) now x d with
  | Err _ => Err ErrInvalidState
  | Ok response =>
      if answers (serveDirectoryProjection (Some h) (client_busy c cursor) plain_call (page_request "/v2/relays" limit cursor) now x d)
           (directoryProjection_json response)
      then Ok (map (pair (unix_of now)) (dpp_relays response), if dpp_next response ≟ "" then None else Some (dpp_next response))
      else Err ErrInvalidState
  end.
End Client.

(** ** The directory over HTTP *)

Section Timed.
Context `{RelayIdentity} `{!CanonicalURLs}.

Lemma readable_le now now' d x : now ≤ now' → now' + 604800 ≤ int64_max → readable now d x → readable now' d x.
Proof.
  intros Hle Hmax [Hok Hev Htel Hprof Hclock]. split; [done| | |done|lia].
  - by eapply evidence_le.
  - intros a r Hr. destruct (Htel a r Hr) as (?&?&?&?&Hp). split; [done|]. split; [lia|]. split_and!; [done|done|].
    intros v Hv. specialize (Hp v Hv). lia.
Qed.

(** Shown over HTTP in a walk whose pages are read at several times. *)
Definition timed_row (d : db) (x : extras) (entry : Z * (Z * string)) : option (Z * directory_relay) := pair entry.1 <$> hit entry.1 d x entry.2.
Definition timed_hits (d : db) (x : extras) (l : list (Z * (Z * string))) : list (Z * directory_relay) := omap (timed_row d x) l.
Definition timed_shown (entry : Z * directory_relay) : Z * directoryProjectionRelay := (entry.1, presentDirectoryProjectionRelay entry.2).

Lemma timed_hits_at d x t pre : timed_hits d x (map (pair t) pre) = map (pair t) (hits t d x pre).
Proof.
  unfold timed_hits, hits. induction pre as [|slot pre IH]; [done|]. cbn [map omap list_omap]. unfold timed_row at 1. cbn [fst snd].
  destruct (hit t d x slot) as [r|]; cbn [fmap option_fmap option_map]; [cbn [map]; by f_equal|done].
Qed.
Lemma timed_hits_app d x l1 l2 : timed_hits d x (l1 ++ l2) = timed_hits d x l1 ++ timed_hits d x l2.
Proof. apply omap_app. Qed.
Lemma timed_hits_in d x l t r : In (t, r) (timed_hits d x l) ↔ ∃ slot, In (t, slot) l ∧ hit t d x slot = Some r.
Proof.
  unfold timed_hits. rewrite <- list_elem_of_In, list_elem_of_omap. split.
  - intros ([t' slot]&Hin&Hr). unfold timed_row in Hr. cbn [fst snd] in Hr. apply fmap_Some in Hr as (r'&Hr&[= -> ->]).
    exists slot. by rewrite <- list_elem_of_In.
  - intros (slot&Hin&Hr). exists (t, slot). rewrite list_elem_of_In. split; [done|]. unfold timed_row. cbn [fst snd]. by rewrite Hr.
Qed.
End Timed.

Section Walk.
Context `{RelayIdentity} `{!CanonicalURLs} `{PublicHashes} `{!PublicHashLaws}.
Context (h : PublicListingHandler) (lim : nat) (t0 : Z) (c : web_client) (d : db) (x : extras).
Hypothesis Hread : readable t0 d x.
Hypothesis Hmax : t0 + 300 + 604800 ≤ int64_max.
(** The first request is at [t0], the others within five minutes of it, and each finds a free place. *)
Hypothesis Hfirst : unix_of (client_clock c "") = t0.
Hypothesis Hclock : ∀ cursor, t0 ≤ unix_of (client_clock c cursor) ≤ t0 + 300.
Hypothesis Hfree : ∀ cursor, admits h (client_busy c cursor) = true.
Hypothesis Hroom : ∀ a, eligible_now d a = true → cursor_room a.
Hypothesis Hkey : key_ok (cursorKey h) = true.
Hypothesis Hlim : (0 < lim <= 100)%nat.

Lemma readable_then cursor : readable (unix_of (client_clock c cursor)) d x.
Proof using Hread Hmax Hclock. clear Hlim. destruct (Hclock cursor). apply (readable_le t0); [lia|lia|done]. Qed.

(** A cursor string the handler has handed out, and the position it names. *)
Definition handed_out (after : directory_cursor) (cursor : string) : Prop :=
  continues_at (cursorKey h) t0 after cursor ∧ (started after = false → after = directory_start) ∧
  directory_cursor_valid after = true ∧ cursor_room (cursor_actor after).

Lemma http_page after cursor : handed_out after cursor → let now := unix_of (client_clock c cursor) in
  ∃ page r, forward_cursors now d x after lim page ∧
    http_read h (Z.of_nat lim) c x d cursor = Ok (map (pair now) (map presentDirectoryProjectionRelay (page_relays page)),
      if dpp_next r ≟ "" then None else Some (dpp_next r)) ∧
    continues_at (cursorKey h) t0 (page_next page) (dpp_next r).
Proof.
  intros (Hc&Hst&Hv&Ha) now. pose proof (readable_then cursor) as Hread'. fold now in Hread'. destruct (rd_clock _ _ _ Hread) as [Hn _].
  pose proof (Hclock cursor) as Ht. fold now in Ht.
  destruct (forward_page_cursors now d x Hread' after lim (client_clock c cursor)) as (page&Hpage&Hfw); [done..|].
  destruct (present_forward now d x Hread' Hroom (cursorKey h) lim (client_clock c cursor) t0 after cursor page) as (r&Hr&Hrel&Hnext); [done..|].
  unfold query_at in Hr. exists page, r. split; [done|]. split; [|done].
  assert (Hload : loadDirectoryProjection (Some h) (client_busy c cursor) plain_call (page_query (Z.of_nat lim) cursor) (client_clock c cursor) x d = Ok r).
  { unfold loadDirectoryProjection, loadDirectoryProjectionWithParser. rewrite Hkey, Hfree. cbn [negb].
    rewrite (parse_page_query (cursorKey h) (Z.of_nat lim) (client_clock c cursor) t0 after cursor);
      [|fold now; lia|fold now; lia|fold now; lia|unfold MaximumDirectoryProjectionPage; lia|done|].
    - cbn [dpq_after dpq_before dpq_limit dpq_observed]. rewrite Hpage. by rewrite Hr.
    - intros Hs. split; [by apply Hst|]. unfold continues_at in Hc. rewrite Hs in Hc. by rewrite Hc. }
  unfold http_read. rewrite Hload, page_served by done. fold now. by rewrite Hrel.
Qed.

Lemma http_walk fuel after cursor : handed_out after cursor → (length (slots_after d after) < fuel)%nat →
  ∃ l, map snd l = slots_after d after ∧ (∀ entry, In entry l → ∃ cursor, entry.1 = unix_of (client_clock c cursor)) ∧
    read_all (http_read h (Z.of_nat lim) c x d) fuel cursor = Ok (map timed_shown (timed_hits d x l)).
Proof.
  revert after cursor. induction fuel as [|fuel IH]; intros after cursor Hout Hf; [lia|]. cbn [read_all].
  destruct (http_page after cursor Hout) as (page&r&(pre&rest&Hs&Hrel&_&_&Hnext)&Hr&Hcont). set (now := unix_of (client_clock c cursor)) in *.
  rewrite Hr, Hrel. destruct Hout as (_&_&Hv&_).
  assert (Hshown : ∀ l, map (pair now) (map presentDirectoryProjectionRelay (hits now d x l)) = map timed_shown (timed_hits d x (map (pair now) l))).
  { intros l. rewrite timed_hits_at, !map_map. done. }
  assert (Hsnd : ∀ l : list (Z * string), map snd (map (pair now) l) = l) by (intros l; rewrite map_map; apply map_id).
  assert (Htimes : ∀ l entry, In entry (map (pair now) l : list (Z * (Z * string))) → ∃ cursor, entry.1 = unix_of (client_clock c cursor)).
  { intros l entry (slot&<-&_)%in_map_iff. by exists cursor. }
  destruct Hnext as [[Hend Hrest]|(kept&slot&Hpre&Hp&Hend&_)]; rewrite Hend in Hcont; unfold continues_at in Hcont.
  - rewrite started_start in Hcont. rewrite Hcont. cbn [String.eqb]. exists (map (pair now) (pre ++ rest)).
    split_and!; [by rewrite Hsnd, Hs|by apply Htimes|]. by rewrite <- Hshown, hits_app, Hrest, app_nil_r.
  - pose proof (readable_then cursor) as Hread'. fold now in Hread'.
    destruct (public_slot_room now d x Hread' Hroom slot Hp) as (Hsv&Hss&Hsr). rewrite Hss in Hcont.
    destruct (encoded_plain _ _ _ Hcont) as [_ Hne]. rewrite (proj2 (String.eqb_neq _ _) Hne).
    assert (Hres : slots_after d (slot_cursor (Some slot)) = rest).
    { rewrite (next_slots_after now d x Hread') by done. apply (slots_after_resume now d x Hread' after kept slot rest Hv). by rewrite Hs, Hpre, <- app_assoc. }
    destruct (IH (slot_cursor (Some slot)) (dpp_next r)) as (l&Hl&Htl&->).
    + split_and!; [|by rewrite Hss|done|done]. unfold continues_at. by rewrite Hss.
    + rewrite Hres. rewrite Hs, length_app, Hpre, length_app in Hf. simpl in Hf. lia.
    + exists (map (pair now) pre ++ l). rewrite map_app, Hsnd, Hl, Hres. split_and!; [done| |].
      * intros entry [Hin|Hin]%in_app_or; [by eapply Htimes|by apply Htl].
      * by rewrite timed_hits_app, map_app, Hshown.
Qed.
End Walk.

Section Theorems.
Context `{RelayIdentity} `{!CanonicalURLs} `{PublicHashes} `{!PublicHashLaws}.

Definition tier_at (t : Z) (d : db) (x : extras) (a : string) : option Z := Tier <$> row_of t d x a.

Lemma timed_row_slot d x l t r : (∀ entry, In entry l → public_slot d entry.2 ∧ readable entry.1 d x) → In (t, r) (timed_hits d x l) →
  In (t, (Tier r, RelayActor r)) l ∧ eligible_now d (RelayActor r) = true ∧ detail_of t d x (RelayActor r) = Ok (Some r).
Proof.
  intros Hl (slot&Hin&Hh)%timed_hits_in. destruct (Hl _ Hin) as [Hp Hread]. cbn [fst snd] in Hp, Hread.
  pose proof (hit_slot t d x Hread slot r Hp Hh) as ->. destruct Hp as [_ He]. cbn [snd] in He. split_and!; [done|done|].
  destruct (row_of_public t d x Hread _ He) as (r'&Hd&Hrow&_). rewrite Hd. unfold hit in Hh. cbn [snd] in Hh. rewrite Hrow in Hh. by case_match; simplify_eq.
Qed.
Lemma timed_hits_sorted d x l : strictly_sorted slot_key (map snd l) → (∀ entry, In entry l → public_slot d entry.2 ∧ readable entry.1 d x) →
  strictly_sorted (λ entry, relay_position entry.2) (timed_hits d x l).
Proof.
  induction l as [|[t slot] l IH]; intros Hs Hl; [constructor|]. cbn [map] in Hs. apply StronglySorted_inv in Hs as [Hs Hf].
  assert (Hl' : ∀ entry, In entry l → public_slot d entry.2 ∧ readable entry.1 d x) by (intros entry Hin; apply Hl; by right).
  change ((t, slot) :: l) with ([(t, slot)] ++ l). rewrite timed_hits_app. unfold timed_hits at 1. cbn [omap list_omap]. unfold timed_row. cbn [fst snd].
  destruct (hit t d x slot) as [r|] eqn:Hh; cbn [fmap option_fmap option_map app]; [|by apply IH]. constructor; [by apply IH|].
  destruct (Hl (t, slot)) as [Hp Hread]; [by left|]. cbn [fst snd] in Hp, Hread. pose proof (hit_slot t d x Hread slot r Hp Hh) as ->.
  apply List.Forall_forall. intros [t' r'] Hin. apply timed_row_slot in Hin as (Hin&_); [|done].
  rewrite List.Forall_forall in Hf. apply (Hf (Tier r', RelayActor r')). by apply (in_map snd) in Hin.
Qed.
Lemma strictly_sorted_unique {A K} `{KeyOrder K} (key : A → K) l e1 e2 : strictly_sorted key l → In e1 l → In e2 l → key e1 = key e2 → e1 = e2.
Proof.
  induction 1 as [|e l Hs IH Hf]; intros Hin1 Hin2 Hk; [done|]. rewrite List.Forall_forall in Hf.
  destruct Hin1 as [<-|Hin1], Hin2 as [<-|Hin2]; [done| | |by apply IH].
  - specialize (Hf _ Hin2). simpl in Hf. rewrite Hk in Hf. by rewrite key_ltb_irrefl in Hf.
  - specialize (Hf _ Hin1). simpl in Hf. rewrite Hk in Hf. by rewrite key_ltb_irrefl in Hf.
Qed.

(** C33: The directory is complete over HTTP.  A client requests GET /v2/relays with
    any page size and follows [next_cursor] while the database does not change, each
    request at its own time within five minutes of the first and finding a free
    place; and the JSON text of every public actor has at most 6000 bytes, so that a
    cursor can name it ([listing_blocked] is a directory with a longer one, which is
    refused).  Then every request is answered 200 with the document of a page, and
    the pages together are a listing by tier and then by actor in which every row is
    the one presented from the actor's retained evidence at the time of its request;
    an actor whose tier did not change in the meantime is shown exactly once. *)
Theorem http_directory_complete h lim t0 c fuel d x :
  readable t0 d x → t0 + 300 + 604800 ≤ int64_max →
  unix_of (client_clock c "") = t0 → (∀ cursor, t0 ≤ unix_of (client_clock c cursor) ≤ t0 + 300) →
  (∀ cursor, admits h (client_busy c cursor) = true) → (∀ a, eligible_now d a = true → cursor_room a) →
  key_ok (cursorKey h) = true → (0 < lim <= 100)%nat → (4 * length (public_actors d) < fuel)%nat →
  ∃ listing, read_all (http_read h (Z.of_nat lim) c x d) fuel "" = Ok (map timed_shown listing) ∧
    strictly_sorted (λ entry, relay_position entry.2) listing ∧
    (∀ t r, In (t, r) listing → (∃ cursor, t = unix_of (client_clock c cursor)) ∧
       eligible_now d (RelayActor r) = true ∧ detail_of t d x (RelayActor r) = Ok (Some r)) ∧
    ∀ a tier, eligible_now d a = true → (∀ cursor, tier_at (unix_of (client_clock c cursor)) d x a = Some tier) →
      ∃ t r, In (t, r) listing ∧ RelayActor r = a ∧ ∀ t' r', In (t', r') listing → RelayActor r' = a → t' = t ∧ r' = r.
Proof.
  intros Hread Hmax Hfirst Hclock Hfree Hroom Hkey Hlim Hf.
  pose proof (readable_then t0 c d x Hread Hmax Hclock) as Hthen.
  destruct (http_walk h lim t0 c d x Hread Hmax Hfirst Hclock Hfree Hroom Hkey Hlim fuel directory_start "") as (l&Hl&Htimes&->).
  { split_and!; [done|done|done|]. unfold cursor_room, size_of. simpl. lia. }
  { by rewrite (next_slots_all t0 d x Hread), all_slots_length. }
  rewrite (next_slots_all t0 d x Hread) in Hl.
  assert (Hentry : ∀ entry, In entry l → public_slot d entry.2 ∧ readable entry.1 d x).
  { intros entry Hin. destruct (Htimes entry Hin) as [cursor ->]. split; [|apply Hthen]. apply all_slots_public. rewrite <- Hl. by apply in_map. }
  assert (Hsorted : strictly_sorted (λ entry, relay_position entry.2) (timed_hits d x l)).
  { apply timed_hits_sorted; [|done]. rewrite Hl. apply all_slots_sorted. }
  exists (timed_hits d x l). split_and!; [done|done| |].
  - intros t r Hin. apply timed_row_slot in Hin as (Hin&He&Hd); [|done]. split_and!; [|done|done]. by apply (Htimes _ Hin).
  - intros a tier He Htier. assert (Hrow : ∀ entry, In entry l → ∃ r, row_of entry.1 d x a = Some r ∧ RelayActor r = a ∧ Tier r = tier).
    { intros entry Hin. destruct (Htimes entry Hin) as [cursor Ht]. specialize (Htier cursor). rewrite <- Ht in Htier.
      destruct (row_of_public entry.1 d x (proj2 (Hentry entry Hin)) a He) as (r&_&Hr&Ha&_). exists r. unfold tier_at in Htier. rewrite Hr in Htier. by injection Htier. }
    assert (Hvalid : DirectoryTier_Valid tier = true).
    { destruct (row_of_public _ d x (Hthen "") a He) as (r&_&Hr&_&Hv&_). specialize (Htier ""). unfold tier_at in Htier. rewrite Hr in Htier. by injection Htier as <-. }
    assert (Hslot : In (tier, a) (map snd l)) by (rewrite Hl; apply all_slots_in; split; [done|by apply public_actors_in]).
    apply in_map_iff in Hslot as ([t slot]&Hs&Hin). cbn [snd] in Hs. subst slot. destruct (Hrow _ Hin) as (r&Hr&Ha&Ht). cbn [fst] in Hr.
    assert (Hshown : In (t, r) (timed_hits d x l)).
    { apply timed_hits_in. exists (tier, a). split; [done|]. unfold hit. cbn [snd fst]. by rewrite Hr, Ht, Z.eqb_refl. }
    exists t, r. split_and!; [done|done|]. intros t' r' Hin' Ha'.
    assert (Htier' : Tier r' = tier).
    { apply timed_row_slot in Hin' as (Hin'&_&Hd); [|done]. destruct (Hrow _ Hin') as (r2&Hr2&_&<-). cbn [fst] in Hr2.
      unfold row_of in Hr2. rewrite Ha' in Hd. rewrite Hd in Hr2. by injection Hr2 as ->. }
    assert (Heq : (t', r') = (t, r)).
    { apply (strictly_sorted_unique _ _ _ _ Hsorted Hin' Hshown). unfold relay_position. cbn [snd]. by rewrite Htier', Ht, Ha', Ha. }
    by injection Heq.
Qed.
End Theorems.
