(* ===== verification/PublicListingFacts.v ===== *)
(** * PublicListingFacts: the health listing over HTTP

    A cursor of GET /v1/relays carries the observation time of its first page, so
    a client may take up to the five minutes a cursor lives for the rest and still
    reads one consistent listing. *)
From S2P Require Import Prelude GoNet Identity AddrText Text Json JsonFacts RequestFacts Canonical Vocabulary Store Session Repository Reachability Paging Lifecycle Discovery Pruning Invariant Contract Refinement System Guarantees ReachabilityFacts Health Directory WebText PublicCursor PublicApi PublicApiFacts.
From Stdlib Require Import Ascii.
Local Open Scope string_scope.
Local Open Scope Z_scope.
Local Open Scope go_scope.
Local Open Scope list_scope.

Section ListingOverHttp.
Context `{RelayIdentity} `{!CanonicalURLs} `{PublicHashes} `{!PublicHashLaws}.

(** The row of the response for a row of the table, observed at [now]. *)
Definition shown_row (now : Z) (row : string * relay_row) : publicListingRelay :=
  PublicListingRelayOf row.1 (public_base_url row.2) (health_state_of now row.2) (str (rfc3339 (last_seen_at_unix row.2))).

Lemma public_rows_in now row d : In row (public_rows (now - 2592000) d) ↔
  relays d !! row.1 = Some row.2 ∧ visible_relay row.2 = true ∧ now - last_seen_at_unix row.2 < 2592000.
Proof.
  destruct row as [a r]. unfold public_rows. rewrite relay_rows_in. simpl. rewrite andb_true_iff, Z.ltb_lt. split; intros (?&?&?); split_and!; done || lia.
Qed.

Lemma listed_presented now row d : db_ok d → 0 ≤ now ≤ int64_max → sightings_by now d → In row (public_rows (now - 2592000) d) →
  presentListingRelay now (listed now row) = Some (shown_row now row).
Proof.
  intros Hd Hnow Hseen (Hr&Hv&Hcut)%public_rows_in. destruct row as [a r]; simpl in *.
  destruct (relay_row_facts d a r Hd Hr) as (_&_&Hi&Hls0). pose proof (Hseen a r Hr Hv) as Hs.
  unfold presentListingRelay, listed, PublicEligible; simpl. unfold health_state_of, shown_row; simpl.
  rewrite ClassifyHealth_age by lia. rewrite Hi. unfold health_state_of. rewrite ClassifyHealth_age by lia.
  rewrite (proj2 (Z.ltb_lt (now - last_seen_at_unix r) 2592000)) by done. by repeat case_match.
Qed.

(** ** A client that follows the cursors *)

Section Following.
Context (h : PublicListingHandler) (limit t0 : Z) (c : web_client) (d : db).

Definition listing_read (cursor : string) : result error (list publicListingRelay * option string) :=
  let now := client_clock c cursor in
  match loadPublicListing (Some h) (client_busy c cursor) plain_call (page_query limit cursor) now d with
  | Err _ => Err ErrInvalidState
  | Ok response =>
      if answers (serve (Some h) (client_busy c cursor) plain_call (page_request "/v1/relays" limit cursor) now d) (publicListing_json response)
      then Ok (plp_relays response, if plp_next response ≟ "" then None else Some (plp_next response))
      else Err ErrInvalidState
  end.

(** What the handler loads is what it serves. *)
Lemma listing_read_loaded cursor : listing_read cursor =
  match loadPublicListing (Some h) (client_busy c cursor) plain_call (page_query limit cursor) (client_clock c cursor) d with
  | Err _ => Err ErrInvalidState
  | Ok response => Ok (plp_relays response, if plp_next response ≟ "" then None else Some (plp_next response))
  end.
Proof.
  unfold listing_read. cbv zeta. destruct (loadPublicListing _ _ _ _ _ _) as [response|] eqn:Hr; [|done]. by rewrite listing_served.
Qed.

Definition listing_cursor (position : health_cursor) : publicListingCursor :=
  PublicListingCursor 1 t0 (health_last_seen position) (health_actor position).
(** The string that continues from a position. *)
Definition listing_string (position : health_cursor) : string := default "" (encodePublicListingCursor (cursorKey h) (listing_cursor position)).
Definition row_position (row : string * relay_row) : health_cursor := HealthCursor (last_seen_at_unix row.2) row.1.
(** The position a string the handler handed out stands for. *)
Definition string_position (cursor : string) : health_cursor :=
  match decodePublicListingCursor (cursorKey h) cursor with Some c => HealthCursor (plc_last_seen c) (plc_actor c) | None => health_start end.
Lemma string_position_start : string_position "" = health_start.
Proof.
  unfold string_position. destruct (decodePublicListingCursor (cursorKey h) "") as [found|] eqn:E; [|done]. apply decode_listing_sealed in E.
  unfold encodePublicListingCursor in E. destruct (_ || _); [discriminate E|]. apply seal_characters in E as [_ E]. by destruct E.
Qed.
Definition handed (cursor : string) : Prop :=
  cursor = "" ∨ ∃ position, encodePublicListingCursor (cursorKey h) (listing_cursor position) = Some cursor ∧ health_cursor_ok t0 position.

Hypothesis Hkey : key_ok (cursorKey h) = true.
Hypothesis Hfree : ∀ cursor, admits h (client_busy c cursor) = true.
Hypothesis Hlimit : 0 < limit ≤ MaximumPublicListingPage.
Hypothesis Hdb : db_ok d.
Hypothesis Hnow : 0 ≤ t0 ∧ t0 + 300 ≤ int64_max.
Hypothesis Hseen : sightings_by t0 d.
Hypothesis Hroom : ∀ a r, relays d !! a = Some r → visible_relay r = true → cursor_room a.
(** The first request is at [t0], the others within five minutes of it. *)
Hypothesis Hfirst : unix_of (client_clock c "") = t0.
Hypothesis Hclock : ∀ cursor, t0 ≤ unix_of (client_clock c cursor) ≤ t0 + 300.

Lemma listing_cursor_encodes row : In row (public_rows (t0 - 2592000) d) →
  encodePublicListingCursor (cursorKey h) (listing_cursor (row_position row)) = Some (listing_string (row_position row)).
Proof.
  intros (Hr&Hv&Hcut)%public_rows_in. destruct row as [a r]; simpl in *. destruct (relay_row_facts d a r Hdb Hr) as (Hne&_&Hi&Hls0).
  pose proof (Hseen a r Hr Hv) as Hs. unfold listing_string.
  assert (He : ∃ value, encodePublicListingCursor (cursorKey h) (listing_cursor (row_position (a, r))) = Some value).
  { unfold encodePublicListingCursor. rewrite Hkey.
    assert (Hvalid : validPublicListingCursor (listing_cursor (row_position (a, r))) = true).
    { unfold validPublicListingCursor, listing_cursor, row_position. cbn [plc_version plc_observed plc_last_seen plc_actor health_last_seen health_actor fst snd].
      rewrite (canonical_identity_actor a (public_base_url r)), (proj2 (String.eqb_neq a "")) by done.
      rewrite (proj2 (Z.ltb_ge t0 0)), (proj2 (Z.ltb_ge (last_seen_at_unix r) 0)), (proj2 (Z.ltb_ge t0 (last_seen_at_unix r))) by lia. done. }
    rewrite Hvalid. cbn [negb orb]. apply seal_fits. pose proof (Hroom a r Hr Hv) as Hroomr.
    pose proof (Itoa_size 1). pose proof (Itoa_size t0). pose proof (Itoa_size (last_seen_at_unix r)).
    unfold cursor_room, size_of, listing_cursor, publicListingCursor_json in *. rewrite cursor_json_size. simpl. simpl in *. lia. }
  by destruct He as [value ->].
Qed.
Lemma listing_cursor_fit position : listing_cursor_fits (listing_cursor position).
Proof. clear - Hnow. unfold listing_cursor_fits. cbn [listing_cursor plc_observed]. lia. Qed.
Lemma string_position_encoded position cursor : encodePublicListingCursor (cursorKey h) (listing_cursor position) = Some cursor →
  string_position cursor = position ∧ cursor ≠ "" ∧ all_in plain_char (b cursor).
Proof.
  intros He. pose proof (listing_cursor_fit position) as Hfits.
  unfold string_position. rewrite (encode_listing_decoded _ _ _ Hfits He). cbn [listing_cursor plc_last_seen plc_actor].
  unfold encodePublicListingCursor in He. destruct (_ || _); [done|]. apply seal_characters in He as [Hp Hne]. by destruct position.
Qed.

(** The parser accepts what the client asks for, pinned to the first request's time. *)
Lemma parse_listing_query cursor : handed cursor → ∃ observed, unix_of observed = t0 ∧
  parsePublicListingQuery (cursorKey h) (page_query limit cursor) (client_clock c cursor) = Some (PublicListingQuery limit (string_position cursor) observed cursor).
Proof.
  intros Hh. pose proof (Hclock cursor) as Hc. unfold parsePublicListingQuery.
  assert (Hplain : all_in plain_char (b cursor)).
  { destruct Hh as [->|(position&He&_)]; [by intros ? []|by apply string_position_encoded in He as (_&_&?)]. }
  rewrite page_query_values by (done || lia). cbn [mbind option_bind]. destruct (query_keys (str (Itoa limit)) cursor) as (Hkeys&Hlim&_&_&_&Hcur).
  assert (Hsingle : ∀ f g values, (∀ k, f k = g k) → single_values f values = single_values g values).
  { intros f g values Hfg. unfold single_values. generalize (map_to_list values). intros l. induction l as [|e l IH]; simpl; [done|]. by rewrite Hfg, IH. }
  rewrite (Hsingle (λ k, one_of ["limit"; "cursor"] k) (λ k, one_of ["limit"; "cursor"] k || (false && one_of ["before"; "registration"] k)) _
             (λ k, eq_sym (orb_false_r _))), Hkeys. cbn [negb]. rewrite Hlim, parse_limit_Itoa by (done || unfold MaximumPublicListingPage, int64_max in *; lia).
  cbn [mbind option_bind]. rewrite (proj2 (Z.ltb_ge _ _)) by lia. rewrite Hcur.
  destruct (String.eqb_spec cursor "") as [->|Hne].
  - exists (client_clock c ""). split; [exact Hfirst|]. by rewrite string_position_start.
  - destruct Hh as [->|(position&He&_)]; [by destruct Hne|]. pose proof (listing_cursor_fit position) as Hfits.
    exists (time_of_unix t0). split; [apply unix_of_time_of_unix|]. unfold string_position. rewrite (encode_listing_decoded _ _ _ Hfits He).
    cbn [mbind option_bind listing_cursor plc_observed plc_last_seen plc_actor]. by rewrite current_time by lia.
Qed.

Lemma mapM_presented rows : (∀ row, In row rows → In row (public_rows (t0 - 2592000) d)) →
  mapM (presentListingRelay t0) (map (listed t0) rows) = Some (map (shown_row t0) rows).
Proof.
  induction rows as [|row rows IH]; intros Hin; [done|]. cbn [map mapM]. rewrite (listed_presented t0 row d) by (done || lia || (apply Hin; by left)).
  cbn [mbind option_bind]. rewrite IH; [done|]. intros r Hr. apply Hin. by right.
Qed.

(** One page over HTTP is one keyset page of the rows. *)
Lemma listing_page cursor : handed cursor →
  let page := keyset_page health_key (health_position (string_position cursor)) (Z.to_nat limit) (public_rows (t0 - 2592000) d) in
  listing_read cursor = Ok (map (shown_row t0) page.1, if is_present page.2 then (λ row, listing_string (row_position row)) <$> list.last page.1 else None).
Proof.
  intros Hh page. destruct (parse_listing_query cursor Hh) as (observed&Hobs&Hparse).
  assert (Hok : health_cursor_ok t0 (string_position cursor)).
  { destruct Hh as [->|(position&He&Hp)].
    - rewrite string_position_start. by left.
    - by apply string_position_encoded in He as [-> _]. }
  rewrite listing_read_loaded. unfold loadPublicListing. rewrite Hkey, Hfree, Hparse. cbn [negb plq_after plq_limit plq_observed plq_current].
  rewrite ListPublicRelays_read by (cbn [health_observed health_after health_limit]; rewrite ?Hobs; done || lia). cbn [health_observed health_after health_limit].
  rewrite Hobs. unfold health_rows_page. fold page. cbn [fst snd]. unfold health_page_of. cbn [health_relays health_next fst snd].
  assert (Hin : ∀ row, In row page.1 → In row (public_rows (t0 - 2592000) d)).
  { intros row Hrow. by apply (keyset_page_in health_key (health_position (string_position cursor)) (Z.to_nat limit)). }
  rewrite mapM_presented by done. rewrite list_last_map. destruct (list.last page.1) as [row|] eqn:Hl; cbn [fmap option_fmap option_map].
  2:{ cbn [health_cursor_eqb]. change (health_cursor_eqb health_start health_start) with true. cbv iota. by destruct (is_present page.2). }
  destruct (is_present page.2); [|by change (health_cursor_eqb health_start health_start) with true].
  assert (Hrow : In row (public_rows (t0 - 2592000) d)).
  { apply Hin. apply last_some_app in Hl as [kept ->]. apply in_or_app. right. by left. }
  rewrite listed_cursor. pose proof (listing_cursor_encodes row Hrow) as He. unfold row_position in He.
  destruct (string_position_encoded _ _ He) as (_&Hne&_). destruct row as [a r]. pose proof Hrow as (Hr&_)%public_rows_in. simpl in Hr.
  destruct (relay_row_facts d a r Hdb Hr) as (Hna&_). unfold health_cursor_eqb. cbn [health_actor health_last_seen health_start fst snd].
  rewrite (proj2 (String.eqb_neq a "") Hna), andb_false_r. unfold listing_cursor in He. cbn [health_actor health_last_seen fst snd] in He.
  unfold publicListingCursorVersion. rewrite He. cbn [plp_relays plp_next]. change (HealthCursor (last_seen_at_unix r) a) with (row_position (a, r)).
  change (HealthCursor (last_seen_at_unix (a, r).2) (a, r).1) with (row_position (a, r)) in Hne. rewrite (proj2 (String.eqb_neq _ _) Hne). done.
Qed.
End Following.

(** C34: The health listing is complete and consistent over HTTP.  A client requests
    GET /v1/relays with any page size and follows [next_cursor] while the database
    does not change, each request at its own time within five minutes of the first
    and finding a free place; and the JSON text of every visible relay's actor has at
    most 6000 bytes, so that a cursor can name it (the listing of [listing_blocked]
    has a longer one and is refused).  Then every request is answered 200 with the
    document of a page, and the pages together are exactly the relays listed at the
    time of the first request, each once, oldest sighting first, with the health
    state of that time. *)
Theorem http_listing_complete h limit t0 c d fuel :
  key_ok (cursorKey h) = true → (∀ cursor, admits h (client_busy c cursor) = true) → 0 < limit ≤ MaximumPublicListingPage →
  db_ok d → 0 ≤ t0 ∧ t0 + 300 ≤ int64_max → sightings_by t0 d →
  (∀ a r, relays d !! a = Some r → visible_relay r = true → cursor_room a) →
  unix_of (client_clock c "") = t0 → (∀ cursor, t0 ≤ unix_of (client_clock c cursor) ≤ t0 + 300) →
  (length (public_rows (t0 - 2592000) d) < fuel)%nat →
  ∃ rows, read_all (listing_read h limit c d) fuel "" = Ok (map (shown_row t0) rows) ∧ strictly_sorted health_key rows ∧
    ∀ row, In row rows ↔ relays d !! row.1 = Some row.2 ∧ visible_relay row.2 = true ∧ t0 - last_seen_at_unix row.2 < 2592000.
Proof.
  intros Hkey Hfree Hlimit Hdb Hnow Hseen Hroom Hfirst Hclock Hfuel. exists (order_by health_key (public_rows (t0 - 2592000) d)).
  assert (Hall : rows_after health_key (health_position (string_position h "")) (order_by health_key (public_rows (t0 - 2592000) d)) =
                 order_by health_key (public_rows (t0 - 2592000) d)).
  { rewrite string_position_start. apply filter_all_true. intros [a r] (Hr&_)%order_by_in%public_rows_in. simpl in Hr.
    destruct (relay_row_facts d a r Hdb Hr) as (Hne&_&_&Hls0). unfold health_key, health_position, key_ltb; simpl.
    change (key_ltb 0 (last_seen_at_unix r)) with (0 <? last_seen_at_unix r).
    change (key_ltb (last_seen_at_unix r) 0) with (last_seen_at_unix r <? 0).
    destruct (Z.ltb_spec 0 (last_seen_at_unix r)); [done|]. rewrite (proj2 (Z.ltb_ge _ 0) Hls0). by destruct a. }
  split_and!; [|apply order_by_sorted, relay_rows_keys|intros row; by rewrite order_by_in, public_rows_in].
  rewrite (read_all_rows health_key (shown_row t0) (λ row, listing_string h t0 (row_position row)) (λ c, health_position (string_position h c))
             (handed h t0) (listing_read h limit c d) (Z.to_nat limit) (public_rows (t0 - 2592000) d) fuel ""); rewrite ?Hall; try done.
  - lia.
  - apply relay_rows_keys.
  - intros row Hrow. pose proof (listing_cursor_encodes h t0 d Hkey Hdb Hnow Hseen Hroom row Hrow) as He.
    destruct (string_position_encoded h t0 Hnow _ _ He) as (Hp&_). rewrite Hp. split; [|by destruct row].
    right. exists (row_position row). split; [done|]. right. apply public_rows_in in Hrow as (Hr&Hv&Hcut).
    destruct row as [a r]. simpl in *. destruct (relay_row_facts d a r Hdb Hr) as (?&?&_&?). pose proof (Hseen a r Hr Hv). done.
  - intros cursor Hh. by apply listing_page.
  - by left.
  - by rewrite (Permutation_length (order_by_perm health_key _)).
Qed.
End ListingOverHttp.

(** * The public HTTP listings over concrete tables The theorems of [PublicCursor], [PublicApiFacts] and [PublicListingFacts] applied to the directory of [DirectoryExamples] with a constant keyed hash, and a relay whose actor leaves no room for a cursor. *)

From S2P Require Import Telemetry Profile ProfileFacts Evidence DirectoryPages DirectoryWalk DirectoryExamples.

#[local] Instance sample_hashes : PublicHashes := {| hmac_sha256 key message := repeat "0"%char 32; sum256 message := repeat "1"%char 32 |}.
#[local] Instance sample_hash_laws : PublicHashLaws.
Proof. split. reflexivity. Qed.
Definition sample_public_handler : PublicListingHandler := PublicListingHandlerOf (repeat "k"%char 32) publicListingConcurrency.
Definition sample_cursor : directoryProjectionCursor := DirectoryProjectionCursorOf 2 3000 1 sample_actor.

Lemma cursor_roundtrip_witness : ∃ value, encodeDirectoryProjectionCursor (cursorKey sample_public_handler) sample_cursor = Some value ∧
  decodeDirectoryProjectionCursor (cursorKey sample_public_handler) value = Some sample_cursor.
Proof.
  set (sealed := encodeDirectoryProjectionCursor (cursorKey sample_public_handler) sample_cursor).
  assert (He : not_null sealed = true) by (vm_compute; reflexivity).
  destruct sealed as [value|] eqn:E; [|discriminate He]. exists value. split; [reflexivity|].
  assert (Hfits : projection_cursor_fits sample_cursor) by (vm_compute; discriminate).
  exact (proj2 (proj2 (cursor_roundtrip (cursorKey sample_public_handler) value) sample_cursor Hfits) E).
Defined.

Lemma sample_room a : eligible_now sample_probed a = true → cursor_room a.
Proof.
  intros Ha%public_actors_in. assert (Hp : public_actors sample_probed = [sample_actor]) by (vm_compute; reflexivity).
  rewrite Hp in Ha. destruct Ha as [<-|[]]. vm_compute. discriminate.
Qed.

(** The first request is at second 3000, every later one 200 seconds after it. *)
Definition sample_client : web_client := WebClient (λ cursor, time_of_unix (if cursor ≟ "" then 3000 else 3200)) (λ _, 3).
Lemma sample_client_clock cursor : 3000 ≤ unix_of (client_clock sample_client cursor) ≤ 3000 + 300.
Proof. cbn [client_clock sample_client]. rewrite unix_of_time_of_unix. destruct (cursor ≟ ""); lia. Qed.

(** Both times find the actor in the first tier. *)
Lemma sample_tier cursor : tier_at (unix_of (client_clock sample_client cursor)) sample_probed sample_extras sample_actor = Some DirectoryTierHeartbeatOnline.
Proof. cbn [client_clock sample_client]. rewrite unix_of_time_of_unix. by destruct (cursor ≟ ""); vm_compute. Qed.

Lemma http_directory_complete_witness :
  ∃ listing, read_all (http_read sample_public_handler 1 sample_client sample_extras sample_probed) 5 "" = Ok (map timed_shown listing) ∧
    strictly_sorted (λ entry, relay_position entry.2) listing ∧ ∃ t r, In (t, r) listing ∧ RelayActor r = sample_actor.
Proof.
  assert (Hf : (4 * length (public_actors sample_probed) < 5)%nat) by (vm_compute; lia).
  assert (Hmax : 3000 + 300 + 604800 ≤ int64_max) by (vm_compute; discriminate).
  assert (He : eligible_now sample_probed sample_actor = true) by (vm_compute; reflexivity).
  destruct (http_directory_complete sample_public_handler 1 3000 sample_client 5 sample_probed sample_extras sample_readable Hmax eq_refl
              sample_client_clock (λ _, eq_refl) sample_room eq_refl ltac:(lia) Hf) as (listing&Hall&Hs&_&Hshown).
  exists listing. split; [exact Hall|split; [exact Hs|]].
  destruct (Hshown sample_actor DirectoryTierHeartbeatOnline He sample_tier) as (t&r&Hin&Ha&_). exists t, r. split; [exact Hin|exact Ha].
Defined.

Lemma http_listing_complete_witness :
  ∃ rows, read_all (listing_read sample_public_handler 1 sample_client sample_probed) 2 "" =
      Ok (map (shown_row 3000) rows) ∧ strictly_sorted health_key rows.
Proof.
  destruct sample_probed_evidence as [Hok Hev].
  assert (Honly : ∀ a r, relays sample_probed !! a = Some r → a = sample_actor).
  { intros a r Hr. apply elem_of_map_to_list, (list_elem_of_fmap_2 fst) in Hr.
    assert (Hk : (map_to_list (relays sample_probed)).*1 = [sample_actor]) by (vm_compute; reflexivity).
    rewrite Hk in Hr. apply list_elem_of_singleton in Hr. exact Hr. }
  assert (Hseen : sightings_by 3000 sample_probed).
  { intros a r Hr _. exact (proj2 (ev_relays _ _ Hev a r Hr)). }
  assert (Hroom : ∀ a r, relays sample_probed !! a = Some r → visible_relay r = true → cursor_room a).
  { intros a r Hr _. rewrite (Honly a r Hr). vm_compute. discriminate. }
  assert (Hlen : (length (public_rows (3000 - 2592000) sample_probed) < 2)%nat) by (vm_compute; lia).
  destruct (http_listing_complete sample_public_handler 1 3000 sample_client sample_probed 2
    eq_refl (λ _, eq_refl) ltac:(unfold MaximumPublicListingPage; lia) Hok ltac:(unfold int64_max; lia) Hseen Hroom eq_refl sample_client_clock Hlen)
    as (rows&Hall&Hs&_).
  exists rows. split; [exact Hall|exact Hs].
Defined.

(** ** A relay no cursor can name *)

(** 1100 ampersands make a canonical actor well below the 4096-byte limit of a
    registration, but JSON writes each as six bytes and base64 as eight, so no
    cursor of at most 8192 bytes can name it. *)
Definition ampersand_actor : string := String.append "https://amp.example/" (str (repeat "&"%char 1100)).
Definition ampersand_directory : db :=
  after (OpRegister sample_intent) (time_of_unix 2000)
    (after (OpRegister {| register_actor := ampersand_actor; register_base := "https://amp.example" |}) (time_of_unix 1000) sample_open).
Lemma listing_blocked :
  canonical_identity ampersand_actor "https://amp.example" = true ∧ len ampersand_actor = 1120 ∧
  length (public_actors ampersand_directory) = 2%nat ∧
  loadPublicListing (Some sample_public_handler) 0 plain_call (page_query 1 "") (time_of_unix 3000) ampersand_directory = Err (unavailable "public listing") ∧
  loadDirectoryProjection (Some sample_public_handler) 0 plain_call (page_query 1 "") (time_of_unix 3000) sample_extras ampersand_directory =
    Err (unavailable "directory projection").
Proof. split_and!; vm_compute; reflexivity. Qed.
