(* ===== verification/Export.v ===== *)
(** * Export: downloads of the public directory

    [internal/directoryexport/export.go], which walks the pages of the public
    directory at one observation time, and [internal/httpapi/directory_export.go],
    which serves the host lists.  The repository is any sequence of answers, so a
    walk may see a different state on every page; the theorem on complete exports
    is about a state that stays the same. *)
From S2P Require Import Prelude GoNet Identity AddrText Canonical Text Vocabulary Store Session Repository Reachability Paging Health Telemetry Profile ProfileNormal Csv ProfileFacts Directory Evidence DirectoryFacts DirectoryPages DirectoryScan DirectoryWalk Replay Signature Admission Network Resolver WebText PublicCursor PublicApi Invariant Contract Refinement System Guarantees ReachabilityFacts PublicApiFacts DirectoryExamples PublicListingFacts.
From Stdlib Require Import Ascii.
Local Open Scope string_scope.
Local Open Scope Z_scope.
Local Open Scope go_scope.
Local Open Scope list_scope.

Definition MaximumExportPages : nat := 256.
Definition MaximumExportRelays : Z := 10000.
Inductive export_error := ErrExportConfiguration | ErrExportData (cause : option error) | ErrExportLimit | ErrExportRead (cause : error).

Definition ScopeActive : string := "active".
Definition ScopeAll : string := "all".
Definition ScopeUnavailable : string := "unavailable".
(** [Scope.Valid] *)
Definition Scope_Valid (scope : string) : bool := one_of [ScopeActive; ScopeAll; ScopeUnavailable] scope.
Definition FormatHosts : string := "hosts".
Definition FormatActors : string := "actors".
Definition FormatCSV : string := "csv".
(** [Format.Valid] *)
Definition Format_Valid (format : string) : bool := one_of [FormatHosts; FormatActors; FormatCSV] format.
Record export_request := ExportRequest { export_scope : string; export_format : string; export_observed : Z }.

Definition scopeIncludes (scope : string) (tier : Z) : bool :=
  if scope ≟ ScopeActive then (tier =? DirectoryTierHeartbeatOnline) || (tier =? DirectoryTierOnline)
  else if scope ≟ ScopeUnavailable then (tier =? DirectoryTierUnavailable) || (tier =? DirectoryTierGraveyard)
  else if scope ≟ ScopeAll then DirectoryTier_Valid tier
  else false.
Definition cursorAdvances (previous next : directory_cursor) `{RelayIdentity} : bool :=
  if directory_cursor_eqb next directory_start || negb (directory_cursor_valid next) then false
  else if directory_cursor_eqb previous directory_start then true
  else if negb (cursor_tier next =? cursor_tier previous) then cursor_tier previous <? cursor_tier next
  else key_ltb (cursor_actor previous) (cursor_actor next).
(** [sort.Slice] by tier and actor; the actors are distinct, so the order is total. *)
Definition sortDirectoryRelays `{ProfileReader} (relays : list directory_relay) : list directory_relay := order_by relay_position relays.

Section Render.
Context `{RelayIdentity}.

(** What a walk asks its repository: one page by its number, one profile after the walk. *)
Record export_repository := ExportRepository {
  export_page : nat → directory_query → result error directory_page;
  export_profile : option (string → result error profile) }.

Definition host_of (relay : directory_relay) : option bytes :=
  match parse_url (b (PublicBaseURL relay)) with
  | None => None
  | Some (parsed, _) =>
      let u := url_target parsed in
      if negb (bytes_eqb (Scheme u) (b "https")) || bytes_eqb (Host u) [] || HasUser u || negb (bytes_eqb (GoNet.Path u) []) ||
         negb (bytes_eqb (RawQuery u) []) || negb (bytes_eqb (url_fragment parsed) []) then None
      else Some (Host u)
  end.
Fixpoint renderRelays (relays : list directory_relay) (format : string) : result export_error bytes :=
  match relays with
  | [] => Ok []
  | relay :: rest =>
      match (if format ≟ FormatHosts then host_of relay else Some (b (RelayActor relay))) with
      | None => Err (ErrExportData None)
      | Some value =>
          match renderRelays rest format with
          | Ok output => Ok (value ++ newline :: output)
          | Err e => Err e
          end
      end
  end.

Fixpoint profile_records (effective : string → result error profile) (relays : list directory_relay) : result export_error (list csv_profile) :=
  match relays with
  | [] => Ok []
  | relay :: rest =>
      match effective (RelayActor relay) with
      | Err e => Err (ErrExportData (Some e))
      | Ok p =>
          match profile_records effective rest with
          | Ok records => Ok (CsvProfile 0 (RelayActor relay) p "" :: records)
          | Err e => Err e
          end
      end
  end.
Definition renderProfileCSV (effective : option (string → result error profile)) (relays : list directory_relay) : result export_error bytes :=
  match effective with
  | None => Err ErrExportConfiguration
  | Some effective =>
      match profile_records effective relays with
      | Err e => Err e
      | Ok records =>
          match Encode records with
          | Some body => Ok body
          | None => Err (ErrExportData None)
          end
      end
  end.

(** The relays of one page: validated again, none seen before, those in scope kept. *)
Fixpoint collect (scope : string) (observedUnix : Z) (page : list directory_relay) (seen : gset string) (relays : list directory_relay)
    : result export_error (gset string * list directory_relay) :=
  match page with
  | [] => Ok (seen, relays)
  | relay :: rest =>
      if negb (ValidateDirectoryProjectionRelay relay observedUnix) then Err (ErrExportData (Some ErrDirectoryProjectionData))
      else if bool_decide (RelayActor relay ∈ seen) then Err (ErrExportData None)
      else
        let seen := {[RelayActor relay]} ∪ seen in
        if negb (scopeIncludes scope (Tier relay)) then collect scope observedUnix rest seen relays
        else if MaximumExportRelays <=? Z.of_nat (length relays) then Err ErrExportLimit
        else collect scope observedUnix rest seen (relays ++ [relay])
  end.
(** The loop over the pages; [pages] are left of the maximum. *)
Fixpoint export_walk (repository : export_repository) (request : export_request) (pages : nat) (after : directory_cursor)
    (seen : gset string) (relays : list directory_relay) : result export_error (list directory_relay) :=
  match pages with
  | O => Err ErrExportLimit
  | S pages =>
      match export_page repository (MaximumExportPages - S pages) (DirectoryQuery after directory_start MaximumDirectoryProjectionPage (export_observed request)) with
      | Err e => Err (ErrExportRead e)
      | Ok page =>
          match collect (export_scope request) (unix_of (export_observed request)) (page_relays page) seen relays with
          | Err e => Err e
          | Ok (seen, relays) =>
              if directory_cursor_eqb (page_next page) directory_start then Ok relays
              else if negb (cursorAdvances after (page_next page)) then Err (ErrExportData None)
              else export_walk repository request pages (page_next page) seen relays
          end
      end
  end.
Definition Render (repository : option export_repository) (request : export_request) : result export_error bytes :=
  match repository with
  | None => Err ErrExportConfiguration
  | Some repository =>
      if negb (Scope_Valid (export_scope request)) || negb (Format_Valid (export_format request)) || (unix_of (export_observed request) <? 0)
      then Err ErrExportConfiguration
      else
        match export_walk repository request MaximumExportPages directory_start ∅ [] with
        | Err e => Err e
        | Ok relays =>
            let relays := sortDirectoryRelays relays in
            if export_format request ≟ FormatCSV then renderProfileCSV (export_profile repository) relays
            else renderRelays relays (export_format request)
        end
  end.

(** The SQLite repository while its database stays the same. *)
Definition sqlite_export (c : call) (x : extras) (d : db) : export_repository :=
  ExportRepository (λ _ q, ListDirectoryRelays c x q d) (Some (λ actor, EffectiveProfile c (profile_rows x) actor d)).

(** ** The downloads *)

Definition writeDirectoryExportError (request : web_request) (status : Z) (message : string) : web_response :=
  plain_response status "text/plain; charset=utf-8" "no-store" (body_for request (b message ++ [newline])).
Definition with_attachment (filename : string) (r : web_response) : web_response :=
  WebResponse (web_status r) (web_type r) (web_cache r) (web_etag r) (web_retry r) (web_allow r) (web_csp r)
    (Some ("attachment; filename=" +:+ str [quote] +:+ filename +:+ str [quote])) (web_body r).
Definition serveDirectoryExport `{PublicHashes} (handler : option PublicListingHandler) (busy : Z) (repository : export_repository)
    (request : web_request) (now : Z) (scope filename : string) : web_response :=
  match allowReadMethod request with
  | Some refused => refused
  | None =>
      if negb (bytes_eqb (web_query request) []) then writeDirectoryExportError request StatusBadRequest "invalid directory download request"
      else
        match handler with
        | None => writeDirectoryExportError request StatusServiceUnavailable "directory download temporarily unavailable"
        | Some h =>
            if negb (admits h busy)
            then with_retry "1" (writeDirectoryExportError request StatusTooManyRequests "directory download request limit exceeded")
            else
              match Render (Some repository) (ExportRequest scope FormatHosts now) with
              | Err _ => writeDirectoryExportError request StatusServiceUnavailable "directory download temporarily unavailable"
              | Ok body => with_attachment filename (writeCacheablePublicRepresentation request "text/plain; charset=utf-8" body)
              end
        end
  end.
End Render.

(** ** One page *)

Section Walks.
Context `{RelayIdentity} `{!CanonicalURLs}.

Definition in_scope (scope : string) (r : directory_relay) : bool := scopeIncludes scope (Tier r).
Definition actors_of (relays : list directory_relay) : list string := map RelayActor relays.

Lemma collect_valid scope now page seen relays : Forall (λ r, ValidateDirectoryProjectionRelay r now = true) page →
  NoDup (actors_of page) → (∀ r, In r page → RelayActor r ∉ seen) → Z.of_nat (length relays) ≤ MaximumExportRelays →
  ∃ seen', (∀ a, a ∈ seen' ↔ a ∈ seen ∨ In a (actors_of page)) ∧
    let kept := relays ++ List.filter (in_scope scope) page in
    collect scope now page seen relays = if MaximumExportRelays <? Z.of_nat (length kept) then Err ErrExportLimit else Ok (seen', kept).
Proof.
  intros Hv. revert seen relays. induction Hv as [|r page Hr Hv IH]; intros seen relays Hnd Hfresh Hmax.
  - exists seen. split; [intros a; simpl; tauto|]. cbn [collect List.filter]. rewrite app_nil_r. by rewrite (proj2 (Z.ltb_ge _ _)).
  - cbn [actors_of map] in Hnd. apply list.NoDup_cons in Hnd as [Hn Hnd]. rewrite list_elem_of_In in Hn. cbn [collect]. rewrite Hr. cbn [negb].
    rewrite bool_decide_eq_false_2 by (apply Hfresh; by left). cbv zeta.
    assert (Hfresh' : ∀ r', In r' page → RelayActor r' ∉ {[RelayActor r]} ∪ seen).
    { intros r' Hr'. rewrite elem_of_union, elem_of_singleton. intros [E|E]; [|by apply (Hfresh r'); [right|]].
      apply Hn. rewrite <- E. by apply in_map. }
    unfold in_scope. cbn [List.filter]. destruct (scopeIncludes scope (Tier r)) eqn:Hs; cbn [negb].
    + destruct (Z.leb_spec MaximumExportRelays (Z.of_nat (length relays))) as [Hfull|Hroom].
      * exists ({[RelayActor r]} ∪ seen ∪ list_to_set (actors_of page)). split; [intros a; rewrite !elem_of_union, elem_of_singleton, elem_of_list_to_set, list_elem_of_In; cbn [actors_of map In]; split; [intros [[->|?]|?]|intros [?|[<-|?]]]; auto|].
        rewrite (proj2 (Z.ltb_lt _ _)); [done|]. rewrite length_app. simpl. lia.
      * destruct (IH ({[RelayActor r]} ∪ seen) (relays ++ [r]) Hnd Hfresh') as (seen'&Hin&->); [rewrite length_app; simpl; lia|].
        exists seen'. split; [intros a; rewrite Hin, elem_of_union, elem_of_singleton; cbn [actors_of map In]; split; [intros [[->|?]|?]|intros [?|[<-|?]]]; auto|]. cbv zeta. by rewrite <- app_assoc.
    + destruct (IH ({[RelayActor r]} ∪ seen) relays Hnd Hfresh' Hmax) as (seen'&Hin&->).
      exists seen'. split; [intros a; rewrite Hin, elem_of_union, elem_of_singleton; cbn [actors_of map In]; split; [intros [[->|?]|?]|intros [?|[<-|?]]]; auto|done].
Qed.

(** ** Any repository *)

(** What a walk has kept so far is in scope, valid and free of repetitions. *)
Definition collected (scope : string) (now : Z) (seen : gset string) (relays : list directory_relay) : Prop :=
  Forall (λ r, ValidateDirectoryProjectionRelay r now = true ∧ in_scope scope r = true ∧ RelayActor r ∈ seen) relays ∧
  NoDup (actors_of relays) ∧ Z.of_nat (length relays) ≤ MaximumExportRelays.
Lemma collected_more scope now seen seen' relays : (∀ a, a ∈ seen → a ∈ seen') → collected scope now seen relays → collected scope now seen' relays.
Proof. intros Hs (Hf&?&?). split_and!; [|done..]. eapply List.Forall_impl; [|exact Hf]. intros r (?&?&?). auto. Qed.
Lemma collect_keeps scope now page : ∀ seen relays seen' relays', collected scope now seen relays →
  collect scope now page seen relays = Ok (seen', relays') → collected scope now seen' relays' ∧ (∀ a, a ∈ seen → a ∈ seen').
Proof.
  induction page as [|r page IH]; intros seen relays seen' relays' Hc; cbn [collect]; [by intros [= <- <-]|].
  destruct (ValidateDirectoryProjectionRelay r now) eqn:Hv; [|done]. cbn [negb]. case_bool_decide as Hr; [done|]. cbv zeta.
  assert (Hmore : ∀ a, a ∈ seen → a ∈ ({[RelayActor r]} ∪ seen : gset string)) by (intros a Ha; apply elem_of_union; by right).
  destruct (scopeIncludes scope (Tier r)) eqn:Hs; cbn [negb].
  - destruct (Z.leb_spec MaximumExportRelays (Z.of_nat (length relays))); [done|]. intros Hrun. apply IH in Hrun as [? Hin]; [split; [done|by auto]|].
    destruct Hc as (Hf&Hnd&Hl). split_and!.
    + apply List.Forall_app. split; [eapply List.Forall_impl; [|exact Hf]; intros r' (?&?&?); auto|]. constructor; [|done]. split_and!; [done|done|apply elem_of_union; left; by apply elem_of_singleton].
    + unfold actors_of. rewrite map_app. apply list.NoDup_app. split_and!; [done| |by apply NoDup_singleton].
      intros a Ha. apply list_elem_of_In, in_map_iff in Ha as (r'&<-&Hr'). rewrite List.Forall_forall in Hf. destruct (Hf r' Hr') as (_&_&Hin'). intros E%list_elem_of_singleton. rewrite E in Hin'. done.
    + rewrite length_app. simpl. lia.
  - intros Hrun. apply IH in Hrun as [? Hin]; [split; [done|by auto]|]. by eapply collected_more.
Qed.
Lemma export_walk_collected repository request pages : ∀ after seen relays result,
  collected (export_scope request) (unix_of (export_observed request)) seen relays →
  export_walk repository request pages after seen relays = Ok result →
  ∃ seen', collected (export_scope request) (unix_of (export_observed request)) seen' result.
Proof.
  induction pages as [|pages IH]; intros after seen relays result Hc; cbn [export_walk]; [done|].
  destruct (export_page _ _ _) as [page|]; [|done]. destruct (collect _ _ _ _ _) as [[seen' relays']|] eqn:E; [|done].
  apply collect_keeps in E as [Hc' _]; [|done]. destruct (directory_cursor_eqb _ _); [intros [= <-]; by exists seen'|].
  destruct (cursorAdvances _ _); [|done]. by apply IH.
Qed.

(** ** A repository at rest *)

Section AtRest.
Context (now t : Z) (d : db) (x : extras).
Hypothesis Hread : readable now d x.
Hypothesis Hnow : unix_of t = now.
Abbreviation shown := (hits now d x).
Definition whole_listing : list directory_relay := shown (all_slots d).

Lemma whole_listing_in r : In r whole_listing ↔ eligible_now d (RelayActor r) = true ∧ detail_of now d x (RelayActor r) = Ok (Some r).
Proof. apply (all_hits_in now d x Hread). Qed.
Lemma whole_listing_sorted : strictly_sorted relay_position whole_listing.
Proof. apply (hits_sorted now d x Hread); [apply all_slots_sorted|intros slot; apply all_slots_public]. Qed.
Lemma whole_listing_actors : NoDup (actors_of whole_listing).
Proof.
  pose proof (strictly_sorted_NoDup relay_position _ whole_listing_sorted) as Hnd. unfold actors_of.
  assert (Hinj : ∀ r1 r2, In r1 whole_listing → In r2 whole_listing → RelayActor r1 = RelayActor r2 → r1 = r2).
  { intros r1 r2 [_ E1]%whole_listing_in [_ E2]%whole_listing_in E. rewrite E in E1. congruence. }
  revert Hnd Hinj. generalize whole_listing. induction l as [|r l IH]; intros Hnd Hinj; [constructor|].
  apply list.NoDup_cons in Hnd as [Hn Hnd]. cbn [map]. apply list.NoDup_cons. split.
  - intros Hin. apply list_elem_of_In, in_map_iff in Hin as (r'&E&Hr'). apply Hn, list_elem_of_In.
    rewrite (Hinj r r'); [done|by left|by right|done].
  - apply IH; [done|]. intros r1 r2 H1 H2. apply Hinj; by right.
Qed.
Lemma whole_listing_length : (length whole_listing <= length (public_actors d))%nat.
Proof.
  rewrite <- (length_map RelayActor). apply NoDup_incl_length.
  - apply NoDup_ListNoDup, whole_listing_actors.
  - intros a (r&<-&Hr)%in_map_iff. apply whole_listing_in in Hr as [He _]. by apply public_actors_in.
Qed.

Lemma public_all_listed : (length (public_actors d) <= length whole_listing)%nat.
Proof.
  rewrite <- (length_map RelayActor whole_listing). apply NoDup_incl_length.
  - apply NoDup_ListNoDup, (strictly_sorted_NoDup (λ a : string, a)), public_actors_sorted.
  - intros a Ha%public_actors_in. destruct (row_of_public now d x Hread a Ha) as (r&Hd&_&Hr&_). apply in_map_iff. exists r.
    split; [done|]. apply whole_listing_in. by rewrite Hr.
Qed.

Lemma actors_of_app l1 l2 : actors_of (l1 ++ l2) = actors_of l1 ++ actors_of l2.
Proof. apply map_app. Qed.
Lemma advance_ok after pre kept slot : directory_cursor_valid after = true → pre = kept ++ [slot] → public_slot d slot →
  (started after = true → key_ltb (cursor_key after) slot = true) → cursorAdvances after (slot_cursor (Some slot)) = true.
Proof.
  intros Hv Hpre Hp Hahead. destruct (public_slot_cursor now d x Hread slot Hp) as [Hsv Hss]. unfold cursorAdvances. rewrite Hss, Hsv. cbn [orb negb].
  unfold started in Hahead. destruct (directory_cursor_eqb after directory_start); [done|]. specialize (Hahead eq_refl).
  destruct slot as [ts a], after as [ta aa]. unfold cursor_key in Hahead. cbn [slot_cursor cursor_tier cursor_actor] in *.
  unfold key_ltb in Hahead; simpl in Hahead. change (key_ltb ta ts) with (ta <? ts) in Hahead. change (key_ltb ts ta) with (ts <? ta) in Hahead.
  destruct (Z.eqb_spec ts ta) as [->|Hne]; cbn [negb].
  - rewrite Z.ltb_irrefl in Hahead. cbn [orb andb negb] in Hahead. exact Hahead.
  - apply orb_true_iff in Hahead as [?|[Hle%negb_true_iff _]%andb_true_iff]; [done|]. apply Z.ltb_ge in Hle. apply Z.ltb_lt. lia.
Qed.

Variables (scope : string) (format : string).
Abbreviation kept relays := (List.filter (in_scope scope) relays).
Abbreviation request := (ExportRequest scope format t).
(** A walk from [pages] pages before its end: it is refused or keeps the whole scope;
    refused when the scope is too large, and when the relays ahead fill more pages
    than are left; not refused when the scope is small and the pages are enough for
    the slots and relays ahead. *)
Definition walk_result (pages : nat) (rest : list (Z * string)) (result : result export_error (list directory_relay)) : Prop :=
  let size := Z.of_nat (length (kept whole_listing)) in
  (result = Err ErrExportLimit ∨
   result = Ok (kept whole_listing) ∧ size ≤ MaximumExportRelays ∧ (length (shown rest) <= 100 * pages)%nat) ∧
  (size ≤ MaximumExportRelays → (length rest + 4 * length (shown rest) < 400 * pages)%nat → result = Ok (kept whole_listing)).

Lemma export_walk_run pages : ∀ after pre rest seen, directory_cursor_valid after = true → slots_after d after = rest → all_slots d = pre ++ rest →
  (∀ a, a ∈ seen ↔ In a (actors_of (shown pre))) → Z.of_nat (length (kept (shown pre))) ≤ MaximumExportRelays →
  walk_result pages rest (export_walk (sqlite_export plain_call x d) request pages after seen (kept (shown pre))).
Proof.
  induction pages as [|pages IH]; intros after pre rest seen Hv Hrest Hall Hseen Hmax.
  { split; [by left|]. intros _ Hcost. clear -Hcost. lia. }
  cbn [export_walk].
  destruct (forward_page_cursors now d x Hread after 100 t) as (page&Hpage&(pre'&rest'&Hs&Hrel&Hlen&_&Hnext)); [done|lia|done|].
  change (Z.of_nat 100) with MaximumDirectoryProjectionPage in Hpage. cbn [export_page sqlite_export export_observed]. rewrite Hpage.
  destruct (forward_rows_sorted now d x Hread after pre' rest' Hv Hs) as (Hval&_&_&Hpre&_). rewrite <- Hrel in Hval.
  rewrite Hs in Hrest. subst rest.
  assert (Hsplit : whole_listing = shown pre ++ page_relays page ++ shown rest').
  { unfold whole_listing. by rewrite Hall, !hits_app, Hrel. }
  pose proof whole_listing_actors as Hnd. rewrite Hsplit, !actors_of_app in Hnd. apply list.NoDup_app in Hnd as (_&Hdis&Hnd).
  apply list.NoDup_app in Hnd as (Hnd&_&_).
  destruct (collect_valid scope now (page_relays page) seen (kept (shown pre)) Hval Hnd) as (seen'&Hin&Hrun).
  { intros r Hr Hs'. apply Hseen in Hs'. apply (Hdis (RelayActor r)); [by apply list_elem_of_In|]. apply elem_of_app. left.
    apply list_elem_of_In. by apply in_map. }
  { done. }
  cbv zeta in Hrun. cbn [export_scope]. rewrite Hnow, Hrun. rewrite <- List.filter_app.
  assert (Hpre' : shown pre ++ page_relays page = shown (pre ++ pre')) by (by rewrite hits_app, Hrel). rewrite Hpre'.
  destruct (Z.ltb_spec MaximumExportRelays (Z.of_nat (length (kept (shown (pre ++ pre')))))) as [Hfull|Hroom].
  { split; [by left|]. intros Hsize. exfalso. rewrite Hsplit, app_assoc, Hpre', List.filter_app, length_app in Hsize. lia. }
  destruct Hnext as [[-> Hend]|(k&slot&Hk&Hp&->&Hfull)].
  - change (directory_cursor_eqb directory_start directory_start) with true. cbv iota.
    assert (Hwhole : whole_listing = shown (pre ++ pre')) by (by rewrite Hsplit, Hend, app_nil_r).
    unfold walk_result. rewrite Hwhole. split; [right; split_and!; [done|done|]|done]. rewrite hits_app, length_app, Hend, <- Hrel. simpl. lia.
  - destruct (public_slot_cursor now d x Hread slot Hp) as [Hsv Hss]. rewrite Hss.
    rewrite (advance_ok after pre' k slot Hv Hk Hp) by (apply Hpre; rewrite Hk; apply in_or_app; right; by left). cbn [negb].
    destruct (IH (slot_cursor (Some slot)) (pre ++ pre') rest' seen') as [Hor Henough]; [done| |by rewrite Hall, <- app_assoc| |done|].
    + rewrite (next_slots_after now d x Hread slot Hp). apply (slots_after_resume now d x Hread after k slot rest' Hv). by rewrite Hs, Hk, <- app_assoc.
    + intros a. rewrite Hin, Hseen, <- Hpre', actors_of_app, in_app_iff. done.
    + split.
      * destruct Hor as [?|(?&?&?)]; [by left|right]. split_and!; [done|done|]. rewrite hits_app, length_app, <- Hrel. lia.
      * intros Hsize Hcost. apply Henough; [done|]. rewrite length_app, hits_app, length_app, <- Hrel in Hcost. destruct Hfull; lia.
Qed.

(** 256 pages are enough for 12,799 public actors: every page but the last looks at
    400 slots, four for each actor, or shows 100 relays.  They show 25,600 at most. *)
Lemma export_walk_whole : let result := export_walk (sqlite_export plain_call x d) request MaximumExportPages directory_start ∅ [] in
  let size := Z.of_nat (length (kept whole_listing)) in let public := Z.of_nat (length (public_actors d)) in
  (result = Err ErrExportLimit ∨ result = Ok (kept whole_listing) ∧ size ≤ MaximumExportRelays ∧ public ≤ 25600) ∧
  (size ≤ MaximumExportRelays → public ≤ 12799 → result = Ok (kept whole_listing)).
Proof.
  intros result size public. pose proof whole_listing_length as Hle. pose proof public_all_listed as Hge.
  destruct (export_walk_run MaximumExportPages directory_start [] (all_slots d) ∅) as [Hor Henough];
    [done|apply (next_slots_all now d x Hread)|done| |done|].
  { intros a. split; [by intros ?%not_elem_of_empty|intros []]. }
  fold whole_listing in Hor, Henough. rewrite (all_slots_length d) in Henough. unfold MaximumExportPages in Hor.
  split; [destruct Hor as [?|(?&?&?)]; [by left|right; split_and!; [done|done|lia]]|].
  intros Hsize Hp. apply Henough; [done|]. unfold MaximumExportPages. lia.
Qed.
End AtRest.
End Walks.

(** ** Rendering *)

Section Rendering.
Context `{RelayIdentity} `{!CanonicalURLs}.

(** The line of a relay: its actor, or the host of its base URL [https://host]. *)
Definition export_line (format : string) (r : directory_relay) : bytes :=
  if format ≟ FormatHosts then drop 8 (b (PublicBaseURL r)) else b (RelayActor r).
Definition export_lines (format : string) (relays : list directory_relay) : bytes := flat_map (λ r, export_line format r ++ [newline]) relays.
Lemma render_lines format relays : (∀ r, In r relays → host_of r = Some (export_line FormatHosts r)) →
  renderRelays relays format = Ok (export_lines format relays).
Proof.
  intros Hh. induction relays as [|r relays IH]; [done|]. cbn [renderRelays]. unfold export_lines. cbn [flat_map].
  rewrite IH by (intros; apply Hh; by right).
  assert ((if format ≟ FormatHosts then host_of r else Some (b (RelayActor r))) = Some (export_line format r)) as ->.
  { unfold export_line. destruct (format ≟ FormatHosts); [exact (Hh r (or_introl eq_refl))|done]. }
  rewrite <- app_assoc. done.
Qed.

Definition export_record (r : directory_relay) : csv_profile := CsvProfile 0 (RelayActor r) (Profile r : profile) "".
Definition exportable_relay (r : directory_relay) : Prop :=
  ValidProfileRelayActor (RelayActor r) = true ∧ NormalizeRelayProfile (Profile r) = Ok (Profile r : profile).
Lemma encode_exportable relays : Forall exportable_relay relays → ∃ body, Encode (map export_record relays) = Some body.
Proof.
  intros Hf. unfold Encode. assert (∃ rows, encode_rows (map export_record relays) = Some rows) as [rows ->]; [|by eexists].
  induction Hf as [|r relays [Hv Hp] Hf [rows IH]]; [by eexists|]. cbn [map encode_rows export_record csv_Relay csv_Profile]. rewrite Hv, Hp. cbn [negb].
  rewrite IH. by eexists.
Qed.
Lemma profile_records_run effective relays : (∀ r, In r relays → effective (RelayActor r) = Ok (Profile r : profile)) →
  profile_records effective relays = Ok (map export_record relays).
Proof.
  intros He. induction relays as [|r relays IH]; [done|]. cbn [profile_records map]. rewrite (He r) by (by left).
  rewrite IH by (intros; apply He; by right). done.
Qed.

Section AtRest.
Context (now t : Z) (d : db) (x : extras).
Hypothesis Hread : readable now d x.
Lemma listed_profile r : In r (whole_listing now d x) →
  EffectiveProfile plain_call (profile_rows x) (RelayActor r) d = Ok (Profile r : profile) ∧ exportable_relay r.
Proof.
  intros [He Hr]%(whole_listing_in now d x Hread). pose proof (eligible_canonical d _ (rd_ok _ _ _ Hread) He) as Hc.
  assert (Hv : ValidProfileRelayActor (RelayActor r) = true) by by apply canonical_valid.
  assert (Hp : (Profile r : profile) = effective_profile (profile_rows x) (RelayActor r)).
  { destruct (directory_detail_public now d (telemetry x) (effectiveProfile (profile_rows x) (RelayActor r)) (RelayActor r))
      as (r'&Hr'&_&Hp&_); try apply Hread; [by apply effective_normalized, (rd_profiles _ _ _ Hread)|done|].
    unfold detail_of in Hr. rewrite Hr' in Hr. injection Hr as <-. exact Hp. }
  rewrite Hp. split; [apply effective_call; [apply (rd_profiles _ _ _ Hread)|done|by apply (eligible_retained d)]|].
  split; [done|]. rewrite Hp. by apply effective_fixed, (rd_profiles _ _ _ Hread).
Qed.
End AtRest.
End Rendering.

(** The host of a canonical base URL. *)
Lemma empty_escaped u : EscapedPath u = [] → GoNet.Path u = [].
Proof.
  unfold EscapedPath. destruct (RawPath u) as [|c p] eqn:E; cbn [bytes_eqb negb andb].
  - destruct (bytes_eqb (GoNet.Path u) (b "*")); [done|]. destruct (GoNet.Path u) as [|c p]; [done|]. cbn [escape_path flat_map].
    by destruct (should_escape c encodePath).
  - destruct (_ && _); [done|]. destruct (bytes_eqb (GoNet.Path u) (b "*")); [done|]. destruct (GoNet.Path u) as [|c' p']; [done|].
    cbn [escape_path flat_map]. by destruct (should_escape c' encodePath).
Qed.
Lemma host_of_canonical (r : @directory_relay profile_reader) : canonical_identity (RelayActor r) (PublicBaseURL r) = true →
  host_of r = Some (export_line FormatHosts r).
Proof.
  unfold canonical_identity. cbn [norm_identity go_identity]. destruct (NormalizeRelayIdentity _ _) as [[a u]|] eqn:E; [|done].
  intros [->%String.eqb_eq Hu%String.eqb_eq]%andb_true_iff. apply NormalizeRelayIdentity_inv in E as (na&nb&_&Hb&_&->&Ho).
  apply normalizeRelayURL_canonical in Hb as (authority&path&Hauth&Ho2&Hv&->). rewrite app_nil_r in Hv. rewrite <- Ho, Hv, Ho2 in Hu.
  unfold host_of, export_line. change (FormatHosts ≟ FormatHosts) with true. cbv iota. rewrite <- Hu, b_str.
  destruct (Parse_canonical authority [] Hauth) as (w&Hw&Hs&_&Hus&Hh&Hp&_&Hq); [by left|]. rewrite app_nil_r in Hw.
  unfold parse_url. rewrite cut_free.
  2:{ apply url_free; [|intros d Hd; by apply url_char_facts]. rewrite <- (app_nil_r authority). by apply url_chars; [|left]. }
  rewrite Hw. cbn [mbind option_bind url_target url_fragment]. rewrite Hs, Hus, Hh, (empty_escaped _ Hp), Hq.
  destruct (canonical_authority_chars authority Hauth) as [_ Hne]. destruct authority as [|c authority]; [done|]. done.
Qed.

Lemma valid_identity (r : @directory_relay profile_reader) now : ValidateDirectoryProjectionRelay r now = true →
  canonical_identity (RelayActor r) (PublicBaseURL r) = true.
Proof.
  unfold ValidateDirectoryProjectionRelay, ValidateDirectoryProjectionEvidence, identity_evidence. rewrite !andb_true_iff. tauto.
Qed.
Lemma listed_identity now d x r : readable now d x → In r (whole_listing now d x) → canonical_identity (RelayActor r) (PublicBaseURL r) = true.
Proof.
  intros Hread Hr. apply (valid_identity r now). eapply hits_slots; [exact Hread|intros slot; apply all_slots_public|exact Hr].
Qed.

(** ** The downloads are complete *)

(** The rows a CSV download is imported as, under the numbers of their lines. *)
Fixpoint imported_from (line : Z) (relays : list directory_relay) : list csv_profile :=
  match relays with
  | [] => []
  | r :: rest => CsvProfile line (RelayActor r) (Profile r : profile) "" :: imported_from (line + 1) rest
  end.
Lemma read_back_exported relays : Forall exportable_relay relays → ∀ line, read_back_from line (map export_record relays) = imported_from line relays.
Proof.
  induction 1 as [|r relays [_ Hp] Hf IH]; intros line; [done|]. cbn [map read_back_from imported_from]. rewrite IH.
  unfold read_back. cbn [export_record csv_Relay csv_Profile]. by rewrite Hp.
Qed.
(** What a document in each format shows of a listing. *)
Definition shows (format : string) (listing : list directory_relay) (body : bytes) : Prop :=
  if format ≟ FormatCSV
  then listing ≠ [] → ∀ label, ValidDiscoverySourceLabel label = true → label ≠ "" →
       Decode body label (Z.of_nat (length listing)) = Some (imported_from 2 listing)
  else body = export_lines format listing.

Lemma rendered_listing now d x scope format : readable now d x → let listing := List.filter (in_scope scope) (whole_listing now d x) in
  ∃ body, (if format ≟ FormatCSV then renderProfileCSV (export_profile (sqlite_export plain_call x d)) (sortDirectoryRelays listing)
           else renderRelays (sortDirectoryRelays listing) format) = Ok body ∧
    shows format listing body.
Proof.
  intros Hread listing. assert (Hin : ∀ r, In r listing → In r (whole_listing now d x)) by (intros r [Hr _]%filter_In; exact Hr).
  assert (Hsorted : strictly_sorted relay_position listing) by (apply StronglySorted_filter, (whole_listing_sorted now d x Hread)).
  assert (sortDirectoryRelays listing = listing) as ->.
  { unfold sortDirectoryRelays. apply (StronglySorted_unique relay_position); [|done|apply order_by_perm].
    apply order_by_sorted. by apply strictly_sorted_keys. }
  unfold shows. destruct (format ≟ FormatCSV).
  - assert (Hex : Forall exportable_relay listing).
    { apply List.Forall_forall. intros r Hr. by apply (listed_profile now d x Hread), Hin. }
    cbn [renderProfileCSV sqlite_export export_profile].
    rewrite profile_records_run by (intros r Hr; by apply (listed_profile now d x Hread), Hin).
    destruct (encode_exportable listing Hex) as [body Hb]. rewrite Hb. exists body. split; [done|]. intros Hne label Hl Hl'.
    rewrite <- read_back_exported by done. apply (encoded_document _ _ _ _ Hb); [|by rewrite length_map|done|done].
    by destruct listing.
  - exists (export_lines format listing). split; [|done]. apply render_lines. intros r Hr%Hin. apply host_of_canonical.
    by apply (listed_identity now d x r Hread).
Qed.

(** C39: Downloads are complete over a state that stays the same.  An export of a
    scope is either refused with the limit error or shows exactly the public relays
    of the tiers of its scope, each once, by tier and actor: one actor per line, one
    host per line, or a CSV document whose import returns their actors and effective
    profiles.  It is refused when the scope holds more than 10,000 relays, and, since
    the walk stops after 256 pages, when there are more than 25,600 public actors in
    whatever tiers; it is not refused when the scope holds at most 10,000 relays of at
    most 12,799 public actors.  In between, the tiers decide how many pages it takes. *)
Theorem export_complete scope format t d x : readable (unix_of t) d x → Scope_Valid scope = true → Format_Valid format = true →
  ∃ listing, strictly_sorted relay_position listing ∧
    (∀ r, In r listing ↔ eligible_now d (RelayActor r) = true ∧ detail_of (unix_of t) d x (RelayActor r) = Ok (Some r) ∧ scopeIncludes scope (Tier r) = true) ∧
    let answer := Render (Some (sqlite_export plain_call x d)) (ExportRequest scope format t) in
    let size := Z.of_nat (length listing) in let public := Z.of_nat (length (public_actors d)) in
    (answer = Err ErrExportLimit ∨ ∃ body, answer = Ok body ∧ shows format listing body) ∧
    (MaximumExportRelays < size ∨ 25600 < public → answer = Err ErrExportLimit) ∧
    (size ≤ MaximumExportRelays → public ≤ 12799 → ∃ body, answer = Ok body).
Proof.
  intros Hread Hscope Hformat. set (now := unix_of t) in *. set (listing := List.filter (in_scope scope) (whole_listing now d x)).
  assert (Hin : ∀ r, In r listing → In r (whole_listing now d x)) by (intros r [Hr _]%filter_In; exact Hr).
  assert (Hsorted : strictly_sorted relay_position listing) by (apply StronglySorted_filter, (whole_listing_sorted now d x Hread)).
  exists listing. split; [exact Hsorted|]. split.
  { intros r. unfold listing. rewrite filter_In, (whole_listing_in now d x Hread). unfold in_scope. tauto. }
  destruct (rendered_listing now d x scope format Hread) as (body&Hbody&Hshows). fold listing in Hbody, Hshows.
  destruct (export_walk_whole now t d x Hread eq_refl scope format) as [Hor Henough]. fold listing in Hor, Henough.
  unfold Render. cbn [export_scope export_format export_observed]. destruct (rd_clock _ _ _ Hread) as [Hn _].
  rewrite Hscope, Hformat. fold now. rewrite (proj2 (Z.ltb_ge now 0) Hn). cbn [negb orb]. cbv zeta.
  split_and!.
  - destruct Hor as [->|(->&_&_)]; [by left|right]. exists body. by rewrite Hbody.
  - intros Hlarge. destruct Hor as [->|(_&?&?)]; [done|lia].
  - intros Hsize Hp. rewrite Henough by done. exists body. by rewrite Hbody.
Qed.

(** Every walk that ends, over any repository, wherever its pages come from and
    however they change, exports distinct valid relays of its scope in order. *)
Theorem export_sound repository scope format t body : Render (Some repository) (ExportRequest scope format t) = Ok body → format ≠ FormatCSV →
  ∃ relays, strictly_sorted relay_position relays ∧ NoDup (actors_of relays) ∧ Z.of_nat (length relays) ≤ MaximumExportRelays ∧
    (∀ r, In r relays → ValidateDirectoryProjectionRelay r (unix_of t) = true ∧ scopeIncludes scope (Tier r) = true) ∧
    body = export_lines format relays.
Proof.
  unfold Render. cbn [export_scope export_format export_observed]. destruct (_ || _); [done|].
  destruct (export_walk _ _ _ _ _ _) as [relays|] eqn:Hw; [|done]. intros Hb Hf.
  rewrite (proj2 (String.eqb_neq _ _) Hf) in Hb.
  apply export_walk_collected in Hw as (seen&Hall&Hnd&Hlen).
  2:{ split_and!; [constructor|constructor|done]. }
  cbn [export_scope export_observed] in Hall. rewrite List.Forall_forall in Hall.
  assert (Hperm : sortDirectoryRelays relays ≡ₚ relays) by apply order_by_perm.
  assert (Hin : ∀ r, In r (sortDirectoryRelays relays) → In r relays).
  { intros r. rewrite <- !list_elem_of_In. by rewrite Hperm. }
  exists (sortDirectoryRelays relays). split_and!.
  - apply order_by_sorted. eapply (NoDup_fmap_1 snd). rewrite <- list_fmap_compose. exact Hnd.
  - unfold actors_of. assert (map RelayActor (sortDirectoryRelays relays) ≡ₚ map RelayActor relays) as -> by (by apply Permutation_map). done.
  - by rewrite (Permutation_length Hperm).
  - intros r Hr%Hin. destruct (Hall r Hr) as (?&?&_). by split.
  - rewrite render_lines in Hb; [congruence|]. intros r Hr%Hin. destruct (Hall r Hr) as (Hv&_&_). apply host_of_canonical. by eapply valid_identity.
Qed.

(** The list of active hosts and the list of unavailable hosts together are, in this
    order, the list of all hosts. *)
Lemma scopes_split now d x : readable now d x →
  List.filter (in_scope ScopeAll) (whole_listing now d x) =
  List.filter (in_scope ScopeActive) (whole_listing now d x) ++ List.filter (in_scope ScopeUnavailable) (whole_listing now d x).
Proof.
  intros Hread. pose proof (whole_listing_sorted now d x Hread) as Hs. revert Hs. generalize (whole_listing now d x). intros l.
  unfold strictly_sorted. induction 1 as [|r l Hs IH Hf]; [done|]. cbn [List.filter]. rewrite IH.
  assert (Htier : in_scope ScopeAll r = in_scope ScopeActive r || in_scope ScopeUnavailable r ∧
    (in_scope ScopeActive r && in_scope ScopeUnavailable r = false)).
  { unfold in_scope, scopeIncludes. change (ScopeAll ≟ ScopeActive) with false. change (ScopeAll ≟ ScopeUnavailable) with false.
    change (ScopeUnavailable ≟ ScopeActive) with false. rewrite !String.eqb_refl. unfold DirectoryTier_Valid, DirectoryTierHeartbeatOnline,
    DirectoryTierOnline, DirectoryTierUnavailable, DirectoryTierGraveyard. split; apply Bool.eq_iff_eq_true; rewrite ?orb_true_iff, ?andb_true_iff, ?orb_true_iff,
    ?Z.eqb_eq, ?Z.leb_le; [lia|]. split; [lia|done]. }
  destruct Htier as [-> Hx]. destruct (in_scope ScopeActive r); [by rewrite (andb_true_l _) in Hx; rewrite Hx|]. cbn [orb].
  destruct (in_scope ScopeUnavailable r) eqn:Hu; [|done].
  assert (List.filter (in_scope ScopeActive) l = []) as ->; [|done].
  assert (Hnone : ∀ r', In r' l → in_scope ScopeActive r' = false).
  { intros r' Hr'. rewrite List.Forall_forall in Hf. specialize (Hf r' Hr'). unfold key_ltb, relay_position in Hf; simpl in Hf.
    change (key_ltb (Tier r) (Tier r')) with (Tier r <? Tier r') in Hf. change (key_ltb (Tier r') (Tier r)) with (Tier r' <? Tier r) in Hf.
    unfold in_scope, scopeIncludes in Hu |- *. change (ScopeUnavailable ≟ ScopeActive) with false in Hu. rewrite String.eqb_refl in Hu |- *.
    unfold DirectoryTierHeartbeatOnline, DirectoryTierOnline, DirectoryTierUnavailable, DirectoryTierGraveyard in *.
    rewrite orb_true_iff, !Z.eqb_eq in Hu. apply orb_false_iff. rewrite !Z.eqb_neq.
    apply orb_true_iff in Hf as [Hf|[Hf%negb_true_iff _]%andb_true_iff]; lia. }
  clear -Hnone. induction l as [|r' l IH]; [done|]. cbn [List.filter]. rewrite (Hnone r') by (by left). apply IH. intros; apply Hnone; by right.
Qed.

Section Downloads.
Context `{PublicHashes}.
Lemma download_served h busy x d now path scope filename : readable (unix_of now) d x → Z.of_nat (length (public_actors d)) ≤ 10000 →
  Scope_Valid scope = true → admits h busy = true →
  serveDirectoryExport (Some h) busy (sqlite_export plain_call x d) (WebRequest "GET" path [] "") now scope filename =
  with_attachment filename (writeCacheablePublicRepresentation (WebRequest "GET" path [] "") "text/plain; charset=utf-8"
    (export_lines FormatHosts (List.filter (in_scope scope) (whole_listing (unix_of now) d x)))).
Proof.
  intros Hread Hmax Hscope Hadm. unfold serveDirectoryExport. change (allowReadMethod (WebRequest "GET" path [] "")) with (@None web_response).
  cbn [web_query bytes_eqb negb]. rewrite Hadm. cbn [negb]. unfold Render. cbn [export_scope export_format export_observed].
  destruct (rd_clock _ _ _ Hread) as [Hn _]. rewrite Hscope, (proj2 (Z.ltb_ge (unix_of now) 0) Hn). change (Format_Valid FormatHosts) with true. cbn [negb orb].
  set (listing := List.filter (in_scope scope) (whole_listing (unix_of now) d x)).
  assert (Hl : (length listing <= length (whole_listing (unix_of now) d x))%nat) by apply List.filter_length_le.
  pose proof (whole_listing_length (unix_of now) d x Hread).
  destruct (export_walk_whole (unix_of now) now d x Hread eq_refl scope FormatHosts) as [_ Hrun]. fold listing in Hrun.
  rewrite Hrun by (unfold MaximumExportRelays; lia). cbv beta iota.
  destruct (rendered_listing (unix_of now) d x scope FormatHosts Hread) as (body&Hbody&Hshows). fold listing in Hbody, Hshows.
  change (FormatHosts ≟ FormatCSV) with false in Hbody |- *. cbv iota zeta in Hbody |- *. rewrite Hbody. by rewrite Hshows.
Qed.

(** The three downloads agree: with a free place and at most 10,000 public
    actors, GET of the list of all hosts answers the hosts of the active list
    followed by the hosts of the unavailable list, each answered 200. *)
Theorem downloads_partition h busy x d now : readable (unix_of now) d x → Z.of_nat (length (public_actors d)) ≤ 10000 → admits h busy = true →
  let download path scope filename :=
    serveDirectoryExport (Some h) busy (sqlite_export plain_call x d) (WebRequest "GET" path [] "") now scope filename in
  let active := download "/downloads/active.txt" ScopeActive "activity-relay-directory-active.txt" in
  let unavailable := download "/downloads/unavailable.txt" ScopeUnavailable "activity-relay-directory-unavailable.txt" in
  let all := download "/downloads/all.txt" ScopeAll "activity-relay-directory-all.txt" in
  web_status active = StatusOK ∧ web_status unavailable = StatusOK ∧ web_status all = StatusOK ∧
  web_body all = web_body active ++ web_body unavailable.
Proof.
  intros Hread Hmax Hadm download active unavailable all. subst active unavailable all download. cbv beta.
  rewrite !(download_served h busy x d now) by done. rewrite (scopes_split (unix_of now) d x Hread).
  unfold writeCacheablePublicRepresentation, with_attachment. cbn [web_if_none_match web_status web_body].
  assert (Hfresh : ∀ body, matchesIfNoneMatch "" (entity_tag body) = false) by done.
  rewrite !Hfresh. unfold body_for. cbn [web_method]. change ("GET" ≟ "HEAD") with false. cbv iota.
  split_and!; try done. unfold export_lines. by rewrite flat_map_app.
Qed.
End Downloads.

(** ** The downloads of one relay *)

#[local] Existing Instance sample_hashes.
Lemma sample_few : Z.of_nat (length (public_actors sample_probed)) ≤ 100.
Proof. vm_compute. discriminate. Qed.
Lemma export_complete_witness : ∃ listing, map RelayActor listing = [sample_actor] ∧
  ∃ body, Render (Some (sqlite_export plain_call sample_extras sample_probed)) (ExportRequest ScopeAll FormatHosts (time_of_unix 3000)) = Ok body ∧
    shows FormatHosts listing body.
Proof.
  assert (Hf : Z.of_nat (length (public_actors sample_probed)) ≤ 12799) by (pose proof sample_few; lia).
  destruct (export_complete ScopeAll FormatHosts (time_of_unix 3000) sample_probed sample_extras sample_readable eq_refl eq_refl) as (listing&Hs&Hin&Hor&_&Hrun).
  assert (Ha : map RelayActor listing = [sample_actor]).
  { assert (Hp : public_actors sample_probed = [sample_actor]) by (vm_compute; reflexivity).
    assert (Hd : match detail_of (unix_of (time_of_unix 3000)) sample_probed sample_extras sample_actor with
                 | Ok (Some r) => (RelayActor r ≟ sample_actor) && scopeIncludes ScopeAll (Tier r) | _ => false end = true) by (vm_compute; reflexivity).
    destruct (detail_of _ _ _ sample_actor) as [[r|]|] eqn:Er; try discriminate Hd. apply andb_true_iff in Hd as [Hr%String.eqb_eq Hscope].
    assert (He : eligible_now sample_probed sample_actor = true) by (vm_compute; reflexivity).
    assert (Hone : ∀ r', In r' listing ↔ r' = r).
    { intros r'. rewrite Hin. split.
      - intros (He'&Hd'&_). assert (Ha' : RelayActor r' = sample_actor).
        { apply public_actors_in in He'. rewrite Hp in He'. destruct He' as [E|[]]. symmetry. exact E. }
        rewrite Ha', Er in Hd'. congruence.
      - intros ->. rewrite Hr. split; [exact He|split; [exact Er|exact Hscope]]. }
    assert (Hl : listing = [r]).
    { apply (strictly_sorted_same relay_position); [exact Hs|unfold strictly_sorted; constructor; constructor|]. intros r'. rewrite Hone.
      split; [intros ->; left; reflexivity|intros [E|[]]; symmetry; exact E]. }
    rewrite Hl. cbn [map]. by rewrite Hr. }
  exists listing. split; [exact Ha|].
  assert (Hsize : Z.of_nat (length listing) ≤ MaximumExportRelays) by (rewrite <- (length_map RelayActor), Ha; vm_compute; discriminate).
  destruct (Hrun Hsize Hf) as [body Hbody]. exists body. split; [exact Hbody|].
  destruct Hor as [Hl|(body'&Hbody'&Hshows)]; [rewrite Hbody in Hl; discriminate Hl|]. rewrite Hbody in Hbody'. injection Hbody' as ->. exact Hshows.
Defined.
Lemma downloads_partition_witness :
  web_status (serveDirectoryExport (Some sample_public_handler) 0 (sqlite_export plain_call sample_extras sample_probed)
    (WebRequest "GET" "/downloads/active.txt" [] "") (time_of_unix 3000) ScopeActive "activity-relay-directory-active.txt") = StatusOK.
Proof.
  assert (Hf : Z.of_nat (length (public_actors sample_probed)) ≤ 10000) by (pose proof sample_few; lia).
  assert (Ha : admits sample_public_handler 0 = true) by (vm_compute; reflexivity).
  pose proof (downloads_partition sample_public_handler 0 sample_extras sample_probed (time_of_unix 3000) sample_readable Hf Ha) as Hd.
  cbv zeta beta in Hd. exact (proj1 Hd).
Defined.
